(* ===== verification/_CoqProject ===== *)
-Q . S2P
Prelude.v
PyStr.v
PyDict.v
PyVal.v
PyRe.v
PyBytes.v
PyPath.v
PyIp.v
HostPath.v
ConfigRead.v
Algorithms.v
Classify.v
Der.v
DerTheory.v
DerEncode.v
TrustStore.v
Sshd.v
Policy.v
OpensslConf.v
Verdict.v
Services.v
Gap.v
SvcEndpoint.v
SvcNginx.v
SvcWeb.v
SvcMail.v
SvcData.v
SvcTheory.v
SvcSpec.v
SvcNginxTheory.v
SvcScan.v
Boot.v
BootTheory.v
SarifTables.v
SarifRules.v
Sarif.v
SarifTheory.v
Ndjson.v
Keytab.v
Krb.v
RpmHeader.v
RpmBlobs.v
RpmBlobsTheory.v
Packages.v
PackagesTheory.v
Osinfo.v
OsinfoTheory.v
Sbom.v
SbomTheory.v
CbomAssets.v
Cbom.v
CbomRender.v
CbomRefs.v
InvMeta.v
Libraries.v
LibrariesTheory.v
Openssl.v
OpensslTheory.v
ProcNet.v
Elf.v
Linkage.v
Worker.v
SvcLinkage.v
Processes.v
Pgp.v
Signing.v
Recommend.v
RecommendTheory.v
Observation.v
Join.v
PyCsv.v
Aggregate.v
