(* ===== verification/Prelude.v ===== *)
(** * pqc-readiness: a verification library

    The program under [src/pqc_readiness] inspects a host (its configuration
    files, certificates, firmware variables, the output of [openssl] and
    [sshd]), builds one JSON report of what the host can do in post-quantum
    cryptography and what it is set up to do, judges it, recommends
    algorithms, prints it in several formats, aggregates the reports of a
    fleet and joins them with what was observed on the wire.  This library
    translates its decision logic into executable definitions and proves
    what the program relies on.

    ** How the parts interact

    Detectors turn text and bytes into the fields of the report.  [gap.py],
    [verdict.py] and [recommendation.py] read the finished report;
    [observations.py] and [aggregate.py] read many reports; the renderers
    print one.  A detector sees the file system through [_platform.py], which
    redirects every path into a mounted tree.

    ** Files of this library

    A file opens with the data and operations of its part and goes on with
    the theorems; the parts with long proofs have a file of their own for
    them, named with [Theory], [Spec], [Encode] or [Refs].

    Foundations.
    - [Prelude]: exceptions and the result monad [res], loops that may raise,
      Python's stable [sorted], strings in order, hint databases, tactics.
    - [PyStr], [PyDict], [PyVal], [PyRe], [PyBytes], [PyPath], [PyIp], [PyCsv]:
      what the code uses of Python and its standard library: string methods,
      insertion-ordered dicts, dynamic JSON values with exact binary64 floats,
      backtracking regular expressions (with a proof that the matcher agrees
      with the language), byte strings with [struct] and base64, posixpath and
      fnmatch, IP addresses, CSV.

    Detection of the configuration.
    - [HostPath]: [_platform.py], link resolution inside a tree, globbing.
    - [ConfigRead]: [detect/config_read.py], absent / unreadable / text.
    - [Algorithms], [Classify]: [algorithms.py] and the group and key-exchange
      parsers of [detect/config.py] and [detect/protocols.py].
    - [Der], [DerTheory], [DerEncode], [TrustStore]: [detect/certs.py]; the
      reader, its safety, an encoder it inverts, and the trust-store tally.
    - [Sshd], [Policy], [OpensslConf]: the effective sshd configuration, the
      crypto-policy back-ends and the effective OpenSSL configuration.
    - [Openssl], [OpensslTheory]: FIPS mode, the algorithm fence and the
      upgrade advice of [detect/config.py], and [detect/openssl_host.py].
    - [SvcEndpoint], [SvcNginx], [SvcWeb], [SvcMail], [SvcData]: the thirteen
      parsers of [detect/config_services_parsers.py]; [SvcTheory], [SvcSpec],
      [SvcNginxTheory]: their theorems.
    - [Services], [SvcScan]: [detect/config_services.py], the lookups that join
      a listener to a service, and the scan of the service configurations.
    - [Boot], [BootTheory]: [detect/protocols_boot.py], UEFI signature lists,
      module signatures, IMA, TPM.
    - [Keytab], [Krb]: [detect/protocols_kerberos.py].

    Detection of what is installed and running.
    - [RpmHeader], [RpmBlobs], [RpmBlobsTheory], [Packages], [PackagesTheory]:
      [detect/packages.py]: the header blobs, the ndb and Berkeley DB readers,
      the text listings of the other managers, and the inventory.
    - [Osinfo], [OsinfoTheory]: [detect/osinfo.py] and [detect/runtime.py].
    - [Libraries], [LibrariesTheory]: [detect/protocols_libraries.py].
    - [ProcNet], [Elf], [Linkage], [Worker], [SvcLinkage]:
      [detect/runtime_services.py]: the tables of /proc, ELF files and Go build
      information, the crypto libraries of a process, the search for a
      worker's libraries, and the scan of the listening sockets.
    - [Processes]: [detect/runtime_processes.py], the scan of all processes.
    - [Pgp], [Signing]: [detect/protocols_signing.py]: OpenPGP packets and keys,
      armor, PEM keys, the trust store of each package manager, and the
      inventory of the keys.

    Judgement and output.
    - [Verdict]: [verdict.py].  [Gap]: [gap.py].
    - [Recommend], [RecommendTheory]: [recommendation.py].
    - [SarifTables], [SarifRules], [Sarif], [SarifTheory]: [render/sarif.py].
      [Ndjson]: [render/ndjson.py].
    - [Sbom], [SbomTheory]: [render/sbom.py].  [CbomAssets], [Cbom],
      [CbomRender], [CbomRefs]: [render/cbom.py], [render/cbom_profiles.py].
    - [InvMeta]: [inventory_metadata.py].
    - [Observation], [Join]: [observations.py].  [Aggregate]: [aggregate.py].

    ** How state and effects are represented

    A report or another JSON value is a [value]; an operation on it that may
    fail at run time returns [res], with the exception Python raises.  A
    Python object that is filled in place is a record threaded through the
    loop; the caches of the process scans are the state of the monad [scan] of
    [Linkage].  What a part asks of the machine (files, links, directories,
    commands) is a record of queries, one for each part, so that a theorem can
    say which queries an answer depends on.  Text is the list of its UTF-8
    bytes; the letter-case, digit and white-space classes are the ASCII ones.
    Integers are unbounded, as in Python; fields of binary formats keep their
    width through the number of bytes that is read.

    ** What the theorems show

    - Round trips against encoders: certificates, RSA public keys of sshd,
      UEFI signature lists, module signatures, keytabs, rpm headers, Berkeley
      DB and ndb files, socket tables of the kernel, Go build information,
      OpenPGP packets, policy back-ends, nginx configurations, CSV.
    - Totality and safety on arbitrary input: every DER reader stays in its
      buffer and raises nothing but its own error; the rpm readers and the ELF
      reader raise only what their callers catch, with the exceptions stated;
      link resolution never leaves the tree; the walk over a worker's
      libraries reads files below its root only; includes are bounded.
    - Accounting: every listener, process, socket, observation, certificate,
      signing key, package, report and file ends up in exactly one place and
      every counter is exact.
    - Confinement: under a tree or a mounted host the answer is a function of
      that tree ([scan_packages], [detect_os], [openssl_capability]).
    - Soundness of verdicts: a state "capable", "blocked", "configured" rests
      on the evidence the report names; every SARIF rule fires exactly under
      its condition; the references of a CBOM resolve.
    - Deviations, each with a theorem or an example that exhibits it, where
      the code does not do what its documentation says.

    ** Fuel and bounds

    A loop over a buffer or a text gets the length as fuel, because each
    round consumes at least one unit.  The search for descendants gets 65
    rounds: every round but the last adds a process and it stops at 64
    ([generations_enough]).  A uvarint has at most ten bytes, by its own
    shift limit.  Include depths are the program's own (16 for OpenSSL and
    sshd, 8 for services), the walk over linked libraries goes two levels
    down, link resolution follows at most 40 links; the theorems hold at these
    bounds, which are not chosen by the model.  The caps on pids and groups
    are non-negative.

    ** Parameters

    The file system (read, list, link, stat), the output of the commands the
    program runs, sqlite, [json.loads], [datetime.fromisoformat], decompression,
    the XML parser, the clock, random identifiers and the TPM
    device are arguments of the definitions that use them.

    ** Not modelled

    - Probing of the machine: CPU, PCI and memory ([detect/hardware.py]), the
      benchmarks ([bench.py]), OpenSSH and IPsec builds, tunnels, DNSSEC and
      IKE configurations, the discovery of certificate files, the offline
      probes.
    - Printing: text, SPDX and Prometheus output, and JSON itself.
    - The command line, the registry of probes, and the scripts under
      [deploy/] and [scripts/].
    Each is listed with its reason in the manifest.  Within the parts that are
    modelled, the argparse wrappers and logging are left out. *)

From Stdlib Require Export ZArith Lia Ascii.
From Stdlib Require Import String Permutation Sorted.
From stdpp Require Export base tactics list strings sorting.

#[export] Set Default Goal Selector "!".
#[global] Open Scope Z_scope.

Create HintDb pqc.
Create Rewrite HintDb pqc_rw.

(** ** Python exceptions and the result monad *)

(** The exceptions the modelled code raises or lets escape.  [KeyError]
    carries the missing key, [ValueError] and [Custom] the message. *)
Inductive exn : Type :=
| AttributeError
| TypeError
| IndexError
| OverflowError
| KeyError (key : string)
| ValueError (msg : string)
| Custom (cls : string) (msg : string).

#[export] Instance exn_eq_dec : EqDecision exn.
Proof. solve_decision. Defined.

(** A Python computation that returns a value or raises. *)
Inductive res (A : Type) : Type :=
| Ok (a : A)
| Raise (e : exn).
Arguments Ok {A} a.
Arguments Raise {A} e.

#[export] Instance res_ret : MRet res := fun A a => Ok a.
#[export] Instance res_bind : MBind res := fun A B f m =>
  match m with Ok a => f a | Raise e => Raise e end.
#[export] Instance res_fmap : FMap res := fun A B f m =>
  match m with Ok a => Ok (f a) | Raise e => Raise e end.

(** A left-to-right loop whose body may raise ([for x in l: ...]). *)
Fixpoint foldM {A B : Type} (f : B -> A -> res B) (acc : B) (l : list A) : res B :=
  match l with
  | [] => Ok acc
  | x :: l => acc ← f acc x; foldM f acc l
  end.

(** [any(...)] over a generator that may raise: it stops at the first hit. *)
Fixpoint anyM {A : Type} (f : A -> res bool) (l : list A) : res bool :=
  match l with
  | [] => Ok false
  | x :: l => b ← f x; if (b : bool) then Ok true else anyM f l
  end.

Definition is_ok {A} (r : res A) : bool := if r is Ok _ then true else false.

Lemma res_bind_ok {A B} (m : res A) (f : A -> res B) b :
  (x ← m; f x) = Ok b <-> exists a, m = Ok a /\ f a = Ok b.
Proof.
  destruct m; simpl; split; [eauto | | discriminate | ].
  - intros (? & [= <-] & ?); done.
  - intros (? & [=] & _).
Qed.

Lemma foldM_app {A B} (f : B -> A -> res B) acc l1 l2 :
  foldM f acc (l1 ++ l2) = (b ← foldM f acc l1; foldM f b l2).
Proof.
  revert acc; induction l1 as [|x l1 IH]; intros acc; simpl; [done|].
  destruct (f acc x); simpl; [apply IH | done].
Qed.

(** Invariant rule for loops. *)
Lemma foldM_inv {A B} (P : B -> Prop) (f : B -> A -> res B) l acc acc' :
  P acc ->
  (forall b x b', x ∈ l -> P b -> f b x = Ok b' -> P b') ->
  foldM f acc l = Ok acc' -> P acc'.
Proof.
  revert acc; induction l as [|x l IH]; intros acc HP Hstep; simpl.
  - by intros [= <-].
  - intros (b & Hx & Hf)%res_bind_ok. eapply (IH b); [| |done].
    + eapply Hstep; [by left | done | done].
    + intros b0 y b' Hy. apply Hstep. by right.
Qed.

(** A loop whose body never raises is a [foldl]. *)
Lemma foldM_pure {A B} (f : B -> A -> B) acc l :
  foldM (fun b x => Ok (f b x)) acc l = Ok (foldl f acc l).
Proof. revert acc; induction l; intros acc; simpl; auto. Qed.

Lemma foldM_ext {A B} (f g : B -> A -> res B) acc l :
  (forall b x, x ∈ l -> f b x = g b x) -> foldM f acc l = foldM g acc l.
Proof.
  revert acc; induction l as [|x l IH]; intros acc H; simpl; [done|].
  rewrite (H acc x) by (by left). destruct (g acc x); simpl; [|done].
  apply IH. intros; apply H; by right.
Qed.

(** [safe E P r]: the computation returns a value in [P] or raises an
    exception in [E]; the rule for sequencing is [safe_bind]. *)
Definition safe {A} (E : exn -> Prop) (P : A -> Prop) (r : res A) : Prop :=
  match r with Ok a => P a | Raise e => E e end.

Lemma safe_bind {A B} E (P : A -> Prop) (Q : B -> Prop) (m : res A) (f : A -> res B) :
  safe E P m -> (forall a, P a -> safe E Q (f a)) -> safe E Q (x ← m; f x).
Proof. destruct m; simpl; auto. Qed.

Lemma safe_mono {A} (E E' : exn -> Prop) (P Q : A -> Prop) (m : res A) :
  safe E P m -> (forall a, P a -> Q a) -> (forall e, E e -> E' e) -> safe E' Q m.
Proof. destruct m; simpl; auto. Qed.

Lemma safe_foldM {A B} E (P : B -> Prop) (f : B -> A -> res B) l acc :
  P acc -> (forall b x, x ∈ l -> P b -> safe E P (f b x)) -> safe E P (foldM f acc l).
Proof.
  revert acc; induction l as [|x l IH]; intros acc HP Hf; simpl; [done|].
  apply (safe_bind E P); [apply Hf; [by left | done]|].
  intros b Hb. apply IH; [done|]. intros c y Hy. apply Hf. by right.
Qed.

Lemma safe_ok {A} E (P : A -> Prop) m a : safe E P m -> m = Ok a -> P a.
Proof. by intros H ->. Qed.

(** Case analysis on the bind at the head of an equation. *)
Ltac bind_inv H :=
  let x := fresh "x" in let Hx := fresh "Hx" in
  apply res_bind_ok in H as (x & Hx & H); cbv beta in Hx, H.
(** The same with names. *)
Tactic Notation "bind" hyp(H) "as" ident(x) ident(Hx) :=
  apply res_bind_ok in H as (x & Hx & H); cbv beta in Hx, H.
Ltac binds :=
  repeat match goal with
  | H : mbind _ _ = Ok _ |- _ => bind_inv H
  | H : mret _ = Ok _ |- _ => injection H as H
  | H : Ok _ = Ok _ |- _ => injection H as H
  | H : Raise _ = Ok _ |- _ => discriminate H
  end.

(** A comprehension whose body may raise, one element at a time. *)
Lemma mapM_cons_ok {A B} (f : A -> res B) x l k :
  mapM f (x :: l) = Ok k <-> exists y ys, k = y :: ys /\ f x = Ok y /\ mapM f l = Ok ys.
Proof.
  change (mapM f (x :: l)) with (y ← f x; z ← mapM f l; mret (y :: z)). split.
  - intros H. bind H as y Hy. bind H as ys Hys. injection H as <-. by exists y, ys.
  - intros (y & ys & -> & Hx & Hl). rewrite Hx. cbn [mbind res_bind]. by rewrite Hl.
Qed.

(** Split every [if]/[match] in the goal, closing the absurd branches. *)
Ltac cases := repeat (case_match; simplify_eq/=; try done).

(** ** Tuples of integers compare lexicographically: [l >= k] *)

Fixpoint tuple_ge (l k : list Z) : bool :=
  match l, k with
  | _, [] => true
  | [], _ :: _ => false
  | x :: l, y :: k => (y <? x)%Z || ((x =? y)%Z && tuple_ge l k)
  end.

(** ** [sorted()]: a stable insertion sort on a strict order *)

Section Sort.
Context {A : Type} (lt : A -> A -> bool).

(** [x] goes before the first element that is not smaller, so equal
    elements keep their order. *)
Fixpoint insert_sorted (x : A) (l : list A) : list A :=
  match l with
  | [] => [x]
  | y :: l' => if lt y x then y :: insert_sorted x l' else x :: l
  end.

Definition py_sorted (l : list A) : list A := foldr insert_sorted [] l.

Definition not_gt (x y : A) : Prop := lt y x = false.

Lemma insert_sorted_perm x l : insert_sorted x l ≡ₚ x :: l.
Proof.
  induction l as [|y l IH]; simpl; [done|].
  destruct (lt y x); [|done]. rewrite IH. constructor.
Qed.

Lemma py_sorted_perm l : py_sorted l ≡ₚ l.
Proof.
  induction l as [|x l IH]; simpl; [done|].
  rewrite insert_sorted_perm. by f_equiv.
Qed.

Lemma elem_of_py_sorted x l : x ∈ py_sorted l <-> x ∈ l.
Proof. by rewrite py_sorted_perm. Qed.

Lemma length_py_sorted l : length (py_sorted l) = length l.
Proof. apply Permutation_length, py_sorted_perm. Qed.

Lemma NoDup_py_sorted l : NoDup (py_sorted l) <-> NoDup l.
Proof. by rewrite py_sorted_perm. Qed.

(** The comparison is a strict weak order: what Python's [sorted]
    needs of [<] to give a sorted result. *)
Class StrictWeak : Prop := {
  sw_asym : forall x y, lt x y = true -> lt y x = false;
  sw_trans : forall x y z, not_gt x y -> not_gt y z -> not_gt x z }.

Context `{!StrictWeak}.

Lemma insert_sorted_sorted x l :
  StronglySorted not_gt l -> StronglySorted not_gt (insert_sorted x l).
Proof.
  induction 1 as [|y l Hl IH Hy]; simpl; [repeat constructor|].
  destruct (lt y x) eqn:E.
  - constructor; [done|].
    rewrite insert_sorted_perm. constructor; [|done].
    by apply sw_asym.
  - constructor; [by constructor|]. constructor; [done|].
    eapply Forall_impl; [exact Hy|]. intros z Hz; simpl in Hz.
    by eapply sw_trans.
Qed.

Lemma py_sorted_sorted l : StronglySorted not_gt (py_sorted l).
Proof.
  induction l; simpl; [constructor | by apply insert_sorted_sorted].
Qed.

(** When incomparable elements are equal the sorted list is determined
    by the multiset: [sorted] does not depend on the input order. *)
Lemma sorted_unique l1 l2 :
  (forall x y, not_gt x y -> not_gt y x -> x = y) ->
  StronglySorted not_gt l1 -> StronglySorted not_gt l2 -> l1 ≡ₚ l2 -> l1 = l2.
Proof.
  intros Hanti H1 H2.
  apply (StronglySorted_unique_strong not_gt); auto.
Qed.

Lemma py_sorted_unique l1 l2 :
  (forall x y, not_gt x y -> not_gt y x -> x = y) ->
  l1 ≡ₚ l2 -> py_sorted l1 = py_sorted l2.
Proof.
  intros Hanti Hp. apply sorted_unique; [done | apply py_sorted_sorted.. |].
  by rewrite !py_sorted_perm.
Qed.
End Sort.

(** The order of Python strings (code points; bytes of the UTF-8 text give
    the same order). *)
Definition str_lt (a b : string) : bool := String.ltb a b.

Lemma ascii_compare_lt_trans a b c :
  Ascii.compare a b = Lt -> Ascii.compare b c = Lt -> Ascii.compare a c = Lt.
Proof. unfold Ascii.compare. rewrite !N.compare_lt_iff. lia. Qed.

Lemma ascii_compare_refl a : Ascii.compare a a = Eq.
Proof. apply N.compare_refl. Qed.

Lemma string_compare_refl s : String.compare s s = Eq.
Proof. induction s as [|c s IH]; simpl; [done|]. by rewrite ascii_compare_refl. Qed.

Lemma string_compare_lt_trans a b c :
  String.compare a b = Lt -> String.compare b c = Lt -> String.compare a c = Lt.
Proof.
  revert b c; induction a as [|x a IH]; intros [|y b] [|z c]; simpl; try done.
  destruct (Ascii.compare x y) eqn:E1, (Ascii.compare y z) eqn:E2; try done;
    repeat match goal with H : Ascii.compare _ _ = Eq |- _ =>
      apply Ascii.compare_eq_iff in H as -> end.
  - rewrite ascii_compare_refl. apply IH.
  - by rewrite E2.
  - by rewrite E1.
  - by rewrite (ascii_compare_lt_trans _ _ _ E1 E2).
Qed.

#[export] Instance str_lt_sw : StrictWeak str_lt.
Proof.
  unfold str_lt, String.ltb; split.
  - intros x y. rewrite (String.compare_antisym y x).
    by destruct (String.compare x y).
  - unfold not_gt. intros x y z.
    rewrite (String.compare_antisym y x), (String.compare_antisym z y),
      (String.compare_antisym z x).
    destruct (String.compare x y) eqn:E1; simpl; try done;
    destruct (String.compare y z) eqn:E2; simpl; try done; intros _ _;
    repeat match goal with H : String.compare _ _ = Eq |- _ =>
      apply String.compare_eq_iff in H as -> end;
    rewrite ?string_compare_refl, ?E1, ?E2; try done.
    by rewrite (string_compare_lt_trans _ _ _ E1 E2).
Qed.

Lemma str_lt_anti x y : not_gt str_lt x y -> not_gt str_lt y x -> x = y.
Proof.
  unfold not_gt, str_lt, String.ltb. rewrite (String.compare_antisym y x).
  destruct (String.compare x y) eqn:E; simpl; try done.
  intros _ _. by apply String.compare_eq_iff.
Qed.

(** [sorted(set(l))] on strings. *)
Definition sorted_set (l : list string) : list string :=
  py_sorted str_lt (remove_dups l).

Lemma elem_of_sorted_set x l : x ∈ sorted_set l <-> x ∈ l.
Proof. unfold sorted_set. by rewrite elem_of_py_sorted, elem_of_remove_dups. Qed.

Lemma NoDup_sorted_set l : NoDup (sorted_set l).
Proof. unfold sorted_set. rewrite NoDup_py_sorted. apply NoDup_remove_dups. Qed.

Lemma sorted_set_sorted l : StronglySorted (not_gt str_lt) (sorted_set l).
Proof. apply py_sorted_sorted, _. Qed.

(** A sorted set depends only on its members. *)
Lemma sorted_set_ext l1 l2 : (forall x, x ∈ l1 <-> x ∈ l2) -> sorted_set l1 = sorted_set l2.
Proof.
  intros H. apply py_sorted_unique; [apply _ | apply str_lt_anti|].
  apply NoDup_Permutation; [apply NoDup_remove_dups.. |].
  intros x. by rewrite !elem_of_remove_dups.
Qed.

Lemma sorted_set_nil l : sorted_set l = [] <-> l = [].
Proof.
  split; [|by intros ->]. intros H. destruct l as [|x l]; [done|exfalso].
  assert (x ∈ sorted_set (x :: l)) as Hx by (apply elem_of_sorted_set; by left).
  rewrite H in Hx. by apply not_elem_of_nil in Hx.
Qed.

#[export] Hint Resolve NoDup_sorted_set sorted_set_sorted py_sorted_sorted py_sorted_perm : pqc.
#[export] Hint Rewrite @elem_of_py_sorted @elem_of_sorted_set @length_py_sorted : pqc_rw.
