(* ===== verification/PyStr.v ===== *)
(** * Python [str] methods

    The [str] operations the modelled code calls, on [string] values.  A
    [string] holds the UTF-8 bytes of the Python text; the methods below are
    Python's on ASCII characters, and treat a byte above 127 as a character
    that is no space, digit or letter. *)

From S2P Require Import Prelude.
From Stdlib Require Import String.
From stdpp Require Import pretty.
Open Scope Z_scope.

Abbreviation chars := String.list_ascii_of_string.
Abbreviation str_of := String.string_of_list_ascii.
Abbreviation str_join := String.concat.

Definition code (c : ascii) : N := N_of_ascii c.

Definition in_range (lo hi : N) (c : ascii) : bool :=
  (lo <=? code c)%N && (code c <=? hi)%N.

(** [str.isspace] on ASCII. *)
Definition is_space (c : ascii) : bool :=
  in_range 9 13 c || in_range 28 32 c.
Definition is_digit : ascii -> bool := in_range 48 57.
Definition is_upper : ascii -> bool := in_range 65 90.
Definition is_lower : ascii -> bool := in_range 97 122.
Definition is_alpha (c : ascii) : bool := is_upper c || is_lower c.
Definition is_alnum (c : ascii) : bool := is_alpha c || is_digit c.

Definition lower_char (c : ascii) : ascii :=
  if is_upper c then ascii_of_N (code c + 32) else c.
Definition upper_char (c : ascii) : ascii :=
  if is_lower c then ascii_of_N (code c - 32) else c.

Definition str_map (f : ascii -> ascii) (s : string) : string :=
  str_of (f <$> chars s).
Definition lower : string -> string := str_map lower_char.
Definition upper : string -> string := str_map upper_char.

Definition ends_with (suffix s : string) : bool :=
  String.prefix (str_of (reverse (chars suffix))) (str_of (reverse (chars s))).
Definition starts_with (prefix s : string) : bool := String.prefix prefix s.

(** [str.lstrip], [str.rstrip], [str.strip] with a set of characters. *)
Fixpoint drop_while (p : ascii -> bool) (l : list ascii) : list ascii :=
  match l with
  | [] => []
  | c :: l' => if p c then drop_while p l' else l
  end.
Definition lstrip_by (p : ascii -> bool) (s : string) : string :=
  str_of (drop_while p (chars s)).
Definition rstrip_by (p : ascii -> bool) (s : string) : string :=
  str_of (reverse (drop_while p (reverse (chars s)))).
Definition strip_by (p : ascii -> bool) (s : string) : string :=
  rstrip_by p (lstrip_by p s).
Definition lstrip : string -> string := lstrip_by is_space.
Definition rstrip : string -> string := rstrip_by is_space.
Definition strip : string -> string := strip_by is_space.

(** Membership of a character in a literal set, [c in "..."]. *)
Definition char_in (set : string) (c : ascii) : bool :=
  bool_decide (c ∈ chars set).

(** [s.startswith] on character lists, the primitive of the searches. *)
Fixpoint prefix_chars (p l : list ascii) : bool :=
  match p, l with
  | [], _ => true
  | _ :: _, [] => false
  | a :: p', b :: l' => Ascii.eqb a b && prefix_chars p' l'
  end.

(** [needle in hay]. *)
Fixpoint contains_chars (p l : list ascii) : bool :=
  prefix_chars p l || match l with [] => false | _ :: l' => contains_chars p l' end.
Definition contains (needle hay : string) : bool :=
  contains_chars (chars needle) (chars hay).

(** [s.split(sep)] for a non-empty [sep]: [skip] counts the characters of a
    separator already recognised. *)
Fixpoint split_chars (sep : list ascii) (skip : nat) (acc l : list ascii) :
    list (list ascii) :=
  match l with
  | [] => [reverse acc]
  | c :: l' =>
      match skip with
      | S k => split_chars sep k acc l'
      | O => if prefix_chars sep l
             then reverse acc :: split_chars sep (length sep - 1) [] l'
             else split_chars sep 0 (c :: acc) l'
      end
  end.
Definition split (sep s : string) : list string :=
  str_of <$> split_chars (chars sep) 0 [] (chars s).

(** [s.split(sep, 1)[0]]: the text before the first separator. *)
Fixpoint before_chars (sep l : list ascii) : list ascii :=
  match l with
  | [] => []
  | c :: l' => if prefix_chars sep l then [] else c :: before_chars sep l'
  end.
Definition before (sep s : string) : string :=
  str_of (before_chars (chars sep) (chars s)).

(** [s.rsplit(sep, 1)[-1]]: the text after the last separator. *)
Definition after_last (sep s : string) : string :=
  List.last (split sep s) s.

(** [s.split()]: runs of non-space characters. *)
Fixpoint words_chars (acc l : list ascii) : list (list ascii) :=
  match l with
  | [] => if acc is [] then [] else [reverse acc]
  | c :: l' =>
      if is_space c
      then (if acc is [] then [] else [reverse acc]) ++ words_chars [] l'
      else words_chars (c :: acc) l'
  end.
Definition words (s : string) : list string :=
  str_of <$> words_chars [] (chars s).

(** [s.splitlines()]: \n, \r, \r\n, \v, \f and the FS/GS/RS separators end a
    line; a final line end adds no empty line. *)
Definition is_line_end (c : ascii) : bool :=
  in_range 10 13 c || in_range 28 30 c.
Fixpoint lines_chars (acc l : list ascii) : list (list ascii) :=
  match l with
  | [] => if acc is [] then [] else [reverse acc]
  | c :: l' =>
      if is_line_end c then
        reverse acc ::
          match l' with
          | d :: l'' => if Ascii.eqb c "013" && Ascii.eqb d "010"
                        then lines_chars [] l'' else lines_chars [] l'
          | [] => []
          end
      else lines_chars (c :: acc) l'
  end.
Definition splitlines (s : string) : list string :=
  str_of <$> lines_chars [] (chars s).

Definition remove_prefix (p s : string) : string :=
  if prefix_chars (chars p) (chars s) then str_of (drop (String.length p) (chars s)) else s.
Definition remove_suffix (p s : string) : string :=
  if ends_with p s then str_of (take (String.length s - String.length p) (chars s)) else s.

(** [s.isdigit()]. *)
Definition isdigit (s : string) : bool :=
  match chars s with [] => false | l => forallb is_digit l end.

Definition digit_val (c : ascii) : Z := Z.of_N (code c) - 48.

(** The value of a run of decimal digits. *)
Definition digits_val (l : list ascii) : Z :=
  foldl (fun acc c => 10 * acc + digit_val c) 0 l.

(** Digits with single underscores between them, as [int()] accepts. *)
Fixpoint int_digits (prev : bool) (acc : list ascii) (l : list ascii) : option Z :=
  match l with
  | [] => if prev then Some (digits_val (reverse acc)) else None
  | c :: l' =>
      if is_digit c then int_digits true (c :: acc) l'
      else if Ascii.eqb c "_" && prev then int_digits false acc l' else None
  end.

(** [int(s)]: [None] where Python raises ValueError. *)
Definition int_of_str (s : string) : option Z :=
  match chars (strip s) with
  | "-"%char :: l => Z.opp <$> int_digits false [] l
  | "+"%char :: l => int_digits false [] l
  | l => int_digits false [] l
  end.

Definition show_Z (z : Z) : string := pretty z.
Definition show_nat (n : nat) : string := pretty n.

(** ** Lemmas *)

Lemma chars_str_of l : chars (str_of l) = l.
Proof. apply String.list_ascii_of_string_of_list_ascii. Qed.
Lemma str_of_chars s : str_of (chars s) = s.
Proof. apply String.string_of_list_ascii_of_string. Qed.

Lemma chars_inj s t : chars s = chars t -> s = t.
Proof. intros H. by rewrite <-(str_of_chars s), H, str_of_chars. Qed.
Lemma str_of_inj l k : str_of l = str_of k -> l = k.
Proof. intros H. by rewrite <-(chars_str_of l), H, chars_str_of. Qed.

Lemma chars_app s t : chars (s +:+ t) = chars s ++ chars t.
Proof. induction s as [|c s IH]; [done|].
  change (c :: chars (s +:+ t) = c :: chars s ++ chars t). by f_equal. Qed.
Lemma str_of_app l k : str_of (l ++ k) = str_of l +:+ str_of k.
Proof. apply chars_inj. by rewrite chars_app, !chars_str_of. Qed.

#[export] Hint Rewrite chars_str_of str_of_chars chars_app : pqc_rw.

Lemma prefix_chars_spec p l : prefix_chars p l = true <-> exists k, l = p ++ k.
Proof.
  revert l; induction p as [|a p IH]; intros l; simpl; [split; eauto|].
  destruct l as [|b l].
  - split; [done|]. by intros [k [=]].
  - rewrite andb_true_iff, IH, Ascii.eqb_eq. split.
    + intros [-> [k ->]]. by exists k.
    + intros [k [= -> ->]]. eauto.
Qed.

Lemma contains_chars_spec p l :
  contains_chars p l = true <-> exists k1 k2, l = k1 ++ p ++ k2.
Proof.
  induction l as [|b l IH]; simpl; rewrite orb_true_iff, prefix_chars_spec.
  - split.
    + intros [[k Hk]|]; [|done]. by exists [], k.
    + intros (k1 & k2 & H). symmetry in H. apply app_nil in H as [-> H]. eauto.
  - rewrite IH. split.
    + intros [[k Hk]|(k1 & k2 & ->)]; [by exists [], k | by exists (b :: k1), k2].
    + intros ([|x k1] & k2 & H); simplify_eq/=; [by left; eauto | right; eauto].
Qed.

Lemma lower_char_idem c : lower_char (lower_char c) = lower_char c.
Proof. destruct c as [[] [] [] [] [] [] [] []]; reflexivity. Qed.

Lemma lower_idem s : lower (lower s) = lower s.
Proof.
  unfold lower, str_map. rewrite chars_str_of. f_equal.
  rewrite <-list_fmap_compose. apply list_fmap_ext. intros; apply lower_char_idem.
Qed.

(** [sep.join(pieces)] on character lists. *)
Fixpoint join_chars (sep : list ascii) (ps : list (list ascii)) : list ascii :=
  match ps with
  | [] => []
  | [p] => p
  | p :: ps' => p ++ sep ++ join_chars sep ps'
  end.

Lemma join_chars_cons sep p ps :
  ps <> [] -> join_chars sep (p :: ps) = p ++ sep ++ join_chars sep ps.
Proof. by destruct ps. Qed.

Lemma chars_str_join sep ps :
  chars (str_join sep ps) = join_chars (chars sep) (String.list_ascii_of_string <$> ps).
Proof.
  induction ps as [|p ps IH]; [done|]. destruct ps as [|q ps]; [done|].
  rewrite fmap_cons, join_chars_cons by done. rewrite <-IH.
  change (str_join sep (p :: q :: ps)) with (p +:+ sep +:+ str_join sep (q :: ps)).
  by rewrite !chars_app.
Qed.

(** Splitting on a character and joining with it gives the text back, and
    no piece contains the separator. *)
Lemma split_chars_join c acc l :
  split_chars [c] 0 acc l <> [] /\
  join_chars [c] (split_chars [c] 0 acc l) = reverse acc ++ l.
Proof.
  revert acc; induction l as [|d l IH]; intros acc; simpl.
  - by rewrite app_nil_r.
  - rewrite andb_true_r. destruct (Ascii.eqb c d) eqn:E.
    + apply Ascii.eqb_eq in E as <-. destruct (IH []) as [Hne Hj]. split; [done|].
      by rewrite join_chars_cons, Hj.
    + destruct (IH (d :: acc)) as [Hne Hj]. split; [done|].
      by rewrite Hj, reverse_cons, <-app_assoc.
Qed.

Lemma split_chars_free c acc l :
  c ∉ acc -> Forall (fun p => c ∉ p) (split_chars [c] 0 acc l).
Proof.
  revert acc; induction l as [|d l IH]; intros acc Hacc; simpl.
  - by constructor; [rewrite elem_of_reverse|].
  - rewrite andb_true_r. destruct (Ascii.eqb c d) eqn:E.
    + constructor; [by rewrite elem_of_reverse | apply IH, not_elem_of_nil].
    + apply IH. apply Ascii.eqb_neq in E. by rewrite not_elem_of_cons.
Qed.

Lemma split_join c s : str_join (String c EmptyString) (split (String c EmptyString) s) = s.
Proof.
  apply chars_inj. rewrite chars_str_join. unfold split; simpl.
  rewrite <-list_fmap_compose, (list_fmap_ext _ id); [|intros; apply chars_str_of].
  rewrite list_fmap_id. apply split_chars_join.
Qed.

Lemma split_free c s p :
  p ∈ split (String c EmptyString) s -> c ∉ chars p.
Proof.
  unfold split. intros (q & -> & Hq)%list_elem_of_fmap. rewrite chars_str_of.
  revert q Hq. apply Forall_forall, split_chars_free, not_elem_of_nil.
Qed.

Lemma split_ne c s : split (String c EmptyString) s <> [].
Proof.
  unfold split; simpl. intros H%fmap_nil_inv. by destruct (split_chars_join c [] (chars s)).
Qed.

(** Splitting a joined list of separator-free pieces gives the pieces. *)
Lemma split_chars_app c acc l1 l2 :
  c ∉ l1 ->
  split_chars [c] 0 acc (l1 ++ c :: l2) = (reverse acc ++ l1) :: split_chars [c] 0 [] l2.
Proof.
  revert acc; induction l1 as [|d l1 IH]; intros acc Hc; simpl.
  - by rewrite Ascii.eqb_refl, app_nil_r.
  - apply not_elem_of_cons in Hc as [Hne Hc].
    rewrite andb_true_r, (proj2 (Ascii.eqb_neq c d)) by done.
    by rewrite IH, reverse_cons, <-app_assoc.
Qed.

Lemma split_chars_one c acc l :
  c ∉ l -> split_chars [c] 0 acc l = [reverse acc ++ l].
Proof.
  revert acc; induction l as [|d l IH]; intros acc Hc; simpl.
  - by rewrite app_nil_r.
  - apply not_elem_of_cons in Hc as [Hne Hc].
    rewrite andb_true_r, (proj2 (Ascii.eqb_neq c d)) by done.
    by rewrite IH, reverse_cons, <-app_assoc.
Qed.

Lemma join_split c ps :
  ps <> [] -> Forall (fun p => c ∉ chars p) ps ->
  split (String c EmptyString) (str_join (String c EmptyString) ps) = ps.
Proof.
  unfold split; simpl. rewrite chars_str_join. simpl. intros Hne.
  induction 1 as [|p ps Hp Hps IH]; [done|]. destruct ps as [|q ps].
  - cbn. rewrite split_chars_one by done. cbn. by rewrite str_of_chars.
  - rewrite fmap_cons, join_chars_cons by done. cbn [app].
    rewrite split_chars_app by done. cbn. rewrite str_of_chars. f_equal.
    by apply IH.
Qed.

(** *** Text without spaces or line ends *)

Definition all_chars (p : ascii -> bool) (s : string) : Prop :=
  Forall (fun c => p c = true) (chars s).
Definition no_chars (p : ascii -> bool) (s : string) : Prop :=
  Forall (fun c => p c = false) (chars s).

Lemma no_chars_weaken (p q : ascii -> bool) s :
  (forall c, q c = true -> p c = true) -> no_chars p s -> no_chars q s.
Proof.
  intros Hpq H. eapply Forall_impl; [exact H|]. intros c Hc. simpl in Hc.
  destruct (q c) eqn:E; [|done]. apply Hpq in E. congruence.
Qed.

Lemma drop_while_id p l : Forall (fun c => p c = false) l -> drop_while p l = l.
Proof. destruct 1 as [|c l Hc _]; simpl; [done|]. by rewrite Hc. Qed.

Lemma drop_while_id_app p l k :
  Forall (fun c => p c = false) l -> l <> [] -> drop_while p (l ++ k) = l ++ k.
Proof. intros Hl Hne. destruct Hl as [|c l Hc _]; simpl; [done|]. by rewrite Hc. Qed.

Lemma strip_by_id p s : no_chars p s -> strip_by p s = s.
Proof.
  unfold no_chars. intros H. unfold strip_by, rstrip_by, lstrip_by.
  rewrite (drop_while_id p (chars s)) by done. rewrite chars_str_of, drop_while_id.
  - by rewrite reverse_involutive, str_of_chars.
  - by apply Forall_reverse.
Qed.

Lemma strip_id s : no_chars is_space s -> strip s = s.
Proof. apply strip_by_id. Qed.

Lemma words_chars_id acc l :
  Forall (fun c => is_space c = false) l -> reverse acc ++ l <> [] ->
  words_chars acc l = [reverse acc ++ l].
Proof.
  revert acc; induction l as [|c l IH]; intros acc Hl Hne; simpl.
  - rewrite app_nil_r in *. by destruct acc.
  - inversion Hl as [|? ? Hc Hl']; subst. rewrite Hc, IH.
    + by rewrite reverse_cons, <-app_assoc.
    + done.
    + rewrite reverse_cons, <-app_assoc. by destruct (reverse acc).
Qed.

Lemma words_id s : no_chars is_space s -> s <> EmptyString -> words s = [s].
Proof.
  intros H Hne. unfold words. rewrite words_chars_id; [|done|].
  - cbn. by rewrite str_of_chars.
  - intros E. apply Hne, chars_inj. exact E.
Qed.

Lemma is_line_end_space c : is_line_end c = true -> is_space c = true.
Proof. destruct c as [[] [] [] [] [] [] [] []]; done. Qed.

Lemma lines_chars_end acc l :
  Forall (fun c => is_line_end c = false) l -> reverse acc ++ l <> [] ->
  lines_chars acc l = [reverse acc ++ l].
Proof.
  revert acc; induction l as [|c l IH]; intros acc Hl Hne; simpl.
  - rewrite app_nil_r in *. by destruct acc.
  - inversion Hl as [|? ? Hc Hl']; subst. rewrite Hc, IH.
    + by rewrite reverse_cons, <-app_assoc.
    + done.
    + rewrite reverse_cons, <-app_assoc. by destruct (reverse acc).
Qed.

Lemma lines_chars_newline acc l k :
  Forall (fun c => is_line_end c = false) l ->
  lines_chars acc (l ++ "010"%char :: k) = (reverse acc ++ l) :: lines_chars [] k.
Proof.
  revert acc; induction l as [|c l IH]; intros acc Hl; simpl.
  - rewrite app_nil_r. by destruct k.
  - inversion Hl as [|? ? Hc Hl']; subst. rewrite Hc, IH by done.
    by rewrite reverse_cons, <-app_assoc.
Qed.

Definition newline : string := String "010" EmptyString.

(** Lines joined by newlines are the lines of the text. *)
Lemma splitlines_join ls :
  Forall (fun l => no_chars is_line_end l /\ l <> EmptyString) ls ->
  splitlines (str_join newline ls) = ls.
Proof.
  unfold splitlines. rewrite chars_str_join. cbn [newline String.list_ascii_of_string].
  induction 1 as [|l ls [Hl Hne] Hls IH]; [done|].
  assert (chars l <> []) as Hne' by (intros E; by apply Hne, chars_inj).
  destruct ls as [|l' ls].
  - cbn. rewrite lines_chars_end by done. cbn. by rewrite str_of_chars.
  - rewrite fmap_cons, join_chars_cons by done. cbn [app].
    rewrite lines_chars_newline by done. cbn [fmap list_fmap]. rewrite reverse_nil.
    cbn [app]. rewrite str_of_chars. f_equal. apply IH.
Qed.

Lemma splitlines_one s : no_chars is_line_end s -> s <> EmptyString -> splitlines s = [s].
Proof. intros. apply (splitlines_join [s]). by repeat constructor. Qed.

Lemma all_chars_no (p q : ascii -> bool) s :
  (forall c, p c = true -> q c = false) -> all_chars p s -> no_chars q s.
Proof. intros H Hp. eapply Forall_impl; [exact Hp|]. auto. Qed.

Lemma no_chars_app p s t : no_chars p (s +:+ t) <-> no_chars p s /\ no_chars p t.
Proof. unfold no_chars. by rewrite chars_app, Forall_app. Qed.

Lemma contains_false_char c s : c ∉ chars s -> contains (String c EmptyString) s = false.
Proof.
  intros Hc. apply not_true_iff_false. intros H.
  unfold contains in H. apply contains_chars_spec in H as (k1 & k2 & Hk). apply Hc.
  rewrite Hk. apply elem_of_app; right. by apply elem_of_app; left; left.
Qed.

(** Words joined by single spaces are the words of the text. *)
Lemma words_chars_space acc l k :
  Forall (fun c => is_space c = false) l -> reverse acc ++ l <> [] ->
  words_chars acc (l ++ " "%char :: k) = (reverse acc ++ l) :: words_chars [] k.
Proof.
  revert acc; induction l as [|c l IH]; intros acc Hl Hne.
  - rewrite app_nil_r in *. simpl. destruct acc; [done|]. done.
  - inversion Hl as [|? ? Hc Hl']; subst. simpl. rewrite Hc, IH.
    + by rewrite reverse_cons, <-app_assoc.
    + done.
    + rewrite reverse_cons, <-app_assoc. by destruct (reverse acc).
Qed.

Lemma words_pair a b :
  no_chars is_space a -> no_chars is_space b -> a <> EmptyString -> b <> EmptyString ->
  words (a +:+ " " +:+ b) = [a; b].
Proof.
  intros Ha Hb Hna Hnb. unfold words. rewrite !chars_app. cbn [String.list_ascii_of_string app].
  rewrite words_chars_space; [|done|].
  - rewrite words_chars_id; [|done|]; cbn; [by rewrite !str_of_chars|].
    intros E. by apply Hnb, chars_inj.
  - cbn. intros E. by apply Hna, chars_inj.
Qed.

(** Stripping text that starts and ends with a non-space changes nothing. *)
Lemma strip_pair a b :
  no_chars is_space a -> no_chars is_space b -> a <> EmptyString -> b <> EmptyString ->
  strip (a +:+ " " +:+ b) = a +:+ " " +:+ b.
Proof.
  intros Ha Hb Hna Hnb. unfold strip, strip_by, rstrip_by, lstrip_by.
  assert (drop_while is_space (chars (a +:+ " " +:+ b)) = chars (a +:+ " " +:+ b)) as ->.
  { rewrite !chars_app. unfold no_chars in Ha. destruct (chars a) as [|c l] eqn:E.
    - by destruct Hna; apply chars_inj.
    - simpl. inversion Ha as [|? ? Hc]; subst. by rewrite Hc. }
  rewrite chars_str_of. apply chars_inj. rewrite chars_str_of.
  assert (reverse (chars (a +:+ " " +:+ b)) = reverse (chars b) ++ reverse (chars (a +:+ " "))) as ->.
  { by rewrite <-reverse_app, !chars_app, app_assoc. }
  assert (Forall (fun c => is_space c = false) (reverse (chars b))) as Hr by (by apply Forall_reverse).
  destruct (reverse (chars b)) as [|c l] eqn:E.
  - exfalso. apply Hnb, chars_inj. rewrite <-(reverse_involutive (chars b)), E. done.
  - simpl. inversion Hr as [|? ? Hc]; subst. rewrite Hc, app_comm_cons, <-E, <-reverse_app, reverse_involutive.
    by rewrite !chars_app, app_assoc.
Qed.

(** Stripped text does not start with a space. *)
Lemma drop_while_head p l : match drop_while p l with [] => True | c :: _ => p c = false end.
Proof. induction l as [|c l IH]; simpl; [done|]. by destruct (p c) eqn:E. Qed.

Lemma drop_while_suffix p l : exists k, l = k ++ drop_while p l.
Proof.
  induction l as [|c l [k IH]]; simpl; [by exists []|]. destruct (p c); [|by exists []].
  exists (c :: k). by rewrite IH at 1.
Qed.

Lemma strip_head s : match chars (strip s) with [] => True | c :: _ => is_space c = false end.
Proof.
  unfold strip, strip_by, rstrip_by, lstrip_by. rewrite !chars_str_of.
  pose proof (drop_while_head is_space (chars s)) as Hh.
  destruct (drop_while_suffix is_space (reverse (drop_while is_space (chars s)))) as [k Hk].
  set (l := drop_while is_space (chars s)) in *.
  apply (f_equal reverse) in Hk. rewrite reverse_involutive, reverse_app in Hk.
  destruct (reverse (drop_while is_space (reverse l))) as [|c r]; [done|]. by rewrite Hk in Hh.
Qed.
