(* ===== verification/PyDict.v ===== *)
(** * Python dictionaries and counters

    A [dict] is an association list in insertion order, the order the
    reports are written in: setting a present key keeps its place, setting a
    new one appends it.  [Counter] is a dictionary of integers. *)

From S2P Require Import Prelude.
Open Scope Z_scope.

Section Dict.
Context {K : Type} `{EqDecision K} {A : Type}.
Implicit Types (d : list (K * A)) (k : K) (v : A).

Fixpoint dget k d : option A :=
  match d with
  | [] => None
  | (k', v) :: d' => if decide (k = k') then Some v else dget k d'
  end.

(** [d[k] = v]. *)
Fixpoint dset k v d : list (K * A) :=
  match d with
  | [] => [(k, v)]
  | (k', v') :: d' => if decide (k = k') then (k', v) :: d' else (k', v') :: dset k v d'
  end.

(** [k in d]. *)
Definition dmem k d : bool := if dget k d is Some _ then true else false.

(** [d.setdefault(k, v)] as a state change. *)
Definition dsetdefault k v d : list (K * A) := if dmem k d then d else d ++ [(k, v)].

(** [d.update(e)] and [{**d, **e}]. *)
Definition dupdate d (e : list (K * A)) : list (K * A) :=
  foldl (fun acc kv => dset kv.1 kv.2 acc) d e.

(** The dictionary invariant: no key twice. *)
Definition dwf d : Prop := NoDup d.*1.

Lemma dget_dset_eq k v d : dget k (dset k v d) = Some v.
Proof.
  induction d as [|[k' v'] d IH]; simpl; [by rewrite decide_True|].
  case_decide; simpl; [by rewrite decide_True | by rewrite decide_False].
Qed.

Lemma dget_dset_ne k k' v d : k <> k' -> dget k' (dset k v d) = dget k' d.
Proof.
  intros Hne. induction d as [|[k0 v0] d IH]; simpl; [by rewrite decide_False|].
  case_decide; simplify_eq; simpl; [by rewrite !decide_False by done|].
  by rewrite IH.
Qed.

Lemma dget_dset k k' v d :
  dget k' (dset k v d) = if decide (k = k') then Some v else dget k' d.
Proof. case_decide; [subst; apply dget_dset_eq | by apply dget_dset_ne]. Qed.

Lemma dget_None k d : dget k d = None <-> k ∉ d.*1.
Proof.
  induction d as [|[k' v'] d IH]; csimpl; [split; [intros _; apply not_elem_of_nil | done]|].
  rewrite not_elem_of_cons. case_decide as Hk.
  - split; [done | by intros [? _]].
  - rewrite IH. split; [done | by intros [_ ?]].
Qed.

Lemma dget_elem_of k v d : dget k d = Some v -> (k, v) ∈ d.
Proof.
  induction d as [|[k' v'] d IH]; simpl; [done|].
  case_decide; intros; simplify_eq; [by left | right; by apply IH].
Qed.

Lemma dget_Some k v d : dwf d -> dget k d = Some v <-> (k, v) ∈ d.
Proof.
  intros Hwf. split; [apply dget_elem_of|].
  induction d as [|[k' v'] d IH]; simpl; [by intros ?%not_elem_of_nil|].
  apply NoDup_cons in Hwf as [Hk Hwf]. rewrite elem_of_cons. intros [[= -> ->]|Hin].
  - by rewrite decide_True.
  - rewrite decide_False; [by apply IH|]. intros ->.
    apply Hk. apply list_elem_of_fmap. by exists (k', v).
Qed.

Lemma dset_keys k v d : (dset k v d).*1 = if dmem k d then d.*1 else d.*1 ++ [k].
Proof.
  unfold dmem. induction d as [|[k' v'] d IH]; csimpl; [done|].
  case_decide; csimpl; [done|]. rewrite IH. by destruct (dget k d).
Qed.

Lemma dset_wf k v d : dwf d -> dwf (dset k v d).
Proof.
  unfold dwf. rewrite dset_keys. unfold dmem. intros Hwf.
  destruct (dget k d) eqn:E; [done|]. apply dget_None in E.
  apply NoDup_app. split_and!; [done| |apply NoDup_singleton].
  intros x Hx ->%list_elem_of_singleton. done.
Qed.

Lemma dmem_iff k d : dmem k d = true <-> k ∈ d.*1.
Proof.
  unfold dmem. destruct (dget k d) eqn:E.
  - split; [intros _|done]. apply dget_elem_of in E. apply list_elem_of_fmap. by eexists (k, _).
  - apply dget_None in E. by split.
Qed.

Lemma dsetdefault_keys k v d : (dsetdefault k v d).*1 = if dmem k d then d.*1 else d.*1 ++ [k].
Proof. unfold dsetdefault. destruct (dmem k d); [done|]. by rewrite fmap_app. Qed.

Lemma dsetdefault_wf k v d : dwf d -> dwf (dsetdefault k v d).
Proof.
  unfold dwf. rewrite dsetdefault_keys. destruct (dmem k d) eqn:E; [done|]. intros Hwf.
  apply NoDup_app. split_and!; [done| |apply NoDup_singleton].
  intros x Hx ->%list_elem_of_singleton. apply dmem_iff in Hx. congruence.
Qed.

Lemma dupdate_wf d e : dwf d -> dwf (dupdate d e).
Proof.
  unfold dupdate. revert d; induction e as [|[k v] e IH]; intros d Hwf; simpl; [done|].
  by apply IH, dset_wf.
Qed.

Lemma dget_app k d e : dget k (d ++ e) = match dget k d with Some v => Some v | None => dget k e end.
Proof. induction d as [|[k' v'] d IH]; simpl; [done|]. by case_decide. Qed.

Lemma dget_dupdate_other k d e : k ∉ e.*1 -> dget k (dupdate d e) = dget k d.
Proof.
  unfold dupdate. revert d; induction e as [|[k' v'] e IH]; intros d Hk; simpl; [done|].
  csimpl in Hk. apply not_elem_of_cons in Hk as [Hne Hk]. rewrite IH by done. by apply dget_dset_ne.
Qed.

Lemma dwf_nil : dwf ([] : list (K * A)).
Proof. constructor. Qed.
End Dict.

#[export] Hint Resolve dset_wf dupdate_wf dwf_nil : pqc.
#[export] Hint Rewrite @dget_dset_eq : pqc_rw.

(** ** Counters *)

Section Counter.
Context {K : Type} `{EqDecision K}.
Implicit Types (c : list (K * Z)) (k : K).

(** [c[k]] of a [Counter]: zero when absent. *)
Definition cget k c : Z := default 0 (dget k c).

(** [c[k] += n]. *)
Definition cadd k (n : Z) c : list (K * Z) := dset k (cget k c + n) c.

Definition cincr k c : list (K * Z) := cadd k 1 c.

Definition ctotal c : Z := foldr (fun kv acc => kv.2 + acc) 0 c.

Lemma cget_cadd k k' n c :
  cget k' (cadd k n c) = cget k' c + (if decide (k = k') then n else 0).
Proof.
  unfold cadd, cget at 1. rewrite dget_dset. case_decide; subst; simpl; [done|].
  unfold cget. lia.
Qed.

Lemma ctotal_dset k v c : ctotal (dset k v c) = ctotal c - cget k c + v.
Proof.
  unfold cget. induction c as [|[k' v'] c IH]; simpl; [lia|].
  case_decide; simpl; [lia|]. rewrite IH. lia.
Qed.

Lemma ctotal_cadd k n c : ctotal (cadd k n c) = ctotal c + n.
Proof. unfold cadd. rewrite ctotal_dset. lia. Qed.

Lemma ctotal_cincr k c : ctotal (cincr k c) = ctotal c + 1.
Proof. apply ctotal_cadd. Qed.

Lemma cincr_wf k c : dwf c -> dwf (cincr k c).
Proof. apply dset_wf. Qed.

Lemma cadd_wf k n c : dwf c -> dwf (cadd k n c).
Proof. apply dset_wf. Qed.

(** Counting a list of keys. *)
Definition count_keys (l : list K) (c : list (K * Z)) : list (K * Z) :=
  foldl (fun c k => cincr k c) c l.

Definition occurrences k (l : list K) : Z :=
  Z.of_nat (length (filter (fun x => x = k) l)).

Lemma occurrences_cons k x l :
  occurrences k (x :: l) = (if decide (x = k) then 1 else 0) + occurrences k l.
Proof.
  unfold occurrences. rewrite filter_cons. case_decide; simpl; lia.
Qed.

Lemma cget_count_keys k l c :
  cget k (count_keys l c) = cget k c + occurrences k l.
Proof.
  revert c; induction l as [|x l IH]; intros c; simpl.
  - unfold occurrences; simpl; lia.
  - rewrite IH, occurrences_cons. unfold cincr. rewrite cget_cadd. lia.
Qed.

Lemma ctotal_count_keys l c : ctotal (count_keys l c) = ctotal c + Z.of_nat (length l).
Proof.
  revert c; induction l as [|x l IH]; intros c; simpl; [lia|].
  rewrite IH, ctotal_cincr. lia.
Qed.
End Counter.

#[export] Hint Rewrite @ctotal_cincr @ctotal_cadd @cget_cadd : pqc_rw.
#[export] Hint Resolve cincr_wf cadd_wf : pqc.
