(* ===== verification/PyVal.v ===== *)
(** * Python values

    The dynamic values a report is made of (what [json.loads] builds), with
    the truth test, [==], [in], [.get], [str], [repr] and [int] of Python.
    Floats are IEEE binary64 numbers ([SpecFloat], precision 53). *)

From S2P Require Import Prelude PyStr PyDict.
From Stdlib Require Import SpecFloat.
From Stdlib Require String.
Open Scope Z_scope.

Abbreviation float := spec_float.

Inductive value : Type :=
| VNone
| VBool (b : bool)
| VInt (z : Z)
| VFloat (f : float)
| VStr (s : string)
| VList (l : list value)
| VDict (d : list (string * value)).

(** ** binary64 *)

Definition f_prec : Z := 53.
Definition f_emax : Z := 1024.
Definition f_of_Z (z : Z) : float := binary_normalize f_prec f_emax z 0 false.
Definition f_mul : float -> float -> float := SFmul f_prec f_emax.
Definition f_div : float -> float -> float := SFdiv f_prec f_emax.
Definition f_lt : float -> float -> bool := SFltb.
Definition f_le : float -> float -> bool := SFleb.
Definition f_eq : float -> float -> bool := SFeqb.
Definition f_zero : float := S754_zero false.

(** [n * 10^k] rounded to nearest, ties to even: a decimal literal. *)
Definition f_dec (neg : bool) (n : Z) (k : Z) : float :=
  match n with
  | Z.pos p =>
      if 0 <=? k then binary_normalize f_prec f_emax (if neg then - (n * 10 ^ k) else n * 10 ^ k) 0 neg
      else f_div (S754_finite neg p 0) (S754_finite false (Z.to_pos (10 ^ (- k))) 0)
  | _ => S754_zero neg
  end.

(** A finite float as a fraction of integers with a positive denominator. *)
Definition f_frac (f : float) : option (Z * Z) :=
  match f with
  | S754_zero _ => Some (0, 1)
  | S754_finite s m e =>
      let n := if s then Z.neg m else Z.pos m in
      Some (if 0 <=? e then (n * 2 ^ e, 1) else (n, 2 ^ (- e)))
  | _ => None
  end.

(** [int(f)]: truncation toward zero. *)
Definition f_trunc (f : float) : res Z :=
  match f_frac f with
  | Some (n, d) => Ok (Z.quot n d)
  | None => if f is S754_nan then Raise (ValueError "cannot convert float NaN to integer")
            else Raise OverflowError
  end.

(** ** Truth, equality and membership *)

Definition truthy (v : value) : bool :=
  match v with
  | VNone => false
  | VBool b => b
  | VInt z => negb (z =? 0)
  | VFloat f => if f is S754_zero _ then false else true
  | VStr s => negb (String.eqb s EmptyString)
  | VList l => if l is [] then false else true
  | VDict d => if d is [] then false else true
  end.

(** [a or b]. *)
Definition por (a b : value) : value := if truthy a then a else b.

(** Numbers compare across [bool], [int] and [float], exactly. *)
Definition num_of (v : value) : option (Z + float) :=
  match v with
  | VBool b => Some (inl (if b then 1 else 0))
  | VInt z => Some (inl z)
  | VFloat f => Some (inr f)
  | _ => None
  end.

Definition num_eqb (a b : Z + float) : bool :=
  match a, b with
  | inl x, inl y => x =? y
  | inr f, inr g => f_eq f g
  | inl x, inr f | inr f, inl x =>
      match f_frac f with Some (n, d) => x * d =? n | None => false end
  end.

Fixpoint py_eq (a b : value) {struct a} : bool :=
  match a, b with
  | VNone, VNone => true
  | VStr s, VStr t => String.eqb s t
  | VList l, VList k =>
      (fix go l k :=
         match l, k with
         | [], [] => true
         | x :: l, y :: k => py_eq x y && go l k
         | _, _ => false
         end) l k
  | VDict d, VDict e =>
      Nat.eqb (length d) (length e) &&
      (fix go d :=
         match d with
         | [] => true
         | (k, x) :: d => (match dget k e with Some y => py_eq x y | None => false end) && go d
         end) d
  | _, _ => match num_of a, num_of b with
            | Some x, Some y => num_eqb x y
            | _, _ => false
            end
  end.

(** [v is True], [v is False], [v is None]. *)
Definition is_true (v : value) : bool := if v is VBool true then true else false.
Definition is_false (v : value) : bool := if v is VBool false then true else false.
Definition is_none (v : value) : bool := if v is VNone then true else false.

Definition is_dict (v : value) : bool := if v is VDict _ then true else false.
Definition is_str (v : value) : bool := if v is VStr _ then true else false.
Definition is_list (v : value) : bool := if v is VList _ then true else false.

(** Lists and dicts cannot be members of a set or keys. *)
Definition hashable (v : value) : bool :=
  match v with VList _ | VDict _ => false | _ => true end.

(** [for x in v]. *)
Definition py_iter (v : value) : res (list value) :=
  match v with
  | VList l => Ok l
  | VDict d => Ok (VStr <$> d.*1)
  | VStr s => Ok ((fun c => VStr (String.String c EmptyString)) <$> chars s)
  | _ => Raise TypeError
  end.

(** [x in v]. *)
Definition py_in (x v : value) : res bool :=
  match v with
  | VList l => Ok (existsb (py_eq x) l)
  | VDict d => if hashable x then Ok (existsb (fun k => py_eq x (VStr k)) d.*1) else Raise TypeError
  | VStr s => if x is VStr t then Ok (contains t s) else Raise TypeError
  | _ => Raise TypeError
  end.

(** [set(v)], keeping the iteration order of [v]. *)
Definition py_set (v : value) : res (list value) :=
  l ← py_iter v;
  if forallb hashable l then Ok l else Raise TypeError.

(** [v.get(k, dflt)]: only dicts have [.get]. *)
Definition get_or (k : string) (dflt v : value) : res value :=
  match v with
  | VDict d => Ok (default dflt (dget k d))
  | _ => Raise AttributeError
  end.
Definition get (k : string) (v : value) : res value := get_or k VNone v.

(** [v[k]] for a string key. *)
Definition getitem (k : string) (v : value) : res value :=
  match v with
  | VDict d => if dget k d is Some x then Ok x else Raise (KeyError k)
  | _ => Raise TypeError
  end.

(** [v.items()]. *)
Definition items (v : value) : res (list (string * value)) :=
  if v is VDict d then Ok d else Raise AttributeError.

Definition as_bool (v : value) : option bool := if v is VBool b then Some b else None.
Definition of_obool (o : option bool) : value :=
  match o with Some b => VBool b | None => VNone end.
Definition VStrs (l : list string) : value := VList (VStr <$> l).
Definition of_ostr (o : option string) : value :=
  match o with Some s => VStr s | None => VNone end.

(** ** [str], [repr] and [int] *)

(** Digits and exponent of the shortest decimal [d * 10^k] that reads back
    as the float [n/d] (David Gay's mode 0, as [float.__repr__]): for each
    length the two neighbouring decimals are tried and the closer one that
    reads back wins. *)
Fixpoint bump (fuel : nat) (n d k : Z) : Z :=
  match fuel with
  | O => k
  | S fuel =>
      let le := if 0 <=? k then 10 ^ k * d <=? n else d <=? n * 10 ^ (- k) in
      if le then bump fuel n d (k + 1) else k
  end.

(** The least [k] with [n/d < 10^k]. *)
Definition dec_exp (n d : Z) : Z :=
  bump 8 n d ((Z.log2 n - Z.log2 d) * 30103 / 100000 - 2).

Fixpoint shortest (fuel : nat) (f : float) (n d k p : Z) : Z * Z :=
  match fuel with
  | O => (0, 0)
  | S fuel =>
      let e := k - p in
      let nn := if 0 <=? e then n else n * 10 ^ (- e) in
      let dd := if 0 <=? e then d * 10 ^ e else d in
      let lo := nn / dd in
      let ok c := f_eq (f_dec false c e) f in
      let near_lo := 2 * (nn - lo * dd) <=? dd in
      match ok lo, ok (lo + 1) with
      | true, true => (if near_lo then lo else lo + 1, e)
      | true, false => (lo, e)
      | false, true => (lo + 1, e)
      | false, false => shortest fuel f n d k (p + 1)
      end
  end.

Definition repeat_char (c : ascii) (n : Z) : string := str_of (replicate (Z.to_nat n) c).

Definition str_take (n : Z) (s : string) : string := str_of (take (Z.to_nat n) (chars s)).
Definition str_drop (n : Z) (s : string) : string := str_of (drop (Z.to_nat n) (chars s)).

Definition float_repr (f : float) : string :=
  match f with
  | S754_zero s => if s then "-0.0" else "0.0"
  | S754_infinity s => if s then "-inf" else "inf"
  | S754_nan => "nan"
  | S754_finite s m e =>
      let n := if 0 <=? e then Z.pos m * 2 ^ e else Z.pos m in
      let d := if 0 <=? e then 1 else 2 ^ (- e) in
      let '(c, x) := shortest 17 (S754_finite false m e) n d (dec_exp n d) 1 in
      let ds := show_Z c in
      let len := Z.of_nat (String.length ds) in
      let pt := len + x in
      let body :=
        if (-4 <? pt) && (pt <=? 16) then
          if pt <=? 0 then "0." +:+ repeat_char "0" (- pt) +:+ ds
          else if len <=? pt then ds +:+ repeat_char "0" (pt - len) +:+ ".0"
          else str_take pt ds +:+ "." +:+ str_drop pt ds
        else
          let ex := pt - 1 in
          let tail := if len =? 1 then EmptyString else "." +:+ str_drop 1 ds in
          str_take 1 ds +:+ tail +:+ "e" +:+ (if ex <? 0 then "-" else "+") +:+
          (if Z.abs ex <? 10 then "0" else EmptyString) +:+ show_Z (Z.abs ex) in
      if s then "-" +:+ body else body
  end.

Definition hex_digit (n : N) : ascii :=
  ascii_of_N (if (n <? 10)%N then 48 + n else 87 + n).

(** One character inside a [repr] quoted with [q]. *)
Definition repr_char (q c : ascii) : list ascii :=
  if Ascii.eqb c q || Ascii.eqb c "\" then ["\"%char; c]
  else if Ascii.eqb c "010" then ["\"%char; "n"%char]
  else if Ascii.eqb c "013" then ["\"%char; "r"%char]
  else if Ascii.eqb c "009" then ["\"%char; "t"%char]
  else if (code c <? 32)%N || (code c =? 127)%N
  then ["\"%char; "x"%char; hex_digit (code c / 16); hex_digit (code c mod 16)]
  else [c].

Definition str_repr (s : string) : string :=
  let l := chars s in
  let q := if bool_decide ("039"%char ∈ l) && negb (bool_decide ("034"%char ∈ l))
           then "034"%char else "039"%char in
  str_of (q :: concat (repr_char q <$> l) ++ [q]).

Fixpoint py_repr (v : value) : string :=
  match v with
  | VNone => "None"
  | VBool b => if b then "True" else "False"
  | VInt z => show_Z z
  | VFloat f => float_repr f
  | VStr s => str_repr s
  | VList l =>
      "[" +:+ str_join ", " ((fix go l := match l with [] => [] | x :: l => py_repr x :: go l end) l) +:+ "]"
  | VDict d =>
      "{" +:+ str_join ", "
        ((fix go d := match d with
                      | [] => []
                      | (k, x) :: d => (str_repr k +:+ ": " +:+ py_repr x) :: go d
                      end) d) +:+ "}"
  end.

(** [str(v)]. *)
Definition py_str (v : value) : string := if v is VStr s then s else py_repr v.

(** [int(v)]. *)
Definition py_int (v : value) : res Z :=
  match v with
  | VBool b => Ok (if b then 1 else 0)
  | VInt z => Ok z
  | VFloat f => f_trunc f
  | VStr s => match int_of_str s with
              | Some z => Ok z
              | None => Raise (ValueError ("invalid literal for int() with base 10: " +:+ str_repr s))
              end
  | _ => Raise TypeError
  end.

(** ", ".join(v) of a list that must hold strings only. *)
Definition strs_of (l : list value) : res (list string) :=
  mapM (fun x => if x is VStr s then Ok s else Raise TypeError) l.

(** ** Lemmas *)

Lemma get_dict (k : string) d : get k (VDict d) = Ok (default VNone (dget k d)).
Proof. done. Qed.

Lemma por_truthy a b : truthy a = true -> por a b = a.
Proof. unfold por. by intros ->. Qed.

Lemma as_bool_Some v b : as_bool v = Some b <-> v = VBool b.
Proof. destruct v; simpl; naive_solver. Qed.

Lemma strs_of_VStr names : strs_of (VStr <$> names) = Ok names.
Proof.
  unfold strs_of. induction names as [|n names IH]; [done|]. cbn in IH |- *. by rewrite IH.
Qed.

Example float_repr_tenth : float_repr (f_dec false 1 (-1)) = "0.1".
Proof. vm_compute. reflexivity. Qed.
Example float_repr_half : float_repr (f_dec true 5 (-1)) = "-0.5".
Proof. vm_compute. reflexivity. Qed.
Example float_repr_big : float_repr (f_of_Z 20000) = "20000.0".
Proof. vm_compute. reflexivity. Qed.
Example float_repr_e22 : float_repr (f_dec false 1 22) = "1e+22".
Proof. vm_compute. reflexivity. Qed.
Example float_repr_small : float_repr (f_dec false 15 (-6)) = "1.5e-05".
Proof. vm_compute. reflexivity. Qed.
Example float_repr_pow2 : float_repr (f_dec false 9007199254740993 (-2)) = "90071992547409.94".
Proof. vm_compute. reflexivity. Qed.

(** ** The order of floats *)

Lemma f_le_trans x y z : f_le x y = true -> f_le y z = true -> f_le x z = true.
Proof.
  unfold f_le, SFleb, SFcompare.
  destruct x as [sx|sx| |sx mx ex], y as [sy|sy| |sy my ey], z as [sz|sz| |sz mz ez];
    try destruct sx; try destruct sy; try destruct sz; try done;
    destruct (Z.compare_spec ex ey), (Z.compare_spec ey ez), (Z.compare_spec ex ez);
    subst; try lia; try done; intros Hxy Hyz;
    repeat match goal with |- context [Pos.compare_cont Eq ?a ?b] => change (Pos.compare_cont Eq a b) with (Pos.compare a b) in *
    | H : context [Pos.compare_cont Eq ?a ?b] |- _ => change (Pos.compare_cont Eq a b) with (Pos.compare a b) in * end;
    repeat match goal with
    | H : context [Pos.compare ?a ?b] |- _ => destruct (Pos.compare_spec a b)
    | |- context [Pos.compare ?a ?b] => destruct (Pos.compare_spec a b)
    end; subst; simpl in *; try done; try lia.
Qed.
