(* ===== verification/PyRe.v ===== *)
(** * Python regular expressions

    The part of the [re] module the scanner uses: a backtracking matcher with
    greedy and lazy repetition, numbered groups, anchors and lookahead, in
    the order [re] tries alternatives, next to a declarative semantics
    ([lang]) it is proved sound and complete for.  Repeated expressions never
    match the empty string in the modelled patterns; a repetition here stops
    when an iteration consumes nothing. *)

From S2P Require Import Prelude PyStr.
From Stdlib Require String.
Open Scope Z_scope.

Inductive re : Type :=
| REps
| RChr (p : ascii -> bool)
| RSeq (a b : re)
| RAlt (a b : re)
| RStar (greedy : bool) (a : re)
| RGrp (n : nat) (a : re)
(** A zero-width test of the text before (reversed) and after. *)
| RAssert (p : list ascii -> list ascii -> bool)
| RLook (a : re).

(** A position in the text: what is before it (reversed), what is after it,
    and the groups captured so far, latest first. *)
Record pos := Pos { p_left : list ascii; p_right : list ascii; p_caps : list (nat * list ascii) }.

Definition advance (w : list ascii) (p : pos) : pos :=
  Pos (reverse w ++ p_left p) (drop (length w) (p_right p)) (p_caps p).

Definition consumed (p p' : pos) : list ascii :=
  take (length (p_right p) - length (p_right p')) (p_right p).

(** The loop of [RStar]: [step] tries one iteration.  Each iteration must
    consume, so the text that is left bounds the number of iterations. *)
Fixpoint star_loop {X : Type} (step : pos -> (pos -> option X) -> option X) (greedy : bool)
    (k : pos -> option X) (n : nat) (p : pos) : option X :=
  match n with
  | O => k p
  | S n =>
      let more := fun _ : unit => step p (fun p' =>
        if Nat.ltb (length (p_right p')) (length (p_right p))
        then star_loop step greedy k n p' else None) in
      if greedy
      then match more tt with Some x => Some x | None => k p end
      else match k p with Some x => Some x | None => more tt end
  end.

(** [run r p k]: the first way, in backtracking order, to match [r] at [p]
    such that the continuation [k] succeeds afterwards. *)
Fixpoint run (r : re) {X : Type} (p : pos) (k : pos -> option X) {struct r} : option X :=
  match r with
  | REps => k p
  | RChr c =>
      match p_right p with
      | x :: _ => if c x then k (advance [x] p) else None
      | [] => None
      end
  | RSeq a b => run a p (fun p' => run b p' k)
  | RAlt a b => match run a p k with Some x => Some x | None => run b p k end
  | RStar g a => star_loop (fun p k => run a p k) g k (length (p_right p)) p
  | RGrp n a =>
      run a p (fun p' => k (Pos (p_left p') (p_right p') ((n, consumed p p') :: p_caps p')))
  | RAssert t => if t (p_left p) (p_right p) then k p else None
  | RLook a =>
      match run a p Some with
      | Some p' => k (Pos (p_left p) (p_right p) (p_caps p'))
      | None => None
      end
  end.

(** ** Declarative semantics *)

(** [lang r l w k]: [r] matches [w] between the text [l] (reversed) and the
    text [k]. *)
Inductive lang : re -> list ascii -> list ascii -> list ascii -> Prop :=
| lang_eps l k : lang REps l [] k
| lang_chr c x l k : c x = true -> lang (RChr c) l [x] k
| lang_seq a b l w1 w2 k :
    lang a l w1 (w2 ++ k) -> lang b (reverse w1 ++ l) w2 k -> lang (RSeq a b) l (w1 ++ w2) k
| lang_alt_l a b l w k : lang a l w k -> lang (RAlt a b) l w k
| lang_alt_r a b l w k : lang b l w k -> lang (RAlt a b) l w k
| lang_star_nil g a l k : lang (RStar g a) l [] k
| lang_star_cons g a l w1 w2 k :
    w1 <> [] -> lang a l w1 (w2 ++ k) -> lang (RStar g a) (reverse w1 ++ l) w2 k ->
    lang (RStar g a) l (w1 ++ w2) k
| lang_grp n a l w k : lang a l w k -> lang (RGrp n a) l w k
| lang_assert t l k : t l k = true -> lang (RAssert t) l [] k
| lang_look a l w k : lang a l w k -> lang (RLook a) l [] (w ++ k).

(** [p'] is [p] moved over [w], whatever the groups. *)
Definition moved (p : pos) (w : list ascii) (p' : pos) : Prop :=
  p_right p = w ++ p_right p' /\ p_left p' = reverse w ++ p_left p.

Definition matches (r : re) (p p' : pos) : Prop :=
  exists w, moved p w p' /\ lang r (p_left p) w (p_right p').

Lemma moved_refl p : moved p [] p.
Proof. done. Qed.

Lemma moved_trans p w1 p1 w2 p2 : moved p w1 p1 -> moved p1 w2 p2 -> moved p (w1 ++ w2) p2.
Proof.
  intros [H1 H2] [H3 H4]. split; [by rewrite H1, H3, app_assoc|].
  by rewrite H4, H2, reverse_app, app_assoc.
Qed.

(** A continuation that fails only because of the position. *)
Definition caps_free {X} (k : pos -> option X) : Prop :=
  forall l r c c', is_Some (k (Pos l r c)) -> is_Some (k (Pos l r c')).

Definition sound_at (r : re) : Prop := forall X (p : pos) (k : pos -> option X) x,
  run r p k = Some x -> exists p', matches r p p' /\ k p' = Some x.

Lemma star_loop_sound (a : re) g X (k : pos -> option X) n p x :
  sound_at a ->
  star_loop (fun p k => run a p k) g k n p = Some x ->
  exists p', matches (RStar g a) p p' /\ k p' = Some x.
Proof.
  intros Ha. revert p; induction n as [|n IH]; intros p; cbn [star_loop].
  { intros Hk. exists p. split; [|done]. exists []. split; [done | constructor]. }
  assert (run a p (fun p' => if Nat.ltb (length (p_right p')) (length (p_right p))
            then star_loop (fun p k => run a p k) g k n p' else None) = Some x ->
          exists p', matches (RStar g a) p p' /\ k p' = Some x) as Hmore.
  { intros (p1 & (w1 & Hm1 & Hl1) & Hx)%Ha.
    destruct (Nat.ltb _ _) eqn:Hlt; [|done]. apply Nat.ltb_lt in Hlt.
    apply IH in Hx as (p2 & (w2 & Hm2 & Hl2) & Hk).
    exists p2. split; [|done]. exists (w1 ++ w2). split; [by eapply moved_trans|].
    destruct Hm1 as [Hr1 Hl1'], Hm2 as [Hr2 Hl2'].
    constructor.
    - intros ->. rewrite Hr1 in Hlt. simpl in Hlt. lia.
    - by rewrite <-Hr2.
    - by rewrite <-Hl1'. }
  assert (k p = Some x -> exists p', matches (RStar g a) p p' /\ k p' = Some x) as Hstop.
  { intros Hk. exists p. split; [|done]. exists []. split; [done | constructor]. }
  destruct g; case_match eqn:E; intros; simplify_eq; auto.
Qed.

(** Whatever [run] returns comes from a match of the declarative semantics. *)
Theorem run_sound r : sound_at r.
Proof.
  induction r as [|c|a IHa b IHb|a IHa b IHb|g a IHa|n a IHa|t|a IHa];
    intros X p k x; cbn [run].
  - exists p. split; [|done]. exists []. split; [done | constructor].
  - destruct p as [l [|y r] cs]; simpl; [done|]. destruct (c y) eqn:E; [|done].
    intros Hk. eexists. split; [|exact Hk]. exists [y]. split; [done|]. by constructor.
  - intros (p1 & (w1 & Hm1 & Hl1) & Hx)%IHa. apply IHb in Hx as (p2 & (w2 & Hm2 & Hl2) & Hk).
    exists p2. split; [|done]. exists (w1 ++ w2). split; [by eapply moved_trans|].
    destruct Hm1 as [Hr1 Hl1'], Hm2 as [Hr2 Hl2'].
    constructor; [by rewrite <-Hr2 | by rewrite <-Hl1'].
  - case_match eqn:E; intros; simplify_eq.
    + apply IHa in E as (p' & (w & Hm & Hl) & Hk). exists p'. split; [|done].
      exists w. split; [done | by constructor].
    + apply IHb in H as (p' & (w & Hm & Hl) & Hk). exists p'. split; [|done].
      exists w. split; [done | by apply lang_alt_r].
  - by apply star_loop_sound.
  - intros (p' & (w & Hm & Hl) & Hk)%IHa. eexists. split; [|exact Hk].
    exists w. split; [done | by constructor].
  - destruct (t _ _) eqn:E; [|done]. intros Hk. exists p. split; [|done].
    exists []. split; [done | by constructor].
  - case_match eqn:E; [|done]. intros Hk.
    apply IHa in E as (p' & (w & [Hr Hl'] & Hl) & [= <-]).
    eexists. split; [|exact Hk]. exists []. split; [done|]. simpl. rewrite Hr.
    by constructor.
Qed.

Definition complete_at (r : re) : Prop := forall l w kk, lang r l w kk ->
  forall X cs (k : pos -> option X),
  (forall cs', is_Some (k (Pos (reverse w ++ l) kk cs'))) ->
  is_Some (run r (Pos l (w ++ kk) cs) k).

Lemma star_loop_complete (a : re) g :
  complete_at a ->
  forall n l w kk, lang (RStar g a) l w kk -> (length (w ++ kk) <= n)%nat ->
  forall X cs (k : pos -> option X),
  (forall cs', is_Some (k (Pos (reverse w ++ l) kk cs'))) ->
  is_Some (star_loop (fun p k => run a p k) g k n (Pos l (w ++ kk) cs)).
Proof.
  intros Ha. induction n as [|n IH]; intros l w kk Hl Hn X cs k Hk; cbn [star_loop]; cbv beta zeta.
  { destruct w, kk; simpl in Hn; try lia. apply Hk. }
  inversion Hl; subst.
  - destruct (Hk cs) as [x Hx]. simpl in Hx |- *. rewrite Hx. destruct g; [case_match|]; eauto.
  - assert (is_Some (run a (Pos l ((w1 ++ w2) ++ kk) cs) (fun p' =>
      if Nat.ltb (length (p_right p')) (length (p_right (Pos l ((w1 ++ w2) ++ kk) cs)))
      then star_loop (fun p k => run a p k) g k n p' else None))) as Hmore.
    { rewrite <-app_assoc. apply Ha; [done|]. intros cs'. simpl.
      destruct w1 as [|x w1]; [done|]. rewrite !length_app in Hn. simpl in Hn.
      destruct (Nat.ltb _ _) eqn:E.
      - apply IH; [done | rewrite length_app; lia|].
        intros cs''. by rewrite app_assoc, <-reverse_app.
      - apply Nat.ltb_ge in E. simpl in E. rewrite ?length_app in E. simpl in E. lia. }
    destruct g; [destruct Hmore as [x ->]; eauto | case_match; [eauto | exact Hmore]].
Qed.

(** Every declarative match is found, unless the continuation rejects it. *)
Theorem run_complete r : complete_at r.
Proof.
  induction r as [|c|a IHa b IHb|a IHa b IHb|g a IHa|n a IHa|t|a IHa];
    intros l w kk Hl X cs k Hk.
  - inversion Hl; subst. apply Hk.
  - inversion Hl; subst. simpl.
    match goal with H : c _ = true |- _ => rewrite H end. apply (Hk cs).
  - inversion Hl; subst. cbn [run]. rewrite <-app_assoc. apply IHa; [done|]. intros cs'.
    apply IHb; [done|]. intros cs''. by rewrite app_assoc, <-reverse_app.
  - inversion Hl; subst; cbn [run].
    + match goal with H : lang a _ _ _ |- _ =>
        destruct (IHa _ _ _ H X cs k Hk) as [x ->] end. eauto.
    + case_match; [eauto|]. by apply IHb.
  - cbn [run p_right]. by eapply star_loop_complete.
  - inversion Hl; subst. cbn [run]. apply IHa; [done|]. intros cs'. apply Hk.
  - inversion Hl; subst. cbn [run p_left p_right app].
    match goal with H : t _ _ = true |- _ => rewrite H end. apply Hk.
  - inversion Hl; subst. cbn [run app].
    match goal with H : lang a _ _ _ |- _ =>
      destruct (IHa _ _ _ H pos cs Some) as [p' ->] end; [eauto | apply Hk].
Qed.

Lemma run_complete_id r l w k cs r0 :
  r0 = w ++ k -> lang r l w k -> is_Some (run r (Pos l r0 cs) Some).
Proof. intros -> Hl. apply run_complete; eauto. Qed.

(** ** The functions of [re] *)

(** A match object: the text matched and the groups. *)
Record mtch := Match { m_text : string; m_caps : list (nat * list ascii) }.

(** [m.group(n)]: the last capture of group [n], or [None]. *)
Definition group (n : nat) (m : mtch) : option string :=
  str_of ∘ snd <$> find (fun c => Nat.eqb c.1 n) (m_caps m).

Definition group_or (n : nat) (m : mtch) : string := default EmptyString (group n m).

Definition mk_match (p0 p : pos) : mtch := Match (str_of (consumed p0 p)) (p_caps p).

(** [re.match]. *)
Definition re_match (r : re) (s : string) : option mtch :=
  let p0 := Pos [] (chars s) [] in mk_match p0 <$> run r p0 Some.

Definition at_end (p : pos) : option pos := if p_right p is [] then Some p else None.

(** [re.fullmatch]. *)
Definition re_fullmatch (r : re) (s : string) : option mtch :=
  let p0 := Pos [] (chars s) [] in mk_match p0 <$> run r p0 at_end.

(** The first position, from the left, where [r] matches. *)
Fixpoint search_chars (r : re) (l : list ascii) (right : list ascii) : option (pos * pos) :=
  let p0 := Pos l right [] in
  match run r p0 Some with
  | Some p => Some (p0, p)
  | None => match right with [] => None | c :: right' => search_chars r (c :: l) right' end
  end.

(** [re.search]. *)
Definition re_search (r : re) (s : string) : option mtch :=
  (fun '(p0, p) => mk_match p0 p) <$> search_chars r [] (chars s).

(** [re.finditer]: the leftmost non-overlapping matches.  [skip] counts the
    characters of the previous match still to pass. *)
Fixpoint find_chars (r : re) (l : list ascii) (skip : nat) (right : list ascii) : list mtch :=
  match skip, right with
  | S k, c :: right' => find_chars r (c :: l) k right'
  | S _, [] => []
  | O, _ =>
      let p0 := Pos l right [] in
      match run r p0 Some, right with
      | Some p, c :: right' =>
          mk_match p0 p :: find_chars r (c :: l) (length (consumed p0 p) - 1) right'
      | Some p, [] => [mk_match p0 p]
      | None, c :: right' => find_chars r (c :: l) 0 right'
      | None, [] => []
      end
  end.
Definition re_finditer (r : re) (s : string) : list mtch := find_chars r [] 0 (chars s).

(** [re.split] on a single-character class. *)
Fixpoint split_class_chars (p : ascii -> bool) (acc l : list ascii) : list (list ascii) :=
  match l with
  | [] => [reverse acc]
  | c :: l' => if p c then reverse acc :: split_class_chars p [] l'
               else split_class_chars p (c :: acc) l'
  end.
Definition re_split_class (p : ascii -> bool) (s : string) : list string :=
  str_of <$> split_class_chars p [] (chars s).

Definition test_match (r : re) (s : string) : bool := bool_decide (is_Some (re_match r s)).
Definition test_fullmatch (r : re) (s : string) : bool := bool_decide (is_Some (re_fullmatch r s)).
Definition test_search (r : re) (s : string) : bool := bool_decide (is_Some (re_search r s)).

Lemma re_match_spec r s :
  is_Some (re_match r s) <-> exists w k, chars s = w ++ k /\ lang r [] w k.
Proof.
  unfold re_match. rewrite fmap_is_Some. split.
  - intros [p Hp]. apply run_sound in Hp as (p' & (w & [Hr _] & Hl) & _).
    simpl in Hr. eauto.
  - intros (w & k & Hs & Hl). by eapply run_complete_id.
Qed.

Lemma re_fullmatch_spec r s :
  is_Some (re_fullmatch r s) <-> lang r [] (chars s) [].
Proof.
  unfold re_fullmatch. rewrite fmap_is_Some. split.
  - intros [p Hp]. apply run_sound in Hp as (p' & (w & [Hr _] & Hl) & Hend).
    unfold at_end in Hend. simpl in Hr. destruct (p_right p'); [|done].
    rewrite app_nil_r in Hr. by rewrite Hr.
  - intros Hl. rewrite <-(app_nil_r (chars s)). apply run_complete; [done|].
    intros cs'. unfold at_end; simpl. eauto.
Qed.

Lemma search_chars_spec r l right :
  is_Some (search_chars r l right) <->
  exists u w k, right = u ++ w ++ k /\ lang r (reverse u ++ l) w k.
Proof.
  revert l; induction right as [|c right IH]; intros l; simpl; case_match eqn:E.
  - split; [|eauto]. intros _. apply run_sound in E as (p' & (w & [Hr _] & Hl) & _).
    simpl in Hr. by exists [], w, (p_right p').
  - split; [by intros [? ?]|]. intros (u & w & k & Hn & Hl). exfalso.
    symmetry in Hn. apply app_nil in Hn as [-> Hn].
    eapply (run_complete_id _ _ _ _ []) in Hl as [x Hx]; [|symmetry; exact Hn]. simpl in Hx. congruence.
  - split; [|eauto]. intros _. apply run_sound in E as (p' & (w & [Hr _] & Hl) & _).
    simpl in Hr. exists [], w, (p_right p'). by rewrite <-Hr.
  - rewrite IH. split.
    + intros (u & w & k & -> & Hl). exists (c :: u), w, k.
      by rewrite reverse_cons, <-app_assoc.
    + intros ([|c' u] & w & k & Hn & Hl); simplify_eq/=.
      * eapply (run_complete_id _ _ _ _ []) in Hl as [x Hx]; [|exact Hn]. simpl in Hx. congruence.
      * exists u, w, k. by rewrite reverse_cons, <-app_assoc in Hl.
Qed.

Lemma re_search_spec r s :
  is_Some (re_search r s) <->
  exists u w k, chars s = u ++ w ++ k /\ lang r (reverse u) w k.
Proof.
  unfold re_search. rewrite fmap_is_Some, search_chars_spec.
  by setoid_rewrite app_nil_r.
Qed.

(** ** Pattern notation *)

Definition RLit (s : string) : re := foldr (fun c r => RSeq (RChr (Ascii.eqb c)) r) REps (chars s).
(** A literal under [re.IGNORECASE]. *)
Definition RLitI (s : string) : re :=
  foldr (fun c r => RSeq (RChr (fun x => Ascii.eqb (lower_char c) (lower_char x))) r) REps (chars s).
Definition RPlus (a : re) : re := RSeq a (RStar true a).
Definition ROpt (a : re) : re := RAlt a REps.
Definition RAlts (l : list re) : re :=
  match l with [] => RChr (fun _ => false) | a :: l => foldl RAlt a l end.
Definition RSeqs (l : list re) : re := foldr RSeq REps l.
(** [a{n,n+m}], greedy. *)
Fixpoint ROpts (m : nat) (a : re) : re :=
  match m with O => REps | S m => ROpt (RSeq a (ROpts m a)) end.
Fixpoint RTimes (n : nat) (a b : re) : re :=
  match n with O => b | S n => RSeq a (RTimes n a b) end.
Definition RRep (n m : nat) (a : re) : re := RTimes n a (ROpts (m - n) a).

Definition Digit : re := RChr is_digit.
Definition Space : re := RChr is_space.
Definition NonSpace : re := RChr (fun c => negb (is_space c)).
Definition Set_ (s : string) : re := RChr (char_in s).
Definition NotSet (s : string) : re := RChr (fun c => negb (char_in s c)).
(** [.]: anything but a newline. *)
Definition Dot : re := RChr (fun c => negb (Ascii.eqb c "010")).
Definition is_word (c : ascii) : bool := is_alnum c || Ascii.eqb c "_".

(** [^], and [$] which also matches before a final newline. *)
Definition Bos : re := RAssert (fun l _ => if l is [] then true else false).
Definition Eos : re := RAssert (fun _ k => match k with [] | ["010"%char] => true | _ => false end).
(** [^] and [$] under [re.MULTILINE]. *)
Definition Bol : re := RAssert (fun l _ => match l with [] => true | c :: _ => Ascii.eqb c "010" end).
Definition Eol : re := RAssert (fun _ k => match k with [] => true | c :: _ => Ascii.eqb c "010" end).
(** [\b]. *)
Definition WordB : re := RAssert (fun l k =>
  xorb (match l with [] => false | c :: _ => is_word c end)
       (match k with [] => false | c :: _ => is_word c end)).

(** ** What the patterns match *)

Lemma lang_eps_iff l w k : lang REps l w k <-> w = [].
Proof. split; [by inversion 1 | intros ->; constructor]. Qed.

Lemma lang_chr_iff p l w k : lang (RChr p) l w k <-> exists x, w = [x] /\ p x = true.
Proof. split; [inversion 1; eauto | intros (x & -> & Hx); by constructor]. Qed.

Lemma lang_seq_iff a b l w k :
  lang (RSeq a b) l w k <->
  exists w1 w2, w = w1 ++ w2 /\ lang a l w1 (w2 ++ k) /\ lang b (reverse w1 ++ l) w2 k.
Proof.
  split; [inversion 1; eauto 6|]. intros (w1 & w2 & -> & ? & ?). by constructor.
Qed.

Lemma lang_alt_iff a b l w k : lang (RAlt a b) l w k <-> lang a l w k \/ lang b l w k.
Proof.
  split; [inversion 1; auto|]. intros [?|?]; [by apply lang_alt_l | by apply lang_alt_r].
Qed.

Lemma lang_grp_iff n a l w k : lang (RGrp n a) l w k <-> lang a l w k.
Proof. split; [by inversion 1 | by constructor]. Qed.

Lemma lang_assert_iff t l w k : lang (RAssert t) l w k <-> w = [] /\ t l k = true.
Proof. split; [by inversion 1 | intros [-> ?]; by constructor]. Qed.

Lemma lang_opt_iff a l w k : lang (ROpt a) l w k <-> lang a l w k \/ w = [].
Proof. unfold ROpt. by rewrite lang_alt_iff, lang_eps_iff. Qed.

Lemma lang_lit_iff s l w k : lang (RLit s) l w k <-> w = chars s.
Proof.
  unfold RLit. revert l w; induction (chars s) as [|c cs IH]; intros l w; simpl.
  - apply lang_eps_iff.
  - rewrite lang_seq_iff. setoid_rewrite IH. setoid_rewrite lang_chr_iff. split.
    + intros (w1 & w2 & -> & (x & -> & ->%Ascii.eqb_eq) & ->). done.
    + intros ->. exists [c], cs. split_and!; [done| |done].
      exists c. by rewrite Ascii.eqb_refl.
Qed.

Lemma lang_star_chr_iff g p l w k :
  lang (RStar g (RChr p)) l w k <-> Forall (fun c => p c = true) w.
Proof.
  split.
  - intros H. remember (RStar g (RChr p)) as r eqn:Er. induction H; simplify_eq; [constructor|].
    apply Forall_app. split; [|by auto].
    match goal with H : lang (RChr _) _ _ _ |- _ => apply lang_chr_iff in H as (x & -> & Hx) end.
    by repeat constructor.
  - intros H. revert l. induction H as [|c w Hc Hw IH]; intros l; [constructor|].
    change (c :: w) with ([c] ++ w). constructor; [done | by constructor | apply IH].
Qed.

Lemma lang_plus_chr_iff p l w k :
  lang (RPlus (RChr p)) l w k <-> w <> [] /\ Forall (fun c => p c = true) w.
Proof.
  unfold RPlus. rewrite lang_seq_iff. setoid_rewrite lang_star_chr_iff.
  setoid_rewrite lang_chr_iff. split.
  - intros (w1 & w2 & -> & (x & -> & Hx) & Hw). split; [done|]. by constructor.
  - intros [Hne Hw]. destruct Hw as [|c w Hc Hw]; [done|].
    exists [c], w. split_and!; eauto.
Qed.

Lemma lang_alts_iff rs l w k :
  lang (RAlts rs) l w k <-> exists r, r ∈ rs /\ lang r l w k.
Proof.
  destruct rs as [|a rs]; simpl.
  - rewrite lang_chr_iff. split; [naive_solver | by intros (? & ?%not_elem_of_nil & _)].
  - revert a; induction rs as [|b rs IH]; intros a; simpl.
    + split; [intros; exists a; split; [by left|done]|].
      by intros (r & ->%list_elem_of_singleton & ?).
    + rewrite IH. setoid_rewrite elem_of_cons. setoid_rewrite elem_of_cons. split.
      * intros (r & [->|Hr] & Hl); [apply lang_alt_iff in Hl as []|]; eauto 6.
      * intros (r & [->|[->|Hr]] & Hl); [| |by eauto];
          (eexists; split; [by left|]); apply lang_alt_iff; auto.
Qed.

Lemma lang_seq_assoc a b c l w k :
  lang (RSeq a (RSeq b c)) l w k <-> lang (RSeq (RSeq a b) c) l w k.
Proof.
  rewrite !lang_seq_iff. split.
  - intros (u1 & u2 & -> & Ha & Hb). apply lang_seq_iff in Hb as (u3 & u4 & -> & Hb & Hc).
    exists (u1 ++ u3), u4. rewrite reverse_app, <-!app_assoc. split_and!; [done| |done].
    apply lang_seq_iff. exists u1, u3. by rewrite <-app_assoc in Ha.
  - intros (u & u4 & -> & Hab & Hc). apply lang_seq_iff in Hab as (u1 & u3 & -> & Ha & Hb).
    exists u1, (u3 ++ u4). rewrite <-!app_assoc. split_and!; [done | done|].
    apply lang_seq_iff. exists u3, u4. by rewrite reverse_app, <-app_assoc in Hc.
Qed.

Lemma lang_seqs_cons a rs l w k :
  lang (RSeqs (a :: rs)) l w k <->
  exists w1 w2, w = w1 ++ w2 /\ lang a l w1 (w2 ++ k) /\ lang (RSeqs rs) (reverse w1 ++ l) w2 k.
Proof. apply lang_seq_iff. Qed.

(** [^] holds only at the start of the text. *)
Lemma lang_bos_iff l w k : lang Bos l w k <-> w = [] /\ l = [].
Proof. unfold Bos. rewrite lang_assert_iff. destruct l; naive_solver. Qed.

Lemma lang_eos_iff l w k : lang Eos l w k <-> w = [] /\ (k = [] \/ k = ["010"%char]).
Proof.
  unfold Eos. rewrite lang_assert_iff. split.
  - intros [-> Hk]. split; [done|].
    destruct k as [|x [|y k]]; [by left | right | ].
    + by destruct x as [[] [] [] [] [] [] [] []].
    + by destruct x as [[] [] [] [] [] [] [] []].
  - by intros [-> [->| ->]].
Qed.

Lemma test_match_spec r s :
  test_match r s = true <-> exists w k, chars s = w ++ k /\ lang r [] w k.
Proof. unfold test_match. by rewrite bool_decide_eq_true, re_match_spec. Qed.
Lemma test_fullmatch_spec r s : test_fullmatch r s = true <-> lang r [] (chars s) [].
Proof. unfold test_fullmatch. by rewrite bool_decide_eq_true, re_fullmatch_spec. Qed.
Lemma test_search_spec r s :
  test_search r s = true <->
  exists u w k, chars s = u ++ w ++ k /\ lang r (reverse u) w k.
Proof. unfold test_search. by rewrite bool_decide_eq_true, re_search_spec. Qed.

#[export] Hint Rewrite lang_eps_iff lang_chr_iff lang_grp_iff lang_assert_iff lang_lit_iff
  lang_star_chr_iff lang_plus_chr_iff lang_bos_iff lang_eos_iff : pqc_rw.

(** ** Running deterministic patterns

    What the matcher does on a repeated class when the next character
    decides; used to compute the groups of a match on symbolic text. *)

Lemma run_star_stop {X} p (q : pos) (k : pos -> option X) :
  (match p_right q with [] => True | c :: _ => p c = false end) ->
  run (RStar true (RChr p)) q k = k q.
Proof.
  intros H. cbn [run]. destruct (p_right q) as [|c l] eqn:E; cbn; [done|].
  rewrite E. by rewrite H.
Qed.

Lemma run_chr_yes {X} p c left right caps (k : pos -> option X) :
  p c = true ->
  run (RChr p) (Pos left (c :: right) caps) k = k (Pos (c :: left) right caps).
Proof. intros Hc. cbn. rewrite Hc. reflexivity. Qed.

Lemma star_loop_all {X} p (k : pos -> option X) w n left caps right x :
  Forall (fun c => p c = true) w -> (length w <= n)%nat ->
  (match right with [] => True | c :: _ => p c = false end) ->
  k (Pos (reverse w ++ left) right caps) = Some x ->
  star_loop (fun q k => run (RChr p) q k) true k n (Pos left (w ++ right) caps) = Some x.
Proof.
  revert n left; induction w as [|c w IH]; intros n left Hw Hn Hr Hk.
  - simpl in Hk. destruct n as [|n]; simpl; [done|]. destruct right as [|c right]; simpl; [done|]. by rewrite Hr.
  - inversion Hw as [|? ? Hc Hw']; subst. destruct n as [|n]; [simpl in Hn; lia|].
    cbn [star_loop app]. rewrite run_chr_yes by done. cbn [p_right].
    rewrite (proj2 (Nat.ltb_lt _ _)) by (simpl; lia).
    rewrite (IH n (c :: left)); [done | done | simpl in Hn; lia | done|].
    by rewrite reverse_cons, <-app_assoc in Hk.
Qed.

Lemma run_star_all {X} p (k : pos -> option X) w left caps right x :
  Forall (fun c => p c = true) w ->
  (match right with [] => True | c :: _ => p c = false end) ->
  k (Pos (reverse w ++ left) right caps) = Some x ->
  run (RStar true (RChr p)) (Pos left (w ++ right) caps) k = Some x.
Proof.
  intros. cbn [run]. apply star_loop_all; [done| |done..]. cbn [p_right]. rewrite length_app. lia.
Qed.

Lemma run_seq {X} a b q (k : pos -> option X) : run (RSeq a b) q k = run a q (fun q' => run b q' k).
Proof. done. Qed.

Lemma run_lit {X} s left right caps (k : pos -> option X) :
  run (RLit s) (Pos left (chars s ++ right) caps) k = k (Pos (reverse (chars s) ++ left) right caps).
Proof.
  unfold RLit. revert left; induction (chars s) as [|c l IH]; intros left; [done|].
  cbn [foldr app]. rewrite run_seq, run_chr_yes by apply Ascii.eqb_refl.
  rewrite IH. by rewrite reverse_cons, <-app_assoc.
Qed.

Lemma consumed_app w right l l' c c' : consumed (Pos l (w ++ right) c) (Pos l' right c') = w.
Proof.
  unfold consumed. cbn [p_right]. rewrite length_app.
  replace (length w + length right - length right)%nat with (length w) by lia.
  apply take_app_length.
Qed.

Lemma run_grp {X} n a q (k : pos -> option X) :
  run (RGrp n a) q k =
  run a q (fun p' => k (Pos (p_left p') (p_right p') ((n, consumed q p') :: p_caps p'))).
Proof. done. Qed.

Lemma run_alt_l {X} a b q (k : pos -> option X) x : run a q k = Some x -> run (RAlt a b) q k = Some x.
Proof. cbn [run]. by intros ->. Qed.
Lemma run_alt_r {X} a b q (k : pos -> option X) : run a q k = None -> run (RAlt a b) q k = run b q k.
Proof. cbn [run]. by intros ->. Qed.

(** ** What a group captures

    A capture is a word of the group's own expression, made of characters of
    the text. *)

Section Captures.
Context (P : ascii -> Prop) (Q : nat -> list ascii -> Prop).

Fixpoint grps_ok (r : re) : Prop :=
  match r with
  | RSeq a b | RAlt a b => grps_ok a /\ grps_ok b
  | RStar _ a | RLook a => grps_ok a
  | RGrp n a => grps_ok a /\ forall l w k, lang a l w k -> Q n w
  | _ => True
  end.

Definition cap_ok (c : nat * list ascii) : Prop := Q c.1 c.2 /\ Forall P c.2.
Definition good (p : pos) : Prop := Forall P (p_right p) /\ Forall cap_ok (p_caps p).

Definition good_at (r : re) : Prop := grps_ok r -> forall X (p : pos) (k : pos -> option X) x,
  good p -> run r p k = Some x -> exists p', good p' /\ matches r p p' /\ k p' = Some x.

Lemma star_loop_good (a : re) g X (k : pos -> option X) n p x :
  good_at a -> grps_ok a -> good p ->
  star_loop (fun p k => run a p k) g k n p = Some x ->
  exists p', good p' /\ matches (RStar g a) p p' /\ k p' = Some x.
Proof.
  intros Ha Hg. revert p; induction n as [|n IH]; intros p Hp; cbn [star_loop].
  { intros Hk. exists p. split_and!; [done| |done]. exists []. split; [done | constructor]. }
  assert (run a p (fun p' => if Nat.ltb (length (p_right p')) (length (p_right p))
            then star_loop (fun p k => run a p k) g k n p' else None) = Some x ->
          exists p', good p' /\ matches (RStar g a) p p' /\ k p' = Some x) as Hmore.
  { intros (p1 & Hp1 & (w1 & Hm1 & Hl1) & Hx)%(Ha Hg); [|done].
    destruct (Nat.ltb _ _) eqn:Hlt; [|done]. apply Nat.ltb_lt in Hlt.
    apply IH in Hx as (p2 & Hp2 & (w2 & Hm2 & Hl2) & Hk); [|done].
    exists p2. split_and!; [done| |done]. exists (w1 ++ w2). split; [by eapply moved_trans|].
    destruct Hm1 as [Hr1 Hl1'], Hm2 as [Hr2 Hl2'].
    constructor; [|by rewrite <-Hr2 | by rewrite <-Hl1'].
    intros ->. rewrite Hr1 in Hlt. simpl in Hlt. lia. }
  assert (k p = Some x -> exists p', good p' /\ matches (RStar g a) p p' /\ k p' = Some x) as Hstop.
  { intros Hk. exists p. split_and!; [done| |done]. exists []. split; [done | constructor]. }
  destruct g; case_match eqn:E; intros; simplify_eq; auto.
Qed.

Lemma run_good r : good_at r.
Proof.
  induction r as [|c|a IHa b IHb|a IHa b IHb|g a IHa|n a IHa|t|a IHa]; intros Hg X p k x Hp Hrun.
  - exists p. split_and!; [done| |done]. exists []. split; [done | constructor].
  - cbn [run] in Hrun.
    destruct p as [l [|y r] cs]; simpl in Hrun; [done|]. destruct (c y) eqn:E; [|done].
    eexists. split; [|split; [|exact Hrun]].
    + destruct Hp as [Hr Hc]. split; [|done]. by inversion Hr.
    + exists [y]. split; [done|]. by constructor.
  - destruct Hg as [Hga Hgb]. cbn [run] in Hrun.
    apply (IHa Hga) in Hrun as (p1 & Hp1 & M1 & Hx); [|done].
    apply (IHb Hgb) in Hx as (p2 & Hp2 & M2 & Hk); [|done].
    exists p2. split_and!; [done| |done].
    destruct M1 as (w1 & Hm1 & Hl1), M2 as (w2 & Hm2 & Hl2).
    exists (w1 ++ w2). split; [by eapply moved_trans|].
    destruct Hm1 as [Hr1 Hl1'], Hm2 as [Hr2 Hl2'].
    constructor; [by rewrite <-Hr2 | by rewrite <-Hl1'].
  - destruct Hg as [Hga Hgb]. cbn [run] in Hrun. case_match eqn:E; simplify_eq.
    + apply (IHa Hga) in E as (p' & Hp' & (w & Hm & Hl) & Hk); [|done].
      exists p'. split_and!; [done| |done]. exists w. split; [done | by constructor].
    + apply (IHb Hgb) in Hrun as (p' & Hp' & (w & Hm & Hl) & Hk); [|done].
      exists p'. split_and!; [done| |done]. exists w. split; [done | by apply lang_alt_r].
  - by apply star_loop_good in Hrun.
  - destruct Hg as [Hga Hq]. cbn [run] in Hrun.
    apply (IHa Hga) in Hrun as (p' & [Hr Hc] & (w & [Hmr Hml] & Hl) & Hk); [|done].
    eexists. split; [|split; [|exact Hk]].
    + split; [done|]. constructor; [|done]. unfold cap_ok. cbn [fst snd].
      assert (consumed p p' = w) as ->.
      { unfold consumed. rewrite Hmr, length_app.
        replace (length w + length (p_right p') - length (p_right p'))%nat with (length w) by lia.
        apply take_app_length. }
      split; [by eapply Hq|]. destruct Hp as [Hp _]. rewrite Hmr in Hp. by apply Forall_app in Hp as [? _].
    + exists w. split; [done | by constructor].
  - cbn [run] in Hrun. destruct (t _ _) eqn:E; [|done]. exists p. split_and!; [done| |done].
    exists []. split; [done | by constructor].
  - cbn [run] in Hrun. case_match eqn:E; [|done].
    apply (IHa Hg) in E as (p' & [Hr' Hc'] & (w & [Hr Hl'] & Hl) & [= <-]); [|done].
    eexists. split; [|split; [|exact Hrun]].
    + split; [by destruct Hp | done].
    + exists []. split; [done|]. simpl. rewrite Hr. by constructor.
Qed.

Lemma good_start left s : Forall P (chars s) -> good (Pos left (chars s) []).
Proof. intros Hs. split; [done | constructor]. Qed.

Lemma group_good n l w : Forall cap_ok l ->
  str_of ∘ snd <$> find (fun c => Nat.eqb c.1 n) l = Some w -> Q n (chars w) /\ Forall P (chars w).
Proof.
  intros Hl H. apply fmap_Some in H as ([m u] & Hf & ->). apply find_some in Hf as [Hin Hm].
  apply Nat.eqb_eq in Hm as <-. rewrite Forall_forall in Hl. cbn. rewrite chars_str_of.
  apply (Hl (m, u)). by apply list_elem_of_In.
Qed.

(** The group [n] of a match of [re.match]. *)
Lemma re_match_group r s m n w :
  grps_ok r -> Forall P (chars s) -> re_match r s = Some m -> group n m = Some w ->
  Q n (chars w) /\ Forall P (chars w).
Proof.
  intros Hg Hs. unfold re_match. intros (p & Hr & ->)%fmap_Some Hw.
  apply (run_good _ Hg) in Hr as (p' & [_ Hc] & _ & [= <-]); [|by apply good_start].
  by eapply group_good.
Qed.

(** A group that took part in the match; [group_or] is empty otherwise. *)
Lemma re_match_group_or r s m n :
  grps_ok r -> Forall P (chars s) -> re_match r s = Some m ->
  group_or n m = EmptyString \/ (Q n (chars (group_or n m)) /\ Forall P (chars (group_or n m))).
Proof.
  intros Hg Hs Hm. unfold group_or. destruct (group n m) as [w|] eqn:E; [right | by left].
  by eapply re_match_group.
Qed.
End Captures.
