(* ===== verification/PyBytes.v ===== *)
(** * Python [bytes]

    Byte strings, big-endian integers, hexadecimal, the codecs the scanner
    decodes with ([errors="replace"]) and SHA-256 ([hashlib.sha256]). *)

From S2P Require Import Prelude PyStr.
From Stdlib.Strings Require Import Byte.
Open Scope Z_scope.
Abbreviation bytes := (list byte).

#[export] Instance byte_eq_decision : EqDecision byte := Byte.byte_eq_dec.

Definition bval (b : byte) : Z := Z.of_N (Byte.to_N b).
Definition of_bval (z : Z) : byte :=
  match Byte.of_N (Z.to_N (z mod 256)) with Some b => b | None => x00 end.

Definition blen (b : bytes) : Z := Z.of_nat (length b).

(** [buf[pos]]: positions of the modelled code are never negative. *)
Definition byte_at (buf : bytes) (pos : Z) : res Z :=
  if (0 <=? pos) && (pos <? blen buf)
  then match buf !! Z.to_nat pos with Some b => Ok (bval b) | None => Raise IndexError end
  else Raise IndexError.

(** [buf[a:b]] for [0 <= a], clipped like a Python slice. *)
Definition slice (buf : bytes) (a b : Z) : bytes :=
  take (Z.to_nat (b - a)) (drop (Z.to_nat a) buf).

(** [int.from_bytes(b, "big")]. *)
Definition from_bytes (b : bytes) : Z := foldl (fun acc x => acc * 256 + bval x) 0 b.

(** [int.bit_length] of a non-negative number. *)
Definition bit_length (z : Z) : Z := if z =? 0 then 0 else Z.log2 z + 1.

(** [b.hex()]. *)
Definition hex_char (z : Z) : ascii :=
  ascii_of_N (Z.to_N (if z <? 10 then 48 + z else 87 + z)).
Definition hex_of_byte (b : byte) : list ascii :=
  [hex_char (bval b / 16); hex_char (bval b mod 16)].
Definition bytes_hex (b : bytes) : string := str_of (concat (hex_of_byte <$> b)).

(** ** Codecs *)

Inductive codec := Utf8 | AsciiC | Latin1 | Utf16be | Utf32be.

Definition chr (z : Z) : ascii := ascii_of_N (Z.to_N z).

(** UTF-8 text of a code point. *)
Definition utf8_enc (cp : Z) : list ascii :=
  if cp <? 128 then [chr cp]
  else if cp <? 2048 then [chr (192 + cp / 64); chr (128 + cp mod 64)]
  else if cp <? 65536
  then [chr (224 + cp / 4096); chr (128 + cp / 64 mod 64); chr (128 + cp mod 64)]
  else [chr (240 + cp / 262144); chr (128 + cp / 4096 mod 64);
        chr (128 + cp / 64 mod 64); chr (128 + cp mod 64)].

(** U+FFFD, what a malformed sequence decodes to under [errors="replace"]. *)
Definition replacement : list ascii := utf8_enc 65533.

Definition in_rng (lo hi x : Z) : bool := (lo <=? x) && (x <=? hi).

(** One step of the UTF-8 decoder: the text produced and the bytes used.  A
    malformed sequence is replaced once for its longest valid prefix. *)
Definition utf8_step (l : list Z) : list ascii * nat :=
  match l with
  | [] => ([], 1%nat)
  | a :: t =>
      let second_ok b :=
        if a =? 224 then in_rng 160 191 b else if a =? 237 then in_rng 128 159 b
        else if a =? 240 then in_rng 144 191 b else if a =? 244 then in_rng 128 143 b
        else in_rng 128 191 b in
      if a <? 128 then ([chr a], 1%nat)
      else if in_rng 194 223 a then
        match t with
        | b :: _ => if in_rng 128 191 b then ([chr a; chr b], 2%nat) else (replacement, 1%nat)
        | [] => (replacement, 1%nat)
        end
      else if in_rng 224 239 a then
        match t with
        | b :: t' =>
            if second_ok b then
              match t' with
              | c :: _ => if in_rng 128 191 c then ([chr a; chr b; chr c], 3%nat)
                          else (replacement, 2%nat)
              | [] => (replacement, 2%nat)
              end
            else (replacement, 1%nat)
        | [] => (replacement, 1%nat)
        end
      else if in_rng 240 244 a then
        match t with
        | b :: t' =>
            if second_ok b then
              match t' with
              | c :: t'' =>
                  if in_rng 128 191 c then
                    match t'' with
                    | d :: _ => if in_rng 128 191 d then ([chr a; chr b; chr c; chr d], 4%nat)
                                else (replacement, 3%nat)
                    | [] => (replacement, 3%nat)
                    end
                  else (replacement, 2%nat)
              | [] => (replacement, 2%nat)
              end
            else (replacement, 1%nat)
        | [] => (replacement, 1%nat)
        end
      else (replacement, 1%nat)
  end.

Fixpoint utf8_dec (fuel : nat) (l : list Z) : list ascii :=
  match fuel, l with
  | S fuel, _ :: _ => let '(out, n) := utf8_step l in out ++ utf8_dec fuel (drop n l)
  | _, _ => []
  end.

(** UTF-16-BE: a lone surrogate or a truncated unit is replaced. *)
Fixpoint utf16_dec (fuel : nat) (l : list Z) : list ascii :=
  match fuel, l with
  | S fuel, a :: b :: t =>
      let u := a * 256 + b in
      if in_rng 55296 56319 u then
        match t with
        | c :: d :: t' =>
            let v := c * 256 + d in
            if in_rng 56320 57343 v
            then utf8_enc (65536 + (u - 55296) * 1024 + (v - 56320)) ++ utf16_dec fuel t'
            else replacement ++ utf16_dec fuel t
        | _ => replacement
        end
      else if in_rng 56320 57343 u then replacement ++ utf16_dec fuel t
      else utf8_enc u ++ utf16_dec fuel t
  | S _, [_] => replacement
  | _, _ => []
  end.

Fixpoint utf32_dec (fuel : nat) (l : list Z) : list ascii :=
  match fuel, l with
  | S fuel, a :: b :: c :: d :: t =>
      let u := ((a * 256 + b) * 256 + c) * 256 + d in
      (if (1114111 <? u) || in_rng 55296 57343 u then replacement else utf8_enc u)
        ++ utf32_dec fuel t
  | S _, _ :: _ => replacement
  | _, _ => []
  end.

(** [b.decode(codec, "replace")]. *)
Definition decode (c : codec) (b : bytes) : string :=
  let l := bval <$> b in
  str_of
    match c with
    | Utf8 => utf8_dec (length l) l
    | AsciiC => concat ((fun x => if x <? 128 then [chr x] else replacement) <$> l)
    | Latin1 => concat (utf8_enc <$> l)
    | Utf16be => utf16_dec (length l) l
    | Utf32be => utf32_dec (length l) l
    end.

(** ** SHA-256 (FIPS 180-4) *)

Module Sha256.
Definition w32 (z : Z) : Z := z mod 4294967296.
Definition rotr (n x : Z) : Z := Z.lor (Z.shiftr x n) (w32 (Z.shiftl x (32 - n))).

Definition k_table : list Z := [
  1116352408; 1899447441; 3049323471; 3921009573; 961987163; 1508970993; 2453635748; 2870763221;
  3624381080; 310598401; 607225278; 1426881987; 1925078388; 2162078206; 2614888103; 3248222580;
  3835390401; 4022224774; 264347078; 604807628; 770255983; 1249150122; 1555081692; 1996064986;
  2554220882; 2821834349; 2952996808; 3210313671; 3336571891; 3584528711; 113926993; 338241895;
  666307205; 773529912; 1294757372; 1396182291; 1695183700; 1986661051; 2177026350; 2456956037;
  2730485921; 2820302411; 3259730800; 3345764771; 3516065817; 3600352804; 4094571909; 275423344;
  430227734; 506948616; 659060556; 883997877; 958139571; 1322822218; 1537002063; 1747873779;
  1955562222; 2024104815; 2227730452; 2361852424; 2428436474; 2756734187; 3204031479; 3329325298].

Definition h_init : list Z := [
  1779033703; 3144134277; 1013904242; 2773480762; 1359893119; 2600822924; 528734635; 1541459225].

Definition ch (x y z : Z) : Z := Z.lxor (Z.land x y) (Z.land (w32 (Z.lnot x)) z).
Definition maj (x y z : Z) : Z := Z.lxor (Z.lxor (Z.land x y) (Z.land x z)) (Z.land y z).
Definition bsig0 (x : Z) : Z := Z.lxor (Z.lxor (rotr 2 x) (rotr 13 x)) (rotr 22 x).
Definition bsig1 (x : Z) : Z := Z.lxor (Z.lxor (rotr 6 x) (rotr 11 x)) (rotr 25 x).
Definition ssig0 (x : Z) : Z := Z.lxor (Z.lxor (rotr 7 x) (rotr 18 x)) (Z.shiftr x 3).
Definition ssig1 (x : Z) : Z := Z.lxor (Z.lxor (rotr 17 x) (rotr 19 x)) (Z.shiftr x 10).

(** The message schedule, latest word first. *)
Fixpoint schedule (n : nat) (rw : list Z) : list Z :=
  match n with
  | O => rw
  | S n =>
      let g i := nth i rw 0 in
      schedule n (w32 (ssig1 (g 1%nat) + g 6%nat + ssig0 (g 14%nat) + g 15%nat) :: rw)
  end.

Definition round (st : list Z) (kw : Z * Z) : list Z :=
  match st with
  | [a; b; c; d; e; f; g; h] =>
      let t1 := h + bsig1 e + ch e f g + kw.1 + kw.2 in
      let t2 := bsig0 a + maj a b c in
      [w32 (t1 + t2); a; b; c; w32 (d + t1); e; f; g]
  | _ => st
  end.

Definition block (st : list Z) (ws : list Z) : list Z :=
  let w := rev (schedule 48 (rev ws)) in
  zip_with (fun a b => w32 (a + b)) st (foldl round st (zip k_table w)).

Fixpoint words_of (n : nat) (l : list Z) : list Z :=
  match n, l with
  | S n, a :: b :: c :: d :: t => (((a * 256 + b) * 256 + c) * 256 + d) :: words_of n t
  | _, _ => []
  end.

Fixpoint blocks (n : nat) (l : list Z) (st : list Z) : list Z :=
  match n with
  | O => st
  | S n => blocks n (drop 64 l) (block st (words_of 16 (take 64 l)))
  end.

Definition be_bytes (n : nat) (z : Z) : list Z :=
  rev (map (fun i => z / 256 ^ Z.of_nat i mod 256) (seq 0 n)).

Definition pad (l : list Z) : list Z :=
  let len := Z.of_nat (length l) in
  l ++ [128] ++ replicate (Z.to_nat ((55 - len) mod 64)) 0 ++ be_bytes 8 (8 * len).

Definition digest (b : list Z) : list Z :=
  let p := pad b in
  concat (be_bytes 4 <$> blocks (length p / 64) p h_init).
End Sha256.

(** [hashlib.sha256(b).hexdigest()]. *)
Definition sha256_hex (b : bytes) : string :=
  str_of (concat ((fun z => [hex_char (z / 16); hex_char (z mod 16)])
                    <$> Sha256.digest (bval <$> b))).

(** ** Lemmas *)

Lemma bval_range b : 0 <= bval b < 256.
Proof. unfold bval. pose proof (Byte.to_N_bounded b). lia. Qed.

Lemma of_bval_val z : 0 <= z < 256 -> bval (of_bval z) = z.
Proof.
  intros Hz. unfold of_bval. rewrite Z.mod_small by done.
  destruct (Byte.of_N (Z.to_N z)) as [b|] eqn:E.
  - unfold bval. rewrite (Byte.to_of_N _ E). lia.
  - apply Byte.of_N_None_iff in E. lia.
Qed.

Lemma bval_inj a b : bval a = bval b -> a = b.
Proof.
  unfold bval. intros H%N2Z.inj.
  assert (Some a = Some b) as [= ->]; [|done].
  by rewrite <-(Byte.of_to_N a), <-(Byte.of_to_N b), H.
Qed.

Lemma blen_app a b : blen (a ++ b) = blen a + blen b.
Proof. unfold blen. rewrite length_app. lia. Qed.

Lemma blen_nonneg b : 0 <= blen b.
Proof. unfold blen. lia. Qed.

Lemma blen_cons x b : blen (x :: b) = 1 + blen b.
Proof. unfold blen. cbn [length]. lia. Qed.

(** Inside the buffer an index never raises. *)
Lemma byte_at_ok buf pos :
  0 <= pos < blen buf -> exists z, byte_at buf pos = Ok z /\ 0 <= z < 256.
Proof.
  intros H. unfold byte_at. rewrite (proj2 (Z.leb_le 0 pos)), (proj2 (Z.ltb_lt _ _)) by lia.
  simpl. unfold blen in H. destruct (lookup_lt_is_Some_2 buf (Z.to_nat pos)) as [b ->]; [lia|].
  exists (bval b). split; [done | apply bval_range].
Qed.

Lemma byte_at_app buf x rest :
  byte_at (buf ++ x :: rest) (blen buf) = Ok (bval x).
Proof.
  unfold byte_at. pose proof (blen_nonneg buf). pose proof (blen_nonneg rest).
  rewrite blen_app, blen_cons.
  rewrite (proj2 (Z.leb_le 0 _)), (proj2 (Z.ltb_lt _ _)) by lia. simpl.
  rewrite list_lookup_middle; [done|]. unfold blen. lia.
Qed.

Lemma slice_app p m s : slice (p ++ m ++ s) (blen p) (blen p + blen m) = m.
Proof.
  unfold slice, blen. rewrite Nat2Z.id, drop_app_length.
  replace (Z.to_nat _) with (length m) by lia. by rewrite take_app_length.
Qed.

Lemma from_bytes_acc acc l :
  foldl (fun acc x => acc * 256 + bval x) acc l = acc * 256 ^ blen l + from_bytes l.
Proof.
  unfold from_bytes. revert acc; induction l as [|x l IH]; intros acc.
  - change (blen []) with 0. cbn [foldl]. rewrite Z.pow_0_r. lia.
  - cbn [foldl]. rewrite IH, (IH (0 * 256 + bval x)), blen_cons.
    rewrite Z.pow_add_r by (try apply blen_nonneg; lia). ring.
Qed.

Lemma from_bytes_cons x l : from_bytes (x :: l) = bval x * 256 ^ blen l + from_bytes l.
Proof. unfold from_bytes at 1. cbn [foldl]. by rewrite from_bytes_acc. Qed.

Lemma from_bytes_range l : 0 <= from_bytes l < 256 ^ blen l.
Proof.
  induction l as [|x l IH]; [done|].
  rewrite from_bytes_cons, blen_cons, Z.pow_add_r by (try apply blen_nonneg; lia).
  pose proof (bval_range x). nia.
Qed.

(** Big-endian bytes of a number, the inverse of [from_bytes]. *)
Fixpoint to_bytes (n : nat) (z : Z) : bytes :=
  match n with
  | O => []
  | S n => of_bval (z / 256 ^ Z.of_nat n mod 256) :: to_bytes n z
  end.

Lemma length_to_bytes n z : length (to_bytes n z) = n.
Proof. induction n; simpl; congruence. Qed.

Lemma from_to_bytes n z : from_bytes (to_bytes n z) = z mod 256 ^ Z.of_nat n.
Proof.
  induction n as [|n IH]; [cbn; by rewrite Z.mod_1_r|].
  cbn [to_bytes]. rewrite from_bytes_cons, IH.
  rewrite of_bval_val by (apply Z.mod_pos_bound; lia).
  unfold blen. rewrite length_to_bytes.
  replace (Z.of_nat (S n)) with (Z.of_nat n + 1) by lia.
  rewrite Z.pow_add_r, Z.pow_1_r by lia.
  rewrite Z.rem_mul_r by lia. lia.
Qed.

(** The buffer holds [c] at [pos]. *)
Definition holds (buf : bytes) (pos : Z) (c : bytes) : Prop :=
  exists pre post, buf = pre ++ c ++ post /\ pos = blen pre.

Lemma holds_nonneg buf pos c : holds buf pos c -> 0 <= pos /\ pos + blen c <= blen buf.
Proof.
  intros (pre & post & -> & ->). rewrite !blen_app.
  pose proof (blen_nonneg pre). pose proof (blen_nonneg post). lia.
Qed.

Lemma holds_app buf pos a b :
  holds buf pos (a ++ b) -> holds buf pos a /\ holds buf (pos + blen a) b.
Proof.
  intros (pre & post & -> & ->). split.
  - exists pre, (b ++ post). by rewrite <-app_assoc.
  - exists (pre ++ a), post. by rewrite blen_app, <-!app_assoc.
Qed.

Lemma holds_slice buf pos c : holds buf pos c -> slice buf pos (pos + blen c) = c.
Proof. intros (pre & post & -> & ->). apply slice_app. Qed.

Lemma holds_self c : holds c 0 c.
Proof. exists [], []. by rewrite app_nil_r. Qed.

Lemma holds_byte buf pos b c : holds buf pos (b :: c) -> byte_at buf pos = Ok (bval b).
Proof. intros (pre & post & -> & ->). apply byte_at_app. Qed.

Example sha256_empty :
  sha256_hex [] = "e3b0c44298fc1c149afbf4c8996fb92427ae41e4649b934ca495991b7852b855".
Proof. vm_compute. reflexivity. Qed.
Example sha256_abc :
  sha256_hex [x61; x62; x63] = "ba7816bf8f01cfea414140de5dae2223b00361a396177a9cb410ff61f20015ad".
Proof. vm_compute. reflexivity. Qed.

(** * [struct]: fixed-width integers in byte strings

    Reading unsigned words of [n] bytes in either byte order, their encoder,
    and the [struct.error] of a read past the end of the buffer. *)
(** One unsigned field of [n] bytes, and the sign of a field of [n] bytes. *)
Definition unpack (big : bool) (data : bytes) (n at_ : Z) : Z :=
  let b := slice data at_ (at_ + n) in from_bytes (if big then b else reverse b).
Definition signed (n z : Z) : Z := if 2 ^ (8 * n - 1) <=? z then z - 2 ^ (8 * n) else z.

Definition StructError : exn := Custom "struct.error" "unpack_from requires a larger buffer".

(** [struct.unpack_from] at a non-negative offset; [total] is the size of
    the whole format, which is checked before any field is read. *)
Definition need (data : bytes) (at_ total : Z) : res unit :=
  if blen data <? at_ + total then Raise StructError else Ok ().
Definition unpack_from (big : bool) (n : Z) (data : bytes) (at_ : Z) : res Z :=
  _ ← need data at_ n; Ok (unpack big data n at_).

(** ** The encoder *)

Definition word_ok (n z : Z) : Prop := 0 <= z < 256 ^ n.
Definition enc_word (big : bool) (n z : Z) : bytes :=
  let b := to_bytes (Z.to_nat n) z in if big then b else reverse b.

Lemma blen_enc_word big n z : 0 <= n -> blen (enc_word big n z) = n.
Proof. intros Hn. unfold enc_word, blen. destruct big; rewrite ?length_reverse, length_to_bytes; lia. Qed.

Lemma unpack_word big data n at_ z : holds data at_ (enc_word big n z) -> 0 <= n -> word_ok n z -> unpack big data n at_ = z.
Proof.
  intros H Hn Hz. apply holds_slice in H. rewrite blen_enc_word in H by done. unfold unpack. rewrite H. unfold enc_word.
  assert (Hw : from_bytes (to_bytes (Z.to_nat n) z) = z).
  { rewrite from_to_bytes, Z2Nat.id by done. by apply Z.mod_small. }
  destruct big; [done|]. by rewrite reverse_involutive.
Qed.

Lemma unpack_from_word big data n at_ z :
  holds data at_ (enc_word big n z) -> 0 <= n -> word_ok n z -> unpack_from big n data at_ = Ok z.
Proof.
  intros H Hn Hz. pose proof (holds_nonneg _ _ _ H) as Hb. rewrite blen_enc_word in Hb by done.
  unfold unpack_from, need. replace (blen data <? at_ + n) with false by lia. cbn [mbind res_bind].
  by rewrite (unpack_word big data n at_ z).
Qed.

Lemma slice_length data a b : 0 <= a -> a <= b -> b <= blen data -> blen (slice data a b) = b - a.
Proof. intros. unfold slice, blen in *. rewrite length_take, length_drop. lia. Qed.

Lemma unpack_range big data n at_ : 0 <= n -> 0 <= unpack big data n at_ < 256 ^ n.
Proof.
  intros Hn. unfold unpack. set (b := slice data at_ (at_ + n)).
  assert (Hb : blen b <= n).
  { unfold b, slice, blen. rewrite length_take. lia. }
  assert (Hl : blen (if big then b else reverse b) = blen b) by (destruct big; [done|]; unfold blen; by rewrite length_reverse).
  pose proof (from_bytes_range (if big then b else reverse b)) as Hr. rewrite Hl in Hr.
  assert (256 ^ blen b <= 256 ^ n) by (apply Z.pow_le_mono_r; lia). lia.
Qed.

Lemma signed_range n z : 0 < n -> 0 <= z < 256 ^ n -> - 2 ^ (8 * n - 1) <= signed n z < 2 ^ (8 * n - 1).
Proof.
  intros Hn Hz. assert (H256 : 256 ^ n = 2 ^ (8 * n)) by (change 256 with (2 ^ 8); by rewrite <- Z.pow_mul_r by lia).
  assert (H2 : 2 ^ (8 * n) = 2 * 2 ^ (8 * n - 1)) by (rewrite <- Z.pow_succ_r by lia; f_equal; lia).
  unfold signed. destruct (2 ^ (8 * n - 1) <=? z) eqn:E; lia.
Qed.

(** A read that is in bounds does not raise. *)
Lemma unpack_from_in big n data at_ : at_ + n <= blen data -> unpack_from big n data at_ = Ok (unpack big data n at_).
Proof. intros H. unfold unpack_from, need. by replace (blen data <? at_ + n) with false by lia. Qed.

(** Cut [holds] of a concatenation into its fields. *)
Ltac pieces H := repeat
  match type of H with
  | holds _ _ (_ ++ _) =>
      let H1 := fresh "Hh" in apply holds_app in H as [H1 H]; rewrite ?blen_enc_word in H by lia
  end.

(** ** Words read are the words that are there *)

Lemma to_bytes_high n k m z : (n <= m)%nat -> to_bytes n (k * 256 ^ Z.of_nat m + z) = to_bytes n z.
Proof.
  induction n as [|n IH]; intros Hm; [done|]. cbn [to_bytes]. rewrite IH by lia. do 2 f_equal.
  replace (k * 256 ^ Z.of_nat m) with (k * 256 ^ Z.of_nat (m - S n) * 256 * 256 ^ Z.of_nat n).
  - rewrite Z.add_comm, Z.div_add by lia. by rewrite Z.mod_add.
  - replace (Z.of_nat m) with (Z.of_nat (m - S n) + 1 + Z.of_nat n) by lia.
    rewrite !Z.pow_add_r, Z.pow_1_r by lia. lia.
Qed.

Lemma to_from_bytes b : to_bytes (length b) (from_bytes b) = b.
Proof.
  induction b as [|x l IH]; [done|]. rewrite from_bytes_cons. unfold blen. cbn [length to_bytes].
  rewrite to_bytes_high, IH by done. f_equal. pose proof (from_bytes_range l) as Hr. unfold blen in Hr.
  rewrite Z.div_add_l, Z.div_small, Z.add_0_r by lia. pose proof (bval_range x). rewrite Z.mod_small by done.
  apply bval_inj, of_bval_val, bval_range.
Qed.

Lemma holds_of_slice data a b : 0 <= a -> a <= b -> b <= blen data -> holds data a (slice data a b).
Proof.
  intros Ha Hb Hl. unfold blen in Hl. exists (take (Z.to_nat a) data), (drop (Z.to_nat b) data). split.
  - unfold slice. rewrite <- (take_drop (Z.to_nat a) data) at 1. f_equal.
    rewrite <- (take_drop (Z.to_nat (b - a)) (drop (Z.to_nat a) data)) at 1. f_equal.
    rewrite drop_drop. f_equal. lia.
  - unfold blen. rewrite length_take. lia.
Qed.

Lemma holds_unpack big data n at_ : 0 <= n -> 0 <= at_ -> at_ + n <= blen data ->
  holds data at_ (enc_word big n (unpack big data n at_)).
Proof.
  intros Hn Ha Hl. pose proof (slice_length data at_ (at_ + n) Ha ltac:(lia) Hl) as Hlen.
  replace (enc_word big n (unpack big data n at_)) with (slice data at_ (at_ + n)); [apply holds_of_slice; lia|].
  unfold enc_word, unpack. set (b := slice data at_ (at_ + n)) in *.
  assert (Hnat : Z.to_nat n = length b) by (unfold blen in Hlen; lia).
  destruct big; [by rewrite Hnat, to_from_bytes|].
  rewrite Hnat, <- (length_reverse b), to_from_bytes. by rewrite reverse_involutive.
Qed.

Lemma holds_join data at_ a b : holds data at_ a -> holds data (at_ + blen a) b -> holds data at_ (a ++ b).
Proof.
  intros (p & q & -> & ->) (p' & q' & He & Hp). exists p, q'.
  assert (p' = p ++ a) as ->.
  { rewrite app_assoc in He. apply app_inj_1 in He as [He _]; [done|].
    rewrite length_app. unfold blen in Hp. lia. }
  split; [|done]. by rewrite <- !app_assoc in He |- *.
Qed.

Lemma holds_whole data : holds data 0 data.
Proof. exists [], []. by rewrite app_nil_r. Qed.

Lemma holds_inj data at_ a b : holds data at_ a -> holds data at_ b -> blen a = blen b -> a = b.
Proof. intros Ha Hb Hl. apply holds_slice in Ha, Hb. rewrite Hl in Ha. congruence. Qed.

Lemma holds_trans data at_ c off d : holds data at_ c -> holds c off d -> holds data (at_ + off) d.
Proof.
  intros (p & q & -> & ->) (p' & q' & -> & ->). exists (p ++ p'), (q' ++ q). rewrite blen_app.
  by rewrite <- !app_assoc.
Qed.

Lemma word_ok_unpack big data n at_ : 0 <= n -> word_ok n (unpack big data n at_).
Proof. apply unpack_range. Qed.

(** * [base64]

    [base64.b64decode(s, validate=True)] (strict: only the alphabet, padding
    only at the end, no byte after it) and [base64.b64encode], and that the
    first inverts the second. *)
Definition b64_alphabet : list ascii :=
  chars "ABCDEFGHIJKLMNOPQRSTUVWXYZabcdefghijklmnopqrstuvwxyz0123456789+/".

Definition b64_char (z : Z) : ascii := nth (Z.to_nat z) b64_alphabet "A"%char.

Definition b64_val (c : ascii) : option Z :=
  if is_upper c then Some (Z.of_N (code c) - 65)
  else if is_lower c then Some (Z.of_N (code c) - 71)
  else if is_digit c then Some (Z.of_N (code c) + 4)
  else if Ascii.eqb c "+" then Some 62
  else if Ascii.eqb c "/" then Some 63 else None.

(** The 24 bits of a group. *)
Definition group24 (b : list Z) : Z := foldl (fun acc x => acc * 256 + x) 0 b.

Fixpoint b64_enc (l : bytes) : list ascii :=
  match l with
  | [] => []
  | [a] => let n := bval a * 65536 in [b64_char (n / 262144); b64_char (n / 4096 mod 64); "="%char; "="%char]
  | [a; b] => let n := bval a * 65536 + bval b * 256 in
      [b64_char (n / 262144); b64_char (n / 4096 mod 64); b64_char (n / 64 mod 64); "="%char]
  | a :: b :: c :: l =>
      let n := bval a * 65536 + bval b * 256 + bval c in
      b64_char (n / 262144) :: b64_char (n / 4096 mod 64) :: b64_char (n / 64 mod 64) ::
      b64_char (n mod 64) :: b64_enc l
  end.
Definition b64encode (b : bytes) : string := str_of (b64_enc b).

Definition is_pad (c : ascii) : bool := Ascii.eqb c "=".

(** [None] where Python raises [binascii.Error]. *)
Fixpoint b64_dec (l : list ascii) : option bytes :=
  match l with
  | [] => Some []
  | a :: b :: c :: d :: l' =>
      va ← b64_val a; vb ← b64_val b;
      if is_pad c then
        if is_pad d && (match l' with [] => true | _ => false end)
        then Some [of_bval ((va * 64 + vb) / 16)] else None
      else
        vc ← b64_val c;
        if is_pad d then
          match l' with
          | [] => let n := (va * 64 + vb) * 64 + vc in
                  Some [of_bval (n / 1024); of_bval (n / 4 mod 256)]
          | _ => None
          end
        else
          vd ← b64_val d;
          rest ← b64_dec l';
          let n := ((va * 64 + vb) * 64 + vc) * 64 + vd in
          Some (of_bval (n / 65536) :: of_bval (n / 256 mod 256) :: of_bval (n mod 256) :: rest)
  | _ => None
  end.
Definition b64decode (s : string) : option bytes := b64_dec (chars s).

Lemma b64_val_char z : 0 <= z < 64 -> b64_val (b64_char z) = Some z /\ is_pad (b64_char z) = false.
Proof.
  intros Hz.
  assert (forallb (fun n => bool_decide (b64_val (b64_char (Z.of_nat n)) = Some (Z.of_nat n)) &&
            negb (is_pad (b64_char (Z.of_nat n)))) (seq 0 64) = true) as H by (vm_compute; reflexivity).
  rewrite forallb_forall in H. specialize (H (Z.to_nat z)). rewrite in_seq in H.
  specialize (H ltac:(lia)). rewrite Z2Nat.id in H by lia.
  apply andb_true_iff in H as [H1%bool_decide_eq_true H2%negb_true_iff]. done.
Qed.

Lemma of_bval_bval b : of_bval (bval b) = b.
Proof. apply bval_inj, of_bval_val, bval_range. Qed.

Lemma of_bval_eq z b : z = bval b -> of_bval z = b.
Proof. intros ->. apply of_bval_bval. Qed.

Lemma sextets n :
  0 <= n < 16777216 ->
  0 <= n / 262144 < 64 /\ 0 <= n / 4096 mod 64 < 64 /\ 0 <= n / 64 mod 64 < 64 /\ 0 <= n mod 64 < 64 /\
  ((n / 262144 * 64 + n / 4096 mod 64) * 64 + n / 64 mod 64) * 64 + n mod 64 = n.
Proof. intros. Z.div_mod_to_equations. lia. Qed.

(** Decoding inverts encoding. *)
Lemma b64_dec_enc l : b64_dec (b64_enc l) = Some l.
Proof.
  enough (forall n, (length l <= n)%nat -> b64_dec (b64_enc l) = Some l) by eauto.
  intros n; revert l; induction n as [|n IH]; intros l Hl; [by destruct l; simpl in *; [|lia]|].
  destruct l as [|a [|b [|c l]]]; [done| | |].
  - pose proof (bval_range a) as Ra. pose proof (sextets (bval a * 65536) ltac:(lia)) as (H1 & H2 & _ & _ & Hn).
    cbn [b64_enc b64_dec]. destruct (b64_val_char _ H1) as [-> _], (b64_val_char _ H2) as [-> _].
    simpl. do 2 f_equal. apply of_bval_eq. Z.div_mod_to_equations. lia.
  - pose proof (bval_range a) as Ra. pose proof (bval_range b) as Rb.
    pose proof (sextets (bval a * 65536 + bval b * 256) ltac:(lia)) as (H1 & H2 & H3 & _ & Hn).
    cbn [b64_enc b64_dec].
    destruct (b64_val_char _ H1) as [-> _], (b64_val_char _ H2) as [-> _], (b64_val_char _ H3) as [-> ->].
    simpl. do 2 f_equal; [|f_equal]; apply of_bval_eq; Z.div_mod_to_equations; lia.
  - pose proof (bval_range a) as Ra. pose proof (bval_range b) as Rb. pose proof (bval_range c) as Rc.
    pose proof (sextets (bval a * 65536 + bval b * 256 + bval c) ltac:(lia)) as (H1 & H2 & H3 & H4 & Hn).
    cbn [b64_enc b64_dec].
    destruct (b64_val_char _ H1) as [-> _], (b64_val_char _ H2) as [-> _], (b64_val_char _ H3) as [-> ->],
      (b64_val_char _ H4) as [-> ->].
    cbn [mbind option_bind]. rewrite IH by (simpl in Hl; lia). cbn [mbind option_bind]. rewrite Hn.
    do 2 f_equal; [|f_equal; [|f_equal]]; apply of_bval_eq; Z.div_mod_to_equations; lia.
Qed.

Lemma b64_roundtrip b : b64decode (b64encode b) = Some b.
Proof. unfold b64decode, b64encode. rewrite chars_str_of. apply b64_dec_enc. Qed.

Lemma b64_char_not_space z : is_space (b64_char z) = false.
Proof.
  unfold b64_char.
  assert (forallb (fun c => negb (is_space c)) ("A"%char :: b64_alphabet) = true) as H
    by (vm_compute; reflexivity).
  rewrite forallb_forall in H. apply negb_true_iff, H.
  destruct (nth_in_or_default (Z.to_nat z) b64_alphabet "A"%char) as [Hin|Hd]; [by right | left; by rewrite Hd].
Qed.

Lemma b64_no_space b : no_chars is_space (b64encode b).
Proof.
  unfold no_chars, b64encode. rewrite chars_str_of.
  enough (forall n l, (length l <= n)%nat -> Forall (fun c => is_space c = false) (b64_enc l)) by eauto.
  induction n as [|n IH]; intros l Hl; [by destruct l; simpl in *; [constructor|lia]|].
  destruct l as [|a0 [|a1 [|a2 l]]]; cbn [b64_enc]; repeat (constructor; [by apply b64_char_not_space || done|]);
    try constructor. apply IH. simpl in Hl. lia.
Qed.

Lemma b64_nonempty b : b <> [] -> b64encode b <> EmptyString.
Proof. destruct b as [|? [|? [|? ?]]]; done. Qed.
