(* ===== verification/PyPath.v ===== *)
(** * [posixpath]

    [dirname], [basename], [join] and [normpath]. *)

From S2P Require Import Prelude PyStr.
Open Scope Z_scope.
Definition is_slash (c : ascii) : bool := Ascii.eqb c "/".

(** The text up to and including the last slash, and what follows it. *)
Definition split_slash (p : string) : list ascii * list ascii :=
  let r := reverse (chars p) in
  let base := (fix go l := match l with
                           | [] => []
                           | c :: l' => if is_slash c then [] else c :: go l'
                           end) r in
  (reverse (drop (length base) r), reverse base).

Definition basename (p : string) : string := str_of (split_slash p).2.

Definition dirname (p : string) : string :=
  let head := (split_slash p).1 in
  if forallb is_slash head then str_of head else rstrip_by is_slash (str_of head).

Definition path_join (a b : string) : string :=
  if starts_with "/" b then b
  else if String.eqb a EmptyString || ends_with "/" a then a +:+ b
  else a +:+ "/" +:+ b.

(** The components after [.] and [..] are resolved, last first. *)
Definition norm_step (absolute : bool) (acc : list string) (comp : string) : list string :=
  if String.eqb comp EmptyString || String.eqb comp "." then acc
  else if negb (String.eqb comp "..") then comp :: acc
  else match acc with
       | [] => if absolute then [] else [comp]
       | c :: acc' => if String.eqb c ".." then comp :: acc else acc'
       end.

Definition normpath (p : string) : string :=
  if String.eqb p EmptyString then "."
  else
    let initial := if starts_with "/" p
                   then (if starts_with "//" p && negb (starts_with "///" p) then "//" else "/")
                   else EmptyString in
    let comps := reverse (foldl (norm_step (starts_with "/" p)) [] (split "/" p)) in
    let path := initial +:+ str_join "/" comps in
    if String.eqb path EmptyString then "." else path.

Example normpath_dots : normpath "/etc/pki/tls/../../ssl/./openssl.cnf" = "/etc/ssl/openssl.cnf".
Proof. vm_compute. reflexivity. Qed.
Example dirname_file : dirname "/etc/ssl/openssl.cnf" = "/etc/ssl" /\ dirname "/x" = "/" /\ dirname "x" = EmptyString.
Proof. vm_compute. auto. Qed.
Example normpath_up : normpath "../a/../../b" = "../../b" /\ normpath "//a/b" = "//a/b".
Proof. vm_compute. auto. Qed.

(** * [fnmatch.fnmatch] on POSIX

    Shell patterns: [*], [?], [[seq]] and [[!seq]] with ranges; a [[] that is
    never closed is an ordinary character. *)
Inductive item := ILit (c : ascii) | IAny | IStar | IClass (neg : bool) (rs : list (ascii * ascii)).

(** The ranges of a class body. *)
Fixpoint class_ranges (fuel : nat) (l : list ascii) : list (ascii * ascii) :=
  match fuel, l with
  | S fuel, a :: "-"%char :: b :: l' => (a, b) :: class_ranges fuel l'
  | S fuel, a :: l' => (a, a) :: class_ranges fuel l'
  | _, _ => []
  end.

(** The class body up to the closing bracket, and the rest. *)
Fixpoint until_bracket (l : list ascii) : option (list ascii * list ascii) :=
  match l with
  | [] => None
  | c :: l' =>
      if Ascii.eqb c "]" then Some ([], l')
      else '(body, rest) ← until_bracket l'; Some (c :: body, rest)
  end.

(** Skips the characters that may not close the class: [!], then [[]]. *)
Definition class_body (l : list ascii) : option (list ascii * list ascii) :=
  let '(bang, l) := match l with "!"%char :: l' => (["!"%char], l') | _ => ([], l) end in
  let '(first, l) := match l with "]"%char :: l' => (["]"%char], l') | _ => ([], l) end in
  '(body, rest) ← until_bracket l; Some (bang ++ first ++ body, rest).

Fixpoint parse_pattern (fuel : nat) (l : list ascii) : list item :=
  match fuel, l with
  | S fuel, "*"%char :: l' => IStar :: parse_pattern fuel l'
  | S fuel, "?"%char :: l' => IAny :: parse_pattern fuel l'
  | S fuel, "["%char :: l' =>
      match class_body l' with
      | None => ILit "[" :: parse_pattern fuel l'
      | Some (body, rest) =>
          (match body with
           | "!"%char :: b => IClass true (class_ranges (length b) b)
           | b => IClass false (class_ranges (length b) b)
           end) :: parse_pattern fuel rest
      end
  | S fuel, c :: l' => ILit c :: parse_pattern fuel l'
  | _, _ => []
  end.

Definition in_class (rs : list (ascii * ascii)) (c : ascii) : bool :=
  existsb (fun r => in_range (code r.1) (code r.2) c) rs.

Fixpoint match_items (ps : list item) (l : list ascii) : bool :=
  match ps with
  | [] => match l with [] => true | _ => false end
  | IStar :: ps' =>
      (fix star l := match_items ps' l || match l with [] => false | _ :: l' => star l' end) l
  | p :: ps' =>
      match l with
      | [] => false
      | c :: l' =>
          (match p with
           | ILit a => Ascii.eqb a c
           | IClass neg rs => xorb neg (in_class rs c)
           | _ => true
           end) && match_items ps' l'
      end
  end.

Definition fnmatch (name pat : string) : bool :=
  match_items (parse_pattern (String.length pat) (chars pat)) (chars name).

Example fnmatch_conf : fnmatch "50-redhat.conf" "*.conf" = true.
Proof. vm_compute. reflexivity. Qed.
Example fnmatch_class : fnmatch "a7.conf" "[!b-d]?.[c]onf" = true /\ fnmatch "c7.conf" "[!b-d]?.[c]onf" = false.
Proof. vm_compute. auto. Qed.

(** A pattern without special characters matches itself only. *)
Definition plain (c : ascii) : bool := negb (char_in "*?[" c).

Lemma parse_plain l n : Forall (fun c => plain c = true) l -> (length l <= n)%nat ->
  parse_pattern n l = ILit <$> l.
Proof.
  revert n; induction l as [|c l IH]; intros n Hp Hn; [by destruct n|].
  destruct n as [|n]; [simpl in Hn; lia|].
  inversion Hp as [|? ? Hc Hl]; subst. csimpl. rewrite <-(IH n) by (done || (simpl in Hn; lia)).
  unfold plain, char_in in Hc. rewrite negb_true_iff, bool_decide_eq_false in Hc.
  destruct c as [[] [] [] [] [] [] [] []]; try reflexivity; exfalso; apply Hc; apply (bool_decide_unpack _); vm_compute; exact I.
Qed.

Lemma match_lits l k : match_items (ILit <$> l) k = true <-> k = l.
Proof.
  revert k; induction l as [|c l IH]; intros [|d k]; csimpl; try done.
  rewrite andb_true_iff, IH, Ascii.eqb_eq. naive_solver.
Qed.

Lemma fnmatch_plain name pat :
  Forall (fun c => plain c = true) (chars pat) -> fnmatch name pat = true <-> name = pat.
Proof.
  intros Hp. unfold fnmatch. rewrite parse_plain, match_lits; [|done|].
  - split; [apply chars_inj | by intros ->].
  - clear; induction pat as [|c s IH]; simpl; lia.
Qed.
