(* ===== verification/PyIp.v ===== *)
(** * IP addresses as Python's [ipaddress] reads and prints them *)

From S2P Require Import Prelude PyStr.
Open Scope Z_scope.

(** An IPv4 address, or an IPv6 address with its scope id. *)
Inductive ip_addr :=
| V4 (n : Z)
| V6 (n : Z) (scope : option string).
#[export] Instance ip_addr_eq_dec : EqDecision ip_addr.
Proof. solve_decision. Defined.

(** ** Digits *)

Definition hex_val (c : ascii) : option Z :=
  if is_digit c then Some (Z.of_N (code c) - 48)
  else if in_range 97 102 c then Some (Z.of_N (code c) - 87)
  else if in_range 65 70 c then Some (Z.of_N (code c) - 55)
  else None.

Definition hex_num (l : list ascii) : option Z :=
  foldl (fun acc c => acc ← acc; v ← hex_val c; Some (16 * acc + v)) (Some 0) l.

Definition hex_char (v : Z) : ascii := ascii_of_N (Z.to_N (if v <? 10 then 48 + v else 87 + v)).

(** ['%x' % v] of a 16-bit number. *)
Definition show_hextet (v : Z) : string :=
  let ds := [v / 4096 mod 16; v / 256 mod 16; v / 16 mod 16; v mod 16] in
  str_of (hex_char <$> (if v <? 16 then drop 3 ds else if v <? 256 then drop 2 ds
                        else if v <? 4096 then drop 1 ds else ds)).

(** ** IPv4 *)

Definition parse_octet (s : string) : option Z :=
  if isdigit s && (Z.of_nat (String.length s) <=? 3) &&
     (String.eqb s "0" || negb (starts_with "0" s))
  then let n := digits_val (chars s) in if n <=? 255 then Some n else None
  else None.

Definition parse_v4 (s : string) : option Z :=
  os ← mapM parse_octet (split "." s);
  match os with
  | [a; b; c; d] => Some (16777216 * a + 65536 * b + 256 * c + d)
  | _ => None
  end.

Definition show_v4 (n : Z) : string :=
  str_join "." (show_Z <$> [n / 16777216; n / 65536 mod 256; n / 256 mod 256; n mod 256]).

(** ** IPv6 *)

Definition parse_hextet (s : string) : option Z :=
  if (Z.of_nat (String.length s) <=? 4) && negb (String.eqb s EmptyString) then hex_num (chars s) else None.

Definition is_empty (s : string) : bool := String.eqb s EmptyString.

(** The index of the only empty part strictly inside, if any; two are an
    error. *)
Fixpoint skip_index (i : nat) (found : option nat) (l : list string) : option (option nat) :=
  match l with
  | [] | [_] => Some found
  | p :: l =>
      if is_empty p then match found with
                         | Some _ => None
                         | None => skip_index (S i) (Some i) l
                         end
      else skip_index (S i) found l
  end.

Definition of_hextets (l : list Z) : Z := foldl (fun acc h => 65536 * acc + h) 0 l.

(** The hextets of the parts around the double colon. *)
Definition parts_hextets (parts : list string) : option (list Z) :=
  let n := length parts in
  skip ← skip_index 1 None (drop 1 parts);
  let first_empty := is_empty (default EmptyString (head parts)) in
  let last_empty := is_empty (default EmptyString (last parts)) in
  match skip with
  | Some i =>
      let lo := (n - i - 1)%nat in
      let hi' := if first_empty then (i - 1)%nat else i in
      let lo' := if last_empty then (lo - 1)%nat else lo in
      if (first_empty && negb (Nat.eqb hi' 0)) || (last_empty && negb (Nat.eqb lo' 0)) ||
         Nat.leb 8 (hi' + lo') then None
      else
        hi ← mapM parse_hextet (take hi' parts);
        lo ← mapM parse_hextet (drop (n - lo') parts);
        Some (hi ++ replicate (8 - (hi' + lo')) 0 ++ lo)
  | None =>
      if negb (Nat.eqb n 8) || first_empty || last_empty then None else mapM parse_hextet parts
  end.

(** A dotted last part stands for two hextets. *)
Definition expand_v4 (parts : list string) : option (list string) :=
  let l := default EmptyString (last parts) in
  if contains "." l then
    n ← parse_v4 l;
    Some (take (length parts - 1) parts ++ [show_hextet (n / 65536); show_hextet (n mod 65536)])
  else Some parts.

Definition parse_v6_int (s : string) : option Z :=
  let parts := split ":" s in
  if Nat.ltb (length parts) 3 then None
  else
    parts ← expand_v4 parts;
    if Nat.ltb 9 (length parts) then None else of_hextets <$> parts_hextets parts.

Definition parse_v6 (s : string) : option ip_addr :=
  if contains "/" s then None
  else
    match split "%" s with
    | [a] => (fun n => V6 n None) <$> parse_v6_int a
    | [a; scope] => if is_empty scope then None else (fun n => V6 n (Some scope)) <$> parse_v6_int a
    | _ => None
    end.

(** [ipaddress.ip_address]. *)
Definition ip_address (s : string) : option ip_addr :=
  match parse_v4 s with Some n => Some (V4 n) | None => parse_v6 s end.

Definition ipv4_mapped (n : Z) : option Z :=
  if n / 4294967296 =? 65535 then Some (n mod 4294967296) else None.

Definition hextets (n : Z) : list Z :=
  (fun k => n / 65536 ^ k mod 65536) <$> [7; 6; 5; 4; 3; 2; 1; 0].

(** The first longest run of zeros: [(start, length)], scanning with the
    current run. *)
Fixpoint best_run (i : nat) (cur best : nat * nat) (l : list Z) : nat * nat :=
  match l with
  | [] => best
  | h :: l =>
      if h =? 0 then
        let cur := match cur.2 with O => (i, 1) | S n => (cur.1, S (S n)) end%nat in
        best_run (S i) cur (if Nat.ltb best.2 cur.2 then cur else best) l
      else best_run (S i) (0, 0)%nat best l
  end.

Definition compress (hs : list Z) : list string :=
  let '(start, len) := best_run 0 (0, 0)%nat (0, 0)%nat hs in
  let shown := show_hextet <$> hs in
  if Nat.ltb 1 len then
    (if Nat.eqb start 0 then [EmptyString] else []) ++ take start shown ++ [EmptyString] ++
    drop (start + len) shown ++ (if Nat.eqb (start + len) (length hs) then [EmptyString] else [])
  else shown.

Definition show_v6 (n : Z) (scope : option string) : string :=
  str_join ":" (compress (hextets n)) +:+
  match scope with Some s => "%" +:+ s | None => EmptyString end.

(** [str(addr)]. *)
Definition show_ip (a : ip_addr) : string :=
  match a with V4 n => show_v4 n | V6 n scope => show_v6 n scope end.

Example ip_v6 : show_ip <$> ip_address "2001:DB8:0:0:1::1" = Some "2001:db8::1:0:0:1".
Proof. vm_compute. reflexivity. Qed.
Example ip_v6_short : show_ip <$> ip_address "2001:0db8:0:0:0:0:0:1" = Some "2001:db8::1".
Proof. vm_compute. reflexivity. Qed.
Example ip_v6_zero : show_ip <$> ip_address "0:0:0:0:0:0:0:0" = Some "::".
Proof. vm_compute. reflexivity. Qed.
Example ip_v6_tail : show_ip <$> ip_address "fe80:1:2:3:4:5:0:0%eth0" = Some "fe80:1:2:3:4:5::%eth0".
Proof. vm_compute. reflexivity. Qed.
Example ip_v6_dotted : ip_address "::ffff:10.1.2.3" = Some (V6 281470849581571 None).
Proof. vm_compute. reflexivity. Qed.
Example ip_bad : ip_address <$> ["1.2.3"; "01.2.3.4"; "256.1.1.1"; "1::2::3"; ":1:2:3:4:5:6:7"; "1:2:3:4:5:6:7:8:9"; "::1%"; "12345::"] =
  [None; None; None; None; None; None; None; None].
Proof. vm_compute. reflexivity. Qed.

(** ** Reading back what is printed *)

Definition hextet_ok (h : Z) : Prop := 0 <= h < 65536.

Lemma length_chars s : length (chars s) = String.length s.
Proof. induction s; simpl; congruence. Qed.

Definition sep_char (c : ascii) : bool := char_in ":.%/" c.

Lemma range_bool (p : Z -> bool) n :
  forallb p (seqZ 0 n) = true -> forall v, 0 <= v < n -> p v = true.
Proof. intros H v Hv. rewrite forallb_forall in H. apply H, list_elem_of_In, elem_of_seqZ. lia. Qed.

Definition digit_reads (d : Z) : bool :=
  bool_decide (hex_val (hex_char d) = Some d) && negb (sep_char (hex_char d)).

Lemma hex_char_reads d : 0 <= d < 16 -> hex_val (hex_char d) = Some d /\ sep_char (hex_char d) = false.
Proof.
  intros Hd. assert (digit_reads d = true) as H by (revert d Hd; apply range_bool; vm_compute; reflexivity).
  unfold digit_reads in H. apply andb_true_iff in H as [H1 H2].
  split; [by apply bool_decide_eq_true in H1 | by apply negb_true_iff].
Qed.

Lemma hex_num_cons acc d l :
  0 <= d < 16 ->
  foldl (fun acc c => acc ← acc; v ← hex_val c; Some (16 * acc + v)) (Some acc) (hex_char d :: l) =
  foldl (fun acc c => acc ← acc; v ← hex_val c; Some (16 * acc + v)) (Some (16 * acc + d)) l.
Proof. intros Hd. cbn [foldl mbind option_bind]. rewrite (proj1 (hex_char_reads d Hd)). done. Qed.

(** The digits of a hextet: one to four, with its value. *)
Lemma show_hextet_digits v :
  hextet_ok v -> exists ds : list Z, chars (show_hextet v) = hex_char <$> ds /\ Forall (fun d => 0 <= d < 16) ds /\
    (1 <= length ds <= 4)%nat /\ foldl (fun acc d => 16 * acc + d) 0 ds = v.
Proof.
  intros Hv. unfold hextet_ok in Hv. unfold show_hextet.
  assert (forall x, 0 <= x mod 16 < 16) as Hm by (intros; apply Z.mod_pos_bound; lia).
  destruct (v <? 16) eqn:E1; [|destruct (v <? 256) eqn:E2; [|destruct (v <? 4096) eqn:E3]];
    rewrite chars_str_of; eexists; (split; [reflexivity|]); simpl; (split; [repeat constructor; apply Hm|]);
    (split; [lia|]); Z.to_euclidean_division_equations; lia.
Qed.

Lemma parse_show_hextet v : hextet_ok v -> parse_hextet (show_hextet v) = Some v.
Proof.
  intros Hv. destruct (show_hextet_digits v Hv) as (ds & Hc & Hds & Hlen & Hval). unfold parse_hextet.
  assert (String.length (show_hextet v) = length ds) as Hsl
    by (rewrite <-length_chars, Hc; apply length_fmap).
  rewrite Hsl. rewrite (proj2 (Z.leb_le _ _)) by lia.
  destruct (String.eqb_spec (show_hextet v) EmptyString) as [E|_];
    [rewrite E in Hsl; simpl in Hsl; lia|]. simpl. rewrite Hc. unfold hex_num. clear -Hds Hval.
  rewrite <-Hval. clear Hval. generalize 0. induction Hds as [|d ds Hd _ IH]; intros acc; [done|].
  rewrite fmap_cons, hex_num_cons by done. by rewrite IH.
Qed.

Lemma show_hextet_nonempty v : hextet_ok v -> is_empty (show_hextet v) = false.
Proof.
  intros Hv. destruct (show_hextet_digits v Hv) as (ds & Hc & _ & Hlen & _).
  unfold is_empty. destruct (String.eqb_spec (show_hextet v) EmptyString) as [E|_]; [|done].
  rewrite E in Hc. destruct ds; simpl in *; [lia|done].
Qed.

Lemma show_hextet_chars v c : hextet_ok v -> c ∈ chars (show_hextet v) -> sep_char c = false.
Proof.
  intros Hv. destruct (show_hextet_digits v Hv) as (ds & -> & Hds & _).
  rewrite list_elem_of_fmap. intros (d & -> & Hd). rewrite Forall_forall in Hds.
  by apply hex_char_reads, Hds.
Qed.

Lemma mapM_show hs : Forall hextet_ok hs -> mapM parse_hextet (show_hextet <$> hs) = Some hs.
Proof. intros H. apply mapM_Some. induction H; constructor; [by apply parse_show_hextet | done]. Qed.

(** *** The longest run of zeros is a run of zeros *)

Definition zeros_at (hs : list Z) (r : nat * nat) : Prop :=
  (r.1 + r.2 <= length hs)%nat /\ forall k, (k < r.2)%nat -> hs !! (r.1 + k)%nat = Some 0.

Lemma best_run_zeros hs pre l cur best :
  hs = pre ++ l -> zeros_at hs best -> zeros_at hs cur ->
  (cur.2 <> 0%nat -> (cur.1 + cur.2 = length pre)%nat) ->
  zeros_at hs (best_run (length pre) cur best l).
Proof.
  revert pre cur best; induction l as [|h l IH]; intros pre cur best Heq Hb Hc Hend; simpl; [done|].
  assert (hs !! length pre = Some h) as Hh by (subst hs; rewrite lookup_app_r, Nat.sub_diag by lia; done).
  assert (S (length pre) <= length hs)%nat as Hlen by (apply lookup_lt_Some in Hh; lia).
  assert (S (length pre) = length (pre ++ [h])) as Hpre by (rewrite length_app; simpl; lia).
  rewrite Hpre. destruct (h =? 0) eqn:E.
  - apply Z.eqb_eq in E as ->.
    set (cur' := match cur.2 with O => (length pre, 1%nat) | S n => (cur.1, S (S n)) end).
    assert (zeros_at hs cur' /\ (cur'.1 + cur'.2 = length (pre ++ [0%Z]))%nat) as [Hc' He'].
    { unfold cur'. destruct cur as [st [|n]]; simpl in *.
      - split; [|lia]. split; simpl; [lia|]. intros k Hk. replace k with 0%nat by lia. by rewrite Nat.add_0_r.
      - specialize (Hend ltac:(lia)). split; [|lia]. destruct Hc as [Hc1 Hc2]. split; simpl in *; [lia|].
        intros k Hk. destruct (decide (k = S n)) as [->|Hne]; [|apply Hc2; lia].
        replace (st + S n)%nat with (length pre) by lia. done. }
    apply IH; [by rewrite <-app_assoc | by case_match | done | done].
  - apply IH; [by rewrite <-app_assoc | done | | done].
    split; simpl; [lia|]. intros k Hk. lia.
Qed.

Lemma best_run_split hs st len :
  best_run 0 (0, 0)%nat (0, 0)%nat hs = (st, len) ->
  hs = take st hs ++ replicate len 0 ++ drop (st + len) hs /\ (st + len <= length hs)%nat.
Proof.
  intros H. assert (zeros_at hs (st, len)) as [H1 H2].
  { rewrite <-H. apply (best_run_zeros hs [] hs (0, 0)%nat (0, 0)%nat); try done;
      (split; simpl; [lia|intros; lia]). }
  simpl in *. split; [|done]. rewrite <-(take_drop st hs) at 1. f_equal.
  rewrite <-(take_drop len (drop st hs)), drop_drop. f_equal.
  apply list_eq. intros i. destruct (decide (i < len)%nat) as [Hi|Hi].
  - rewrite lookup_take_lt, lookup_drop, H2 by done. symmetry. by apply lookup_replicate_2.
  - rewrite lookup_take_ge by lia. symmetry. apply lookup_ge_None_2. rewrite length_replicate. lia.
Qed.

(** *** The parts of a printed IPv6 address *)

Lemma skip_index_none i f l l0 :
  Forall (fun p => is_empty p = false) l -> skip_index i f (l ++ [l0]) = Some f.
Proof.
  intros H. revert i; induction H as [|p l Hp _ IH]; intros i; [done|].
  simpl. destruct (l ++ [l0]) eqn:E; [by destruct l|]. rewrite Hp, <-E in *. apply IH.
Qed.

Lemma skip_index_some i l l1 l0 :
  Forall (fun p => is_empty p = false) l -> Forall (fun p => is_empty p = false) l1 ->
  skip_index i None (l ++ EmptyString :: l1 ++ [l0]) = Some (Some (i + length l)%nat).
Proof.
  intros H H1. revert i; induction H as [|p l Hp _ IH]; intros i.
  - simpl. destruct (l1 ++ [l0]) eqn:E; [by destruct l1|]. rewrite <-E, skip_index_none by done.
    by rewrite Nat.add_0_r.
  - simpl. destruct (l ++ _) eqn:E; [by destruct l|]. rewrite Hp, IH. do 2 f_equal. lia.
Qed.

(** The parts with the double colon between two lists of hextets. *)
Definition around (a b : list string) : list string :=
  (if a is [] then [EmptyString] else a) ++ [EmptyString] ++ (if b is [] then [EmptyString] else b).

Lemma parts_around a b :
  Forall hextet_ok a -> Forall hextet_ok b -> (length a + length b < 8)%nat ->
  parts_hextets (around (show_hextet <$> a) (show_hextet <$> b)) =
    Some (a ++ replicate (8 - (length a + length b)) 0 ++ b).
Proof.
  intros Ha Hb Hlen.
  assert (forall l, Forall hextet_ok l -> Forall (fun p => is_empty p = false) (show_hextet <$> l)) as Hne.
  { intros l Hl. apply Forall_fmap. eapply Forall_impl; [exact Hl|]. intros h. apply show_hextet_nonempty. }
  unfold parts_hextets, around.
  set (A := show_hextet <$> a). set (B := show_hextet <$> b).
  assert (skip_index 1 None (drop 1 ((if A is [] then [EmptyString] else A) ++ [EmptyString] ++
            (if B is [] then [EmptyString] else B))) = Some (Some (Nat.max 1 (length a)))) as Hskip.
  { assert (exists B1 l0, (if B is [] then [EmptyString] else B) = B1 ++ [l0] /\
      Forall (fun p => is_empty p = false) B1) as (B1 & l0 & -> & HB1).
    { unfold B. destruct b as [|h b] using rev_ind; [by exists [], EmptyString|]. clear IHb.
      exists (show_hextet <$> b), (show_hextet h). rewrite fmap_app. split; [by destruct (show_hextet <$> b)|].
      apply Hne. by apply Forall_app in Hb as [??]. }
    unfold A. destruct a as [|h a]; csimpl.
    - by apply (skip_index_some 1 [] B1 l0).
    - etrans; [apply (skip_index_some 1 (show_hextet <$> a) B1 l0); [apply Hne; by inversion Ha|done]|].
      by rewrite length_fmap. }
  rewrite Hskip. cbn [mbind option_bind].
  assert (is_empty (default EmptyString (head ((if A is [] then [EmptyString] else A) ++ [EmptyString] ++
            (if B is [] then [EmptyString] else B)))) = Nat.eqb (length a) 0) as ->.
  { unfold A. destruct a as [|h a]; [done|]. csimpl. apply show_hextet_nonempty. by inversion Ha. }
  assert (is_empty (default EmptyString (last ((if A is [] then [EmptyString] else A) ++ [EmptyString] ++
            (if B is [] then [EmptyString] else B)))) = Nat.eqb (length b) 0) as ->.
  { rewrite !last_app. unfold B. destruct b as [|h b _] using rev_ind; [done|].
    rewrite fmap_app, length_app. simpl. rewrite Nat.add_1_r.
    destruct (show_hextet <$> b) as [|p ps]; simpl; rewrite ?(last_snoc (p :: ps)), ?app_comm_cons, ?last_snoc;
      apply show_hextet_nonempty, Forall_singleton; by apply Forall_app in Hb as [_ ?]. }
  rewrite !length_app. set (X := if A is [] then [EmptyString] else A).
  set (Y := if B is [] then [EmptyString] else B). cbn [length].
  assert (length X = Nat.max 1 (length a)) as HX
    by (unfold X, A; destruct a; csimpl; rewrite ?length_fmap; lia).
  assert (length Y = Nat.max 1 (length b)) as HY
    by (unfold Y, B; destruct b; csimpl; rewrite ?length_fmap; lia).
  assert ((if Nat.eqb (length a) 0 then (Nat.max 1 (length a) - 1) else Nat.max 1 (length a))%nat = length a) as ->
    by (destruct (Nat.eqb_spec (length a) 0); lia).
  replace (length X + (1 + length Y) - Nat.max 1 (length a) - 1)%nat with (length Y) by lia. rewrite HY.
  assert ((if Nat.eqb (length b) 0 then (Nat.max 1 (length b) - 1) else Nat.max 1 (length b))%nat = length b) as ->
    by (destruct (Nat.eqb_spec (length b) 0); lia).
  rewrite !andb_negb_r, (proj2 (Nat.leb_gt _ _)) by lia. cbn [orb].
  assert (take (length a) (X ++ [EmptyString] ++ Y) = A) as ->.
  { unfold X, A. destruct a as [|h a]; [done|]. rewrite take_app_le by (csimpl; rewrite length_fmap; lia).
    apply take_ge. csimpl. rewrite length_fmap. lia. }
  assert (drop (length X + (1 + Nat.max 1 (length b)) - length b) (X ++ [EmptyString] ++ Y) = B) as ->.
  { unfold Y, B. destruct b as [|h b].
    - apply drop_ge. rewrite !length_app. simpl. lia.
    - rewrite app_assoc. apply drop_app_length'. rewrite length_app. simpl. lia. }
  unfold A, B. rewrite !mapM_show by done. done.
Qed.

(** *** Printing and reading back *)

Lemma parts_plain hs :
  Forall hextet_ok hs -> length hs = 8%nat -> parts_hextets (show_hextet <$> hs) = Some hs.
Proof.
  intros Hok H8. destruct hs as [|h hs]; [done|]. destruct hs as [|z mid _] using rev_ind; [done|].
  unfold parts_hextets. rewrite length_fmap, H8.
  inversion Hok as [|? ? Hh Hok']; subst. apply Forall_app in Hok' as [Hmid Hz]. inversion Hz; subst.
  assert (skip_index 1 None (drop 1 (show_hextet <$> h :: mid ++ [z])) = Some None) as ->.
  { rewrite fmap_cons, fmap_app. apply skip_index_none, Forall_fmap. eapply Forall_impl; [exact Hmid|].
    intros x. apply show_hextet_nonempty. }
  cbn [mbind option_bind]. change (default EmptyString (head (show_hextet <$> h :: mid ++ [z]))) with (show_hextet h).
  rewrite show_hextet_nonempty by done.
  assert (last (show_hextet <$> h :: mid ++ [z]) = Some (show_hextet z)) as ->
    by (rewrite app_comm_cons, fmap_app; apply last_snoc).
  change (default EmptyString (Some (show_hextet z))) with (show_hextet z).
  rewrite show_hextet_nonempty by done. cbn [negb orb Nat.eqb]. by apply mapM_show.
Qed.

Lemma compress_around hs :
  Forall hextet_ok hs -> length hs = 8%nat ->
  (compress hs = show_hextet <$> hs) \/
  (exists a b, hs = a ++ replicate (8 - (length a + length b)) 0 ++ b /\ (length a + length b < 7)%nat /\
     compress hs = around (show_hextet <$> a) (show_hextet <$> b)).
Proof.
  intros Hok H8. unfold compress.
  destruct (best_run 0 (0, 0)%nat (0, 0)%nat hs) as [st len] eqn:E. apply best_run_split in E as [Hs Hle].
  destruct (Nat.ltb 1 len) eqn:El; [|by left]. apply Nat.ltb_lt in El. right.
  exists (take st hs), (drop (st + len) hs). rewrite length_take, length_drop.
  replace (8 - (st `min` length hs + (length hs - (st + len))))%nat with len by lia.
  split; [done|]. split; [lia|]. unfold around. rewrite !fmap_take, !fmap_drop. rewrite app_assoc. f_equal.
  - destruct (Nat.eqb_spec st 0) as [->|Hst]; [done|]. simpl.
    destruct (show_hextet <$> hs) eqn:Ef; [apply fmap_nil_inv in Ef; subst; simpl in *; lia|].
    destruct st; [done|]. done.
  - f_equal. destruct (Nat.eqb_spec (st + len) (length hs)) as [Hst|Hst].
    + rewrite drop_ge by (rewrite length_fmap; lia). done.
    + rewrite app_nil_r. destruct (drop (st + len) (show_hextet <$> hs)) eqn:Ef; [|done].
      apply (f_equal length) in Ef. rewrite length_drop, length_fmap in Ef. simpl in Ef. lia.
Qed.

Lemma compress_spec hs :
  Forall hextet_ok hs -> length hs = 8%nat ->
  parts_hextets (compress hs) = Some hs /\ (3 <= length (compress hs) <= 9)%nat /\
  (forall p c, p ∈ compress hs -> c ∈ chars p -> sep_char c = false).
Proof.
  intros Hok H8.
  assert (forall l p c, Forall hextet_ok l -> p ∈ (show_hextet <$> l) -> c ∈ chars p -> sep_char c = false) as Hsep.
  { intros l p c Hl (h & -> & Hh)%list_elem_of_fmap. rewrite Forall_forall in Hl. apply show_hextet_chars. by apply Hl. }
  destruct (compress_around hs Hok H8) as [-> | (a & b & Hs & Hlt & ->)].
  - split_and!; [|rewrite length_fmap; lia|rewrite length_fmap; lia|intros; by eapply Hsep].
    by apply parts_plain.
  - assert (Forall hextet_ok a /\ Forall hextet_ok b) as [Ha Hb].
    { rewrite Hs in Hok. apply Forall_app in Hok as [? [_ ?]%Forall_app]. done. }
    split_and!.
    + rewrite parts_around by (done || lia). by rewrite <-Hs.
    + unfold around. rewrite !length_app. destruct a, b; csimpl; lia.
    + unfold around. rewrite !length_app. destruct a, b; csimpl; rewrite ?length_fmap; simpl in *; lia.
    + intros p c Hp Hc. unfold around in Hp.
      assert (p = EmptyString \/ p ∈ show_hextet <$> a \/ p ∈ show_hextet <$> b) as [->|[Hi|Hi]].
      { rewrite !elem_of_app in Hp. destruct Hp as [Hp|[Hp|Hp]].
        - destruct (show_hextet <$> a) eqn:Ef; [apply list_elem_of_singleton in Hp; by left|by right; left].
        - apply list_elem_of_singleton in Hp. by left.
        - destruct (show_hextet <$> b) eqn:Ef; [apply list_elem_of_singleton in Hp; by left|by right; right]. }
      * by apply not_elem_of_nil in Hc.
      * by eapply (Hsep a).
      * by eapply (Hsep b).
Qed.

Lemma hextets_ok n : Forall hextet_ok (hextets n).
Proof. unfold hextets. apply Forall_fmap, Forall_forall. intros k _. apply Z.mod_pos_bound. lia. Qed.

Lemma of_hextets_hextets n : 0 <= n < 2 ^ 128 -> of_hextets (hextets n) = n.
Proof.
  intros Hn. unfold of_hextets, hextets. cbn [fmap list_fmap foldl].
  assert (forall k, 0 <= k -> n / 65536 ^ k = 65536 * (n / 65536 ^ (k + 1)) + n / 65536 ^ k mod 65536) as Hstep.
  { intros k Hk. rewrite Z.pow_add_r, Z.pow_1_r, <-Z.div_div by lia. apply Z.div_mod. lia. }
  assert (n / 65536 ^ (7 + 1) = 0) as H8 by (apply Z.div_small; exact Hn).
  pose proof (Hstep 0 ltac:(lia)) as H0. pose proof (Hstep 1 ltac:(lia)) as H1.
  pose proof (Hstep 2 ltac:(lia)) as H2. pose proof (Hstep 3 ltac:(lia)) as H3.
  pose proof (Hstep 4 ltac:(lia)) as H4. pose proof (Hstep 5 ltac:(lia)) as H5.
  pose proof (Hstep 6 ltac:(lia)) as H6. pose proof (Hstep 7 ltac:(lia)) as H7.
  assert (n = n / 65536 ^ 0) as Hn0 by (rewrite Z.pow_0_r, Z.div_1_r; done).
  change (0 + 1) with 1 in *; change (1 + 1) with 2 in *; change (2 + 1) with 3 in *;
    change (3 + 1) with 4 in *; change (4 + 1) with 5 in *; change (5 + 1) with 6 in *;
    change (6 + 1) with 7 in *; change (7 + 1) with 8 in *.
  revert Hn0 H0 H1 H2 H3 H4 H5 H6 H7 H8. clear.
  generalize (n / 65536 ^ 0) (n / 65536 ^ 1) (n / 65536 ^ 2) (n / 65536 ^ 3) (n / 65536 ^ 4)
    (n / 65536 ^ 5) (n / 65536 ^ 6) (n / 65536 ^ 7) (n / 65536 ^ 8).
  intros. subst. lia.
Qed.

Definition ip_ok (a : ip_addr) : Prop :=
  match a with
  | V4 n => 0 <= n < 2 ^ 32
  | V6 n scope => 0 <= n < 2 ^ 128 /\
      match scope with
      | Some s => s <> EmptyString /\ ("%"%char ∉ chars s) /\ ("/"%char ∉ chars s)
      | None => True
      end
  end.

Definition octet_reads (v : Z) : bool :=
  bool_decide (parse_octet (show_Z v) = Some v) && negb (bool_decide ("."%char ∈ chars (show_Z v))).

Lemma show_octet v : 0 <= v < 256 -> parse_octet (show_Z v) = Some v /\ "."%char ∉ chars (show_Z v).
Proof.
  intros Hv. assert (octet_reads v = true) as H by (revert v Hv; apply range_bool; vm_compute; reflexivity).
  unfold octet_reads in H. apply andb_true_iff in H as [H1 H2].
  apply bool_decide_eq_true in H1. apply negb_true_iff, bool_decide_eq_false in H2. done.
Qed.

Lemma parse_show_v4 n : 0 <= n < 2 ^ 32 -> parse_v4 (show_v4 n) = Some n.
Proof.
  intros Hn. change (2 ^ 32) with 4294967296 in Hn. unfold parse_v4, show_v4.
  assert (Forall (fun v => 0 <= v < 256) [n / 16777216; n / 65536 mod 256; n / 256 mod 256; n mod 256]) as Hv.
  { repeat constructor; Z.to_euclidean_division_equations; lia. }
  rewrite join_split; [|done|].
  - assert (forall l, Forall (fun v => 0 <= v < 256) l -> mapM parse_octet (show_Z <$> l) = Some l) as ->.
    { intros l Hl. apply mapM_Some. induction Hl; constructor; [by apply show_octet | done]. }
    + cbn [mbind option_bind]. f_equal. Z.to_euclidean_division_equations; lia.
    + exact Hv.
  - apply Forall_fmap, (Forall_impl _ _ _ Hv). intros v H. by apply show_octet.
Qed.

(** What reads as IPv4 has no colon. *)
Lemma parse_v4_colon s : ":"%char ∈ chars s -> parse_v4 s = None.
Proof.
  intros Hc. unfold parse_v4. destruct (mapM parse_octet (split "." s)) as [os|] eqn:E; [|done]. exfalso.
  rewrite <-(split_join "." s) in Hc. apply mapM_Some in E.
  rewrite chars_str_join in Hc. revert Hc. generalize dependent os. generalize (split "." s) as ps.
  induction ps as [|p ps IH]; intros os E Hc; [by apply not_elem_of_nil in Hc|].
  inversion E as [|? v ? os' Hp E']; subst.
  assert (":"%char ∉ chars p) as Hp'.
  { intros Hin. unfold parse_octet, isdigit in Hp.
    destruct (_ && _) eqn:Eb in Hp; [|done]. apply andb_true_iff in Eb as [[Hd _]%andb_true_iff _].
    destruct (chars p) as [|x l]; [done|]. rewrite forallb_forall in Hd.
    apply list_elem_of_In, Hd in Hin. done. }
  destruct ps as [|q ps]; [done|].
  rewrite fmap_cons, join_chars_cons, !elem_of_app in Hc by done.
  destruct Hc as [Hc|[Hc|Hc]]; [done| |by eapply IH].
  apply elem_of_cons in Hc as [?|Hc%not_elem_of_nil]; done.
Qed.

Lemma show_v6_int n : 0 <= n < 2 ^ 128 -> parse_v6_int (str_join ":" (compress (hextets n))) = Some n.
Proof.
  intros Hn. destruct (compress_spec (hextets n) (hextets_ok n) eq_refl) as (Hp & Hlen & Hsep).
  unfold parse_v6_int. rewrite join_split.
  2:{ intros E. rewrite E in Hlen. simpl in Hlen. lia. }
  2:{ rewrite Forall_forall. intros p Hin Hc. by specialize (Hsep p _ Hin Hc). }
  rewrite (proj2 (Nat.ltb_ge _ _)) by lia. unfold expand_v4.
  rewrite contains_false_char.
  - cbn [mbind option_bind]. rewrite (proj2 (Nat.ltb_ge _ _)) by lia. rewrite Hp. simpl.
    by rewrite of_hextets_hextets.
  - destruct (last (compress (hextets n))) as [p|] eqn:E; [|apply not_elem_of_nil].
    intros Hc. apply last_Some_elem_of in E. by specialize (Hsep p _ E Hc).
Qed.

Lemma str_join_chars c ps d :
  d ∈ chars (str_join (String c EmptyString) ps) -> d = c \/ exists p, p ∈ ps /\ d ∈ chars p.
Proof.
  rewrite chars_str_join. induction ps as [|p ps IH]; [by intros ?%not_elem_of_nil|].
  destruct ps as [|q ps]; [intros H; right; exists p; split; [by left|done]|].
  rewrite fmap_cons, join_chars_cons, !elem_of_app by done. intros [H|[H|H]].
  - right. exists p. split; [by left|done].
  - left. by apply list_elem_of_singleton in H.
  - apply IH in H as [H|(r & Hr & H)]; [by left|]. right. exists r. split; [by right|done].
Qed.

(** Every address reads back from its own text. *)
Lemma ip_address_show a : ip_ok a -> ip_address (show_ip a) = Some a.
Proof.
  intros Ha. unfold ip_address. destruct a as [n|n scope]; simpl in *.
  { by rewrite parse_show_v4. }
  destruct Ha as [Hn Hscope]. set (t := str_join ":" (compress (hextets n))).
  destruct (compress_spec (hextets n) (hextets_ok n) eq_refl) as (_ & Hlen & Hsep).
  assert (forall c, c ∈ chars t -> sep_char c = true -> c = ":"%char) as Ht.
  { intros c Hc Hs. apply str_join_chars in Hc as [Hc|(p & Hp & Hc)]; [done|].
    by rewrite (Hsep p c Hp Hc) in Hs. }
  assert (":"%char ∈ chars t) as Hcol.
  { unfold t. rewrite chars_str_join. destruct (compress (hextets n)) as [|p [|q ps]]; [simpl in Hlen; lia..|].
    rewrite fmap_cons, join_chars_cons by done. rewrite !elem_of_app. right; left. by left. }
  unfold show_v6. fold t. rewrite parse_v4_colon by (rewrite chars_app; apply elem_of_app; by left).
  unfold parse_v6. rewrite contains_false_char.
  2:{ rewrite chars_app. intros [H|H]%elem_of_app; [by specialize (Ht _ H eq_refl)|].
      destruct scope as [s|]; [|by apply not_elem_of_nil in H].
      apply elem_of_cons in H as [H|H]; [done|]. by destruct Hscope as (_ & _ & Hs). }
  assert (parse_v6_int t = Some n) as Ht6 by (by apply show_v6_int).
  assert ("%"%char ∉ chars t) as Hpct by (intros H; by specialize (Ht _ H eq_refl)).
  destruct scope as [s|].
  - destruct Hscope as (Hs0 & Hs1 & Hs2).
    change (t +:+ ("%" +:+ s)) with (str_join "%" [t; s]). rewrite join_split; [|done|repeat constructor; done].
    unfold is_empty. rewrite (proj2 (String.eqb_neq s EmptyString)) by done.
    by rewrite Ht6.
  - change (t +:+ EmptyString) with (t +:+ "").
    assert (t +:+ EmptyString = str_join "%" [t]) as ->
      by (apply chars_inj; rewrite chars_app; apply app_nil_r).
    rewrite join_split; [|done|repeat constructor; done]. by rewrite Ht6.
Qed.

(** *** What is read is an address *)

Lemma in_range_bounds lo hi c :
  in_range lo hi c = true -> Z.of_N lo <= Z.of_N (code c) <= Z.of_N hi.
Proof. unfold in_range. intros [H1%N.leb_le H2%N.leb_le]%andb_true_iff. lia. Qed.

Lemma digit_val_nonneg c : is_digit c = true -> 0 <= digit_val c.
Proof.
  unfold is_digit, in_range, digit_val. intros [H _]%andb_true_iff. apply N.leb_le in H. lia.
Qed.

Lemma digits_val_nonneg l acc :
  forallb is_digit l = true -> 0 <= acc -> 0 <= foldl (fun acc c => 10 * acc + digit_val c) acc l.
Proof.
  revert acc; induction l as [|c l IH]; intros acc Hd Hacc; simpl in *; [done|].
  apply andb_true_iff in Hd as [Hc Hd]. apply IH; [done|]. apply digit_val_nonneg in Hc. lia.
Qed.

Lemma parse_octet_range s v : parse_octet s = Some v -> 0 <= v < 256.
Proof.
  unfold parse_octet, isdigit. intros H. destruct (_ && _) eqn:Eb in H; [|done].
  apply andb_true_iff in Eb as [[Hd _]%andb_true_iff _].
  destruct (chars s) as [|c l] eqn:E; [done|].
  destruct (digits_val (c :: l) <=? 255) eqn:Ev; [|done]. injection H as <-.
  pose proof (digits_val_nonneg (c :: l) 0 Hd ltac:(lia)) as Hn. unfold digits_val in *. lia.
Qed.

Lemma parse_v4_range s n : parse_v4 s = Some n -> 0 <= n < 2 ^ 32.
Proof.
  unfold parse_v4. intros H. destruct (mapM parse_octet (split "." s)) as [os|] eqn:E; [|done].
  apply mapM_Some in E. cbn [mbind option_bind] in H.
  assert (Forall (fun v => 0 <= v < 256) os) as Hos.
  { clear H. induction E as [|p v ps os Hp _ IH]; constructor; [by eapply parse_octet_range | done]. }
  destruct os as [|a [|b [|c [|d [|]]]]]; try done. injection H as <-.
  rewrite !Forall_cons in Hos. change (2 ^ 32) with 4294967296. lia.
Qed.

Lemma hex_val_range c v : hex_val c = Some v -> 0 <= v < 16.
Proof.
  unfold hex_val, is_digit. intros H.
  repeat match type of H with (if ?b then _ else _) = _ => destruct b eqn:?E end; try done;
    injection H as <-;
    repeat match goal with E : in_range _ _ _ = true |- _ => apply in_range_bounds in E; clear -E end; lia.
Qed.

Lemma hex_num_range l acc v :
  foldl (fun acc c => acc ← acc; v ← hex_val c; Some (16 * acc + v)) (Some acc) l = Some v ->
  0 <= acc -> 0 <= v < (acc + 1) * 16 ^ Z.of_nat (length l).
Proof.
  revert acc; induction l as [|c l IH]; intros acc H Hacc.
  - injection H as <-. simpl. lia.
  - cbn [foldl mbind option_bind] in H. destruct (hex_val c) as [d|] eqn:Ec; cbn [mbind option_bind] in H.
    + apply hex_val_range in Ec. apply IH in H; [|lia]. cbn [length].
      rewrite Nat2Z.inj_succ, Z.pow_succ_r by lia. nia.
    + exfalso. clear -H. induction l; simpl in *; [done|auto].
Qed.

Lemma parse_hextet_range s v : parse_hextet s = Some v -> hextet_ok v.
Proof.
  unfold parse_hextet, hex_num. intros H. destruct (_ && _) eqn:Eb in H; [|done].
  apply andb_true_iff in Eb as [Hl _]. rewrite <-length_chars in Hl.
  apply hex_num_range in H; [|lia]. unfold hextet_ok.
  assert (16 ^ Z.of_nat (length (chars s)) <= 16 ^ 4) by (apply Z.pow_le_mono_r; lia). lia.
Qed.

Lemma of_hextets_range l acc :
  Forall hextet_ok l -> 0 <= acc ->
  0 <= foldl (fun acc h => 65536 * acc + h) acc l < (acc + 1) * 65536 ^ Z.of_nat (length l).
Proof.
  intros Hl. revert acc; induction Hl as [|h l Hh _ IH]; intros acc Hacc; [simpl; lia|].
  cbn [foldl length]. unfold hextet_ok in Hh. specialize (IH (65536 * acc + h) ltac:(lia)).
  rewrite Nat2Z.inj_succ, Z.pow_succ_r by lia. nia.
Qed.

Lemma mapM_hextets ps hs : mapM parse_hextet ps = Some hs -> Forall hextet_ok hs /\ length hs = length ps.
Proof.
  intros E%mapM_Some. split; [|symmetry; by eapply Forall2_length].
  induction E; constructor; [by eapply parse_hextet_range | done].
Qed.

Lemma parts_hextets_ok ps hs : parts_hextets ps = Some hs -> Forall hextet_ok hs /\ (length hs <= 8)%nat.
Proof.
  unfold parts_hextets. destruct (skip_index 1 None (drop 1 ps)) as [[i|]|]; cbn [mbind option_bind]; [| |done].
  - set (hi' := if is_empty _ then _ else i). set (lo' := if is_empty _ then _ else (length ps - i - 1)%nat).
    destruct (_ || Nat.leb 8 (hi' + lo')) eqn:Eb; [done|].
    apply orb_false_iff in Eb as [_ Hlt%Nat.leb_gt].
    destruct (mapM parse_hextet (take hi' ps)) as [hi|] eqn:E1; [|done].
    destruct (mapM parse_hextet (drop (length ps - lo') ps)) as [lo|] eqn:E2; [|done].
    apply mapM_hextets in E1 as [H1 L1], E2 as [H2 L2]. cbn [mbind option_bind]. intros [= <-].
    rewrite length_take in L1. rewrite length_drop in L2. split.
    + apply Forall_app; split; [done|]. apply Forall_app; split; [|done].
      apply Forall_replicate. unfold hextet_ok. lia.
    + rewrite !length_app, length_replicate. lia.
  - destruct (_ || _) eqn:Eb; [done|]. intros [H L]%mapM_hextets. split; [done|].
    apply orb_false_iff in Eb as [[Hn%negb_false_iff _]%orb_false_iff _]. apply Nat.eqb_eq in Hn. lia.
Qed.

Lemma parse_v6_int_range s n : parse_v6_int s = Some n -> 0 <= n < 2 ^ 128.
Proof.
  unfold parse_v6_int. destruct (Nat.ltb _ 3); [done|].
  destruct (expand_v4 _) as [ps|]; cbn [mbind option_bind]; [|done]. destruct (Nat.ltb 9 _); [done|].
  destruct (parts_hextets ps) as [hs|] eqn:E; [|done]. simpl. intros [= <-].
  apply parts_hextets_ok in E as [Hok Hlen]. pose proof (of_hextets_range hs 0 Hok ltac:(lia)) as Hr.
  unfold of_hextets. change (2 ^ 128) with (65536 ^ 8).
  assert (65536 ^ Z.of_nat (length hs) <= 65536 ^ 8) by (apply Z.pow_le_mono_r; lia). lia.
Qed.

Lemma contains_char c s : c ∈ chars s -> contains (String c EmptyString) s = true.
Proof.
  intros (l1 & l2 & H)%list_elem_of_split. apply contains_chars_spec. exists l1, l2. done.
Qed.

Lemma ip_address_ok s a : ip_address s = Some a -> ip_ok a.
Proof.
  unfold ip_address. destruct (parse_v4 s) as [n|] eqn:E4.
  { intros [= <-]. by apply parse_v4_range in E4. }
  unfold parse_v6. destruct (contains "/" s) eqn:Es; [done|].
  pose proof (split_join "%" s) as Hj. pose proof (split_free "%" s) as Hf.
  destruct (split "%" s) as [|p [|q [|]]]; try done.
  - destruct (parse_v6_int p) as [n|] eqn:E6; [|done]. simpl. intros [= <-].
    split; [by eapply parse_v6_int_range | done].
  - destruct (is_empty q) eqn:Eq; [done|]. destruct (parse_v6_int p) as [n|] eqn:E6; [|done].
    simpl. intros [= <-]. split; [by eapply parse_v6_int_range|]. split_and!.
    + intros ->. done.
    + apply Hf. right; by left.
    + intros Hin. rewrite contains_char in Es; [done|]. rewrite <-Hj. simpl.
      rewrite !chars_app. apply elem_of_app; right. apply elem_of_app; by right.
Qed.
