(* ===== verification/HostPath.v ===== *)
(** * Host paths ([_platform.py])

    Redirection of host paths under [--host-mount] and [--root]: symbolic
    links resolved inside the tree ([resolve_in_root]), [host_path],
    [in_tree] and [host_glob].  The file system is a record of queries on
    real paths; the module-level HOST_PREFIX and OFFLINE_ROOT are the fields
    of a configuration record. *)

From stdpp Require Import relations.
From S2P Require Import Prelude PyStr PyDict PyPath.
Open Scope Z_scope.

(** What the code asks of the operating system: the target of a symbolic
    link, the names in a directory, whether a path exists (links not
    followed), and [glob.glob]. *)
Record host_fs := HostFs {
  hf_link : string -> option string;
  hf_listdir : string -> option (list string);
  hf_lexists : string -> bool;
  hf_glob : string -> list string }.

Definition nonempty (s : string) : bool := negb (String.eqb s EmptyString).

(** [[c for c in path.split("/") if c]]. *)
Definition components (path : string) : list string := List.filter nonempty (split "/" path).

(** ["/" + "/".join(parts)]. *)
Definition rooted (parts : list string) : string := "/" +:+ str_join "/" parts.

Definition MAX_LINKS : nat := 40.

Section Resolve.
Context (fs : host_fs) (root : string).

(** Where a link sends the walk: a target replaces the component just read,
    and an absolute one restarts at the root of the tree. *)
Definition link_pending (target : string) (rest : list string) : list string := components target ++ rest.
Definition link_done (target : string) (done : list string) : list string :=
  if starts_with "/" target then [] else done.

(** The loop of [resolve_in_root]: [links] more links may be followed. *)
Fixpoint walk (links : nat) : list string -> list string -> option (list string) :=
  fix go pending done :=
    match pending with
    | [] => Some done
    | part :: rest =>
        if String.eqb part "." then go rest done
        else if String.eqb part ".." then go rest (removelast done)
        else
          match hf_link fs (root +:+ rooted (done ++ [part])) with
          | Some target =>
              match links with
              | O => None
              | S links => walk links (link_pending target rest) (link_done target done)
              end
          | None => go rest (done ++ [part])
          end
    end.

(** [None] stands for the [OSError] (ELOOP) past the limit. *)
Definition resolve_in_root (path : string) : option string :=
  rooted <$> walk MAX_LINKS (components path) [].
End Resolve.

(** [str(Path(p))]. *)
Definition py_path (p : string) : string :=
  let initial := if starts_with "/" p
                 then (if starts_with "//" p && negb (starts_with "///" p) then "//" else "/")
                 else EmptyString in
  let comps := List.filter (fun c => nonempty c && negb (String.eqb c ".")) (split "/" p) in
  let path := initial +:+ str_join "/" comps in
  if String.eqb path EmptyString then "." else path.

Definition HOST_NAMESPACES : list string := [
  "/proc"; "/sys"; "/dev"; "/etc"; "/var/lib/dpkg"; "/usr/share"; "/usr/lib/os-release"; "/usr/etc";
  "/usr/lib/modules"; "/var/log/containers"].

Definition LOOP_SINK : string := "/.pqc-readiness-symlink-loop".

(** The module-level configuration. *)
Record prefixes := Prefixes { host_prefix : string; offline_root : string }.

Definition set_host_prefix (prefix : string) (st : prefixes) : prefixes :=
  Prefixes (rstrip_by is_slash prefix) (offline_root st).
Definition set_offline_root (root : string) (st : prefixes) : prefixes :=
  set_host_prefix root (Prefixes (host_prefix st) (rstrip_by is_slash root)).

(** [p == ns or p.startswith(ns + "/")]. *)
Definition under (ns p : string) : bool := String.eqb p ns || starts_with (ns +:+ "/") p.

Section Paths.
Context (fs : host_fs) (st : prefixes).

Definition resolved_or_sink (root p : string) : string :=
  py_path (root +:+ match resolve_in_root fs root p with Some q => q | None => LOOP_SINK +:+ normpath p end).

Definition host_path (p : string) : string :=
  if nonempty (offline_root st) && starts_with "/" p then resolved_or_sink (offline_root st) p
  else if nonempty (host_prefix st) && existsb (fun ns => under ns p) HOST_NAMESPACES
  then py_path (host_prefix st +:+ p)
  else py_path p.

Definition in_tree (s : string) : string :=
  let pre := host_prefix st in
  if negb (nonempty pre) || negb (under pre s) then py_path s
  else
    let rest := remove_prefix pre s in
    resolved_or_sink pre (if nonempty rest then rest else "/").

(** [glob.has_magic]. *)
Definition has_magic (part : string) : bool := existsb (char_in "*?[") (chars part).

Definition hidden_ok (part n : string) : bool := starts_with "." part || negb (starts_with "." n).

(** The children of one directory that match one pattern component. *)
Definition glob_step (part base : string) : list string :=
  let child := rstrip_by is_slash base +:+ "/" in
  if negb (has_magic part) then [child +:+ part]
  else
    match d ← resolve_in_root fs (host_prefix st) base; hf_listdir fs (host_prefix st +:+ d) with
    | None => []
    | Some names =>
        (fun n => child +:+ n) <$>
          List.filter (fun n => fnmatch n part && hidden_ok part n) (py_sorted str_lt names)
    end.

Definition glob_exists (p : string) : bool :=
  match resolve_in_root fs (host_prefix st) p with
  | Some q => hf_lexists fs (host_prefix st +:+ q)
  | None => false
  end.

Definition host_glob (pattern : string) : list string :=
  if negb (nonempty (host_prefix st)) then py_sorted str_lt (hf_glob fs pattern)
  else
    List.filter glob_exists
      (foldl (fun found part => concat (glob_step part <$> found)) ["/"] (components pattern)).
End Paths.

(** ** The walk as a state machine *)

Record wstate := WState { w_links : nat; w_pending : list string; w_done : list string }.

Section Steps.
Context (fs : host_fs) (root : string).

Definition at_link (done : list string) (part : string) : option string :=
  hf_link fs (root +:+ rooted (done ++ [part])).

(** A component that names an entry of the directory reached so far. *)
Definition is_name (part : string) : Prop := part <> "." /\ part <> "..".

(** One iteration of the loop. *)
Inductive wstep : wstate -> wstate -> Prop :=
| step_dot n rest done : wstep (WState n ("." :: rest) done) (WState n rest done)
| step_up n rest done : wstep (WState n (".." :: rest) done) (WState n rest (removelast done))
| step_down n part rest done :
    is_name part -> at_link done part = None ->
    wstep (WState n (part :: rest) done) (WState n rest (done ++ [part]))
| step_link n part rest done target :
    is_name part -> at_link done part = Some target ->
    wstep (WState (S n) (part :: rest) done) (WState n (link_pending target rest) (link_done target done)).

(** The loop has ended, and the loop is about to raise ELOOP. *)
Definition finished (s : wstate) : Prop := w_pending s = [].
Definition looped (s : wstate) : Prop :=
  exists part rest t, w_links s = O /\ w_pending s = part :: rest /\ is_name part /\ at_link (w_done s) part = Some t.
End Steps.

(** ** Properties of the walk *)

Section Walk.
Context (fs : host_fs) (root : string).

Lemma walk_unfold n pending done :
  walk fs root n pending done =
  match pending with
  | [] => Some done
  | part :: rest =>
      if String.eqb part "." then walk fs root n rest done
      else if String.eqb part ".." then walk fs root n rest (removelast done)
      else
        match at_link fs root done part with
        | Some target =>
            match n with
            | O => None
            | S n => walk fs root n (link_pending target rest) (link_done target done)
            end
        | None => walk fs root n rest (done ++ [part])
        end
  end.
Proof. by destruct n, pending. Qed.

Lemma name_cases part : part = "." \/ part = ".." \/ is_name part.
Proof. unfold is_name. destruct (decide (part = ".")); [auto|]. destruct (decide (part = "..")); auto. Qed.

Lemma walk_name n part rest done :
  is_name part ->
  walk fs root n (part :: rest) done =
  match at_link fs root done part with
  | Some target => match n with
                   | O => None
                   | S n => walk fs root n (link_pending target rest) (link_done target done)
                   end
  | None => walk fs root n rest (done ++ [part])
  end.
Proof.
  intros [H1 H2]. rewrite walk_unfold. apply String.eqb_neq in H1, H2. by rewrite H1, H2.
Qed.

(** A step does not change the answer. *)
Lemma walk_step s s' : wstep fs root s s' ->
  walk fs root (w_links s) (w_pending s) (w_done s) = walk fs root (w_links s') (w_pending s') (w_done s').
Proof.
  destruct 1 as [n rest done|n rest done|n part rest done Hn Hl|n part rest done t Hn Hl]; cbn [w_links w_pending w_done].
  - by rewrite walk_unfold.
  - by rewrite walk_unfold.
  - by rewrite (walk_name _ _ _ _ Hn), Hl.
  - by rewrite (walk_name _ _ _ _ Hn), Hl.
Qed.

Lemma wstep_progress s : finished s \/ looped fs root s \/ exists s', wstep fs root s s'.
Proof.
  destruct s as [n [|part rest] done]; [by left|right].
  destruct (name_cases part) as [->|[->|Hn]]; [right; eexists; constructor..|].
  destruct (at_link fs root done part) as [t|] eqn:Hl; [|right; eexists; by apply step_down].
  destruct n as [|n]; [|right; eexists; by eapply step_link].
  left. by exists part, rest, t.
Qed.

Lemma wstep_acc s : Acc (flip (wstep fs root)) s.
Proof.
  destruct s as [n pending done]. revert pending done.
  induction n as [n IHn] using lt_wf_ind. intros pending. induction pending as [|part rest IHp]; intros done.
  - constructor. intros s' Hs. inversion Hs.
  - constructor. intros s' Hs. inversion Hs; subst; try apply IHp. apply IHn. lia.
Qed.

(** Induction along the run. *)
Lemma walk_ends s :
  match walk fs root (w_links s) (w_pending s) (w_done s) with
  | Some d => exists n, rtc (wstep fs root) s (WState n [] d)
  | None => exists s', rtc (wstep fs root) s s' /\ looped fs root s'
  end.
Proof.
  induction (wstep_acc s) as [s _ IH].
  destruct (wstep_progress s) as [Hf|[Hl|[s' Hs]]].
  - destruct s as [n pending done]. unfold finished in Hf. simpl in Hf. subst. cbn [w_links w_pending w_done].
    rewrite walk_unfold. exists n. apply rtc_refl.
  - pose proof Hl as (part & rest & t & Hn & Hp & Hname & Hlink).
    rewrite Hp, (walk_name _ _ _ _ Hname), Hlink, Hn. exists s. split; [apply rtc_refl|done].
  - rewrite (walk_step _ _ Hs). specialize (IH s' Hs).
    destruct (walk _ _ _ _ _) as [d|].
    + destruct IH as [n Hr]. exists n. by eapply rtc_l.
    + destruct IH as (s2 & Hr & Hl). exists s2. split; [by eapply rtc_l|done].
Qed.

(** *** The components of the result *)

Definition clean (part : string) : Prop := part <> EmptyString /\ "/"%char ∉ chars part.
Definition proper (part : string) : Prop := clean part /\ is_name part.

(** No prefix of the path is a symbolic link. *)
Definition link_free (parts : list string) : Prop :=
  forall a part b, parts = a ++ part :: b -> at_link fs root a part = None.

Lemma components_clean p : Forall clean (components p).
Proof.
  apply Forall_forall. intros c Hc. unfold components in Hc. apply list_elem_of_In, filter_In in Hc as [Hc Hne].
  apply list_elem_of_In in Hc. split; [|by eapply split_free].
  intros ->. done.
Qed.

Lemma link_free_snoc a part : link_free a -> at_link fs root a part = None -> link_free (a ++ [part]).
Proof.
  intros Ha Hp x y z Heq. destruct z as [|w z _] using rev_ind.
  - apply app_inj_tail in Heq as [-> ->]. done.
  - rewrite app_comm_cons, app_assoc in Heq. apply app_inj_tail in Heq as [-> _]. by eapply Ha.
Qed.

Lemma link_free_removelast a : link_free a -> link_free (removelast a).
Proof.
  destruct a as [|x a _] using rev_ind; [done|]. rewrite removelast_last.
  intros H u v w ->. eapply (H u v (w ++ [x])). by rewrite <-app_assoc.
Qed.

Lemma Forall_removelast {A} (P : A -> Prop) l : Forall P l -> Forall P (removelast l).
Proof. destruct l as [|x l _] using rev_ind; [done|]. rewrite removelast_last, Forall_app. tauto. Qed.

Definition walk_inv (s : wstate) : Prop :=
  Forall clean (w_pending s) /\ Forall proper (w_done s) /\ link_free (w_done s).

Lemma walk_inv_step s s' : wstep fs root s s' -> walk_inv s -> walk_inv s'.
Proof.
  unfold walk_inv. destruct 1 as [n rest done|n rest done|n part rest done Hn Hl|n part rest done t Hn Hl];
    cbn [w_links w_pending w_done]; intros (Hp & Hd & Hf); inversion Hp as [|? ? Hc Hr]; subst.
  - done.
  - split_and!; [done|by apply Forall_removelast|by apply link_free_removelast].
  - split_and!; [done| |by apply link_free_snoc]. apply Forall_app. split; [done|]. by repeat constructor; apply Hc || apply Hn.
  - unfold link_pending, link_done. split; [apply Forall_app; split; [apply components_clean|done]|].
    case_match; [|done]. split; [constructor|]. intros [|] ? ? Heq; discriminate Heq.
Qed.

Lemma walk_inv_rtc s s' : rtc (wstep fs root) s s' -> walk_inv s -> walk_inv s'.
Proof. induction 1; eauto using walk_inv_step. Qed.

Lemma walk_inv_start n p : walk_inv (WState n (components p) []).
Proof.
  split_and!; [apply components_clean|constructor|]. intros [|] ? ? Heq; discriminate Heq.
Qed.

(** A link-free path of proper components is walked without a link. *)
Lemma walk_link_free n parts done :
  Forall proper parts -> link_free (done ++ parts) -> walk fs root n parts done = Some (done ++ parts).
Proof.
  revert done; induction parts as [|part parts IH]; intros done Hp Hf.
  - by rewrite walk_unfold, app_nil_r.
  - inversion Hp as [|? ? [_ Hn] Hp']; subst. rewrite (walk_name _ _ _ _ Hn), (Hf done part parts eq_refl).
    rewrite IH; [by rewrite <-app_assoc|done|by rewrite <-app_assoc].
Qed.

Lemma filter_clean parts : Forall clean parts -> List.filter nonempty parts = parts.
Proof.
  induction 1 as [|p parts [Hne _] _ IH]; [done|]. simpl. unfold nonempty at 1.
  apply String.eqb_neq in Hne. rewrite Hne. simpl. by rewrite IH.
Qed.

Lemma components_rooted parts : Forall clean parts -> components (rooted parts) = parts.
Proof.
  intros Hc. unfold components, rooted. destruct parts as [|p parts]; [done|].
  change ("/" +:+ str_join "/" (p :: parts)) with (str_join "/" (EmptyString :: p :: parts)).
  rewrite (join_split "/"%char);
    [change (List.filter nonempty (p :: parts) = p :: parts); by apply filter_clean|done|].
  constructor; [apply not_elem_of_nil|]. eapply Forall_impl; [exact Hc|]. by intros ? [_ ?].
Qed.

Lemma resolve_shape p q :
  resolve_in_root fs root p = Some q ->
  exists parts, q = rooted parts /\ Forall proper parts /\ link_free parts.
Proof.
  unfold resolve_in_root. intros (parts & Hw & ->)%fmap_Some. exists parts. split; [done|].
  pose proof (walk_ends (WState MAX_LINKS (components p) [])) as H. cbn [w_links w_pending w_done] in H.
  rewrite Hw in H. destruct H as [n Hr]. apply walk_inv_rtc in Hr; [|apply walk_inv_start].
  by destruct Hr as (_ & ? & ?).
Qed.
End Walk.

(** ** Properties *)

(** [resolve_in_root] always ends: each iteration of its loop either
    consumes a component or spends one of the 40 links, so no infinite run
    exists whatever the links are; a run that has not ended can continue
    unless it has met a link past the limit; and the answer is where the
    run ends: the components reached, or ELOOP. *)
Theorem walk_terminates fs root s :
  Acc (flip (wstep fs root)) s /\
  (finished s \/ looped fs root s \/ exists s', wstep fs root s s') /\
  match walk fs root (w_links s) (w_pending s) (w_done s) with
  | Some d => exists n, rtc (wstep fs root) s (WState n [] d)
  | None => exists s', rtc (wstep fs root) s s' /\ looped fs root s'
  end.
Proof. split_and!; [apply wstep_acc|apply wstep_progress|apply walk_ends]. Qed.

(** C10: A path resolved in the tree cannot leave it: the result is an
    absolute path whose components are non-empty, contain no slash and are
    neither [.] nor [..]; no prefix of it is a symbolic link, so opening it
    below the root follows no link; and resolving it again changes
    nothing. *)
Theorem resolve_in_root_confined fs root p q :
  resolve_in_root fs root p = Some q ->
  exists parts, q = rooted parts /\ Forall proper parts /\ link_free fs root parts /\
    resolve_in_root fs root q = Some q.
Proof.
  intros (parts & -> & Hp & Hf)%resolve_shape. exists parts. split_and!; [done..|].
  unfold resolve_in_root. rewrite components_rooted by (eapply Forall_impl; [exact Hp|by intros ? [? _]]).
  by rewrite (walk_link_free fs root _ parts []).
Qed.

(** The walk over a tree without links, one component at a time. *)
Lemma walk_no_links fs root n pending done :
  (forall x, hf_link fs x = None) -> Forall clean pending -> Forall is_name done ->
  walk fs root n pending (reverse done) = Some (reverse (foldl (norm_step true) done pending)).
Proof.
  intros Hl. revert done; induction pending as [|part rest IH]; intros done Hp Hd; [by rewrite walk_unfold|].
  inversion Hp as [|? ? [Hne _] Hr]; subst. apply String.eqb_neq in Hne. cbn [foldl].
  unfold norm_step at 2. rewrite Hne. cbn [orb].
  destruct (name_cases part) as [->|[->|Hn]].
  - rewrite walk_unfold. by apply IH.
  - rewrite walk_unfold. cbn [String.eqb negb Ascii.eqb Bool.eqb].
    destruct Hd as [|d done [Hd1 Hd2] Hd]; [by apply (IH [])|].
    apply String.eqb_neq in Hd2. rewrite reverse_cons, removelast_last, Hd2. by apply IH.
  - rewrite (walk_name _ _ _ _ _ _ Hn). unfold at_link. rewrite Hl.
    pose proof Hn as [H1 H2]. apply String.eqb_neq in H1, H2. rewrite H1, H2. cbn [negb].
    rewrite <-IH by (done || by constructor). by rewrite reverse_cons.
Qed.

Lemma foldl_norm_filter a acc l : foldl (norm_step a) acc (List.filter nonempty l) = foldl (norm_step a) acc l.
Proof.
  revert acc; induction l as [|c l IH]; intros acc; [done|]. simpl. unfold nonempty at 1, norm_step at 3.
  destruct (String.eqb c EmptyString) eqn:E; cbn [negb orb]; [apply IH|]. cbn [foldl]. rewrite IH.
  f_equal. unfold norm_step. by rewrite E.
Qed.

(** In a tree without symbolic links, resolving an absolute path is
    [os.path.normpath] of it. *)
Theorem resolve_in_root_normpath fs root p :
  (forall x, hf_link fs x = None) -> starts_with "/" p = true -> starts_with "//" p = false ->
  resolve_in_root fs root p = Some (normpath p).
Proof.
  intros Hl Hs Hss. unfold resolve_in_root. change ([] : list string) with (reverse ([] : list string)).
  rewrite walk_no_links by (done || apply components_clean || constructor).
  cbn [fmap option_fmap option_map]. f_equal. unfold components, normpath. rewrite foldl_norm_filter, Hs, Hss.
  destruct p as [|c p]; [done|]. reflexivity.
Qed.

Definition no_links_fs : host_fs := HostFs (fun _ => None) (fun _ => None) (fun _ => true) (fun _ => []).

Lemma resolve_in_root_normpath_witness :
  resolve_in_root no_links_fs "/mnt" "/etc/../usr/./lib//x" = Some "/usr/lib/x".
Proof. by rewrite (resolve_in_root_normpath no_links_fs "/mnt" "/etc/../usr/./lib//x"). Defined.

(** An absolute link, a link out of the tree and a loop. *)
Definition tree_fs : host_fs := HostFs
  (fun p => dget p [
     ("/mnt/etc/os-release", "/usr/lib/os-release"); ("/mnt/etc/out", "../../../../shadow");
     ("/mnt/etc/loop", "loop"); ("/mnt/etc/alt", "pki/../ssl")])
  (fun _ => None) (fun _ => true) (fun _ => []).

Lemma resolve_in_root_confined_witness :
  resolve_in_root tree_fs "/mnt" "/etc/os-release" = Some "/usr/lib/os-release" /\
  resolve_in_root tree_fs "/mnt" "/usr/lib/os-release" = Some "/usr/lib/os-release" /\
  resolve_in_root tree_fs "/mnt" "/etc/out" = Some "/shadow" /\
  resolve_in_root tree_fs "/mnt" "/etc/loop" = None.
Proof.
  split; [reflexivity|]. split; [|split; reflexivity].
  destruct (resolve_in_root_confined tree_fs "/mnt" "/etc/os-release" "/usr/lib/os-release" eq_refl)
    as (parts & _ & _ & _ & H). exact H.
Defined.

Lemma host_path_offline fs st p :
  nonempty (offline_root st) = true -> starts_with "/" p = true ->
  host_path fs st p = resolved_or_sink fs (offline_root st) p.
Proof. unfold host_path. by intros -> ->. Qed.
