(* ===== verification/ConfigRead.v ===== *)
(** * Reading host configuration files ([detect/config_read.py])

    Absent and unreadable are different answers.  The file system is a
    record of functions ([stat], bounded read, directory listing, link
    resolution under the prefix); what the readers make of its answers is
    translated. *)

From S2P Require Import Prelude PyStr PyDict PyVal PyBytes.
Open Scope Z_scope.

(** The [OSError]s the readers tell apart: [e.strerror or str(e)] of the rest. *)
Inductive oserror :=
| ENOENT | ENOTDIR | PermissionError | ELOOP | EISDIR | OtherOS (msg : string).

Record unreadable := ConfigUnreadable { u_path : string; u_reason : string }.
#[export] Instance unreadable_eq_dec : EqDecision unreadable.
Proof. solve_decision. Defined.

Definition as_entry (u : unreadable) : list (string * value) :=
  [("path", VStr (u_path u)); ("reason", VStr (u_reason u))].

(** What a reader answers: [None], a value, or the exception. *)
Inductive host (A : Type) :=
| Absent
| Found (a : A)
| Unreadable (u : unreadable).
Arguments Absent {A}.
Arguments Found {A} a.
Arguments Unreadable {A} u.

Record filesystem := FS {
  fs_resolve : string -> string + string;    (* error text, or the path under the prefix *)
  fs_stat : string -> oserror + (bool * Z);  (* regular file?, size *)
  fs_read : string -> Z -> oserror + bytes;  (* at most that many bytes *)
  fs_iterdir : string -> oserror + list string }.

Definition PERMISSION_HINT : string := "run as root or with CAP_DAC_READ_SEARCH".
Definition DEFAULT_MAX_BYTES : Z := 1024 * 1024.

Definition reason_for (e : oserror) : option string :=
  match e with
  | ENOENT | ENOTDIR => None
  | PermissionError => Some ("permission denied; " +:+ PERMISSION_HINT)
  | ELOOP => Some "symlink loop"
  | EISDIR => Some "is a directory"
  | OtherOS msg => Some msg
  end.

Definition host_error {A} (path : string) (e : oserror) : host A :=
  match reason_for e with
  | None => Absent
  | Some reason => Unreadable (ConfigUnreadable path reason)
  end.

(** [text.replace("\r\n", "\n").replace("\r", "\n")]. *)
Definition cr : string := String "013" EmptyString.
Definition lf : string := String "010" EmptyString.
Definition str_replace (old new s : string) : string := str_join new (split old s).
Definition universal_newlines (s : string) : string :=
  str_replace cr lf (str_replace (cr +:+ lf) lf s).

Section Read.
Context (fs : filesystem).

Definition read_host_text_max (path : string) (max_bytes : Z) : host string :=
  match fs_resolve fs path with
  | inl err => Unreadable (ConfigUnreadable path err)
  | inr p =>
      match fs_stat fs p with
      | inl e => host_error path e
      | inr (regular, size) =>
          if negb regular then Unreadable (ConfigUnreadable path "not a regular file")
          else
            let too_big := ConfigUnreadable path ("larger than " +:+ show_Z max_bytes +:+ " bytes; skipped") in
            if max_bytes <? size then Unreadable too_big
            else
              match fs_read fs p (max_bytes + 1) with
              | inl e => host_error path e
              | inr data =>
                  if max_bytes <? blen data then Unreadable too_big
                  else Found (universal_newlines (decode Utf8 data))
              end
      end
  end.
Definition read_host_text (path : string) : host string := read_host_text_max path DEFAULT_MAX_BYTES.

Definition list_host_dir (path : string) : host (list string) :=
  match fs_resolve fs path with
  | inl err => Unreadable (ConfigUnreadable path err)
  | inr p =>
      match fs_iterdir fs p with
      | inl e => host_error path e
      | inr names => Found (py_sorted str_lt names)
      end
  end.
End Read.

(** ** The two answers *)

Definition absent_error (e : oserror) : bool := match e with ENOENT | ENOTDIR => true | _ => false end.

Lemma reason_for_absent e : reason_for e = None <-> absent_error e = true.
Proof. by destruct e. Qed.

Lemma join_no_char c sep ps :
  c ∉ chars sep -> Forall (fun p => c ∉ chars p) ps -> c ∉ chars (str_join sep ps).
Proof.
  intros Hs Hp. rewrite chars_str_join. induction Hp as [|p ps Hp Hps IH]; [by apply not_elem_of_nil|].
  destruct ps as [|q ps]; [done|]. csimpl in *. rewrite !not_elem_of_app. by split_and!.
Qed.

Lemma universal_newlines_no_cr s : "013"%char ∉ chars (universal_newlines s).
Proof.
  unfold universal_newlines at 1, str_replace at 1. apply join_no_char.
  - by apply (bool_decide_unpack _).
  - apply Forall_forall. intros p Hp. by eapply split_free.
Qed.

(** [None] means that the path is not there: a reader answers it only for
    ENOENT or ENOTDIR; a text comes from a regular file within the size limit
    and has no carriage return; anything else is reported unreadable under
    the path that was asked for. *)
Theorem read_host_text_spec fs path max_bytes :
  match read_host_text_max fs path max_bytes with
  | Absent => exists p e, fs_resolve fs path = inr p /\ absent_error e = true /\
      (fs_stat fs p = inl e \/ fs_read fs p (max_bytes + 1) = inl e)
  | Found text => exists p size data, fs_resolve fs path = inr p /\
      fs_stat fs p = inr (true, size) /\ size <= max_bytes /\
      fs_read fs p (max_bytes + 1) = inr data /\ blen data <= max_bytes /\
      "013"%char ∉ chars text
  | Unreadable u => u_path u = path /\
      forall p e, fs_resolve fs path = inr p -> fs_stat fs p = inl e -> absent_error e = false
  end.
Proof.
  unfold read_host_text_max, host_error. destruct (fs_resolve fs path) as [err|p]; [naive_solver|].
  destruct (fs_stat fs p) as [e|[reg size]] eqn:Hs.
  - destruct (reason_for e) eqn:He.
    + split; [done|]. intros p' e' [= <-]. rewrite Hs. intros [= <-].
      apply not_true_iff_false. rewrite <-reason_for_absent. congruence.
    + apply reason_for_absent in He. exists p, e. auto.
  - assert (forall p' e, inr p = (inr p' : string + string) -> fs_stat fs p' = inl e -> absent_error e = false) as Hu
      by (intros ? ? [= <-]; congruence).
    destruct reg; [|split; [done|exact Hu]]. simpl.
    destruct (max_bytes <? size) eqn:?; [split; [done|exact Hu]|].
    destruct (fs_read fs p (max_bytes + 1)) as [e|data] eqn:Hr.
    + destruct (reason_for e) eqn:He; [split; [done|exact Hu]|].
      apply reason_for_absent in He. exists p, e. auto.
    + destruct (max_bytes <? blen data) eqn:?; [split; [done|exact Hu]|].
      exists p, size, data. split_and!; try done; try lia. apply universal_newlines_no_cr.
Qed.
