(* ===== verification/Algorithms.v ===== *)
(** * Algorithm tables and registry references ([algorithms.py])

    The parameter-size, threshold and standards tables, the registries of
    TLS groups and SSH key exchanges that carry ML-KEM, and the functions
    that attach registry facts to a report.  The theorems show that every
    reference resolves, what the reference objects hold, and that the CNSA
    2.0 column says exactly "the ML-KEM component is ML-KEM-1024". *)

From S2P Require Import Prelude PyStr PyDict PyVal.
Open Scope Z_scope.

Definition PQC_SIZES : list (string * value) :=
  [
  ("ML-KEM-768", VDict [
    ("role", VStr "TLS KEM");
    ("pk", VInt 1184);
    ("sk", VInt 2400);
    ("ct", VInt 1088);
    ("shared", VInt 32)]);
  ("ML-DSA-65", VDict [
    ("role", VStr "general sig");
    ("pk", VInt 1952);
    ("sk", VInt 4032);
    ("sig", VInt 3309)]);
  ("ML-DSA-87", VDict [
    ("role", VStr "high-sec sig");
    ("pk", VInt 2592);
    ("sk", VInt 4896);
    ("sig", VInt 4627)]);
  ("SLH-DSA-SHA2-128s", VDict [
    ("role", VStr "small/slow sig");
    ("pk", VInt 32);
    ("sk", VInt 64);
    ("sig", VInt 7856)]);
  ("SLH-DSA-SHA2-128f", VDict [
    ("role", VStr "fast/large sig");
    ("pk", VInt 32);
    ("sk", VInt 64);
    ("sig", VInt 17088)]);
  ("SLH-DSA-SHA2-256f", VDict [
    ("role", VStr "high-sec sig");
    ("pk", VInt 64);
    ("sk", VInt 128);
    ("sig", VInt 49856)])].

(** The benchmark metric that bounds an algorithm and its tier floors. *)
Record algo_threshold := AlgoThreshold { at_op : string; at_floors : list (string * value) }.

Definition ALGO_THRESHOLDS : list (string * algo_threshold) := [
  ("ML-KEM-768", AlgoThreshold "decaps/s" [("excellent", VInt 20000); ("good", VInt 8000); ("marginal", VInt 2000)]);
  ("ML-DSA-65", AlgoThreshold "sign/s" [("excellent", VInt 1500); ("good", VInt 600); ("marginal", VInt 150)]);
  ("ML-DSA-65/verify", AlgoThreshold "verify/s" [("excellent", VInt 8000); ("good", VInt 3000); ("marginal", VInt 500)]);
  ("ML-DSA-87", AlgoThreshold "sign/s" [("excellent", VInt 1000); ("good", VInt 400); ("marginal", VInt 100)]);
  ("ML-DSA-87/verify", AlgoThreshold "verify/s" [("excellent", VInt 5000); ("good", VInt 2000); ("marginal", VInt 300)]);
  ("SLH-DSA-SHA2-128s", AlgoThreshold "sign/s" [("excellent", VInt 5); ("good", VInt 2); ("marginal", VFloat (f_dec false 5 (-1)))])].

Definition SLH_DSA_MEM_BANDWIDTH_FLOOR_GB_S : float := f_of_Z 10.

Definition ALGO_NOTES : list (string * list string) := [
  ("SLH-DSA-SHA2-128s", ["SLH-DSA is unsuitable for hot-path use in software regardless of tier — even at the 'excellent' threshold of 5 sign/s/core it is orders of magnitude slower than ML-DSA.  Reserve for offline code-signing or rare-use cases; consider hardware offload for anything resembling production sign throughput."])].

(** One published or draft standard. *)
Record standard := Standard {
  std_title : string; std_status : string; std_date : string;
  std_note : option string; std_url : string }.

Definition STANDARDS : list (string * standard) := [
  ("FIPS 203", Standard
    "Module-Lattice-Based Key-Encapsulation Mechanism Standard (ML-KEM)"
    "final" "2024-08-13" None
    "https://csrc.nist.gov/pubs/fips/203/final");
  ("FIPS 204", Standard
    "Module-Lattice-Based Digital Signature Standard (ML-DSA)"
    "final" "2024-08-13" None
    "https://csrc.nist.gov/pubs/fips/204/final");
  ("FIPS 205", Standard
    "Stateless Hash-Based Digital Signature Standard (SLH-DSA)"
    "final" "2024-08-13" None
    "https://csrc.nist.gov/pubs/fips/205/final");
  ("NIST IR 8547", Standard
    "Transition to Post-Quantum Cryptography Standards"
    "draft" "2024-11-12" (Some "initial public draft; no final version published")
    "https://csrc.nist.gov/pubs/ir/8547/ipd");
  ("RFC 10024", Standard
    "Post-Quantum Traditional (PQ/T) Hybrid Key Agreement Mechanisms for TLS 1.3"
    "final" "2026-08" (Some "Proposed Standard")
    "https://www.rfc-editor.org/rfc/rfc10024");
  ("RFC 9954", Standard
    "Hybrid Key Exchange in TLS 1.3"
    "final" "2026-07" (Some "Informational")
    "https://www.rfc-editor.org/rfc/rfc9954");
  ("RFC 10042", Standard
    "Post-Quantum/Traditional Hybrid Key Exchange with ML-KEM in SSH"
    "final" "2026-08" (Some "Informational")
    "https://www.rfc-editor.org/rfc/rfc10042");
  ("RFC 9941", Standard
    "SSH Key Exchange Method Using Hybrid sntrup761 and X25519"
    "final" "2026-04" (Some "Informational")
    "https://www.rfc-editor.org/rfc/rfc9941");
  ("draft-ietf-tls-mlkem", Standard
    "ML-KEM Post-Quantum Key Agreement for TLS 1.3"
    "draft" "2026-10-12" (Some "revision -11, in the RFC Editor queue")
    "https://datatracker.ietf.org/doc/draft-ietf-tls-mlkem/");
  ("draft-ietf-lamps-pq-composite-sigs", Standard
    "Composite ML-DSA for use in X.509 PKI and CMS"
    "draft" "2026-10-02" (Some "revision -19, in the RFC Editor queue")
    "https://datatracker.ietf.org/doc/draft-ietf-lamps-pq-composite-sigs/")].

(** A TLS 1.3 named group that carries an ML-KEM component. *)
Record tls_group := TlsGroup {
  g_codepoint : Z; g_kem : string; g_classical : option string;
  g_reference : string; g_recommended : bool; g_cnsa_2_0 : bool; g_obsolete : bool }.

Definition TLS_PQC_GROUPS : list (string * tls_group) := [
  ("X25519MLKEM768", TlsGroup 4588 "ML-KEM-768" (Some "X25519") "RFC 10024" true false false);
  ("SecP256r1MLKEM768", TlsGroup 4587 "ML-KEM-768" (Some "secp256r1") "RFC 10024" false false false);
  ("SecP384r1MLKEM1024", TlsGroup 4589 "ML-KEM-1024" (Some "secp384r1") "RFC 10024" false true false);
  ("MLKEM512", TlsGroup 512 "ML-KEM-512" None "draft-ietf-tls-mlkem" false false false);
  ("MLKEM768", TlsGroup 513 "ML-KEM-768" None "draft-ietf-tls-mlkem" false false false);
  ("MLKEM1024", TlsGroup 514 "ML-KEM-1024" None "draft-ietf-tls-mlkem" false true false);
  ("X25519Kyber768Draft00", TlsGroup 25497 "Kyber768 (pre-standard)" (Some "X25519") "RFC 10024" false false true);
  ("SecP256r1Kyber768Draft00", TlsGroup 25498 "Kyber768 (pre-standard)" (Some "secp256r1") "RFC 10024" false false true)].

(** An SSH key exchange method with a post-quantum component. *)
Record ssh_kex := SshKex {
  k_kem : string; k_classical : string; k_reference : string;
  k_cnsa_2_0 : bool; k_alias_of : option string }.

Definition SSH_PQC_KEX : list (string * ssh_kex) := [
  ("mlkem768x25519-sha256", SshKex "ML-KEM-768" "X25519" "RFC 10042" false None);
  ("mlkem768nistp256-sha256", SshKex "ML-KEM-768" "nistp256" "RFC 10042" false None);
  ("mlkem1024nistp384-sha384", SshKex "ML-KEM-1024" "nistp384" "RFC 10042" true None);
  ("sntrup761x25519-sha512", SshKex "sntrup761" "X25519" "RFC 9941" false None);
  ("sntrup761x25519-sha512@openssh.com", SshKex "sntrup761" "X25519" "RFC 9941" false (Some "sntrup761x25519-sha512"))].

(** ** Operations *)

(** [{reference, status, url}] of a standard; KeyError when unknown. *)
Definition standard_ref (key : string) : res (list (string * value)) :=
  match dget key STANDARDS with
  | Some std => Ok [("reference", VStr key); ("status", VStr (std_status std));
                    ("url", VStr (std_url std))]
  | None => Raise (KeyError key)
  end.

Definition hex_upper (n : N) : ascii :=
  ascii_of_N (if (n <? 10)%N then 48 + n else 55 + n).
Fixpoint hex_digits (fuel : nat) (n : N) (acc : list ascii) : list ascii :=
  match fuel with
  | O => acc
  | S fuel =>
      let acc := hex_upper (n mod 16) :: acc in
      if (n <? 16)%N then acc else hex_digits fuel (n / 16) acc
  end.
(** [f"0x{n:04X}"] of a non-negative number. *)
Definition hex04 (z : Z) : string :=
  let ds := hex_digits 64 (Z.to_N z) [] in
  str_of ("0"%char :: "x"%char :: replicate (4 - length ds) "0"%char ++ ds).

(** [TABLE.get(name)] for any value as name: an unhashable name raises, a
    name that is no string is in no table. *)
Definition table_get {A} (t : list (string * A)) (name : value) : res (option (string * A)) :=
  match name with
  | VStr s => Ok (pair s <$> dget s t)
  | VList _ | VDict _ => Raise TypeError
  | _ => Ok None
  end.

(** The loop shared by the two reference functions: one entry per known
    name, unknown names omitted. *)
Definition references {A} (t : list (string * A)) (entry : A -> res (list (string * value)))
    (names : list value) : res (list (string * value)) :=
  foldM (fun out name =>
    g ← table_get t name;
    match g with
    | None => Ok out
    | Some (n, g) => e ← entry g; Ok (dset n (VDict e) out)
    end) [] names.

Definition tls_group_entry (g : tls_group) : res (list (string * value)) :=
  ref ← standard_ref (g_reference g);
  let entry := dupdate [("codepoint", VStr (hex04 (g_codepoint g)));
                        ("kem", VStr (g_kem g));
                        ("classical", of_ostr (g_classical g));
                        ("recommended", VBool (g_recommended g));
                        ("cnsa_2_0", VBool (g_cnsa_2_0 g))] ref in
  Ok (if g_obsolete g then dset "obsolete" (VBool true) entry else entry).

Definition tls_group_references : list value -> res (list (string * value)) :=
  references TLS_PQC_GROUPS tls_group_entry.

Definition ssh_kex_entry (k : ssh_kex) : res (list (string * value)) :=
  ref ← standard_ref (k_reference k);
  let entry := dupdate [("kem", VStr (k_kem k)); ("classical", VStr (k_classical k));
                        ("cnsa_2_0", VBool (k_cnsa_2_0 k))] ref in
  Ok (match k_alias_of k with
      | Some a => dset "alias_of" (VStr a) entry
      | None => entry
      end).

Definition ssh_kex_references : list value -> res (list (string * value)) :=
  references SSH_PQC_KEX ssh_kex_entry.

Definition openssl_cli_probed (openssl : value) : res bool :=
  available ← get "available" openssl;
  if negb (truthy available) then Ok false
  else
    probe ← get "cli_probe" openssl;
    ok ← get_or "available" (VBool true) (por probe (VDict []));
    Ok (truthy ok).

(** [[*(d.get("pure_pqc") or []), *(d.get("hybrid") or [])]]. *)
Definition pqc_buckets (d : value) : res (list value) :=
  pure ← get "pure_pqc" d;
  l1 ← py_iter (por pure (VList []));
  hybrid ← get "hybrid" d;
  l2 ← py_iter (por hybrid (VList []));
  Ok (l1 ++ l2).

(** [v[k] = x]. *)
Definition setitem (k : string) (x v : value) : res value :=
  match v with VDict d => Ok (VDict (dset k x d)) | _ => Raise TypeError end.

(** The two sections after the call: the code mutates them in place. *)
Definition annotate_key_exchange (openssl ssh : value) : res (value * value) :=
  probed ← openssl_cli_probed openssl;
  openssl' ←
    (if probed : bool then
       groups ← get "tls_groups" openssl;
       names ← pqc_buckets (por groups (VDict []));
       refs ← tls_group_references names;
       setitem "tls_group_references" (VDict refs) openssl
     else Ok openssl);
  available ← get "available" ssh;
  ssh' ←
    (if truthy available then
       kex ← get "kex_groups" ssh;
       names ← pqc_buckets (por kex (VDict []));
       refs ← ssh_kex_references names;
       setitem "kex_references" (VDict refs) ssh
     else Ok ssh);
  Ok (openssl', ssh').

(** ** Correctness *)

Section References.
Context {A : Type} (t : list (string * A)) (entry : A -> res (list (string * value))).

(** The table's entries never raise: every standard they cite exists. *)
Definition closed : Prop := Forall (fun kv => is_ok (entry kv.2) = true) t.

Definition known (n : string) : bool := dmem n t.

(** What the loop adds for one name. *)
Definition ref_of (n : string) : option value :=
  g ← dget n t; match entry g with Ok e => Some (VDict e) | Raise _ => None end.

Context (Hclosed : closed).

Lemma entry_ok n g : dget n t = Some g -> exists e, entry g = Ok e /\ ref_of n = Some (VDict e).
Proof.
  intros Hn. unfold ref_of. rewrite Hn. simpl. apply dget_elem_of in Hn.
  unfold closed in Hclosed. rewrite Forall_forall in Hclosed.
  apply Hclosed in Hn. simpl in Hn.
  destruct (entry g) as [e|]; [by exists e | done].
Qed.

Lemma references_spec_from names out :
  (forall n v, dget n out = Some v -> ref_of n = Some v) ->
  exists out',
    foldM (fun out name =>
      g ← table_get t name;
      match g with
      | None => Ok out
      | Some (n, g) => e ← entry g; Ok (dset n (VDict e) out)
      end) out (VStr <$> names) = Ok out' /\
    forall n, dget n out' =
      match dget n out with Some v => Some v | None => if decide (n ∈ names) then ref_of n else None end.
Proof.
  revert out; induction names as [|n names IH]; intros out Hout; csimpl.
  - exists out. split; [done|]. intros n. by destruct (dget n out).
  - cbn [foldM table_get]. cbn. destruct (dget n t) as [g|] eqn:E; simpl.
    + destruct (entry_ok _ _ E) as (e & He & Hr). rewrite He. simpl.
      destruct (IH (dset n (VDict e) out)) as (out' & Ho & Hd).
      { intros n' v. rewrite dget_dset. case_decide; [subst; by intros [= <-] | apply Hout]. }
      exists out'. split; [exact Ho|]. intros n'. rewrite Hd, dget_dset.
      destruct (decide (n = n')) as [<-|Hne].
      * destruct (dget n out) as [v|] eqn:Ev; [apply Hout in Ev; congruence|].
        rewrite decide_True by (by left). done.
      * destruct (dget n' out); [done|].
        destruct (decide (n' ∈ names)), (decide (n' ∈ n :: names)) as [Hin|Hin]; try done.
        -- exfalso; apply Hin; by right.
        -- apply elem_of_cons in Hin as []; congruence.
    + destruct (IH out Hout) as (out' & Ho & Hd). exists out'. split; [exact Ho|].
      intros n'. rewrite Hd. destruct (dget n' out); [done|].
      destruct (decide (n' ∈ names)), (decide (n' ∈ n :: names)) as [Hin|Hin]; try done.
      * exfalso; apply Hin; by right.
      * apply elem_of_cons in Hin as [->|]; [|done]. unfold ref_of. by rewrite E.
Qed.

Lemma references_lookup names :
  exists out, references t entry (VStr <$> names) = Ok out /\
    forall n, dget n out = if decide (n ∈ names) then ref_of n else None.
Proof. by apply references_spec_from. Qed.
End References.

Lemma tls_table_closed : closed TLS_PQC_GROUPS tls_group_entry.
Proof. repeat constructor. Qed.
Lemma ssh_table_closed : closed SSH_PQC_KEX ssh_kex_entry.
Proof. repeat constructor. Qed.
#[export] Hint Resolve tls_table_closed ssh_table_closed : pqc.

(** ** Properties *)

(** What a reference object says of a group. *)
Definition describes_group (g : tls_group) (e : list (string * value)) : Prop :=
  exists std, dget (g_reference g) STANDARDS = Some std /\
    dget "codepoint" e = Some (VStr (hex04 (g_codepoint g))) /\
    dget "kem" e = Some (VStr (g_kem g)) /\
    dget "classical" e = Some (of_ostr (g_classical g)) /\
    dget "recommended" e = Some (VBool (g_recommended g)) /\
    dget "cnsa_2_0" e = Some (VBool (g_cnsa_2_0 g)) /\
    dget "reference" e = Some (VStr (g_reference g)) /\
    dget "status" e = Some (VStr (std_status std)) /\
    dget "url" e = Some (VStr (std_url std)) /\
    dget "obsolete" e = (if g_obsolete g then Some (VBool true) else None).

Lemma tls_group_entry_describes g e : tls_group_entry g = Ok e -> describes_group g e.
Proof.
  unfold tls_group_entry, standard_ref, describes_group.
  destruct (dget (g_reference g) STANDARDS) as [std|]; [|done].
  intros [= <-]. exists std. split; [done|].
  destruct (g_obsolete g); repeat split.
Qed.

Lemma dget_all {A} (P : string -> A -> Prop) (t : list (string * A)) :
  Forall (fun kv => P kv.1 kv.2) t -> forall n x, dget n t = Some x -> P n x.
Proof. intros H n x Hx%dget_elem_of. rewrite Forall_forall in H. apply (H (n, x) Hx). Qed.

Lemma tls_references_lookup names :
  exists out, tls_group_references (VStr <$> names) = Ok out /\
    forall n, match dget n TLS_PQC_GROUPS with
              | Some g => if decide (n ∈ names)
                          then exists e, dget n out = Some (VDict e) /\ describes_group g e
                          else dget n out = None
              | None => dget n out = None
              end.
Proof.
  destruct (references_lookup _ _ tls_table_closed names) as (out & Ho & Hd).
  exists out. split; [exact Ho|]. intros n. rewrite Hd.
  destruct (dget n TLS_PQC_GROUPS) as [g|] eqn:E.
  - destruct (entry_ok _ _ tls_table_closed _ _ E) as (e & He & ->).
    case_decide; [|done]. exists e. split; [done | by apply tls_group_entry_describes].
  - unfold ref_of. rewrite E. by case_decide.
Qed.

(** [tls_group_references] never raises on a list of names, has an entry
    exactly for the names the registry knows, and each entry carries the
    registry's own codepoint, components and flags together with the status
    and address of the standard the registry cites. *)
Theorem tls_group_references_spec names :
  exists out, tls_group_references (VStr <$> names) = Ok out /\
    forall n, match dget n TLS_PQC_GROUPS with
              | Some g => if decide (n ∈ names)
                          then exists e, dget n out = Some (VDict e) /\ describes_group g e
                          else dget n out = None
              | None => dget n out = None
              end.
Proof. apply tls_references_lookup. Qed.

(** The CNSA 2.0 column of both registries is "the post-quantum component is
    ML-KEM-1024", and no two TLS groups share a codepoint. *)
Lemma cnsa_column :
  (forall n g, dget n TLS_PQC_GROUPS = Some g -> g_cnsa_2_0 g = true <-> g_kem g = "ML-KEM-1024") /\
  (forall n k, dget n SSH_PQC_KEX = Some k -> k_cnsa_2_0 k = true <-> k_kem k = "ML-KEM-1024") /\
  NoDup (g_codepoint <$> TLS_PQC_GROUPS.*2).
Proof.
  split_and!.
  - apply (dget_all (fun _ g => g_cnsa_2_0 g = true <-> g_kem g = "ML-KEM-1024")).
    apply (bool_decide_unpack _). vm_compute. exact I.
  - apply (dget_all (fun _ k => k_cnsa_2_0 k = true <-> k_kem k = "ML-KEM-1024")).
    apply (bool_decide_unpack _). vm_compute. exact I.
  - apply (bool_decide_unpack _). vm_compute. exact I.
Qed.

(** In every reference object the two functions build, [cnsa_2_0] is true
    exactly when [kem] is ML-KEM-1024, the only KEM CNSA 2.0 approves. *)
Theorem references_cnsa_exact names :
  exists tls ssh, tls_group_references (VStr <$> names) = Ok tls /\
    ssh_kex_references (VStr <$> names) = Ok ssh /\
    forall n e, dget n tls = Some (VDict e) \/ dget n ssh = Some (VDict e) ->
      (dget "cnsa_2_0" e = Some (VBool true) <-> dget "kem" e = Some (VStr "ML-KEM-1024")).
Proof.
  destruct (tls_references_lookup names) as (tls & Ht & Htls).
  destruct (references_lookup _ _ ssh_table_closed names) as (ssh & Hs & Hssh).
  exists tls, ssh. split_and!; [done..|]. intros n e [He|He].
  - specialize (Htls n). destruct (dget n TLS_PQC_GROUPS) as [g|] eqn:E; [|congruence].
    case_decide; [|congruence]. destruct Htls as (e' & He' & std & _ & _ & Hk & _ & _ & Hc & _).
    assert (e' = e) as -> by congruence. rewrite Hk, Hc.
    pose proof (proj1 cnsa_column n g E) as Hcol.
    split; intros [= Heq]; do 2 f_equal; by apply Hcol.
  - rewrite Hssh in He. case_decide; [|done]. unfold ref_of in He.
    destruct (dget n SSH_PQC_KEX) as [k|] eqn:E; [|done]. simpl in He.
    destruct (ssh_kex_entry k) as [e'|] eqn:Ek; [|done]. simplify_eq.
    pose proof (proj1 (proj2 cnsa_column) n k E) as Hcol.
    unfold ssh_kex_entry, standard_ref in Ek.
    destruct (dget (k_reference k) STANDARDS); [|done]. injection Ek as <-.
    destruct (k_alias_of k); cbn; (split; intros [= Heq]; do 2 f_equal; by apply Hcol).
Qed.

(** [annotate_key_exchange] only ever adds [tls_group_references] to the
    [openssl] section, and only when a CLI that describes the host was
    probed, and [kex_references] to the [ssh] section, and only when ssh is
    available: every other key keeps its value. *)
Theorem annotate_key_exchange_frame o s o' s' :
  annotate_key_exchange (VDict o) (VDict s) = Ok (o', s') ->
  exists od sd, o' = VDict od /\ s' = VDict sd /\
    (forall k, k <> "tls_group_references" -> dget k od = dget k o) /\
    (forall k, k <> "kex_references" -> dget k sd = dget k s) /\
    (openssl_cli_probed (VDict o) = Ok false -> od = o) /\
    (forall v, dget "available" s = Some v -> truthy v = false -> sd = s).
Proof.
  unfold annotate_key_exchange. intros H.
  bind H as probed Hp. bind H as o1 Ho. bind H as avail Ha. bind H as s1 Hs.
  injection H as <- <-.
  assert (exists od, o1 = VDict od /\
    (forall k, k <> "tls_group_references" -> dget k od = dget k o) /\
    (probed = false -> od = o)) as (od & -> & Hod & Hodf).
  { destruct probed; [|injection Ho as <-; eauto]. do 3 bind_inv Ho. injection Ho as <-.
    eexists; split_and!; [done| |done]. intros k Hk. by rewrite dget_dset_ne. }
  assert (exists sd, s1 = VDict sd /\
    (forall k, k <> "kex_references" -> dget k sd = dget k s) /\
    (truthy avail = false -> sd = s)) as (sd & -> & Hsd & Hsdf).
  { destruct (truthy avail); [|injection Hs as <-; eauto]. do 3 bind_inv Hs. injection Hs as <-.
    eexists; split_and!; [done| |done]. intros k Hk. by rewrite dget_dset_ne. }
  exists od, sd. split_and!; auto.
  - intros Hpf. apply Hodf. congruence.
  - intros v Hv Hf. apply Hsdf. cbn in Ha. rewrite Hv in Ha. by simplify_eq/=.
Qed.

Definition sample_openssl : value :=
  VDict [("available", VBool true);
         ("tls_groups", VDict [("pure_pqc", VStrs ["MLKEM1024"]); ("hybrid", VStrs ["X25519MLKEM768"])])].
Definition sample_ssh : value := VDict [("available", VBool false)].

Lemma annotate_key_exchange_frame_witness :
  exists o', annotate_key_exchange sample_openssl sample_ssh = Ok (o', sample_ssh).
Proof.
  destruct (annotate_key_exchange sample_openssl sample_ssh) as [[o' s']|] eqn:E;
    [|vm_compute in E; discriminate].
  pose proof (annotate_key_exchange_frame _ _ _ _ E) as (od & sd & -> & -> & _ & _ & _ & Hs).
  exists (VDict od). rewrite (Hs (VBool false)); reflexivity.
Defined.
