(* ===== verification/Classify.v ===== *)
(** * Classification of TLS groups and SSH key exchanges

    [classify_tls_groups], [parse_openssl_tls_groups] ([detect/config.py])
    and [classify_ssh_kex], [parse_ssh_kex] and the version parsers
    ([detect/protocols.py]).  A Python set of names is the list of its
    members; [sorted_set] is [sorted(set)]. *)

From S2P Require Import Prelude PyStr PyDict PyVal PyRe Algorithms.
Open Scope Z_scope.

(** The [{pure_pqc, hybrid, classical}] dictionaries. *)
Record buckets := Buckets {
  pure_pqc : list string; hybrid : list string; classical : list string }.

Definition buckets_value (b : buckets) : value :=
  VDict [("pure_pqc", VStrs (pure_pqc b)); ("hybrid", VStrs (hybrid b));
         ("classical", VStrs (classical b))].

(** ** TLS groups *)

Definition Digits : re := RPlus Digit.

Definition PURE_PQC_TLS_GROUP_RE : re := RSeqs [Bos; RLit "MLKEM"; Digits; Eos].

Definition HYBRID_TLS_GROUP_RE : re :=
  RSeqs [Bos;
    RAlts [RSeqs [RLit "X"; RAlts [RLit "25519"; RLit "448"]; RLit "MLKEM"; Digits];
           RSeqs [RLit "SecP"; Digits; RLit "r1MLKEM"; Digits]];
    Eos].

(** [re.IGNORECASE]. *)
Definition CLASSICAL_TLS_GROUP_RE : re :=
  RSeqs [Bos;
    RAlts [RSeqs [RLitI "secp"; Digits; RAlts [RLitI "k"; RLitI "r"]; Digits];
           RSeqs [RLitI "prime"; Digits; RLitI "v"; Digits];
           RLitI "x25519"; RLitI "x448";
           RSeqs [RLitI "ffdhe"; Digits];
           RSeqs [RLitI "brainpoolP"; Digits; RLitI "r"; Digits; ROpt (RLitI "tls13")];
           RSeqs [RLitI "sect"; Digits; RPlus (RChr is_word)]];
    Eos].

Definition is_hybrid_group : string -> bool := test_match HYBRID_TLS_GROUP_RE.
Definition is_pure_group : string -> bool := test_match PURE_PQC_TLS_GROUP_RE.
Definition is_classical_group : string -> bool := test_match CLASSICAL_TLS_GROUP_RE.

(** The loop body: the first matching bucket takes the name. *)
Definition add_group (b : buckets) (name : string) : buckets :=
  if is_hybrid_group name then Buckets (pure_pqc b) (name :: hybrid b) (classical b)
  else if is_pure_group name then Buckets (name :: pure_pqc b) (hybrid b) (classical b)
  else if is_classical_group name then Buckets (pure_pqc b) (hybrid b) (name :: classical b)
  else b.

Definition sort_buckets (b : buckets) : buckets :=
  Buckets (sorted_set (pure_pqc b)) (sorted_set (hybrid b)) (sorted_set (classical b)).

Definition classify_tls_groups (group_names : list string) : buckets :=
  sort_buckets (foldl add_group (Buckets [] [] []) group_names).

(** The identifier shape of a group row: [[A-Za-z][A-Za-z0-9_-]+]. *)
Definition GROUP_NAME_RE : re :=
  RSeqs [RChr is_alpha; RPlus (RChr (fun c => is_alnum c || char_in "_-" c))].

(** One [:]-separated token of a row: the leading word, when it is a name. *)
Definition group_of_token (tok : string) : option string :=
  match words (strip tok) with
  | head :: _ => if test_fullmatch GROUP_NAME_RE head then Some head else None
  | [] => None
  end.

Definition groups_of_line (line : string) : list string :=
  let s := strip line in
  if String.eqb s EmptyString then []
  else if ends_with ":" s && contains " " s then []
  else omap group_of_token (split ":" s).

Definition parse_openssl_tls_groups (text : string) : list string :=
  concat (groups_of_line <$> splitlines text).

(** ** SSH key exchange *)

Definition PQC_SSH_TOKEN_RE : re :=
  RAlts [RSeqs [RLitI "mlkem"; Digits]; RSeqs [RLitI "kyber"; Digits];
         RSeqs [RLitI "sntrup"; Digits]].

Definition CLASSICAL_SSH_TOKEN_RE : re :=
  RAlts [RSeqs [RLitI "nistp"; Digits]; RLitI "x25519"; RLitI "x448";
         RSeqs [RLitI "secp"; Digits; RLitI "r1"]].

Definition CLASSICAL_SSH_KEX_RE : re :=
  RSeqs [Bos;
    RAlts [RSeqs [RLitI "diffie-hellman-group"; RAlts [Digits; RLitI "-exchange"];
                  RLitI "-sha"; Digits];
           RSeqs [RLitI "ecdh-sha2-nistp"; Digits];
           RSeqs [RLitI "curve"; RAlts [RLitI "25519"; RLitI "448"]; RLitI "-sha"; Digits;
                  ROpt (RSeqs [RLit "@"; RPlus NonSpace])]];
    Eos].

Definition has_pqc_ssh_token : string -> bool := test_search PQC_SSH_TOKEN_RE.
Definition has_classical_ssh_token : string -> bool := test_search CLASSICAL_SSH_TOKEN_RE.
Definition is_classical_ssh_kex : string -> bool := test_match CLASSICAL_SSH_KEX_RE.

Definition add_kex (b : buckets) (k : string) : buckets :=
  if has_pqc_ssh_token k then
    if has_classical_ssh_token k then Buckets (pure_pqc b) (k :: hybrid b) (classical b)
    else Buckets (k :: pure_pqc b) (hybrid b) (classical b)
  else if is_classical_ssh_kex k then Buckets (pure_pqc b) (hybrid b) (k :: classical b)
  else b.

Definition classify_ssh_kex (kexes : list string) : buckets :=
  sort_buckets (foldl add_kex (Buckets [] [] []) kexes).

(** The [ssh -Q kex] result. *)
Record ssh_kex_report := SshKexReport {
  sk_count : nat; sk_pqc : list string; sk_groups : buckets }.

Definition parse_ssh_kex (text : string) : ssh_kex_report :=
  let kexes := filter (fun l => l <> EmptyString) (strip <$> splitlines text) in
  SshKexReport (length kexes)
    (sorted_set (filter (fun k => has_pqc_ssh_token k = true) kexes))
    (classify_ssh_kex kexes).

(** ** Versions *)

Definition parse_ssh_version (text : string) : option string :=
  m ← re_search (RSeqs [RLit "OpenSSH_";
        RGrp 1 (RPlus (RChr (fun c => negb (is_space c || Ascii.eqb c ","))))]) text;
  group 1 m.

Definition parse_libreswan_version (text : string) : option string :=
  m ← re_search (RSeqs [RLit "Libreswan"; RPlus Space; RGrp 1 (RPlus NonSpace)]) text;
  group 1 m.

(** [int(m.group(n))] of a group of digits. *)
Definition group_int (n : nat) (m : mtch) : Z :=
  match group n m with Some s => digits_val (chars s) | None => 0 end.

(** [(a, b) >= (c, d)] on tuples. *)
Definition pair_ge (a b c d : Z) : bool := (c <? a) || ((c =? a) && (d <=? b)).

Definition LIBRESWAN_PQC_MIN_VERSION : Z * Z := (5, 4).

Definition libreswan_pqc (version : option string) : bool :=
  match re_match (RSeqs [ROpt (RLit "v"); RGrp 1 Digits; RLit "."; RGrp 2 Digits])
          (default EmptyString version) with
  | None => false
  | Some m => pair_ge (group_int 1 m) (group_int 2 m)
                LIBRESWAN_PQC_MIN_VERSION.1 LIBRESWAN_PQC_MIN_VERSION.2
  end.

Definition NSS_PQC_MIN_VERSION : Z * Z := (3, 108).

Definition parse_nss_version (text : string) : option (Z * Z * Z) :=
  m ← re_search (RSeqs [WordB; RGrp 1 Digits; RLit "."; RGrp 2 Digits;
        ROpt (RSeqs [RLit "."; RGrp 3 Digits]); WordB]) text;
  Some (group_int 1 m, group_int 2 m, group_int 3 m).

Example parse_nss_3_108 : parse_nss_version "NSS 3.108" = Some (3, 108, 0).
Proof. vm_compute. reflexivity. Qed.
Example parse_ssh_99 : parse_ssh_version "OpenSSH_9.9p1, OpenSSL 3.5.5" = Some "9.9p1".
Proof. vm_compute. reflexivity. Qed.
Example classify_mixed :
  classify_tls_groups ["X25519MLKEM768"; "x25519"; "MLKEM1024"; "Foo"; "SECP256R1"; "X25519MLKEM768"]
  = Buckets ["MLKEM1024"] ["X25519MLKEM768"] ["SECP256R1"; "x25519"].
Proof. vm_compute. reflexivity. Qed.
Example parse_groups_both_forms :
  parse_openssl_tls_groups ("TLS 1.3 group support:" +:+ String "010" "secp256r1 (P-256, prime256v1)"
    +:+ String "010" "MLKEM768:X25519MLKEM768")
  = ["secp256r1"; "MLKEM768"; "X25519MLKEM768"].
Proof. vm_compute. reflexivity. Qed.

(** ** Correctness *)

Inductive klass := KPure | KHybrid | KClassical.
#[export] Instance klass_eq_dec : EqDecision klass.
Proof. solve_decision. Defined.

Definition bucket (k : klass) (b : buckets) : list string :=
  match k with KPure => pure_pqc b | KHybrid => hybrid b | KClassical => classical b end.

(** The bucket the code's [if]/[elif] chain picks. *)
Definition tls_class (n : string) : option klass :=
  if is_hybrid_group n then Some KHybrid
  else if is_pure_group n then Some KPure
  else if is_classical_group n then Some KClassical else None.

Definition ssh_class (n : string) : option klass :=
  if has_pqc_ssh_token n then Some (if has_classical_ssh_token n then KHybrid else KPure)
  else if is_classical_ssh_kex n then Some KClassical else None.

(** What both classifiers promise of their result. *)
Record partition (cls : string -> option klass) (names : list string) (b : buckets) : Prop := {
  part_mem : forall k n, n ∈ bucket k b <-> n ∈ names /\ cls n = Some k;
  part_nodup : forall k, NoDup (bucket k b);
  part_sorted : forall k, StronglySorted (not_gt str_lt) (bucket k b) }.

Section Loop.
Context (cls : string -> option klass) (add : buckets -> string -> buckets).
Context (Hadd : forall b n k,
  bucket k (add b n) = if decide (cls n = Some k) then n :: bucket k b else bucket k b).

Lemma loop_mem names b k n :
  n ∈ bucket k (foldl add b names) <-> n ∈ bucket k b \/ (n ∈ names /\ cls n = Some k).
Proof.
  revert b; induction names as [|m names IH]; intros b; simpl.
  - split; [by left | intros [?|[?%not_elem_of_nil _]]; done].
  - rewrite IH, Hadd. case_decide; rewrite !elem_of_cons; naive_solver.
Qed.

Lemma loop_partition names :
  partition cls names (sort_buckets (foldl add (Buckets [] [] []) names)).
Proof.
  assert (forall k b, bucket k (sort_buckets b) = sorted_set (bucket k b)) as Hs
    by (by intros []).
  split; intros k; rewrite ?Hs; auto with pqc.
  intros n. rewrite elem_of_sorted_set, loop_mem.
  split; [intros [H|?]; [by destruct k; apply not_elem_of_nil in H | done] | by right].
Qed.
End Loop.

Lemma partition_unique cls names1 names2 b1 b2 :
  (forall n, n ∈ names1 <-> n ∈ names2) ->
  partition cls names1 b1 -> partition cls names2 b2 -> b1 = b2.
Proof.
  intros Hn P1 P2.
  assert (forall k, bucket k b1 = bucket k b2) as H.
  { intros k. apply (sorted_unique str_lt); [apply str_lt_anti | eapply part_sorted; eassumption..|].
    apply NoDup_Permutation; [eapply part_nodup; eassumption..|].
    intros n. by rewrite (part_mem _ _ _ P1), (part_mem _ _ _ P2), Hn. }
  destruct b1, b2. f_equal; [apply (H KPure) | apply (H KHybrid) | apply (H KClassical)].
Qed.

Lemma add_group_class b n k :
  bucket k (add_group b n) = if decide (tls_class n = Some k) then n :: bucket k b else bucket k b.
Proof.
  unfold add_group, tls_class.
  destruct (is_hybrid_group n), (is_pure_group n), (is_classical_group n), k; done.
Qed.

Lemma add_kex_class b n k :
  bucket k (add_kex b n) = if decide (ssh_class n = Some k) then n :: bucket k b else bucket k b.
Proof.
  unfold add_kex, ssh_class.
  destruct (has_pqc_ssh_token n), (has_classical_ssh_token n), (is_classical_ssh_kex n), k; done.
Qed.

Lemma classify_tls_partition names : partition tls_class names (classify_tls_groups names).
Proof. apply loop_partition, add_group_class. Qed.
Lemma classify_ssh_partition names : partition ssh_class names (classify_ssh_kex names).
Proof. apply loop_partition, add_kex_class. Qed.
#[export] Hint Resolve classify_tls_partition classify_ssh_partition : pqc.

(** *** The shape of the names *)

Definition digits (l : list ascii) : Prop := l <> [] /\ Forall (fun c => is_digit c = true) l.

Lemma lang_Digits l w k : lang Digits l w k <-> digits w.
Proof. apply lang_plus_chr_iff. Qed.

(** What [$] leaves after the match: nothing, or one final newline. *)
Definition end_gap (k : list ascii) : Prop := k = [] \/ k = ["010"%char].

Lemma anchored_match body s :
  test_match (RSeqs [Bos; body; Eos]) s = true <->
  exists w k, chars s = w ++ k /\ end_gap k /\ lang body [] w k.
Proof.
  rewrite test_match_spec. f_equiv; intros w. f_equiv; intros k. f_equiv.
  rewrite lang_seqs_cons. split.
  - intros (? & w1 & -> & [-> _]%lang_bos_iff & Hl).
    apply lang_seqs_cons in Hl as (w2 & w3 & -> & Hb & Hl).
    apply lang_seqs_cons in Hl as (? & ? & -> & [-> Hk]%lang_eos_iff & ->%lang_eps_iff).
    cbn in Hk, Hb. cbn. by rewrite app_nil_r.
  - intros [Hk Hl]. exists [], w. split_and!; [done | by apply lang_bos_iff|].
    apply lang_seqs_cons. exists w, []. split_and!; [by rewrite app_nil_r | done|].
    apply lang_seqs_cons. exists [], []. split_and!; [done | | by apply lang_eps_iff].
    by apply lang_eos_iff.
Qed.

Lemma seq_assoc_match a b c s :
  test_match (RSeqs [Bos; a; b; c]) s = test_match (RSeqs [Bos; RSeq a b; c]) s.
Proof.
  apply eq_iff_eq_true. rewrite !test_match_spec. f_equiv; intros w. f_equiv; intros k.
  f_equiv. rewrite !(lang_seqs_cons Bos). f_equiv; intros w1. f_equiv; intros w2.
  f_equiv. f_equiv. apply lang_seq_assoc.
Qed.

Lemma is_pure_group_iff n :
  is_pure_group n = true <->
  exists ds k, chars n = chars "MLKEM" ++ ds ++ k /\ digits ds /\ end_gap k.
Proof.
  unfold is_pure_group, PURE_PQC_TLS_GROUP_RE. rewrite seq_assoc_match, anchored_match. split.
  - intros (w & k & Hn & Hk & Hl). apply lang_seq_iff in Hl as (w1 & w2 & -> & Hl & Hd).
    apply lang_lit_iff in Hl as ->. apply lang_Digits in Hd.
    exists w2, k. by rewrite app_assoc.
  - intros (ds & k & Hn & Hd & Hk). exists (chars "MLKEM" ++ ds), k. rewrite <-app_assoc.
    split_and!; [done..|]. apply lang_seq_iff. do 2 eexists.
    split_and!; [done | by apply lang_lit_iff | by apply lang_Digits].
Qed.

(** Match a sequence of literals and digit runs read left to right. *)
Lemma lang_lit_cons s rs l w k :
  lang (RSeqs (RLit s :: rs)) l w k <->
  exists w', w = chars s ++ w' /\ lang (RSeqs rs) (reverse (chars s) ++ l) w' k.
Proof.
  rewrite lang_seqs_cons. split.
  - intros (? & w' & -> & ->%lang_lit_iff & H). eauto.
  - intros (w' & -> & H). exists (chars s), w'. split_and!; [done | by apply lang_lit_iff | done].
Qed.

Lemma lang_digits_cons rs l w k :
  lang (RSeqs (Digits :: rs)) l w k <->
  exists ds w', w = ds ++ w' /\ digits ds /\ lang (RSeqs rs) (reverse ds ++ l) w' k.
Proof.
  rewrite lang_seqs_cons. f_equiv; intros ds. f_equiv; intros w'.
  by rewrite lang_Digits.
Qed.

Lemma lang_seqs_nil l w k : lang (RSeqs []) l w k <-> w = [].
Proof. apply lang_eps_iff. Qed.

(** The bodies of the hybrid names, without the anchors. *)
Definition hybrid_body (w : list ascii) : Prop :=
  (exists x ds, (x = "25519" \/ x = "448") /\ digits ds /\
     w = chars "X" ++ chars x ++ chars "MLKEM" ++ ds) \/
  (exists ds1 ds2, digits ds1 /\ digits ds2 /\
     w = chars "SecP" ++ ds1 ++ chars "r1MLKEM" ++ ds2).

Lemma is_hybrid_group_iff n :
  is_hybrid_group n = true <-> exists w k, chars n = w ++ k /\ end_gap k /\ hybrid_body w.
Proof.
  unfold is_hybrid_group, HYBRID_TLS_GROUP_RE. rewrite anchored_match.
  f_equiv; intros w. f_equiv; intros k. f_equiv. f_equiv.
  rewrite lang_alts_iff. unfold hybrid_body. split.
  - intros (r & [->|[->|[]%not_elem_of_nil]%elem_of_cons]%elem_of_cons & Hl).
    + left. apply lang_lit_cons in Hl as (w1 & -> & Hl).
      apply lang_seqs_cons in Hl as (w2 & w3 & -> & Hx & Hl).
      apply lang_lit_cons in Hl as (w4 & -> & Hl).
      apply lang_digits_cons in Hl as (ds & w5 & -> & Hd & ->%lang_seqs_nil).
      apply lang_alts_iff in Hx as (r & [->|[->|[]%not_elem_of_nil]%elem_of_cons]%elem_of_cons & Hx);
        apply lang_lit_iff in Hx as ->; do 2 eexists; rewrite app_nil_r; eauto.
    + right. apply lang_lit_cons in Hl as (w1 & -> & Hl).
      apply lang_digits_cons in Hl as (ds1 & w2 & -> & Hd1 & Hl).
      apply lang_lit_cons in Hl as (w3 & -> & Hl).
      apply lang_digits_cons in Hl as (ds2 & w4 & -> & Hd2 & ->%lang_seqs_nil).
      exists ds1, ds2. by rewrite app_nil_r.
  - intros [(x & ds & Hx & Hd & ->)|(ds1 & ds2 & Hd1 & Hd2 & ->)].
    + eexists; split; [by left|].
      apply lang_lit_cons; eexists; split; [done|].
      apply lang_seqs_cons; do 2 eexists; split_and!; [done | |].
      * apply lang_alts_iff. destruct Hx as [->| ->].
        -- exists (RLit "25519"); split; [by left | by apply lang_lit_iff].
        -- exists (RLit "448"); split; [by right; left | by apply lang_lit_iff].
      * apply lang_lit_cons; eexists; split; [done|].
        apply lang_digits_cons; exists ds, []; by rewrite app_nil_r, lang_seqs_nil.
    + eexists; split; [by right; left|].
      apply lang_lit_cons; eexists; split; [done|].
      apply lang_digits_cons; do 2 eexists; split_and!; [done | done|].
      apply lang_lit_cons; eexists; split; [done|].
      apply lang_digits_cons; exists ds2, []; by rewrite app_nil_r, lang_seqs_nil.
Qed.

(** A hybrid name never has the shape of a pure one, so the order of the
    tests in the loop does not matter for them. *)
Lemma hybrid_not_pure n : is_hybrid_group n = true -> is_pure_group n = false.
Proof.
  intros (w & k & Hn & _ & Hb)%is_hybrid_group_iff. apply not_true_iff_false.
  intros (ds & k' & Hn' & _)%is_pure_group_iff. rewrite Hn in Hn'.
  destruct Hb as [(x & ds' & _ & _ & ->)|(ds1 & ds2 & _ & _ & ->)]; discriminate Hn'.
Qed.

(** *** Tokens of [openssl list -tls-groups] *)

Definition is_name_char (c : ascii) : bool := is_alnum c || char_in "_-" c.

Definition group_name (s : string) : Prop := test_fullmatch GROUP_NAME_RE s = true.

Lemma group_name_iff s :
  group_name s <->
  exists c l, chars s = c :: l /\ is_alpha c = true /\ l <> [] /\
    Forall (fun c => is_name_char c = true) l.
Proof.
  unfold group_name. rewrite test_fullmatch_spec. unfold GROUP_NAME_RE. split.
  - intros Hl. apply lang_seqs_cons in Hl as (w1 & w2 & Hs & (c & -> & Hc)%lang_chr_iff & Hl).
    apply lang_seqs_cons in Hl as (w3 & w4 & -> & [Hne Hw]%lang_plus_chr_iff & ->%lang_seqs_nil).
    rewrite app_nil_r in Hs. exists c, w3. by split_and!.
  - intros (c & l & Hs & Hc & Hne & Hl). rewrite Hs. apply lang_seqs_cons.
    exists [c], l. split_and!; [done | apply lang_chr_iff; eauto|].
    apply lang_seqs_cons. exists l, []. rewrite lang_seqs_nil, app_nil_r.
    split_and!; [done | by apply lang_plus_chr_iff | done].
Qed.

Lemma alpha_name_char c : is_alpha c = true -> is_name_char c = true.
Proof. unfold is_name_char, is_alnum. by intros ->. Qed.

Lemma name_char_plain c :
  is_name_char c = true -> is_space c = false /\ c <> ":"%char.
Proof. destruct c as [[] [] [] [] [] [] [] []]; vm_compute; naive_solver. Qed.

Lemma group_name_chars s : group_name s -> all_chars is_name_char s /\ s <> EmptyString.
Proof.
  intros (c & l & Hs & Hc & _ & Hl)%group_name_iff. unfold all_chars. rewrite Hs. split.
  - constructor; [by apply alpha_name_char | done].
  - by intros ->.
Qed.

Lemma group_name_plain s :
  group_name s -> no_chars is_space s /\ (":"%char ∉ chars s) /\ s <> EmptyString.
Proof.
  intros [Ha Hne]%group_name_chars. split_and!; [| |done].
  - eapply all_chars_no; [|exact Ha]. intros c Hc. by apply name_char_plain.
  - intros Hin. unfold all_chars in Ha. rewrite Forall_forall in Ha.
    apply Ha, name_char_plain in Hin. by destruct Hin.
Qed.

Lemma group_of_name s : group_name s -> group_of_token s = Some s.
Proof.
  intros Hs. destruct (group_name_plain _ Hs) as (Hsp & _ & Hne).
  unfold group_of_token. rewrite strip_id, words_id by done.
  unfold group_name in Hs. by rewrite Hs.
Qed.

Definition colon : string := String ":" EmptyString.

Lemma no_chars_join p sep gs :
  no_chars p sep -> Forall (no_chars p) gs -> no_chars p (str_join sep gs).
Proof.
  intros Hsep. unfold no_chars. rewrite chars_str_join.
  induction 1 as [|g gs Hg Hgs IH]; [constructor|]. destruct gs as [|g' gs]; [done|].
  rewrite fmap_cons, join_chars_cons by done. rewrite !Forall_app. auto.
Qed.

(** One row of names: a colon-separated list, or a single name. *)
Lemma groups_of_row gs :
  gs <> [] -> Forall group_name gs -> groups_of_line (str_join colon gs) = gs.
Proof.
  intros Hne Hgs. assert (no_chars is_space (str_join colon gs)) as Hsp.
  { apply no_chars_join; [by repeat constructor|].
    eapply Forall_impl; [exact Hgs|]. intros g Hg. by apply group_name_plain. }
  unfold groups_of_line. rewrite strip_id by done.
  assert (String.eqb (str_join colon gs) EmptyString = false) as ->.
  { apply String.eqb_neq. intros E. apply (f_equal String.list_ascii_of_string) in E.
    rewrite chars_str_join in E. destruct Hgs as [|g gs Hg _]; [done|].
    destruct (group_name_plain _ Hg) as (_ & _ & Hg'). apply Hg', chars_inj.
    destruct gs; [exact E|]. by apply app_eq_nil in E as [E _]. }
  assert (contains " " (str_join colon gs) = false) as ->.
  { apply contains_false_char. intros Hin. unfold no_chars in Hsp.
    rewrite Forall_forall in Hsp. by apply Hsp in Hin. }
  rewrite andb_false_r.
  unfold colon. rewrite (join_split ":" gs); [|done|].
  - clear Hne Hsp. induction Hgs as [|g gs Hg _ IH]; [done|].
    cbn [omap list_omap]. rewrite group_of_name by done. f_equal. exact IH.
  - eapply Forall_impl; [exact Hgs|]. intros g Hg. by apply group_name_plain.
Qed.

Lemma concat_singletons {A} (f : A -> list A) l :
  Forall (fun x => f x = [x]) l -> concat ((f <$> l) : list (list A)) = l.
Proof. induction 1 as [|x l Hx _ IH]; [done|]. csimpl. by rewrite Hx, IH. Qed.

(** ** Properties *)

(** [classify_tls_groups] splits the input exactly: a name is in a
    bucket if and only if it is in the input and the first regex of the
    hybrid / pure / classical chain that accepts it is that bucket's; every
    bucket is sorted and free of duplicates; and the result does not depend
    on the order or the repetition of the names. *)
Theorem classify_tls_groups_spec names :
  partition tls_class names (classify_tls_groups names) /\
  (forall names', (forall n, n ∈ names <-> n ∈ names') ->
     classify_tls_groups names' = classify_tls_groups names).
Proof.
  split; [auto with pqc|]. intros names' Hn. symmetry.
  eapply partition_unique; [exact Hn | auto with pqc..].
Qed.

Lemma classify_tls_groups_spec_witness :
  classify_tls_groups ["MLKEM768"; "X448MLKEM1024"; "MLKEM768"]
  = classify_tls_groups ["X448MLKEM1024"; "MLKEM768"].
Proof.
  apply (classify_tls_groups_spec ["X448MLKEM1024"; "MLKEM768"]).
  intros n. rewrite !elem_of_cons. tauto.
Defined.

(** The SSH classifier splits the input exactly in the same sense: a
    name with a post-quantum token is hybrid or pure according to its
    classical token, a name with no post-quantum token is classical when it
    is a recognised classical method, and every other name is dropped. *)
Theorem classify_ssh_kex_spec names :
  partition ssh_class names (classify_ssh_kex names) /\
  (forall names', (forall n, n ∈ names <-> n ∈ names') ->
     classify_ssh_kex names' = classify_ssh_kex names).
Proof.
  split; [auto with pqc|]. intros names' Hn. symmetry.
  eapply partition_unique; [exact Hn | auto with pqc..].
Qed.

Lemma classify_ssh_kex_spec_witness :
  classify_ssh_kex ["sntrup761x25519-sha512"; "mlkem768-sha256"; "sntrup761x25519-sha512"]
  = classify_ssh_kex ["mlkem768-sha256"; "sntrup761x25519-sha512"].
Proof.
  apply (classify_ssh_kex_spec ["mlkem768-sha256"; "sntrup761x25519-sha512"]).
  intros n. rewrite !elem_of_cons. tauto.
Defined.

(** The post-quantum TLS buckets hold exactly the input names of the
    documented shapes, up to one final newline: [MLKEM<digits>] in
    [pure_pqc], [X25519MLKEM<digits>], [X448MLKEM<digits>] and
    [SecP<digits>r1MLKEM<digits>] in [hybrid].  No name is in both. *)
Theorem classify_tls_groups_shapes names n :
  (n ∈ pure_pqc (classify_tls_groups names) <->
     n ∈ names /\ exists ds k, chars n = chars "MLKEM" ++ ds ++ k /\ digits ds /\ end_gap k) /\
  (n ∈ hybrid (classify_tls_groups names) <->
     n ∈ names /\ exists w k, chars n = w ++ k /\ end_gap k /\ hybrid_body w).
Proof.
  pose proof (classify_tls_partition names) as P.
  rewrite <-is_pure_group_iff, <-is_hybrid_group_iff. split.
  - rewrite (part_mem _ _ _ P KPure n). f_equiv. unfold tls_class.
    destruct (is_hybrid_group n) eqn:E; [rewrite (hybrid_not_pure _ E); done|].
    by destruct (is_pure_group n), (is_classical_group n).
  - rewrite (part_mem _ _ _ P KHybrid n). f_equiv. unfold tls_class.
    destruct (is_hybrid_group n), (is_pure_group n), (is_classical_group n); done.
Qed.

(** [parse_openssl_tls_groups] reads back both documented formats of
    [openssl list -tls-groups]: the names joined with colons on one line,
    and one name per line, give the list of names in OpenSSL's order. *)
Theorem parse_openssl_tls_groups_roundtrip gs :
  gs <> [] -> Forall group_name gs ->
  parse_openssl_tls_groups (str_join colon gs) = gs /\
  parse_openssl_tls_groups (str_join newline gs) = gs.
Proof.
  intros Hne Hgs. unfold parse_openssl_tls_groups.
  assert (forall g, group_name g -> no_chars is_line_end g) as Hend.
  { intros g Hg. eapply no_chars_weaken; [apply is_line_end_space | by apply group_name_plain]. }
  split.
  - rewrite splitlines_one.
    + cbn. by rewrite app_nil_r, groups_of_row.
    + apply no_chars_join; [by repeat constructor|]. eapply Forall_impl; eauto.
    + intros E. apply (f_equal groups_of_line) in E. rewrite groups_of_row in E by done.
      by apply Hne.
  - rewrite splitlines_join.
    + apply concat_singletons. eapply Forall_impl; [exact Hgs|]. intros g Hg.
      apply (groups_of_row [g]); [done | by constructor].
    + eapply Forall_impl; [exact Hgs|]. intros g Hg.
      split; [by apply Hend | by apply group_name_plain].
Qed.

Lemma parse_openssl_tls_groups_roundtrip_witness :
  parse_openssl_tls_groups "secp256r1:MLKEM768:X25519MLKEM768"
  = ["secp256r1"; "MLKEM768"; "X25519MLKEM768"].
Proof.
  replace "secp256r1:MLKEM768:X25519MLKEM768"
    with (str_join colon ["secp256r1"; "MLKEM768"; "X25519MLKEM768"]) by (vm_compute; reflexivity).
  apply parse_openssl_tls_groups_roundtrip; [done|].
  apply Forall_forall. intros g. rewrite !elem_of_cons.
  intros [->|[->|[->|[]%not_elem_of_nil]]]; vm_compute; reflexivity.
Defined.

(** The class the registry gives a group: pure without a classical
    component, hybrid with one, none for the pre-standard Kyber groups. *)
Definition registry_class (g : tls_group) : option klass :=
  if g_obsolete g then None
  else if g_classical g is Some _ then Some KHybrid else Some KPure.

(** The regexes agree with the registry tables.  Every current group of
    TLS_PQC_GROUPS is classified pure or hybrid according to its classical
    component, every SSH_PQC_KEX method is hybrid, and the two obsolete Kyber
    groups are in no bucket, so a group list that offers them yields no
    registry reference for them although the table keeps an entry. *)
Theorem registry_classified :
  (forall n g, dget n TLS_PQC_GROUPS = Some g -> tls_class n = registry_class g) /\
  (forall n k, dget n SSH_PQC_KEX = Some k -> ssh_class n = Some KHybrid).
Proof.
  assert (Forall (fun kv => tls_class kv.1 = registry_class kv.2) TLS_PQC_GROUPS) as Ht
    by (apply (bool_decide_unpack _); vm_compute; exact I).
  assert (Forall (fun kv => ssh_class kv.1 = Some KHybrid) SSH_PQC_KEX) as Hs
    by (apply (bool_decide_unpack _); vm_compute; exact I).
  rewrite Forall_forall in Ht. rewrite Forall_forall in Hs.
  split; intros n x Hx%dget_elem_of; [by apply Ht in Hx | by apply Hs in Hx].
Qed.

(** [parse_ssh_kex] counts the non-blank lines, and its flat [pqc_kex]
    list is exactly the union of the hybrid and pure buckets of the same
    report. *)
Theorem parse_ssh_kex_consistent text :
  let r := parse_ssh_kex text in
  (forall n, n ∈ sk_pqc r <-> n ∈ hybrid (sk_groups r) \/ n ∈ pure_pqc (sk_groups r)) /\
  (forall n, n ∈ classical (sk_groups r) -> n ∉ sk_pqc r) /\
  sk_count r = length (filter (fun l => l <> EmptyString) (strip <$> splitlines text)).
Proof.
  intros r. unfold parse_ssh_kex in r. subst r. cbn [sk_pqc sk_groups sk_count].
  set (kexes := filter (fun l => l <> EmptyString) _). pose proof (classify_ssh_partition kexes) as P.
  revert P. generalize (classify_ssh_kex kexes). intros b P.
  split_and!; [intros n | intros n | done].
  - pose proof (part_mem _ _ _ P KHybrid n) as Hh. pose proof (part_mem _ _ _ P KPure n) as Hp.
    cbn [bucket] in Hh, Hp. rewrite Hh, Hp, elem_of_sorted_set, list_elem_of_filter. unfold ssh_class.
    destruct (has_pqc_ssh_token n), (has_classical_ssh_token n), (is_classical_ssh_kex n); naive_solver.
  - pose proof (part_mem _ _ _ P KClassical n) as Hc. cbn [bucket] in Hc.
    rewrite Hc, elem_of_sorted_set, list_elem_of_filter. unfold ssh_class. destruct (has_pqc_ssh_token n), (has_classical_ssh_token n); naive_solver.
Qed.
