(* ===== verification/Der.v ===== *)
(** * X.509 certificates: the DER reader ([detect/certs.py])

    [_der_tlv] and everything built on it: OIDs, algorithm identifiers,
    names, times, keys, extensions, the two certificate readers
    ([cert_algorithm_oids], [parse_certificate]) and the trust-store count.
    Positions are integers into one buffer, as in the code; an index outside
    the buffer raises [IndexError], so "never reads past the buffer" is a
    theorem and not an assumption. *)

From S2P Require Import Prelude PyStr PyDict PyVal PyRe PyBytes.
From Stdlib.Strings Require Import Byte.
Open Scope Z_scope.

Definition DERError (msg : string) : exn := Custom "DERError" msg.

(** ** Tables *)

Definition NAME_ATTRS : list (string * string) := [
  ("2.5.4.3", "CN");
  ("2.5.4.5", "serialNumber");
  ("2.5.4.6", "C");
  ("2.5.4.7", "L");
  ("2.5.4.8", "ST");
  ("2.5.4.10", "O");
  ("2.5.4.11", "OU");
  ("1.2.840.113549.1.9.1", "emailAddress");
  ("0.9.2342.19200300.100.1.25", "DC");
  ("0.9.2342.19200300.100.1.1", "UID")].

Definition STRING_TAGS : list (Z * codec) := [
  (12, Utf8);   (19, AsciiC);   (22, AsciiC);   (20, Latin1);   (30, Utf16be);   (28, Utf32be)].

Definition SPKI_ALGORITHMS : list (string * (string * option Z)) := [
  ("1.2.840.113549.1.1.1", ("RSA", None));
  ("1.2.840.113549.1.1.10", ("RSASSA-PSS", None));
  ("1.2.840.10045.2.1", ("EC", None));
  ("1.2.840.10040.4.1", ("DSA", None));
  ("1.3.101.110", ("X25519", (Some 255)));
  ("1.3.101.111", ("X448", (Some 448)));
  ("1.3.101.112", ("Ed25519", (Some 255)));
  ("1.3.101.113", ("Ed448", (Some 448)));
  ("2.16.840.1.101.3.4.3.17", ("ML-DSA-44", None));
  ("2.16.840.1.101.3.4.3.18", ("ML-DSA-65", None));
  ("2.16.840.1.101.3.4.3.19", ("ML-DSA-87", None));
  ("2.16.840.1.101.3.4.3.20", ("SLH-DSA-SHA2-128s", None));
  ("2.16.840.1.101.3.4.3.21", ("SLH-DSA-SHA2-128f", None));
  ("2.16.840.1.101.3.4.3.22", ("SLH-DSA-SHA2-192s", None));
  ("2.16.840.1.101.3.4.3.23", ("SLH-DSA-SHA2-192f", None));
  ("2.16.840.1.101.3.4.3.24", ("SLH-DSA-SHA2-256s", None));
  ("2.16.840.1.101.3.4.3.25", ("SLH-DSA-SHA2-256f", None));
  ("2.16.840.1.101.3.4.3.26", ("SLH-DSA-SHAKE-128s", None));
  ("2.16.840.1.101.3.4.3.27", ("SLH-DSA-SHAKE-128f", None));
  ("2.16.840.1.101.3.4.3.28", ("SLH-DSA-SHAKE-192s", None));
  ("2.16.840.1.101.3.4.3.29", ("SLH-DSA-SHAKE-192f", None));
  ("2.16.840.1.101.3.4.3.30", ("SLH-DSA-SHAKE-256s", None));
  ("2.16.840.1.101.3.4.3.31", ("SLH-DSA-SHAKE-256f", None));
  ("2.16.840.1.101.3.4.4.1", ("ML-KEM-512", None));
  ("2.16.840.1.101.3.4.4.2", ("ML-KEM-768", None));
  ("2.16.840.1.101.3.4.4.3", ("ML-KEM-1024", None))].

Definition EC_CURVES : list (string * (string * Z)) := [
  ("1.2.840.10045.3.1.7", ("P-256", 256));
  ("1.3.132.0.34", ("P-384", 384));
  ("1.3.132.0.35", ("P-521", 521));
  ("1.3.132.0.10", ("secp256k1", 256));
  ("1.3.36.3.3.2.8.1.1.7", ("brainpoolP256r1", 256));
  ("1.3.36.3.3.2.8.1.1.11", ("brainpoolP384r1", 384));
  ("1.3.36.3.3.2.8.1.1.13", ("brainpoolP512r1", 512))].

Definition OID_BASIC_CONSTRAINTS : string := "2.5.29.19".

(** ** The reader *)

(** Read one TLV at [buf[pos:end_]]: (tag, value start, value end). *)
Definition der_tlv (buf : bytes) (pos end_ : Z) : res (Z * Z * Z) :=
  if end_ <? pos + 2 then Raise (DERError "truncated TLV header")
  else
    tag ← byte_at buf pos;
    if Z.land tag 31 =? 31 then Raise (DERError "high-tag-number form not used in certificates")
    else
      first ← byte_at buf (pos + 1);
      let pos := pos + 2 in
      '(len, pos) ←
        (if first <? 128 then Ok (first, pos)
         else
           let n := Z.land first 127 in
           if (n =? 0) || (4 <? n) then Raise (DERError "indefinite or oversized length")
           else if end_ <? pos + n then Raise (DERError "truncated length")
           else Ok (from_bytes (slice buf pos (pos + n)), pos + n));
      if end_ <? pos + len then Raise (DERError "element runs past its container")
      else Ok (tag, pos, pos + len).

(** The loop of [_der_oid]: the arc being read and the arcs so far. *)
Definition oid_step (st : Z * list Z) (b : byte) : Z * list Z :=
  let n := Z.lor (Z.shiftl st.1 7) (Z.land (bval b) 127) in
  if Z.land (bval b) 128 =? 0 then (0, st.2 ++ [n]) else (n, st.2).

Definition show_arcs (arcs : list Z) : string := str_join "." (show_Z <$> arcs).

Definition der_oid_arcs (value : bytes) : res (list Z) :=
  match value, last value with
  | b0 :: rest, Some bl =>
      if negb (Z.land (bval bl) 128 =? 0) then Raise (DERError "empty or unterminated OID")
      else
        let first := bval b0 in
        if negb (Z.land first 128 =? 0) then Raise (DERError "multi-byte first OID arc not supported")
        else
          let top := Z.min (first / 40) 2 in
          Ok (foldl oid_step (0, [top; first - 40 * top]) rest).2
  | _, _ => Raise (DERError "empty or unterminated OID")
  end.

(** Decode the contents of an OBJECT IDENTIFIER to dotted form. *)
Definition der_oid (value : bytes) : res string :=
  arcs ← der_oid_arcs value; Ok (show_arcs arcs).

(** An AlgorithmIdentifier at [pos]: its OID and the position after it. *)
Definition der_algorithm_oid (buf : bytes) (pos end_ : Z) : res (string * Z) :=
  '(tag, start, stop) ← der_tlv buf pos end_;
  if negb (tag =? 48) then Raise (DERError "AlgorithmIdentifier is not a SEQUENCE")
  else
    '(tag, ostart, ostop) ← der_tlv buf start stop;
    if negb (tag =? 6) then Raise (DERError "AlgorithmIdentifier does not start with an OID")
    else oid ← der_oid (slice buf ostart ostop); Ok (oid, stop).

(** The optional [0] EXPLICIT version of a tbsCertificate. *)
Definition skip_version (der : bytes) (pos tstop : Z) : res Z :=
  if pos <? tstop then
    b ← byte_at der pos;
    if b =? 160 then '(_, _, e) ← der_tlv der pos tstop; Ok e else Ok pos
  else Ok pos.

(** [pos = _der_tlv(der, pos, tstop)[2]]. *)
Definition skip_tlv (der : bytes) (tstop pos : Z) : res Z :=
  '(_, _, e) ← der_tlv der pos tstop; Ok e.

(** The start and stop of the tbsCertificate contents. *)
Definition tbs_of (der : bytes) : res (Z * Z) :=
  '(tag, cstart, cstop) ← der_tlv der 0 (blen der);
  if negb (tag =? 48) then Raise (DERError "Certificate is not a SEQUENCE")
  else
    '(tag, pos, tstop) ← der_tlv der cstart cstop;
    if negb (tag =? 48) then Raise (DERError "tbsCertificate is not a SEQUENCE")
    else Ok (pos, tstop).

(** [signature OID, subject public key OID]. *)
Definition cert_algorithm_oids (der : bytes) : res (string * string) :=
  '(pos, tstop) ← tbs_of der;
  pos ← skip_version der pos tstop;
  pos ← skip_tlv der tstop pos;
  '(sig_oid, pos) ← der_algorithm_oid der pos tstop;
  pos ← foldM (fun pos _ => skip_tlv der tstop pos) pos [tt; tt; tt];
  '(tag, sstart, sstop) ← der_tlv der pos tstop;
  if negb (tag =? 48) then Raise (DERError "subjectPublicKeyInfo is not a SEQUENCE")
  else
    '(spki_oid, _) ← der_algorithm_oid der sstart sstop;
    Ok (sig_oid, spki_oid).

(** ** Certificate categories *)

Definition range_re (lo hi : N) : re := RChr (in_range lo hi).

Definition PQC_OID_RE : re :=
  RSeqs [RLit "2.16.840.1.101.3.4.3.";
    RAlts [RSeqs [RLit "1"; range_re 55 57]; RSeqs [RLit "2"; Digit];
           RSeqs [RLit "3"; Set_ "01"]]].

Definition dot_digits : re := RSeqs [RLit "."; RPlus Digit].

Definition HYBRID_OID_RES : list re :=
  [RSeqs [RLit "1.3.6.1.4.1.42235.1.7"; RPlus dot_digits];
   RSeqs [RLit "1.3.9999"; dot_digits; dot_digits; dot_digits; RStar true dot_digits]].

Definition COMPOSITE_SIG_OID_RE : re :=
  RSeqs [RLit "1.3.6.1.5.5.7.6.";
    RAlts [RSeqs [RLit "3"; range_re 55 57]; RSeqs [RLit "4"; Digit];
           RSeqs [RLit "5"; range_re 48 52]]].

Definition is_composite_oid : string -> bool := test_fullmatch COMPOSITE_SIG_OID_RE.
Definition is_pqc_oid : string -> bool := test_fullmatch PQC_OID_RE.
Definition any_hybrid (oids : list string) : bool :=
  existsb (fun p => existsb (test_fullmatch p) oids) HYBRID_OID_RES.

Inductive category := Classical | HybridComposite | PurePqc.
#[export] Instance category_eq_dec : EqDecision category.
Proof. solve_decision. Defined.

Definition category_name (c : category) : string :=
  match c with
  | Classical => "classical" | HybridComposite => "hybrid_composite" | PurePqc => "pure_pqc"
  end.

Definition categorise_cert_oids (oids : list string) : category :=
  if existsb is_composite_oid oids then HybridComposite
  else if existsb is_pqc_oid oids then PurePqc
  else Classical.

(** ** Names and times *)

Definition der_string (tag : Z) (value : bytes) : string :=
  match dget tag STRING_TAGS with
  | None => bytes_hex value
  | Some enc => decode enc value
  end.

Definition must_escape (ch : ascii) (i len : nat) : bool :=
  char_in ",+\<>;=" ch || Ascii.eqb ch "034" ||
  (Ascii.eqb ch "#" && Nat.eqb i 0) ||
  (Ascii.eqb ch " " && (Nat.eqb i 0 || Nat.eqb i (len - 1))).

Fixpoint escape_chars (len i : nat) (l : list ascii) : list ascii :=
  match l with
  | [] => []
  | ch :: l' => (if must_escape ch i len then ["\"%char; ch] else [ch]) ++ escape_chars len (S i) l'
  end.
Definition rfc4514_escape (v : string) : string :=
  let l := chars v in str_of (escape_chars (length l) 0 l).

Definition out_of_fuel : exn := Custom "OutOfFuel" EmptyString.

(** One AttributeTypeAndValue, rendered. *)
Definition der_attribute (buf : bytes) (apos sstop : Z) : res (string * Z) :=
  '(tag, astart, astop) ← der_tlv buf apos sstop;
  if negb (tag =? 48) then Raise (DERError "AttributeTypeAndValue is not a SEQUENCE")
  else
    '(otag, ostart, ostop) ← der_tlv buf astart astop;
    if negb (otag =? 6) then Raise (DERError "attribute type is not an OID")
    else
      oid ← der_oid (slice buf ostart ostop);
      '(vtag, vstart, vstop) ← der_tlv buf ostop astop;
      Ok (default oid (dget oid NAME_ATTRS) +:+ "=" +:+
            rfc4514_escape (der_string vtag (slice buf vstart vstop)), astop).

(** A loop [while pos < stop] whose body returns an item and the new
    position.  The fuel is the number of bytes, and every element takes two. *)
Fixpoint der_loop {A} (fuel : nat) (body : Z -> res (A * Z)) (pos stop : Z) : res (list A) :=
  match fuel with
  | O => Raise out_of_fuel
  | S fuel =>
      if pos <? stop then
        '(x, pos) ← body pos;
        xs ← der_loop fuel body pos stop;
        Ok (x :: xs)
      else Ok []
  end.

Definition loop_fuel (buf : bytes) : nat := S (length buf).

Definition der_rdn (buf : bytes) (pos stop : Z) : res (string * Z) :=
  '(tag, sstart, sstop) ← der_tlv buf pos stop;
  if negb (tag =? 49) then Raise (DERError "RDN is not a SET")
  else
    parts ← der_loop (loop_fuel buf) (fun apos => der_attribute buf apos sstop) sstart sstop;
    Ok (str_join "+" parts, sstop).

(** An X.501 Name as an RFC 4514 string, last RDN first. *)
Definition der_name (buf : bytes) (start stop : Z) : res string :=
  rdns ← der_loop (loop_fuel buf) (fun pos => der_rdn buf pos stop) start stop;
  Ok (str_join "," (reverse rdns)).

(** [datetime.strptime(s, "%Y%m%d%H%M%S")]: year, month, day, hour, minute,
    second of a date that exists; [None] where Python raises ValueError. *)
Definition d_cls (lo hi : N) : re := range_re lo hi.
Definition TIME_RE : re :=
  RSeqs [RGrp 1 (RTimes 4 Digit REps);
    RGrp 2 (RAlts [RSeqs [RLit "1"; d_cls 48 50]; RSeqs [RLit "0"; d_cls 49 57]; d_cls 49 57]);
    RGrp 3 (RAlts [RSeqs [RLit "3"; d_cls 48 49]; RSeqs [d_cls 49 50; Digit];
                   RSeqs [RLit "0"; d_cls 49 57]; d_cls 49 57; RSeqs [RLit " "; d_cls 49 57]]);
    RGrp 4 (RAlts [RSeqs [RLit "2"; d_cls 48 51]; RSeqs [d_cls 48 49; Digit]; Digit]);
    RGrp 5 (RAlts [RSeqs [d_cls 48 53; Digit]; Digit]);
    RGrp 6 (RAlts [RSeqs [RLit "6"; d_cls 48 49]; RSeqs [d_cls 48 53; Digit]; Digit])].

Definition is_leap (y : Z) : bool :=
  ((y mod 4 =? 0) && negb (y mod 100 =? 0)) || (y mod 400 =? 0).
Definition days_in_month (y m : Z) : Z :=
  if m =? 2 then (if is_leap y then 29 else 28)
  else if (m =? 4) || (m =? 6) || (m =? 9) || (m =? 11) then 30 else 31.

Record datetime := DateTime { dt_y : Z; dt_mo : Z; dt_d : Z; dt_h : Z; dt_mi : Z; dt_s : Z }.

Definition num_group (n : nat) (m : mtch) : Z :=
  default 0 (s ← group n m; int_of_str s).

Definition strptime (s : string) : option datetime :=
  m ← re_match TIME_RE s;
  if negb (String.eqb (m_text m) s) then None
  else
    let g n := num_group n m in
    let dt := DateTime (g 1%nat) (g 2%nat) (g 3%nat) (g 4%nat) (g 5%nat) (g 6%nat) in
    if (1 <=? dt_y dt) && (dt_d dt <=? days_in_month (dt_y dt) (dt_mo dt)) && (dt_s dt <=? 59)
    then Some dt else None.

(** A number padded with zeros to [n] digits. *)
Definition zpad (n : Z) (z : Z) : string :=
  let s := show_Z z in repeat_char "0" (n - Z.of_nat (String.length s)) +:+ s.

Definition isoformat (dt : datetime) : string :=
  zpad 4 (dt_y dt) +:+ "-" +:+ zpad 2 (dt_mo dt) +:+ "-" +:+ zpad 2 (dt_d dt) +:+ "T" +:+
  zpad 2 (dt_h dt) +:+ ":" +:+ zpad 2 (dt_mi dt) +:+ ":" +:+ zpad 2 (dt_s dt) +:+ "+00:00".

(** UTCTime / GeneralizedTime to ISO 8601.  [int(text[:2])] of a UTCTime is
    outside the code's [try], so its ValueError escapes as it is. *)
Definition der_time (tag : Z) (value : bytes) : res string :=
  let text := decode AsciiC value in
  if negb (ends_with "Z" text) then Raise (DERError "certificate time is not in UTC (Z) form")
  else
    text ←
      (if tag =? 23 then
         yy ← py_int (VStr (str_take 2 text));
         Ok ((if 50 <=? yy then "19" else "20") +:+ text)
       else if negb (tag =? 24) then Raise (DERError "validity time has an unknown tag")
       else Ok text);
    match strptime (str_take 14 text) with
    | Some dt => Ok (isoformat dt)
    | None => Raise (DERError ("bad certificate time " +:+ str_repr text))
    end.

(** ** Keys and extensions *)

Definition der_int_bits (value : bytes) : Z := bit_length (from_bytes value).

(** The modulus size of an RSAPublicKey in the subjectPublicKey BIT STRING. *)
Definition rsa_bits (buf : bytes) (astop stop : Z) : res (option Z) :=
  '(btag, bstart, bstop) ← der_tlv buf astop stop;
  if (btag =? 3) && (bstart <? bstop) then
    '(rtag, rstart, rstop) ← der_tlv buf (bstart + 1) bstop;
    if rtag =? 48 then
      '(mtag, mstart, mstop) ← der_tlv buf rstart rstop;
      Ok (if mtag =? 2 then Some (der_int_bits (slice buf mstart mstop)) else None)
    else Ok None
  else Ok None.

(** (algorithm OID, name, key size) of a SubjectPublicKeyInfo body. *)
Definition spki_key (buf : bytes) (start stop : Z) : res (string * string * option Z) :=
  '(tag, astart, astop) ← der_tlv buf start stop;
  if negb (tag =? 48) then Raise (DERError "SPKI algorithm is not a SEQUENCE")
  else
    '(otag, ostart, ostop) ← der_tlv buf astart astop;
    oid ← der_oid (slice buf ostart ostop);
    let '(name, size) := default (oid, None) (dget oid SPKI_ALGORITHMS) in
    if String.eqb oid "1.2.840.10045.2.1" && (ostop <? astop) then
      '(ptag, pstart, pstop) ← der_tlv buf ostop astop;
      if ptag =? 6 then
        curve ← der_oid (slice buf pstart pstop);
        Ok (match dget curve EC_CURVES with
            | Some (cname, bits) => (oid, "EC " +:+ cname, Some bits)
            | None => (oid, "EC " +:+ curve, None)
            end)
      else Ok (oid, name, size)
    else if String.eqb name "RSA" || String.eqb name "RSASSA-PSS" then
      bits ← rsa_bits buf astop stop;
      Ok (oid, name, if bits is Some _ then bits else size)
    else Ok (oid, name, size).

(** One Extension: its OID, and its extnValue when it is an OCTET STRING. *)
Definition der_extension (buf : bytes) (pos end_ : Z) : res (string * option bytes * Z) :=
  '(_, estart, estop) ← der_tlv buf pos end_;
  '(_, ostart, ostop) ← der_tlv buf estart estop;
  oid ← der_oid (slice buf ostart ostop);
  '(ntag, nstart, nstop) ← der_tlv buf ostop estop;
  '(ntag, nstart, nstop) ←
    (if ntag =? 1 then der_tlv buf nstop estop else Ok (ntag, nstart, nstop));
  Ok (oid, if ntag =? 4 then Some (slice buf nstart nstop) else None, estop).

Definition add_extension (out : list (string * bytes)) (x : string * option bytes) :=
  match x.2 with Some v => dset x.1 v out | None => out end.

Definition extensions (buf : bytes) (start stop : Z) : res (list (string * bytes)) :=
  '(tag, pos, end_) ← der_tlv buf start stop;
  if negb (tag =? 48) then Raise (DERError "Extensions is not a SEQUENCE")
  else
    xs ← der_loop (loop_fuel buf) (fun pos => der_extension buf pos end_) pos end_;
    Ok (foldl add_extension [] xs).

(** basicConstraints cA=TRUE. *)
Definition is_ca (exts : list (string * bytes)) : res bool :=
  match dget OID_BASIC_CONSTRAINTS exts with
  | None | Some [] => Ok false
  | Some bc =>
      '(tag, start, stop) ← der_tlv bc 0 (blen bc);
      if negb (tag =? 48) || (stop <=? start) then Ok false
      else
        '(btag, bstart, bstop) ← der_tlv bc start stop;
        if (btag =? 1) && (bstart <? bstop) then
          b ← byte_at bc bstart; Ok (negb (b =? 0))
        else Ok false
  end.

Record certificate := Certificate {
  c_sha256 : string; c_serial : string; c_subject : string; c_issuer : string;
  c_not_before : string; c_not_after : string; c_category : category;
  c_signature_algorithm_oid : string; c_key_algorithm : string;
  c_key_algorithm_oid : string; c_key_size : option Z;
  c_is_ca : bool; c_self_signed : bool; c_role : string }.

(** The fields after the public key: [1] and [2] are skipped, the last [3]
    gives the extensions. *)
Definition trailing_field (der : bytes) (pos tstop : Z) : res (option (list (string * bytes)) * Z) :=
  '(etag, estart, estop) ← der_tlv der pos tstop;
  if etag =? 163 then e ← extensions der estart estop; Ok (Some e, estop)
  else Ok (None, estop).

Definition last_extensions (l : list (option (list (string * bytes)))) : list (string * bytes) :=
  foldl (fun acc x => if x is Some e then e else acc) [] l.

Definition parse_certificate (der : bytes) : res certificate :=
  '(pos, tstop) ← tbs_of der;
  pos ← skip_version der pos tstop;
  '(stag, sstart, sstop) ← der_tlv der pos tstop;
  if negb (stag =? 2) then Raise (DERError "serialNumber is not an INTEGER") else
  let serial := bytes_hex (slice der sstart sstop) in
  '(sig_oid, pos) ← der_algorithm_oid der sstop tstop;
  '(itag, istart, istop) ← der_tlv der pos tstop;
  if negb (itag =? 48) then Raise (DERError "issuer is not a SEQUENCE") else
  issuer ← der_name der istart istop;
  '(vtag, vstart, vstop) ← der_tlv der istop tstop;
  if negb (vtag =? 48) then Raise (DERError "validity is not a SEQUENCE") else
  '(t1, b1, e1) ← der_tlv der vstart vstop;
  '(t2, b2, e2) ← der_tlv der e1 vstop;
  not_before ← der_time t1 (slice der b1 e1);
  not_after ← der_time t2 (slice der b2 e2);
  '(jtag, jstart, jstop) ← der_tlv der vstop tstop;
  if negb (jtag =? 48) then Raise (DERError "subject is not a SEQUENCE") else
  subject ← der_name der jstart jstop;
  '(ktag, kstart, kstop) ← der_tlv der jstop tstop;
  if negb (ktag =? 48) then Raise (DERError "subjectPublicKeyInfo is not a SEQUENCE") else
  '(key_oid, key_name, key_size) ← spki_key der kstart kstop;
  fields ← der_loop (loop_fuel der) (fun pos => trailing_field der pos tstop) kstop tstop;
  let exts := last_extensions fields in
  ca ← is_ca exts;
  let self_signed := String.eqb subject issuer in
  Ok (Certificate (sha256_hex der) serial subject issuer not_before not_after
        (categorise_cert_oids [sig_oid; key_oid]) sig_oid key_name key_oid key_size ca self_signed
        (if ca || (self_signed && negb (dmem OID_BASIC_CONSTRAINTS exts)) then "ca" else "leaf")).
