(* ===== verification/DerTheory.v ===== *)
(** * The DER reader is total, stays in its buffer and inverts the encoding

    [safe_*] lemmas: every reader of [Der] returns positions inside its
    container or raises [DERError] (only a UTCTime can raise a plain
    [ValueError]).  [*_at] lemmas: at a position where the buffer holds the
    DER encoding of a value, the reader returns that value; they compose to
    the round trip of a whole certificate. *)

From S2P Require Import Prelude PyStr PyDict PyVal PyRe PyBytes Der.
From Stdlib.Strings Require Import Byte.
Open Scope Z_scope.

(** ** Safety *)

Definition is_der_error (e : exn) : Prop := exists msg, e = DERError msg.

(** A TLV of the container [[pos, end_)]: its header takes at least two
    bytes and its value ends inside the container. *)
Definition tlv_in (pos end_ : Z) (r : Z * Z * Z) : Prop :=
  let '(tag, s, e) := r in 0 <= tag < 256 /\ pos + 2 <= s /\ s <= e /\ e <= end_.

Lemma safe_der_raise {A} (P : A -> Prop) msg : safe is_der_error P (Raise (DERError msg)).
Proof. by exists msg. Qed.
#[export] Hint Resolve safe_der_raise : pqc.

Ltac der_step :=
  match goal with
  | |- safe _ _ (Raise (DERError _)) => apply safe_der_raise
  | |- safe _ _ (if ?b then _ else _) => destruct b eqn:?
  | |- safe _ _ (match ?x with (_, _) => _ end) => destruct x
  end.

Lemma safe_der_tlv buf pos end_ :
  0 <= pos -> end_ <= blen buf -> safe is_der_error (tlv_in pos end_) (der_tlv buf pos end_).
Proof.
  intros Hp He. unfold der_tlv. der_step; [apply safe_der_raise|].
  destruct (byte_at_ok buf pos) as (tag & -> & Ht); [lia|].
  cbn [mbind res_bind]. der_step; [apply safe_der_raise|].
  destruct (byte_at_ok buf (pos + 1)) as (first & -> & Hf); [lia|]. cbn [mbind res_bind].
  apply (safe_bind _ (fun x => 0 <= x.1 /\ pos + 2 <= x.2)).
  - repeat der_step; try apply safe_der_raise; simpl; [lia|].
    split; [apply from_bytes_range|].
    assert (0 <= Z.land first 127) by (apply Z.land_nonneg; lia). lia.
  - intros [len p] [H1 H2]. simpl in H1, H2. der_step; [apply safe_der_raise|]. simpl. lia.
Qed.

(** A reader that returns a position of its container. *)
Definition pos_in (pos end_ p : Z) : Prop := pos + 2 <= p <= end_.

Lemma safe_der_oid_arcs v : safe is_der_error (fun _ => True) (der_oid_arcs v).
Proof.
  unfold der_oid_arcs. destruct v as [|b v]; [apply safe_der_raise|].
  destruct (last (b :: v)); [|apply safe_der_raise]. repeat der_step; auto with pqc. exact I.
Qed.

Lemma safe_der_oid v : safe is_der_error (fun _ => True) (der_oid v).
Proof. eapply safe_bind; [apply safe_der_oid_arcs|]. done. Qed.

(** Reads one TLV, naming its parts; the bounds stay in the context. *)
Tactic Notation "tlv" simple_intropattern(p) :=
  eapply safe_bind;
    [apply safe_der_tlv; [lia|lia] |
     intros p (? & ? & ? & ?); cbn beta iota; try (der_step; [apply safe_der_raise|])].
Tactic Notation "oid" ident(x) := eapply safe_bind; [apply safe_der_oid | intros x _].

Lemma safe_der_algorithm_oid buf pos end_ :
  0 <= pos -> end_ <= blen buf ->
  safe is_der_error (fun r => pos_in pos end_ r.2) (der_algorithm_oid buf pos end_).
Proof.
  intros. unfold der_algorithm_oid.
  tlv [[tag s] e]. tlv [[tag' s'] e']. oid o. simpl. unfold pos_in. lia.
Qed.

Lemma safe_skip_tlv buf pos end_ :
  0 <= pos -> end_ <= blen buf ->
  safe is_der_error (pos_in pos end_) (skip_tlv buf end_ pos).
Proof. intros. unfold skip_tlv. tlv [[tag s] e]. simpl. unfold pos_in. lia. Qed.

Lemma safe_skip_version buf pos end_ :
  0 <= pos -> end_ <= blen buf ->
  safe is_der_error (fun p => p = pos \/ pos_in pos end_ p) (skip_version buf pos end_).
Proof.
  intros. unfold skip_version. destruct (pos <? end_) eqn:?; [|by left].
  destruct (byte_at_ok buf pos) as (b & -> & _); [lia|]. cbn [mbind res_bind].
  der_step; [|by left]. tlv [[tag s] e]. right. unfold pos_in. lia.
Qed.

(** The loops: a body that advances inside the container terminates within
    the fuel, so running out of fuel is not a result. *)
Lemma safe_der_loop {A} (E : exn -> Prop) (P : A -> Prop) body stop fuel pos :
  (forall p, pos <= p < stop -> safe E (fun r => P r.1 /\ p < r.2) (body p)) ->
  Z.max 0 (stop - pos) < Z.of_nat fuel ->
  safe E (Forall P) (der_loop fuel body pos stop).
Proof.
  revert pos; induction fuel as [|fuel IH]; intros pos Hb Hf; simpl.
  - lia.
  - destruct (pos <? stop) eqn:?; [|constructor].
    eapply safe_bind; [apply Hb; lia|]. intros [x p] [Hx Hp]; simpl in Hx, Hp.
    eapply safe_bind; [apply IH|intros xs Hxs; by constructor].
    + intros q Hq. apply Hb. lia.
    + lia.
Qed.

Lemma safe_der_attribute buf apos sstop :
  0 <= apos -> sstop <= blen buf ->
  safe is_der_error (fun r => True /\ apos < r.2) (der_attribute buf apos sstop).
Proof.
  intros. unfold der_attribute.
  tlv [[tag s] e]. tlv [[tag' s'] e']. oid o. tlv [[tag'' s''] e'']. simpl. lia.
Qed.

Ltac loop := eapply safe_bind; [eapply (safe_der_loop is_der_error (fun _ => True)) |].

Lemma safe_der_rdn buf pos stop :
  0 <= pos -> stop <= blen buf ->
  safe is_der_error (fun r => True /\ pos < r.2) (der_rdn buf pos stop).
Proof.
  intros. unfold der_rdn. tlv [[tag s] e]. loop.
  - intros. apply safe_der_attribute; lia.
  - unfold loop_fuel, blen in *. lia.
  - intros parts _. simpl. lia.
Qed.

Lemma safe_der_name buf start stop :
  0 <= start -> stop <= blen buf ->
  safe is_der_error (fun _ => True) (der_name buf start stop).
Proof.
  intros. unfold der_name. loop.
  - intros. apply safe_der_rdn; lia.
  - unfold loop_fuel, blen in *. lia.
  - done.
Qed.

Lemma safe_rsa_bits buf astop stop :
  0 <= astop -> stop <= blen buf -> safe is_der_error (fun _ => True) (rsa_bits buf astop stop).
Proof.
  intros. unfold rsa_bits. tlv [[tag s] e]. destruct (_ && _) eqn:?; [|exact I].
  tlv [[tag' s'] e']. destruct (tag' =? 48); [|exact I]. tlv [[t'' s''] e'']. exact I.
Qed.

Lemma safe_spki_key buf start stop :
  0 <= start -> stop <= blen buf -> safe is_der_error (fun _ => True) (spki_key buf start stop).
Proof.
  intros. unfold spki_key. tlv [[tag s] e]. tlv [[tag' s'] e']. oid o.
  destruct (default _ _) as [name size]. destruct (_ && _) eqn:?.
  - tlv [[t s''] e'']. destruct (t =? 6); [|exact I]. oid c. exact I.
  - destruct (_ || _); [|exact I].
    eapply safe_bind; [apply safe_rsa_bits; lia|]. intros bits _. exact I.
Qed.

Lemma safe_der_extension buf pos end_ :
  0 <= pos -> end_ <= blen buf ->
  safe is_der_error (fun r => True /\ pos < r.2) (der_extension buf pos end_).
Proof.
  intros. unfold der_extension. tlv [[tag s] e]. tlv [[tag' s'] e']. oid o.
  tlv [[t s''] e''].
  eapply (safe_bind _ (fun _ => True)).
  - destruct (t =? 1); [|exact I]. eapply safe_mono; [apply safe_der_tlv; lia|done..].
  - intros [[t3 s3] e3] _. simpl. lia.
Qed.

Lemma safe_extensions buf start stop :
  0 <= start -> stop <= blen buf -> safe is_der_error (fun _ => True) (extensions buf start stop).
Proof.
  intros. unfold extensions. tlv [[tag s] e]. loop.
  - intros. apply safe_der_extension; lia.
  - unfold loop_fuel, blen in *. lia.
  - done.
Qed.

Lemma safe_is_ca exts : safe is_der_error (fun _ => True) (is_ca exts).
Proof.
  unfold is_ca. destruct (dget _ _) as [[|b bc]|]; [exact I| |exact I].
  generalize (b :: bc). intros v. tlv [[tag s] e]. destruct (_ || _) eqn:?; [exact I|].
  tlv [[t s'] e']. destruct (_ && _) eqn:?; [|exact I].
  destruct (byte_at_ok v s') as (z & -> & _); [lia|]. exact I.
Qed.

(** A UTCTime may also raise the ValueError of [int(text[:2])]. *)
Definition is_value_error (e : exn) : Prop := exists msg, e = ValueError msg.
Definition der_or_value (e : exn) : Prop := is_der_error e \/ is_value_error e.

Lemma safe_der_time tag v : safe der_or_value (fun _ => True) (der_time tag v).
Proof.
  assert (forall A (P : A -> Prop) m, safe der_or_value P (Raise (DERError m))) as Hd.
  { intros. left. by eexists. }
  unfold der_time. destruct (negb _); [apply Hd|].
  eapply (safe_bind _ (fun _ => True)).
  - destruct (tag =? 23).
    + eapply (safe_bind _ (fun _ => True)); [|done].
      simpl. destruct (int_of_str _); [exact I|]. right. by eexists.
    + destruct (negb (tag =? 24)); [apply Hd | exact I].
  - intros text _. destruct (strptime _); [exact I | apply Hd].
Qed.

Lemma safe_tbs_of der :
  safe is_der_error (fun r => 4 <= r.1 /\ r.1 <= r.2 /\ r.2 <= blen der) (tbs_of der).
Proof.
  unfold tbs_of. tlv [[tag s] e]. tlv [[tag' s'] e']. simpl. lia.
Qed.

Lemma safe_trailing_field der pos tstop :
  0 <= pos -> tstop <= blen der ->
  safe is_der_error (fun r => True /\ pos < r.2) (trailing_field der pos tstop).
Proof.
  intros. unfold trailing_field. tlv [[tag s] e]. destruct (tag =? 163); [|simpl; lia].
  eapply safe_bind; [apply safe_extensions; lia|]. intros x _. simpl. lia.
Qed.

Lemma safe_cert_algorithm_oids der :
  safe is_der_error (fun _ => True) (cert_algorithm_oids der).
Proof.
  unfold cert_algorithm_oids.
  eapply safe_bind; [apply safe_tbs_of|]. intros [pos tstop] (? & ? & ?); cbn [fst snd] in *.
  eapply safe_bind; [apply safe_skip_version; lia|]. intros p1 Hp1. unfold pos_in in *.
  eapply safe_bind; [apply safe_skip_tlv; lia|]. intros p2 Hp2. unfold pos_in in *.
  eapply safe_bind; [apply safe_der_algorithm_oid; lia|]. intros [o p3] Hp3. unfold pos_in in *. cbn [fst snd] in *.
  eapply (safe_bind _ (fun p => p3 <= p)).
  - apply (safe_foldM is_der_error (fun p => p3 <= p) (fun pos _ => skip_tlv der tstop pos)); [lia|].
    intros p [] _ Hp. eapply safe_mono; [apply safe_skip_tlv; lia| |done].
    unfold pos_in. lia.
  - intros p4 Hp4. tlv [[tag s] e].
    eapply safe_bind; [apply safe_der_algorithm_oid; lia|]. by intros [? ?] _.
Qed.

Lemma safe_der_to_value {A} (P : A -> Prop) m : safe is_der_error P m -> safe der_or_value P m.
Proof. intros H. eapply safe_mono; [exact H | done | by left]. Qed.

Tactic Notation "tlv_v" simple_intropattern(p) :=
  eapply safe_bind;
    [apply safe_der_to_value, safe_der_tlv; [lia|lia] |
     intros p (? & ? & ? & ?); cbn beta iota;
     try match goal with |- safe _ _ (if ?b then _ else _) =>
       destruct b; [left; by eexists|] end].

Lemma safe_parse_certificate der :
  safe der_or_value (fun _ => True) (parse_certificate der).
Proof.
  unfold parse_certificate.
  eapply safe_bind; [apply safe_der_to_value, safe_tbs_of|].
  intros [pos tstop] (? & ? & ?); cbn [fst snd] in *.
  eapply safe_bind; [apply safe_der_to_value, safe_skip_version; lia|]. intros p1 Hp1. unfold pos_in in *.
  tlv_v [[t s] e].
  eapply safe_bind; [apply safe_der_to_value, safe_der_algorithm_oid; lia|].
  intros [o p3] Hp3. unfold pos_in in *. cbn [fst snd] in *.
  tlv_v [[t1 s1] e1].
  eapply safe_bind; [apply safe_der_to_value, safe_der_name; lia|]. intros issuer _.
  tlv_v [[t2 s2] e2]. tlv_v [[t3 s3] e3]. tlv_v [[t4 s4] e4].
  eapply safe_bind; [apply safe_der_time|]. intros nb _.
  eapply safe_bind; [apply safe_der_time|]. intros na _.
  tlv_v [[t5 s5] e5].
  eapply safe_bind; [apply safe_der_to_value, safe_der_name; lia|]. intros subject _.
  tlv_v [[t6 s6] e6].
  eapply safe_bind; [apply safe_der_to_value, safe_spki_key; lia|]. intros [[ko kn] ks] _.
  eapply safe_bind.
  - apply safe_der_to_value, (safe_der_loop is_der_error (fun _ => True)).
    + intros. apply safe_trailing_field; lia.
    + unfold loop_fuel, blen in *. lia.
  - intros fields _. eapply safe_bind; [apply safe_der_to_value, safe_is_ca|]. done.
Qed.

(** ** The numbered OID arcs *)

Lemma ascii_forall (P : ascii -> bool) :
  forallb (fun n => P (ascii_of_nat n)) (seq 0 256) = true -> forall c, P c = true.
Proof.
  rewrite forallb_forall. intros H c. rewrite <-(ascii_nat_embedding c). apply H.
  apply in_seq. pose proof (nat_ascii_bounded c). lia.
Qed.

Lemma lang_two p q l w k :
  lang (RSeqs [RChr p; RChr q]) l w k <-> exists c d, w = [c; d] /\ p c = true /\ q d = true.
Proof.
  rewrite lang_seqs_cons. setoid_rewrite lang_seqs_cons. setoid_rewrite lang_chr_iff. simpl.
  setoid_rewrite lang_eps_iff. split.
  - intros (? & ? & -> & (c & -> & Hc) & ? & ? & -> & (d & -> & Hd) & ->). eauto.
  - intros (c & d & -> & Hc & Hd). exists [c], [d]. split; [done|]. split; [eauto|].
    exists [d], []. eauto 10.
Qed.

Lemma lang_lit_chr a q l w k :
  lang (RSeqs [RLit (String a EmptyString); RChr q]) l w k <-> exists d, w = [a; d] /\ q d = true.
Proof.
  assert (lang (RSeqs [RLit (String a EmptyString); RChr q]) l w k <->
          lang (RSeqs [RChr (Ascii.eqb a); RChr q]) l w k) as ->.
  - rewrite !(lang_seqs_cons). f_equiv; intros w1. f_equiv; intros w2.
    rewrite lang_lit_iff, lang_chr_iff. f_equiv. f_equiv.
    split; [intros ->; exists a; by rewrite Ascii.eqb_refl|].
    by intros (y & -> & ->%Ascii.eqb_eq).
  - rewrite lang_two. split.
    + intros (c & d & -> & ->%Ascii.eqb_eq & Hd). eauto.
    + intros (d & -> & Hd). exists a, d. by rewrite Ascii.eqb_refl.
Qed.

Lemma fullmatch_lit_alts pre rs s :
  test_fullmatch (RSeqs [RLit pre; RAlts rs]) s = true <->
  exists r w, r ∈ rs /\ s = pre +:+ str_of w /\ lang r (reverse (chars pre)) w [].
Proof.
  rewrite test_fullmatch_spec, lang_seqs_cons. split.
  - intros (w1 & w2 & Hs & ->%lang_lit_iff & Hr).
    apply lang_seqs_cons in Hr as (w3 & w4 & -> & Hr & ->%lang_eps_iff).
    apply lang_alts_iff in Hr as (r & Hin & Hr). rewrite !app_nil_r in *.
    exists r, w3. split_and!; [done| |done].
    apply chars_inj. by rewrite chars_app, chars_str_of.
  - intros (r & w & Hin & -> & Hr). exists (chars pre), w.
    rewrite chars_app, chars_str_of, lang_lit_iff. split_and!; [done..|].
    apply lang_seqs_cons. exists w, []. rewrite !app_nil_r. split_and!; [done| |by apply lang_eps_iff].
    apply lang_alts_iff. eauto.
Qed.

(** [numbered pre lo n]: the OIDs [pre][lo], ..., [n] of them. *)
Definition numbered (pre : string) (lo n : Z) : list string :=
  (fun i => pre +:+ show_Z i) <$> seqZ lo n.

(** Every digit of one alternative gives a listed OID. *)
Lemma alt_listed pre a q (l : list string) :
  forallb (fun n => let d := ascii_of_nat n in
    negb (q d) || bool_decide (pre +:+ str_of [a; d] ∈ l)) (seq 0 256) = true ->
  forall d, q d = true -> pre +:+ str_of [a; d] ∈ l.
Proof.
  intros H d Hq. pose proof (ascii_forall (fun d => negb (q d) || bool_decide (pre +:+ str_of [a; d] ∈ l)) H d) as Hd.
  simpl in Hd. rewrite Hq in Hd. simpl in Hd. by apply bool_decide_eq_true in Hd.
Qed.

Lemma pqc_oid_listed o : is_pqc_oid o = true <-> o ∈ numbered "2.16.840.1.101.3.4.3." 17 15.
Proof.
  split.
  - unfold is_pqc_oid, PQC_OID_RE. rewrite fullmatch_lit_alts. intros (r & w & Hr & -> & Hl).
    rewrite !elem_of_cons, elem_of_nil in Hr.
    destruct Hr as [->|[->|[->|[]]]]; apply lang_lit_chr in Hl as (d & -> & Hd);
      eapply alt_listed in Hd; first [exact Hd | vm_compute; reflexivity].
  - revert o. apply Forall_forall. apply (bool_decide_unpack _). vm_compute. exact I.
Qed.

Lemma composite_oid_listed o : is_composite_oid o = true <-> o ∈ numbered "1.3.6.1.5.5.7.6." 37 18.
Proof.
  split.
  - unfold is_composite_oid, COMPOSITE_SIG_OID_RE. rewrite fullmatch_lit_alts. intros (r & w & Hr & -> & Hl).
    rewrite !elem_of_cons, elem_of_nil in Hr.
    destruct Hr as [->|[->|[->|[]]]]; apply lang_lit_chr in Hl as (d & -> & Hd);
      eapply alt_listed in Hd; first [exact Hd | vm_compute; reflexivity].
  - revert o. apply Forall_forall. apply (bool_decide_unpack _). vm_compute. exact I.
Qed.

Definition spki_name (o : string) : string := default EmptyString (fst <$> dget o SPKI_ALGORITHMS).

Lemma existsb_listed (f : string -> bool) (l oids : list string) :
  (forall o, f o = true <-> o ∈ l) -> existsb f oids = true <-> exists o, o ∈ oids /\ o ∈ l.
Proof.
  intros Hf. rewrite existsb_exists. setoid_rewrite Hf.
  by setoid_rewrite list_elem_of_In.
Qed.

(** [categorise_cert_oids] answers [hybrid_composite] exactly when an OID
    is one of the 18 composite signatures 1.3.6.1.5.5.7.6.37 to .54, else
    [pure_pqc] exactly when one is ML-DSA or SLH-DSA (2.16.840.1.101.3.4.3.17
    to .31), else [classical]; every name of the SPKI table under that arc is
    a PQC signature. *)
Theorem categorise_cert_oids_spec oids :
  let composite := exists o, o ∈ oids /\ o ∈ numbered "1.3.6.1.5.5.7.6." 37 18 in
  let pqc := exists o, o ∈ oids /\ o ∈ numbered "2.16.840.1.101.3.4.3." 17 15 in
  (categorise_cert_oids oids = HybridComposite <-> composite) /\
  (categorise_cert_oids oids = PurePqc <-> ~ composite /\ pqc) /\
  (categorise_cert_oids oids = Classical <-> ~ composite /\ ~ pqc) /\
  Forall (fun o => starts_with "ML-DSA" (spki_name o) || starts_with "SLH-DSA" (spki_name o) = true)
    (numbered "2.16.840.1.101.3.4.3." 17 15).
Proof.
  cbv zeta. rewrite <-(existsb_listed _ _ oids composite_oid_listed).
  rewrite <-(existsb_listed _ _ oids pqc_oid_listed). unfold categorise_cert_oids.
  split_and!; [destruct (existsb is_composite_oid oids), (existsb is_pqc_oid oids); naive_solver..|].
  apply (bool_decide_unpack _). vm_compute. exact I.
Qed.

(** Reading a TLV inside a buffer never indexes outside it: it raises
    [DERError] or returns a value that starts after a header of at least two
    bytes and ends inside the container. *)
Theorem der_tlv_bounds buf pos end_ :
  0 <= pos -> end_ <= blen buf ->
  match der_tlv buf pos end_ with
  | Ok (tag, s, e) => 0 <= tag < 256 /\ pos + 2 <= s /\ s <= e /\ e <= end_
  | Raise e => is_der_error e
  end.
Proof. intros Hp He. pose proof (safe_der_tlv buf pos end_ Hp He) as H. by destruct (der_tlv _ _ _) as [[[??]?]|]. Qed.

Theorem der_tlv_bounds_witness :
  let buf := [x30; x03; x02; x01; x05] in
  der_tlv buf 0 5 = Ok (48, 2, 5) /\
  match der_tlv buf 2 5 with
  | Ok (tag, s, e) => 0 <= tag < 256 /\ 2 + 2 <= s /\ s <= e /\ e <= 5
  | Raise e => is_der_error e
  end.
Proof. split; [vm_compute; reflexivity|]. apply (der_tlv_bounds [x30; x03; x02; x01; x05] 2 5); vm_compute; discriminate. Defined.

(** On every byte string the certificate readers finish and never read
    past the buffer: [cert_algorithm_oids] raises nothing but [DERError], and
    [parse_certificate] nothing but [DERError] or the plain [ValueError] of a
    UTCTime (so no [IndexError], and the loops over names and extensions do
    not run out of their fuel). *)
Theorem cert_readers_total der :
  match cert_algorithm_oids der with Ok _ => True | Raise e => is_der_error e end /\
  match parse_certificate der with
  | Ok _ => True
  | Raise e => is_der_error e \/ is_value_error e
  end.
Proof. split; [apply (safe_cert_algorithm_oids der) | apply (safe_parse_certificate der)]. Qed.
