(* ===== verification/DerEncode.v ===== *)
(** * DER encoding, and the readers as its inverse

    [tlv], [enc_oid], [enc_cert] write the encoding X.690 and RFC 5280
    describe; the [*_at] lemmas say what a reader of [Der] returns at a
    position where the buffer holds such an encoding, whatever is around
    it.  They compose to the round trip of a whole certificate. *)

From S2P Require Import Prelude PyStr PyDict PyVal PyRe PyBytes Der DerTheory.
From Stdlib.Strings Require Import Byte.
Open Scope Z_scope.

(** ** Elements *)

Definition len_bytes (n : Z) : nat :=
  if n <? 256 then 1 else if n <? 65536 then 2 else if n <? 16777216 then 3 else 4.
Definition enc_len (n : Z) : bytes :=
  if n <? 128 then [of_bval n]
  else of_bval (128 + Z.of_nat (len_bytes n)) :: to_bytes (len_bytes n) n.
Definition tlv (tag : Z) (v : bytes) : bytes := of_bval tag :: enc_len (blen v) ++ v.

(** A tag of one byte. *)
Definition low_tag (tag : Z) : bool :=
  (0 <=? tag) && (tag <? 256) && negb (Z.land tag 31 =? 31).

Definition max_len : Z := 4294967296.

Lemma of_bval_128 k : 0 <= k < 128 -> bval (of_bval (128 + k)) = 128 + k.
Proof. intros. apply of_bval_val. lia. Qed.

Lemma len_bytes_range n : 0 <= n < max_len -> n < 256 ^ Z.of_nat (len_bytes n).
Proof.
  unfold max_len, len_bytes. intros. repeat case_match; try lia.
Qed.
Lemma len_bytes_bounds n : (1 <= len_bytes n <= 4)%nat.
Proof. unfold len_bytes. repeat case_match; lia. Qed.

Lemma land_low k : 0 <= k < 128 -> Z.land (128 + k) 127 = k.
Proof.
  intros. change 127 with (Z.ones 7). rewrite Z.land_ones by lia.
  change (2 ^ 7) with 128. rewrite <-(Z.add_mod_idemp_l 128 k), Z.mod_same by lia. simpl.
  by rewrite Z.mod_small.
Qed.

Lemma blen_tlv tag v : blen (tlv tag v) = 1 + blen (enc_len (blen v)) + blen v.
Proof. unfold tlv. rewrite blen_cons, blen_app. lia. Qed.
Lemma blen_enc_len n : 1 <= blen (enc_len n) <= 5.
Proof.
  unfold enc_len. case_match; rewrite blen_cons; [change (blen []) with 0; lia|].
  unfold blen. rewrite length_to_bytes. pose proof (len_bytes_bounds n). lia.
Qed.

(** Where the value of [tlv tag v] at [pos] starts. *)
Definition vstart (pos : Z) (v : bytes) : Z := pos + 1 + blen (enc_len (blen v)).

Lemma holds_value buf pos tag v : holds buf pos (tlv tag v) -> holds buf (vstart pos v) v.
Proof.
  unfold tlv. change (of_bval tag :: enc_len (blen v) ++ v) with ([of_bval tag] ++ enc_len (blen v) ++ v).
  intros [_ [_ H]%holds_app]%holds_app. unfold vstart.
  change (blen [of_bval tag]) with 1 in H. done.
Qed.

Lemma vstart_end pos tag v : vstart pos v + blen v = pos + blen (tlv tag v).
Proof. unfold vstart. rewrite blen_tlv. lia. Qed.

(** [_der_tlv] reads back the element at its position. *)
Lemma der_tlv_at buf pos end_ tag v :
  holds buf pos (tlv tag v) -> low_tag tag = true -> blen v < max_len ->
  pos + blen (tlv tag v) <= end_ ->
  der_tlv buf pos end_ = Ok (tag, vstart pos v, pos + blen (tlv tag v)).
Proof.
  unfold low_tag. rewrite !andb_true_iff, negb_true_iff, !Z.eqb_neq, Z.leb_le, Z.ltb_lt.
  intros H [[Ht0 Ht1] Htag] Hv He. pose proof (blen_enc_len (blen v)) as Hl.
  pose proof (blen_nonneg v) as Hv0.
  rewrite <-(vstart_end pos tag v) in *. unfold vstart in *.
  unfold der_tlv. rewrite (proj2 (Z.ltb_ge _ _)) by lia.
  assert (byte_at buf pos = Ok tag) as ->.
  { erewrite (holds_byte _ _ (of_bval tag)) by exact H. by rewrite of_bval_val. }
  cbn [mbind res_bind]. rewrite (proj2 (Z.eqb_neq _ _)) by done.
  assert (holds buf (pos + 1) (enc_len (blen v) ++ v)) as Hlen.
  { apply (holds_app buf pos [of_bval tag]) in H as [_ H]. exact H. }
  unfold enc_len in Hlen, Hl, He |- *. destruct (blen v <? 128) eqn:E.
  - erewrite (holds_byte _ _ (of_bval (blen v))) by exact Hlen. rewrite of_bval_val by lia.
    cbn [mbind res_bind]. rewrite E. change (blen [of_bval (blen v)]) with 1 in *. cbn [mbind res_bind].
    rewrite (proj2 (Z.ltb_ge _ _)) by lia. do 3 f_equal; lia.
  - pose proof (len_bytes_bounds (blen v)) as Hk.
    pose proof (len_bytes_range (blen v) ltac:(lia)) as Hn.
    set (k := len_bytes (blen v)) in *.
    erewrite (holds_byte _ _ (of_bval (128 + Z.of_nat k))) by exact Hlen.
    rewrite of_bval_128 by lia. cbn [mbind res_bind].
    rewrite (proj2 (Z.ltb_ge _ 128)), land_low by lia.
    assert (blen (to_bytes k (blen v)) = Z.of_nat k) as Hbl.
    { unfold blen at 1. by rewrite length_to_bytes. }
    rewrite blen_cons, Hbl in *.
    rewrite (proj2 (Z.eqb_neq _ 0)), (proj2 (Z.ltb_ge 4 _)), (proj2 (Z.ltb_ge end_ _)) by lia.
    cbn [orb mbind res_bind].
    apply (holds_app buf (pos + 1) [_]) in Hlen as [_ [Hlen _]%holds_app].
    change (blen [of_bval (128 + Z.of_nat k)]) with 1 in Hlen.
    pose proof (holds_slice _ _ _ Hlen) as Hs. rewrite Hbl in Hs.
    replace (pos + 2) with (pos + 1 + 1) by lia. rewrite Hs, from_to_bytes, Z.mod_small by lia.
    rewrite (proj2 (Z.ltb_ge _ _)) by lia. do 3 f_equal; lia.
Qed.

(** ** Object identifiers *)

(** The leading base-128 digits of an arc, each with the continuation bit. *)
Fixpoint arc_high (fuel : nat) (z : Z) : bytes :=
  match fuel with
  | S fuel => if z =? 0 then [] else arc_high fuel (z / 128) ++ [of_bval (128 + z mod 128)]
  | O => []
  end.
Definition enc_arc (z : Z) : bytes :=
  arc_high (Z.to_nat (Z.log2 z)) (z / 128) ++ [of_bval (z mod 128)].
Definition enc_oid (arcs : list Z) : bytes :=
  match arcs with
  | a :: b :: rest => of_bval (40 * a + b) :: concat (enc_arc <$> rest)
  | _ => []
  end.

(** The arcs [_der_oid] accepts: the first two share one 7-bit byte. *)
Definition oid_arcs_ok (arcs : list Z) : bool :=
  match arcs with
  | a :: b :: rest =>
      (0 <=? a) && (a <=? 2) && (0 <=? b) && ((a =? 2) || (b <? 40)) && (40 * a + b <? 128) &&
      forallb (Z.leb 0) rest
  | _ => false
  end.

Lemma lor_shift7 a b : 0 <= a -> 0 <= b < 128 -> Z.lor (Z.shiftl a 7) b = a * 128 + b.
Proof.
  intros Ha Hb. pose proof (Z.add_lor_land (Z.shiftl a 7) b) as H.
  assert (Z.land (Z.shiftl a 7) b = 0) as Hz.
  { apply Z.bits_inj'. intros n Hn. rewrite Z.bits_0, Z.land_spec.
    destruct (Z.lt_ge_cases n 7).
    - by rewrite Z.shiftl_spec_low.
    - destruct (Z.eq_dec b 0) as [->|]; [by rewrite Z.bits_0, andb_false_r|].
      rewrite (Z.bits_above_log2 b n), andb_false_r by (try lia;
        enough (Z.log2 b < 7) by lia; apply Z.log2_lt_pow2; lia). done. }
  rewrite Hz, Z.shiftl_mul_pow2 in H by lia. change (2 ^ 7) with 128 in H. 
  rewrite Z.shiftl_mul_pow2 by lia. change (2 ^ 7) with 128. lia.
Qed.

Lemma land_bit7 b : 0 <= b < 256 -> Z.land b 128 = if b <? 128 then 0 else 128.
Proof.
  intros Hb.
  assert (forallb (fun n => Z.land (Z.of_nat n) 128 =? if Z.of_nat n <? 128 then 0 else 128)
            (seq 0 256) = true) as H by (vm_compute; reflexivity).
  rewrite forallb_forall in H. specialize (H (Z.to_nat b)). rewrite in_seq in H.
  rewrite Z2Nat.id in H by lia. apply Z.eqb_eq, H. lia.
Qed.

Lemma land_127 b : 0 <= b -> Z.land b 127 = b mod 128.
Proof. intros. change 127 with (Z.ones 7). by rewrite Z.land_ones by lia. Qed.

Lemma oid_step_high n acc d :
  0 <= n -> 0 <= d < 128 -> oid_step (n, acc) (of_bval (128 + d)) = (n * 128 + d, acc).
Proof.
  intros Hn Hd. unfold oid_step. rewrite of_bval_128 by lia.
  rewrite land_bit7, (proj2 (Z.ltb_ge _ _)), land_low by lia. cbn [fst snd Z.eqb].
  by rewrite lor_shift7 by lia.
Qed.

Lemma oid_step_last n acc d :
  0 <= n -> 0 <= d < 128 -> oid_step (n, acc) (of_bval d) = (0, acc ++ [n * 128 + d]).
Proof.
  intros Hn Hd. unfold oid_step. rewrite of_bval_val by lia.
  rewrite land_bit7, (proj2 (Z.ltb_lt _ _)), land_127, Z.mod_small by lia. cbn [fst snd Z.eqb].
  by rewrite lor_shift7 by lia.
Qed.

Lemma arc_high_steps fuel z acc :
  0 <= z < 2 ^ Z.of_nat fuel ->
  foldl oid_step (0, acc) (arc_high fuel z) = (z, acc).
Proof.
  revert z; induction fuel as [|fuel IH]; intros z Hz; simpl.
  - assert (z = 0) as -> by (change (2 ^ Z.of_nat 0) with 1 in Hz; lia). done.
  - destruct (z =? 0) eqn:E; [by apply Z.eqb_eq in E as ->|].
    rewrite foldl_app, IH.
    + simpl. rewrite oid_step_high.
      * f_equal. pose proof (Z.div_mod z 128). lia.
      * apply Z.div_pos; lia.
      * apply Z.mod_pos_bound. lia.
    + replace (Z.of_nat (S fuel)) with (1 + Z.of_nat fuel) in Hz by lia.
      rewrite Z.pow_add_r in Hz by lia. change (2 ^ 1) with 2 in Hz.
      split; [apply Z.div_pos; lia|]. apply Z.div_lt_upper_bound; lia.
Qed.

Lemma enc_arc_steps z acc :
  0 <= z -> foldl oid_step (0, acc) (enc_arc z) = (0, acc ++ [z]).
Proof.
  intros Hz. unfold enc_arc. rewrite foldl_app, arc_high_steps.
  - simpl. rewrite oid_step_last.
    + do 3 f_equal. pose proof (Z.div_mod z 128). lia.
    + apply Z.div_pos; lia.
    + apply Z.mod_pos_bound. lia.
  - split; [apply Z.div_pos; lia|].
    destruct (Z.eq_dec z 0) as [->|]; [done|].
    pose proof (Z.log2_spec z ltac:(lia)) as [_ Hl]. pose proof (Z.log2_nonneg z).
    rewrite Z2Nat.id by lia. rewrite <-Z.add_1_r, Z.pow_add_r in Hl by lia.
    change (2 ^ 1) with 2 in Hl. apply Z.div_lt_upper_bound; lia.
Qed.

Lemma enc_arcs_steps rest acc :
  forallb (Z.leb 0) rest = true ->
  foldl oid_step (0, acc) (concat (enc_arc <$> rest)) = (0, acc ++ rest).
Proof.
  revert acc; induction rest as [|z rest IH]; intros acc; simpl; [by rewrite app_nil_r|].
  intros [Hz Hr]%andb_true_iff. rewrite foldl_app, enc_arc_steps by lia.
  rewrite IH by done. by rewrite <-app_assoc.
Qed.

(** The last byte of an encoded OID ends an arc. *)
Lemma last_enc_arcs rest b :
  bval b < 128 -> exists l, last (b :: concat (enc_arc <$> rest)) = Some l /\ bval l < 128.
Proof.
  intros Hb. destruct rest as [|z rest _] using rev_ind; [by exists b|].
  rewrite fmap_app, concat_app. simpl. rewrite app_nil_r. unfold enc_arc at 2.
  rewrite !app_assoc, app_comm_cons, last_snoc. eexists; split; [done|].
  pose proof (Z.mod_pos_bound z 128). rewrite of_bval_val; lia.
Qed.

(** [_der_oid] inverts the encoding. *)
Lemma der_oid_enc arcs :
  oid_arcs_ok arcs = true -> der_oid_arcs (enc_oid arcs) = Ok arcs.
Proof.
  destruct arcs as [|a [|b rest]]; try done. unfold oid_arcs_ok, enc_oid.
  rewrite !andb_true_iff, orb_true_iff. intros [[[[[Ha0 Ha2] Hb0] Hb] Hab] Hr].
  unfold der_oid_arcs. set (f := of_bval (40 * a + b)).
  assert (bval f = 40 * a + b) as Hf by (apply of_bval_val; lia).
  destruct (last_enc_arcs rest f) as (l & -> & Hl); [lia|].
  pose proof (bval_range l). rewrite !land_bit7 by lia.
  rewrite (proj2 (Z.ltb_lt (bval l) _)), (proj2 (Z.ltb_lt (bval f) _)) by lia. cbn [negb Z.eqb].
  rewrite Hf. assert (Z.min ((40 * a + b) / 40) 2 = a) as ->.
  { rewrite Z.mul_comm, Z.div_add_l by lia.
    destruct Hb as [Hb|Hb].
    - apply Z.eqb_eq in Hb as ->. pose proof (Z.div_pos b 40). lia.
    - rewrite Z.div_small by lia. lia. }
  rewrite enc_arcs_steps by done. cbn [snd]. do 2 f_equal.
  replace (40 * a + b - 40 * a) with b by lia. done.
Qed.

(** ** Regions

    [region buf pos stop c]: the bytes of [buf] from [pos] to [stop] are
    [c].  A reader applied to a region whose contents start with an element
    splits it into the region of the value and the region of the rest. *)

Definition region (buf : bytes) (pos stop : Z) (c : bytes) : Prop :=
  holds buf pos c /\ stop = pos + blen c.

Lemma region_self c : region c 0 (blen c) c.
Proof. split; [apply holds_self | lia]. Qed.

Lemma region_slice buf pos stop c : region buf pos stop c -> slice buf pos stop = c.
Proof. intros [H ->]. by apply holds_slice. Qed.

Lemma region_len buf pos stop c : region buf pos stop c -> 0 <= pos /\ stop = pos + blen c /\ stop <= blen buf.
Proof. intros [H ->]. apply holds_nonneg in H. lia. Qed.

(** Below, every buffer is shorter than the 2^32 the reader supports. *)
Section Small.
Context (buf : bytes).
Hypothesis Hsmall : blen buf < max_len.

Lemma region_tlv pos stop tag v rest :
  region buf pos stop (tlv tag v ++ rest) -> low_tag tag = true ->
  exists s e, der_tlv buf pos stop = Ok (tag, s, e) /\ region buf s e v /\
    region buf e stop rest /\ pos < e.
Proof.
  intros [H ->] Ht. pose proof (holds_nonneg _ _ _ H) as Hn.
  apply holds_app in H as [H1 H2]. pose proof (holds_value _ _ _ _ H1) as Hv.
  rewrite blen_app in *. pose proof (blen_nonneg rest). pose proof (blen_nonneg v).
  pose proof (blen_enc_len (blen v)). pose proof (blen_tlv tag v).
  exists (vstart pos v), (pos + blen (tlv tag v)). split; [|split; [|split]].
  - apply der_tlv_at; [done|done| lia | lia].
  - split; [done|]. symmetry. apply vstart_end.
  - split; [done|lia].
  - lia.
Qed.

(** The last element of a container. *)
Lemma region_tlv_last pos stop tag v :
  region buf pos stop (tlv tag v) -> low_tag tag = true ->
  exists s, der_tlv buf pos stop = Ok (tag, s, stop) /\ region buf s stop v.
Proof.
  intros H Ht. destruct (region_tlv pos stop tag v []) as (s & e & H1 & H2 & H3 & _).
  - by rewrite app_nil_r.
  - done.
  - destruct H3 as [_ H3]. change (blen []) with 0 in H3.
    assert (e = stop) as -> by lia. eauto.
Qed.

Definition tlv_oid (arcs : list Z) : bytes := tlv 6 (enc_oid arcs).
Definition tlv_alg (arcs : list Z) (params : bytes) : bytes := tlv 48 (tlv_oid arcs ++ params).

Lemma region_oid pos stop arcs rest :
  region buf pos stop (tlv_oid arcs ++ rest) -> oid_arcs_ok arcs = true ->
  exists s e, der_tlv buf pos stop = Ok (6, s, e) /\
    der_oid (slice buf s e) = Ok (show_arcs arcs) /\ region buf e stop rest /\ pos < e.
Proof.
  intros H Ho. destruct (region_tlv _ _ _ _ _ H eq_refl) as (s & e & H1 & H2 & H3 & H4).
  exists s, e. split; [done|]. split; [|done].
  rewrite (region_slice _ _ _ _ H2). unfold der_oid. by rewrite der_oid_enc.
Qed.

Lemma region_alg pos stop arcs params rest :
  region buf pos stop (tlv_alg arcs params ++ rest) -> oid_arcs_ok arcs = true ->
  exists e, der_algorithm_oid buf pos stop = Ok (show_arcs arcs, e) /\ region buf e stop rest.
Proof.
  intros H Ho. destruct (region_tlv _ _ _ _ _ H eq_refl) as (s & e & H1 & H2 & H3 & _).
  destruct (region_oid _ _ _ _ H2 Ho) as (s' & e' & H4 & H5 & _).
  exists e. split; [|done]. unfold der_algorithm_oid. rewrite H1. cbn [mbind res_bind negb Z.eqb Pos.eqb].
  rewrite H4. cbn [mbind res_bind negb Z.eqb Pos.eqb]. by rewrite H5.
Qed.

Lemma region_skip pos stop tag v rest :
  region buf pos stop (tlv tag v ++ rest) -> low_tag tag = true ->
  exists e, skip_tlv buf stop pos = Ok e /\ region buf e stop rest.
Proof.
  intros H Ht. destruct (region_tlv _ _ _ _ _ H Ht) as (s & e & H1 & H2 & H3 & _).
  exists e. split; [|done]. unfold skip_tlv. by rewrite H1.
Qed.

(** A loop reads a concatenation element by element. *)
Lemma region_loop {X A} (enc : X -> bytes) (val : X -> A) (body : Z -> res (A * Z)) stop xs fuel pos :
  (forall x pos rest, x ∈ xs -> region buf pos stop (enc x ++ rest) ->
    exists e, body pos = Ok (val x, e) /\ region buf e stop rest) ->
  (forall x, x ∈ xs -> 0 < blen (enc x)) ->
  region buf pos stop (concat (enc <$> xs)) -> (length xs < fuel)%nat ->
  der_loop fuel body pos stop = Ok (val <$> xs).
Proof.
  revert xs pos; induction fuel as [|fuel IH]; intros xs pos Hb Hne H Hf; [lia|].
  destruct xs as [|x xs]; csimpl in *.
  - destruct H as [_ H]. change (blen []) with 0 in H. by rewrite (proj2 (Z.ltb_ge _ _)) by lia.
  - assert (pos < stop) as Hlt.
    { destruct H as [_ ->]. rewrite blen_app. specialize (Hne x ltac:(by left)).
      pose proof (blen_nonneg (concat (enc <$> xs))). lia. }
    rewrite (proj2 (Z.ltb_lt _ _)) by done.
    destruct (Hb x pos _ ltac:(by left) H) as (e & -> & He). cbn [mbind res_bind].
    rewrite (IH xs e); [done | | | done | lia].
    + intros y q r Hy. apply Hb. by right.
    + intros y Hy. apply Hne. by right.
Qed.

Lemma count_le_blen {X} (enc : X -> bytes) xs :
  (forall x, x ∈ xs -> 0 < blen (enc x)) -> Z.of_nat (length xs) <= blen (concat (enc <$> xs)).
Proof.
  induction xs as [|x xs IH]; intros H; [done|]. csimpl. rewrite blen_app.
  specialize (IH (fun y Hy => H y ltac:(by right))). specialize (H x ltac:(by left)). lia.
Qed.

(** The same with the fuel of the code's loops. *)
Lemma region_loop_fuel {X A} (enc : X -> bytes) (val : X -> A) (body : Z -> res (A * Z)) stop xs pos :
  (forall x pos rest, x ∈ xs -> region buf pos stop (enc x ++ rest) ->
    exists e, body pos = Ok (val x, e) /\ region buf e stop rest) ->
  (forall x, x ∈ xs -> 0 < blen (enc x)) ->
  region buf pos stop (concat (enc <$> xs)) ->
  der_loop (loop_fuel buf) body pos stop = Ok (val <$> xs).
Proof.
  intros Hb Hne H. eapply region_loop; [exact Hb | done | done |].
  pose proof (count_le_blen _ _ Hne). apply region_len in H. unfold loop_fuel, blen in *. lia.
Qed.

Lemma blen_tlv_pos tag v : 0 < blen (tlv tag v).
Proof. rewrite blen_tlv. pose proof (blen_enc_len (blen v)). pose proof (blen_nonneg v). lia. Qed.
End Small.

(** ** Certificates *)

Record attr_doc := Attr { at_oid : list Z; at_tag : Z; at_value : bytes }.
Inductive key_doc :=
| KeyEC (curve : list Z) (bits : bytes)
| KeyRSA (modulus : bytes) (exponent : bytes)
| KeyOther (oid : list Z) (params bits : bytes).
Record ext_doc := Ext { ex_oid : list Z; ex_critical : bool; ex_value : bytes }.

Record cert_doc := CertDoc {
  cd_version : option bytes; cd_serial : bytes;
  cd_sig : list Z; cd_sig_params : bytes;
  cd_issuer : list (list attr_doc);
  cd_nb : Z * bytes; cd_na : Z * bytes;
  cd_subject : list (list attr_doc);
  cd_key : key_doc;
  cd_exts : option (list ext_doc);
  cd_outer : bytes }.

Definition ec_oid : list Z := [1; 2; 840; 10045; 2; 1].
Definition rsa_oid : list Z := [1; 2; 840; 113549; 1; 1; 1].
Definition key_oid_of (k : key_doc) : list Z :=
  match k with KeyEC _ _ => ec_oid | KeyRSA _ _ => rsa_oid | KeyOther o _ _ => o end.

Definition enc_attr (a : attr_doc) : bytes :=
  tlv 48 (tlv_oid (at_oid a) ++ tlv (at_tag a) (at_value a)).
Definition enc_rdn (l : list attr_doc) : bytes := tlv 49 (concat (enc_attr <$> l)).
Definition enc_name (n : list (list attr_doc)) : bytes := concat (enc_rdn <$> n).
Definition enc_key (k : key_doc) : bytes :=
  match k with
  | KeyEC curve bits => tlv_alg ec_oid (tlv_oid curve) ++ bits
  | KeyRSA m e =>
      tlv_alg rsa_oid (tlv 5 []) ++ tlv 3 (of_bval 0 :: tlv 48 (tlv 2 m ++ e))
  | KeyOther o params bits => tlv_alg o params ++ bits
  end.
Definition enc_ext (x : ext_doc) : bytes :=
  tlv 48 (tlv_oid (ex_oid x) ++ (if ex_critical x then tlv 1 [of_bval 255] else []) ++ tlv 4 (ex_value x)).
Definition enc_exts (o : option (list ext_doc)) : bytes :=
  match o with Some l => tlv 163 (tlv 48 (concat (enc_ext <$> l))) | None => [] end.
Definition enc_version (o : option bytes) : bytes :=
  match o with Some v => tlv 160 v | None => [] end.

Definition enc_tbs (d : cert_doc) : bytes :=
  enc_version (cd_version d) ++ tlv 2 (cd_serial d) ++ tlv_alg (cd_sig d) (cd_sig_params d) ++
  tlv 48 (enc_name (cd_issuer d)) ++
  tlv 48 (tlv (cd_nb d).1 (cd_nb d).2 ++ tlv (cd_na d).1 (cd_na d).2) ++
  tlv 48 (enc_name (cd_subject d)) ++ tlv 48 (enc_key (cd_key d)) ++ enc_exts (cd_exts d).
Definition enc_cert (d : cert_doc) : bytes := tlv 48 (tlv 48 (enc_tbs d) ++ cd_outer d).

(** What the readers should make of each part. *)
Definition attr_text (a : attr_doc) : string :=
  default (show_arcs (at_oid a)) (dget (show_arcs (at_oid a)) NAME_ATTRS) +:+ "=" +:+
  rfc4514_escape (der_string (at_tag a) (at_value a)).
Definition name_text (n : list (list attr_doc)) : string :=
  str_join "," (reverse ((fun l => str_join "+" (attr_text <$> l)) <$> n)).
Definition key_text (k : key_doc) : string * option Z :=
  match k with
  | KeyEC curve _ =>
      match dget (show_arcs curve) EC_CURVES with
      | Some (n, bits) => ("EC " +:+ n, Some bits)
      | None => ("EC " +:+ show_arcs curve, None)
      end
  | KeyRSA m _ => ("RSA", Some (der_int_bits m))
  | KeyOther o _ _ => default (show_arcs o, None) (dget (show_arcs o) SPKI_ALGORITHMS)
  end.
(** Keys [KeyOther] stands for: not EC, and not named RSA. *)
Definition key_ok (k : key_doc) : bool :=
  match k with
  | KeyEC curve _ => oid_arcs_ok curve
  | KeyRSA _ _ => true
  | KeyOther o _ _ =>
      let n := (default (show_arcs o, None) (dget (show_arcs o) SPKI_ALGORITHMS)).1 in
      oid_arcs_ok o && negb (String.eqb (show_arcs o) (show_arcs ec_oid)) &&
      negb (String.eqb n "RSA") && negb (String.eqb n "RSASSA-PSS")
  end.
Definition attr_ok (a : attr_doc) : bool := oid_arcs_ok (at_oid a) && low_tag (at_tag a).
Definition name_ok (n : list (list attr_doc)) : bool := forallb (forallb attr_ok) n.
Definition exts_of (d : cert_doc) : list ext_doc := default [] (cd_exts d).
Definition ext_map (l : list ext_doc) : list (string * bytes) :=
  foldl (fun out x => dset (show_arcs (ex_oid x)) (ex_value x) out) [] l.

Definition cert_ok (d : cert_doc) : bool :=
  oid_arcs_ok (cd_sig d) && name_ok (cd_issuer d) && low_tag (cd_nb d).1 &&
  low_tag (cd_na d).1 && name_ok (cd_subject d) && key_ok (cd_key d) &&
  forallb (fun x => oid_arcs_ok (ex_oid x)) (exts_of d) && (blen (enc_cert d) <? max_len).

Section Parts.
Context (buf : bytes).
Hypothesis Hsmall : blen buf < max_len.

Lemma attr_at pos stop a rest :
  attr_ok a = true -> region buf pos stop (enc_attr a ++ rest) ->
  exists e, der_attribute buf pos stop = Ok (attr_text a, e) /\ region buf e stop rest.
Proof.
  intros [Ho Ht]%andb_true_iff H.
  destruct (region_tlv _ Hsmall _ _ _ _ _ H eq_refl) as (s & e & H1 & H2 & H3 & _).
  destruct (region_oid _ Hsmall _ _ _ _ H2 Ho) as (s' & e' & H4 & H5 & H6 & _).
  destruct (region_tlv_last _ Hsmall _ _ _ _ H6 Ht) as (s'' & H7 & H8).
  exists e. split; [|done]. unfold der_attribute. rewrite H1. cbn [mbind res_bind negb Z.eqb Pos.eqb].
  rewrite H4. cbn [mbind res_bind negb Z.eqb Pos.eqb]. rewrite H5. cbn [mbind res_bind].
  rewrite H7. cbn [mbind res_bind]. by rewrite (region_slice _ _ _ _ H8).
Qed.

Lemma rdn_at pos stop l rest :
  forallb attr_ok l = true -> region buf pos stop (enc_rdn l ++ rest) ->
  exists e, der_rdn buf pos stop = Ok (str_join "+" (attr_text <$> l), e) /\ region buf e stop rest.
Proof.
  intros Hl H. destruct (region_tlv _ Hsmall _ _ _ _ _ H eq_refl) as (s & e & H1 & H2 & H3 & _).
  exists e. split; [|done]. unfold der_rdn. rewrite H1. cbn [mbind res_bind negb Z.eqb Pos.eqb].
  erewrite (region_loop_fuel _ enc_attr attr_text); [done | | | exact H2].
  - intros x p r Hx. apply attr_at. rewrite forallb_forall in Hl. by apply Hl, list_elem_of_In.
  - intros. apply blen_tlv_pos.
Qed.

(** [_der_name] renders the Name, last RDN first. *)
Lemma name_at pos stop n :
  name_ok n = true -> region buf pos stop (enc_name n) -> der_name buf pos stop = Ok (name_text n).
Proof.
  intros Hn H. unfold der_name.
  erewrite (region_loop_fuel _ enc_rdn (fun l => str_join "+" (attr_text <$> l)));
    [done | | | exact H].
  - intros x p r Hx. apply rdn_at. unfold name_ok in Hn. rewrite forallb_forall in Hn.
    by apply Hn, list_elem_of_In.
  - intros. apply blen_tlv_pos.
Qed.

Lemma ext_at pos stop x rest :
  oid_arcs_ok (ex_oid x) = true -> region buf pos stop (enc_ext x ++ rest) ->
  exists e, der_extension buf pos stop = Ok (show_arcs (ex_oid x), Some (ex_value x), e) /\
    region buf e stop rest.
Proof.
  intros Ho H. destruct (region_tlv _ Hsmall _ _ _ _ _ H eq_refl) as (s & e & H1 & H2 & H3 & _).
  destruct (region_oid _ Hsmall _ _ _ _ H2 Ho) as (s' & e' & H4 & H5 & H6 & _).
  exists e. split; [|done]. unfold der_extension. rewrite H1. cbn [mbind res_bind].
  rewrite H4. cbn [mbind res_bind]. rewrite H5. cbn [mbind res_bind].
  destruct (ex_critical x).
  - destruct (region_tlv _ Hsmall _ _ _ _ _ H6 eq_refl) as (s1 & e1 & H7 & _ & H8 & _).
    destruct (region_tlv_last _ Hsmall _ _ _ _ H8 eq_refl) as (s2 & H9 & H10).
    rewrite H7. cbn [mbind res_bind Z.eqb Pos.eqb]. rewrite H9. cbn [mbind res_bind Z.eqb Pos.eqb].
    by rewrite (region_slice _ _ _ _ H10).
  - destruct (region_tlv_last _ Hsmall _ _ _ _ H6 eq_refl) as (s2 & H9 & H10).
    rewrite H9. cbn [mbind res_bind Z.eqb Pos.eqb]. by rewrite (region_slice _ _ _ _ H10).
Qed.

Lemma foldl_add_extension l acc :
  foldl add_extension acc ((fun x => (show_arcs (ex_oid x), Some (ex_value x))) <$> l) =
  foldl (fun out x => dset (show_arcs (ex_oid x)) (ex_value x) out) acc l.
Proof. revert acc; induction l as [|x l IH]; intros acc; csimpl; [done|]. by rewrite IH. Qed.

Lemma extensions_at pos stop l :
  forallb (fun x => oid_arcs_ok (ex_oid x)) l = true ->
  region buf pos stop (tlv 48 (concat (enc_ext <$> l))) ->
  extensions buf pos stop = Ok (ext_map l).
Proof.
  intros Hl H. destruct (region_tlv_last _ Hsmall _ _ _ _ H eq_refl) as (s & H1 & H2).
  unfold extensions. rewrite H1. cbn [mbind res_bind negb Z.eqb Pos.eqb].
  erewrite (region_loop_fuel _ enc_ext (fun x => (show_arcs (ex_oid x), Some (ex_value x))));
    [cbn [mbind res_bind]; by rewrite foldl_add_extension | | | exact H2].
  - intros x p r Hx. apply ext_at. rewrite forallb_forall in Hl. by apply Hl, list_elem_of_In.
  - intros. apply blen_tlv_pos.
Qed.
End Parts.

Lemma show_ec : show_arcs ec_oid = "1.2.840.10045.2.1".
Proof. vm_compute. reflexivity. Qed.
Lemma show_rsa : show_arcs rsa_oid = "1.2.840.113549.1.1.1".
Proof. vm_compute. reflexivity. Qed.
Lemma spki_ec : dget "1.2.840.10045.2.1" SPKI_ALGORITHMS = Some ("EC", None).
Proof. vm_compute. reflexivity. Qed.
Lemma spki_rsa : dget "1.2.840.113549.1.1.1" SPKI_ALGORITHMS = Some ("RSA", None).
Proof. vm_compute. reflexivity. Qed.

Section Whole.
Context (buf : bytes).
Hypothesis Hsmall : blen buf < max_len.

Ltac red1 := cbn [mbind res_bind negb Z.eqb Pos.eqb andb orb default fst snd].

Lemma key_alg_at pos stop oid params rest :
  region buf pos stop (tlv_alg oid params ++ rest) -> oid_arcs_ok oid = true ->
  exists s e s' e', der_tlv buf pos stop = Ok (48, s, e) /\ der_tlv buf s e = Ok (6, s', e') /\
    der_oid (slice buf s' e') = Ok (show_arcs oid) /\ region buf e' e params /\ region buf e stop rest.
Proof.
  intros H Ho. destruct (region_tlv _ Hsmall _ _ _ _ _ H eq_refl) as (s & e & H1 & H2 & H3 & _).
  destruct (region_oid _ Hsmall _ _ _ _ H2 Ho) as (s' & e' & H4 & H5 & H6 & _).
  exists s, e, s', e'. auto.
Qed.

Lemma spki_key_ec pos stop curve bits :
  oid_arcs_ok curve = true -> region buf pos stop (enc_key (KeyEC curve bits)) ->
  spki_key buf pos stop =
  Ok (show_arcs ec_oid, (key_text (KeyEC curve bits)).1, (key_text (KeyEC curve bits)).2).
Proof.
  intros Hk H. unfold spki_key. cbn [enc_key] in H.
  destruct (key_alg_at _ _ _ _ _ H eq_refl) as (s & e & s' & e' & H1 & H2 & H3 & H4 & _).
  rewrite H1. red1. rewrite H2. red1. rewrite H3. red1.
  rewrite show_ec, spki_ec. red1. cbn iota.
  destruct (region_oid _ Hsmall e' e curve []) as (s2 & e2 & H5 & H6 & _ & H7).
  { by rewrite app_nil_r. }
  { done. }
  assert (e' < e) as Hlt.
  { destruct H4 as [_ ->]. pose proof (blen_tlv_pos 6 (enc_oid curve)). unfold tlv_oid. lia. }
  rewrite (proj2 (Z.ltb_lt _ _)), String.eqb_refl by done. red1.
  rewrite H5. red1. rewrite H6. red1. unfold key_text.
  by destruct (dget (show_arcs curve) EC_CURVES) as [[??]|].
Qed.

Lemma spki_key_rsa pos stop m ex :
  region buf pos stop (enc_key (KeyRSA m ex)) ->
  spki_key buf pos stop = Ok (show_arcs rsa_oid, "RSA", Some (der_int_bits m)).
Proof.
  intros H. unfold spki_key. cbn [enc_key] in H.
  destruct (key_alg_at _ _ _ _ _ H eq_refl) as (s & e & s' & e' & H1 & H2 & H3 & H4 & H5).
  rewrite H1. red1. rewrite H2. red1. rewrite H3. red1.
  rewrite show_rsa, spki_rsa. red1. cbn iota.
  destruct (region_tlv_last _ Hsmall _ _ _ _ H5 eq_refl) as (s2 & H6 & H7).
  assert (region buf (s2 + 1) stop (tlv 48 (tlv 2 m ++ ex)) /\ s2 < stop) as [H8 Hlt].
  { destruct H7 as [Ha Hb]. apply (holds_app buf s2 [of_bval 0]) in Ha as [_ Ha].
    rewrite blen_cons in Hb. split; [split; [exact Ha|lia] |].
    pose proof (blen_nonneg (tlv 48 (tlv 2 m ++ ex))). lia. }
  destruct (region_tlv_last _ Hsmall _ _ _ _ H8 eq_refl) as (s3 & H9 & H10).
  destruct (region_tlv _ Hsmall _ _ _ _ _ H10 eq_refl) as (s4 & e4 & H11 & H12 & _).
  change (String.eqb "1.2.840.113549.1.1.1" "1.2.840.10045.2.1") with false.
  change (String.eqb "RSA" "RSA") with true. red1.
  unfold rsa_bits. rewrite H6. red1. rewrite (proj2 (Z.ltb_lt _ _)) by done. red1.
  rewrite H9. red1. rewrite H11. red1. by rewrite (region_slice _ _ _ _ H12).
Qed.

Lemma spki_key_at pos stop k :
  key_ok k = true -> region buf pos stop (enc_key k) ->
  spki_key buf pos stop = Ok (show_arcs (key_oid_of k), (key_text k).1, (key_text k).2).
Proof.
  intros Hk H. destruct k as [curve bits|m ex|o params bits].
  - by apply spki_key_ec.
  - by apply spki_key_rsa with ex.
  - cbn [key_ok enc_key key_oid_of] in *. rewrite !andb_true_iff, !negb_true_iff in Hk.
    destruct Hk as [[[Ho Hec] Hr] Hp].
    destruct (key_alg_at _ _ _ _ _ H Ho) as (s & e & s' & e' & H1 & H2 & H3 & H4 & H5).
    unfold spki_key. rewrite H1. red1. rewrite H2. red1. rewrite H3. red1. unfold key_text.
    rewrite show_ec in Hec.
    destruct (dget (show_arcs o) SPKI_ALGORITHMS) as [[name size]|]; cbn [from_option id fst] in *;
      by rewrite Hec, Hr, Hp.
Qed.

Lemma region_tlv_byte pos stop tag v rest :
  region buf pos stop (tlv tag v ++ rest) -> low_tag tag = true ->
  byte_at buf pos = Ok tag /\ pos < stop.
Proof.
  intros [H ->] Ht. split.
  - unfold tlv in H. rewrite <-app_comm_cons in H. rewrite (holds_byte _ _ _ _ H).
    unfold low_tag in Ht. rewrite !andb_true_iff in Ht. rewrite of_bval_val by lia. done.
  - rewrite blen_app. pose proof (blen_tlv_pos tag v). pose proof (blen_nonneg rest). lia.
Qed.

Lemma region_version pos stop o v rest :
  region buf pos stop (enc_version o ++ tlv 2 v ++ rest) ->
  exists p, skip_version buf pos stop = Ok p /\ region buf p stop (tlv 2 v ++ rest).
Proof.
  intros H. unfold skip_version. destruct o as [ver|]; cbn [enc_version] in H.
  - destruct (region_tlv_byte _ _ _ _ _ H eq_refl) as [Hb Hlt].
    rewrite (proj2 (Z.ltb_lt _ _)), Hb by done. red1. cbn iota.
    destruct (region_tlv _ Hsmall _ _ _ _ _ H eq_refl) as (s & e & H1 & H2 & H3 & _).
    rewrite H1. eauto.
  - cbn [app] in H. destruct (region_tlv_byte _ _ _ _ _ H eq_refl) as [Hb Hlt].
    rewrite (proj2 (Z.ltb_lt _ _)), Hb by done. eauto.
Qed.

(** The trailing fields: no extensions, or one [3] element. *)
Lemma trailing_at pos stop o :
  forallb (fun x => oid_arcs_ok (ex_oid x)) (default [] o) = true ->
  region buf pos stop (enc_exts o) ->
  exists fs, der_loop (loop_fuel buf) (fun pos => trailing_field buf pos stop) pos stop = Ok fs /\
    last_extensions fs = ext_map (default [] o).
Proof.
  intros Ho H. destruct o as [l|]; cbn [enc_exts default from_option id] in *.
  - destruct (region_tlv_last _ Hsmall _ _ _ _ H eq_refl) as (s & H1 & H2).
    destruct (region_tlv_byte pos stop 163 _ [] ltac:(by rewrite app_nil_r) eq_refl) as [_ Hlt].
    exists [Some (ext_map l)]. split; [|done].
    unfold loop_fuel. destruct (region_len _ _ _ _ H) as (? & ? & ?).
    destruct (length buf) as [|n] eqn:En; [unfold blen in *; lia|]. cbn [der_loop].
    assert (trailing_field buf pos stop = Ok (Some (ext_map l), stop)) as ->.
    { unfold trailing_field. rewrite H1. red1. cbn iota. by rewrite (extensions_at _ Hsmall _ _ _ Ho H2). }
    rewrite (proj2 (Z.ltb_lt _ _)) by done. red1.
    by rewrite (proj2 (Z.ltb_ge _ _)) by lia.
  - exists []. split; [|done]. apply region_len in H as (_ & -> & _).
    unfold loop_fuel. cbn [der_loop]. change (blen []) with 0.
    by rewrite (proj2 (Z.ltb_ge _ _)) by lia.
Qed.
End Whole.

(** ** The certificate *)

Lemma enc_key_alg k :
  key_ok k = true ->
  oid_arcs_ok (key_oid_of k) = true /\
  exists params rest, enc_key k = tlv_alg (key_oid_of k) params ++ rest.
Proof.
  destruct k as [c b|m e|o p b]; cbn [key_ok enc_key key_oid_of]; intros H; split; eauto.
  apply andb_true_iff in H as [H _]; apply andb_true_iff in H as [H _]; by apply andb_true_iff in H as [H _].
Qed.

Ltac red1 := cbn [mbind res_bind negb Z.eqb Pos.eqb andb orb default fst snd]; cbn iota.

Section CertDoc.
Context (d : cert_doc).
Hypothesis Hok : cert_ok d = true.

Local Abbreviation der := (enc_cert d).

Lemma cert_ok_parts :
  oid_arcs_ok (cd_sig d) = true /\ name_ok (cd_issuer d) = true /\ low_tag (cd_nb d).1 = true /\
  low_tag (cd_na d).1 = true /\ name_ok (cd_subject d) = true /\ key_ok (cd_key d) = true /\
  forallb (fun x => oid_arcs_ok (ex_oid x)) (exts_of d) = true /\ blen der < max_len.
Proof. unfold cert_ok in Hok. rewrite !andb_true_iff, Z.ltb_lt in Hok. tauto. Qed.

Lemma tbs_at : exists pos stop, tbs_of der = Ok (pos, stop) /\ region der pos stop (enc_tbs d).
Proof.
  destruct cert_ok_parts as (_ & _ & _ & _ & _ & _ & _ & Hs).
  destruct (region_tlv_last der Hs 0 (blen der) 48 _ (region_self der) eq_refl) as (s & H1 & H2).
  destruct (region_tlv der Hs _ _ _ _ _ H2 eq_refl) as (s' & e' & H3 & H4 & _).
  exists s', e'. split; [|done]. unfold tbs_of. rewrite H1. red1. by rewrite H3.
Qed.

Lemma cert_algorithm_oids_enc :
  cert_algorithm_oids der = Ok (show_arcs (cd_sig d), show_arcs (key_oid_of (cd_key d))).
Proof.
  destruct cert_ok_parts as (Hsig & _ & _ & _ & _ & Hkey & _ & Hs).
  destruct tbs_at as (pos & stop & Ht & Hr). unfold cert_algorithm_oids. rewrite Ht. red1.
  unfold enc_tbs in Hr.
  destruct (region_version _ Hs _ _ _ _ _ Hr) as (p1 & -> & H1). red1.
  destruct (region_skip _ Hs _ _ _ _ _ H1 eq_refl) as (p2 & -> & H2). red1.
  destruct (region_alg _ Hs _ _ _ _ _ H2 Hsig) as (p3 & -> & H3). red1.
  destruct (region_skip _ Hs _ _ _ _ _ H3 eq_refl) as (p4 & H4 & H4').
  destruct (region_skip _ Hs _ _ _ _ _ H4' eq_refl) as (p5 & H5 & H5').
  destruct (region_skip _ Hs _ _ _ _ _ H5' eq_refl) as (p6 & H6 & H6').
  cbn [foldM]. rewrite H4. red1. rewrite H5. red1. rewrite H6. red1.
  destruct (region_tlv _ Hs _ _ _ _ _ H6' eq_refl) as (s & e & -> & H7 & _). red1.
  destruct (enc_key_alg _ Hkey) as (Hko & params & rest & Ek). rewrite Ek in H7.
  by destruct (region_alg _ Hs _ _ _ _ _ H7 Hko) as (e' & -> & _).
Qed.

(** What [parse_certificate] should report for the document. *)
Definition cert_of (nb na : string) (ca : bool) : certificate :=
  let subject := name_text (cd_subject d) in
  let issuer := name_text (cd_issuer d) in
  let self_signed := String.eqb subject issuer in
  Certificate (sha256_hex der) (bytes_hex (cd_serial d)) subject issuer nb na
    (categorise_cert_oids [show_arcs (cd_sig d); show_arcs (key_oid_of (cd_key d))])
    (show_arcs (cd_sig d)) (key_text (cd_key d)).1 (show_arcs (key_oid_of (cd_key d)))
    (key_text (cd_key d)).2 ca self_signed
    (if ca || (self_signed && negb (dmem OID_BASIC_CONSTRAINTS (ext_map (exts_of d))))
     then "ca" else "leaf").

Lemma parse_certificate_enc nb na ca :
  der_time (cd_nb d).1 (cd_nb d).2 = Ok nb -> der_time (cd_na d).1 (cd_na d).2 = Ok na ->
  is_ca (ext_map (exts_of d)) = Ok ca ->
  parse_certificate der = Ok (cert_of nb na ca).
Proof.
  intros Hnb Hna Hca.
  destruct cert_ok_parts as (Hsig & Hiss & Htb & Hta & Hsub & Hkey & Hex & Hs).
  destruct tbs_at as (pos & stop & Ht & Hr). unfold parse_certificate. rewrite Ht. red1.
  unfold enc_tbs in Hr.
  destruct (region_version _ Hs _ _ _ _ _ Hr) as (p1 & -> & H1). red1.
  destruct (region_tlv _ Hs _ _ _ _ _ H1 eq_refl) as (s2 & p2 & -> & V2 & H2 & _). red1.
  destruct (region_alg _ Hs _ _ _ _ _ H2 Hsig) as (p3 & -> & H3). red1.
  destruct (region_tlv _ Hs _ _ _ _ _ H3 eq_refl) as (s4 & p4 & -> & V4 & H4 & _). red1.
  rewrite (name_at _ Hs _ _ _ Hiss V4). red1.
  destruct (region_tlv _ Hs _ _ _ _ _ H4 eq_refl) as (s5 & p5 & -> & V5 & H5 & _). red1.
  destruct (region_tlv _ Hs _ _ _ _ _ V5 Htb) as (s6 & p6 & -> & V6 & H6 & _). red1.
  destruct (region_tlv_last _ Hs _ _ _ _ H6 Hta) as (s7 & -> & V7). red1.
  rewrite (region_slice _ _ _ _ V6), (region_slice _ _ _ _ V7), Hnb. red1. rewrite Hna. red1.
  destruct (region_tlv _ Hs _ _ _ _ _ H5 eq_refl) as (s8 & p8 & -> & V8 & H8 & _). red1.
  rewrite (name_at _ Hs _ _ _ Hsub V8). red1.
  destruct (region_tlv _ Hs _ _ _ _ _ H8 eq_refl) as (s9 & p9 & -> & V9 & H9 & _). red1.
  rewrite (spki_key_at _ Hs _ _ _ Hkey V9). red1.
  destruct (trailing_at _ Hs _ _ _ Hex H9) as (fs & -> & Hfs). red1.
  rewrite Hfs. fold (exts_of d). rewrite Hca. red1.
  unfold cert_of. by rewrite (region_slice _ _ _ _ V2).
Qed.
End CertDoc.

(** A certificate: an ML-DSA-65 key signed with ML-DSA-65. *)
Definition digits_of (s : string) : bytes := (fun c => of_bval (Z.of_nat (nat_of_ascii c))) <$> chars s.
Definition ml_dsa_65 : list Z := [2; 16; 840; 1; 101; 3; 4; 3; 18].
Definition sample_doc (nb : string) : cert_doc :=
  CertDoc (Some [x02; x01; x02]) [x01; xab] ml_dsa_65 []
    [[Attr [2; 5; 4; 10] 12 (digits_of "Acme, Inc.")]; [Attr [2; 5; 4; 3] 12 (digits_of "Root")]]
    (23, digits_of nb) (24, digits_of "20551231235959Z")
    [[Attr [2; 5; 4; 10] 12 (digits_of "Acme, Inc.")]; [Attr [2; 5; 4; 3] 12 (digits_of "Root")]]
    (KeyOther ml_dsa_65 [] (tlv 3 [x00; x01; x02]))
    (Some [Ext [2; 5; 29; 19] true (tlv 48 (tlv 1 [xff]))]) (tlv 3 [x00]).

(** C1: The readers invert the encoding: from the DER encoding of any
    certificate (any serial, names, EC / RSA / other key, validity encodings
    and extensions, each element of any length up to 2^32) they return its
    algorithm OIDs and, when both times are readable, exactly its fields. *)
Theorem certificate_roundtrip d (Hok : cert_ok d = true) :
  cert_algorithm_oids (enc_cert d) = Ok (show_arcs (cd_sig d), show_arcs (key_oid_of (cd_key d))) /\
  forall nb na ca,
    der_time (cd_nb d).1 (cd_nb d).2 = Ok nb -> der_time (cd_na d).1 (cd_na d).2 = Ok na ->
    is_ca (ext_map (exts_of d)) = Ok ca ->
    parse_certificate (enc_cert d) = Ok (cert_of d nb na ca).
Proof.
  split; [by apply cert_algorithm_oids_enc|]. intros nb na ca. by apply parse_certificate_enc.
Qed.

Theorem certificate_roundtrip_witness :
  let d := sample_doc "250101000000Z" in
  cert_ok d = true /\
  cert_algorithm_oids (enc_cert d) = Ok ("2.16.840.1.101.3.4.3.18", "2.16.840.1.101.3.4.3.18") /\
  exists c, parse_certificate (enc_cert d) = Ok c /\
    (c_subject c, c_not_before c, c_not_after c, c_category c, c_key_algorithm c, c_role c) =
    ("CN=Root,O=Acme\, Inc.", "2025-01-01T00:00:00+00:00", "2055-12-31T23:59:59+00:00",
     PurePqc, "ML-DSA-65", "ca").
Proof.
  assert (cert_ok (sample_doc "250101000000Z") = true) as Hok by (vm_compute; reflexivity).
  split; [exact Hok|]. destruct (certificate_roundtrip _ Hok) as [H1 H2]. split.
  - etransitivity; [exact H1|]. vm_compute. reflexivity.
  - eexists. split.
    + apply (H2 "2025-01-01T00:00:00+00:00" "2055-12-31T23:59:59+00:00" true);
        vm_compute; reflexivity.
    + vm_compute. reflexivity.
Defined.
