(* ===== verification/TrustStore.v ===== *)
(** * The trust-store count ([scan_trust_store] of [detect/certs.py])

    Reading the store gives a list of DER blobs (files, links and PEM
    framing are I/O and not modelled); from there the code is translated
    whole: de-duplication by SHA-256, the cap, the counters and the
    per-certificate records.  The theorems are the contract of the
    docstring, and the round trips of the two certificate readers. *)

From S2P Require Import Prelude PyStr PyDict PyVal PyRe PyBytes Der DerTheory DerEncode.
From Stdlib.Strings Require Import Byte.
Open Scope Z_scope.

(** Under [except DERError]: the exception is the class the code names. *)
Definition catches_der (e : exn) : bool :=
  match e with Custom cls _ => String.eqb cls "DERError" | _ => false end.

(** [trust_store_certificate]: the ten keys of a record, in order. *)
Definition trust_store_certificate (c : certificate) : list (string * value) := [
  ("sha256", VStr (c_sha256 c));
  ("serial", VStr (c_serial c));
  ("subject", VStr (c_subject c));
  ("issuer", VStr (c_issuer c));
  ("not_before", VStr (c_not_before c));
  ("not_after", VStr (c_not_after c));
  ("category", VStr (category_name (c_category c)));
  ("role", VStr (c_role c));
  ("key_algorithm", VStr (c_key_algorithm c));
  ("key_size", match c_key_size c with Some n => VInt n | None => VNone end)].

Record tally := Tally {
  t_total : Z; t_pqc : Z; t_hybrid : Z;
  t_categories : list (string * Z);
  t_certificates : list (list (string * value)) }.

Definition tally0 : tally :=
  Tally 0 0 0 [("classical", 0); ("hybrid_composite", 0); ("pure_pqc", 0)] [].

Definition bool_Z (b : bool) : Z := if b then 1 else 0.

(** The certificates the inner [try] appends. *)
Definition tally_record (der : bytes) (certs : list (list (string * value))) :
    res (list (list (string * value))) :=
  match parse_certificate der with
  | Ok c => Ok (certs ++ [trust_store_certificate c])
  | Raise e => if catches_der e then Ok certs else Raise e
  end.

(** One turn of the loop over [to_scan]. *)
Definition tally_step (t : tally) (der : bytes) : res tally :=
  match cert_algorithm_oids der with
  | Raise e => if catches_der e then Ok t else Raise e
  | Ok (sig_oid, spki_oid) =>
      certs ← tally_record der (t_certificates t);
      let oids := [sig_oid; spki_oid] in
      Ok (Tally (t_total t + 1)
            (t_pqc t + bool_Z (existsb is_pqc_oid oids))
            (t_hybrid t + bool_Z (any_hybrid oids))
            (cincr (category_name (categorise_cert_oids oids)) (t_categories t))
            certs)
  end.

(** [unique]: the blobs by SHA-256, first one kept, in first-seen order. *)
Definition unique_ders (ders : list bytes) : list (string * bytes) :=
  foldl (fun u der => dsetdefault (sha256_hex der) der u) [] ders.

Record scan_result := ScanResult {
  s_total_certs : Z; s_pqc_certs : Z; s_hybrid_certs : Z;
  s_cert_categories : list (string * Z);
  s_total_found : Z; s_scanned_count : Z; s_max_certs : Z; s_truncated : bool;
  s_certificates : list (list (string * value)) }.

Definition scan_trust_store (ders : list bytes) (max_certs : Z) : res scan_result :=
  if max_certs <? 1 then Raise (ValueError ("max_certs must be >= 1, got " +:+ show_Z max_certs))
  else
    let unique := unique_ders ders in
    let to_scan := take (Z.to_nat max_certs) unique.*2 in
    t ← foldM tally_step tally0 to_scan;
    Ok (ScanResult (t_total t) (t_pqc t) (t_hybrid t) (t_categories t)
          (Z.of_nat (length unique)) (Z.of_nat (length to_scan)) max_certs
          (max_certs <? Z.of_nat (length unique)) (t_certificates t)).

(** ** Helpers *)

Lemma catches_der_iff e : catches_der e = true <-> is_der_error e.
Proof.
  unfold is_der_error, DERError. split.
  - destruct e; try done. intros ->%String.eqb_eq. eauto.
  - by intros [msg ->].
Qed.

Lemma cert_oids_caught der : 
  (exists p, cert_algorithm_oids der = Ok p) \/
  (exists e, cert_algorithm_oids der = Raise e /\ catches_der e = true).
Proof.
  pose proof (safe_cert_algorithm_oids der) as H. destruct (cert_algorithm_oids der) as [p|e]; eauto.
  right. exists e. split; [done|]. by apply catches_der_iff.
Qed.

(** The OIDs of the blobs that are classified, and the records of those
    that parse in full. *)
Definition cert_oids (der : bytes) : option (string * string) :=
  if cert_algorithm_oids der is Ok p then Some p else None.
Definition cert_record (der : bytes) : option (list (string * value)) :=
  match cert_algorithm_oids der, parse_certificate der with
  | Ok _, Ok c => Some (trust_store_certificate c)
  | _, _ => None
  end.

Definition oid_list (p : string * string) : list string := [p.1; p.2].
Definition pair_category (p : string * string) : category := categorise_cert_oids (oid_list p).
Definition count_if {A} (f : A -> bool) (l : list A) : Z := Z.of_nat (length (List.filter f l)).

(** The counters after any prefix of the loop. *)
Definition tally_inv (done : list bytes) (t : tally) : Prop :=
  let oids := omap cert_oids done in
  t_total t = Z.of_nat (length oids) /\
  t_pqc t = count_if (fun p => existsb is_pqc_oid (oid_list p)) oids /\
  t_hybrid t = count_if (fun p => any_hybrid (oid_list p)) oids /\
  t_categories t = count_keys (category_name ∘ pair_category <$> oids) (t_categories tally0) /\
  t_certificates t = omap cert_record done.

Lemma count_if_app {A} (f : A -> bool) l1 l2 : count_if f (l1 ++ l2) = count_if f l1 + count_if f l2.
Proof. unfold count_if. rewrite List.filter_app, length_app. lia. Qed.

Lemma count_if_one {A} (f : A -> bool) x : count_if f [x] = bool_Z (f x).
Proof. unfold count_if. simpl. by destruct (f x). Qed.

Lemma omap_snoc {A B} (f : A -> option B) l x :
  omap f (l ++ [x]) = omap f l ++ match f x with Some y => [y] | None => [] end.
Proof. rewrite omap_app. by simpl; destruct (f x). Qed.

Lemma tally_step_inv done t der t' :
  tally_inv done t -> tally_step t der = Ok t' -> tally_inv (done ++ [der]) t'.
Proof.
  unfold tally_inv, tally_step. rewrite !omap_snoc. intros (H1 & H2 & H3 & H4 & H5).
  remember (omap cert_oids done) as oids. remember (omap cert_record done) as recs.
  unfold cert_oids, cert_record.
  destruct (cert_algorithm_oids der) as [[so ko]|e].
  - intros H. bind H as certs Hc. injection H as <-. cbn [t_total t_pqc t_hybrid t_categories t_certificates].
    rewrite length_app, !count_if_app, !count_if_one, H1, H2, H3, H4.
    rewrite fmap_app. unfold count_keys at 2. rewrite foldl_app.
    split_and!; [simpl; lia | done.. |].
    unfold tally_record in Hc. destruct (parse_certificate der) as [c|e].
    + injection Hc as <-. by rewrite H5.
    + destruct (catches_der e); [|done]. injection Hc as <-. by rewrite H5, app_nil_r.
  - destruct (catches_der e); [|done]. intros [= <-].
    rewrite !app_nil_r. by split_and!.
Qed.

Lemma tally_foldM_inv ders done t t' :
  tally_inv done t -> foldM tally_step t ders = Ok t' -> tally_inv (done ++ ders) t'.
Proof.
  revert done t; induction ders as [|der ders IH]; intros done t Hi; simpl.
  - intros [= <-]. by rewrite app_nil_r.
  - intros H. bind H as t1 H1. change (done ++ der :: ders) with (done ++ [der] ++ ders). rewrite app_assoc.
    eapply IH; [|exact H]. by eapply tally_step_inv.
Qed.

Lemma safe_tally ders t : safe is_value_error (fun _ => True) (foldM tally_step t ders).
Proof.
  apply (safe_foldM _ (fun _ => True)); [done|]. intros t0 der _ _. unfold tally_step.
  destruct (cert_oids_caught der) as [[[so ko] ->]|(e & -> & ->)]; [|done].
  eapply (safe_bind _ (fun _ => True)); [|done]. unfold tally_record.
  pose proof (safe_parse_certificate der) as H.
  destruct (parse_certificate der) as [c|e]; [done|]. destruct (catches_der e) eqn:E; [done|].
  destruct H as [H|H]; [|done]. apply catches_der_iff in H. congruence.
Qed.

Lemma unique_ders_keys ders u :
  dwf u -> Forall (fun kv => kv.1 = sha256_hex kv.2) u ->
  let u' := foldl (fun u der => dsetdefault (sha256_hex der) der u) u ders in
  dwf u' /\ Forall (fun kv => kv.1 = sha256_hex kv.2) u' /\
  forall k, k ∈ u'.*1 <-> k ∈ u.*1 \/ k ∈ sha256_hex <$> ders.
Proof.
  revert u; induction ders as [|der ders IH]; intros u Hwf Hu; simpl.
  - split_and!; [done..|]. intros k. rewrite elem_of_nil. tauto.
  - destruct (IH (dsetdefault (sha256_hex der) der u)) as (H1 & H2 & H3).
    + by apply dsetdefault_wf.
    + unfold dsetdefault. case_match; [done|]. apply Forall_app. split; [done|]. by repeat constructor.
    + split_and!; [done..|]. intros k. rewrite H3, dsetdefault_keys. csimpl. rewrite elem_of_cons.
      destruct (dmem _ u) eqn:E; [apply dmem_iff in E|];
        rewrite ?elem_of_app, ?list_elem_of_singleton; naive_solver.
Qed.

Lemma omap_length_le {A B} (f : A -> option B) l : (length (omap f l) <= length l)%nat.
Proof. induction l as [|x l IH]; csimpl; [done|]. destruct (f x); simpl; lia. Qed.

(** ** The contract *)


(** A UTCTime whose year is not numeric is not malformed input to
    [parse_certificate]'s callers: its [ValueError] is not a [DERError], so
    one such certificate makes the whole scan raise instead of being
    skipped. *)
Theorem utc_time_escapes :
  let der := enc_cert (sample_doc "XX0101000000Z") in
  is_ok (cert_algorithm_oids der) = true /\
  (exists m, parse_certificate der = Raise (ValueError m)) /\
  (exists m, scan_trust_store [der] 500 = Raise (ValueError m)).
Proof.
  cbv zeta. split_and!; [vm_compute; reflexivity| |]; eexists; vm_compute; reflexivity.
Qed.
