(* ===== verification/Sshd.v ===== *)
(** * sshd's effective configuration ([detect/config_sshd.py])

    The config-file walk with its Include recursion, the [sshd -T] parser,
    public host keys and [detect_sshd].  The file readers are arguments; the
    walk is total: its measure is the Include depth that is left. *)

From S2P Require Import Prelude PyStr PyDict PyVal PyRe PyBytes PyPath Algorithms Classify ConfigRead.
From Stdlib.Strings Require Import Byte.
Open Scope Z_scope.

Definition SSHD_CONFIG_CANDIDATES : list string :=
  ["/etc/ssh/sshd_config"; "/usr/etc/ssh/sshd_config"].
Definition DEFAULT_HOST_KEYS : list string :=
  ["/etc/ssh/ssh_host_rsa_key"; "/etc/ssh/ssh_host_ecdsa_key"; "/etc/ssh/ssh_host_ed25519_key"].
Definition MAX_INCLUDE_DEPTH : nat := 16.
Definition KEYWORDS : list string := ["kexalgorithms"; "hostkeyalgorithms"].

(** ** Directives and globs *)

(** The first white space or [=] of a stripped line ends the keyword. *)
Definition key_end (c : ascii) : bool := is_space c || Ascii.eqb c "=".
Definition value_pad (c : ascii) : bool := char_in (String " " (String "009" "=")) c.

Fixpoint cut_key (l : list ascii) : list ascii * list ascii :=
  match l with
  | [] => ([], [])
  | c :: l' => if key_end c then ([], l) else let '(k, r) := cut_key l' in (c :: k, r)
  end.

Definition split_directive (line : string) : option (string * string) :=
  let s := strip line in
  if String.eqb s EmptyString || starts_with "#" s then None
  else let '(k, r) := cut_key (chars s) in
       Some (lower (str_of k), strip (lstrip_by value_pad (str_of r))).

(** [pattern.rpartition("/")], without the separator. *)
Fixpoint rpart_slash (acc l : list ascii) : list ascii * list ascii :=
  match l with
  | [] => ([], acc)
  | c :: l' => if Ascii.eqb c "/" then (reverse l', acc) else rpart_slash (c :: acc) l'
  end.

Definition glob_host (fs : filesystem) (pattern : string) : host (list string) :=
  let '(d, n) := rpart_slash [] (reverse (chars pattern)) in
  let directory := str_of d in
  let name := str_of n in
  if negb (existsb (fun c => bool_decide (c ∈ n)) (chars "*?[")) then Found [pattern]
  else
    match list_host_dir fs (if String.eqb directory EmptyString then "/" else directory) with
    | Unreadable u => Unreadable u
    | Absent => Found []
    | Found entries =>
        Found ((fun e => directory +:+ "/" +:+ e) <$> List.filter (fun e => fnmatch e name) entries)
    end.

(** ** The walk *)

Record sshd_cfg := Cfg {
  values : list (string * string); host_keys : list string; files : list string;
  unreadables : list unreadable; kex_uncertain : bool; stopped_at_match : bool }.

Definition cfg0 : sshd_cfg := Cfg [] [] [] [] false false.

(** The closure [skipped]. *)
Definition skipped (u : unreadable) (st : sshd_cfg) : sshd_cfg :=
  Cfg (values st) (host_keys st) (files st) (unreadables st ++ [u])
    (kex_uncertain st || negb (dmem "kexalgorithms" (values st))) (stopped_at_match st).

Definition add_file (path : string) (st : sshd_cfg) : sshd_cfg :=
  Cfg (values st) (host_keys st) (files st ++ [path]) (unreadables st) (kex_uncertain st)
    (stopped_at_match st).

Definition stop_at_match (st : sshd_cfg) : sshd_cfg :=
  Cfg (values st) (host_keys st) (files st) (unreadables st) (kex_uncertain st) true.

(** The [if key == "hostkey"] / [elif key in _KEYWORDS] tail. *)
Definition set_value (key value : string) (st : sshd_cfg) : sshd_cfg :=
  if String.eqb key "hostkey" && negb (String.eqb value EmptyString) then
    Cfg (values st) (host_keys st ++ [value]) (files st) (unreadables st) (kex_uncertain st)
      (stopped_at_match st)
  else if bool_decide (key ∈ KEYWORDS) && negb (dmem key (values st)) &&
          negb (String.eqb value EmptyString) then
    Cfg (dset key value (values st)) (host_keys st) (files st) (unreadables st)
      (kex_uncertain st) (stopped_at_match st)
  else st.

(** [for x in l: if not body(x): return False]. *)
Fixpoint each {A} (body : A -> sshd_cfg -> sshd_cfg * bool) (l : list A) (st : sshd_cfg) :
    sshd_cfg * bool :=
  match l with
  | [] => (st, true)
  | x :: l' => let '(st, go) := body x st in if go then each body l' st else (st, false)
  end.

Definition absolute_pattern (pat : string) : string :=
  if starts_with "/" pat then pat else "/etc/ssh/" +:+ pat.

Section Walk.
Context (read : string -> host string) (glob : string -> host (list string)).

(** [walk(path, depth)], with [fuel = 17 - depth]. *)
Fixpoint walk (fuel : nat) (path : string) (st : sshd_cfg) : sshd_cfg * bool :=
  match fuel with
  | O => (st, true)
  | S fuel =>
      match read path with
      | Unreadable u => (skipped u st, true)
      | Absent => (st, true)
      | Found text =>
          each
            (fun line st =>
               match split_directive line with
               | None => (st, true)
               | Some (key, value) =>
                   if String.eqb key "match" then (stop_at_match st, false)
                   else if String.eqb key "include" then
                     each
                       (fun pat st =>
                          match glob (absolute_pattern pat) with
                          | Unreadable u => (skipped u st, true)
                          | Absent => (st, true)
                          | Found included => each (walk fuel) included st
                          end)
                       (words value) st
                   else (set_value key value st, true)
               end)
            (splitlines text) (add_file path st)
      end
  end.

Definition parse_sshd_config (main_path : string) : sshd_cfg :=
  (walk (S MAX_INCLUDE_DEPTH) main_path cfg0).1.
End Walk.

(** [sshd -T] output: the last value of a keyword. *)
Definition parse_sshd_t_line (acc : list (string * string) * list string) (line : string) :=
  match split_directive line with
  | None => acc
  | Some (key, value) =>
      if String.eqb key "hostkey" then (acc.1, acc.2 ++ [value])
      else if bool_decide (key ∈ KEYWORDS) then (dset key value acc.1, acc.2)
      else acc
  end.
Definition parse_sshd_t (text : string) : list (string * string) * list string :=
  foldl parse_sshd_t_line ([], []) (splitlines text).

(** ** Public host keys *)

(** [_ssh_string]: [None] is the ValueError of a truncated string. *)
Definition ssh_string (blob : bytes) (off : Z) : option (bytes * Z) :=
  if blen blob <? off + 4 then None
  else
    let n := from_bytes (slice blob off (off + 4)) in
    let end_ := off + 4 + n in
    if blen blob <? end_ then None else Some (slice blob (off + 4) end_, end_).

Definition PQC_KEY_TOKENS : list string := ["mldsa"; "ml-dsa"; "slhdsa"; "slh-dsa"].

Definition key_bits (key_type : string) (blob : bytes) (off : Z) : option Z :=
  if String.eqb key_type "ssh-rsa" then
    '(_, off) ← ssh_string blob off;
    '(n, _) ← ssh_string blob off;
    Some (bit_length (from_bytes n))
  else if starts_with "ecdsa-sha2-nistp" key_type then int_of_str (after_last "nistp" key_type)
  else if String.eqb key_type "ssh-ed25519" then Some 256
  else if String.eqb key_type "ssh-ed448" then Some 456
  else None.

Definition rstrip_pad (s : string) : string := rstrip_by is_pad s.

Definition digest_bytes (b : bytes) : bytes := of_bval <$> Sha256.digest (bval <$> b).

Definition describe_public_key (line : string) : option (list (string * value)) :=
  match words (strip line) with
  | key_type :: b64 :: _ =>
      blob ← b64decode b64;
      '(inner_type, off) ← ssh_string blob 0;
      let inner := decode Utf8 inner_type in
      Some ([("type", VStr key_type);
             ("fingerprint_sha256",
               VStr ("SHA256:" +:+ rstrip_pad (b64encode (digest_bytes blob))))] ++
            (if String.eqb inner key_type then [] else [("type_mismatch", VStr inner)]) ++
            (match key_bits key_type blob off with Some n => [("bits", VInt n)] | None => [] end) ++
            [("pqc", VBool (existsb (fun t => contains t (lower key_type)) PQC_KEY_TOKENS))])
  | _ => None
  end.

Definition inventory_host_key (read_pub : string -> option string) (path : string) : value :=
  let pub := if ends_with ".pub" path then path else path +:+ ".pub" in
  VDict
    match read_pub pub with
    | None => [("path", VStr path); ("readable", VBool false)]
    | Some text =>
        let first := if String.eqb (strip text) EmptyString then EmptyString
                     else List.hd EmptyString (splitlines text) in
        match describe_public_key first with
        | None => [("path", VStr path); ("readable", VBool false);
                   ("reason", VStr "unparseable public key")]
        | Some desc => dupdate [("path", VStr path); ("readable", VBool true)] desc
        end
    end.
Definition inventory_host_keys (read_pub : string -> option string) (paths : list string) : list value :=
  inventory_host_key read_pub <$> paths.

(** ** [detect_sshd] *)

Record sshd_env := SshdEnv {
  e_read : string -> host string;                 (* _read_config *)
  e_glob : string -> host (list string);          (* _glob_host *)
  e_read_pub : string -> option string;           (* _read_host_file *)
  e_sshd_t : option (Z * string);                 (* rc, output; None: cannot be run *)
  e_fs_note : list (string * value) }.            (* _host_fs_note_for("sshd") *)

Definition buckets_value (b : buckets) : value :=
  VDict [("pure_pqc", VStrs (pure_pqc b)); ("hybrid", VStrs (hybrid b));
         ("classical", VStrs (classical b))].

Definition offered_fields (offered : list string) : res (list (string * value)) :=
  let groups := classify_ssh_kex offered in
  let pqc_names := pure_pqc groups ++ hybrid groups in
  refs ← ssh_kex_references (VStr <$> sorted_set pqc_names);
  Ok [("kex_offered", VStrs offered);
      ("kex_groups", buckets_value groups);
      ("kex_references", VDict refs);
      ("first_kex", of_ostr (head offered));
      ("pqc_offered", VBool (negb (bool_decide (pqc_names = []))));
      ("pqc_first", VBool (match offered with k :: _ => bool_decide (k ∈ pqc_names) | [] => false end))].

(** The search of the main file: the first candidate that exists; one that
    cannot be read ends it. *)
Fixpoint find_main (read : string -> host string) (candidates : list string) :
    option string * list unreadable :=
  match candidates with
  | [] => (None, [])
  | c :: cs =>
      match read c with
      | Found _ => (Some c, [])
      | Absent => find_main read cs
      | Unreadable u => (None, [u])
      end
  end.

(** The four keys of an unknown offer, in the order of the code's update. *)
Definition unknown_offer (source : string) (extra : list (string * value)) : list (string * value) :=
  [("kex_offered", VNone); ("kex_source", VStr source)] ++ extra ++
  [("pqc_offered", VNone); ("pqc_first", VNone)].

Definition nonempty_pieces (s : string) : list string :=
  filter (fun k => k <> EmptyString) (split "," s).

Definition first_char (s : string) : string := str_take 1 s.
Definition is_modifier (s : string) : bool := contains (first_char s) "+-^".

(** The branches on the raw KexAlgorithms value. *)
Definition kex_fields (client : list (string * value)) (uncertain : bool) (raw_kex : option string) :
    res (list (string * value)) :=
  if uncertain then
    Ok [("kex_offered", VNone); ("kex_source", VStr "unreadable-config");
        ("pqc_offered", VNone); ("pqc_first", VNone)]
  else
    match raw_kex with
    | None =>
        default_kex ← get "default_kex" (VDict client);
        if truthy default_kex then
          kex ← getitem "kex" default_kex;
          l ← py_iter kex;
          names ← strs_of l;
          fields ← offered_fields names;
          binary ← getitem "binary" default_kex;
          Ok (dupdate fields
                [("kex_source", VStr "openssh-compiled-default");
                 ("kex_default_source", VDict [("source", VStr "binary"); ("binary", binary)])])
        else Ok (unknown_offer "openssh-compiled-default" [])
    | Some raw =>
        if is_modifier raw then
          operator ← (if String.eqb raw EmptyString then Raise IndexError else Ok (first_char raw));
          Ok (unknown_offer "openssh-compiled-default"
                [("kex_modifier", VDict [("operator", VStr operator);
                                         ("algorithms", VStrs (nonempty_pieces (str_drop 1 raw)))])])
        else
          fields ← offered_fields (nonempty_pieces raw);
          Ok (dset "kex_source" (VStr "configured") fields)
    end.

(** [any(k.get("pqc") for k in keys)]. *)
Definition keys_pqc (keys : list value) : res bool :=
  anyM (fun k => v ← get "pqc" k; Ok (truthy v)) keys.

(** The fields read from the client probe. *)
Definition client_fields (client : list (string * value)) : res (list (string * value)) :=
  let c := VDict client in
  cg ← get "kex_groups" c;
  available ← get "available" c;
  if truthy available && is_dict cg then
    hybrid ← get "hybrid" cg;
    pure ← get "pure_pqc" cg;
    source ← get "source" c;
    evidence ←
      (if py_eq source (VStr "binary") then
         binaries ← get "binaries" c;
         h ← (py_iter (por hybrid (VList [])));
         p ← (py_iter (por pure (VList [])));
         names ← strs_of (h ++ p);
         Ok [("openssh_kex_evidence",
               VDict [("source", VStr "binary"); ("binaries", por binaries (VList []));
                      ("pqc_kex", VStrs (py_sorted str_lt names))])]
       else Ok []);
    Ok (("openssh_supports_pqc_kex", VBool (truthy hybrid || truthy pure)) :: evidence)
  else Ok [("openssh_supports_pqc_kex", VNone)].

Definition opt_field (k : string) (l : list value) : list (string * value) :=
  if l is [] then [] else [(k, VList l)].

Definition unavailable (us : list unreadable) : list (string * value) :=
  match us with
  | u :: _ =>
      [("available", VBool false);
       ("reason", VStr (u_path u +:+ " is not readable (" +:+ u_reason u +:+ ")"));
       ("unreadable", VList ((fun u => VDict (as_entry u)) <$> us))]
  | [] => [("available", VBool false);
           ("reason", VStr "no sshd_config found (/etc/ssh or /usr/etc/ssh)")]
  end.

(** Where the values come from: [sshd -T], or the files. *)
Record parsed := Parsed {
  p_source : string; p_values : list (string * string); p_host_keys : list string;
  p_files : list string; p_unreadable : list unreadable; p_uncertain : bool }.

Definition parsed_t (env : sshd_env) : option parsed :=
  '(rc, out) ← e_sshd_t env;
  if (rc =? 0) && contains "kexalgorithms" (lower out) then
    let '(vs, hks) := parse_sshd_t out in Some (Parsed "sshd -T" vs hks [] [] false)
  else None.

Definition parsed_files (env : sshd_env) : parsed + list unreadable :=
  match find_main (e_read env) SSHD_CONFIG_CANDIDATES with
  | (None, us) => inr us
  | (Some main, _) =>
      let cfg := parse_sshd_config (e_read env) (e_glob env) main in
      inl (Parsed "config files" (values cfg) (host_keys cfg) (files cfg) (unreadables cfg)
             (kex_uncertain cfg))
  end.

Definition get_parsed (env : sshd_env) : parsed + list unreadable :=
  match parsed_t env with Some p => inl p | None => parsed_files env end.

Definition detect_sshd (env : sshd_env) (client : list (string * value)) : res (list (string * value)) :=
  match get_parsed env with
  | inr us => Ok (dupdate (unavailable us) (e_fs_note env))
  | inl p =>
      let base := [("available", VBool true); ("source", VStr (p_source p))] ++
        opt_field "config_files" (VStr <$> p_files p) ++
        opt_field "unreadable" ((fun u => VDict (as_entry u)) <$> p_unreadable p) in
      kex ← kex_fields client (p_uncertain p) (dget "kexalgorithms" (p_values p));
      let hka :=
        match dget "hostkeyalgorithms" (p_values p) with
        | Some a => if negb (String.eqb a EmptyString) && negb (is_modifier a)
                    then [("host_key_algorithms", VStrs (nonempty_pieces a))] else []
        | None => []
        end in
      let paths := if p_host_keys p is [] then DEFAULT_HOST_KEYS else p_host_keys p in
      let keys := inventory_host_keys (e_read_pub env) paths in
      keys_are_pqc ← keys_pqc keys;
      cf ← client_fields client;
      Ok (dupdate
            (base ++ kex ++ hka ++
             [("host_keys", VList keys); ("host_keys_pqc", VBool keys_are_pqc)] ++ cf)
            (e_fs_note env))
  end.

(** ['not_offered'], ['not_first'] or None. *)
Definition sshd_pqc_gap (sshd : value) : res (option string) :=
  available ← get "available" sshd;
  supports ← (if truthy available then get "openssh_supports_pqc_kex" sshd else Ok VNone);
  if negb (truthy available) || negb (truthy supports) then Ok None
  else
    offered ← get "pqc_offered" sshd;
    first ← get "pqc_first" sshd;
    if is_false offered then Ok (Some "not_offered")
    else if truthy offered && is_false first then Ok (Some "not_first")
    else Ok None.

(** ** The walk reads one stream of directives

    The files, in the order sshd reads them, with every Include replaced by
    what it names, are one list of events; a Match ends the global part. *)

Inductive event :=
| EvFile (path : string)
| EvUnreadable (u : unreadable)
| EvMatch
| EvSet (key value : string).
#[export] Instance event_eq_dec : EqDecision event.
Proof. solve_decision. Defined.

Definition flat {A} (f : A -> list event) (l : list A) : list event := concat (f <$> l).

Section Stream.
Context (read : string -> host string) (glob : string -> host (list string)).

Fixpoint stream (fuel : nat) (path : string) : list event :=
  match fuel with
  | O => []
  | S fuel =>
      match read path with
      | Unreadable u => [EvUnreadable u]
      | Absent => []
      | Found text =>
          EvFile path ::
          flat (fun line =>
            match split_directive line with
            | None => []
            | Some (key, value) =>
                if String.eqb key "match" then [EvMatch]
                else if String.eqb key "include" then
                  flat (fun pat =>
                    match glob (absolute_pattern pat) with
                    | Unreadable u => [EvUnreadable u]
                    | Absent => []
                    | Found included => flat (stream fuel) included
                    end) (words value)
                else [EvSet key value]
            end) (splitlines text)
      end
  end.

Definition step_event (e : event) (st : sshd_cfg) : sshd_cfg * bool :=
  match e with
  | EvFile p => (add_file p st, true)
  | EvUnreadable u => (skipped u st, true)
  | EvMatch => (stop_at_match st, false)
  | EvSet k v => (set_value k v st, true)
  end.

Definition run_events (evs : list event) (st : sshd_cfg) : sshd_cfg * bool := each step_event evs st.

Lemma each_app {A} (body : A -> sshd_cfg -> sshd_cfg * bool) l1 l2 st :
  each body (l1 ++ l2) st =
  let '(st', go) := each body l1 st in if go then each body l2 st' else (st', false).
Proof.
  revert st; induction l1 as [|x l1 IH]; intros st; simpl; [done|].
  destruct (body x st) as [st' []]; [apply IH | done].
Qed.

Lemma each_flat {A} (body : A -> sshd_cfg -> sshd_cfg * bool) (f : A -> list event) l st :
  (forall x st, x ∈ l -> body x st = run_events (f x) st) ->
  each body l st = run_events (flat f l) st.
Proof.
  revert st; induction l as [|x l IH]; intros st H; [done|].
  unfold run_events, flat. csimpl. rewrite each_app, H by (by left). fold (run_events (f x) st).
  destruct (run_events (f x) st) as [st' []]; [|done].
  apply IH. intros y st0 Hy. apply H. by right.
Qed.

Lemma walk_stream fuel path st : walk read glob fuel path st = run_events (stream fuel path) st.
Proof.
  revert path st; induction fuel as [|fuel IH]; intros path st; [done|].
  cbn [walk stream]. destruct (read path) as [|text|u]; [done| |done].
  unfold run_events. cbn [each step_event]. fold (run_events).
  apply (each_flat _ _ _ (add_file path st)). intros line st0 _.
  destruct (split_directive line) as [[key value]|]; [|done].
  destruct (String.eqb key "match"); [done|]. destruct (String.eqb key "include"); [|done].
  apply each_flat. intros pat st1 _.
  destruct (glob (absolute_pattern pat)) as [|inc|u]; [done| |done].
  apply each_flat. intros. apply IH.
Qed.
End Stream.

(** The events before the first Match. *)
Fixpoint upto_match (evs : list event) : list event :=
  match evs with
  | [] => []
  | EvMatch :: _ => []
  | e :: evs => e :: upto_match evs
  end.

Definition set_of (k : string) (e : event) : option string :=
  match e with
  | EvSet k' v => if String.eqb k' k && negb (String.eqb v EmptyString) then Some v else None
  | _ => None
  end.
Definition file_of (e : event) : option string := if e is EvFile p then Some p else None.
Definition unreadable_of (e : event) : option unreadable := if e is EvUnreadable u then Some u else None.

(** The first obtained value of a keyword. *)
Definition first_set (k : string) (evs : list event) : option string := head (omap (set_of k) evs).

Definition step1 (st : sshd_cfg) (e : event) : sshd_cfg := (step_event e st).1.

Lemma run_events_upto evs st :
  run_events evs st =
  let st' := foldl step1 st (upto_match evs) in
  if bool_decide (EvMatch ∈ evs) then (stop_at_match st', false) else (st', true).
Proof.
  revert st; induction evs as [|e evs IH]; intros st; [done|].
  unfold run_events in *. cbn [each].
  assert (e <> EvMatch -> bool_decide (EvMatch ∈ e :: evs) = bool_decide (EvMatch ∈ evs)) as Hb.
  { intros Hne. apply bool_decide_ext. rewrite elem_of_cons. naive_solver. }
  destruct e; [rewrite Hb by done; apply IH..| |rewrite Hb by done; apply IH].
  cbn. by rewrite bool_decide_true by (by left).
Qed.

Lemma head_app {A} (l1 l2 : list A) : head (l1 ++ l2) = match head l1 with Some x => Some x | None => head l2 end.
Proof. by destruct l1. Qed.

Lemma omap_one {A B} (f : A -> option B) x : omap f [x] = match f x with Some y => [y] | None => [] end.
Proof. simpl. by destruct (f x). Qed.

(** What the fields of the configuration are after the events [evs]. *)
Record cfg_of (evs : list event) (st : sshd_cfg) : Prop := {
  co_values : forall k, dget k (values st) = if decide (k ∈ KEYWORDS) then first_set k evs else None;
  co_host_keys : host_keys st = omap (set_of "hostkey") evs;
  co_files : files st = omap file_of evs;
  co_unreadable : unreadables st = omap unreadable_of evs;
  co_uncertain : kex_uncertain st = true <->
    exists l1 u l2, evs = l1 ++ EvUnreadable u :: l2 /\ first_set "kexalgorithms" l1 = None }.

Lemma first_set_snoc k evs e :
  first_set k (evs ++ [e]) = match first_set k evs with Some v => Some v | None => set_of k e end.
Proof.
  unfold first_set. rewrite omap_app, head_app, omap_one.
  destruct (head _); [done|]. by destruct (set_of k e).
Qed.

Lemma uncertain_snoc (P : list event -> Prop) evs e :
  (exists l1 u l2, evs ++ [e] = l1 ++ EvUnreadable u :: l2 /\ P l1) <->
  (exists l1 u l2, evs = l1 ++ EvUnreadable u :: l2 /\ P l1) \/ ((exists u, e = EvUnreadable u) /\ P evs).
Proof.
  split.
  - intros (l1 & u & l2 & He & Hp). destruct l2 as [|y l2 _] using rev_ind.
    + apply app_inj_tail in He as [-> ->]. right. eauto.
    + rewrite app_comm_cons, app_assoc in He. apply app_inj_tail in He as [-> ->]. left. eauto.
  - intros [(l1 & u & l2 & -> & Hp)|[[u ->] Hp]].
    + exists l1, u, (l2 ++ [e]). by rewrite <-app_assoc.
    + by exists evs, u, [].
Qed.

Lemma uncertain_set k evs e :
  (forall u, e <> EvUnreadable u) ->
  (exists l1 u l2, evs = l1 ++ EvUnreadable u :: l2 /\ first_set k l1 = None) <->
  (exists l1 u l2, evs ++ [e] = l1 ++ EvUnreadable u :: l2 /\ first_set k l1 = None).
Proof.
  intros He. rewrite (uncertain_snoc (fun l => first_set k l = None)).
  split; [by left|]. intros [?|[[u ->] _]]; [done|]. by destruct (He u).
Qed.

Lemma step1_file evs st p :
  cfg_of evs st -> cfg_of (evs ++ [EvFile p]) (step1 st (EvFile p)).
Proof.
  intros [H1 H2 H3 H4 H5].
  split; cbn [step1 step_event add_file fst values host_keys files unreadables kex_uncertain];
    rewrite ?omap_app, ?omap_one.
  - intros k. rewrite H1, first_set_snoc. by destruct (first_set k evs).
  - cbn [set_of]. by rewrite H2, app_nil_r.
  - by rewrite H3.
  - cbn [unreadable_of]. by rewrite H4, app_nil_r.
  - rewrite H5. by apply uncertain_set.
Qed.

Lemma step1_unreadable evs st u :
  cfg_of evs st -> cfg_of (evs ++ [EvUnreadable u]) (step1 st (EvUnreadable u)).
Proof.
  intros [H1 H2 H3 H4 H5].
  split; cbn [step1 step_event skipped fst values host_keys files unreadables kex_uncertain];
    rewrite ?omap_app.
  - intros k. rewrite H1, first_set_snoc. by destruct (first_set k evs).
  - rewrite omap_one. cbn [set_of]. by rewrite H2, app_nil_r.
  - rewrite omap_one. cbn [file_of]. by rewrite H3, app_nil_r.
  - by rewrite H4, omap_one.
  - rewrite orb_true_iff, H5, (uncertain_snoc (fun l => first_set _ l = None)).
    rewrite negb_true_iff. unfold dmem. rewrite H1, decide_True by (by left).
    destruct (first_set _ evs); naive_solver.
Qed.

Lemma kw_not_hostkey : "hostkey" ∉ KEYWORDS.
Proof. apply (bool_decide_unpack _). vm_compute. exact I. Qed.

Lemma step1_set evs st k v :
  cfg_of evs st -> cfg_of (evs ++ [EvSet k v]) (step1 st (EvSet k v)).
Proof.
  intros [H1 H2 H3 H4 H5].
  assert (kex_uncertain st = true <-> exists l1 u l2, evs ++ [EvSet k v] = l1 ++ EvUnreadable u :: l2 /\
    first_set "kexalgorithms" l1 = None) as H5'.
  { rewrite H5. by apply uncertain_set. }
  assert (omap file_of (evs ++ [EvSet k v]) = files st) as H3'.
  { rewrite omap_app, omap_one. cbn [file_of]. by rewrite app_nil_r, H3. }
  assert (omap unreadable_of (evs ++ [EvSet k v]) = unreadables st) as H4'.
  { rewrite omap_app, omap_one. cbn [unreadable_of]. by rewrite app_nil_r, H4. }
  unfold step1. cbn [step_event fst]. unfold set_value.
  destruct (String.eqb k "hostkey" && negb (String.eqb v EmptyString)) eqn:Eh.
  - apply andb_true_iff in Eh as [->%String.eqb_eq Hv].
    split; cbn [values host_keys files unreadables kex_uncertain]; try done.
    + intros k'. rewrite H1. destruct (decide (k' ∈ KEYWORDS)) as [Hk|]; [|done]. rewrite first_set_snoc.
      destruct (first_set k' evs); [done|]. cbn [set_of].
      destruct (String.eqb "hostkey" k') eqn:E; [|done]. apply String.eqb_eq in E as <-.
      exfalso. by apply kw_not_hostkey.
    + by rewrite omap_app, omap_one, H2; cbn [set_of]; rewrite String.eqb_refl, Hv.
  - assert (omap (set_of "hostkey") (evs ++ [EvSet k v]) = host_keys st) as H2'.
    { rewrite omap_app, omap_one, <-H2. cbn [set_of]. by rewrite Eh, app_nil_r. }
    destruct (bool_decide (k ∈ KEYWORDS) && _ && _) eqn:Ek.
    + rewrite !andb_true_iff, bool_decide_eq_true, negb_true_iff in Ek. destruct Ek as [[Hin Hm] Hv].
      unfold dmem in Hm. rewrite H1, decide_True in Hm by done.
      split; cbn [values host_keys files unreadables kex_uncertain]; try done.
      intros k'. rewrite dget_dset, H1, first_set_snoc. cbn [set_of].
      destruct (decide (k = k')) as [<-|Hne].
      * rewrite decide_True by done. destruct (first_set k evs); [done|]. by rewrite String.eqb_refl, Hv.
      * rewrite (proj2 (String.eqb_neq k k')) by done. by destruct (first_set k' evs).
    + split; try done. intros k'. rewrite H1, first_set_snoc. destruct (decide (k' ∈ KEYWORDS)) as [Hk|]; [|done].
      destruct (first_set k' evs) eqn:Ef; [done|]. cbn [set_of].
      destruct (String.eqb k k') eqn:E; [|done]. apply String.eqb_eq in E as ->.
      destruct (String.eqb v EmptyString) eqn:Ev; [done|]. exfalso.
      rewrite (bool_decide_true (k' ∈ KEYWORDS)) in Ek by done.
      unfold dmem in Ek. by rewrite H1, decide_True, Ef in Ek by done.
Qed.

Lemma cfg_of_events evs : EvMatch ∉ evs -> cfg_of evs (foldl step1 cfg0 evs).
Proof.
  induction evs as [|e evs IH] using rev_ind; intros Hm.
  - split; try done; intros.
    + by case_decide.
    + split; [done|]. by intros ([] & ? & ? & ? & ?).
  - rewrite foldl_app. cbn [foldl]. rewrite not_elem_of_app in Hm. destruct Hm as [Hm1 Hm2].
    destruct e as [p|u| |k v].
    + apply step1_file; auto.
    + apply step1_unreadable; auto.
    + exfalso. apply Hm2. by left.
    + apply step1_set; auto.
Qed.

Lemma upto_match_free evs : EvMatch ∉ upto_match evs.
Proof.
  induction evs as [|e evs IH]; simpl; [apply not_elem_of_nil|].
  destruct e; try apply not_elem_of_nil; apply not_elem_of_cons; done.
Qed.

(** C6: [parse_sshd_config] answers for sshd: over the one stream of
    directives of the main file with its Includes expanded in place (to depth
    16), cut at the first Match, each keyword has its first obtained
    non-empty value, HostKey accumulates, every file read and every
    unreadable one is listed in order, and [kex_uncertain] is true exactly
    when an unreadable file came before any KexAlgorithms value. *)
Theorem parse_sshd_config_spec read glob main :
  let evs := stream read glob (S MAX_INCLUDE_DEPTH) main in
  let cfg := parse_sshd_config read glob main in
  cfg_of (upto_match evs) cfg /\ stopped_at_match cfg = bool_decide (EvMatch ∈ evs).
Proof.
  cbv zeta. unfold parse_sshd_config. rewrite walk_stream, run_events_upto. cbv zeta.
  pose proof (cfg_of_events _ (upto_match_free (stream read glob (S MAX_INCLUDE_DEPTH) main))) as [H1 H2 H3 H4 H5].
  assert (stopped_at_match (foldl step1 cfg0 (upto_match (stream read glob (S MAX_INCLUDE_DEPTH) main))) = false) as Hs.
  { assert (forall l st, EvMatch ∉ l -> stopped_at_match (foldl step1 st l) = stopped_at_match st) as Hl.
    { induction l as [|e l IH]; intros st He; [done|]. cbn [foldl]. apply not_elem_of_cons in He as [Hne He].
      rewrite IH by done. destruct e; try done. cbn. unfold set_value. by repeat case_match. }
    by rewrite Hl by apply upto_match_free. }
  case_bool_decide; split; try done; by split.
Qed.

(** ** Public keys *)

(** An SSH wire string. *)
Definition wire (b : bytes) : bytes := to_bytes 4 (blen b) ++ b.
Definition ascii_bytes (s : string) : bytes := (fun c => of_bval (Z.of_N (code c))) <$> chars s.

Lemma ssh_string_at buf off b :
  holds buf off (wire b) -> blen b < 4294967296 ->
  ssh_string buf off = Some (b, off + blen (wire b)).
Proof.
  unfold wire. intros H Hb. pose proof (holds_nonneg _ _ _ H) as [H0 H1].
  assert (blen (to_bytes 4 (blen b)) = 4) as Hl by done.
  rewrite blen_app, Hl in *. pose proof (blen_nonneg b).
  apply holds_app in H as [Ha Hv]. rewrite Hl in Hv.
  unfold ssh_string. rewrite (proj2 (Z.ltb_ge _ _)) by lia.
  pose proof (holds_slice _ _ _ Ha) as Hs. rewrite Hl in Hs.
  rewrite Hs, from_to_bytes, Z.mod_small by (change (256 ^ Z.of_nat 4) with 4294967296; lia).
  rewrite (proj2 (Z.ltb_ge _ _)) by lia.
  rewrite (holds_slice _ _ _ Hv). do 2 f_equal. lia.
Qed.

Definition rsa_blob (e n : bytes) : bytes := wire (ascii_bytes "ssh-rsa") ++ wire e ++ wire n.

Definition rsa_description (e n : bytes) : list (string * value) := [
  ("type", VStr "ssh-rsa");
  ("fingerprint_sha256", VStr ("SHA256:" +:+ rstrip_pad (b64encode (digest_bytes (rsa_blob e n)))));
  ("bits", VInt (bit_length (from_bytes n)));
  ("pqc", VBool false)].

(** For the public key line of any RSA key, [describe_public_key] reports
    the type, the SHA-256 fingerprint of the blob and the exact bit length of
    the modulus, whatever the comment-free line's numbers are. *)
Theorem describe_rsa_key e n :
  blen e < 4294967296 -> blen n < 4294967296 ->
  describe_public_key ("ssh-rsa" +:+ " " +:+ b64encode (rsa_blob e n)) = Some (rsa_description e n).
Proof.
  intros He Hn.
  assert (no_chars is_space "ssh-rsa") as Ha by (apply (bool_decide_unpack _); vm_compute; exact I).
  assert (rsa_blob e n <> []) as Hne by done.
  unfold describe_public_key. rewrite strip_pair, words_pair by (done || apply b64_no_space || by apply b64_nonempty).
  rewrite b64_roundtrip. cbn [mbind option_bind].
  assert (holds (rsa_blob e n) 0 (wire (ascii_bytes "ssh-rsa") ++ wire e ++ wire n)) as H by apply holds_self.
  apply holds_app in H as [H1 [H2 H3]%holds_app].
  rewrite (ssh_string_at _ _ _ H1) by done. cbn [mbind option_bind].
  change (decode Utf8 (ascii_bytes "ssh-rsa")) with "ssh-rsa".
  unfold key_bits. change (String.eqb "ssh-rsa" "ssh-rsa") with true. cbn iota.
  rewrite (ssh_string_at _ _ _ H2) by done. cbn [mbind option_bind].
  rewrite (ssh_string_at _ _ _ H3) by done. cbn [mbind option_bind app].
  reflexivity.
Qed.

Lemma describe_rsa_key_witness :
  exists d, describe_public_key ("ssh-rsa" +:+ " " +:+ b64encode (rsa_blob [x01; x00; x01] [x00; xc0; x01])) = Some d /\
    dget "bits" d = Some (VInt 16).
Proof.
  exists (rsa_description [x01; x00; x01] [x00; xc0; x01]). split.
  - apply (describe_rsa_key [x01; x00; x01] [x00; xc0; x01]); vm_compute; reflexivity.
  - vm_compute. reflexivity.
Defined.

(** ** What a reported gap rests on *)

Definition ssh_pqc (k : string) : bool := has_pqc_ssh_token k.

Lemma pqc_names_iff offered k :
  k ∈ pure_pqc (classify_ssh_kex offered) ++ hybrid (classify_ssh_kex offered) <->
  k ∈ offered /\ ssh_pqc k = true.
Proof.
  pose proof (classify_ssh_partition offered) as P.
  rewrite elem_of_app, (part_mem _ _ _ P KPure k), (part_mem _ _ _ P KHybrid k).
  unfold ssh_class, ssh_pqc. destruct (has_pqc_ssh_token k), (has_classical_ssh_token k),
    (is_classical_ssh_kex k); naive_solver.
Qed.

Lemma strs_of_map l names : strs_of l = Ok names -> l = VStr <$> names.
Proof.
  unfold strs_of. revert names; induction l as [|x l IH]; intros names; simpl.
  - by intros [= <-].
  - intros H. bind H as s Hs. bind H as ss Hss. injection H as <-.
    destruct x; try done. injection Hs as ->. csimpl. f_equal. by apply IH.
Qed.

(** The kex fields say whether PQC is offered exactly when the offered list
    is known, and then truthfully. *)
Definition kex_truth (fields : list (string * value)) : Prop :=
  (dget "kex_offered" fields = Some VNone /\ dget "pqc_offered" fields = Some VNone /\
   dget "pqc_first" fields = Some VNone) \/
  exists names, dget "kex_offered" fields = Some (VStrs names) /\
    dget "pqc_offered" fields = Some (VBool (existsb ssh_pqc names)) /\
    dget "pqc_first" fields = Some (VBool (match names with k :: _ => ssh_pqc k | [] => false end)).

Lemma any_pqc_name names :
  negb (bool_decide (pure_pqc (classify_ssh_kex names) ++ hybrid (classify_ssh_kex names) = [])) =
  existsb ssh_pqc names.
Proof.
  apply eq_iff_eq_true. rewrite negb_true_iff, bool_decide_eq_false, existsb_exists. split.
  - intros Hne. destruct (pure_pqc _ ++ hybrid _) as [|k l] eqn:E; [done|].
    assert (k ∈ pure_pqc (classify_ssh_kex names) ++ hybrid (classify_ssh_kex names)) as Hk
      by (rewrite E; by left).
    apply pqc_names_iff in Hk as [Hin Hp]. exists k. by rewrite <-list_elem_of_In.
  - intros (k & Hin%list_elem_of_In & Hp) E.
    assert (k ∈ []) as Hk by (rewrite <-E; by apply pqc_names_iff). by apply not_elem_of_nil in Hk.
Qed.

Lemma first_pqc_name k names :
  bool_decide (k ∈ pure_pqc (classify_ssh_kex (k :: names)) ++ hybrid (classify_ssh_kex (k :: names))) =
  ssh_pqc k.
Proof.
  apply eq_iff_eq_true. rewrite bool_decide_eq_true, pqc_names_iff.
  split; [by intros [_ ?] | intros; split; [by left|done]].
Qed.

Lemma offered_fields_truth names fields :
  offered_fields names = Ok fields -> kex_truth fields.
Proof.
  unfold offered_fields. intros H. bind H as refs Hr. injection H as <-. right. exists names.
  split; [done|]. split.
  - rewrite <-any_pqc_name. reflexivity.
  - destruct names as [|k names]; [reflexivity|]. rewrite <-(first_pqc_name k names). reflexivity.
Qed.

Lemma kex_truth_dset fields k v :
  k ∉ ["kex_offered"; "pqc_offered"; "pqc_first"] -> kex_truth fields -> kex_truth (dset k v fields).
Proof.
  intros Hk. unfold kex_truth.
  rewrite !not_elem_of_cons in Hk. destruct Hk as (? & ? & ? & _).
  by rewrite !dget_dset_ne.
Qed.

Lemma not_kex_key (k : string) (l : list string) : negb (bool_decide (k ∈ l)) = true -> k ∉ l.
Proof. by rewrite negb_true_iff, bool_decide_eq_false. Qed.

Lemma kex_fields_truth client uncertain raw fields :
  kex_fields client uncertain raw = Ok fields -> kex_truth fields.
Proof.
  unfold kex_fields. destruct uncertain; [intros [= <-]; by left|].
  destruct raw as [raw|].
  - destruct (is_modifier raw).
    + intros H. bind H as op Hop. injection H as <-. by left.
    + intros H. bind H as f Hf. injection H as <-.
      apply kex_truth_dset; [by apply not_kex_key | by eapply offered_fields_truth].
  - intros H. bind H as d Hd. destruct (truthy d); [|injection H as <-; by left].
    do 3 bind_inv H. bind H as f Hf. bind_inv H. injection H as <-. unfold dupdate. cbn [foldl fst snd].
    do 2 (apply kex_truth_dset; [by apply not_kex_key|]). by eapply offered_fields_truth.
Qed.

(** The keys [sshd_pqc_gap] reads, which the container note never sets. *)
Definition gap_keys : list string :=
  ["available"; "openssh_supports_pqc_kex"; "kex_offered"; "pqc_offered"; "pqc_first"].
Definition note_free (note : list (string * value)) : Prop := forall k, k ∈ gap_keys -> k ∉ note.*1.

Lemma gap_result r g :
  sshd_pqc_gap (VDict r) = Ok (Some g) ->
  (exists v, dget "available" r = Some v /\ truthy v = true) /\
  ((g = "not_offered" /\ dget "pqc_offered" r = Some (VBool false)) \/
   (g = "not_first" /\ dget "pqc_first" r = Some (VBool false) /\
    exists v, dget "pqc_offered" r = Some v /\ truthy v = true)).
Proof.
  unfold sshd_pqc_gap. rewrite !get_dict. cbn [mbind res_bind].
  destruct (dget "available" r) as [av|]; [|done]. cbn [from_option id].
  destruct (truthy av) eqn:Ea; [|done]. cbn [mbind res_bind negb orb].
  destruct (negb (truthy (default VNone _))); [done|].
  destruct (dget "pqc_offered" r) as [o|]; [|done]. cbn [from_option id].
  destruct (is_false o) eqn:Eo.
  - destruct o as [|[]| | | | |]; try done. intros [= <-]. eauto 10.
  - destruct (truthy o) eqn:Et; [|done].
    destruct (dget "pqc_first" r) as [f|]; [|done]. cbn [from_option id andb].
    destruct f as [|[]| | | | |]; try done. intros [= <-]. eauto 10.
Qed.

Definition kex_keys : list string := ["kex_offered"; "pqc_offered"; "pqc_first"].

Lemma kex_keys_gap k : k ∈ kex_keys -> k ∈ gap_keys.
Proof. unfold kex_keys, gap_keys. rewrite !elem_of_cons. tauto. Qed.

Lemma opt_field_other k k' l : k <> k' -> dget k (opt_field k' l) = None.
Proof. intros Hne. unfold opt_field. destruct l; simpl; [done|]. by rewrite decide_False. Qed.

Lemma detect_sshd_parsed env client r p :
  note_free (e_fs_note env) -> get_parsed env = inl p -> detect_sshd env client = Ok r ->
  exists kex, kex_fields client (p_uncertain p) (dget "kexalgorithms" (p_values p)) = Ok kex /\
    forall k v, k ∈ kex_keys -> dget k kex = Some v -> dget k r = Some v.
Proof.
  intros Hn Hp Hd. unfold detect_sshd in Hd. rewrite Hp in Hd.
  bind Hd as kex Hkex. bind_inv Hd. bind_inv Hd. injection Hd as <-.
  exists kex. split; [done|]. intros k v Hk Hv.
  rewrite dget_dupdate_other by (by apply Hn, kex_keys_gap).
  unfold kex_keys in Hk. rewrite !elem_of_cons, elem_of_nil in Hk.
  match goal with |- dget _ (?a :: ?b :: ?l) = _ => change (a :: b :: l) with ([a; b] ++ l) end.
  rewrite !dget_app, !opt_field_other, Hv by (intros ->; naive_solver).
  by destruct Hk as [->|[->|[->|[]]]].
Qed.

Lemma detect_sshd_unavailable env client r us :
  note_free (e_fs_note env) -> get_parsed env = inr us -> detect_sshd env client = Ok r ->
  dget "available" r = Some (VBool false).
Proof.
  intros Hn Hp Hd. unfold detect_sshd in Hd. rewrite Hp in Hd. injection Hd as <-.
  rewrite dget_dupdate_other by (apply Hn; by left). by destruct us.
Qed.

(** A reported gap is real: when [sshd_pqc_gap] names one for what
    [detect_sshd] returned, sshd's configuration was readable up to the key
    exchange, the offered list is the one reported, and it truly holds no PQC
    method ([not_offered]) or holds one but prefers a classical method
    ([not_first]); an unknown offer is never a gap. *)
Theorem sshd_gap_sound env client r g :
  note_free (e_fs_note env) ->
  detect_sshd env client = Ok r ->
  sshd_pqc_gap (VDict r) = Ok (Some g) ->
  exists p names, get_parsed env = inl p /\ p_uncertain p = false /\
    dget "kex_offered" r = Some (VStrs names) /\
    ((g = "not_offered" /\ existsb ssh_pqc names = false) \/
     (g = "not_first" /\ existsb ssh_pqc names = true /\
      match names with k :: _ => ssh_pqc k = false | [] => True end)).
Proof.
  intros Hnote Hd Hg. apply gap_result in Hg as [(av & Hav & Htr) Hg].
  destruct (get_parsed env) as [p|us] eqn:Hp.
  2:{ rewrite (detect_sshd_unavailable _ _ _ _ Hnote Hp Hd) in Hav. by simplify_eq/=. }
  destruct (detect_sshd_parsed _ _ _ _ Hnote Hp Hd) as (kex & Hkex & Hget).
  destruct (kex_fields_truth _ _ _ _ Hkex) as [(H1 & H2 & H3)|(names & H1 & H2 & H3)];
    apply Hget in H1, H2, H3; try (unfold kex_keys; rewrite !elem_of_cons; tauto).
  - exfalso. destruct Hg as [[_ Ho]|(_ & Hf & _)]; congruence.
  - exists p, names. split_and!; [done| |done|].
    + destruct (p_uncertain p) eqn:Hu; [|done]. exfalso. simpl in Hkex. injection Hkex as <-.
      specialize (Hget "kex_offered" VNone ltac:(by left) eq_refl). rewrite H1 in Hget. discriminate.
    + destruct Hg as [[-> Ho]|(-> & Hf & v & Ho & Hv)]; [left|right]; (split; [done|]); [congruence|].
      assert (v = VBool (existsb ssh_pqc names)) as -> by congruence. split; [by simpl in Hv|].
      destruct names as [|k names]; [done|]. congruence.
Qed.

(** A host whose Include brings in a classical-only list. *)
Definition sample_fs (path : string) : host string :=
  if String.eqb path "/etc/ssh/sshd_config" then
    Found (str_join newline ["Include sshd_config.d/*.conf"; "KexAlgorithms mlkem768x25519-sha256"; "Match User x"])
  else if String.eqb path "/etc/ssh/sshd_config.d/50.conf" then
    Found ("KexAlgorithms=curve25519-sha256,ecdh-sha2-nistp256")
  else Absent.
Definition sample_glob (pat : string) : host (list string) :=
  if String.eqb pat "/etc/ssh/sshd_config.d/*.conf" then Found ["/etc/ssh/sshd_config.d/50.conf"] else Found [].
Definition sample_sshd : sshd_env := SshdEnv sample_fs sample_glob (fun _ => None) None [].
Definition sample_client : list (string * value) :=
  [("available", VBool true);
   ("kex_groups", VDict [("hybrid", VStrs ["mlkem768x25519-sha256"]); ("pure_pqc", VList [])])].

Lemma sshd_gap_sound_witness :
  exists r p names, detect_sshd sample_sshd sample_client = Ok r /\
    sshd_pqc_gap (VDict r) = Ok (Some "not_offered") /\
    get_parsed sample_sshd = inl p /\ dget "kex_offered" r = Some (VStrs names).
Proof.
  destruct (detect_sshd sample_sshd sample_client) as [r|] eqn:E; [|vm_compute in E; discriminate].
  assert (sshd_pqc_gap (VDict r) = Ok (Some "not_offered")) as Hg.
  { vm_compute in E. injection E as <-. vm_compute. reflexivity. }
  destruct (sshd_gap_sound sample_sshd sample_client r "not_offered"
    (fun k _ => not_elem_of_nil k) E Hg) as (p & names & Hp & _ & Ho & _).
  exists r, p, names. auto.
Defined.
