(* ===== verification/Policy.v ===== *)
(** * Crypto-policy back-ends ([detect/config_policy.py], parsers)

    The policy name, the six back-end formats and the buckets of PQC names
    in them, [_pqc_enabled] and [policy_blocks_capable_pqc]. *)

From S2P Require Import Prelude PyStr PyDict PyVal PyRe Classify.
Open Scope Z_scope.

Definition PQ_ENABLING_SUBPOLICIES : list string := ["PQ"; "TEST-PQ"].
Definition PQ_DISABLING_SUBPOLICIES : list string := ["NO-PQ"].
Definition BACKENDS : list string :=
  ["opensslcnf"; "gnutls"; "nss"; "openssh"; "opensshserver"; "libreswan"].

Definition dash_opt : re := ROpt (Set_ "-_").
Definition PQC_KEM_TOKEN_RE : re :=
  RAlts [RSeqs [RLitI "ml"; dash_opt; RLitI "kem"]; RLitI "kyber"; RLitI "sntrup"; RLitI "frodo";
         RLitI "hqc"].
Definition PQC_SIG_TOKEN_RE : re :=
  RAlts [RSeqs [RLitI "ml"; dash_opt; RLitI "dsa"]; RSeqs [RLitI "slh"; dash_opt; RLitI "dsa"];
         RLitI "sphincs"; RLitI "falcon"; RSeqs [RLitI "fn"; dash_opt; RLitI "dsa"]].
Definition CLASSICAL_TOKEN_RE : re :=
  RAlts [RLitI "x25519"; RLitI "x448"; RSeqs [RLitI "secp"; Digits];
         RSeqs [RLitI "p"; RTimes 3 Digit REps]; RSeqs [RLitI "nistp"; Digits]; RLitI "ed25519";
         RLitI "ed448"; RLitI "rsa"; RLitI "pss"; RSeqs [RLitI "bp"; Digits]; RLitI "ecdsa"].

Record policy_name := PolicyName {
  pn_active : option string; pn_base : option string; pn_subpolicies : list string }.

Definition non_empty (s : string) : bool := negb (String.eqb s EmptyString).

(** [DEFAULT:TEST-PQ:NO-SHA1]: base policy and subpolicies. *)
Definition parse_policy_name (text : string) : policy_name :=
  let value := if non_empty (strip text) then strip (List.hd EmptyString (splitlines (strip text)))
               else EmptyString in
  let parts := List.filter non_empty (split ":" value) in
  PolicyName (if non_empty value then Some value else None) (head parts) (tail parts).

(** The two PQC buckets of a back-end, in preference order. *)
Record pqc_split := PqcSplit { ps_hybrid : list string; ps_pure : list string }.

Definition classify_pqc_step (token : re) (acc : pqc_split) (n : string) : pqc_split :=
  if negb (test_search token n) then acc
  else if test_search CLASSICAL_TOKEN_RE n
       then PqcSplit (ps_hybrid acc ++ [n]) (ps_pure acc)
       else PqcSplit (ps_hybrid acc) (ps_pure acc ++ [n]).
Definition classify_pqc (names : list string) (token : re) : pqc_split :=
  foldl (classify_pqc_step token) (PqcSplit [] []) names.

Definition marker (c : ascii) : bool := char_in "*?" c.
Definition clean_token (tok : string) : string := strip (lstrip_by marker (strip tok)).
Definition split_tokens (value seps : string) : list string :=
  List.filter non_empty (clean_token <$> re_split_class (char_in seps) value).

Definition OPENSSL_LINE_RE : re :=
  RSeqs [RStar true Space; RGrp 1 (RAlts [RLit "Groups"; RLit "SignatureAlgorithms"]);
         RStar true Space; RLit "="; RStar true Space; RGrp 2 (RStar true Dot); Eos].

Record openssl_backend := OpensslBackend {
  ob_groups : list string; ob_pqc_groups : pqc_split;
  ob_sigalgs : list string; ob_pqc_sigalgs : pqc_split }.

Definition openssl_line (acc : list string * list string) (line : string) : list string * list string :=
  match re_match OPENSSL_LINE_RE line with
  | None => acc
  | Some m =>
      let toks := split_tokens (group_or 2 m) ":/" in
      if String.eqb (group_or 1 m) "Groups" then (acc.1 ++ toks, acc.2) else (acc.1, acc.2 ++ toks)
  end.
Definition parse_opensslcnf_backend (text : string) : openssl_backend :=
  let '(groups, sigalgs) := foldl openssl_line ([], []) (splitlines text) in
  OpensslBackend groups (classify_pqc groups PQC_KEM_TOKEN_RE)
    sigalgs (classify_pqc sigalgs PQC_SIG_TOKEN_RE).

(** [re.findall] of a pattern with one group. *)
Definition findall1 (r : re) (text : string) : list string := group_or 1 <$> re_finditer r text.

Definition setting_re (key : string) : re :=
  RSeqs [Bol; RStar true Space; RLit key; RStar true Space; RLit "="; RStar true Space;
         RGrp 1 (RPlus NonSpace)].

Definition parse_gnutls_backend (text : string) : openssl_backend :=
  let groups := remove_prefix "GROUP-" <$> findall1 (setting_re "tls-enabled-group") text in
  let sigs := findall1 (setting_re "secure-sig") text in
  OpensslBackend groups (classify_pqc groups PQC_KEM_TOKEN_RE)
    sigs (classify_pqc sigs PQC_SIG_TOKEN_RE).

Definition quote_char (c : ascii) : bool := Ascii.eqb c "034".
Definition NSS_ALLOW_RE : re :=
  RSeqs [RAlts [Bos; RChr (fun c => is_space c || quote_char c)]; RLit "allow=";
         RGrp 1 (RPlus (RChr (fun c => negb (is_space c || quote_char c))))].

Record nss_backend := NssBackend {
  nb_allowed : list string; nb_pqc_groups : pqc_split; nb_pqc_sigalgs : pqc_split }.

Definition parse_nss_backend (text : string) : nss_backend :=
  let allowed := match re_search NSS_ALLOW_RE text with
                 | Some m => split_tokens (group_or 1 m) ":"
                 | None => []
                 end in
  NssBackend allowed (classify_pqc allowed PQC_KEM_TOKEN_RE) (classify_pqc allowed PQC_SIG_TOKEN_RE).

Definition KEX_ALGORITHMS_RE : re :=
  RSeqs [RAlts [Bol; Space; RLit "-o"]; RLit "KexAlgorithms"; Set_ " =";
         RGrp 1 (RPlus (RChr (fun c => negb (is_space c || quote_char c || Ascii.eqb c "'"))))].

Record openssh_backend := OpensshBackend { sb_kex : list string; sb_groups : buckets }.

Definition parse_openssh_backend (text : string) : openssh_backend :=
  let kex := concat ((fun v => List.filter non_empty (split "," v)) <$> findall1 KEX_ALGORITHMS_RE text) in
  OpensshBackend kex (classify_ssh_kex kex).

Definition IKE_RE : re := RSeqs [Bol; RStar true Space; RLit "ike="; RGrp 1 (RPlus NonSpace)].

Record libreswan_backend := LibreswanBackend { lb_proposals : list string; lb_pqc : list string }.

Definition parse_libreswan_backend (text : string) : libreswan_backend :=
  let proposals := findall1 IKE_RE text in
  let tokens := concat ((fun p => List.filter non_empty (re_split_class (char_in ",+-;") p)) <$> proposals) in
  LibreswanBackend proposals (List.filter (test_search PQC_KEM_TOKEN_RE) tokens).

(** ** What the active policy lets through *)

Definition split_value (s : pqc_split) : value :=
  VDict [("hybrid", VStrs (ps_hybrid s)); ("pure_pqc", VStrs (ps_pure s))].
Definition buckets_value (b : buckets) : value :=
  VDict [("pure_pqc", VStrs (pure_pqc b)); ("hybrid", VStrs (hybrid b));
         ("classical", VStrs (classical b))].

Definition openssl_backend_value (b : openssl_backend) : list (string * value) := [
  ("groups", VStrs (ob_groups b)); ("pqc_groups", split_value (ob_pqc_groups b));
  ("signature_algorithms", VStrs (ob_sigalgs b));
  ("pqc_signature_algorithms", split_value (ob_pqc_sigalgs b))].
Definition nss_backend_value (b : nss_backend) : list (string * value) := [
  ("allowed", VStrs (nb_allowed b)); ("pqc_groups", split_value (nb_pqc_groups b));
  ("pqc_signature_algorithms", split_value (nb_pqc_sigalgs b))].
Definition openssh_backend_value (b : openssh_backend) : list (string * value) := [
  ("kex", VStrs (sb_kex b)); ("kex_groups", buckets_value (sb_groups b))].
Definition libreswan_backend_value (b : libreswan_backend) : list (string * value) := [
  ("ike_proposals", VStrs (lb_proposals b)); ("pqc_key_exchange", VStrs (lb_pqc b))].

(** [_PARSERS]. *)
Definition PARSERS : list (string * (string -> list (string * value))) := [
  ("opensslcnf", openssl_backend_value ∘ parse_opensslcnf_backend);
  ("gnutls", openssl_backend_value ∘ parse_gnutls_backend);
  ("nss", nss_backend_value ∘ parse_nss_backend);
  ("openssh", openssh_backend_value ∘ parse_openssh_backend);
  ("opensshserver", openssh_backend_value ∘ parse_openssh_backend);
  ("libreswan", libreswan_backend_value ∘ parse_libreswan_backend)].

(** [not b or not b.get("readable")]. *)
Definition unread (b : value) : res bool :=
  if negb (truthy b) then Ok true else r ← get "readable" b; Ok (negb (truthy r)).

(** [(b.get(k) or {}).get("hybrid") or (b.get(k) or {}).get("pure_pqc")]. *)
Definition has_pqc_bucket (b : value) (k : string) : res bool :=
  g ← get k b;
  let g := por g (VDict []) in
  h ← get "hybrid" g;
  p ← get "pure_pqc" g;
  Ok (truthy h || truthy p).

Definition any_pqc (b : value) (keys : list string) : res value :=
  u ← unread b;
  if (u : bool) then Ok VNone else r ← anyM (has_pqc_bucket b) keys; Ok (VBool r).

Definition ike_pqc (b : value) : res value :=
  u ← unread b;
  if (u : bool) then Ok VNone else k ← get "pqc_key_exchange" b; Ok (VBool (truthy k)).

Definition pqc_enabled (backends : value) : res (list (string * value)) :=
  ssl ← get "opensslcnf" backends;
  ssh_client ← get "openssh" backends;
  ssh_server ← get "opensshserver" backends;
  ike ← get "libreswan" backends;
  tls_kex ← any_pqc ssl ["pqc_groups"];
  tls_sig ← any_pqc ssl ["pqc_signature_algorithms"];
  client ← any_pqc ssh_client ["kex_groups"];
  server ← any_pqc ssh_server ["kex_groups"];
  ikev ← ike_pqc ike;
  Ok [("tls_key_exchange", tls_kex); ("tls_signatures", tls_sig);
      ("ssh_key_exchange_client", client); ("ssh_key_exchange_server", server);
      ("ike_key_exchange", ikev)].

(** Capable but not configured. *)
Definition policy_blocks_capable_pqc (crypto_policy openssl : value) : res bool :=
  available ← get "available" crypto_policy;
  if negb (truthy available) then Ok false
  else
    tg ← get "tls_groups" openssl;
    capable ←
      (if is_dict tg then
         h ← get "hybrid" tg; p ← get "pure_pqc" tg; Ok (truthy h || truthy p)
       else n ← get "pqc_native" openssl; Ok (is_true n));
    if (capable : bool) then
      en ← get "pqc_enabled" crypto_policy;
      kex ← get "tls_key_exchange" (por en (VDict []));
      Ok (is_false kex)
    else Ok false.

(** ** Lemmas *)

Lemma classify_pqc_from token names acc :
  foldl (classify_pqc_step token) acc names =
  PqcSplit
    (ps_hybrid acc ++ List.filter (fun n => test_search token n && test_search CLASSICAL_TOKEN_RE n) names)
    (ps_pure acc ++ List.filter (fun n => test_search token n && negb (test_search CLASSICAL_TOKEN_RE n)) names).
Proof.
  revert acc; induction names as [|n names IH]; intros acc; cbn [foldl].
  - cbn. rewrite !app_nil_r. by destruct acc.
  - rewrite IH. unfold classify_pqc_step. cbn [List.filter].
    destruct (test_search token n), (test_search CLASSICAL_TOKEN_RE n); cbn [negb andb ps_hybrid ps_pure];
      by rewrite <-?app_assoc.
Qed.

Lemma classify_pqc_filter token names :
  classify_pqc names token =
  PqcSplit (List.filter (fun n => test_search token n && test_search CLASSICAL_TOKEN_RE n) names)
           (List.filter (fun n => test_search token n && negb (test_search CLASSICAL_TOKEN_RE n)) names).
Proof. apply classify_pqc_from. Qed.

Lemma drop_while_app p l k :
  Forall (fun c => p c = true) l -> (match k with [] => True | c :: _ => p c = false end) ->
  drop_while p (l ++ k) = k.
Proof.
  intros Hl Hk. induction Hl as [|c l Hc Hl IH]; simpl; [|by rewrite Hc].
  destruct k as [|c k]; simpl; [done|]. by rewrite Hk.
Qed.

(** A name as a policy writes it: none of the format's characters. *)
Definition format_char (c : ascii) : bool := is_space c || char_in "*?:/" c || is_line_end c.
Definition plain_name (n : string) : Prop := n <> EmptyString /\ no_chars format_char n.

Lemma plain_sub (q : ascii -> bool) n :
  (forall c, q c = true -> format_char c = true) -> plain_name n -> no_chars q n.
Proof. intros Hq [_ Hn]. by eapply no_chars_weaken. Qed.

Definition markers_ok (m : string) : Prop := all_chars marker m.

Lemma marker_format c : marker c = true -> format_char c = true.
Proof. destruct c as [[] [] [] [] [] [] [] []]; vm_compute; congruence. Qed.
Lemma space_format c : is_space c = true -> format_char c = true.
Proof. unfold format_char. by intros ->. Qed.
Lemma marker_space c : marker c = true -> is_space c = false.
Proof. destruct c as [[] [] [] [] [] [] [] []]; vm_compute; congruence. Qed.

Lemma clean_token_name m n : markers_ok m -> plain_name n -> clean_token (m +:+ n) = n.
Proof.
  intros Hm Hn. unfold clean_token.
  assert (no_chars is_space (m +:+ n)) as Hs.
  { apply no_chars_app. split.
    - eapply all_chars_no; [|exact Hm]. apply marker_space.
    - apply (plain_sub is_space); [apply space_format | done]. }
  rewrite (strip_id _ Hs). unfold lstrip_by. rewrite chars_app, drop_while_app.
  - rewrite str_of_chars. apply strip_id, (plain_sub is_space); [apply space_format | done].
  - exact Hm.
  - pose proof (plain_sub marker n marker_format Hn) as Hk. unfold no_chars in Hk.
    destruct (chars n); [done|]. by inversion Hk.
Qed.

(** ** Reading the OpenSSL back-end back *)

(** A group list as policies write it: each name with its markers, and the
    separator before every name but the first. *)
Definition item_text (x : string * string) : string := x.1 +:+ x.2.
Fixpoint render_rest (l : list (ascii * (string * string))) : string :=
  match l with
  | [] => EmptyString
  | (sep, x) :: l => String sep (item_text x +:+ render_rest l)
  end.
Definition render_groups (x : string * string) (l : list (ascii * (string * string))) : string :=
  item_text x +:+ render_rest l.

Definition item_ok (x : string * string) : Prop := markers_ok x.1 /\ plain_name x.2.
Definition sep_ok (s : ascii * (string * string)) : Prop := char_in ":/" s.1 = true /\ item_ok s.2.

Lemma split_class_free p acc l :
  Forall (fun c => p c = false) l -> split_class_chars p acc l = [reverse acc ++ l].
Proof.
  revert acc; induction l as [|c l IH]; intros acc H; simpl; [by rewrite app_nil_r|].
  inversion H as [|? ? Hc Hl]; subst. rewrite Hc, IH by done. by rewrite reverse_cons, <-app_assoc.
Qed.

Lemma split_class_app p acc l c k :
  Forall (fun c => p c = false) l -> p c = true ->
  split_class_chars p acc (l ++ c :: k) = (reverse acc ++ l) :: split_class_chars p [] k.
Proof.
  revert acc; induction l as [|d l IH]; intros acc H Hc; simpl.
  - by rewrite Hc, app_nil_r.
  - inversion H as [|? ? Hd Hl]; subst. rewrite Hd, IH by done. by rewrite reverse_cons, <-app_assoc.
Qed.

Lemma sep_format c : char_in ":/" c = true -> format_char c = true.
Proof. destruct c as [[] [] [] [] [] [] [] []]; vm_compute; congruence. Qed.
Lemma marker_not_sep c : marker c = true -> char_in ":/" c = false.
Proof. destruct c as [[] [] [] [] [] [] [] []]; vm_compute; congruence. Qed.

Lemma item_no_sep x : item_ok x -> Forall (fun c => char_in ":/" c = false) (chars (item_text x)).
Proof.
  intros [Hm Hn]. apply (no_chars_app (char_in ":/")). split.
  - eapply all_chars_no; [|exact Hm]. apply marker_not_sep.
  - apply plain_sub; [apply sep_format | done].
Qed.

Lemma split_render x l :
  item_ok x -> Forall sep_ok l ->
  re_split_class (char_in ":/") (render_groups x l) = item_text x :: (item_text <$> l.*2).
Proof.
  intros Hx Hl. unfold re_split_class, render_groups. revert x Hx; induction Hl as [|[s y] l [Hs Hy] Hl IH]; intros x Hx.
  - cbn [render_rest]. rewrite chars_app. cbn [String.list_ascii_of_string]. rewrite app_nil_r, split_class_free.
    + cbn. by rewrite str_of_chars.
    + by apply item_no_sep.
  - cbn [render_rest]. rewrite chars_app. cbn [String.list_ascii_of_string].
    rewrite split_class_app by (done || by apply item_no_sep). csimpl. rewrite IH by done.
    by rewrite str_of_chars.
Qed.

Lemma split_tokens_render x l :
  item_ok x -> Forall sep_ok l -> split_tokens (render_groups x l) ":/" = x.2 :: l.*2.*2.
Proof.
  intros Hx Hl. unfold split_tokens. rewrite split_render by done.
  assert (forall y, item_ok y -> clean_token (item_text y) = y.2 /\ non_empty y.2 = true) as Hc.
  { intros y [Hm Hn]. split; [by apply clean_token_name|]. unfold non_empty.
    apply negb_true_iff, String.eqb_neq, Hn. }
  csimpl. destruct (Hc x Hx) as [-> ->]. f_equal.
  induction Hl as [|[s y] l [Hs Hy] Hl IH]; [done|]. csimpl. destruct (Hc y Hy) as [-> ->].
  by rewrite IH.
Qed.

Definition setting_line (key value : string) : string := key +:+ " = " +:+ value.

(** A value the line pattern captures whole. *)
Definition value_ok (v : string) : Prop :=
  (match chars v with [] => True | c :: _ => is_space c = false end) /\ no_chars is_line_end v.

Lemma dot_not_line_end v : no_chars is_line_end v ->
  Forall (fun c => negb (Ascii.eqb c "010") = true) (chars v).
Proof.
  intros H. eapply Forall_impl; [exact H|]. intros c Hc. simpl in Hc. apply negb_true_iff, Ascii.eqb_neq.
  intros ->. done.
Qed.

Lemma openssl_line_match key v :
  key = "Groups" \/ key = "SignatureAlgorithms" -> value_ok v ->
  exists m, re_match OPENSSL_LINE_RE (setting_line key v) = Some m /\
    group_or 1 m = key /\ group_or 2 m = v.
Proof.
  intros Hk [Hv0 Hv].
  assert (exists l, run OPENSSL_LINE_RE (Pos [] (chars (setting_line key v)) []) Some =
    Some (Pos l [] [(2%nat, chars v); (1%nat, chars key)])) as (l & Hr).
  { assert (forall l0 caps, exists l,
      run (RSeqs [RStar true Space; RLit "="; RStar true Space; RGrp 2 (RStar true Dot); Eos])
        (Pos l0 ([" "; "="; " "]%char ++ chars v) caps) Some = Some (Pos l [] ((2%nat, chars v) :: caps))) as Htail.
    { intros l0 caps. eexists. unfold RSeqs, Space. cbn [foldr]. rewrite run_seq.
      apply (run_star_all is_space _ [" "%char]); [by repeat constructor | done|].
      rewrite run_seq. etransitivity; [apply (run_lit "=")|]. rewrite run_seq.
      apply (run_star_all is_space _ [" "%char]); [by repeat constructor | by destruct (chars v)|].
      rewrite run_seq, run_grp. unfold Dot. rewrite <-(app_nil_r (chars v)) at 1.
      apply run_star_all; [by apply dot_not_line_end | done|].
      cbn [p_left p_right p_caps]. rewrite <-(app_nil_r (chars v)) at 2.
      rewrite consumed_app. reflexivity. }
    unfold OPENSSL_LINE_RE, setting_line, RSeqs, Space. cbn [foldr]. rewrite run_seq, !chars_app.
    change (chars " = ") with [" "; "="; " "]%char. unfold RAlts. cbn [foldl].
    destruct (Htail (reverse (chars key) ++ []) [(1%nat, chars key)]) as [l Hl]. exists l.
    destruct Hk as [-> | ->]; (rewrite run_star_stop by done); rewrite run_seq, run_grp.
    - apply run_alt_l. rewrite run_lit. cbn [p_left p_right p_caps]. rewrite consumed_app. exact Hl.
    - rewrite run_alt_r by reflexivity. rewrite run_lit. cbn [p_left p_right p_caps].
      rewrite consumed_app. exact Hl. }
  unfold re_match. rewrite Hr. eexists. split; [done|]. unfold group_or, group. cbn. by rewrite !str_of_chars.
Qed.

Lemma line_end_format c : is_line_end c = true -> format_char c = true.
Proof. unfold format_char. intros ->. by rewrite orb_true_r. Qed.
Lemma sep_not_line_end c : char_in ":/" c = true -> is_line_end c = false.
Proof. destruct c as [[] [] [] [] [] [] [] []]; vm_compute; congruence. Qed.

Lemma item_no_line_end x : item_ok x -> no_chars is_line_end (item_text x).
Proof.
  intros [Hm Hn]. apply no_chars_app. split.
  - eapply all_chars_no; [|exact Hm]. intros c Hc%marker_space.
    apply not_true_iff_false. intros H%is_line_end_space. congruence.
  - apply plain_sub; [apply line_end_format | done].
Qed.

Lemma render_rest_no_line_end l : Forall sep_ok l -> no_chars is_line_end (render_rest l).
Proof.
  induction 1 as [|[s y] l [Hs Hy] Hl IH]; [constructor|]. cbn [render_rest].
  unfold no_chars. cbn [String.list_ascii_of_string]. constructor; [by apply sep_not_line_end|].
  apply no_chars_app. split; [by apply item_no_line_end | done].
Qed.

Lemma item_first x r : item_ok x ->
  match chars (item_text x +:+ r) with [] => False | c :: _ => is_space c = false end.
Proof.
  intros [Hm Hn]. unfold item_text. rewrite !chars_app.
  destruct (chars x.1) as [|c m] eqn:E.
  - pose proof (plain_sub is_space _ space_format Hn) as Hs. destruct Hn as [Hne _].
    unfold no_chars in Hs. destruct (chars x.2) eqn:E2; [by destruct Hne; apply chars_inj|]. by inversion Hs.
  - unfold markers_ok, all_chars in Hm. rewrite E in Hm. inversion Hm. by apply marker_space.
Qed.

Lemma render_value_ok x l : item_ok x -> Forall sep_ok l -> value_ok (render_groups x l).
Proof.
  intros Hx Hl. split.
  - pose proof (item_first x (render_rest l) Hx) as H. unfold render_groups.
    by destruct (chars _).
  - apply no_chars_app. split; [by apply item_no_line_end | by apply render_rest_no_line_end].
Qed.

Lemma setting_line_ok key v : key = "Groups" \/ key = "SignatureAlgorithms" -> value_ok v ->
  no_chars is_line_end (setting_line key v) /\ setting_line key v <> EmptyString.
Proof.
  intros Hk [_ Hv]. unfold setting_line. split; [|by destruct Hk as [-> | ->]].
  rewrite !no_chars_app. split_and!; [|by apply (bool_decide_unpack _)|done].
  destruct Hk as [-> | ->]; apply (bool_decide_unpack _); vm_compute; exact I.
Qed.

(** The OpenSSL back-end is read back: for any two lists of plain names
    written with the policy's markers ([*], [?]) and either separator, the
    parser returns the names in preference order and puts in the PQC buckets
    exactly the names that carry a PQC token, hybrid when they also carry a
    classical one, in the same order. *)
Theorem opensslcnf_backend_roundtrip x l y k :
  item_ok x -> Forall sep_ok l -> item_ok y -> Forall sep_ok k ->
  let text := str_join newline [setting_line "Groups" (render_groups x l);
                                setting_line "SignatureAlgorithms" (render_groups y k)] in
  let groups := x.2 :: l.*2.*2 in
  let sigs := y.2 :: k.*2.*2 in
  let hyb token := List.filter (fun n => test_search token n && test_search CLASSICAL_TOKEN_RE n) in
  let pure token := List.filter (fun n => test_search token n && negb (test_search CLASSICAL_TOKEN_RE n)) in
  parse_opensslcnf_backend text =
  OpensslBackend groups (PqcSplit (hyb PQC_KEM_TOKEN_RE groups) (pure PQC_KEM_TOKEN_RE groups))
    sigs (PqcSplit (hyb PQC_SIG_TOKEN_RE sigs) (pure PQC_SIG_TOKEN_RE sigs)).
Proof.
  intros Hx Hl Hy Hk. cbv zeta. unfold parse_opensslcnf_backend.
  pose proof (render_value_ok x l Hx Hl) as Vx. pose proof (render_value_ok y k Hy Hk) as Vy.
  rewrite splitlines_join by (constructor; [apply setting_line_ok; auto|]; constructor; [apply setting_line_ok; auto | constructor]).
  destruct (openssl_line_match "Groups" _ (or_introl eq_refl) Vx) as (m1 & E1 & G1 & W1).
  destruct (openssl_line_match "SignatureAlgorithms" _ (or_intror eq_refl) Vy) as (m2 & E2 & G2 & W2).
  cbn [foldl]. unfold openssl_line at 2. rewrite E1, G1, W1. cbn iota.
  unfold openssl_line. rewrite E2, G2, W2. cbn [fst snd app].
  rewrite !split_tokens_render by done.
  change (String.eqb "Groups" "Groups") with true.
  change (String.eqb "SignatureAlgorithms" "Groups") with false. cbn iota.
  by rewrite !classify_pqc_filter.
Qed.

Lemma item_ok_dec m n :
  bool_decide (Forall (fun c => marker c = true) (chars m)) = true ->
  bool_decide (n <> EmptyString) = true ->
  bool_decide (Forall (fun c => format_char c = false) (chars n)) = true -> item_ok (m, n).
Proof.
  intros H1%bool_decide_eq_true H2%bool_decide_eq_true H3%bool_decide_eq_true. by split; [|split].
Qed.

Ltac items := repeat (constructor; try (split; [vm_compute; reflexivity|]));
  apply item_ok_dec; vm_compute; reflexivity.

Lemma opensslcnf_backend_roundtrip_witness :
  exists b, parse_opensslcnf_backend (str_join newline
      [setting_line "Groups" "*?X25519MLKEM768:?x25519_mlkem768/*X25519";
       setting_line "SignatureAlgorithms" "?mldsa44:RSA+SHA256"]) = b /\
  ob_groups b = ["X25519MLKEM768"; "x25519_mlkem768"; "X25519"] /\
  ps_hybrid (ob_pqc_groups b) = ["X25519MLKEM768"; "x25519_mlkem768"] /\
  ps_pure (ob_pqc_sigalgs b) = ["mldsa44"].
Proof.
  eexists. split.
  - apply (opensslcnf_backend_roundtrip ("*?", "X25519MLKEM768")
      [(":"%char, ("?", "x25519_mlkem768")); ("/"%char, ("*", "X25519"))] ("?", "mldsa44")
      [(":"%char, (EmptyString, "RSA+SHA256"))]); items.
  - vm_compute. auto.
Defined.

(** [DEFAULT:TEST-PQ:NO-SHA1] and its like: a policy file that holds the
    base policy and its subpolicies, names without colon, white space or
    line end, reads back as exactly those. *)
Theorem parse_policy_name_roundtrip base subs :
  Forall (fun n => n <> EmptyString /\ no_chars is_space n /\ ":"%char ∉ chars n) (base :: subs) ->
  let text := str_join ":" (base :: subs) in
  parse_policy_name (text +:+ newline) = PolicyName (Some text) (Some base) subs /\
  parse_policy_name text = PolicyName (Some text) (Some base) subs.
Proof.
  intros Hn. cbv zeta. set (ns := base :: subs) in *.
  assert (no_chars is_space (str_join ":" ns)) as Hs.
  { unfold no_chars. rewrite chars_str_join. clear -Hn. induction Hn as [|n ns (_ & H1 & _) Hns IH]; [constructor|].
    destruct ns as [|n' ns]; [exact H1|]. csimpl in *. apply Forall_app. split; [exact H1|].
    by constructor. }
  assert (str_join ":" ns <> EmptyString) as Hne.
  { intros E. apply (f_equal (fun s => chars s)) in E. rewrite chars_str_join in E.
    inversion Hn as [|? ? (Hb & _ & _) _]; subst. apply Hb, chars_inj. unfold ns in E. csimpl in E.
    destruct subs; [exact E|]. csimpl in E. by apply app_nil in E as [E _]. }
  assert (strip (str_join ":" ns +:+ newline) = str_join ":" ns) as Hstrip.
  { unfold strip, strip_by, rstrip_by, lstrip_by. rewrite chars_app.
    assert (chars newline = ["010"%char]) as -> by done.
    pose proof Hs as Hs'. unfold no_chars in Hs'.
    rewrite drop_while_id_app by (first [done | intros E; by apply Hne, chars_inj]). rewrite chars_str_of, reverse_app, reverse_singleton. cbn [app drop_while].
    change (is_space "010") with true. cbn iota. rewrite drop_while_id by (by apply Forall_reverse).
    by rewrite reverse_involutive, str_of_chars. }
  assert (parse_policy_name (str_join ":" ns) = PolicyName (Some (str_join ":" ns)) (Some base) subs) as Hp.
  { unfold parse_policy_name. rewrite (strip_id _ Hs).
    assert (non_empty (str_join ":" ns) = true) as -> by (unfold non_empty; by apply negb_true_iff, String.eqb_neq).
    rewrite splitlines_one by (done || (eapply no_chars_weaken; [|exact Hs]; apply is_line_end_space)).
    cbn [List.hd]. rewrite (strip_id _ Hs).
    assert (non_empty (str_join ":" ns) = true) as -> by (unfold non_empty; by apply negb_true_iff, String.eqb_neq).
    rewrite join_split by (done || (eapply Forall_impl; [exact Hn|]; by intros ? (_ & _ & ?))).
    assert (List.filter non_empty ns = ns) as ->; [|done].
    clear -Hn. induction Hn as [|n ns (H & _) Hns IH]; [done|]. cbn. unfold non_empty at 1.
    rewrite (proj2 (String.eqb_neq n EmptyString)) by done. cbn. by rewrite IH. }
  split; [|exact Hp]. unfold parse_policy_name in *. rewrite Hstrip. by rewrite (strip_id _ Hs) in Hp.
Qed.

Lemma parse_policy_name_roundtrip_witness :
  parse_policy_name ("DEFAULT:TEST-PQ:NO-SHA1" +:+ newline) =
  PolicyName (Some "DEFAULT:TEST-PQ:NO-SHA1") (Some "DEFAULT") ["TEST-PQ"; "NO-SHA1"].
Proof.
  apply (parse_policy_name_roundtrip "DEFAULT" ["TEST-PQ"; "NO-SHA1"]).
  apply (bool_decide_unpack _). vm_compute. exact I.
Defined.

(** "Capable but not configured" is reported only when the policy data
    says the OpenSSL back-end was read and lets no PQC group through, and the
    build exposes a PQC group (or, with its groups unknown, is 3.5 or newer);
    a missing or unreadable back-end never blocks. *)
Theorem policy_blocks_capable_pqc_spec cp o :
  policy_blocks_capable_pqc (VDict cp) (VDict o) = Ok true ->
  truthy (default VNone (dget "available" cp)) = true /\
  (exists en, dget "pqc_enabled" cp = Some (VDict en) /\ dget "tls_key_exchange" en = Some (VBool false)) /\
  match dget "tls_groups" o with
  | Some (VDict tg) => truthy (default VNone (dget "hybrid" tg)) = true \/
                       truthy (default VNone (dget "pure_pqc" tg)) = true
  | _ => dget "pqc_native" o = Some (VBool true)
  end.
Proof.
  unfold policy_blocks_capable_pqc. rewrite !get_dict. cbn [mbind res_bind].
  destruct (truthy (default VNone (dget "available" cp))) eqn:Ha; [|done]. cbn [negb].
  intros H. split; [done|].
  assert (exists capable, (if is_dict (default VNone (dget "tls_groups" o)) then
      h ← get "hybrid" (default VNone (dget "tls_groups" o));
      p ← get "pure_pqc" (default VNone (dget "tls_groups" o)); Ok (truthy h || truthy p)
    else n ← get "pqc_native" (VDict o); Ok (is_true n)) = Ok capable /\ capable = true /\
    is_false (default VNone (match por (default VNone (dget "pqc_enabled" cp)) (VDict []) with VDict en => dget "tls_key_exchange" en | _ => None end)) = true)
    as (capable & Hc & -> & Hk).
  { bind H as capable Hc. exists capable. destruct capable; [|done]. split_and!; [done..|].
    cbn [mbind res_bind] in H. bind H as kex Hkex. injection H as H.
    destruct (por _ _); try discriminate. cbn in Hkex. by simplify_eq. }
  clear H. split.
  - destruct (dget "pqc_enabled" cp) as [en|]; cbn [from_option id] in Hk; [|done].
    unfold por in Hk. destruct (truthy en); [|done]. destruct en; try done.
    exists d. split; [done|]. destruct (dget "tls_key_exchange" d) as [v|]; [|done].
    by destruct v as [|[]| | | | |].
  - destruct (dget "tls_groups" o) as [tg|]; cbn [from_option id] in Hc.
    + destruct tg; cbn in Hc; try (destruct (dget "pqc_native" o) as [[|[]| | | | |]|]; done).
      injection Hc as Hc. by apply orb_true_iff in Hc.
    + cbn in Hc. by destruct (dget "pqc_native" o) as [[|[]| | | | |]|].
Qed.

Lemma policy_blocks_capable_pqc_spec_witness :
  let cp := [("available", VBool true); ("pqc_enabled", VDict [("tls_key_exchange", VBool false)])] in
  exists en, dget "pqc_enabled" cp = Some (VDict en) /\ dget "tls_key_exchange" en = Some (VBool false).
Proof.
  intros cp. apply (policy_blocks_capable_pqc_spec cp [("pqc_native", VBool true)]). vm_compute. reflexivity.
Defined.
