(* ===== verification/OpensslConf.v ===== *)
(** * OpenSSL's effective configuration ([detect/config_openssl.py])

    [openssl.cnf] with its includes, the effective settings it leads to, and
    what [detect_openssl_config] reports.  The readers are arguments; the
    include depth that is left bounds the recursion. *)

From S2P Require Import Prelude PyStr PyDict PyVal PyRe PyPath ConfigRead Policy.
Open Scope Z_scope.

Definition BUILTIN_PROVIDERS : list string := ["default"; "base"; "fips"; "legacy"; "null"].
Definition OPENSSL_35_DEFAULT_GROUPS : list string :=
  ["X25519MLKEM768"; "X25519"; "secp256r1"; "X448"; "secp384r1"; "secp521r1"; "ffdhe2048"; "ffdhe3072"].
Definition CONFIG_CANDIDATES : list (string * list string) := [
  ("rhel", ["/etc/pki/tls/openssl.cnf"; "/etc/ssl/openssl.cnf"]);
  ("debian", ["/etc/ssl/openssl.cnf"; "/usr/lib/ssl/openssl.cnf"]);
  ("suse", ["/etc/ssl/openssl.cnf"])].
Definition FALLBACK_CANDIDATES : list string :=
  ["/etc/pki/tls/openssl.cnf"; "/etc/ssl/openssl.cnf"; "/usr/lib/ssl/openssl.cnf"].
Definition MAX_INCLUDE_DEPTH : nat := 8.

Definition spaces : re := RStar true Space.
Definition lazy_plus (p : ascii -> bool) : re := RSeq (RChr p) (RStar false (RChr p)).
Definition not_newline (c : ascii) : bool := negb (Ascii.eqb c "010").

Definition SECTION_RE : re :=
  RSeqs [Bos; spaces; RLit "["; spaces; RGrp 1 (lazy_plus (fun c => negb (Ascii.eqb c "]"))); spaces;
         RLit "]"; spaces; Eos].
Definition INCLUDE_RE : re :=
  RSeqs [Bos; spaces; RLit ".include"; spaces; ROpt (RLit "="); spaces;
         RGrp 1 (RSeq NonSpace (RStar false (RChr not_newline))); spaces; Eos].
Definition KV_RE : re :=
  RSeqs [Bos; spaces;
         RGrp 1 (RSeq (RChr (fun c => negb (char_in "=#" c || is_space c)))
                      (RStar false (RChr (fun c => negb (Ascii.eqb c "=")))));
         spaces; RLit "="; spaces; RGrp 2 (RStar false (RChr not_newline)); spaces; Eos].

(** An unescaped [#] starts a comment; a backslash keeps the next character. *)
Fixpoint strip_comment_chars (l : list ascii) : list ascii :=
  match l with
  | [] => []
  | c :: l' =>
      match l' with
      | d :: l'' =>
          if Ascii.eqb c "\" then d :: strip_comment_chars l''
          else if Ascii.eqb c "#" then [] else c :: strip_comment_chars l'
      | [] => if Ascii.eqb c "#" then [] else [c]
      end
  end.
Definition strip_comment (line : string) : string := str_of (strip_comment_chars (chars line)).

(** ** The parser *)

Record cnf := Cnf {
  c_sections : list (string * list (string * string)); c_files : list string;
  c_errors : list string; c_unreadable : list unreadable; c_seen : list string }.

Definition cnf0 : cnf := Cnf [] [] [] [] [].

Definition see (p : string) (st : cnf) : cnf :=
  Cnf (c_sections st) (c_files st) (c_errors st) (c_unreadable st) (p :: c_seen st).
Definition add_error (p : string) (st : cnf) : cnf :=
  Cnf (c_sections st) (c_files st) (c_errors st ++ [p]) (c_unreadable st) (c_seen st).
Definition add_unreadable (p : string) (u : unreadable) (st : cnf) : cnf :=
  Cnf (c_sections st) (c_files st) (c_errors st ++ [p]) (c_unreadable st ++ [u]) (c_seen st).
Definition add_file (p : string) (st : cnf) : cnf :=
  Cnf (c_sections st) (c_files st ++ [p]) (c_errors st) (c_unreadable st) (c_seen st).
Definition set_sections (s : list (string * list (string * string))) (st : cnf) : cnf :=
  Cnf s (c_files st) (c_errors st) (c_unreadable st) (c_seen st).

(** [sections.setdefault(section, {})[key] = value]. *)
Definition put (section key value : string) (ss : list (string * list (string * string))) :=
  dset section (dset key value (default [] (dget section ss))) ss.

(** A value in matching quotes loses them. *)
Definition unquote (v : string) : string :=
  match chars v, last (chars v) with
  | c :: (_ :: _) as l, Some d =>
      if Ascii.eqb c d && (Ascii.eqb c "034" || Ascii.eqb c "'")
      then str_of (take (length l - 2) (drop 1 l)) else v
  | _, _ => v
  end.

(** What one line says. *)
Inductive cnf_line :=
| LNone
| LInclude (target : string)
| LSection (name : string)
| LKey (key value : string).

Definition read_line (raw : string) : cnf_line :=
  let line := rstrip (strip_comment raw) in
  if String.eqb (strip line) EmptyString || starts_with ".pragma" (lstrip line) then LNone
  else
    match re_match INCLUDE_RE line with
    | Some m => LInclude (group_or 1 m)
    | None =>
        match re_match SECTION_RE line with
        | Some m => LSection (group_or 1 m)
        | None =>
            match re_match KV_RE line with
            | Some m => LKey (strip (group_or 1 m)) (unquote (strip (group_or 2 m)))
            | None => LNone
            end
        end
    end.

Definition include_target (p target : string) : string :=
  if starts_with "/" target then target else normpath (path_join (dirname p) target).

Definition is_conf (name : string) : bool := ends_with ".cnf" name || ends_with ".conf" name.

Section Parse.
Context (read : string -> host string) (list_dir : string -> host (list string)).

(** [load(p, current, depth)] with [fuel = 9 - depth]; the pair is the
    state and the section the caller continues in. *)
Fixpoint load (fuel : nat) (p current : string) (st : cnf) : cnf * string :=
  match fuel with
  | O => (add_error p st, current)
  | S fuel =>
      if bool_decide (p ∈ c_seen st) then (add_error p st, current)
      else
        let st := see p st in
        match list_dir p with
        | Unreadable u => (add_unreadable p u st, current)
        | Found entries =>
            foldl (fun '(st, current) name =>
                     load fuel (rstrip_by is_slash p +:+ "/" +:+ name) current st)
              (st, current) (List.filter is_conf (py_sorted str_lt entries))
        | Absent =>
            match read p with
            | Unreadable u => (add_unreadable p u st, current)
            | Absent => (add_error p st, current)
            | Found text =>
                foldl (fun '(st, current) raw =>
                         match read_line raw with
                         | LNone => (st, current)
                         | LInclude target => load fuel (include_target p target) current st
                         | LSection name =>
                             (set_sections (dsetdefault name [] (c_sections st)) st, name)
                         | LKey k v => (set_sections (put current k v (c_sections st)) st, current)
                         end)
                  (add_file p st, current) (splitlines text)
            end
        end
  end.

Definition parse_openssl_cnf (path : string) : cnf :=
  (load (S MAX_INCLUDE_DEPTH) path "default" cnf0).1.
End Parse.

(** ** Effective settings *)

Definition section_value (ss : list (string * list (string * string))) (section : option string)
    (key : string) : option string :=
  match section with
  | None => None
  | Some s =>
      if String.eqb s EmptyString then None
      else snd <$> find (fun kv => String.eqb (lower kv.1) (lower key)) (default [] (dget s ss))
  end.

Record provider := Provider {
  pr_name : string; pr_section : string; pr_activate : option bool; pr_module : option string;
  pr_third_party : bool }.

Definition provider_of (ss : list (string * list (string * string))) (nv : string * string) : provider :=
  Provider nv.1 nv.2
    ((fun a => bool_decide (lower (strip a) ∈ ["1"; "yes"; "true"; "on"])) <$>
       section_value ss (Some nv.2) "activate")
    (dget "module" (default [] (dget nv.2 ss)))
    (negb (bool_decide (nv.1 ∈ BUILTIN_PROVIDERS))).

Record settings := Settings {
  es_init : option string; es_system_default : option string; es_providers : list provider;
  es_min_protocol : option string; es_groups : option (list string);
  es_sigalgs : option (list string) }.

Definition or_none (l : list string) : option (list string) := if l is [] then None else Some l.

Definition effective_settings (ss : list (string * list (string * string))) : settings :=
  let init := section_value ss (Some "default") "openssl_conf" in
  let providers_sect := section_value ss init "providers" in
  let providers := provider_of ss <$> default [] (dget (default EmptyString providers_sect) ss) in
  let ssl_sect := section_value ss init "ssl_conf" in
  let sysdef := section_value ss ssl_sect "system_default" in
  let sys_body := default [] (dget (default EmptyString sysdef) ss) in
  let tls := parse_opensslcnf_backend (str_join newline ((fun kv => kv.1 +:+ " = " +:+ kv.2) <$> sys_body)) in
  Settings init sysdef providers (section_value ss sysdef "MinProtocol")
    (or_none (ob_groups tls)) (or_none (ob_sigalgs tls)).

(** ** The report *)

Record conf_env := ConfEnv {
  e_prefix : bool;                          (* HOST_PREFIX is set *)
  e_conf_var : string;                      (* OPENSSL_CONF, empty when unset *)
  e_openssldir : option string;             (* _openssldir_from_binary() *)
  e_read : string -> host string;
  e_list : string -> host (list string);
  e_probe : string -> option string;        (* config_read.probe *)
  e_fs_note : list (string * value) }.

Definition readable (env : conf_env) (path : string) : bool :=
  match e_read env path with Found _ => true | _ => false end.

Definition candidates (family : string) : list string :=
  default FALLBACK_CANDIDATES (dget family CONFIG_CANDIDATES).

Definition locate_default (env : conf_env) (family : string) : option string * string :=
  match find (readable env) (candidates family) with
  | Some p => (Some p, "distribution default")
  | None => (None, "not found")
  end.

Definition locate_openssl_config (env : conf_env) (family : string) : option string * string :=
  if e_prefix env then locate_default env family
  else if non_empty (e_conf_var env) then (Some (e_conf_var env), "OPENSSL_CONF")
  else
    match e_openssldir env with
    | Some d =>
        if non_empty d && readable env (d +:+ "/openssl.cnf")
        then (Some (d +:+ "/openssl.cnf"), "OPENSSLDIR") else locate_default env family
    | None => locate_default env family
    end.

Definition provider_value (p : provider) : value :=
  VDict [("name", VStr (pr_name p)); ("section", VStr (pr_section p));
         ("activate", of_obool (pr_activate p)); ("module", of_ostr (pr_module p));
         ("third_party", VBool (pr_third_party p))].

Definition of_strs (o : option (list string)) : value :=
  match o with Some l => VStrs l | None => VNone end.

Definition settings_value (s : settings) : list (string * value) := [
  ("init_section", of_ostr (es_init s)); ("system_default_section", of_ostr (es_system_default s));
  ("providers_configured", VList (provider_value <$> es_providers s));
  ("min_protocol", of_ostr (es_min_protocol s)); ("groups_configured", of_strs (es_groups s));
  ("signature_algorithms_configured", of_strs (es_sigalgs s))].

(** [tuple(v[:2]) >= (3, 5)]. *)
Definition at_least_3_5 (v : list Z) : bool :=
  match v with
  | [] => false
  | a :: [] => 3 <? a
  | a :: b :: _ => (3 <? a) || ((a =? 3) && (5 <=? b))
  end.

(** The default groups and where they come from. *)
Definition default_groups (configured : option (list string)) (version : option (list Z)) :
    list string * string :=
  match configured with
  | Some g => (g, "config")
  | None =>
      if (match version with Some v => at_least_3_5 v | None => false end)
      then (OPENSSL_35_DEFAULT_GROUPS, "openssl built-in default (3.5+)")
      else ([], "openssl built-in default (pre-3.5: no PQC groups)")
  end.

Definition unreadable_candidates (env : conf_env) (family : string) : list unreadable :=
  omap (fun c => (fun r => ConfigUnreadable c r) <$> e_probe env c) (candidates family).

Definition detect_openssl_config (env : conf_env) (family : string) (version : option (list Z)) :
    list (string * value) :=
  let '(path, how) := locate_openssl_config env family in
  let out :=
    match path with
    | None =>
        match unreadable_candidates env family with
        | u :: us =>
            [("available", VBool false);
             ("reason", VStr (u_path u +:+ " is not readable (" +:+ u_reason u +:+ ")"));
             ("unreadable", VList ((fun u => VDict (as_entry u)) <$> u :: us))]
        | [] => [("available", VBool false);
                 ("reason", VStr "no openssl.cnf found in the distribution's default locations")]
        end
    | Some p =>
        let parsed := parse_openssl_cnf (e_read env) (e_list env) p in
        let eff := effective_settings (c_sections parsed) in
        let '(effective, source) := default_groups (es_groups eff) version in
        let pqc := ob_pqc_groups (parse_opensslcnf_backend ("Groups = " +:+ str_join ":" effective)) in
        [("available", VBool true); ("path", VStr p); ("path_source", VStr how);
         ("files", VStrs (c_files parsed)); ("include_errors", VStrs (c_errors parsed))] ++
        (if c_unreadable parsed is [] then []
         else [("unreadable", VList ((fun u => VDict (as_entry u)) <$> c_unreadable parsed))]) ++
        settings_value eff ++
        [("default_groups", VStrs effective); ("default_groups_source", VStr source);
         ("default_pqc_groups", split_value pqc);
         ("pqc_key_exchange_by_default",
           VBool (negb (bool_decide (ps_hybrid pqc = [] /\ ps_pure pqc = []))));
         ("third_party_providers_configured",
           VStrs (pr_name <$> List.filter (fun p => pr_third_party p && default false (pr_activate p))
                                (es_providers eff)))]
    end in
  dupdate out (e_fs_note env).

Definition ALGO_LINE_RE : re :=
  RSeqs [Bos; spaces; RGrp 1 (RPlus NonSpace); RPlus Space; RLit "@"; RPlus Space;
         RGrp 2 (RPlus NonSpace); spaces; Eos].

Definition third_party_algorithm (line : string) : option (string * string) :=
  m ← re_match ALGO_LINE_RE line;
  if bool_decide (group_or 2 m ∈ BUILTIN_PROVIDERS) then None else Some (group_or 1 m, group_or 2 m).
Definition third_party_algorithms (text : string) : list (string * string) :=
  omap third_party_algorithm (splitlines text).

(** ** The parser visits each file once *)

Record cnf_inv (st : cnf) : Prop := {
  ci_files : NoDup (c_files st);
  ci_seen : forall p, p ∈ c_files st -> p ∈ c_seen st;
  ci_sections : dwf (c_sections st);
  ci_bodies : Forall (fun s => dwf s.2) (c_sections st);
  ci_unreadable : (length (c_unreadable st) <= length (c_errors st))%nat }.

(** [st'] was reached from [st]: nothing seen is forgotten, and whatever was
    read is new. *)
Definition extends (st st' : cnf) : Prop := forall p, p ∈ c_seen st -> p ∈ c_seen st'.

Lemma dset_Forall {K A} `{EqDecision K} (P : K * A -> Prop) k v d :
  (forall k', P (k', v)) -> Forall P d -> Forall P (dset k v d).
Proof.
  intros Hv. induction 1 as [|[k' v'] d Hx Hd IH]; simpl; [by repeat constructor|].
  case_decide; constructor; auto.
Qed.

Lemma put_inv section k v ss :
  dwf ss -> Forall (fun s => dwf s.2) ss ->
  dwf (put section k v ss) /\ Forall (fun s => dwf s.2) (put section k v ss).
Proof.
  intros Hw Hb. unfold put. split; [by apply dset_wf|]. apply dset_Forall; [|done].
  intros s. simpl. clear s. apply dset_wf. destruct (dget section ss) as [d|] eqn:E; [|apply dwf_nil].
  apply dget_elem_of in E. rewrite Forall_forall in Hb. by apply (Hb _ E).
Qed.

Lemma foldl_pair_inv {A} (P : cnf -> cnf -> Prop) (f : cnf * string -> A -> cnf * string) l acc :
  (forall st, P st st) -> (forall a b c, P a b -> P b c -> P a c) ->
  (forall acc x, cnf_inv acc.1 -> cnf_inv (f acc x).1 /\ P acc.1 (f acc x).1) ->
  cnf_inv acc.1 -> cnf_inv (foldl f acc l).1 /\ P acc.1 (foldl f acc l).1.
Proof.
  intros Hr Ht Hf. revert acc; induction l as [|x l IH]; intros acc Hi; [by split|].
  cbn [foldl]. destruct (Hf acc x Hi) as [H1 H2]. destruct (IH _ H1) as [H3 H4].
  split; [done|]. by eapply Ht.
Qed.

Lemma extends_refl st : extends st st.
Proof. by intros p. Qed.
Lemma extends_trans a b c : extends a b -> extends b c -> extends a c.
Proof. intros H1 H2 p Hp. auto. Qed.

Section Inv.
Context (read : string -> host string) (list_dir : string -> host (list string)).

Lemma add_error_inv p st : cnf_inv st -> cnf_inv (add_error p st).
Proof. intros [H1 H2 H3 H4 H5]. split; simpl; try done. rewrite length_app. lia. Qed.

Lemma add_unreadable_inv p u st : cnf_inv st -> cnf_inv (add_unreadable p u st).
Proof. intros [H1 H2 H3 H4 H5]. split; simpl; try done. rewrite !length_app. simpl. lia. Qed.

Lemma see_inv p st : cnf_inv st -> cnf_inv (see p st).
Proof. intros [H1 H2 H3 H4 H5]. split; simpl; try done. intros q Hq. right. auto. Qed.

Lemma add_file_inv p st : p ∉ c_seen st -> cnf_inv st -> cnf_inv (add_file p (see p st)).
Proof.
  intros Hp [H1 H2 H3 H4 H5]. split; simpl; try done.
  - apply NoDup_app. split_and!; [done| |apply NoDup_singleton].
    intros q Hq ->%list_elem_of_singleton. auto.
  - intros q [Hq| ->%list_elem_of_singleton]%elem_of_app; [right; auto | by left].
Qed.

Lemma set_sections_inv ss st :
  cnf_inv st -> dwf ss /\ Forall (fun s => dwf s.2) ss -> cnf_inv (set_sections ss st).
Proof. intros [H1 H2 H3 H4 H5] [Hw Hb]. by split. Qed.

Lemma load_inv fuel p current st :
  cnf_inv st -> cnf_inv (load read list_dir fuel p current st).1 /\
    extends st (load read list_dir fuel p current st).1.
Proof.
  revert p current st; induction fuel as [|fuel IH]; intros p current st Hi; cbn [load].
  { split; [by apply add_error_inv | by intros q]. }
  case_bool_decide as Hseen; [split; [by apply add_error_inv | by intros q]|].
  assert (extends st (see p st)) as Hsee by (intros q Hq; by right).
  destruct (list_dir p) as [|entries|u].
  - destruct (read p) as [|text|u].
    + split; [by apply add_error_inv, see_inv | by intros q Hq; right].
    + destruct (foldl_pair_inv extends
        (fun '(st, current) raw =>
           match read_line raw with
           | LNone => (st, current)
           | LInclude target => load read list_dir fuel (include_target p target) current st
           | LSection name => (set_sections (dsetdefault name [] (c_sections st)) st, name)
           | LKey k v => (set_sections (put current k v (c_sections st)) st, current)
           end) (splitlines text) (add_file p (see p st), current)) as [H1 H2];
        [apply extends_refl | apply extends_trans | | by apply add_file_inv |].
      * intros [st0 cur] raw Hi0. simpl in Hi0 |- *. destruct (read_line raw) as [|target|name|k v].
        -- split; [done | apply extends_refl].
        -- by apply IH.
        -- split; [|by intros q]. apply set_sections_inv; [done|]. destruct Hi0 as [_ _ Hw Hb _].
           split; [by apply dsetdefault_wf|]. unfold dsetdefault. destruct (dmem name _); [done|].
           apply Forall_app. split; [done|]. constructor; [apply dwf_nil | constructor].
        -- split; [|by intros q]. apply set_sections_inv; [done|]. destruct Hi0. by apply put_inv.
      * split; [exact H1|]. eapply extends_trans; [exact Hsee|]. eapply extends_trans; [|exact H2]. by intros q.
    + split; [by apply add_unreadable_inv, see_inv | by intros q Hq; right].
  - destruct (foldl_pair_inv extends
      (fun '(st, current) name =>
         load read list_dir fuel (rstrip_by is_slash p +:+ "/" +:+ name) current st)
      (List.filter is_conf (py_sorted str_lt entries)) (see p st, current)) as [H1 H2];
      [apply extends_refl | apply extends_trans | | by apply see_inv |].
    + intros [st0 cur] name Hi0. by apply IH.
    + split; [exact H1|]. by eapply extends_trans.
  - split; [by apply add_unreadable_inv, see_inv | by intros q Hq; right].
Qed.
End Inv.

(** Whatever the files say (cyclic or repeated includes too),
    [parse_openssl_cnf] finishes, reads no file twice, builds sections and
    bodies without a repeated key, and reports an include error for every
    unreadable path. *)
Theorem parse_openssl_cnf_inv read list_dir path :
  let st := parse_openssl_cnf read list_dir path in
  NoDup (c_files st) /\ dwf (c_sections st) /\ Forall (fun s => dwf s.2) (c_sections st) /\
  (length (c_unreadable st) <= length (c_errors st))%nat.
Proof.
  cbv zeta. unfold parse_openssl_cnf.
  destruct (load_inv read list_dir (S MAX_INCLUDE_DEPTH) path "default" cnf0) as [[H1 H2 H3 H4 H5] _].
  - split; simpl; try constructor. by intros p Hp.
  - done.
Qed.

(** ** The default groups *)

(** A name [_split_tokens] can return. *)
Definition token_ok (g : string) : Prop :=
  g <> EmptyString /\ clean_token g = g /\ no_chars (char_in ":/") g /\ no_chars is_line_end g.

#[export] Instance token_ok_dec g : Decision (token_ok g).
Proof. unfold token_ok, no_chars. apply _. Defined.

Lemma split_class_join c gs p :
  p c = true -> gs <> [] -> Forall (fun g => no_chars p g) gs ->
  re_split_class p (str_join (String c EmptyString) gs) = gs.
Proof.
  intros Hc Hne Hg. unfold re_split_class. rewrite chars_str_join. cbn [String.list_ascii_of_string].
  induction Hg as [|g gs Hg Hgs IH]; [done|]. destruct gs as [|g' gs].
  - csimpl. cbn [join_chars]. rewrite split_class_free by done. csimpl. by rewrite str_of_chars.
  - rewrite fmap_cons, join_chars_cons by done. cbn [app]. rewrite split_class_app by done.
    csimpl in *. rewrite str_of_chars. f_equal. by apply IH.
Qed.

Lemma split_tokens_join gs : Forall token_ok gs -> split_tokens (str_join ":" gs) ":/" = gs.
Proof.
  intros Hg. unfold split_tokens. destruct (decide (gs = [])) as [->|Hne]; [vm_compute; done|].
  rewrite split_class_join; [|done|done|by eapply Forall_impl; [exact Hg|]; intros g (_ & _ & ? & _)].
  clear Hne. induction Hg as [|g gs (Hne & Hc & _) Hgs IH]; [done|]. csimpl. rewrite Hc.
  unfold non_empty at 1. rewrite (proj2 (String.eqb_neq g EmptyString)) by done. simpl. by rewrite IH.
Qed.

Lemma clean_token_head g : clean_token g = g ->
  match chars g with [] => True | c :: _ => is_space c = false end.
Proof. intros <-. apply strip_head. Qed.

Lemma join_token_value gs : Forall token_ok gs -> value_ok (str_join ":" gs).
Proof.
  intros Hg. split.
  - destruct Hg as [|g gs (Hne & Hc & _) Hgs]; [done|]. apply clean_token_head in Hc.
    rewrite chars_str_join. destruct (chars g) as [|c l] eqn:E.
    + by destruct Hne; apply chars_inj.
    + destruct gs; csimpl; rewrite ?E; done.
  - unfold no_chars. rewrite chars_str_join.
    induction Hg as [|g gs (_ & _ & _ & Hl) Hgs IH]; [constructor|].
    destruct gs as [|g' gs]; [exact Hl|]. csimpl in *. apply Forall_app. split; [exact Hl|].
    by constructor.
Qed.

(** Writing a group list out and reading it again changes nothing. *)
Lemma reparse_groups gs :
  Forall token_ok gs ->
  ob_pqc_groups (parse_opensslcnf_backend ("Groups = " +:+ str_join ":" gs)) =
  classify_pqc gs PQC_KEM_TOKEN_RE.
Proof.
  intros Hg. pose proof (join_token_value gs Hg) as Hv.
  change ("Groups = " +:+ str_join ":" gs) with (setting_line "Groups" (str_join ":" gs)).
  destruct (setting_line_ok "Groups" _ (or_introl eq_refl) Hv) as [Hl Hne].
  unfold parse_opensslcnf_backend. rewrite splitlines_one by done. cbn [foldl].
  destruct (openssl_line_match "Groups" _ (or_introl eq_refl) Hv) as (m & E & G & W).
  unfold openssl_line. rewrite E, G, W. change (String.eqb "Groups" "Groups") with true.
  by rewrite split_tokens_join.
Qed.

(** A group name is PQC when it carries an ML-KEM, Kyber, sntrup, FrodoKEM or
    HQC token. *)
Definition pqc_group (g : string) : bool := test_search PQC_KEM_TOKEN_RE g.

Lemma classify_any gs :
  negb (bool_decide (ps_hybrid (classify_pqc gs PQC_KEM_TOKEN_RE) = [] /\
                     ps_pure (classify_pqc gs PQC_KEM_TOKEN_RE) = [])) = existsb pqc_group gs.
Proof.
  rewrite classify_pqc_filter. cbn [ps_hybrid ps_pure].
  induction gs as [|g gs IH]; [done|]. cbn [List.filter existsb]. unfold pqc_group at 1.
  destruct (test_search PQC_KEM_TOKEN_RE g); cbn [andb orb]; [|exact IH].
  destruct (test_search CLASSICAL_TOKEN_RE g); cbn [negb];
    apply negb_true_iff, bool_decide_eq_false; intros [? ?]; done.
Qed.

(** When openssl.cnf is found, the default key exchange is reported
    truthfully: the groups are the configured ones, else the built-in list
    of OpenSSL 3.5 for a version of at least 3.5, else none, and
    [pqc_key_exchange_by_default] says whether one of them is PQC; so a
    host without configured groups gets it exactly from version 3.5 on. *)
Theorem default_groups_truth env family version path how :
  locate_openssl_config env family = (Some path, how) ->
  let eff := effective_settings (c_sections (parse_openssl_cnf (e_read env) (e_list env) path)) in
  let groups := (default_groups (es_groups eff) version).1 in
  Forall token_ok (default [] (es_groups eff)) ->
  "default_groups" ∉ (e_fs_note env).*1 -> "pqc_key_exchange_by_default" ∉ (e_fs_note env).*1 ->
  let out := detect_openssl_config env family version in
  dget "default_groups" out = Some (VStrs groups) /\
  dget "pqc_key_exchange_by_default" out = Some (VBool (existsb pqc_group groups)) /\
  (es_groups eff = None ->
   existsb pqc_group groups = match version with Some v => at_least_3_5 v | None => false end).
Proof.
  intros Hloc eff groups Hg Hn1 Hn2 out.
  assert (Forall token_ok OPENSSL_35_DEFAULT_GROUPS) as H35 by (apply (bool_decide_unpack _); vm_compute; exact I).
  assert (Forall token_ok groups) as Hgs.
  { unfold groups, default_groups. destruct (es_groups eff); [done|]. destruct version as [v|]; [destruct (at_least_3_5 v)|]; [exact H35|constructor|constructor]. }
  unfold out, detect_openssl_config. rewrite Hloc. fold eff.
  destruct (default_groups (es_groups eff) version) as [gs src] eqn:Ed.
  change groups with (gs, src).1 in Hgs. unfold groups. cbn [fst] in *.
  rewrite !dget_dupdate_other by done. rewrite reparse_groups by done.
  split_and!.
  - destruct (c_unreadable _); reflexivity.
  - rewrite <-classify_any. destruct (c_unreadable _); reflexivity.
  - intros Hnone. rewrite Hnone in Ed. simpl in Ed.
    destruct version as [v|]; [destruct (at_least_3_5 v)|]; injection Ed as <- <-; vm_compute; reflexivity.
Qed.

(** A host with the plain layout and no groups configured. *)
Definition sample_conf (prefix : bool) : conf_env :=
  ConfEnv prefix EmptyString None
    (fun p => if String.eqb p "/etc/ssl/openssl.cnf"
              then Found (str_join newline ["openssl_conf = init # main"; "[init]"; "ssl_conf = ssl"])
              else Absent)
    (fun _ => Absent) (fun _ => None) [].

Lemma default_groups_truth_witness :
  dget "pqc_key_exchange_by_default" (detect_openssl_config (sample_conf true) "debian" (Some [3; 5; 2])) =
  Some (VBool true).
Proof.
  destruct (default_groups_truth (sample_conf true) "debian" (Some [3; 5; 2])
    "/etc/ssl/openssl.cnf" "distribution default") as (_ & H & _).
  - vm_compute. reflexivity.
  - vm_compute. constructor.
  - apply not_elem_of_nil.
  - apply not_elem_of_nil.
  - rewrite H. vm_compute. reflexivity.
Defined.
