(* ===== verification/Verdict.v ===== *)
(** * CNSA 2.0, per-algorithm tiers and the overall verdict ([verdict.py])

    Rates and memory figures are binary64 floats with Python's arithmetic,
    comparison and rounding.  Benchmark results come as one record per
    algorithm: the measured rate of each operation, or why it was skipped. *)

From S2P Require Import Prelude PyStr PyDict PyVal PyRe Algorithms.
From Stdlib Require Import SpecFloat.
Open Scope Z_scope.

Definition CNSA_2_0_REQUIREMENTS : list (string * list string) := [
  ("kem", ["ML-KEM-1024"]); ("signature", ["ML-DSA-87"]); ("symmetric", ["AES-256"]);
  ("hash", ["SHA-384"; "SHA-512"])].

Definition HW_DRIVER_SUFFIXES : list string :=
  ["-ni"; "-ce"; "-ssse3"; "-avx2"; "-avx"; "-arm64-ce"; "-arm64"; "-aesni"; "-pclmul"; "-sha-ce";
   "-sha-ni"; "_asm"; "-paes"].

(** ** /proc/crypto *)

Definition PROC_LINE_RE : re :=
  RSeqs [Bos; RStar true Space;
         RGrp 1 (RSeq (RChr (fun c => negb (Ascii.eqb c ":"))) (RStar false (RChr (fun c => negb (Ascii.eqb c ":")))));
         RStar true Space; RLit ":"; RStar true Space; RGrp 2 (RStar true Dot); Eos].

Abbreviation block := (list (string * string)).

(** One line: a blank one closes the current block. *)
Definition proc_line (acc : list block * block) (line : string) : list block * block :=
  let '(blocks, cur) := acc in
  if String.eqb (strip line) EmptyString then
    (if cur is [] then (blocks, []) else (blocks ++ [cur], []))
  else
    match re_match PROC_LINE_RE line with
    | Some m => (blocks, dset (lower (strip (group_or 1 m))) (strip (group_or 2 m)) cur)
    | None => (blocks, cur)
    end.

Definition proc_blocks (text : string) : list block :=
  (foldl proc_line ([], []) (splitlines text ++ [EmptyString])).1.

Definition hw_driver (driver : string) : bool := existsb (fun s => contains s driver) HW_DRIVER_SUFFIXES.

Record proc_crypto := ProcCrypto {
  pc_aes_256 : bool; pc_sha_384 : option string; pc_sha_512 : option string }.

Definition block_get (k dflt : string) (b : block) : string := default dflt (dget k b).

Definition proc_block (acc : proc_crypto) (b : block) : proc_crypto :=
  let name := lower (block_get "name" EmptyString b) in
  let driver := block_get "driver" EmptyString b in
  let aes :=
    pc_aes_256 acc ||
    (contains "aes" name &&
     match int_of_str (block_get "max keysize" "0" b) with Some n => 32 <=? n | None => false end) in
  let first n cur := if String.eqb name n && bool_decide (cur = None) && hw_driver driver
                     then Some driver else cur in
  ProcCrypto aes (first "sha384" (pc_sha_384 acc)) (first "sha512" (pc_sha_512 acc)).

Definition parse_proc_crypto_cnsa (text : string) : proc_crypto :=
  foldl proc_block (ProcCrypto false None None) (proc_blocks text).

(** ** CNSA 2.0 *)

Record cnsa_kex := CnsaKex { ck_compliant : list string; ck_non_compliant : list string }.

(** [(refs.get(n) or {}).get("cnsa_2_0")] as a truth value. *)
Definition ref_cnsa (refs : list (string * value)) (n : string) : bool :=
  match dget n refs with
  | Some (VDict e) => truthy (default VNone (dget "cnsa_2_0" e))
  | _ => false
  end.

Definition cnsa_tls_key_exchange (openssl : value) : res cnsa_kex :=
  groups ← get "tls_groups" openssl;
  offered ← pqc_buckets (por groups (VDict []));
  refs ← tls_group_references offered;
  names ← strs_of offered;
  Ok (CnsaKex (py_sorted str_lt (List.filter (ref_cnsa refs) refs.*1))
              (py_sorted str_lt (List.filter (fun n => negb (ref_cnsa refs n)) names))).

Inductive cnsa_status := Compliant | Partial | NonCompliant | Unknown.
#[export] Instance cnsa_status_eq_dec : EqDecision cnsa_status.
Proof. solve_decision. Defined.

Record cnsa := Cnsa {
  cn_status : cnsa_status; cn_kem : bool; cn_sig : bool; cn_sym : bool; cn_hash : bool;
  cn_tls : cnsa_kex; cn_notes : list string }.

(** The notes about the algorithm lists. *)
Definition cnsa_algo_notes (openssl : value) (known kem sig : bool) : res (list string) :=
  if negb known then
    available ← get "available" openssl;
    if truthy available then
      probe ← get "cli_probe" openssl;
      reason ← get "reason" (por probe (VDict []));
      version ← get "version" openssl;
      Ok ["OpenSSL " +:+ py_str version +:+ " found, but its algorithm lists were not probed (" +:+
          py_str (por reason (VStr "not probed")) +:+
          "); cannot verify ML-KEM-1024 (KEM) or ML-DSA-87 (signature) availability."]
    else Ok ["OpenSSL not available; cannot verify ML-KEM-1024 (KEM) or ML-DSA-87 (signature) availability."]
  else
    Ok ((if kem then [] else
           ["ML-KEM-1024 is not exposed by OpenSSL.  CNSA 2.0 mandates ML-KEM-1024 (not ML-KEM-768) for asymmetric key establishment."]) ++
        (if sig then [] else
           ["ML-DSA-87 is not exposed by OpenSSL.  CNSA 2.0 mandates ML-DSA-87 (not ML-DSA-65) for asymmetric signatures."])).

Definition some_truthy (o : option string) : bool :=
  match o with Some s => negb (String.eqb s EmptyString) | None => false end.

(** (symmetric, hash, notes) from /proc/crypto. *)
Definition cnsa_proc (proc_crypto_text : option string) : bool * bool * list string :=
  match proc_crypto_text with
  | None => (false, false,
      ["/proc/crypto not available; cannot verify AES-256 (symmetric) or hardware-accelerated SHA-384/SHA-512 (hash)."])
  | Some text =>
      let pc := parse_proc_crypto_cnsa text in
      let s384 := some_truthy (pc_sha_384 pc) in
      let s512 := some_truthy (pc_sha_512 pc) in
      let missing := (if s384 then [] else ["SHA-384"]) ++ (if s512 then [] else ["SHA-512"]) in
      (pc_aes_256 pc, s384 && s512,
       (if pc_aes_256 pc then [] else
          ["AES-256 not found in /proc/crypto (no AES driver block with max keysize >= 32 bytes)."]) ++
       (if s384 && s512 then [] else
          [str_join " and " missing +:+
           " not hardware-accelerated in /proc/crypto.  CNSA 2.0 mandates SHA-384 and SHA-512; software-only kernel fallbacks do not satisfy the suite."]))
  end.

Definition cnsa_status_of (openssl_known proc_known : bool) (fields : list bool) : cnsa_status :=
  if negb openssl_known && negb proc_known then Unknown
  else if forallb id fields then Compliant
  else if negb (existsb id fields) then NonCompliant
  else Partial.

(** ["X" in (openssl.get(key) or [])], when the lists were probed. *)
Definition exposes (openssl : value) (known : bool) (key name : string) : res bool :=
  if known then l ← get key openssl; py_in (VStr name) (por l (VList [])) else Ok false.

Definition evaluate_cnsa_2_0 (openssl : value) (proc_crypto_text : option string) : res cnsa :=
  known ← openssl_cli_probed openssl;
  kem ← exposes openssl known "kem_algorithms" "ML-KEM-1024";
  sig ← exposes openssl known "sig_algorithms" "ML-DSA-87";
  notes1 ← cnsa_algo_notes openssl known kem sig;
  let '(sym, hash_ok, notes2) := cnsa_proc proc_crypto_text in
  tls ← cnsa_tls_key_exchange openssl;
  let notes3 :=
    if negb (bool_decide (ck_non_compliant tls = [])) && bool_decide (ck_compliant tls = [])
    then ["TLS offers PQC key exchange only through groups that do not meet CNSA 2.0 (" +:+
          str_join ", " (ck_non_compliant tls) +:+
          "): their ML-KEM component is not ML-KEM-1024.  A CNSA 2.0 TLS deployment needs SecP384r1MLKEM1024 (RFC 10024) or pure MLKEM1024 (draft-ietf-tls-mlkem)."]
    else [] in
  Ok (Cnsa (cnsa_status_of known (bool_decide (is_Some proc_crypto_text)) [kem; sig; sym; hash_ok])
        kem sig sym hash_ok tls (notes1 ++ notes2 ++ notes3)).

(** ** Per-algorithm tiers *)

(** [round(x, n)] and ["{x:.nf}"]: the exact decimal value rounded half to
    even at [n] digits. *)
Definition round_half_even (n d : Z) : Z :=
  let q := n / d in
  let r := n - q * d in
  if (2 * r <? d) || ((2 * r =? d) && Z.even q) then q else q + 1.
Definition f_scaled (digits : Z) (f : float) : Z :=
  match f_frac f with Some (n, d) => round_half_even (n * 10 ^ digits) d | None => 0 end.
Definition f_round (digits : Z) (f : float) : float :=
  let z := f_scaled digits f in f_dec (z <? 0) (Z.abs z) (- digits).
Definition f_fixed (digits : Z) (f : float) : string :=
  let z := Z.abs (f_scaled digits f) in
  let p := 10 ^ digits in
  let frac := show_Z (z mod p) in
  (if f_scaled digits f <? 0 then "-" else EmptyString) +:+ show_Z (z / p) +:+
  (if digits =? 0 then EmptyString
   else "." +:+ repeat_char "0" (digits - Z.of_nat (String.length frac)) +:+ frac).

Definition float_of (v : value) : float :=
  match v with VInt z => f_of_Z z | VFloat f => f | _ => f_zero end.

(** What the benchmark has for one algorithm. *)
Record bench_algo := BenchAlgo { ba_rates : list (string * float); ba_skipped : value }.

Record score := Score {
  sc_algorithm : string; sc_tier : string; sc_metric : string; sc_reason : string;
  sc_notes : list string; sc_rates : option (float * float);
  sc_thresholds : list (string * value) }.

Definition TIER_ORDER : list string := ["poor"; "marginal"; "good"; "excellent"].

Definition floor_of (thresholds : list (string * value)) (t : string) : float :=
  float_of (default VNone (dget t thresholds)).

Definition tier_of (thresholds : list (string * value)) (rate : float) : string :=
  if f_le (floor_of thresholds "excellent") rate then "excellent"
  else if f_le (floor_of thresholds "good") rate then "good"
  else if f_le (floor_of thresholds "marginal") rate then "marginal"
  else "poor".

(** [_TIER_ORDER[max(0, _TIER_ORDER.index(tier) - 1)]]. *)
Definition tier_below (t : string) : string :=
  if String.eqb t "excellent" then "good"
  else if String.eqb t "good" then "marginal"
  else "poor".

Definition HYBRID_NOTE : string :=
  "Hybrid TLS groups (e.g. X25519MLKEM768, SecP256r1MLKEM768) are exposed by OpenSSL — preferred over pure PQC for transitional deployments where peer interoperability and PQC-stack maturity are still in flux.".

Definition bandwidth_low (algo : string) (mem_bw : option float) : option float :=
  match mem_bw with
  | Some bw => if String.eqb algo "SLH-DSA-SHA2-128s" && f_lt bw SLH_DSA_MEM_BANDWIDTH_FLOOR_GB_S
               then Some bw else None
  | None => None
  end.

Definition score_algo (bench : list (string * bench_algo)) (cores : Z) (mem_bw : option float)
    (tls_hybrid : bool) (key : string) (th : algo_threshold) : score :=
  let algo := before "/" key in
  let op := at_op th in
  let b := dget algo bench in
  let notes := default [] (dget algo ALGO_NOTES) ++
    (if tls_hybrid && starts_with "ML-KEM" algo then [HYBRID_NOTE] else []) in
  match (b ← b; dget op (ba_rates b)) with
  | None =>
      let reason := match b with Some b => py_str (por (ba_skipped b) (VStr "no benchmark data"))
                    | None => "no benchmark data" end in
      Score algo "unknown" op reason notes None []
  | Some rate =>
      let t0 := tier_of (at_floors th) rate in
      let '(tier, notes) :=
        match bandwidth_low algo mem_bw with
        | Some bw =>
            (tier_below t0, notes ++
              ["Tier downgraded from '" +:+ t0 +:+ "' to '" +:+ tier_below t0 +:+
               "': measured memory bandwidth " +:+ f_fixed 1 bw +:+ " GB/s is below the " +:+
               f_fixed 0 SLH_DSA_MEM_BANDWIDTH_FLOOR_GB_S +:+
               " GB/s floor for SLH-DSA hash-tree throughput."])
        | None => (t0, notes)
        end in
      Score algo tier op
        (f_fixed 1 rate +:+ " " +:+ op +:+ "/core - threshold for '" +:+ tier +:+ "' is " +:+
         py_str (default (VStr "-") (dget tier (at_floors th))))
        notes (Some (f_round 2 rate, f_round 2 (f_mul rate (f_of_Z cores)))) (at_floors th)
  end.

Definition per_algo_verdict (bench : list (string * bench_algo)) (cores : Z)
    (mem_bw : option float) (tls_hybrid : bool) : list (string * score) :=
  (fun kv => (kv.1, score_algo bench cores mem_bw tls_hybrid kv.1 kv.2)) <$> ALGO_THRESHOLDS.

(** ** Production estimate *)

Definition headroom : float := f_dec false 6 (-1).

Definition host_rate (per_algo : list (string * score)) (k : string) : option float :=
  s ← dget k per_algo; snd <$> sc_rates s.

Record estimate := Estimate {
  pe_handshakes : option Z; pe_signatures : option Z; pe_slh : option float;
  pe_connections : option (Z * Z) }.

Definition int_of_float (f : float) : Z := match f_frac f with Some (n, d) => Z.quot n d | None => 0 end.

Definition production_estimate (per_algo : list (string * score)) (mem_gb : float) : estimate :=
  let scaled k := (fun r => f_mul r headroom) <$> host_rate per_algo k in
  Estimate (int_of_float <$> scaled "ML-KEM-768") (int_of_float <$> scaled "ML-DSA-65")
    (f_round 1 <$> scaled "SLH-DSA-SHA2-128s")
    (if f_lt f_zero mem_gb then
       let usable := f_mul (f_mul mem_gb (f_of_Z (1024 ^ 3))) (f_dec false 5 (-1)) in
       Some (int_of_float (f_div usable (f_of_Z (192 * 1024))),
             int_of_float (f_div usable (f_of_Z (32 * 1024))))
     else None).

(** ** Overall verdict *)

Definition RANK : list (string * Z) :=
  [("excellent", 4); ("good", 3); ("marginal", 2); ("poor", 1); ("unknown", 2)].

Record verdict := Verdict { vd_verdict : string; vd_why : string; vd_exit : Z; vd_caveat : string }.

Definition NO_BENCH_CAVEAT : string :=
  "Verdict reflects CPU instruction-set and memory only; no PQC microbenchmark was run on this host.  Re-run with --bench for measured per-algorithm rates and tier validation.".

Definition verdict_of (composite : Z) (caveat : string) : verdict :=
  if 4 <=? composite then
    Verdict "EXCELLENT - software PQC at production speed"
      "On-chip SIMD covers ML-KEM/ML-DSA easily; SLH-DSA acceptable for non-hot paths." 0 caveat
  else if composite =? 3 then
    Verdict "GOOD - production-capable in software"
      "Fine for TLS termination at moderate QPS; benchmark before committing to SLH-DSA." 1 caveat
  else if composite =? 2 then
    Verdict "MARGINAL - works, but plan for an accelerator"
      "Software PQC will be a hot spot under load; consider HSM/QAT offload." 2 caveat
  else
    Verdict "POOR - not suitable for production PQC" "Add a dedicated accelerator or upgrade the host." 3 caveat.

Definition rank_of (t : string) : res Z :=
  match dget t RANK with Some r => Ok r | None => Raise (KeyError t) end.
Definition rank_or_2 (t : string) : Z := default 2 (dget t RANK).

(** The measured tiers: neither missing nor ["unknown"]. *)
Definition bench_tiers (tiers : list (option string)) : list string :=
  omap (fun t => match t with Some t => if String.eqb t "unknown" then None else Some t | None => None end) tiers.

Definition min_rank (tiers : list string) : res Z :=
  ranks ← mapM rank_of tiers;
  match ranks with
  | [] => Raise (ValueError "min() arg is an empty sequence")
  | r :: rs => Ok (foldl Z.min r rs)
  end.

Definition overall_verdict (isa mem : string) (dedicated : bool) (tiers : list (option string)) : res verdict :=
  if dedicated then
    Ok (Verdict "EXCELLENT - dedicated PQC silicon present"
          "Use the accelerator for keygen/sign/decap; software path covers the rest." 0 EmptyString)
  else
    let base := Z.min (rank_or_2 isa) (rank_or_2 mem) in
    match bench_tiers tiers with
    | [] => Ok (verdict_of base NO_BENCH_CAVEAT)
    | ts => r ← min_rank ts; Ok (verdict_of (Z.min base r) EmptyString)
    end.

Definition sample_bench : list (string * bench_algo) :=
  [("ML-KEM-768", BenchAlgo [("decaps/s", f_of_Z 9000)] VNone);
   ("SLH-DSA-SHA2-128s", BenchAlgo [("sign/s", f_dec false 52 (-1))] VNone)].
Example score_kem :
  (fun s => (sc_tier s, sc_reason s)) <$> dget "ML-KEM-768" (per_algo_verdict sample_bench 8 None false) =
  Some ("good", "9000.0 decaps/s/core - threshold for 'good' is 8000").
Proof. vm_compute. reflexivity. Qed.
Example score_slh :
  (fun s => (sc_tier s, sc_reason s)) <$>
    dget "SLH-DSA-SHA2-128s" (per_algo_verdict sample_bench 8 (Some (f_dec false 95 (-1))) false) =
  Some ("good", "5.2 sign/s/core - threshold for 'good' is 2").
Proof. vm_compute. reflexivity. Qed.

(** ** Tiers *)

Lemma tier_of_cases th rate :
  tier_of th rate ∈ TIER_ORDER.
Proof. unfold tier_of, TIER_ORDER. repeat case_match; rewrite !elem_of_cons; tauto. Qed.

Definition rank (t : string) : Z := rank_or_2 t.

Lemma tier_of_monotone th r1 r2 :
  f_le r1 r2 = true -> rank (tier_of th r1) <= rank (tier_of th r2).
Proof.
  intros Hle. unfold tier_of.
  destruct (f_le (floor_of th "excellent") r1) eqn:E1.
  { by rewrite (f_le_trans _ _ _ E1 Hle). }
  destruct (f_le (floor_of th "good") r1) eqn:E2.
  { rewrite (f_le_trans _ _ _ E2 Hle). destruct (f_le (floor_of th "excellent") r2); vm_compute; congruence. }
  destruct (f_le (floor_of th "marginal") r1) eqn:E3.
  { rewrite (f_le_trans _ _ _ E3 Hle).
    destruct (f_le (floor_of th "excellent") r2), (f_le (floor_of th "good") r2); vm_compute; congruence. }
  destruct (f_le (floor_of th "excellent") r2), (f_le (floor_of th "good") r2),
    (f_le (floor_of th "marginal") r2); vm_compute; congruence.
Qed.

Lemma tier_below_rank t : t ∈ TIER_ORDER -> rank (tier_below t) = Z.max 1 (rank t - 1).
Proof.
  unfold TIER_ORDER. rewrite !elem_of_cons, elem_of_nil.
  intros [->|[->|[->|[->|[]]]]]; vm_compute; reflexivity.
Qed.

Lemma tier_below_monotone t1 t2 :
  t1 ∈ TIER_ORDER -> t2 ∈ TIER_ORDER -> rank t1 <= rank t2 -> rank (tier_below t1) <= rank (tier_below t2).
Proof. intros H1 H2 Hr. rewrite !tier_below_rank by done. lia. Qed.

(** The tier of a scored algorithm. *)
Definition scored_tier (algo : string) (th : algo_threshold) (mem_bw : option float) (rate : float) : string :=
  match bandwidth_low algo mem_bw with
  | Some _ => tier_below (tier_of (at_floors th) rate)
  | None => tier_of (at_floors th) rate
  end.

Lemma score_algo_tier bench cores mem_bw hyb key th b rate :
  dget (before "/" key) bench = Some b -> dget (at_op th) (ba_rates b) = Some rate ->
  sc_tier (score_algo bench cores mem_bw hyb key th) = scored_tier (before "/" key) th mem_bw rate.
Proof.
  intros Hb Hr. unfold score_algo, scored_tier. rewrite Hb. cbn [mbind option_bind]. rewrite Hr.
  by destruct (bandwidth_low _ mem_bw).
Qed.

(** Only the SLH-DSA tier depends on the memory bandwidth, and only when it
    was measured below the floor. *)
Lemma bandwidth_low_iff algo mem_bw :
  is_Some (bandwidth_low algo mem_bw) <->
  algo = "SLH-DSA-SHA2-128s" /\ exists bw, mem_bw = Some bw /\ f_lt bw SLH_DSA_MEM_BANDWIDTH_FLOOR_GB_S = true.
Proof.
  unfold bandwidth_low. destruct mem_bw as [bw|].
  - destruct (String.eqb algo "SLH-DSA-SHA2-128s") eqn:E; simpl.
    + apply String.eqb_eq in E as ->. destruct (f_lt bw _) eqn:El; split.
      * eauto.
      * intros _. by eexists.
      * by intros [? ?].
      * intros (_ & ? & [= <-] & ?). congruence.
    + apply String.eqb_neq in E. split; [by intros [? ?] | by intros [? _]].
  - split; [by intros [? ?] | by intros (_ & ? & ? & _)].
Qed.

(** Every scored algorithm is monotone in its measured rate: for the same
    benchmark otherwise, a rate at least as high never gets a lower tier; a
    missing rate is "unknown" and never a low tier; and a measured memory
    bandwidth below the floor costs SLH-DSA exactly one step (never below
    "poor") and changes no other algorithm. *)
Theorem per_algo_tier_spec bench cores mem_bw hyb key th :
  let algo := before "/" key in
  let s := score_algo bench cores mem_bw hyb key th in
  match (b ← dget algo bench; dget (at_op th) (ba_rates b)) with
  | None => sc_tier s = "unknown" /\ sc_rates s = None
  | Some rate =>
      sc_tier s ∈ TIER_ORDER /\
      (forall rate', f_le rate rate' = true ->
        rank (sc_tier s) <= rank (scored_tier algo th mem_bw rate')) /\
      rank (sc_tier s) =
        (if bool_decide (is_Some (bandwidth_low algo mem_bw))
         then Z.max 1 (rank (tier_of (at_floors th) rate) - 1)
         else rank (tier_of (at_floors th) rate)) /\
      (is_Some (bandwidth_low algo mem_bw) -> algo = "SLH-DSA-SHA2-128s")
  end.
Proof.
  cbv zeta. destruct (dget (before "/" key) bench) as [b|] eqn:Eb; cbn [mbind option_bind].
  2:{ unfold score_algo. rewrite Eb. done. }
  destruct (dget (at_op th) (ba_rates b)) as [rate|] eqn:Er.
  2:{ unfold score_algo. rewrite Eb. cbn [mbind option_bind]. by rewrite Er. }
  rewrite (score_algo_tier _ _ _ _ _ _ _ _ Eb Er). unfold scored_tier.
  pose proof (tier_of_cases (at_floors th) rate) as Ht.
  assert (forall o : option float, bool_decide (is_Some o) = match o with Some _ => true | None => false end) as Hbd
    by (by intros []).
  rewrite Hbd. destruct (bandwidth_low (before "/" key) mem_bw) as [bw|] eqn:Ebw; split_and!.
  - clear -Ht. unfold TIER_ORDER in *. rewrite !elem_of_cons, elem_of_nil in Ht.
    destruct Ht as [->|[->|[->|[->|[]]]]]; apply (bool_decide_unpack _); vm_compute; exact I.
  - intros rate' Hle. apply tier_below_monotone; [done | apply tier_of_cases | by apply tier_of_monotone].
  - by apply tier_below_rank.
  - intros _. apply (bandwidth_low_iff (before "/" key) mem_bw). by exists bw.
  - done.
  - intros. by apply tier_of_monotone.
  - done.
  - by intros [? ?].
Qed.

(** ** The overall verdict *)

Lemma mapM_rank ts rs : mapM rank_of ts = Ok rs -> rs = rank <$> ts /\ Forall (fun r => 1 <= r <= 4) rs.
Proof.
  revert rs; induction ts as [|t ts IH]; intros rs; simpl.
  - intros [= <-]. by split.
  - intros H. bind H as r Hr. bind H as rs' Hrs. injection H as <-. apply IH in Hrs as [-> Hall].
    unfold rank_of in Hr. destruct (dget t RANK) as [r'|] eqn:E; [|done]. injection Hr as <-.
    assert (rank t = r') as Hrk by (unfold rank, rank_or_2; by rewrite E).
    split; [by rewrite Hrk|]. constructor; [|done].
    apply dget_elem_of in E. assert (Forall (fun kv => 1 <= kv.2 <= 4) RANK) as Hr
      by (unfold RANK; repeat (constructor; [simpl; lia|]); constructor).
    rewrite Forall_forall in Hr. by apply (Hr _ E).
Qed.

Lemma mapM_rank_raise ts e :
  mapM rank_of ts = Raise e -> exists t, t ∈ ts /\ dget t RANK = None /\ e = KeyError t.
Proof.
  induction ts as [|t ts IH]; [done|].
  change (mapM rank_of (t :: ts)) with (y ← rank_of t; k ← mapM rank_of ts; mret (y :: k)).
  destruct (rank_of t) as [r|e'] eqn:Er; cbn [mbind res_bind].
  - destruct (mapM rank_of ts) as [rs|e'']; cbn [mbind res_bind]; [done|]. intros [= <-].
    destruct (IH eq_refl) as (u & Hu & H). exists u. split; [by right|done].
  - intros [= <-]. unfold rank_of in Er. destruct (dget t RANK) eqn:E; [done|].
    injection Er as <-. exists t. split_and!; [by left|done|done].
Qed.

Lemma rank_or_2_range t : 1 <= rank_or_2 t <= 4.
Proof.
  unfold rank_or_2. destruct (dget t RANK) as [r|] eqn:E; simpl; [|lia].
  apply dget_elem_of in E. assert (Forall (fun kv => 1 <= kv.2 <= 4) RANK) as Hr
    by (unfold RANK; repeat (constructor; [simpl; lia|]); constructor).
  rewrite Forall_forall in Hr. by apply (Hr _ E).
Qed.

Lemma foldl_min_spec l a : foldl Z.min a l <= a /\ (forall x, x ∈ l -> foldl Z.min a l <= x) /\
  (foldl Z.min a l = a \/ foldl Z.min a l ∈ l).
Proof.
  revert a; induction l as [|x l IH]; intros a; simpl.
  - split_and!; [lia | by intros x ?%not_elem_of_nil | by left].
  - destruct (IH (Z.min a x)) as (H1 & H2 & H3). split_and!; [lia| |].
    + intros y [->|Hy]%elem_of_cons; [lia | by apply H2].
    + rewrite elem_of_cons. destruct H3 as [H3|H3]; [|by right; right].
      destruct (Z.min_spec a x) as [[_ Hm]|[_ Hm]]; rewrite Hm in H3 at 2; auto.
Qed.

Lemma verdict_of_exit c cav : 1 <= c <= 4 -> vd_exit (verdict_of c cav) = 4 - c /\ vd_caveat (verdict_of c cav) = cav.
Proof.
  intros Hc. unfold verdict_of. repeat case_match; simpl; split; try done; lia.
Qed.

(** The overall verdict is the worst of its inputs: without dedicated
    silicon the exit code is 4 minus the least rank of instruction set,
    memory and the measured tiers; tiers that are missing or unknown take no
    part (so a host that was not benchmarked is judged on the other two, with
    a caveat, and a benchmark never raises the verdict); dedicated silicon is
    always excellent; and the only failure is a tier that is no tier. *)
Theorem overall_verdict_spec isa mem dedicated tiers :
  match overall_verdict isa mem dedicated tiers with
  | Ok v =>
      if dedicated then vd_exit v = 0 else
      let all := [isa; mem] ++ bench_tiers tiers in
      (exists worst, worst ∈ all /\ vd_exit v = 4 - rank worst /\
         forall t, t ∈ all -> rank worst <= rank t) /\
      (vd_caveat v = NO_BENCH_CAVEAT <-> bench_tiers tiers = [])
  | Raise e => exists t, t ∈ bench_tiers tiers /\ dget t RANK = None /\ e = KeyError t
  end.
Proof.
  unfold overall_verdict. destruct dedicated; [done|].
  pose proof (rank_or_2_range isa) as Hi. pose proof (rank_or_2_range mem) as Hm.
  assert (exists w, w ∈ [isa; mem] /\ Z.min (rank_or_2 isa) (rank_or_2 mem) = rank w /\
    forall t, t ∈ [isa; mem] -> rank w <= rank t) as (w & Hw & Hmin & Hle).
  { unfold rank. destruct (Z.min_spec (rank_or_2 isa) (rank_or_2 mem)) as [[? ->]|[? ->]]; [exists isa|exists mem];
      rewrite !elem_of_cons; (split_and!; [tauto|done|]);
      intros t; rewrite !elem_of_cons, elem_of_nil; intros [->|[->|[]]]; lia. }
  destruct (bench_tiers tiers) as [|t ts] eqn:Et.
  { destruct (verdict_of_exit (Z.min (rank_or_2 isa) (rank_or_2 mem)) NO_BENCH_CAVEAT) as [H1 H2]; [lia|].
    rewrite app_nil_r. split; [|by rewrite H2]. exists w. by rewrite H1, Hmin. }
  rewrite <-Et in *. destruct (min_rank (bench_tiers tiers)) as [r|e] eqn:Er; cbn [mbind res_bind].
  - unfold min_rank in Er. bind Er as rs Hrs. apply mapM_rank in Hrs as [-> Hall].
    rewrite Et in Er, Hall. csimpl in *. injection Er as <-.
    inversion Hall as [|? ? Hrt Hall']; subst.
    destruct (foldl_min_spec (rank <$> ts) (rank t)) as (F1 & F2 & F3).
    assert (exists u, u ∈ t :: ts /\ foldl Z.min (rank t) (rank <$> ts) = rank u) as (u & Hu & Hur).
    { destruct F3 as [F3|F3]; [exists t; split; [by left|done]|].
      apply list_elem_of_fmap in F3 as (u & F3 & Hu). exists u. split; [by right|done]. }
    assert (forall v, v ∈ t :: ts -> rank u <= rank v) as Hul.
    { intros v [->|Hv]%elem_of_cons; [lia|]. rewrite <-Hur. apply F2. by apply list_elem_of_fmap_2. }
    pose proof (rank_or_2_range u) as Hru. fold (rank u) in Hru.
    rewrite Hur, Hmin. fold (rank isa) (rank mem) in *.
    assert (1 <= rank w <= 4) by apply rank_or_2_range.
    destruct (verdict_of_exit (Z.min (rank w) (rank u)) EmptyString) as [H1 H2]; [lia|].
    rewrite Et. split.
    + exists (if rank w <=? rank u then w else u). change (isa :: mem :: t :: ts) with ([isa; mem] ++ t :: ts).
      rewrite H1. split_and!.
      * case_match; apply elem_of_app; auto.
      * case_match; f_equal; lia.
      * intros v [Hv|Hv]%elem_of_app; [apply Hle in Hv | apply Hul in Hv]; case_match; lia.
    + rewrite H2. split; done.
  - unfold min_rank in Er. destruct (mapM rank_of (bench_tiers tiers)) as [rs|e'] eqn:Em.
    + cbn in Er. rewrite Et in Em. apply mapM_rank in Em as [-> _]. done.
    + cbn in Er. injection Er as <-. by apply mapM_rank_raise.
Qed.

(** ** CNSA 2.0 evidence *)

(** A block of /proc/crypto that shows AES with a 256-bit key, or a hash with
    a hardware driver. *)
Definition aes_block (b : block) : bool :=
  contains "aes" (lower (block_get "name" EmptyString b)) &&
  match int_of_str (block_get "max keysize" "0" b) with Some n => 32 <=? n | None => false end.
Definition hash_block (name : string) (b : block) : bool :=
  String.eqb (lower (block_get "name" EmptyString b)) name &&
  hw_driver (block_get "driver" EmptyString b).

Lemma hw_driver_nonempty d : hw_driver d = true -> d <> EmptyString.
Proof. by intros H ->. Qed.

Lemma foldl_proc_block bs acc :
  (forall d, pc_sha_384 acc = Some d -> d <> EmptyString) ->
  (forall d, pc_sha_512 acc = Some d -> d <> EmptyString) ->
  let pc := foldl proc_block acc bs in
  pc_aes_256 pc = pc_aes_256 acc || existsb aes_block bs /\
  some_truthy (pc_sha_384 pc) = bool_decide (is_Some (pc_sha_384 acc)) || existsb (hash_block "sha384") bs /\
  some_truthy (pc_sha_512 pc) = bool_decide (is_Some (pc_sha_512 acc)) || existsb (hash_block "sha512") bs.
Proof.
  assert (forall o : option string, (forall d, o = Some d -> d <> EmptyString) ->
    some_truthy o = bool_decide (is_Some o)) as Hst.
  { intros [d|] H; [|done]. simpl. destruct (String.eqb_spec d EmptyString); [by destruct (H d)|]. done. }
  assert (forall n (b : block) (o : option string), (forall d, o = Some d -> d <> EmptyString) ->
    let o' := if String.eqb (lower (block_get "name" EmptyString b)) n && bool_decide (o = None) &&
                 hw_driver (block_get "driver" EmptyString b)
              then Some (block_get "driver" EmptyString b) else o in
    (forall d, o' = Some d -> d <> EmptyString) /\
    bool_decide (is_Some o') = bool_decide (is_Some o) || hash_block n b) as Hstep.
  { intros n b o Ho. cbv zeta. unfold hash_block.
    destruct (String.eqb (lower (block_get "name" EmptyString b)) n); simpl;
      [|by rewrite orb_false_r].
    destruct (hw_driver (block_get "driver" EmptyString b)) eqn:Ed;
      rewrite ?andb_true_r, ?andb_false_r; [|by rewrite orb_false_r].
    destruct o as [d|]; simpl; [done|].
    split; [|done]. intros d [= <-]. by apply hw_driver_nonempty. }
  revert acc; induction bs as [|b bs IH]; intros acc H3 H5; cbv zeta; simpl.
  { rewrite !orb_false_r, !Hst by done. done. }
  destruct (Hstep "sha384" b _ H3) as [N3 E3]. destruct (Hstep "sha512" b _ H5) as [N5 E5].
  destruct (IH (proc_block acc b)) as (I1 & I2 & I3); [exact N3 | exact N5|].
  rewrite I1, I2, I3, !orb_assoc. split_and!; [done | by f_equal | by f_equal].
Qed.

Lemma cnsa_proc_spec proc :
  (cnsa_proc proc).1.1 = match proc with Some t => existsb aes_block (proc_blocks t) | None => false end /\
  (cnsa_proc proc).1.2 =
    match proc with
    | Some t => existsb (hash_block "sha384") (proc_blocks t) && existsb (hash_block "sha512") (proc_blocks t)
    | None => false
    end.
Proof.
  destruct proc as [t|]; [|done]. cbn [cnsa_proc fst snd].
  destruct (foldl_proc_block (proc_blocks t) (ProcCrypto false None None)) as (H1 & H2 & H3); [done..|].
  unfold parse_proc_crypto_cnsa. rewrite H1, H2, H3. done.
Qed.

Lemma cnsa_kex_spec openssl groups names k :
  get "tls_groups" openssl = Ok groups ->
  pqc_buckets (por groups (VDict [])) = Ok (VStr <$> names) ->
  cnsa_tls_key_exchange openssl = Ok k ->
  let approved n := exists g, dget n TLS_PQC_GROUPS = Some g /\ g_kem g = "ML-KEM-1024" in
  (forall n, n ∈ ck_compliant k <-> n ∈ names /\ approved n) /\
  (forall n, n ∈ ck_non_compliant k <-> n ∈ names /\ ~ approved n).
Proof.
  intros Hg Hb H. unfold cnsa_tls_key_exchange in H. rewrite Hg in H. cbn [mbind res_bind] in H.
  rewrite Hb in H. cbn [mbind res_bind] in H.
  destruct (tls_references_lookup names) as (refs & Hr & Hl). rewrite Hr in H. cbn [mbind res_bind] in H.
  rewrite strs_of_VStr in H. cbn [mbind res_bind] in H. injection H as <-. cbv zeta. simpl.
  assert (forall n, n ∈ names -> ref_cnsa refs n = true <->
    exists g, dget n TLS_PQC_GROUPS = Some g /\ g_kem g = "ML-KEM-1024") as Href.
  { intros n Hn. unfold ref_cnsa. specialize (Hl n).
    destruct (dget n TLS_PQC_GROUPS) as [g|] eqn:E.
    - rewrite decide_True in Hl by done. destruct Hl as (e & -> & std & _ & _ & Hk & _ & _ & Hc & _).
      rewrite Hc. simpl. rewrite (proj1 cnsa_column n g E). naive_solver.
    - rewrite Hl. naive_solver. }
  assert (forall n, n ∈ refs.*1 -> n ∈ names) as Hsub.
  { intros n Hn. apply dmem_iff in Hn. unfold dmem in Hn. specialize (Hl n).
    destruct (dget n TLS_PQC_GROUPS); [|by rewrite Hl in Hn]. case_decide; [done|by rewrite Hl in Hn]. }
  split; intros n; rewrite elem_of_py_sorted, list_elem_of_In, filter_In, <-list_elem_of_In.
  - split.
    + intros [Hn Hc]. split; [auto|]. apply Href; auto.
    + intros [Hn Hc]. apply Href in Hc as Hc'; [|done]. split; [|done].
      unfold ref_cnsa in Hc'. apply dmem_iff. unfold dmem. by destruct (dget n refs).
  - split; intros [Hn Hc]; (split; [done|]).
    + intros Ha. apply Href in Ha; [|done]. by rewrite Ha in Hc.
    + destruct (ref_cnsa refs n) eqn:E; [|done]. apply Href in E; [|done]. done.
Qed.

Lemma cnsa_status_cases ok pk fields :
  (cnsa_status_of ok pk fields = Unknown <-> ok = false /\ pk = false) /\
  (cnsa_status_of ok pk fields = Compliant <->
     (ok = true \/ pk = true) /\ forallb id fields = true) /\
  (cnsa_status_of ok pk fields = NonCompliant <->
     (ok = true \/ pk = true) /\ forallb id fields = false /\ existsb id fields = false).
Proof.
  unfold cnsa_status_of.
  destruct ok, pk, (forallb id fields), (existsb id fields); simpl; split_and!; intuition congruence.
Qed.

(** What [exposes] reads: a probed list that holds the name. *)
Definition offers (openssl : value) (key name : string) : Prop :=
  openssl_cli_probed openssl = Ok true /\
  exists l, get key openssl = Ok l /\ py_in (VStr name) (por l (VList [])) = Ok true.

Lemma exposes_offers openssl known key name b :
  openssl_cli_probed openssl = Ok known -> exposes openssl known key name = Ok b ->
  b = true <-> offers openssl key name.
Proof.
  intros Hk. unfold exposes, offers. rewrite Hk. destruct known.
  - intros H. bind H as l Hl. rewrite Hl. split.
    + intros ->. split; [done|]. by exists l.
    + intros (_ & l' & [= <-] & Hin). congruence.
  - intros [= <-]. split; [done|]. by intros [? _].
Qed.


Definition sample_proc : string := str_join newline [
  "name         : xts(aes)"; "driver       : xts-aes-aesni"; "min keysize  : 32"; "max keysize  : 64"; EmptyString;
  "name         : sha384"; "driver       : sha384-avx2"; EmptyString;
  "name         : sha512"; "driver       : sha512-generic"; EmptyString].
Definition sample_cnsa_openssl : value :=
  VDict [("available", VBool true); ("kem_algorithms", VStrs ["ML-KEM-768"; "ML-KEM-1024"]);
         ("sig_algorithms", VStrs ["ML-DSA-65"]);
         ("tls_groups", VDict [("pure_pqc", VStrs ["MLKEM1024"]); ("hybrid", VStrs ["X25519MLKEM768"])])].


(** The driver check is "contains", not "ends in" as the docstring of
    [parse_proc_crypto_cnsa] says. *)
Lemma hw_driver_anywhere : hw_driver "sha512-ceva-generic" = true.
Proof. reflexivity. Qed.
