(* ===== verification/Services.v ===== *)
(** * Joining listeners to service configurations ([config_services.py])

    The lookup of the configured endpoint that serves a listening socket, and
    the endpoints whose own configuration keeps PQC out. *)

From S2P Require Import Prelude PyStr PyDict PyVal.
Open Scope Z_scope.
(** [v.get(k) or {}] and [for x in v.get(k) or []]. *)
Definition get_d (k : string) (v : value) : res value := x ← get k v; Ok (por x (VDict [])).
Definition get_l (k : string) (v : value) : res (list value) :=
  x ← get k v; py_iter (por x (VList [])).

Definition SERVICE_PROCESSES : list (string * list string) := [
  ("nginx", ["nginx"]);
  ("apache", ["httpd"; "apache2"; "httpd-prefork"; "httpd-worker"; "httpd-event"]);
  ("haproxy", ["haproxy"]);
  ("stunnel", ["stunnel"; "stunnel4"]);
  ("squid", ["squid"]);
  ("postfix", ["master"; "smtpd"]);
  ("dovecot", ["dovecot"; "imap-login"; "pop3-login"; "submission-login"]);
  ("postgresql", ["postgres"; "postmaster"]);
  ("mysql", ["mariadbd"; "mysqld"]);
  ("redis", ["redis-server"; "valkey-server"]);
  ("openldap", ["slapd"]);
  ("389-ds", ["ns-slapd"]);
  ("tomcat", ["java"])].

Definition SERVICE_EXE_HINTS : list (string * list string) :=
  [("postfix", ["/postfix/"]); ("tomcat", ["java"; "jre"; "jdk"])].

Definition service_runs (proc exe unit : string) (entry : string * list string) : bool :=
  let '(name, procs) := entry in
  bool_decide (proc ∈ procs) &&
  match dget name SERVICE_EXE_HINTS with
  | Some hints => existsb (fun h => contains h exe) hints
  | None => true
  end &&
  negb (String.eqb name "tomcat" && negb (contains "tomcat" unit)).

(** [str(v.get(k) or '')]. *)
Definition get_text (k : string) (v : value) : res string :=
  x ← get k v; Ok (py_str (por x (VStr EmptyString))).

Definition service_for_listener (listener : value) : res (option string) :=
  proc ← get_text "process" listener;
  exe ← get_text "exe" listener;
  unit ← get_text "systemd_unit" listener;
  Ok (fst <$> find (service_runs proc exe unit) SERVICE_PROCESSES).

Definition endpoint_path (i j : nat) : string :=
  "service_tls_config.services[" +:+ show_nat i +:+ "].endpoints[" +:+ show_nat j +:+ "]".

Fixpoint find_endpoint (port : value) (i j : nat) (eps : list value) : res (option (string * value)) :=
  match eps with
  | [] => Ok None
  | ep :: eps =>
      role ← get "role" ep;
      hit ← (if py_eq role (VStr "server")
             then ports ← get "ports" ep; py_in port (por ports (VList []))
             else Ok false);
      if hit : bool then Ok (Some (endpoint_path i j, ep)) else find_endpoint port i (S j) eps
  end.

Fixpoint find_service (name : string) (port : value) (i : nat) (svcs : list value) :
    res (option (string * value)) :=
  match svcs with
  | [] => Ok None
  | svc :: svcs =>
      s ← get "service" svc;
      if negb (py_eq s (VStr name)) then find_service name port (S i) svcs
      else
        eps ← get_l "endpoints" svc;
        r ← find_endpoint port i 0 eps;
        match r with Some e => Ok (Some e) | None => find_service name port (S i) svcs end
  end.

Definition endpoint_for_listener (stc listener : value) : res (option (string * value)) :=
  name ← service_for_listener listener;
  match name with
  | None => Ok None
  | Some name =>
      available ← get "available" stc;
      if negb (truthy available) then Ok None
      else
        port ← get "port" listener;
        svcs ← get_l "services" stc;
        find_service name port 0 svcs
  end.

Record blocked := Blocked {
  bl_service : value; bl_path : string; bl_endpoint : value; bl_version : value }.

Definition blocked_of (i : nat) (svc : value) (acc : list blocked) (jep : nat * value) : res (list blocked) :=
  let '(j, ep) := jep in
  role ← get "role" ep;
  if negb (py_eq role (VStr "server")) then Ok acc
  else
    kex ← get "pqc_key_exchange" ep;
    if negb (is_false kex) then Ok acc
    else
      service ← get "service" svc;
      version ← get "version" svc;
      Ok (acc ++ [Blocked service (endpoint_path i j) ep version]).

Definition enumerate {A} (l : list A) : list (nat * A) := zip (seq 0 (length l)) l.

Definition blocked_endpoints (stc : value) (tls_capable : option bool) : res (list blocked) :=
  available ← get "available" stc;
  if negb (truthy available) || negb (bool_decide (tls_capable = Some true)) then Ok []
  else
    svcs ← get_l "services" stc;
    foldM (fun acc '(i, svc) =>
      eps ← get_l "endpoints" svc;
      foldM (blocked_of i svc) acc (enumerate eps)) [] (enumerate svcs).

Example endpoint_found :
  endpoint_for_listener
    (VDict [("available", VBool true);
            ("services", VList [VDict [("service", VStr "apache")];
               VDict [("service", VStr "nginx");
                      ("endpoints", VList [VDict [("role", VStr "server"); ("ports", VList [VInt 80])];
                                           VDict [("role", VStr "server"); ("ports", VList [VInt 443])]])]])])
    (VDict [("process", VStr "nginx"); ("port", VInt 443)]) =
  Ok (Some ("service_tls_config.services[1].endpoints[1]",
            VDict [("role", VStr "server"); ("ports", VList [VInt 443])])).
Proof. vm_compute. reflexivity. Qed.

(** * Shapes of JSON values

    A small type language for the dictionaries the modules exchange, with an
    executable check, and what a reader may rely on for a value of a shape:
    [.get] does not raise and what it returns has the field's shape. *)
Inductive jty :=
| JAny                                    (* anything *)
| JNone | JBool | JInt | JFloat | JStr
| JOr (a b : jty)
| JList (a : jty)
| JMap (a : jty)                          (* a dict of values of one shape *)
| JRec (fields : list (string * jty))     (* exactly these keys, in this order *)
| JOpt (fields : list (string * jty)).    (* these keys where present; others may be there *)

Fixpoint has_type (t : jty) (v : value) {struct t} : bool :=
  match t with
  | JAny => true
  | JNone => is_none v
  | JBool => if v is VBool _ then true else false
  | JInt => if v is VInt _ then true else false
  | JFloat => if v is VFloat _ then true else false
  | JStr => is_str v
  | JOr a b => has_type a v || has_type b v
  | JList a => if v is VList l then forallb (has_type a) l else false
  | JMap a => if v is VDict d then forallb (fun kx => has_type a kx.2) d else false
  | JRec fields =>
      if v is VDict d then
        (fix go fields d :=
           match fields, d with
           | [], [] => true
           | (k, t) :: fields, (k', x) :: d => String.eqb k k' && has_type t x && go fields d
           | _, _ => false
           end) fields d
      else false
  | JOpt fields =>
      if v is VDict d then
        (fix go fields :=
           match fields with
           | [] => true
           | (k, t) :: fields => (match dget k d with Some x => has_type t x | None => true end) && go fields
           end) fields
      else false
  end.

Definition JMaybe (t : jty) : jty := JOr JNone t.

(** The fields of a record, as a relation. *)
Definition has_fields (fields : list (string * jty)) (d : list (string * value)) : Prop :=
  Forall2 (fun f kx => f.1 = kx.1 /\ has_type f.2 kx.2 = true) fields d.

Lemma has_type_rec fields d : has_type (JRec fields) (VDict d) = true <-> has_fields fields d.
Proof.
  unfold has_fields. revert d. induction fields as [|[k t] fields IH]; intros [|[k' x] d]; cbn.
  - by split.
  - split; [done|by inversion 1].
  - split; [done|by inversion 1].
  - rewrite !andb_true_iff, String.eqb_eq. specialize (IH d). cbn in IH. rewrite IH. split.
    + intros [[-> Hx] Hd]. by constructor.
    + inversion 1 as [|? ? ? ? [? ?]]; simplify_eq/=. done.
Qed.

Lemma has_type_opt fields d : has_type (JOpt fields) (VDict d) = true <->
  Forall (fun f => forall x, dget f.1 d = Some x -> has_type f.2 x = true) fields.
Proof.
  induction fields as [|[k t] fields IH]; cbn; [by split|].
  rewrite andb_true_iff, Forall_cons. cbn in IH. rewrite IH. cbn. apply and_iff_compat_r.
  destruct (dget k d); [|by split]. split; [by intros ? ? [= <-]|auto].
Qed.

Lemma has_type_dict fields v : has_type (JOpt fields) v = true -> exists d, v = VDict d.
Proof. destruct v; try done. by eexists. Qed.

(** Reading an optional field. *)
Lemma get_opt fields v k t :
  has_type (JOpt fields) v = true -> (k, t) ∈ fields ->
  exists x, get k v = Ok x /\ (x = VNone \/ has_type t x = true).
Proof.
  intros Hv Hk. destruct (has_type_dict _ _ Hv) as [d ->]. rewrite has_type_opt, Forall_forall in Hv.
  specialize (Hv _ Hk). cbn in Hv. unfold get, get_or. destruct (dget k d) as [x|] eqn:E; cbn; eauto.
Qed.

Lemma get_opt_any fields v k : has_type (JOpt fields) v = true -> exists x, get k v = Ok x.
Proof. intros Hv. destruct (has_type_dict _ _ Hv) as [d ->]. cbn. eauto. Qed.

(** [d.get(k) or {}] of an optional dictionary. *)
Lemma get_d_opt fields v k fs :
  has_type (JOpt fields) v = true -> (k, JMaybe (JOpt fs)) ∈ fields ->
  exists x, get_d k v = Ok x /\ has_type (JOpt fs) x = true.
Proof.
  intros Hv Hk. destruct (get_opt _ _ _ _ Hv Hk) as (x & Hx & Hor). unfold get_d. rewrite Hx. cbn [mbind res_bind].
  exists (por x (VDict [])). split; [done|].
  assert (has_type (JOpt fs) (VDict []) = true) as He by (apply has_type_opt, Forall_forall; done).
  unfold por. destruct (truthy x) eqn:Et; [|done].
  destruct Hor as [->|Ht]; [done|]. unfold JMaybe in Ht. cbn [has_type] in Ht. rewrite orb_true_iff in Ht.
  destruct Ht as [Hn|Ht]; [by destruct x|done].
Qed.

(** [for x in d.get(k) or []] of an optional list. *)
Lemma get_l_opt fields v k t :
  has_type (JOpt fields) v = true -> (k, JMaybe (JList t)) ∈ fields ->
  exists l, get_l k v = Ok l /\ forallb (has_type t) l = true.
Proof.
  intros Hv Hk. destruct (get_opt _ _ _ _ Hv Hk) as (x & Hx & Hor). unfold get_l. rewrite Hx. cbn [mbind res_bind].
  unfold por. destruct (truthy x) eqn:Et; [|by exists []].
  destruct Hor as [->|Ht]; [done|]. unfold JMaybe in Ht. cbn [has_type] in Ht. rewrite orb_true_iff in Ht.
  destruct Ht as [Hn|Ht]; [by destruct x|]. destruct x; try done. by exists l.
Qed.

(** A list of strings, as strings. *)
Lemma typed_strs l : forallb (has_type JStr) l = true -> exists ss, l = VStr <$> ss.
Proof.
  induction l as [|x l IH]; [by exists []|]. cbn. rewrite andb_true_iff. intros [Hx Hl].
  destruct x; try done. destruct (IH Hl) as [ss ->]. by exists (s :: ss).
Qed.

Lemma has_type_strs ss : has_type (JList JStr) (VStrs ss) = true.
Proof. cbn. induction ss; [done|]. cbn. done. Qed.

(** Fields of a record by key. *)
Lemma has_fields_get fields d k t :
  has_fields fields d -> NoDup fields.*1 -> (k, t) ∈ fields -> exists x, dget k d = Some x /\ has_type t x = true.
Proof.
  unfold has_fields. induction 1 as [|[k' t'] [k2 x] fields d [Hk Hx] Hd IH]; [by intros _ ?%not_elem_of_nil|].
  cbn in Hk, Hx. subst k2. csimpl. intros [Hn Hnd]%NoDup_cons [[= -> ->]|Hin]%elem_of_cons.
  - rewrite decide_True by done. eauto.
  - rewrite decide_False; [by apply IH|]. intros ->. apply Hn. apply list_elem_of_fmap. by exists (k', t).
Qed.

Lemma getitem_rec fields v k t :
  has_type (JRec fields) v = true -> NoDup fields.*1 -> (k, t) ∈ fields ->
  exists x, getitem k v = Ok x /\ has_type t x = true.
Proof.
  destruct v as [| | | | | |d]; try done. intros Hv%has_type_rec Hn Hk.
  destruct (has_fields_get _ _ _ _ Hv Hn Hk) as (x & Hx & Ht). exists x. unfold getitem. by rewrite Hx.
Qed.
