(* ===== verification/Gap.v ===== *)
(** * Capability against configuration ([gap.py])

    One state per protocol, listening service and outbound client, joined
    from what the software can do and what it is set up to do.  Reports are
    dynamic values; the verdicts are records, and [gap_value] gives the JSON
    object the report stores. *)

From stdpp Require Import pretty.
From S2P Require Import Prelude PyStr PyDict PyVal PyRe ConfigRead Services.
Open Scope Z_scope.

Inductive state := Deployed | CapableNotConfigured | ConfiguredNotCapable | NotCapable | UnknownState | NotPresent.
#[export] Instance state_eq_dec : EqDecision state.
Proof. solve_decision. Defined.

Definition STATES : list state :=
  [Deployed; CapableNotConfigured; ConfiguredNotCapable; NotCapable; UnknownState; NotPresent].
Definition PROTOCOLS : list string := ["tls"; "ssh"; "ipsec"].

Definition state_name (s : state) : string :=
  match s with
  | Deployed => "deployed" | CapableNotConfigured => "capable_not_configured"
  | ConfiguredNotCapable => "configured_not_capable" | NotCapable => "not_capable"
  | UnknownState => "unknown" | NotPresent => "not_present"
  end.

(** [STATES.index(s)]. *)
Definition state_index (s : state) : Z :=
  match s with
  | Deployed => 0 | CapableNotConfigured => 1 | ConfiguredNotCapable => 2
  | NotCapable => 3 | UnknownState => 4 | NotPresent => 5
  end.

Definition SSH_DAEMONS : list string := ["sshd"; "sshd-session"; "sshd-auth"].

(** [_bool] keeps only real booleans: [as_bool] of a value. *)

Definition classify (capable configured : option bool) : state :=
  match capable, configured with
  | Some true, Some true => Deployed
  | Some true, Some false => CapableNotConfigured
  | Some true, None => UnknownState
  | Some false, Some true => ConfiguredNotCapable
  | Some false, _ => NotCapable
  | None, _ => UnknownState
  end.

Record verdict := Verdict {
  v_state : state; v_capable : option bool; v_configured : option bool;
  v_ev_capable : list string; v_ev_configured : list string; v_note : option string }.

Definition mk_verdict (capable configured : option bool) (capable_from configured_from : list string)
    (note : option string) (present : bool) : verdict :=
  if present then Verdict (classify capable configured) capable configured capable_from configured_from note
  else Verdict NotPresent None None [] [] note.

(** ** Per-protocol judgements *)

Abbreviation judgement := (option bool * list string)%type.

(** The first of two fields that is a boolean, with the path that decided. *)
Definition offers_pqc (groups : value) : res bool :=
  hybrid ← get "hybrid" groups;
  if truthy hybrid then Ok true else pure ← get "pure_pqc" groups; Ok (truthy pure).

Definition tls_capable (report : value) : res judgement :=
  o ← get_d "openssl" report;
  groups ← get "tls_groups" o;
  available ← get "available" o;
  if truthy available && is_dict groups then
    b ← offers_pqc groups; Ok (Some b, ["openssl.tls_groups"])
  else
    native ← get "pqc_native" o;
    match as_bool native with
    | Some b => Ok (Some b, ["openssl.pqc_native"])
    | None =>
        expected ← get "pqc_native_expected" o;
        match as_bool expected with
        | Some b => Ok (Some b, ["openssl.pqc_native_expected"])
        | None => Ok (None, [])
        end
    end.

(** [((report.get("crypto_policy") or {}).get("pqc_enabled") or {}).get(key)]. *)
Definition policy_setting (report : value) (key : string) : res judgement :=
  policy ← get_d "crypto_policy" report;
  enabled ← get_d "pqc_enabled" policy;
  v ← get key enabled;
  Ok (match as_bool v with
      | Some b => (Some b, ["crypto_policy.pqc_enabled." +:+ key])
      | None => (None, [])
      end).

Definition tls_configured (report : value) : res judgement :=
  p ← policy_setting report "tls_key_exchange";
  if bool_decide (is_Some p.1) then Ok p
  else
    o ← get_d "openssl" report;
    cfg ← get_d "config" o;
    v ← get "pqc_key_exchange_by_default" cfg;
    Ok (match as_bool v with
        | Some b => (Some b, ["openssl.config.pqc_key_exchange_by_default"])
        | None => (None, [])
        end).

Definition ssh_capable (report : value) : res judgement :=
  sshd ← get_d "sshd" report;
  v ← get "openssh_supports_pqc_kex" sshd;
  match as_bool v with
  | Some b => Ok (Some b, ["sshd.openssh_supports_pqc_kex"])
  | None =>
      ssh ← get_d "ssh_pqc" report;
      kex ← get "kex_groups" ssh;
      if is_dict kex then b ← offers_pqc kex; Ok (Some b, ["ssh_pqc.kex_groups"])
      else Ok (None, [])
  end.

Definition ssh_configured (report : value) : res judgement :=
  sshd ← get_d "sshd" report;
  v ← get "pqc_offered" sshd;
  match as_bool v with
  | Some b => Ok (Some b, ["sshd.pqc_offered"])
  | None => policy_setting report "ssh_key_exchange_server"
  end.

Definition ike_capable (report : value) : res judgement :=
  ipsec ← get_d "ipsec_pqc" report;
  available ← get "available" ipsec;
  if negb (truthy available) then Ok (None, [])
  else
    v ← get "pqc" ipsec;
    Ok (match as_bool v with Some b => (Some b, ["ipsec_pqc.pqc"]) | None => (None, []) end).

Definition ike_summary (report : value) : res value :=
  ipsec ← get_d "ipsec_pqc" report;
  configured ← get_d "configured" ipsec;
  get_d "summary" configured.

Definition ike_configured (report : value) : res judgement :=
  summary ← ike_summary report;
  connections ← get "connections" summary;
  if truthy connections then
    offering ← get "connections_offering_pqc" summary;
    Ok (Some (truthy offering), ["ipsec_pqc.configured.summary.connections_offering_pqc"])
  else policy_setting report "ike_key_exchange".

(** ** Listening processes *)

Record listener_cap := ListenerCap {
  lc_families : list string; lc_capable : option bool; lc_go_hybrid : bool }.

(** [sorted({str(x.get("family")) for x in libs if x.get("family")})]. *)
Definition lib_families (libs : list value) : res (list string) :=
  fams ← mapM (fun x => get "family" x) libs;
  Ok (sorted_set (py_str <$> List.filter truthy fams)).

(** A Go listener: its default is hybrid and is not reverted. *)
Definition go_capable_of (go : value) : res (option bool) :=
  if negb (truthy go) then Ok None
  else
    reverts ← get "godebug_reverts" go;
    set ← py_set (por reverts (VList []));
    hybrid ← get "default_hybrid_kex" go;
    Ok (Some (truthy hybrid && negb (existsb (py_eq (VStr "tlsmlkem")) set))).

Definition listener_capability (listener : value) : res listener_cap :=
  libs ← get_l "crypto_libraries" listener;
  go0 ← get "go" listener;
  let go := por go0 VNone in
  fams ← lib_families libs;
  let families := fams ++ (if truthy go then ["go"] else []) in
  flags ← mapM (fun x => get "library_pqc_capable" x) libs;
  go_capable ← go_capable_of go;
  let capable :=
    if existsb (py_eq (VBool true)) flags || bool_decide (go_capable = Some true) then Some true
    else if (negb (bool_decide (length flags = 0%nat)) && forallb is_false flags) ||
            bool_decide (go_capable = Some false) then Some false
    else None in
  Ok (ListenerCap families capable (bool_decide (go_capable = Some true))).

Definition OPENSSL_PRE3_SONAME : re :=
  RSeqs [RLit "/lib"; RAlt (RLit "ssl") (RLit "crypto"); RLit ".so.";
         RAlt (RSeq (RLit "1")
                 (ROpt (RSeqs [RLit "."; Digit; RStar true (RChr (fun c => is_digit c || is_lower c || Ascii.eqb c "."))])))
              (RLit "10");
         Eos].

Definition LIBRARY_PROBE_NAME : list (string * string) :=
  [("gnutls", "gnutls"); ("wolfssl", "wolfssl"); ("aws-lc", "aws-lc")].

(** What the library probe says about the same file or version. *)
Definition probe_verdict (lib probe : value) : res (option bool) :=
  if negb (truthy probe) then Ok None
  else
    installed ← get "installed" probe;
    pqc ← get "pqc_capable" probe;
    if negb (truthy installed) || is_none pqc then Ok None
    else
      path ← get "path" lib;
      files ← get "files" probe;
      same_file ← py_in path (por files (VList []));
      version ← get "version" lib;
      pversion ← get "version" probe;
      Ok (if same_file || (truthy version && py_eq version pversion) then Some (truthy pqc) else None).

Definition library_capable (lib probes : value) : res (option bool * string) :=
  capable ← get "library_pqc_capable" lib;
  if negb (is_none capable) then Ok (Some (truthy capable), "version")
  else
    family ← get "family" lib;
    probe ← match dget (py_str family) LIBRARY_PROBE_NAME with
            | Some name => get name probes
            | None => Ok VNone
            end;
    v ← probe_verdict lib probe;
    match v with
    | Some b => Ok (Some b, "crypto_libraries")
    | None =>
        path ← get "path" lib;
        Ok (if py_eq family (VStr "openssl") &&
               test_search OPENSSL_PRE3_SONAME (py_str (por path (VStr EmptyString)))
            then (Some false, "soname") else (None, EmptyString))
    end.

Definition GO_MLKEM_DEFAULT_VERSION : Z * Z := (1, 24).

(** The first three numbers in the text. *)
Definition version_tuple (v : string) : option (list Z) :=
  if String.eqb v EmptyString then None
  else match re_finditer (RPlus Digit) v with
       | [] => None
       | ms => Some (take 3 ((fun m => default 0 (int_of_str (m_text m))) <$> ms))
       end.

(** [vt[:2] < (a, b)]. *)
Definition version_before (vt : list Z) (v : Z * Z) : bool :=
  match vt with
  | [] => true
  | [x] => x <=? v.1
  | x :: y :: _ => (x <? v.1) || ((x =? v.1) && (y <? v.2))
  end.

Definition go_tls_capability (go : value) : res (option bool * option bool) :=
  ver ← get_text "go_version" go;
  match version_tuple (remove_prefix "go" ver) with
  | None => Ok (None, None)
  | Some vt =>
      if version_before vt GO_MLKEM_DEFAULT_VERSION then Ok (Some false, None)
      else
        reverts ← get "godebug_reverts" go;
        reverted ← py_in (VStr "tlsmlkem") (por reverts (VList []));
        Ok (Some true, Some (negb reverted))
  end.

(** ** Report-level verdict *)

Definition tls_verdict (report : value) : res verdict :=
  o ← get_d "openssl" report;
  available ← get "available" o;
  expected ← get "pqc_native_expected" o;
  cap ← tls_capable report;
  conf ← tls_configured report;
  Ok (mk_verdict cap.1 conf.1 cap.2 conf.2 None (truthy available || negb (is_none expected))).

Definition ssh_note (sshd : value) (configured : option bool) : res (option string) :=
  pqc_first ← get "pqc_first" sshd;
  if bool_decide (configured = Some true) && is_false pqc_first then
    first_kex ← get "first_kex" sshd;
    Ok (Some ("PQC offered, but " +:+ py_str first_kex +:+ " is preferred first"))
  else
    unreadable ← get "unreadable" sshd;
    available ← get "available" sshd;
    source ← get "kex_source" sshd;
    Ok (if truthy unreadable && (negb (truthy available) || py_eq source (VStr "unreadable-config"))
        then Some ("sshd configuration not readable by this user; " +:+ PERMISSION_HINT) else None).

Definition ssh_verdict (report : value) : res verdict :=
  sshd ← get_d "sshd" report;
  available ← get "available" sshd;
  unreadable ← get "unreadable" sshd;
  client ← get_d "ssh_pqc" report;
  cavailable ← get "available" client;
  cap ← ssh_capable report;
  conf ← ssh_configured report;
  note ← ssh_note sshd conf.1;
  Ok (mk_verdict cap.1 conf.1 cap.2 conf.2 note
        (truthy available || truthy unreadable || truthy cavailable)).

Definition ipsec_note (ipsec : value) : res (option string) :=
  configured ← get_d "configured" ipsec;
  mismatch ← get_d "capability_mismatch" configured;
  connections ← get "connections" mismatch;
  if truthy connections then
    l ← py_iter connections;
    Ok (Some ("connections the installed stack can't load: " +:+ str_join ", " (py_str <$> l)))
  else Ok None.

Definition ipsec_verdict (report : value) : res verdict :=
  ipsec ← get_d "ipsec_pqc" report;
  summary ← ike_summary report;
  available ← get "available" ipsec;
  connections ← get "connections" summary;
  cap ← ike_capable report;
  conf ← ike_configured report;
  note ← ipsec_note ipsec;
  Ok (mk_verdict cap.1 conf.1 cap.2 conf.2 note (truthy available || truthy connections)).

Record protocols := Protocols { p_tls : verdict; p_ssh : verdict; p_ipsec : verdict }.

Inductive kind := Ssh | Tls.
#[export] Instance kind_eq_dec : EqDecision kind.
Proof. solve_decision. Defined.
Definition kind_name (k : kind) : string := match k with Ssh => "ssh" | Tls => "tls" end.
Definition of_kind (ps : protocols) (k : kind) : verdict := match k with Ssh => p_ssh ps | Tls => p_tls ps end.

Definition service_kind (listener : value) : res kind :=
  name ← get_text "process" listener;
  exe ← get_text "exe" listener;
  Ok (if bool_decide (name ∈ SSH_DAEMONS) || bool_decide (after_last "/" exe ∈ SSH_DAEMONS) then Ssh else Tls).

(** *** Services *)

Record service := Service {
  s_process : value; s_units : list value; s_protocol : value; s_port : value; s_kind : kind;
  s_families : list string; s_verdict : verdict; s_follows : bool; s_listeners : list string;
  s_config : option string }.

Definition listener_path (i : nat) : string := "service_crypto_linkage.listeners[" +:+ show_nat i +:+ "]".

(** The verdict of a TLS listener, and whether it rests on the service's own
    default rather than the host's. *)
Definition tls_service_verdict (report ln : value) (i : nat) (cap : listener_cap)
    (own : option (string * value)) : res (verdict * bool) :=
  go ← get "go" ln;
  from ← get "crypto_libraries_from" ln;
  let cap_from := [listener_path i +:+ ".crypto_libraries"] ++
    (if truthy go then [listener_path i +:+ ".go"] else []) ++
    (if truthy from then [listener_path i +:+ ".crypto_libraries_from"] else []) in
  if lc_go_hybrid cap then
    Ok (mk_verdict (lc_capable cap) (Some true) cap_from [listener_path i +:+ ".go"] None true, true)
  else
    let default_verdict :=
      conf ← tls_configured report;
      Ok (mk_verdict (lc_capable cap) conf.1 cap_from
            (conf.2 ++ match own with Some o => [o.1] | None => [] end) None true, false) in
    match own with
    | None => default_verdict
    | Some (path, ep) =>
        kex ← get "pqc_key_exchange" ep;
        if is_none kex then default_verdict
        else
          supports ← get "service_supports_pqc_groups" ep;
          Ok (mk_verdict (if is_false supports then Some false else lc_capable cap) (Some (truthy kex))
                (if is_false supports then cap_from ++ [path] else cap_from) [path] None true, true)
    end.

(** The dictionary keyed by (process, protocol, port, state). *)
Record skey := SKey { k_process : value; k_protocol : value; k_port : value; k_state : state }.
Definition skey_eqb (a b : skey) : bool :=
  py_eq (k_process a) (k_process b) && py_eq (k_protocol a) (k_protocol b) &&
  py_eq (k_port a) (k_port b) && bool_decide (k_state a = k_state b).

Definition add_listener (path : string) (unit : value) (s : service) : service :=
  Service (s_process s)
    (if truthy unit && negb (existsb (py_eq unit) (s_units s)) then s_units s ++ [unit] else s_units s)
    (s_protocol s) (s_port s) (s_kind s) (s_families s) (s_verdict s) (s_follows s)
    (s_listeners s ++ [path]) (s_config s).

(** [items[key]...append] when the key is there, else a new entry. *)
Fixpoint upsert (key : skey) (old : service -> service) (new : service) (items : list (skey * service)) :
    list (skey * service) :=
  match items with
  | [] => [(key, new)]
  | (k, s) :: items => if skey_eqb k key then (k, old s) :: items else (k, s) :: upsert key old new items
  end.

Record sacc := SAcc { sa_items : list (skey * service); sa_no_crypto : Z; sa_unattributed : Z }.

Definition service_step (report stc : value) (ps : protocols) (acc : sacc) (iln : nat * value) : res sacc :=
  let '(i, ln) := iln in
  process ← get "process" ln;
  if negb (truthy process) then Ok (SAcc (sa_items acc) (sa_no_crypto acc) (sa_unattributed acc + 1))
  else
    cap ← listener_capability ln;
    if bool_decide (lc_families cap = [])
    then Ok (SAcc (sa_items acc) (sa_no_crypto acc + 1) (sa_unattributed acc))
    else
      kind ← service_kind ln;
      own ← match kind with Tls => endpoint_for_listener stc ln | Ssh => Ok None end;
      vd ← match kind with
           | Ssh => Ok (p_ssh ps, false)
           | Tls => tls_service_verdict report ln i cap own
           end;
      let '(v, own_default) := vd in
      protocol ← get "protocol" ln;
      port ← get "port" ln;
      unit ← get "systemd_unit" ln;
      if negb (hashable process && hashable protocol && hashable port) then Raise TypeError
      else
        let entry := Service process (if truthy unit then [unit] else []) protocol port kind
          (lc_families cap) v
          (negb own_default && bool_decide (v_state v = v_state (of_kind ps kind)))
          [listener_path i] (fst <$> own) in
        Ok (SAcc (upsert (SKey process protocol port (v_state v)) (add_listener (listener_path i) unit)
                    entry (sa_items acc))
              (sa_no_crypto acc) (sa_unattributed acc)).

(** The sort key [(str(process), int(port or 0), str(protocol))]. *)
Definition service_key (s : service) : res (string * Z * string) :=
  port ← py_int (por (s_port s) (VInt 0));
  Ok (py_str (s_process s), port, py_str (s_protocol s)).

Definition skey_lt (a b : string * Z * string) : bool :=
  let '(p1, n1, q1) := a in let '(p2, n2, q2) := b in
  str_lt p1 p2 || (String.eqb p1 p2 && ((n1 <? n2) || ((n1 =? n2) && str_lt q1 q2))).

(** [sorted(l, key=f)] where the key may raise. *)
Definition sort_by {A K} (lt : K -> K -> bool) (f : A -> res K) (l : list A) : res (list A) :=
  ks ← mapM f l;
  Ok (snd <$> py_sorted (fun x y => lt x.1 y.1) (zip ks l)).

(** [dict(sorted(counter.items()))]. *)
Definition sorted_counter (c : list (string * Z)) : list (string * Z) :=
  py_sorted (fun x y => str_lt x.1 y.1) c.

Definition count_where {A} (p : A -> bool) (l : list A) : Z := Z.of_nat (length (List.filter p l)).

Record services := Services {
  ss_items : list service; ss_by_state : list (string * Z); ss_differing : Z;
  ss_no_crypto : Z; ss_unattributed : Z }.

(** [None] is [{"available": False}]. *)
Definition compute_services (report : value) (ps : protocols) : res (option services) :=
  scl ← get_d "service_crypto_linkage" report;
  available ← get "available" scl;
  if negb (truthy available) then Ok None
  else
    stc ← get_d "service_tls_config" report;
    listeners ← get_l "listeners" scl;
    acc ← foldM (service_step report stc ps) (SAcc [] 0 0) (enumerate listeners);
    items ← sort_by skey_lt service_key (sa_items acc).*2;
    Ok (Some (Services items
      (sorted_counter (count_keys ((fun s => state_name (v_state (s_verdict s))) <$> items) []))
      (count_where (fun s => negb (s_follows s)) items) (sa_no_crypto acc) (sa_unattributed acc))).

(** *** Outbound clients *)

Record client := Client {
  c_exe : value; c_process : value; c_units : list value; c_containers : list value;
  c_omitted : Z; c_processes : Z; c_families : list string; c_verdict : verdict;
  c_follows : bool; c_group : string }.

(** [int(v.get(k) or 0)]. *)
Definition get_int (k : string) (v : value) : res Z := x ← get k v; py_int (por x (VInt 0)).

Definition group_path (i : nat) : string := "process_crypto_linkage.groups[" +:+ show_nat i +:+ "]".

(** Judged on all mapped libraries: one that can't do PQC may be in use. *)
Definition libs_capable (verdicts : list (option bool)) : option bool :=
  if existsb (fun v => bool_decide (v = Some false)) verdicts then Some false
  else if negb (bool_decide (length verdicts = 0%nat)) && forallb (fun v => bool_decide (v = Some true)) verdicts
  then Some true else None.

(** [dict(lib)] needs a mapping. *)
Definition py_dict (v : value) : res value := if is_dict v then Ok v else Raise TypeError.

Definition client_verdict (report probes go : value) (libs : list value) (path : string) : res (verdict * bool) :=
  if truthy go then
    cc ← go_tls_capability go;
    Ok (mk_verdict cc.1 cc.2 [path +:+ ".go"] [path +:+ ".go"] None true, true)
  else
    vs ← mapM (fun lib => d ← py_dict lib; fst <$> library_capable d probes) libs;
    conf ← tls_configured report;
    Ok (mk_verdict (libs_capable vs) conf.1 [path +:+ ".crypto_libraries"] conf.2 None true, false).

Definition client_step (report probes : value) (ps : protocols) (acc : list client) (igrp : nat * value) :
    res (list client) :=
  let '(i, grp) := igrp in
  roles ← get_d "roles" grp;
  clients ← get_int "client" roles;
  if clients =? 0 then Ok acc
  else
    let path := group_path i in
    libs ← get_l "crypto_libraries" grp;
    go ← get "go" grp;
    fams ← lib_families libs;
    vd ← client_verdict report probes go libs path;
    let '(v, own_default) := vd in
    exe ← get "exe" grp;
    process ← get "process" grp;
    units ← get_l "systemd_units" grp;
    containers ← get_l "containers" grp;
    omitted ← get_int "containers_omitted" grp;
    Ok (acc ++ [Client exe process units containers omitted clients
                  (fams ++ (if truthy go then ["go"] else [])) v
                  (negb own_default && bool_decide (v_state v = v_state (p_tls ps))) path]).

Definition ckey_lt (a b : client) : bool :=
  let '(i, n) := (state_index (v_state (c_verdict a)), - c_processes a) in
  let '(j, m) := (state_index (v_state (c_verdict b)), - c_processes b) in
  (i <? j) || ((i =? j) && (n <? m)).

Record clients := Clients {
  cs_items : list client; cs_by_state : list (string * Z); cs_processes : list (string * Z);
  cs_differing : Z; cs_omitted : option value }.

Definition client_state (c : client) : string := state_name (v_state (c_verdict c)).

Definition compute_clients (report : value) (ps : protocols) : res (option clients) :=
  pcl ← get_d "process_crypto_linkage" report;
  available ← get "available" pcl;
  if negb (truthy available) then Ok None
  else
    cl ← get_d "crypto_libraries" report;
    probes ← get_d "libraries" cl;
    groups ← get_l "groups" pcl;
    items ← foldM (client_step report probes ps) [] (enumerate groups);
    omitted ← get "omitted_groups" pcl;
    let items := py_sorted ckey_lt items in
    Ok (Some (Clients items
      (sorted_counter (count_keys (client_state <$> items) []))
      (sorted_counter (foldl (fun acc c => cadd (client_state c) (c_processes c) acc) [] items))
      (count_where (fun c => negb (c_follows c)) items)
      (if truthy omitted then Some omitted else None))).

(** ** The gap object *)

Record gap := Gap {
  g_protocols : protocols; g_services : option services; g_clients : option clients;
  g_gaps : list string }.

Definition is_gap (s : state) : bool :=
  match s with CapableNotConfigured | ConfiguredNotCapable => true | _ => false end.

Definition protocol_gap (nv : string * verdict) : list string :=
  if is_gap (v_state nv.2) then [nv.1 +:+ ":" +:+ state_name (v_state nv.2)] else [].

Definition service_gap (s : service) : list string :=
  if s_follows s then []
  else if is_gap (v_state (s_verdict s))
  then ["service:" +:+ py_str (s_process s) +:+ "/" +:+ py_str (s_protocol s) +:+ "/" +:+
        py_str (s_port s) +:+ ":" +:+ state_name (v_state (s_verdict s))]
  else [].

Definition client_gap (c : client) : list string :=
  if c_follows c then []
  else if is_gap (v_state (c_verdict c))
  then ["client:" +:+ py_str (por (c_exe c) (c_process c)) +:+ ":" +:+ client_state c]
  else [].

Definition named (ps : protocols) : list (string * verdict) :=
  [("tls", p_tls ps); ("ssh", p_ssh ps); ("ipsec", p_ipsec ps)].

Definition service_items (o : option services) : list service := match o with Some s => ss_items s | None => [] end.
Definition client_items (o : option clients) : list client := match o with Some c => cs_items c | None => [] end.

Definition compute_gap (report : value) : res gap :=
  tls ← tls_verdict report;
  ssh ← ssh_verdict report;
  ipsec ← ipsec_verdict report;
  let ps := Protocols tls ssh ipsec in
  services ← compute_services report ps;
  clients ← compute_clients report ps;
  Ok (Gap ps services clients
        (concat (protocol_gap <$> named ps) ++ concat (service_gap <$> service_items services) ++
         concat (client_gap <$> client_items clients))).

(** The JSON object of a gap. *)
Definition verdict_fields (v : verdict) : list (string * value) :=
  [("state", VStr (state_name (v_state v))); ("capable", of_obool (v_capable v));
   ("configured", of_obool (v_configured v));
   ("evidence", VDict [("capable", VStrs (v_ev_capable v)); ("configured", VStrs (v_ev_configured v))])] ++
  match v_note v with Some n => [("note", VStr n)] | None => [] end.

Definition counter_value (c : list (string * Z)) : value := VDict ((fun kv => (kv.1, VInt kv.2)) <$> c).

Definition service_value (s : service) : value :=
  VDict ([("process", s_process s); ("systemd_units", VList (s_units s)); ("protocol", s_protocol s);
          ("port", s_port s); ("kind", VStr (kind_name (s_kind s)));
          ("crypto_families", VStrs (s_families s))] ++ verdict_fields (s_verdict s) ++
         [("follows_host_default", VBool (s_follows s)); ("listeners", VStrs (s_listeners s))] ++
         match s_config s with Some p => [("service_config", VStr p)] | None => [] end).

Definition services_value (o : option services) : value :=
  match o with
  | None => VDict [("available", VBool false)]
  | Some s => VDict [("available", VBool true); ("items", VList (service_value <$> ss_items s));
                     ("by_state", counter_value (ss_by_state s));
                     ("differing_from_host", VInt (ss_differing s));
                     ("listeners_without_crypto_library", VInt (ss_no_crypto s));
                     ("listeners_unattributed", VInt (ss_unattributed s))]
  end.

Definition client_value (c : client) : value :=
  VDict ([("exe", c_exe c); ("process", c_process c); ("systemd_units", VList (c_units c));
          ("containers", VList (c_containers c)); ("containers_omitted", VInt (c_omitted c));
          ("client_processes", VInt (c_processes c)); ("crypto_families", VStrs (c_families c))] ++
         verdict_fields (c_verdict c) ++
         [("follows_host_default", VBool (c_follows c)); ("group", VStr (c_group c))]).

Definition clients_value (o : option clients) : value :=
  match o with
  | None => VDict [("available", VBool false)]
  | Some c => VDict ([("available", VBool true); ("items", VList (client_value <$> cs_items c));
                      ("by_state", counter_value (cs_by_state c));
                      ("client_processes_by_state", counter_value (cs_processes c));
                      ("differing_from_host", VInt (cs_differing c))] ++
                     match cs_omitted c with Some o => [("groups_omitted_by_scan", o)] | None => [] end)
  end.

Definition gap_value (g : gap) : value :=
  VDict [("protocols", VDict ((fun nv => (nv.1, VDict (verdict_fields nv.2))) <$> named (g_protocols g)));
         ("services", services_value (g_services g)); ("clients", clients_value (g_clients g));
         ("gaps", VStrs (g_gaps g))].

Definition gap_for (report : value) : res value :=
  existing ← get "pqc_deployment_gap" report;
  match existing with
  | VDict d => if truthy (default VNone (dget "protocols" d)) then Ok existing
               else gap_value <$> compute_gap report
  | _ => gap_value <$> compute_gap report
  end.

Definition service_config_blocks (report : value) : res (list blocked) :=
  stc0 ← get_d "service_tls_config" report;
  stc ← py_dict stc0;
  cap ← tls_capable report;
  blocked_endpoints stc cap.1.

(** ** The evidence paths resolve to the fields that decided *)

(** [report.a.b] with a missing or non-object step read as null. *)
Definition field (k : string) (v : value) : value :=
  match v with VDict d => default VNone (dget k d) | _ => VNone end.
Definition fetch (path : string) (report : value) : value :=
  foldl (fun v k => field k v) report (split "." path).

(** What the field at a path says: a group dictionary whether it lists a PQC
    group, any other field its truth value. *)
Definition says (path : string) (v : value) : bool :=
  if bool_decide (path ∈ ["openssl.tls_groups"; "ssh_pqc.kex_groups"])
  then truthy (field "hybrid" v) || truthy (field "pure_pqc" v)
  else truthy v.

(** A judgement names the one field it rests on, or nothing. *)
Definition evidenced (report : value) (j : judgement) : Prop :=
  match j with
  | (None, ev) => ev = []
  | (Some b, ev) => exists path, ev = [path] /\ says path (fetch path report) = b
  end.

Lemma get_field k v y : get k v = Ok y -> y = field k v.
Proof. destruct v; try done. by intros [= <-]. Qed.

Lemma get_d_field k v y : get_d k v = Ok y -> y = por (field k v) (VDict []).
Proof. unfold get_d. intros H. bind H as x Hx. apply get_field in Hx as ->. by injection H as <-. Qed.

Lemma field_por k v : field k (por v (VDict [])) = field k v.
Proof. unfold por. destruct (truthy v) eqn:E; [done|]. destruct v as [| | | | | |[|]]; done. Qed.

Lemma offers_pqc_field v b :
  is_dict v = true -> offers_pqc v = Ok b -> truthy (field "hybrid" v) || truthy (field "pure_pqc" v) = b.
Proof.
  destruct v as [| | | | | |d]; try done. intros _. unfold offers_pqc. cbn [get get_or mbind res_bind].
  simpl. destruct (truthy (default VNone (dget "hybrid" d))); simpl; by intros [= <-].
Qed.

(** Turn the reads of a run of monadic code into equations on [field]. *)
Ltac fields :=
  repeat match goal with
  | H : mbind _ _ = Ok _ |- _ => bind_inv H
  | H : get _ _ = Ok _ |- _ => apply get_field in H
  | H : get_d _ _ = Ok _ |- _ => apply get_d_field in H
  | H : (if ?c then _ else _) = Ok _ |- _ => destruct c eqn:?
  | H : match as_bool ?v with _ => _ end = Ok _ |- _ => destruct (as_bool v) eqn:?
  | H : Ok _ = Ok _ |- _ => injection H as H
  end; subst; rewrite ?field_por in *.

Ltac evidence :=
  simpl; solve [reflexivity
    | eexists; split; [reflexivity|];
      first [match goal with H : as_bool ?w = Some ?b |- _ =>
               change (truthy w = b); apply as_bool_Some in H; rewrite H; reflexivity end
            | apply offers_pqc_field; [|eassumption]; by rewrite ?andb_true_iff in *; tauto]].

Lemma tls_capable_evidence r j : tls_capable r = Ok j -> evidenced r j.
Proof.
  unfold tls_capable. intros H. fields; evidence.
Qed.

Lemma policy_setting_evidence r k j :
  k ∈ ["tls_key_exchange"; "ssh_key_exchange_server"; "ike_key_exchange"] ->
  policy_setting r k = Ok j -> evidenced r j.
Proof.
  unfold policy_setting. intros Hk H. fields.
  destruct (as_bool _) as [b|] eqn:E; [|done].
  rewrite !elem_of_cons, elem_of_nil in Hk.
  destruct Hk as [->|[->|[->|[]]]]; evidence.
Qed.

Lemma tls_configured_evidence r j : tls_configured r = Ok j -> evidenced r j.
Proof.
  unfold tls_configured. intros H. bind H as p Hp.
  destruct (bool_decide (is_Some p.1)).
  - injection H as <-. by apply (policy_setting_evidence _ "tls_key_exchange"); [left|].
  - clear Hp. fields. destruct (as_bool _) as [b|] eqn:E; evidence.
Qed.

Lemma ssh_capable_evidence r j : ssh_capable r = Ok j -> evidenced r j.
Proof. unfold ssh_capable. intros H. fields; evidence. Qed.

Lemma ssh_configured_evidence r j : ssh_configured r = Ok j -> evidenced r j.
Proof.
  unfold ssh_configured. intros H. fields; [evidence|].
  by apply (policy_setting_evidence _ "ssh_key_exchange_server"); [right; left|].
Qed.

Lemma ike_capable_evidence r j : ike_capable r = Ok j -> evidenced r j.
Proof.
  unfold ike_capable. intros H. fields; [evidence|].
  destruct (as_bool _) as [b|] eqn:E; evidence.
Qed.

Lemma ike_configured_evidence r j : ike_configured r = Ok j -> evidenced r j.
Proof.
  unfold ike_configured, ike_summary. intros H. bind H as s Hs. bind H as c Hc.
  destruct (truthy c) eqn:Ec.
  - fields. by eexists.
  - by apply (policy_setting_evidence _ "ike_key_exchange"); [right; right; left|].
Qed.

(** What a verdict promises: its state follows from its two judgements, each
    resting on the field its evidence names; or the protocol is absent. *)
Definition well_evidenced (report : value) (v : verdict) : Prop :=
  (v_state v = NotPresent /\ v_capable v = None /\ v_configured v = None /\
   v_ev_capable v = [] /\ v_ev_configured v = []) \/
  (v_state v = classify (v_capable v) (v_configured v) /\
   evidenced report (v_capable v, v_ev_capable v) /\
   evidenced report (v_configured v, v_ev_configured v)).

Lemma mk_verdict_evidenced report cap conf note present :
  evidenced report cap -> evidenced report conf ->
  well_evidenced report (mk_verdict cap.1 conf.1 cap.2 conf.2 note present).
Proof.
  intros H1 H2. unfold mk_verdict. destruct present; [right|by left].
  split_and!; [done | by destruct cap | by destruct conf].
Qed.

Lemma tls_verdict_evidenced r v : tls_verdict r = Ok v -> well_evidenced r v.
Proof.
  unfold tls_verdict. intros H. bind_inv H. bind_inv H. bind_inv H. bind H as cap Hc. bind H as conf Hf.
  injection H as <-.
  apply mk_verdict_evidenced; [by apply tls_capable_evidence | by apply tls_configured_evidence].
Qed.

Lemma ssh_verdict_evidenced r v : ssh_verdict r = Ok v -> well_evidenced r v.
Proof.
  unfold ssh_verdict. intros H. do 5 bind_inv H. bind H as cap Hc. bind H as conf Hf. bind_inv H.
  injection H as <-.
  apply mk_verdict_evidenced; [by apply ssh_capable_evidence | by apply ssh_configured_evidence].
Qed.

Lemma ipsec_verdict_evidenced r v : ipsec_verdict r = Ok v -> well_evidenced r v.
Proof.
  unfold ipsec_verdict. intros H. do 4 bind_inv H. bind H as cap Hc. bind H as conf Hf. bind_inv H.
  injection H as <-.
  apply mk_verdict_evidenced; [by apply ike_capable_evidence | by apply ike_configured_evidence].
Qed.

(** C25: Every per-protocol verdict of the report is backed by the fields its
    evidence names: the state is the one the two judgements determine, each
    judgement that is not unknown carries exactly one path, and reading the
    report at that path gives that judgement; an unknown judgement has no
    evidence and an absent protocol neither judgement. *)
Theorem protocol_verdicts_evidenced report g n v :
  compute_gap report = Ok g -> (n, v) ∈ named (g_protocols g) -> well_evidenced report v.
Proof.
  unfold compute_gap. intros H Hin.
  bind H as tls Ht. bind H as ssh Hs. bind H as ipsec Hi. bind_inv H. bind_inv H. injection H as <-.
  unfold named in Hin. simpl in Hin. rewrite !elem_of_cons, elem_of_nil in Hin.
  destruct Hin as [[= -> ->]|[[= -> ->]|[[= -> ->]|[]]]];
    [by apply tls_verdict_evidenced | by apply ssh_verdict_evidenced | by apply ipsec_verdict_evidenced].
Qed.

Definition sample_report : value := VDict [
  ("openssl", VDict [("available", VBool true); ("tls_groups", VDict [("hybrid", VStrs ["X25519MLKEM768"])])]);
  ("crypto_policy", VDict [("pqc_enabled", VDict [("tls_key_exchange", VBool false)])]);
  ("sshd", VDict [("available", VBool true); ("pqc_offered", VBool true); ("openssh_supports_pqc_kex", VBool true)]);
  ("service_crypto_linkage", VDict [("available", VBool true); ("listeners", VList [
     VDict [("process", VStr "nginx"); ("protocol", VStr "tcp"); ("port", VInt 443);
            ("crypto_libraries", VList [VDict [("family", VStr "openssl"); ("library_pqc_capable", VBool true)]])];
     VDict [("process", VStr "caddy"); ("protocol", VStr "tcp"); ("port", VInt 8443);
            ("go", VDict [("default_hybrid_kex", VBool true)])];
     VDict [("process", VNone)];
     VDict [("process", VStr "nginx"); ("protocol", VStr "tcp"); ("port", VInt 443);
            ("crypto_libraries", VList [VDict [("family", VStr "openssl"); ("library_pqc_capable", VBool true)]])]])])].

Lemma protocol_verdicts_evidenced_witness :
  exists g v, compute_gap sample_report = Ok g /\ ("tls", v) ∈ named (g_protocols g) /\
    v_state v = CapableNotConfigured /\ well_evidenced sample_report v.
Proof.
  destruct (compute_gap sample_report) as [g|] eqn:E; [|vm_compute in E; discriminate].
  exists g, (p_tls (g_protocols g)).
  assert (("tls", p_tls (g_protocols g)) ∈ named (g_protocols g)) as Hin by (left; reflexivity).
  pose proof (protocol_verdicts_evidenced _ _ _ _ E Hin) as Hw.
  split_and!; [done|done| |exact Hw]. vm_compute in E. injection E as <-. reflexivity.
Defined.

Example sample_gaps :
  (fun g => (g_gaps g, (fun s => (s_process s, state_name (v_state (s_verdict s)), s_listeners s)) <$> service_items (g_services g)))
    <$> compute_gap sample_report =
  Ok (["tls:capable_not_configured"],
      [(VStr "caddy", "deployed", ["service_crypto_linkage.listeners[1]"]);
       (VStr "nginx", "capable_not_configured",
        ["service_crypto_linkage.listeners[0]"; "service_crypto_linkage.listeners[3]"])]).
Proof. vm_compute. reflexivity. Qed.

(** ** Every listener is accounted for *)

Lemma sort_by_perm {A K} (lt : K -> K -> bool) (f : A -> res K) l l' : sort_by lt f l = Ok l' -> l' ≡ₚ l.
Proof.
  unfold sort_by. intros H. bind H as ks Hk. injection H as <-.
  assert (length ks = length l) as Hlen.
  { clear -Hk. revert ks Hk; induction l as [|x l IH]; intros ks; simpl; [by intros [= <-]|].
    intros H. bind H as y Hy. bind H as ys Hys. injection H as <-. simpl. f_equal. by apply IH. }
  rewrite py_sorted_perm. rewrite snd_zip by lia. done.
Qed.

Definition listed (items : list (skey * service)) : list string := concat (s_listeners <$> items.*2).

Lemma upsert_listed key p u entry items :
  s_listeners entry = [p] -> listed (upsert key (add_listener p u) entry items) ≡ₚ listed items ++ [p].
Proof.
  intros He. unfold listed. induction items as [|[k s] items IH]; csimpl.
  - by rewrite He.
  - destruct (skey_eqb k key); csimpl.
    + rewrite <-!app_assoc. apply Permutation_app_head, Permutation_app_comm.
    + by rewrite IH, app_assoc.
Qed.

Lemma service_step_listed report stc ps acc i ln acc' :
  service_step report stc ps acc (i, ln) = Ok acc' ->
  exists new : list nat, (new = [] \/ new = [i]) /\
    listed (sa_items acc') ≡ₚ listed (sa_items acc) ++ (listener_path <$> new) /\
    Z.of_nat (length new) + sa_no_crypto acc' + sa_unattributed acc' =
      1 + sa_no_crypto acc + sa_unattributed acc.
Proof.
  unfold service_step. intros H. bind H as process Hp. destruct (truthy process); simpl in H.
  2:{ injection H as <-. exists []. split_and!; [by left| |simpl; lia]. simpl. by rewrite app_nil_r. }
  bind H as cap Hc. destruct (bool_decide _).
  { injection H as <-. exists []. split_and!; [by left| |simpl; lia]. simpl. by rewrite app_nil_r. }
  do 3 bind_inv H. destruct x1 as [v own]. do 3 bind_inv H.
  destruct (negb _); [done|]. injection H as <-. exists [i]. split_and!; [by right| |simpl; lia].
  simpl. by apply upsert_listed.
Qed.

Lemma services_listed report stc ps listeners k acc acc' :
  foldM (service_step report stc ps) acc (zip (seq k (length listeners)) listeners) = Ok acc' ->
  exists new, new `sublist_of` seq k (length listeners) /\
    listed (sa_items acc') ≡ₚ listed (sa_items acc) ++ (listener_path <$> new) /\
    Z.of_nat (length new) + sa_no_crypto acc' + sa_unattributed acc' =
      Z.of_nat (length listeners) + sa_no_crypto acc + sa_unattributed acc.
Proof.
  revert k acc; induction listeners as [|ln listeners IH]; intros k acc; simpl.
  - intros [= <-]. exists []. split_and!; [done| by rewrite app_nil_r | simpl; lia].
  - intros H. bind H as acc1 H1. apply service_step_listed in H1 as (n1 & Hn1 & Hl1 & Hs1).
    apply IH in H as (n2 & Hn2 & Hl2 & Hs2). exists (n1 ++ n2). split_and!.
    + destruct Hn1 as [->| ->]; simpl; by constructor.
    + rewrite Hl2, Hl1, fmap_app. by rewrite app_assoc.
    + rewrite length_app. lia.
Qed.

Lemma str_app_inj_l (a b c : string) : a +:+ b = a +:+ c -> b = c.
Proof. induction a; simpl; [done|]. intros [= H]. auto. Qed.
Lemma str_app_inj_r (a b c : string) : a +:+ c = b +:+ c -> a = b.
Proof.
  intros H. apply (f_equal chars) in H. rewrite !chars_app in H. apply app_inv_tail in H.
  apply (f_equal str_of) in H. by rewrite !str_of_chars in H.
Qed.

#[export] Instance listener_path_inj : Inj (=) (=) listener_path.
Proof.
  intros i j H. unfold listener_path in H. apply str_app_inj_l, str_app_inj_r in H.
  by apply (inj (@pretty nat _)) in H.
Qed.

Lemma sorted_counter_get k (c : list (string * Z)) : dwf c -> cget k (sorted_counter c) = cget k c.
Proof.
  intros Hwf. unfold cget, sorted_counter. f_equal.
  assert (dwf (py_sorted (fun x y : string * Z => str_lt x.1 y.1) c)) as Hwf'
    by (unfold dwf; by rewrite py_sorted_perm).
  destruct (dget k c) as [n|] eqn:E.
  - apply dget_Some; [done|]. apply elem_of_py_sorted. by apply dget_elem_of.
  - apply dget_None. rewrite py_sorted_perm. by apply dget_None.
Qed.

Lemma count_keys_wf {K} `{EqDecision K} (l : list K) c : dwf c -> dwf (count_keys l c).
Proof. revert c; induction l as [|x l IH]; intros c Hc; simpl; [done|]. apply IH. by apply cincr_wf. Qed.

Lemma ctotal_perm {K} (c c' : list (K * Z)) : c ≡ₚ c' -> ctotal c = ctotal c'.
Proof. induction 1; simpl; lia. Qed.

Definition item_state (s : service) : string := state_name (v_state (s_verdict s)).

(** C7: The services section accounts for every listener exactly once: a
    listener is in exactly one service's list, or counted as unattributed or
    as having no crypto library, and the three add up to the number of
    listeners; the entries' own paths are those of the report; the items are
    sorted; and the per-state counts are exact and add up to the items. *)
Theorem services_account report ps s :
  compute_services report ps = Ok (Some s) ->
  exists scl listeners,
    get_d "service_crypto_linkage" report = Ok scl /\ get_l "listeners" scl = Ok listeners /\
    let paths := concat (s_listeners <$> ss_items s) in
    NoDup paths /\
    (forall p, p ∈ paths -> exists i, (i < length listeners)%nat /\ p = listener_path i) /\
    Z.of_nat (length paths) + ss_no_crypto s + ss_unattributed s = Z.of_nat (length listeners) /\
    (forall st, cget st (ss_by_state s) = occurrences st (item_state <$> ss_items s)) /\
    ctotal (ss_by_state s) = Z.of_nat (length (ss_items s)).
Proof.
  unfold compute_services. intros H. bind H as scl Hscl. bind_inv H.
  destruct (truthy x); simpl in H; [|done]. bind_inv H. bind H as listeners Hln. bind H as acc Hacc.
  bind H as items Hit. injection H as <-. exists scl, listeners. split; [done|]. split; [done|]. cbn [ss_items ss_by_state ss_no_crypto ss_unattributed].
  apply services_listed in Hacc as (new & Hsub & Hl & Hs). cbn in Hl, Hs.
  apply sort_by_perm in Hit.
  assert (concat (s_listeners <$> items) ≡ₚ listener_path <$> new) as Hp by (rewrite Hit; exact Hl).
  split_and!.
  - rewrite Hp. apply NoDup_fmap_2; [apply _|]. eapply sublist_NoDup; [apply NoDup_seq | exact Hsub].
  - intros p. rewrite Hp, list_elem_of_fmap. intros (i & -> & Hi). exists i. split; [|done].
    pose proof (elem_of_sublist _ _ _ Hi Hsub) as Hi'; clear Hi; rename Hi' into Hi. apply elem_of_seq in Hi. lia.
  - rewrite Hp, length_fmap. lia.
  - intros st. rewrite sorted_counter_get by (apply count_keys_wf; constructor).
    rewrite cget_count_keys. done.
  - unfold sorted_counter. rewrite (ctotal_perm _ _ (py_sorted_perm _ _)), ctotal_count_keys, length_fmap. done.
Qed.

Lemma services_account_witness :
  exists g s, compute_gap sample_report = Ok g /\ g_services g = Some s /\
    compute_services sample_report (g_protocols g) = Ok (Some s) /\
    ctotal (ss_by_state s) = Z.of_nat (length (ss_items s)) /\ ss_unattributed s = 1.
Proof.
  destruct (compute_gap sample_report) as [g|] eqn:E; [|vm_compute in E; discriminate].
  vm_compute in E. injection E as <-. do 2 eexists. split; [reflexivity|]. split; [reflexivity|].
  match goal with |- ?a = Ok (Some ?s) /\ _ => assert (a = Ok (Some s)) as Hs by (vm_compute; reflexivity) end.
  split; [exact Hs|].
  destruct (services_account _ _ _ Hs) as (scl & ls & _ & _ & _ & _ & _ & _ & Ht).
  split; [exact Ht | reflexivity].
Defined.

(** ** Clients *)

#[export] Instance ckey_lt_sw : StrictWeak ckey_lt.
Proof. split; unfold not_gt, ckey_lt; intros; lia. Qed.

Lemma libs_capable_true vs :
  libs_capable vs = Some true <-> vs <> [] /\ Forall (fun v => v = Some true) vs.
Proof.
  unfold libs_capable. destruct (existsb _ vs) eqn:E1.
  - split; [done|]. intros [_ Hall]. exfalso. apply existsb_exists in E1 as (v & Hv & Hf).
    apply bool_decide_eq_true in Hf as ->. rewrite Forall_forall in Hall.
    apply list_elem_of_In, Hall in Hv. done.
  - destruct vs as [|v vs]; simpl; [split; [done|by intros [? _]]|].
    destruct (bool_decide (v = Some true)) eqn:Ev; simpl.
    + apply bool_decide_eq_true in Ev as ->. destruct (forallb _ vs) eqn:E2.
      * split; [|done]. intros _. split; [done|]. constructor; [done|]. rewrite Forall_forall. intros w Hw.
        rewrite forallb_forall in E2. apply list_elem_of_In, E2 in Hw. by apply bool_decide_eq_true in Hw.
      * split; [done|]. intros [_ Hall]. inversion Hall as [|? ? _ Hall']; subst.
        exfalso. apply not_true_iff_false in E2. apply E2, forallb_forall. intros w Hw.
        rewrite Forall_forall in Hall'. apply list_elem_of_In, Hall' in Hw as ->. done.
    + apply bool_decide_eq_false in Ev. split; [done|]. intros [_ Hall]. by inversion Hall.
Qed.

Lemma libs_capable_false vs : libs_capable vs = Some false <-> Some false ∈ vs.
Proof.
  unfold libs_capable. destruct (existsb _ vs) eqn:E1.
  - split; [|done]. intros _. apply existsb_exists in E1 as (v & Hv & Hf).
    apply bool_decide_eq_true in Hf as ->. by apply list_elem_of_In.
  - split; [by destruct (_ && _)|]. intros Hin. exfalso. apply not_true_iff_false in E1. apply E1, existsb_exists.
    exists (Some false). split; [by apply list_elem_of_In | done].
Qed.

(** Why a client group has its verdict: its Go default, or every library its
    processes map under the host's TLS configuration. *)
Definition client_grounds (report probes : value) (groups : list value) (c : client) : Prop :=
  exists i grp go libs,
    groups !! i = Some grp /\ c_group c = group_path i /\ c_processes c <> 0 /\
    get "go" grp = Ok go /\ get_l "crypto_libraries" grp = Ok libs /\
    let v := c_verdict c in
    v_state v = classify (v_capable v) (v_configured v) /\
    if truthy go then go_tls_capability go = Ok (v_capable v, v_configured v) /\ c_follows c = false
    else exists vs conf,
      mapM (fun lib => d ← py_dict lib; fst <$> library_capable d probes) libs = Ok vs /\
      tls_configured report = Ok conf /\ v_configured v = conf.1 /\
      (v_capable v = Some true <-> vs <> [] /\ Forall (fun b => b = Some true) vs) /\
      (v_capable v = Some false <-> Some false ∈ vs).

Lemma client_step_grounds report probes ps groups acc i grp acc' :
  groups !! i = Some grp -> Forall (client_grounds report probes groups) acc ->
  client_step report probes ps acc (i, grp) = Ok acc' -> Forall (client_grounds report probes groups) acc'.
Proof.
  unfold client_step. intros Hi Hacc H. bind_inv H. bind H as n Hn.
  destruct (n =? 0) eqn:En; [by injection H as <-|].
  bind H as libs Hl. bind H as go Hg. bind_inv H. bind H as vd Hv. destruct vd as [v own].
  do 5 bind_inv H. injection H as <-. apply Forall_app. split; [done|]. constructor; [|done].
  exists i, grp, go, libs. cbn [c_group c_processes c_verdict c_follows]. split_and!; [done|done|lia|done|done| |].
  - unfold client_verdict in Hv. destruct (truthy go); bind_inv Hv; [by injection Hv as <- <-|].
    bind_inv Hv. by injection Hv as <- <-.
  - unfold client_verdict in Hv. destruct (truthy go).
    + bind Hv as cc Hcc. injection Hv as <- <-. simpl. rewrite Hcc. by destruct cc.
    + bind Hv as vs Hvs. bind Hv as conf Hcf. injection Hv as <- <-. exists vs, conf.
      simpl. split_and!; [done|done|done|apply libs_capable_true|apply libs_capable_false].
Qed.

Lemma clients_fold_grounds report probes ps pre groups acc acc' :
  Forall (client_grounds report probes (pre ++ groups)) acc ->
  foldM (client_step report probes ps) acc (zip (seq (length pre) (length groups)) groups) = Ok acc' ->
  Forall (client_grounds report probes (pre ++ groups)) acc'.
Proof.
  revert pre acc; induction groups as [|grp groups IH]; intros pre acc Hacc; simpl.
  - by intros [= <-].
  - intros H. bind H as acc1 H1.
    replace (pre ++ grp :: groups) with ((pre ++ [grp]) ++ groups) in * by by rewrite <-app_assoc.
    apply (IH (pre ++ [grp]) acc1).
    + eapply client_step_grounds; [|exact Hacc|exact H1]. rewrite lookup_app_l by (rewrite length_app; simpl; lia).
      by rewrite lookup_app_r, Nat.sub_diag by lia.
    + rewrite length_app. simpl. by replace (length pre + 1)%nat with (S (length pre)) by lia.
Qed.

Lemma ctotal_processes items (acc : list (string * Z)) :
  ctotal (foldl (fun acc c => cadd (client_state c) (c_processes c) acc) acc items) =
  ctotal acc + foldr Z.add 0 (c_processes <$> items).
Proof. revert acc; induction items as [|c items IH]; intros acc; csimpl; [lia|]. rewrite IH, ctotal_cadd. lia. Qed.

(** A client group is called capable only when every library its
    processes map is known to be capable, and not capable as soon as one of
    them is known not to be; a Go binary is judged on its own default alone
    and never follows the host.  Idle groups are left out, the worst states
    and largest groups come first, and the process counts per state add up to
    the processes of the items. *)
Theorem clients_sound report ps c :
  compute_clients report ps = Ok (Some c) ->
  exists probes groups,
    Forall (client_grounds report probes groups) (cs_items c) /\
    StronglySorted (not_gt ckey_lt) (cs_items c) /\
    ctotal (cs_processes c) = foldr Z.add 0 (c_processes <$> cs_items c) /\
    ctotal (cs_by_state c) = Z.of_nat (length (cs_items c)).
Proof.
  unfold compute_clients. intros H. bind_inv H. bind_inv H. destruct (truthy x0); simpl in H; [|done].
  bind_inv H. bind H as probes Hp. bind H as groups Hg. bind H as items Hi. bind_inv H. injection H as <-.
  exists probes, groups. cbn [cs_items cs_processes cs_by_state]. split_and!.
  - apply (clients_fold_grounds _ _ _ [] groups []) in Hi; [|constructor].
    simpl in Hi. rewrite Forall_forall in *. intros cl Hcl. apply Hi. by apply elem_of_py_sorted in Hcl.
  - apply py_sorted_sorted, _.
  - unfold sorted_counter. rewrite (ctotal_perm _ _ (py_sorted_perm _ _)), ctotal_processes. simpl.
    apply Z.add_0_l.
  - unfold sorted_counter. rewrite (ctotal_perm _ _ (py_sorted_perm _ _)), ctotal_count_keys, length_fmap. done.
Qed.

Definition sample_clients : value := VDict [
  ("crypto_policy", VDict [("pqc_enabled", VDict [("tls_key_exchange", VBool true)])]);
  ("process_crypto_linkage", VDict [("available", VBool true); ("groups", VList [
     VDict [("exe", VStr "/usr/bin/curl"); ("roles", VDict [("client", VInt 2)]);
            ("crypto_libraries", VList [VDict [("family", VStr "openssl"); ("library_pqc_capable", VBool true)];
                                        VDict [("family", VStr "openssl"); ("path", VStr "/opt/x/lib/libssl.so.1.1")]])];
     VDict [("exe", VStr "/usr/bin/idle")];
     VDict [("exe", VStr "/usr/bin/app"); ("roles", VDict [("client", VInt 5)]);
            ("go", VDict [("go_version", VStr "go1.24.1"); ("godebug_reverts", VStrs ["tlsmlkem"])])]])])].

Lemma clients_sound_witness :
  exists ps c, compute_clients sample_clients ps = Ok (Some c) /\
    (fun x => (c_exe x, client_state x)) <$> cs_items c =
      [(VStr "/usr/bin/app", "capable_not_configured"); (VStr "/usr/bin/curl", "configured_not_capable")] /\
    ctotal (cs_processes c) = 7.
Proof.
  set (v := mk_verdict None None [] [] None true).
  exists (Protocols v v v).
  destruct (compute_clients sample_clients (Protocols v v v)) as [[c|]|] eqn:E;
    [|vm_compute in E; discriminate..].
  exists c. split; [reflexivity|]. destruct (clients_sound _ _ _ E) as (_ & _ & _ & _ & Ht & _).
  rewrite Ht. vm_compute in E. injection E as <-. split; reflexivity.
Defined.
