(* ===== verification/SvcEndpoint.v ===== *)
(** * TLS endpoints of a service ([detect/config_services_parsers.py], lines 1-222)

    The record every service parser produces and the judgement it carries:
    whether the service's own settings decide on PQC key exchange.  The
    reader and the directory lister the callers pass are [Context]s of the
    loaders; [fetch] is the opening of a file that every [load] starts with. *)

From S2P Require Import Prelude PyStr PyDict PyVal PyRe PyPath Policy.
Open Scope Z_scope.

Definition MAX_INCLUDE_DEPTH : nat := 8.

(** Quotation marks, which the parsers strip off values. *)
Definition is_quote (c : ascii) : bool := Ascii.eqb c "'" || Ascii.eqb c "034".
Definition unquoted (s : string) : string := strip_by is_quote (strip s).

(** The ranks in tenths; the code compares them with 1.3 only. *)
Definition PROTO_RANK : list (string * Z) := [
  ("sslv2", 2); ("sslv3", 3);
  ("tlsv1", 10); ("tlsv1.0", 10); ("tls1", 10); ("tls1.0", 10); ("1.0", 10);
  ("tlsv1.1", 11); ("tls1.1", 11); ("1.1", 11);
  ("tlsv1.2", 12); ("tls1.2", 12); ("1.2", 12);
  ("tlsv1.3", 13); ("tls1.3", 13); ("1.3", 13)].
Definition TLS13 : Z := 13.

Definition underscore_dot (c : ascii) : ascii := if Ascii.eqb c "_" then "." else c.

Definition proto_rank (name : option string) : option Z :=
  match name with
  | None => None
  | Some n => if negb (non_empty n) then None
              else dget (str_map underscore_dot (lower (unquoted n))) PROTO_RANK
  end.

(** [allowed], [minimum], [maximum]: [None] where the service sets none. *)
Definition tls13_allowed (allowed : option (list string)) (minimum maximum : option string) : option bool :=
  if (match proto_rank maximum with Some r => r <? TLS13 | None => false end) then Some false
  else if (match proto_rank minimum with Some r => TLS13 <? r | None => false end) then Some false
  else match allowed with
       | Some names =>
           match omap (fun a => proto_rank (Some a)) names with
           | [] => None
           | ranks => Some (bool_decide (TLS13 ∈ ranks))
           end
       | None => None
       end.

(** [None] for the library default, otherwise a non-empty list. *)
Definition some_list (l : list string) : option (list string) := if l is [] then None else Some l.

Definition group_sep (c : ascii) : bool := char_in ":,/" c || is_space c.
Definition clean_group (tok : string) : option string :=
  let tok := strip tok in
  if non_empty tok && negb (starts_with "-" tok) then Some (lstrip_by (char_in "*?") tok) else None.

Definition split_groups (value : option string) : option (list string) :=
  match value with
  | None => None
  | Some value =>
      let v := unquoted value in
      if negb (non_empty v) || String.eqb (lower v) "auto" then None
      else some_list (omap clean_group (re_split_class group_sep v))
  end.

Definition classify_groups (groups : list string) : pqc_split := classify_pqc groups PQC_KEM_TOKEN_RE.

(** The keyword arguments of [make_endpoint]. *)
Record ep_args := EpArgs {
  a_file : string; a_line : option Z; a_ports : list Z; a_context : option string;
  a_groups : option (list string); a_groups_setting : option string;
  a_service_default_groups : option (list string); a_service_supports_pqc_groups : option bool;
  a_protocols : option (list string); a_min_protocol : option string; a_max_protocol : option string;
  a_ciphers : option string; a_ciphersuites : option string; a_certificates : list string;
  a_role : string; a_note : option string }.

Record endpoint := Endpoint {
  e_file : string; e_line : option Z; e_context : option string; e_role : string; e_ports : list Z;
  e_groups : option (list string); e_groups_setting : option string; e_groups_source : string;
  e_pqc_groups : option pqc_split; e_protocols : option (list string);
  e_min_protocol : option string; e_max_protocol : option string; e_tls13_allowed : option bool;
  e_ciphers : option string; e_ciphersuites : option string; e_certificates : list string;
  e_service_supports_pqc_groups : option bool; e_pqc_key_exchange : option bool; e_reason : string;
  e_note : option string }.

Definition has_pqc (s : pqc_split) : bool := if s is PqcSplit [] [] then false else true.

(** The groups that are in force and where they come from. *)
Definition effective_groups (a : ep_args) : option (list string) * string :=
  match a_groups a, a_service_default_groups a with
  | Some g, _ => (Some g, "config")
  | None, Some g => (Some g, "service default")
  | None, None => (None, "library default")
  end.

(** [a or b] on optional strings. *)
Definition sor (a b : option string) : option string :=
  match a with Some s => if non_empty s then a else b | None => b end.

Definition judge (t13 supports : option bool) (pqc_groups : option pqc_split) (setting : option string) (source : string) :
    option bool * string :=
  if bool_decide (t13 = Some false)
  then (Some false, "TLS 1.3 is disabled; hybrid ML-KEM groups need TLS 1.3")
  else if bool_decide (supports = Some false)
  then (Some false, "the service can only use a single elliptic curve, never ML-KEM")
  else match pqc_groups with
       | Some g =>
           let where_ := default "groups" (sor setting None) in
           (Some (has_pqc g), where_ +:+ " (" +:+ source +:+
              (if has_pqc g then ") includes an ML-KEM group" else ") has no ML-KEM group"))
       | None => (None, "no group setting: follows the TLS library default (crypto policy / openssl.cnf)")
       end.

(** [sorted(set(ports))]. *)
Definition sorted_ports (l : list Z) : list Z := py_sorted Z.ltb (remove_dups l).

Definition make_endpoint (a : ep_args) : endpoint :=
  let '(effective, source) := effective_groups a in
  let t13 := tls13_allowed (a_protocols a) (a_min_protocol a) (a_max_protocol a) in
  let pqc_groups := classify_groups <$> effective in
  let '(pqc, reason) := judge t13 (a_service_supports_pqc_groups a) pqc_groups (a_groups_setting a) source in
  Endpoint (a_file a) (a_line a) (a_context a) (a_role a) (sorted_ports (a_ports a))
    effective (a_groups_setting a) source pqc_groups (a_protocols a) (a_min_protocol a) (a_max_protocol a) t13
    (a_ciphers a) (a_ciphersuites a) (a_certificates a) (a_service_supports_pqc_groups a) pqc reason
    (sor (a_note a) None).

Definition of_oZ (o : option Z) : value := if o is Some n then VInt n else VNone.
Definition of_ostrs (o : option (list string)) : value := if o is Some l then VStrs l else VNone.
Definition of_split (o : option pqc_split) : value :=
  if o is Some s then VDict [("hybrid", VStrs (ps_hybrid s)); ("pure_pqc", VStrs (ps_pure s))] else VNone.

(** The dict of the report. *)
Definition endpoint_value (e : endpoint) : value :=
  VDict ([("file", VStr (e_file e)); ("line", of_oZ (e_line e)); ("context", of_ostr (e_context e));
          ("role", VStr (e_role e)); ("ports", VList (VInt <$> e_ports e));
          ("groups", of_ostrs (e_groups e)); ("groups_setting", of_ostr (e_groups_setting e));
          ("groups_source", VStr (e_groups_source e)); ("pqc_groups", of_split (e_pqc_groups e));
          ("protocols", of_ostrs (e_protocols e)); ("min_protocol", of_ostr (e_min_protocol e));
          ("max_protocol", of_ostr (e_max_protocol e)); ("tls13_allowed", of_obool (e_tls13_allowed e));
          ("ciphers", of_ostr (e_ciphers e)); ("ciphersuites", of_ostr (e_ciphersuites e));
          ("certificates", VStrs (e_certificates e));
          ("service_supports_pqc_groups", of_obool (e_service_supports_pqc_groups e));
          ("follows_library_default", VBool (bool_decide (e_pqc_key_exchange e = None)));
          ("pqc_key_exchange", of_obool (e_pqc_key_exchange e)); ("reason", VStr (e_reason e))] ++
         (if e_note e is Some n then [("note", VStr n)] else [])).

(** ** Paths and ports *)

Definition resolve (base pattern : string) : string :=
  let pattern := unquoted pattern in
  if starts_with "/" pattern then pattern else path_join base pattern.

Definition is_glob (pattern : string) : bool := existsb (char_in "*?[") (chars pattern).

Definition PORT_RE : re := RSeqs [RAlt Bos (RLit ":"); RGrp 1 (RRep 1 5 Digit); Eos].

Definition port_of (addr : string) : option Z :=
  let a := strip addr in
  if starts_with "unix:" a || starts_with "/" a then None
  else match re_search PORT_RE a with
       | Some m => let p := digits_val (chars (group_or 1 m)) in
                   if (0 <? p) && (p <? 65536) then Some p else None
       | None => None
       end.

(** [[x] if x else []] for an optional value. *)
Definition option_list {A} (o : option A) : list A := if o is Some x then [x] else [].

(** [[p] if p else []]: a port of 0 counts as none. *)
Definition port_list (p : option Z) : list Z :=
  match p with Some p => if p =? 0 then [] else [p] | None => [] end.

(** ** Splitting lines *)

(** The longest prefix of characters satisfying [p], and the rest. *)
Fixpoint span (p : ascii -> bool) (l : list ascii) : list ascii * list ascii :=
  match l with
  | c :: l' => if p c then let '(w, k) := span p l' in (c :: w, k) else ([], l)
  | [] => ([], [])
  end.

(** [parts = s.split(None, 1)] of a text that is not blank: the first word,
    and what follows the white space after it. *)
Definition first_word (s : string) : string * option string :=
  let '(w, k) := span (fun c => negb (is_space c)) (drop_while is_space (chars s)) in
  (str_of w, match drop_while is_space k with [] => None | k => Some (str_of k) end).

(** [s.split(c, 1)] where [c] is in [s], and [None] elsewhere. *)
Definition split_at (c : ascii) (s : string) : option (string * string) :=
  match span (fun d => negb (Ascii.eqb d c)) (chars s) with
  | (w, _ :: k) => Some (str_of w, str_of k)
  | (_, []) => None
  end.

(** The [key = value] pairs of a line, stripped. *)
Definition key_value (line : string) : option (string * string) :=
  (fun kv => (strip kv.1, strip kv.2)) <$> split_at "=" line.

(** The line before a [#] comment, stripped. *)
Definition uncomment (raw : string) : string := strip (before "#" raw).

(** ** What the loaders keep *)

(** Line numbers from 1. *)
Definition numbered {A} (l : list A) : list (Z * A) := imap (fun i x => (Z.of_nat i + 1, x)) l.

Record report := Report { r_files : list string; r_unreadable : list (string * string); r_endpoints : list endpoint }.

(** The state of a loader: the files read, those that could not be, and what
    the parser collects. *)
Record loaded (D : Type) := Loaded { l_files : list string; l_unreadable : list (string * string); l_data : D }.
Arguments Loaded {D} _ _ _.
Arguments l_files {D} _.
Arguments l_unreadable {D} _.
Arguments l_data {D} _.

Definition with_data {D} (st : loaded D) (d : D) : loaded D := Loaded (l_files st) (l_unreadable st) d.
Definition MISSING : string := "missing or not readable".

Section Reader.
Context (reader : string -> option string) (lister : string -> list string).

Definition expand_glob (pattern : string) : list string :=
  if is_glob pattern then py_sorted str_lt (lister pattern) else [pattern].

(** The head of every [load]: read the file, or note that it cannot be read
    unless it is optional. *)
Definition fetch {D} (path : string) (optional : bool) (st : loaded D) (body : string -> loaded D -> loaded D) : loaded D :=
  match reader path with
  | None => if optional then st
            else Loaded (l_files st) (l_unreadable st ++ [(path, MISSING)]) (l_data st)
  | Some text => body text (Loaded (l_files st ++ [path]) (l_unreadable st) (l_data st))
  end.
End Reader.
