(* ===== verification/SvcNginx.v ===== *)
(** * nginx ([parse_nginx])

    The tokenizer, the statement parser, [include] expansion, inheritance of
    the [ssl_*] directives and the endpoints of the [server] blocks.  A
    nesting deeper than Python's recursion limit is not modelled. *)

From S2P Require Import Prelude PyStr PyDict PyVal PyRe PyPath Policy SvcEndpoint.
Open Scope Z_scope.

(** ** Tokens *)

(** [{], [}] and [;]. *)
Definition is_punct (c : ascii) : bool := char_in "{};" c.
Definition is_newline (c : ascii) : bool := Ascii.eqb c "010".
Definition is_bare (c : ascii) : bool := negb (is_space c || is_punct c || Ascii.eqb c "#").

(** The rest of a quoted string: its text, the line it ends on, what follows. *)
Fixpoint quoted (q : ascii) (l : list ascii) (line : Z) : list ascii * Z * list ascii :=
  match l with
  | [] => ([], line, [])
  | c :: l' =>
      if Ascii.eqb c q then ([], line, l')
      else
        match l' with
        | d :: l'' =>
            if Ascii.eqb c "\"
            then let '(w, n, k) := quoted q l'' (if is_newline d then line + 1 else line) in (d :: w, n, k)
            else let '(w, n, k) := quoted q l' (if is_newline c then line + 1 else line) in (c :: w, n, k)
        | [] => ([c], if is_newline c then line + 1 else line, [])
        end
  end.

Abbreviation token := (string * Z)%type.

(** The loop of [_nginx_tokens]; every round takes at least one character,
    so the length of the text is enough [fuel]. *)
Fixpoint lex (fuel : nat) (l : list ascii) (line : Z) : list token :=
  match fuel, l with
  | S fuel, c :: l' =>
      if is_newline c then lex fuel l' (line + 1)
      else if is_space c then lex fuel l' line
      else if Ascii.eqb c "#" then lex fuel (span (fun d => negb (is_newline d)) l').2 line
      else if is_punct c then (str_of [c], line) :: lex fuel l' line
      else if is_quote c
      then let '(w, n, k) := quoted c l' line in (str_of w, n) :: lex fuel k n
      else let '(w, k) := span is_bare l in (str_of w, line) :: lex fuel k line
  | _, _ => []
  end.
Definition nginx_tokens (text : string) : list token := lex (String.length text) (chars text) 1.

(** ** Statements *)

Inductive stmt : Type :=
| Stmt (s_file s_name : string) (s_args : list string) (s_line : Z) (s_block : option (list stmt)).

Definition s_file (s : stmt) : string := let '(Stmt f _ _ _ _) := s in f.
Definition s_name (s : stmt) : string := let '(Stmt _ n _ _ _) := s in n.
Definition s_args (s : stmt) : list string := let '(Stmt _ _ a _ _) := s in a.
Definition s_line (s : stmt) : Z := let '(Stmt _ _ _ l _) := s in l.
Definition s_block (s : stmt) : option (list stmt) := let '(Stmt _ _ _ _ b) := s in b.

(** The statement of the tokens collected so far, if there are any. *)
Definition end_stmt (cur : list token) (block : option (list stmt)) : list stmt :=
  match cur with
  | [] => []
  | (name, line) :: args => [Stmt EmptyString name args.*1 line block]
  end.

(** [_nginx_statements] on the remaining tokens; [cur] are the tokens of the
    statement being read.  Every call takes a token. *)
Fixpoint statements (fuel : nat) (toks : list token) (cur : list token) : list stmt * list token :=
  match fuel, toks with
  | S fuel, (tok, line) :: rest =>
      if String.eqb tok ";" then
        let '(out, k) := statements fuel rest [] in (end_stmt cur None ++ out, k)
      else if String.eqb tok "{" then
        let '(block, rest) := statements fuel rest [] in
        let '(out, k) := statements fuel rest [] in (end_stmt cur (Some block) ++ out, k)
      else if String.eqb tok "}" then ([], rest)
      else statements fuel rest (cur ++ [(tok, line)])
  | _, _ => ([], [])
  end.
Definition nginx_statements (toks : list token) : list stmt := (statements (length toks) toks []).1.

(** ** Includes *)

Section Reader.
Context (reader : string -> option string) (lister : string -> list string).

(** The result of loading and the files seen on the way. *)
Definition loading := loaded (list stmt).

Definition emit (l : list stmt) (st : loading) : loading := with_data st (l_data st ++ l).

(** [expand] on one statement: [include] is followed where [load] is given
    (the depth allows it), other statements are kept with their file. *)
Fixpoint expand_stmt (load : option (string -> loading -> loading)) (path prefix : string) (s : stmt) (st : loading) : loading :=
  let '(Stmt _ name args line block) := s in
  match load, (if String.eqb name "include" then head args else None) with
  | Some load, Some pattern =>
      foldl (fun st p => load p st) st (expand_glob lister (resolve prefix pattern))
  | _, _ =>
      match block with
      | Some b =>
          let inner := (fix go (b : list stmt) (st : loading) : loading :=
                          match b with [] => st | s :: b => go b (expand_stmt load path prefix s st) end)
                         b (with_data st []) in
          Loaded (l_files inner) (l_unreadable inner)
            (l_data st ++ [Stmt path name args line (Some (l_data inner))])
      | None => emit [Stmt path name args line None] st
      end
  end.
Definition expand (load : option (string -> loading -> loading)) (path prefix : string) (stmts : list stmt) (st : loading) : loading :=
  foldl (fun st s => expand_stmt load path prefix s st) st stmts.

(** [load]: [room] more levels of includes may be opened. *)
Fixpoint nginx_load (room : nat) (prefix path : string) (st : loading) : loading :=
  fetch reader path false st (fun text st =>
    expand (match room with O => None | S room => Some (nginx_load room prefix) end)
      path prefix (nginx_statements (nginx_tokens text)) st).

(** ** Inheritance *)

(** [st.get("ssl_conf_command")]: a dict, or the tuple that a directive with
    fewer than two arguments leaves in its place. *)
Inductive conf_cmds : Type :=
| Cmds (d : list (string * string))
| BadCmds (args : list string).

Record ng_settings := NgSettings {
  ng_protocols : option (list string); ng_ciphers : option (list string); ng_curve : option (list string);
  ng_certs : option (list string); ng_cmds : option conf_cmds; ng_ssl : option (list string) }.
Definition no_settings : ng_settings := NgSettings None None None None None None.

(** One inherited directive.  [dict(tuple)] of a malformed command raises. *)
Definition ng_setting (st : ng_settings) (s : stmt) : res ng_settings :=
  let '(NgSettings pr ci cu ce cm ss) := st in
  let args := s_args s in
  if String.eqb (s_name s) "ssl_certificate"
  then Ok (NgSettings pr ci cu (Some (default [] ce ++ take 1 args)) cm ss)
  else if String.eqb (s_name s) "ssl_conf_command" then
    match args with
    | key :: val :: _ =>
        match default (Cmds []) cm with
        | Cmds d => Ok (NgSettings pr ci cu ce (Some (Cmds (dset (lower key) val d))) ss)
        | BadCmds _ => Raise (ValueError "dictionary update sequence element #0 has the wrong length; 2 is required")
        end
    | _ => Ok (NgSettings pr ci cu ce (Some (BadCmds args)) ss)
    end
  else if String.eqb (s_name s) "ssl_protocols" then Ok (NgSettings (Some args) ci cu ce cm ss)
  else if String.eqb (s_name s) "ssl_ciphers" then Ok (NgSettings pr (Some args) cu ce cm ss)
  else if String.eqb (s_name s) "ssl_ecdh_curve" then Ok (NgSettings pr ci (Some args) ce cm ss)
  else if String.eqb (s_name s) "ssl" then Ok (NgSettings pr ci cu ce cm (Some args))
  else Ok st.
Definition settings_of (stmts : list stmt) (inherited : ng_settings) : res ng_settings :=
  foldM ng_setting inherited stmts.

(** ** Servers *)

Definition ADDR_RE : re := RPlus (RChr (fun c => is_word c || char_in ".-*[]:" c)).
Definition TAIL_DIGITS_RE : re := RSeqs [RPlus Digit; Eos].

Definition legacy_on (st : ng_settings) : bool :=
  match ng_ssl st with Some args => bool_decide (take 1 args = ["on"]) | None => false end.

(** The port of one [listen], where it is a TLS one. *)
Definition listen_port (st : ng_settings) (ctx : string) (d : stmt) : option Z :=
  match s_args d with
  | addr :: params =>
      if String.eqb (s_name d) "listen" &&
         (bool_decide ("ssl" ∈ params) || bool_decide ("quic" ∈ params) || legacy_on st)
      then
        match port_of addr with
        | Some p => Some p
        | None =>
            if test_fullmatch ADDR_RE addr && negb (test_search TAIL_DIGITS_RE addr) && String.eqb ctx "http"
            then Some 443 else None
        end
      else None
  | [] => None
  end.

(** [cmds.get(k)] and [k in cmds] on the dict or the malformed tuple. *)
Definition cmd_groups (cm : option conf_cmds) (curve : option (list string)) : option string * option string :=
  let base := match curve with
              | Some args => (head args, Some "ssl_ecdh_curve")
              | None => (None, None)
              end in
  match cm with
  | Some (Cmds d) =>
      match dget "curves" d, dget "groups" d with
      | Some v, _ => (Some v, Some "ssl_conf_command Curves")
      | None, Some v => (Some v, Some "ssl_conf_command Groups")
      | None, None => base
      end
  | _ => base
  end.

Definition cmd_ciphersuites (cm : option conf_cmds) : res (option string) :=
  match cm with
  | Some (Cmds d) => Ok (dget "ciphersuites" d)
  | Some (BadCmds _) => Raise AttributeError
  | None => Ok None
  end.

Definition server (s : stmt) (block : list stmt) (st : ng_settings) (ctx : string) : res (list endpoint) :=
  let ports := omap (listen_port st ctx) block in
  if bool_decide (ports = []) then Ok []
  else
    let '(groups_val, setting) := cmd_groups (ng_cmds st) (ng_curve st) in
    suites ← cmd_ciphersuites (ng_cmds st);
    let groups := split_groups groups_val in
    Ok [make_endpoint (EpArgs (s_file s) (Some (s_line s)) ports (Some (ctx +:+ " server"))
          groups (match groups with Some _ => setting | None => None end) None None
          (ng_protocols st) None None (str_join " " <$> ng_ciphers st) suites
          (default [] (ng_certs st)) "server" None)].

Definition CONTEXTS : list string := ["http"; "stream"; "mail"].

(** [walk]; [fuel] bounds the nesting, which [walk_fuel] measures. *)
Fixpoint ng_walk (fuel : nat) (stmts : list stmt) (inherited : ng_settings) (ctx : string) : res (list endpoint) :=
  match fuel with
  | O => Ok []
  | S fuel =>
      st ← settings_of stmts inherited;
      eps ← mapM (fun s =>
        match s_block s with
        | None => Ok []
        | Some block =>
            if bool_decide (s_name s ∈ CONTEXTS) then ng_walk fuel block st (s_name s)
            else if String.eqb (s_name s) "server" && bool_decide (ctx ∈ CONTEXTS)
            then inner ← settings_of block st; server s block inner ctx
            else Ok []
        end) stmts;
      Ok (concat eps)
  end.
End Reader.

(** One more than the depth of the deepest block. *)
Fixpoint height (s : stmt) : nat :=
  match s_block s with
  | Some b => S (foldr (fun s n => max (height s) n) 0%nat b)
  | None => 0%nat
  end.
Definition walk_fuel (l : list stmt) : nat := S (foldr (fun s n => max (height s) n) 0%nat l).

Definition parse_nginx (reader : string -> option string) (lister : string -> list string) (main : string) : res report :=
  let st := nginx_load reader lister MAX_INCLUDE_DEPTH (dirname main) main (Loaded [] [] []) in
  eps ← ng_walk (walk_fuel (l_data st)) (l_data st) no_settings "main";
  Ok (Report (l_files st) (l_unreadable st) eps).
