(* ===== verification/SvcWeb.v ===== *)
(** * Apache httpd, HAProxy, stunnel and Squid

    [parse_apache], [parse_haproxy], [parse_stunnel] and [parse_squid].  The
    argument [room] of a loader is the number of include levels left, from
    [MAX_INCLUDE_DEPTH] down. *)

From S2P Require Import Prelude PyStr PyDict PyVal PyRe PyPath Policy SvcEndpoint.
Open Scope Z_scope.

(** ** Apache *)

Module Apache.

(** The line being joined from continuation lines and where it started. *)
Record lines_st := LinesSt { ls_out : list (Z * string); ls_buf : string; ls_start : Z }.

Definition lines_step (st : lines_st) (ir : Z * string) : lines_st :=
  let line := rstrip ir.2 in
  let start := if non_empty (ls_buf st) then ls_start st else ir.1 in
  if ends_with "\" line
  then LinesSt (ls_out st) (ls_buf st +:+ remove_suffix "\" line +:+ " ") start
  else
    let full := strip (ls_buf st +:+ line) in
    LinesSt (if non_empty full && negb (starts_with "#" full) then ls_out st ++ [(start, full)] else ls_out st)
      EmptyString start.
Definition apache_lines (text : string) : list (Z * string) :=
  ls_out (foldl lines_step (LinesSt [] EmptyString 0) (numbered (splitlines text))).

Definition EVERY : list string := ["TLSv1"; "TLSv1.1"; "TLSv1.2"; "TLSv1.3"].

Definition canon (name : string) : string :=
  default name (find (fun e => String.eqb (lower e) (lower name)) (EVERY ++ ["SSLv3"; "SSLv2"])).

Definition same_name (a b : string) : bool := String.eqb (lower a) (lower b).

Definition protocols_name (minus : bool) (allowed : list string) (name : string) : list string :=
  if minus then List.filter (fun a => negb (same_name a (canon name))) allowed
  else if bool_decide (canon name ∈ allowed) then allowed else allowed ++ [canon name].

Definition protocols_step (allowed : list string) (tok : string) : list string :=
  let '(minus, t) := match tok with
                     | String "-" t => (true, t)
                     | String "+" t => (false, t)
                     | _ => (false, tok)
                     end in
  foldl (protocols_name minus) allowed (if String.eqb (lower t) "all" then EVERY else [t]).
Definition apache_protocols (value : string) : list string := foldl protocols_step [] (words value).

(** *** Loading: the server root in force and the directives in order *)

Record flat := Flat { f_root : string; f_lines : list (string * Z * string) }.
Definition loading := loaded flat.

Definition set_root (root : string) (st : loading) : loading := with_data st (Flat root (f_lines (l_data st))).
Definition add_line (path : string) (il : Z * string) (st : loading) : loading :=
  with_data st (Flat (f_root (l_data st)) (f_lines (l_data st) ++ [(path, il.1, il.2)])).

Section Reader.
Context (reader : string -> option string) (lister : string -> list string).

(** One directive; [load] is given where the depth allows an include. *)
Definition apache_directive (load : option (string -> bool -> loading -> loading)) (path : string)
    (st : loading) (il : Z * string) : loading :=
  let '(w, rest) := first_word il.2 in
  let key := lower w in
  let arg := default EmptyString rest in
  let st := if String.eqb key "serverroot" then set_root (strip_by is_quote arg) st else st in
  match load with
  | Some load =>
      if bool_decide (key ∈ ["include"; "includeoptional"])
      then foldl (fun st p => load p (String.eqb key "includeoptional") st) st
             (expand_glob lister (resolve (f_root (l_data st)) arg))
      else add_line path il st
  | None => add_line path il st
  end.

Fixpoint apache_load (room : nat) (path : string) (optional : bool) (st : loading) : loading :=
  fetch reader path optional st (fun text st =>
    foldl (apache_directive (match room with O => None | S room => Some (apache_load room) end) path)
      st (apache_lines text)).
End Reader.

(** *** Sections *)

(** The keys of a section's dict. *)
Record settings := Settings {
  ap_engine : option string; ap_protocol : option string; ap_ciphers : option string; ap_cert : option string;
  ap_confcmd : list (string * string) }.
Definition no_settings : settings := Settings None None None None [].

Record vhost := Vhost { v_file : string; v_line : Z; v_addrs : list string; v_settings : settings }.

(** One SSL directive, outside of the section tags. *)
Definition set_directive (key arg : string) (s : settings) : settings :=
  let '(Settings en pr ci ce cmds) := s in
  let v := Some (strip_by is_quote arg) in
  if String.eqb key "sslopensslconfcmd" then
    match first_word arg with
    | (cmd, Some value) => Settings en pr ci ce (dset (lower cmd) (unquoted value) cmds)
    | _ => s
    end
  else if String.eqb key "sslengine" then Settings v pr ci ce cmds
  else if String.eqb key "sslprotocol" then Settings en v ci ce cmds
  else if String.eqb key "sslciphersuite" then Settings en pr v ce cmds
  else if String.eqb key "sslcertificatefile" then Settings en pr ci v cmds
  else s.

(** [{**globals_, **vhost}] *)
Definition merge (g v : settings) : settings :=
  let o (f : settings -> option string) := match f v with Some x => Some x | None => f g end in
  Settings (o ap_engine) (o ap_protocol) (o ap_ciphers) (o ap_cert) (dupdate (ap_confcmd g) (ap_confcmd v)).

Definition group_setting (cmds : list (string * string)) : option string * option string :=
  match dget "groups" cmds, dget "curves" cmds, dget "ecdhparameters" cmds with
  | Some v, _, _ => (Some v, Some "SSLOpenSSLConfCmd Groups")
  | None, Some v, _ => (Some v, Some "SSLOpenSSLConfCmd Curves")
  | None, None, Some v => (Some v, Some "SSLOpenSSLConfCmd ECDHParameters")
  | None, None, None => (None, None)
  end.

Definition vhost_endpoint (g : settings) (v : vhost) : option endpoint :=
  let st := merge g (v_settings v) in
  if negb (String.eqb (lower (default EmptyString (ap_engine st))) "on") then None
  else
    let ports := omap port_of (v_addrs v) in
    let '(gv, setting) := group_setting (ap_confcmd st) in
    let groups := split_groups gv in
    Some (make_endpoint (EpArgs (v_file v) (Some (v_line v))
      (if ports is [] then [443] else ports)
      (Some ("VirtualHost " +:+ str_join " " (v_addrs v)))
      groups (match groups with Some _ => setting | None => None end) None None
      (apache_protocols <$> sor (ap_protocol st) None)
      (dget "minprotocol" (ap_confcmd st)) (dget "maxprotocol" (ap_confcmd st))
      (ap_ciphers st) (dget "ciphersuites" (ap_confcmd st))
      (option_list (sor (ap_cert st) None)) "server" None)).

Record sections := Sections { g_globals : settings; g_vhost : option vhost; g_endpoints : list endpoint }.

Definition section_step (st : sections) (d : string * Z * string) : sections :=
  let '(path, line_no, line) := d in
  let '(Sections g vh eps) := st in
  let '(w, rest) := first_word line in
  let key := lower w in
  let arg := strip (default EmptyString rest) in
  if String.eqb key "<virtualhost"
  then Sections g (Some (Vhost path line_no (words (rstrip_by (char_in ">") arg)) no_settings)) eps
  else if String.eqb key "</virtualhost>"
  then Sections g None (eps ++ option_list (vh ≫= vhost_endpoint g))
  else match vh with
       | Some v => Sections g (Some (Vhost (v_file v) (v_line v) (v_addrs v) (set_directive key arg (v_settings v)))) eps
       | None => Sections (set_directive key arg g) None eps
       end.

Definition parse_apache (reader : string -> option string) (lister : string -> list string) (main server_root : string) : report :=
  let st := apache_load reader lister MAX_INCLUDE_DEPTH main false (Loaded [] [] (Flat server_root [])) in
  let sec := foldl section_step (Sections no_settings None []) (f_lines (l_data st)) in
  Report (l_files st) (l_unreadable st) (g_endpoints sec).
End Apache.

(** ** HAProxy *)

Module Haproxy.

Definition SECTIONS : list string := [
  "global"; "defaults"; "frontend"; "backend"; "listen"; "peers"; "resolvers"; "userlist"; "program"; "cache"; "ring";
  "http-errors"; "mailers"].

Record bind := Bind { b_path : string; b_line : Z; b_section : string; b_words : list string }.
Record state := State { h_section : string; h_glob : list (string * string); h_binds : list bind }.

Definition haproxy_line (path : string) (st : state) (ir : Z * string) : state :=
  match words (uncomment ir.2) with
  | [] => st
  | w :: args =>
      let kw := lower w in
      let '(State section glob binds) := st in
      if bool_decide (kw ∈ SECTIONS)
      then State (strip (kw +:+ " " +:+ str_join " " (take 1 args))) glob binds
      else if String.eqb section "global" && starts_with "ssl-default-bind-" kw
      then State section (dset kw (str_join " " args) glob) binds
      else if String.eqb kw "bind" && (starts_with "frontend" section || starts_with "listen" section)
      then State section glob (binds ++ [Bind path ir.1 section args])
      else st
  end.

Definition VALUED : list string := ["curves"; "ecdhe"; "ssl-min-ver"; "ssl-max-ver"; "ciphers"; "ciphersuites"; "crt"].

(** The options of a bind line: the first value of a keyword counts, the last
    one of [crt]; anything else is a flag. *)
Fixpoint bind_options (l : list string) (opts : list (string * string)) (flags : list string) :
    list (string * string) * list string :=
  match l with
  | w :: ((v :: rest) as tail) =>
      if bool_decide (w ∈ VALUED)
      then bind_options rest (if String.eqb w "crt" then dset w v opts else dsetdefault w v opts) flags
      else bind_options tail opts (flags ++ [w])
  | [w] => (opts, flags ++ [w])
  | [] => (opts, flags)
  end.

(** The version a default option sets, unless one is set already. *)
Fixpoint default_version (key : string) (gopts : list string) (v : option string) : option string :=
  match gopts with
  | w :: ((x :: _) as tail) =>
      default_version key tail (if String.eqb w key then sor v (Some x) else v)
  | _ => v
  end.

Definition has (x : string) (l : list string) : bool := bool_decide (x ∈ l).

Definition bind_endpoint (glob : list (string * string)) (b : bind) : option endpoint :=
  let gopts := words (default EmptyString (dget "ssl-default-bind-options" glob)) in
  if negb (has "ssl" (b_words b)) then None
  else
    let ports := omap port_of (split "," (default EmptyString (head (b_words b)))) in
    let '(opts, flags) := bind_options (tail (b_words b)) [] [] in
    let min_v := default_version "ssl-min-ver" gopts (dget "ssl-min-ver" opts) in
    let max_v := default_version "ssl-max-ver" gopts (dget "ssl-max-ver" opts) in
    let max_v := if has "no-tlsv13" flags || has "no-tlsv13" gopts || has "force-tlsv12" flags
                 then Some "TLSv1.2" else max_v in
    let curves := sor (dget "curves" opts) None in
    let ecdhe := sor (dget "ecdhe" opts) None in
    let dflt := dget "ssl-default-bind-curves" glob in
    let gv := sor curves (sor ecdhe dflt) in
    let setting := if curves is Some _ then Some "bind curves"
                   else if ecdhe is Some _ then Some "bind ecdhe"
                   else if sor dflt None is Some _ then Some "ssl-default-bind-curves" else None in
    Some (make_endpoint (EpArgs (b_path b) (Some (b_line b)) ports (Some (b_section b))
      (split_groups gv) setting None None None min_v max_v
      (sor (dget "ciphers" opts) (dget "ssl-default-bind-ciphers" glob))
      (sor (dget "ciphersuites" opts) (dget "ssl-default-bind-ciphersuites" glob))
      (option_list (sor (dget "crt" opts) None)) "server" None)).

Definition haproxy_file (reader : string -> option string) (st : loaded state) (path : string) : loaded state :=
  fetch reader path false st (fun text st =>
    with_data st (foldl (haproxy_line path) (State EmptyString (h_glob (l_data st)) (h_binds (l_data st)))
                    (numbered (splitlines text)))).

Definition parse_haproxy (reader : string -> option string) (paths : list string) : report :=
  let st := foldl (haproxy_file reader) (Loaded [] [] (State EmptyString [] [])) paths in
  Report (l_files st) (l_unreadable st) (omap (bind_endpoint (h_glob (l_data st))) (h_binds (l_data st))).
End Haproxy.

(** ** stunnel *)

Module Stunnel.

Record section := Section_ { s_path : string; s_line : Z; s_name : string; s_opts : list (string * string) }.
Definition loading := loaded (list section).

Definition add_section (sec : section) (st : loading) : loading := with_data st (l_data st ++ [sec]).

(** [cur[k] = v]: [cur] is the dict of the [cur]-th section, which stays in
    the list while included files append theirs. *)
Definition set_option (cur : nat) (k v : string) (st : loading) : loading :=
  with_data st (alter (fun s => Section_ (s_path s) (s_line s) (s_name s) (dset k v (s_opts s))) cur (l_data st)).

Definition SECTION_RE : re := RSeqs [Bos; RLit "["; RGrp 1 (RPlus (NotSet "]")); RLit "]"; Eos].

Section Reader.
Context (reader : string -> option string) (lister : string -> list string).

Definition stunnel_line (load : option (string -> loading -> loading)) (path : string)
    (acc : nat * loading) (ir : Z * string) : nat * loading :=
  let '(cur, st) := acc in
  let line := strip ir.2 in
  if negb (non_empty line) || starts_with "#" line || starts_with ";" line then acc
  else match re_match SECTION_RE line with
  | Some m => (length (l_data st), add_section (Section_ path ir.1 (strip (group_or 1 m)) []) st)
  | None =>
      match key_value line with
      | None => acc
      | Some (k, v) =>
          match load, String.eqb (lower k) "include" with
          | Some load, true => (cur, foldl (fun st p => load p st) st (py_sorted str_lt (lister (path_join v "*.conf"))))
          | _, _ => (cur, set_option cur (lower k) v st)
          end
      end
  end.

Fixpoint stunnel_load (room : nat) (path : string) (st : loading) : loading :=
  fetch reader path false st (fun text st =>
    (foldl (stunnel_line (match room with O => None | S room => Some (stunnel_load room) end) path)
      (length (l_data st), add_section (Section_ path 1 EmptyString []) st)
      (numbered (splitlines text))).2).
End Reader.

Definition section_endpoint (glob : list (string * string)) (default_curves : option (list string)) (s : section) : option endpoint :=
  let st := dupdate glob (s_opts s) in
  match dget "accept" (s_opts s) with
  | Some accept =>
      if negb (non_empty (s_name s)) then None
      else
        let client := bool_decide (lower (default "no" (dget "client" st)) ∈ ["yes"; "true"; "1"]) in
        let gv := sor (dget "curves" st) (dget "curve" st) in
        Some (make_endpoint (EpArgs (s_path s) (Some (s_line s)) (port_list (port_of accept))
          (Some ("[" +:+ s_name s +:+ "]"))
          (split_groups gv) (if sor gv None is Some _ then Some "curves" else None) default_curves None
          (match sor (dget "sslversion" st) None with
           | Some v => if String.eqb (lower v) "all" then None else Some [v]
           | None => None
           end)
          (dget "sslversionmin" st) (dget "sslversionmax" st) (dget "ciphers" st) (dget "ciphersuites" st)
          (option_list (sor (dget "cert" st) None)) (if client then "client" else "server") None))
  | None => None
  end.

Definition parse_stunnel (reader : string -> option string) (lister : string -> list string) (paths : list string)
    (default_curves : option (list string)) : report :=
  let st := foldl (fun st p => stunnel_load reader lister MAX_INCLUDE_DEPTH p st) (Loaded [] [] []) paths in
  let glob := foldl (fun g s => if non_empty (s_name s) then g else dupdate g (s_opts s)) [] (l_data st) in
  Report (l_files st) (l_unreadable st) (omap (section_endpoint glob default_curves) (l_data st)).
End Stunnel.

(** ** Squid *)

Module Squid.

Definition loading := loaded (list endpoint).

(** [opts.get(a) or opts.get(b)] *)
Definition either (a b : string) (opts : list (string * string)) : option string := sor (dget a opts) (dget b opts).

Definition port_endpoint (path : string) (line : Z) (kw addr : string) (params : list string) : option endpoint :=
  let opts := dupdate [] (omap (split_at "=") params) in
  let cert := sor (either "tls-cert" "cert" opts) None in
  if String.eqb kw "http_port" && bool_decide (cert = None) then None
  else
    let curve := match sor (either "tls-dh" "dhparams" opts) None with
                 | Some dh => if contains ":" dh && negb (starts_with "/" dh) then sor (Some (before ":" dh)) None else None
                 | None => None
                 end in
    let tls_opts := upper (default EmptyString (either "tls-options" "options" opts)) in
    Some (make_endpoint (EpArgs path (Some line) (port_list (port_of addr)) (Some kw)
      ((fun c => [c]) <$> curve) (if curve is Some _ then Some "tls-dh" else None) None None None
      (dget "tls-min-version" opts)
      (if contains "NO_TLSV1_3" tls_opts then Some "TLSv1.2" else None)
      (dget "cipher" opts) None (option_list cert) "server" None)).

Section Reader.
Context (reader : string -> option string) (lister : string -> list string).

Definition squid_line (load : option (string -> loading -> loading)) (main path : string) (st : loading) (ir : Z * string) : loading :=
  match words (uncomment ir.2) with
  | w :: arg :: params =>
      let kw := lower w in
      match load, String.eqb kw "include" with
      | Some load, true => foldl (fun st p => load p st) st (expand_glob lister (resolve (dirname main) arg))
      | _, _ =>
          if bool_decide (kw ∈ ["https_port"; "http_port"])
          then with_data st (l_data st ++ option_list (port_endpoint path ir.1 kw arg params))
          else st
      end
  | _ => st
  end.

Fixpoint squid_load (room : nat) (main path : string) (st : loading) : loading :=
  fetch reader path false st (fun text st =>
    foldl (squid_line (match room with O => None | S room => Some (squid_load room main) end) main path)
      st (numbered (splitlines text))).
End Reader.

Definition parse_squid (reader : string -> option string) (lister : string -> list string) (main : string) : report :=
  let st := squid_load reader lister MAX_INCLUDE_DEPTH main main (Loaded [] [] []) in
  Report (l_files st) (l_unreadable st) (l_data st).
End Squid.
