(* ===== verification/SvcMail.v ===== *)
(** * Postfix and Dovecot

    [parse_postfix] and [parse_dovecot] with the files they read. *)

From S2P Require Import Prelude PyStr PyDict PyVal PyRe PyPath Policy SvcEndpoint.
Open Scope Z_scope.

(** ** Postfix *)

Module Postfix.

Definition is_blank_or_comment (raw : string) : bool :=
  negb (non_empty (strip raw)) || starts_with "#" (lstrip raw).
Definition starts_space (raw : string) : bool := if chars raw is c :: _ then is_space c else false.

(** [main.cf]: the settings with the line they start on, and the key a
    continuation line belongs to. *)
Definition main_cf := list (string * (string * Z)).
Definition main_step (st : main_cf * option string) (ir : Z * string) : main_cf * option string :=
  let '(out, key) := st in
  let '(i, raw) := ir in
  if is_blank_or_comment raw then st
  else
    match (if starts_space raw then sor key None else None) with
    | Some k =>
        match dget k out with
        | Some (v, ln) => (dset k (strip (v +:+ " " +:+ strip raw), ln) out, key)
        | None => st
        end
    | None =>
        match split_at "=" raw with
        | Some (k, v) => (dset (strip k) (strip v, i) out, Some (strip k))
        | None => st
        end
    end.
Definition parse_postfix_main (text : string) : main_cf := (foldl main_step ([], None) (numbered (splitlines text))).1.

Definition POSTFIX_PORTS : list (string * Z) := [("smtp", 25); ("submission", 587); ("submissions", 465); ("smtps", 465)].

Record service := Service { sv_name : string; sv_line : option Z; sv_port : option Z; sv_overrides : list (string * string) }.

(** The logical lines of [master.cf]. *)
Definition entry_step (entries : list (Z * string)) (ir : Z * string) : list (Z * string) :=
  let '(i, raw) := ir in
  if is_blank_or_comment raw then entries
  else
    match starts_space raw, last entries with
    | true, Some (ln, prev) => removelast entries ++ [(ln, prev +:+ " " +:+ strip raw)]
    | _, _ => entries ++ [(i, strip raw)]
    end.

Definition Word_ : re := RChr is_word.
Definition Key : re := RPlus (RChr (fun c => is_word c || Ascii.eqb c ".")).
Definition Spaces : re := RStar true Space.
(** [-o { name = value }] or [-o name=value] *)
Definition OVERRIDE_RE : re :=
  RAlt (RSeqs [RLit "-o"; RPlus Space; RLit "{"; Spaces; RGrp 1 Key; Spaces; RLit "="; Spaces;
               RGrp 2 (RStar true (NotSet "}")); RLit "}"])
       (RSeqs [RLit "-o"; RPlus Space; RGrp 3 Key; RLit "="; RGrp 4 (RStar true NonSpace)]).

Definition override (m : mtch) : string * string :=
  let braced := sor (group 1 m) None in
  (default EmptyString (sor braced (group 3 m)),
   strip (default EmptyString (if braced is Some _ then group 2 m else group 4 m))).

Definition master_service (e : Z * string) : option service :=
  let '(ln, text) := e in
  match words text with
  | svc :: kind :: _ :: _ :: _ :: _ :: _ :: cmd :: args =>
      if String.eqb kind "inet" && String.eqb cmd "smtpd" then
        let port := match dget (after_last ":" svc) POSTFIX_PORTS with
                    | Some p => Some p
                    | None => port_of svc
                    end in
        Some (Service svc (Some ln) port (dupdate [] (override <$> re_finditer OVERRIDE_RE (str_join " " args))))
      else None
  | _ => None
  end.
Definition parse_postfix_master (text : string) : list service :=
  omap master_service (foldl entry_step [] (numbered (splitlines text))).

Definition POSTFIX_CLASSICAL_DEFAULT : list string := ["X25519"; "X448"; "prime256v1"; "secp384r1"; "secp521r1"].

(** *** [_postfix_protocols] *)

Record proto_limits := ProtoLimits { pl_min : option string; pl_max : option string; pl_excluded : list string }.
Definition proto_token (p : proto_limits) (tok : string) : proto_limits :=
  if starts_with ">=" tok then ProtoLimits (Some (remove_prefix ">=" tok)) (pl_max p) (pl_excluded p)
  else if starts_with "<=" tok then ProtoLimits (pl_min p) (Some (remove_prefix "<=" tok)) (pl_excluded p)
  else if starts_with "!" tok then ProtoLimits (pl_min p) (pl_max p) (lower (remove_prefix "!" tok) :: pl_excluded p)
  else p.

Definition VERSIONS : list string := ["TLSv1"; "TLSv1.1"; "TLSv1.2"; "TLSv1.3"].
Definition comma_space (c : ascii) : ascii := if Ascii.eqb c "," then " " else c.

Definition postfix_protocols (value : option string) : option string * option string * option (list string) :=
  match sor value None with
  | None => (None, None, None)
  | Some value =>
      let p := foldl proto_token (ProtoLimits None None []) (words (str_map comma_space value)) in
      (pl_min p, pl_max p,
       if pl_excluded p is [] then None
       else Some (List.filter (fun v => negb (bool_decide (lower v ∈ pl_excluded p))) VERSIONS))
  end.

(** *** The endpoint of a service *)

(** [get]: the override on the service, else the setting of [main.cf]. *)
Definition get (main : main_cf) (svc : service) (k : string) : option string :=
  match dget k (sv_overrides svc) with
  | Some v => Some v
  | None => fst <$> dget k main
  end.

(** [(get(k)[0] or "").lower()] *)
Definition get_lower (main : main_cf) (svc : service) (k : string) : string := lower (default EmptyString (get main svc k)).

Definition service_endpoint (main : main_cf) (main_path master_path : string) (default_curves : option (list string))
    (svc : service) : option endpoint :=
  let g := get main svc in
  let level := get_lower main svc "smtpd_tls_security_level" in
  let use := String.eqb (get_lower main svc "smtpd_use_tls") "yes" in
  let wrapper := String.eqb (get_lower main svc "smtpd_tls_wrappermode") "yes" in
  match sor (g "smtpd_tls_cert_file") (sor (g "smtpd_tls_chain_files") (sor (g "smtpd_tls_eccert_file") None)) with
  | None => None
  | Some cert =>
      if negb (bool_decide (level ∈ ["may"; "encrypt"]) || use || wrapper) then None
      else
        let '(groups, setting, follows) :=
          match g "tls_eecdh_auto_curves" with
          | None => (None, None, false)
          | Some curves => if non_empty (strip curves)
                           then (split_groups (Some curves), Some "tls_eecdh_auto_curves", false)
                           else (None, None, true)
          end in
        let '(min_v, max_v, allowed) :=
          postfix_protocols (g (if wrapper then "smtpd_tls_mandatory_protocols" else "smtpd_tls_protocols")) in
        Some (make_endpoint (EpArgs (if sv_line svc is Some _ then master_path else main_path) (sv_line svc)
          (port_list (sv_port svc)) (Some ("smtpd " +:+ sv_name svc)) groups setting
          (if (follows : bool) then None else default_curves) None allowed min_v max_v
          (g "smtpd_tls_ciphers") None [strip (before "," cert)] "server" None))
  end.

Definition parse_postfix (reader : string -> option string) (main_path master_path : string)
    (default_curves : option (list string)) : report :=
  match reader main_path with
  | None => Report [] [(main_path, "not readable")] []
  | Some mtext =>
      let main := parse_postfix_main mtext in
      let '(files, services) := match reader master_path with
                                | Some t => ([main_path; master_path], parse_postfix_master t)
                                | None => ([main_path], [Service "smtp" None (Some 25) []])
                                end in
      Report files [] (omap (service_endpoint main main_path master_path default_curves) services)
  end.
End Postfix.

(** ** Dovecot *)

Module Dovecot.

Definition DOVECOT_PORTS : list (string * list Z) :=
  [("imap", [143; 993]); ("pop3", [110; 995]); ("submission", [587; 465]); ("sieve", [4190])].

(** The top-level settings with the file and line that set them, and the
    ports of the [inet_listener] blocks. *)
Record state := State { d_settings : list (string * (string * string * Z)); d_ports : list Z }.
Definition loading := loaded state.

(** The open blocks of a file, innermost first, and the listener being read. *)
Record scope := Scope { sc_stack : list string; sc_listener : option (list (string * string)) }.

Definition INCLUDE_RE : re :=
  RSeqs [Bos; RLit "!include"; ROpt (RGrp 1 (RLit "_try")); RPlus Space; RGrp 2 (RPlus NonSpace)].

Definition add_port (l : list (string * string)) (st : loading) : loading :=
  match dget "port" l with
  | Some port => let p := digits_val (chars port) in
                 if isdigit port && (0 <? p)
                 then with_data st (State (d_settings (l_data st)) (d_ports (l_data st) ++ [p])) else st
  | None => st
  end.

Definition put (k : string) (v : string * string * Z) (st : loading) : loading :=
  with_data st (State (dset k v (d_settings (l_data st))) (d_ports (l_data st))).

Section Reader.
Context (reader : string -> option string) (lister : string -> list string).

Definition dovecot_line (load : option (string -> bool -> loading -> loading)) (path : string)
    (acc : scope * loading) (ir : Z * string) : scope * loading :=
  let '(sc, st) := acc in
  let line := uncomment ir.2 in
  if negb (non_empty line) then acc
  else match load, re_match INCLUDE_RE line with
  | Some load, Some m =>
      (sc, foldl (fun st p => load p (bool_decide (is_Some (group 1 m))) st) st
             (expand_glob lister (resolve (dirname path) (group_or 2 m))))
  | _, _ =>
      if ends_with "{" line then
        let head_ := strip (remove_suffix "{" line) in
        (Scope (head_ :: sc_stack sc) (if starts_with "inet_listener" head_ then Some [] else sc_listener sc), st)
      else if String.eqb line "}" then
        match sc_stack sc, sc_listener sc with
        | top :: rest, Some l =>
            if starts_with "inet_listener" top then (Scope rest None, add_port l st) else (Scope rest (Some l), st)
        | _ :: rest, None => (Scope rest None, st)
        | [], _ => acc
        end
      else match key_value line with
      | None => acc
      | Some (k, v) =>
          match sc_listener sc, sc_stack sc with
          | Some l, _ => (Scope (sc_stack sc) (Some (dset k v l)), st)
          | None, [] => (sc, put k (v, path, ir.1) st)
          | None, _ => acc
          end
      end
  end.

Fixpoint dovecot_load (room : nat) (path : string) (optional : bool) (st : loading) : loading :=
  fetch reader path optional st (fun text st =>
    (foldl (dovecot_line (match room with O => None | S room => Some (dovecot_load room) end) path)
      (Scope [] None, st) (numbered (splitlines text))).2).
End Reader.

Definition setting (settings : list (string * (string * string * Z))) (k : string) : option string :=
  (fun v => v.1.1) <$> dget k settings.

Definition dovecot_endpoint (st : state) : option endpoint :=
  let s := d_settings st in
  let ssl := lower (default "yes" (setting s "ssl")) in
  let cert := match dget "ssl_server_cert_file" s with Some c => Some c | None => dget "ssl_cert" s end in
  match cert with
  | Some (c, file, line) =>
      if String.eqb ssl "no" || negb (non_empty c) then None
      else
        let protocols := words (default "imap pop3 lmtp" (setting s "protocols")) in
        let ports := d_ports st ++ concat ((fun p => default [] (dget p DOVECOT_PORTS)) <$> protocols) in
        let groups := split_groups (setting s "ssl_curve_list") in
        Some (make_endpoint (EpArgs file (Some line) ports (Some "global") groups
          (match groups with Some _ => Some "ssl_curve_list" | None => None end) None None None
          (setting s "ssl_min_protocol") None (setting s "ssl_cipher_list") (setting s "ssl_cipher_suites")
          [lstrip_by (char_in "<") c] "server" None))
  | None => None
  end.

Definition parse_dovecot (reader : string -> option string) (lister : string -> list string) (main : string) : report :=
  let st := dovecot_load reader lister MAX_INCLUDE_DEPTH main false (Loaded [] [] (State [] [])) in
  Report (l_files st) (l_unreadable st) (option_list (dovecot_endpoint (l_data st))).
End Dovecot.
