(* ===== verification/SvcData.v ===== *)
(** * PostgreSQL, MySQL, Redis, OpenLDAP, 389 Directory Server and Tomcat

    [parse_postgresql], [parse_mysql], [parse_redis], [parse_openldap],
    [parse_dse_ldif] and [parse_tomcat].  [ET.fromstring] is a parameter:
    it gives an element tree or the message of its [ParseError]. *)

From S2P Require Import Prelude PyStr PyDict PyVal PyRe PyPath Policy SvcEndpoint.
Open Scope Z_scope.

(** What these parsers collect: a setting with the file and line that set it. *)
Abbreviation settings := (list (string * (string * string * Z))).
Definition loading := loaded settings.
Definition put (k : string) (v : string * string * Z) (st : loading) : loading := with_data st (dset k v (l_data st)).
Definition setting (s : settings) (k : string) : option string := (fun v => v.1.1) <$> dget k s.

(** [[int(s)] if s.isdigit() else dflt] *)
Definition port_or (dflt : list Z) (s : string) : list Z := if isdigit s then [digits_val (chars s)] else dflt.

Definition is_comment (line : string) : bool := negb (non_empty line) || starts_with "#" line.

(** ** PostgreSQL *)

Module Postgresql.

Definition CONF_RE : re :=
  RSeqs [Bos; RGrp 1 (RPlus (RChr (fun c => is_word c || Ascii.eqb c "."))); RStar true Space;
         RAlt (RSeq (RLit "=") (RStar true Space)) (RPlus Space); RGrp 2 (RStar true Dot); Eos].

Definition conf_value (val : string) : string :=
  match val with
  | String "'" rest => before "'" rest
  | _ => uncomment val
  end.

Definition pg_line (ir : Z * string) : option (string * string * Z) :=
  let line := strip ir.2 in
  if is_comment line then None
  else (fun m => (lower (group_or 1 m), conf_value (strip (group_or 2 m)), ir.1)) <$> re_match CONF_RE line.
Definition parse_pg_conf (text : string) : list (string * string * Z) := omap pg_line (numbered (splitlines text)).

Section Reader.
Context (reader : string -> option string) (lister : string -> list string).

Definition pg_setting (load : option (string -> bool -> loading -> loading)) (path : string)
    (st : loading) (kv : string * string * Z) : loading :=
  let '(k, v, ln) := kv in
  let target := resolve (dirname path) v in
  match load with
  | Some load =>
      if bool_decide (k ∈ ["include"; "include_if_exists"]) then load target (String.eqb k "include_if_exists") st
      else if String.eqb k "include_dir"
      then foldl (fun st p => load p false st) st (py_sorted str_lt (lister (path_join target "*.conf")))
      else put k (v, path, ln) st
  | None => put k (v, path, ln) st
  end.

Fixpoint pg_load (room : nat) (path : string) (optional : bool) (st : loading) : loading :=
  fetch reader path optional st (fun text st =>
    foldl (pg_setting (match room with O => None | S room => Some (pg_load room) end) path) st (parse_pg_conf text)).
End Reader.

Definition BEFORE_18 : string :=
  "PostgreSQL before 18 sets one elliptic curve for key exchange; ML-KEM needs PostgreSQL 18 and ssl_groups".

Definition pg_endpoint (s : settings) (major : option Z) : option endpoint :=
  match dget "ssl" s with
  | Some (ssl, file, line) =>
      if negb (bool_decide (lower ssl ∈ ["on"; "true"; "yes"; "1"])) then None
      else
        let gkey := if dmem "ssl_groups" s then "ssl_groups" else "ssl_ecdh_curve" in
        let gv := setting s gkey in
        let '(dflt, supports, setting_name) :=
          match major with
          | Some major => if major <? 18 then (Some ["prime256v1"], Some false, "ssl_ecdh_curve")
                          else (Some ["X25519"; "prime256v1"], None, if gv is Some _ then gkey else "ssl_groups")
          | None => (None, None, gkey)
          end in
        Some (make_endpoint (EpArgs file (Some line) (port_or [5432] (default "5432" (setting s "port"))) (Some "server")
          (split_groups gv) (Some setting_name) dflt supports None
          (sor (Some (default "TLSv1.2" (setting s "ssl_min_protocol_version"))) None)
          (sor (Some (default EmptyString (setting s "ssl_max_protocol_version"))) None)
          (setting s "ssl_ciphers") (setting s "ssl_tls13_ciphers")
          [default "server.crt" (setting s "ssl_cert_file")] "server"
          (if bool_decide (supports = Some false) then Some BEFORE_18 else None)))
  | None => None
  end.

(** The first file is required, the others are optional. *)
Definition parse_postgresql (reader : string -> option string) (lister : string -> list string) (confs : list string)
    (major : option Z) : report :=
  let st := foldl (fun st ic => pg_load reader lister MAX_INCLUDE_DEPTH ic.2 (1 <? ic.1) st)
              (Loaded [] [] []) (numbered confs) in
  Report (l_files st) (l_unreadable st) (option_list (pg_endpoint (l_data st) major)).
End Postgresql.

(** ** MySQL and MariaDB *)

Module Mysql.

Definition SERVER_SECTIONS : list string := ["mysqld"; "mariadb"; "mariadbd"; "server"].
Definition INCLUDE_RE : re :=
  RSeqs [Bos; RLit "!include"; ROpt (RGrp 1 (RLit "dir")); RPlus Space; RGrp 2 (RPlus NonSpace)].
Definition SECTION_RE : re := RSeqs [Bos; RLit "["; RGrp 1 (RPlus (NotSet "]")); RLit "]"; Eos].
Definition dash_underscore (c : ascii) : ascii := if Ascii.eqb c "-" then "_" else c.

Section Reader.
Context (reader : string -> option string) (lister : string -> list string).

Definition mysql_line (load : option (string -> loading -> loading)) (path : string)
    (acc : string * loading) (ir : Z * string) : string * loading :=
  let '(section, st) := acc in
  let line := strip ir.2 in
  if is_comment line || starts_with ";" line then acc
  else match load, re_match INCLUDE_RE line with
  | Some load, Some m =>
      let target := group_or 2 m in
      (section, if group 1 m is Some _
                then foldl (fun st p => load p st) st (py_sorted str_lt (lister (path_join target "*.cnf")))
                else load target st)
  | _, _ =>
      match re_match SECTION_RE line with
      | Some m => (lower (strip (group_or 1 m)), st)
      | None =>
          if negb (bool_decide (before "-" section ∈ SERVER_SECTIONS)) then acc
          else
            let '(k, v) := default (line, EmptyString) (split_at "=" line) in
            (section, put (str_map dash_underscore (lower (strip k))) (unquoted v, path, ir.1) st)
      end
  end.

Fixpoint mysql_load (room : nat) (path : string) (st : loading) : loading :=
  fetch reader path false st (fun text st =>
    (foldl (mysql_line (match room with O => None | S room => Some (mysql_load room) end) path)
      (EmptyString, st) (numbered (splitlines text))).2).
End Reader.

Definition mysql_endpoint (s : settings) : option endpoint :=
  let enabled := bool_decide (lower (default EmptyString (setting s "ssl")) ∈ ["on"; "1"; "true"]) in
  match dget "ssl_cert" s, (if enabled then dget "ssl" s else None) with
  | Some (_, file, line), _ | None, Some (_, file, line) =>
      Some (make_endpoint (EpArgs file (Some line) (port_or [3306] (default "3306" (setting s "port"))) (Some "server")
        None None None None
        ((fun v => strip <$> split "," v) <$> setting s "tls_version") None None
        (setting s "ssl_cipher") (setting s "tls_ciphersuites")
        (option_list (setting s "ssl_cert")) "server" None))
  | None, None => None
  end.

(** Only the first main file there is is read. *)
Definition parse_mysql (reader : string -> option string) (lister : string -> list string) (main_paths : list string) : report :=
  let st := match find (fun p => bool_decide (is_Some (reader p))) main_paths with
            | Some p => mysql_load reader lister MAX_INCLUDE_DEPTH p (Loaded [] [] [])
            | None => Loaded [] [] []
            end in
  Report (l_files st) (l_unreadable st) (option_list (mysql_endpoint (l_data st))).
End Mysql.

(** ** Redis and Valkey *)

Module Redis.
Section Reader.
Context (reader : string -> option string) (lister : string -> list string).

Definition redis_line (load : option (string -> loading -> loading)) (path : string) (st : loading) (ir : Z * string) : loading :=
  let line := strip ir.2 in
  if is_comment line then st
  else
    let '(w, rest) := first_word line in
    let k := lower w in
    let v := strip_by (Ascii.eqb "034") (strip (default EmptyString rest)) in
    match load, String.eqb k "include" with
    | Some load, true => foldl (fun st p => load p st) st (expand_glob lister v)
    | _, _ => put k (v, path, ir.1) st
    end.

Fixpoint redis_load (room : nat) (path : string) (st : loading) : loading :=
  fetch reader path false st (fun text st =>
    foldl (redis_line (match room with O => None | S room => Some (redis_load room) end) path)
      st (numbered (splitlines text))).
End Reader.

Definition redis_endpoint (s : settings) : option endpoint :=
  match dget "tls-port" s with
  | Some (tp, file, line) =>
      let port := digits_val (chars tp) in
      if isdigit tp && (0 <? port) then
        Some (make_endpoint (EpArgs file (Some line) [port] (Some "tls-port") None None None None
          (words <$> setting s "tls-protocols") None None
          (setting s "tls-ciphers") (setting s "tls-ciphersuites")
          (option_list (sor (setting s "tls-cert-file") None)) "server" None))
      else None
  | None => None
  end.

Definition parse_redis (reader : string -> option string) (lister : string -> list string) (main : string) : report :=
  let st := redis_load reader lister MAX_INCLUDE_DEPTH main (Loaded [] [] []) in
  Report (l_files st) (l_unreadable st) (option_list (redis_endpoint (l_data st))).
End Redis.

(** ** OpenLDAP *)

Module Openldap.

Definition LDAP_PROTO : list (string * string) :=
  [("3.1", "TLSv1"); ("3.2", "TLSv1.1"); ("3.3", "TLSv1.2"); ("3.4", "TLSv1.3")].

Definition TLS_RE : re :=
  RSeqs [Bos; ROpt (RLitI "olc"); RGrp 1 (RSeq (RLitI "TLS") (RPlus (RChr is_word))); RStar true Space;
         ROpt (RLit ":"); RPlus Space; RGrp 2 (RPlus Dot); Eos].

Definition ldap_line (path : string) (st : loading) (ir : Z * string) : loading :=
  match re_match TLS_RE (strip ir.2) with
  | Some m => put (lower (group_or 1 m)) (strip_by (Ascii.eqb "034") (strip (group_or 2 m)), path, ir.1) st
  | None => st
  end.

Definition ldap_file (reader : string -> option string) (st : loading) (path : string) : loading :=
  fetch reader path false st (fun text st => foldl (ldap_line path) st (numbered (splitlines text))).

Definition ldap_endpoint (s : settings) (urls : option string) : option endpoint :=
  match dget "tlscertificatefile" s with
  | Some (cert, file, line) =>
      let ports := 389 :: (if contains "ldaps://" (default EmptyString urls) then [636] else []) in
      let ec := setting s "tlsecname" in
      Some (make_endpoint (EpArgs file (Some line) ports (Some "slapd") (split_groups ec)
        (if ec is Some _ then Some "TLSECName" else None) None None None
        (setting s "tlsprotocolmin" ≫= fun p => dget p LDAP_PROTO) None
        (setting s "tlsciphersuite") None [cert] "server" None))
  | None => None
  end.

Definition parse_openldap (reader : string -> option string) (paths : list string) (urls : option string) : report :=
  let st := foldl (ldap_file reader) (Loaded [] [] []) paths in
  Report (l_files st) (l_unreadable st) (option_list (ldap_endpoint (l_data st) urls)).
End Openldap.

(** ** 389 Directory Server *)

Module Dse.

Abbreviation entry := (list (string * (string * Z))).

(** The finished entries and the one being read. *)
Definition ldif_step (st : list entry * entry) (ir : Z * string) : list entry * entry :=
  let '(entries, cur) := st in
  let '(i, raw) := ir in
  if negb (non_empty (strip raw)) then (if cur is [] then entries else entries ++ [cur], [])
  else
    match (if starts_with " " raw then None else split_at ":" raw) with
    | Some (k, v) => (entries, dsetdefault (lower (strip k)) (strip v, i) cur)
    | None => st
    end.
Definition ldif_entries (text : string) : list entry :=
  let '(entries, cur) := foldl ldif_step ([], []) (numbered (splitlines text)) in
  if cur is [] then entries else entries ++ [cur].

Definition text_of (k : string) (e : entry) : option string := fst <$> dget k e.

Definition entry_named (dn : string) (entries : list entry) : entry :=
  default [] (find (fun e => String.eqb (lower (default EmptyString (text_of "dn" e))) dn) entries).

Definition dse_endpoint (path : string) (entries : list entry) : option endpoint :=
  let config := entry_named "cn=config" entries in
  let enc := entry_named "cn=encryption,cn=config" entries in
  if negb (String.eqb (lower (default "off" (text_of "nsslapd-security" config))) "on") then None
  else
    Some (make_endpoint (EpArgs path (snd <$> dget "nsslapd-security" config)
      (port_or [636] (default "636" (text_of "nsslapd-secureport" config))) (Some "nsslapd-security")
      None None None None None (text_of "sslversionmin" enc) (text_of "sslversionmax" enc)
      (text_of "nsssl3ciphers" enc) None [] "server"
      (Some "NSS-based: key exchange groups follow the NSS crypto policy"))).

Definition parse_dse_ldif (reader : string -> option string) (path : string) : report :=
  match reader path with
  | None => Report [] [(path, "not readable")] []
  | Some text => Report [path] [] (option_list (dse_endpoint path (ldif_entries text)))
  end.
End Dse.

(** ** Tomcat *)

Module Tomcat.

Inductive elem : Type :=
| Elem (x_tag : string) (x_attrib : list (string * string)) (x_children : list elem).

Definition tag (e : elem) : string := let '(Elem t _ _) := e in t.
Definition attrib (e : elem) : list (string * string) := let '(Elem _ a _) := e in a.
Definition children (e : elem) : list elem := let '(Elem _ _ c) := e in c.

(** [root.iter(name)]: the elements of the name in document order. *)
Fixpoint iter (name : string) (e : elem) : list elem :=
  let '(Elem t _ c) := e in
  (if String.eqb t name then [e] else []) ++ flat_map (iter name) c.

Definition xget (k : string) (e : elem) : option string := dget k (attrib e).

Definition proto_sep (c : ascii) : bool := char_in ",+" c || is_space c.

Definition connector_endpoint (path : string) (conn : elem) : option endpoint :=
  if negb (String.eqb (lower (default EmptyString (xget "SSLEnabled" conn))) "true") then None
  else
    let port := default EmptyString (xget "port" conn) in
    let impl := default EmptyString (xget "sslImplementationName" conn) in
    let host := find (fun e => String.eqb (tag e) "SSLHostConfig") (children conn) in
    let attrs := dupdate (attrib conn) (from_option attrib [] host) in
    let protos := sor (sor (dget "protocols" attrs) (dget "sslEnabledProtocols" attrs)) None in
    let allowed := (fun p => lstrip_by (char_in "+") <$>
                     List.filter (fun x => non_empty x && negb (starts_with "-" x)) (re_split_class proto_sep p)) <$> protos in
    let certs := match host with
                 | Some h => (fun c => default EmptyString (sor (xget "certificateFile" c) (xget "certificateKeystoreFile" c))) <$> iter "Certificate" h
                 | None => []
                 end in
    let engine := if contains "openssl" (lower impl) || contains "OpenSSLImplementation" impl then "openssl" else "jsse" in
    let groups := dget "groups" attrs in
    Some (make_endpoint (EpArgs path None (port_or [] port)
      (Some (strip ("Connector " +:+ default EmptyString (xget "protocol" conn) +:+ " (" +:+ engine +:+ ")")))
      (split_groups groups) (if sor groups None is Some _ then Some "groups" else None) None None
      (match allowed with
       | Some ((_ :: _) as names) => if bool_decide ("all" ∈ (lower <$> names)) then None else Some names
       | _ => None
       end) None None
      (dget "ciphers" attrs) None (List.filter non_empty certs) "server"
      (if String.eqb engine "jsse" then Some "JSSE: key exchange groups follow the JDK's jdk.tls.namedGroups default" else None))).

Section Xml.
Context (fromstring : string -> elem + string).

Definition parse_tomcat (reader : string -> option string) (path : string) : report :=
  match reader path with
  | None => Report [] [(path, "not readable")] []
  | Some text =>
      match fromstring text with
      | inr e => Report [path] [(path, "XML parse error: " +:+ e)] []
      | inl root => Report [path] [] (omap (connector_endpoint path) (iter "Connector" root))
      end
  end.
End Xml.
End Tomcat.
