(* ===== verification/SvcTheory.v ===== *)
(** * What the service parsers promise

    The judgement of an endpoint, the accounting of the files that were read,
    the protocol lists of Apache and Postfix, and the services without a
    group option. *)

From stdpp Require Import sets.
From S2P Require Import Prelude PyStr PyDict PyVal PyRe PyPath Policy SvcEndpoint SvcNginx SvcWeb SvcMail SvcData.
Open Scope Z_scope.

(** ** The judgement *)

#[export] Instance Zltb_sw : StrictWeak Z.ltb.
Proof. split; unfold not_gt; intros *; rewrite ?Z.ltb_lt, ?Z.ltb_ge; lia. Qed.

Lemma elem_of_sorted_ports p l : p ∈ sorted_ports l <-> p ∈ l.
Proof. unfold sorted_ports. by rewrite elem_of_py_sorted, elem_of_remove_dups. Qed.

Lemma sorted_ports_sorted l : StronglySorted Z.lt (sorted_ports l).
Proof.
  assert (NoDup (sorted_ports l)) as Hd by (unfold sorted_ports; rewrite NoDup_py_sorted; apply NoDup_remove_dups).
  assert (StronglySorted (not_gt Z.ltb) (sorted_ports l)) as Hs by (apply py_sorted_sorted, _).
  induction Hs as [|x k Hk IH Hx]; [constructor|]. apply NoDup_cons in Hd as [Hn Hd].
  constructor; [by apply IH|]. rewrite Forall_forall in Hx |- *. intros y Hy.
  specialize (Hx y Hy). unfold not_gt in Hx. apply Z.ltb_ge in Hx. assert (x <> y) by (intros ->; done). lia.
Qed.

(** The buckets of [classify_pqc] together hold the names with a token. *)
Lemma has_pqc_classify names :
  has_pqc (classify_groups names) = true <-> exists g, g ∈ names /\ test_search PQC_KEM_TOKEN_RE g = true.
Proof.
  unfold classify_groups, classify_pqc. generalize PQC_KEM_TOKEN_RE as token. intros token.
  assert (forall acc, has_pqc (foldl (classify_pqc_step token) acc names) = true <->
            has_pqc acc = true \/ exists g, g ∈ names /\ test_search token g = true) as H.
  { induction names as [|n l IH]; intros acc; cbn [foldl].
    - split; [by left|]. intros [?|(g & Hg & _)]; [done|]. by apply not_elem_of_nil in Hg.
    - rewrite IH. setoid_rewrite elem_of_cons. destruct acc as [h p].
      unfold classify_pqc_step. destruct (test_search token n) eqn:E; cbn [negb].
      + assert (has_pqc (if test_search CLASSICAL_TOKEN_RE n then PqcSplit (h ++ [n]) p else PqcSplit h (p ++ [n])) = true) as Hn.
        { destruct (test_search CLASSICAL_TOKEN_RE n); cbn [has_pqc]; [by destruct h|by destruct h, p]. }
        cbn [ps_hybrid ps_pure]. rewrite Hn. naive_solver.
      + naive_solver congruence. }
  rewrite H. cbn [has_pqc]. naive_solver.
Qed.

(** A name of the allowed set that is recognised with rank [r]. *)
Definition allows (allowed : option (list string)) (r : Z) : Prop :=
  exists l a, allowed = Some l /\ a ∈ l /\ proto_rank (Some a) = Some r.

Lemma rank_bound n r : proto_rank n = Some r -> r <= TLS13.
Proof.
  destruct n as [n|]; cbn [proto_rank]; [|done]. destruct (negb (non_empty n)); [done|].
  intros H%dget_elem_of. revert H. unfold PROTO_RANK, TLS13. generalize (str_map underscore_dot (lower (unquoted n))). intros k.
  rewrite !elem_of_cons. intros H. repeat (destruct H as [H|H]; [injection H as _ ->; lia|]). by apply not_elem_of_nil in H.
Qed.

Definition capped (mx : option string) : Prop := exists r, proto_rank mx = Some r /\ r < TLS13.

Lemma capped_iff mx : (if proto_rank mx is Some r then r <? TLS13 else false) = true <-> capped mx.
Proof.
  unfold capped. destruct (proto_rank mx) as [r|]; [rewrite Z.ltb_lt|]; naive_solver.
Qed.

Lemma allows_ranks allowed r :
  allows allowed r <-> r ∈ omap (fun a => proto_rank (Some a)) (default [] allowed).
Proof.
  unfold allows. rewrite list_elem_of_omap. destruct allowed as [l|]; cbn [default].
  - split; [intros (l' & a & [= <-] & Ha & Hr); by exists a|intros (a & Ha & Hr); by exists l, a].
  - split; [by intros (? & ? & ? & _)|]. intros (a & Ha & _). by apply not_elem_of_nil in Ha.
Qed.

Lemma tls13_ranks allowed mn mx :
  tls13_allowed allowed mn mx =
    if (if proto_rank mx is Some r then r <? TLS13 else false) then Some false
    else match omap (fun a => proto_rank (Some a)) (default [] allowed) with
         | [] => None
         | ranks => Some (bool_decide (TLS13 ∈ ranks))
         end.
Proof.
  unfold tls13_allowed. destruct (if proto_rank mx is Some r then r <? TLS13 else false); [done|].
  assert ((if proto_rank mn is Some r then TLS13 <? r else false) = false) as ->; [|by destruct allowed].
  destruct (proto_rank mn) as [r|] eqn:E; [|done]. apply rank_bound in E. apply Z.ltb_ge. lia.
Qed.

Lemma tls13_true allowed mn mx : tls13_allowed allowed mn mx = Some true <-> ~ capped mx /\ allows allowed TLS13.
Proof.
  rewrite tls13_ranks, allows_ranks, <-capped_iff.
  destruct (if proto_rank mx is Some r then _ else _); [split; [done|intros [H _]; by destruct H]|].
  destruct (omap _ _) as [|r l].
  - split; [done|]. intros [_ H]. by apply not_elem_of_nil in H.
  - case_bool_decide; split; [by auto..|intros [_ ?]; done].
Qed.

Lemma tls13_false allowed mn mx :
  tls13_allowed allowed mn mx = Some false <->
  capped mx \/ (exists r, allows allowed r) /\ ~ allows allowed TLS13.
Proof.
  rewrite tls13_ranks, <-capped_iff. setoid_rewrite allows_ranks.
  destruct (if proto_rank mx is Some r then _ else _); [split; [by left|done]|].
  destruct (omap _ _) as [|r l].
  - split; [done|]. intros [?|[[r H] _]]; [done|]. by apply not_elem_of_nil in H.
  - case_bool_decide; split.
    + done.
    + intros [?|[_ Hn]]; [done|]. by destruct Hn.
    + intros _. right. split; [exists r; by left|done].
    + done.
Qed.

Lemma judge_spec t13 supports groups setting source :
  let pqc := (judge t13 supports groups setting source).1 in
  (pqc = None <-> t13 <> Some false /\ supports <> Some false /\ groups = None) /\
  (pqc = Some true <-> t13 <> Some false /\ supports <> Some false /\ exists g, groups = Some g /\ has_pqc g = true).
Proof.
  unfold judge. case_bool_decide as H1; [split; (split; [done|by intros (? & _)])|].
  case_bool_decide as H2; [split; (split; [done|by intros (_ & ? & _)])|].
  destruct groups as [g|]; cbn [fst].
  - split; [split; [done|by intros (_ & _ & ?)]|]. split.
    + intros [= Hg]. by eauto.
    + intros (_ & _ & g' & [= <-] & ->). done.
  - split; [done|]. split; [done|]. by intros (_ & _ & ? & ? & _).
Qed.

(** The groups in force. *)
Definition in_force (a : ep_args) : option (list string) :=
  match a_groups a with Some g => Some g | None => a_service_default_groups a end.

Lemma make_endpoint_fields a :
  let e := make_endpoint a in
  let t13 := tls13_allowed (a_protocols a) (a_min_protocol a) (a_max_protocol a) in
  e_tls13_allowed e = t13 /\ e_groups e = in_force a /\ e_ports e = sorted_ports (a_ports a) /\
  (e_pqc_key_exchange e = None <-> t13 <> Some false /\ a_service_supports_pqc_groups a <> Some false /\ in_force a = None) /\
  (e_pqc_key_exchange e = Some true <-> t13 <> Some false /\ a_service_supports_pqc_groups a <> Some false /\
     exists l, in_force a = Some l /\ has_pqc (classify_groups l) = true).
Proof.
  cbv zeta. unfold make_endpoint. destruct (effective_groups a) as [eff src] eqn:E.
  assert (eff = in_force a) as ->.
  { revert E. unfold effective_groups, in_force. destruct (a_groups a), (a_service_default_groups a); naive_solver. }
  destruct (judge _ _ _ _ _) as [pqc reason] eqn:J. cbn [e_tls13_allowed e_groups e_ports e_pqc_key_exchange].
  destruct (judge_spec (tls13_allowed (a_protocols a) (a_min_protocol a) (a_max_protocol a)) (a_service_supports_pqc_groups a)
              (classify_groups <$> in_force a) (a_groups_setting a) src) as [H1 H2].
  rewrite J, fmap_None in H1. rewrite J in H2. cbn [fst] in H1, H2. do 4 (split; [done|]).
  rewrite H2. split; intros (? & ? & H); (split; [done|split; [done|]]).
  - destruct H as (g & (l & -> & ->)%fmap_Some & Hg). by exists l.
  - destruct H as (l & -> & Hl). by exists (classify_groups l).
Qed.

(** The judgement of an endpoint.  TLS 1.3 is excluded exactly when the
    maximum is below it or the recognised names of a protocol list leave it
    out.  The endpoint follows the library default exactly when nothing else
    decides; it is judged PQC-capable exactly when TLS 1.3 and its kind allow
    it and some group in force carries an ML-KEM token; the groups in force
    are the service's own list before its compiled-in default; the ports are
    those given, in order and once each. *)
Theorem make_endpoint_spec a :
  let e := make_endpoint a in
  let excluded := capped (a_max_protocol a) \/
                  (exists r, allows (a_protocols a) r) /\ ~ allows (a_protocols a) TLS13 in
  let single := a_service_supports_pqc_groups a = Some false in
  (e_tls13_allowed e = Some false <-> excluded) /\
  e_groups e = in_force a /\
  (e_pqc_key_exchange e = None <-> ~ excluded /\ ~ single /\ in_force a = None) /\
  (e_pqc_key_exchange e = Some true <->
     ~ excluded /\ ~ single /\ exists l g, in_force a = Some l /\ g ∈ l /\ test_search PQC_KEM_TOKEN_RE g = true) /\
  StronglySorted Z.lt (e_ports e) /\ (forall p, p ∈ e_ports e <-> p ∈ a_ports a).
Proof.
  cbv zeta. rewrite <-(tls13_false (a_protocols a) (a_min_protocol a)).
  destruct (make_endpoint_fields a) as (-> & -> & -> & H1 & H2). split; [done|]. split; [done|]. split; [done|].
  split; [|split; [apply sorted_ports_sorted|intros p; apply elem_of_sorted_ports]].
  rewrite H2. setoid_rewrite has_pqc_classify. naive_solver.
Qed.

(** ** Accounting of the files *)

(** Every file listed was read and every file called unreadable could not be. *)
Definition accounts (reader : string -> option string) (files : list string) (unreadable : list (string * string)) : Prop :=
  Forall (fun f => is_Some (reader f)) files /\ Forall (fun u => reader u.1 = None) unreadable.

Section Loaders.
Context (reader : string -> option string) {D : Type} (P : list string -> D -> Prop).
Context (Pmono : forall f f' d, f ⊆ f' -> P f d -> P f' d).

Definition load_inv (st : loaded D) : Prop :=
  accounts reader (l_files st) (l_unreadable st) /\ P (l_files st) (l_data st).

(** What one loading step does to the state. *)
Definition good (st st' : loaded D) : Prop :=
  load_inv st -> load_inv st' /\ l_files st ⊆ l_files st'.

Lemma good_refl st : good st st.
Proof. by intros ?. Qed.

Lemma good_trans st1 st2 st3 : good st1 st2 -> good st2 st3 -> good st1 st3.
Proof. intros H1 H2 H. destruct (H1 H) as [Ha Hb], (H2 Ha) as [Hc Hd]. split; [done|by etrans]. Qed.

Lemma good_data st d : (P (l_files st) (l_data st) -> P (l_files st) d) -> good st (with_data st d).
Proof. intros H [Ha Hp]. split; [|done]. split; [done|by apply H]. Qed.

Lemma fetch_good path optional st body :
  (forall text st, path ∈ l_files st -> good st (body text st)) -> good st (fetch reader path optional st body).
Proof.
  intros Hb. unfold fetch. destruct (reader path) as [text|] eqn:E.
  - eapply good_trans; [|apply Hb; cbn [l_files]; set_solver].
    intros [[Hf Hu] Hp]. cbn. split; [split; [split; cbn [l_files l_unreadable]|]|cbn [l_files]; set_solver].
    + apply Forall_app. split; [done|]. repeat constructor. by rewrite E.
    + done.
    + eapply Pmono; [|exact Hp]. cbn [l_files]. set_solver.
  - destruct optional; [apply good_refl|]. intros [[Hf Hu] Hp]. split; [|done]. split; [|done].
    split; [done|]. apply Forall_app. split; [done|]. by repeat constructor.
Qed.

(** A loop that carries a state of its own beside the loader's; [Q] is what
    the body needs of the state, as that the current file has been read. *)
Lemma fold_good {A S} (proj : S -> loaded D) (f : S -> A -> S) path l s :
  (forall s x, path ∈ l_files (proj s) -> good (proj s) (proj (f s x))) ->
  path ∈ l_files (proj s) -> good (proj s) (proj (foldl f s l)).
Proof.
  intros Hf. revert s. induction l as [|x l IH]; intros s Hp; cbn [foldl]; [apply good_refl|].
  intros Hi. destruct (Hf s x Hp Hi) as [Hi' Hs].
  destruct (IH (f s x) (Hs _ Hp) Hi') as [Hi2 Hs2]. split; [done|by etrans].
Qed.

Lemma fold_good1 {A} (f : loaded D -> A -> loaded D) path l st :
  (forall st x, path ∈ l_files st -> good st (f st x)) -> path ∈ l_files st -> good st (foldl f st l).
Proof. intros Hf. by apply (fold_good id). Qed.

Lemma fold_good2 {A X} (f : X * loaded D -> A -> X * loaded D) path l x st :
  (forall acc y, path ∈ l_files acc.2 -> good acc.2 (f acc y).2) -> path ∈ l_files st -> good st (foldl f (x, st) l).2.
Proof. intros Hf Hp. by apply (fold_good snd f path l (x, st)). Qed.

Lemma foldl_good {A} (f : loaded D -> A -> loaded D) l st :
  (forall st x, good st (f st x)) -> good st (foldl f st l).
Proof.
  intros Hf. revert st. induction l as [|x l IH]; intros st; cbn [foldl]; [apply good_refl|].
  eapply good_trans; [apply Hf|apply IH].
Qed.
End Loaders.

#[export] Hint Resolve good_refl foldl_good : pqc.

(** Every item of a list names a file that was read. *)
Definition from {A} (file : A -> string) (files : list string) (l : list A) : Prop := Forall (fun x => file x ∈ files) l.

Lemma from_mono {A} (file : A -> string) f f' l : f ⊆ f' -> from file f l -> from file f' l.
Proof. intros Hs Hl. eapply Forall_impl; [exact Hl|]. cbn. auto. Qed.

Lemma from_app {A} (file : A -> string) f l x : file x ∈ f -> from file f l -> from file f (l ++ [x]).
Proof. intros Hx Hl. apply Forall_app. split; [done|]. by repeat constructor. Qed.

Lemma from_omap {A B} (file : A -> string) (file' : B -> string) (g : A -> option B) f l :
  (forall a b, g a = Some b -> file' b = file a) -> from file f l -> from file' f (omap g l).
Proof.
  intros Hg Hl. unfold from in *. apply Forall_forall. intros b (a & Ha & Hb)%list_elem_of_omap.
  rewrite (Hg _ _ Hb). rewrite Forall_forall in Hl. by apply Hl.
Qed.

(** Settings with the file that set them. *)
Definition setting_file (kv : string * (string * string * Z)) : string := kv.2.1.2.

Lemma from_dset f k v d :
  v.1.2 ∈ f -> from setting_file f d -> from setting_file f (dset k v d).
Proof.
  intros Hv. unfold from. induction d as [|[k' v'] d IH]; intros Hd; cbn [dset]; [by repeat constructor|].
  apply Forall_cons in Hd as [H1 H2]. case_decide; constructor; auto.
Qed.

Lemma from_dget f k v d : from setting_file f d -> dget k d = Some v -> v.1.2 ∈ f.
Proof. unfold from. rewrite Forall_forall. intros H Hk%dget_elem_of. by apply (H (k, v)). Qed.

Lemma make_endpoint_file a : e_file (make_endpoint a) = a_file a.
Proof. unfold make_endpoint. by destruct (effective_groups a), (judge _ _ _ _ _). Qed.

Definition report_ok (reader : string -> option string) (r : report) : Prop :=
  accounts reader (r_files r) (r_unreadable r) /\ from e_file (r_files r) (r_endpoints r).

Lemma loaded_report reader {D} (P : list string -> D -> Prop) st0 st eps :
  good reader P st0 st -> load_inv reader P st0 -> (P (l_files st) (l_data st) -> from e_file (l_files st) eps) ->
  report_ok reader (Report (l_files st) (l_unreadable st) eps).
Proof. intros Hg Hi He. destruct (Hg Hi) as [[Ha Hp] _]. split; [done|by apply He]. Qed.

Lemma load_inv_nil reader {D} (P : list string -> D -> Prop) d : P [] d -> load_inv reader P (Loaded [] [] d).
Proof. by repeat constructor. Qed.

(** The loaders, one include level after the other. *)
Ltac level :=
  apply fetch_good; [intros ???; apply from_mono|]; let t := fresh "text" in let s := fresh "st" in let H := fresh "Hp" in intros t s H.

Section Parsers.
Context (reader : string -> option string) (lister : string -> list string).
Implicit Types (path : string) (room : nat).

(** *** Settings kept with their file *)

Abbreviation sgood := (good reader (from setting_file)).

Lemma put_good path k v ln st : path ∈ l_files st -> sgood st (put k (v, path, ln) st).
Proof. intros Hp. apply good_data. by apply from_dset. Qed.

Lemma pg_load_good room path optional st : sgood st (Postgresql.pg_load reader lister room path optional st).
Proof.
  revert path optional st. induction room as [|room IH]; intros path optional st; cbn [Postgresql.pg_load]; level;
    (apply (fold_good1 _ _ _ path); [|done]); intros s [[k v] ln] Hs; unfold Postgresql.pg_setting.
  - by apply put_good.
  - case_match; [apply IH|]. case_match; [|by apply put_good]. apply foldl_good. intros; apply IH.
Qed.

Lemma mysql_load_good room path st : sgood st (Mysql.mysql_load reader lister room path st).
Proof.
  revert path st. induction room as [|room IH]; intros path st; cbn [Mysql.mysql_load]; level;
    (apply (fold_good2 _ _ _ path); [|done]); intros [sec s] ir Hs; unfold Mysql.mysql_line; cbn [snd] in *.
  - repeat case_match; cbn [snd]; first [apply good_refl|by apply put_good].
  - repeat case_match; cbn [snd]; first [apply good_refl|by apply put_good|apply IH|apply foldl_good; intros; apply IH].
Qed.

Lemma redis_load_good room path st : sgood st (Redis.redis_load reader lister room path st).
Proof.
  revert path st. induction room as [|room IH]; intros path st; cbn [Redis.redis_load]; level;
    (apply (fold_good1 _ _ _ path); [|done]); intros s ir Hs; unfold Redis.redis_line;
    repeat case_match; first [apply good_refl|by apply put_good|apply foldl_good; intros; apply IH].
Qed.

Lemma ldap_file_good st path : sgood st (Openldap.ldap_file reader st path).
Proof.
  unfold Openldap.ldap_file. level. apply (fold_good1 _ _ _ path); [|done]. intros s ir Hs.
  unfold Openldap.ldap_line. case_match; [by apply put_good|apply good_refl].
Qed.

(** *** Squid: the endpoints themselves *)

Lemma squid_load_good room main path st : good reader (from e_file) st (Squid.squid_load reader lister room main path st).
Proof.
  revert path st. induction room as [|room IH]; intros path st; cbn [Squid.squid_load]; level;
    (apply (fold_good1 _ _ _ path); [|done]); intros s ir Hs; unfold Squid.squid_line;
    repeat case_match; try apply good_refl; try (apply foldl_good; intros; apply IH);
    apply good_data; intros Hd; apply Forall_app; (split; [done|]);
    (destruct (Squid.port_endpoint _ _ _ _ _) as [e|] eqn:E; [|by constructor]); repeat constructor;
    revert E; unfold Squid.port_endpoint; (case_match; [done|]); intros [= <-]; by rewrite make_endpoint_file.
Qed.
(** *** Dovecot, Apache, HAProxy, stunnel *)

Definition dovecot_from (files : list string) (d : Dovecot.state) : Prop := from setting_file files (Dovecot.d_settings d).

Lemma dovecot_load_good room path optional st : good reader dovecot_from st (Dovecot.dovecot_load reader lister room path optional st).
Proof.
  revert path optional st. induction room as [|room IH]; intros path optional st; cbn [Dovecot.dovecot_load]; level;
    (apply (fold_good2 _ _ _ path); [|done]); intros [sc s] ir Hs; unfold Dovecot.dovecot_line, Dovecot.add_port, Dovecot.put; cbn [snd] in *;
    repeat case_match; cbn [snd];
    first [apply good_refl|apply foldl_good; intros; apply IH|apply good_data; intros Hd; first [done|by apply from_dset]].
Qed.

Definition line_file (l : string * Z * string) : string := l.1.1.
Definition apache_from (files : list string) (d : Apache.flat) : Prop := from line_file files (Apache.f_lines d).

Lemma apache_load_good room path optional st : good reader apache_from st (Apache.apache_load reader lister room path optional st).
Proof.
  assert (forall path st root, good reader apache_from st (Apache.set_root root st)) as Hroot by (intros; by apply good_data).
  assert (forall path il st, path ∈ l_files st -> good reader apache_from st (Apache.add_line path il st)) as Hadd.
  { intros p il s Hp. apply good_data. intros Hd. by apply from_app. }
  revert path optional st. induction room as [|room IH]; intros path optional st; cbn [Apache.apache_load]; level;
    (apply (fold_good1 _ _ _ path); [|done]); intros s ir Hs; unfold Apache.apache_directive;
    destruct (first_word ir.2) as [w rest].
  - destruct (String.eqb (lower w) "serverroot"); [eapply good_trans; [apply (Hroot path)|]|]; by apply Hadd.
  - destruct (String.eqb (lower w) "serverroot"); [eapply good_trans; [apply (Hroot path)|]|];
      (case_match; [apply foldl_good; intros; apply IH|by apply Hadd]).
Qed.

Definition haproxy_from (files : list string) (d : Haproxy.state) : Prop := from Haproxy.b_path files (Haproxy.h_binds d).

Lemma haproxy_file_good st path : good reader haproxy_from st (Haproxy.haproxy_file reader st path).
Proof.
  unfold Haproxy.haproxy_file. level. apply good_data. intros Hd.
  generalize (numbered (splitlines text)) as l. generalize (Haproxy.h_glob (l_data st0)) as glob. generalize EmptyString as sec.
  unfold haproxy_from in Hd. revert Hd. generalize (Haproxy.h_binds (l_data st0)) as binds. intros binds Hd sec glob l.
  revert binds sec glob Hd. induction l as [|ir l IH]; intros binds sec glob Hd; cbn [foldl]; [done|].
  unfold Haproxy.haproxy_line at 2. repeat case_match; apply IH; try done. by apply from_app.
Qed.

Definition stunnel_from (files : list string) : list Stunnel.section -> Prop := from Stunnel.s_path files.

Lemma alter_from files f n (l : list Stunnel.section) :
  (forall s, Stunnel.s_path (f s) = Stunnel.s_path s) -> stunnel_from files l -> stunnel_from files (alter f n l).
Proof.
  intros Hf. unfold stunnel_from, from. revert n. induction l as [|s l IH]; intros [|n] Hl; [done..| |];
    apply Forall_cons in Hl as [H1 H2]; constructor; try rewrite Hf; try done. by apply IH.
Qed.

Lemma stunnel_load_good room path st : good reader stunnel_from st (Stunnel.stunnel_load reader lister room path st).
Proof.
  assert (forall path st n name, path ∈ l_files st ->
            good reader stunnel_from st (Stunnel.add_section (Stunnel.Section_ path n name []) st)) as Hadd.
  { intros p s n name Hp. apply good_data. intros Hd. by apply from_app. }
  revert path st. induction room as [|room IH]; intros path st; cbn [Stunnel.stunnel_load]; level;
    (eapply good_trans; [by apply (Hadd path)|]); (apply (fold_good2 _ _ _ path); [|done]);
    intros [cur s] ir Hs; unfold Stunnel.stunnel_line; cbn [snd] in *; repeat case_match; cbn [snd];
    first [apply good_refl|by apply Hadd|apply foldl_good; intros; apply IH|apply good_data; by apply alter_from].
Qed.
End Parsers.

(** *** nginx: the statements with their blocks *)

Fixpoint stmt_from (files : list string) (s : stmt) : Prop :=
  let '(Stmt f _ _ _ b) := s in
  f ∈ files /\ match b with Some b => foldr (fun s P => stmt_from files s /\ P) True b | None => True end.
Definition stmts_from (files : list string) (l : list stmt) : Prop := Forall (stmt_from files) l.

Lemma stmts_foldr files l : foldr (fun s P => stmt_from files s /\ P) True l <-> stmts_from files l.
Proof.
  unfold stmts_from. induction l as [|s l IH]; cbn [foldr]; [by split|]. by rewrite Forall_cons, IH.
Qed.

(** Induction on a statement with the statements of its block. *)
Lemma stmt_ind' (Q : stmt -> Prop) :
  (forall f n a l b, (match b with Some b => Forall Q b | None => True end) -> Q (Stmt f n a l b)) -> forall s, Q s.
Proof.
  intros H. fix IH 1. intros [f n a l [b|]]; apply H; [|exact I].
  induction b as [|s b IHb]; constructor; [apply IH|exact IHb].
Qed.

Lemma stmt_from_mono files files' s : files ⊆ files' -> stmt_from files s -> stmt_from files' s.
Proof.
  intros Hs. induction s as [f n a l b IH] using stmt_ind'. cbn [stmt_from]. intros [Hf Hb]. split; [by apply Hs|].
  destruct b as [b|]; [|done]. apply stmts_foldr in Hb. apply stmts_foldr. unfold stmts_from in *.
  induction Hb as [|s b H1 H2 IHb]; constructor; apply Forall_cons in IH as [I1 I2]; auto.
Qed.

Lemma stmts_from_mono files files' l : files ⊆ files' -> stmts_from files l -> stmts_from files' l.
Proof. intros Hs Hl. eapply Forall_impl; [exact Hl|]. intros s. by apply stmt_from_mono. Qed.

Section Nginx.
Context (reader : string -> option string) (lister : string -> list string).
Abbreviation ngood := (good reader stmts_from).

Lemma emit_good path l st : path ∈ l_files st -> (path ∈ l_files st -> stmts_from (l_files st) l) -> ngood st (emit l st).
Proof. intros Hp Hl. apply good_data. intros Hd. apply Forall_app. split; [done|by apply Hl]. Qed.

Lemma expand_stmt_good load path prefix s st :
  (forall f p st, load = Some f -> ngood st (f p st)) -> path ∈ l_files st ->
  ngood st (expand_stmt lister load path prefix s st).
Proof.
  intros Hload. revert st. induction s as [f n a l b IH] using stmt_ind'. intros st Hp. cbn [expand_stmt].
  assert (ngood st (match b with
          | Some b => let inner := (fix go (b : list stmt) (st : SvcNginx.loading) : SvcNginx.loading :=
                        match b with [] => st | s :: b => go b (expand_stmt lister load path prefix s st) end) b (with_data st []) in
              Loaded (l_files inner) (l_unreadable inner) (l_data st ++ [Stmt path n a l (Some (l_data inner))])
          | None => emit [Stmt path n a l None] st end)) as Hkeep.
  { destruct b as [b|]; [|apply (emit_good path); [done|intros ?; by repeat constructor]].
    set (go := fix go (b : list stmt) (st : SvcNginx.loading) : SvcNginx.loading :=
                 match b with [] => st | s :: b => go b (expand_stmt lister load path prefix s st) end).
    assert (forall b st, Forall (fun s => forall st, path ∈ l_files st -> ngood st (expand_stmt lister load path prefix s st)) b ->
              path ∈ l_files st -> ngood st (go b st)) as Hgo.
    { clear. intros b. induction b as [|s b IHb]; intros st Hb Hp; [apply good_refl|].
      apply Forall_cons in Hb as [H1 H2]. intros Hi. destruct (H1 st Hp Hi) as [Hi1 Hs1].
      destruct (IHb _ H2 (Hs1 _ Hp) Hi1) as [Hi2 Hs2]. split; [done|by etrans]. }
    intros Hi. assert (load_inv reader stmts_from (with_data st [])) as Hi0 by (split; [apply Hi|constructor]).
    destruct (Hgo b (with_data st []) IH Hp Hi0) as [[Ha Hd] Hs]. cbn [l_files with_data] in Hs.
    split; [split; [exact Ha|]|exact Hs]. apply Forall_app. split.
    - eapply stmts_from_mono; [exact Hs|apply Hi].
    - repeat constructor; [by apply Hs|]. by apply stmts_foldr. }
  destruct load as [f'|]; [|by destruct (if String.eqb n "include" then head a else None)].
  destruct (if String.eqb n "include" then head a else None) as [pattern|]; [|exact Hkeep].
  apply foldl_good. intros s x. by apply (Hload f').
Qed.

Lemma nginx_load_good room prefix path st : ngood st (nginx_load reader lister room prefix path st).
Proof.
  revert path st. induction room as [|room IH]; intros path st; cbn [nginx_load];
    (apply fetch_good; [intros ???; apply stmts_from_mono|]); intros text st' Hp; unfold expand;
    (apply (fold_good1 _ _ _ path); [|done]); intros s x Hs; (apply expand_stmt_good; [|done]); intros f p s' [= <-]; apply IH.
Qed.

(** The statements of a tree keep the property that their file was read. *)
Lemma server_from files s block st ctx eps :
  s_file s ∈ files -> server s block st ctx = Ok eps -> from e_file files eps.
Proof.
  intros Hs. unfold server. case_bool_decide as Hc; [intros [= <-]; constructor|].
  destruct (cmd_groups _ _) as [gv setting]. intros H. bind H as suites Hsu. injection H as <-.
  repeat constructor. by rewrite make_endpoint_file.
Qed.

Lemma ng_walk_from fuel stmts inh ctx files eps :
  stmts_from files stmts -> ng_walk fuel stmts inh ctx = Ok eps -> from e_file files eps.
Proof.
  revert stmts inh ctx eps. induction fuel as [|fuel IH]; intros stmts inh ctx eps Hs; cbn [ng_walk]; [intros [= <-]; constructor|].
  intros H. bind H as st Hst. bind H as l Hl. injection H as <-. clear Hst.
  revert l Hl. induction Hs as [|s stmts H1 Hs IHs]; intros l Hl.
  - injection Hl as <-. constructor.
  - apply mapM_cons_ok in Hl as (e & l' & -> & He & Hl'). cbn [concat]. apply Forall_app. split; [|by apply IHs].
    destruct s as [f n a ln [b|]]; cbn [s_block s_name s_file] in He; [|injection He as <-; constructor].
    destruct H1 as [Hf Hb%stmts_foldr]. destruct (bool_decide (n ∈ CONTEXTS)); [exact (IH _ _ _ _ Hb He)|].
    destruct (_ && _); [|injection He as <-; constructor]. bind He as inner Hin. by apply (server_from files) in He.
Qed.
End Nginx.

(** ** Every parser *)

Lemma bind_endpoint_file glob b e : Haproxy.bind_endpoint glob b = Some e -> e_file e = Haproxy.b_path b.
Proof.
  unfold Haproxy.bind_endpoint. destruct (negb _); [done|]. destruct (Haproxy.bind_options _ _ _).
  intros [= <-]. by rewrite make_endpoint_file.
Qed.

Lemma section_endpoint_file glob dc s e : Stunnel.section_endpoint glob dc s = Some e -> e_file e = Stunnel.s_path s.
Proof.
  unfold Stunnel.section_endpoint. destruct (dget "accept" _); [|done]. destruct (negb _); [done|].
  intros [= <-]. by rewrite make_endpoint_file.
Qed.

Lemma vhost_endpoint_file g v e : Apache.vhost_endpoint g v = Some e -> e_file e = Apache.v_file v.
Proof.
  unfold Apache.vhost_endpoint. destruct (negb _); [done|]. destruct (Apache.group_setting _).
  intros [= <-]. by rewrite make_endpoint_file.
Qed.

(** The virtual host being read and the endpoints of those closed. *)
Definition sections_from (files : list string) (st : Apache.sections) : Prop :=
  from e_file files (Apache.g_endpoints st) /\
  match Apache.g_vhost st with Some v => Apache.v_file v ∈ files | None => True end.

Lemma sections_step_from files st d :
  line_file d ∈ files -> sections_from files st -> sections_from files (Apache.section_step st d).
Proof.
  destruct st as [g vh eps], d as [[path n] line]. intros Hp [He Hv]. cbn [Apache.g_endpoints Apache.g_vhost line_file fst] in *.
  unfold Apache.section_step. destruct (first_word line) as [w rest].
  destruct (String.eqb (lower w) "<virtualhost"); [by split|].
  destruct (String.eqb (lower w) "</virtualhost>"); [|destruct vh; by split].
  split; [|done]. cbn [Apache.g_endpoints]. apply Forall_app. split; [done|].
  destruct vh as [v|]; cbn [mbind option_bind]; [|constructor].
  destruct (Apache.vhost_endpoint g v) as [e|] eqn:E; constructor; [|constructor].
  by rewrite (vhost_endpoint_file _ _ _ E).
Qed.

Lemma apache_ok reader lister main server_root : report_ok reader (Apache.parse_apache reader lister main server_root).
Proof.
  eapply loaded_report; [apply apache_load_good|apply load_inv_nil; constructor|]. intros Hd.
  match goal with |- from _ ?f _ => assert (forall l sec, from line_file f l -> sections_from f sec ->
    sections_from f (foldl Apache.section_step sec l)) as Hf end.
  { intros l. induction l as [|d l IH]; intros sec Hl Hs; cbn [foldl]; [done|].
    apply Forall_cons in Hl as [H1 H2]. apply IH; [done|]. by apply sections_step_from. }
  apply Hf; [exact Hd|]. by split; [constructor|].
Qed.

Lemma haproxy_ok reader paths : report_ok reader (Haproxy.parse_haproxy reader paths).
Proof.
  eapply loaded_report; [apply foldl_good, haproxy_file_good|apply load_inv_nil; constructor|].
  apply from_omap, bind_endpoint_file.
Qed.

Lemma stunnel_ok reader lister paths dc : report_ok reader (Stunnel.parse_stunnel reader lister paths dc).
Proof.
  eapply loaded_report; [apply foldl_good; intros; apply stunnel_load_good|apply load_inv_nil; constructor|].
  apply from_omap, section_endpoint_file.
Qed.

Lemma squid_ok reader lister main : report_ok reader (Squid.parse_squid reader lister main).
Proof. eapply loaded_report; [apply squid_load_good|apply load_inv_nil; constructor|done]. Qed.

(** The single endpoint of a daemon, named after a setting. *)
Lemma from_one {A} (file : A -> string) f o : (forall e, o = Some e -> file e ∈ f) -> from file f (option_list o).
Proof. intros H. destruct o as [e|]; constructor; [by apply H|constructor]. Qed.

Ltac one_endpoint f :=
  let e := fresh "e" in intros Hd; apply from_one; intros e; unfold f;
  repeat (case_match; simplify_eq/=; try done); intros [= <-]; rewrite make_endpoint_file; cbn [a_file].

Lemma dovecot_ok reader lister main : report_ok reader (Dovecot.parse_dovecot reader lister main).
Proof.
  eapply loaded_report; [apply dovecot_load_good|apply load_inv_nil; constructor|].
  unfold dovecot_from. intros Hd. apply from_one. intros e. unfold Dovecot.dovecot_endpoint.
  destruct (match dget "ssl_server_cert_file" _ with Some c => Some c | None => _ end) as [[[c file] line]|] eqn:E; [|done].
  destruct (_ || _); [done|]. intros [= <-]. rewrite make_endpoint_file. cbn [a_file].
  destruct (dget "ssl_server_cert_file" _) eqn:E1 in E; [injection E as ->; by apply (from_dget _ _ _ _ Hd) in E1|].
  by apply (from_dget _ _ _ _ Hd) in E.
Qed.

Lemma pg_ok reader lister confs major : report_ok reader (Postgresql.parse_postgresql reader lister confs major).
Proof.
  eapply loaded_report; [apply foldl_good; intros; apply pg_load_good|apply load_inv_nil; constructor|].
  intros Hd. apply from_one. intros e. unfold Postgresql.pg_endpoint.
  destruct (dget "ssl" _) as [[[ssl file] line]|] eqn:E; [|done]. destruct (negb _); [done|].
  destruct (match major with Some _ => _ | None => _ end) as [[? ?] ?]. intros [= <-]. rewrite make_endpoint_file.
  by apply (from_dget _ _ _ _ Hd) in E.
Qed.

Lemma mysql_ok reader lister paths : report_ok reader (Mysql.parse_mysql reader lister paths).
Proof.
  eapply loaded_report with (P := from setting_file) (st0 := Loaded [] [] []);
    [destruct (find _ _); [apply mysql_load_good|apply good_refl]|apply load_inv_nil; constructor|].
  generalize (match find (fun p => bool_decide (is_Some (reader p))) paths with
              | Some p => Mysql.mysql_load reader lister MAX_INCLUDE_DEPTH p (Loaded [] [] []) | None => Loaded [] [] [] end).
  intros st Hd. apply from_one. intros e. unfold Mysql.mysql_endpoint.
  destruct (dget "ssl_cert" _) as [[[c file] line]|] eqn:E.
  - intros [= <-]. rewrite make_endpoint_file. by apply (from_dget _ _ _ _ Hd) in E.
  - destruct (bool_decide _); [|done]. destruct (dget "ssl" _) as [[[c file] line]|] eqn:E2; [|done].
    intros [= <-]. rewrite make_endpoint_file. by apply (from_dget _ _ _ _ Hd) in E2.
Qed.

Lemma redis_ok reader lister main : report_ok reader (Redis.parse_redis reader lister main).
Proof.
  eapply loaded_report; [apply redis_load_good|apply load_inv_nil; constructor|].
  intros Hd. apply from_one. intros e. unfold Redis.redis_endpoint.
  destruct (dget "tls-port" _) as [[[tp file] line]|] eqn:E; [|done]. destruct (_ && _); [|done].
  intros [= <-]. rewrite make_endpoint_file. by apply (from_dget _ _ _ _ Hd) in E.
Qed.

Lemma openldap_ok reader paths urls : report_ok reader (Openldap.parse_openldap reader paths urls).
Proof.
  eapply loaded_report; [apply foldl_good, ldap_file_good|apply load_inv_nil; constructor|].
  intros Hd. apply from_one. intros e. unfold Openldap.ldap_endpoint.
  destruct (dget "tlscertificatefile" _) as [[[c file] line]|] eqn:E; [|done].
  intros [= <-]. rewrite make_endpoint_file. by apply (from_dget _ _ _ _ Hd) in E.
Qed.

Lemma dse_ok reader path : report_ok reader (Dse.parse_dse_ldif reader path).
Proof.
  unfold Dse.parse_dse_ldif. destruct (reader path) as [text|] eqn:E.
  - split; [split; [constructor; [by rewrite E|constructor]|constructor]|]. apply from_one. intros e.
    unfold Dse.dse_endpoint. destruct (negb _); [done|]. intros [= <-]. rewrite make_endpoint_file. by left.
  - split; [split; [constructor|by constructor]|constructor].
Qed.

Lemma nginx_ok reader lister main :
  match parse_nginx reader lister main with Ok r => report_ok reader r | Raise _ => True end.
Proof.
  destruct (parse_nginx reader lister main) as [r|e] eqn:E; [|done]. unfold parse_nginx in E.
  pose proof (nginx_load_good reader lister MAX_INCLUDE_DEPTH (dirname main) main (Loaded [] [] [])) as Hg.
  revert E Hg. generalize (nginx_load reader lister MAX_INCLUDE_DEPTH (dirname main) main (Loaded [] [] [])).
  intros st E Hg. bind E as eps Heps. injection E as <-.
  eapply loaded_report; [exact Hg|apply load_inv_nil; constructor|]. intros Hd. exact (ng_walk_from _ _ _ _ _ _ Hd Heps).
Qed.

Lemma postfix_line text s : s ∈ Postfix.parse_postfix_master text -> is_Some (Postfix.sv_line s).
Proof.
  intros ([ln t] & _ & H)%list_elem_of_omap. revert H. unfold Postfix.master_service.
  repeat (case_match; try done); intros [= <-]; by eexists.
Qed.

Lemma service_endpoint_file main mp ms dc s e :
  Postfix.service_endpoint main mp ms dc s = Some e -> e_file e = if Postfix.sv_line s is Some _ then ms else mp.
Proof.
  unfold Postfix.service_endpoint. destruct (sor _ _) as [cert|]; [|done]. destruct (negb _); [done|].
  destruct (match Postfix.get _ _ _ with Some _ => _ | None => _ end) as [[groups setting] follows].
  destruct (Postfix.postfix_protocols _) as [[mn mx] al]. intros [= <-]. by rewrite make_endpoint_file.
Qed.

Lemma postfix_ok reader main master dc : report_ok reader (Postfix.parse_postfix reader main master dc).
Proof.
  unfold Postfix.parse_postfix. destruct (reader main) as [mtext|] eqn:E; [|by repeat constructor].
  destruct (reader master) as [text|] eqn:E2.
  - split; [split; [constructor; [by rewrite E|constructor; [by rewrite E2|constructor]]|constructor]|].
    apply Forall_forall. intros e (s & Hs & He)%list_elem_of_omap. rewrite (service_endpoint_file _ _ _ _ _ _ He).
    apply postfix_line in Hs as [n ->]. cbn [r_files]. set_solver.
  - split; [split; [constructor; [by rewrite E|constructor]|constructor]|].
    apply Forall_forall. intros e (s & Hs & He)%list_elem_of_omap. rewrite (service_endpoint_file _ _ _ _ _ _ He).
    apply list_elem_of_singleton in Hs as ->. cbn. set_solver.
Qed.

Lemma tomcat_ok fromstring reader path :
  let r := Tomcat.parse_tomcat fromstring reader path in
  Forall (fun f => is_Some (reader f)) (r_files r) /\ from e_file (r_files r) (r_endpoints r).
Proof.
  cbv zeta. unfold Tomcat.parse_tomcat. destruct (reader path) as [text|] eqn:E; [|by repeat constructor].
  assert (Forall (fun f => is_Some (reader f)) [path]) as Hp by (constructor; [by rewrite E|constructor]).
  destruct (fromstring text) as [root|msg]; [|split; [done|constructor]]. split; [done|].
  apply Forall_forall. intros e (c & _ & He)%list_elem_of_omap. revert He. unfold Tomcat.connector_endpoint.
  destruct (negb _); [done|]. intros [= <-]. rewrite make_endpoint_file. by left.
Qed.

(** Whatever the files say and however they include each other, a
    service parser accounts for its reading: every file it lists was read,
    every file it calls unreadable could not be (Tomcat also calls a file so
    that is no XML), and every endpoint names a listed file.  nginx may fail,
    and then gives no report at all. *)
Theorem service_reports_account reader lister fromstring main master server_root paths confs dc major urls :
  report_ok reader (Apache.parse_apache reader lister main server_root) /\
  report_ok reader (Haproxy.parse_haproxy reader paths) /\
  report_ok reader (Stunnel.parse_stunnel reader lister paths dc) /\
  report_ok reader (Squid.parse_squid reader lister main) /\
  report_ok reader (Postfix.parse_postfix reader main master dc) /\
  report_ok reader (Dovecot.parse_dovecot reader lister main) /\
  report_ok reader (Postgresql.parse_postgresql reader lister confs major) /\
  report_ok reader (Mysql.parse_mysql reader lister paths) /\
  report_ok reader (Redis.parse_redis reader lister main) /\
  report_ok reader (Openldap.parse_openldap reader paths urls) /\
  report_ok reader (Dse.parse_dse_ldif reader main) /\
  (let r := Tomcat.parse_tomcat fromstring reader main in
   Forall (fun f => is_Some (reader f)) (r_files r) /\ from e_file (r_files r) (r_endpoints r)) /\
  match parse_nginx reader lister main with Ok r => report_ok reader r | Raise _ => True end.
Proof.
  split_and!; [apply apache_ok|apply haproxy_ok|apply stunnel_ok|apply squid_ok|apply postfix_ok|apply dovecot_ok
    |apply pg_ok|apply mysql_ok|apply redis_ok|apply openldap_ok|apply dse_ok|apply tomcat_ok|apply nginx_ok].
Qed.

Lemma service_reports_account_witness :
  report_ok (fun p => if String.eqb p "/etc/redis.conf" then Some "tls-port 6380" else None)
    (Redis.parse_redis (fun p => if String.eqb p "/etc/redis.conf" then Some "tls-port 6380" else None) (fun _ => []) "/etc/redis.conf").
Proof.
  destruct (service_reports_account (fun p => if String.eqb p "/etc/redis.conf" then Some "tls-port 6380" else None) (fun _ => [])
    (fun _ => inr EmptyString) "/etc/redis.conf" EmptyString EmptyString [] [] None None None) as (_ & _ & _ & _ & _ & _ & _ & _ & H & _).
  exact H.
Defined.
