(* ===== verification/SvcSpec.v ===== *)
(** * Protocol lists, ports and the services without a group option

    [_apache_protocols] and [_postfix_protocols] against their meaning, and
    what the parsers can conclude for the daemons whose groups nobody sets. *)

From stdpp Require Import sets.
From S2P Require Import Prelude PyStr PyDict PyVal PyRe PyPath Policy SvcEndpoint SvcWeb SvcMail SvcData SvcTheory.
Open Scope Z_scope.

(** ** Apache: the last word on a protocol wins *)

(** What a token of [SSLProtocol] says of the protocol [e]: nothing, to add
    it or to take it away. *)
Definition says (e tok : string) : option bool :=
  let '(plus, t) := match tok with String "-" t => (false, t) | String "+" t => (true, t) | _ => (true, tok) end in
  if String.eqb (lower t) "all" && bool_decide (e ∈ Apache.EVERY) || String.eqb (lower t) (lower e) then Some plus else None.

(** The last token that says anything of [e]. *)
Fixpoint last_word (e : string) (toks : list string) : option bool :=
  match toks with
  | [] => None
  | tok :: toks => match last_word e toks with Some b => Some b | None => says e tok end
  end.

Definition KNOWN : list string := Apache.EVERY ++ ["SSLv3"; "SSLv2"].

Lemma canon_known e : e ∈ KNOWN -> Apache.canon e = e.
Proof. unfold KNOWN. intros H. repeat (apply elem_of_cons in H as [->|H]; [by vm_compute|]). by apply not_elem_of_nil in H. Qed.

Lemma canon_lower n : lower (Apache.canon n) = lower n.
Proof.
  unfold Apache.canon. destruct (find _ _) as [e|] eqn:E; [|done]. apply find_some in E as [_ E]. by apply String.eqb_eq in E.
Qed.

(** A name is read as a known one exactly when it spells it in some case. *)
Lemma canon_eq e n : e ∈ KNOWN -> Apache.canon n = e <-> lower n = lower e.
Proof.
  intros He. split; [by intros <-; rewrite canon_lower|]. intros H. rewrite <-(canon_known e He).
  unfold Apache.canon. rewrite H. destruct (find _ _) as [x|] eqn:E; [done|].
  apply list_elem_of_In in He. apply (find_none _ _ E) in He. by rewrite String.eqb_refl in He.
Qed.

(** *** One token *)

Lemma protocols_name_spec e minus n allowed :
  e ∈ KNOWN ->
  e ∈ Apache.protocols_name minus allowed n <->
  if String.eqb (lower n) (lower e) then minus = false else e ∈ allowed.
Proof.
  intros He. unfold Apache.protocols_name, Apache.same_name.
  destruct (String.eqb_spec (lower n) (lower e)) as [Hn|Hn].
  - apply (canon_eq e n He) in Hn as ->. destruct minus.
    + split; [|done]. rewrite list_elem_of_In, filter_In, String.eqb_refl. by intros [].
    + case_bool_decide; set_solver.
  - assert (Apache.canon n <> e) as Hc by (by rewrite (canon_eq e n He)). destruct minus.
    + rewrite list_elem_of_In, filter_In, <-list_elem_of_In. split; [by intros [? _]|]. intros Ha. split; [done|].
      rewrite canon_lower. apply negb_true_iff, String.eqb_neq. congruence.
    + case_bool_decide; set_solver.
Qed.

Lemma protocols_names_spec e minus ns allowed :
  e ∈ KNOWN ->
  e ∈ foldl (Apache.protocols_name minus) allowed ns <->
  if existsb (fun n => String.eqb (lower n) (lower e)) ns then minus = false else e ∈ allowed.
Proof.
  intros He. revert allowed. induction ns as [|n ns IH]; intros allowed; cbn [foldl existsb]; [done|].
  rewrite IH. destruct (existsb _ ns); [by rewrite orb_true_r|]. rewrite protocols_name_spec by done. by rewrite orb_false_r.
Qed.

Lemma every_lower e : e ∈ KNOWN -> existsb (fun n => String.eqb (lower n) (lower e)) Apache.EVERY = bool_decide (e ∈ Apache.EVERY).
Proof. unfold KNOWN. intros H. repeat (apply elem_of_cons in H as [->|H]; [by vm_compute|]). by apply not_elem_of_nil in H. Qed.

Lemma protocols_step_spec e tok allowed :
  e ∈ KNOWN ->
  e ∈ Apache.protocols_step allowed tok <-> match says e tok with Some b => b = true | None => e ∈ allowed end.
Proof.
  intros He.
  assert (forall minus t, e ∈ foldl (Apache.protocols_name minus) allowed (if String.eqb (lower t) "all" then Apache.EVERY else [t]) <->
    match (if String.eqb (lower t) "all" && bool_decide (e ∈ Apache.EVERY) || String.eqb (lower t) (lower e)
           then Some (negb minus) else None) with Some b => b = true | None => e ∈ allowed end) as H.
  { intros minus t. rewrite protocols_names_spec by done. destruct (String.eqb_spec (lower t) "all") as [Ht|Ht].
    - rewrite every_lower by done. cbn [andb].
      assert (String.eqb (lower t) (lower e) = false) as ->.
      { rewrite Ht. unfold KNOWN in He. repeat (apply elem_of_cons in He as [->|He]; [by vm_compute|]). by apply not_elem_of_nil in He. }
      rewrite orb_false_r. destruct (bool_decide _), minus; (done || split; done).
    - cbn [existsb andb orb]. rewrite orb_false_r. destruct (String.eqb _ _), minus; (done || split; done). }
  unfold Apache.protocols_step, says. destruct tok as [|c t]; [apply (H false)|].
  destruct (ascii_dec c "-") as [->|Hm]; [apply (H true)|]. destruct (ascii_dec c "+") as [->|Hp]; [apply (H false)|].
  specialize (H false (String c t)).
  destruct c as [[] [] [] [] [] [] [] []]; first [exact H|by destruct Hm|by destruct Hp].
Qed.

Lemma last_word_app e l k :
  last_word e (l ++ k) = match last_word e k with Some b => Some b | None => last_word e l end.
Proof. induction l as [|t l IH]; cbn [last_word app]; [by destruct (last_word e k)|]. rewrite IH. by destruct (last_word e k). Qed.

(** C9: [SSLProtocol] as Apache means it, for every protocol it knows and in
    any letter case: a protocol is allowed exactly when the last token that
    speaks of it, by name or as [all], adds it. *)
Theorem apache_protocols_spec e value :
  e ∈ KNOWN -> e ∈ Apache.apache_protocols value <-> last_word e (words value) = Some true.
Proof.
  intros He. unfold Apache.apache_protocols. induction (words value) as [|tok l IH] using rev_ind; [by split; [intros ?%not_elem_of_nil|]|].
  rewrite foldl_snoc, last_word_app, protocols_step_spec by done. cbn [last_word].
  destruct (says e tok) as [b|]; [|done]. split; [by intros ->|by intros [=]].
Qed.

Lemma apache_protocols_spec_witness :
  "TLSv1.3" ∈ KNOWN /\ "TLSv1.3" ∈ Apache.apache_protocols "all -SSLv3 -tlsv1 -TLSv1.1".
Proof.
  assert ("TLSv1.3" ∈ KNOWN) as H by (apply list_elem_of_In; vm_compute; tauto). split; [exact H|].
  apply (apache_protocols_spec "TLSv1.3" _ H). vm_compute. reflexivity.
Defined.

(** ** What the daemon itself decides *)

Definition endpoints_are (Q : option bool -> Prop) (r : report) : Prop := Forall (fun e => Q (e_pqc_key_exchange e)) (r_endpoints r).

(** A group list in force decides. *)
Lemma decided a : in_force a <> None -> e_pqc_key_exchange (make_endpoint a) <> None.
Proof. intros H. destruct (make_endpoint_fields a) as (_ & _ & _ & -> & _). by intros (_ & _ & ?). Qed.

Lemma single_curve a : a_service_supports_pqc_groups a = Some false -> e_pqc_key_exchange (make_endpoint a) = Some false.
Proof.
  intros H. destruct (make_endpoint_fields a) as (_ & _ & _ & Hn & Ht).
  destruct (e_pqc_key_exchange (make_endpoint a)) as [[]|]; [|done|].
  - destruct Ht as [Ht _]. by destruct (Ht eq_refl) as (_ & ? & _).
  - destruct Hn as [Hn _]. by destruct (Hn eq_refl) as (_ & ? & _).
Qed.

Lemma no_groups a : in_force a = None -> e_pqc_key_exchange (make_endpoint a) <> Some true.
Proof.
  intros H. destruct (make_endpoint_fields a) as (_ & _ & _ & _ & ->). rewrite H. by intros (_ & _ & l & ? & _).
Qed.

Lemma in_force_default a l : a_service_default_groups a = Some l -> in_force a <> None.
Proof. unfold in_force. intros ->. by destruct (a_groups a). Qed.

Lemma one_endpoint Q files unread o :
  (forall e, o = Some e -> Q (e_pqc_key_exchange e)) -> endpoints_are Q (Report files unread (option_list o)).
Proof. intros H. destruct o as [e|]; repeat constructor. by apply H. Qed.

Lemma pg_decided reader lister confs major :
  (major < 18 -> endpoints_are (fun p => p = Some false) (Postgresql.parse_postgresql reader lister confs (Some major))) /\
  endpoints_are (fun p => p <> None) (Postgresql.parse_postgresql reader lister confs (Some major)).
Proof.
  assert (forall s e, Postgresql.pg_endpoint s (Some major) = Some e ->
            (major < 18 -> e_pqc_key_exchange e = Some false) /\ e_pqc_key_exchange e <> None) as H.
  { intros s e. unfold Postgresql.pg_endpoint. destruct (dget "ssl" s) as [[[ssl file] line]|]; [|done].
    destruct (negb _); [done|]. destruct (Z.ltb_spec major 18); intros [= <-].
    - rewrite single_curve by done. done.
    - split; [lia|]. apply decided. by eapply in_force_default. }
  split; [intros Hm|]; apply one_endpoint; intros e He; by apply (H _ _ He).
Qed.

(** What holds of a daemon whatever its files say.  PostgreSQL before 18
    is never judged capable of PQC key exchange; from 18 on, and stunnel with
    a known compiled-in list, it is always decided and never left to the
    library default.  MySQL, Redis and 389 Directory Server, which have no
    group option, are never judged capable on their own. *)
Theorem services_decided reader lister paths main major curves :
  (major < 18 -> endpoints_are (fun p => p = Some false) (Postgresql.parse_postgresql reader lister paths (Some major))) /\
  endpoints_are (fun p => p <> None) (Postgresql.parse_postgresql reader lister paths (Some major)) /\
  endpoints_are (fun p => p <> None) (Stunnel.parse_stunnel reader lister paths (Some curves)) /\
  endpoints_are (fun p => p <> Some true) (Mysql.parse_mysql reader lister paths) /\
  endpoints_are (fun p => p <> Some true) (Redis.parse_redis reader lister main) /\
  endpoints_are (fun p => p <> Some true) (Dse.parse_dse_ldif reader main).
Proof.
  destruct (pg_decided reader lister paths major) as [H1 H2]. split; [exact H1|]. split; [exact H2|]. split_and!.
  - apply Forall_forall. intros e (s & _ & He)%list_elem_of_omap. revert He. unfold Stunnel.section_endpoint.
    destruct (dget "accept" _); [|done]. destruct (negb _); [done|]. intros [= <-]. apply decided. by eapply in_force_default.
  - apply one_endpoint. intros e. unfold Mysql.mysql_endpoint.
    destruct (dget "ssl_cert" _) as [[[? ?] ?]|]; [intros [= <-]; by apply no_groups|].
    destruct (bool_decide _); [|done]. destruct (dget "ssl" _) as [[[? ?] ?]|]; [|done]. intros [= <-]. by apply no_groups.
  - apply one_endpoint. intros e. unfold Redis.redis_endpoint. destruct (dget "tls-port" _) as [[[? ?] ?]|]; [|done].
    destruct (_ && _); [|done]. intros [= <-]. by apply no_groups.
  - unfold Dse.parse_dse_ldif. destruct (reader main); [|constructor]. apply one_endpoint. intros e.
    unfold Dse.dse_endpoint. destruct (negb _); [done|]. intros [= <-]. by apply no_groups.
Qed.

Definition pg_conf : string := "ssl = on" +:+ newline +:+ "ssl_groups = 'X25519MLKEM768:X25519'" +:+ newline.
Definition one_file (name text : string) (p : string) : option string := if String.eqb p name then Some text else None.

Lemma services_decided_witness :
  16 < 18 /\
  e_pqc_key_exchange <$> r_endpoints (Postgresql.parse_postgresql (one_file "/pg.conf" pg_conf) (fun _ => []) ["/pg.conf"] (Some 16)) = [Some false] /\
  e_pqc_key_exchange <$> r_endpoints (Postgresql.parse_postgresql (one_file "/pg.conf" pg_conf) (fun _ => []) ["/pg.conf"] (Some 18)) = [Some true].
Proof.
  split; [lia|]. split; [|vm_compute; reflexivity].
  destruct (services_decided (one_file "/pg.conf" pg_conf) (fun _ => []) ["/pg.conf"] EmptyString 16 []) as [H _].
  specialize (H ltac:(lia)). unfold endpoints_are in H. revert H.
  assert (length (r_endpoints (Postgresql.parse_postgresql (one_file "/pg.conf" pg_conf) (fun _ => []) ["/pg.conf"] (Some 16))) = 1%nat) as Hl by (vm_compute; reflexivity).
  destruct (r_endpoints _) as [|e [|]]; [discriminate Hl| |discriminate Hl].
  intros H. apply Forall_inv in H. cbn. by rewrite H.
Defined.
