(* ===== verification/SvcNginxTheory.v ===== *)
(** * Theorems on the nginx parser

    The tokenizer and the statement parser invert a printer that quotes every
    word; a quoted brace is the exception.  [walk] fails on malformed
    commands only. *)

From S2P Require Import Prelude PyStr PyDict PyVal PyRe PyPath Policy SvcEndpoint SvcNginx SvcTheory.
Open Scope Z_scope.

(** ** Printing *)

Definition dq : ascii := "034".

(** A word in double quotes, with quotes and backslashes escaped. *)
Definition escape (l : list ascii) : list ascii :=
  flat_map (fun c => if Ascii.eqb c dq || Ascii.eqb c "\" then ["\"%char; c] else [c]) l.

Inductive item : Type := Word (w : string) | Punct (p : ascii).

Definition item_text (i : item) : string := match i with Word w => w | Punct p => str_of [p] end.
Definition item_chars (i : item) : list ascii :=
  match i with Word w => dq :: escape (chars w) ++ [dq; " "%char] | Punct p => [p; " "%char] end.

Fixpoint stmt_items (s : stmt) : list item :=
  let '(Stmt _ name args _ block) := s in
  (Word <$> name :: args) ++
  match block with
  | None => [Punct ";"]
  | Some b => Punct "{" :: flat_map stmt_items b ++ [Punct "}"]
  end.

Definition print_items (l : list item) : list ascii := flat_map item_chars l.
Definition print_nginx (l : list stmt) : string := str_of (print_items (flat_map stmt_items l)).

(** ** Tokens *)

Lemma quoted_escape w k line : exists n, quoted dq (escape w ++ dq :: k) line = (w, n, k).
Proof.
  revert line. induction w as [|c w IH]; intros line.
  - exists line. cbn [escape flat_map app quoted]. by rewrite Ascii.eqb_refl.
  - cbn [escape flat_map]. fold (escape w). destruct (Ascii.eqb c dq || Ascii.eqb c "\") eqn:E.
    + destruct (IH (if is_newline c then line + 1 else line)) as [n Hn]. exists n.
      cbn [app quoted]. change (Ascii.eqb "\" dq) with false. change (Ascii.eqb "\" "\") with true.
      cbv iota. by rewrite Hn.
    + apply orb_false_iff in E as [E1 E2]. destruct (IH (if is_newline c then line + 1 else line)) as [n Hn]. exists n.
      cbn [app quoted]. rewrite E1, E2. destruct (escape w ++ dq :: k) as [|d l] eqn:El; [by destruct (escape w)|].
      by rewrite Hn.
Qed.

Lemma str_length l : String.length (str_of l) = length l.
Proof. induction l as [|c l IH]; [done|]. cbn. by rewrite IH. Qed.

Definition is_punct_item (i : item) : Prop := match i with Word _ => True | Punct p => is_punct p = true end.

Lemma lex_space fuel l line : lex (S fuel) (" "%char :: l) line = lex fuel l line.
Proof. done. Qed.

Lemma lex_items l fuel line :
  Forall is_punct_item l -> (length (print_items l) <= fuel)%nat -> (lex fuel (print_items l) line).*1 = item_text <$> l.
Proof.
  intros Hl. revert fuel line. induction Hl as [|i l Hi Hl IH]; intros fuel line Hf; [by destruct fuel|].
  unfold print_items in *. cbn [flat_map] in *. fold (print_items l) in *. destruct i as [w|p]; cbn [item_chars] in *.
  - rewrite length_app in Hf. cbn [length] in Hf. rewrite length_app in Hf. cbn [length] in Hf.
    destruct fuel as [|[|fuel]]; [lia..|].
    replace ((dq :: escape (chars w) ++ [dq; " "%char]) ++ print_items l) with (dq :: (escape (chars w) ++ dq :: " "%char :: print_items l))
      by (cbn [app]; by rewrite <-app_assoc).
    destruct (quoted_escape (chars w) (" "%char :: print_items l) line) as [n Hn].
    change (lex (S (S fuel)) (dq :: ?l) line) with (let '(w, n, k) := quoted dq l line in (str_of w, n) :: lex (S fuel) k n).
    rewrite Hn, lex_space. cbn [fmap list_fmap fst item_text]. rewrite str_of_chars. f_equal. apply IH. lia.
  - cbn [app length] in *. destruct fuel as [|[|fuel]]; [lia..|].
    assert (lex (S (S fuel)) (p :: " "%char :: print_items l) line = (str_of [p], line) :: lex (S fuel) (" "%char :: print_items l) line) as ->.
    { unfold is_punct_item in Hi. revert Hi. cbn [lex]. unfold is_punct, char_in.
      destruct p as [[] [] [] [] [] [] [] []]; done. }
    rewrite lex_space. cbn [fmap list_fmap fst item_text]. f_equal. apply IH. lia.
Qed.

(** ** Statements *)

(** A statement without its lines and files, which the text does not show. *)
Fixpoint erase (s : stmt) : stmt :=
  let '(Stmt _ name args _ block) := s in Stmt EmptyString name args 0 (map erase <$> block).

Definition PUNCTS : list string := [";"; "{"; "}"].

(** No word of the statement is one of the three punctuation marks. *)
Fixpoint proper (s : stmt) : Prop :=
  let '(Stmt _ name args _ block) := s in
  Forall (fun w => w ∉ PUNCTS) (name :: args) /\
  match block with Some b => foldr (fun s P => proper s /\ P) True b | None => True end.

Lemma foldr_proper l : foldr (fun s P => proper s /\ P) True l <-> Forall proper l.
Proof. induction l as [|s l IH]; cbn [foldr]; [by split|]. by rewrite Forall_cons, IH. Qed.

Definition prepend (l : list stmt) (p : list stmt * list token) : list stmt * list token := (l ++ p.1, p.2).

Lemma not_punct w : w ∉ PUNCTS -> String.eqb w ";" = false /\ String.eqb w "{" = false /\ String.eqb w "}" = false.
Proof. unfold PUNCTS. rewrite !not_elem_of_cons, !String.eqb_neq. naive_solver. Qed.

(** Words are collected, one unit of fuel each. *)
Lemma statements_words ws k fuel cur :
  Forall (fun w => w ∉ PUNCTS) ws.*1 -> (length (ws ++ k) <= fuel)%nat ->
  exists fuel', (length k <= fuel')%nat /\ statements fuel (ws ++ k) cur = statements fuel' k (cur ++ ws).
Proof.
  revert fuel cur. induction ws as [|[w n] ws IH]; intros fuel cur Hw Hf.
  - exists fuel. by rewrite app_nil_r.
  - cbn [fmap list_fmap fst] in Hw. apply Forall_cons in Hw as [H1 H2]. cbn [app length] in Hf. destruct fuel as [|fuel]; [lia|].
    destruct (IH fuel (cur ++ [(w, n)]) H2) as (f' & Hf' & E); [lia|]. exists f'. split; [done|].
    destruct (not_punct w H1) as (E1 & E2 & E3). cbn [app statements]. rewrite E1, E2, E3, E. by rewrite <-app_assoc.
Qed.

(** What [statements] makes of tokens that print [s], whatever follows. *)
Definition reads (s : stmt) : Prop :=
  forall toks k fuel, toks.*1 = item_text <$> stmt_items s -> (length (toks ++ k) <= fuel)%nat ->
  exists s' fuel', erase s' = erase s /\ (length k <= fuel')%nat /\
    statements fuel (toks ++ k) [] = prepend [s'] (statements fuel' k []).

Lemma reads_list l : Forall reads l -> forall toks k fuel,
  toks.*1 = item_text <$> flat_map stmt_items l -> (length (toks ++ k) <= fuel)%nat ->
  exists l' fuel', map erase l' = map erase l /\ (length k <= fuel')%nat /\
    statements fuel (toks ++ k) [] = prepend l' (statements fuel' k []).
Proof.
  induction 1 as [|s l Hs Hl IH]; intros toks k fuel Ht Hf.
  - apply fmap_nil_inv in Ht as ->. exists [], fuel. split; [done|]. split; [done|]. unfold prepend. by destruct (statements _ _ _).
  - cbn [flat_map] in Ht. rewrite fmap_app in Ht. apply fmap_app_inv in Ht as (t1 & t2 & H1 & H2 & ->).
    rewrite <-app_assoc in Hf |- *.
    destruct (Hs t1 (t2 ++ k) fuel (eq_sym H1) Hf) as (s' & f1 & Es & Hf1 & ->).
    destruct (IH t2 k f1 (eq_sym H2) Hf1) as (l' & f2 & El & Hf2 & ->).
    exists (s' :: l'), f2. cbn [map]. rewrite Es, El. done.
Qed.

Lemma item_words (ws : list string) : item_text <$> (Word <$> ws) = ws.
Proof. induction ws as [|w ws IH]; [done|]. cbn. by rewrite IH. Qed.

Lemma cons_fst (toks : list token) x l : toks.*1 = x :: l -> exists n t, toks = (x, n) :: t /\ t.*1 = l.
Proof. destruct toks as [|[y n] t]; [done|]. intros [= -> H]. by exists n, t. Qed.

Lemma stmt_reads s : proper s -> reads s.
Proof.
  induction s as [f name args line block IH] using stmt_ind'. intros [Hw Hb] toks k fuel Ht Hf.
  cbn [stmt_items] in Ht. rewrite fmap_app, item_words in Ht. apply fmap_app_inv in Ht as (ws & tb & Ews & Etb & ->).
  rewrite <-app_assoc in Hf |- *. destruct (statements_words ws (tb ++ k) fuel []) as (f1 & Hf1 & ->); [by rewrite <-Ews|done|].
  symmetry in Ews. apply cons_fst in Ews as (n & wt & -> & Eargs). cbn [app].
  destruct block as [b|].
  - symmetry in Etb. cbn [fmap list_fmap] in Etb. apply cons_fst in Etb as (m & tb' & -> & Etb).
    rewrite fmap_app in Etb. apply fmap_app_inv in Etb as (tin & tend & Ein & Eend & ->).
    symmetry in Eend. apply cons_fst in Eend as (e & nil_ & -> & Enil). apply fmap_nil_inv in Enil as ->.
    cbn [app length] in Hf1. destruct f1 as [|f1]; [lia|]. cbn [app statements item_text]. cbv [String.eqb]. cbn.
    assert (Forall reads b) as Hr.
    { apply foldr_proper in Hb. clear -IH Hb. induction Hb as [|s b H1 H2 IHb]; [constructor|].
      apply Forall_cons in IH as [I1 I2]. constructor; auto. }
    rewrite <-app_assoc. cbn [app]. destruct (reads_list b Hr tin (("}", e) :: k) f1 (eq_sym Ein)) as (b' & f2 & Eb & Hf2 & ->).
    { revert Hf1. rewrite <-app_assoc. cbn. lia. }
    cbn [length] in Hf2. destruct f2 as [|f2]; [lia|]. cbn [statements]. change (String.eqb "}" ";") with false.
    change (String.eqb "}" "{") with false. change (String.eqb "}" "}") with true. cbv iota. cbn [prepend fst snd].
    rewrite app_nil_r. exists (Stmt EmptyString name wt.*1 n (Some b')), f1.
    split; [cbn [erase]; rewrite Eargs; cbn; by rewrite Eb|]. split; [revert Hf1; rewrite !length_app; cbn; lia|].
    unfold prepend. by destruct (statements f1 k []).
  - symmetry in Etb. cbn [fmap list_fmap] in Etb. apply cons_fst in Etb as (m & nil_ & -> & Enil). apply fmap_nil_inv in Enil as ->.
    cbn [app length] in Hf1. destruct f1 as [|f1]; [lia|]. cbn [app statements item_text]. cbv [String.eqb]. cbn.
    exists (Stmt EmptyString name wt.*1 n None), f1. split; [cbn [erase]; by rewrite Eargs|]. split; [lia|].
    unfold prepend. by destruct (statements f1 k []).
Qed.

(** C8: The nginx tokenizer and statement parser invert the printer, up to
    line numbers, for any tree of statements whose words are arbitrary text
    (spaces, quotes, backslashes, line breaks, comment signs) but not exactly
    one of the three punctuation marks. *)
Theorem nginx_roundtrip l :
  Forall proper l -> map erase (nginx_statements (nginx_tokens (print_nginx l))) = map erase l.
Proof.
  intros Hl. unfold nginx_statements, nginx_tokens, print_nginx.
  set (toks := lex _ _ 1). assert (toks.*1 = item_text <$> flat_map stmt_items l) as Ht.
  { unfold toks. rewrite chars_str_of. apply lex_items.
    - apply Forall_forall. intros i Hi. clear -Hi. revert i Hi.
      assert (forall s i, i ∈ stmt_items s -> is_punct_item i) as H.
      { intros s. induction s as [f n a ln b IH] using stmt_ind'. intros i. cbn [stmt_items]. rewrite elem_of_app.
        intros [(w & -> & _)%list_elem_of_fmap|Hi]; [done|]. destruct b as [b|]; [|by apply list_elem_of_singleton in Hi as ->].
        apply elem_of_cons in Hi as [->|Hi]; [done|]. apply elem_of_app in Hi as [Hi|Hi]; [|by apply list_elem_of_singleton in Hi as ->].
        apply list_elem_of_In, in_flat_map in Hi as (s & Hs & Hi). rewrite Forall_forall in IH.
        apply (IH s); by apply list_elem_of_In. }
      intros i Hi. apply list_elem_of_In, in_flat_map in Hi as (s & _ & Hi). apply (H s). by apply list_elem_of_In.
    - rewrite str_length. done. }
  destruct (reads_list l (Forall_impl _ _ _ Hl stmt_reads) toks [] (length toks) Ht) as (l' & f & El & _ & E).
  { by rewrite app_nil_r. }
  rewrite app_nil_r in E. rewrite E. cbn [prepend fst]. destruct f; cbn; by rewrite app_nil_r.
Qed.

Definition sample_conf : list stmt := [
  Stmt EmptyString "http" [] 0 (Some [
    Stmt EmptyString "add_header" ["X-Quote"; "a \ b; # {}"] 0 None;
    Stmt EmptyString "server" [] 0 (Some [Stmt EmptyString "listen" ["443"; "ssl"] 0 None])])].

Lemma nginx_roundtrip_witness :
  Forall proper sample_conf /\ map erase (nginx_statements (nginx_tokens (print_nginx sample_conf))) = sample_conf.
Proof.
  assert (Forall proper sample_conf) as H.
  { repeat constructor; unfold PUNCTS; rewrite !not_elem_of_cons; (split_and!; [discriminate..|apply not_elem_of_nil]). }
  split; [exact H|]. rewrite (nginx_roundtrip sample_conf H). reflexivity.
Defined.

(** ** A quoted brace *)

Definition brace_line : string := "add_header X-End '}'; ".
Definition plain_line : string := "add_header X-End '.'; ".
Definition tls_server : string := "http { server { listen 443 ssl; } }".

(** A quoted word that is exactly [}] closes a block.  At the top of a
    file everything after it is lost, whatever it is, and the TLS server of
    the sample is not reported, while nginx reads it like any other value. *)
Theorem nginx_quoted_brace :
  (forall rest, nginx_statements (nginx_tokens (brace_line +:+ rest)) = []) /\
  (forall reader lister main rest, reader main = Some (brace_line +:+ rest) ->
     parse_nginx reader lister main = Ok (Report [main] [] [])) /\
  (exists e, parse_nginx (fun _ => Some (plain_line +:+ tls_server)) (fun _ => []) "nginx.conf" = Ok (Report ["nginx.conf"] [] [e]) /\
     e_ports e = [443]).
Proof.
  assert (forall rest, nginx_statements (nginx_tokens (brace_line +:+ rest)) = []) as H by done.
  split; [exact H|]. split.
  - intros reader lister main rest Hr. unfold parse_nginx.
    assert (nginx_load reader lister MAX_INCLUDE_DEPTH (dirname main) main (Loaded [] [] []) = Loaded [main] [] []) as ->; [|done].
    unfold MAX_INCLUDE_DEPTH. cbn [nginx_load]. unfold fetch at 1. rewrite Hr, H. done.
  - eexists. split; [vm_compute; reflexivity|reflexivity].
Qed.

Lemma nginx_quoted_brace_witness :
  (exists e, parse_nginx (fun _ => Some (plain_line +:+ tls_server)) (fun _ => []) "nginx.conf" = Ok (Report ["nginx.conf"] [] [e])) /\
  parse_nginx (fun _ => Some (brace_line +:+ tls_server)) (fun _ => []) "nginx.conf" = Ok (Report ["nginx.conf"] [] []).
Proof.
  destruct nginx_quoted_brace as (_ & H & e & He & _). split; [exists e; exact He|].
  apply (H _ (fun _ => []) "nginx.conf" tls_server). reflexivity.
Defined.

(** ** Malformed commands *)

(** Every [ssl_conf_command] has its two arguments. *)
Definition command_ok (s : stmt) : Prop := s_name s = "ssl_conf_command" -> (2 <= length (s_args s))%nat.
Fixpoint commands_ok (s : stmt) : Prop :=
  command_ok s /\ match s_block s with Some b => foldr (fun s P => commands_ok s /\ P) True b | None => True end.

Lemma foldr_commands l : foldr (fun s P => commands_ok s /\ P) True l <-> Forall commands_ok l.
Proof. induction l as [|s l IH]; cbn [foldr]; [by split|]. by rewrite Forall_cons, IH. Qed.

Lemma commands_ok_block f n a ln b : commands_ok (Stmt f n a ln (Some b)) -> Forall commands_ok b.
Proof. intros [_ H]. by apply foldr_commands. Qed.

Lemma commands_ok_self s : commands_ok s -> command_ok s.
Proof. destruct s as [f n a ln b]. by intros [? _]. Qed.

Definition no_bad (st : ng_settings) : Prop := match ng_cmds st with Some (BadCmds _) => False | _ => True end.

Lemma ng_setting_ok st s : no_bad st -> command_ok s -> exists st', ng_setting st s = Ok st' /\ no_bad st'.
Proof.
  destruct st as [pr ci cu ce cm ss]. unfold no_bad, command_ok, ng_setting. cbn [ng_cmds]. intros Hb Hs.
  destruct (String.eqb (s_name s) "ssl_certificate"); [by eexists|].
  destruct (String.eqb_spec (s_name s) "ssl_conf_command") as [E|_].
  - specialize (Hs E). destruct (s_args s) as [|k [|v args]]; cbn [length] in Hs; [lia..|].
    destruct cm as [[d|]|]; [|done|]; by eexists.
  - repeat (destruct (String.eqb (s_name s) _); [by eexists|]). by eexists.
Qed.

Lemma settings_of_ok l st : no_bad st -> Forall command_ok l -> exists st', settings_of l st = Ok st' /\ no_bad st'.
Proof.
  intros Hb Hl. unfold settings_of. revert st Hb. induction Hl as [|s l Hs Hl IH]; intros st Hb; cbn [foldM]; [by exists st|].
  destruct (ng_setting_ok st s Hb Hs) as (st' & -> & Hb'). cbn [mbind res_bind]. by apply IH.
Qed.

Lemma server_ok s b st ctx : no_bad st -> is_ok (server s b st ctx) = true.
Proof.
  unfold no_bad, server. intros Hb. case_bool_decide; [done|]. destruct (cmd_groups _ _).
  destruct (ng_cmds st) as [[d|]|]; done.
Qed.

Lemma ng_walk_ok fuel l st ctx : no_bad st -> Forall commands_ok l -> is_ok (ng_walk fuel l st ctx) = true.
Proof.
  revert l st ctx. induction fuel as [|fuel IH]; intros l st ctx Hb Hl; cbn [ng_walk]; [done|].
  destruct (settings_of_ok l st Hb) as (st' & -> & Hb'); [eapply Forall_impl; [exact Hl|apply commands_ok_self]|].
  cbn [mbind res_bind]. match goal with |- is_ok (mapM ?f l ≫= _) = true => assert (exists eps, mapM f l = Ok eps) as [eps ->] end; [|done].
  induction Hl as [|s l Hs Hl IHl]; [by eexists|].
  assert (forall {A B} (f : A -> res B) x k, is_ok (f x) = true -> (exists ys, mapM f k = Ok ys) -> exists ys, mapM f (x :: k) = Ok ys) as Hcons.
  { intros A B f x k Hx [ys Hk]. destruct (f x) as [y|] eqn:E; [|done]. exists (y :: ys). apply mapM_cons_ok. by exists y, ys. }
  apply Hcons; [|exact IHl]. destruct s as [f n a ln [b|]]; [|done]. cbn [s_block s_name].
  apply commands_ok_block in Hs. destruct (bool_decide (n ∈ CONTEXTS)); [by apply IH|]. destruct (_ && _); [|done].
  destruct (settings_of_ok b st' Hb') as (st2 & -> & Hb2); [eapply Forall_impl; [exact Hs|apply commands_ok_self]|].
  cbn [mbind res_bind]. by apply server_ok.
Qed.

Definition nginx_tree (reader : string -> option string) (lister : string -> list string) (main : string) : list stmt :=
  l_data (nginx_load reader lister MAX_INCLUDE_DEPTH (dirname main) main (Loaded [] [] [])).

(** [parse_nginx] reports on every tree of files in which each
    [ssl_conf_command] has its two arguments; one with a single argument in
    a TLS server makes the whole parse fail with an AttributeError. *)
Theorem nginx_errors reader lister main :
  (Forall commands_ok (nginx_tree reader lister main) -> is_ok (parse_nginx reader lister main) = true) /\
  parse_nginx (fun _ => Some "http { server { listen 443 ssl; ssl_conf_command Groups; } }") lister main = Raise AttributeError.
Proof.
  split; [|vm_compute; reflexivity]. unfold nginx_tree, parse_nginx.
  generalize (nginx_load reader lister MAX_INCLUDE_DEPTH (dirname main) main (Loaded [] [] [])) as st. intros st Hst.
  pose proof (ng_walk_ok (walk_fuel (l_data st)) (l_data st) no_settings "main" I Hst) as H.
  by destruct (ng_walk _ _ _ _).
Qed.

Lemma nginx_errors_witness :
  Forall commands_ok (nginx_tree (fun _ => Some tls_server) (fun _ => []) "nginx.conf") /\
  is_ok (parse_nginx (fun _ => Some tls_server) (fun _ => []) "nginx.conf") = true.
Proof.
  assert (Forall commands_ok (nginx_tree (fun _ => Some tls_server) (fun _ => []) "nginx.conf")) as H.
  { vm_compute. repeat constructor; discriminate. }
  split; [exact H|]. destruct (nginx_errors (fun _ => Some tls_server) (fun _ => []) "nginx.conf") as [Hok _]. exact (Hok H).
Defined.
