(* ===== verification/SvcScan.v ===== *)
(** * The service configuration scan ([detect/config_services.py])

    From the files of a host to the [service_tls_config] object of the
    report: which files each parser is given, compiled-in defaults, config
    files named on a command line, and the summary.  The queries on the host
    are a record. *)

From stdpp Require Import sets.
From S2P Require Import Prelude PyStr PyDict PyVal PyRe PyPath Policy Services SvcEndpoint SvcNginx SvcWeb SvcMail SvcData SvcTheory.
Open Scope Z_scope.
Definition MAX_CONFIG_BYTES : Z := 1024 * 1024.
Definition MAX_GLOB_RESULTS : nat := 500.

(** What the scan asks of a host.  [h_file]: the size of a regular file and
    its text, where it can be read; [h_probe]: why a path cannot be read;
    [h_glob]: [None] where the search fails; [h_binary]: the bytes of a
    regular file that could be read; [h_version]: the packaged version of a
    service. *)
Record host := Host {
  h_present : string -> bool; h_probe : string -> option string;
  h_file : string -> option (Z * option string); h_glob : string -> option (list string);
  h_binary : string -> option string; h_version : string -> option string;
  h_is_dir : string -> bool; h_cmdline : Z -> list string;
  h_xml : string -> Tomcat.elem + string }.

(** A service of the report: [sv_pre] and [sv_post] are the keys before and
    after those of the parser. *)
Record svc := Svc {
  sv_name : string; sv_pre : list (string * value); sv_files : list string;
  sv_unreadable : list (string * string); sv_endpoints : list endpoint; sv_post : list (string * value) }.

Definition unreadable_value (u : string * string) : value := VDict [("path", VStr u.1); ("reason", VStr u.2)].
Definition svc_value (s : svc) : value :=
  VDict ((("service", VStr (sv_name s)) :: sv_pre s) ++
         [("files", VStrs (sv_files s)); ("unreadable", VList (unreadable_value <$> sv_unreadable s));
          ("endpoints", VList (endpoint_value <$> sv_endpoints s))] ++ sv_post s).

Definition of_report (name : string) (pre : list (string * value)) (r : report) : svc :=
  Svc name pre (r_files r) (r_unreadable r) (r_endpoints r) [].
Definition add_post (l : list (string * value)) (s : svc) : svc :=
  Svc (sv_name s) (sv_pre s) (sv_files s) (sv_unreadable s) (sv_endpoints s) (sv_post s ++ l).

(** ** Versions *)

Definition VTUPLE_RE : re :=
  RSeqs [ROpt (RSeq (RPlus Digit) (RLit ":")); RGrp 1 (RPlus Digit); ROpt (RSeq (RLit ".") (RGrp 2 (RPlus Digit)));
         ROpt (RSeq (RLit ".") (RGrp 3 (RPlus Digit)))].
Definition vtuple (v : option string) : option (list Z) :=
  match sor v None with
  | None => None
  | Some v =>
      (fun m => omap (fun n => (fun g => digits_val (chars g)) <$> group n m) [1%nat; 2%nat; 3%nat]) <$> re_match VTUPLE_RE v
  end.

(** Python's [<] on tuples of integers. *)
Fixpoint tuple_lt (a b : list Z) : bool :=
  match a, b with
  | _, [] => false
  | [], _ :: _ => true
  | x :: a, y :: b => (x <? y) || ((x =? y) && tuple_lt a b)
  end.

Definition POSTFIX_MLKEM_DEFAULT_VERSION : list Z := [3; 11].
Definition postfix_default_curves (version : option string) (openssl_pqc : option bool) : option (list string) :=
  match vtuple version with
  | None => None
  | Some vt =>
      if negb (tuple_lt (take 2 vt) POSTFIX_MLKEM_DEFAULT_VERSION) && bool_decide (openssl_pqc = Some true)
      then Some ["X25519MLKEM768"; "DEFAULT"] else Some Postfix.POSTFIX_CLASSICAL_DEFAULT
  end.

Section Scan.
Context (h : host).

(** ** Files *)

Definition read_text (path : string) : option string :=
  match h_file h path with
  | Some (size, text) => if MAX_CONFIG_BYTES <? size then None else text
  | None => None
  end.

Definition read_error (path : string) : option string :=
  if negb (h_present h path) then None
  else match h_probe h path with
       | Some reason => Some reason
       | None => match h_file h path with
                 | Some (size, _) => if MAX_CONFIG_BYTES <? size
                                     then Some ("larger than " +:+ show_Z MAX_CONFIG_BYTES +:+ " bytes; skipped") else None
                 | None => None
                 end
       end.

(** One entry of [unreadable]: a missing path, or an entry with the precise reason. *)
Definition sort_entry (acc : list (string * string) * list string) (u : string * string) : list (string * string) * list string :=
  let '(path, reason) := u in
  if non_empty path && negb (h_present h path) then (acc.1, acc.2 ++ [path])
  else
    let precise := if non_empty path then read_error path else None in
    (acc.1 ++ [(path, default reason (sor precise None))], acc.2).
Definition sort_unreadable (s : svc) : svc :=
  if sv_unreadable s is [] then s
  else
    let '(unreadable, missing) := foldl sort_entry ([], []) (sv_unreadable s) in
    Svc (sv_name s) (sv_pre s) (sv_files s) unreadable (sv_endpoints s)
      (sv_post s ++ (if missing is [] then [] else [("missing", VStrs missing)])).

Definition list_glob (pattern : string) : list string := take MAX_GLOB_RESULTS (default [] (h_glob h pattern)).

Definition first_present (paths : list string) : option string := find (h_present h) paths.

(** ** Compiled-in defaults *)

Definition STUNNEL_BINARIES : list string := ["/usr/bin/stunnel"; "/usr/bin/stunnel4"; "/usr/sbin/stunnel"].
Definition STUNNEL_DEFAULT_RE : re :=
  RSeqs [ROpt (RLit "X25519MLKEM768:"); RLit "X25519:P-256:"; ROpt (RLit "X448:"); RLit "P-521:P-384"].

Fixpoint stunnel_default (binaries : list string) : option (list string) * option string :=
  match binaries with
  | [] => (None, None)
  | b :: binaries =>
      match h_binary h b with
      | None => stunnel_default binaries
      | Some data => (split ":" ∘ m_text <$> re_search STUNNEL_DEFAULT_RE data, Some b)
      end
  end.
Definition stunnel_default_curves : option (list string) * option string := stunnel_default STUNNEL_BINARIES.

Definition PG_PATH_RE : re := RSeqs [RLit "/etc/postgresql/"; RGrp 1 (RPlus Digit); RLit "/"].
Definition pg_major (conf : string) : option Z :=
  match re_search PG_PATH_RE conf with
  | Some m => Some (digits_val (chars (group_or 1 m)))
  | None =>
      let text := strip (default EmptyString (read_text (path_join (dirname conf) "PG_VERSION"))) in
      if isdigit text then Some (digits_val (chars text))
      else vtuple (h_version h "postgresql") ≫= head
  end.

(** ** The scanners *)

Definition scan_nginx : res (list svc) :=
  match first_present ["/etc/nginx/nginx.conf"] with
  | None => Ok []
  | Some main => r ← parse_nginx read_text list_glob main; Ok [of_report "nginx" [] r]
  end.

Definition APACHE_MAINS : list (string * string) :=
  [("/etc/httpd/conf/httpd.conf", "/etc/httpd"); ("/etc/apache2/apache2.conf", "/etc/apache2");
   ("/etc/apache2/httpd.conf", "/etc/apache2")].
Definition scan_apache : list svc :=
  match find (fun mr => h_present h mr.1) APACHE_MAINS with
  | Some (main, root) => [of_report "apache" [] (Apache.parse_apache read_text list_glob main root)]
  | None => []
  end.

(** [_merge_paths] and [_with_running]. *)
Definition merge_paths (paths extra : list string) : list string :=
  foldl (fun out p => if bool_decide (p ∈ out) then out else out ++ [p]) paths extra.
Definition with_running (s : svc) (paths extra : list string) : svc :=
  match List.filter (fun p => bool_decide (p ∈ paths)) extra with
  | [] => s
  | used => add_post [("config_from_command_line", VStrs used)] s
  end.

Definition scan_haproxy (extra : list string) : list svc :=
  let paths := List.filter (h_present h) ["/etc/haproxy/haproxy.cfg"] ++ list_glob "/etc/haproxy/conf.d/*.cfg" in
  let paths := merge_paths paths extra in
  if paths is [] then []
  else [with_running (of_report "haproxy" [] (Haproxy.parse_haproxy read_text paths)) paths extra].

Definition scan_stunnel (extra : list string) : list svc :=
  let paths := merge_paths (list_glob "/etc/stunnel/*.conf") extra in
  if paths is [] then []
  else
    let '(dflt, binary) := stunnel_default_curves in
    let r := Stunnel.parse_stunnel read_text list_glob paths dflt in
    [with_running (of_report "stunnel" [("default_groups_from", match dflt with Some _ => of_ostr binary | None => VNone end)] r)
       paths extra].

Definition scan_squid : list svc :=
  match first_present ["/etc/squid/squid.conf"] with
  | Some main => [of_report "squid" [] (Squid.parse_squid read_text list_glob main)]
  | None => []
  end.

Definition scan_postfix (openssl_pqc : option bool) : list svc :=
  if negb (h_present h "/etc/postfix/main.cf") then []
  else
    let version := h_version h "postfix" in
    [of_report "postfix" [("version", of_ostr version)]
       (Postfix.parse_postfix read_text "/etc/postfix/main.cf" "/etc/postfix/master.cf"
          (postfix_default_curves version openssl_pqc))].

Definition scan_dovecot : list svc :=
  match first_present ["/etc/dovecot/dovecot.conf"] with
  | Some main => [of_report "dovecot" [] (Dovecot.parse_dovecot read_text list_glob main)]
  | None => []
  end.

(** A service none of whose files can be seen, from the first directory that says why. *)
Definition unseen (name : string) (dirs : list string) : list svc :=
  match omap (fun d => (fun e => (d, e)) <$> sor (read_error d) None) dirs with
  | u :: _ => [Svc name [] [] [u] [] []]
  | [] => []
  end.

Definition PG_CONF_GLOBS : list string :=
  ["/etc/postgresql/*/*/postgresql.conf"; "/var/lib/pgsql/data/postgresql.conf"; "/var/lib/pgsql/*/data/postgresql.conf";
   "/var/lib/postgresql/data/postgresql.conf"].
Definition PG_DATA_DIRS : list string := ["/var/lib/pgsql/data"; "/var/lib/pgsql"; "/var/lib/postgresql"].

Definition scan_pg_conf (conf : string) : svc :=
  let major := pg_major conf in
  of_report "postgresql"
    [("version", match major with Some m => if m =? 0 then VNone else VStr (show_Z m) | None => VNone end)]
    (Postgresql.parse_postgresql read_text list_glob [conf; path_join (dirname conf) "postgresql.auto.conf"] major).
Definition scan_postgresql : list svc :=
  match concat (list_glob <$> PG_CONF_GLOBS) with
  | [] => unseen "postgresql" PG_DATA_DIRS
  | confs => scan_pg_conf <$> confs
  end.

Definition scan_mysql : list svc :=
  match List.filter (h_present h) ["/etc/my.cnf"; "/etc/mysql/my.cnf"; "/etc/mysql/mariadb.cnf"] with
  | [] => []
  | mains => [of_report "mysql" [] (Mysql.parse_mysql read_text list_glob mains)]
  end.

Definition REDIS_MAINS : list string :=
  ["/etc/redis/redis.conf"; "/etc/redis.conf"; "/etc/valkey/valkey.conf"; "/etc/redis/default.conf"; "/etc/valkey/default.conf"].
Definition scan_redis : list svc :=
  (fun main => of_report "redis" [] (Redis.parse_redis read_text list_glob main)) <$> List.filter (h_present h) REDIS_MAINS.

Definition quote_ : ascii := "034".
Definition LDAP_URLS_RE : re :=
  RSeqs [Bol; RStar true Space; RAlt (RLit "SLAPD_URLS") (RLit "OPENLDAP_START_LDAPS"); RStar true Space; RLit "=";
         RStar true Space; ROpt (RChr (Ascii.eqb quote_)); RGrp 1 (RStar true (RChr (fun c => negb (Ascii.eqb c quote_ || Ascii.eqb c "010"))))].
(** The last of the three environment files that says anything counts. *)
Definition ldap_urls (urls : option string) (env : string) : option string :=
  match sor (read_text env) None with
  | Some text =>
      match re_search LDAP_URLS_RE text with
      | Some m => let v := group_or 1 m in
                  Some (if contains "URLS" (m_text m) then v
                        else if String.eqb (lower v) "yes" then "ldaps://" else EmptyString)
      | None => urls
      end
  | None => urls
  end.
Definition scan_openldap : list svc :=
  match List.filter (h_present h) ["/etc/openldap/slapd.d/cn=config.ldif"; "/etc/ldap/slapd.d/cn=config.ldif";
                                   "/etc/openldap/slapd.conf"; "/etc/ldap/slapd.conf"] with
  | [] => unseen "openldap" ["/etc/openldap/slapd.d"; "/etc/ldap/slapd.d"]
  | paths =>
      let urls := foldl ldap_urls None ["/etc/sysconfig/slapd"; "/etc/default/slapd"; "/etc/sysconfig/openldap"] in
      [of_report "openldap" [] (Openldap.parse_openldap read_text paths urls)]
  end.

Definition scan_389ds : list svc :=
  (fun dse => of_report "389-ds" [] (Dse.parse_dse_ldif read_text dse)) <$> list_glob "/etc/dirsrv/slapd-*/dse.ldif".

Definition scan_tomcat : list svc :=
  foldl (fun out path =>
    if existsb (fun o => bool_decide (sv_files o = [path])) out then out
    else out ++ [of_report "tomcat" [] (Tomcat.parse_tomcat (h_xml h) read_text path)])
    [] (concat (list_glob <$> ["/etc/tomcat/server.xml"; "/etc/tomcat*/server.xml"])).

(** ** Files named on a command line *)

(** [-f path], [-fpath]; for stunnel the first word that is no option. *)
Definition joined_flag (a : string) : list string :=
  if starts_with "-f" a && (2 <? String.length a)%nat then [remove_prefix "-f" a] else [].
Fixpoint haproxy_files (argv : list string) : list string :=
  match argv with
  | [] => []
  | a :: rest =>
      match rest with
      | p :: rest' => if String.eqb a "-f" then p :: haproxy_files rest' else joined_flag a ++ haproxy_files rest
      | [] => joined_flag a
      end
  end.
Fixpoint stunnel_file (argv : list string) : list string :=
  match argv with
  | [] => []
  | a :: rest => if String.eqb a "-fd" then [] else if starts_with "-" a then stunnel_file rest else [a]
  end.
Definition config_paths_from_cmdline (service : string) (argv : list string) : list string :=
  List.filter (starts_with "/")
    (if String.eqb service "haproxy" then haproxy_files (tail argv)
     else if String.eqb service "stunnel" then stunnel_file (tail argv) else []).

Definition CMDLINE_SERVICES : list string := ["haproxy"; "stunnel"].

(** [isinstance(pid, int)]: booleans are integers. *)
Definition pid_of (v : value) : option Z :=
  match v with VInt n => Some n | VBool b => Some (if b then 1 else 0) | _ => None end.

(** The pids seen and the files of each service so far. *)
Definition running := (list Z * list (string * list string))%type.
Definition add_file (name : string) (out : list (string * list string)) (f : string) : list (string * list string) :=
  let l := default [] (dget name out) in
  dset name (if bool_decide (f ∈ l) then l else l ++ [f]) out.
Definition add_path (name : string) (out : list (string * list string)) (path : string) : list (string * list string) :=
  foldl (add_file name) out (if h_is_dir h path then list_glob (rstrip_by is_slash path +:+ "/*.cfg") else [path]).
Definition running_step (st : running) (lst : value) : res running :=
  pid ← get "pid" lst;
  name ← service_for_listener lst;
  match pid_of pid, name with
  | Some pid, Some name =>
      if bool_decide (pid ∈ st.1) || negb (bool_decide (name ∈ CMDLINE_SERVICES)) then Ok st
      else Ok (pid :: st.1, foldl (add_path name) st.2 (config_paths_from_cmdline name (h_cmdline h pid)))
  | _, _ => Ok st
  end.
Definition running_config_paths (services_info : value) : res (list (string * list string)) :=
  l ← get_l "listeners" (por services_info (VDict []));
  st ← foldM running_step ([], []) l;
  Ok st.2.

(** ** The scan *)

Definition openssl_pqc_of (openssl : value) : res (option bool) :=
  let o := por openssl (VDict []) in
  native ← get "pqc_native" o;
  if negb (is_none native) then Ok (Some (truthy native))
  else
    expected ← get "pqc_native_expected" o;
    Ok (if is_none expected then None else Some (truthy expected)).

Definition SCANNERS (openssl_pqc : option bool) (extra : string -> list string) : list (string * res (list svc)) := [
  ("nginx", scan_nginx); ("apache", Ok scan_apache); ("haproxy", Ok (scan_haproxy (extra "haproxy")));
  ("stunnel", Ok (scan_stunnel (extra "stunnel"))); ("squid", Ok scan_squid); ("postfix", Ok (scan_postfix openssl_pqc));
  ("dovecot", Ok scan_dovecot); ("postgresql", Ok scan_postgresql); ("mysql", Ok scan_mysql); ("redis", Ok scan_redis);
  ("openldap", Ok scan_openldap); ("389-ds", Ok scan_389ds); ("tomcat", Ok scan_tomcat)].

(** A scanner that fails leaves an entry with the text of its error. *)
Definition scanner_services (str : exn -> string) (s : string * res (list svc)) : list svc :=
  match s.2 with
  | Ok l => sort_unreadable <$> l
  | Raise e => [Svc s.1 [] [] [] [] [("error", VStr (str e))]]
  end.
End Scan.

Definition count_where (f : endpoint -> bool) (l : list endpoint) : Z := Z.of_nat (length (List.filter f l)).
Definition pqc_is (o : option bool) (e : endpoint) : bool := bool_decide (e_pqc_key_exchange e = o).

Record summary := Summary {
  su_services : list string; su_with_tls : list string; su_endpoints : Z;
  su_configured : Z; su_blocked : Z; su_default : Z; su_unreadable : list string }.
Definition summarise (services : list svc) : summary :=
  let endpoints := concat (sv_endpoints <$> services) in
  Summary (sorted_set (sv_name <$> services))
    (sorted_set (sv_name <$> List.filter (fun s => if sv_endpoints s is [] then false else true) services))
    (Z.of_nat (length endpoints))
    (count_where (pqc_is (Some true)) endpoints) (count_where (pqc_is (Some false)) endpoints)
    (count_where (pqc_is None) endpoints)
    (sorted_set (concat ((fun s => fst <$> sv_unreadable s) <$> services))).
Definition summary_value (s : summary) : value := VDict [
  ("services", VStrs (su_services s)); ("services_with_tls", VStrs (su_with_tls s)); ("endpoints", VInt (su_endpoints s));
  ("pqc_configured", VInt (su_configured s)); ("pqc_blocked", VInt (su_blocked s));
  ("follow_library_default", VInt (su_default s)); ("unreadable", VStrs (su_unreadable s))].

(** [str] is the text of an exception and [note] the host-file-system note of
    a container, if there is one. *)
Definition scan_services (h : host) (str : exn -> string) (openssl services_info : value) : res (list svc) :=
  openssl_pqc ← openssl_pqc_of openssl;
  paths ← running_config_paths h services_info;
  Ok (concat (scanner_services h str <$> SCANNERS h openssl_pqc (fun name => default [] (dget name paths)))).
Definition scan_service_configs (h : host) (str : exn -> string) (note : list (string * value)) (openssl services_info : value) : res value :=
  services ← scan_services h str openssl services_info;
  Ok (if services is [] then
        VDict [("available", VBool false); ("reason", VStr "no supported service configuration found")]
      else
        VDict (dupdate [("available", VBool true); ("services", VList (svc_value <$> services));
                        ("summary", summary_value (summarise services))] note)).

(** ** The message of a blocked endpoint *)

Definition SERVICE_LABELS : list (string * string) := [
  ("apache", "Apache httpd"); ("mysql", "MariaDB/MySQL"); ("redis", "Redis/Valkey"); ("postgresql", "PostgreSQL");
  ("openldap", "OpenLDAP"); ("389-ds", "389 Directory Server"); ("postfix", "Postfix smtpd"); ("dovecot", "Dovecot");
  ("haproxy", "HAProxy"); ("stunnel", "stunnel"); ("squid", "Squid"); ("tomcat", "Tomcat"); ("nginx", "nginx")].

(** [sep.join(l)]: every element must be a string. *)
Definition join_strs (sep : string) (v : value) : res string :=
  l ← py_iter v; names ← strs_of l; Ok (str_join sep names).

(** [a + b] where the left side is a string of the code and [v] a value of the report. *)
Definition as_str (v : value) : res string := if v is VStr s then Ok s else Raise TypeError.

Definition describe_blocked (b : blocked) : res string :=
  let ep := bl_endpoint b in
  let name := py_str (bl_service b) in
  let label := default name (dget name SERVICE_LABELS) in
  file0 ← getitem "file" ep;
  file ← as_str file0;
  line ← get "line" ep;
  ports0 ← get_l "ports" ep;
  let ports := str_join ", " (py_str <$> ports0) in
  let head_ := label +:+ " (" +:+ file +:+ (if truthy line then ":" +:+ py_str line else EmptyString) +:+
               (if non_empty ports then ", port " +:+ ports else EmptyString) +:+ ")" in
  t13 ← get "tls13_allowed" ep;
  if is_false t13 then Ok (head_ +:+ " disables TLS 1.3, so it can't offer hybrid ML-KEM")
  else
    supports ← get "service_supports_pqc_groups" ep;
    if is_false supports then
      note ← get "note" ep;
      if truthy note then Ok (head_ +:+ ": " +:+ py_str note)
      else reason ← getitem "reason" ep; Ok (head_ +:+ ": " +:+ py_str reason)
    else
      groups0 ← get "groups" ep;
      groups ← join_strs ":" (por groups0 (VList []));
      source ← get "groups_source" ep;
      setting ← get "groups_setting" ep;
      Ok (if py_eq source (VStr "service default")
          then head_ +:+ " uses its built-in group list " +:+ groups +:+ ", which has no ML-KEM group; set " +:+
               py_str (por setting (VStr "the group list")) +:+ " to include X25519MLKEM768"
          else head_ +:+ " sets " +:+ py_str setting +:+ " " +:+ groups +:+ ", which has no ML-KEM group").

(** * Theorems on the service configuration scan

    What [gap.py] and the renderers read out of the [service_tls_config]
    object is what the parsers found. *)
(** ** The entries of the report *)

Definition PARSER_KEYS : list string := ["service"; "files"; "unreadable"; "endpoints"].

(** The keys around a parser's own do not hide them. *)
Definition svc_ok (s : svc) : Prop := Forall (fun k => k ∉ PARSER_KEYS) (sv_pre s).*1.

Definition svc_version (s : svc) : value := default VNone (dget "version" (sv_pre s ++ sv_post s)).

Lemma pre_none s k : svc_ok s -> k ∈ PARSER_KEYS -> dget k (sv_pre s) = None.
Proof.
  intros Hs Hk. apply dget_None. intros Hin. unfold svc_ok in Hs. rewrite Forall_forall in Hs. by apply (Hs k).
Qed.

Lemma svc_get_service s : get "service" (svc_value s) = Ok (VStr (sv_name s)).
Proof. done. Qed.

Lemma svc_get_endpoints s : svc_ok s -> get "endpoints" (svc_value s) = Ok (VList (endpoint_value <$> sv_endpoints s)).
Proof.
  intros Hs. unfold svc_value, get, get_or. f_equal. cbn [app dget]. case_decide as Hd; [discriminate Hd|].
  rewrite dget_app, pre_none by (done || (unfold PARSER_KEYS; set_solver)). done.
Qed.

Lemma svc_get_version s : svc_ok s -> get "version" (svc_value s) = Ok (svc_version s).
Proof.
  intros Hs. unfold svc_value, get, get_or, svc_version. f_equal. cbn [app dget]. case_decide as Hd; [discriminate Hd|].
  rewrite !dget_app. destruct (dget "version" (sv_pre s)); [done|]. cbn [dget]. repeat (case_decide as Hc; [discriminate Hc|]). done.
Qed.

(** The fields of an endpoint that the joins read. *)
Lemma endpoint_get_role e : get "role" (endpoint_value e) = Ok (VStr (e_role e)).
Proof. done. Qed.
Lemma endpoint_get_kex e : get "pqc_key_exchange" (endpoint_value e) = Ok (of_obool (e_pqc_key_exchange e)).
Proof. done. Qed.
Lemma endpoint_get_ports e : get "ports" (endpoint_value e) = Ok (VList (VInt <$> e_ports e)).
Proof. done. Qed.

Lemma is_false_of o : is_false (of_obool o) = bool_decide (o = Some false).
Proof. by destruct o as [[]|]. Qed.

Lemma truthy_list (l : list value) : py_iter (por (VList l) (VList [])) = Ok l.
Proof. by destruct l. Qed.

(** ** Blocked endpoints *)

Definition is_blocked (e : endpoint) : bool :=
  String.eqb (e_role e) "server" && bool_decide (e_pqc_key_exchange e = Some false).

Definition blocked_entry (i : nat) (s : svc) (je : nat * endpoint) : option blocked :=
  if is_blocked je.2 then Some (Blocked (VStr (sv_name s)) (endpoint_path i je.1) (endpoint_value je.2) (svc_version s)) else None.

(** The blocked server endpoints of the services, in order, with the place
    of each in the report. *)
Definition blocked_list (services : list svc) : list blocked :=
  concat ((fun '(i, s) => omap (blocked_entry i s) (enumerate (sv_endpoints s))) <$> enumerate services).

Lemma zip_fmap_r {A B C} (f : B -> C) (l : list A) (k : list B) : zip l (f <$> k) = (fun p => (p.1, f p.2)) <$> zip l k.
Proof. revert k. induction l as [|x l IH]; intros [|y k]; try done. cbn. f_equal. apply IH. Qed.

Lemma enumerate_fmap {A B} (f : A -> B) l : enumerate (f <$> l) = (fun p => (p.1, f p.2)) <$> enumerate l.
Proof. unfold enumerate. rewrite length_fmap. apply zip_fmap_r. Qed.

Lemma foldM_fmap {A B C} (f : C -> B -> res C) (g : A -> B) acc l : foldM f acc (g <$> l) = foldM (fun c x => f c (g x)) acc l.
Proof. revert acc. induction l as [|x l IH]; intros acc; [done|]. cbn. destruct (f acc (g x)); [apply IH|done]. Qed.

Lemma blocked_of_spec i s acc l :
  svc_ok s ->
  foldM (fun c (je : nat * endpoint) => blocked_of i (svc_value s) c (je.1, endpoint_value je.2)) acc l = Ok (acc ++ omap (blocked_entry i s) l).
Proof.
  intros Hs. revert acc. induction l as [|[j e] l IH]; intros acc; cbn [foldM omap list_omap fst snd]; [by rewrite app_nil_r|].
  assert (blocked_of i (svc_value s) acc (j, endpoint_value e) = Ok (acc ++ option_list (blocked_entry i s (j, e)))) as ->.
  { unfold blocked_of. rewrite endpoint_get_role, endpoint_get_kex. cbn [mbind res_bind py_eq].
    unfold blocked_entry, is_blocked. cbn [snd fst]. destruct (String.eqb (e_role e) "server"); cbn [negb andb]; [|by rewrite app_nil_r].
    rewrite is_false_of. destruct (bool_decide _); cbn [negb option_list]; [|by rewrite app_nil_r].
    rewrite svc_get_service, svc_get_version by done. done. }
  cbn [mbind res_bind]. cbn [fst snd]. rewrite IH, <-app_assoc. by destruct (blocked_entry i s (j, e)).
Qed.

Lemma get_services av l note rest :
  "services" ∉ note.*1 ->
  get_l "services" (VDict (dupdate (("available", av) :: ("services", VList (svc_value <$> l)) :: rest) note)) = Ok (svc_value <$> l).
Proof.
  intros H. unfold get_l, get, get_or. rewrite dget_dupdate_other by done. cbn [mbind res_bind].
  change (default VNone (dget "services" _)) with (VList (svc_value <$> l)). by rewrite truthy_list.
Qed.

Lemma blocked_endpoints_value av l note :
  truthy av = true -> Forall svc_ok l -> "available" ∉ note.*1 -> "services" ∉ note.*1 ->
  forall rest, blocked_endpoints (VDict (dupdate (("available", av) :: ("services", VList (svc_value <$> l)) :: rest) note)) (Some true) = Ok (blocked_list l).
Proof.
  intros Ha Hl H1 H2 rest. unfold blocked_endpoints.
  assert (get "available" (VDict (dupdate (("available", av) :: ("services", VList (svc_value <$> l)) :: rest) note)) = Ok av) as ->.
  { unfold get, get_or. by rewrite dget_dupdate_other. }
  rewrite get_services by done. cbn [mbind res_bind]. rewrite Ha.
  cbn [negb orb]. change (bool_decide (Some true = Some true)) with true. cbn [negb].
  rewrite enumerate_fmap, foldM_fmap. unfold blocked_list.
  assert (Forall (fun p : nat * svc => svc_ok p.2) (enumerate l)) as He.
  { apply Forall_forall. intros [i s] Hin. apply elem_of_zip_r in Hin. rewrite Forall_forall in Hl. by apply Hl. }
  change (concat ?x) with ([] ++ concat x). generalize (@nil blocked) as acc. revert He. generalize (enumerate l). clear.
  intros p He. induction He as [|[i s] p Hs He IH]; intros acc; cbn [foldM fmap list_fmap concat]; [by rewrite app_nil_r|].
  cbn [fst snd] in *. unfold get_l. rewrite svc_get_endpoints by done. cbn [mbind res_bind]. rewrite truthy_list. cbn [mbind res_bind].
  rewrite enumerate_fmap, foldM_fmap, blocked_of_spec by done. cbn [mbind res_bind]. rewrite IH. cbn [concat]. by rewrite app_assoc.
Qed.

(** ** Looking up the endpoint of a listener *)

Definition serves (p : Z) (e : endpoint) : bool := String.eqb (e_role e) "server" && bool_decide (p ∈ e_ports e).

(** The first server endpoint of the named service with the port. *)
Fixpoint find_ep (p : Z) (i j : nat) (eps : list endpoint) : option (string * value) :=
  match eps with
  | [] => None
  | e :: eps => if serves p e then Some (endpoint_path i j, endpoint_value e) else find_ep p i (S j) eps
  end.
Fixpoint find_svc (name : string) (p : Z) (i : nat) (services : list svc) : option (string * value) :=
  match services with
  | [] => None
  | s :: services =>
      match (if String.eqb (sv_name s) name then find_ep p i 0 (sv_endpoints s) else None) with
      | Some r => Some r
      | None => find_svc name p (S i) services
      end
  end.

Lemma py_in_ports p l : py_in (VInt p) (por (VList (VInt <$> l)) (VList [])) = Ok (bool_decide (p ∈ l)).
Proof.
  assert (existsb (py_eq (VInt p)) (VInt <$> l) = bool_decide (p ∈ l)) as H.
  { induction l as [|q l IH]; [done|]. cbn [fmap list_fmap existsb]. rewrite IH. cbn [py_eq num_of num_eqb].
    destruct (Z.eqb_spec p q) as [->|Hn]; cbn [orb].
    - symmetry. apply bool_decide_eq_true. by left.
    - apply bool_decide_ext. set_solver. }
  destruct l as [|q l]; [done|]. cbn [fmap list_fmap por truthy]. cbn [py_in]. by rewrite <-H.
Qed.

Lemma find_endpoint_value p i eps : forall j, find_endpoint (VInt p) i j (endpoint_value <$> eps) = Ok (find_ep p i j eps).
Proof.
  induction eps as [|e eps IH]; intros j; [done|]. cbn [fmap list_fmap find_endpoint find_ep].
  rewrite endpoint_get_role. cbn [mbind res_bind py_eq]. unfold serves. destruct (String.eqb (e_role e) "server"); cbn [andb].
  - rewrite endpoint_get_ports. cbn [mbind res_bind]. rewrite py_in_ports. cbn [mbind res_bind]. destruct (bool_decide _); [done|apply IH].
  - apply IH.
Qed.

Lemma find_service_value name p l : Forall svc_ok l -> forall i, find_service name (VInt p) i (svc_value <$> l) = Ok (find_svc name p i l).
Proof.
  induction 1 as [|s l Hs Hl IH]; intros i; [done|]. cbn [fmap list_fmap find_service find_svc].
  rewrite svc_get_service. cbn [mbind res_bind py_eq]. destruct (String.eqb (sv_name s) name); cbn [negb]; [|apply IH].
  unfold get_l. rewrite svc_get_endpoints by done. cbn [mbind res_bind]. rewrite truthy_list. cbn [mbind res_bind].
  rewrite find_endpoint_value. cbn [mbind res_bind]. destruct (find_ep _ _ _ _); [done|apply IH].
Qed.

(** ** The scanners' own keys *)

Lemma sort_unreadable_ok h s : svc_ok s -> svc_ok (sort_unreadable h s).
Proof. unfold sort_unreadable. destruct (sv_unreadable s); [done|]. by destruct (foldl _ _ _). Qed.

Lemma with_running_ok s paths extra : svc_ok s -> svc_ok (with_running s paths extra).
Proof. unfold with_running. by destruct (List.filter _ _). Qed.

Lemma of_report_ok name pre r : Forall (fun k => k ∉ PARSER_KEYS) pre.*1 -> svc_ok (of_report name pre r).
Proof. done. Qed.

Ltac key_ok := apply of_report_ok; cbn [fmap list_fmap fst]; repeat constructor; unfold PARSER_KEYS; set_solver.

Lemma unseen_ok h name dirs : Forall svc_ok (unseen h name dirs).
Proof. unfold unseen. destruct (omap _ _); [constructor|]. constructor; constructor. Qed.

Lemma scanners_ok h pqc extra :
  Forall (fun s => match s.2 with Ok l => Forall svc_ok l | Raise _ => True end) (SCANNERS h pqc extra).
Proof.
  assert (forall {A} (f : A -> svc) l, (forall x, svc_ok (f x)) -> Forall svc_ok (f <$> l)) as Hmap.
  { intros A f l Hf. apply Forall_fmap, Forall_forall. intros x _. apply Hf. }
  unfold SCANNERS. repeat constructor; cbn [snd].
  - unfold scan_nginx. destruct (first_present h _); [|constructor]. destruct (parse_nginx _ _ _); [|done].
    constructor; [constructor|constructor].
  - unfold scan_apache. destruct (find _ _) as [[]|]; repeat constructor.
  - unfold scan_haproxy. destruct (merge_paths _ _); constructor; [apply with_running_ok; key_ok|constructor].
  - unfold scan_stunnel. destruct (merge_paths _ _); [constructor|]. destruct (stunnel_default_curves h).
    constructor; [apply with_running_ok; key_ok|constructor].
  - unfold scan_squid. destruct (first_present h _); repeat constructor.
  - unfold scan_postfix. destruct (negb _); constructor; [key_ok|constructor].
  - unfold scan_dovecot. destruct (first_present h _); repeat constructor.
  - unfold scan_postgresql. destruct (concat _) as [|c l]; [apply unseen_ok|]. apply Hmap. intros x. unfold scan_pg_conf. key_ok.
  - unfold scan_mysql. destruct (List.filter _ _); repeat constructor.
  - apply Hmap. intros x. key_ok.
  - unfold scan_openldap. destruct (List.filter _ _); [apply unseen_ok|]. repeat constructor.
  - apply Hmap. intros x. key_ok.
  - unfold scan_tomcat. generalize (concat (list_glob h <$> ["/etc/tomcat/server.xml"; "/etc/tomcat*/server.xml"])) as l.
    match goal with |- forall l, Forall _ (foldl ?f _ l) => enough (forall l acc, Forall svc_ok acc -> Forall svc_ok (foldl f acc l)) as H by (intros l; by apply H) end.
    intros l. induction l as [|p l IH]; intros acc Ha; cbn [foldl]; [done|].
    apply IH. destruct (existsb _ _); [done|]. apply Forall_app. split; [done|]. constructor; [key_ok|constructor].
Qed.

Lemma scan_services_ok h str o info l : scan_services h str o info = Ok l -> Forall svc_ok l.
Proof.
  unfold scan_services. intros H. bind H as pqc Hp. bind H as paths Hq.
  pose proof (scanners_ok h pqc (fun name => default [] (dget name paths))) as Hok. revert H Hok.
  generalize (SCANNERS h pqc (fun name => default [] (dget name paths))) as scanners. intros scanners [= <-] Hok.
  induction Hok as [|[name [r|e]] scanners Hr _ IH]; cbn [fmap list_fmap concat]; [constructor| |];
    apply Forall_app; (split; [|exact IH]); unfold scanner_services; cbn [snd] in *.
  - apply Forall_fmap. eapply Forall_impl; [exact Hr|]. intros s. apply sort_unreadable_ok.
  - repeat constructor.
Qed.

(** ** The summary *)

Lemma count_split l : Z.of_nat (length l) = count_where (pqc_is (Some true)) l + count_where (pqc_is (Some false)) l + count_where (pqc_is None) l.
Proof.
  unfold count_where. induction l as [|e l IH]; [done|]. cbn [List.filter length].
  unfold pqc_is in *. destruct (e_pqc_key_exchange e) as [[]|]; cbn [bool_decide]; repeat (case_bool_decide; simplify_eq); cbn [length]; lia.
Qed.

(** The object of the scan, as its readers see it.  The summary's three
    counters add up to its number of endpoints; the lookup by service and
    port finds the first server endpoint of that service that listens there,
    and none if there is none; and where the TLS library is capable the
    blocked endpoints are exactly the server endpoints judged without PQC,
    in order and at the place that is named. *)
Theorem scan_service_configs_exact h str note openssl info services :
  scan_services h str openssl info = Ok services -> services <> [] ->
  "available" ∉ note.*1 -> "services" ∉ note.*1 ->
  exists v, scan_service_configs h str note openssl info = Ok v /\
    (let s := summarise services in
     su_endpoints s = su_configured s + su_blocked s + su_default s /\
     (forall n, n ∈ su_services s <-> exists x, x ∈ services /\ sv_name x = n)) /\
    (forall name p, (svcs ← get_l "services" v; find_service name (VInt p) 0 svcs) = Ok (find_svc name p 0 services)) /\
    blocked_endpoints v (Some true) = Ok (blocked_list services).
Proof.
  intros Hs Hne H1 H2. pose proof (scan_services_ok _ _ _ _ _ Hs) as Hok. unfold scan_service_configs. rewrite Hs. cbn [mbind res_bind].
  destruct services as [|s0 l0]; [done|]. set (l := s0 :: l0) in *. eexists. split; [reflexivity|]. split; [|split].
  - split; [apply count_split|]. intros n. unfold summarise. cbn [su_services]. rewrite elem_of_sorted_set, list_elem_of_fmap. naive_solver.
  - intros name p. rewrite get_services by done. cbn [mbind res_bind]. by apply find_service_value.
  - by apply blocked_endpoints_value.
Qed.

(** A host with nginx and redis only. *)
Definition small_host : host :=
  Host (fun p => bool_decide (p ∈ ["/etc/nginx/nginx.conf"; "/etc/redis.conf"])) (fun _ => None)
    (fun p => if String.eqb p "/etc/nginx/nginx.conf" then Some (40, Some "http { server { listen 443 ssl; ssl_ecdh_curve X25519; } }")
              else if String.eqb p "/etc/redis.conf" then Some (13, Some "tls-port 6380") else None)
    (fun _ => Some []) (fun _ => None) (fun _ => None) (fun _ => false) (fun _ => []) (fun _ => inr EmptyString).
Definition small_services : res (list svc) := scan_services small_host (fun _ => EmptyString) (VDict []) VNone.

Lemma scan_service_configs_exact_witness :
  exists l v, small_services = Ok l /\ l <> [] /\ scan_service_configs small_host (fun _ => EmptyString) [] (VDict []) VNone = Ok v /\
    length (blocked_list l) = 1%nat /\ blocked_endpoints v (Some true) = Ok (blocked_list l) /\
    su_endpoints (summarise l) = 2.
Proof.
  destruct small_services as [l|e] eqn:E; [|vm_compute in E; discriminate].
  assert (l <> []) as Hne by (intros ->; vm_compute in E; discriminate).
  destruct (scan_service_configs_exact small_host (fun _ => EmptyString) [] (VDict []) VNone l E Hne) as (v & Hv & _ & _ & Hb);
    [apply not_elem_of_nil..|].
  exists l, v. split; [reflexivity|]. split; [exact Hne|]. split; [exact Hv|].
  split; [|split; [exact Hb|]]; vm_compute in E; injection E as <-; reflexivity.
Defined.
