(* ===== verification/Boot.v ===== *)
(** * The boot chain ([detect/protocols_boot.py])

    The binary readers of the boot chain inventory: EFI signature lists,
    the PKCS#7 signature appended to a kernel module, the TPM's
    GetCapability responses; and the reports made of them.  Files, the
    decompressors and the TPM device are parameters. *)

From S2P Require Import Prelude PyStr PyDict PyVal PyRe PyBytes Der Algorithms Verdict Services.
From Stdlib.Strings Require Import Byte.
Open Scope Z_scope.

(** [except DERError as e]: the message, or the exception goes on. *)
Definition der_message (e : exn) : option string :=
  match e with
  | Custom cls msg => if String.eqb cls "DERError" then Some msg else None
  | _ => None
  end.

(** ** UEFI *)

Definition EFI_GLOBAL_VARIABLE : string := "8be4df61-93ca-11d2-aa0d-00e098032b8c".
Definition EFI_IMAGE_SECURITY_DATABASE : string := "d719b2cb-3d3a-4596-a3bc-dad00e67656f".
Definition SHIM_LOCK : string := "605dab50-e046-4300-abb6-3dd810dd8b23".
Definition EFI_CERT_X509 : string := "a5c059a1-94e4-4aa7-87b5-ab155c2bf072".
Definition EFI_CERT_SHA256 : string := "c1c41626-504c-4092-aca9-41f936934328".
Definition EFI_CERT_RSA2048 : string := "3c5766e8-269c-4e34-aa14-ed776e85b3b6".
Definition EFIVARS_DIR : string := "/sys/firmware/efi/efivars".
Definition MOK_VARIABLES_DIR : string := "/sys/firmware/efi/mok-variables".

Definition SIGNATURE_DATABASES : list (string * string * string) := [
  ("PK", "PK", EFI_GLOBAL_VARIABLE); ("KEK", "KEK", EFI_GLOBAL_VARIABLE);
  ("db", "db", EFI_IMAGE_SECURITY_DATABASE); ("dbx", "dbx", EFI_IMAGE_SECURITY_DATABASE);
  ("MokList", "MokListRT", SHIM_LOCK); ("MokListX", "MokListXRT", SHIM_LOCK)].
Definition TRUST_DATABASES : list string := ["PK"; "KEK"; "db"; "MokList"].
Definition MAX_VARIABLE_BYTES : Z := 4 * 1024 * 1024.

(** [str(uuid.UUID(bytes_le=raw))]: the first three fields are little-endian. *)
Definition guid (raw : bytes) : string :=
  let le a b := bytes_hex (reverse (slice raw a b)) in
  le 0 4 +:+ "-" +:+ le 4 6 +:+ "-" +:+ le 6 8 +:+ "-" +:+ bytes_hex (slice raw 8 10) +:+ "-" +:+ bytes_hex (slice raw 10 16).

(** An unsigned 32-bit little-endian word. *)
Definition le32 (data : bytes) (pos : Z) : Z := from_bytes (reverse (slice data pos (pos + 4))).
(** Big-endian words of 2 and 4 bytes. *)
Definition be16 (data : bytes) (pos : Z) : Z := from_bytes (slice data pos (pos + 2)).
Definition be32 (data : bytes) (pos : Z) : Z := from_bytes (slice data pos (pos + 4)).

Section Efivars.
(** The contents of a readable file, by its path. *)
Context (read : string -> option bytes).

Definition read_efivar (name g : string) : option bytes :=
  match read (EFIVARS_DIR +:+ "/" +:+ name +:+ "-" +:+ g) with
  | None => None
  | Some content =>
      let data := take (Z.to_nat (MAX_VARIABLE_BYTES + 5)) content in
      if (blen data <? 4) || (MAX_VARIABLE_BYTES + 4 <? blen data) then None
      else Some (drop 4 data)
  end.

Definition read_mok_variable (name : string) : option bytes * string :=
  let fallback := (read_efivar name SHIM_LOCK, "efivars") in
  match read (MOK_VARIABLES_DIR +:+ "/" +:+ name) with
  | None => fallback
  | Some content =>
      let data := take (Z.to_nat (MAX_VARIABLE_BYTES + 1)) content in
      if blen data <=? MAX_VARIABLE_BYTES then (Some data, "mok-variables") else fallback
  end.

Definition bool_efivar (name : string) : option bool :=
  match read_efivar name EFI_GLOBAL_VARIABLE with
  | Some (b :: _) => Some (bval b =? 1)
  | _ => None
  end.
End Efivars.

Definition cert_summary (c : certificate) : value := VDict [
  ("subject", VStr (c_subject c)); ("issuer", VStr (c_issuer c)); ("sha256", VStr (c_sha256 c));
  ("not_after", VStr (c_not_after c)); ("key_algorithm", VStr (c_key_algorithm c));
  ("key_size", match c_key_size c with Some n => VInt n | None => VNone end);
  ("category", VStr (category_name (c_category c)))].

Record sig_lists := SigLists {
  sl_certificates : list value; sl_hashes : Z; sl_rsa2048 : Z;
  sl_other : list (string * Z); sl_errors : list string }.

Definition add_error (msg : string) (st : sig_lists) : sig_lists :=
  SigLists (sl_certificates st) (sl_hashes st) (sl_rsa2048 st) (sl_other st) (sl_errors st ++ [msg]).

(** [range(first, stop, step)]. *)
Definition py_range (first stop step : Z) : list Z :=
  (fun i => first + Z.of_nat i * step) <$> seq 0 (Z.to_nat ((stop - first + step - 1) / step)).

(** One entry of a list of the given type. *)
Definition sig_entry (sig_type : string) (payload : bytes) (st : sig_lists) : res sig_lists :=
  if String.eqb sig_type EFI_CERT_X509 then
    match parse_certificate payload with
    | Ok c => Ok (SigLists (sl_certificates st ++ [cert_summary c]) (sl_hashes st) (sl_rsa2048 st) (sl_other st) (sl_errors st))
    | Raise e => match der_message e with
                 | Some msg => Ok (add_error ("unparsable X.509 entry: " +:+ msg) st)
                 | None => Raise e
                 end
    end
  else Ok (
    if String.eqb sig_type EFI_CERT_SHA256
    then SigLists (sl_certificates st) (sl_hashes st + 1) (sl_rsa2048 st) (sl_other st) (sl_errors st)
    else if String.eqb sig_type EFI_CERT_RSA2048
    then SigLists (sl_certificates st) (sl_hashes st) (sl_rsa2048 st + 1) (sl_other st) (sl_errors st)
    else SigLists (sl_certificates st) (sl_hashes st) (sl_rsa2048 st) (cincr sig_type (sl_other st)) (sl_errors st)).

(** The entries of one list. *)
Definition sig_entries (data : bytes) (sig_type : string) (first end_ size : Z) (st : sig_lists) : res sig_lists :=
  foldM (fun st entry => sig_entry sig_type (slice data (entry + 16) (entry + size)) st) st
    (py_range first (end_ - size + 1) size).

(** The walk over the lists; every list takes at least its 28-byte header. *)
Fixpoint sig_loop (fuel : nat) (data : bytes) (pos : Z) (st : sig_lists) : res sig_lists :=
  match fuel with
  | O => Raise out_of_fuel
  | S fuel =>
      if blen data <=? pos then Ok st
      else if blen data <? pos + 28
      then Ok (add_error ("truncated signature list header at offset " +:+ show_Z pos) st)
      else
        let sig_type := guid (slice data pos (pos + 16)) in
        let list_size := le32 data (pos + 16) in
        let header_size := le32 data (pos + 20) in
        let sig_size := le32 data (pos + 24) in
        let end_ := pos + list_size in
        let first := pos + 28 + header_size in
        if (list_size <? 28) || (blen data <? end_) || (sig_size <? 16) || (end_ <? first)
        then Ok (add_error ("malformed signature list at offset " +:+ show_Z pos) st)
        else
          let st := if (end_ - first) mod sig_size =? 0 then st
                    else add_error ("signature list at offset " +:+ show_Z pos +:+ " has a partial entry") st in
          st ← sig_entries data sig_type first end_ sig_size st;
          sig_loop fuel data end_ st
  end.

Definition sig_lists0 : sig_lists := SigLists [] 0 0 [] [].
Definition parse_signature_lists (data : bytes) : res sig_lists := sig_loop (loop_fuel data) data 0 sig_lists0.

Definition sig_lists_value (st : sig_lists) : list (string * value) := [
  ("certificates", VList (sl_certificates st)); ("sha256_hashes", VInt (sl_hashes st));
  ("rsa2048_keys", VInt (sl_rsa2048 st));
  ("other_entries", VDict ((fun kn => (kn.1, VInt kn.2)) <$> sl_other st));
  ("errors", VStrs (sl_errors st))].

(** The directories of the EFI file systems as the probe finds them: is
    [/sys/firmware/efi] there, is efivarfs mounted, and why it cannot be
    listed. *)
Record efi_host := EfiHost { eh_efi : bool; eh_efivars : bool; eh_unlistable : option string }.

Definition signature_database (read : string -> option bytes) (entry : string * string * string) : res (string * value) :=
  let '(key, name, g) := entry in
  let '(data, source) := if String.eqb g SHIM_LOCK then read_mok_variable read name
                         else (read_efivar read name g, "efivars") in
  match data with
  | None => Ok (key, VDict [("present", VBool false)])
  | Some data =>
      st ← parse_signature_lists data;
      Ok (key, VDict (dupdate (sig_lists_value st) [("present", VBool true); ("source", VStr source)]))
  end.

Definition detect_secure_boot (host : efi_host) (read : string -> option bytes) : res value :=
  let unavailable firmware reason :=
    Ok (VDict [("available", VBool false); ("firmware", VStr firmware); ("reason", VStr reason)]) in
  if negb (eh_efi host) then unavailable "bios" "no /sys/firmware/efi: legacy BIOS boot (no UEFI Secure Boot)"
  else if negb (eh_efivars host) then unavailable "uefi" (EFIVARS_DIR +:+ " is not mounted (efivarfs)")
  else
    match eh_unlistable host with
    | Some strerror =>
        unavailable "uefi" (EFIVARS_DIR +:+ " is not readable (" +:+ strerror +:+
          "); SELinux-confined containers are denied efivarfs")
    | None =>
        databases ← foldM (fun d entry => kv ← signature_database read entry; Ok (dset kv.1 kv.2 d)) [] SIGNATURE_DATABASES;
        Ok (VDict [
          ("available", VBool true); ("firmware", VStr "uefi");
          ("enabled", of_obool (bool_efivar read "SecureBoot"));
          ("setup_mode", of_obool (bool_efivar read "SetupMode"));
          ("shim_validation_disabled",
             VBool match (read_mok_variable read "MokSBStateRT").1 with Some (b :: _) => bval b =? 1 | _ => false end);
          ("databases", VDict databases)])
    end.

(** ** Kernel module signing *)

Definition to_b (s : string) : bytes := (fun c => of_bval (Z.of_N (code c))) <$> chars s.
Definition MODULE_SIG_MAGIC : bytes := to_b ("~Module signature appended~" +:+ newline).
(** [struct.Struct(">BBBBB3xI").size]. *)
Definition MODULE_SIG_STRUCT_SIZE : Z := 12.
Definition PKEY_ID_PKCS7 : Z := 2.
Definition MAX_MODULE_BYTES : Z := 64 * 1024 * 1024.
Definition MODULE_SAMPLE_LIMIT : nat := 5.

Definition DIGEST_OIDS : list (string * string) := [
  ("1.3.14.3.2.26", "sha1");
  ("2.16.840.1.101.3.4.2.1", "sha256");
  ("2.16.840.1.101.3.4.2.2", "sha384");
  ("2.16.840.1.101.3.4.2.3", "sha512");
  ("2.16.840.1.101.3.4.2.8", "sha3-256");
  ("2.16.840.1.101.3.4.2.9", "sha3-384");
  ("2.16.840.1.101.3.4.2.10", "sha3-512");
  ("2.16.840.1.101.3.4.2.11", "shake128");
  ("2.16.840.1.101.3.4.2.12", "shake256")].

Definition SIGNATURE_OIDS : list (string * (string * string)) := [
  ("1.2.840.113549.1.1.1", ("RSA", "classical"));
  ("1.2.840.113549.1.1.5", ("RSA", "classical"));
  ("1.2.840.113549.1.1.11", ("RSA", "classical"));
  ("1.2.840.113549.1.1.12", ("RSA", "classical"));
  ("1.2.840.113549.1.1.13", ("RSA", "classical"));
  ("1.2.840.10045.2.1", ("ECDSA", "classical"));
  ("1.2.840.10045.4.3.2", ("ECDSA", "classical"));
  ("1.2.840.10045.4.3.3", ("ECDSA", "classical"));
  ("1.2.840.10045.4.3.4", ("ECDSA", "classical"));
  ("1.3.101.112", ("Ed25519", "classical"));
  ("1.3.101.113", ("Ed448", "classical"));
  ("2.16.840.1.101.3.4.3.17", ("ML-DSA-44", "pure_pqc"));
  ("2.16.840.1.101.3.4.3.18", ("ML-DSA-65", "pure_pqc"));
  ("2.16.840.1.101.3.4.3.19", ("ML-DSA-87", "pure_pqc"))].

Definition KERNEL_CONFIG_RE : re :=
  let word s := RSeqs [RLit s; RStar true (RChr is_word)] in
  RSeqs [Bos; RGrp 1 (RSeqs [RLit "CONFIG_"; RAlts [word "MODULE_SIG"; word "IMA"; word "EVM"]]);
         RLit "="; RGrp 2 (RStar true Dot); Eos].

Definition parse_kernel_config (text : string) : list (string * string) :=
  foldl (fun out line =>
    match re_match KERNEL_CONFIG_RE (strip line) with
    | Some m => dset (group_or 1 m) (strip_by (Ascii.eqb "034") (group_or 2 m)) out
    | None => out
    end) [] (splitlines text).

(** What [parse_pkcs7_signer] reports. *)
Record signer_info := SignerInfo {
  si_signer : option string; si_digest : string; si_algorithm : string;
  si_oid : string; si_key_size : option Z; si_category : string }.

(** The last element of the SignedData: its tag and contents. *)
Definition last_element (der : bytes) (pos sd_stop : Z) : res (option (Z * Z * Z)) :=
  l ← der_loop (loop_fuel der) (fun pos => '(tag, a, b) ← der_tlv der pos sd_stop; Ok ((tag, a, b), b)) pos sd_stop;
  Ok (last l).

(** The issuer of an IssuerAndSerialNumber. *)
Definition sid_signer (der : bytes) (tag sid_start sid_stop : Z) : res (option string) :=
  if tag =? 48 then
    '(itag, istart, istop) ← der_tlv der sid_start sid_stop;
    if itag =? 48 then n ← der_name der istart istop; Ok (Some n) else Ok None
  else Ok None.

(** The optional [0] signedAttrs. *)
Definition skip_attrs (der : bytes) (pos si_stop : Z) : res Z :=
  if pos <? si_stop then
    b ← byte_at der pos;
    if b =? 160 then '(_, _, e) ← der_tlv der pos si_stop; Ok e else Ok pos
  else Ok pos.

Definition parse_pkcs7_signer (der : bytes) : res signer_info :=
  '(tag, start, stop) ← der_tlv der 0 (blen der);
  if negb (tag =? 48) then Raise (DERError "ContentInfo is not a SEQUENCE") else
  '(tag, ostart, ostop) ← der_tlv der start stop;
  signed ← (if tag =? 6 then oid ← der_oid (slice der ostart ostop); Ok (String.eqb oid "1.2.840.113549.1.7.2") else Ok false);
  if negb signed then Raise (DERError "not a SignedData ContentInfo") else
  '(tag, estart, estop) ← der_tlv der ostop stop;
  if negb (tag =? 160) then Raise (DERError "missing [0] content") else
  '(tag, pos, sd_stop) ← der_tlv der estart estop;
  if negb (tag =? 48) then Raise (DERError "SignedData is not a SEQUENCE") else
  signer_infos ← last_element der pos sd_stop;
  match signer_infos with
  | Some (49, sis_start, sis_stop) =>
      '(tag, si, si_stop) ← der_tlv der sis_start sis_stop;
      if negb (tag =? 48) then Raise (DERError "SignerInfo is not a SEQUENCE") else
      '(_, _, pos) ← der_tlv der si si_stop;
      '(tag, sid_start, sid_stop) ← der_tlv der pos si_stop;
      signer ← sid_signer der tag sid_start sid_stop;
      '(digest_oid, pos) ← der_algorithm_oid der sid_stop si_stop;
      pos ← skip_attrs der pos si_stop;
      '(sig_oid, pos) ← der_algorithm_oid der pos si_stop;
      '(tag, sstart, sstop) ← der_tlv der pos si_stop;
      let '(family, category) := default (sig_oid, "unknown") (dget sig_oid SIGNATURE_OIDS) in
      Ok (SignerInfo signer (default digest_oid (dget digest_oid DIGEST_OIDS)) family sig_oid
            (if String.eqb family "RSA" && (tag =? 4) then Some ((sstop - sstart) * 8) else None) category)
  | _ => Raise (DERError "no signerInfos SET")
  end.

(** The module report: an unreadable signature, or the signer. *)
Inductive module_sig :=
| Unparsed (format : string) (reason : option string)
| Signed (info : signer_info).

Definition ends_with_bytes (suffix b : bytes) : bool :=
  bool_decide (drop (length b - length suffix) b = suffix) && (length suffix <=? length b)%nat.

Definition parse_module_signature (data : bytes) : res (option module_sig) :=
  if negb (ends_with_bytes MODULE_SIG_MAGIC data) then Ok None
  else
    let tail := blen data - blen MODULE_SIG_MAGIC in
    if tail <? MODULE_SIG_STRUCT_SIZE then Ok None
    else
      let at_ := tail - MODULE_SIG_STRUCT_SIZE in
      id_type ← byte_at data (at_ + 2);
      let sig_len := be32 data (at_ + 8) in
      let start := at_ - sig_len in
      if negb (id_type =? PKEY_ID_PKCS7) || (sig_len =? 0) || (start <? 0)
      then Ok (Some (Unparsed ("id_type " +:+ show_Z id_type) None))
      else
        match parse_pkcs7_signer (slice data start (start + sig_len)) with
        | Ok info => Ok (Some (Signed info))
        | Raise e => match der_message e with
                     | Some msg => Ok (Some (Unparsed "PKCS#7" (Some msg)))
                     | None => Raise e
                     end
        end.

Definition signer_value (i : signer_info) : list (string * value) := [
  ("signer", of_ostr (si_signer i)); ("digest_algorithm", VStr (si_digest i));
  ("signature_algorithm", VStr (si_algorithm i)); ("signature_algorithm_oid", VStr (si_oid i));
  ("key_size", match si_key_size i with Some n => VInt n | None => VNone end);
  ("category", VStr (si_category i))].
Definition module_sig_value (s : module_sig) : list (string * value) :=
  match s with
  | Unparsed format None => [("format", VStr format); ("parsed", VBool false)]
  | Unparsed format (Some reason) => [("format", VStr format); ("parsed", VBool false); ("reason", VStr reason)]
  | Signed info => signer_value info ++ [("format", VStr "PKCS#7"); ("parsed", VBool true)]
  end.

(** The decompressors of the library; [None] is an error one of them raises. *)
Record codecs := Codecs { dc_xz : bytes -> option bytes; dc_gz : bytes -> option bytes; dc_zst : option (bytes -> option bytes) }.

Definition decompress_module (dc : codecs) (name : string) (raw : bytes) : option bytes :=
  if ends_with ".ko" name then Some raw
  else if ends_with ".ko.xz" name then dc_xz dc raw
  else if ends_with ".ko.gz" name then dc_gz dc raw
  else if ends_with ".ko.zst" name then f ← dc_zst dc; f raw
  else None.

(** The module paths named by modules.dep, at most the sample limit. *)
Definition dep_modules (dep : string) : list string :=
  take MODULE_SAMPLE_LIMIT (List.filter (fun r => negb (String.eqb r EmptyString))
    ((fun line => strip (before ":" line)) <$> splitlines dep)).

(** One candidate module: its name, size and contents, [None] when it cannot
    be read. *)
Record module_file := ModuleFile { mf_name : string; mf_size : Z; mf_content : option bytes }.

Fixpoint sample_module (dc : codecs) (sample : option (list (string * value))) (l : list module_file) :
    res (option (list (string * value))) :=
  match l with
  | [] => Ok sample
  | m :: l =>
      if MAX_MODULE_BYTES <? mf_size m then sample_module dc sample l
      else
        match raw ← mf_content m; decompress_module dc (mf_name m) raw with
        | None => sample_module dc sample l
        | Some data =>
            sig ← parse_module_signature data;
            match sig with
            | None => sample_module dc (Some [("module", VStr (mf_name m)); ("signed", VBool false)]) l
            | Some sig =>
                let here := dupdate [("module", VStr (mf_name m)); ("signed", VBool true)] (module_sig_value sig) in
                if sig is Signed _ then Ok (Some here) else sample_module dc (Some here) l
            end
        end
  end.

Definition KEY_TYPE_PREFIX : string := "CONFIG_MODULE_SIG_KEY_TYPE_".

Definition detect_module_signing (release : string) (config : list (string * string)) (config_source : option string)
    (sig_enforce : option string) (dc : codecs) (modules : list module_file) : res value :=
  let key_types := py_sorted str_lt ((fun kv => remove_prefix KEY_TYPE_PREFIX kv.1) <$>
    List.filter (fun kv : string * string => starts_with KEY_TYPE_PREFIX kv.1 && String.eqb kv.2 "y") config) in
  sample ← sample_module dc None modules;
  let is_y k := match config with
                | [] => VNone
                | _ => VBool match dget k config with Some v => String.eqb v "y" | None => false end
                end in
  let parsed := match sample with Some s => truthy (default VNone (dget "parsed" s)) | None => false end in
  let pqc := match sample with
             | Some s => if parsed then VBool (py_eq (default VNone (dget "category" s)) (VStr "pure_pqc"))
                         else match key_types with [] => VNone | _ => VBool (existsb (starts_with "MLDSA") key_types) end
             | None => match key_types with [] => VNone | _ => VBool (existsb (starts_with "MLDSA") key_types) end
             end in
  Ok (VDict [
    ("kernel_release", VStr release); ("kernel_config_source", of_ostr config_source);
    ("module_sig", is_y "CONFIG_MODULE_SIG"); ("module_sig_force", is_y "CONFIG_MODULE_SIG_FORCE");
    ("module_sig_hash", of_ostr (dget "CONFIG_MODULE_SIG_HASH" config));
    ("key_types_configured", VStrs key_types);
    ("sig_enforce", match sig_enforce with Some raw => VBool (String.eqb (strip raw) "Y") | None => VNone end);
    ("sample_module", match sample with Some s => VDict s | None => VNone end);
    ("pqc", pqc)]).

(** ** IMA, EVM and lockdown *)

Definition CMDLINE_KEYS : list string := ["ima_policy"; "ima_appraise"; "ima_hash"; "ima_template"; "evm"].

(** [s.partition("=")]: the text before and after the first separator. *)
Definition partition_eq (s : string) : string * string :=
  let k := before "=" s in (k, remove_prefix (k +:+ "=") s).

Definition ima_cmdline (text : string) : list (string * string) :=
  foldl (fun out tok =>
    let '(k, v) := partition_eq tok in
    if bool_decide (k ∈ CMDLINE_KEYS) then dset k (if String.eqb k tok then EmptyString else v) out else out) [] (words text).

(** The rules of the IMA policy file. *)
Definition ima_policy (text : string) : value :=
  let rules := (strip : string -> string) <$>
    List.filter (fun line => negb (String.eqb (strip line) EmptyString) && negb (starts_with "#" line)) (splitlines text) in
  let count p := VInt (Z.of_nat (length (List.filter p rules))) in
  VDict [
    ("readable", VBool true); ("rules", VInt (Z.of_nat (length rules)));
    ("measure_rules", count (starts_with "measure")); ("appraise_rules", count (starts_with "appraise"));
    ("signature_required_rules", count (contains "appraise_type=imasig"))].

(** The first of the two EVM files that holds a number. *)
Definition evm_mode (files : list (option string)) : option Z :=
  head (omap (fun f => text ← f; int_of_str (strip text)) files).

Definition detect_ima_evm (securityfs : bool) (cmdline policy : option string) (evm : list (option string))
    (certificates : list value) : value :=
  VDict [
    ("ima_securityfs", VBool securityfs);
    ("cmdline", VDict ((fun kv => (kv.1, VStr kv.2)) <$> default [] (ima_cmdline <$> cmdline)));
    ("policy", default (VDict [("readable", VBool false)]) (ima_policy <$> policy));
    ("evm_mode", match evm_mode evm with Some n => VInt n | None => VNone end);
    ("certificates", VList certificates)].

Definition LOCKDOWN_RE : re := RSeqs [RLit "["; RGrp 1 (RPlus (RChr is_word)); RLit "]"].
Definition detect_lockdown (text : option string) : option string :=
  t ← text; m ← re_search LOCKDOWN_RE t; group 1 m.

(** ** TPM 2.0 *)

Definition TPM2_ST_NO_SESSIONS : Z := 32769.
Definition TPM2_CC_GET_CAPABILITY : Z := 378.
Definition TPM2_CAP_ALGS : Z := 0.
Definition TPM2_CAP_TPM_PROPERTIES : Z := 6.
Definition TPM2_PT_FIXED : Z := 256.
Definition TPM2_PT_FAMILY_INDICATOR : Z := TPM2_PT_FIXED + 0.
Definition TPM2_PT_REVISION : Z := TPM2_PT_FIXED + 2.
Definition TPM2_PT_YEAR : Z := TPM2_PT_FIXED + 4.
Definition TPM2_PT_MANUFACTURER : Z := TPM2_PT_FIXED + 5.
Definition TPM_PQC_ALGORITHMS : list (Z * string) := [(160, "ML-KEM"); (161, "ML-DSA"); (162, "HashML-DSA")].
Definition TPM_SPEC_NOTE : string := "TPM_ALG_MLKEM / MLDSA / HASH_MLDSA (0x00A0-0x00A2) per wolfTPM's TPM 2.0 Library v1.85 implementation; TCG v1.85 is a release candidate".

(** [struct.pack(">HIIIII", ...)]. *)
Definition tpm2_get_capability_command (capability prop count : Z) : bytes :=
  to_bytes 2 TPM2_ST_NO_SESSIONS ++ to_bytes 4 22 ++ to_bytes 4 TPM2_CC_GET_CAPABILITY ++
  to_bytes 4 capability ++ to_bytes 4 prop ++ to_bytes 4 count.

(** The loop over [count] entries of an identifier of [w] bytes and a word;
    every entry takes at least one byte of [resp], so its length is fuel. *)
Fixpoint tpm_entries (fuel : nat) (resp : bytes) (what : string) (size w : Z) (count pos : Z) : res (list (Z * Z)) :=
  match fuel with
  | O => Raise out_of_fuel
  | S fuel =>
      if count <=? 0 then Ok []
      else if size <? pos + (w + 4) then Raise (ValueError ("truncated " +:+ what +:+ " list"))
      else
        rest ← tpm_entries fuel resp what size w (count - 1) (pos + (w + 4));
        Ok ((from_bytes (slice resp pos (pos + w)), be32 resp (pos + w)) :: rest)
  end.

(** [f"{n:#x}"]. *)
Fixpoint hex_lower (fuel : nat) (n : Z) (acc : list ascii) : list ascii :=
  match fuel with
  | O => acc
  | S fuel => let acc := hex_char (n mod 16) :: acc in if n <? 16 then acc else hex_lower fuel (n / 16) acc
  end.
Definition hex_prefixed (n : Z) : string := "0x" +:+ str_of (hex_lower 8 n []).

Definition parse_get_capability_response (resp : bytes) : res (Z * list (Z * Z)) :=
  if blen resp <? 10 then Raise (ValueError "short TPM response")
  else
    let size := be32 resp 2 in
    let rc := be32 resp 6 in
    if negb (rc =? 0) then Ok (rc, [])
    else if (blen resp <? size) || (blen resp <? 19) then Raise (ValueError "truncated TPM response")
    else
      let capability := be32 resp 11 in
      let count := be32 resp 15 in
      if capability =? TPM2_CAP_ALGS then
        l ← tpm_entries (loop_fuel resp) resp "algorithm" size 2 count 19; Ok (rc, l)
      else if capability =? TPM2_CAP_TPM_PROPERTIES then
        l ← tpm_entries (loop_fuel resp) resp "property" size 4 count 19; Ok (rc, l)
      else Raise (ValueError ("unexpected capability " +:+ hex_prefixed capability)).

(** [value.to_bytes(4, "big").decode("ascii", "replace").rstrip("\0 ")]. *)
Definition ascii_u32 (v : Z) : string :=
  rstrip_by (fun c => Ascii.eqb c "000" || Ascii.eqb c " ") (decode AsciiC (to_bytes 4 v)).

(** The TPM as the probe finds it: the class directory, the major version
    file, the device, and the answer to a command or the error text. *)
Record tpm_host := TpmHost {
  th_present : bool; th_version : option string; th_device : string;
  th_open : option string; th_transact : bytes -> bytes + string }.

(** A command sent and its answer parsed. *)
Definition tpm_query (h : tpm_host) (capability prop count : Z) : res (Z * list (Z * Z)) :=
  match th_transact h (tpm2_get_capability_command capability prop count) with
  | inr e => Raise (Custom "OSError" e)
  | inl resp => parse_get_capability_response resp
  end.

Definition tpm_text (p : Z) (prop : list (Z * Z)) : value :=
  match dget p prop with Some v => VStr (ascii_u32 v) | None => VNone end.

Definition tpm_capabilities (h : tpm_host) : res (list (string * value)) :=
  '(rc, props) ← tpm_query h TPM2_CAP_TPM_PROPERTIES TPM2_PT_FAMILY_INDICATOR 6;
  '(rc2, algs) ← tpm_query h TPM2_CAP_ALGS 160 3;
  let prop := if rc =? 0 then dupdate [] props else [] in
  let supported := omap (fun av : Z * Z => if rc2 =? 0 then dget av.1 TPM_PQC_ALGORITHMS else None) algs in
  Ok [
    ("queried", VBool true); ("family", tpm_text TPM2_PT_FAMILY_INDICATOR prop);
    ("spec_revision", match dget TPM2_PT_REVISION prop with
                      | Some r => VStr (f_fixed 2 (f_div (f_of_Z r) (f_of_Z 100)))
                      | None => VNone
                      end);
    ("spec_year", match dget TPM2_PT_YEAR prop with Some y => VInt y | None => VNone end);
    ("manufacturer", tpm_text TPM2_PT_MANUFACTURER prop);
    ("pqc_algorithms", VStrs supported);
    ("pqc_capable", VBool (match supported with [] => false | _ => true end))].

(** The text of the exceptions caught around the two commands. *)
Definition tpm_caught (e : exn) : option string :=
  match e with
  | ValueError msg => Some msg
  | Custom cls msg => if String.eqb cls "OSError" then Some msg else None
  | _ => None
  end.

Definition detect_tpm_capabilities (h : tpm_host) : res value :=
  let version := match th_version h with Some t => int_of_str t | None => None end in
  let out := [("present", VBool (th_present h)); ("spec_note", VStr TPM_SPEC_NOTE);
              ("version_major", match version with Some v => VInt v | None => VNone end)] in
  let unqueried reason := Ok (VDict (dupdate out [("queried", VBool false); ("reason", VStr reason)])) in
  if negb (th_present h) then unqueried "no TPM at /sys/class/tpm/tpm0"
  else if match version with Some v => negb (v =? 2) | None => false end then unqueried "not a TPM 2.0"
  else
    match th_open h with
    | Some strerror => unqueried ("cannot open " +:+ th_device h +:+ ": " +:+ strerror +:+ " (needs root or the tss group)")
    | None =>
        match tpm_capabilities h with
        | Ok fields => Ok (VDict (dupdate out fields))
        | Raise e => match tpm_caught e with
                     | Some msg => unqueried ("TPM2_GetCapability failed: " +:+ msg)
                     | None => Raise e
                     end
        end
    end.

(** ** Assembly *)

(** [str(cert.get(k))]. *)
Definition text_of (k : string) (cert : value) : res string := v ← get k cert; Ok (py_str v).

(** The certificates of the databases that authorise boot code. *)
Definition trusted_db (sb : value) (key : string) : res value := dbs ← get_d "databases" sb; get_d key dbs.

Definition count_database (sb : value) (cats : list (string * Z)) (key : string) : res (list (string * Z)) :=
  db ← trusted_db sb key;
  certs ← get_l "certificates" db;
  cats ← foldM (fun cats cert => c ← text_of "category" cert; Ok (cincr c cats)) cats certs;
  keys ← get "rsa2048_keys" db;
  if truthy keys then
    match keys with
    | VInt n => Ok (cadd "classical" n cats)
    | VBool b => Ok (cadd "classical" 1 cats)
    | _ => Raise TypeError
    end
  else Ok cats.

Definition key_label (cert : value) : res string :=
  alg ← get "key_algorithm" cert;
  size ← get "key_size" cert;
  Ok (if py_eq alg (VStr "RSA") then py_str alg +:+ "-" +:+ py_str size else py_str alg).

Definition is_pqc_cert (cert : value) : res bool :=
  c ← get "category" cert; Ok (py_eq c (VStr "pure_pqc") || py_eq c (VStr "hybrid_composite")).

Definition summarise (sb md ima tpm : value) : res value :=
  cats ← foldM (count_database sb) [] TRUST_DATABASES;
  let total := ctotal cats in
  let pqc_certs := cget "pure_pqc" cats + cget "hybrid_composite" cats in
  pqc ← get "pqc" md;
  ima_certs ← get_l "certificates" ima;
  ima_pqc ← anyM is_pqc_cert ima_certs;
  queried ← get "queried" tpm;
  capable ← get "pqc_capable" tpm;
  labels ← foldM (fun acc key => db ← trusted_db sb key; certs ← get_l "certificates" db;
                                 l ← mapM key_label certs; Ok (acc ++ l)) [] TRUST_DATABASES;
  let all_classical := negb (total =? 0) && (pqc_certs =? 0) in
  Ok (VDict [
    ("secure_boot_certificates", VInt total);
    ("secure_boot_certificate_categories", VDict ((fun kn => (kn.1, VInt kn.2)) <$> cats));
    ("secure_boot_all_classical", VBool all_classical);
    ("secure_boot_algorithms", VStrs (sorted_set labels));
    ("module_signing_pqc", pqc);
    ("classical_layers", VStrs (
       (if all_classical then ["secure_boot"] else []) ++
       (if is_false pqc then ["module_signing"] else []) ++
       (match ima_certs with [] => [] | _ => if (ima_pqc : bool) then [] else ["ima"] end) ++
       (if truthy queried && negb (truthy capable) then ["tpm"] else [])))]).

(** ["sep".join(v or dflt)]. *)
Definition joined (sep : string) (dflt : list value) (v : value) : res string :=
  l ← py_iter (por v (VList dflt)); ss ← strs_of l; Ok (str_join sep ss).

Definition describe_secure_boot (summary : value) : res string :=
  n ← text_of "secure_boot_certificates" summary;
  algs ← get "secure_boot_algorithms" summary;
  names ← joined ", " [] algs;
  Ok ("Secure Boot trusts " +:+ n +:+ " certificates (PK/KEK/db/MOK), all classical: " +:+ names).

Definition describe_module_signing (bc : value) : res string :=
  md ← get_d "module_signing" bc;
  sample ← get_d "sample_module" md;
  parsed ← get "parsed" sample;
  if truthy parsed then
    ks ← get "key_size" sample;
    alg ← text_of "signature_algorithm" sample;
    dig ← text_of "digest_algorithm" sample;
    Ok ("kernel modules are signed with " +:+ alg +:+ (if truthy ks then "-" +:+ py_str ks else EmptyString) +:+ " / " +:+ dig)
  else
    kts ← get "key_types_configured" md;
    names ← joined "/" [VStr "?"] kts;
    Ok ("the kernel is configured for " +:+ names +:+ " module signing").

Definition describe_ima (bc : value) : res string :=
  ima ← get_d "ima_evm" bc;
  certs ← get_l "certificates" ima;
  algs ← mapM (text_of "key_algorithm") certs;
  Ok ("IMA code-signing certificates are " +:+ str_join ", " (sorted_set algs)).

Definition describe_tpm (bc : value) : res string :=
  tpm ← get_d "tpm" bc;
  rev ← text_of "spec_revision" tpm;
  Ok ("the TPM (spec " +:+ rev +:+ ") reports no ML-KEM / ML-DSA support").

(** [if name in layers: out.append(...)]. *)
Definition layer_line (name : string) (layers : value) (line : res string) (out : list string) : res (list string) :=
  b ← py_in (VStr name) layers;
  if b : bool then l ← line; Ok (out ++ [l]) else Ok out.

Definition describe_classical_layers (bc : value) : res (list string) :=
  available ← get "available" bc;
  if negb (truthy available) then Ok []
  else
    summary ← get_d "summary" bc;
    l ← get "classical_layers" summary;
    let layers := por l (VList []) in
    out ← layer_line "secure_boot" layers (describe_secure_boot summary) [];
    out ← layer_line "module_signing" layers (describe_module_signing bc) out;
    out ← layer_line "ima" layers (describe_ima bc) out;
    layer_line "tpm" layers (describe_tpm bc) out.

Definition scan_boot_chain (linux : bool) (sb md ima : value) (lockdown : option string) (tpm : value)
    (note : option (list (string * value))) : res value :=
  if negb linux then
    Ok (VDict [("available", VBool false); ("reason", VStr "boot chain inventory is Linux-only")])
  else
    summary ← summarise sb md ima tpm;
    let out := [("available", VBool true); ("secure_boot", sb); ("module_signing", md); ("ima_evm", ima);
                ("lockdown", of_ostr lockdown); ("tpm", tpm); ("summary", summary)] in
    Ok (VDict (match note with Some n => match n with [] => out | _ => dupdate out n end | None => out end)).
