(* ===== verification/BootTheory.v ===== *)
(** * The boot chain readers against their formats

    What the binary readers of [Boot] return on the encoding of any
    well-formed input (EFI signature lists of UEFI 2.10, the module
    signature trailer and CMS SignedData, TPM 2.0 capability responses), and
    that no input makes them read outside the buffer or loop. *)

From S2P Require Import Prelude PyStr PyDict PyVal PyRe PyBytes Der DerTheory DerEncode Verdict Boot.
From Stdlib.Strings Require Import Byte.
Open Scope Z_scope.

(** ** Words *)

Definition word_ok (n : nat) (z : Z) : Prop := 0 <= z < 256 ^ Z.of_nat n.

Lemma from_to_word n z : word_ok n z -> from_bytes (to_bytes n z) = z.
Proof. intros H. rewrite from_to_bytes. by apply Z.mod_small. Qed.

Lemma blen_to_bytes n z : blen (to_bytes n z) = Z.of_nat n.
Proof. unfold blen. by rewrite length_to_bytes. Qed.

(** A word of the buffer, as written. *)
Lemma holds_word buf pos n z :
  holds buf pos (to_bytes n z) -> word_ok n z -> from_bytes (slice buf pos (pos + Z.of_nat n)) = z.
Proof.
  intros H Hz. apply holds_slice in H. rewrite blen_to_bytes in H. rewrite H. by apply from_to_word.
Qed.

Definition le_bytes (n : nat) (z : Z) : bytes := reverse (to_bytes n z).

Lemma holds_le32 buf pos z : holds buf pos (le_bytes 4 z) -> word_ok 4 z -> le32 buf pos = z.
Proof.
  intros H Hz. apply holds_slice in H. unfold le32, le_bytes in *. unfold blen in H.
  rewrite length_reverse, length_to_bytes in H. change (pos + Z.of_nat 4) with (pos + 4) in H.
  rewrite H, reverse_involutive. by apply from_to_word.
Qed.

Lemma blen_le_bytes n z : blen (le_bytes n z) = Z.of_nat n.
Proof. unfold le_bytes, blen. by rewrite length_reverse, length_to_bytes. Qed.

(** [holds] of a concatenation, piece by piece. *)
Ltac pieces H := repeat
  match type of H with
  | holds _ _ (_ ++ _) =>
      let H1 := fresh "Hh" in apply holds_app in H as [H1 H];
      rewrite ?blen_to_bytes, ?blen_le_bytes in H
  end.

(** ** EFI signature lists *)

(** A signature list: type GUID, header and entries of one size, each an
    owner GUID and its data. *)
Record list_doc := ListDoc { ld_type : bytes; ld_header : bytes; ld_size : Z; ld_entries : list (bytes * bytes) }.

Definition enc_entry (e : bytes * bytes) : bytes := e.1 ++ e.2.
Definition list_size (d : list_doc) : Z := 28 + blen (ld_header d) + Z.of_nat (length (ld_entries d)) * ld_size d.
Definition enc_list (d : list_doc) : bytes :=
  ld_type d ++ le_bytes 4 (list_size d) ++ le_bytes 4 (blen (ld_header d)) ++ le_bytes 4 (ld_size d) ++
  ld_header d ++ concat (enc_entry <$> ld_entries d).

Definition entry_ok (size : Z) (e : bytes * bytes) : bool := (blen e.1 =? 16) && (blen e.2 =? size - 16).
Definition list_ok (d : list_doc) : bool :=
  (blen (ld_type d) =? 16) && (16 <=? ld_size d) && (list_size d <? max_len) &&
  (ld_size d <? max_len) && forallb (entry_ok (ld_size d)) (ld_entries d).

(** What the reader should make of a document. *)
Definition read_list (st : sig_lists) (d : list_doc) : res sig_lists :=
  foldM (fun st e => sig_entry (guid (ld_type d)) (snd e) st) st (ld_entries d).
Definition read_lists : list list_doc -> res sig_lists := foldM read_list sig_lists0.

Lemma blen_entries size l :
  forallb (entry_ok size) l = true -> blen (concat (enc_entry <$> l)) = Z.of_nat (length l) * size.
Proof.
  induction l as [|[o p] l IH]; [done|]. cbn [forallb]. rewrite andb_true_iff. intros [He Hl].
  unfold entry_ok in He. rewrite andb_true_iff, !Z.eqb_eq in He. cbn [fst snd] in He.
  csimpl. unfold enc_entry at 1. rewrite !blen_app. cbn [fst snd]. rewrite IH by done. lia.
Qed.

Lemma blen_enc_list d : list_ok d = true -> blen (enc_list d) = list_size d.
Proof.
  unfold list_ok. rewrite !andb_true_iff. intros [[[[H1 H2] H3] H4] H5].
  unfold enc_list. rewrite !blen_app, !blen_le_bytes, (blen_entries _ _ H5). unfold list_size. lia.
Qed.

(** The entry offsets of a region of [n] entries. *)
Lemma py_range_exact first size n :
  16 <= size -> py_range first (first + Z.of_nat n * size - size + 1) size =
  (fun i => first + Z.of_nat i * size) <$> seq 0 n.
Proof.
  intros Hs. unfold py_range. do 2 f_equal.
  replace (first + Z.of_nat n * size - size + 1 - first + size - 1) with (Z.of_nat n * size) by lia.
  rewrite Z.div_mul by lia. lia.
Qed.

Lemma entries_at buf first size l st ty :
  16 <= size -> forallb (entry_ok size) l = true -> holds buf first (concat (enc_entry <$> l)) ->
  sig_entries buf ty first (first + Z.of_nat (length l) * size) size st =
  foldM (fun st e => sig_entry ty (snd e) st) st l.
Proof.
  intros Hs. unfold sig_entries. rewrite py_range_exact by done.
  revert first st; induction l as [|[o p] l IH]; intros first st Hok H; [done|].
  cbn [forallb] in Hok. rewrite andb_true_iff in Hok. destruct Hok as [He Hok].
  unfold entry_ok in He. rewrite andb_true_iff, !Z.eqb_eq in He. destruct He as [Ho Hp]. cbn [fst snd] in Ho, Hp.
  csimpl in H. apply holds_app in H as [H1 H2]. unfold enc_entry in H1. apply holds_app in H1 as [_ H1].
  cbn [fst snd] in H1. apply holds_slice in H1. rewrite Ho, Hp in H1.
  replace (first + 16 + (size - 16)) with (first + size) in H1 by lia.
  cbn [length seq fmap list_fmap foldM snd]. rewrite Z.mul_0_l, Z.add_0_r, H1.
  destruct (sig_entry ty p st) as [st'|e]; [|done]. cbn [mbind res_bind].
  unfold enc_entry in H2. rewrite blen_app in H2. cbn [fst snd] in H2. rewrite Ho, Hp in H2.
  rewrite <-(IH (first + size) st' Hok); [|by replace (first + (16 + (size - 16))) with (first + size) in H2 by lia].
  f_equal. rewrite <-fmap_S_seq, <-list_fmap_compose. apply list_fmap_ext. intros i x _. cbn. lia.
Qed.

Lemma sig_step d docs buf pos fuel st :
  list_ok d = true -> holds buf pos (enc_list d ++ docs) ->
  sig_loop (S fuel) buf pos st = (st ← read_list st d; sig_loop fuel buf (pos + list_size d) st).
Proof.
  intros Hok H. pose proof (holds_nonneg _ _ _ H) as [Hp Hl]. rewrite blen_app, (blen_enc_list _ Hok) in Hl.
  apply holds_app in H as [H _]. unfold list_ok in Hok. rewrite !andb_true_iff in Hok.
  destruct Hok as [[[[H1 H2] H3] H4] H5]. apply Z.eqb_eq in H1. apply Z.leb_le in H2. apply Z.ltb_lt in H3, H4.
  pose proof (blen_nonneg docs). pose proof (blen_nonneg (ld_header d)).
  assert (28 <= list_size d) as Hsz by (unfold list_size; nia).
  unfold enc_list in H. pieces H. rewrite H1 in *.
  replace (pos + 16 + Z.of_nat 4) with (pos + 20) in * by lia.
  replace (pos + 20 + Z.of_nat 4) with (pos + 24) in * by lia.
  replace (pos + 24 + Z.of_nat 4) with (pos + 28) in * by lia.
  cbn [sig_loop]. unfold max_len in *.
  rewrite (proj2 (Z.leb_gt _ _)), (proj2 (Z.ltb_ge (blen buf) (pos + 28))) by lia.
  apply holds_slice in Hh. rewrite H1 in Hh. rewrite Hh.
  rewrite (holds_le32 _ _ _ Hh0), (holds_le32 _ _ _ Hh1), (holds_le32 _ _ _ Hh2)
    by (unfold word_ok; cbn; unfold list_size in *; nia).
  rewrite (proj2 (Z.ltb_ge (list_size d) 28)), (proj2 (Z.ltb_ge (blen buf) _)), (proj2 (Z.ltb_ge (ld_size d) 16)),
    (proj2 (Z.ltb_ge (pos + list_size d) _)) by (unfold list_size in *; nia).
  cbn [orb].
  replace (pos + list_size d - (pos + 28 + blen (ld_header d)))
    with (Z.of_nat (length (ld_entries d)) * ld_size d) by (unfold list_size; lia).
  rewrite Z.mod_mul by lia. cbn [Z.eqb].
  replace (pos + list_size d) with (pos + 28 + blen (ld_header d) + Z.of_nat (length (ld_entries d)) * ld_size d)
    at 1 by (unfold list_size; lia).
  by rewrite entries_at.
Qed.

Lemma sig_loop_docs docs buf pos fuel st :
  forallb list_ok docs = true -> holds buf pos (concat (enc_list <$> docs)) ->
  pos + blen (concat (enc_list <$> docs)) = blen buf -> (length docs < fuel)%nat ->
  sig_loop fuel buf pos st = foldM read_list st docs.
Proof.
  revert pos fuel st; induction docs as [|d docs IH]; intros pos fuel st Hok H Hend Hf; (destruct fuel as [|fuel]; [simpl in Hf; lia|]).
  - csimpl in Hend. change (blen []) with 0 in Hend. cbn [sig_loop foldM].
    by rewrite (proj2 (Z.leb_le _ _)) by lia.
  - cbn [forallb] in Hok. rewrite andb_true_iff in Hok. destruct Hok as [Hd Hok]. csimpl in H.
    rewrite (sig_step _ _ _ _ _ _ Hd H). cbn [foldM]. destruct (read_list st d) as [st'|e]; [|done]. cbn [mbind res_bind].
    apply holds_app in H as [_ H]. rewrite (blen_enc_list _ Hd) in H. csimpl in Hend.
    rewrite blen_app, (blen_enc_list _ Hd) in Hend. apply IH; [done|done|lia|simpl in Hf; lia].
Qed.

Lemma docs_length docs :
  forallb list_ok docs = true -> Z.of_nat (length docs) <= blen (concat (enc_list <$> docs)).
Proof.
  induction docs as [|d docs IH]; [done|]. cbn [forallb]. rewrite andb_true_iff. intros [Hd Hok].
  csimpl. rewrite blen_app, (blen_enc_list _ Hd). specialize (IH Hok).
  unfold list_ok in Hd. rewrite !andb_true_iff in Hd. pose proof (blen_nonneg (ld_header d)).
  unfold list_size. nia.
Qed.

Lemma signature_lists_enc docs :
  forallb list_ok docs = true -> parse_signature_lists (concat (enc_list <$> docs)) = read_lists docs.
Proof.
  intros Hok. unfold parse_signature_lists. apply sig_loop_docs; [done|apply holds_self|lia|].
  pose proof (docs_length _ Hok). unfold loop_fuel, blen in *. lia.
Qed.

Lemma der_message_none e : der_message e = None -> der_or_value e -> is_value_error e.
Proof. intros H [[msg ->]|Hv]; [|done]. discriminate. Qed.

Lemma safe_sig_entry ty payload st : safe is_value_error (fun _ => True) (sig_entry ty payload st).
Proof.
  unfold sig_entry. destruct (String.eqb ty EFI_CERT_X509); [|done].
  pose proof (safe_parse_certificate payload) as H. destruct (parse_certificate payload) as [c|e]; [done|].
  simpl in H. destruct (der_message e) eqn:E; [done|]. by apply der_message_none.
Qed.

Lemma safe_sig_loop data fuel pos st :
  0 <= pos -> Z.max 0 (blen data - pos) < Z.of_nat fuel ->
  safe is_value_error (fun _ => True) (sig_loop fuel data pos st).
Proof.
  revert pos st; induction fuel as [|fuel IH]; intros pos st Hp Hf; [lia|]. cbn [sig_loop].
  destruct (blen data <=? pos) eqn:?; [done|]. destruct (blen data <? pos + 28) eqn:?; [done|].
  match goal with |- safe _ _ (if ?c then _ else _) => destruct c eqn:E; [done|] end.
  rewrite !orb_false_iff in E. eapply (safe_bind _ (fun _ => True)).
  - apply (safe_foldM _ (fun _ => True)); [done|]. intros. apply safe_sig_entry.
  - intros st' _. apply IH; lia.
Qed.

Lemma safe_parse_signature_lists data : safe is_value_error (fun _ => True) (parse_signature_lists data).
Proof. apply safe_sig_loop; [lia|]. unfold loop_fuel, blen. lia. Qed.

(** ** TPM 2.0 responses *)

(** A success response: the header, the moreData octet, the capability and
    the entries. *)
Definition id_width (capability : Z) : nat := if capability =? TPM2_CAP_ALGS then 2 else 4.
Definition enc_tpm_entry (w : nat) (e : Z * Z) : bytes := to_bytes w e.1 ++ to_bytes 4 e.2.
Definition tpm_size (w : nat) (l : list (Z * Z)) : Z := 19 + Z.of_nat (length l) * (Z.of_nat w + 4).
Definition enc_capability_response (tag capability : Z) (more : byte) (l : list (Z * Z)) : bytes :=
  let w := id_width capability in
  to_bytes 2 tag ++ to_bytes 4 (tpm_size w l) ++ to_bytes 4 0 ++ [more] ++
  to_bytes 4 capability ++ to_bytes 4 (Z.of_nat (length l)) ++ concat (enc_tpm_entry w <$> l).
Definition tpm_entry_ok (w : nat) (e : Z * Z) : bool :=
  (0 <=? e.1) && (e.1 <? 256 ^ Z.of_nat w) && (0 <=? e.2) && (e.2 <? 256 ^ 4).

Lemma tpm_entries_at buf what w l pos fuel size :
  forallb (tpm_entry_ok w) l = true -> holds buf pos (concat (enc_tpm_entry w <$> l)) ->
  pos + Z.of_nat (length l) * (Z.of_nat w + 4) <= size -> (length l < fuel)%nat ->
  tpm_entries fuel buf what size (Z.of_nat w) (Z.of_nat (length l)) pos = Ok l.
Proof.
  revert pos fuel; induction l as [|[i v] l IH]; intros pos fuel Hok H Hs Hf; (destruct fuel as [|fuel]; [simpl in Hf; lia|]); [done|].
  cbn [forallb] in Hok. rewrite andb_true_iff in Hok. destruct Hok as [He Hok].
  unfold tpm_entry_ok in He. rewrite !andb_true_iff, !Z.leb_le, !Z.ltb_lt in He. cbn [fst snd] in He.
  csimpl in H. apply holds_app in H as [H1 H2]. unfold enc_tpm_entry in H1. apply holds_app in H1 as [Hi Hv].
  unfold enc_tpm_entry in H2. cbn [fst snd] in *. rewrite blen_app, !blen_to_bytes in H2. rewrite blen_to_bytes in Hv.
  cbn [tpm_entries length]. cbn [length] in Hs, Hf.
  rewrite Nat2Z.inj_succ, Z.mul_succ_l in Hs. assert (0 <= Z.of_nat (length l) * (Z.of_nat w + 4)) by nia.
  rewrite (proj2 (Z.leb_gt _ _)), (proj2 (Z.ltb_ge _ _)) by lia.
  replace (Z.of_nat (S (length l)) - 1) with (Z.of_nat (length l)) by lia.
  replace (pos + (Z.of_nat w + Z.of_nat 4)) with (pos + (Z.of_nat w + 4)) in H2 by lia.
  rewrite (IH _ fuel Hok H2) by lia. cbn [mbind res_bind]. do 3 f_equal.
  - apply holds_word; [done|]. unfold word_ok. lia.
  - unfold be32. change 4 with (Z.of_nat 4). apply holds_word; [done|]. unfold word_ok. lia.
Qed.

Lemma capability_response_enc tag capability more l :
  capability = TPM2_CAP_ALGS \/ capability = TPM2_CAP_TPM_PROPERTIES ->
  forallb (tpm_entry_ok (id_width capability)) l = true -> tpm_size (id_width capability) l < max_len ->
  parse_get_capability_response (enc_capability_response tag capability more l) = Ok (0, l).
Proof.
  intros Hc Hok Hsz. set (w := id_width capability) in *.
  set (buf := enc_capability_response tag capability more l).
  assert (blen (concat (enc_tpm_entry w <$> l)) = Z.of_nat (length l) * (Z.of_nat w + 4)) as Hlen.
  { clear. induction l as [|e l IH]; [done|]. csimpl. unfold enc_tpm_entry at 1.
    rewrite !blen_app, !blen_to_bytes, IH. lia. }
  assert (blen buf = tpm_size w l) as Hbuf.
  { unfold buf, enc_capability_response. fold w. rewrite !blen_app, !blen_to_bytes, Hlen. unfold tpm_size. change (blen [more]) with 1. lia. }
  assert (holds buf 0 (enc_capability_response tag capability more l)) as H by apply holds_self.
  unfold enc_capability_response in H. fold w in H. pieces H.
  change (blen [more]) with 1 in H. cbn in Hh3, Hh4, H. change (to_bytes 4 0) with [x00; x00; x00; x00] in Hh1.
  unfold parse_get_capability_response. rewrite Hbuf. unfold max_len, tpm_size in Hsz.
  rewrite (proj2 (Z.ltb_ge _ 10)) by (unfold tpm_size; lia).
  assert (be32 buf 2 = tpm_size w l) as ->.
  { unfold be32. change 4 with (Z.of_nat 4). apply holds_word; [done|]. unfold word_ok, tpm_size. cbn. lia. }
  assert (be32 buf 6 = 0) as ->.
  { unfold be32. change 4 with (Z.of_nat 4). apply (holds_word _ _ 4 0); done. }
  cbn [negb Z.eqb]. rewrite Z.ltb_irrefl, (proj2 (Z.ltb_ge _ 19)) by (unfold tpm_size; lia). cbn [orb].
  assert (be32 buf 11 = capability) as ->.
  { unfold be32. change 4 with (Z.of_nat 4). apply holds_word; [done|]. unfold word_ok. destruct Hc as [-> | ->]; done. }
  assert (be32 buf 15 = Z.of_nat (length l)) as ->.
  { unfold be32. change 4 with (Z.of_nat 4). apply holds_word; [done|]. unfold word_ok. cbn. lia. }
  assert (forall what, tpm_entries (loop_fuel buf) buf what (tpm_size w l) (Z.of_nat w) (Z.of_nat (length l)) 19 = Ok l) as He.
  { intros what. apply tpm_entries_at; [done|done|unfold tpm_size; lia|].
    unfold loop_fuel. unfold blen, tpm_size in Hbuf. lia. }
  destruct Hc as [-> | ->]; cbn [TPM2_CAP_ALGS TPM2_CAP_TPM_PROPERTIES Z.eqb Pos.eqb].
  - change 2 with (Z.of_nat w). by rewrite He.
  - change 4 with (Z.of_nat w). by rewrite He.
Qed.

Lemma safe_tpm_entries resp what size w fuel count pos :
  0 <= pos -> 0 <= w -> size <= blen resp -> Z.max 0 (blen resp - pos) < Z.of_nat fuel ->
  safe is_value_error (fun l => Z.of_nat (length l) = Z.max 0 count) (tpm_entries fuel resp what size w count pos).
Proof.
  revert count pos; induction fuel as [|fuel IH]; intros count pos Hp Hw Hs Hf; [lia|]. cbn [tpm_entries].
  destruct (count <=? 0) eqn:?; [cbn; lia|]. destruct (size <? pos + (w + 4)) eqn:?; [by eexists|].
  eapply safe_bind; [apply IH; lia|]. intros rest Hr. cbv beta in Hr. cbn [safe length]. lia.
Qed.

Lemma safe_capability_response resp :
  safe is_value_error (fun r => r.1 <> 0 -> r.2 = []) (parse_get_capability_response resp).
Proof.
  unfold parse_get_capability_response. destruct (blen resp <? 10); [by eexists|].
  destruct (be32 resp 6 =? 0) eqn:Erc; cbn [negb]; [|done].
  match goal with |- safe _ _ (if ?c then _ else _) => destruct c eqn:E; [by eexists|] end.
  rewrite orb_false_iff in E. apply Z.eqb_eq in Erc. rewrite Erc.
  repeat (match goal with |- safe _ _ (if ?c then _ else _) => destruct c eqn:? end); [| |by eexists];
    (eapply safe_bind; [apply safe_tpm_entries; try lia; unfold loop_fuel, blen; lia|by intros l _ []]).
Qed.

(** ** Module signatures *)

Lemma safe_last_element der pos stop :
  0 <= pos -> stop <= blen der ->
  safe is_der_error (fun o => match o with Some (_, s, e) => 0 <= s /\ e <= stop | None => True end)
    (last_element der pos stop).
Proof.
  intros Hp Hs. unfold last_element.
  eapply safe_bind; [apply (safe_der_loop is_der_error (fun r : Z * Z * Z => 0 <= r.1.2 /\ r.2 <= stop))|].
  - intros p Hpos. tlv [[tag s] e]. simpl. lia.
  - unfold loop_fuel, blen in *. lia.
  - intros l Hl. simpl. destruct (last l) as [[[t s] e]|] eqn:E; [|done].
    apply last_Some in E as [l' ->]. rewrite Forall_app, Forall_singleton in Hl. apply Hl.
Qed.

Lemma safe_sid_signer der tag s e :
  0 <= s -> e <= blen der -> safe is_der_error (fun _ => True) (sid_signer der tag s e).
Proof.
  intros. unfold sid_signer. destruct (tag =? 48); [|done]. tlv [[itag i1] i2].
  destruct (itag =? 48); [|done]. eapply safe_bind; [apply safe_der_name; lia|done].
Qed.

Lemma safe_skip_attrs der pos stop :
  0 <= pos -> stop <= blen der -> safe is_der_error (fun p => p = pos \/ pos_in pos stop p) (skip_attrs der pos stop).
Proof. apply safe_skip_version. Qed.

Lemma safe_parse_pkcs7_signer der : safe is_der_error (fun _ => True) (parse_pkcs7_signer der).
Proof.
  unfold parse_pkcs7_signer. tlv [[t0 s0] e0]. tlv [[t1 s1] e1].
  apply (safe_bind _ (fun _ => True)).
  { destruct (t1 =? 6); [|done]. oid o. done. }
  intros signed _. der_step; [apply safe_der_raise|].
  tlv [[t2 s2] e2]. tlv [[t3 s3] e3].
  eapply safe_bind; [apply safe_last_element; lia|]. intros [[[t4 s4] e4]|] Hl; [|apply safe_der_raise].
  destruct Hl as [Hl1 Hl2].
  destruct (decide (t4 = 49)) as [->|Hne]; [|repeat case_match; try (by apply safe_der_raise); by subst].
  tlv [[t5 s5] e5]. tlv [[t6 s6] e6]. tlv [[t7 s7] e7].
  eapply safe_bind; [apply safe_sid_signer; lia|]. intros signer _.
  eapply safe_bind; [apply safe_der_algorithm_oid; lia|]. intros [digest p1] Hp1. unfold pos_in in Hp1. cbn [snd] in Hp1.
  eapply safe_bind; [apply safe_skip_attrs; lia|]. intros p2 Hp2. unfold pos_in in Hp2.
  eapply safe_bind; [apply safe_der_algorithm_oid; lia|]. intros [sig p3] Hp3. unfold pos_in in Hp3. cbn [snd] in Hp3.
  tlv [[t8 s8] e8]. by destruct (default _ _).
Qed.

Lemma safe_parse_module_signature data : safe (fun _ => False) (fun _ => True) (parse_module_signature data).
Proof.
  unfold parse_module_signature. destruct (ends_with_bytes _ _); [|done]. cbn [negb].
  destruct (_ <? MODULE_SIG_STRUCT_SIZE) eqn:E; [done|]. unfold MODULE_SIG_STRUCT_SIZE in *.
  pose proof (blen_nonneg MODULE_SIG_MAGIC).
  destruct (byte_at_ok data (blen data - blen MODULE_SIG_MAGIC - 12 + 2)) as (b & -> & _); [lia|]. cbn [mbind res_bind].
  destruct (_ || _); [done|].
  match goal with |- context [parse_pkcs7_signer ?d] => pose proof (safe_parse_pkcs7_signer d) as Hs; destruct (parse_pkcs7_signer d) as [i|e] end; [done|].
  destruct Hs as [msg ->]. done.
Qed.

(** A CMS SignedData with one signer of interest: the elements before the
    signer set, the issuer and serial, the algorithms, the optional signed
    attributes, the signature, and whatever follows. *)
Record signer_doc := SignerDoc {
  sd_elements : list (Z * bytes); sd_version : bytes; sd_issuer : list (list attr_doc); sd_serial : bytes;
  sd_digest : list Z; sd_digest_params : bytes; sd_attrs : option bytes;
  sd_sig : list Z; sd_sig_params : bytes; sd_signature : bytes; sd_unsigned : bytes; sd_more : bytes }.

Definition signed_data_oid : list Z := [1; 2; 840; 113549; 1; 7; 2].
Definition enc_element (e : Z * bytes) : bytes := tlv e.1 e.2.
Definition enc_attrs (o : option bytes) : bytes := match o with Some a => tlv 160 a | None => [] end.
Definition enc_signer (d : signer_doc) : bytes :=
  tlv 2 (sd_version d) ++ tlv 48 (tlv 48 (enc_name (sd_issuer d)) ++ tlv 2 (sd_serial d)) ++
  tlv_alg (sd_digest d) (sd_digest_params d) ++ enc_attrs (sd_attrs d) ++
  tlv_alg (sd_sig d) (sd_sig_params d) ++ tlv 4 (sd_signature d) ++ sd_unsigned d.
Definition enc_signed_data (d : signer_doc) : bytes :=
  tlv 48 (tlv_oid signed_data_oid ++
    tlv 160 (tlv 48 (concat (enc_element <$> sd_elements d) ++ tlv 49 (tlv 48 (enc_signer d) ++ sd_more d)))).

Definition signer_ok (d : signer_doc) : bool :=
  forallb (fun e => low_tag e.1) (sd_elements d) && name_ok (sd_issuer d) && oid_arcs_ok (sd_digest d) &&
  oid_arcs_ok (sd_sig d) && (blen (enc_signed_data d) <? max_len).

(** What should be reported of it. *)
Definition signer_of (d : signer_doc) : signer_info :=
  let sig := show_arcs (sd_sig d) in
  let '(family, category) := default (sig, "unknown") (dget sig SIGNATURE_OIDS) in
  SignerInfo (Some (name_text (sd_issuer d)))
    (default (show_arcs (sd_digest d)) (dget (show_arcs (sd_digest d)) DIGEST_OIDS)) family sig
    (if String.eqb family "RSA" then Some (blen (sd_signature d) * 8) else None) category.

Section Signer.
Context (buf : bytes).
Hypothesis Hsmall : blen buf < max_len.

Lemma last_element_at pos stop xs t v fuel :
  forallb (fun e => low_tag e.1) xs = true -> low_tag t = true ->
  region buf pos stop (concat (enc_element <$> xs) ++ tlv t v) -> (length xs + 1 < fuel)%nat ->
  exists l s, der_loop fuel (fun pos => '(tag, a, b) ← der_tlv buf pos stop; Ok ((tag, a, b), b)) pos stop =
    Ok (l ++ [(t, s, stop)]) /\ region buf s stop v.
Proof.
  revert pos fuel; induction xs as [|[t1 v1] xs IH]; intros pos fuel Hok Ht H Hf; (destruct fuel as [|fuel]; [simpl in Hf; lia|]).
  - csimpl in H. destruct (region_tlv_last _ Hsmall _ _ _ _ H Ht) as (s & H1 & H2).
    destruct (region_tlv_byte buf pos stop t v [] ltac:(by rewrite app_nil_r) Ht) as [_ Hlt].
    exists [], s. split; [|done]. cbn [der_loop]. rewrite (proj2 (Z.ltb_lt _ _)), H1 by done. cbn [mbind res_bind].
    destruct fuel as [|fuel]; [simpl in Hf; lia|]. cbn [der_loop]. by rewrite Z.ltb_irrefl.
  - cbn [forallb] in Hok. rewrite andb_true_iff in Hok. destruct Hok as [H1 Hok]. csimpl in H.
    rewrite <-app_assoc in H. unfold enc_element in H at 1. cbn [fst snd] in *.
    destruct (region_tlv _ Hsmall _ _ _ _ _ H H1) as (s & e & H2 & _ & H3 & _).
    destruct (region_tlv_byte _ _ _ _ _ _ H H1) as [_ Hlt].
    destruct (IH e fuel Hok Ht H3) as (l & s' & Hl & Hr); [simpl in Hf; lia|].
    exists ((t1, s, e) :: l), s'. split; [|done]. cbn [der_loop].
    rewrite (proj2 (Z.ltb_lt _ _)), H2 by done. cbn [mbind res_bind]. by rewrite Hl.
Qed.

Lemma last_element_enc pos stop xs t v :
  forallb (fun e => low_tag e.1) xs = true -> low_tag t = true ->
  region buf pos stop (concat (enc_element <$> xs) ++ tlv t v) ->
  exists s, last_element buf pos stop = Ok (Some (t, s, stop)) /\ region buf s stop v.
Proof.
  intros Hok Ht H.
  destruct (last_element_at pos stop xs t v (loop_fuel buf) Hok Ht H) as (l & s & Hl & Hr).
  - assert (forall x, x ∈ xs -> 0 < blen (enc_element x)) as Hpos by (intros; apply blen_tlv_pos).
    pose proof (count_le_blen _ _ Hpos). apply region_len in H. rewrite blen_app in H.
    pose proof (blen_tlv_pos t v). unfold loop_fuel, blen in *. lia.
  - exists s. unfold last_element. rewrite Hl. cbn [mbind res_bind]. by rewrite last_snoc.
Qed.

Lemma skip_attrs_at pos stop o arcs params rest :
  region buf pos stop (enc_attrs o ++ tlv_alg arcs params ++ rest) ->
  exists p, skip_attrs buf pos stop = Ok p /\ region buf p stop (tlv_alg arcs params ++ rest).
Proof.
  intros H. unfold skip_attrs. destruct o as [a|]; cbn [enc_attrs] in H.
  - destruct (region_tlv_byte _ _ _ _ _ _ H eq_refl) as [Hb Hlt].
    rewrite (proj2 (Z.ltb_lt _ _)), Hb by done. cbn [mbind res_bind]. cbn.
    destruct (region_tlv _ Hsmall _ _ _ _ _ H eq_refl) as (s & e & H1 & _ & H3 & _).
    rewrite H1. eauto.
  - cbn [app] in H. unfold tlv_alg in H. destruct (region_tlv_byte _ _ _ _ _ _ H eq_refl) as [Hb Hlt].
    rewrite (proj2 (Z.ltb_lt _ _)), Hb by done. eauto.
Qed.

Lemma sid_signer_at pos stop n serial :
  name_ok n = true -> region buf pos stop (tlv 48 (enc_name n) ++ tlv 2 serial) ->
  sid_signer buf 48 pos stop = Ok (Some (name_text n)).
Proof.
  intros Hn H. unfold sid_signer. cbn [Z.eqb Pos.eqb].
  destruct (region_tlv _ Hsmall _ _ _ _ _ H eq_refl) as (s & e & -> & H1 & _). cbn [mbind res_bind Z.eqb Pos.eqb].
  by rewrite (name_at _ Hsmall _ _ _ Hn H1).
Qed.
End Signer.

Ltac red1 := cbn [mbind res_bind negb Z.eqb Pos.eqb andb orb default fst snd]; cbn iota.

Lemma signed_data_enc d : signer_ok d = true -> parse_pkcs7_signer (enc_signed_data d) = Ok (signer_of d).
Proof.
  unfold signer_ok. rewrite !andb_true_iff, Z.ltb_lt. intros [[[[He Hn] Hd] Hs] Hlen].
  set (buf := enc_signed_data d) in *. unfold parse_pkcs7_signer.
  destruct (region_tlv_last buf Hlen 0 (blen buf) 48 _ (region_self buf) eq_refl) as (s0 & -> & H0). red1.
  destruct (region_oid buf Hlen _ _ _ _ H0 eq_refl) as (s1 & e1 & -> & Ho & H1 & _). red1.
  rewrite Ho. red1.
  assert (String.eqb (show_arcs signed_data_oid) "1.2.840.113549.1.7.2" = true) as -> by (vm_compute; reflexivity). red1.
  destruct (region_tlv_last buf Hlen _ _ _ _ H1 eq_refl) as (s2 & -> & H2). red1.
  destruct (region_tlv_last buf Hlen _ _ _ _ H2 eq_refl) as (s3 & -> & H3). red1.
  destruct (last_element_enc buf Hlen _ _ _ 49 _ He eq_refl H3) as (s4 & -> & H4). red1.
  destruct (region_tlv buf Hlen _ _ _ _ _ H4 eq_refl) as (s5 & e5 & -> & H5 & _). red1.
  unfold enc_signer in H5.
  destruct (region_tlv buf Hlen _ _ _ _ _ H5 eq_refl) as (s6 & e6 & -> & _ & H6 & _). red1.
  destruct (region_tlv buf Hlen _ _ _ _ _ H6 eq_refl) as (s7 & e7 & -> & V7 & H7 & _). red1.
  rewrite (sid_signer_at buf Hlen _ _ _ _ Hn V7). red1.
  destruct (region_alg buf Hlen _ _ _ _ _ H7 Hd) as (p1 & -> & H8). red1.
  destruct (skip_attrs_at buf Hlen _ _ _ _ _ _ H8) as (p2 & -> & H9). red1.
  destruct (region_alg buf Hlen _ _ _ _ _ H9 Hs) as (p3 & -> & H10). red1.
  destruct (region_tlv buf Hlen _ _ _ _ _ H10 eq_refl) as (s8 & e8 & -> & V8 & _ & _). red1.
  unfold signer_of. destruct (dget (show_arcs (sd_sig d)) SIGNATURE_OIDS) as [[fam cat]|]; cbn [default from_option id];
    rewrite andb_true_r; apply region_len in V8 as (_ & -> & _); do 3 f_equal; by replace (s8 + blen (sd_signature d) - s8) with (blen (sd_signature d)) by lia.
Qed.

(** The trailer of a signed module. *)
Record trailer := Trailer { tr_algo : byte; tr_hash : byte; tr_id_type : byte; tr_signer_len : byte; tr_key_id_len : byte }.
Definition enc_trailer (t : trailer) (sig_len : Z) : bytes :=
  [tr_algo t; tr_hash t; tr_id_type t; tr_signer_len t; tr_key_id_len t; x00; x00; x00] ++ to_bytes 4 sig_len.
Definition enc_module (payload signature : bytes) (t : trailer) : bytes :=
  payload ++ signature ++ enc_trailer t (blen signature) ++ MODULE_SIG_MAGIC.

Lemma ends_with_bytes_app a b : ends_with_bytes b (a ++ b) = true.
Proof.
  unfold ends_with_bytes. rewrite length_app, andb_true_iff. split; [|apply Nat.leb_le; lia].
  apply bool_decide_eq_true. replace (length a + length b - length b)%nat with (length a) by lia. apply drop_app_length.
Qed.

Lemma module_signature_enc payload d t :
  signer_ok d = true -> bval (tr_id_type t) = PKEY_ID_PKCS7 ->
  parse_module_signature (enc_module payload (enc_signed_data d) t) = Ok (Some (Signed (signer_of d))).
Proof.
  intros Hok Ht. set (sig := enc_signed_data d). set (buf := enc_module payload sig t).
  assert (0 < blen sig < max_len) as Hsig.
  { unfold signer_ok in Hok. rewrite !andb_true_iff, Z.ltb_lt in Hok. split; [apply blen_tlv_pos|apply Hok]. }
  assert (holds buf 0 (payload ++ sig ++ enc_trailer t (blen sig) ++ MODULE_SIG_MAGIC)) as H by apply holds_self.
  apply holds_app in H as [_ H]. apply holds_app in H as [Hs H]. apply holds_app in H as [Htr Hm].
  unfold enc_trailer in Htr. apply holds_app in Htr as [Hh Hl]. rewrite Z.add_0_l in *.
  assert (blen buf = blen payload + blen sig + 12 + blen MODULE_SIG_MAGIC) as Hbuf.
  { unfold buf, enc_module, enc_trailer. rewrite !blen_app, blen_to_bytes. change (blen [_; _; _; _; _; _; _; _]) with 8. lia. }
  unfold parse_module_signature. unfold buf at 1, enc_module. rewrite 2!app_assoc, ends_with_bytes_app. cbn [negb].
  pose proof (blen_nonneg payload). pose proof (blen_nonneg MODULE_SIG_MAGIC).
  rewrite (proj2 (Z.ltb_ge _ _)) by (unfold MODULE_SIG_STRUCT_SIZE; lia). unfold MODULE_SIG_STRUCT_SIZE.
  replace (blen buf - blen MODULE_SIG_MAGIC - 12) with (blen payload + blen sig) by lia.
  change [tr_algo t; tr_hash t; tr_id_type t; tr_signer_len t; tr_key_id_len t; x00; x00; x00]
    with ([tr_algo t; tr_hash t] ++ [tr_id_type t; tr_signer_len t; tr_key_id_len t; x00; x00; x00]) in Hh.
  apply holds_app in Hh as [_ Hh]. apply holds_byte in Hh. rewrite Ht in Hh.
  change (blen [tr_algo t; tr_hash t]) with 2 in Hh. rewrite Hh. cbn [mbind res_bind].
  assert (be32 buf (blen payload + blen sig + 8) = blen sig) as ->.
  { unfold be32. change 4 with (Z.of_nat 4). apply holds_word; [exact Hl|]. unfold word_ok, max_len in *. cbn. lia. }
  replace (blen payload + blen sig - blen sig) with (blen payload) by lia.
  rewrite (proj2 (Z.eqb_neq (blen sig) 0)), (proj2 (Z.ltb_ge (blen payload) 0)) by lia. cbn [negb Z.eqb Pos.eqb PKEY_ID_PKCS7 orb].
  rewrite (holds_slice _ _ _ Hs). unfold sig. by rewrite signed_data_enc.
Qed.

(** ** Properties *)


(** A kernel module signed with PKCS#7 is recognised whatever its
    contents: the signer's issuer, digest and signature algorithms, and for
    RSA the key size, are those of the encoded SignedData, also when
    attributes, other elements or further signers are present.  No file
    makes the reader raise. *)
Theorem module_signature_roundtrip payload d t data :
  (signer_ok d = true -> bval (tr_id_type t) = PKEY_ID_PKCS7 ->
    parse_module_signature (enc_module payload (enc_signed_data d) t) = Ok (Some (Signed (signer_of d)))) /\
  exists r, parse_module_signature data = Ok r.
Proof.
  split; [apply module_signature_enc|]. pose proof (safe_parse_module_signature data) as H.
  destruct (parse_module_signature data) as [r|e]; [by eexists|done].
Qed.

(** The TPM reader inverts the TPM 2.0 encoding of a capability
    response: every algorithm or property with its value, in order.  On
    arbitrary bytes it returns or raises [ValueError] (never reading past
    the response or past its declared size), and an error code comes
    without entries. *)
Theorem tpm_response_roundtrip tag capability more l resp :
  (capability = TPM2_CAP_ALGS \/ capability = TPM2_CAP_TPM_PROPERTIES ->
   forallb (tpm_entry_ok (id_width capability)) l = true -> tpm_size (id_width capability) l < max_len ->
   parse_get_capability_response (enc_capability_response tag capability more l) = Ok (0, l)) /\
  safe is_value_error (fun r => r.1 <> 0 -> r.2 = []) (parse_get_capability_response resp).
Proof. split; [apply capability_response_enc|apply safe_capability_response]. Qed.

Definition rsa_sha256 : list Z := [1; 2; 840; 113549; 1; 1; 1].
Definition sample_signer : signer_doc :=
  SignerDoc [(2, [x01]); (49, []); (48, [x01; x02])] [x01]
    [[Attr [2; 5; 4; 3] 12 (digits_of "Build key")]] [x01; x02]
    [2; 16; 840; 1; 101; 3; 4; 2; 1] [] (Some [x30; x00]) rsa_sha256 [] (replicate 256 x00) [] [].

Lemma module_signature_roundtrip_witness :
  signer_ok sample_signer = true /\
  parse_module_signature (enc_module (to_b "ELF") (enc_signed_data sample_signer) (Trailer x00 x00 x02 x00 x00)) =
    Ok (Some (Signed (SignerInfo (Some "CN=Build key") "sha256" "RSA" "1.2.840.113549.1.1.1" (Some 2048) "classical"))).
Proof.
  assert (signer_ok sample_signer = true) as H by (vm_compute; reflexivity). split; [exact H|].
  etransitivity; [apply (module_signature_roundtrip (to_b "ELF") sample_signer (Trailer x00 x00 x02 x00 x00) [] ); [exact H|reflexivity]|].
  vm_compute. reflexivity.
Defined.

Definition sha256_guid : bytes :=
  [x26; x16; xc4; xc1; x4c; x50; x92; x40; xac; xa9; x41; xf9; x36; x93; x43; x28].
Definition sample_lists : list list_doc := [
  ListDoc sha256_guid [] 48 [(replicate 16 x00, replicate 32 x01); (replicate 16 x00, replicate 32 x02)];
  ListDoc (replicate 16 x00) [x01; x02; x03] 17 [(replicate 16 x00, [x09])]].


Lemma tpm_response_roundtrip_witness :
  parse_get_capability_response (enc_capability_response 32769 TPM2_CAP_ALGS x00 [(160, 5); (1, 7)]) =
    Ok (0, [(160, 5); (1, 7)]).
Proof.
  apply (tpm_response_roundtrip 32769 TPM2_CAP_ALGS x00 [(160, 5); (1, 7)] []);
    [left; reflexivity | vm_compute; reflexivity | vm_compute; reflexivity].
Defined.
