(* ===== verification/SarifTables.v ===== *)
(** * SARIF: the rule table ([render/sarif.py], lines 52-566)

    [RULE_SPECS] and [SECURITY_SEVERITY] as the code writes them. *)

From S2P Require Import Prelude PyStr PyDict.
Open Scope Z_scope.

Definition SARIF_VERSION : string := "2.1.0".
Definition SARIF_SCHEMA_URI : string := "https://json.schemastore.org/sarif-2.1.0.json".

Record rule_spec := RuleSpec {
  rs_id : string; rs_short : string; rs_full : string; rs_level : string; rs_help : string }.

Definition RULE_SPECS : list rule_spec := [
  RuleSpec "pqc-001-openssl-pre-3.5"
    "OpenSSL is older than 3.5 (no native PQC)."
    "The host's OpenSSL is older than 3.5.0, which is the first release with native ML-KEM (FIPS 203) and ML-DSA (FIPS 204) support.  Pre-3.5 OpenSSL cannot expose PQC algorithms or the hybrid TLS groups standardized in RFC 10024 (e.g. X25519MLKEM768) to applications without a third-party provider."
    "warning" "https://github.com/aclater/pqc-readiness/blob/main/docs/rules/pqc-001-openssl-pre-3.5.md";
  RuleSpec "pqc-002-fips-pqc-conflict"
    "Kernel FIPS mode active but PQC exposed via non-FIPS provider."
    "Kernel FIPS mode is enabled and OpenSSL is exposing PQC algorithms, but the FIPS provider does not yet include ML-KEM or ML-DSA.  The algorithms appear listed yet would not be usable in a FIPS-validated workflow."
    "error" "https://github.com/aclater/pqc-readiness/blob/main/docs/rules/pqc-002-fips-pqc-conflict.md";
  RuleSpec "pqc-003-no-pqc-isa-support"
    "ISA tier is poor and no PQC accelerator is present."
    "The host's ISA feature score is below the threshold for software PQC, and no PQC-capable accelerator (HSM, network HSM, or dedicated silicon) was detected.  The host cannot be made PQC-ready in software alone."
    "warning" "https://github.com/aclater/pqc-readiness/blob/main/docs/rules/pqc-003-no-pqc-isa-support.md";
  RuleSpec "pqc-004-classical-only-trust-store"
    "Trust store contains zero PQC and zero hybrid certificates."
    "The system trust store was scanned and every certificate uses classical signature algorithms.  Trust-store rotation to PQC roots will be required before pure-PQC chains validate against this host."
    "note" "https://github.com/aclater/pqc-readiness/blob/main/docs/rules/pqc-004-classical-only-trust-store.md";
  RuleSpec "pqc-005-slh-dsa-in-tls-context"
    "SLH-DSA exposed for TLS use; signatures are large for handshakes."
    "OpenSSL is exposing SLH-DSA (SPHINCS+) signature algorithms.  SLH-DSA signatures are an order of magnitude larger than ML-DSA and substantially slow TLS handshakes; ML-DSA is the recommended TLS signature primitive in NIST PQC migration guidance."
    "warning" "https://github.com/aclater/pqc-readiness/blob/main/docs/rules/pqc-005-slh-dsa-in-tls-context.md";
  RuleSpec "pqc-006-no-network-hsm-pqc-firmware"
    "Network HSM client present but appliance is not PQC-capable."
    "A network-attached HSM client integration is installed on the host, but the appliance has not been flagged as PQC-capable.  Confirm the appliance firmware version supports ML-KEM / ML-DSA before depending on the HSM for PQC operations."
    "warning" "https://github.com/aclater/pqc-readiness/blob/main/docs/rules/pqc-006-no-network-hsm-pqc-firmware.md";
  RuleSpec "pqc-007-fips-without-algorithm-fence"
    "FIPS active but the default OpenSSL provider exposes non-FIPS-validated PQC algorithms."
    "The kernel reports FIPS mode active and the OpenSSL FIPS provider is loaded, but the default provider exposes algorithms that are not in the FIPS provider's set.  Operators conflating 'FIPS mode is on' with 'only FIPS-validated algorithms are reachable' will get a different answer than the system enforces.  See the FIPS algorithm-fence finding for mechanism and mitigation."
    "error" "https://github.com/aclater/pqc-readiness/blob/main/docs/rules/pqc-007-fips-without-algorithm-fence.md";
  RuleSpec "pqc-008-crypto-policy-blocks-pqc"
    "OpenSSL supports PQC TLS groups but the system crypto policy keeps them out."
    "The installed OpenSSL exposes hybrid or pure ML-KEM TLS 1.3 groups, but the active system-wide crypto policy lists none in its OpenSSL back-end, so applications using the system default never negotiate PQC.  Measured on RHEL-family 9.8 hosts, whose DEFAULT policy enables no PQC; the PQ subpolicy (EL9) or TEST-PQ (EL10 / Fedora) turns it on, and NO-PQ turns it off."
    "warning" "https://github.com/aclater/pqc-readiness/blob/main/docs/rules/pqc-008-crypto-policy-blocks-pqc.md";
  RuleSpec "pqc-009-classical-package-signing-keys"
    "Every package-signing key the package manager trusts is classical."
    "No trusted package-signing key (rpm gpg-pubkey, apt keyring, pacman keyring, apk key) uses a post-quantum or composite signature algorithm.  Package signing keys are long-lived trust anchors; CNSA 2.0 expects software and firmware signing to use ML-DSA-87 or LMS/XMSS by 2030, and OpenPGP defines ML-DSA and SLH-DSA keys in RFC 9980.  Informational: the fix belongs to the distribution or repository owner, but the host has to trust the new key before PQC-signed packages verify."
    "note" "https://github.com/aclater/pqc-readiness/blob/main/docs/rules/pqc-009-classical-package-signing-keys.md";
  RuleSpec "pqc-010-sshd-pqc-kex-not-offered"
    "OpenSSH supports a PQC key exchange but sshd does not offer it (or not first)."
    "The installed OpenSSH supports hybrid post-quantum key exchange (mlkem768x25519-sha256 / mlkem1024nistp384-sha384, RFC 10042, or sntrup761x25519-sha512), but sshd's effective KexAlgorithms offers none of them, so SSH sessions to this host stay quantum-vulnerable to harvest-now-decrypt-later.  Measured on Rocky Linux 9.8 with the DEFAULT crypto policy.  Reported as a note when a PQC method is offered but a classical one is preferred.  Usually fixed by the system crypto policy or KexAlgorithms in sshd_config."
    "warning" "https://github.com/aclater/pqc-readiness/blob/main/docs/rules/pqc-010-sshd-pqc-kex-not-offered.md";
  RuleSpec "pqc-011-service-crypto-library-without-pqc"
    "A listening service uses a crypto library that cannot do PQC."
    "A process listening on this host maps a TLS / crypto library whose version has no ML-KEM hybrid key exchange (e.g. OpenSSL older than 3.5, NSS older than 3.108).  Whatever the system policy says, connections to this service stay classical and exposed to harvest-now-decrypt-later until the library or the service is upgraded.  Needs --scan-services."
    "warning" "https://github.com/aclater/pqc-readiness/blob/main/docs/rules/pqc-011-service-crypto-library-without-pqc.md";
  RuleSpec "pqc-012-go-service-without-hybrid-mlkem"
    "A statically linked Go service does not offer hybrid ML-KEM."
    "A listening Go binary carries its own crypto/tls.  Go offers X25519MLKEM768 by default only from Go 1.24; older binaries offer none (Go 1.23 offers only the pre-standard Kyber draft), and GODEBUG tlsmlkem=0 switches it off.  Rebuilding with a current Go toolchain is the fix; the host's own libraries do not help a static binary.  Needs --scan-services."
    "warning" "https://github.com/aclater/pqc-readiness/blob/main/docs/rules/pqc-012-go-service-without-hybrid-mlkem.md";
  RuleSpec "pqc-013-crypto-library-without-pqc"
    "An installed crypto library or toolchain cannot do PQC."
    "An installed crypto library (GnuTLS, libgcrypt, libssh, wolfSSL, AWS-LC) or toolchain (JDK, Go) has no ML-KEM / ML-DSA support, judged from the algorithm names inside the library file or, failing that, its version against the project's release notes.  Software built on it will fail at PQC until it is upgraded.  Needs --scan-crypto-libraries."
    "warning" "https://github.com/aclater/pqc-readiness/blob/main/docs/rules/pqc-013-crypto-library-without-pqc.md";
  RuleSpec "pqc-014-crypto-library-pre-standard-mlkem"
    "An installed crypto library only has pre-standard ML-KEM (Kyber)."
    "The library carries post-quantum algorithms, but its version predates the release that moved them to the final FIPS 203 / FIPS 204 standards (libgcrypt before 1.11.1, wolfSSL before 5.7.4).  Draft Kyber does not interoperate with standard ML-KEM peers.  Distribution builds sometimes backport the final standard, so treat this as a check, not a verdict."
    "note" "https://github.com/aclater/pqc-readiness/blob/main/docs/rules/pqc-014-crypto-library-pre-standard-mlkem.md";
  RuleSpec "pqc-015-ipsec-mlkem-unsupported-by-stack"
    "IPsec connections configure ML-KEM that the installed stack can't do."
    "IKEv2 proposals ask for ML-KEM (RFC 9370 additional key exchanges or ML-KEM as the main exchange), but the installed IPsec stack reports no ML-KEM support.  Such connections fail to load rather than falling back (measured with Libreswan 5.3.2), so the tunnel breaks outright."
    "warning" "https://github.com/aclater/pqc-readiness/blob/main/docs/rules/pqc-015-ipsec-mlkem-unsupported-by-stack.md";
  RuleSpec "pqc-016-ipsec-classical-only-ike"
    "An IPsec connection's IKE proposals are classical only."
    "Every IKE proposal configured for this connection names only classical key exchanges, so its IKE SA and the keys derived from it are quantum-vulnerable.  Adding an RFC 9370 additional key exchange with ML-KEM (strongSwan ke1_mlkem768, Libreswan addke1=ml_kem_768) makes it hybrid; ML-KEM in IKEv2 is still an IETF draft in the RFC Editor queue."
    "warning" "https://github.com/aclater/pqc-readiness/blob/main/docs/rules/pqc-016-ipsec-classical-only-ike.md";
  RuleSpec "pqc-017-bundled-crypto-without-pqc"
    "A package bundling its own crypto stack cannot do PQC."
    "A package that embeds its own crypto (Go runtime, OpenJDK) is installed at a version below the release that added PQC: Go before 1.24 has no hybrid ML-KEM in crypto/tls, OpenJDK before 24 has no ML-KEM / ML-DSA at all.  Only packages whose version gives a definite answer are reported.  Needs --scan-packages."
    "warning" "https://github.com/aclater/pqc-readiness/blob/main/docs/rules/pqc-017-bundled-crypto-without-pqc.md";
  RuleSpec "pqc-018-pqc-capability-undetermined"
    "PQC capability could not be determined."
    "The scanner found software whose PQC capability it cannot decide from the evidence it has: a crypto library version with no verified threshold, a build-dependent library without a readable file, an IKE proposal relying on the implementation default, or an offline tree with no OpenSSL package.  Reported so nothing is silently assumed safe; verify it by hand."
    "note" "https://github.com/aclater/pqc-readiness/blob/main/docs/rules/pqc-018-pqc-capability-undetermined.md";
  RuleSpec "pqc-020-pqc-capable-not-configured"
    "PQC-capable software on this host is configured to stay classical."
    "The per-host deployment-gap verdict (pqc_deployment_gap) found protocols or listening services whose software can negotiate post-quantum key exchange but whose configuration keeps it classical: the TLS default groups or crypto policy, sshd's KexAlgorithms, or the configured IKE proposals.  A configuration change, not an upgrade, closes the gap.  Reported as a warning when it covers IPsec or individual services, and as a note when it only restates the TLS / SSH gaps already reported by pqc-008 and pqc-010."
    "warning" "https://github.com/aclater/pqc-readiness/blob/main/docs/rules/pqc-020-pqc-capable-not-configured.md";
  RuleSpec "pqc-021-service-config-blocks-pqc"
    "A service's own TLS configuration keeps post-quantum key exchange out."
    "A server daemon on this host sets its own TLS key-exchange groups or protocol range, and that setting rules out hybrid ML-KEM although the host's TLS library supports it: a group list without an ML-KEM group (nginx ssl_ecdh_curve, Apache SSLOpenSSLConfCmd Groups, HAProxy curves, stunnel curves, Postfix tls_eecdh_auto_curves, PostgreSQL ssl_groups, OpenLDAP TLSECName, ...), a built-in classical default compiled into the service, TLS 1.3 disabled, or a service that can only use a single elliptic curve (PostgreSQL before 18).  A service's own setting overrides the system crypto policy, so these services stay classical even after the policy enables PQC."
    "warning" "https://github.com/aclater/pqc-readiness/blob/main/docs/rules/pqc-021-service-config-blocks-pqc.md";
  RuleSpec "pqc-030-classical-boot-chain"
    "The boot chain's signing keys are all classical."
    "The keys that authorise boot code and kernel code (UEFI Secure Boot PK / KEK / db, shim MOK, the kernel module signing key, IMA code-signing certificates) use classical algorithms only, and the TPM reports no ML-KEM / ML-DSA support.  CNSA 2.0 expects software and firmware signing to use ML-DSA-87 or LMS / XMSS by 2030; Linux supports ML-DSA module signing from 7.0.  Informational: these keys belong to the firmware vendor, the distribution and the machine owner, and are the slowest to rotate, so they need planning early."
    "note" "https://github.com/aclater/pqc-readiness/blob/main/docs/rules/pqc-030-classical-boot-chain.md";
  RuleSpec "pqc-031-kerberos-weak-enctypes"
    "Kerberos allows deprecated or 128-bit encryption types, or uses classical PKINIT."
    "Kerberos keys are symmetric: the quantum risk is Grover's algorithm, which leaves a 128-bit key about 64-bit security, and CNSA 2.0 requires AES-256.  A warning when deprecated enctypes (DES, 3DES, RC4; RFC 6649 / RFC 8429) are permitted by krb5.conf / kdc.conf, by MIT's default list, or present as keytab keys; a note when only 128-bit AES / Camellia enctypes are the concern, or when PKINIT (RSA / (EC)DH) is configured, for which no post-quantum standard exists yet."
    "warning" "https://github.com/aclater/pqc-readiness/blob/main/docs/rules/pqc-031-kerberos-weak-enctypes.md";
  RuleSpec "pqc-032-wireguard-peer-without-psk"
    "WireGuard peers have no pre-shared key."
    "WireGuard's handshake is Curve25519 (Noise_IK).  Its only post-quantum mitigation is the optional per-peer pre-shared key, mixed into the key derivation; WireGuard's protocol documentation names it as the layer for post-quantum resistance.  Peers without one can be recorded today and decrypted by a future quantum computer."
    "warning" "https://github.com/aclater/pqc-readiness/blob/main/docs/rules/pqc-032-wireguard-peer-without-psk.md";
  RuleSpec "pqc-033-openvpn-classical-key-exchange"
    "An OpenVPN configuration rules out PQC key exchange."
    "OpenVPN's control channel is TLS.  This configuration sets tls-groups without any ML-KEM group, or caps TLS at 1.2 (hybrid ML-KEM groups are TLS 1.3 only), so its sessions stay classical even when OpenSSL supports PQC.  Configurations that leave tls-groups unset inherit OpenSSL's defaults and are covered by the OpenSSL / crypto-policy checks instead."
    "warning" "https://github.com/aclater/pqc-readiness/blob/main/docs/rules/pqc-033-openvpn-classical-key-exchange.md";
  RuleSpec "pqc-034-dnssec-classical-signing"
    "DNSSEC zones are signed with classical algorithms only."
    "An authoritative server on this host signs zones with classical DNSSEC algorithms only.  The IANA registry lists ML-DSA-44 (algorithm 18, from an Internet-Draft) as the only post-quantum option so far.  A warning when an algorithm IANA marks MUST NOT for signing is in use."
    "note" "https://github.com/aclater/pqc-readiness/blob/main/docs/rules/pqc-034-dnssec-classical-signing.md"].

Definition SECURITY_SEVERITY : list (string * string) := [
  ("pqc-002-fips-pqc-conflict", "7.5");
  ("pqc-007-fips-without-algorithm-fence", "7.5");
  ("pqc-001-openssl-pre-3.5", "5.3");
  ("pqc-008-crypto-policy-blocks-pqc", "5.0");
  ("pqc-010-sshd-pqc-kex-not-offered", "5.0");
  ("pqc-006-no-network-hsm-pqc-firmware", "4.3");
  ("pqc-003-no-pqc-isa-support", "4.0");
  ("pqc-004-classical-only-trust-store", "3.1");
  ("pqc-009-classical-package-signing-keys", "3.1");
  ("pqc-030-classical-boot-chain", "3.1");
  ("pqc-031-kerberos-weak-enctypes", "4.3");
  ("pqc-032-wireguard-peer-without-psk", "5.3");
  ("pqc-033-openvpn-classical-key-exchange", "5.0");
  ("pqc-034-dnssec-classical-signing", "2.0");
  ("pqc-005-slh-dsa-in-tls-context", "2.0");
  ("pqc-011-service-crypto-library-without-pqc", "5.3");
  ("pqc-012-go-service-without-hybrid-mlkem", "5.3");
  ("pqc-015-ipsec-mlkem-unsupported-by-stack", "6.5");
  ("pqc-016-ipsec-classical-only-ike", "5.0");
  ("pqc-013-crypto-library-without-pqc", "4.0");
  ("pqc-017-bundled-crypto-without-pqc", "4.0");
  ("pqc-014-crypto-library-pre-standard-mlkem", "3.1");
  ("pqc-018-pqc-capability-undetermined", "1.0");
  ("pqc-020-pqc-capable-not-configured", "4.5");
  ("pqc-021-service-config-blocks-pqc", "5.0")].

(** [{s.id: i for i, s in enumerate(RULE_SPECS)}] *)
Definition rule_index : list (string * Z) := imap (fun i s => (rs_id s, Z.of_nat i)) RULE_SPECS.
