(* ===== verification/SarifRules.v ===== *)
(** * SARIF: the host rules ([build_findings] of [render/sarif.py])

    One definition per rule over the report, with the descriptions of
    [protocols_kerberos.py], [protocols_tunnels.py] and [protocols_dnssec.py]
    that the rules quote. *)

From S2P Require Import Prelude PyStr PyDict PyVal Services Policy Sshd Boot SvcScan PyRe Gap SarifTables.
Open Scope Z_scope.
(** The fields of the report that the findings read. *)
Record report := Report {
  r_schema_version : string; r_generated_at : string; r_hostname : string; r_os : string; r_arch : string;
  r_scan_mode : value; r_openssl : value; r_fips : value; r_fips_pqc_conflict : value; r_replace_required : bool;
  r_isa_tier : string; r_isa_score : value; r_isa_reason : string; r_trust_store : value; r_accelerators : list value;
  r_crypto_policy : value; r_signing_keys : value; r_sshd : value; r_service_crypto_linkage : value;
  r_crypto_libraries : value; r_ipsec_pqc : value; r_packages : value; r_pqc_deployment_gap : value;
  r_service_tls_config : value; r_boot_chain : value; r_kerberos : value; r_tunnels : value; r_dnssec : value }.

Record finding := Finding {
  f_rule : string; f_level : string; f_message : string; f_properties : list (string * value); f_subject : string }.

(** ** Reading the report *)

(** [{label: v.get(k), ...}] *)
Definition gets (keys : list (string * string)) (v : value) : res (list (string * value)) :=
  mapM (fun lk => x ← get lk.2 v; Ok (lk.1, x)) keys.

Definition truthy_at (k : string) (v : value) : res bool := x ← get k v; Ok (truthy x).

(** [list(v.get(k) or [])] as a value. *)
Definition list_at (k : string) (v : value) : res value := l ← get_l k v; Ok (VList l).

(** [a + b], and [v[:n]], of two lists or two strings. *)
Definition py_concat (a b : value) : res value :=
  match a, b with
  | VList l, VList k => Ok (VList (l ++ k))
  | VStr s, VStr t => Ok (VStr (s +:+ t))
  | _, _ => Raise TypeError
  end.
Definition py_take (n : nat) (v : value) : res value :=
  match v with
  | VList l => Ok (VList (take n l))
  | VStr s => Ok (VStr (str_of (take n (chars s))))
  | _ => Raise TypeError
  end.
Definition py_len (v : value) : res nat :=
  match v with
  | VList l => Ok (length l)
  | VStr s => Ok (String.length s)
  | VDict d => Ok (length d)
  | _ => Raise TypeError
  end.

(** [v > 0]: numbers only. *)
Definition positive (v : value) : res bool :=
  match num_of v with
  | Some (inl n) => Ok (0 <? n)
  | Some (inr f) => Ok (f_lt f_zero f)
  | None => Raise TypeError
  end.

Definition if_some (b : bool) (f : res finding) : res (list finding) := if b then x ← f; Ok [x] else Ok [].
Definition host_finding (rule level msg : string) (props : list (string * value)) : finding := Finding rule level msg props EmptyString.

(** ** Rules 001 to 010 *)

Definition rule_001 (r : report) : res (list finding) :=
  let o := r_openssl r in
  available ← truthy_at "available" o;
  native ← (if (available : bool) then get "pqc_native" o else Ok VNone);
  if_some (is_false native) (
    version ← get "version" o;
    props ← gets [("openssl:version", "version"); ("openssl:version_source", "version_source"); ("openssl:upgrade_path", "upgrade_path")] o;
    Ok (host_finding "pqc-001-openssl-pre-3.5" "warning"
      ("OpenSSL " +:+ remove_prefix "OpenSSL " (py_str (por version (VStr "unknown"))) +:+
       " is older than 3.5.0 — native ML-KEM / ML-DSA are not available.") props)).

Definition rule_002 (r : report) : res (list finding) :=
  conflict ← truthy_at "in_conflict" (r_fips_pqc_conflict r);
  if_some conflict (
    explanation ← get "explanation" (r_fips_pqc_conflict r);
    fips ← gets [("fips:kernel", "kernel"); ("fips:openssl_provider", "openssl_provider")] (r_fips r);
    kems ← list_at "kem_algorithms" (r_openssl r);
    sigs ← list_at "sig_algorithms" (r_openssl r);
    Ok (host_finding "pqc-002-fips-pqc-conflict" "error"
      (py_str (por explanation (VStr "FIPS / PQC provider conflict.")))
      (fips ++ [("openssl:kem_algorithms", kems); ("openssl:sig_algorithms", sigs)]))).

Definition rule_003 (r : report) : list finding :=
  if r_replace_required r then
    [host_finding "pqc-003-no-pqc-isa-support" "warning"
       ("ISA tier '" +:+ r_isa_tier r +:+ "' and no PQC-capable accelerator detected; software-only PQC is not viable on this host.")
       [("isa:tier", VStr (r_isa_tier r)); ("isa:score", r_isa_score r); ("isa:reason", VStr (r_isa_reason r))]]
  else [].

(** Certificates were found and none of them is PQC or hybrid. *)
Definition classical_only (ts : value) : res bool :=
  available ← truthy_at "available" ts;
  if negb available then Ok false
  else
    total ← get_or "total_certs" (VInt 0) ts;
    some ← positive total;
    if negb some then Ok false
    else
      pqc ← get_or "pqc_certs" (VInt 0) ts;
      if negb (py_eq pqc (VInt 0)) then Ok false
      else hybrid ← get_or "hybrid_certs" (VInt 0) ts; Ok (py_eq hybrid (VInt 0)).

Definition rule_004 (r : report) : res (list finding) :=
  let ts := r_trust_store r in
  hit ← classical_only ts;
  if_some hit (
    total ← get_or "total_certs" (VInt 0) ts;
    dirs0 ← get "scanned_dirs" ts;
    ndirs ← py_len (por dirs0 (VList []));
    truncated ← truthy_at "truncated" ts;
    capped ← (if (truncated : bool) then
                count ← get "scanned_count" ts; found ← get "total_found" ts;
                Ok (" Scan was capped at " +:+ py_str count +:+ " of " +:+ py_str found +:+
                    " unique certificates; the rest were not inspected.")
              else Ok EmptyString);
    props ← gets [("trust_store:total_certs", "total_certs"); ("trust_store:pqc_certs", "pqc_certs");
                  ("trust_store:hybrid_certs", "hybrid_certs")] ts;
    dirs ← list_at "scanned_dirs" ts;
    Ok (host_finding "pqc-004-classical-only-trust-store" "note"
      ("Scanned " +:+ py_str total +:+ " certificates across " +:+ show_nat ndirs +:+
       " trust-store directories; every cert uses classical signatures." +:+ capped)
      (props ++ [("trust_store:scanned_dirs", dirs); ("trust_store:truncated", VBool truncated)]))).

Definition slh_dsa_name (v : value) : option string :=
  match v with VStr s => if starts_with "SLH-DSA" s then Some s else None | _ => None end.
Definition rule_005 (r : report) : res (list finding) :=
  sigs ← get_l "sig_algorithms" (r_openssl r);
  match py_sorted str_lt (omap slh_dsa_name sigs) with
  | [] => Ok []
  | slh_dsa =>
      Ok [host_finding "pqc-005-slh-dsa-in-tls-context" "warning"
        ("OpenSSL exposes SLH-DSA signature algorithms (" +:+ str_join ", " slh_dsa +:+ "); prefer ML-DSA for TLS handshakes.")
        [("openssl:slh_dsa_algorithms", VStrs slh_dsa)]]
  end.

(** The name of a network HSM that is not flagged as PQC-capable. *)
Definition hsm_without_pqc (a : value) : res (list string) :=
  kind ← get "kind" a;
  if negb (py_eq kind (VStr "network_hsm")) then Ok []
  else
    capable ← truthy_at "pqc_capable" a;
    if (capable : bool) then Ok []
    else name ← get "name" a; Ok [py_str (por name (VStr "unknown"))].
Definition rule_006 (r : report) : res (list finding) :=
  names ← mapM hsm_without_pqc (r_accelerators r);
  match sorted_set (concat names) with
  | [] => Ok []
  | names =>
      Ok [host_finding "pqc-006-no-network-hsm-pqc-firmware" "warning"
        ("Network HSM client present (" +:+ str_join ", " names +:+
         ") but the appliance is not flagged as PQC-capable.  Verify appliance firmware before relying on it for PQC.")
        [("hsm:network_hsm_names", VStrs names)]]
  end.

(** One part of the message: [label=a,b] where the list is not empty. *)
Definition outside_part (label key : string) (outside : value) : res (list string) :=
  v ← get key outside;
  if truthy v then names ← join_strs "," v; Ok [label +:+ "=" +:+ names] else Ok [].
Definition rule_007 (r : report) : res (list finding) :=
  active ← truthy_at "fence_check_active" (r_fips r);
  engaged ← (if (active : bool) then truthy_at "algorithm_fence_engaged" (r_fips r) else Ok true);
  if_some (negb engaged) (
    outside ← get_d "algorithms_reachable_outside_fence" (r_fips r);
    kems ← outside_part "KEMs" "kems" outside;
    sigs ← outside_part "signatures" "signatures" outside;
    groups ← outside_part "tls_groups" "tls_groups" outside;
    Ok (host_finding "pqc-007-fips-without-algorithm-fence" "error"
      ("FIPS mode is active but the default OpenSSL provider exposes algorithms outside the FIPS provider's set: " +:+
       str_join "; " (kems ++ sigs ++ groups) +:+ ".  See docs/findings/fips-algorithm-fence.md.")
      [("fips:algorithms_reachable_outside_fence", outside)])).

Definition rule_008 (r : report) : res (list finding) :=
  let cp := r_crypto_policy r in
  blocks ← policy_blocks_capable_pqc cp (r_openssl r);
  if_some blocks (
    tg ← get_d "tls_groups" (r_openssl r);
    active ← get "active" cp;
    hybrid ← get "hybrid" tg;
    pure ← get "pure_pqc" tg;
    both ← py_concat (por hybrid (VList [])) (por pure (VList []));
    names ← join_strs ", " both;
    props ← gets [("crypto_policy:active", "active"); ("crypto_policy:available_subpolicies", "available_subpolicies")] cp;
    Ok (host_finding "pqc-008-crypto-policy-blocks-pqc" "warning"
      ("Crypto policy " +:+ py_str active +:+ " allows no PQC TLS groups, although OpenSSL supports " +:+ names +:+ ".") props)).

Definition rule_009 (r : report) : res (list finding) :=
  let sk := r_signing_keys r in
  available ← truthy_at "available" sk;
  classical ← (if (available : bool) then s ← get_d "summary" sk; truthy_at "all_classical" s else Ok false);
  if_some classical (
    keys ← get_l "keys" sk;
    algos ← mapM (fun k => a ← get "algorithm" k; Ok (py_str a)) keys;
    summary ← getitem "summary" sk;
    total ← getitem "total" summary;
    ids ← mapM (fun k => i ← get "key_id" k; Ok (if truthy i then [py_str i] else [])) keys;
    Ok (host_finding "pqc-009-classical-package-signing-keys" "note"
      ("All " +:+ py_str total +:+ " trusted package-signing keys are classical (" +:+ str_join ", " (sorted_set algos) +:+
       "); none uses ML-DSA or SLH-DSA (RFC 9980).")
      [("signing_keys:total", total); ("signing_keys:algorithms", VStrs (sorted_set algos));
       ("signing_keys:key_ids", VStrs (py_sorted str_lt (concat ids)))])).

Definition rule_010 (r : report) : res (list finding) :=
  let sshd := r_sshd r in
  gap ← sshd_pqc_gap sshd;
  match gap with
  | None => Ok []
  | Some gap =>
      offered0 ← get "kex_offered" sshd;
      let offered := por offered0 (VList []) in
      lm ← (if String.eqb gap "not_offered" then
              four ← py_take 4 offered;
              names ← join_strs ", " four;
              n ← py_len offered;
              Ok ("warning", "sshd offers no post-quantum key exchange although the installed OpenSSH supports one; offered: " +:+
                  names +:+ (if (4 <? n)%nat then ", ..." else EmptyString) +:+ ".")
            else
              first ← get "first_kex" sshd;
              Ok ("note", "sshd offers a post-quantum key exchange but prefers " +:+ py_str first +:+ " first."));
      props ← gets [("sshd:source", "source"); ("sshd:first_kex", "first_kex")] sshd;
      Ok [host_finding "pqc-010-sshd-pqc-kex-not-offered" lm.1 lm.2 (props ++ [("sshd:gap", VStr gap)])]
  end.

(** ** Rules 030 to 034 *)

Definition rule_030 (r : report) : res (list finding) :=
  layers ← describe_classical_layers (r_boot_chain r);
  match layers with
  | [] => Ok []
  | _ =>
      summary ← get_d "summary" (r_boot_chain r);
      props ← gets [("boot_chain:classical_layers", "classical_layers");
                    ("boot_chain:secure_boot_algorithms", "secure_boot_algorithms");
                    ("boot_chain:module_signing_pqc", "module_signing_pqc")] summary;
      Ok [host_finding "pqc-030-classical-boot-chain" "note"
            ("Boot chain is classical: " +:+ str_join "; " layers +:+ ".") props]
  end.

(** [describe_findings] of [protocols_kerberos.py]: the level and one sentence per issue. *)
Definition kerberos_weak (kb s : value) : res (option string * list string) :=
  deprecated ← get "deprecated_enctypes" s;
  if negb (truthy deprecated) then Ok (None, [])
  else
    dset_ ← py_set deprecated;
    keytabs ← get "enctypes_in_keytabs" s;
    kset ← py_set (por keytabs (VList []));
    config ← get_d "config" kb;
    lists0 ← get_d "enctype_lists" config;
    lists ← items lists0;
    sources ← mapM (fun kv => src ← getitem "source" kv.2; if hashable src then Ok src else Raise TypeError) lists;
    let where_ := (if existsb (fun x => existsb (py_eq x) kset) dset_ then ["keytab keys"] else []) ++
                  (if existsb (py_eq (VStr "mit_default")) sources
                   then ["MIT krb5's default enctype list (no permitted_enctypes set)"] else []) in
    names ← join_strs ", " deprecated;
    Ok (Some "warning",
        ["deprecated Kerberos enctypes are allowed: " +:+ names +:+
         (if where_ is [] then EmptyString else " (" +:+ str_join "; " where_ +:+ ")")]).

Definition kerberos_128 (s : value) : res (list string) :=
  only ← truthy_at "keytab_keys_128_bit_only" s;
  if (only : bool) then
    keytabs ← get "enctypes_in_keytabs" s;
    names ← join_strs ", " (por keytabs (VList []));
    Ok ["keytab keys are 128-bit only (" +:+ names +:+ "); CNSA 2.0 requires AES-256"]
  else
    aes ← get "aes128_enctypes" s;
    if truthy aes then
      names ← join_strs ", " aes;
      Ok ["128-bit enctypes are permitted (" +:+ names +:+
          "); Grover's algorithm leaves them ~64-bit security and CNSA 2.0 requires AES-256"]
    else Ok [].

Definition note_if (level : option string) (parts : list string) : option string :=
  match level, parts with None, _ :: _ => Some "note" | _, _ => level end.

Definition describe_findings (kb : value) : res (option string * list string) :=
  available ← truthy_at "available" kb;
  if negb available then Ok (None, [])
  else
    s ← get_d "summary" kb;
    '(level, parts) ← kerberos_weak kb s;
    bits ← kerberos_128 s;
    pkinit ← truthy_at "pkinit_classical" s;
    let classical := if (pkinit : bool)
      then ["PKINIT is configured with a classical identity; post-quantum PKINIT is only an individual Internet-Draft"] else [] in
    Ok (note_if (note_if level bits) classical, parts ++ bits ++ classical).

Definition rule_031 (r : report) : res (list finding) :=
  '(level, parts) ← describe_findings (r_kerberos r);
  match level with
  | None => Ok []
  | Some level =>
      ks ← get_d "summary" (r_kerberos r);
      props ← gets [("kerberos:deprecated_enctypes", "deprecated_enctypes"); ("kerberos:aes128_enctypes", "aes128_enctypes");
                    ("kerberos:enctypes_in_keytabs", "enctypes_in_keytabs"); ("kerberos:pkinit_classical", "pkinit_classical")] ks;
      Ok [host_finding "pqc-031-kerberos-weak-enctypes" level ("Kerberos: " +:+ str_join "; " parts +:+ ".") props]
  end.

(** [((t.get("wireguard") or {}).get("summary")) or {}] *)
Definition wireguard_summary (t : value) : res value := wg ← get_d "wireguard" t; get_d "summary" wg.

Definition describe_wireguard (t : value) : res (option string) :=
  s ← wireguard_summary t;
  without ← get "peers_without_psk" s;
  total ← get "peers" s;
  Ok (if negb (truthy without) then None
      else Some (py_str without +:+ " of " +:+ py_str (por total (VInt 0)) +:+
        " WireGuard peers have no pre-shared key, so their traffic is protected only by the Curve25519 handshake (harvest-now-decrypt-later)")).

Definition rule_032 (r : report) : res (list finding) :=
  msg ← describe_wireguard (r_tunnels r);
  match msg with
  | None => Ok []
  | Some msg =>
      wg ← wireguard_summary (r_tunnels r);
      props ← gets [("wireguard:peers", "peers"); ("wireguard:peers_without_psk", "peers_without_psk")] wg;
      Ok [host_finding "pqc-032-wireguard-peer-without-psk" "warning" (msg +:+ ".") props]
  end.

(** [v.split()[0]] of a string. *)
Definition first_field (v : value) : res string :=
  match v with
  | VStr s => match words s with w :: _ => Ok w | [] => Raise IndexError end
  | _ => Raise AttributeError
  end.

Definition openvpn_message (c : value) : res (list string) :=
  readable ← truthy_at "readable" c;
  kex ← get "pqc_key_exchange" c;
  if negb readable || negb (is_false kex) then Ok []
  else
    max_v ← get "tls_version_max" c;
    old ← (if truthy max_v then v ← first_field max_v; Ok (bool_decide (v ∈ ["1.0"; "1.1"; "1.2"])) else Ok false);
    why ← (if (old : bool) then Ok ("tls-version-max " +:+ py_str max_v +:+ " (hybrid ML-KEM groups need TLS 1.3)")
           else
             groups ← get "tls_groups" c;
             names ← join_strs ":" (por groups (VList []));
             Ok ("tls-groups " +:+ names +:+ " has no ML-KEM group"));
    path ← getitem "path" c;
    Ok [py_str path +:+ ": " +:+ why].
Definition describe_openvpn (t : value) : res (list string) :=
  ovpn ← get_d "openvpn" t;
  configs ← get_l "configs" ovpn;
  l ← mapM openvpn_message configs;
  Ok (concat l).

Definition rule_033 (r : report) : res (list finding) :=
  ovpn ← describe_openvpn (r_tunnels r);
  match ovpn with
  | [] => Ok []
  | _ =>
      Ok [host_finding "pqc-033-openvpn-classical-key-exchange" "warning"
        ("OpenVPN configurations without PQC key exchange: " +:+ str_join "; " ovpn +:+ ".")
        [("openvpn:configs", VStrs (before ":" <$> ovpn))]]
  end.

Definition signing_names (s : value) : res (list value) :=
  algos ← get_l "signing_algorithms" s;
  mapM (getitem "name") algos.

(** [describe] of [protocols_dnssec.py]: level and message. *)
Definition dnssec_describe (dn : value) : res (option (string * string)) :=
  available ← truthy_at "available" dn;
  if negb available then Ok None
  else
    s ← get_d "summary" dn;
    configured ← truthy_at "signing_configured" s;
    pqc ← (if (configured : bool) then truthy_at "signing_pqc" s else Ok true);
    if (pqc : bool) then Ok None
    else
      l ← signing_names s;
      l ← strs_of l;
      let names := str_join ", " l in
      deprecated ← get "deprecated_signing" s;
      if truthy deprecated then
        d ← join_strs ", " deprecated;
        Ok (Some ("warning", "DNSSEC signing uses algorithms IANA marks MUST NOT for signing: " +:+ d +:+
                             " (all signing algorithms: " +:+ names +:+ ")"))
      else
        Ok (Some ("note", "DNSSEC zones are signed with classical algorithms only (" +:+ names +:+
                          "); ML-DSA-44 (IANA algorithm 18, draft) is the only post-quantum algorithm registered")).

Definition rule_034 (r : report) : res (list finding) :=
  lm ← dnssec_describe (r_dnssec r);
  match lm with
  | None => Ok []
  | Some (level, msg) =>
      s ← get_d "summary" (r_dnssec r);
      names ← signing_names s;
      Ok [host_finding "pqc-034-dnssec-classical-signing" level (msg +:+ ".") [("dnssec:signing_algorithms", VList names)]]
  end.

(** * SARIF: software that will fail at PQC ([render/sarif.py], lines 953-1556)

    The rules that fire once per service, library, package, connection or
    configuration file, each with a subject of its own. *)
(** ** pqc-020 and pqc-021 *)

(** [container_label] and [containers_label] of [runtime_services.py]. *)
Definition container_label (c : value) (name : string) : res string :=
  pod ← get "pod_name" c;
  if truthy pod then ns ← get "pod_namespace" c; Ok (name +:+ " (pod " +:+ py_str ns +:+ "/" +:+ py_str pod +:+ ")")
  else i ← get "id" c; Ok (name +:+ " (container " +:+ str_take 12 (py_str i) +:+ ")").

Definition containers_label (name : string) (containers : list value) (omitted : Z) : res string :=
  let total := Z.of_nat (length containers) + omitted in
  match containers with
  | c :: _ =>
      if total =? 1 then n ← get "container_name" c; container_label c (py_str (por n (VStr name)))
      else Ok (if 1 <? total then name +:+ " (" +:+ show_Z total +:+ " containers)" else name)
  | [] => Ok (if 1 <? total then name +:+ " (" +:+ show_Z total +:+ " containers)" else name)
  end.

Definition not_configured (v : value) : res bool := s ← get "state" v; Ok (py_eq s (VStr "capable_not_configured")).

(** Items whose own verdict differs from the host's. *)
Definition own_gap (v : value) : res bool :=
  b ← not_configured v;
  if (b : bool) then f ← truthy_at "follows_host_default" v; Ok (negb f) else Ok false.

Definition gap_service (s : value) : res (list string) :=
  b ← own_gap s;
  if (b : bool) then
    process ← get "process" s; protocol ← get "protocol" s; port ← get "port" s;
    Ok [py_str process +:+ " " +:+ py_str protocol +:+ "/" +:+ py_str port]
  else Ok [].

Definition gap_client (c : value) : res (list string) :=
  b ← own_gap c;
  if (b : bool) then
    exe ← get "exe" c; process ← get "process" c;
    containers ← get_l "containers" c;
    omitted0 ← get "containers_omitted" c;
    omitted ← py_int (por omitted0 (VInt 0));
    label ← containers_label (py_str (por exe process)) containers omitted;
    Ok [label]
  else Ok [].

Definition items_of (key : string) (g : value) : res (list value) := d ← get_d key g; get_l "items" d.

Definition first_six (l : list string) : string := str_join ", " (take 6 l) +:+ (if (6 <? length l)%nat then ", ..." else EmptyString).

Definition gap_finding (protocols services clients : list string) : finding :=
  let restates := match services, clients with
                  | [], [] => forallb (fun p => bool_decide (p ∈ ["tls"; "ssh"])) protocols
                  | _, _ => false
                  end in
  let parts := (if protocols is [] then [] else ["protocols: " +:+ str_join ", " protocols]) ++
               (if services is [] then [] else ["services: " +:+ first_six services]) ++
               (if clients is [] then [] else ["clients: " +:+ first_six clients]) in
  host_finding "pqc-020-pqc-capable-not-configured" (if restates then "note" else "warning")
    ("PQC-capable software is configured to stay classical (" +:+ str_join "; " parts +:+ "); a configuration change closes the gap.")
    [("gap:protocols", VStrs protocols); ("gap:services", VStrs services); ("gap:clients", VStrs clients)].

Definition rule_020 (r : report) : res (list finding) :=
  let g := por (r_pqc_deployment_gap r) (VDict []) in
  protocols0 ← get_d "protocols" g;
  protocols1 ← items protocols0;
  protocols ← mapM (fun kv => b ← not_configured kv.2; Ok (if (b : bool) then [kv.1] else [])) protocols1;
  services0 ← items_of "services" g;
  services ← mapM gap_service services0;
  clients0 ← items_of "clients" g;
  clients ← mapM gap_client clients0;
  Ok (match concat protocols, concat services, concat clients with
      | [], [], [] => []
      | p, s, c => [gap_finding p s c]
      end).

Definition blocked_finding (b : blocked) : res finding :=
  let ep := bl_endpoint b in
  msg ← describe_blocked b;
  file ← getitem "file" ep;
  props ← gets [("service:config_line", "line"); ("service:ports", "ports"); ("service:groups", "groups");
                ("service:groups_source", "groups_source"); ("service:tls13_allowed", "tls13_allowed")] ep;
  line ← get "line" ep;
  ports ← get_l "ports" ep;
  Ok (Finding "pqc-021-service-config-blocks-pqc" "warning" (msg +:+ ".")
        (("service:name", bl_service b) :: ("service:version", bl_version b) :: ("service:config_file", file) :: props)
        (py_str (bl_service b) +:+ ":" +:+ py_str file +:+ ":" +:+ py_str (por line (VStr EmptyString)) +:+ ":" +:+
         str_join "," (py_str <$> ports))).
Definition rule_021 (r : report) : res (list finding) :=
  blocks ← service_config_blocks (VDict [("openssl", r_openssl r); ("service_tls_config", r_service_tls_config r)]);
  mapM blocked_finding blocks.

(** ** Listening services *)

Definition UNDETERMINED : string := "pqc-018-pqc-capability-undetermined".
Definition undetermined (subject what : string) (props : list (string * value)) : finding :=
  Finding UNDETERMINED "note" ("Cannot tell whether " +:+ what +:+ " can do post-quantum cryptography.") props subject.

Definition listener_subject (lst : value) : res string :=
  exe ← get "exe" lst; process ← get "process" lst;
  protocol ← get "protocol" lst; family ← get "family" lst; port ← get "port" lst;
  Ok ("service:" +:+ py_str protocol +:+ "/" +:+ py_str family +:+ "/" +:+ py_str port +:+ ":" +:+
      py_str (por exe (por process (VStr "unattributed")))).

(** The process name, or the base name of the executable where the kernel cut it at 15 characters. *)
Definition process_name (lst : value) : res value :=
  comm ← get "process" lst;
  exe0 ← get "exe" lst;
  let exe := after_last "/" (py_str (por exe0 (VStr EmptyString))) in
  cut ← (if truthy comm then
           match comm with
           | VStr s => Ok ((String.length s =? 15)%nat && starts_with s exe)
           | VList _ | VDict _ => n ← py_len comm; if (n =? 15)%nat then Raise TypeError else Ok false
           | _ => Raise TypeError
           end
         else Ok false);
  Ok (if (cut : bool) then VStr exe
      else por comm (if non_empty exe then VStr exe else VNone)).

Definition listener_who (lst : value) : res string :=
  c ← get_d "container" lst;
  if truthy c then
    n ← get "container_name" c;
    p ← process_name lst;
    container_label c (py_str (por n (por p (VStr "process"))))
  else
    unit ← get "systemd_unit" lst;
    p ← process_name lst;
    Ok (py_str (por unit (por p (VStr "unattributed process")))).

Definition listener_label (lst : value) : res string :=
  who ← listener_who lst;
  addr0 ← get "address" lst;
  let addr := py_str (por addr0 (VStr "?")) in
  let addr := if contains ":" addr then "[" +:+ addr +:+ "]" else addr in
  protocol ← get "protocol" lst; port ← get "port" lst;
  Ok (who +:+ " on " +:+ py_str protocol +:+ " " +:+ addr +:+ ":" +:+ py_str port).

Definition listener_props (lst : value) : res (list (string * value)) :=
  props ← gets [("service:protocol", "protocol"); ("service:address", "address"); ("service:port", "port");
                ("service:process", "process"); ("service:exe", "exe"); ("service:systemd_unit", "systemd_unit");
                ("service:network_namespace", "network_namespace")] lst;
  c ← get "container" lst;
  if truthy c then
    cp ← gets [("service:container_runtime", "runtime"); ("service:container_id", "id"); ("service:pod_uid", "pod_uid");
               ("service:pod_namespace", "pod_namespace"); ("service:pod_name", "pod_name");
               ("service:container_name", "container_name")] c;
    Ok (dupdate props cp)
  else Ok props.

(** A library of the listener with its judgement and the evidence. *)
Record judged := Judged { jl_lib : value; jl_capable : option bool; jl_evidence : string }.
Definition judge_library (probes lib : value) : res judged :=
  v ← library_capable lib probes; Ok (Judged lib v.1 v.2).

(** [f"{family} " + (version or ...)]: [+] wants a string. *)
Definition failing_name (j : judged) : res string :=
  family ← get "family" (jl_lib j);
  version ← get "version" (jl_lib j);
  v ← as_str (por version (VStr (if String.eqb (jl_evidence j) "soname" then "1.x (from soname)" else "(unknown version)")));
  Ok (py_str family +:+ " " +:+ v).
Definition failing_props (j : judged) : res value :=
  p ← gets [("family", "family"); ("version", "version"); ("path", "path")] (jl_lib j);
  Ok (VDict (p ++ [("evidence", VStr (jl_evidence j))])).
Definition unknown_name (j : judged) : res string :=
  family ← get "family" (jl_lib j);
  version ← get "version" (jl_lib j);
  Ok (py_str family +:+ " " +:+ py_str (por version (VStr "?"))).

Definition library_finding (lst : value) (subject : string) (verdicts : list judged) : res (list finding) :=
  match List.filter (fun j => bool_decide (jl_capable j = Some false)) verdicts with
  | (_ :: _) as failing =>
      names ← mapM failing_name failing;
      label ← listener_label lst;
      props ← listener_props lst;
      libs ← mapM failing_props failing;
      Ok [Finding "pqc-011-service-crypto-library-without-pqc" "warning"
            (label +:+ " uses " +:+ str_join ", " names +:+
             ", which has no ML-KEM hybrid key exchange; its connections stay classical.")
            (dset "service:crypto_libraries" (VList libs) props) subject]
  | [] =>
      match List.filter (fun j => bool_decide (jl_capable j = None)) verdicts with
      | (_ :: _) as unknown =>
          label ← listener_label lst;
          names ← mapM unknown_name unknown;
          props ← listener_props lst;
          Ok [undetermined subject (label +:+ " (crypto library " +:+ str_join ", " names +:+
                ": no verified PQC threshold for this library/version)") props]
      | [] => Ok []
      end
  end.

Definition go_version_text : string := show_Z GO_MLKEM_DEFAULT_VERSION.1 +:+ "." +:+ show_Z GO_MLKEM_DEFAULT_VERSION.2.

Definition go_why (go dflt : value) (reverts : list value) : res string :=
  ver ← get "go_version" go;
  Ok (if existsb (py_eq (VStr "tlsmlkem")) reverts then
        "tlsmlkem=0 turns hybrid ML-KEM off (GODEBUG in the environment, or DefaultGODEBUG from an old `go` line in go.mod); built with " +:+ py_str ver
      else if truthy dflt then
        py_str ver +:+ " offers only the pre-standard " +:+ py_str dflt +:+ "; standard X25519MLKEM768 needs Go " +:+ go_version_text +:+ "+"
      else
        py_str (por ver (VStr "a pre-1.18 Go")) +:+ " offers no hybrid key exchange by default (Go " +:+ go_version_text +:+ "+ does)").

Definition go_finding (lst go : value) (subject : string) : res (list finding) :=
  reverts ← get_l "godebug_reverts" go;
  dflt ← get "default_hybrid_kex" go;
  if py_eq dflt (VStr "X25519MLKEM768") then Ok []
  else
    why ← go_why go dflt reverts;
    label ← listener_label lst;
    props ← listener_props lst;
    gp ← gets [("go:version", "go_version"); ("go:main_module", "main_module")] go;
    Ok [Finding "pqc-012-go-service-without-hybrid-mlkem" "warning" ("Go service " +:+ label +:+ ": " +:+ why +:+ ".")
          (dupdate props (gp ++ [("go:default_hybrid_kex", dflt); ("go:godebug_reverts", VList reverts)])) subject].

Definition listener_findings (probes lst : value) : res (list finding) :=
  subject ← listener_subject lst;
  libs ← get_l "crypto_libraries" lst;
  verdicts ← mapM (judge_library probes) libs;
  lf ← library_finding lst subject verdicts;
  go ← get "go" lst;
  gf ← (if truthy go then go_finding lst go subject else Ok []);
  Ok (lf ++ gf).

Definition service_findings (r : report) : res (list finding) :=
  let scl := r_service_crypto_linkage r in
  available ← truthy_at "available" scl;
  if negb available then Ok []
  else
    probes ← get_d "libraries" (por (r_crypto_libraries r) (VDict []));
    listeners ← get_l "listeners" scl;
    l ← mapM (listener_findings probes) listeners;
    Ok (concat l).

(** ** Installed libraries *)

Definition JDK_JCA_PQC_MAJOR : Z := 24.

Definition install_finding (name : string) (inst : value) : res (list finding) :=
  path ← get "path" inst;
  version ← get "version" inst;
  let subject := "library:" +:+ name +:+ ":" +:+ py_str path in
  let label := name +:+ " " +:+ py_str version +:+ " at " +:+ py_str path in
  let props := [("library:name", VStr name); ("library:version", version); ("library:path", path)] in
  verdict ← get (if String.eqb name "java" then "jca_ml_kem_ml_dsa" else "tls_mlkem_default") inst;
  Ok (if is_false verdict then
        [Finding "pqc-013-crypto-library-without-pqc" "warning"
           (label +:+ " " +:+
            (if String.eqb name "java"
             then "has no ML-KEM / ML-DSA (JEP 496 / 497 arrived in JDK " +:+ show_Z JDK_JCA_PQC_MAJOR +:+ ")"
             else "builds programs without default hybrid ML-KEM in crypto/tls (Go " +:+ go_version_text +:+ "+)") +:+ ".")
           props subject]
      else if is_none verdict then [undetermined subject label props] else []).

Definition single_library (name : string) (lib : value) : res (list finding) :=
  version ← get "version" lib;
  evidence ← get "evidence" lib;
  files ← list_at "files" lib;
  let subject := "library:" +:+ name in
  let label := name +:+ " " +:+ py_str (por version (VStr "(unknown version)")) in
  let props := [("library:name", VStr name); ("library:version", version); ("library:evidence", evidence); ("library:files", files)] in
  capable ← get "pqc_capable" lib;
  if is_false capable then
    Ok [Finding "pqc-013-crypto-library-without-pqc" "warning"
          (label +:+ " has no ML-KEM / ML-DSA (evidence: " +:+ py_str evidence +:+ "); software using it fails at PQC.") props subject]
  else if is_none capable then Ok [undetermined subject label props]
  else
    caveats ← get "caveats" lib;
    if truthy caveats then
      text ← join_strs " " caveats;
      l ← py_iter caveats;
      Ok [Finding "pqc-014-crypto-library-pre-standard-mlkem" "note" (label +:+ ": " +:+ text)
            (props ++ [("library:caveats", VList l)]) subject]
    else Ok [].

Definition library_entry (nl : string * value) : res (list finding) :=
  let '(name, lib) := nl in
  installed ← truthy_at "installed" lib;
  if negb installed then Ok []
  else
    installs ← get "installs" lib;
    if is_none installs then single_library name lib
    else l ← py_iter installs; fs ← mapM (install_finding name) l; Ok (concat fs).

Definition library_findings (r : report) : res (list finding) :=
  let cl := r_crypto_libraries r in
  available ← truthy_at "available" cl;
  if negb available then Ok []
  else
    libs0 ← get_d "libraries" cl;
    libs ← items libs0;
    l ← mapM library_entry libs;
    Ok (concat l).

(** * SARIF: IPsec, packages, offline trees and tunnels ([render/sarif.py], lines 1303-1556)

    The remaining predicates of the software that fails at PQC and their
    composition, [pqc_failure_findings]. *)
(** ** IPsec: pqc-015, pqc-016 *)

Definition ipsec_mismatch (ipsec mismatch : value) : res (list finding) :=
  if negb (truthy mismatch) then Ok []
  else
    conns ← get_l "connections" mismatch;
    names ← join_strs ", " (VList conns);
    impl ← get "implementation" ipsec;
    reason ← get "reason" mismatch;
    props ← gets [("ipsec:implementation", "implementation"); ("ipsec:version", "version")] ipsec;
    Ok [host_finding "pqc-015-ipsec-mlkem-unsupported-by-stack" "warning"
          (strip (show_nat (length conns) +:+ " IPsec connection(s) configure ML-KEM (" +:+ names +:+ ") but the installed " +:+
                  py_str (por impl (VStr "IPsec stack")) +:+ " has no ML-KEM support; they fail to load. " +:+
                  py_str (por reason (VStr EmptyString))))
          (props ++ [("ipsec:connections", VList conns)])].

(** The IKE proposals of each connection, in the order they are met. *)
Definition by_conn_step (acc : list (string * list value)) (prop : value) : res (list (string * list value)) :=
  kind ← get "kind" prop;
  if negb (py_eq kind (VStr "ike")) then Ok acc
  else
    conn ← get "connection" prop;
    if negb (truthy conn) then Ok acc
    else let k := py_str conn in Ok (dset k (default [] (dget k acc) ++ [prop]) acc).
Definition key_lt {A} (a b : string * A) : bool := str_lt a.1 b.1.

Definition ipsec_conn (cp : string * list value) : res (list finding) :=
  let '(conn, props) := cp in
  if String.eqb conn "%default" then Ok []
  else
    cats ← mapM (get "category") props;
    cats ← py_set (VList cats);
    let subject := "ipsec:" +:+ conn in
    proposals ← mapM (get "proposal") props;
    sources ← mapM (fun p => s ← get "source" p; Ok (py_str s)) props;
    let base := [("ipsec:connection", VStr conn); ("ipsec:proposals", VList proposals); ("ipsec:sources", VStrs (sorted_set sources))] in
    Ok (if existsb (fun c => py_eq c (VStr "hybrid") || py_eq c (VStr "pure_pqc")) cats then []
        else if existsb is_none cats then
          [undetermined subject ("IPsec connection " +:+ conn +:+
             " (an IKE proposal relies on the implementation's default key exchanges)") base]
        else
          [Finding "pqc-016-ipsec-classical-only-ike" "warning"
             ("IPsec connection " +:+ conn +:+ " offers only classical IKE key exchanges (" +:+
              str_join "; " (py_str <$> proposals) +:+ ").") base subject]).

Definition ipsec_findings (r : report) : res (list finding) :=
  let ipsec := r_ipsec_pqc r in
  cfg ← get_d "configured" ipsec;
  mismatch ← get "capability_mismatch" cfg;
  first ← ipsec_mismatch ipsec mismatch;
  proposals ← get_l "proposals" cfg;
  by_conn ← foldM by_conn_step [] proposals;
  rest ← mapM ipsec_conn (py_sorted key_lt by_conn);
  Ok (first ++ concat rest).

(** ** Bundled cryptography: pqc-017 *)

Definition JAVA_MAJOR_RE : re :=
  RSeqs [Bos; RAlts [
    RSeqs [RLit "java-"; RGrp 1 (RPlus Digit); ROpt (RSeqs [RLit "."; RGrp 2 (RPlus Digit)])];
    RSeqs [RLit "openjdk-"; RGrp 3 (RPlus Digit)];
    RSeqs [RLit "jdk"; RGrp 4 (RPlus Digit)]]].

Definition GO_PACKAGE_RE : re :=
  RSeqs [Bos; RAlts [RLit "golang"; RLit "go"];
         RAlts [RSeqs [RLit "-"; Digit]; Digit; RSeqs [RLit "-bin"; Eos]; Eos; RSeqs [RLit "-go"; Eos]]].

Definition int_group (n : nat) (m : mtch) : option Z := (fun s => digits_val (chars s)) <$> group n m.

Definition java_major (package : string) : option Z :=
  m ← re_match JAVA_MAJOR_RE package;
  major ← (match int_group 1 m with Some x => Some x | None => match int_group 3 m with Some x => Some x | None => int_group 4 m end end);
  Some (match int_group 2 m with Some minor => if major =? 1 then minor else major | None => major end).

(** [_version_tuple] of [protocols_libraries.py]: the leading dotted number, after an epoch. *)
Definition LIB_VERSION_RE : re :=
  RSeqs [ROpt (RSeqs [RPlus Digit; RLit ":"]); RGrp 1 (RSeqs [RPlus Digit; RStar true (RSeqs [RLit "."; RPlus Digit])])].
Definition lib_version_tuple (text : option string) : option (list Z) :=
  text ← text;
  if String.eqb text EmptyString then None
  else m ← re_match LIB_VERSION_RE (strip text); Some ((fun s => digits_val (chars s)) <$> split "." (group_or 1 m)).

Definition installed_at (name : string) (libs : value) : res bool := l ← get_d name libs; truthy_at "installed" l.

Definition jdk_finding (name : string) (version : value) (major : Z) (props : list (string * value)) : list finding :=
  if major <? JDK_JCA_PQC_MAJOR then
    [Finding "pqc-017-bundled-crypto-without-pqc" "warning"
       (name +:+ " " +:+ py_str version +:+ " is OpenJDK " +:+ show_Z major +:+
        ": no ML-KEM / ML-DSA (JEP 496 / 497 arrived in JDK " +:+ show_Z JDK_JCA_PQC_MAJOR +:+ ").")
       (props ++ [("package:jdk_major", VInt major)]) ("package:" +:+ name)]
  else [].

Definition go_package_finding (name : string) (version : value) (props : list (string * value)) : list finding :=
  match lib_version_tuple (if truthy version then Some (py_str version) else None) with
  | Some (a :: b :: _) =>
      if version_before [a; b] GO_MLKEM_DEFAULT_VERSION then
        [Finding "pqc-017-bundled-crypto-without-pqc" "warning"
           (name +:+ " " +:+ py_str version +:+ ": programs built with it get no default hybrid ML-KEM in crypto/tls (Go " +:+
            go_version_text +:+ "+).")
           props ("package:" +:+ name)]
      else []
  | _ => []
  end.

Definition bundled_entry (libs entry : value) : res (list finding) :=
  package ← get "package" entry;
  version ← get "version" entry;
  note ← get "note" entry;
  let name := py_str package in
  let props := [("package:name", VStr name); ("package:version", version); ("package:note", note)] in
  match (if contains "openjdk" name then java_major name else None) with
  | Some major =>
      judged ← installed_at "java" libs;
      Ok (if (judged : bool) then [] else jdk_finding name version major props)
  | None =>
      if test_match GO_PACKAGE_RE name then
        judged ← installed_at "go" libs;
        Ok (if (judged : bool) then [] else go_package_finding name version props)
      else Ok []
  end.

Definition bundled_findings (r : report) : res (list finding) :=
  let pk := r_packages r in
  available ← truthy_at "available" pk;
  if negb available then Ok []
  else
    libs ← (if truthy (r_crypto_libraries r) then get_d "libraries" (r_crypto_libraries r) else Ok (VDict []));
    entries ← get_l "bundled_crypto" pk;
    l ← mapM (bundled_entry libs) entries;
    Ok (concat l).

(** ** Offline trees and unreadable configurations *)

Definition tree_openssl (pkg lib : value) : res (string * list (string * value)) :=
  if truthy pkg then
    name ← get "name" pkg; version ← get "version" pkg;
    Ok ("OpenSSL package " +:+ py_str name +:+ " " +:+ py_str version,
        [("openssl:package", name); ("openssl:package_version", version)])
  else
    path ← get "path" lib; version ← get "version" lib;
    Ok ("OpenSSL library " +:+ py_str path +:+ " " +:+ py_str version,
        [("openssl:library", path); ("openssl:library_version", version)]).

Definition offline_openssl_findings (r : report) : res (list finding) :=
  if negb (truthy (r_scan_mode r)) then Ok []
  else
    let o := r_openssl r in
    pkg ← get_d "package" o;
    lib ← get_d "library" o;
    expected ← get "pqc_native_expected" o;
    if is_false expected then
      '(what, props) ← tree_openssl pkg lib;
      Ok [host_finding "pqc-001-openssl-pre-3.5" "warning"
            ("The tree's " +:+ what +:+ " is older than 3.5.0 — native ML-KEM / ML-DSA are not available.") props]
    else
      recorded ← py_in (VStr "pqc_native_expected") o;
      installed ← get_or "installed" (VBool true) o;
      if is_none expected && (recorded : bool) && truthy installed then
        name ← get "name" pkg;
        path ← get "path" lib;
        Ok [undetermined "openssl:tree" "the tree's OpenSSL (no package version, and the library carries no version string)"
              [("openssl:package", name); ("openssl:library", path)]]
      else Ok [].

Definition dnssec_unreadable (u : value) : res finding :=
  path ← getitem "path" u;
  reason ← getitem "reason" u;
  Ok (undetermined ("dnssec:" +:+ py_str path)
        ("DNSSEC signing configured in " +:+ py_str path +:+ " (" +:+ py_str reason +:+ ")") [("dnssec:config", path)]).

Definition wireguard_unreadable (path : value) : finding :=
  undetermined ("wireguard:" +:+ py_str path) ("WireGuard config " +:+ py_str path +:+ " (unreadable: needs root)")
    [("wireguard:config", path)].

Definition openvpn_unreadable (c : value) : res (list finding) :=
  readable ← truthy_at "readable" c;
  if (readable : bool) then Ok []
  else
    path ← getitem "path" c;
    reason ← get "reason" c;
    Ok [undetermined ("openvpn:" +:+ py_str path) ("OpenVPN config " +:+ py_str path +:+ " (" +:+ py_str reason +:+ ")")
          [("openvpn:config", path)]].

Definition tunnel_findings (r : report) : res (list finding) :=
  dn ← get_d "summary" (por (r_dnssec r) (VDict []));
  unreadable ← get_l "unreadable_configs" dn;
  first ← mapM dnssec_unreadable unreadable;
  let t := por (r_tunnels r) (VDict []) in
  available ← truthy_at "available" t;
  if negb available then Ok first
  else
    wg ← wireguard_summary t;
    paths ← get_l "unreadable_configs" wg;
    ovpn ← get_d "openvpn" t;
    configs ← get_l "configs" ovpn;
    l ← mapM openvpn_unreadable configs;
    Ok (first ++ (wireguard_unreadable <$> paths) ++ concat l).

(** ** The composition *)

(** [sorted(found, key=lambda f: order[f.rule_id])]. *)
Definition rank (f : finding) : res (Z * finding) :=
  match dget (f_rule f) rule_index with Some i => Ok (i, f) | None => Raise (KeyError (f_rule f)) end.
Definition rank_lt (a b : Z * finding) : bool := a.1 <? b.1.
Definition sort_findings (found : list finding) : res (list finding) :=
  keyed ← mapM rank found; Ok (snd <$> py_sorted rank_lt keyed).

Definition pqc_failure_findings (r : report) : res (list finding) :=
  offline ← offline_openssl_findings r;
  services ← service_findings r;
  libraries ← library_findings r;
  ipsec ← ipsec_findings r;
  bundled ← bundled_findings r;
  tunnels ← tunnel_findings r;
  sort_findings (offline ++ services ++ libraries ++ ipsec ++ bundled ++ tunnels).
