(* ===== verification/Sarif.v ===== *)
(** * SARIF: findings, identities and the log ([render/sarif.py])

    [build_findings] composes the predicates; [sarif_log] is the document
    [render_sarif] dumps as JSON. *)

From S2P Require Import Prelude PyStr PyDict PyVal PyBytes ConfigRead Services SarifTables SarifRules.
From Stdlib Require Import Strings.String.
Open Scope Z_scope.

Definition build_findings (r : report) : res (list finding) :=
  f1 ← rule_001 r; f2 ← rule_002 r; f4 ← rule_004 r; f5 ← rule_005 r; f6 ← rule_006 r; f7 ← rule_007 r;
  f8 ← rule_008 r; f9 ← rule_009 r; f10 ← rule_010 r;
  failures ← pqc_failure_findings r;
  f20 ← rule_020 r; f21 ← rule_021 r; f30 ← rule_030 r; f31 ← rule_031 r; f32 ← rule_032 r; f33 ← rule_033 r; f34 ← rule_034 r;
  Ok (f1 ++ f2 ++ rule_003 r ++ f4 ++ f5 ++ f6 ++ f7 ++ f8 ++ f9 ++ f10 ++ failures ++ f20 ++ f21 ++ f30 ++ f31 ++ f32 ++ f33 ++ f34).

(** ** Identities *)

Definition NUL : string := String "000" EmptyString.
Definition fingerprint_key (hostname rule_id subject : string) : string :=
  hostname +:+ NUL +:+ rule_id +:+ (if String.eqb subject EmptyString then EmptyString else NUL +:+ subject).
Definition finding_fingerprint (hostname rule_id subject : string) : string :=
  str_take 32 (sha256_hex (list_byte_of_string (fingerprint_key hostname rule_id subject))).

Definition safe_host (hostname : string) : string := str_replace "/" "_" hostname.
Definition anchor_path (template hostname : string) : string := str_replace "{hostname}" (safe_host hostname) template.
Definition automation_id (r : report) : string :=
  "pqc-readiness/" +:+ safe_host (r_hostname r) +:+ "/" +:+ r_generated_at r.

(** ** The document *)

Definition SCRIPT_VERSION : string := "2.4.0".
Definition FINGERPRINT_KEY : string := "pqcReadinessHostRule/v1".

Definition host_properties (r : report) : res (list (string * value)) :=
  let props := [("host:hostname", VStr (r_hostname r)); ("host:os", VStr (r_os r)); ("host:arch", VStr (r_arch r));
                ("tool:schema_version", VStr (r_schema_version r)); ("tool:version", VStr SCRIPT_VERSION);
                ("report:generated_at", VStr (r_generated_at r))] in
  if truthy (r_scan_mode r) then
    scan ← gets [("scan:mode", "mode"); ("scan:root", "root")] (r_scan_mode r);
    na ← list_at "not_applicable" (r_scan_mode r);
    Ok (props ++ scan ++ [("scan:not_applicable", na)])
  else Ok props.

Definition rule_descriptor (code_scanning : bool) (s : rule_spec) : value :=
  VDict ([("id", VStr (rs_id s)); ("name", VStr (rs_id s)); ("shortDescription", VDict [("text", VStr (rs_short s))]);
          ("fullDescription", VDict [("text", VStr (rs_full s))]); ("helpUri", VStr (rs_help s));
          ("defaultConfiguration", VDict [("level", VStr (rs_level s))])] ++
         match (if code_scanning then dget (rs_id s) SECURITY_SEVERITY else None) with
         | Some sev => [("properties", VDict [("security-severity", VStr sev);
                                              ("tags", VStrs ["security"; "post-quantum-cryptography"])])]
         | None => []
         end).

Definition sarif_result (f : finding) (index : Z) (hostname : string) (anchor : option string) : value :=
  VDict ([("ruleId", VStr (f_rule f)); ("ruleIndex", VInt index); ("level", VStr (f_level f));
          ("message", VDict [("text", VStr (f_message f))]); ("properties", VDict (f_properties f))] ++
         match anchor with
         | Some uri =>
             [("locations", VList [VDict [("physicalLocation", VDict [
                 ("artifactLocation", VDict [("uri", VStr uri)]); ("region", VDict [("startLine", VInt 1)])])]]);
              ("partialFingerprints", VDict [(FINGERPRINT_KEY,
                 VStr (finding_fingerprint hostname (f_rule f) (f_subject f)))])]
         | None => []
         end).

(** The results: findings of a rule outside [RULE_SPECS] are left out. *)
Definition sarif_results (hostname : string) (location : option string) (findings : list finding) : list value :=
  omap (fun f => (fun i => sarif_result f i hostname location) <$> dget (f_rule f) rule_index) findings.

Definition sarif_log (r : report) (anchor : option string) : res value :=
  let location := (fun a => anchor_path a (r_hostname r)) <$> anchor in
  let code_scanning := bool_decide (is_Some anchor) in
  findings ← build_findings r;
  props ← host_properties r;
  let run := [("tool", VDict [("driver", VDict [
                 ("name", VStr "pqc-readiness"); ("version", VStr SCRIPT_VERSION);
                 ("informationUri", VStr "https://github.com/aclater/pqc-readiness");
                 ("rules", VList (rule_descriptor code_scanning <$> RULE_SPECS))])]);
              ("results", VList (sarif_results (r_hostname r) location findings));
              ("properties", VDict props)] ++
             (if code_scanning then [("automationDetails", VDict [("id", VStr (automation_id r))])] else []) in
  Ok (VDict [("$schema", VStr SARIF_SCHEMA_URI); ("version", VStr SARIF_VERSION); ("runs", VList [VDict run])]).
