(* ===== verification/SarifTheory.v ===== *)
(** * SARIF: what the findings guarantee

    Every finding has a rule of [RULE_SPECS] and one of the levels its rule
    may have; their order; when the host rules fire; the identities results
    carry. *)

From stdpp Require Import sets.
From S2P Require Import Prelude PyStr PyDict PyVal PyBytes ConfigRead Services Policy Sshd SarifTables SarifRules Sarif.
Open Scope Z_scope.

(** ** The kinds of finding a predicate can give *)

Definition kind_of (f : finding) : string * string := (f_rule f, f_level f).

(** If the predicate answers, every finding has one of these rules and levels. *)
Definition yields (ks : list (string * string)) (m : res (list finding)) : Prop :=
  safe (fun _ => True) (Forall (fun f => kind_of f ∈ ks)) m.

Lemma safe_any {A} (m : res A) : safe (fun _ => True) (fun _ => True) m.
Proof. by destruct m. Qed.

Lemma yields_bind {A} ks (m : res A) k : (forall x, yields ks (k x)) -> yields ks (x ← m; k x).
Proof. intros H. eapply safe_bind; [apply safe_any | intros x _; apply H]. Qed.

Lemma yields_nil ks : yields ks (Ok []).
Proof. constructor. Qed.

Lemma yields_one ks f : bool_decide (kind_of f ∈ ks) = true -> yields ks (Ok [f]).
Proof. intros H%bool_decide_eq_true. by repeat constructor. Qed.

(** The same of a computation that answers one finding. *)
Definition yields1 (ks : list (string * string)) (m : res finding) : Prop :=
  safe (fun _ => True) (fun f => kind_of f ∈ ks) m.

Lemma yields1_bind {A} ks (m : res A) k : (forall x, yields1 ks (k x)) -> yields1 ks (x ← m; k x).
Proof. intros H. eapply safe_bind; [apply safe_any | intros x _; apply H]. Qed.

Lemma yields1_ok ks f : bool_decide (kind_of f ∈ ks) = true -> yields1 ks (Ok f).
Proof. by intros H%bool_decide_eq_true. Qed.

Lemma yields_if_some ks b f : yields1 ks f -> yields ks (if_some b f).
Proof. destruct b; [|constructor]. destruct f; [|done]. by repeat constructor. Qed.

Lemma yields_mapM1 {A} ks (f : A -> res finding) xs : (forall x, yields1 ks (f x)) -> yields ks (mapM f xs).
Proof.
  intros H. induction xs as [|x xs IH]; [constructor|].
  change (mapM f (x :: xs)) with (y ← f x; z ← mapM f xs; mret (y :: z)).
  pose proof (H x) as Hx. unfold yields, yields1 in *.
  destruct (f x) as [y|]; [|done]. cbn [mbind res_bind] in *. destruct (mapM f xs) as [ys|]; [|done].
  by constructor.
Qed.

Lemma yields_app ks m n (k : res (list finding)) :
  yields ks m -> yields ks n -> yields ks (a ← m; b ← n; Ok (a ++ b)).
Proof. destruct m, n; simpl; try done. intros. by apply Forall_app. Qed.

Lemma yields_map {A} ks (f : A -> res (list finding)) xs :
  (forall x, yields ks (f x)) -> yields ks (l ← mapM f xs; Ok (concat l)).
Proof.
  intros H. induction xs as [|x xs IH]; [constructor|].
  change (mapM f (x :: xs)) with (y ← f x; z ← mapM f xs; mret (y :: z)).
  pose proof (H x) as Hx. unfold yields in *.
  destruct (f x) as [y|]; [|done]. cbn [mbind res_bind] in *. destruct (mapM f xs) as [ys|]; [|done].
  cbn [safe concat mret res_ret] in *. by apply Forall_app.
Qed.

Lemma yields_mono ks ks' m : ks ⊆ ks' -> yields ks m -> yields ks' m.
Proof. intros Hs H. eapply safe_mono; [exact H | | done]. intros l Hl. eapply Forall_impl; [exact Hl|]. auto. Qed.

Lemma yields_ok ks m fs : yields ks m -> m = Ok fs -> Forall (fun f => kind_of f ∈ ks) fs.
Proof. by intros H ->. Qed.

(** Walk through binds and branches; a finding is decided by evaluation. *)
Ltac yield_step :=
  match goal with
  | |- yields _ (mbind _ (mapM _ _)) => apply yields_map; intros ?
  | |- yields _ (mbind _ _) => apply yields_bind; intros ?; cbv beta
  | |- yields _ (Ok []) => apply yields_nil
  | |- yields _ (Ok [_]) => apply yields_one; reflexivity
  | |- yields _ (Raise _) => exact I
  | |- yields _ (Ok (if ?b then _ else _)) => destruct b
  | |- yields _ (Ok (match ?x with _ => _ end)) => destruct x
  | |- yields _ (if ?b then _ else _) => destruct b
  | |- yields _ (if_some _ _) => apply yields_if_some
  | |- yields1 _ (mbind _ _) => apply yields1_bind; intros ?; cbv beta
  | |- yields1 _ (Ok _) => apply yields1_ok; reflexivity
  | |- yields _ (match ?x with _ => _ end) => destruct x
  end.
Ltac yield := cbv zeta; repeat (yield_step; cbv zeta beta).

(** ** Each predicate *)

Lemma rule_001_kinds r : yields [("pqc-001-openssl-pre-3.5", "warning")] (rule_001 r).
Proof. unfold rule_001. yield. Qed.
Lemma rule_002_kinds r : yields [("pqc-002-fips-pqc-conflict", "error")] (rule_002 r).
Proof. unfold rule_002. yield. Qed.
Lemma rule_003_kinds r : yields [("pqc-003-no-pqc-isa-support", "warning")] (Ok (rule_003 r)).
Proof. unfold rule_003. yield. Qed.
Lemma rule_004_kinds r : yields [("pqc-004-classical-only-trust-store", "note")] (rule_004 r).
Proof. unfold rule_004. yield. Qed.
Lemma rule_005_kinds r : yields [("pqc-005-slh-dsa-in-tls-context", "warning")] (rule_005 r).
Proof. unfold rule_005. yield. Qed.
Lemma rule_006_kinds r : yields [("pqc-006-no-network-hsm-pqc-firmware", "warning")] (rule_006 r).
Proof. unfold rule_006. yield. Qed.
Lemma rule_007_kinds r : yields [("pqc-007-fips-without-algorithm-fence", "error")] (rule_007 r).
Proof. unfold rule_007. yield. Qed.
Lemma rule_008_kinds r : yields [("pqc-008-crypto-policy-blocks-pqc", "warning")] (rule_008 r).
Proof. unfold rule_008. yield. Qed.
Lemma rule_009_kinds r : yields [("pqc-009-classical-package-signing-keys", "note")] (rule_009 r).
Proof. unfold rule_009. yield. Qed.
Lemma rule_030_kinds r : yields [("pqc-030-classical-boot-chain", "note")] (rule_030 r).
Proof. unfold rule_030. yield. Qed.
Lemma rule_032_kinds r : yields [("pqc-032-wireguard-peer-without-psk", "warning")] (rule_032 r).
Proof. unfold rule_032. yield. Qed.
Lemma rule_033_kinds r : yields [("pqc-033-openvpn-classical-key-exchange", "warning")] (rule_033 r).
Proof. unfold rule_033. yield. Qed.

(** Where the level is computed: the levels the computation may give. *)
Lemma yields_bind_safe {A} ks (P : A -> Prop) (m : res A) k :
  safe (fun _ => True) P m -> (forall x, P x -> yields ks (k x)) -> yields ks (x ← m; k x).
Proof. intros Hm Hk. by eapply safe_bind. Qed.

Lemma yields_level ks f : kind_of f ∈ ks -> yields ks (Ok [f]).
Proof. by repeat constructor. Qed.

Lemma kind_in_map (rule l : string) (levels : list string) : l ∈ levels -> (rule, l) ∈ pair rule <$> levels.
Proof. apply list_elem_of_fmap_2. Qed.

Lemma rule_020_kinds r : yields (pair "pqc-020-pqc-capable-not-configured" <$> ["note"; "warning"]) (rule_020 r).
Proof. unfold rule_020, gap_finding. yield; apply yields_level, kind_in_map; case_match; set_solver. Qed.

Lemma rule_010_kinds r : yields (pair "pqc-010-sshd-pqc-kex-not-offered" <$> ["note"; "warning"]) (rule_010 r).
Proof.
  unfold rule_010. apply yields_bind. intros [gap|]; [|apply yields_nil].
  apply yields_bind. intros offered. cbv zeta.
  eapply (yields_bind_safe _ (fun lm => lm.1 ∈ ["note"; "warning"])).
  - destruct (String.eqb _ _).
    + do 3 (eapply safe_bind; [apply safe_any | intros ? _]). simpl. set_solver.
    + eapply safe_bind; [apply safe_any | intros ? _]. simpl. set_solver.
  - intros lm Hlm. yield. by apply yields_level, kind_in_map.
Qed.

(** Skip the binds whose value the levels do not depend on. *)
Ltac skip := repeat (eapply safe_bind; [apply safe_any | intros ? _]; cbv beta zeta).

Lemma kerberos_weak_level kb s :
  safe (fun _ => True) (fun lp => lp.1 ∈ [None; Some "warning"]) (kerberos_weak kb s).
Proof.
  unfold kerberos_weak. skip. destruct (negb _); [simpl; set_solver|]. skip. simpl; set_solver.
Qed.

Lemma note_if_level level parts :
  level ∈ [None; Some "note"; Some "warning"] -> note_if level parts ∈ [None; Some "note"; Some "warning"].
Proof. intros H. unfold note_if. destruct level; [done|]. destruct parts; set_solver. Qed.

Lemma describe_findings_level kb :
  safe (fun _ => True) (fun lp => lp.1 ∈ [None; Some "note"; Some "warning"]) (describe_findings kb).
Proof.
  unfold describe_findings. skip. destruct (negb _); [simpl; set_solver|].
  eapply safe_bind; [apply safe_any | intros s _].
  eapply safe_bind; [apply kerberos_weak_level|]. intros [level parts] Hl. skip.
  simpl. apply note_if_level, note_if_level. simpl in Hl. set_solver.
Qed.

Lemma rule_031_kinds r : yields (pair "pqc-031-kerberos-weak-enctypes" <$> ["note"; "warning"]) (rule_031 r).
Proof.
  eapply yields_bind_safe; [apply describe_findings_level|]. intros [level parts] Hl. simpl in Hl.
  yield. apply yields_level, kind_in_map. set_solver.
Qed.

Lemma dnssec_describe_level dn :
  safe (fun _ => True) (fun lm => match lm with Some lm => lm.1 ∈ ["note"; "warning"] | None => True end) (dnssec_describe dn).
Proof.
  unfold dnssec_describe. skip. destruct (negb _); [done|]. skip.
  case_match; [done|]. skip. destruct (truthy _); [skip|]; simpl; set_solver.
Qed.

Lemma rule_034_kinds r : yields (pair "pqc-034-dnssec-classical-signing" <$> ["note"; "warning"]) (rule_034 r).
Proof.
  eapply yields_bind_safe; [apply dnssec_describe_level|]. intros [[level msg]|] Hl; simpl in Hl; [|apply yields_nil].
  yield. by apply yields_level, kind_in_map.
Qed.

Lemma rule_021_kinds r : yields [("pqc-021-service-config-blocks-pqc", "warning")] (rule_021 r).
Proof.
  unfold rule_021. apply yields_bind. intros blocks. apply yields_mapM1. intros b. unfold blocked_finding. yield.
Qed.

(** ** The software that fails at PQC *)

Definition SERVICE_KINDS : list (string * string) :=
  [("pqc-011-service-crypto-library-without-pqc", "warning"); ("pqc-012-go-service-without-hybrid-mlkem", "warning");
   (UNDETERMINED, "note")].

Lemma listener_findings_kinds probes lst : yields SERVICE_KINDS (listener_findings probes lst).
Proof.
  unfold listener_findings. do 3 (apply yields_bind; intros ?). cbv zeta.
  eapply safe_bind; [|intros lf Hlf; apply yields_bind; intros go].
  - assert (H : yields SERVICE_KINDS (library_finding lst x x1)) by (unfold library_finding; yield). exact H.
  - eapply safe_bind; [|intros gf Hgf; by apply Forall_app].
    assert (H : yields SERVICE_KINDS (if truthy go then go_finding lst go x else Ok [])) by (unfold go_finding; yield). exact H.
Qed.
Lemma service_findings_kinds r : yields SERVICE_KINDS (service_findings r).
Proof.
  unfold service_findings. yield. apply listener_findings_kinds.
Qed.

Definition LIBRARY_KINDS : list (string * string) :=
  [("pqc-013-crypto-library-without-pqc", "warning"); ("pqc-014-crypto-library-pre-standard-mlkem", "note"); (UNDETERMINED, "note")].
Lemma library_findings_kinds r : yields LIBRARY_KINDS (library_findings r).
Proof.
  unfold library_findings, library_entry, single_library, install_finding. yield.
Qed.

Definition IPSEC_KINDS : list (string * string) :=
  [("pqc-015-ipsec-mlkem-unsupported-by-stack", "warning"); ("pqc-016-ipsec-classical-only-ike", "warning"); (UNDETERMINED, "note")].
Lemma ipsec_findings_kinds r : yields IPSEC_KINDS (ipsec_findings r).
Proof.
  unfold ipsec_findings. cbv zeta. do 2 (apply yields_bind; intros ?).
  eapply safe_bind; [|intros first Hfirst].
  - assert (H : yields IPSEC_KINDS (ipsec_mismatch (r_ipsec_pqc r) x0)) by (unfold ipsec_mismatch; yield). exact H.
  - do 2 (apply yields_bind; intros ?).
    assert (H : yields IPSEC_KINDS (l ← mapM ipsec_conn (py_sorted key_lt x2); Ok (concat l))).
    { apply yields_map. intros [conn props]. unfold ipsec_conn. yield. }
    unfold yields in H |- *. destruct (mapM _ _); [|done]. by apply Forall_app.
Qed.

Definition BUNDLED_KINDS : list (string * string) := [("pqc-017-bundled-crypto-without-pqc", "warning")].
Lemma bundled_findings_kinds r : yields BUNDLED_KINDS (bundled_findings r).
Proof.
  unfold bundled_findings, bundled_entry, jdk_finding, go_package_finding. yield.
Qed.

Definition OFFLINE_KINDS : list (string * string) := [("pqc-001-openssl-pre-3.5", "warning"); (UNDETERMINED, "note")].
Lemma offline_openssl_findings_kinds r : yields OFFLINE_KINDS (offline_openssl_findings r).
Proof. unfold offline_openssl_findings, tree_openssl. yield. Qed.

Definition TUNNEL_KINDS : list (string * string) := [(UNDETERMINED, "note")].
Lemma tunnel_findings_kinds r : yields TUNNEL_KINDS (tunnel_findings r).
Proof.
  assert (Hw : forall paths : list value, Forall (fun f => kind_of f ∈ TUNNEL_KINDS) (wireguard_unreadable <$> paths)).
  { intros paths. apply Forall_forall. intros f (p & -> & _)%list_elem_of_fmap. by apply (bool_decide_unpack _). }
  unfold tunnel_findings. cbv zeta. do 2 (apply yields_bind; intros ?).
  eapply safe_bind; [|intros first Hfirst].
  - assert (H : yields TUNNEL_KINDS (mapM dnssec_unreadable x0)).
    { apply yields_mapM1. intros u. unfold dnssec_unreadable. yield. }
    exact H.
  - apply yields_bind. intros [|]; [|exact Hfirst]. do 4 (apply yields_bind; intros ?). 
    assert (H : yields TUNNEL_KINDS (l ← mapM openvpn_unreadable x4; Ok (concat l))).
    { apply yields_map. intros c. unfold openvpn_unreadable. yield. }
    unfold yields in H |- *. destruct (mapM _ _); [|done].
    apply Forall_app; split; [done|]. by apply Forall_app.
Qed.

(** ** The order *)

(** [sorted] keeps the order of elements that compare equal. *)
Lemma insert_sorted_filter {A} (lt : A -> A -> bool) (p : A -> bool) x l :
  (forall a b, p a = true -> p b = true -> lt a b = false) ->
  List.filter p (insert_sorted lt x l) = List.filter p (x :: l).
Proof.
  intros Hp. induction l as [|y l IH]; [done|]. simpl. destruct (lt y x) eqn:E; [|done]. simpl in *. rewrite IH.
  destruct (p x) eqn:Ex, (p y) eqn:Ey; try done. by rewrite (Hp y x) in E.
Qed.

Lemma py_sorted_filter {A} (lt : A -> A -> bool) (p : A -> bool) l :
  (forall a b, p a = true -> p b = true -> lt a b = false) ->
  List.filter p (py_sorted lt l) = List.filter p l.
Proof.
  intros Hp. induction l as [|x l IH]; [done|]. simpl. rewrite insert_sorted_filter by done. simpl. by rewrite IH.
Qed.

Definition position_of (rule : string) : Z := default (-1) (dget rule rule_index).
Definition position (f : finding) : Z := position_of (f_rule f).
Definition earlier (f g : finding) : Prop := position f <= position g.


Lemma insert_sorted_fmap {A B} (lt : B -> B -> bool) (g : A -> B) x l :
  insert_sorted lt (g x) (g <$> l) = g <$> insert_sorted (fun a b => lt (g a) (g b)) x l.
Proof. induction l as [|y l IH]; [done|]. simpl. destruct (lt _ _); [|done]. csimpl. by rewrite <- IH. Qed.
Lemma py_sorted_fmap {A B} (lt : B -> B -> bool) (g : A -> B) l :
  py_sorted lt (g <$> l) = g <$> py_sorted (fun a b => lt (g a) (g b)) l.
Proof. induction l as [|x l IH]; [done|]. csimpl. by rewrite IH, insert_sorted_fmap. Qed.

Definition position_lt (f g : finding) : bool := position f <? position g.
#[export] Instance position_lt_weak : StrictWeak position_lt.
Proof. unfold position_lt; split; unfold not_gt; intros; lia. Qed.

(** Sorting never fails on findings of known rules. *)
Lemma sort_findings_eq found :
  Forall (fun f => dmem (f_rule f) rule_index = true) found -> sort_findings found = Ok (py_sorted position_lt found).
Proof.
  intros H. unfold sort_findings.
  assert (Hm : mapM rank found = Ok ((fun f => (position f, f)) <$> found)).
  { induction H as [|f found Hf _ IH]; [done|].
    change (mapM rank (f :: found)) with (y ← rank f; z ← mapM rank found; mret (y :: z)). rewrite IH.
    assert (Hr : rank f = Ok (position f, f)).
    { unfold rank, position, position_of, dmem in *. by destruct (dget (f_rule f) rule_index). }
    by rewrite Hr. }
  rewrite Hm. cbn [mbind res_bind]. f_equal.
  rewrite py_sorted_fmap, <- list_fmap_compose. apply list_fmap_id.
Qed.

Lemma py_sorted_earlier found : StronglySorted earlier (py_sorted position_lt found).
Proof.
  pose proof (py_sorted_sorted position_lt found) as H.
  induction H as [|f l _ IH Hf]; constructor; [done|].
  eapply Forall_impl; [exact Hf|]. intros g. unfold not_gt, position_lt, earlier. lia.
Qed.

(** Findings of known kinds. *)
Lemma kinds_known ks fs :
  forallb (fun k => dmem k.1 rule_index) ks = true -> Forall (fun f => kind_of f ∈ ks) fs ->
  Forall (fun f => dmem (f_rule f) rule_index = true) fs.
Proof.
  intros Hk H. eapply Forall_impl; [exact H|]. intros f Hf; cbv beta in Hf.
  rewrite forallb_forall in Hk. apply (Hk (kind_of f)). by apply list_elem_of_In.
Qed.

(** A run of findings in order, between two positions. *)
Definition segment (lo hi : Z) (fs : list finding) : Prop :=
  StronglySorted earlier fs /\ Forall (fun f => lo <= position f <= hi) fs.

Lemma segment_app lo m m' hi a b :
  segment lo m a -> segment m' hi b -> m <= m' -> lo <= m' -> m <= hi -> segment lo hi (a ++ b).
Proof.
  intros [Sa Fa] [Sb Fb] H1 H2 H3. split.
  - apply StronglySorted_app_2; [|done|done]. intros f g Hf Hg. rewrite Forall_forall in Fa, Fb.
    specialize (Fa f Hf). specialize (Fb g Hg). simpl in *. unfold earlier. lia.
  - apply Forall_app; split; (eapply Forall_impl; [eassumption|]); simpl; intros; lia.
Qed.

Lemma kinds_position lo hi ks fs :
  forallb (fun k => (lo <=? position_of k.1) && (position_of k.1 <=? hi)) ks = true ->
  Forall (fun f => kind_of f ∈ ks) fs -> Forall (fun f => lo <= position f <= hi) fs.
Proof.
  intros Hk H. eapply Forall_impl; [exact H|]. intros f Hf; cbv beta in Hf.
  rewrite forallb_forall in Hk. specialize (Hk (kind_of f)). rewrite <- list_elem_of_In in Hk. specialize (Hk Hf).
  apply andb_prop in Hk as [H1 H2]. unfold position. simpl in *. lia.
Qed.

(** ** The failures *)

(** The six predicates in the order they are called. *)
Record detected := Detected {
  d_offline : list finding; d_services : list finding; d_libraries : list finding; d_ipsec : list finding;
  d_bundled : list finding; d_tunnels : list finding }.
Definition detect (r : report) : res detected :=
  o ← offline_openssl_findings r; s ← service_findings r; l ← library_findings r;
  i ← ipsec_findings r; b ← bundled_findings r; t ← tunnel_findings r; Ok (Detected o s l i b t).
Definition all_detected (d : detected) : list finding :=
  d_offline d ++ d_services d ++ d_libraries d ++ d_ipsec d ++ d_bundled d ++ d_tunnels d.

Definition FAILURE_KINDS : list (string * string) :=
  OFFLINE_KINDS ++ SERVICE_KINDS ++ LIBRARY_KINDS ++ IPSEC_KINDS ++ BUNDLED_KINDS ++ TUNNEL_KINDS.

Lemma detect_kinds r d : detect r = Ok d ->
  Forall (fun f => kind_of f ∈ OFFLINE_KINDS) (d_offline d) /\
  Forall (fun f => kind_of f ∈ FAILURE_KINDS) (all_detected d) /\
  Forall (fun f => 10 <= position f <= 17)
    (d_services d ++ d_libraries d ++ d_ipsec d ++ d_bundled d ++ d_tunnels d).
Proof.
  unfold detect. intros H. bind H as o Ho. bind H as s Hs. bind H as l Hl. bind H as i Hi. bind H as b Hb. bind H as t Ht.
  injection H as <-. unfold all_detected. simpl.
  apply (yields_ok _ _ _ (offline_openssl_findings_kinds r)) in Ho.
  apply (yields_ok _ _ _ (service_findings_kinds r)) in Hs.
  apply (yields_ok _ _ _ (library_findings_kinds r)) in Hl.
  apply (yields_ok _ _ _ (ipsec_findings_kinds r)) in Hi.
  apply (yields_ok _ _ _ (bundled_findings_kinds r)) in Hb.
  apply (yields_ok _ _ _ (tunnel_findings_kinds r)) in Ht.
  split_and!; [done | |].
  - rewrite !Forall_app. split_and!; (eapply Forall_impl; [eassumption|]); intros f Hf; unfold FAILURE_KINDS;
      rewrite !elem_of_app; tauto.
  - rewrite !Forall_app. split_and!; (eapply kinds_position; [|eassumption]); reflexivity.
Qed.

Lemma pqc_failure_findings_eq r :
  pqc_failure_findings r = (d ← detect r; Ok (py_sorted position_lt (all_detected d))).
Proof.
  unfold pqc_failure_findings. destruct (detect r) as [d|e] eqn:E.
  - pose proof (detect_kinds r d E) as (_ & Hk & _). unfold detect in E.
    bind E as o Ho. bind E as s Hs. bind E as l Hl. bind E as i Hi. bind E as b Hb. bind E as t Ht. injection E as <-.
    rewrite Ho, Hs, Hl, Hi, Hb, Ht. cbn [mbind res_bind]. apply sort_findings_eq.
    by apply (kinds_known FAILURE_KINDS).
  - unfold detect in E. cbn [mbind res_bind]. revert E.
    repeat match goal with |- mbind _ ?m = _ -> _ => destruct m; cbn [mbind res_bind] end; by try intros [= <-].
Qed.

(** The software that fails at PQC, when every predicate answers, is all
    the findings of the six predicates, in the order of [RULE_SPECS]; within
    a rule they keep the order of detection.  Ordering never adds a failure:
    the only errors are those of the predicates. *)
Theorem pqc_failure_findings_spec r :
  match detect r with
  | Ok d => exists fs, pqc_failure_findings r = Ok fs /\ fs ≡ₚ all_detected d /\ StronglySorted earlier fs /\
      forall rule, List.filter (fun f => String.eqb (f_rule f) rule) fs =
                   List.filter (fun f => String.eqb (f_rule f) rule) (all_detected d)
  | Raise e => pqc_failure_findings r = Raise e
  end.
Proof.
  rewrite pqc_failure_findings_eq. destruct (detect r) as [d|e]; [|done]. cbn [mbind res_bind].
  exists (py_sorted position_lt (all_detected d)). split_and!; [done | apply py_sorted_perm | apply py_sorted_earlier |].
  intros rule. apply py_sorted_filter. intros f g Hf%String.eqb_eq Hg%String.eqb_eq.
  unfold position_lt, position. rewrite Hf, Hg. lia.
Qed.

(** The rules that build_findings reports, with the levels each may have. *)
Definition HOST_KINDS : list (string * string) := [
  ("pqc-001-openssl-pre-3.5", "warning"); ("pqc-002-fips-pqc-conflict", "error"); ("pqc-003-no-pqc-isa-support", "warning");
  ("pqc-004-classical-only-trust-store", "note"); ("pqc-005-slh-dsa-in-tls-context", "warning");
  ("pqc-006-no-network-hsm-pqc-firmware", "warning"); ("pqc-007-fips-without-algorithm-fence", "error");
  ("pqc-008-crypto-policy-blocks-pqc", "warning"); ("pqc-009-classical-package-signing-keys", "note");
  ("pqc-010-sshd-pqc-kex-not-offered", "note"); ("pqc-010-sshd-pqc-kex-not-offered", "warning");
  ("pqc-020-pqc-capable-not-configured", "note"); ("pqc-020-pqc-capable-not-configured", "warning");
  ("pqc-021-service-config-blocks-pqc", "warning"); ("pqc-030-classical-boot-chain", "note");
  ("pqc-031-kerberos-weak-enctypes", "note"); ("pqc-031-kerberos-weak-enctypes", "warning");
  ("pqc-032-wireguard-peer-without-psk", "warning"); ("pqc-033-openvpn-classical-key-exchange", "warning");
  ("pqc-034-dnssec-classical-signing", "note"); ("pqc-034-dnssec-classical-signing", "warning")].
Definition FINDING_KINDS : list (string * string) := HOST_KINDS ++ FAILURE_KINDS.

(** ** The whole list *)

(** The predicates of the host, each with the position of its rule. *)
Definition before_rules (r : report) : list (Z * res (list finding)) :=
  [(0, rule_001 r); (1, rule_002 r); (2, Ok (rule_003 r)); (3, rule_004 r); (4, rule_005 r); (5, rule_006 r);
   (6, rule_007 r); (7, rule_008 r); (8, rule_009 r); (9, rule_010 r)].
Definition after_rules (r : report) : list (Z * res (list finding)) :=
  [(18, rule_020 r); (19, rule_021 r); (20, rule_030 r); (21, rule_031 r); (22, rule_032 r); (23, rule_033 r); (24, rule_034 r)].

Definition kinds_at (n : Z) : list (string * string) := List.filter (fun k => position_of k.1 =? n) HOST_KINDS.

Lemma kinds_at_spec k n : k ∈ kinds_at n <-> k ∈ HOST_KINDS /\ position_of k.1 = n.
Proof. unfold kinds_at. by rewrite !list_elem_of_In, filter_In, Z.eqb_eq. Qed.
Lemma kinds_at_position n f l : Forall (fun f => kind_of f ∈ kinds_at n) l -> f ∈ l -> position f = n.
Proof. rewrite Forall_forall. intros H Hf. by apply H, kinds_at_spec in Hf as [_ Hf]. Qed.

Lemma before_rules_kinds r : Forall (fun nm => yields (kinds_at nm.1) nm.2) (before_rules r).
Proof.
  repeat constructor;
    [exact (rule_001_kinds r) | exact (rule_002_kinds r) | exact (rule_003_kinds r) | exact (rule_004_kinds r)
    | exact (rule_005_kinds r) | exact (rule_006_kinds r) | exact (rule_007_kinds r) | exact (rule_008_kinds r)
    | exact (rule_009_kinds r) | exact (rule_010_kinds r)].
Qed.
Lemma after_rules_kinds r : Forall (fun nm => yields (kinds_at nm.1) nm.2) (after_rules r).
Proof.
  repeat constructor;
    [exact (rule_020_kinds r) | exact (rule_021_kinds r) | exact (rule_030_kinds r) | exact (rule_031_kinds r)
    | exact (rule_032_kinds r) | exact (rule_033_kinds r) | exact (rule_034_kinds r)].
Qed.

Lemma build_findings_eq r :
  build_findings r = (before ← mapM snd (before_rules r); failures ← pqc_failure_findings r;
                      after ← mapM snd (after_rules r); Ok (concat before ++ failures ++ concat after)).
Proof.
  unfold build_findings, before_rules, after_rules. csimpl.
  repeat match goal with |- mbind _ ?m = _ => destruct m; cbn [mbind res_bind mret res_ret]; [|done] end.
  cbn [concat]. by rewrite <- !app_assoc, !app_nil_r.
Qed.

Lemma segment_at n l : Forall (fun f => kind_of f ∈ kinds_at n) l -> segment n n l.
Proof.
  intros H. assert (Hp : Forall (fun f => position f = n) l).
  { apply Forall_forall. intros f Hf. by apply (kinds_at_position _ _ l). }
  clear H. split; induction Hp as [|f l Hf Hp IH]; constructor; try done; [|lia].
  eapply Forall_impl; [exact Hp|]. unfold earlier. intros g Hg; cbv beta in Hg. lia.
Qed.

Lemma rules_segment hi ls : forall lo (ms : list (Z * res (list finding))),
  Forall (fun nm => yields (kinds_at nm.1) nm.2) ms -> StronglySorted Z.lt (lo - 1 :: ms.*1) -> Forall (fun n => n <= hi) ms.*1 ->
  mapM snd ms = Ok ls -> segment lo hi (concat ls) /\ Forall (fun f => kind_of f ∈ HOST_KINDS) (concat ls).
Proof.
  induction ls as [|l ls IH]; intros lo [|[n m] ms] Hk Hs Hhi H; try (by repeat constructor).
  apply mapM_cons_ok in H as (y & ys & [= <- <-] & Hm & Hms). simpl in Hm.
  apply Forall_cons in Hk as [Hn Hk]. apply Forall_cons in Hhi as [Hnhi Hhi].
  apply StronglySorted_cons in Hs as [Hlo Hs]. csimpl in *.
  apply Forall_cons in Hlo as [Hlo _].
  pose proof (yields_ok _ _ _ Hn Hm) as Hl.
  destruct (IH (n + 1) ms Hk) as [Hseg Hkinds]; [by replace (n + 1 - 1) with n by lia | done | done |].
  split.
  - assert (Hrange : n <= hi) by done.
    apply (segment_app lo n (n + 1) hi); [| done | lia..].
    destruct (segment_at n l Hl) as [Hss Hpos]. split; [done|]. eapply Forall_impl; [exact Hpos|].
    intros f Hf; cbv beta in Hf. lia.
  - apply Forall_app. split; [|done]. eapply Forall_impl; [exact Hl|]. by intros f [Hf _]%kinds_at_spec.
Qed.

Lemma build_findings_parts r fs : build_findings r = Ok fs ->
  exists b d a, fs = b ++ py_sorted position_lt (all_detected d) ++ a /\ detect r = Ok d /\
    segment 0 9 b /\ segment 18 24 a /\ Forall (fun f => kind_of f ∈ HOST_KINDS) (b ++ a).
Proof.
  rewrite build_findings_eq, pqc_failure_findings_eq. intros H.
  bind H as bs Hb. bind H as fl Hfl. bind H as afs Ha. injection H as <-. bind Hfl as d Hd. injection Hfl as <-.
  destruct (rules_segment 9 bs 0 _ (before_rules_kinds r)) as [Sb Kb]; [by repeat constructor.. | done |].
  destruct (rules_segment 24 afs 18 _ (after_rules_kinds r)) as [Sa Ka]; [by repeat constructor.. | done |].
  exists (concat bs), d, (concat afs). split_and!; try done. by apply Forall_app.
Qed.

(** A finding as its rule declares it: known, at the default level or, for
    four host rules, at another level, with a security severity. *)
Definition declared (f : finding) : Prop :=
  exists s, s ∈ RULE_SPECS /\ rs_id s = f_rule f /\ is_Some (dget (f_rule f) SECURITY_SEVERITY) /\
    (f_level f = rs_level s \/
     (f_rule f ∈ ["pqc-010-sshd-pqc-kex-not-offered"; "pqc-020-pqc-capable-not-configured"; "pqc-031-kerberos-weak-enctypes"] /\
      f_level f = "note") \/
     (f_rule f = "pqc-034-dnssec-classical-signing" /\ f_level f = "warning")).

Definition declared_kind (k : string * string) : bool :=
  dmem k.1 SECURITY_SEVERITY &&
  existsb (fun s => String.eqb (rs_id s) k.1 &&
    (String.eqb k.2 (rs_level s) ||
     (bool_decide (k.1 ∈ ["pqc-010-sshd-pqc-kex-not-offered"; "pqc-020-pqc-capable-not-configured"; "pqc-031-kerberos-weak-enctypes"]) &&
      String.eqb k.2 "note") ||
     (String.eqb k.1 "pqc-034-dnssec-classical-signing" && String.eqb k.2 "warning"))) RULE_SPECS.

Lemma declared_kind_sound f : declared_kind (kind_of f) = true -> declared f.
Proof.
  unfold declared_kind, declared, kind_of, dmem. cbn [fst snd]. intros [Hsev (s & Hs & H)%existsb_exists]%andb_prop.
  apply andb_prop in H as [Hid%String.eqb_eq H]. apply list_elem_of_In in Hs. exists s. split_and!; [done.. | |].
  - by destruct (dget _ SECURITY_SEVERITY); eauto.
  - apply orb_prop in H as [[H|H]%orb_prop|H].
    + left. by apply String.eqb_eq.
    + right. left. apply andb_prop in H as [H%bool_decide_eq_true ?%String.eqb_eq]. done.
    + right. right. apply andb_prop in H as [?%String.eqb_eq ?%String.eqb_eq]. done.
Qed.

Lemma finding_kinds_declared : forallb declared_kind FINDING_KINDS = true.
Proof. vm_compute. reflexivity. Qed.

Lemma build_findings_kinds r fs : build_findings r = Ok fs -> Forall (fun f => kind_of f ∈ FINDING_KINDS) fs.
Proof.
  intros (b & d & a & -> & Hd & _ & _ & Hk)%build_findings_parts. apply Forall_app in Hk as [Hb Ha].
  apply detect_kinds in Hd as (_ & Hd & _). unfold FINDING_KINDS.
  rewrite !Forall_app, py_sorted_perm.
  split_and!; (eapply Forall_impl; [eassumption|]); intros f Hf; cbv beta in Hf; rewrite elem_of_app; tauto.
Qed.

Lemma build_findings_declared r fs : build_findings r = Ok fs -> Forall declared fs.
Proof.
  intros H%build_findings_kinds. eapply Forall_impl; [exact H|]. intros f Hf. apply declared_kind_sound.
  pose proof finding_kinds_declared as Hall. rewrite forallb_forall in Hall. apply Hall. by apply list_elem_of_In.
Qed.

Lemma filter_sorted {A} (R : A -> A -> Prop) (p : A -> bool) l : StronglySorted R l -> StronglySorted R (List.filter p l).
Proof.
  induction 1 as [|x l _ IH Hx]; simpl; [constructor|]. destruct (p x); [|done]. constructor; [done|].
  rewrite Forall_forall in Hx |- *. intros y [Hy _]%list_elem_of_In%filter_In. apply Hx. by apply list_elem_of_In.
Qed.

Lemma segment_filter lo hi p fs : segment lo hi fs -> segment lo hi (List.filter p fs).
Proof.
  intros [Hs Hf]. split; [by apply filter_sorted|]. rewrite Forall_forall in Hf |- *.
  intros y [Hy _]%list_elem_of_In%filter_In. apply Hf. by apply list_elem_of_In.
Qed.

(** What is kept is in order as soon as no kept finding is the tree's own pqc-001. *)
Lemma build_findings_sorted r fs d keep : build_findings r = Ok fs -> detect r = Ok d ->
  (forall f, f ∈ d_offline d -> keep f = true -> 10 <= position f) -> StronglySorted earlier (List.filter keep fs).
Proof.
  intros (b & d' & a & -> & Hd & Sb & Sa & _)%build_findings_parts Hd' Hkeep.
  rewrite Hd in Hd'. injection Hd' as ->. apply detect_kinds in Hd as (Ho & _ & Hrest).
  assert (Hm : segment 10 17 (List.filter keep (py_sorted position_lt (all_detected d)))).
  { split; [apply filter_sorted, py_sorted_earlier|]. apply Forall_forall.
    intros f [Hf Hk]%list_elem_of_In%filter_In. apply list_elem_of_In in Hf. rewrite elem_of_py_sorted in Hf.
    apply elem_of_app in Hf as [Hf|Hf].
    - split; [by apply Hkeep|]. rewrite Forall_forall in Ho. specialize (Ho f Hf).
      assert (Hp : forallb (fun k => position_of k.1 <=? 17) OFFLINE_KINDS = true) by reflexivity.
      rewrite forallb_forall in Hp. specialize (Hp (kind_of f)). rewrite <- list_elem_of_In in Hp.
      apply Hp in Ho. unfold position. simpl in Ho. lia.
    - rewrite Forall_forall in Hrest. by apply Hrest. }
  rewrite !List.filter_app. apply (segment_filter _ _ keep) in Sb, Sa.
  by apply (segment_app 0 9 10 24); [| apply (segment_app 10 17 18 24); [done | done | lia..] | lia..].
Qed.

(** C32: every finding of a report names a rule of [RULE_SPECS], has a
    security severity and the rule's default level (pqc-010, 020 and 031 may
    be notes, 034 a warning).  Of a live scan the findings are in the order
    of the rules; of an offline scan those other than pqc-001 are. *)
Theorem build_findings_spec r fs (H : build_findings r = Ok fs) :
  Forall declared fs /\
  (truthy (r_scan_mode r) = false -> StronglySorted earlier fs) /\
  StronglySorted earlier (List.filter (fun f => negb (String.eqb (f_rule f) "pqc-001-openssl-pre-3.5")) fs).
Proof.
  pose proof (build_findings_parts _ _ H) as (b & d & a & _ & Hd & _). split_and!.
  - by apply (build_findings_declared r).
  - intros Hlive. assert (Hid : forall l : list finding, List.filter (fun _ => true) l = l) by (induction l; simpl; congruence).
    rewrite <- (Hid fs). apply (build_findings_sorted _ _ _ _ H Hd). intros f Hf.
    unfold detect, offline_openssl_findings in Hd. rewrite Hlive in Hd. cbn [negb mbind res_bind] in Hd.
    binds. subst d. by apply elem_of_nil in Hf.
  - apply (build_findings_sorted _ _ _ _ H Hd). intros f Hf Hk.
    pose proof (detect_kinds _ _ Hd) as [Ho _]. rewrite Forall_forall in Ho. specialize (Ho f Hf).
    apply elem_of_cons in Ho as [Ho|Ho]; [injection Ho as Ho _; by rewrite Ho in Hk|].
    apply list_elem_of_singleton in Ho. injection Ho as Ho _. unfold position. by rewrite Ho.
Qed.

(** ** Identities *)

Lemma prefix_chars_app p l : prefix_chars p l = true -> l = p ++ drop (length p) l.
Proof.
  revert l. induction p as [|a p IH]; intros [|b l]; simpl; try done.
  intros [->%Ascii.eqb_eq H]%andb_prop. f_equal. by apply IH.
Qed.

(** Splitting on any text and joining with it gives the text back. *)
Lemma split_chars_join_any sep l : sep <> [] -> forall skip acc,
  split_chars sep skip acc l <> [] /\ join_chars sep (split_chars sep skip acc l) = reverse acc ++ drop skip l.
Proof.
  intros Hsep. induction l as [|c l IH]; intros skip acc; simpl.
  { by rewrite drop_nil, app_nil_r. }
  destruct skip as [|k]; [|apply IH].
  destruct (prefix_chars sep (c :: l)) eqn:E.
  - destruct (IH (length sep - 1)%nat []) as [Hne Hj]. split; [done|]. rewrite join_chars_cons, Hj by done. simpl.
    apply prefix_chars_app in E. f_equal. symmetry. rewrite E at 1. f_equal.
    destruct sep as [|a sep]; [done|]. simpl. by rewrite Nat.sub_0_r.
  - destruct (IH 0%nat (c :: acc)) as [Hne Hj]. split; [done|]. by rewrite Hj, reverse_cons, <- app_assoc.
Qed.

Lemma split_join_any sep s : sep <> EmptyString -> str_join sep (split sep s) = s.
Proof.
  intros Hs. apply chars_inj. rewrite chars_str_join. unfold split.
  rewrite <- list_fmap_compose, (list_fmap_ext _ id); [|intros; apply chars_str_of].
  rewrite list_fmap_id. apply split_chars_join_any. by destruct sep.
Qed.

Definition slashes (l : list ascii) : nat := length (List.filter (Ascii.eqb "/") l).

Lemma slashes_app l k : slashes (l ++ k) = (slashes l + slashes k)%nat.
Proof. unfold slashes. by rewrite List.filter_app, length_app. Qed.

Lemma slashes_join sep sep' ps :
  slashes sep = slashes sep' -> slashes (join_chars sep ps) = slashes (join_chars sep' ps).
Proof.
  intros H. induction ps as [|p ps IH]; [done|]. destruct ps as [|q ps]; [done|].
  rewrite (join_chars_cons sep), (join_chars_cons sep'), !slashes_app by done. lia.
Qed.

Lemma slashes_none l : "/"%char ∉ l -> slashes l = 0%nat.
Proof.
  unfold slashes. induction l as [|c l IH]; [done|]. rewrite not_elem_of_cons. intros [Hc Hl]. cbn [List.filter].
  rewrite (proj2 (Ascii.eqb_neq _ _)) by done. auto.
Qed.

Lemma safe_host_slashes h : "/"%char ∉ chars (safe_host h).
Proof.
  apply join_no_char; [by apply (bool_decide_unpack _)|]. apply Forall_forall. intros p. apply split_free.
Qed.

(** The expanded --sarif-anchor path has exactly the separators of the
    template, whatever the host is called.  The name itself is not
    neutralised: a host called ".." leads out of the directory the template
    names. *)
Theorem anchor_path_spec :
  (forall template hostname, slashes (chars (anchor_path template hostname)) = slashes (chars template)) /\
  (forall hostname, anchor_path "findings/{hostname}/host.json" hostname = "findings/" +:+ safe_host hostname +:+ "/host.json") /\
  anchor_path "findings/{hostname}/host.json" ".." = "findings/../host.json".
Proof.
  split_and!; [|reflexivity..]. intros template h. unfold anchor_path, str_replace.
  rewrite chars_str_join.
  rewrite (slashes_join _ (chars "{hostname}")) by (by rewrite (slashes_none _ (safe_host_slashes h))).
  rewrite <- chars_str_join. by rewrite split_join_any.
Qed.

Lemma first_separator c (l1 l2 k1 k2 : list ascii) :
  c ∉ l1 -> c ∉ l2 -> l1 ++ c :: k1 = l2 ++ c :: k2 -> l1 = l2 /\ k1 = k2.
Proof.
  revert l2. induction l1 as [|x l1 IH]; intros [|y l2]; simpl; rewrite ?not_elem_of_cons.
  - by intros _ _ [= ->].
  - intros _ [Hy _] [= -> _]. done.
  - intros [Hx _] _ [= <- _]. done.
  - intros [_ H1] [_ H2] [= -> H]. destruct (IH l2 H1 H2 H) as [-> ->]. done.
Qed.

Definition nul_free (s : string) : Prop := "000"%char ∉ chars s.

(** Two findings of any two reports are fingerprinted from the same text
    only when host, rule and subject agree; the empty subject is none of the
    others.  (Hosts are host names: they hold no NUL.) *)
Theorem fingerprint_key_injective r1 r2 fs1 fs2 f1 f2 h1 h2
    (H1 : build_findings r1 = Ok fs1) (H2 : build_findings r2 = Ok fs2) (Hf1 : f1 ∈ fs1) (Hf2 : f2 ∈ fs2)
    (Hh1 : nul_free h1) (Hh2 : nul_free h2) :
  fingerprint_key h1 (f_rule f1) (f_subject f1) = fingerprint_key h2 (f_rule f2) (f_subject f2) <->
  h1 = h2 /\ f_rule f1 = f_rule f2 /\ f_subject f1 = f_subject f2.
Proof.
  assert (Hrule : forall r fs f, build_findings r = Ok fs -> f ∈ fs -> nul_free (f_rule f)).
  { intros r fs f H Hf. apply build_findings_kinds in H. rewrite Forall_forall in H. specialize (H f Hf).
    assert (Hall : forallb (fun k => bool_decide ("000"%char ∉ chars k.1)) FINDING_KINDS = true) by (vm_compute; reflexivity).
    rewrite forallb_forall in Hall. rewrite list_elem_of_In in H. apply Hall in H. by apply bool_decide_eq_true in H. }
  apply (Hrule r1 fs1 _ H1) in Hf1. apply (Hrule r2 fs2 _ H2) in Hf2. split; [|by intros (-> & -> & ->)].
  unfold fingerprint_key. intros H. apply (f_equal chars) in H. unfold NUL in H.
  rewrite !chars_app in H. cbn [String.list_ascii_of_string app] in H.
  apply first_separator in H as [Hh H]; [|done..]. apply chars_inj in Hh.
  destruct (String.eqb (f_subject f1) EmptyString) eqn:E1, (String.eqb (f_subject f2) EmptyString) eqn:E2.
  - apply String.eqb_eq in E1, E2. rewrite !app_nil_r in H. apply chars_inj in H. split_and!; congruence.
  - exfalso. rewrite app_nil_r in H. apply Hf1. rewrite H. rewrite chars_app. set_solver.
  - exfalso. rewrite app_nil_r in H. apply Hf2. rewrite <- H. rewrite chars_app. set_solver.
  - rewrite !chars_app in H. apply first_separator in H as [Hr H]; [|done..]. apply chars_inj in Hr, H. done.
Qed.

(** ** When the host rules fire *)

Definition reported (id : string) (fs : list finding) : Prop := exists f, f ∈ fs /\ f_rule f = id.

Lemma elem_of_concat {A} (x : A) ls : x ∈ concat ls <-> exists l, x ∈ l /\ l ∈ ls.
Proof. rewrite list_elem_of_In, in_concat. setoid_rewrite list_elem_of_In. naive_solver. Qed.

Lemma mapM_snd_elem (ms : list (Z * res (list finding))) ls l :
  mapM snd ms = Ok ls -> l ∈ ls -> exists n, (n, Ok l) ∈ ms.
Proof.
  revert ls. induction ms as [|[n m] ms IH]; intros ls.
  - intros [= <-] Hl. by apply elem_of_nil in Hl.
  - intros (y & ys & -> & Hy & Hys)%mapM_cons_ok. simpl in Hy. subst m. intros [->|Hl]%elem_of_cons; [exists n; by left|].
    destruct (IH ys Hys Hl) as [n' Hn]. exists n'. by right.
Qed.
Lemma mapM_snd_elem_2 (ms : list (Z * res (list finding))) ls n m :
  mapM snd ms = Ok ls -> (n, m) ∈ ms -> exists l, m = Ok l /\ l ∈ ls.
Proof.
  revert ls. induction ms as [|[n' m'] ms IH]; intros ls.
  - intros _ Hl. by apply elem_of_nil in Hl.
  - intros (y & ys & -> & Hy & Hys)%mapM_cons_ok. simpl in Hy. subst m'.
    intros [[= -> ->]|Hl]%elem_of_cons; [exists y; split; [done | by left]|].
    destruct (IH ys Hys Hl) as (l & -> & ?). exists l. split; [done | by right].
Qed.

(** A finding of a rule comes from the predicate at its position. *)
Lemma rules_only n f ls (ms : list (Z * res (list finding))) m :
  NoDup ms.*1 -> Forall (fun nm => yields (kinds_at nm.1) nm.2) ms -> mapM snd ms = Ok ls -> (n, m) ∈ ms ->
  position f = n -> f ∈ concat ls -> exists l, m = Ok l /\ f ∈ l.
Proof.
  intros Hnd Hk Hms Hin Hp Hf. apply elem_of_concat in Hf as (l & Hf & Hl).
  destruct (mapM_snd_elem ms ls l Hms Hl) as [n' Hn']. rewrite Forall_forall in Hk.
  pose proof (kinds_at_position n' f l (Hk _ Hn') Hf) as Hp'. assert (n' = n) as -> by congruence.
  exists l. split; [|done]. clear -Hnd Hin Hn'. apply list_elem_of_lookup in Hin as [i Hi], Hn' as [j Hj].
  assert (i = j) as <-; [|congruence]. apply (NoDup_lookup ms.*1 i j n); [done|..]; rewrite list_lookup_fmap.
  - by rewrite Hi.
  - by rewrite Hj.
Qed.

Lemma rules_all n f ls (ms : list (Z * res (list finding))) l :
  mapM snd ms = Ok ls -> (n, Ok l) ∈ ms -> f ∈ l -> f ∈ concat ls.
Proof.
  intros Hms Hin Hf. destruct (mapM_snd_elem_2 ms ls n _ Hms Hin) as (l' & [= <-] & Hl).
  apply elem_of_concat. by exists l.
Qed.

Lemma failure_position r d f : detect r = Ok d -> f ∈ all_detected d -> position f = 0 \/ 10 <= position f <= 17.
Proof.
  intros (Ho & _ & Hrest)%detect_kinds [Hf|Hf]%elem_of_app.
  - rewrite Forall_forall in Ho. specialize (Ho f Hf). unfold position.
    apply elem_of_cons in Ho as [[= -> _]|[[= -> _]|[]%elem_of_nil]%elem_of_cons]; [by left|right].
    change (position_of UNDETERMINED) with 17. lia.
  - right. rewrite Forall_forall in Hrest. by apply Hrest.
Qed.

Definition host_rules (r : report) : list (Z * res (list finding)) := before_rules r ++ after_rules r.
Lemma host_rules_kinds r : Forall (fun nm => yields (kinds_at nm.1) nm.2) (host_rules r).
Proof. apply Forall_app. split; [apply before_rules_kinds | apply after_rules_kinds]. Qed.

Lemma mapM_app {A B} (g : A -> res B) l k ls ks : mapM g l = Ok ls -> mapM g k = Ok ks -> mapM g (l ++ k) = Ok (ls ++ ks).
Proof.
  revert ls. induction l as [|x l IH]; intros ls.
  - by intros [= <-].
  - intros (y & ys & -> & Hx & Hl)%mapM_cons_ok Hk. apply mapM_cons_ok. exists y, (ys ++ ks). split_and!; [done.. | by apply IH].
Qed.

Lemma host_rule_reported r fs n m id : build_findings r = Ok fs -> (n, m) ∈ host_rules r ->
  position_of id = n -> 0 < n -> forallb (fun k => String.eqb k.1 id) (kinds_at n) = true ->
  exists l, m = Ok l /\ (reported id fs <-> l <> []).
Proof.
  rewrite build_findings_eq, pqc_failure_findings_eq. intros H Hin Hpos Hn Hk.
  bind H as bs Hb. bind H as fl Hfl. bind H as afs Ha. injection H as <-. bind Hfl as d Hd. injection Hfl as <-.
  pose proof (mapM_app _ _ _ _ _ Hb Ha) as Hms. fold (host_rules r) in Hms.
  destruct (mapM_snd_elem_2 _ _ _ _ Hms Hin) as (l & -> & Hl). exists l. split; [done|].
  assert (Hrange : n < 10 \/ 18 <= n).
  { assert (Hr : Forall (fun k => k < 10 \/ 18 <= k) (host_rules r).*1)
      by (change (Forall (fun k => k < 10 \/ 18 <= k) [0; 1; 2; 3; 4; 5; 6; 7; 8; 9; 18; 19; 20; 21; 22; 23; 24]);
          repeat (apply Forall_cons; split; [lia|]); constructor).
    rewrite Forall_forall in Hr. apply Hr. apply (list_elem_of_fmap_2 fst) in Hin. exact Hin. }
  split.
  - intros (f & Hf & Hid). assert (Hpf : position f = n) by (unfold position; congruence).
    assert (Hf' : f ∈ concat (bs ++ afs)).
    { rewrite concat_app. rewrite !elem_of_app, elem_of_py_sorted in Hf. rewrite elem_of_app.
      destruct Hf as [Hf|[Hf|Hf]]; [by left | | by right]. apply (failure_position r) in Hf as [?|?]; [lia.. | done]. }
    destruct (rules_only n f (bs ++ afs) (host_rules r) (Ok l)) as (l' & [= <-] & Hfl); try assumption.
    + change (NoDup [0; 1; 2; 3; 4; 5; 6; 7; 8; 9; 18; 19; 20; 21; 22; 23; 24]). by apply (bool_decide_unpack _).
    + apply host_rules_kinds.
    + by intros ->; apply elem_of_nil in Hfl.
  - destruct l as [|f l]; [done|]. intros _. exists f. split.
    + pose proof (rules_all n f _ _ _ Hms Hin ltac:(by left)) as Hf. rewrite concat_app in Hf.
      rewrite !elem_of_app. apply elem_of_app in Hf as [Hf|Hf]; tauto.
    + pose proof (host_rules_kinds r) as Hall. rewrite Forall_forall in Hall. specialize (Hall _ Hin).
      apply Forall_cons in Hall as [Hkf _]. rewrite forallb_forall in Hk. apply list_elem_of_In in Hkf.
      by apply Hk, String.eqb_eq in Hkf.
Qed.

Lemma if_some_nonempty b f l : if_some b f = Ok l -> (l <> [] <-> b = true).
Proof. destruct b; simpl; [|by intros [= <-]]. intros H. bind H as x Hx. by injection H as <-. Qed.

Lemma rule_002_when r l : rule_002 r = Ok l -> (l <> [] <-> truthy_at "in_conflict" (r_fips_pqc_conflict r) = Ok true).
Proof. unfold rule_002. intros H. bind H as c Hc. rewrite (if_some_nonempty _ _ _ H), Hc. by split; [intros -> | intros [= ->]]. Qed.

Lemma rule_003_when r l : Ok (rule_003 r) = Ok l -> (l <> [] <-> r_replace_required r = true).
Proof. unfold rule_003. by destruct (r_replace_required r); intros [= <-]. Qed.

Lemma slh_dsa_elem (sigs : list value) (s : string) : s ∈ omap slh_dsa_name sigs <-> VStr s ∈ sigs /\ starts_with "SLH-DSA" s = true.
Proof.
  rewrite list_elem_of_omap. unfold slh_dsa_name. split.
  - intros (v & Hv & H). destruct v; try done. by destruct (starts_with _ s0) eqn:E; simplify_eq.
  - intros [Hv Hs]. exists (VStr s). by rewrite Hs.
Qed.

Lemma rule_005_when r l : rule_005 r = Ok l ->
  (l <> [] <-> exists sigs s, get_l "sig_algorithms" (r_openssl r) = Ok sigs /\ VStr s ∈ sigs /\ starts_with "SLH-DSA" s = true).
Proof.
  unfold rule_005. intros H. bind H as sigs Hs. rewrite Hs.
  pose proof (elem_of_py_sorted str_lt) as Hin. setoid_rewrite <- slh_dsa_elem. setoid_rewrite <- Hin.
  destruct (py_sorted _ _) as [|s names] eqn:E; injection H as <-.
  - split; [done|]. intros (? & ? & [= <-] & H). rewrite E in H. by apply elem_of_nil in H.
  - split; [intros _ | done]. exists sigs, s. rewrite E. split; [done | by left].
Qed.

Lemma rule_007_when r l : rule_007 r = Ok l ->
  (l <> [] <-> truthy_at "fence_check_active" (r_fips r) = Ok true /\ truthy_at "algorithm_fence_engaged" (r_fips r) = Ok false).
Proof.
  unfold rule_007. intros H. bind H as active Ha. bind H as engaged He. rewrite (if_some_nonempty _ _ _ H), Ha.
  destruct active.
  - rewrite He. destruct engaged; naive_solver.
  - injection He as <-. naive_solver.
Qed.

Lemma rule_008_when r l : rule_008 r = Ok l ->
  (l <> [] <-> policy_blocks_capable_pqc (r_crypto_policy r) (r_openssl r) = Ok true).
Proof. unfold rule_008. cbv zeta. intros H. bind H as c Hc. rewrite (if_some_nonempty _ _ _ H), Hc. by split; [intros -> | intros [= ->]]. Qed.

Lemma rule_010_when r l : rule_010 r = Ok l -> (l <> [] <-> exists gap, sshd_pqc_gap (r_sshd r) = Ok (Some gap)).
Proof.
  unfold rule_010. intros H. bind H as gap Hg. rewrite Hg. destruct gap as [gap|].
  - split; [by eauto|]. intros _. bind H as x1 H1. cbv zeta in H. bind H as lm Hlm. bind H as props Hp. by injection H as <-.
  - injection H as <-. naive_solver.
Qed.

Lemma rule_030_when r l : rule_030 r = Ok l ->
  (l <> [] <-> exists layer layers, Boot.describe_classical_layers (r_boot_chain r) = Ok (layer :: layers)).
Proof.
  unfold rule_030. intros H. bind H as layers Hl. rewrite Hl. destruct layers as [|layer layers].
  - injection H as <-. naive_solver.
  - split; [by eauto|]. intros _. bind H as s Hs. bind H as props Hp. by injection H as <-.
Qed.

Lemma rule_032_when r l : rule_032 r = Ok l ->
  (l <> [] <-> exists s, wireguard_summary (r_tunnels r) = Ok s /\ truthy_at "peers_without_psk" s = Ok true).
Proof.
  unfold rule_032. intros H. bind H as msg Hm. unfold describe_wireguard in Hm. bind Hm as s Hs. rewrite Hs.
  bind Hm as without Hw. bind Hm as total Ht. injection Hm as <-. unfold truthy_at.
  destruct (truthy without) eqn:E; simpl in H.
  - split.
    + intros _. exists s. split; [done|]. rewrite Hw. cbn [mbind res_bind]. by rewrite E.
    + intros _. rewrite Hs in H. cbn [mbind res_bind] in H. bind H as props Hp. by injection H as <-.
  - injection H as <-. split; [done|]. intros (s' & [= <-] & H). rewrite Hw in H. cbn [mbind res_bind] in H. congruence.
Qed.

Lemma rule_fires r fs i n m id (P : Prop) : build_findings r = Ok fs -> host_rules r !! i = Some (n, m) -> position_of id = n ->
  0 < n -> forallb (fun k => String.eqb k.1 id) (kinds_at n) = true -> (forall l, m = Ok l -> (l <> [] <-> P)) ->
  (reported id fs <-> P).
Proof.
  intros H Hin Hpos Hn Hk Hw. apply list_elem_of_lookup_2 in Hin.
  destruct (host_rule_reported r fs n m id H Hin Hpos Hn Hk) as (l & Hm & ->). by apply Hw.
Qed.


(** ** The document *)

Lemma rule_index_spec s : s ∈ RULE_SPECS -> exists i s', dget (rs_id s) rule_index = Some (Z.of_nat i) /\
  RULE_SPECS !! i = Some s' /\ rs_id s' = rs_id s.
Proof.
  intros Hs. assert (H : forallb (fun s => match dget (rs_id s) rule_index with
      | Some z => (0 <=? z) && match RULE_SPECS !! Z.to_nat z with Some s' => String.eqb (rs_id s') (rs_id s) | None => false end
      | None => false end) RULE_SPECS = true) by (vm_compute; reflexivity).
  rewrite forallb_forall in H. apply list_elem_of_In, H in Hs. destruct (dget _ rule_index) as [z|]; [|done].
  apply andb_prop in Hs as [Hz Hs]. destruct (RULE_SPECS !! _) as [s'|] eqn:E; [|done].
  exists (Z.to_nat z), s'. split_and!; [f_equal; lia | done | by apply String.eqb_eq].
Qed.

(** A result of the log read back: what it says of the finding, where it
    points in the rule table, and its location and fingerprint. *)
Definition result_of (rules : list value) (hostname : string) (location : option string) (f : finding) (v : value) : Prop :=
  (exists i d, get "ruleIndex" v = Ok (VInt (Z.of_nat i)) /\ rules !! i = Some d /\ get "id" d = Ok (VStr (f_rule f))) /\
  get "ruleId" v = Ok (VStr (f_rule f)) /\ get "level" v = Ok (VStr (f_level f)) /\
  (m ← get "message" v; get "text" m) = Ok (VStr (f_message f)) /\ get "properties" v = Ok (VDict (f_properties f)) /\
  get "locations" v = Ok (if location is Some uri then VList [VDict [("physicalLocation", VDict [
    ("artifactLocation", VDict [("uri", VStr uri)]); ("region", VDict [("startLine", VInt 1)])])]] else VNone) /\
  get "partialFingerprints" v = Ok (if location is Some _ then
    VDict [("pqcReadinessHostRule/v1", VStr (finding_fingerprint hostname (f_rule f) (f_subject f)))] else VNone).

Lemma sarif_results_exact hostname location code_scanning fs : Forall declared fs ->
  Forall2 (result_of (rule_descriptor code_scanning <$> RULE_SPECS) hostname location) fs (sarif_results hostname location fs).
Proof.
  unfold sarif_results. induction 1 as [|f fs (s & Hs & Hid & _) _ IH]; [constructor|].
  destruct (rule_index_spec s Hs) as (i & s' & Hi & Hl & Hs'). rewrite Hid in Hi, Hs'. cbn [omap list_omap].
  rewrite Hi. cbn [fmap option_fmap option_map]. constructor; [|exact IH].
  split; [|by destruct location].
  exists i, (rule_descriptor code_scanning s'). split_and!; [by destruct location | by rewrite list_lookup_fmap, Hl |].
  unfold rule_descriptor. simpl. by rewrite Hs'.
Qed.

(** The log has one result per finding, in their order: the result
    points into the log's own rule table at the descriptor of its rule, and
    carries a location and the fingerprint exactly when --sarif-anchor is
    given.  Rendering raises only where collecting the findings or reading
    the scan mode does. *)
Theorem sarif_log_exact r anchor :
  match build_findings r, host_properties r with
  | Ok fs, Ok props => exists run rules results, sarif_log r anchor = Ok (VDict [
        ("$schema", VStr SARIF_SCHEMA_URI); ("version", VStr SARIF_VERSION); ("runs", VList [run])]) /\
      (tool ← get "tool" run; driver ← get "driver" tool; get "rules" driver) = Ok (VList rules) /\
      get "results" run = Ok (VList results) /\
      Forall2 (result_of rules (r_hostname r) ((fun a => anchor_path a (r_hostname r)) <$> anchor)) fs results /\
      get "automationDetails" run = Ok (if anchor is Some _ then VDict [("id", VStr (automation_id r))] else VNone)
  | Raise e, _ | _, Raise e => sarif_log r anchor = Raise e
  end.
Proof.
  unfold sarif_log. destruct (build_findings r) as [fs|e] eqn:Hfs; [|done]. cbn [mbind res_bind].
  destruct (host_properties r) as [props|e] eqn:Hp; [|done]. cbn [mbind res_bind].
  do 3 eexists. split; [reflexivity|]. split; [by destruct anchor|]. split; [by destruct anchor|]. split; [|by destruct anchor].
  by apply sarif_results_exact, (build_findings_declared r).
Qed.

(** ** Witnesses *)

Definition sample_report (scan_mode openssl : value) (replace_required : bool) : report := {|
  r_schema_version := "1"; r_generated_at := "2026-01-01T00:00:00Z"; r_hostname := "web1"; r_os := "Fedora"; r_arch := "x86_64";
  r_scan_mode := scan_mode; r_openssl := openssl; r_fips := VDict [];
  r_fips_pqc_conflict := VDict [("in_conflict", VBool true)]; r_replace_required := replace_required;
  r_isa_tier := "poor"; r_isa_score := VInt 1; r_isa_reason := "no AVX2"; r_trust_store := VDict []; r_accelerators := [];
  r_crypto_policy := VDict []; r_signing_keys := VDict []; r_sshd := VDict [];
  r_service_crypto_linkage := VDict [("available", VBool true); ("listeners", VList [VDict [
    ("process", VStr "dovecot"); ("protocol", VStr "tcp"); ("family", VStr "ipv4"); ("port", VInt 993); ("address", VStr "0.0.0.0");
    ("crypto_libraries", VList [VDict [("family", VStr "openssl"); ("version", VStr "1.1.1k"); ("path", VStr "/usr/lib/libssl.so.1.1")]])]])];
  r_crypto_libraries := VDict []; r_ipsec_pqc := VDict []; r_packages := VDict []; r_pqc_deployment_gap := VDict [];
  r_service_tls_config := VDict []; r_boot_chain := VDict []; r_kerberos := VDict [];
  r_tunnels := VDict [("wireguard", VDict [("summary", VDict [("peers", VInt 3); ("peers_without_psk", VInt 2)])])];
  r_dnssec := VDict [] |}.

Definition sample_live : report := sample_report VNone (VDict []) true.
Definition sample_offline : report := sample_report (VDict [("mode", VStr "offline")])
  (VDict [("pqc_native_expected", VBool false); ("package", VDict [("name", VStr "openssl"); ("version", VStr "3.0.2")])]) true.

Definition findings_of (r : report) : list finding := match build_findings r with Ok fs => fs | Raise _ => [] end.

Lemma sample_live_findings : build_findings sample_live = Ok (findings_of sample_live) /\
  f_rule <$> findings_of sample_live = ["pqc-002-fips-pqc-conflict"; "pqc-003-no-pqc-isa-support";
    "pqc-011-service-crypto-library-without-pqc"; "pqc-032-wireguard-peer-without-psk"].
Proof. split; vm_compute; reflexivity. Defined.

(** Of an offline scan pqc-001 is not in the order of the rules. *)
Lemma offline_order_example : build_findings sample_offline = Ok (findings_of sample_offline) /\
  f_rule <$> findings_of sample_offline = ["pqc-002-fips-pqc-conflict"; "pqc-003-no-pqc-isa-support"; "pqc-001-openssl-pre-3.5";
    "pqc-011-service-crypto-library-without-pqc"; "pqc-032-wireguard-peer-without-psk"] /\
  ~ StronglySorted earlier (findings_of sample_offline).
Proof.
  split_and!; [vm_compute; reflexivity.. |]. intros H.
  assert (Hs : StronglySorted Z.le (position <$> findings_of sample_offline)).
  { induction H as [|f fs _ IH Hf]; csimpl; constructor; [done|]. by apply Forall_fmap. }
  replace (position <$> findings_of sample_offline) with [1; 2; 0; 10; 22] in Hs by (vm_compute; reflexivity).
  apply StronglySorted_cons in Hs as [_ Hs]. apply StronglySorted_cons in Hs as [Hs _].
  apply Forall_cons in Hs as [Hs _]. lia.
Qed.

Lemma build_findings_spec_witness :
  truthy (r_scan_mode sample_live) = false /\ Forall declared (findings_of sample_live) /\
  StronglySorted earlier (findings_of sample_live).
Proof.
  destruct (build_findings_spec sample_live (findings_of sample_live) (proj1 sample_live_findings)) as (H1 & H2 & _).
  split; [reflexivity|]. split; [exact H1|]. apply H2. reflexivity.
Defined.


Definition live_finding : finding := default (host_finding EmptyString EmptyString EmptyString []) (findings_of sample_live !! 2%nat).
Definition offline_finding : finding := default (host_finding EmptyString EmptyString EmptyString []) (findings_of sample_offline !! 3%nat).
Lemma fingerprint_key_injective_witness :
  f_subject live_finding = "service:tcp/ipv4/993:dovecot" /\
  (fingerprint_key "web1" (f_rule live_finding) (f_subject live_finding) =
   fingerprint_key "web2" (f_rule offline_finding) (f_subject offline_finding) <->
   "web1" = "web2" /\ f_rule live_finding = f_rule offline_finding /\ f_subject live_finding = f_subject offline_finding).
Proof.
  split; [reflexivity|].
  refine (fingerprint_key_injective sample_live sample_offline (findings_of sample_live) (findings_of sample_offline) live_finding offline_finding "web1" "web2"
    (proj1 sample_live_findings) _ _ _ _ _).
  - vm_compute. reflexivity.
  - apply (list_elem_of_lookup_2 _ 2%nat). vm_compute. reflexivity.
  - apply (list_elem_of_lookup_2 _ 3%nat). vm_compute. reflexivity.
  - apply (bool_decide_unpack _). vm_compute. exact I.
  - apply (bool_decide_unpack _). vm_compute. exact I.
Defined.
