(* ===== verification/Ndjson.v ===== *)
(** * OCSF events for a SIEM ([render/ndjson.py])

    One inventory event per host and one compliance event per finding, with
    the identities the SARIF results carry. *)

From S2P Require Import Prelude PyStr PyDict PyVal PyBytes PyRe Services SarifTables SarifRules Sarif SarifTheory.
From Stdlib Require Strings.String.
Open Scope Z_scope.

Definition OCSF_VERSION : string := "1.9.0".
Definition PRODUCT_URL : string := "https://github.com/aclater/pqc-readiness".
Definition COMPLIANCE_FINDING : Z := 2003.
Definition INVENTORY_INFO : Z := 5001.
Definition ACTIVITY_CREATE : Z := 1.
Definition ACTIVITY_LOG : Z := 1.
Definition COMPLIANCE_FAIL : Z := 3.
Definition FINDING_STATUS_NEW : Z := 1.
Definition ANALYTIC_RULE : Z := 1.
Definition DEVICE_UNKNOWN : Z := 0.
Definition OS_LINUX : Z := 200.
Definition OS_UNKNOWN : Z := 0.
Definition SEVERITY_CAPTION : list (Z * string) := [(1, "Informational"); (2, "Low"); (3, "Medium"); (4, "High")].

(** [float(score)] of a plain decimal number, the only form of the scores. *)
Definition SCORE_RE : re := RSeqs [RGrp 1 (RPlus Digit); RLit "."; RGrp 2 (RPlus Digit)].
Definition float_of_score (score : string) : res float :=
  match re_fullmatch SCORE_RE score with
  | Some m =>
      let whole := group_or 1 m in let frac := group_or 2 m in
      Ok (f_dec false (digits_val (chars whole ++ chars frac)) (- Z.of_nat (String.length frac)))
  | None => Raise (ValueError ("could not convert string to float: " +:+ str_repr score))
  end.

Definition severity_id (score : option string) : res Z :=
  match score with
  | None => Ok 1
  | Some score =>
      value ← float_of_score score;
      Ok (if f_le (f_of_Z 7) value then 4 else if f_le (f_of_Z 4) value then 3 else 2)
  end.

(** The fields of the report that the events read besides those of the findings. *)
Record nd_report := NdReport {
  nd_base : report; nd_os_release : value; nd_verdict : string; nd_exit_code : Z; nd_cnsa_2_0 : value }.

Definition metadata (r : report) (uid : string) : value := VDict [
  ("version", VStr OCSF_VERSION); ("uid", VStr uid); ("log_name", VStr "pqc_readiness"); ("original_time", VStr (r_generated_at r));
  ("product", VDict [("name", VStr "pqc-readiness"); ("vendor_name", VStr "pqc-readiness"); ("version", VStr SCRIPT_VERSION);
                     ("url_string", VStr PRODUCT_URL)])].

Definition device (r : nd_report) : res value :=
  id ← get "id" (por (nd_os_release r) (VDict []));
  let linux := truthy id || starts_with "Linux" (r_os (nd_base r)) in
  Ok (VDict [("hostname", VStr (r_hostname (nd_base r))); ("type_id", VInt DEVICE_UNKNOWN); ("type", VStr "Unknown");
             ("os", VDict [("name", VStr (r_os (nd_base r))); ("type_id", VInt (if linux then OS_LINUX else OS_UNKNOWN));
                           ("type", VStr (if linux then "Linux" else "Unknown"))])]).

Definition event_uid (finding_uid generated_at : string) : string :=
  str_take 32 (sha256_hex (String.list_byte_of_string (finding_uid +:+ NUL +:+ generated_at))).

(** [dict(v)] of a dict. *)
Definition dict_of (v : value) : res value := l ← items v; Ok (VDict l).

Section Events.
(** [int(datetime.fromisoformat(iso).timestamp() * 1000)] and [json.dumps] with sorted keys. *)
Context (epoch_ms : string -> res Z) (dumps : value -> string).

Definition host_summary_event (r : nd_report) (findings_count : Z) : res value :=
  let b := nd_base r in
  let host_uid := finding_fingerprint (r_hostname b) "host-summary" EmptyString in
  tls_groups ← get_d "tls_groups" (r_openssl b);
  time ← epoch_ms (r_generated_at b);
  dev ← device r;
  cnsa ← get "status" (nd_cnsa_2_0 r);
  version ← get "version" (r_openssl b);
  native ← get "pqc_native" (r_openssl b);
  hybrid ← list_at "hybrid" tls_groups;
  pure ← list_at "pure_pqc" tls_groups;
  scan ← (if truthy (r_scan_mode b) then m ← dict_of (r_scan_mode b); Ok [("scan_mode", m)] else Ok []);
  Ok (VDict [
    ("class_uid", VInt INVENTORY_INFO); ("class_name", VStr "Device Inventory Info"); ("category_uid", VInt 5);
    ("category_name", VStr "Discovery"); ("activity_id", VInt ACTIVITY_LOG); ("activity_name", VStr "Log");
    ("type_uid", VInt (INVENTORY_INFO * 100 + ACTIVITY_LOG)); ("type_name", VStr "Device Inventory Info: Log");
    ("severity_id", VInt 1); ("severity", VStr "Informational"); ("time", VInt time);
    ("message", VStr ("PQC readiness: " +:+ nd_verdict r)); ("metadata", metadata b (event_uid host_uid (r_generated_at b)));
    ("device", dev);
    ("unmapped", VDict [("pqc_readiness", VDict ([
       ("schema_version", VStr (r_schema_version b)); ("verdict", VStr (nd_verdict r)); ("exit_code", VInt (nd_exit_code r));
       ("isa_tier", VStr (r_isa_tier b)); ("replace_required", VBool (r_replace_required b)); ("cnsa_2_0_status", cnsa);
       ("openssl_version", version); ("openssl_pqc_native", native); ("tls_hybrid_groups", hybrid);
       ("tls_pure_pqc_groups", pure); ("findings_count", VInt findings_count)] ++ scan))])]).

Definition StopIteration : exn := Custom "StopIteration" EmptyString.
Definition spec_of (rule : string) : res rule_spec :=
  match find (fun s => String.eqb (rs_id s) rule) RULE_SPECS with Some s => Ok s | None => Raise StopIteration end.
Definition caption (sev : Z) : res string :=
  match dget sev SEVERITY_CAPTION with Some c => Ok c | None => Raise (KeyError (show_Z sev)) end.
Definition severity_of (rule : string) : option string := dget rule SECURITY_SEVERITY.

Definition finding_event (r : nd_report) (f : finding) : res value :=
  let b := nd_base r in
  spec ← spec_of (f_rule f);
  let uid := finding_fingerprint (r_hostname b) (f_rule f) (f_subject f) in
  sev ← severity_id (severity_of (f_rule f));
  severity ← caption sev;
  time ← epoch_ms (r_generated_at b);
  dev ← device r;
  Ok (VDict [
    ("class_uid", VInt COMPLIANCE_FINDING); ("class_name", VStr "Compliance Finding"); ("category_uid", VInt 2);
    ("category_name", VStr "Findings"); ("activity_id", VInt ACTIVITY_CREATE); ("activity_name", VStr "Create");
    ("type_uid", VInt (COMPLIANCE_FINDING * 100 + ACTIVITY_CREATE)); ("type_name", VStr "Compliance Finding: Create");
    ("severity_id", VInt sev); ("severity", VStr severity); ("status_id", VInt FINDING_STATUS_NEW); ("status", VStr "New");
    ("time", VInt time); ("message", VStr (f_message f)); ("metadata", metadata b (event_uid uid (r_generated_at b)));
    ("finding_info", VDict [
       ("uid", VStr uid); ("title", VStr (rs_short spec)); ("desc", VStr (rs_full spec));
       ("types", VStrs ["Post-Quantum Cryptography Readiness"]); ("src_url", VStr (rs_help spec));
       ("analytic", VDict [("uid", VStr (rs_id spec)); ("name", VStr (rs_id spec)); ("type_id", VInt ANALYTIC_RULE); ("type", VStr "Rule")])]);
    ("compliance", VDict [("control", VStr (rs_id spec)); ("standards", VStrs ["pqc-readiness"]); ("status", VStr "Fail");
                          ("status_id", VInt COMPLIANCE_FAIL)]);
    ("device", dev);
    ("unmapped", VDict [("pqc_readiness", VDict ([
       ("rule_id", VStr (rs_id spec)); ("level", VStr (f_level f)); ("security_severity", of_ostr (severity_of (rs_id spec)));
       ("properties", VDict (f_properties f))] ++
       (if String.eqb (f_subject f) EmptyString then [] else [("subject", VStr (f_subject f))])))])]).

Definition events (r : nd_report) : res (list value) :=
  findings ← build_findings (nd_base r);
  host ← host_summary_event r (Z.of_nat (length findings));
  evs ← mapM (finding_event r) findings;
  Ok (host :: evs).

Definition render_ndjson (r : nd_report) : res string := evs ← events r; Ok (str_join newline (dumps <$> evs)).

(** ** What the events say *)

(** The bands of the severities: informational without a score, low below
    4.0, medium below 7.0, high above.  In tenths of a point. *)
Definition band (tenths : Z) : Z := if 70 <=? tenths then 4 else if 40 <=? tenths then 3 else 2.
Definition tenths_of (score : string) : Z := digits_val (List.filter is_digit (chars score)).

Lemma severities_known : forallb (fun ks => match severity_id (Some ks.2) with Ok b => b =? band (tenths_of ks.2) | Raise _ => false end) SECURITY_SEVERITY = true.
Proof. vm_compute. reflexivity. Qed.

Lemma severity_of_declared f : declared f -> exists score c, severity_of (f_rule f) = Some score /\
  severity_id (Some score) = Ok (band (tenths_of score)) /\ caption (band (tenths_of score)) = Ok c.
Proof.
  intros (s & _ & _ & [score Hs] & _). pose proof severities_known as H. rewrite forallb_forall in H.
  assert (Hb : severity_id (Some score) = Ok (band (tenths_of score))).
  { apply dget_elem_of, list_elem_of_In, H in Hs. cbn [snd] in Hs. destruct (severity_id _) as [b|]; [|done].
    f_equal. by apply Z.eqb_eq. }
  assert (Hc : exists c, caption (band (tenths_of score)) = Ok c).
  { unfold band. destruct (70 <=? _); [|destruct (40 <=? _)]; by eexists. }
  destruct Hc as [c Hc]. by exists score, c.
Qed.

Lemma spec_of_declared f : declared f -> exists s, spec_of (f_rule f) = Ok s /\ rs_id s = f_rule f /\ s ∈ RULE_SPECS.
Proof.
  intros (s & Hs & Hid & _). unfold spec_of. destruct (find _ RULE_SPECS) as [s'|] eqn:E.
  - apply find_some in E as [Hin Heq%String.eqb_eq]. exists s'. by rewrite list_elem_of_In.
  - apply list_elem_of_In in Hs. apply (find_none _ _ E) in Hs. by rewrite Hid, String.eqb_refl in Hs.
Qed.

(** An event read back against its finding. *)
Definition event_of (r : nd_report) (f : finding) (e : value) : Prop :=
  let fingerprint := finding_fingerprint (r_hostname (nd_base r)) (f_rule f) (f_subject f) in
  (info ← get "finding_info" e; get "uid" info) = Ok (VStr fingerprint) /\
  (m ← get "metadata" e; get "uid" m) = Ok (VStr (event_uid fingerprint (r_generated_at (nd_base r)))) /\
  (c ← get "compliance" e; get "control" c) = Ok (VStr (f_rule f)) /\
  get "message" e = Ok (VStr (f_message f)) /\
  get "type_uid" e = Ok (VInt 200301) /\
  (u ← get "unmapped" e; p ← get "pqc_readiness" u; get "level" p) = Ok (VStr (f_level f)) /\
  exists score, severity_of (f_rule f) = Some score /\ get "severity_id" e = Ok (VInt (band (tenths_of score))).

Lemma finding_event_of r f time dev : declared f -> epoch_ms (r_generated_at (nd_base r)) = Ok time -> device r = Ok dev ->
  exists e, finding_event r f = Ok e /\ event_of r f e.
Proof.
  intros Hf Ht Hd. destruct (severity_of_declared f Hf) as (score & c & Hs & Hb & Hc).
  destruct (spec_of_declared f Hf) as (s & Hspec & Hid & _).
  unfold finding_event. cbv zeta. rewrite Hspec. cbn [mbind res_bind]. rewrite Hs, Hb. cbn [mbind res_bind]. rewrite Hc, Ht, Hd.
  cbn [mbind res_bind]. eexists. split; [reflexivity|]. unfold event_of. cbv zeta.
  split_and!; try reflexivity; [|by exists score]. simpl. by rewrite Hid.
Qed.

(** --ndjson is the host summary followed by one compliance event per
    finding, in the order of the findings, and each event carries the very
    fingerprint the SARIF result of that finding carries and the severity
    band of its rule.  No finding lacks a rule, a caption or a score: the
    output fails only where the findings, the summary or the clock does. *)
Theorem events_spec r :
  match build_findings (nd_base r) with
  | Raise e => events r = Raise e
  | Ok fs =>
      match host_summary_event r (Z.of_nat (length fs)) with
      | Raise e => events r = Raise e
      | Ok host =>
          exists evs, events r = Ok (host :: evs) /\ Forall2 (event_of r) fs evs /\
            (u ← get "unmapped" host; p ← get "pqc_readiness" u; get "findings_count" p) = Ok (VInt (Z.of_nat (length evs)))
      end
  end.
Proof.
  unfold events. destruct (build_findings (nd_base r)) as [fs|e] eqn:Hfs; [|done]. cbn [mbind res_bind].
  destruct (host_summary_event r _) as [host|e] eqn:Hh; [|done]. cbn [mbind res_bind].
  apply build_findings_declared in Hfs.
  assert (Hclock : exists time dev, epoch_ms (r_generated_at (nd_base r)) = Ok time /\ device r = Ok dev).
  { unfold host_summary_event in Hh. cbv zeta in Hh. bind Hh as g Hg. bind Hh as t Ht. bind Hh as d Hd. eauto. }
  destruct Hclock as (time & dev & Ht & Hd).
  assert (Hevs : exists evs, mapM (finding_event r) fs = Ok evs /\ Forall2 (event_of r) fs evs).
  { clear Hh. induction Hfs as [|f fs Hf _ (evs & Hm & Hevs)]; [by exists []|].
    destruct (finding_event_of r f time dev Hf Ht Hd) as (e & He & Hof). exists (e :: evs). split; [|by constructor].
    apply mapM_cons_ok. by exists e, evs. }
  destruct Hevs as (evs & -> & Hevs). exists evs. cbn [mbind res_bind]. split; [done|]. split; [done|].
  apply Forall2_length in Hevs. rewrite <- Hevs. unfold host_summary_event in Hh. cbv zeta in Hh.
  repeat (bind_inv Hh). injection Hh as <-. reflexivity.
Qed.

(** [json.dumps] writes no raw line feed, so the lines of the output are the events. *)
Lemma render_ndjson_lines (Hd : forall v, "010"%char ∉ chars (dumps v)) r text : render_ndjson r = Ok text ->
  exists host evs, events r = Ok (host :: evs) /\ split newline text = dumps <$> host :: evs.
Proof.
  unfold render_ndjson. intros H. bind H as evs He. injection H as <-. pose proof He as He'.
  unfold events in He'. bind He' as fs Hfs. bind He' as host Hh. bind He' as l Hl. injection He' as <-.
  exists host, l. split; [done|]. apply join_split; [done|]. apply Forall_fmap, Forall_forall. intros v _. apply Hd.
Qed.
End Events.
