(* ===== verification/Keytab.v ===== *)
(** * MIT keytabs ([parse_keytab] and [scan_keytab] of [protocols_kerberos.py]) *)

From S2P Require Import Prelude PyStr PyDict PyVal PyBytes Der.
From Stdlib.Strings Require Import Byte.
Open Scope Z_scope.
(** The IANA numbers with the MIT name and the status. *)
Definition ENCTYPES : list (Z * (string * string)) := [
  (1, ("des-cbc-crc", "deprecated"));
  (2, ("des-cbc-md4", "deprecated"));
  (3, ("des-cbc-md5", "deprecated"));
  (5, ("des3-cbc-md5", "deprecated"));
  (7, ("des3-cbc-sha1", "deprecated"));
  (16, ("des3-cbc-sha1", "deprecated"));
  (17, ("aes128-cts-hmac-sha1-96", "aes128"));
  (18, ("aes256-cts-hmac-sha1-96", "ok"));
  (19, ("aes128-cts-hmac-sha256-128", "aes128"));
  (20, ("aes256-cts-hmac-sha384-192", "ok"));
  (23, ("arcfour-hmac", "deprecated"));
  (24, ("arcfour-hmac-exp", "deprecated"));
  (25, ("camellia128-cts-cmac", "aes128"));
  (26, ("camellia256-cts-cmac", "ok"))].

Definition KeytabError (msg : string) : exn := Custom "KeytabError" msg.

Record kt_entry := KtEntry { ke_principal : string; ke_kvno : Z; ke_enctype : string; ke_number : Z; ke_status : string }.

Definition take_ (big : bool) (data : bytes) (n at_ limit : Z) : res Z :=
  if limit <? at_ + n then Raise (KeytabError "truncated record") else Ok (unpack big data n at_).

Definition data_field (big : bool) (data : bytes) (at_ limit : Z) : res (bytes * Z) :=
  n ← take_ big data 2 at_ limit;
  let at_ := at_ + 2 in
  if limit <? at_ + n then Raise (KeytabError "truncated data field") else Ok (slice data at_ (at_ + n), at_ + n).

Fixpoint components (big : bool) (data : bytes) (count : nat) (at_ limit : Z) : res (list string * Z) :=
  match count with
  | O => Ok ([], at_)
  | S count =>
      '(comp, at_) ← data_field big data at_ limit;
      '(rest, at_) ← components big data count at_ limit;
      Ok (decode Utf8 comp :: rest, at_)
  end.

(** One record between [pos] and [stop]. *)
Definition keytab_record (version : Z) (big : bool) (data : bytes) (pos stop : Z) : res kt_entry :=
  count ← take_ big data 2 pos stop;
  let count := if version =? 1 then count - 1 else count in
  '(realm, at_) ← data_field big data (pos + 2) stop;
  '(comps, at_) ← components big data (Z.to_nat count) at_ stop;
  let at_ := (if version =? 2 then at_ + 4 else at_) + 4 in
  kvno8 ← take_ big data 1 at_ stop;
  let at_ := at_ + 1 in
  if stop <? at_ + 4 then Raise (KeytabError "truncated record")
  else
    let enctype := signed 2 (unpack big data 2 at_) in
    let keylen := unpack big data 2 (at_ + 2) in
    let at_ := at_ + 4 + keylen in
    if stop <? at_ then Raise (KeytabError "key runs past its record")
    else
      kvno ← (if 4 <=? stop - at_ then
                kvno32 ← take_ big data 4 at_ stop;
                Ok (if kvno32 =? 0 then kvno8 else kvno32)
              else Ok kvno8);
      let '(name, status) := default ("etype-" +:+ show_Z enctype, "unknown") (dget enctype ENCTYPES) in
      Ok (KtEntry (str_join "/" comps +:+ "@" +:+ decode Utf8 realm) kvno name enctype status).

(** The records; each takes at least its length word. *)
Fixpoint keytab_loop (fuel : nat) (version : Z) (big : bool) (data : bytes) (pos : Z) (entries : list kt_entry) : res (list kt_entry) :=
  match fuel with
  | O => Raise out_of_fuel
  | S fuel =>
      if blen data <? pos + 4 then Ok entries
      else
        let length := signed 4 (unpack big data 4 pos) in
        let pos := pos + 4 in
        if length =? 0 then Ok entries
        else if length <? 0 then keytab_loop fuel version big data (pos - length) entries
        else if blen data <? pos + length then Raise (KeytabError "record runs past the end of the file")
        else
          e ← keytab_record version big data pos (pos + length);
          keytab_loop fuel version big data (pos + length) (entries ++ [e])
  end.

(** [native_big]: the byte order of the machine, which version 1 files have. *)
Definition parse_keytab (native_big : bool) (data : bytes) : res (Z * list kt_entry) :=
  match data with
  | b0 :: b1 :: _ =>
      let version := bval b1 in
      if negb (bval b0 =? 5) || negb ((version =? 1) || (version =? 2))
      then Raise (KeytabError "not an MIT keytab (bad version bytes)")
      else
        let big := if version =? 2 then true else native_big in
        entries ← keytab_loop (loop_fuel data) version big data 2 [];
        Ok (version, entries)
  | _ => Raise (KeytabError "not an MIT keytab (bad version bytes)")
  end.

(** ** One file *)

Definition MAX_KEYTAB_BYTES : Z := 16 * 1024 * 1024.

(** What opening the file gives: nothing there, its size and content, a
    permission error ([strerror]), another error ([str]). *)
Inductive kt_file := KtMissing | KtFile (size : Z) (data : bytes) | KtDenied (strerror : string) | KtFailed (reason : string).

Inductive kt_report :=
| KtUnreadable (path reason : string)
| KtMalformed (path reason : string)
| KtParsed (path : string) (version : Z) (entries : list kt_entry) (enctypes : list (string * Z)).

Definition keytab_message (e : exn) : option string :=
  match e with Custom cls msg => if String.eqb cls "KeytabError" then Some msg else None | _ => None end.

Definition scan_keytab (native_big : bool) (f : kt_file) (path : string) : res (option kt_report) :=
  match f with
  | KtMissing => Ok None
  | KtDenied strerror => Ok (Some (KtUnreadable path (strerror +:+ " (needs root)")))
  | KtFailed reason => Ok (Some (KtUnreadable path reason))
  | KtFile size data =>
      if MAX_KEYTAB_BYTES <? size then Ok (Some (KtUnreadable path "larger than 16 MiB"))
      else
        match parse_keytab native_big data with
        | Ok (version, entries) => Ok (Some (KtParsed path version entries (count_keys (ke_enctype <$> entries) [])))
        | Raise e => match keytab_message e with
                     | Some msg => Ok (Some (KtMalformed path msg))
                     | None => Raise e
                     end
        end
  end.

(** * Keytabs against MIT's format

    The reader inverts the FILE format of [doc/formats/keytab_file_format.rst]
    in both versions and byte orders, and on arbitrary bytes it ends with
    entries or with its own error. *)
(** ** The format *)

Definition enc_data (big : bool) (b : bytes) : bytes := enc_word big 2 (blen b) ++ b.

(** An entry; [kd_tail] is the 32-bit key version and what may follow it. *)
Record key_doc := KeyDoc {
  kd_realm : bytes; kd_comps : list bytes; kd_name_type : Z; kd_timestamp : Z; kd_vno8 : Z; kd_enctype : Z;
  kd_key : bytes; kd_tail : option (Z * bytes) }.

Definition enc_comps (big : bool) (l : list bytes) : bytes := concat (enc_data big <$> l).
Definition enc_name_type (version : Z) (big : bool) (d : key_doc) : bytes :=
  if version =? 2 then enc_word big 4 (kd_name_type d) else [].
Definition enc_tail (big : bool) (d : key_doc) : bytes :=
  match kd_tail d with Some (vno, extra) => enc_word big 4 vno ++ extra | None => [] end.
Definition comp_count (version : Z) (d : key_doc) : Z :=
  Z.of_nat (length (kd_comps d)) + if version =? 1 then 1 else 0.
Definition enc_key (version : Z) (big : bool) (d : key_doc) : bytes :=
  enc_word big 2 (comp_count version d) ++ enc_data big (kd_realm d) ++ enc_comps big (kd_comps d) ++
  enc_name_type version big d ++ enc_word big 4 (kd_timestamp d) ++ enc_word big 1 (kd_vno8 d) ++
  enc_word big 2 (kd_enctype d mod 65536) ++ enc_word big 2 (blen (kd_key d)) ++ kd_key d ++ enc_tail big d.

Inductive item := Key (d : key_doc) | Hole (b : bytes).
Definition enc_item (version : Z) (big : bool) (i : item) : bytes :=
  match i with
  | Key d => enc_word big 4 (blen (enc_key version big d)) ++ enc_key version big d
  | Hole b => enc_word big 4 (2 ^ 32 - blen b) ++ b
  end.

Definition data_ok (b : bytes) : Prop := word_ok 2 (blen b).
Record key_ok (version : Z) (big : bool) (d : key_doc) : Prop := {
  ko_realm : data_ok (kd_realm d); ko_comps : Forall data_ok (kd_comps d); ko_count : word_ok 2 (comp_count version d);
  ko_vno8 : word_ok 1 (kd_vno8 d); ko_enctype : -32768 <= kd_enctype d < 32768; ko_key : data_ok (kd_key d);
  ko_tail : match kd_tail d with Some (vno, _) => word_ok 4 vno | None => True end;
  ko_size : blen (enc_key version big d) < 2 ^ 31 }.
Definition item_ok (version : Z) (big : bool) (i : item) : Prop :=
  match i with Key d => key_ok version big d | Hole b => 0 < blen b <= 2 ^ 31 end.

(** The file ends at a zero length or with fewer than four bytes left. *)
Definition ending (big : bool) (tail : bytes) : Prop := blen tail < 4 \/ exists rest, tail = enc_word big 4 0 ++ rest.
Definition enc_keytab (version : Z) (big : bool) (items : list item) (tail : bytes) : bytes :=
  [x05; of_bval version] ++ concat (enc_item version big <$> items) ++ tail.

(** What the reader reports of an entry: the key is not in it. *)
Definition entry_of (d : key_doc) : kt_entry :=
  let '(name, status) := default ("etype-" +:+ show_Z (kd_enctype d), "unknown") (dget (kd_enctype d) ENCTYPES) in
  KtEntry (str_join "/" (decode Utf8 <$> kd_comps d) +:+ "@" +:+ decode Utf8 (kd_realm d))
    (match kd_tail d with Some (vno, _) => if vno =? 0 then kd_vno8 d else vno | None => kd_vno8 d end)
    name (kd_enctype d) status.
Definition entries_of_items (items : list item) : list kt_entry :=
  omap (fun i => match i with Key d => Some (entry_of d) | Hole _ => None end) items.

(** ** Reading words *)

Lemma take_word big data n at_ limit z :
  holds data at_ (enc_word big n z) -> 0 <= n -> word_ok n z -> at_ + n <= limit -> take_ big data n at_ limit = Ok z.
Proof.
  intros H Hn Hz Hl. unfold take_. replace (limit <? at_ + n) with false by lia. by rewrite (unpack_word big data n at_ z).
Qed.

Lemma signed_enctype z : -32768 <= z < 32768 -> signed 2 (z mod 65536) = z.
Proof.
  intros H. unfold signed. change (2 ^ (8 * 2 - 1)) with 32768. change (2 ^ (8 * 2)) with 65536.
  destruct (32768 <=? z mod 65536) eqn:E.
  - destruct (Z.neg_nonneg_cases z); [|rewrite Z.mod_small in E |- *; lia].
    replace (z mod 65536) with (z + 65536); [lia|]. symmetry. rewrite <- (Z.mod_add z 1 65536) by lia. apply Z.mod_small. lia.
  - destruct (Z.neg_nonneg_cases z); [|by rewrite Z.mod_small by lia].
    rewrite <- (Z.mod_add z 1 65536) in E by lia. rewrite Z.mod_small in E by lia. lia.
Qed.

Lemma read_data big data at_ limit b : holds data at_ (enc_data big b) -> data_ok b -> at_ + 2 + blen b <= limit ->
  data_field big data at_ limit = Ok (b, at_ + 2 + blen b).
Proof.
  unfold enc_data, data_field. intros H Hb Hl. pieces H. pose proof (blen_nonneg b).
  rewrite (take_word big data 2 at_ limit (blen b)) by (done || lia). cbn [mbind res_bind].
  replace (limit <? at_ + 2 + blen b) with false by lia. apply holds_slice in H. by rewrite H.
Qed.

Lemma blen_enc_data big b : blen (enc_data big b) = 2 + blen b.
Proof. unfold enc_data. by rewrite blen_app, blen_enc_word. Qed.

Lemma read_components big data limit l : forall at_, holds data at_ (enc_comps big l) -> Forall data_ok l ->
  at_ + blen (enc_comps big l) <= limit ->
  components big data (length l) at_ limit = Ok (decode Utf8 <$> l, at_ + blen (enc_comps big l)).
Proof.
  induction l as [|b l IH]; intros at_ H Hok Hl; unfold enc_comps in *; csimpl in *.
  { by rewrite Z.add_0_r. }
  apply Forall_cons in Hok as [Hb Hok]. apply holds_app in H as [H1 H2]. rewrite blen_app, blen_enc_data in *.
  pose proof (blen_nonneg (concat (enc_data big <$> l))). pose proof (blen_nonneg b).
  rewrite (read_data big data at_ limit b) by (done || lia). cbn [mbind res_bind].
  replace (at_ + 2 + blen b) with (at_ + (2 + blen b)) by lia.
  rewrite IH by (done || lia). cbn [mbind res_bind]. do 2 f_equal. lia.
Qed.

(** ** One record *)

Lemma blen_enc_key version big d : blen (enc_key version big d) =
  2 + (2 + blen (kd_realm d)) + blen (enc_comps big (kd_comps d)) + (if version =? 2 then 4 else 0) + 4 + 1 + 2 + 2 + blen (kd_key d) +
  blen (enc_tail big d).
Proof.
  unfold enc_key, enc_name_type. rewrite !blen_app, blen_enc_data, !blen_enc_word by lia.
  destruct (version =? 2); rewrite ?blen_enc_word by lia; change (blen []) with 0; lia.
Qed.

(** Where the fields of a record lie: [name_end] follows the components. *)
Definition name_end (big : bool) (pos : Z) (d : key_doc) : Z :=
  pos + 2 + (2 + blen (kd_realm d)) + blen (enc_comps big (kd_comps d)).
Definition type_size (version : Z) : Z := if version =? 2 then 4 else 0.

Lemma key_layout version big data pos d : holds data pos (enc_key version big d) ->
  let a := name_end big pos d + type_size version + 4 in
  holds data pos (enc_word big 2 (comp_count version d)) /\ holds data (pos + 2) (enc_data big (kd_realm d)) /\
  holds data (pos + 2 + (2 + blen (kd_realm d))) (enc_comps big (kd_comps d)) /\ holds data a (enc_word big 1 (kd_vno8 d)) /\
  holds data (a + 1) (enc_word big 2 (kd_enctype d mod 65536)) /\ holds data (a + 1 + 2) (enc_word big 2 (blen (kd_key d))) /\
  holds data (a + 1 + 4 + blen (kd_key d)) (enc_tail big d).
Proof.
  intros H. cbv zeta. unfold enc_key in H. apply holds_app in H as [Hc H]. rewrite blen_enc_word in H by lia.
  apply holds_app in H as [Hr H]. rewrite blen_enc_data in H. apply holds_app in H as [Hcs H].
  apply holds_app in H as [Hn H]. apply holds_app in H as [Ht H]. apply holds_app in H as [Hv8 H].
  apply holds_app in H as [He H]. apply holds_app in H as [Hkl H]. apply holds_app in H as [Hk H].
  fold (name_end big pos d) in H, Hk, Hkl, He, Hv8.
  assert (Hnt : blen (enc_name_type version big d) = type_size version).
  { unfold enc_name_type, type_size. destruct (version =? 2); [by apply blen_enc_word | done]. }
  rewrite Hnt in *. rewrite ?(blen_enc_word big 4), ?(blen_enc_word big 2), ?(blen_enc_word big 1) in * by lia.
  split_and!; try done. by replace (name_end big pos d + type_size version + 4 + 1 + 4 + blen (kd_key d))
    with (name_end big pos d + type_size version + 4 + 1 + 2 + 2 + blen (kd_key d)) by lia.
Qed.

(** The key version: the 32-bit one where four bytes are left and it is not zero. *)
Definition kvno_of (d : key_doc) : Z :=
  match kd_tail d with Some (vno, _) => if vno =? 0 then kd_vno8 d else vno | None => kd_vno8 d end.
Lemma read_kvno big data at_ stop d :
  holds data at_ (enc_tail big d) -> stop = at_ + blen (enc_tail big d) ->
  match kd_tail d with Some (vno, _) => word_ok 4 vno | None => True end ->
  (if 4 <=? stop - at_ then kvno32 ← take_ big data 4 at_ stop; Ok (if kvno32 =? 0 then kd_vno8 d else kvno32) else Ok (kd_vno8 d))
  = Ok (kvno_of d).
Proof.
  unfold enc_tail, kvno_of. intros H -> Hok. destruct (kd_tail d) as [[vno extra]|].
  - rewrite blen_app, blen_enc_word by lia. apply holds_app in H as [H _]. pose proof (blen_nonneg extra).
    replace (4 <=? at_ + (4 + blen extra) - at_) with true by lia. rewrite (take_word big data 4 at_ _ vno) by (done || lia). done.
  - by replace (4 <=? at_ + blen [] - at_) with false by (change (blen []) with 0; lia).
Qed.

Lemma read_key version big data pos d : key_ok version big d -> holds data pos (enc_key version big d) ->
  keytab_record version big data pos (pos + blen (enc_key version big d)) = Ok (entry_of d).
Proof.
  intros [Hrealm Hcomps Hcount Hvno8 Hen Hkey Htail _] (Hc & Hr & Hcs & Hv8 & He & Hkl & H)%key_layout.
  set (stop := pos + blen (enc_key version big d)).
  assert (Hstop : stop = name_end big pos d + type_size version + 4 + 1 + 4 + blen (kd_key d) + blen (enc_tail big d))
    by (unfold stop, name_end; rewrite blen_enc_key; unfold type_size; lia).
  pose proof (blen_nonneg (kd_realm d)). pose proof (blen_nonneg (enc_comps big (kd_comps d))).
  pose proof (blen_nonneg (kd_key d)). pose proof (blen_nonneg (enc_tail big d)).
  assert (0 <= type_size version) by (unfold type_size; destruct (version =? 2); lia).
  assert (Hend : name_end big pos d = pos + 2 + (2 + blen (kd_realm d)) + blen (enc_comps big (kd_comps d))) by done.
  unfold keytab_record. rewrite (take_word big data 2 pos stop (comp_count version d)) by (done || lia). cbn [mbind res_bind].
  rewrite (read_data big data (pos + 2) stop (kd_realm d)) by (done || lia). cbn [mbind res_bind].
  replace (Z.to_nat (if version =? 1 then comp_count version d - 1 else comp_count version d)) with (length (kd_comps d))
    by (unfold comp_count; destruct (version =? 1); lia).
  replace (pos + 2 + 2 + blen (kd_realm d)) with (pos + 2 + (2 + blen (kd_realm d))) by lia.
  rewrite (read_components big data stop (kd_comps d)) by (done || lia). cbn [mbind res_bind]. rewrite <- Hend.
  replace ((if version =? 2 then name_end big pos d + 4 else name_end big pos d) + 4) with (name_end big pos d + type_size version + 4)
    by (unfold type_size; destruct (version =? 2); lia).
  set (a := name_end big pos d + type_size version + 4) in *.
  rewrite (take_word big data 1 a stop (kd_vno8 d)) by (done || lia). cbn [mbind res_bind].
  replace (stop <? a + 1 + 4) with false by lia.
  rewrite (unpack_word big data 2 (a + 1) (kd_enctype d mod 65536)) by first [done | lia | apply Z.mod_pos_bound; lia].
  rewrite (unpack_word big data 2 (a + 1 + 2) (blen (kd_key d))) by (done || lia).
  rewrite signed_enctype by done. cbv zeta. replace (stop <? a + 1 + 4 + blen (kd_key d)) with false by lia.
  rewrite (read_kvno big data _ stop d H Hstop Htail). cbn [mbind res_bind].
  unfold entry_of. by destruct (default _ _) as [name status].
Qed.

(** ** The file *)

Lemma entries_of_items_cons i items :
  entries_of_items (i :: items) = (match i with Key d => [entry_of d] | Hole _ => [] end) ++ entries_of_items items.
Proof. by destruct i. Qed.

Lemma signed_size n : 0 <= n < 2 ^ 31 -> signed 4 n = n.
Proof. intros H. unfold signed. change (2 ^ (8 * 4 - 1)) with (2 ^ 31). by replace (2 ^ 31 <=? n) with false by lia. Qed.
Lemma signed_hole n : 0 < n <= 2 ^ 31 -> signed 4 (2 ^ 32 - n) = - n.
Proof.
  intros H. unfold signed. change (2 ^ (8 * 4 - 1)) with (2 ^ 31). change (2 ^ (8 * 4)) with (2 ^ 32).
  replace (2 ^ 31 <=? 2 ^ 32 - n) with true by lia. lia.
Qed.

Lemma read_ending fuel version big data pos acc tail : holds data pos tail -> pos + blen tail = blen data -> ending big tail ->
  keytab_loop (S fuel) version big data pos acc = Ok acc.
Proof.
  intros H Hlen [Hs|[rest ->]]; cbn [keytab_loop].
  - by replace (blen data <? pos + 4) with true by lia.
  - apply holds_app in H as [H _]. rewrite blen_app, blen_enc_word in Hlen by lia. pose proof (blen_nonneg rest).
    replace (blen data <? pos + 4) with false by lia. by rewrite (unpack_word big data 4 pos 0).
Qed.

Lemma read_items version big data tail : forall items fuel pos acc,
  Forall (item_ok version big) items -> holds data pos (concat (enc_item version big <$> items) ++ tail) ->
  pos + blen (concat (enc_item version big <$> items) ++ tail) = blen data -> ending big tail -> blen data - pos < Z.of_nat fuel ->
  keytab_loop fuel version big data pos acc = Ok (acc ++ entries_of_items items).
Proof.
  induction items as [|i items IH]; intros fuel pos acc Hok H Hlen Hend Hfuel; pose proof (holds_nonneg _ _ _ H) as [Hpos _].
  - csimpl in *. pose proof (blen_nonneg tail). destruct fuel as [|fuel]; [lia|]. rewrite app_nil_r. by eapply read_ending.
  - rewrite entries_of_items_cons. csimpl in *. rewrite <- app_assoc in H, Hlen. apply holds_app in H as [Hi H]. rewrite blen_app in Hlen.
    apply Forall_cons in Hok as [Hiok Hok].
    pose proof (blen_nonneg (concat (enc_item version big <$> items) ++ tail)).
    pose proof (blen_nonneg (enc_item version big i)). destruct fuel as [|fuel]; [lia|]. destruct i as [d|b]; cbn [enc_item] in *; apply holds_app in Hi as [Hw Hi];
      rewrite blen_app, blen_enc_word in Hlen, H by lia; rewrite blen_enc_word in Hi by lia.
    + pose proof (ko_size _ _ _ Hiok). pose proof (blen_nonneg (enc_key version big d)).
      assert (0 < blen (enc_key version big d)).
      { rewrite blen_enc_key. pose proof (blen_nonneg (kd_realm d)). pose proof (blen_nonneg (enc_comps big (kd_comps d))).
        pose proof (blen_nonneg (kd_key d)). pose proof (blen_nonneg (enc_tail big d)). destruct (version =? 2); lia. }
      cbn [keytab_loop]. replace (blen data <? pos + 4) with false by lia.
      rewrite (unpack_word big data 4 pos (blen (enc_key version big d))) by (done || unfold word_ok; lia). rewrite signed_size by lia.
      cbv zeta. replace (blen (enc_key version big d) =? 0) with false by lia. replace (blen (enc_key version big d) <? 0) with false by lia.
      replace (blen data <? pos + 4 + blen (enc_key version big d)) with false by lia.
      rewrite (read_key version big data (pos + 4) d Hiok Hi). cbn [mbind res_bind]. rewrite app_assoc.
      apply IH; [done | by replace (pos + 4 + blen (enc_key version big d)) with (pos + (4 + blen (enc_key version big d))) by lia | lia | done | lia].
    + simpl in Hiok. cbn [keytab_loop]. replace (blen data <? pos + 4) with false by lia.
      rewrite (unpack_word big data 4 pos (2 ^ 32 - blen b)) by (done || unfold word_ok; lia).
      rewrite signed_hole by done. cbv zeta. replace (- blen b =? 0) with false by lia.
      replace (- blen b <? 0) with true by lia.
      apply IH; [done | by replace (pos + 4 - - blen b) with (pos + (4 + blen b)) by lia | lia | done | lia].
Qed.

Definition same_but_keys (a b : item) : Prop :=
  match a, b with
  | Key d, Key e => blen (kd_key d) = blen (kd_key e) /\
      e = KeyDoc (kd_realm d) (kd_comps d) (kd_name_type d) (kd_timestamp d) (kd_vno8 d) (kd_enctype d) (kd_key e) (kd_tail d)
  | Hole x, Hole y => x = y
  | _, _ => False
  end.

(** C27: the reader inverts MIT's keytab format, in both versions and both
    byte orders: of every well-formed file it reports every entry in order
    (deleted records are skipped, the 32-bit key version wins unless it is
    zero) and nothing of the keys: two files that differ in key bytes only
    are read the same. *)
Theorem parse_keytab_roundtrip version native_big items items' tail
    (Hv : version = 1 \/ version = 2) (Hok : Forall (item_ok version (if version =? 2 then true else native_big)) items)
    (Hend : ending (if version =? 2 then true else native_big) tail) (Hsame : Forall2 same_but_keys items items')
    (Hok' : Forall (item_ok version (if version =? 2 then true else native_big)) items') :
  let enc := fun l => enc_keytab version (if version =? 2 then true else native_big) l tail in
  parse_keytab native_big (enc items) = Ok (version, entries_of_items items) /\
  parse_keytab native_big (enc items') = parse_keytab native_big (enc items).
Proof.
  cbv beta zeta. assert (Hparse : forall l, Forall (item_ok version (if version =? 2 then true else native_big)) l ->
    parse_keytab native_big (enc_keytab version (if version =? 2 then true else native_big) l tail) = Ok (version, entries_of_items l)).
  { intros l Hl. unfold enc_keytab. cbn [app]. unfold parse_keytab.
    replace (bval (of_bval version)) with version by (destruct Hv as [-> | ->]; reflexivity).
    replace (bval x05 =? 5) with true by reflexivity.
    replace ((version =? 1) || (version =? 2)) with true by (destruct Hv as [-> | ->]; reflexivity). cbn [negb orb]. cbv zeta.
    rewrite (read_items version _ _ tail l) by first [done | exists [x05; of_bval version], []; by rewrite app_nil_r
      | rewrite !blen_cons; lia | unfold loop_fuel, blen; simpl; lia]. done. }
  rewrite !Hparse by done. split; [done|]. do 2 f_equal. clear -Hsame. induction Hsame as [|a b items items' Hab _ IH]; [done|].
  rewrite !entries_of_items_cons, IH. f_equal. destruct a as [d|x], b as [e|y]; simpl in Hab; try done.
  destruct Hab as [_ ->]. done.
Qed.

(** ** Arbitrary bytes *)

Definition keytab_error (e : exn) : Prop := exists msg, e = KeytabError msg.

Lemma take_safe big data n at_ limit : 0 <= n -> safe keytab_error (fun z => 0 <= z < 256 ^ n) (take_ big data n at_ limit).
Proof. intros Hn. unfold take_. destruct (_ <? _); simpl; [by eexists | by apply unpack_range]. Qed.

Lemma data_field_safe big data at_ limit : safe keytab_error (fun _ => True) (data_field big data at_ limit).
Proof.
  unfold data_field. eapply safe_bind; [by apply take_safe|]. intros n _. destruct (_ <? _); simpl; [by eexists | done].
Qed.

Lemma components_safe big data limit count : forall at_, safe keytab_error (fun _ => True) (components big data count at_ limit).
Proof.
  induction count as [|count IH]; intros at_; [done|]. cbn [components].
  eapply safe_bind; [apply data_field_safe|]. intros [c a] _. eapply safe_bind; [apply IH|]. by intros [l b] _.
Qed.

(** The fields of an entry keep to their widths. *)
Definition entry_bounds (e : kt_entry) : Prop := 0 <= ke_kvno e < 2 ^ 32 /\ -32768 <= ke_number e < 32768.

Lemma record_safe version big data pos stop : safe keytab_error entry_bounds (keytab_record version big data pos stop).
Proof.
  unfold keytab_record. eapply safe_bind; [by apply take_safe|]. intros count _. cbv zeta.
  eapply safe_bind; [apply data_field_safe|]. intros [realm a] _. eapply safe_bind; [apply components_safe|]. intros [comps b] _.
  eapply safe_bind; [by apply take_safe|]. intros kvno8 Hk. cbv beta in Hk. change (256 ^ 1) with 256 in Hk. destruct (_ <? _); [by eexists|]. destruct (_ <? _); [by eexists|].
  eapply (safe_bind _ (fun z => 0 <= z < 2 ^ 32)).
  - destruct (_ <=? _); [|cbn [safe]; change (2 ^ 32) with 4294967296; lia]. eapply safe_bind; [by apply take_safe|]. intros z Hz. cbv beta in Hz.
    change (256 ^ 4) with (2 ^ 32) in Hz. cbn [safe]. destruct (_ =? _); change (2 ^ 32) with 4294967296 in *; lia.
  - intros kvno Hkv. destruct (default _ _) as [name status]. split; [done|]. cbn [ke_number].
    apply (signed_range 2); [done | by apply unpack_range].
Qed.

Lemma loop_safe version big data : forall fuel pos acc, 0 <= pos -> blen data - pos < Z.of_nat fuel -> (0 < fuel)%nat ->
  Forall entry_bounds acc -> 4 * Z.of_nat (length acc) <= Z.min pos (blen data) ->
  safe keytab_error (fun es => Forall entry_bounds es /\ 4 * Z.of_nat (length es) <= blen data) (keytab_loop fuel version big data pos acc).
Proof.
  induction fuel as [|fuel IH]; intros pos acc Hpos Hfuel Hf Hacc Hlen; [lia|]. cbn [keytab_loop].
  destruct (blen data <? pos + 4) eqn:E1; [split; [done|lia]|]. cbv zeta.
  set (n := signed 4 (unpack big data 4 pos)). destruct (n =? 0) eqn:E2; [split; [done|lia]|].
  destruct (n <? 0) eqn:E3; [apply IH; (done || lia)|]. destruct (blen data <? pos + 4 + n) eqn:E4; [by eexists|].
  eapply safe_bind; [apply record_safe|]. intros e He. apply IH; try lia; [apply Forall_app; split; [done | by apply Forall_singleton]|].
  rewrite length_app. simpl. lia.
Qed.

(** On any bytes the reader ends, with its own error or with entries
    whose version and type keep to their widths, at most one per four bytes;
    so the scan of a keytab file never fails. *)
Theorem parse_keytab_safe native_big data :
  safe keytab_error (fun ve => (ve.1 = 1 \/ ve.1 = 2) /\ Forall entry_bounds ve.2 /\ 4 * Z.of_nat (length ve.2) <= blen data)
    (parse_keytab native_big data) /\
  (forall f path, is_ok (scan_keytab native_big f path) = true).
Proof.
  assert (Hsafe : forall d, safe keytab_error (fun ve => (ve.1 = 1 \/ ve.1 = 2) /\ Forall entry_bounds ve.2 /\
    4 * Z.of_nat (length ve.2) <= blen d) (parse_keytab native_big d)).
  { intros d. unfold parse_keytab. destruct d as [|b0 [|b1 rest]]; [by eexists..|]. cbv zeta.
    destruct (negb (bval b0 =? 5) || _) eqn:E; [by eexists|].
    eapply safe_bind; [apply (loop_safe (bval b1) _ (b0 :: b1 :: rest)); [lia | unfold loop_fuel, blen; lia | unfold loop_fuel; lia
      | constructor | simpl; pose proof (blen_nonneg (b0 :: b1 :: rest)); lia]|].
    intros es [Hes Hlen]. split; [|done]. cbn [fst]. lia. }
  split; [apply Hsafe|]. intros [|size d|s|s] path; try done. unfold scan_keytab. destruct (_ <? _); [done|].
  specialize (Hsafe d). destruct (parse_keytab native_big d) as [[v es]|e]; [done|].
  destruct Hsafe as [msg ->]. done.
Qed.

(** ** Witnesses *)

Definition sample_key (key : bytes) : key_doc :=
  KeyDoc [x45; x58] [[x68; x6f; x73; x74]; [x77; x31]] 1 0 3 18 key (Some (300, [])).
Definition sample_items (key : bytes) : list item := [Hole [x00; x01; x02]; Key (sample_key key)].

Lemma sample_items_ok key : blen key = 4 -> Forall (item_ok 2 true) (sample_items key).
Proof.
  intros Hk. constructor; [split; vm_compute; [reflexivity | discriminate]|]. constructor; [|constructor]. split.
  - split; vm_compute; [discriminate | reflexivity].
  - repeat constructor; vm_compute; (discriminate || reflexivity).
  - split; vm_compute; [discriminate | reflexivity].
  - split; vm_compute; [discriminate | reflexivity].
  - split; vm_compute; [discriminate | reflexivity].
  - unfold data_ok, word_ok. cbn [sample_key kd_key]. rewrite Hk. split; vm_compute; [discriminate | reflexivity].
  - split; vm_compute; [discriminate | reflexivity].
  - rewrite blen_enc_key. cbn [sample_key kd_key]. rewrite Hk. vm_compute. reflexivity.
Qed.

Lemma parse_keytab_roundtrip_witness :
  parse_keytab false (enc_keytab 2 true (sample_items [x00; x00; x00; x00]) []) =
    Ok (2, [KtEntry "host/w1@EX" 300 "aes256-cts-hmac-sha1-96" 18 "ok"]) /\
  parse_keytab false (enc_keytab 2 true (sample_items [xff; xfe; xfd; xfc]) []) =
    parse_keytab false (enc_keytab 2 true (sample_items [x00; x00; x00; x00]) []).
Proof.
  refine (parse_keytab_roundtrip 2 false (sample_items [x00; x00; x00; x00]) (sample_items [xff; xfe; xfd; xfc]) [] _ _ _ _ _).
  - right. reflexivity.
  - apply sample_items_ok. reflexivity.
  - left. reflexivity.
  - repeat constructor.
  - apply sample_items_ok. reflexivity.
Defined.
