(* ===== verification/Krb.v ===== *)
(** * Kerberos configuration ([protocols_kerberos.py])

    Encryption types, MIT profiles with their includes, PKINIT, the KDC and
    the summary.  Keytabs are in [Keytab]. *)

From stdpp Require Import sets.
From S2P Require Import Prelude PyStr PyDict PyVal PyRe PyBytes Classify Der Boot Keytab Services SvcScan SarifRules.
Open Scope Z_scope.
(** ** Encryption types *)

Definition enctype_names : list (string * string) := snd <$> ENCTYPES.
Definition NAME_STATUS : list (string * string) := dset "des3-cbc-raw" "deprecated" (foldl (fun d ns => dset ns.1 ns.2 d) [] enctype_names).

Definition ALIASES : list (string * list string) := [
  ("des3-cbc-raw", ["des3-cbc-raw"]);
  ("des3-hmac-sha1", ["des3-cbc-sha1"]);
  ("des3-cbc-sha1-kd", ["des3-cbc-sha1"]);
  ("aes256-cts", ["aes256-cts-hmac-sha1-96"]);
  ("aes256-sha1", ["aes256-cts-hmac-sha1-96"]);
  ("aes128-cts", ["aes128-cts-hmac-sha1-96"]);
  ("aes128-sha1", ["aes128-cts-hmac-sha1-96"]);
  ("aes256-sha2", ["aes256-cts-hmac-sha384-192"]);
  ("aes128-sha2", ["aes128-cts-hmac-sha256-128"]);
  ("rc4-hmac", ["arcfour-hmac"]);
  ("arcfour-hmac-md5", ["arcfour-hmac"]);
  ("rc4-hmac-exp", ["arcfour-hmac-exp"]);
  ("arcfour-hmac-md5-exp", ["arcfour-hmac-exp"]);
  ("camellia256-cts", ["camellia256-cts-cmac"]);
  ("camellia128-cts", ["camellia128-cts-cmac"]);
  ("des3", ["des3-cbc-sha1"]);
  ("aes", ["aes256-cts-hmac-sha1-96"; "aes128-cts-hmac-sha1-96"; "aes256-cts-hmac-sha384-192"; "aes128-cts-hmac-sha256-128"]);
  ("rc4", ["arcfour-hmac"]);
  ("camellia", ["camellia256-cts-cmac"; "camellia128-cts-cmac"]);
  ("des", ["des-cbc-crc"; "des-cbc-md4"; "des-cbc-md5"])].

Definition MIT_DEFAULT_ENCTYPES : list string := [
  "aes256-cts-hmac-sha1-96"; "aes128-cts-hmac-sha1-96"; "aes256-cts-hmac-sha384-192"; "aes128-cts-hmac-sha256-128";
  "des3-cbc-sha1"; "arcfour-hmac"; "camellia256-cts-cmac"; "camellia128-cts-cmac"].
Definition MIT_WEAK : list string := ["des-cbc-crc"; "des-cbc-md4"; "des-cbc-md5"; "arcfour-hmac-exp"; "des3-cbc-raw"].
Definition ENCTYPE_LIST_KEYS : list string := ["permitted_enctypes"; "default_tkt_enctypes"; "default_tgs_enctypes"].

Definition enctype_status (name : string) : string := default "unknown" (dget name NAME_STATUS).

(** [[t for t in re.split(r"[\s,]+", value) if t]]. *)
Definition list_tokens (value : string) : list string :=
  List.filter (fun t => negb (String.eqb t EmptyString)) (re_split_class (fun c => is_space c || Ascii.eqb c ",") value).

(** The names one token stands for. *)
Definition token_names (tok : string) : list string :=
  let tok := lower (lstrip_by (char_in "+-") tok) in
  if String.eqb tok "default" then MIT_DEFAULT_ENCTYPES else default [tok] (dget tok ALIASES).

Definition add_name (out : list string) (n : string) : list string := if bool_decide (n ∈ out) then out else out ++ [n].
Definition remove_name (out : list string) (n : string) : list string := List.filter (fun x => negb (String.eqb x n)) out.
Definition expand_token (out : list string) (tok : string) : list string :=
  foldl (if starts_with "-" tok then remove_name else add_name) out (token_names tok).

Definition expand_enctypes (value : option string) (allow_weak : bool) : list string :=
  let tokens := match value with None => ["DEFAULT"] | Some v => list_tokens v end in
  let out := foldl expand_token [] tokens in
  if allow_weak then out else List.filter (fun n => negb (bool_decide (n ∈ MIT_WEAK))) out.

(** ** MIT profiles *)

Definition KRB5_CONF : string := "/etc/krb5.conf".
Definition KDC_CONF_PATHS : list string := ["/var/kerberos/krb5kdc/kdc.conf"; "/etc/krb5kdc/kdc.conf"].
Definition MAX_INCLUDES : nat := 64.
Definition is_name_char (c : ascii) : bool := is_alnum c || char_in "_-" c.
Definition INCLUDEDIR_NAME : re := RAlts [RSeqs [Bos; RPlus (RChr is_name_char); Eos]; RSeqs [RLit ".conf"; Eos]].

(** A relation's value: a text or a subsection. *)
Inductive rel := Leaf (s : string) | Sub (d : list (string * rel)).
Abbreviation rels := (list (string * rel)).
Abbreviation profile := (list (string * rels)).

Definition leaf (o : option rel) : option string := match o with Some (Leaf s) => Some s | _ => None end.
Definition sub_of (o : option rel) : rels := match o with Some (Sub d) => d | _ => [] end.

(** Sections read so far, the directives, the current section and the path
    of the open subsections in it (outermost first). *)
Record pst := Pst { pf_sections : profile; pf_directives : list (string * string); pf_current : option string; pf_stack : list string }.

(** The relations at a path, and a change of them. *)
Fixpoint at_path (path : list string) (d : rels) : rels :=
  match path with [] => d | k :: path => at_path path (sub_of (dget k d)) end.
Fixpoint change_at (path : list string) (f : rels -> rels) (d : rels) : rels :=
  match path with [] => f d | k :: path => dset k (Sub (change_at path f (sub_of (dget k d)))) d end.

Definition INCLUDE_RE : re :=
  RSeqs [Bos; RGrp 1 (RAlt (RLit "include") (RLit "includedir")); RPlus Space; RGrp 2 (RSeqs [NonSpace; RStar true Dot]); Eos].
Definition SECTION_RE : re := RSeqs [Bos; RLit "["; RGrp 1 (RPlus (NotSet "]")); RLit "]"].
Definition RELATION_RE : re :=
  RSeqs [Bos; RGrp 1 (RPlus (RChr (fun c => negb (Ascii.eqb c "=" || is_space c)))); RStar true Space; RLit "="; RStar true Space;
         RGrp 2 (RStar false Dot); RStar true Space; Eos].

Definition open_sub (tag : string) (d : rels) : rels := dset tag (Sub (sub_of (dget tag d))) d.
Definition set_leaf (tag value : string) (d : rels) : rels := if dmem tag d then d else dset tag (Leaf value) d.
Definition change_current (st : pst) (sec : string) (f : rels -> rels) : profile :=
  dset sec (change_at (pf_stack st) f (default [] (dget sec (pf_sections st)))) (pf_sections st).

Definition relation (st : pst) (sec tag value : string) : pst :=
  if String.eqb value "{" then
    Pst (change_current st sec (open_sub tag)) (pf_directives st) (pf_current st) (pf_stack st ++ [tag])
  else Pst (change_current st sec (set_leaf tag value)) (pf_directives st) (pf_current st) (pf_stack st).

Definition profile_line (st : pst) (raw : string) : pst :=
  let line := strip raw in
  if String.eqb line EmptyString || starts_with "#" line || starts_with ";" line then st
  else
    match (if pf_stack st is [] then re_match INCLUDE_RE line else None) with
    | Some m => Pst (pf_sections st) (pf_directives st ++ [(group_or 1 m, strip (group_or 2 m))]) (pf_current st) (pf_stack st)
    | None =>
        match re_match SECTION_RE line with
        | Some m =>
            let sec := strip (group_or 1 m) in
            Pst (dsetdefault sec [] (pf_sections st)) (pf_directives st) (Some sec) []
        | None =>
            match pf_current st with
            | None => st
            | Some sec =>
                if starts_with "}" line then Pst (pf_sections st) (pf_directives st) (pf_current st) (removelast (pf_stack st))
                else
                  match re_match RELATION_RE line with
                  | Some m => relation st sec (lower (group_or 1 m)) (group_or 2 m)
                  | None => st
                  end
            end
        end
    end.

Definition parse_profile (text : string) : profile * list (string * string) :=
  let st := foldl profile_line (Pst [] [] None []) (splitlines text) in (pf_sections st, pf_directives st).

(** [_merge]: what is there stays. *)
Definition merge_rels (dest new : rels) : rels := foldl (fun d kv => dsetdefault kv.1 kv.2 d) dest new.
Definition merge (into new : profile) : profile :=
  foldl (fun acc nr => dset nr.1 (merge_rels (default [] (dget nr.1 acc)) nr.2) acc) into new.

Section Files.
(** [_read] under the host prefix, and the regular files or links of a
    directory in sorted order; [None] when it cannot be read. *)
Context (read : string -> option string) (listdir : string -> option (list string)).

Definition expand_directive (d : string * string) : list string :=
  let '(kind, target) := d in
  if String.eqb kind "include" then [target]
  else match listdir target with
       | None => []
       | Some names => (fun n => rstrip_by (Ascii.eqb "/") target +:+ "/" +:+ n) <$> List.filter (test_search INCLUDEDIR_NAME) names
       end.

(** The queue: [n] files may still be read; a file that is skipped only shortens it. *)
Fixpoint read_files (n : nat) (queue : list string) (merged : profile) (files : list string) : profile * list string :=
  match n with
  | O => (merged, files)
  | S n =>
      (fix next (queue : list string) : profile * list string :=
         match queue with
         | [] => (merged, files)
         | f :: queue =>
             if bool_decide (f ∈ files) then next queue
             else match read f with
                  | None => next queue
                  | Some text =>
                      let '(sections, directives) := parse_profile text in
                      read_files n (queue ++ concat (expand_directive <$> directives)) (merge merged sections) (files ++ [f])
                  end
         end) queue
  end.

Definition read_krb5_conf (path : string) : profile * list string := read_files MAX_INCLUDES [path] [] [].
End Files.

(** ** The configuration *)

Definition bool_of (o : option rel) : option bool :=
  s ← leaf o;
  let v := lower (strip s) in
  if bool_decide (v ∈ ["true"; "yes"; "on"; "1"]) then Some true
  else if bool_decide (v ∈ ["false"; "no"; "off"; "0"]) then Some false
  else None.

(** What a [FILE:] path holds: nothing there, an error, or the certificates in it. *)
Inductive cert_file := CertsMissing | CertsError (reason : string) | CertsOf (ders : list bytes).

(** A PKINIT store: a file that was looked into, or the text that names another kind. *)
Inductive store :=
| StMissing (path : string)
| StError (path reason : string)
| StCerts (path : string) (total : Z) (categories : list (string * Z)) (key_algorithms : list string)
| StOther (text : string).

Definition key_name (c : certificate) : string :=
  if String.eqb (c_key_algorithm c) "RSA"
  then c_key_algorithm c +:+ "-" +:+ match c_key_size c with Some n => show_Z n | None => "None" end
  else c_key_algorithm c.

(** The certificates that parse; only a DER error is skipped. *)
Definition parsed_certs (acc : list certificate) (der : bytes) : res (list certificate) :=
  match parse_certificate der with
  | Ok c => Ok (acc ++ [c])
  | Raise e => if der_message e is Some _ then Ok acc else Raise e
  end.

Section Pkinit.
Context (certs : string -> cert_file).

Definition file_certificates (value : string) : res store :=
  let path := before "," (str_drop 5 value) in
  match certs path with
  | CertsMissing => Ok (StMissing path)
  | CertsError reason => Ok (StError path reason)
  | CertsOf ders =>
      cs ← foldM parsed_certs [] ders;
      let categories := count_keys ((fun c => category_name (c_category c)) <$> cs) [] in
      Ok (StCerts path (ctotal categories) categories (sorted_set (key_name <$> cs)))
  end.

(** The leaves in the order the explicit stack visits them: a node's own
    relations, then its subsections, the last one first. *)
Fixpoint leaves (r : rel) : list (string * string) :=
  match r with
  | Leaf _ => []
  | Sub d =>
      omap (fun kv => match kv.2 with Leaf s => Some (kv.1, s) | Sub _ => None end) d ++
      concat (reverse ((fix subs (d : rels) := match d with [] => [] | (_, r) :: d => leaves r :: subs d end) d))
  end.

Definition pkinit_settings (p : profile) : list (string * string) :=
  let all := concat ((fun sec => leaves (Sub (default [] (dget sec p)))) <$> ["libdefaults"; "realms"; "kdcdefaults"]) in
  foldl (fun d kv => if starts_with "pkinit_" kv.1 then dsetdefault kv.1 kv.2 d else d) [] all.

Record pkinit := Pkinit { pk_settings : list string; pk_anchors : option store; pk_identity_configured : bool; pk_identity : option store }.

(** [a or b] of two optional texts. *)
Definition or_text (a b : option string) : option string :=
  match a with Some s => if String.eqb s EmptyString then b else a | None => b end.

Definition pkinit_store (suffix : string) (value : option string) : res (option store) :=
  match value with
  | None => Ok None
  | Some v =>
      if String.eqb v EmptyString then Ok None
      else if starts_with "FILE:" v then s ← file_certificates v; Ok (Some s)
      else Ok (Some (StOther (before ":" v +:+ suffix)))
  end.

Definition pkinit_of (p : profile) : res pkinit :=
  let settings := pkinit_settings p in
  let identity := or_text (dget "pkinit_identity" settings) (dget "pkinit_identities" settings) in
  anchors ← pkinit_store ":..." (dget "pkinit_anchors" settings);
  id ← pkinit_store EmptyString identity;
  Ok (Pkinit (py_sorted str_lt (settings.*1)) anchors (bool_decide (is_Some identity)) id).

Record enctype_list := EnctypeList { el_raw : option rel; el_source : string; el_enctypes : list string }.
Record krb_config := KrbConfig {
  kc_allow_weak : option bool; kc_default_keytab_name : option rel; kc_lists : list (string * enctype_list); kc_pkinit : pkinit }.

Definition enctype_list_of (lib : rels) (allow_weak : bool) (key : string) : enctype_list :=
  let permitted := dget "permitted_enctypes" lib in
  let '(raw, source) :=
    match dget key lib with
    | Some r => (Some r, "configured")
    | None => if negb (String.eqb key "permitted_enctypes") && bool_decide (is_Some permitted)
              then (permitted, "permitted_enctypes") else (None, "mit_default")
    end in
  EnctypeList raw source (expand_enctypes (leaf raw) allow_weak).

Definition kerberos_config (p : profile) : res krb_config :=
  let lib := default [] (dget "libdefaults" p) in
  let allow_weak := bool_of (dget "allow_weak_crypto" lib) in
  pk ← pkinit_of p;
  Ok (KrbConfig allow_weak (dget "default_keytab_name" lib)
        ((fun key => (key, enctype_list_of lib (default false allow_weak) key)) <$> ENCTYPE_LIST_KEYS) pk).
End Pkinit.

(** ** The KDC *)

Record realm := Realm { rm_supported : list string; rm_master_key_type : option rel }.
Record kdc := Kdc { kdc_path : string; kdc_realms : list (string * realm) }.

Definition realm_of (kv : string * rel) : option (string * realm) :=
  match kv.2 with
  | Leaf _ => None
  | Sub d =>
      let names := match leaf (dget "supported_enctypes" d) with Some s => before ":" <$> list_tokens s | None => [] end in
      Some (kv.1, Realm (concat ((fun x => default [x] (dget x ALIASES)) <$> names)) (dget "master_key_type" d))
  end.

Definition read_kdc_conf (read : string -> option string) : option kdc :=
  head (omap (fun path => (fun text => Kdc path (omap realm_of (default [] (dget "realms" (parse_profile text).1)))) <$> read path)
             KDC_CONF_PATHS).

(** ** Keytab paths *)

Definition DEFAULT_KEYTABS : list string := ["/etc/krb5.keytab"].
Definition KEYTAB_GLOBS : list string := ["/etc/*.keytab"; "/etc/*/*.keytab"; "/etc/*/*/*.keytab"].

(** [s.split(sep, 1)[1]]: the text after the first separator, which is there. *)
Definition after (sep s : string) : string := str_drop (Z.of_nat (String.length (before sep s) + String.length sep)) s.

Definition named_keytab (o : option rel) : list string :=
  match leaf o with
  | None => []
  | Some name =>
      let name := if starts_with "FILE:" name || starts_with "WRFILE:" name then after ":" name else name in
      if starts_with "/" name && negb (contains "%" name) then [name] else []
  end.
Definition add_new (acc : list string) (x : string) : list string := if bool_decide (x ∈ acc) then acc else acc ++ [x].
Definition keytab_paths (host_glob : string -> list string) (c : krb_config) : list string :=
  foldl (fun acc pattern => foldl add_new acc (host_glob pattern)) (named_keytab (kc_default_keytab_name c) ++ DEFAULT_KEYTABS) KEYTAB_GLOBS.

(** ** The summary *)

Definition pkinit_classical (pk : pkinit) : option bool :=
  if negb (pk_identity_configured pk) then Some false
  else
    match pk_identity pk with
    | Some (StCerts _ _ categories _) =>
        if categories is [] then None
        else Some ((cget "pure_pqc" categories =? 0) && (cget "hybrid_composite" categories =? 0))
    | _ => None
    end.

Record krb_summary := KrbSummary {
  ks_allowed : list string; ks_in_keytabs : list string; ks_deprecated : list string; ks_aes128 : list string;
  ks_128_only : bool; ks_pkinit : option bool }.

Definition entries_of (kt : kt_report) : list kt_entry := if kt is KtParsed _ _ entries _ then entries else [].
Definition of_status (status : string) (names : list string) : list string :=
  List.filter (fun n => String.eqb (enctype_status n) status) names.

Definition krb_summarise (c : krb_config) (keytabs : list kt_report) (k : option kdc) : krb_summary :=
  let configured := concat ((fun kl => el_enctypes kl.2) <$> kc_lists c) ++
                    match k with Some k => concat ((fun kr => rm_supported kr.2) <$> kdc_realms k) | None => [] end in
  let in_keytabs := sorted_set (ke_enctype <$> concat (entries_of <$> keytabs)) in
  let allowed := sorted_set (configured ++ in_keytabs) in
  KrbSummary allowed in_keytabs (of_status "deprecated" allowed) (of_status "aes128" allowed)
    (negb (bool_decide (in_keytabs = [])) && bool_decide (of_status "ok" in_keytabs = [])) (pkinit_classical (kc_pkinit c)).

(** ** The report *)

Fixpoint rel_value (r : rel) : value :=
  match r with
  | Leaf s => VStr s
  | Sub d => VDict ((fix go (d : rels) := match d with [] => [] | (k, r) :: d => (k, rel_value r) :: go d end) d)
  end.
Definition orel_value (o : option rel) : value := match o with Some r => rel_value r | None => VNone end.

Definition store_value (s : store) : value :=
  match s with
  | StMissing path => VDict [("path", VStr path); ("exists", VBool false)]
  | StError path reason => VDict [("path", VStr path); ("exists", VBool true); ("reason", VStr reason)]
  | StCerts path total categories algorithms =>
      VDict [("path", VStr path); ("exists", VBool true); ("certificates", VInt total);
             ("categories", VDict ((fun kn => (kn.1, VInt kn.2)) <$> categories)); ("key_algorithms", VStrs algorithms)]
  | StOther text => VDict [("value", VStr text)]
  end.
(** An identity that is no file is named by its store, an anchor by its value. *)
Definition identity_value (s : store) : value := if s is StOther text then VDict [("store", VStr text)] else store_value s.
Definition pkinit_value (pk : pkinit) : value := VDict [
  ("settings", VStrs (pk_settings pk)); ("anchors", match pk_anchors pk with Some s => store_value s | None => VNone end);
  ("identity_configured", VBool (pk_identity_configured pk));
  ("identity", match pk_identity pk with Some s => identity_value s | None => VNone end)].

Definition enctype_list_value (l : enctype_list) : value :=
  VDict [("raw", orel_value (el_raw l)); ("source", VStr (el_source l)); ("enctypes", VStrs (el_enctypes l))].
Definition config_value (c : krb_config) : value := VDict [
  ("allow_weak_crypto", of_obool (kc_allow_weak c)); ("default_keytab_name", orel_value (kc_default_keytab_name c));
  ("enctype_lists", VDict ((fun kl => (kl.1, enctype_list_value kl.2)) <$> kc_lists c)); ("pkinit", pkinit_value (kc_pkinit c))].

Definition realm_value (r : realm) : value :=
  VDict [("supported_enctypes", VStrs (rm_supported r)); ("master_key_type", orel_value (rm_master_key_type r))].
Definition kdc_value (k : kdc) : value :=
  VDict [("path", VStr (kdc_path k)); ("realms", VDict ((fun kr => (kr.1, realm_value kr.2)) <$> kdc_realms k))].

Definition entry_value (e : kt_entry) : value := VDict [
  ("principal", VStr (ke_principal e)); ("kvno", VInt (ke_kvno e)); ("enctype", VStr (ke_enctype e));
  ("enctype_number", VInt (ke_number e)); ("status", VStr (ke_status e))].
Definition keytab_value (k : kt_report) : value :=
  match k with
  | KtUnreadable path reason => VDict [("path", VStr path); ("readable", VBool false); ("reason", VStr reason)]
  | KtMalformed path reason => VDict [("path", VStr path); ("readable", VBool true); ("parsed", VBool false); ("reason", VStr reason)]
  | KtParsed path version entries enctypes =>
      VDict [("path", VStr path); ("readable", VBool true); ("parsed", VBool true); ("format_version", VInt version);
             ("entries", VList (entry_value <$> entries)); ("enctypes", VDict ((fun kn => (kn.1, VInt kn.2)) <$> enctypes))]
  end.

Definition krb_summary_value (s : krb_summary) : value := VDict [
  ("enctypes_allowed", VStrs (ks_allowed s)); ("enctypes_in_keytabs", VStrs (ks_in_keytabs s));
  ("deprecated_enctypes", VStrs (ks_deprecated s)); ("aes128_enctypes", VStrs (ks_aes128 s));
  ("keytab_keys_128_bit_only", VBool (ks_128_only s)); ("pkinit_classical", of_obool (ks_pkinit s))].

(** The host as the scan sees it. *)
Record krb_host := KrbHost {
  kh_read : string -> option string; kh_listdir : string -> option (list string); kh_certs : string -> cert_file;
  kh_glob : string -> list string; kh_keytab : string -> kt_file; kh_big : bool; kh_note : list (string * value) }.

Definition scan_keytabs (h : krb_host) (paths : list string) : res (list kt_report) :=
  l ← mapM (fun p => scan_keytab (kh_big h) (kh_keytab h p) p) paths; Ok (omap id l).

Record krb_scan := KrbScan { kn_files : list string; kn_config : krb_config; kn_kdc : option kdc; kn_keytabs : list kt_report }.

Definition read_kerberos (h : krb_host) : res (option krb_scan) :=
  let '(p, files) := read_krb5_conf (kh_read h) (kh_listdir h) KRB5_CONF in
  let k := read_kdc_conf (kh_read h) in
  match files, k with
  | [], None => Ok None
  | _, _ =>
      cfg ← kerberos_config (kh_certs h) p;
      keytabs ← scan_keytabs h (keytab_paths (kh_glob h) cfg);
      Ok (Some (KrbScan files cfg k keytabs))
  end.

Definition krb_scan_value (s : krb_scan) : list (string * value) := [
  ("available", VBool true); ("config_files", VStrs (kn_files s)); ("config", config_value (kn_config s));
  ("kdc", match kn_kdc s with Some k => kdc_value k | None => VNone end); ("keytabs", VList (keytab_value <$> kn_keytabs s));
  ("summary", krb_summary_value (krb_summarise (kn_config s) (kn_keytabs s) (kn_kdc s)))].

Definition scan_kerberos (h : krb_host) : res value :=
  s ← read_kerberos h;
  Ok (VDict (match s with
             | None => [("available", VBool false);
                        ("reason", VStr ("no " +:+ KRB5_CONF +:+ " or kdc.conf on the host (Kerberos not configured)"))]
             | Some s => dupdate (krb_scan_value s) (kh_note h)
             end)).

(** * What the Kerberos inventory promises

    The expansion of enctype lists, the files of a configuration and their
    precedence, and the level of pqc-031 from the settings themselves. *)
(** ** Enctype lists *)

Definition adds (tok : string) : bool := negb (starts_with "-" tok).
Definition mentions (n tok : string) : bool := bool_decide (n ∈ token_names tok).

(** The last token that speaks of a name. *)
Definition last_word (n : string) (tokens : list string) : option string := last (List.filter (mentions n) tokens).

Lemma elem_of_add_names n l : forall out, n ∈ foldl add_name out l <-> n ∈ out \/ n ∈ l.
Proof.
  induction l as [|x l IH]; intros out; simpl; [set_solver|]. rewrite IH. unfold add_name.
  case_bool_decide; set_solver.
Qed.
Lemma elem_of_remove_names n l : forall out, n ∈ foldl remove_name out l <-> n ∈ out /\ n ∉ l.
Proof.
  induction l as [|x l IH]; intros out; simpl; [set_solver|]. rewrite IH. unfold remove_name.
  rewrite list_elem_of_In, filter_In, <- list_elem_of_In, negb_true_iff, String.eqb_neq. set_solver.
Qed.

Lemma elem_of_expand_token n out tok :
  n ∈ expand_token out tok <-> if mentions n tok then adds tok = true else n ∈ out.
Proof.
  unfold expand_token, adds, mentions. destruct (starts_with "-" tok);
    [rewrite elem_of_remove_names | rewrite elem_of_add_names]; case_bool_decide; simpl; naive_solver.
Qed.

Lemma elem_of_expanded n tokens :
  n ∈ foldl expand_token [] tokens <-> exists tok, last_word n tokens = Some tok /\ adds tok = true.
Proof.
  unfold last_word. induction tokens as [|tok tokens IH] using rev_ind.
  - simpl. split; [by intros ?%elem_of_nil | by intros (? & ? & _)].
  - rewrite foldl_app, List.filter_app. cbn [foldl List.filter]. rewrite elem_of_expand_token.
    destruct (mentions n tok); [|by rewrite app_nil_r]. rewrite last_snoc. naive_solver.
Qed.

Lemma NoDup_add_names l : forall out, NoDup out -> NoDup (foldl add_name out l).
Proof.
  induction l as [|x l IH]; intros out H; simpl; [done|]. apply IH. unfold add_name. case_bool_decide; [done|].
  apply NoDup_app. split_and!; [done | set_solver | apply NoDup_singleton].
Qed.
Lemma NoDup_filter' {A} (p : A -> bool) l : NoDup l -> NoDup (List.filter p l).
Proof. intros H%NoDup_ListNoDup. by apply NoDup_ListNoDup, List.NoDup_filter. Qed.
Lemma NoDup_remove_names l : forall out, NoDup out -> NoDup (foldl remove_name out l).
Proof. induction l as [|x l IH]; intros out H; simpl; [done|]. by apply IH, NoDup_filter'. Qed.

Lemma NoDup_expanded tokens : NoDup (foldl expand_token [] tokens).
Proof.
  assert (H : forall out, NoDup out -> NoDup (foldl expand_token out tokens)); [|apply H, NoDup_nil_2].
  induction tokens as [|tok tokens IH]; intros out Hout; simpl; [done|]. apply IH. unfold expand_token.
  destruct (starts_with _ _); [by apply NoDup_remove_names | by apply NoDup_add_names].
Qed.

Definition tokens_of (value : option string) : list string := match value with None => ["DEFAULT"] | Some v => list_tokens v end.

(** An enctype list allows a name exactly when the last token that
    speaks of it (through an alias, a family or DEFAULT) adds it, and weak
    names only with allow_weak_crypto; no name is listed twice. *)
Theorem expand_enctypes_spec value allow_weak :
  NoDup (expand_enctypes value allow_weak) /\
  forall n, n ∈ expand_enctypes value allow_weak <->
    (allow_weak = true \/ n ∉ MIT_WEAK) /\ exists tok, last_word n (tokens_of value) = Some tok /\ adds tok = true.
Proof.
  unfold expand_enctypes. fold (tokens_of value). split.
  - destruct allow_weak; [apply NoDup_expanded | apply NoDup_filter', NoDup_expanded].
  - intros n. rewrite <- elem_of_expanded. destruct allow_weak; [naive_solver|].
    rewrite list_elem_of_In, filter_In, <- list_elem_of_In, negb_true_iff, bool_decide_eq_false. naive_solver.
Qed.

(** ** Files *)

Section Files.
Context (read : string -> option string) (listdir : string -> option (list string)).

(** Reads as the loop makes them: distinct readable files, merged in order. *)
Definition sections_of (f : string) : profile := (parse_profile (default EmptyString (read f))).1.
Definition merged_of (files : list string) : profile := foldl merge [] (sections_of <$> files).
Definition files_ok (files : list string) : Prop := NoDup files /\ Forall (fun f => is_Some (read f)) files.

Lemma read_files_spec n : forall queue files p files',
  files_ok files -> read_files read listdir n queue (merged_of files) files = (p, files') ->
  files_ok files' /\ p = merged_of files' /\ files `prefix_of` files' /\ (length files' <= length files + n)%nat /\
  (forall f rest, files = [] -> queue = f :: rest -> n <> O -> is_Some (read f) -> head files' = Some f).
Proof.
  induction n as [|n IHn]; intros queue files p files' Hok H.
  { cbn in H. injection H as <- <-. split_and!; [done | done | done | lia | done]. }
  cbn [read_files] in H. assert (Hgoal : files_ok files' /\ p = merged_of files' /\ files `prefix_of` files' /\
    (length files' <= length files + S n)%nat /\
    (forall f rest, files = [] -> queue = f :: rest -> is_Some (read f) -> head files' = Some f)); [|naive_solver].
  induction queue as [|f queue IHq]; [injection H as <- <-; split_and!; [done | done | done | lia | done]|].
  destruct (bool_decide (f ∈ files)) eqn:Ef; [|destruct (read f) as [text|] eqn:Er].
  - apply bool_decide_eq_true in Ef. destruct (IHq H) as (H1 & H2 & H3 & H4 & _). split_and!; try done.
    intros g rest ->. by apply elem_of_nil in Ef.
  - apply bool_decide_eq_false in Ef. destruct (parse_profile text) as [sections directives] eqn:Ep.
    assert (Hm : merge (merged_of files) sections = merged_of (files ++ [f])).
    { unfold merged_of. rewrite fmap_app, foldl_app. cbn [fmap list_fmap foldl].
      unfold sections_of. rewrite Er. change (default EmptyString (Some text)) with text. by rewrite Ep. }
    rewrite Hm in H. destruct Hok as [Hnd Hr].
    assert (Hok' : files_ok (files ++ [f])).
    { split; [|apply Forall_app; split; [done | apply Forall_singleton; by rewrite Er]].
      apply NoDup_app. split_and!; [done | set_solver | apply NoDup_singleton]. }
    destruct (IHn _ _ _ _ Hok' H) as (H1 & H2 & H3 & H4 & _). rewrite length_app in H4. simpl in H4.
    split_and!; [done | done | by eapply prefix_app_l | lia |].
    intros g rest -> [= <- <-] _. destruct H3 as [k ->]. done.
  - destruct (IHq H) as (H1 & H2 & H3 & H4 & _). split_and!; try done.
    intros g rest _ [= <- <-] Hg. rewrite Er in Hg. by destruct Hg.
Qed.

(** The first of the files that has the relation. *)
Definition relation_in (p : profile) (sec tag : string) : option rel := r ← dget sec p; dget tag r.
Definition first_relation (sec tag : string) (ps : list profile) : option rel := head (omap (fun p => relation_in p sec tag) ps).

Lemma dget_dsetdefault_krb (tag k : string) (r : rel) d :
  dget tag (dsetdefault k r d) = match dget tag d with Some x => Some x | None => if String.eqb k tag then Some r else None end.
Proof.
  unfold dsetdefault, dmem. destruct (dget k d) as [x|] eqn:E.
  - destruct (dget tag d) eqn:Et; [done|]. destruct (String.eqb_spec k tag) as [->|]; [congruence | done].
  - rewrite dget_app. destruct (dget tag d); [done|]. simpl. destruct (String.eqb_spec k tag) as [->|]; case_decide; congruence.
Qed.

Lemma dget_merge_rels tag new : forall dest,
  dget tag (merge_rels dest new) = match dget tag dest with Some r => Some r | None => dget tag new end.
Proof.
  unfold merge_rels. induction new as [|[k r] new IH]; intros dest; simpl; [by destruct (dget tag dest)|].
  rewrite IH, dget_dsetdefault_krb. destruct (dget tag dest); [done|].
  destruct (String.eqb_spec k tag) as [->|]; case_decide; congruence.
Qed.

Lemma relation_in_merge sec tag new : dwf new -> forall into,
  relation_in (merge into new) sec tag = match relation_in into sec tag with Some r => Some r | None => relation_in new sec tag end.
Proof.
  unfold merge, dwf. induction new as [|[k rs] new IH]; csimpl; intros Hnd into.
  { unfold relation_in. simpl. by destruct (_ ≫= _). }
  apply NoDup_cons in Hnd as [Hk Hnd]. rewrite IH by done. clear IH. unfold relation_in. simpl.
  destruct (decide (k = sec)) as [->|Hne].
  - rewrite dget_dset_eq. cbn [mbind option_bind]. rewrite dget_merge_rels.
    apply dget_None in Hk. rewrite Hk, decide_True by done. cbn [mbind option_bind].
    destruct (dget sec into) as [d|]; cbn; [|by destruct (dget tag rs)]. destruct (dget tag d); [done|]. by destruct (dget tag rs).
  - rewrite dget_dset_ne by done. by rewrite decide_False by congruence.
Qed.

Lemma parse_profile_wf text : dwf (parse_profile text).1.
Proof.
  unfold parse_profile. simpl. assert (H : forall lines st, dwf (pf_sections st) -> dwf (pf_sections (foldl profile_line st lines))).
  { induction lines as [|l lines IH]; intros st Hst; simpl; [done|]. apply IH. clear IH. unfold profile_line, relation, change_current.
    repeat case_match; simpl; try done; (apply dset_wf || apply dsetdefault_wf); done. }
  apply H. constructor.
Qed.

Lemma relation_in_merged sec tag files : forall p0,
  relation_in (foldl merge p0 (sections_of <$> files)) sec tag =
  match relation_in p0 sec tag with Some r => Some r | None => first_relation sec tag (sections_of <$> files) end.
Proof.
  unfold first_relation. induction files as [|f files IH]; intros p0; csimpl; [by destruct (relation_in p0 sec tag)|].
  rewrite IH, relation_in_merge by apply parse_profile_wf. destruct (relation_in p0 sec tag); [done|].
  by destruct (relation_in (sections_of f) sec tag).
Qed.

(** Reading krb5.conf with its includes ends after at most 64 files, each
    readable and read once, the asked file first; a relation of the merged
    profile is the one of the first file read that has it. *)
Theorem read_krb5_conf_spec path p files (H : read_krb5_conf read listdir path = (p, files)) :
  NoDup files /\ (length files <= MAX_INCLUDES)%nat /\ Forall (fun f => is_Some (read f)) files /\
  (is_Some (read path) -> head files = Some path) /\
  (forall sec tag, relation_in p sec tag = first_relation sec tag (sections_of <$> files)).
Proof.
  assert (Hok : files_ok []) by (by split; constructor).
  destruct (read_files_spec MAX_INCLUDES [path] [] p files Hok H) as ([Hnd Hr] & -> & _ & Hlen & Hhead).
  split_and!; [done | done | done | by apply (Hhead path []) |].
  intros sec tag. unfold merged_of. by rewrite relation_in_merged.
Qed.
End Files.

(** ** The level of pqc-031 *)

Definition in_keytab (s : krb_scan) (n : string) : Prop :=
  exists kt e, kt ∈ kn_keytabs s /\ e ∈ entries_of kt /\ ke_enctype e = n.
(** Allowed by a list of krb5.conf, by a realm of the KDC, or present as a key. *)
Definition allowed (s : krb_scan) (n : string) : Prop :=
  (exists key l, (key, l) ∈ kc_lists (kn_config s) /\ n ∈ el_enctypes l) \/
  (exists k name r, kn_kdc s = Some k /\ (name, r) ∈ kdc_realms k /\ n ∈ rm_supported r) \/ in_keytab s n.

Definition summary_of (s : krb_scan) : krb_summary := krb_summarise (kn_config s) (kn_keytabs s) (kn_kdc s).

Lemma elem_of_concat_map {A B} (f : A -> list B) l x : x ∈ concat (f <$> l) <-> exists a, a ∈ l /\ x ∈ f a.
Proof.
  rewrite list_elem_of_In, in_concat. split.
  - intros (y & Hy & Hx). apply list_elem_of_In, list_elem_of_fmap in Hy as (a & -> & Ha). exists a. split; [done | by apply list_elem_of_In].
  - intros (a & Ha & Hx). exists (f a). split; [|by apply list_elem_of_In]. by apply list_elem_of_In, list_elem_of_fmap_2.
Qed.

Lemma summary_in_keytabs s n : n ∈ ks_in_keytabs (summary_of s) <-> in_keytab s n.
Proof.
  unfold summary_of, krb_summarise, in_keytab. cbn [ks_in_keytabs]. rewrite elem_of_sorted_set, list_elem_of_fmap.
  setoid_rewrite elem_of_concat_map. naive_solver.
Qed.

Lemma summary_allowed s n : n ∈ ks_allowed (summary_of s) <-> allowed s n.
Proof.
  unfold allowed. rewrite <- summary_in_keytabs. unfold summary_of, krb_summarise. cbn [ks_allowed ks_in_keytabs].
  rewrite elem_of_sorted_set, !elem_of_app, elem_of_concat_map, elem_of_sorted_set.
  assert (H1 : (exists a, a ∈ kc_lists (kn_config s) /\ n ∈ el_enctypes a.2) <->
    (exists key l, (key, l) ∈ kc_lists (kn_config s) /\ n ∈ el_enctypes l)) by 
    (split; [intros ([k l] & ? & ?); by exists k, l | intros (k & l & ? & ?); by exists (k, l)]).
  rewrite H1. destruct (kn_kdc s) as [k|].
  - rewrite elem_of_concat_map.
    assert (H2 : (exists a, a ∈ kdc_realms k /\ n ∈ rm_supported a.2) <->
      (exists k' name r, Some k = Some k' /\ (name, r) ∈ kdc_realms k' /\ n ∈ rm_supported r)).
    { split; [intros ([name r] & ? & ?); by exists k, name, r | intros (k' & name & r & [= <-] & ? & ?); by exists (name, r)]. }
    rewrite H2. tauto.
  - rewrite elem_of_nil. naive_solver.
Qed.

Lemma elem_of_status status l n : n ∈ of_status status l <-> n ∈ l /\ enctype_status n = status.
Proof. unfold of_status. by rewrite !list_elem_of_In, filter_In, String.eqb_eq. Qed.

Lemma of_status_nil status l : of_status status l = [] <-> forall n, n ∈ l -> enctype_status n <> status.
Proof.
  split.
  - intros H n Hn Hs. assert (Hin : n ∈ of_status status l) by by apply elem_of_status. rewrite H in Hin. by apply elem_of_nil in Hin.
  - intros H. destruct (of_status status l) as [|n k] eqn:E; [done|]. exfalso.
    assert (Hin : n ∈ of_status status l) by (rewrite E; by left). apply elem_of_status in Hin as [H1 H2]. by apply (H n).
Qed.

Lemma py_set_strs l : py_set (VStrs l) = Ok (VStr <$> l).
Proof.
  unfold py_set. cbn [py_iter mbind res_bind VStrs].
  assert (H : forallb hashable (VStr <$> l) = true) by (induction l; done). by rewrite H.
Qed.
Lemma join_VStrs sep l : join_strs sep (VStrs l) = Ok (str_join sep l).
Proof. unfold join_strs, VStrs. cbn [py_iter mbind res_bind]. by rewrite strs_of_VStr. Qed.

Lemma por_strs l : por (VStrs l) (VList []) = VStrs l.
Proof. by destruct l. Qed.
Lemma truthy_strs l : truthy (VStrs l) = negb (bool_decide (l = [])).
Proof. by destruct l. Qed.

(** The parts of the report that the findings read. *)
Definition report_of (s : krb_scan) (note : list (string * value)) : value := VDict (dupdate (krb_scan_value s) note).
Definition note_ok (note : list (string * value)) : Prop := Forall (fun k => k ∉ note.*1) ["available"; "config"; "summary"].

Lemma report_get s note k v : note_ok note -> k ∈ ["available"; "config"; "summary"] ->
  dget k (krb_scan_value s) = Some v -> get k (report_of s note) = Ok v.
Proof.
  intros Hn Hk Hv. unfold report_of, get, get_or. unfold note_ok in Hn. rewrite Forall_forall in Hn.
  rewrite dget_dupdate_other by by apply Hn. by rewrite Hv.
Qed.

Lemma list_sources (f : enctype_list -> value) (Hf : forall l, getitem "source" (f l) = Ok (VStr (el_source l))) (lists : list (string * enctype_list)) :
  mapM (fun kv => src ← getitem "source" kv.2; if hashable src then Ok src else Raise TypeError) ((fun kl => (kl.1, f kl.2)) <$> lists)
  = Ok ((fun kl => VStr (el_source kl.2)) <$> lists).
Proof.
  induction lists as [|kl lists IH]; [done|]. rewrite !fmap_cons. apply mapM_cons_ok. do 2 eexists.
  split; [done|]. split; [|exact IH]. cbn [snd]. by rewrite Hf.
Qed.

Lemma report_config s note : note_ok note -> get_d "config" (report_of s note) = Ok (config_value (kn_config s)).
Proof.
  intros Hn. unfold get_d. by rewrite (report_get s note "config" (config_value (kn_config s))) by first [done | set_solver].
Qed.
Lemma config_lists c : get_d "enctype_lists" (config_value c) = Ok (VDict ((fun kl => (kl.1, enctype_list_value kl.2)) <$> kc_lists c)).
Proof.
  unfold get_d. set (lists := _ <$> kc_lists c). change (get "enctype_lists" (config_value c)) with (Ok (VDict lists) : res value).
  cbn [mbind res_bind]. by destruct lists.
Qed.

Lemma weak_level s note : note_ok note -> exists parts,
  kerberos_weak (report_of s note) (krb_summary_value (summary_of s)) =
    Ok (if bool_decide (ks_deprecated (summary_of s) = []) then None else Some "warning", parts) /\
  (parts = [] <-> ks_deprecated (summary_of s) = []).
Proof.
  intros Hn. unfold kerberos_weak.
  change (get "deprecated_enctypes" (krb_summary_value (summary_of s))) with (Ok (VStrs (ks_deprecated (summary_of s))) : res value).
  change (get "enctypes_in_keytabs" (krb_summary_value (summary_of s))) with (Ok (VStrs (ks_in_keytabs (summary_of s))) : res value).
  cbn [mbind res_bind]. rewrite truthy_strs. case_bool_decide as E; [by eexists|]. cbn [negb].
  rewrite py_set_strs. cbn [mbind res_bind].
  rewrite por_strs, py_set_strs. cbn [mbind res_bind]. rewrite (report_config s note Hn). cbn [mbind res_bind].
  rewrite (config_lists (kn_config s)). cbn [mbind res_bind items].
  rewrite (list_sources enctype_list_value) by done. cbn [mbind res_bind].
  rewrite join_VStrs. cbn [mbind res_bind]. by eexists.
Qed.


Lemma bits_level s : exists parts, kerberos_128 (krb_summary_value (summary_of s)) = Ok parts /\
  (parts = [] <-> ks_128_only (summary_of s) = false /\ ks_aes128 (summary_of s) = []).
Proof.
  unfold kerberos_128, truthy_at.
  change (get "keytab_keys_128_bit_only" (krb_summary_value (summary_of s))) with (Ok (VBool (ks_128_only (summary_of s))) : res value).
  change (get "enctypes_in_keytabs" (krb_summary_value (summary_of s))) with (Ok (VStrs (ks_in_keytabs (summary_of s))) : res value).
  change (get "aes128_enctypes" (krb_summary_value (summary_of s))) with (Ok (VStrs (ks_aes128 (summary_of s))) : res value).
  cbn [mbind res_bind truthy]. destruct (ks_128_only (summary_of s)).
  - rewrite por_strs, join_VStrs. cbn [mbind res_bind]. eexists. split; [done|]. naive_solver.
  - rewrite truthy_strs. case_bool_decide as Ha; cbn [negb]; [|rewrite join_VStrs; cbn [mbind res_bind]];
      eexists; (split; [done|]); naive_solver.
Qed.

Lemma truthy_obool o : truthy (of_obool o) = bool_decide (o = Some true).
Proof. by destruct o as [[|]|]. Qed.

Definition pkinit_part (s : krb_scan) : list string :=
  if bool_decide (pkinit_classical (kc_pkinit (kn_config s)) = Some true)
  then ["PKINIT is configured with a classical identity; post-quantum PKINIT is only an individual Internet-Draft"] else [].

(** The findings of a scan: one sentence for each of the three conditions. *)
Lemma describe_scan s note : note_ok note -> exists w b,
  describe_findings (report_of s note) =
    Ok (note_if (note_if (if bool_decide (ks_deprecated (summary_of s) = []) then None else Some "warning") b) (pkinit_part s),
        w ++ b ++ pkinit_part s) /\
  (w = [] <-> ks_deprecated (summary_of s) = []) /\
  (b = [] <-> ks_128_only (summary_of s) = false /\ ks_aes128 (summary_of s) = []).
Proof.
  intros Hn. destruct (weak_level s note Hn) as (w & Hw & Hwe). destruct (bits_level s) as (b & Hb & Hbe).
  exists w, b. split; [|done]. unfold describe_findings, truthy_at, get_d.
  rewrite (report_get s note "available" (VBool true)) by first [done | set_solver]. cbn [mbind res_bind truthy negb].
  rewrite (report_get s note "summary" (krb_summary_value (summary_of s))) by first [done | set_solver]. cbn [mbind res_bind].
  change (por (krb_summary_value (summary_of s)) (VDict [])) with (krb_summary_value (summary_of s)).
  rewrite Hw. cbn [mbind res_bind]. rewrite Hb. cbn [mbind res_bind].
  change (get "pkinit_classical" (krb_summary_value (summary_of s))) with (Ok (of_obool (pkinit_classical (kc_pkinit (kn_config s)))) : res value).
  cbn [mbind res_bind]. by rewrite truthy_obool.
Qed.

Lemma only_128_spec s : ks_128_only (summary_of s) = false <->
  ((exists n, in_keytab s n) -> exists n, in_keytab s n /\ enctype_status n = "ok").
Proof.
  setoid_rewrite <- summary_in_keytabs. change (ks_128_only (summary_of s)) with
    (negb (bool_decide (ks_in_keytabs (summary_of s) = [])) && bool_decide (of_status "ok" (ks_in_keytabs (summary_of s)) = [])).
  rewrite andb_false_iff, negb_false_iff, bool_decide_eq_true, bool_decide_eq_false. set (l := ks_in_keytabs (summary_of s)).
  split.
  - intros [->|Hok] [n Hn]; [by apply elem_of_nil in Hn|]. destruct (of_status "ok" l) as [|m k] eqn:E; [done|].
    exists m. apply elem_of_status. rewrite E. by left.
  - intros H. destruct l as [|n l'] eqn:El; [by left|right]. destruct H as (m & Hm & Hs); [exists n; by left|].
    intros E. by apply (proj1 (of_status_nil "ok" (n :: l')) E m).
Qed.

(** Pqc-031 follows the configuration.  It is a warning exactly when a
    deprecated enctype is allowed by krb5.conf or the KDC or lies in a keytab;
    it is absent exactly when no such enctype is deprecated or 128-bit, the
    keytabs hold a 256-bit key or none, and PKINIT has no classical
    identity. *)
Theorem kerberos_level_spec s note (Hn : note_ok note) : exists level parts,
  describe_findings (report_of s note) = Ok (level, parts) /\
  (level = Some "warning" <-> exists n, allowed s n /\ enctype_status n = "deprecated") /\
  (level = None <->
     (forall n, allowed s n -> enctype_status n <> "deprecated" /\ enctype_status n <> "aes128") /\
     ((exists n, in_keytab s n) -> exists n, in_keytab s n /\ enctype_status n = "ok") /\
     pkinit_classical (kc_pkinit (kn_config s)) <> Some true) /\
  (parts = [] <-> level = None).
Proof.
  destruct (describe_scan s note Hn) as (w & b & Hd & Hw & Hb). do 2 eexists. split; [exact Hd|].
  assert (Hdep : ks_deprecated (summary_of s) = [] <-> forall n, allowed s n -> enctype_status n <> "deprecated").
  { setoid_rewrite <- summary_allowed. apply of_status_nil. }
  assert (Haes : ks_aes128 (summary_of s) = [] <-> forall n, allowed s n -> enctype_status n <> "aes128").
  { setoid_rewrite <- summary_allowed. apply of_status_nil. }
  assert (Hpk : pkinit_part s = [] <-> pkinit_classical (kc_pkinit (kn_config s)) <> Some true).
  { clear. unfold pkinit_part. case_bool_decide as H; [split; [intros Hf; discriminate Hf | intros Hne; by destruct Hne] | by split]. }
  rewrite only_128_spec, Haes in Hb. 
  assert (Hnone : note_if (note_if (if bool_decide (ks_deprecated (summary_of s) = []) then None else Some "warning") b) (pkinit_part s) = None
    <-> ks_deprecated (summary_of s) = [] /\ b = [] /\ pkinit_part s = []).
  { clear. case_bool_decide as E; [|split; [done | by intros [? _]]].
    destruct b, (pkinit_part s); simpl; split; try done; by intros (_ & ? & ?). }
  split_and!.
  - destruct (bool_decide_reflect (ks_deprecated (summary_of s) = [])) as [E|E].
    + split; [by destruct b, (pkinit_part s)|]. intros (n & Hn' & Hs). by destruct (proj1 Hdep E n Hn').
    + split; [intros _ | done]. destruct (ks_deprecated (summary_of s)) as [|n l] eqn:El; [done|].
      exists n. rewrite <- summary_allowed. apply (elem_of_status "deprecated").
      change (n ∈ ks_deprecated (summary_of s)). rewrite El. by left.
  - rewrite Hnone, Hdep, Hb, Hpk. clear. split; [intros (H1 & [H2 H3] & H4); split_and!; auto | intros (H1 & H2 & H3); split_and!; auto; intros n Hn; by apply H1].
  - rewrite Hnone. rewrite <- Hw. split; [intros [-> [-> ->]%app_nil]%app_nil; done | intros (-> & -> & ->); done].
Qed.

(** ** Witnesses and examples *)

Definition sample_read (path : string) : option string :=
  if String.eqb path "/etc/krb5.conf" then
    Some (str_join newline ["includedir /etc/krb5.conf.d/"; "[libdefaults]"; "  permitted_enctypes = rc4"; "[realms]"; "  EX = {"; "    kdc = k1"; "  }"])
  else if String.eqb path "/etc/krb5.conf.d/crypto-policies" then
    Some (str_join newline ["[libdefaults]"; "permitted_enctypes = aes256-sha2 aes128-sha2"])
  else None.
Definition sample_listdir (path : string) : option (list string) :=
  if String.eqb path "/etc/krb5.conf.d/" then Some ["README.txt"; "crypto-policies"] else None.

Definition sample_profile : profile := (read_krb5_conf sample_read sample_listdir KRB5_CONF).1.
Lemma sample_read_profile :
  read_krb5_conf sample_read sample_listdir KRB5_CONF = (sample_profile, ["/etc/krb5.conf"; "/etc/krb5.conf.d/crypto-policies"]).
Proof. vm_compute. reflexivity. Defined.

Lemma read_krb5_conf_spec_witness :
  relation_in sample_profile "libdefaults" "permitted_enctypes" =
    first_relation "libdefaults" "permitted_enctypes" (sections_of sample_read <$> ["/etc/krb5.conf"; "/etc/krb5.conf.d/crypto-policies"]) /\
  NoDup ["/etc/krb5.conf"; "/etc/krb5.conf.d/crypto-policies"].
Proof.
  destruct (read_krb5_conf_spec sample_read sample_listdir KRB5_CONF sample_profile _ sample_read_profile) as (H1 & _ & _ & _ & H2).
  split; [apply H2 | exact H1].
Defined.

(** The includes are read after the file that names them, so its own
    relations win even where the directive comes first. *)
Lemma include_order_example :
  relation_in sample_profile "libdefaults" "permitted_enctypes" = Some (Leaf "rc4").
Proof. vm_compute. reflexivity. Qed.

Definition no_pkinit : pkinit := Pkinit [] None false None.
Definition sample_scan (keytabs : list kt_report) : krb_scan :=
  KrbScan [KRB5_CONF] (KrbConfig None (Some (Leaf "FILE:/etc/krb5.keytab"))
    [("permitted_enctypes", EnctypeList None "configured" (expand_enctypes (Some "aes256-sha2") false))] no_pkinit) None keytabs.
Definition des_keytab : kt_report :=
  KtParsed "/etc/krb5.keytab" 2 [KtEntry "host/w1@EX" 3 "des-cbc-crc" 1 "deprecated"] [("des-cbc-crc", 1)].

Lemma kerberos_level_spec_witness : exists level parts,
  describe_findings (report_of (sample_scan [des_keytab]) []) = Ok (level, parts) /\ level = Some "warning".
Proof.
  destruct (kerberos_level_spec (sample_scan [des_keytab]) [] (ltac:(repeat constructor; apply not_elem_of_nil)))
    as (level & parts & H & Hw & _). exists level, parts. split; [exact H|]. apply Hw. exists "des-cbc-crc". split; [|reflexivity].
  right; right. exists des_keytab, (KtEntry "host/w1@EX" 3 "des-cbc-crc" 1 "deprecated"). split; [left|]. split; [left | reflexivity].
Defined.

(** A keytab with DES keys only is said to be 128-bit only. *)
Lemma des_only_example : ks_128_only (summary_of (sample_scan [des_keytab])) = true.
Proof. vm_compute. reflexivity. Qed.

(** The default keytab is scanned twice where krb5.conf names it. *)
Lemma keytab_paths_twice :
  keytab_paths (fun _ => []) (kn_config (sample_scan [])) = ["/etc/krb5.keytab"; "/etc/krb5.keytab"].
Proof. vm_compute. reflexivity. Qed.
