(* ===== verification/RpmHeader.v ===== *)
(** * Headers of the rpm database ([parse_rpm_header] of [detect/packages.py])

    The header blob: its index, its data, and the six tags that are read.
    The reader against the format: it inverts the encoder, and on arbitrary
    bytes it ends with a bounded dictionary or with [RpmdbError]. *)

From stdpp Require Import sets.
From S2P Require Import Prelude PyStr PyDict PyVal PyBytes.
From Stdlib.Strings Require Import Byte.
Open Scope Z_scope.
Definition RPMTAG_NAMES : list (Z * string) := [
  (1000, "name"); (1001, "version"); (1002, "release"); (1003, "epoch"); (1022, "arch"); (1044, "sourcerpm")].
Definition RPM_TYPE_INT32 : Z := 4.
Definition RPM_TYPE_STRING : Z := 6.
Definition RPM_TYPE_I18NSTRING : Z := 9.
Definition RPM_HEADER_MAX_TAGS : Z := 65535.
Definition RPM_HEADER_MAX_DATA : Z := 268435455.

Definition RpmdbError (msg : string) : exn := Custom "RpmdbError" msg.

(** The package a header describes: the tags that were found. *)
Abbreviation header := (list (string * value)).

(** [blob.find(b"\0", ...)] in the slice that is searched. *)
Fixpoint find_nul (l : bytes) : option Z :=
  match l with
  | [] => None
  | b :: l => if Byte.eqb b x00 then Some 0 else Z.succ <$> find_nul l
  end.

Record index_entry := IndexEntry { ie_tag : Z; ie_type : Z; ie_offset : Z }.

(** [struct.iter_unpack(">IIII", index)]. *)
Definition index_entries (index : bytes) (il : Z) : list index_entry :=
  (fun i => IndexEntry (unpack true index 4 (16 * i)) (unpack true index 4 (16 * i + 4)) (unpack true index 4 (16 * i + 8)))
    <$> seqZ 0 il.

Definition header_entry (blob : bytes) (base dl : Z) (out : header) (e : index_entry) : res header :=
  match dget (ie_tag e) RPMTAG_NAMES with
  | None => Ok out
  | Some key =>
      let tag := show_Z (ie_tag e) in
      let off := ie_offset e in
      if dl <=? off then Raise (RpmdbError ("tag " +:+ tag +:+ " offset " +:+ show_Z off +:+ " outside data (" +:+ show_Z dl +:+ ")"))
      else
        let start := base + off in
        if (ie_type e =? RPM_TYPE_STRING) || (ie_type e =? RPM_TYPE_I18NSTRING) then
          match find_nul (slice blob start (base + dl)) with
          | None => Raise (RpmdbError ("tag " +:+ tag +:+ " string not terminated"))
          | Some n => Ok (dset key (VStr (decode Utf8 (slice blob start (start + n)))) out)
          end
        else if ie_type e =? RPM_TYPE_INT32 then
          if dl <? off + 4 then Raise (RpmdbError ("tag " +:+ tag +:+ " int32 overruns data"))
          else v ← unpack_from true 4 blob start; Ok (dset key (VInt v) out)
        else Ok out
  end.

Definition parse_rpm_header (blob : bytes) : res header :=
  if blen blob <? 8 then Raise (RpmdbError "header blob shorter than its preamble")
  else
    il ← unpack_from true 4 blob 0;
    dl ← unpack_from true 4 blob 4;
    if negb ((0 <? il) && (il <=? RPM_HEADER_MAX_TAGS)) || (RPM_HEADER_MAX_DATA <? dl) then
      Raise (RpmdbError ("implausible header sizes il=" +:+ show_Z il +:+ " dl=" +:+ show_Z dl))
    else
      let base := 8 + 16 * il in
      if blen blob <? base + dl then Raise (RpmdbError "header blob truncated")
      else
        out ← foldM (header_entry blob base dl) [] (index_entries (slice blob 8 base) il);
        if negb (dmem "name" out && dmem "version" out) then Raise (RpmdbError "header has no NAME/VERSION")
        else Ok out.

(** * rpm headers against their format

    A declarative account of a header blob, and the theorem that the reader
    accepts exactly the blobs of that format and reports exactly what they
    say; the bounds of what it reports on arbitrary bytes. *)
(** ** The format *)

(** An index entry with its count, which the reader ignores. *)
Record htag := HTag { ht_entry : index_entry; ht_count : Z }.

Definition word32 (z : Z) : bytes := enc_word true 4 z.
Definition enc_htag (t : htag) : bytes :=
  word32 (ie_tag (ht_entry t)) ++ word32 (ie_type (ht_entry t)) ++ word32 (ie_offset (ht_entry t)) ++ word32 (ht_count t).
Definition enc_index (l : list htag) : bytes := concat (enc_htag <$> l).
Definition enc_header (l : list htag) (store : bytes) : bytes :=
  word32 (Z.of_nat (length l)) ++ word32 (blen store) ++ enc_index l ++ store.

Definition htag_ok (t : htag) : Prop :=
  word_ok 4 (ie_tag (ht_entry t)) /\ word_ok 4 (ie_type (ht_entry t)) /\
  word_ok 4 (ie_offset (ht_entry t)) /\ word_ok 4 (ht_count t).

Definition is_string (ty : Z) : Prop := ty = RPM_TYPE_STRING \/ ty = RPM_TYPE_I18NSTRING.

(** What an entry says: the tag's name with its value, or nothing. *)
Inductive says (store : bytes) (e : index_entry) : option (string * value) -> Prop :=
| says_other : dget (ie_tag e) RPMTAG_NAMES = None -> says store e None
| says_text key s : dget (ie_tag e) RPMTAG_NAMES = Some key -> is_string (ie_type e) ->
    holds store (ie_offset e) (s ++ [x00]) -> x00 ∉ s -> says store e (Some (key, VStr (decode Utf8 s)))
| says_int key z : dget (ie_tag e) RPMTAG_NAMES = Some key -> ie_type e = RPM_TYPE_INT32 ->
    holds store (ie_offset e) (word32 z) -> word_ok 4 z -> says store e (Some (key, VInt z))
| says_untyped key : dget (ie_tag e) RPMTAG_NAMES = Some key -> ~ is_string (ie_type e) -> ie_type e <> RPM_TYPE_INT32 ->
    ie_offset e < blen store -> says store e None.

(** The last entry of a tag wins. *)
Definition tell (out : header) (m : option (string * value)) : header :=
  match m with Some (k, v) => dset k v out | None => out end.
Definition report (ms : list (option (string * value))) : header := foldl tell [] ms.

(** [out] is what the blob says: some bytes may follow the header. *)
Definition describes (blob : bytes) (out : header) : Prop := exists index store trailing ms,
  blob = enc_header index store ++ trailing /\
  0 < Z.of_nat (length index) <= RPM_HEADER_MAX_TAGS /\
  blen store <= RPM_HEADER_MAX_DATA /\ Forall htag_ok index /\
  Forall2 (fun t m => says store (ht_entry t) m) index ms /\ out = report ms /\
  dmem "name" out = true /\ dmem "version" out = true.

(** ** One entry *)

Lemma find_nul_some l n : find_nul l = Some n <-> (exists s t, l = s ++ (x00 :: t) /\ (x00 ∉ s) /\ n = blen s).
Proof.
  revert n. induction l as [|b l IH]; intros n; cbn [find_nul].
  { split; [done|]. intros (s & t & H & _). by destruct s. }
  destruct (Byte.eqb b x00) eqn:E.
  - apply Byte.byte_dec_bl in E. subst b. split.
    + intros [= <-]. exists [], l. split_and!; [done | apply not_elem_of_nil | done].
    + intros ([|c s] & t & H & Hs & ->); [done|]. simplify_eq/=. destruct Hs. by left.
  - assert (b <> x00) as Hb by (intros ->; done). rewrite fmap_Some. split.
    + intros (m & (s & t & -> & Hs & ->)%IH & ->). exists (b :: s), t. split_and!; [done | set_solver | by rewrite blen_cons, Z.add_1_l].
    + intros ([|c s] & t & H & Hs & ->); simplify_eq/=. exists (blen s). split; [|by rewrite blen_cons, Z.add_1_l].
      apply IH. exists s, t. set_solver.
Qed.

Lemma slice_tail blob base store off : holds blob base store -> 0 <= off <= blen store ->
  slice blob (base + off) (base + blen store) = drop (Z.to_nat off) store.
Proof.
  intros (p & q & -> & ->) Hoff. unfold slice, blen in *.
  replace (Z.to_nat (Z.of_nat (length p) + off)) with (length p + Z.to_nat off)%nat by lia.
  rewrite drop_app_add, drop_app_le by lia. rewrite take_app_le by (rewrite length_drop; lia).
  apply take_ge. rewrite length_drop. lia.
Qed.

Lemma drop_holds store off s : 0 <= off <= blen store ->
  (holds store off (s ++ [x00])) <-> (exists t, drop (Z.to_nat off) store = s ++ (x00 :: t)).
Proof.
  unfold blen. intros Hoff. split.
  - intros (p & q & -> & ->). exists q. unfold blen. rewrite Nat2Z.id, drop_app_length. by rewrite <- app_assoc.
  - intros [t H]. exists (take (Z.to_nat off) store), t.
    rewrite <- app_assoc. cbn [app]. rewrite <- H, take_drop. split; [done|]. unfold blen. rewrite length_take. lia.
Qed.

Lemma is_string_true ty : (ty =? RPM_TYPE_STRING) || (ty =? RPM_TYPE_I18NSTRING) = true <-> is_string ty.
Proof. unfold is_string. lia. Qed.

(** The slice that is decoded is the text. *)
Lemma text_slice blob base store off s t : holds blob base store -> 0 <= off <= blen store ->
  drop (Z.to_nat off) store = s ++ x00 :: t -> slice blob (base + off) (base + off + blen s) = s.
Proof.
  intros Hb Hoff Hd. assert (Hs : holds store off (s ++ [x00])) by (apply drop_holds; [done | by exists t]).
  apply holds_app in Hs as [Hs _]. by apply (holds_slice blob _ s), (holds_trans blob base store).
Qed.

Lemma header_entry_exact blob base store e out out' : holds blob base store -> 0 <= ie_offset e ->
  header_entry blob base (blen store) out e = Ok out' <-> (exists m, says store e m /\ out' = tell out m).
Proof.
  intros Hb Hoff. pose proof (holds_nonneg _ _ _ Hb) as Hlen. unfold header_entry.
  destruct (dget (ie_tag e) RPMTAG_NAMES) as [key|] eqn:Hkey; cycle 1.
  { split; [intros [= <-]; exists None; split; [by constructor | done]|].
    intros (m & Hm & ->). destruct Hm; congruence || done. }
  cbv zeta. destruct (blen store <=? ie_offset e) eqn:Hin.
  { split; [done|]. intros (m & Hm & ->). destruct Hm as [|? s ? ? Hs|? z ? ? Hz|]; try congruence; try lia.
    - apply holds_nonneg in Hs. rewrite blen_app in Hs. change (blen [x00]) with 1 in Hs. pose proof (blen_nonneg s). lia.
    - apply holds_nonneg in Hz. unfold word32 in Hz. rewrite blen_enc_word in Hz by lia. lia. }
  destruct ((ie_type e =? RPM_TYPE_STRING) || _) eqn:Hty.
  - apply is_string_true in Hty. rewrite slice_tail by (done || lia).
    destruct (find_nul _) as [n|] eqn:Hn.
    + apply find_nul_some in Hn as (s & t & Hd & Hs & ->). rewrite (text_slice blob base store _ s t) by (done || lia). split.
      * intros [= <-]. exists (Some (key, VStr (decode Utf8 s))). split; [|done]. constructor; try done.
        apply drop_holds; [lia | by exists t].
      * intros (m & Hm & ->). destruct Hm as [|key' s' ? ? Hs' Hn'|? ? ? Hty'|]; try congruence.
        -- apply drop_holds in Hs' as [t' Ht']; [|lia]. rewrite Hd in Ht'.
           assert (find_nul (s ++ x00 :: t) = Some (blen s)) as H1 by (apply find_nul_some; eauto).
           assert (find_nul (s ++ x00 :: t) = Some (blen s')) as H2 by (rewrite Ht'; apply find_nul_some; eauto).
           assert (length s = length s') as Hl by (unfold blen in *; rewrite H1 in H2; injection H2; lia).
           apply app_inj_1 in Ht' as [<- _]; [|done]. simplify_eq. done.
        -- rewrite Hty' in Hty. by destruct Hty.
    + split; [done|]. intros (m & Hm & ->). destruct Hm as [|key' s' ? ? Hs' Hn'|? ? ? Hty'|]; try congruence.
      * apply drop_holds in Hs' as [t' Ht']; [|lia].
        assert (find_nul (drop (Z.to_nat (ie_offset e)) store) = Some (blen s')) by (apply find_nul_some; eauto). congruence.
      * rewrite Hty' in Hty. by destruct Hty.
  - assert (Hns : ~ is_string (ie_type e)) by (rewrite <- is_string_true, Hty; done).
    destruct (ie_type e =? RPM_TYPE_INT32) eqn:Hi.
    + apply Z.eqb_eq in Hi. destruct (blen store <? ie_offset e + 4) eqn:Hover.
      * split; [done|]. intros (m & Hm & ->). destruct Hm as [| |? z ? ? Hz|]; try congruence.
        apply holds_nonneg in Hz. unfold word32 in Hz. rewrite blen_enc_word in Hz by lia. lia.
      * rewrite unpack_from_in by lia. cbn [mbind res_bind].
        assert (Hw : holds blob (base + ie_offset e) (word32 (unpack true blob 4 (base + ie_offset e)))) by (apply holds_unpack; lia).
        assert (Hstore : unpack true blob 4 (base + ie_offset e) = unpack true store 4 (ie_offset e)).
        { apply unpack_word; [|lia|by apply word_ok_unpack]. apply (holds_trans blob base store); [done|].
          apply holds_unpack; lia. }
        rewrite Hstore. split.
        -- intros [= <-]. exists (Some (key, VInt (unpack true store 4 (ie_offset e)))). split; [|done].
           constructor; try done; [apply holds_unpack; lia | by apply word_ok_unpack].
        -- intros (m & Hm & ->). destruct Hm as [| |? z ? ? Hz Hok|]; try congruence.
           rewrite (unpack_word true store 4 _ z) by done. simplify_eq. done.
    + apply Z.eqb_neq in Hi. split.
      * intros [= <-]. exists None. split; [|done]. apply (says_untyped _ _ key); (done || lia).
      * intros (m & Hm & ->). destruct Hm; congruence || done.
Qed.

(** ** The whole blob *)

Lemma entries_exact blob base store es : holds blob base store -> Forall (fun e => 0 <= ie_offset e) es ->
  forall out out', foldM (header_entry blob base (blen store)) out es = Ok out' <->
    (exists ms, Forall2 (says store) es ms /\ out' = foldl tell out ms).
Proof.
  intros Hb. induction es as [|e es IH]; intros Hoff out out'.
  - cbn [foldM]. split; [intros [= <-]; by exists []|]. intros (ms & H & ->). by apply Forall2_nil_inv_l in H as ->.
  - apply Forall_cons in Hoff as [He Hes]. cbn [foldM]. split.
    + intros H. bind H as mid Hm. apply header_entry_exact in Hm as (m & Hm & ->); [|done..].
      apply IH in H as (ms & Hms & ->); [|done]. exists (m :: ms). split; [by constructor | done].
    + intros (ms & H & ->). apply Forall2_cons_inv_l in H as (m & ms' & Hm & Hms & ->).
      rewrite (proj2 (header_entry_exact blob base store e out (tell out m) Hb He)) by eauto.
      cbn [mbind res_bind foldl]. apply IH; [done|]. by exists ms'.
Qed.

Lemma blen_enc_htag t : blen (enc_htag t) = 16.
Proof. unfold enc_htag, word32. by rewrite !blen_app, !blen_enc_word by lia. Qed.
Lemma blen_enc_index l : blen (enc_index l) = 16 * Z.of_nat (length l).
Proof.
  induction l as [|t l IH]; [done|]. change (enc_index (t :: l)) with (enc_htag t ++ enc_index l).
  rewrite blen_app, blen_enc_htag, IH. cbn [length]. lia.
Qed.

(** The index is read back. *)
Lemma index_read l : Forall htag_ok l -> index_entries (enc_index l) (Z.of_nat (length l)) = ht_entry <$> l.
Proof.
  intros Hok. unfold index_entries. apply list_eq. intros i. rewrite !list_lookup_fmap.
  destruct (l !! i) as [t|] eqn:Ht; cycle 1.
  { apply lookup_ge_None in Ht. rewrite lookup_seqZ_ge by lia. done. }
  pose proof (lookup_lt_Some _ _ _ Ht) as Hi. rewrite lookup_seqZ_lt by lia. cbn [fmap option_fmap option_map].
  apply list_elem_of_split_length in Ht as (l1 & l2 & -> & ->).
  apply Forall_app in Hok as [_ Hok]. apply Forall_cons in Hok as [(Hk1 & Hk2 & Hk3 & _) _].
  pose proof (holds_self (enc_index (l1 ++ t :: l2))) as H. set (index := enc_index (l1 ++ t :: l2)) in *.
  unfold index at 2, enc_index in H. rewrite fmap_app, concat_app in H. change (concat (enc_htag <$> t :: l2)) with (enc_htag t ++ enc_index l2) in H. apply holds_app in H as [_ H].
  fold (enc_index l1) in H. rewrite blen_enc_index in H. apply holds_app in H as [H _].
  unfold enc_htag, word32 in H. pieces H. rewrite Z.add_0_l in *. replace (16 * Z.of_nat (length l1) + 4 + 4) with
    (16 * Z.of_nat (length l1) + 8) in * by lia.
  rewrite (unpack_word true index 4 _ (ie_tag (ht_entry t))), (unpack_word true index 4 _ (ie_type (ht_entry t))),
    (unpack_word true index 4 _ (ie_offset (ht_entry t))) by (done || lia). by destruct (ht_entry t).
Qed.

(** Whatever is there is an index: [n] entries of 16 bytes. *)
Definition entry_at (index : bytes) (i : Z) : htag :=
  HTag (IndexEntry (unpack true index 4 (16 * i)) (unpack true index 4 (16 * i + 4)) (unpack true index 4 (16 * i + 8)))
    (unpack true index 4 (16 * i + 12)).
Definition entries_at (index : bytes) (n : nat) : list htag := (fun i => entry_at index i) <$> seqZ 0 (Z.of_nat n).

Lemma entry_at_ok index i : htag_ok (entry_at index i).
Proof. split_and!; by apply word_ok_unpack. Qed.

Lemma holds_entry_at index i : 0 <= i -> 16 * i + 16 <= blen index -> holds index (16 * i) (enc_htag (entry_at index i)).
Proof.
  intros Hi Hl. unfold enc_htag, entry_at, word32. cbn [ht_entry ht_count ie_tag ie_type ie_offset].
  assert (Hw : forall k, 0 <= k -> k <= 12 -> holds index (16 * i + k) (enc_word true 4 (unpack true index 4 (16 * i + k))))
    by (intros k ? ?; apply holds_unpack; lia).
  pose proof (Hw 0 ltac:(lia) ltac:(lia)) as H0. rewrite Z.add_0_r in H0.
  apply holds_join; [done|]. rewrite blen_enc_word by lia.
  apply holds_join; [by apply Hw|]. rewrite blen_enc_word, <- Z.add_assoc by lia.
  apply holds_join; [by apply Hw|]. rewrite blen_enc_word, <- Z.add_assoc by lia. by apply Hw.
Qed.

Lemma index_of_bytes index n : blen index = 16 * Z.of_nat n -> index = enc_index (entries_at index n).
Proof.
  intros Hlen. assert (H : forall m, (m <= n)%nat -> holds index 0 (enc_index (entries_at index m))).
  { induction m as [|m IH]; intros Hm; [exists [], index; done|].
    unfold entries_at. rewrite seqZ_S, fmap_app. unfold enc_index. rewrite fmap_app, concat_app.
    cbn [fmap list_fmap concat]. rewrite app_nil_r. fold (entries_at index m). fold (enc_index (entries_at index m)).
    apply holds_join; [apply IH; lia|]. rewrite blen_enc_index. unfold entries_at. rewrite length_fmap, length_seqZ, Nat2Z.id.
    apply holds_entry_at; lia. }
  specialize (H n ltac:(done)). apply (holds_inj index 0); [apply holds_whole | done|].
  rewrite blen_enc_index. unfold entries_at. rewrite length_fmap, length_seqZ. lia.
Qed.

Lemma offsets_ok l : Forall htag_ok l -> Forall (fun e => 0 <= ie_offset e) (ht_entry <$> l).
Proof. intros H. apply Forall_fmap, (Forall_impl _ _ _ H). intros t (_ & _ & Ht & _). apply Ht. Qed.

(** ** The blob *)

Lemma parse_of_doc index store trailing :
  0 < Z.of_nat (length index) <= RPM_HEADER_MAX_TAGS -> blen store <= RPM_HEADER_MAX_DATA -> Forall htag_ok index ->
  let blob := enc_header index store ++ trailing in
  let base := 8 + 16 * Z.of_nat (length index) in
  holds blob base store /\
  parse_rpm_header blob =
    (out ← foldM (header_entry blob base (blen store)) [] (ht_entry <$> index);
     if negb (dmem "name" out && dmem "version" out) then Raise (RpmdbError "header has no NAME/VERSION") else Ok out).
Proof.
  intros Hn Hd Hok. cbv zeta. pose proof (holds_self (enc_header index store ++ trailing)) as H.
  set (blob := enc_header index store ++ trailing) in *. unfold blob at 2, enc_header, word32 in H. rewrite <- !app_assoc in H.
  assert (Hlen : blen blob = 8 + 16 * Z.of_nat (length index) + blen store + blen trailing).
  { unfold blob, enc_header, word32. rewrite !blen_app, !blen_enc_word, blen_enc_index by lia. lia. }
  pose proof (blen_nonneg store). pose proof (blen_nonneg trailing).
  apply holds_app in H as [Hil H]. rewrite blen_enc_word in H by lia.
  apply holds_app in H as [Hdl H]. rewrite blen_enc_word in H by lia.
  apply holds_app in H as [Hi H]. rewrite blen_enc_index in H. apply holds_app in H as [Hs _].
  replace (0 + 4 + 4) with 8 in * by lia. split; [done|].
  unfold parse_rpm_header. replace (blen blob <? 8) with false by lia.
  unfold RPM_HEADER_MAX_TAGS, RPM_HEADER_MAX_DATA in *.
  rewrite (unpack_from_word true blob 4 0 (Z.of_nat (length index))) by (done || (unfold word_ok; lia)). cbn [mbind res_bind].
  rewrite (unpack_from_word true blob 4 4 (blen store)) by (done || (unfold word_ok; lia)). cbn [mbind res_bind].
  replace (negb _ || _) with false by lia. replace (blen blob <? _) with false by lia.
  apply holds_slice in Hi. rewrite blen_enc_index in Hi. rewrite Hi, index_read by done. done.
Qed.

Lemma header_iff blob out : parse_rpm_header blob = Ok out <-> describes blob out.
Proof.
  split.
  - unfold parse_rpm_header. destruct (blen blob <? 8) eqn:E8; [done|].
    rewrite !unpack_from_in by lia. cbn [mbind res_bind].
    set (il := unpack true blob 4 0). set (dl := unpack true blob 4 4).
    pose proof (unpack_range true blob 4 4) as Hdl. fold dl in Hdl.
    destruct (negb _ || _) eqn:Eb; [done|]. destruct (blen blob <? 8 + 16 * il + dl) eqn:Et; [done|]. intros H.
    set (base := 8 + 16 * il) in *. set (idx := slice blob 8 base) in *.
    assert (Hidx : blen idx = 16 * Z.of_nat (Z.to_nat il)) by (unfold idx; rewrite slice_length; lia).
    set (index := entries_at idx (Z.to_nat il)). set (store := slice blob base (base + dl)).
    assert (Hlen : length index = Z.to_nat il) by (unfold index, entries_at; rewrite length_fmap, length_seqZ; lia).
    assert (Hstore : blen store = dl) by (unfold store; rewrite slice_length; lia).
    assert (Hok : Forall htag_ok index) by (apply Forall_fmap, Forall_forall; intros; apply entry_at_ok).
    assert (Hblob : blob = enc_header index store ++ drop (Z.to_nat (base + dl)) blob).
    { unfold enc_header, word32. rewrite Hlen, Hstore, Z2Nat.id by lia. unfold index. rewrite <- index_of_bytes by done.
      apply (holds_inj blob 0); [apply holds_whole| |].
      - rewrite <- !app_assoc. apply holds_join; [apply holds_unpack; lia|]. rewrite blen_enc_word by lia.
        apply holds_join; [apply holds_unpack; lia|]. rewrite blen_enc_word by lia.
        apply holds_join; [apply holds_of_slice; lia|]. rewrite Hidx. replace (0 + 4 + 4 + _) with base by lia.
        apply holds_join; [apply holds_of_slice; lia|]. rewrite Hstore. exists (take (Z.to_nat (base + dl)) blob), [].
        rewrite app_nil_r, take_drop. split; [done|]. unfold blen in *. rewrite length_take. lia.
      - rewrite !blen_app, !blen_enc_word, Hidx, Hstore by lia. unfold blen in *. rewrite length_drop. lia. }
    bind H as o Ho. destruct (negb (dmem "name" o && dmem "version" o)) eqn:En; [done|]. injection H as ->.
    assert (Hes : index_entries idx il = ht_entry <$> index).
    { unfold index_entries, index, entries_at. rewrite <- list_fmap_compose, Z2Nat.id by lia. done. }
    rewrite Hes, <- Hstore in Ho. apply entries_exact in Ho as (ms & Hms & ->).
    + rewrite negb_false_iff, andb_true_iff in En. exists index, store, (drop (Z.to_nat (base + dl)) blob), ms.
      split_and!; try done; try lia; try apply En. apply (Forall2_fmap_l ht_entry) in Hms. exact Hms.
    + apply holds_of_slice; lia.
    + by apply offsets_ok.
  - intros (index & store & trailing & ms & -> & Hn & Hd & Hok & Hms & -> & Hname & Hversion).
    destruct (parse_of_doc index store trailing Hn Hd Hok) as [Hs ->].
    rewrite (proj2 (entries_exact _ _ _ _ Hs (offsets_ok _ Hok) [] (report ms))).
    + cbn [mbind res_bind]. by rewrite Hname, Hversion.
    + exists ms. split; [by apply (Forall2_fmap_l ht_entry) | done].
Qed.

(** C13: the header reader decides rpm's header format. It returns a
    dictionary exactly when the blob is a header (preamble, index and data
    store, with anything after them) whose known tags all point at what
    their type says, inside the store, and which names the package and its
    version; and the dictionary is what those tags say. *)
Theorem parse_rpm_header_exact blob out : parse_rpm_header blob = Ok out <-> describes blob out.
Proof. apply header_iff. Qed.

(** ** Arbitrary bytes *)

Definition rpmdb_error (e : exn) : Prop := exists msg, e = RpmdbError msg.

(** A field of the report: one of the six names, a text or a 32-bit number. *)
Definition field_ok (kv : string * value) : Prop :=
  kv.1 ∈ RPMTAG_NAMES.*2 /\ ((exists s, kv.2 = VStr s) \/ exists z, kv.2 = VInt z /\ word_ok 4 z).
Definition header_ok (out : header) : Prop := dwf out /\ Forall field_ok out.

Lemma dget_elem {K A} `{EqDecision K} (k : K) (v : A) d : dget k d = Some v -> v ∈ d.*2.
Proof. induction d as [|[k' v'] d IH]; simpl; [done|]. case_decide; [intros [= ->]; by left | right; auto]. Qed.

Lemma dset_field k v out : field_ok (k, v) -> header_ok out -> header_ok (dset k v out).
Proof.
  intros Hf [Hw Hall]. split; [by apply dset_wf|]. clear Hw. induction Hall as [|[k' v'] out Hx Hout IH]; simpl.
  - by apply Forall_singleton.
  - case_decide; subst; by constructor.
Qed.

Lemma header_entry_safe blob base dl e out : 0 <= base -> base + dl <= blen blob -> 0 <= ie_offset e -> header_ok out ->
  safe rpmdb_error header_ok (header_entry blob base dl out e).
Proof.
  intros Hb Hl Ho Hout. unfold header_entry. destruct (dget (ie_tag e) RPMTAG_NAMES) as [key|] eqn:Hk; [|done].
  apply dget_elem in Hk. cbv zeta. destruct (dl <=? _) eqn:E1; [by eexists|]. destruct (_ || _).
  - destruct (find_nul _); [|by eexists]. apply dset_field; [|done]. split; [done|]. left. by eexists.
  - destruct (_ =? _); [|done]. destruct (dl <? _) eqn:E2; [by eexists|]. rewrite unpack_from_in by lia. cbn [mbind res_bind safe].
    apply dset_field; [|done]. split; [done|]. right. eexists. split; [done|]. by apply word_ok_unpack.
Qed.

Lemma header_safe blob :
  safe rpmdb_error (fun out => header_ok out /\ dmem "name" out = true /\ dmem "version" out = true) (parse_rpm_header blob).
Proof.
  unfold parse_rpm_header. destruct (blen blob <? 8) eqn:E8; [by eexists|].
  rewrite !unpack_from_in by lia. cbn [mbind res_bind]. destruct (negb _ || _) eqn:Eb; [by eexists|]. cbv zeta.
  destruct (blen blob <? 8 + 16 * unpack true blob 4 0 + unpack true blob 4 4) eqn:Et; [by eexists|].
  apply (safe_bind _ header_ok).
  - apply safe_foldM; [split; [apply NoDup_nil_2 | constructor]|]. intros out e He Hout. apply header_entry_safe; try done; try lia.
    apply list_elem_of_fmap in He as (i & -> & _). cbn [ie_offset]. by apply unpack_range.
  - intros out Hout. destruct (negb (dmem "name" out && _)) eqn:En; [by eexists|].
    rewrite negb_false_iff, andb_true_iff in En. by split.
Qed.

(** On arbitrary bytes the header reader ends, with [RpmdbError] or with
    a dictionary that has each of the six fields at most once, each a text
    or an unsigned 32-bit number, the name and the version among them: no
    read leaves the blob, so [struct.error] never escapes. *)
Theorem parse_rpm_header_safe blob :
  safe rpmdb_error (fun out => header_ok out /\ dmem "name" out = true /\ dmem "version" out = true) (parse_rpm_header blob).
Proof. apply header_safe. Qed.

(** A name of the wrong type is reported as a number. *)
Example int_name_example :
  parse_rpm_header (enc_header [HTag (IndexEntry 1000 4 0) 1; HTag (IndexEntry 1001 6 4) 1] [x00; x00; x00; x2a; x31; x00])
  = Ok [("name", VInt 42); ("version", VStr "1")].
Proof. vm_compute. reflexivity. Qed.
