(* ===== verification/RpmBlobs.v ===== *)
(** * The ndb and Berkeley DB readers of [detect/packages.py]

    Both walk the database file with positional reads and give each package
    header to the caller as they find it: the generators are folds over a
    caller's function.  The file is the function [pread]; its size, which
    the code asks for first, is an argument of its own. *)

From S2P Require Import Prelude PyStr PyDict PyVal PyBytes Der RpmHeader Boot.
From Stdlib.Strings Require Import Byte.
Open Scope Z_scope.

Definition NDB_PAGE : Z := 4096.
Definition NDB_SLOT : Z := 16.
Definition NDB_BLK : Z := 16.
Definition NDB_HEADER : Z := 32.
Definition NDB_BLOBHEAD : Z := 16.
Definition NDB_BLOBTAIL : Z := 12.
Definition NDB_MAX_SLOTNPAGES : Z := 4294967295 / (NDB_PAGE / NDB_BLK).
Definition NDB_MAGIC : bytes := [x52; x70; x6d; x50].
Definition SLOT_MAGIC : bytes := [x53; x6c; x6f; x74].
Definition BLOB_START : bytes := [x42; x6c; x62; x53].
Definition BLOB_END : bytes := [x42; x6c; x62; x45].

(** [zlib.adler32]. *)
Definition adler_step (ab : Z * Z) (x : byte) : Z * Z :=
  let a := (ab.1 + bval x) mod 65521 in (a, (ab.2 + a) mod 65521).
Definition adler32 (data : bytes) : Z := let '(a, b) := foldl adler_step (1, 0) data in b * 65536 + a.

(** A loop that yields at most one value per turn, to the function of the
    caller: [f] is the turn, [None] stands for [continue]. *)
Definition yields {A X} (emit : A -> bytes -> res A) (f : X -> res (option bytes)) (acc : A) (x : X) : res A :=
  o ← f x; match o with Some b => emit acc b | None => Ok acc end.

Section Readers.
Context (pread : Z -> Z -> res bytes).

Definition pread_exact (length offset : Z) : res bytes :=
  data ← pread length offset;
  if negb (blen data =? length) then
    Raise (RpmdbError ("short read: " +:+ show_Z (blen data) +:+ " of " +:+ show_Z length +:+ " bytes at " +:+ show_Z offset))
  else Ok data.

(** ** ndb *)

(** One slot, and the blob it points at.  [zlib]: the module is there. *)
Definition ndb_blob (zlib : bool) (pkgidx blkoff blkcnt : Z) : res bytes :=
  region ← pread_exact (blkcnt * NDB_BLK) (blkoff * NDB_BLK);
  _ ← need region 0 16;
  let len := unpack false region 4 12 in
  let want := (NDB_BLOBHEAD + len + NDB_BLOBTAIL + NDB_BLK - 1) / NDB_BLK in
  let where_ := " for package index " +:+ show_Z pkgidx in
  if negb (bool_decide (slice region 0 4 = BLOB_START)) || negb (unpack false region 4 4 =? pkgidx) || negb (blkcnt =? want)
  then Raise (RpmdbError ("bad ndb blob" +:+ where_))
  else
    let tail := blen region - NDB_BLOBTAIL in
    if negb (bool_decide (slice region (tail + 8) (tail + 12) = BLOB_END)) || negb (unpack false region 4 (tail + 4) =? len)
    then Raise (RpmdbError ("bad ndb blob trailer" +:+ where_))
    else if zlib && negb (adler32 (slice region 0 tail) =? unpack false region 4 tail)
    then Raise (RpmdbError ("ndb blob checksum mismatch" +:+ where_))
    else Ok (slice region NDB_BLOBHEAD (NDB_BLOBHEAD + len)).

Definition ndb_slot (zlib : bool) (fileblks minblkoff : Z) (slots : bytes) (off : Z) : res (option bytes) :=
  _ ← need slots off 16;
  if negb (bool_decide (slice slots off (off + 4) = SLOT_MAGIC))
  then Raise (RpmdbError ("bad ndb slot magic at offset " +:+ show_Z off))
  else
    let pkgidx := unpack false slots 4 (off + 4) in
    let blkoff := unpack false slots 4 (off + 8) in
    let blkcnt := unpack false slots 4 (off + 12) in
    if blkoff =? 0 then Ok None
    else if (pkgidx =? 0) || (blkoff <? minblkoff) || (fileblks <? blkoff + blkcnt)
    then Raise (RpmdbError ("bad ndb slot at offset " +:+ show_Z off))
    else Some <$> ndb_blob zlib pkgidx blkoff blkcnt.

Definition iter_ndb_blobs {A} (emit : A -> bytes -> res A) (zlib : bool) (size : Z) (acc : A) : res A :=
  head ← pread_exact NDB_HEADER 0;
  let version := unpack false head 4 4 in
  let slotnpages := unpack false head 4 12 in
  if negb (bool_decide (slice head 0 4 = NDB_MAGIC)) then Raise (RpmdbError "not an ndb database")
  else if negb (version =? 0) then Raise (RpmdbError ("unsupported ndb version " +:+ show_Z version))
  else if negb (size mod NDB_BLK =? 0) || negb ((0 <? slotnpages) && (slotnpages <=? NDB_MAX_SLOTNPAGES))
  then Raise (RpmdbError "implausible ndb file size or slot page count")
  else if size <? slotnpages * NDB_PAGE then Raise (RpmdbError "ndb file shorter than its slot pages")
  else
    slots ← pread_exact (slotnpages * NDB_PAGE) 0;
    foldM (yields emit (ndb_slot zlib (size / NDB_BLK) (slotnpages * (NDB_PAGE / NDB_BLK)) slots)) acc
      (py_range NDB_HEADER (blen slots) NDB_SLOT).

(** ** Berkeley DB *)

Definition BDB_HASH_MAGIC : Z := 398689. (* 0x00061561 *)
Definition BDB_PAGE_TYPES_HASH : list Z := [2; 13].
Definition BDB_PAGE_OVERFLOW : Z := 7.
Definition BDB_ITEM_KEYDATA : Z := 1.
Definition BDB_ITEM_OFFPAGE : Z := 3.
Definition BDB_PAGE_HEADER : Z := 26.

(** What the meta page says. *)
Record bdb_meta := BdbMeta {
  bm_big : bool; bm_version : Z; bm_pagesize : Z; bm_lastpage : Z; bm_maxbucket : Z; bm_spares : list Z }.

Definition read_meta (size : Z) : res bdb_meta :=
  meta ← pread_exact 512 0;
  big ← (if unpack false meta 4 12 =? BDB_HASH_MAGIC then Ok false
         else if unpack true meta 4 12 =? BDB_HASH_MAGIC then Ok true
         else Raise (RpmdbError "not a Berkeley DB hash database"));
  let m := BdbMeta big (unpack big meta 4 16) (unpack big meta 4 20) (unpack big meta 4 32) (unpack big meta 4 72)
             ((fun i => unpack big meta 4 (96 + 4 * i)) <$> seqZ 0 32) in
  let ps := bm_pagesize m in
  if negb ((8 <=? bm_version m) && (bm_version m <=? 10))
  then Raise (RpmdbError ("unsupported Berkeley DB hash version " +:+ show_Z (bm_version m)))
  else if (ps <? 512) || (65536 <? ps) || negb (Z.land ps (ps - 1) =? 0)
  then Raise (RpmdbError ("implausible Berkeley DB page size " +:+ show_Z ps))
  else if size <? (bm_lastpage m + 1) * ps then Raise (RpmdbError "Berkeley DB file shorter than its last page")
  else if bm_lastpage m <? bm_maxbucket m then Raise (RpmdbError ("implausible bucket count " +:+ show_Z (bm_maxbucket m)))
  else Ok m.

Section Walk.
Context (m : bdb_meta).
Let big := bm_big m.
Let pagesize := bm_pagesize m.

Definition page (pgno : Z) : res bytes :=
  if negb ((0 <? pgno) && (pgno <=? bm_lastpage m)) then Raise (RpmdbError ("page " +:+ show_Z pgno +:+ " out of range"))
  else
    pg ← pread_exact pagesize (pgno * pagesize);
    n ← unpack_from big 4 pg 8;
    if negb (n =? pgno) then Raise (RpmdbError ("page " +:+ show_Z pgno +:+ " carries the wrong page number")) else Ok pg.

(** Every turn of a chain visits a page that was not seen before. *)
Definition chain_fuel : nat := S (Z.to_nat (bm_lastpage m)).

Fixpoint overflow_loop (fuel : nat) (total : Z) (seen : list Z) (out : bytes) (pgno : Z) : res bytes :=
  if total <=? blen out then Ok out
  else
    match fuel with
    | O => Raise out_of_fuel
    | S fuel =>
        if bool_decide (pgno ∈ seen) then Raise (RpmdbError ("overflow chain loops at page " +:+ show_Z pgno))
        else
          pg ← page pgno;
          kind ← byte_at pg 25;
          if negb (kind =? BDB_PAGE_OVERFLOW) then Raise (RpmdbError ("page " +:+ show_Z pgno +:+ " is not an overflow page"))
          else
            used ← unpack_from big 2 pg 22;
            if (used =? 0) || (pagesize <? used + BDB_PAGE_HEADER) || (total <? blen out + used)
            then Raise (RpmdbError ("bad overflow length on page " +:+ show_Z pgno))
            else
              next ← unpack_from big 4 pg 16;
              overflow_loop fuel total (pgno :: seen) (out ++ slice pg BDB_PAGE_HEADER (BDB_PAGE_HEADER + used)) next
    end.

Definition overflow (pgno total : Z) : res bytes :=
  if total <=? 0 then Raise (RpmdbError "empty overflow item") else overflow_loop chain_fuel total [] [] pgno.

Definition item (pg : bytes) (off length : Z) : res bytes :=
  if (length <=? 0) || (pagesize <? off + length) then Raise (RpmdbError "hash item outside its page")
  else
    kind ← byte_at pg off;
    if kind =? BDB_ITEM_KEYDATA then Ok (slice pg (off + 1) (off + length))
    else if (kind =? BDB_ITEM_OFFPAGE) && (length =? 12) then
      _ ← need pg (off + 4) 8;
      overflow (unpack big pg 4 (off + 4)) (unpack big pg 4 (off + 8))
    else Raise (RpmdbError ("unsupported hash item type " +:+ show_Z kind)).

(** The entry at the even index [idx]: a key and its value. *)
Definition hash_entry (pgno : Z) (pg : bytes) (idx : Z) : res (option bytes) :=
  let off i := unpack big pg 2 (BDB_PAGE_HEADER + 2 * i) in
  let koff := off idx in
  let voff := off (idx + 1) in
  let kend := if idx =? 0 then pagesize else off (idx - 1) in
  if negb ((voff <? koff) && (koff <? kend) && (kend <=? pagesize))
  then Raise (RpmdbError ("page " +:+ show_Z pgno +:+ " entry " +:+ show_Z idx +:+ " overlaps"))
  else
    key ← item pg koff (kend - koff);
    if negb (blen key =? 4) || (unpack big key 4 0 =? 0) then Ok None
    else Some <$> item pg voff (koff - voff).

(** One hash page and how many offsets it has. *)
Definition hash_header (pgno : Z) : res (bytes * Z) :=
  pg ← page pgno;
  kind ← byte_at pg 25;
  if negb (bool_decide (kind ∈ BDB_PAGE_TYPES_HASH)) then Raise (RpmdbError ("page " +:+ show_Z pgno +:+ " is not a hash page"))
  else
    nent ← unpack_from big 2 pg 20;
    if (pagesize - BDB_PAGE_HEADER) / 2 <? nent
    then Raise (RpmdbError ("page " +:+ show_Z pgno +:+ " claims " +:+ show_Z nent +:+ " entries"))
    else _ ← need pg BDB_PAGE_HEADER (2 * nent); Ok (pg, nent).

(** The entries of the page, and the page that follows it. *)
Definition hash_page {A} (emit : A -> bytes -> res A) (pgno : Z) (acc : A) : res (A * Z) :=
  '(pg, nent) ← hash_header pgno;
  acc ← foldM (yields emit (hash_entry pgno pg)) acc (py_range 0 (nent - 1) 2);
  next ← unpack_from big 4 pg 16;
  Ok (acc, next).

Fixpoint bucket_loop {A} (emit : A -> bytes -> res A) (fuel : nat) (visited : list Z) (acc : A) (pgno : Z) : res (A * list Z) :=
  if pgno =? 0 then Ok (acc, visited)
  else
    match fuel with
    | O => Raise out_of_fuel
    | S fuel =>
        if bool_decide (pgno ∈ visited) then Raise (RpmdbError ("bucket chain loops at page " +:+ show_Z pgno))
        else
          '(acc, next) ← hash_page emit pgno acc;
          bucket_loop emit fuel (pgno :: visited) acc next
    end.

Definition bucket {A} (emit : A -> bytes -> res A) (st : A * list Z) (b : Z) : res (A * list Z) :=
  match bm_spares m !! Z.to_nat (bit_length b) with
  | None => Raise IndexError
  | Some spare => bucket_loop emit chain_fuel st.2 st.1 (b + spare)
  end.
End Walk.

Definition iter_bdb_hash_values {A} (emit : A -> bytes -> res A) (size : Z) (acc : A) : res A :=
  m ← read_meta size;
  '(acc, _) ← foldM (bucket m emit) (acc, []) (seqZ 0 (bm_maxbucket m + 1));
  Ok acc.
End Readers.
