(* ===== verification/RpmBlobsTheory.v ===== *)
(** * The ndb and Berkeley DB readers against their formats

    Declarative accounts of both files, and the theorems that the readers
    accept exactly the files of the format and hand over exactly the blobs
    they hold, whatever the caller does with them. *)

From stdpp Require Import sets.
From S2P Require Import Prelude PyStr PyDict PyVal PyBytes Der RpmHeader RpmBlobs Boot.
From Stdlib.Strings Require Import Byte.
Open Scope Z_scope.
(** ** Generators *)

Lemma yields_exact {A X} (emit : A -> bytes -> res A) (f : X -> res (option bytes)) l : forall acc acc',
  foldM (yields emit f) acc l = Ok acc' <-> (exists ms, mapM f l = Ok ms /\ foldM emit acc (omap id ms) = Ok acc').
Proof.
  induction l as [|x l IH]; intros acc acc'.
  - split; [intros H; by exists []|]. by intros (ms & [= <-] & H).
  - cbn [foldM]. split.
    + intros H. bind H as mid Hm. apply IH in H as (ms & Hms & H). unfold yields in Hm. bind Hm as o Ho. exists (o :: ms).
      split; [apply mapM_cons_ok; eauto|]. cbn. destruct o as [b|]; [|by simplify_eq].
      cbn [id foldM]. by rewrite Hm.
    + intros (ms & Hms & H). apply mapM_cons_ok in Hms as (o & ms' & -> & Ho & Hms).
      assert (Hy : yields emit f acc x = match o with Some b => emit acc b | None => Ok acc end) by (unfold yields; by rewrite Ho).
      rewrite Hy. destruct o as [b|]; cbn in H.
      * bind H as mid Hm. rewrite Hm. cbn [mbind res_bind]. apply IH. eauto.
      * apply IH. eauto.
Qed.

Lemma mapM_Forall2 {X Y} (f : X -> res Y) (R : X -> Y -> Prop) l ms :
  Forall (fun x => forall y, f x = Ok y <-> R x y) l -> mapM f l = Ok ms <-> Forall2 R l ms.
Proof.
  intros H. revert ms. induction H as [|x l Hx Hl IH]; intros ms.
  - split; [intros [= <-]; constructor | by intros ->%Forall2_nil_inv_l].
  - rewrite mapM_cons_ok. split.
    + intros (y & ys & -> & Hy & Hys). constructor; [by apply Hx | by apply IH].
    + intros (y & ys & Hy & Hys & ->)%Forall2_cons_inv_l. exists y, ys. split_and!; [done | by apply Hx | by apply IH].
Qed.

(** ** Positional reads of a file that holds [data] *)

Definition pread_of (data : bytes) (n off : Z) : res bytes := Ok (slice data off (off + n)).

Lemma pread_exact_of data n off b : 0 < n -> 0 <= off ->
  pread_exact (pread_of data) n off = Ok b <-> holds data off b /\ blen b = n.
Proof.
  intros Hn Ho. unfold pread_exact, pread_of. cbn [mbind res_bind].
  destruct (blen (slice data off (off + n)) =? n) eqn:E; cbn [negb].
  - apply Z.eqb_eq in E. assert (Hl : off + n <= blen data).
    { unfold slice, blen in *. rewrite length_take, length_drop in E. lia. }
    pose proof (holds_of_slice data off (off + n) Ho ltac:(lia) Hl) as Hs. split.
    + intros [= <-]. done.
    + intros [Hb Hlen]. f_equal. apply (holds_inj data off); congruence.
  - split; [done|]. intros [Hb Hlen]. apply Z.eqb_neq in E. destruct E. rewrite <- Hlen. by rewrite (holds_slice data off b).
Qed.

Lemma pread_exact_len pread n off b : pread_exact pread n off = Ok b -> blen b = n.
Proof. unfold pread_exact. intros H. bind H as d Hd. destruct (blen d =? n) eqn:E; cbn [negb] in H; [|done]. simplify_eq. lia. Qed.

(** ** ndb *)

Definition le32 (z : Z) : bytes := enc_word false 4 z.
Definition enc_blob_body (pkgidx gen : Z) (blob pad : bytes) : bytes :=
  BLOB_START ++ le32 pkgidx ++ le32 gen ++ le32 (blen blob) ++ blob ++ pad.
Definition enc_blob (pkgidx gen : Z) (blob pad : bytes) (adler : Z) : bytes :=
  enc_blob_body pkgidx gen blob pad ++ le32 adler ++ le32 (blen blob) ++ BLOB_END.

(** The blob region of [blkcnt] blocks at block [blkoff]: the padding fills
    the last block. *)
Definition blob_at (zlib : bool) (data : bytes) (pkgidx blkoff blkcnt : Z) (blob : bytes) : Prop := exists gen pad adler,
  holds data (blkoff * NDB_BLK) (enc_blob pkgidx gen blob pad adler) /\
  blen (enc_blob pkgidx gen blob pad adler) = blkcnt * NDB_BLK /\ blen pad < NDB_BLK /\
  word_ok 4 gen /\ word_ok 4 (blen blob) /\ word_ok 4 adler /\
  (zlib = true -> adler = adler32 (enc_blob_body pkgidx gen blob pad)).

Definition enc_slot (pkgidx blkoff blkcnt : Z) : bytes := SLOT_MAGIC ++ le32 pkgidx ++ le32 blkoff ++ le32 blkcnt.
Inductive slot_says (zlib : bool) (data : bytes) (fileblks minblkoff : Z) (slots : bytes) (off : Z) : option bytes -> Prop :=
| slot_free pkgidx blkcnt : holds slots off (enc_slot pkgidx 0 blkcnt) -> word_ok 4 pkgidx -> word_ok 4 blkcnt ->
    slot_says zlib data fileblks minblkoff slots off None
| slot_used pkgidx blkoff blkcnt blob : holds slots off (enc_slot pkgidx blkoff blkcnt) ->
    word_ok 4 pkgidx -> word_ok 4 blkoff -> word_ok 4 blkcnt -> pkgidx <> 0 -> blkoff <> 0 ->
    minblkoff <= blkoff -> blkoff + blkcnt <= fileblks -> blob_at zlib data pkgidx blkoff blkcnt blob ->
    slot_says zlib data fileblks minblkoff slots off (Some blob).

Definition enc_ndb_head (gen slotnpages : Z) : bytes := NDB_MAGIC ++ le32 0 ++ le32 gen ++ le32 slotnpages.

(** [blobs] are the packages of the file, in slot order. *)
Definition ndb_file (zlib : bool) (data : bytes) (blobs : list bytes) : Prop := exists gen slotnpages slots ms,
  holds data 0 (enc_ndb_head gen slotnpages) /\ word_ok 4 gen /\ 0 < slotnpages <= NDB_MAX_SLOTNPAGES /\
  blen data mod NDB_BLK = 0 /\ holds data 0 slots /\ blen slots = slotnpages * NDB_PAGE /\
  Forall2 (slot_says zlib data (blen data / NDB_BLK) (slotnpages * (NDB_PAGE / NDB_BLK)) slots)
    (py_range NDB_HEADER (blen slots) NDB_SLOT) ms /\
  blobs = omap id ms.

Lemma blen_enc_blob pkgidx gen blob pad adler :
  blen (enc_blob_body pkgidx gen blob pad) = 16 + blen blob + blen pad /\
  blen (enc_blob pkgidx gen blob pad adler) = 28 + blen blob + blen pad.
Proof.
  unfold enc_blob, enc_blob_body, le32. rewrite !blen_app, !blen_enc_word by lia.
  change (blen BLOB_START) with 4. change (blen BLOB_END) with 4. lia.
Qed.

(** The fields of a region that lies in the file. *)
Lemma blob_fields region pkgidx gen blob pad adler : region = enc_blob pkgidx gen blob pad adler ->
  let tail := 16 + blen blob + blen pad in
  holds region 0 BLOB_START /\ holds region 4 (le32 pkgidx) /\ holds region 12 (le32 (blen blob)) /\ holds region 16 blob /\
  holds region 0 (enc_blob_body pkgidx gen blob pad) /\ holds region tail (le32 adler) /\
  holds region (tail + 4) (le32 (blen blob)) /\ holds region (tail + 8) BLOB_END.
Proof.
  intros ->. cbv zeta. pose proof (holds_self (enc_blob pkgidx gen blob pad adler)) as H.
  destruct (blen_enc_blob pkgidx gen blob pad adler) as [Hbody _].
  set (region := enc_blob pkgidx gen blob pad adler) in *. unfold region at 2, enc_blob in H. 
  apply holds_app in H as [Hb H]. rewrite Hbody in H. unfold le32 in H. pieces H. pose proof Hb as Hbody'.
  unfold enc_blob_body, le32 in Hb. apply holds_app in Hb as [Hm Hb]. pieces Hb.
  change (blen BLOB_START) with 4 in *. rewrite Z.add_0_l in *. replace (16 + blen blob + blen pad + 8) with (16 + blen blob + blen pad + 4 + 4) by lia.
  split_and!; done.
Qed.

Lemma blob_want blob pad blkcnt pkgidx gen adler :
  blen (enc_blob pkgidx gen blob pad adler) = blkcnt * NDB_BLK -> blen pad < NDB_BLK ->
  (NDB_BLOBHEAD + blen blob + NDB_BLOBTAIL + NDB_BLK - 1) / NDB_BLK = blkcnt.
Proof.
  destruct (blen_enc_blob pkgidx gen blob pad adler) as [_ ->]. unfold NDB_BLK, NDB_BLOBHEAD, NDB_BLOBTAIL. intros H Hp.
  pose proof (blen_nonneg pad). symmetry. apply (Z.div_unique _ _ _ (15 - blen pad)); lia.
Qed.

(** The region that is read decides. *)
Lemma region_exact zlib region pkgidx blkcnt blob : blen region = blkcnt * NDB_BLK -> 0 < blkcnt ->
  let len := unpack false region 4 12 in
  let tail := blen region - NDB_BLOBTAIL in
  (slice region 0 4 = BLOB_START /\ unpack false region 4 4 = pkgidx /\
   blkcnt = (NDB_BLOBHEAD + len + NDB_BLOBTAIL + NDB_BLK - 1) / NDB_BLK /\
   slice region (tail + 8) (tail + 12) = BLOB_END /\ unpack false region 4 (tail + 4) = len /\
   (zlib = true -> adler32 (slice region 0 tail) = unpack false region 4 tail) /\
   slice region NDB_BLOBHEAD (NDB_BLOBHEAD + len) = blob) <->
  (word_ok 4 pkgidx /\ exists gen pad adler, region = enc_blob pkgidx gen blob pad adler /\ blen pad < NDB_BLK /\
   word_ok 4 gen /\ word_ok 4 (blen blob) /\ word_ok 4 adler /\ (zlib = true -> adler = adler32 (enc_blob_body pkgidx gen blob pad))).
Proof.
  unfold NDB_BLK, NDB_BLOBHEAD, NDB_BLOBTAIL in *. intros Hlen Hcnt. cbv zeta.
  set (len := unpack false region 4 12). set (tail := blen region - 12).
  pose proof (word_ok_unpack false region 4 12 ltac:(done)) as Hlenok. fold len in Hlenok. split.
  - intros (Hm & Hidx & Hwant & Hme & Htl & Had & Hblob).
    assert (Hfit : 16 + len + 12 <= blen region /\ blen region < 16 + len + 12 + 16).
    { rewrite Hlen, Hwant. pose proof (Z.div_mod (16 + len + 12 + 16 - 1) 16 ltac:(done)).
      pose proof (Z.mod_pos_bound (16 + len + 12 + 16 - 1) 16 ltac:(done)). unfold word_ok in Hlenok. lia. }
    unfold word_ok in Hlenok. assert (Hbl : blen blob = len) by (rewrite <- Hblob, slice_length; lia).
    split; [rewrite <- Hidx; by apply word_ok_unpack|].
    exists (unpack false region 4 8), (slice region (16 + len) tail), (unpack false region 4 tail).
    assert (Hpad : blen (slice region (16 + len) tail) = tail - 16 - len) by (rewrite slice_length; lia).
    assert (Hbody : holds region 0 (enc_blob_body pkgidx (unpack false region 4 8) blob (slice region (16 + len) tail))).
    { unfold enc_blob_body, le32. rewrite Hbl, <- Hidx, <- Hm at 1. rewrite <- Hblob.
      apply holds_join; [apply holds_of_slice; lia|]. rewrite slice_length by lia.
      do 3 (apply holds_join; [apply holds_unpack; lia|]; rewrite blen_enc_word by lia).
      apply holds_join; [apply holds_of_slice; lia|]. rewrite slice_length by lia.
      replace (0 + (4 - 0) + 4 + 4 + 4 + (16 + len - 16)) with (16 + len) by lia. apply holds_of_slice; lia. }
    destruct (blen_enc_blob pkgidx (unpack false region 4 8) blob (slice region (16 + len) tail) (unpack false region 4 tail)) as [Hb1 Hb2].
    split_and!; [|lia|by apply word_ok_unpack|unfold word_ok; lia|by apply word_ok_unpack|].
    + apply (holds_inj region 0); [apply holds_whole| |lia]. unfold enc_blob. apply holds_join; [done|].
      rewrite Hb1, Hbl, Hpad. replace (0 + _) with tail by lia. unfold le32. rewrite <- Htl, <- Hme.
      apply holds_join; [apply holds_unpack; lia|]. rewrite blen_enc_word by lia.
      apply holds_join; [apply holds_unpack; lia|]. rewrite blen_enc_word by lia.
      replace (tail + 4 + 4) with (tail + 8) by lia. apply holds_of_slice; lia.
    + intros Hz. rewrite <- (Had Hz). f_equal. apply holds_slice in Hbody. rewrite Hb1, Hbl, Hpad in Hbody.
      replace (0 + _) with tail in Hbody by lia. done.
  - intros (Hidx & gen & pad & adler & Hr & Hpad & Hgen & Hbl & Had & Hsum).
    destruct (blob_fields region pkgidx gen blob pad adler Hr) as (F0 & F4 & F12 & F16 & Fb & Ft & Ft4 & Ft8).
    destruct (blen_enc_blob pkgidx gen blob pad adler) as [Hb1 Hb2]. rewrite <- Hr in Hb2.
    assert (Htail : tail = 16 + blen blob + blen pad) by lia. rewrite <- Htail in *.
    assert (Hlen' : len = blen blob) by (by apply unpack_word). rewrite Hlen'. split_and!.
    + by apply holds_slice in F0.
    + by apply unpack_word.
    + symmetry. apply (blob_want blob pad blkcnt pkgidx gen adler); unfold NDB_BLK; [rewrite <- Hr|]; done.
    + apply holds_slice in Ft8. change (blen BLOB_END) with 4 in Ft8. by replace (tail + 8 + 4) with (tail + 12) in Ft8 by lia.
    + by apply unpack_word.
    + intros Hz. rewrite (unpack_word false region 4 tail adler) by done. rewrite (Hsum Hz). f_equal.
      apply holds_slice in Fb. by rewrite Hb1, Z.add_0_l in Fb.
    + by apply holds_slice in F16.
Qed.

Lemma ndb_blob_exact zlib data pkgidx blkoff blkcnt blob : 0 <= blkoff -> 0 <= blkcnt -> word_ok 4 pkgidx ->
  ndb_blob (pread_of data) zlib pkgidx blkoff blkcnt = Ok blob <-> blob_at zlib data pkgidx blkoff blkcnt blob.
Proof.
  intros Hoff Hcnt Hidx. destruct (Z.eq_dec blkcnt 0) as [->|Hz].
  { split.
    { unfold ndb_blob. intros H. bind H as region Hr. apply pread_exact_len in Hr. unfold need in H.
      by replace (blen region <? 0 + 16) with true in H by (unfold NDB_BLK in Hr; lia). }
    intros (gen & pad & adler & _ & Hlen & _). destruct (blen_enc_blob pkgidx gen blob pad adler) as [_ Hl].
    rewrite Hl in Hlen. pose proof (blen_nonneg blob). pose proof (blen_nonneg pad). lia. }
  unfold ndb_blob, blob_at. split.
  - intros H. bind H as region Hr. apply pread_exact_of in Hr as [Hr Hlen]; [|unfold NDB_BLK; lia..].
    unfold need in H. rewrite Hlen in H. replace (blkcnt * NDB_BLK <? 0 + 16) with false in H by (unfold NDB_BLK; lia).
    cbn [mbind res_bind] in H. cbv zeta in H. rewrite <- Hlen in H.
    destruct (_ || _) eqn:E1 in H; [done|]. destruct (_ || _) eqn:E2 in H; [done|]. destruct (_ && _) eqn:E3 in H; [done|].
    injection H as H.
    rewrite !orb_false_iff, !negb_false_iff, bool_decide_eq_true in E1. rewrite orb_false_iff, !negb_false_iff, bool_decide_eq_true in E2.
    destruct (proj1 (region_exact zlib region pkgidx blkcnt blob Hlen ltac:(lia))) as [_ (gen & pad & adler & -> & Hp & Hg & Hb & Ha & Hs)].
    { destruct E1 as [[? ?] ?], E2 as [? ?]. split_and!; try (done || lia). intros ->. cbn [andb] in E3. lia. }
    exists gen, pad, adler. done.
  - intros (gen & pad & adler & Hr & Hlen & Hp & Hg & Hb & Ha & Hs).
    rewrite (proj2 (pread_exact_of data (blkcnt * NDB_BLK) (blkoff * NDB_BLK) _ ltac:(unfold NDB_BLK; lia) ltac:(unfold NDB_BLK; lia)) (conj Hr Hlen)).
    cbn [mbind res_bind]. unfold need. rewrite Hlen. replace (blkcnt * NDB_BLK <? 0 + 16) with false by (unfold NDB_BLK; lia).
    cbn [mbind res_bind]. cbv zeta. rewrite <- Hlen.
    destruct (proj2 (region_exact zlib _ pkgidx blkcnt blob Hlen ltac:(lia))) as (R1 & R2 & R3 & R4 & R5 & R6 & R7).
    { split; [done|]. exists gen, pad, adler. done. }
    set (region := enc_blob pkgidx gen blob pad adler) in *.
    rewrite (bool_decide_eq_true_2 _ R1), (bool_decide_eq_true_2 _ R4), R2, R5, Z.eqb_refl, <- R3, !Z.eqb_refl. cbn [negb orb].
    destruct zlib; cbn [andb]; [rewrite (R6 eq_refl), Z.eqb_refl; cbn [negb]|]; by rewrite R7.
Qed.

Lemma enc_slot_at slots off : 0 <= off -> off + 16 <= blen slots -> slice slots off (off + 4) = SLOT_MAGIC ->
  holds slots off (enc_slot (unpack false slots 4 (off + 4)) (unpack false slots 4 (off + 8)) (unpack false slots 4 (off + 12))).
Proof.
  intros Ho Hl Hm. unfold enc_slot, le32. rewrite <- Hm. apply holds_join; [apply holds_of_slice; lia|].
  rewrite slice_length by lia. replace (off + (off + 4 - off)) with (off + 4) by lia.
  apply holds_join; [apply holds_unpack; lia|]. rewrite blen_enc_word by lia. replace (off + 4 + 4) with (off + 8) by lia.
  apply holds_join; [apply holds_unpack; lia|]. rewrite blen_enc_word by lia. replace (off + 8 + 4) with (off + 12) by lia.
  apply holds_unpack; lia.
Qed.

Lemma slot_fields slots off pkgidx blkoff blkcnt : holds slots off (enc_slot pkgidx blkoff blkcnt) ->
  word_ok 4 pkgidx -> word_ok 4 blkoff -> word_ok 4 blkcnt ->
  slice slots off (off + 4) = SLOT_MAGIC /\ unpack false slots 4 (off + 4) = pkgidx /\
  unpack false slots 4 (off + 8) = blkoff /\ unpack false slots 4 (off + 12) = blkcnt.
Proof.
  unfold enc_slot, le32. intros H H1 H2 H3. apply holds_app in H as [Hm H]. change (blen SLOT_MAGIC) with 4 in H. pieces H.
  replace (off + 4 + 4) with (off + 8) in * by lia. replace (off + 8 + 4) with (off + 12) in * by lia.
  split_and!; [by apply holds_slice in Hm | by apply unpack_word..].
Qed.

Lemma ndb_slot_exact zlib data fileblks minblkoff slots off m : 0 <= off -> off + 16 <= blen slots ->
  ndb_slot (pread_of data) zlib fileblks minblkoff slots off = Ok m <-> slot_says zlib data fileblks minblkoff slots off m.
Proof.
  intros Ho Hl. unfold ndb_slot, need. replace (blen slots <? off + 16) with false by lia. cbn [mbind res_bind]. cbv zeta. split.
  - destruct (bool_decide _) eqn:E1; cbn [negb]; [|done]. apply bool_decide_eq_true in E1.
    pose proof (enc_slot_at slots off Ho Hl E1) as Hs. 
    destruct (_ =? 0) eqn:E2.
    + intros [= <-]. apply Z.eqb_eq in E2. rewrite E2 in Hs. econstructor; [done | by apply word_ok_unpack..].
    + destruct (_ || _) eqn:E3; [done|]. intros H.
      destruct (ndb_blob _ _ _ _ _) as [blob|] eqn:Eb in H; [|done]. injection H as <-.
      pose proof (word_ok_unpack false slots 4 (off + 8) ltac:(done)) as Hw8. pose proof (word_ok_unpack false slots 4 (off + 12) ltac:(done)) as Hw12.
      apply ndb_blob_exact in Eb; [|unfold word_ok in *; lia..|by apply word_ok_unpack].
      eapply slot_used; try done; try lia. by apply word_ok_unpack.
  - intros [pkgidx blkcnt Hs Hi Hc|pkgidx blkoff blkcnt blob Hs Hi Hb Hc Hi0 Hb0 Hmin Hmax Hat].
    + destruct (slot_fields _ _ _ _ _ Hs Hi ltac:(done) Hc) as (-> & -> & -> & ->). by rewrite bool_decide_eq_true_2.
    + destruct (slot_fields _ _ _ _ _ Hs Hi Hb Hc) as (-> & -> & -> & ->). rewrite bool_decide_eq_true_2 by done. cbn [negb].
      replace (blkoff =? 0) with false by lia. replace (_ || _) with false by lia.
      rewrite (proj2 (ndb_blob_exact zlib data pkgidx blkoff blkcnt blob ltac:(apply Hb) ltac:(apply Hc) Hi)) by done. done.
Qed.

Lemma in_py_range a b s x : 0 < s -> x ∈ py_range a b s -> a <= x < b.
Proof.
  intros Hs H. apply list_elem_of_fmap in H as (i & -> & Hi). apply list_elem_of_In, in_seq in Hi.
  pose proof (Z.mul_div_le (b - a + s - 1) s Hs).
  assert (Z.of_nat i + 1 <= (b - a + s - 1) / s) by lia. nia.
Qed.

Lemma py_range_step a b s x : 0 < s -> (b - a) mod s = 0 -> x ∈ py_range a b s -> x + s <= b.
Proof.
  intros Hs Hm H. apply list_elem_of_fmap in H as (i & -> & Hi). apply list_elem_of_In, in_seq in Hi.
  apply Z.mod_divide in Hm as [k Hk]; [|lia].
  assert (Hq : (b - a + s - 1) / s = k) by (symmetry; apply (Z.div_unique _ _ _ (s - 1)); lia). rewrite Hq in Hi. nia.
Qed.

Lemma slots_exact zlib data n slots ms : blen slots = n * NDB_PAGE -> 0 < n ->
  let range := py_range NDB_HEADER (blen slots) NDB_SLOT in
  mapM (ndb_slot (pread_of data) zlib (blen data / NDB_BLK) (n * (NDB_PAGE / NDB_BLK)) slots) range = Ok ms <->
  Forall2 (slot_says zlib data (blen data / NDB_BLK) (n * (NDB_PAGE / NDB_BLK)) slots) range ms.
Proof.
  intros Hn Hpos. cbv zeta. apply mapM_Forall2, Forall_forall. intros off Hoff m.
  pose proof (in_py_range NDB_HEADER (blen slots) NDB_SLOT off ltac:(done) Hoff) as Hr. apply py_range_step in Hoff; [|done|].
  - apply ndb_slot_exact; unfold NDB_HEADER, NDB_SLOT in *; lia.
  - rewrite Hn. unfold NDB_PAGE, NDB_HEADER, NDB_SLOT. replace (n * 4096 - 32) with ((n * 256 - 2) * 16) by lia. by apply Z.mod_mul.
Qed.

(** The 32 bytes that are read hold the header exactly when the file does. *)
Lemma holds_slice_iff data n c : 0 <= n <= blen data -> blen c <= n -> holds data 0 c <-> holds (slice data 0 n) 0 c.
Proof.
  intros Hn Hc. assert (Hs : slice (slice data 0 n) 0 (blen c) = slice data 0 (blen c)).
  { unfold slice. rewrite !Z.sub_0_r, drop_0, take_take. f_equal. lia. }
  pose proof (blen_nonneg c) as Hc0. split; intros H.
  - apply holds_slice in H. rewrite Z.add_0_l in H. rewrite <- H, <- Hs. apply holds_of_slice; rewrite ?slice_length; lia.
  - apply holds_slice in H. rewrite Z.add_0_l, Hs in H. rewrite <- H. apply holds_of_slice; lia.
Qed.

Lemma blen_ndb_head gen n : blen (enc_ndb_head gen n) = 16.
Proof. unfold enc_ndb_head, le32. by rewrite !blen_app, !blen_enc_word by lia. Qed.

Lemma ndb_head_exact head n : 16 <= blen head -> word_ok 4 n ->
  (slice head 0 4 = NDB_MAGIC /\ unpack false head 4 4 = 0 /\ unpack false head 4 12 = n) <->
  (exists gen, holds head 0 (enc_ndb_head gen n) /\ word_ok 4 gen).
Proof.
  intros Hl Hn. unfold enc_ndb_head, le32. split.
  - intros (Hm & Hv & Hp). exists (unpack false head 4 8). split; [|by apply word_ok_unpack]. rewrite <- Hm.
    replace (enc_word false 4 0) with (enc_word false 4 (unpack false head 4 4)) by (by rewrite Hv). rewrite <- Hp.
    apply holds_join; [apply holds_of_slice; lia|]. rewrite slice_length by lia.
    do 2 (apply holds_join; [apply holds_unpack; lia|]; rewrite blen_enc_word by lia). apply holds_unpack; lia.
  - intros (gen & H & Hg). apply holds_app in H as [Hm H]. change (blen NDB_MAGIC) with 4 in H. pieces H.
    apply holds_slice in Hm. split_and!; [done | by apply unpack_word..].
Qed.

Lemma ndb_iff {A} (emit : A -> bytes -> res A) zlib data acc acc' :
  iter_ndb_blobs (pread_of data) emit zlib (blen data) acc = Ok acc' <->
  exists blobs, ndb_file zlib data blobs /\ foldM emit acc blobs = Ok acc'.
Proof.
  unfold iter_ndb_blobs.
  split.
  - intros H. bind H as head Hh. apply pread_exact_of in Hh as [Hh Hlen]; [|done..]. cbv zeta in H. unfold NDB_HEADER in Hlen.
    destruct (bool_decide (slice head 0 4 = NDB_MAGIC)) eqn:E1 in H; cbn [negb] in H; [|done]. apply bool_decide_eq_true in E1.
    destruct (unpack false head 4 4 =? 0) eqn:E2 in H; cbn [negb] in H; [|done].
    set (n := unpack false head 4 12) in H. destruct (_ || _) eqn:E3 in H; [done|]. destruct (blen data <? _) eqn:E4 in H; [done|].
    bind H as slots Hs. apply pread_exact_of in Hs as [Hs Hslen]; [|unfold NDB_PAGE; lia..].
    apply yields_exact in H as (ms & Hms & H). apply slots_exact in Hms; [|done|lia].
    destruct (proj1 (ndb_head_exact head n ltac:(lia) ltac:(by apply word_ok_unpack))) as (gen & Hgen & Hg); [split_and!; (done || lia)|].
    exists (omap id ms). split; [|done]. exists gen, n, slots, ms.
    split_and!; try done; try lia. by apply (holds_trans data 0 head 0) in Hgen.
  - intros (blobs & (gen & n & slots & ms & Hhead & Hgen & Hn & Hmod & Hs & Hslen & Hms & ->) & H).
    assert (Hbig : n * 4096 <= blen data) by (apply holds_nonneg in Hs; unfold NDB_PAGE in Hslen; lia).
    assert (Hread : pread_exact (pread_of data) NDB_HEADER 0 = Ok (slice data 0 32)).
    { apply pread_exact_of; [done..|]. split; [apply holds_of_slice; lia | rewrite slice_length; unfold NDB_HEADER; lia]. }
    rewrite Hread. cbn [mbind res_bind]. cbv zeta. apply (holds_slice_iff _ 32) in Hhead; [|lia|by rewrite blen_ndb_head].
    destruct (proj2 (ndb_head_exact (slice data 0 32) n ltac:(rewrite slice_length; lia) ltac:(change NDB_MAX_SLOTNPAGES with 16777215 in Hn; unfold word_ok; lia)))
      as (-> & -> & ->); [by exists gen|].
    rewrite bool_decide_eq_true_2, Hmod by done. cbn [negb Z.eqb]. replace (_ || _) with false by lia.
    unfold NDB_PAGE at 1. replace (blen data <? n * 4096) with false by lia.
    rewrite (proj2 (pread_exact_of data (n * NDB_PAGE) 0 slots ltac:(unfold NDB_PAGE; lia) ltac:(done)) (conj Hs Hslen)). cbn [mbind res_bind].
    apply yields_exact. exists ms. split; [|done]. apply slots_exact; [done | lia | done].
Qed.

(** The ndb reader decides the ndb format. Reading a file, with whatever
    the caller does with each blob, ends well exactly when the file is an ndb
    database (header, slots, and for every used slot a blob with its head,
    length, tail and, where zlib is there, checksum, inside the blob area)
    and the caller accepts its blobs in slot order; the result is the
    caller's. *)
Theorem ndb_reader_exact {A} (emit : A -> bytes -> res A) zlib data acc acc' :
  iter_ndb_blobs (pread_of data) emit zlib (blen data) acc = Ok acc' <->
  exists blobs, ndb_file zlib data blobs /\ foldM emit acc blobs = Ok acc'.
Proof. apply ndb_iff. Qed.

(** * The Berkeley DB reader against the hash format

    The bucket and overflow chains as relations: the reader follows every
    chain to its end exactly once, rejects exactly the chains that meet a
    page again, and never runs out of fuel. *)
(** Distinct page numbers are at most as many as there are pages. *)
Lemma pages_bound (l : list Z) n : 0 <= n -> NoDup l -> (forall x, x ∈ l -> 0 < x <= n) -> Z.of_nat (length l) <= n.
Proof.
  intros Hn Hd Hr. assert (H : l ⊆+ seqZ 1 n).
  { apply NoDup_submseteq; [done|]. intros x Hx. apply elem_of_seqZ. specialize (Hr x Hx). lia. }
  apply submseteq_length in H. rewrite length_seqZ in H. lia.
Qed.

Section Bdb.
Context (pread : Z -> Z -> res bytes) (m : bdb_meta).

Lemma page_in pgno pg : page pread m pgno = Ok pg -> 0 < pgno <= bm_lastpage m /\ blen pg = bm_pagesize m.
Proof.
  unfold page. destruct (negb _) eqn:E; [done|]. intros H. bind H as p Hp. bind H as n Hn.
  destruct (negb (n =? pgno)) in H; [done|]. injection H as ->. apply pread_exact_len in Hp. split; [lia | done].
Qed.

(** ** Overflow chains *)

(** The page [pgno] carries [chunk] of an overflowing item, and [next]. *)
Definition chunk_page (pgno : Z) (chunk : bytes) (next : Z) : Prop := exists pg used,
  page pread m pgno = Ok pg /\ byte_at pg 25 = Ok BDB_PAGE_OVERFLOW /\ unpack_from (bm_big m) 2 pg 22 = Ok used /\
  used <> 0 /\ used + BDB_PAGE_HEADER <= bm_pagesize m /\ chunk = slice pg BDB_PAGE_HEADER (BDB_PAGE_HEADER + used) /\
  unpack_from (bm_big m) 4 pg 16 = Ok next.

Inductive overflow_chain : Z -> list (Z * bytes) -> Prop :=
| overflow_end pgno : overflow_chain pgno []
| overflow_next pgno chunk next pages :
    chunk_page pgno chunk next -> overflow_chain next pages -> overflow_chain pgno ((pgno, chunk) :: pages).

(** The chain from [pgno] carries [v]: its pages are distinct. *)
Definition overflows (pgno : Z) (v : bytes) : Prop := exists pages,
  overflow_chain pgno pages /\ NoDup pages.*1 /\ v = concat pages.*2.

Lemma chunk_page_in pgno chunk next : chunk_page pgno chunk next ->
  0 < pgno <= bm_lastpage m /\ 0 < blen chunk /\ blen chunk + BDB_PAGE_HEADER <= bm_pagesize m.
Proof.
  intros (pg & used & Hp & _ & Hu & Hne & Hfit & -> & _). apply page_in in Hp as [Hin Hlen].
  unfold unpack_from in Hu. bind Hu as u Hn. injection Hu as <-.
  pose proof (unpack_range (bm_big m) pg 2 22 ltac:(done)). unfold BDB_PAGE_HEADER in *.
  rewrite slice_length by lia. lia.
Qed.

Lemma chain_in pgno pages : overflow_chain pgno pages -> forall x, x ∈ pages.*1 -> 0 < x <= bm_lastpage m.
Proof.
  induction 1 as [|pgno chunk next pages Hc _ IH]; intros x Hx; [by apply not_elem_of_nil in Hx|].
  apply elem_of_cons in Hx as [->|Hx]; [apply (chunk_page_in _ _ _ Hc) | by apply IH].
Qed.

(** One turn of the loop, on a page that was not seen. *)
Lemma overflow_turn fuel total seen out pgno b : blen out < total -> pgno ∉ seen ->
  overflow_loop pread m (S fuel) total seen out pgno = Ok b <->
  (exists chunk next, chunk_page pgno chunk next /\ blen out + blen chunk <= total /\
     overflow_loop pread m fuel total (pgno :: seen) (out ++ chunk) next = Ok b).
Proof.
  intros Hlt Hseen. cbn [overflow_loop]. replace (total <=? blen out) with false by lia. rewrite bool_decide_eq_false_2 by done. split.
  - intros H. bind H as pg Hp. bind H as kind Hk. destruct (kind =? BDB_PAGE_OVERFLOW) eqn:E1; cbn [negb] in H; [|done].
    apply Z.eqb_eq in E1 as ->. bind H as used Hu. destruct (_ || _) eqn:E2 in H; [done|]. bind H as next Hn.
    assert (Hc : chunk_page pgno (slice pg BDB_PAGE_HEADER (BDB_PAGE_HEADER + used)) next).
    { exists pg, used. split_and!; try done; lia. }
    exists (slice pg BDB_PAGE_HEADER (BDB_PAGE_HEADER + used)), next. split_and!; [done| |done].
    apply page_in in Hp as [_ Hlen]. unfold unpack_from in Hu. bind Hu as u Hu'. injection Hu as <-.
    pose proof (unpack_range (bm_big m) pg 2 22 ltac:(done)). unfold BDB_PAGE_HEADER in *. rewrite slice_length; lia.
  - intros (chunk & next & Hc & Hfit & H). pose proof (chunk_page_in _ _ _ Hc) as (_ & Hpos & _).
    destruct Hc as (pg & used & Hp & Hk & Hu & Hne & Hsize & -> & Hn). rewrite Hp. cbn [mbind res_bind]. rewrite Hk. cbn [mbind res_bind]. rewrite Z.eqb_refl. cbn [negb].
    rewrite Hu. cbn [mbind res_bind]. apply page_in in Hp as [_ Hlen]. unfold unpack_from in Hu. bind Hu as u Hu'. injection Hu as Hu.
    pose proof (unpack_range (bm_big m) pg 2 22 ltac:(done)). rewrite slice_length in Hfit by (unfold BDB_PAGE_HEADER in *; lia).
    replace (_ || _) with false by (unfold BDB_PAGE_HEADER in *; lia). by rewrite Hn.
Qed.

Lemma overflow_loop_exact total : forall fuel seen out pgno b,
  blen out <= total -> bm_lastpage m - Z.of_nat (length seen) < Z.of_nat fuel -> NoDup seen -> (forall x, x ∈ seen -> 0 < x <= bm_lastpage m) ->
  overflow_loop pread m fuel total seen out pgno = Ok b <->
  (exists pages, overflow_chain pgno pages /\ NoDup pages.*1 /\ (forall x, x ∈ pages.*1 -> x ∉ seen) /\
     b = out ++ concat pages.*2 /\ blen b = total).
Proof.
  intros fuel. induction fuel as [|fuel IH]; intros seen out pgno b Hout Hfuel Hseen Hin.
  { destruct (Z.le_gt_cases 0 (bm_lastpage m)) as [Hl|Hl].
    - pose proof (pages_bound seen (bm_lastpage m) Hl Hseen Hin). lia.
    - destruct seen as [|x seen]; [simpl in Hfuel|specialize (Hin x ltac:(by left)); lia].
      cbn [overflow_loop]. destruct (total <=? blen out) eqn:E.
      + split.
        * intros [= <-]. exists []. cbn. split_and!; try constructor; [set_solver | by rewrite app_nil_r | lia].
        * intros (pages & Hc & _ & _ & -> & Hb). destruct Hc as [|pgno chunk next pages Hc _]; [by rewrite app_nil_r|].
          apply chunk_page_in in Hc. lia.
      + split; [done|]. intros (pages & Hc & _ & _ & -> & Hb). destruct Hc as [|pgno chunk next pages Hc _].
        * rewrite app_nil_r in Hb. lia.
        * apply chunk_page_in in Hc. lia. }
  destruct (Z.eq_dec (blen out) total) as [Heq|Hne].
  - cbn [overflow_loop]. replace (total <=? blen out) with true by lia. split.
    + intros [= <-]. exists []. cbn. split_and!; try constructor; [set_solver | by rewrite app_nil_r | done].
    + intros (pages & Hc & _ & _ & -> & Hb). destruct Hc as [|pgno chunk next pages Hc _]; [by rewrite app_nil_r|].
      apply chunk_page_in in Hc as (_ & Hpos & _). cbn in Hb. rewrite !blen_app in Hb. pose proof (blen_nonneg (concat pages.*2)). lia.
  - destruct (decide (pgno ∈ seen)) as [Hs|Hs].
    + cbn [overflow_loop]. replace (total <=? blen out) with false by lia. rewrite bool_decide_eq_true_2 by done. split; [done|].
      intros (pages & Hc & _ & Hdis & -> & Hb). destruct Hc as [|pgno chunk next pages Hc _].
      * rewrite app_nil_r in Hb. lia.
      * destruct (Hdis pgno); [by left | done].
    + rewrite overflow_turn by (done || lia). split.
      * intros (chunk & next & Hc & Hfit & H). pose proof (chunk_page_in _ _ _ Hc) as (Hpg & _).
        apply IH in H as (pages & Hch & Hd & Hdis & -> & Hb); [|rewrite blen_app; lia|cbn [length]; lia|by constructor|].
        -- exists ((pgno, chunk) :: pages). cbn. split_and!; [by econstructor| | | |done].
           ++ constructor; [|done]. intros Hx. apply (Hdis _ Hx). by left.
           ++ intros x [->|Hx]%elem_of_cons; [done|]. specialize (Hdis x Hx). set_solver.
           ++ by rewrite <- app_assoc.
        -- intros x [->|Hx]%elem_of_cons; [done | by apply Hin].
      * intros (pages & Hch & Hd & Hdis & -> & Hb). destruct Hch as [|pgno chunk next pages Hc Hch].
        { cbn in Hb. rewrite app_nil_r in Hb. lia. }
        pose proof (chunk_page_in _ _ _ Hc) as (Hpg & _). cbn in *. apply NoDup_cons in Hd as [Hnew Hd].
        rewrite !blen_app in Hb. pose proof (blen_nonneg (concat pages.*2)).
        exists chunk, next. split_and!; [done|lia|]. apply IH; [rewrite blen_app; lia|cbn [length]; lia|by constructor| |].
        -- intros x [->|Hx]%elem_of_cons; [done | by apply Hin].
        -- exists pages. rewrite <- app_assoc, !blen_app. split_and!; try (done || lia). intros x Hx. specialize (Hdis x). set_solver.
Qed.

Lemma overflow_exact pgno total b : overflow pread m pgno total = Ok b <-> 0 < total /\ blen b = total /\ overflows pgno b.
Proof.
  unfold overflow. destruct (total <=? 0) eqn:E; [split; [done|lia]|].
  rewrite overflow_loop_exact; [|change (blen []) with 0; lia|unfold chain_fuel; simpl length; lia|constructor|set_solver]. unfold overflows. split.
  - intros (pages & Hc & Hd & _ & -> & Hb). split_and!; [lia | done | by exists pages].
  - intros (_ & Hb & pages & Hc & Hd & ->). exists pages. split_and!; try done. set_solver.
Qed.

(** ** Items *)

Definition word_m (n z : Z) : bytes := enc_word (bm_big m) n z.
Inductive item_says (pg : bytes) (off len : Z) (v : bytes) : Prop :=
| item_inline : holds pg off (x01 :: v) -> blen v = len - 1 -> item_says pg off len v
| item_offpage unused pgno total : holds pg off (x03 :: unused ++ word_m 4 pgno ++ word_m 4 total) -> len = 12 ->
    blen unused = 3 -> word_ok 4 pgno -> word_ok 4 total -> 0 < total -> blen v = total -> overflows pgno v ->
    item_says pg off len v.

Lemma byte_eq_of b z : bval b = z -> b = of_bval z.
Proof. intros <-. symmetry. apply bval_inj, of_bval_val, bval_range. Qed.

Lemma byte_at_holds pg off z : byte_at pg off = Ok z -> holds pg off [of_bval z].
Proof.
  unfold byte_at. destruct ((0 <=? off) && (off <? blen pg)) eqn:E; [|done]. destruct (pg !! Z.to_nat off) as [b|] eqn:Hb; [|done].
  intros [= <-]. rewrite <- (byte_eq_of b _ eq_refl). apply list_elem_of_split_length in Hb as (l1 & l2 & -> & Hl).
  exists l1, l2. split; [done|]. unfold blen. lia.
Qed.

Lemma item_exact pg off len v : blen pg = bm_pagesize m -> 0 <= off ->
  item pread m pg off len = Ok v <-> 0 < len /\ off + len <= bm_pagesize m /\ item_says pg off len v.
Proof.
  intros Hpg Hoff. unfold item. destruct (_ || _) eqn:E; [split; [done|lia]|]. split.
  - intros H. bind H as kind Hk. apply byte_at_holds in Hk. split_and!; [lia..|].
    destruct (kind =? BDB_ITEM_KEYDATA) eqn:E1.
    + apply Z.eqb_eq in E1 as ->. injection H as <-. apply item_inline; [|rewrite slice_length; lia].
      change (?x :: slice ?a ?b ?c) with ([of_bval 1] ++ slice a b c). apply holds_join; [done|].
      change (blen [of_bval 1]) with 1. apply holds_of_slice; lia.
    + destruct (_ && _) eqn:E2 in H; [|done]. assert (Hkind : kind = 3) by (unfold BDB_ITEM_OFFPAGE in E2; lia). subst kind.
      unfold need in H. replace (blen pg <? off + 4 + 8) with false in H by lia. cbn [mbind res_bind] in H.
      apply overflow_exact in H as (Ht & Hb & Ho).
      apply (item_offpage _ _ _ _ (slice pg (off + 1) (off + 4)) (unpack (bm_big m) pg 4 (off + 4)) (unpack (bm_big m) pg 4 (off + 8)));
        try done; try lia; [|rewrite slice_length; lia|by apply word_ok_unpack..].
      change (x03 :: ?l) with ([of_bval 3] ++ l). apply holds_join; [done|]. change (blen [of_bval 3]) with 1.
      apply holds_join; [apply holds_of_slice; lia|]. rewrite slice_length by lia. replace (off + 1 + (off + 4 - (off + 1))) with (off + 4) by lia.
      unfold word_m. apply holds_join; [apply holds_unpack; lia|]. rewrite blen_enc_word by lia.
      replace (off + 4 + 4) with (off + 8) by lia. apply holds_unpack; lia.
  - intros (Hlen & Hfit & [H Hl|unused pgno total H Hl Hu Hp Ht Hpos Hv Ho]).
    + rewrite (holds_byte _ _ _ _ H). cbn [mbind res_bind]. change (bval x01 =? BDB_ITEM_KEYDATA) with true. cbn.
      change (x01 :: v) with ([x01] ++ v) in H. apply holds_app in H as [_ H]. change (blen [x01]) with 1 in H.
      apply holds_slice in H. do 2 f_equal. rewrite <- H. f_equal. lia.
    + rewrite (holds_byte _ _ _ _ H). cbn [mbind res_bind]. change (bval x03 =? BDB_ITEM_KEYDATA) with false.
      replace ((bval x03 =? BDB_ITEM_OFFPAGE) && (len =? 12)) with true by (subst len; done). cbn.
      change (x03 :: ?l) with ([x03] ++ l) in H. apply holds_app in H as [_ H]. change (blen [x03]) with 1 in H.
      apply holds_app in H as [_ H]. rewrite Hu in H. unfold word_m in H. pieces H.
      unfold need. replace (blen pg <? off + 4 + 8) with false by lia. cbn [mbind res_bind].
      replace (off + 1 + 3) with (off + 4) in * by lia. replace (off + 4 + 4) with (off + 8) in * by lia.
      rewrite (unpack_word _ pg 4 (off + 4) pgno), (unpack_word _ pg 4 (off + 8) total) by done. by apply overflow_exact.
Qed.

(** ** Hash pages and buckets *)

(** The entry at [idx]: [None] where the key is not a header number. *)
Definition entry_says (pg : bytes) (idx : Z) (o : option bytes) : Prop :=
  let off i := unpack (bm_big m) pg 2 (BDB_PAGE_HEADER + 2 * i) in
  let kend := if idx =? 0 then bm_pagesize m else off (idx - 1) in
  off (idx + 1) < off idx < kend /\ kend <= bm_pagesize m /\
  exists key, item_says pg (off idx) (kend - off idx) key /\
    match o with
    | None => blen key <> 4 \/ unpack (bm_big m) key 4 0 = 0
    | Some v => blen key = 4 /\ unpack (bm_big m) key 4 0 <> 0 /\ item_says pg (off (idx + 1)) (off idx - off (idx + 1)) v
    end.

Definition page_says (pgno : Z) (vals : list bytes) (next : Z) : Prop := exists pg nent ms,
  hash_header pread m pgno = Ok (pg, nent) /\ Forall2 (entry_says pg) (py_range 0 (nent - 1) 2) ms /\ vals = omap id ms /\
  unpack_from (bm_big m) 4 pg 16 = Ok next.

Lemma entry_exact pgno pg idx o : blen pg = bm_pagesize m ->
  hash_entry pread m pgno pg idx = Ok o <-> entry_says pg idx o.
Proof.
  intros Hpg. unfold hash_entry, entry_says. cbv zeta.
  set (off := fun i => unpack (bm_big m) pg 2 (BDB_PAGE_HEADER + 2 * i)).
  change (unpack (bm_big m) pg 2 (BDB_PAGE_HEADER + 2 * idx)) with (off idx).
  change (unpack (bm_big m) pg 2 (BDB_PAGE_HEADER + 2 * (idx + 1))) with (off (idx + 1)).
  change (unpack (bm_big m) pg 2 (BDB_PAGE_HEADER + 2 * (idx - 1))) with (off (idx - 1)).
  assert (Hoff : forall i, 0 <= off i) by (intros i; by apply unpack_range).
  set (kend := if idx =? 0 then bm_pagesize m else off (idx - 1)).
  pose proof (Hoff idx). pose proof (Hoff (idx + 1)).
  destruct (negb _) eqn:E; [split; [done|lia]|]. split.
  - intros H1. bind H1 as key Hk. apply item_exact in Hk as (_ & _ & Hk); [|done..].
    split_and!; [lia..|]. exists key. split; [done|].
    destruct (_ || _) eqn:E2 in H1; [injection H1 as <-; lia|].
    destruct (item pread m pg (off (idx + 1)) _) as [v|] eqn:Hv in H1; [|done]. injection H1 as <-.
    apply item_exact in Hv as (_ & _ & Hv); [|done..]. split_and!; (done || lia).
  - intros (Hlt & Hle & key & Hk & Ho). rewrite (proj2 (item_exact pg (off idx) (kend - off idx) key Hpg (Hoff _))) by (split_and!; (done || lia)).
    cbn [mbind res_bind]. destruct o as [v|].
    + destruct Ho as (H4 & Hn & Hv). replace (_ || _) with false by lia.
      by rewrite (proj2 (item_exact pg (off (idx + 1)) (off idx - off (idx + 1)) v Hpg (Hoff _))) by (split_and!; (done || lia)).
    + by replace (_ || _) with true by lia.
Qed.

Section Emit.
Context {A : Type} (emit : A -> bytes -> res A).

Lemma hash_header_in pgno pg nent : hash_header pread m pgno = Ok (pg, nent) ->
  0 < pgno <= bm_lastpage m /\ blen pg = bm_pagesize m.
Proof.
  unfold hash_header. intros H. bind H as p Hp. bind H as kind Hk. destruct (negb _) in H; [done|]. bind H as n Hn.
  destruct (_ <? n) in H; [done|]. bind H as u Hu. injection H as -> _. by apply page_in in Hp.
Qed.

Lemma page_says_in pgno vals next : page_says pgno vals next -> 0 < pgno <= bm_lastpage m.
Proof. intros (pg & nent & ms & H & _). by apply hash_header_in in H as [H _]. Qed.

Lemma hash_page_exact pgno acc acc' next : hash_page pread m emit pgno acc = Ok (acc', next) <->
  (exists vals, page_says pgno vals next /\ foldM emit acc vals = Ok acc').
Proof.
  unfold hash_page, page_says. split.
  - intros H. bind H as x Hx. destruct x as [pg nent]. bind H as acc1 Hacc. bind H as n Hn. injection H as -> ->.
    apply yields_exact in Hacc as (ms & Hms & Hacc). exists (omap id ms). split; [|done]. exists pg, nent, ms.
    split_and!; try done. apply hash_header_in in Hx as [_ Hpg]. revert Hms. apply mapM_Forall2, Forall_forall.
    intros idx _ o. by apply entry_exact.
  - intros (vals & (pg & nent & ms & Hh & Hms & -> & Hn) & Hacc). rewrite Hh. cbn [mbind res_bind].
    apply hash_header_in in Hh as [_ Hpg].
    assert (Hms' : mapM (hash_entry pread m pgno pg) (py_range 0 (nent - 1) 2) = Ok ms).
    { revert Hms. apply mapM_Forall2, Forall_forall. intros idx _ o. by apply entry_exact. }
    rewrite (proj2 (yields_exact emit (hash_entry pread m pgno pg) _ acc acc')) by eauto. cbn [mbind res_bind]. by rewrite Hn.
Qed.

(** The pages of a bucket with the values they hold: the chain goes to its
    end, page 0. *)
Inductive bucket_chain : Z -> list (Z * list bytes) -> Prop :=
| bucket_end : bucket_chain 0 []
| bucket_page pgno vals next pages : pgno <> 0 -> page_says pgno vals next -> bucket_chain next pages ->
    bucket_chain pgno ((pgno, vals) :: pages).

Definition values (pages : list (Z * list bytes)) : list bytes := concat pages.*2.

Lemma bucket_loop_exact : forall fuel visited acc pgno acc' visited',
  bm_lastpage m - Z.of_nat (length visited) < Z.of_nat fuel -> NoDup visited -> (forall x, x ∈ visited -> 0 < x <= bm_lastpage m) ->
  bucket_loop pread m emit fuel visited acc pgno = Ok (acc', visited') <->
  (exists pages, bucket_chain pgno pages /\ NoDup pages.*1 /\ (forall x, x ∈ pages.*1 -> x ∉ visited) /\
     visited' = reverse pages.*1 ++ visited /\ foldM emit acc (values pages) = Ok acc').
Proof.
  induction fuel as [|fuel IH]; intros visited acc pgno acc' visited' Hfuel Hnd Hin.
  all: cbn [bucket_loop]; destruct (pgno =? 0) eqn:E0.
  1, 3: apply Z.eqb_eq in E0 as ->; split;
    [intros [= <- <-]; exists []; cbn; split_and!; try done; first [constructor | set_solver]
    |intros (pages & Hc & _ & _ & -> & H); inversion Hc; [|done]; subst; by injection H as <-].
  - split; [done|]. intros (pages & Hc & Hd & Hdis & _ & _). destruct Hc as [|pgno vals next pages Hz Hp Hc]; [done|].
    apply page_says_in in Hp. pose proof (pages_bound visited (bm_lastpage m) ltac:(lia) Hnd Hin). lia.
  - destruct (decide (pgno ∈ visited)) as [Hv|Hv].
    { rewrite bool_decide_eq_true_2 by done. split; [done|]. intros (pages & Hc & _ & Hdis & _). destruct Hc as [|pgno vals next pages]; [done|].
      by destruct (Hdis pgno); [left|]. }
    rewrite bool_decide_eq_false_2 by done. split.
    + intros H. bind H as x Hx. destruct x as [acc1 next]. apply hash_page_exact in Hx as (vals & Hp & Hacc).
      pose proof (page_says_in _ _ _ Hp) as Hpg.
      apply IH in H as (pages & Hc & Hd & Hdis & -> & H); [|cbn [length]; lia|by constructor|].
      * exists ((pgno, vals) :: pages). cbn [fmap list_fmap fst snd]. split_and!.
        -- by econstructor; [lia| |].
        -- constructor; [|done]. intros Hx. apply (Hdis _ Hx). by left.
        -- intros x [->|Hx]%elem_of_cons; [done|]. specialize (Hdis x Hx). set_solver.
        -- by rewrite reverse_cons, <- app_assoc.
        -- unfold values. cbn [fmap list_fmap snd concat]. rewrite foldM_app, Hacc. done.
      * intros x [->|Hx]%elem_of_cons; [done | by apply Hin].
    + intros (pages & Hc & Hd & Hdis & -> & H). destruct Hc as [|pgno vals next pages Hz Hp Hc]; [done|].
      pose proof (page_says_in _ _ _ Hp) as Hpg. unfold values in H. cbn [fmap list_fmap fst snd concat] in *.
      rewrite foldM_app in H. bind H as acc1 Hacc. apply NoDup_cons in Hd as [Hnew Hd].
      rewrite (proj2 (hash_page_exact pgno acc acc1 next)) by eauto. cbn [mbind res_bind].
      apply IH; [cbn [length]; lia|by constructor| |].
      * intros x [->|Hx]%elem_of_cons; [done | by apply Hin].
      * exists pages. split_and!; try done; [|by rewrite reverse_cons, <- app_assoc]. intros x Hx. specialize (Hdis x). set_solver.
Qed.

(** Bucket [b] starts at the page its spare points at. *)
Definition bucket_says (b : Z) (pages : list (Z * list bytes)) : Prop := exists spare,
  bm_spares m !! Z.to_nat (bit_length b) = Some spare /\ bucket_chain (b + spare) pages.

Lemma chain_pages pgno pages : bucket_chain pgno pages -> forall x, x ∈ pages.*1 -> 0 < x <= bm_lastpage m.
Proof.
  induction 1 as [|pgno vals next pages _ Hp _ IH]; intros x Hx; [by apply not_elem_of_nil in Hx|].
  apply elem_of_cons in Hx as [->|Hx]; [by apply page_says_in in Hp | by apply IH].
Qed.

Lemma buckets_exact : forall bs visited acc acc',
  NoDup visited -> (forall x, x ∈ visited -> 0 < x <= bm_lastpage m) ->
  (exists visited', foldM (bucket pread m emit) (acc, visited) bs = Ok (acc', visited')) <->
  (exists chains, Forall2 bucket_says bs chains /\ NoDup (concat chains).*1 /\ (forall x, x ∈ (concat chains).*1 -> x ∉ visited) /\
     foldM emit acc (values (concat chains)) = Ok acc').
Proof.
  induction bs as [|b bs IH]; intros visited acc acc' Hnd Hin.
  { split.
    - intros (v & [= <- <-]). exists []. cbn. split_and!; [constructor | constructor | set_solver | done].
    - intros (chains & ->%Forall2_nil_inv_l & _ & _ & [= <-]). by exists visited. }
  cbn [foldM]. split.
  - intros (v & H). bind H as st Hst. unfold bucket in Hst. destruct (bm_spares m !! _) as [spare|] eqn:Hs in Hst; [|done].
    destruct st as [acc1 v1]. apply bucket_loop_exact in Hst as (pages & Hc & Hd & Hdis & -> & Hacc); [|unfold chain_fuel; cbn [snd]; lia|done..].
    cbn [fst snd] in *. pose proof (chain_pages _ _ Hc) as Hpg.
    pose proof (ex_intro (fun v => foldM (bucket pread m emit) (acc1, reverse pages.*1 ++ visited) bs = Ok (acc', v)) v H) as Hv.
    apply IH in Hv as (chains & Hch & Hd' & Hdis' & Hacc'); [|apply NoDup_app; split_and!; [by rewrite reverse_Permutation | | done]|].
    + exists (pages :: chains). cbn [concat]. rewrite fmap_app. split_and!.
      * constructor; [|done]. by exists spare.
      * apply NoDup_app. split_and!; try done. intros x Hx Hx'. apply (Hdis' _ Hx'), elem_of_app. left. by rewrite elem_of_reverse.
      * intros x [Hx|Hx]%elem_of_app; [by apply Hdis|]. specialize (Hdis' x Hx). set_solver.
      * unfold values. rewrite fmap_app, concat_app, foldM_app. fold (values pages). rewrite Hacc. done.
    + intros x Hx. rewrite elem_of_reverse in Hx. by apply Hdis.
    + intros x [Hx|Hx]%elem_of_app; [rewrite elem_of_reverse in Hx; by apply Hpg | by apply Hin].
  - intros (chains & Hch & Hd & Hdis & Hacc). apply Forall2_cons_inv_l in Hch as (pages & chains' & (spare & Hs & Hc) & Hch & ->).
    cbn [concat] in *. rewrite fmap_app in *. apply NoDup_app in Hd as (Hd1 & Hd12 & Hd2).
    unfold values in Hacc. rewrite fmap_app, concat_app, foldM_app in Hacc. bind Hacc as acc1 Hacc1. pose proof (chain_pages _ _ Hc) as Hpg.
    assert (Hb : bucket pread m emit (acc, visited) b = Ok (acc1, reverse pages.*1 ++ visited)).
    { unfold bucket. rewrite Hs. cbn [fst snd]. apply bucket_loop_exact; [unfold chain_fuel; lia|done..|]. exists pages. split_and!; try done.
      intros x Hx. apply Hdis. set_solver. }
    rewrite Hb. cbn [mbind res_bind]. apply IH.
    + apply NoDup_app. split_and!; [by rewrite reverse_Permutation | | done]. intros x Hx. rewrite elem_of_reverse in Hx. apply Hdis. set_solver.
    + intros x [Hx|Hx]%elem_of_app; [rewrite elem_of_reverse in Hx; by apply Hpg | by apply Hin].
    + exists chains'. split_and!; try done. intros x Hx [Hx'|Hx']%elem_of_app.
      * rewrite elem_of_reverse in Hx'. by apply (Hd12 x).
      * apply (Hdis x); [set_solver | done].
Qed.
End Emit.
End Bdb.

(** [vals] are the packages of the database, bucket by bucket: every page of
    every bucket chain is reached once. *)
Definition bdb_file (pread : Z -> Z -> res bytes) (size : Z) (vals : list bytes) : Prop := exists m chains,
  read_meta pread size = Ok m /\ Forall2 (bucket_says pread m) (seqZ 0 (bm_maxbucket m + 1)) chains /\
  NoDup (concat chains).*1 /\ vals = values (concat chains).

Lemma bdb_iff {A} (emit : A -> bytes -> res A) pread size acc acc' :
  iter_bdb_hash_values pread emit size acc = Ok acc' <->
  exists vals, bdb_file pread size vals /\ foldM emit acc vals = Ok acc'.
Proof.
  unfold iter_bdb_hash_values, bdb_file. split.
  - intros H. bind H as m Hm. bind H as st Hst. destruct st as [acc1 v]. injection H as ->.
    destruct (proj1 (buckets_exact pread m emit (seqZ 0 (bm_maxbucket m + 1)) [] acc acc' NoDup_nil_2 ltac:(set_solver)))
      as (chains & Hc & Hd & _ & H); [by exists v |]. exists (values (concat chains)). split; [|done]. by exists m, chains.
  - intros (vals & (m & chains & Hm & Hc & Hd & ->) & H). rewrite Hm. cbn [mbind res_bind].
    destruct (proj2 (buckets_exact pread m emit (seqZ 0 (bm_maxbucket m + 1)) [] acc acc' NoDup_nil_2 ltac:(set_solver))) as [v Hv];
      [exists chains; split_and!; try done; set_solver |]. by rewrite Hv.
Qed.

(** C14: the Berkeley DB reader follows the hash format. Whatever the caller
    does with each value, reading ends well exactly when the meta page is
    one the code supports, every bucket's chain of hash pages runs to its
    end, no page is on two chains or twice on one, every item is inline or a
    chain of distinct overflow pages of exactly its length, and the caller
    accepts the values in bucket order; the result is the caller's. No file
    that meets this is refused for want of fuel. *)
Theorem bdb_reader_exact {A} (emit : A -> bytes -> res A) pread size acc acc' :
  iter_bdb_hash_values pread emit size acc = Ok acc' <->
  exists vals, bdb_file pread size vals /\ foldM emit acc vals = Ok acc'.
Proof. apply bdb_iff. Qed.
