(* ===== verification/Packages.v ===== *)
(** * Package listings in text ([detect/packages.py])

    The [rpm], [dpkg], [pacman], [apk] and [opkg] listings and databases as
    text, and the catalogue of packages that bundle their own cryptography. *)

From S2P Require Import Prelude PyStr PyDict PyVal PyRe PyBytes PyPath Der HostPath RpmHeader RpmBlobs.
From Stdlib.Strings Require Import Byte.
Open Scope Z_scope.
(** A package row: the rpm readers add release, epoch and arch. *)
Abbreviation package := (list (string * value)).
Definition pkg_row (name version : string) : package := [("name", VStr name); ("version", VStr version)].

(** ** Splitting *)

(** The span of a line that [line.strip().split(None, 1)] separates. *)
Fixpoint take_while (p : ascii -> bool) (l : list ascii) : list ascii :=
  match l with
  | c :: l => if p c then c :: take_while p l else []
  | [] => []
  end.
Definition not_space (c : ascii) : bool := negb (is_space c).
Definition split_once (s : string) : string * string :=
  let l := chars (strip s) in
  (str_of (take_while not_space l), str_of (drop_while is_space (drop_while not_space l))).

(** [re.split(r"\n\s*\n", text)]: [skip] counts the characters of the
    separator still to pass. *)
Definition BLANK_RE : re := RSeqs [RLit (String "010" EmptyString); RStar true Space; RLit (String "010" EmptyString)].
Fixpoint split_blank_chars (left acc : list ascii) (skip : nat) (l : list ascii) : list (list ascii) :=
  match l with
  | [] => [reverse acc]
  | c :: l' =>
      match skip with
      | S k => split_blank_chars (c :: left) acc k l'
      | O =>
          let p0 := Pos left l [] in
          match run BLANK_RE p0 Some with
          | Some p => reverse acc :: split_blank_chars (c :: left) [] (length (consumed p0 p) - 1) l'
          | None => split_blank_chars (c :: left) (c :: acc) 0 l'
          end
      end
  end.
Definition split_blank (s : string) : list string := str_of <$> split_blank_chars [] [] 0 (chars s).

(** [line.partition(sep)] when the separator is there. *)
Definition cut (sep s : string) : option (string * string) :=
  let k := before sep s in
  if contains sep s then Some (k, str_of (drop (String.length k + String.length sep) (chars s))) else None.

Definition non_empty (s : string) : bool := negb (String.eqb s EmptyString).

(** ** Listings *)

Definition whitespace_line (line : string) : option package :=
  let '(name, version) := split_once line in
  if non_empty name && non_empty version then Some (pkg_row name version) else None.
Definition parse_whitespace_pkg_lines (text : string) : list package := omap whitespace_line (splitlines text).

Definition not_hyphen : re := NotSet "-".
Definition APK_RE : re :=
  RSeqs [Bos; RGrp 1 (RPlus Dot); RLit "-"; RGrp 2 (RSeqs [Digit; RStar true not_hyphen; RLit "-r"; RPlus Digit]); Eos].
Definition APK_SHORT_RE : re := RSeqs [Bos; RGrp 1 (RPlus Dot); RLit "-"; RGrp 2 (RSeq Digit (RStar true not_hyphen)); Eos].
Definition apk_line (line : string) : option package :=
  let s := strip line in
  if negb (non_empty s) then None
  else
    m ← (match re_match APK_RE s with Some m => Some m | None => re_match APK_SHORT_RE s end);
    Some (pkg_row (group_or 1 m) (group_or 2 m)).
Definition parse_apk_packages (text : string) : list package := omap apk_line (splitlines text).

Definition nvra_line (line : string) : option package :=
  match words line with
  | [name; version; release; arch] =>
      if bool_decide (rstrip_by (Ascii.eqb ":") name ∈ ["warning"; "error"]) then None
      else Some (pkg_row name version ++ [("release", VStr release)] ++
                 (if String.eqb arch "(none)" then [] else [("arch", VStr arch)]))
  | _ => None
  end.
Definition parse_rpm_qa_nvra (text : string) : list package := omap nvra_line (splitlines text).

(** ** Databases *)

(** The first value of each field of a stanza; a line that starts with a
    blank continues the field before it. *)
Definition stanza_step (fields : list (string * string)) (line : string) : list (string * string) :=
  match chars line with
  | [] => fields
  | c :: _ =>
      if char_in (" " +:+ String "009" EmptyString) c then fields
      else match cut ":" line with
           | Some (key, v) => dsetdefault key (strip v) fields
           | None => fields
           end
  end.
Definition stanza_fields (stanza : string) : list (string * string) := foldl stanza_step [] (splitlines stanza).
Definition field (k : string) (fields : list (string * string)) : string := default EmptyString (dget k fields).

Definition named_row (name version : string) : option package :=
  if non_empty name && non_empty version then Some (pkg_row name version) else None.

Definition dpkg_stanza (stanza : string) : option package :=
  let f := stanza_fields stanza in named_row (field "Package" f) (field "Version" f).
Definition parse_dpkg_status (text : string) : list package := omap dpkg_stanza (split_blank text).

Definition apk_record_step (nv : string * string) (line : string) : string * string :=
  let rest := strip (str_of (drop 2 (chars line))) in
  if starts_with "P:" line then (rest, nv.2)
  else if starts_with "V:" line then (nv.1, rest)
  else nv.
Definition apk_record (record : string) : option package :=
  let '(name, version) := foldl apk_record_step (EmptyString, EmptyString) (splitlines record) in named_row name version.
Definition parse_apk_installed (text : string) : list package := omap apk_record (split_blank text).

(** The line after a [%NAME%] or [%VERSION%] line is its value. *)
Fixpoint desc_fields (fields : list (string * string)) (lines : list string) : list (string * string) :=
  match lines with
  | line :: ((next :: _) as rest) =>
      desc_fields (if bool_decide (line ∈ ["%NAME%"; "%VERSION%"]) then dset (strip_by (Ascii.eqb "%") line) (strip next) fields else fields) rest
  | _ => fields
  end.
Definition parse_pacman_desc (text : string) : option package :=
  let f := desc_fields [] (splitlines text) in named_row (field "NAME" f) (field "VERSION" f).

Definition OPKG_INSTALLED_STATES : list string := ["installed"; "unpacked"].
Definition opkg_stanza (stanza : string) : option package :=
  let f := stanza_fields stanza in
  match words (field "Status" f) with
  | [_; _; state] => if bool_decide (state ∈ OPKG_INSTALLED_STATES) then named_row (field "Package" f) (field "Version" f) else None
  | _ => None
  end.
Definition parse_opkg_status (text : string) : list package := omap opkg_stanza (split_blank text).

(** ** Packages that bundle their own cryptography *)

Definition BUNDLED_CRYPTO_BY_FAMILY : list (string * list (re * string)) := [
  ("rhel", [
    (RSeqs [Bos; RLit "java-"; RPlus Digit; ROpt (RSeqs [RLit "."; RPlus Digit; RLit "."; RPlus Digit]); RLit "-openjdk"; ROpt (RAlts [RLit "-headless"; RLit "-devel"]); Eos],
      "Java JCE provider (SunJCE / Bouncy Castle)");
    (RSeqs [Bos; RLit "bouncycastle"],
      "Bouncy Castle (separate provider)");
    (RSeqs [Bos; RAlts [RLit "golang"; RLit "go"]; ROpt (RLit "-bin"); Eos],
      "Go runtime (crypto/tls embedded; GODEBUG=fips140=on for FIPS)");
    (RSeqs [Bos; RLit "nodejs"; Eos],
      "Node.js (bundled OpenSSL build; --openssl-config controls FIPS)");
    (RSeqs [Bos; RAlts [RLit "rust"; RLit "cargo"; RLit "rustc"]; Eos],
      "Rust toolchain (rustls embeds ring or openssl-sys)");
    (RSeqs [Bos; RLit "firefox"; Eos],
      "Firefox (embeds NSS — separate PQC roadmap)");
    (RSeqs [Bos; RLit "thunderbird"; Eos],
      "Thunderbird (embeds NSS)");
    (RSeqs [Bos; RLit "chromium"; Eos],
      "Chromium (embeds BoringSSL)");
    (RSeqs [Bos; RLit "python3"; Eos],
      "Python ssl module (links system OpenSSL)")]);
  ("debian", [
    (RSeqs [Bos; RLit "openjdk-"; RPlus Digit; RLit "-"; RAlts [RLit "jdk"; RLit "jre"]; ROpt (RLit "-headless"); Eos],
      "Java JCE provider (SunJCE / Bouncy Castle)");
    (RSeqs [Bos; RLit "libbcprov-java"; Eos],
      "Bouncy Castle Java library");
    (RSeqs [Bos; RLit "golang-"; RAlts [RLit "go"; RSeqs [RPlus Digit; ROpt (RSeqs [RLit "."; RPlus Digit]); RLit "-go"]]; Eos],
      "Go runtime (crypto/tls embedded)");
    (RSeqs [Bos; RLit "nodejs"; Eos],
      "Node.js (bundled OpenSSL build)");
    (RSeqs [Bos; RAlts [RLit "rustc"; RLit "cargo"]; Eos],
      "Rust toolchain (rustls embeds ring or openssl-sys)");
    (RSeqs [Bos; RLit "firefox"; ROpt (RLit "-esr"); Eos],
      "Firefox (embeds NSS)");
    (RSeqs [Bos; RLit "thunderbird"; Eos],
      "Thunderbird (embeds NSS)");
    (RSeqs [Bos; RLit "chromium"; Eos],
      "Chromium (embeds BoringSSL)");
    (RSeqs [Bos; RLit "python3"; Eos],
      "Python ssl module (links system OpenSSL)")]);
  ("suse", [
    (RSeqs [Bos; RLit "java-"; RPlus Digit; ROpt (RSeqs [RLit "."; RPlus Digit; RLit "."; RPlus Digit]); RLit "-openjdk"; ROpt (RAlts [RLit "-headless"; RLit "-devel"]); Eos],
      "Java JCE provider");
    (RSeqs [Bos; RLit "go"; ROpt (RSeqs [RLit "1."; RPlus Digit]); Eos],
      "Go runtime");
    (RSeqs [Bos; RLit "nodejs"; ROpt (RPlus Digit); Eos],
      "Node.js");
    (RSeqs [Bos; RAlts [RLit "rust"; RLit "cargo"]; Eos],
      "Rust toolchain");
    (RSeqs [Bos; RLit "MozillaFirefox"; Eos],
      "Firefox (embeds NSS)");
    (RSeqs [Bos; RLit "MozillaThunderbird"; Eos],
      "Thunderbird (embeds NSS)");
    (RSeqs [Bos; RLit "chromium"; Eos],
      "Chromium (embeds BoringSSL)");
    (RSeqs [Bos; RLit "python3"; Eos],
      "Python ssl module")]);
  ("arch", [
    (RSeqs [Bos; RLit "jdk"; RPlus Digit; RLit "-openjdk"; Eos],
      "Java JCE provider");
    (RSeqs [Bos; RLit "go"; Eos],
      "Go runtime");
    (RSeqs [Bos; RLit "nodejs"; Eos],
      "Node.js");
    (RSeqs [Bos; RLit "rust"; Eos],
      "Rust toolchain");
    (RSeqs [Bos; RLit "firefox"; Eos],
      "Firefox (embeds NSS)");
    (RSeqs [Bos; RLit "thunderbird"; Eos],
      "Thunderbird");
    (RSeqs [Bos; RLit "chromium"; Eos],
      "Chromium");
    (RSeqs [Bos; RLit "python"; Eos],
      "Python")]);
  ("opkg", [
    (RSeqs [Bos; RLit "python3-openssl"; Eos],
      "Python ssl module (links system OpenSSL)");
    (RSeqs [Bos; RLit "node"; Eos],
      "Node.js (bundled or system OpenSSL)");
    (RSeqs [Bos; RLit "openjdk-"; RPlus Digit],
      "Java JCE provider")]);
  ("alpine", [
    (RSeqs [Bos; RLit "openjdk"; RPlus Digit; ROpt (RAlts [RLit "-jdk"; RLit "-jre"]); Eos],
      "Java JCE provider");
    (RSeqs [Bos; RLit "go"; Eos],
      "Go runtime");
    (RSeqs [Bos; RLit "nodejs"; Eos],
      "Node.js");
    (RSeqs [Bos; RLit "rust"; Eos],
      "Rust toolchain");
    (RSeqs [Bos; RLit "firefox"; Eos],
      "Firefox");
    (RSeqs [Bos; RLit "chromium"; Eos],
      "Chromium");
    (RSeqs [Bos; RLit "python3"; Eos],
      "Python")])].

(** [entry[key]] of a row. *)
Definition row_item (key : string) (p : package) : res value :=
  match dget key p with Some v => Ok v | None => Raise (KeyError key) end.

Definition kept_key (p : package) (row : package) (key : string) : package :=
  match dget key p with
  | None | Some VNone => row
  | Some v => if py_eq v (VStr EmptyString) then row else dset key (VStr (py_str v)) row
  end.

(** [pat.match(name)] on each pattern in turn: only a text can be matched. *)
Definition catalogue_hint (patterns : list (re * string)) (name : value) : res (option string) :=
  match patterns, name with
  | [], _ => Ok None
  | _, VStr s => Ok (snd <$> find (fun ph => test_match ph.1 s) patterns)
  | _, _ => Raise TypeError
  end.

Definition classify_step (patterns : list (re * string)) (st : list value * list package) (entry : package) :
    res (list value * list package) :=
  let '(seen, out) := st in
  name ← row_item "name" entry;
  if existsb (py_eq name) seen then Ok st
  else
    hint ← catalogue_hint patterns name;
    match hint with
    | None => Ok st
    | Some hint =>
        version ← row_item "version" entry;
        let row := [("package", name); ("version", version); ("note", VStr hint)] in
        Ok (seen ++ [name], out ++ [foldl (kept_key entry) row ["release"; "epoch"; "arch"]])
    end.
Definition classify_bundled_crypto (pkgs : list package) (family : string) : res (list package) :=
  '(_, out) ← foldM (classify_step (default [] (dget family BUNDLED_CRYPTO_BY_FAMILY))) ([], []) pkgs; Ok out.

(** * The package databases of a host ([detect/packages.py])

    Finding the rpm database under the prefix and reading it, the command
    line fallbacks, the other databases, the probe for hosts of unknown
    family, and [scan_packages].  The host is a record of queries; sqlite
    is one of them. *)
Definition OSError (msg : string) : exn := Custom "OSError" msg.
Definition exn_class (e : exn) : string := match e with Custom cls _ => cls | _ => EmptyString end.
Definition exn_text (e : exn) : string := match e with Custom _ msg => msg | _ => EmptyString end.
Definition is_class (cls : string) (e : exn) : bool := String.eqb (exn_class e) cls.

(** [try: m except cls as e: h(e)]. *)
Definition catch {A} (cls : exn -> bool) (m : res A) (h : exn -> res A) : res A :=
  match m with Ok a => Ok a | Raise e => if cls e then h e else Raise e end.

Inductive backend := Sqlite | Ndb | Bdb.
#[export] Instance backend_eq_dec : EqDecision backend.
Proof. solve_decision. Defined.
Definition backend_name (b : backend) : string := match b with Sqlite => "sqlite" | Ndb => "ndb" | Bdb => "bdb" end.

(** An open file: [fstat] and [pread]. *)
Record handle := Handle { h_size : res Z; h_pread : Z -> Z -> res bytes }.

(** One attempt on an sqlite database: it does not open or the query fails
    ([sqlite3.Error]), the table is empty, or the blobs. *)
Inductive sqlite_answer := SqliteFails (msg : string) | SqliteEmpty | SqliteRows (blobs : list bytes).

Record pkg_host := PkgHost {
  ph_fs : host_fs; ph_prefix : prefixes;
  ph_is_symlink : string -> bool; ph_is_file : string -> bool; ph_is_dir : string -> bool;
  ph_head : string -> res bytes;                 (* the first 16 bytes *)
  ph_open : string -> res handle;
  ph_text : string -> res string;
  ph_descs : string -> list string;              (* sorted(local.glob("*/desc")) *)
  ph_sqlite3 : option string;                    (* the import error, when there is no sqlite3 *)
  ph_sqlite : string -> string -> option (list string) -> sqlite_answer;
  ph_zlib : bool;
  ph_which : string -> bool; ph_run : list string -> Z * string;
  ph_note : option (list (string * value)) }.

(** ** Hints ([detect/osinfo.py]) *)

Definition INSTALL_HINT_BY_FAMILY : list (string * list (string * string)) := [
  ("rhel", [("lspci", "dnf install pciutils");
    ("tpm2_getcap", "dnf install tpm2-tools");
    ("swanctl", "dnf install strongswan");
    ("ssh", "dnf install openssh-clients");
    ("certutil", "dnf install nss-tools");
    ("rpm", "(should already be present on RHEL/Fedora)");
    ("dpkg-query", "n/a — RHEL uses rpm")]);
  ("debian", [("lspci", "apt-get install pciutils");
    ("tpm2_getcap", "apt-get install tpm2-tools");
    ("swanctl", "apt-get install strongswan-swanctl");
    ("ssh", "apt-get install openssh-client");
    ("certutil", "apt-get install libnss3-tools");
    ("dpkg-query", "(should already be present on Debian/Ubuntu)");
    ("rpm", "n/a — Debian uses dpkg")]);
  ("suse", [("lspci", "zypper install pciutils");
    ("tpm2_getcap", "zypper install tpm2.0-tools");
    ("swanctl", "zypper install strongswan");
    ("ssh", "zypper install openssh-clients");
    ("certutil", "zypper install mozilla-nss-tools");
    ("rpm", "(should already be present on SLES/openSUSE)")]);
  ("arch", [("lspci", "pacman -S pciutils");
    ("tpm2_getcap", "pacman -S tpm2-tools");
    ("swanctl", "pacman -S strongswan");
    ("ssh", "pacman -S openssh");
    ("certutil", "pacman -S nss");
    ("pacman", "(should already be present on Arch)")]);
  ("alpine", [("lspci", "apk add pciutils");
    ("tpm2_getcap", "apk add tpm2-tools");
    ("swanctl", "apk add strongswan");
    ("ssh", "apk add openssh-client");
    ("certutil", "apk add nss-tools");
    ("apk", "(should already be present on Alpine)")])].
Definition install_hint (binary family : string) : string :=
  default ("install the package providing " +:+ binary) (dget binary (default [] (dget family INSTALL_HINT_BY_FAMILY))).

Section Packages.
Context (h : pkg_host).
Let prefix := host_prefix (ph_prefix h).
Let under_prefix := nonempty prefix.

(** ** Finding the rpm database *)

Definition RPMDB_DIRS : list string := ["/var/lib/rpm"; "/usr/lib/sysimage/rpm"; "/usr/share/rpm"].
Definition RPMDB_FILES : list string := ["rpmdb.sqlite"; "Packages.db"; "Packages"].
Definition SQLITE_MAGIC : bytes := String.list_byte_of_string "SQLite format 3" ++ [x00].
Definition BDB_HASH_MAGICS : list bytes := [[x00; x06; x15; x61]; [x61; x15; x06; x00]].

Definition rpmdb_backend_by_magic (path : string) : option backend :=
  match ph_head h path with
  | Raise _ => None
  | Ok head =>
      if bool_decide (take (length SQLITE_MAGIC) head = SQLITE_MAGIC) then Some Sqlite
      else if bool_decide (take (length NDB_MAGIC) head = NDB_MAGIC) then Some Ndb
      else if (16 <=? blen head) && bool_decide (slice head 12 16 ∈ BDB_HASH_MAGICS) then Some Bdb
      else None
  end.

Definition resolve_under_prefix (path : string) : res string :=
  match resolve_in_root (ph_fs h) prefix path with
  | Some p => Ok p
  | None => Raise (RpmdbError ("too many symlinks resolving " +:+ path))
  end.

(** The database that was found: host directory, directory as this process
    sees it, and backend. *)
Record rpmdb := Rpmdb { db_dir : string; db_local : string; db_backend : backend }.

(** [target.rpartition("/")]. *)
Definition rpartition (target : string) : string * string :=
  let base := after_last "/" target in
  (str_of (take (String.length target - String.length base - 1) (chars target)), base).

(** One candidate file of a directory. *)
Definition try_rpmdb_file (host_dir fname : string) : option rpmdb :=
  let local_dir := py_path (prefix +:+ host_dir) in
  let f := path_join local_dir fname in
  '(f_dir, f, parent) ←
    (if under_prefix && ph_is_symlink h f then
       match resolve_under_prefix (host_dir +:+ "/" +:+ fname) with
       | Raise _ => None
       | Ok target =>
           let '(d, base) := rpartition target in
           if negb (String.eqb base fname) then None
           else Some (if nonempty d then d else "/", py_path (prefix +:+ target), dirname (py_path (prefix +:+ target)))
       end
     else Some (host_dir, f, local_dir));
  if negb (ph_is_file h f) then None
  else Rpmdb f_dir parent <$> rpmdb_backend_by_magic f.

Fixpoint first_some {A B} (f : A -> option B) (l : list A) : option B :=
  match l with
  | [] => None
  | x :: l => match f x with Some b => Some b | None => first_some f l end
  end.

Fixpoint locate_in (seen dirs : list string) : option rpmdb :=
  match dirs with
  | [] => None
  | d :: dirs =>
      match resolve_under_prefix d with
      | Raise _ => locate_in seen dirs
      | Ok host_dir =>
          if bool_decide (host_dir ∈ seen) then locate_in seen dirs
          else
            match first_some (try_rpmdb_file host_dir) RPMDB_FILES with
            | Some db => Some db
            | None => locate_in (host_dir :: seen) dirs
            end
      end
  end.
Definition locate_rpmdb : option rpmdb := locate_in [] RPMDB_DIRS.

(** ** Reading it *)

Definition sqlite_attempts : list string :=
  if nonempty (offline_root (ph_prefix h)) then ["mode=ro&immutable=1"; "mode=ro"] else ["mode=ro"; "mode=ro&immutable=1"].

Fixpoint sqlite_try (db_file : string) (names : option (list string)) (last : string) (attempts : list string) : res (list bytes) :=
  match attempts with
  | [] => Raise (RpmdbError ("cannot read " +:+ db_file +:+ ": " +:+ last))
  | a :: attempts =>
      match ph_sqlite h db_file a names with
      | SqliteFails msg => sqlite_try db_file names msg attempts
      | SqliteEmpty => Raise (RpmdbError (db_file +:+ " holds 0 packages; treating as invalid"))
      | SqliteRows blobs => Ok blobs
      end
  end.
Definition fetch_rpmdb_sqlite (db_file : string) (names : option (list string)) : res (list bytes) :=
  match ph_sqlite3 h with
  | Some msg => Raise (RpmdbError ("sqlite3 module unavailable: " +:+ msg))
  | None => sqlite_try db_file names "None" sqlite_attempts
  end.

Definition read_rpmdb_sqlite (db_file : string) : res (list header) :=
  blobs ← fetch_rpmdb_sqlite db_file None; mapM parse_rpm_header blobs.
Definition read_rpmdb_sqlite_named (db_file : string) (names : list string) : res (list header) :=
  blobs ← fetch_rpmdb_sqlite db_file (Some names); mapM parse_rpm_header blobs.

(** [pkg["name"] in names]. *)
Definition named_in (names : list string) (pkg : header) : bool :=
  match dget "name" pkg with Some v => existsb (fun n => py_eq v (VStr n)) names | None => false end.
Definition wanted (names : option (list string)) (pkg : header) : bool :=
  match names with None => true | Some l => named_in l pkg end.

(** What the loop does with each blob. *)
Definition keep_header (names : option (list string)) (st : list header * Z) (blob : bytes) : res (list header * Z) :=
  let '(out, count) := st in
  pkg ← parse_rpm_header blob;
  Ok (if wanted names pkg then out ++ [pkg] else out, count + 1).

Definition read_blobs (b : backend) (hd : handle) (names : option (list string)) : res (list header * Z) :=
  size ← h_size hd;
  match b with
  | Ndb => iter_ndb_blobs (h_pread hd) (keep_header names) (ph_zlib h) size ([], 0)
  | _ => iter_bdb_hash_values (h_pread hd) (keep_header names) size ([], 0)
  end.

Definition read_rpmdb_blobs (b : backend) (db_file : string) (names : option (list string)) : res (list header) :=
  hd ← catch (is_class "OSError") (ph_open h db_file)
         (fun e => Raise (RpmdbError ("cannot open " +:+ db_file +:+ ": " +:+ exn_text e)));
  '(out, count) ← catch (fun e => is_class "OSError" e || is_class "struct.error" e) (read_blobs b hd names)
         (fun e => Raise (RpmdbError ("cannot read " +:+ db_file +:+ ": " +:+ exn_text e)));
  if count =? 0 then Raise (RpmdbError (db_file +:+ " holds 0 packages; treating as invalid")) else Ok out.

Definition RPMDB_FILE_BY_BACKEND (b : backend) : string :=
  match b with Sqlite => "rpmdb.sqlite" | Ndb => "Packages.db" | Bdb => "Packages" end.

Definition read_rpmdb_direct (db : rpmdb) (names : option (list string)) : res (list header) :=
  let db_file := path_join (db_local db) (RPMDB_FILE_BY_BACKEND (db_backend db)) in
  match db_backend db, names with
  | Sqlite, None => read_rpmdb_sqlite db_file
  | Sqlite, Some names => read_rpmdb_sqlite_named db_file names
  | b, _ => read_rpmdb_blobs b db_file names
  end.

(** ** The inventory *)

Record inventory := Inventory { iv_source : string; iv_db_root : option string; iv_backend : option backend; iv_packages : list header }.
(** [{available: True, ...}] or [{available: False, reason}]. *)
Abbreviation answer := (string + inventory)%type.

Definition direct_result (db : rpmdb) (pkgs : list header) : inventory :=
  Inventory ("rpmdb-" +:+ backend_name (db_backend db)) (Some (db_dir db)) (Some (db_backend db)) pkgs.
Definition cli_result (db : option rpmdb) (pkgs : list header) : inventory :=
  Inventory "rpm-cli" (db_dir <$> db) (db_backend <$> db) pkgs.

Definition RPM_NVRA_QUERYFORMAT : string := "%{NAME} %{VERSION} %{RELEASE} %{ARCH}\n".

(** [argv[1:1] = ["--root", ...]]: the binary looks at the host's database. *)
Definition rpm_argv (db : option rpmdb) (args : list string) : list string :=
  "rpm" :: (match db with
            | Some db => if under_prefix then ["--root"; prefix; "--dbpath"; db_dir db] else []
            | None => []
            end) ++ args.

Definition query_rpm_cli (db : option rpmdb) : answer :=
  if under_prefix && (if db is None then true else false) then
    inl ("no rpm database found under " +:+ prefix +:+ " (" +:+ str_join ", " RPMDB_DIRS +:+ "); is the host rpmdb mounted?")
  else if negb (ph_which h "rpm") then inl "rpm not on PATH"
  else
    let '(rc, out) := ph_run h (rpm_argv db ["-qa"; "--queryformat"; RPM_NVRA_QUERYFORMAT]) in
    if negb (rc =? 0) then inl ("rpm -qa failed (rc=" +:+ show_Z rc +:+ ")")
    else inr (cli_result db (parse_rpm_qa_nvra out)).

Definition query_rpm_packages : res answer :=
  match locate_rpmdb with
  | None => Ok (query_rpm_cli None)
  | Some db =>
      catch (is_class "RpmdbError") (pkgs ← read_rpmdb_direct db None; Ok (inr (direct_result db pkgs)))
        (fun _ => Ok (query_rpm_cli (Some db)))
  end.

Definition query_rpm_named_cli (db : option rpmdb) (names : list string) : answer :=
  if under_prefix && (if db is None then true else false) then inl ("no rpm database found under " +:+ prefix)
  else if negb (ph_which h "rpm") then inl "rpm not on PATH"
  else
    let '(rc, out) := ph_run h (rpm_argv db (["-q"; "--queryformat"; RPM_NVRA_QUERYFORMAT] ++ names)) in
    let pkgs := parse_rpm_qa_nvra out in
    if negb (rc =? 0) && (if pkgs is [] then true else false) && negb (contains "is not installed" out)
    then inl ("rpm -q failed (rc=" +:+ show_Z rc +:+ ")")
    else inr (cli_result db pkgs).

Definition query_rpm_named_from_inventory (names : list string) : res answer :=
  inv ← query_rpm_packages;
  Ok (match inv with
      | inl reason => inl reason
      | inr iv => inr (Inventory (iv_source iv) (iv_db_root iv) (iv_backend iv) (List.filter (named_in names) (iv_packages iv)))
      end).

(** The direct read of the named packages, with its fallbacks. *)
Definition named_direct (db : rpmdb) (names : list string) : res answer :=
  catch (is_class "RpmdbError") (pkgs ← read_rpmdb_direct db (Some names); Ok (inr (direct_result db pkgs)))
    (fun _ => if bool_decide (db_backend db = Sqlite) then query_rpm_named_from_inventory names
              else Ok (query_rpm_named_cli (Some db) names)).

(** [cached]: the full inventory was read before. *)
Definition query_rpm_named (cached : bool) (names : list string) : res answer :=
  if cached then query_rpm_named_from_inventory names
  else
    match locate_rpmdb with
    | None => Ok (query_rpm_named_cli None names)
    | Some db =>
        if bool_decide (db_backend db = Sqlite) then named_direct db names
        else match query_rpm_named_cli (Some db) names with
             | inr iv => Ok (inr iv)
             | inl _ => named_direct db names
             end
    end.

(** ** The other databases *)

Definition PREFIXED_PACKAGE_DBS : list (string * (string * string * string)) := [
  ("debian", ("dpkg", "dpkg-status", "/var/lib/dpkg/status"));
  ("alpine", ("apk", "apk-installed-db", "/lib/apk/db/installed"));
  ("arch", ("pacman", "pacman-local-db", "/var/lib/pacman/local"))].
Definition OPKG_STATUS_PATHS : list string := ["/usr/lib/opkg/status"; "/var/lib/opkg/status"].

Fixpoint read_opkg_paths (paths : list string) : res (list package * string) :=
  match paths with
  | [] => Raise (OSError (str_join " or " OPKG_STATUS_PATHS))
  | path :: paths =>
      match resolve_under_prefix path with
      | Raise _ => read_opkg_paths paths
      | Ok host_rel =>
          let local := py_path (prefix +:+ host_rel) in
          if ph_is_file h local then text ← ph_text h local; Ok (parse_opkg_status text, host_rel)
          else read_opkg_paths paths
      end
  end.
Definition read_opkg_db : res (list package * string) := read_opkg_paths OPKG_STATUS_PATHS.

Definition read_prefixed_package_db (family : string) : res (list package * string) :=
  if String.eqb family "opkg" then read_opkg_db
  else
    match dget family PREFIXED_PACKAGE_DBS with
    | None => Raise (KeyError family)
    | Some (_, _, db) =>
        host_rel ← (match resolve_under_prefix db with Ok p => Ok p | Raise e => Raise (OSError (exn_text e)) end);
        let local := py_path (prefix +:+ host_rel) in
        if String.eqb family "arch" then
          if negb (ph_is_dir h local) then Raise (OSError local)
          else
            texts ← mapM (fun desc => ph_text h (in_tree (ph_fs h) (ph_prefix h) desc)) (ph_descs h local);
            Ok (omap parse_pacman_desc texts, host_rel)
        else
          text ← ph_text h local;
          Ok (if String.eqb family "debian" then parse_dpkg_status text else parse_apk_installed text, host_rel)
    end.

(** ** Reports *)

Definition unavailable (reason : string) : package := [("available", VBool false); ("reason", VStr reason)].
Definition row_values (rows : list package) : value := VList (VDict <$> rows).
Definition scan_report (manager : string) (extra : list (string * value)) (pkgs : list package) (family : string) : res package :=
  bundled ← classify_bundled_crypto pkgs family;
  Ok ([("available", VBool true); ("package_manager", VStr manager)] ++ extra ++
      [("total_packages", VInt (Z.of_nat (length pkgs))); ("bundled_crypto", row_values bundled)]).
Definition located (source : string) (db_root : value) : list (string * value) := [("source", VStr source); ("db_root", db_root)].

Definition scan_prefixed_packages (family : string) : res package :=
  match dget family PREFIXED_PACKAGE_DBS with
  | None => Raise (KeyError family)
  | Some (manager, source, db) =>
      match read_prefixed_package_db family with
      | Ok (pkgs, host_rel) => scan_report manager (located source (VStr host_rel)) pkgs family
      | Raise e => if is_class "OSError" e then Ok (unavailable ("no " +:+ manager +:+ " database at " +:+ db +:+ " under " +:+ prefix))
                   else Raise e
      end
  end.

Definition PROBE_ORDER : list (string * string * string) := [
  ("rpm", "rpm", EmptyString); ("debian", "dpkg", "dpkg-status"); ("alpine", "apk", "apk-installed-db");
  ("opkg", "opkg", "opkg-status"); ("arch", "pacman", "pacman-local-db")].

Record probed := Probed { pb_kind : string; pb_manager : string; pb_source : string; pb_db_root : value; pb_packages : list package }.

(** Name and version of a row: [p["name"]], [p["version"]]. *)
Definition name_version (p : package) : res package :=
  n ← row_item "name" p; v ← row_item "version" p; Ok [("name", n); ("version", v)].

Definition probe_kind (kms : string * string * string) : res (option probed) :=
  let '(kind, manager, source) := kms in
  if String.eqb kind "rpm" then
    match locate_rpmdb with
    | None => Ok None
    | Some _ =>
        inv ← query_rpm_packages;
        match inv with
        | inl _ => Ok None
        | inr iv =>
            rows ← mapM name_version (iv_packages iv);
            Ok (Some (Probed kind manager (iv_source iv) (of_ostr (iv_db_root iv)) rows))
        end
    end
  else
    catch (is_class "OSError")
      ('(pkgs, host_rel) ← read_prefixed_package_db kind; Ok (Some (Probed kind manager source (VStr host_rel) pkgs)))
      (fun _ => Ok None).

Fixpoint probe_kinds (order : list (string * string * string)) : res (option probed) :=
  match order with
  | [] => Ok None
  | k :: order => found ← probe_kind k; match found with Some p => Ok (Some p) | None => probe_kinds order end
  end.
Definition probe_package_db : res (option probed) := probe_kinds PROBE_ORDER.

Definition scan_probed_packages (family : string) : res package :=
  found ← probe_package_db;
  match found with
  | None =>
      Ok (unavailable ("no package database found" +:+ (if under_prefix then " under " +:+ prefix else EmptyString) +:+
        " for family=" +:+ family +:+ " (looked for rpm, dpkg, apk, opkg and pacman databases)"))
  | Some p =>
      scan_report (pb_manager p) (located (pb_source p) (pb_db_root p)) (pb_packages p)
        (if String.eqb (pb_kind p) "rpm" then "rhel" else pb_kind p)
  end.

Definition scan_rpm_packages (family : string) : res package :=
  inv ← query_rpm_packages;
  match inv with
  | inl reason =>
      Ok (unavailable (if String.eqb reason "rpm not on PATH" then "rpm not on PATH (" +:+ install_hint "rpm" family +:+ ")" else reason))
  | inr iv =>
      out ← scan_report "rpm" (located (iv_source iv) (of_ostr (iv_db_root iv))) (iv_packages iv) family;
      Ok (match ph_note h with Some note => dupdate out note | None => out end)
  end.

(** The command and the parser of a family. *)
Definition PACKAGE_QUERY_BY_FAMILY : list (string * (list string * (string -> list package))) := [
  ("rhel", (["rpm"; "-qa"; "--queryformat"; "%{NAME} %{VERSION}\n"], parse_whitespace_pkg_lines));
  ("suse", (["rpm"; "-qa"; "--queryformat"; "%{NAME} %{VERSION}\n"], parse_whitespace_pkg_lines));
  ("debian", (["dpkg-query"; "-W"; "-f=${Package} ${Version}\n"], parse_whitespace_pkg_lines));
  ("arch", (["pacman"; "-Q"], parse_whitespace_pkg_lines));
  ("alpine", (["apk"; "info"; "-v"], parse_apk_packages))].

(** [family]: that of [os_release], "unknown" where there is none. *)
Definition scan_packages (family : string) : res package :=
  if bool_decide (family ∈ ["rhel"; "suse"]) then scan_rpm_packages family
  else if under_prefix && dmem family PREFIXED_PACKAGE_DBS then scan_prefixed_packages family
  else
    match dget family PACKAGE_QUERY_BY_FAMILY with
    | None => scan_probed_packages family
    | Some (argv, parser) =>
        let tool := default EmptyString (head argv) in
        if negb (ph_which h tool) then Ok (unavailable (tool +:+ " not on PATH (" +:+ install_hint tool family +:+ ")"))
        else
          let '(rc, out) := ph_run h argv in
          if negb (rc =? 0) then Ok (unavailable (tool +:+ " failed (rc=" +:+ show_Z rc +:+ ")"))
          else scan_report tool [] (parser out) family
    end.
End Packages.
