(* ===== verification/PackagesTheory.v ===== *)
(** * The rpm inventory: exact, total and confined

    The blob readers composed with the header reader; no database, however
    corrupt, makes the inventory fail; and under a prefix the inventory
    never comes from the scanning machine's own tools. *)

From stdpp Require Import sets.
From S2P Require Import Prelude PyStr PyDict PyVal PyBytes Der Boot HostPath RpmHeader RpmBlobs RpmBlobsTheory Packages.
From Stdlib.Strings Require Import Byte.
Open Scope Z_scope.

(** ** What a read may raise *)

Section Safe.
Context (E : exn -> Prop) (pread : Z -> Z -> res bytes) {A : Type} (emit : A -> bytes -> res A).
Context (HE : forall msg, E (RpmdbError msg)) (HS : E StructError).
Context (Hpread : forall n off, safe E (fun _ => True) (pread n off)).
Context (P : A -> Prop) (Hemit : forall acc b, P acc -> safe E P (emit acc b)).

Lemma pread_exact_safe n off : safe E (fun b => blen b = n) (pread_exact pread n off).
Proof.
  unfold pread_exact. eapply safe_bind; [apply Hpread|]. intros b _. destruct (blen b =? n) eqn:H; cbn [negb safe]; [lia | apply HE].
Qed.

Lemma need_safe data off n : safe E (fun _ => True) (need data off n).
Proof. unfold need. by destruct (_ <? _). Qed.

Lemma unpack_from_safe big n data off : 0 <= n -> safe E (fun z => 0 <= z < 256 ^ n) (unpack_from big n data off).
Proof. intros Hn. unfold unpack_from. eapply safe_bind; [apply need_safe|]. intros _ _. by apply unpack_range. Qed.

Lemma yields_safe {X} (f : X -> res (option bytes)) acc x : P acc -> safe E (fun _ => True) (f x) -> safe E P (yields emit f acc x).
Proof. intros Hacc H. unfold yields. eapply safe_bind; [apply H|]. intros [b|] _; [by apply Hemit | done]. Qed.

Lemma ndb_slot_safe zlib fileblks minblkoff slots off : safe E (fun _ => True) (ndb_slot pread zlib fileblks minblkoff slots off).
Proof.
  unfold ndb_slot. eapply safe_bind; [apply need_safe|]. intros _ _. cbv zeta.
  destruct (negb _); [apply HE|]. destruct (_ =? 0); [done|]. destruct (_ || _); [apply HE|].
  enough (H : safe E (fun _ => True) (ndb_blob pread zlib (unpack false slots 4 (off + 4)) (unpack false slots 4 (off + 8)) (unpack false slots 4 (off + 12))))
    by (by destruct (ndb_blob _ _ _ _ _)).
  unfold ndb_blob. eapply safe_bind; [apply pread_exact_safe|]. intros region _. eapply safe_bind; [apply need_safe|]. intros _ _. cbv zeta.
  destruct (_ || _); [apply HE|]. destruct (_ || _); [apply HE|]. destruct (_ && _); [apply HE | done].
Qed.

Lemma iter_ndb_safe zlib size acc : P acc -> safe E P (iter_ndb_blobs pread emit zlib size acc).
Proof.
  intros Hacc. unfold iter_ndb_blobs. eapply safe_bind; [apply pread_exact_safe|]. intros head _. cbv zeta.
  destruct (negb _); [apply HE|]. destruct (negb _); [apply HE|]. destruct (_ || _); [apply HE|]. destruct (_ <? _); [apply HE|].
  eapply safe_bind; [apply pread_exact_safe|]. intros slots _.
  apply safe_foldM; [done|]. intros b off _ Hb. apply yields_safe, ndb_slot_safe. done.
Qed.

(** ** Berkeley DB: no index error, and the fuel is enough *)

(** What [read_meta] guarantees. *)
Record meta_ok (size : Z) (m : bdb_meta) : Prop := {
  mo_pagesize : 512 <= bm_pagesize m;
  mo_last : 0 <= bm_lastpage m /\ (bm_lastpage m + 1) * bm_pagesize m <= size;
  mo_buckets : bm_maxbucket m <= bm_lastpage m;
  mo_spares : length (bm_spares m) = 32%nat }.

Lemma read_meta_safe size : safe E (meta_ok size) (read_meta pread size).
Proof.
  unfold read_meta. eapply safe_bind; [apply pread_exact_safe|]. intros meta _.
  apply (safe_bind _ (fun _ => True)); [destruct (_ =? _); [done|]; destruct (_ =? _); [done | apply HE]|]. intros big _. cbv zeta.
  destruct (negb _); [apply HE|]. destruct (_ || _) eqn:E1; [apply HE|]. destruct (size <? _) eqn:E2; [apply HE|].
  destruct (_ <? _) eqn:E3 in |- *; [apply HE|]. cbn [safe]. pose proof (unpack_range big meta 4 32 ltac:(done)).
  split; cbn [bm_pagesize bm_lastpage bm_maxbucket bm_spares] in *; try lia.
  by rewrite length_fmap, length_seqZ.
Qed.

Section Meta.
Context (m : bdb_meta) (size : Z) (Hm : meta_ok size m) (Hsize : size < 2 ^ 40).

Lemma page_safe pgno : safe E (fun pg => 0 < pgno <= bm_lastpage m /\ blen pg = bm_pagesize m) (page pread m pgno).
Proof.
  unfold page. destruct (negb _) eqn:Hp; [apply HE|]. eapply safe_bind; [apply pread_exact_safe|]. intros pg Hpg.
  eapply safe_bind; [by apply unpack_from_safe|]. intros n _. destruct (negb (n =? pgno)); [apply HE|]. split; [lia | done].
Qed.

Lemma byte_at_safe pg off : 0 <= off < blen pg -> safe E (fun _ => True) (byte_at pg off).
Proof. intros H. destruct (byte_at_ok pg off H) as (z & -> & _). done. Qed.

Lemma overflow_loop_safe total : forall fuel seen out pgno, NoDup seen -> (forall x, x ∈ seen -> 0 < x <= bm_lastpage m) ->
  bm_lastpage m - Z.of_nat (length seen) < Z.of_nat fuel -> safe E (fun _ => True) (overflow_loop pread m fuel total seen out pgno).
Proof.
  pose proof (mo_pagesize _ _ Hm). pose proof (mo_last _ _ Hm) as [Hlast _].
  induction fuel as [|fuel IH]; intros seen out pgno Hnd Hin Hfuel; cbn [overflow_loop]; (destruct (total <=? _); [done|]).
  { pose proof (pages_bound seen _ Hlast Hnd Hin). lia. }
  case_bool_decide as Hs; [apply HE|]. eapply safe_bind; [apply page_safe|]. intros pg [Hpg Hlen].
  eapply safe_bind; [apply byte_at_safe; lia|]. intros kind _. destruct (negb _); [apply HE|].
  eapply safe_bind; [by apply unpack_from_safe|]. intros used _. destruct (_ || _); [apply HE|].
  eapply safe_bind; [by apply unpack_from_safe|]. intros next _. apply IH; [by constructor| |cbn [length]; lia].
  intros x [->|Hx]%elem_of_cons; [done | by apply Hin].
Qed.

Lemma item_safe pg off len : blen pg = bm_pagesize m -> 0 <= off -> safe E (fun _ => True) (item pread m pg off len).
Proof.
  intros Hpg Hoff. unfold item. destruct (_ || _) eqn:Hfit; [apply HE|]. eapply safe_bind; [apply byte_at_safe; lia|]. intros kind _.
  destruct (_ =? _); [done|]. destruct (_ && _); [|apply HE]. eapply safe_bind; [apply need_safe|]. intros _ _.
  unfold overflow. destruct (unpack (bm_big m) pg 4 (off + 8) <=? 0); [apply HE|]. apply overflow_loop_safe; [constructor | set_solver |].
  unfold chain_fuel. simpl length. lia.
Qed.

Lemma hash_page_safe pgno acc : P acc -> safe E (fun x => P x.1 /\ 0 < pgno <= bm_lastpage m) (hash_page pread m emit pgno acc).
Proof.
  intros Hacc. pose proof (mo_pagesize _ _ Hm). unfold hash_page.
  apply (safe_bind _ (fun x => 0 < pgno <= bm_lastpage m /\ blen x.1 = bm_pagesize m)).
  - unfold hash_header. eapply safe_bind; [apply page_safe|]. intros pg [Hp Hl]. eapply safe_bind; [apply byte_at_safe; lia|]. intros kind _.
    destruct (negb _); [apply HE|]. eapply safe_bind; [by apply unpack_from_safe|]. intros nent _. destruct (_ <? nent); [apply HE|].
    eapply safe_bind; [apply need_safe|]. done.
  - intros [pg nent] [Hp Hl]. cbn [fst] in Hl. apply (safe_bind _ P).
    + apply safe_foldM; [done|]. intros b idx _ Hb. apply yields_safe; [done|]. unfold hash_entry. cbv zeta. destruct (negb _); [apply HE|].
      eapply safe_bind; [apply item_safe; [done | by apply unpack_range]|]. intros key _. destruct (_ || _); [done|].
      match goal with |- safe _ _ (Some <$> ?i) => enough (Hi : safe E (fun _ => True) i) by (by destruct i) end.
      apply item_safe; [done | by apply unpack_range].
    + intros acc' Hacc'. eapply safe_bind; [by apply unpack_from_safe|]. done.
Qed.

Definition visited_ok (visited : list Z) : Prop := NoDup visited /\ forall x, x ∈ visited -> 0 < x <= bm_lastpage m.

Lemma bucket_loop_safe : forall fuel visited acc pgno, P acc -> visited_ok visited -> bm_lastpage m - Z.of_nat (length visited) < Z.of_nat fuel ->
  safe E (fun st => P st.1 /\ visited_ok st.2) (bucket_loop pread m emit fuel visited acc pgno).
Proof.
  pose proof (mo_last _ _ Hm) as [Hlast _].
  induction fuel as [|fuel IH]; intros visited acc pgno Hacc [Hnd Hin] Hfuel; cbn [bucket_loop]; (destruct (pgno =? 0); [done|]).
  { pose proof (pages_bound visited _ Hlast Hnd Hin). lia. }
  case_bool_decide as Hs; [apply HE|]. eapply safe_bind; [by apply hash_page_safe|]. intros [acc' next] [Hacc' Hp].
  apply IH; [done| |cbn [length]; lia]. split; [by constructor|]. intros x [->|Hx]%elem_of_cons; [done | by apply Hin].
Qed.

Lemma bit_length_bound b k : 0 <= b < 2 ^ k -> 0 <= k -> 0 <= bit_length b <= k.
Proof.
  intros Hb Hk. unfold bit_length. destruct (b =? 0) eqn:Hz; [lia|]. pose proof (Z.log2_nonneg b).
  assert (Z.log2 b < k) by (apply Z.log2_lt_pow2; lia). lia.
Qed.

Lemma bucket_safe st b : P st.1 -> visited_ok st.2 -> 0 <= b <= bm_maxbucket m -> safe E (fun st => P st.1 /\ visited_ok st.2) (bucket pread m emit st b).
Proof.
  intros Hacc Hv Hb. pose proof (mo_pagesize _ _ Hm). pose proof (mo_last _ _ Hm) as [Hlast Hfits]. pose proof (mo_buckets _ _ Hm).
  assert (Hsmall : 0 <= b < 2 ^ 31) by (change (2 ^ 40) with (2 ^ 31 * 512) in Hsize; nia).
  pose proof (bit_length_bound b 31 Hsmall ltac:(done)). unfold bucket.
  destruct (lookup_lt_is_Some_2 (bm_spares m) (Z.to_nat (bit_length b))) as [spare ->]; [rewrite (mo_spares _ _ Hm); lia|].
  apply bucket_loop_safe; [done..|]. unfold chain_fuel; lia.
Qed.
End Meta.

Lemma iter_bdb_safe size acc : P acc -> size < 2 ^ 40 -> safe E P (iter_bdb_hash_values pread emit size acc).
Proof.
  intros Hacc Hsize. unfold iter_bdb_hash_values. eapply safe_bind; [apply read_meta_safe|]. intros m Hm.
  apply (safe_bind _ (fun st => P st.1 /\ visited_ok m st.2)); [|by intros [acc' v] [? _]].
  apply safe_foldM; [split; [done | split; [constructor | set_solver]]|]. intros st b Hb [Hp Hv]. apply (bucket_safe m size Hm Hsize); [done..|].
  apply elem_of_seqZ in Hb. lia.
Qed.
End Safe.

(** ** The blob databases *)

Lemma catch_ok {A} cls (m : res A) hd a : (forall e, is_ok (hd e) = false) -> catch cls m hd = Ok a <-> m = Ok a.
Proof.
  intros Hh. destruct m as [b|e]; [done|]. cbn [catch]. split; [|done]. specialize (Hh e). destruct (cls e); [|done].
  intros H. by rewrite H in Hh.
Qed.

Lemma catch_safe {A} cls (m : res A) hd (E E' : exn -> Prop) P :
  safe E P m -> (forall e, E e -> cls e = true -> safe E' P (hd e)) -> (forall e, E e -> cls e = false -> E' e) ->
  safe E' P (catch cls m hd).
Proof. intros Hm Hh Hn. destruct m as [a|e]; [done|]. cbn [safe catch] in *. destruct (cls e) eqn:Hc; [by apply Hh | by apply Hn]. Qed.

Lemma keep_headers_exact names blobs : forall out n out' n',
  foldM (keep_header names) (out, n) blobs = Ok (out', n') <->
  (exists hs, Forall2 describes blobs hs /\ out' = out ++ List.filter (wanted names) hs /\ n' = n + Z.of_nat (length blobs)).
Proof.
  induction blobs as [|b blobs IH]; intros out n out' n'.
  - cbn. split; [intros [= <- <-]; exists []; rewrite app_nil_r; split_and!; [constructor | done | lia]|].
    intros (hs & ->%Forall2_nil_inv_l & -> & ->). cbn. rewrite app_nil_r. do 2 f_equal. lia.
  - cbn [foldM keep_header]. split.
    + intros H. bind H as st Hst. bind Hst as pkg Hp. apply header_iff in Hp. injection Hst as <-.
      apply IH in H as (hs & Hhs & -> & ->). exists (pkg :: hs). cbn [List.filter length]. split_and!; [by constructor | | lia].
      destruct (wanted names pkg); [by rewrite <- app_assoc | done].
    + intros (hs & (pkg & hs' & Hp & Hhs & ->)%Forall2_cons_inv_l & -> & ->). apply header_iff in Hp. rewrite Hp.
      cbn [mbind res_bind]. apply IH. exists hs'. cbn [List.filter length]. split_and!; [done | | lia].
      destruct (wanted names pkg); [by rewrite <- app_assoc | done].
Qed.

(** The package blobs of a database file. *)
Definition db_holds (zlib : bool) (b : backend) (data : bytes) (blobs : list bytes) : Prop :=
  match b with Ndb => ndb_file zlib data blobs | _ => bdb_file (pread_of data) (blen data) blobs end.

(** C2: the in-process read of an ndb or Berkeley DB database gives, of every
    database file that holds at least one package and whose blobs are all
    headers, exactly the headers, in database order, restricted to the names
    that were asked for; of any other file it gives nothing. *)
Theorem read_rpmdb_blobs_exact h b db_file data names out
    (Hopen : ph_open h db_file = Ok (Handle (Ok (blen data)) (pread_of data))) (Hb : b <> Sqlite) :
  read_rpmdb_blobs h b db_file names = Ok out <->
  (exists blobs hs, db_holds (ph_zlib h) b data blobs /\ blobs <> [] /\ Forall2 describes blobs hs /\
     out = List.filter (wanted names) hs).
Proof.
  unfold read_rpmdb_blobs. rewrite Hopen. cbn [catch mbind res_bind].
  assert (Hread : forall out n, read_blobs h b (Handle (Ok (blen data)) (pread_of data)) names = Ok (out, n) <->
    exists blobs hs, db_holds (ph_zlib h) b data blobs /\ Forall2 describes blobs hs /\
      out = List.filter (wanted names) hs /\ n = Z.of_nat (length blobs)).
  { intros o n. unfold read_blobs, db_holds. cbn [h_size h_pread mbind res_bind]. destruct b; [done| |].
    - rewrite ndb_iff. setoid_rewrite keep_headers_exact. naive_solver.
    - rewrite bdb_iff. setoid_rewrite keep_headers_exact. naive_solver. }
  split.
  - intros H. bind H as st Hst. destruct st as [o n]. apply catch_ok in Hst; [|done].
    apply Hread in Hst as (blobs & hs & Hd & Hh & -> & ->). destruct (_ =? 0) eqn:E in H; [done|]. injection H as <-.
    exists blobs, hs. split_and!; try done. by intros ->.
  - intros (blobs & hs & Hd & Hne & Hh & ->).
    rewrite (proj2 (Hread (List.filter (wanted names) hs) (Z.of_nat (length blobs)))) by eauto 6. cbn [catch mbind res_bind]. destruct blobs; [done|]. reflexivity.
Qed.

(** ** The inventory never fails *)

Definition os_error (e : exn) : Prop := is_class "OSError" e = true.

(** Opening, measuring and reading a database raise [OSError] only, and the
    file is smaller than a tebibyte. *)
Definition handle_ok (hd : handle) : Prop :=
  safe os_error (fun n => n < 2 ^ 40) (h_size hd) /\ forall n off, safe os_error (fun _ => True) (h_pread hd n off).
Definition host_ok (h : pkg_host) : Prop := forall f, safe os_error handle_ok (ph_open h f).

(** A row that every consumer can index. *)
Definition row_named (p : package) : Prop := dmem "name" p = true /\ dmem "version" p = true.

Definition read_error (e : exn) : Prop := rpmdb_error e \/ os_error e \/ e = StructError.

Lemma header_named blob : safe rpmdb_error row_named (parse_rpm_header blob).
Proof. eapply safe_mono; [apply header_safe | | done]. intros out (_ & Hn & Hv). done. Qed.

Lemma headers_named blobs : safe rpmdb_error (Forall row_named) (mapM parse_rpm_header blobs).
Proof.
  induction blobs as [|b blobs IH]; [constructor|].
  change (mapM parse_rpm_header (b :: blobs)) with (y ← parse_rpm_header b; z ← mapM parse_rpm_header blobs; mret (y :: z)).
  eapply safe_bind; [apply header_named|]. intros y Hy. eapply safe_bind; [apply IH|]. intros z Hz. by constructor.
Qed.

Definition kept (st : list header * Z) : Prop := Forall row_named st.1.

Lemma keep_header_safe names st b : kept st -> safe read_error kept (keep_header names st b).
Proof.
  destruct st as [out n]. intros Hst. unfold keep_header. eapply safe_bind.
  - eapply safe_mono; [apply header_named | intros p Hp; exact Hp |]. intros e He. by left.
  - intros p Hp. cbn [safe]. unfold kept. cbn [fst]. destruct (wanted names p); [|done].
    apply Forall_app. split; [done | by apply Forall_singleton].
Qed.

Lemma read_blobs_safe h b hd names : handle_ok hd -> safe read_error kept (read_blobs h b hd names).
Proof.
  intros [Hsize Hread]. unfold read_blobs. eapply safe_bind.
  { eapply safe_mono; [apply Hsize | intros n Hn; exact Hn |]. intros e He. right. by left. }
  intros n Hn. cbv beta in Hn. assert (HE : forall msg, read_error (RpmdbError msg)) by (intros msg; left; by eexists).
  assert (HS : read_error StructError) by (right; by right).
  assert (Hp : forall k off, safe read_error (fun _ => True) (h_pread hd k off)).
  { intros k off. eapply safe_mono; [apply Hread | done |]. intros e He. right. by left. }
  assert (H0 : kept ([], 0)) by constructor. assert (Hk : forall acc bl, kept acc -> safe read_error kept (keep_header names acc bl))
    by (intros acc bl; apply keep_header_safe).
  destruct b; [by apply (iter_bdb_safe read_error) | by apply (iter_ndb_safe read_error) | by apply (iter_bdb_safe read_error)].
Qed.

Lemma read_rpmdb_blobs_safe h b db_file names : host_ok h ->
  safe rpmdb_error (Forall row_named) (read_rpmdb_blobs h b db_file names).
Proof.
  intros Hh. unfold read_rpmdb_blobs. eapply (safe_bind _ handle_ok).
  { eapply catch_safe; [apply Hh | intros e _ _; by eexists | intros e He Hc; unfold os_error in He; congruence]. }
  intros hd Hhd. eapply (safe_bind _ kept).
  { eapply catch_safe; [by apply read_blobs_safe | intros e _ _; by eexists |].
    intros e [He|[He| ->]] Hc; [done | unfold os_error in He; by rewrite He in Hc | done]. }
  intros [out n] Hk. destruct (n =? 0); [by eexists | done].
Qed.

Lemma fetch_safe h db_file names : safe rpmdb_error (fun _ => True) (fetch_rpmdb_sqlite h db_file names).
Proof.
  unfold fetch_rpmdb_sqlite. destruct (ph_sqlite3 h); [by eexists|]. generalize "None"%string as last.
  induction (sqlite_attempts h) as [|a l IH]; intros last; cbn [sqlite_try]; [by eexists|].
  destruct (ph_sqlite h db_file a names); [apply IH | by eexists | done].
Qed.

Lemma read_rpmdb_direct_safe h db names : host_ok h -> safe rpmdb_error (Forall row_named) (read_rpmdb_direct h db names).
Proof.
  intros Hh. unfold read_rpmdb_direct. cbv zeta.
  destruct (db_backend db), names; try (by apply read_rpmdb_blobs_safe);
    (eapply safe_bind; [apply fetch_safe | intros bl _; apply headers_named]).
Qed.

Lemma omap_Forall {X Y} (f : X -> option Y) (Q : Y -> Prop) l : (forall x y, f x = Some y -> Q y) -> Forall Q (omap f l).
Proof. intros H. induction l as [|x l IH]; [constructor|]. cbn. destruct (f x) eqn:E; [constructor; eauto | done]. Qed.

Lemma nvra_named out : Forall row_named (parse_rpm_qa_nvra out).
Proof.
  apply omap_Forall. intros line p. unfold nvra_line. repeat case_match; try done. all: intros [= <-]; done.
Qed.

(** What an answer must be: a reason, or rows with a name and a version. *)
Definition answer_ok (a : (string + inventory)%type) : Prop := match a with inl _ => True | inr iv => Forall row_named (iv_packages iv) end.

Lemma cli_ok h db : answer_ok (query_rpm_cli h db).
Proof.
  unfold query_rpm_cli. destruct (_ && _); [done|]. destruct (negb _); [done|]. destruct (ph_run h _) as [rc out].
  destruct (negb _); [done|]. apply nvra_named.
Qed.
Lemma named_cli_ok h db names : answer_ok (query_rpm_named_cli h db names).
Proof.
  unfold query_rpm_named_cli. destruct (_ && _); [done|]. destruct (negb _); [done|]. destruct (ph_run h _) as [rc out]. cbv zeta.
  destruct (negb _ && _ && _); [done|]. apply nvra_named.
Qed.

Definition no_error (e : exn) : Prop := False.

Lemma rpmdb_class e : rpmdb_error e -> is_class "RpmdbError" e = true.
Proof. by intros [msg ->]. Qed.

Lemma query_safe h : host_ok h -> safe no_error answer_ok (query_rpm_packages h).
Proof.
  intros Hh. unfold query_rpm_packages. destruct (locate_rpmdb h) as [db|]; [|apply cli_ok].
  eapply (catch_safe _ _ _ rpmdb_error).
  - eapply safe_bind; [by apply read_rpmdb_direct_safe|]. intros pkgs Hp. exact Hp.
  - intros e _ _. apply cli_ok.
  - intros e He%rpmdb_class Hc. congruence.
Qed.

Lemma from_inventory_safe h names : host_ok h -> safe no_error answer_ok (query_rpm_named_from_inventory h names).
Proof.
  intros Hh. unfold query_rpm_named_from_inventory. eapply safe_bind; [by apply query_safe|]. intros [reason|iv] Hiv; [done|].
  cbn [safe answer_ok iv_packages] in *. apply Forall_forall. intros p Hp. apply list_elem_of_In, filter_In in Hp as [Hp _].
  rewrite Forall_forall in Hiv. apply Hiv. by apply list_elem_of_In.
Qed.

Lemma named_safe h cached names : host_ok h -> safe no_error answer_ok (query_rpm_named h cached names).
Proof.
  intros Hh. unfold query_rpm_named. destruct cached; [by apply from_inventory_safe|].
  destruct (locate_rpmdb h) as [db|]; [|apply named_cli_ok].
  assert (Hd : safe no_error answer_ok (named_direct h db names)).
  { unfold named_direct. eapply (catch_safe _ _ _ rpmdb_error).
    - eapply safe_bind; [by apply read_rpmdb_direct_safe|]. intros pkgs Hp. exact Hp.
    - intros e _ _. destruct (bool_decide _); [by apply from_inventory_safe | apply named_cli_ok].
    - intros e He%rpmdb_class Hc. congruence. }
  destruct (bool_decide _); [done|]. pose proof (named_cli_ok h (Some db) names).
  by destruct (query_rpm_named_cli h (Some db) names).
Qed.

Lemma catalogue_safe patterns name : safe (fun e => e = TypeError) (fun _ => True) (catalogue_hint patterns name).
Proof. unfold catalogue_hint. by destruct patterns, name. Qed.

Lemma row_item_named key p : dmem key p = true -> exists v, row_item key p = Ok v.
Proof. unfold dmem, row_item. destruct (dget key p); [eauto | done]. Qed.

Lemma classify_safe pkgs family : Forall row_named pkgs -> safe (fun e => e = TypeError) (fun _ => True) (classify_bundled_crypto pkgs family).
Proof.
  intros Hp. unfold classify_bundled_crypto. eapply (safe_bind _ (fun _ => True)); [|by intros [seen out] _].
  apply safe_foldM; [done|]. intros [seen out] p Hin _. rewrite Forall_forall in Hp. destruct (Hp p Hin) as [Hn Hv].
  unfold classify_step. destruct (row_item_named "name" p Hn) as [name ->]. cbn [mbind res_bind]. destruct (existsb _ _); [done|].
  eapply safe_bind; [apply catalogue_safe|]. intros [hint|] _; [|done].
  destruct (row_item_named "version" p Hv) as [version ->]. done.
Qed.


(** A header whose name is a number is an inventory row, and ends the scan. *)
Example int_name_escapes :
  classify_bundled_crypto [[("name", VInt 42); ("version", VStr "1")]] "rhel" = Raise TypeError.
Proof. vm_compute. reflexivity. Qed.

(** ** Under a prefix the scanner's own packages are not reported *)

Definition with_run (h : pkg_host) (r : list string -> Z * string) : pkg_host :=
  PkgHost (ph_fs h) (ph_prefix h) (ph_is_symlink h) (ph_is_file h) (ph_is_dir h) (ph_head h) (ph_open h) (ph_text h) (ph_descs h)
    (ph_sqlite3 h) (ph_sqlite h) (ph_zlib h) (ph_which h) r (ph_note h).

Section Confined.
Context (h : pkg_host) (r : list string -> Z * string).
Context (Hprefix : nonempty (host_prefix (ph_prefix h)) = true).
Context (Hr : forall args, r ("rpm" :: "--root" :: host_prefix (ph_prefix h) :: args) = ph_run h ("rpm" :: "--root" :: host_prefix (ph_prefix h) :: args)).

Lemma cli_confined db : query_rpm_cli (with_run h r) db = query_rpm_cli h db.
Proof.
  unfold query_rpm_cli, rpm_argv. cbn [with_run ph_prefix ph_which ph_run]. rewrite Hprefix. destruct db as [db|]; [|done].
  cbn [andb app]. by rewrite Hr.
Qed.

Ltac same_host := cbn [with_run ph_fs ph_prefix ph_is_symlink ph_is_file ph_is_dir ph_head ph_open ph_text ph_descs ph_sqlite3 ph_sqlite
  ph_zlib ph_which ph_note].

Lemma resolve_same p : resolve_under_prefix (with_run h r) p = resolve_under_prefix h p.
Proof. unfold resolve_under_prefix. by same_host. Qed.

Lemma locate_same : locate_rpmdb (with_run h r) = locate_rpmdb h.
Proof.
  unfold locate_rpmdb. generalize (@nil string) as seen. induction RPMDB_DIRS as [|d dirs IH]; intros seen; [done|]. cbn [locate_in].
  rewrite resolve_same. destruct (resolve_under_prefix h d) as [host_dir|]; [|apply IH]. destruct (bool_decide _); [apply IH|].
  assert (Hf : forall l, first_some (try_rpmdb_file (with_run h r) host_dir) l = first_some (try_rpmdb_file h host_dir) l).
  { intros l. induction l as [|f l IHl]; [done|]. cbn [first_some]. rewrite IHl.
    replace (try_rpmdb_file (with_run h r) host_dir f) with (try_rpmdb_file h host_dir f); [done|].
    unfold try_rpmdb_file, rpmdb_backend_by_magic. rewrite resolve_same. by same_host. }
  rewrite Hf. destruct (first_some _ _); [done | apply IH].
Qed.

Lemma direct_same db names : read_rpmdb_direct (with_run h r) db names = read_rpmdb_direct h db names.
Proof.
  assert (Hs : forall f l, fetch_rpmdb_sqlite (with_run h r) f l = fetch_rpmdb_sqlite h f l).
  { intros f l. unfold fetch_rpmdb_sqlite, sqlite_attempts. same_host. destruct (ph_sqlite3 h); [done|].
    generalize "None"%string as last. induction (if nonempty _ then _ else _) as [|a k IH]; intros last; cbn [sqlite_try]; [done|].
    same_host. destruct (ph_sqlite h f a l); [apply IH | done..]. }
  unfold read_rpmdb_direct, read_rpmdb_sqlite, read_rpmdb_sqlite_named, read_rpmdb_blobs, read_blobs. cbv zeta. rewrite !Hs. same_host.
  destruct (db_backend db), names; by rewrite ?Hs.
Qed.

Lemma opkg_same paths : read_opkg_paths (with_run h r) paths = read_opkg_paths h paths.
Proof. induction paths as [|p paths IH]; [done|]. cbn [read_opkg_paths]. rewrite resolve_same, IH. by same_host. Qed.

Lemma prefixed_same family : read_prefixed_package_db (with_run h r) family = read_prefixed_package_db h family.
Proof.
  unfold read_prefixed_package_db, read_opkg_db. rewrite opkg_same. destruct (String.eqb family "opkg"); [done|].
  destruct (dget family PREFIXED_PACKAGE_DBS) as [[[m s] db]|]; [|done]. rewrite resolve_same. by same_host.
Qed.

Lemma query_confined : query_rpm_packages (with_run h r) = query_rpm_packages h.
Proof.
  unfold query_rpm_packages. rewrite locate_same. destruct (locate_rpmdb h) as [db|]; by rewrite ?direct_same, cli_confined.
Qed.

Lemma probe_confined : probe_package_db (with_run h r) = probe_package_db h.
Proof.
  unfold probe_package_db. induction PROBE_ORDER as [|k order IH]; [done|]. cbn [probe_kinds].
  assert (Hk : probe_kind (with_run h r) k = probe_kind h k).
  { unfold probe_kind. destruct k as [[kind manager] source]. rewrite locate_same, query_confined, prefixed_same. done. }
  by rewrite Hk, IH.
Qed.
End Confined.

(** C12: under --host-mount or --root the package scan of any family asks the
    scanning machine for nothing but [rpm --root PREFIX ...]: two hosts that
    differ only in what other commands print give the same report, so the
    scanner's own packages are never reported as the target's. *)
Theorem scan_packages_confined h r family (Hprefix : nonempty (host_prefix (ph_prefix h)) = true)
    (Hr : forall args, r ("rpm" :: "--root" :: host_prefix (ph_prefix h) :: args) = ph_run h ("rpm" :: "--root" :: host_prefix (ph_prefix h) :: args)) :
  scan_packages (with_run h r) family = scan_packages h family.
Proof.
  unfold scan_packages. cbn [with_run ph_prefix]. rewrite Hprefix. cbn [andb].
  case_bool_decide as Hrpm; [unfold scan_rpm_packages; by rewrite query_confined|].
  destruct (dmem family PREFIXED_PACKAGE_DBS) eqn:Hdb; [unfold scan_prefixed_packages; by rewrite prefixed_same|].
  destruct (dget family PACKAGE_QUERY_BY_FAMILY) as [[argv parser]|] eqn:Hq.
  - exfalso. apply dget_elem_of, (list_elem_of_fmap_2 fst) in Hq. cbn [fst] in Hq. change (PACKAGE_QUERY_BY_FAMILY.*1) with ["rhel"; "suse"; "debian"; "arch"; "alpine"] in Hq.
    repeat (apply elem_of_cons in Hq as [->|Hq]; [first [destruct Hrpm; by repeat constructor | vm_compute in Hdb; discriminate Hdb]|]). by apply not_elem_of_nil in Hq.
  - unfold scan_probed_packages. rewrite probe_confined by done. by cbn [with_run ph_prefix].
Qed.

(** ** Witnesses *)

Definition text_bytes (s : string) : bytes := String.list_byte_of_string s.
Definition sample_header : bytes :=
  enc_header [HTag (IndexEntry 1000 RPM_TYPE_STRING 0) 1; HTag (IndexEntry 1001 RPM_TYPE_STRING 13) 1]
    (text_bytes "openssl-libs" ++ [x00] ++ text_bytes "3.5.1" ++ [x00]).
Definition sample_pad : bytes := replicate (Z.to_nat ((- (28 + blen sample_header)) mod 16)) x00.
Definition sample_blob : bytes :=
  enc_blob 1 7 sample_header sample_pad (adler32 (enc_blob_body 1 7 sample_header sample_pad)).
Definition sample_ndb : bytes :=
  enc_ndb_head 7 1 ++ replicate 16 x00 ++ enc_slot 1 256 (blen sample_blob / 16) ++ concat (replicate 253 (enc_slot 0 0 0)) ++ sample_blob.

(** A host that is scanned at [/host]; its rpm binary, and its database. *)
Definition sample_host (data : bytes) (rc : Z) : pkg_host :=
  PkgHost (HostFs (fun _ => None) (fun _ => None) (fun _ => false) (fun _ => [])) (Prefixes "/host" EmptyString)
    (fun _ => false) (fun f => String.eqb f "/host/var/lib/rpm/Packages.db") (fun _ => false)
    (fun _ => Ok (take 16 data)) (fun _ => Ok (Handle (Ok (blen data)) (pread_of data)))
    (fun _ => Raise (OSError "No such file or directory")) (fun _ => []) None (fun _ _ _ => SqliteEmpty) true
    (fun _ => true) (fun _ => (rc, "bash 5.2 1 x86_64")) None.

Definition sample_row : header := [("name", VStr "openssl-libs"); ("version", VStr "3.5.1")].

Lemma read_rpmdb_blobs_exact_witness : exists blobs hs,
  db_holds true Ndb sample_ndb blobs /\ blobs <> [] /\ Forall2 describes blobs hs /\ [sample_row] = List.filter (wanted None) hs.
Proof.
  apply (proj1 (read_rpmdb_blobs_exact (sample_host sample_ndb 0) Ndb "Packages.db" sample_ndb None [sample_row] eq_refl ltac:(discriminate))).
  vm_compute. reflexivity.
Defined.

(** One byte of the blob is damaged: the inventory comes from the binary. *)
Definition damaged_ndb : bytes := <[4150%nat := xff]> sample_ndb.

Lemma scan_packages_confined_witness :
  scan_packages (with_run (sample_host sample_ndb 0)
    (fun args => if bool_decide (take 3 args = ["rpm"; "--root"; "/host"]) then (0, "bash 5.2 1 x86_64") else (0, "scanner 1"))) "debian" =
  scan_packages (sample_host sample_ndb 0) "debian".
Proof. apply scan_packages_confined; [reflexivity | intros args; vm_compute; reflexivity]. Defined.

Example sample_inventory : query_rpm_packages (sample_host sample_ndb 0) =
  Ok (inr (Inventory "rpmdb-ndb" (Some "/var/lib/rpm") (Some Ndb) [sample_row])).
Proof. vm_compute. reflexivity. Qed.
