(* ===== verification/Osinfo.v ===== *)
(** * OS identity and runtime environment ([detect/osinfo.py], [detect/runtime.py])

    The release files of a host or tree ([parse_os_release], OpenWrt's
    release file, Yocto's [buildinfo], the legacy files), [detect_os], the
    kernel facts, and the container notes of [detect/runtime.py]. *)

From S2P Require Import Prelude PyStr PyDict PyVal PyRe PyPath HostPath Packages.
Open Scope Z_scope.

(** ** Parsers *)

Definition OS_FAMILY_BY_ID : list (string * string) := [
  ("rhel", "rhel"); ("fedora", "rhel"); ("centos", "rhel"); ("rocky", "rhel"); ("almalinux", "rhel"); ("ol", "rhel"); ("amzn", "rhel");
  ("debian", "debian"); ("ubuntu", "debian"); ("linuxmint", "debian"); ("pop", "debian"); ("kali", "debian"); ("raspbian", "debian");
  ("neon", "debian"); ("elementary", "debian");
  ("sles", "suse"); ("opensuse-leap", "suse"); ("opensuse-tumbleweed", "suse"); ("sled", "suse");
  ("arch", "arch"); ("manjaro", "arch"); ("endeavouros", "arch"); ("garuda", "arch");
  ("alpine", "alpine"); ("openwrt", "openwrt")].

Definition PKG_MANAGER_ORDER : list (string * list string) := [
  ("rhel", ["dnf"; "microdnf"; "yum"]); ("debian", ["apt-get"; "apt"]); ("suse", ["zypper"]);
  ("arch", ["pacman"]); ("alpine", ["apk"]); ("openwrt", ["apk"; "opkg"])].

Definition dquote : string := String "034" EmptyString.
Definition quoted_by (q v : string) : bool := starts_with q v && ends_with q v.
(** [v[1:-1]]. *)
Definition unwrap (v : string) : string := let l := drop 1 (chars v) in str_of (take (length l - 1) l).
Definition unquote (v : string) : string := if quoted_by dquote v || quoted_by "'" v then unwrap v else v.

Definition os_release_line (raw : list (string * string)) (line : string) : list (string * string) :=
  let line := strip line in
  if starts_with "#" line then raw
  else match cut "=" line with
       | Some (k, v) => dset (strip k) (unquote (strip v)) raw
       | None => raw
       end.
Definition os_release_fields (text : string) : list (string * string) := foldl os_release_line [] (splitlines text).

Definition or_none (s : string) : value := if nonempty s then VStr s else VNone.
Definition or_unknown (s : string) : string := if nonempty s then s else "unknown".

(** The family of the ID, else of the first token of ID_LIKE that has one. *)
Definition family_of (id : string) (id_like : list string) : option string :=
  match dget id OS_FAMILY_BY_ID with
  | Some f => Some f
  | None => first_some (fun tok => dget tok OS_FAMILY_BY_ID) id_like
  end.

(** The [os_release] dictionary of every path through [detect_os]. *)
Definition os_dict (family id : string) (version codename pretty manager : value) : list (string * value) := [
  ("family", VStr family); ("id", VStr id); ("version_id", version); ("version_codename", codename);
  ("pretty_name", pretty); ("package_manager", manager)].

Definition parse_os_release (text : string) : list (string * value) :=
  let raw := os_release_fields text in
  let id := strip (lower (field "ID" raw)) in
  let id_like := lower <$> words (field "ID_LIKE" raw) in
  os_dict (default "unknown" (family_of id id_like)) (or_unknown id)
    (or_none (field "VERSION_ID" raw)) (or_none (field "VERSION_CODENAME" raw)) (or_none (field "PRETTY_NAME" raw)) VNone.

Definition os_release_assign (kv : string * string) : string := kv.1 +:+ "=" +:+ dquote +:+ kv.2 +:+ dquote.
Definition os_release_text (fields : list (string * string)) : string :=
  str_join newline (os_release_assign <$> List.filter (fun kv => nonempty kv.2) fields).

Definition REDHAT_RE : re :=
  RSeqs [Bos; RGrp 1 (RSeq Dot (RStar false Dot)); RPlus Space; RLit "release"; RPlus Space;
         RGrp 2 (RSeq (RPlus Digit) (ROpt (RSeqs [RLit "."; RPlus Digit])))].
Definition parse_redhat_release (text : string) : list (string * value) :=
  let s := strip text in
  ("raw", VStr s) ::
  match re_search REDHAT_RE s with
  | None => []
  | Some m =>
      let version := group_or 2 m in
      [("distro", VStr (strip (group_or 1 m))); ("version", VStr version)] ++
      match split "." version with [_; minor] => [("minor", VStr minor)] | _ => [] end
  end.

Definition sep_class : re := ROpt (Set_ "-_ ").
Definition PROC_CRYPTO_RE : re :=
  RAlts [RSeqs [RLitI "ml"; sep_class; RLitI "kem"]; RSeqs [RLitI "ml"; sep_class; RLitI "dsa"];
         RSeqs [RLitI "slh"; sep_class; RLitI "dsa"]; RLitI "kyber"; RLitI "dilithium"; RLitI "sphincs"].

(** The driver of a block that mentions a post-quantum primitive. *)
Definition block_driver (block : list string) : res (list string) :=
  if test_search PROC_CRYPTO_RE (str_join newline block) then
    match List.find (starts_with "driver") block with
    | Some ln => match cut ":" ln with Some (_, v) => Ok [strip v] | None => Raise IndexError end
    | None => Ok []
    end
  else Ok [].
Fixpoint crypto_blocks (block : list string) (lines : list string) : res (list string) :=
  match lines with
  | [] => Ok []
  | line :: lines =>
      if nonempty (strip line) then crypto_blocks (block ++ [line]) lines
      else d ← (if block is [] then Ok [] else block_driver block); rest ← crypto_blocks [] lines; Ok (d ++ rest)
  end.
(** The empty line that the code appends flushes the last block. *)
Definition parse_proc_crypto_pqc (text : string) : res (list string) := crypto_blocks [] (splitlines text ++ [EmptyString]).

Definition CGROUP_MARKERS : list string := [
  "kubepods"; "/docker/"; "/containerd/"; "/podman-"; "/crio-"; "/system.slice/docker-"; "/lxc/"].
Definition parse_cgroup_for_container (text : string) : option string :=
  List.find (fun marker => contains marker text) CGROUP_MARKERS.

(** ** The host *)

(** What the code asks of the machine it runs on.  [oh_read] is the first
    64 KiB of characters of a file with undecodable bytes replaced;
    [oh_text] is [Path.read_text], which may also fail to decode. *)
Record os_host := OsHost {
  oh_fs : host_fs; oh_prefix : prefixes;
  oh_read : string -> option string; oh_text : string -> res string; oh_exists : string -> bool;
  oh_which : string -> bool; oh_run : list string -> Z * string;
  oh_platform : string; oh_mac_ver : string; oh_system : string; oh_release : string }.

(** [try: m except OSError: None]. *)
Definition or_oserror {A} (m : res A) : res (option A) :=
  catch (is_class "OSError") (a ← m; Ok (Some a)) (fun _ => Ok None).

Section Host.
Context (h : os_host).
Let st := oh_prefix h.
Let offline := nonempty (offline_root st).
Let path (p : string) : string := host_path (oh_fs h) st p.

Definition is_linux : bool := starts_with "linux" (oh_platform h).
Definition is_macos : bool := String.eqb (oh_platform h) "darwin".

(** *** [detect/runtime.py] *)

Definition container (evidence : string) : list (string * value) :=
  [("environment", VStr "container"); ("evidence", VStr evidence)].
Definition detect_runtime_environment : res (list (string * value)) :=
  if oh_exists h (path "/.dockerenv") then Ok (container "/.dockerenv present")
  else if oh_exists h (path "/run/.containerenv") then Ok (container "/run/.containerenv present")
  else
    cg ← or_oserror (oh_text h "/proc/1/cgroup");
    Ok (match parse_cgroup_for_container (default EmptyString cg) with
        | Some marker => container ("cgroup marker " +:+ marker)
        | None => [("environment", VStr "host"); ("evidence", VStr "no container markers")]
        end).

Definition host_fs_unavailable_note (detection_label host_resources : string) : res (option (list (string * value))) :=
  if nonempty (host_prefix st) then Ok None
  else
    env ← detect_runtime_environment;
    Ok (if py_eq (default VNone (dget "environment" env)) (VStr "container") then
          Some [("unavailable_in_container", VBool true);
                ("reason", VStr (detection_label +:+ " reads " +:+ host_resources +:+
                   "; running inside a container without --host-mount, so the result reflects the container's namespace, not the host."))]
        else None).

Definition HOST_FS_DEPENDENT_DETECTIONS : list (string * string * string) := [
  ("accelerators", "PCI accelerator detection", "lspci output and /dev hints (/dev/kfd, /dev/nvidia*, etc.)");
  ("kernel_crypto_hw", "Kernel crypto hardware detection", "/proc/crypto");
  ("ktls", "kTLS module detection", "/proc/modules and /sys/module/tls");
  ("fips", "FIPS mode detection", "/proc/sys/crypto/fips_enabled");
  ("tpm_pqc", "TPM PQC detection", "/dev/tpmrm0, /dev/tpm0 and tpm2_getcap");
  ("kernel_info", "Kernel info detection", "/etc/redhat-release and /proc/crypto");
  ("os_release", "OS release detection", "/etc/os-release, /usr/lib/os-release, /etc/redhat-release, /etc/debian_version");
  ("pkcs11_modules", "PKCS#11 module scan", "/usr/lib*/<arch>/ and /usr/lib*/pkcs11/ under host /usr");
  ("packages", "RPM package inventory", "the rpm database (/usr/lib/sysimage/rpm, /var/lib/rpm or /usr/share/rpm)");
  ("openssl_config", "OpenSSL configuration detection", "openssl.cnf and its .include files under /etc and /usr/lib/ssl");
  ("crypto_policy", "System crypto-policy detection", "/etc/crypto-policies and /usr/share/crypto-policies");
  ("sshd", "sshd configuration detection", "/etc/ssh, /usr/etc/ssh and the crypto-policies OpenSSH back-ends");
  ("nss", "NSS version detection", "certutil and the rpm database (/usr/lib/sysimage/rpm, /var/lib/rpm or /usr/share/rpm)")].

Definition host_fs_note_for (key : string) : res (option (list (string * value))) :=
  match List.find (fun d => String.eqb d.1.1 key) HOST_FS_DEPENDENT_DETECTIONS with
  | Some (_, label, resources) => host_fs_unavailable_note label resources
  | None => Raise (KeyError (str_repr key +:+ " is not in _HOST_FS_DEPENDENT_DETECTIONS"))
  end.

Definition build_host_fs_detections_unavailable : res (list (string * value)) :=
  foldM (fun out '(key, label, resources) =>
           note ← host_fs_unavailable_note label resources;
           Ok (match note with Some n => dset key (VDict n) out | None => out end))
        [] HOST_FS_DEPENDENT_DETECTIONS.

(** *** [detect_os] *)

Definition sysctl (key : string) : string :=
  if negb (oh_which h "sysctl") then EmptyString
  else let '(rc, out) := oh_run h ["sysctl"; "-n"; key] in if rc =? 0 then strip out else EmptyString.

Definition TREE_BIN_DIRS : list string := ["/usr/bin"; "/bin"; "/usr/sbin"; "/sbin"].
Definition tree_has_tool (tool : string) : bool := existsb (fun d => hf_lexists (oh_fs h) (path_join (path d) tool)) TREE_BIN_DIRS.
Definition has_tool (tool : string) : bool := if offline then tree_has_tool tool else oh_which h tool.
Definition resolve_package_manager (family : string) : option string :=
  List.find has_tool (default [] (dget family PKG_MANAGER_ORDER)).

Definition read_tree_text (p : string) : option string := oh_read h (path p).

Definition buildinfo_line (out : list (string * string)) (line : string) : list (string * string) :=
  match cut "=" line with
  | Some (k, v) =>
      if bool_decide (strip k ∈ ["DISTRO"; "DISTRO_VERSION"]) && nonempty (strip v) then dset (strip k) (strip v) out else out
  | None => out
  end.
Definition read_buildinfo : list (string * string) :=
  foldl buildinfo_line [] (splitlines (default EmptyString (read_tree_text "/etc/buildinfo"))).

Definition openwrt_line (keys : list (string * string)) (line : string) : list (string * string) :=
  match cut "=" line with
  | Some (k, v) => dset (strip k) (strip_by (fun c => Ascii.eqb c "'" || Ascii.eqb c "034") (strip v)) keys
  | None => keys
  end.
Definition openwrt_fields (text : string) : list (string * string) :=
  let keys := foldl openwrt_line [] (splitlines text) in
  let id := field "DISTRIB_ID" keys in
  [("ID", lower (if nonempty id then id else "openwrt")); ("VERSION_ID", field "DISTRIB_RELEASE" keys);
   ("PRETTY_NAME", field "DISTRIB_DESCRIPTION" keys)].
Definition from_openwrt_release : option (list (string * value)) :=
  text ← read_tree_text "/etc/openwrt_release";
  Some (dset "source" (VStr "/etc/openwrt_release") (parse_os_release (os_release_text (openwrt_fields text)))).

Definition buildinfo_fields (distro version : string) : list (string * string) :=
  [("ID", lower distro); ("VERSION_ID", version); ("PRETTY_NAME", strip (distro +:+ " " +:+ version))].
Definition from_buildinfo : option (list (string * value)) :=
  let info := read_buildinfo in
  distro ← dget "DISTRO" info;
  if nonempty distro then
    Some (dset "source" (VStr "/etc/buildinfo") (parse_os_release (os_release_text (buildinfo_fields distro (field "DISTRO_VERSION" info)))))
  else None.

Definition manager_value (family : string) : value := of_ostr (resolve_package_manager family).
(** [out["package_manager"] = _resolve_package_manager(out["family"])]. *)
Definition set_manager (out : list (string * value)) : list (string * value) :=
  dset "package_manager" (match dget "family" out with Some (VStr f) => manager_value f | _ => VNone end) out.

Definition macos_release : list (string * value) :=
  let v := sysctl "kern.osproductversion" in
  let ver := if nonempty v then v else oh_mac_ver h in
  os_dict "macos" "macos" (or_none ver) VNone
    (VStr (if nonempty ver then rstrip ("macOS " +:+ ver) else "macOS"))
    (if oh_which h "brew" then VStr "brew" else VNone).

Fixpoint os_release_files (candidates : list string) : res (option (list (string * value))) :=
  match candidates with
  | [] => Ok None
  | c :: candidates =>
      text ← or_oserror (oh_text h (path c));
      match text with
      | Some text => Ok (Some (set_manager (parse_os_release text)))
      | None => os_release_files candidates
      end
  end.

(** The ID of a legacy release line is its first word. *)
Definition redhat_id (rh : list (string * value)) : res string :=
  match words (lower (match dget "distro" rh with Some (VStr s) => s | _ => EmptyString end)) with
  | w :: _ => Ok (if nonempty w then w else "rhel")
  | [] => Raise IndexError
  end.
Definition redhat_release (text : string) : res (list (string * value)) :=
  let rh := parse_redhat_release text in
  id ← redhat_id rh;
  Ok (os_dict "rhel" id (default VNone (dget "version" rh)) VNone (default VNone (dget "raw" rh)) (manager_value "rhel")).

Definition debian_release (deb_ver : option string) : list (string * value) :=
  os_dict "debian" "debian" (of_ostr deb_ver) VNone
    (VStr (match deb_ver with Some v => if nonempty v then "Debian " +:+ v else "Debian" | None => "Debian" end))
    (manager_value "debian").

Definition suse_release : list (string * value) :=
  os_dict "suse" "suse" VNone VNone (VStr "SUSE Linux (legacy /etc/SuSE-release)") (manager_value "suse").

Definition unknown_release : list (string * value) :=
  if offline then
    os_dict "unknown" "unknown" VNone VNone VNone VNone ++
    [("reason", VStr "offline --root scan: the tree has no /etc/os-release, /usr/lib/os-release, /etc/openwrt_release, /etc/buildinfo or legacy release file, so its OS is not identified")]
  else os_dict "unknown" "unknown" VNone VNone (VStr (strip (oh_system h +:+ " " +:+ oh_release h))) VNone.

Definition legacy_release : res (list (string * value)) :=
  rh_text ← (if oh_exists h (path "/etc/redhat-release") then or_oserror (oh_text h (path "/etc/redhat-release")) else Ok None);
  match rh_text with
  | Some text => redhat_release text
  | None =>
      if oh_exists h (path "/etc/debian_version") then
        text ← or_oserror (oh_text h (path "/etc/debian_version")); Ok (debian_release (strip <$> text))
      else if oh_exists h (path "/etc/SuSE-release") then Ok suse_release
      else Ok unknown_release
  end.

Definition detect_os_impl : res (list (string * value)) :=
  if is_macos && negb offline then Ok macos_release
  else
    found ← os_release_files ["/etc/os-release"; "/usr/lib/os-release"];
    match found with
    | Some out => Ok out
    | None =>
        match from_openwrt_release with
        | Some out => Ok (set_manager out)
        | None =>
            match from_buildinfo with
            | Some out => Ok (set_manager out)
            | None => legacy_release
            end
        end
    end.

Definition OS_NOTE : string := "/etc/os-release, /usr/lib/os-release, /etc/redhat-release, /etc/debian_version".
Definition annotate (note : option (list (string * value))) (out : list (string * value)) : list (string * value) :=
  match note with Some n => dupdate out n | None => out end.
Definition detect_os : res (list (string * value)) :=
  out ← detect_os_impl;
  note ← host_fs_unavailable_note "OS release detection" OS_NOTE;
  Ok (annotate note out).

(** *** Kernel facts *)

Definition kernel_ids (os_release : list (string * value)) : list (string * value) :=
  let id := default VNone (dget "id" os_release) in
  let version := default VNone (dget "version_id" os_release) in
  (if truthy id && negb (py_eq id (VStr "unknown")) then [("os_release_id", id)] else []) ++
  (if truthy version then [("os_release_version_id", version)] else []).
Definition kernel_redhat : res (list (string * value)) :=
  let rh := path "/etc/redhat-release" in
  if oh_exists h rh then
    text ← or_oserror (oh_text h rh);
    Ok (match text with Some t => [("redhat_release", VDict (parse_redhat_release t))] | None => [] end)
  else Ok [].
Definition kernel_pqc : res (list (string * value)) :=
  text ← or_oserror (oh_text h (path "/proc/crypto"));
  drivers ← (match text with Some t => parse_proc_crypto_pqc t | None => Ok [] end);
  Ok [("proc_crypto_pqc", VStrs drivers)].
Definition detect_kernel_info (os_release : list (string * value)) : res (list (string * value)) :=
  let info := [("release", VStr (oh_release h)); ("system", VStr (oh_system h))] in
  if negb is_linux then Ok info
  else
    rh ← kernel_redhat;
    pqc ← kernel_pqc;
    note ← host_fs_unavailable_note "Kernel info detection" "/etc/redhat-release and /proc/crypto";
    Ok (annotate note (info ++ kernel_ids os_release ++ rh ++ pqc)).
End Host.

Example redhat_94 : parse_redhat_release "Red Hat Enterprise Linux release 9.4 (Plow)" =
  [("raw", VStr "Red Hat Enterprise Linux release 9.4 (Plow)"); ("distro", VStr "Red Hat Enterprise Linux");
   ("version", VStr "9.4"); ("minor", VStr "4")].
Proof. vm_compute. reflexivity. Qed.
Example redhat_rolling : parse_redhat_release "Example Linux rolling" = [("raw", VStr "Example Linux rolling")].
Proof. vm_compute. reflexivity. Qed.
Example proc_crypto : parse_proc_crypto_pqc (str_join newline ["name : mlkem768"; "driver : ml-kem-generic"; ""; "name : aes"; "driver : aes-ce"]) = Ok ["ml-kem-generic"].
Proof. vm_compute. reflexivity. Qed.
