(* ===== verification/OsinfoTheory.v ===== *)
(** * OS identity: theorems

    What the release files of a tree give back, what [detect_os] promises of
    every host, and what a [--root] scan may consult. *)

From S2P Require Import Prelude PyStr PyDict PyVal PyRe PyPath HostPath Packages Osinfo.
Open Scope Z_scope.

(** ** Text lemmas *)

Lemma before_chars_cut c l k : c ∉ l -> before_chars [c] (l ++ c :: k) = l.
Proof.
  induction l as [|d l IH]; intros Hc; cbn [app before_chars prefix_chars].
  - by rewrite Ascii.eqb_refl.
  - apply not_elem_of_cons in Hc as [Hne Hc]. apply Ascii.eqb_neq in Hne. rewrite Hne. cbn [andb]. by rewrite IH.
Qed.

Lemma contains_mid c s t : contains (String c EmptyString) (s +:+ String c t) = true.
Proof.
  unfold contains. apply contains_chars_spec. exists (chars s), (chars t). by rewrite chars_app.
Qed.

Lemma length_of_chars s : String.length s = length (chars s).
Proof. induction s as [|c s IH]; [done|]. cbn. by rewrite <-IH. Qed.

Lemma cut_mid c k v : c ∉ chars k -> cut (String c EmptyString) (k +:+ String c v) = Some (k, v).
Proof.
  intros Hc. unfold cut. rewrite contains_mid. unfold before. rewrite chars_app.
  cbn [String.list_ascii_of_string]. rewrite before_chars_cut, str_of_chars by done.
  f_equal. f_equal. cbn [String.length]. rewrite length_of_chars.
  replace (length (chars k) + 1)%nat with (length (chars k ++ [c])) by (rewrite length_app; done).
  change (chars k ++ c :: chars v) with (chars k ++ [c] ++ chars v). rewrite app_assoc, drop_app_length.
  apply str_of_chars.
Qed.

Lemma starts_with_char c d s : starts_with (String c EmptyString) (String d s) = Ascii.eqb c d.
Proof.
  unfold starts_with. cbn [String.prefix]. destruct (Ascii.eqb_spec c d) as [->|Hne].
  - destruct (ascii_dec d d); [by destruct s | done].
  - by destruct (ascii_dec c d).
Qed.

(** Text that starts and ends with a non-space is its own strip. *)
Lemma strip_framed l :
  match l with [] => True | c :: _ => is_space c = false end ->
  match reverse l with [] => True | c :: _ => is_space c = false end ->
  strip (str_of l) = str_of l.
Proof.
  intros Hh Ht. unfold strip, strip_by, rstrip_by, lstrip_by. rewrite !chars_str_of.
  assert (drop_while is_space l = l) as -> by (destruct l as [|c l]; [done|]; cbn; by rewrite Hh).
  destruct (reverse l) as [|c r] eqn:E; cbn [drop_while].
  - apply (f_equal reverse) in E. rewrite reverse_involutive in E. by subst.
  - rewrite Ht, <-E. by rewrite reverse_involutive.
Qed.

(** Every character of [s] is a character of [t]. *)
Definition within (s t : string) : Prop := forall c, c ∈ chars s -> c ∈ chars t.
Lemma within_refl s : within s s.
Proof. by intros c. Qed.
Lemma within_trans s t u : within s t -> within t u -> within s u.
Proof. unfold within. eauto. Qed.
Lemma drop_while_in p l c : c ∈ drop_while p l -> c ∈ l.
Proof. destruct (drop_while_suffix p l) as [k Hk]. intros H. rewrite Hk. apply elem_of_app. by right. Qed.
Lemma within_strip_by p s : within (strip_by p s) s.
Proof.
  intros c. unfold strip_by, rstrip_by, lstrip_by. rewrite !chars_str_of, elem_of_reverse.
  intros H%drop_while_in. rewrite elem_of_reverse in H. by apply drop_while_in in H.
Qed.
Lemma before_chars_in sep l c : c ∈ before_chars sep l -> c ∈ l.
Proof.
  induction l as [|d l IH]; cbn; [done|]. destruct (prefix_chars sep (d :: l)); [by intros ?%elem_of_nil|].
  rewrite !elem_of_cons. intros [->|H]; auto.
Qed.
Lemma within_cut sep s k v : cut sep s = Some (k, v) -> within k s /\ within v s.
Proof.
  unfold cut. case_match; [|done]. intros [= <- <-]. split; intros c.
  - unfold before. rewrite chars_str_of. apply before_chars_in.
  - rewrite chars_str_of. intros H'. rewrite <-(take_drop (String.length (before sep s) + String.length sep) (chars s)).
    apply elem_of_app. by right.
Qed.
Lemma no_chars_within p s t : within s t -> no_chars p t -> no_chars p s.
Proof. unfold no_chars. rewrite !Forall_forall. eauto. Qed.

Lemma lines_chars_free acc l :
  Forall (fun c => is_line_end c = false) acc ->
  Forall (fun p => Forall (fun c => is_line_end c = false) p) (lines_chars acc l).
Proof.
  remember (length l) as n eqn:Hn. revert acc l Hn. induction (lt_wf n) as [n _ IH]; intros acc l -> Hacc.
  destruct l as [|c l]; cbn [lines_chars].
  - destruct acc; constructor; [by apply Forall_reverse | constructor].
  - destruct (is_line_end c) eqn:E.
    + constructor; [by apply Forall_reverse|]. destruct l as [|d l]; [constructor|].
      case_match; (eapply IH; [|reflexivity|constructor]; cbn; lia).
    + eapply IH; [|reflexivity|by constructor]. cbn. lia.
Qed.
Lemma splitlines_free s line : line ∈ splitlines s -> no_chars is_line_end line.
Proof.
  unfold splitlines. intros (l & -> & Hl)%list_elem_of_fmap. unfold no_chars. rewrite chars_str_of.
  revert l Hl. apply Forall_forall, lines_chars_free. constructor.
Qed.

Lemma nonempty_iff s : nonempty s = true <-> s <> EmptyString.
Proof. unfold nonempty. rewrite negb_true_iff. apply String.eqb_neq. Qed.

(** ** The os-release text and its reader *)

(** A key as the callers write them, and a value on one line. *)
Definition os_key (k : string) : Prop :=
  k <> EmptyString /\ no_chars is_space k /\ "="%char ∉ chars k /\ starts_with "#" k = false.
Definition one_line (v : string) : Prop := no_chars is_line_end v.
Definition os_fields_ok (fields : list (string * string)) : Prop :=
  dwf fields /\ Forall (fun kv => os_key kv.1 /\ one_line kv.2) fields.

Lemma assign_chars k v : chars (os_release_assign (k, v)) = chars k ++ "="%char :: "034"%char :: chars v ++ ["034"%char].
Proof. unfold os_release_assign, dquote. cbn [fst snd]. by rewrite !chars_app. Qed.

Lemma unwrap_quoted v : unwrap (dquote +:+ v +:+ dquote) = v.
Proof.
  unfold unwrap, dquote. rewrite !chars_app. cbn [String.list_ascii_of_string app].
  change (drop 1 ("034"%char :: chars v ++ ["034"%char])) with (chars v ++ ["034"%char]). cbv zeta.
  rewrite length_app. cbn [length]. replace (length (chars v) + 1 - 1)%nat with (length (chars v)) by lia.
  rewrite take_app_length. apply str_of_chars.
Qed.

Lemma unquote_quoted v : unquote (dquote +:+ v +:+ dquote) = v.
Proof.
  unfold unquote. assert (quoted_by dquote (dquote +:+ v +:+ dquote) = true) as ->.
  { unfold quoted_by. apply andb_true_iff. split; [apply starts_with_char|]. unfold ends_with, dquote. rewrite !chars_app.
    cbn [String.list_ascii_of_string]. rewrite !reverse_app. by destruct (reverse (chars v)). }
  apply unwrap_quoted.
Qed.

Lemma strip_assign k v : os_key k -> strip (os_release_assign (k, v)) = os_release_assign (k, v).
Proof.
  intros (Hne & Hs & _). rewrite <-(str_of_chars (os_release_assign _)). apply strip_framed; rewrite assign_chars.
  - destruct (chars k) as [|c l] eqn:E; [by destruct Hne; apply chars_inj|].
    unfold no_chars in Hs. rewrite E in Hs. by inversion Hs.
  - rewrite reverse_app, !reverse_cons, reverse_app. done.
Qed.

Lemma assign_shape k v : os_release_assign (k, v) = k +:+ String "=" (dquote +:+ v +:+ dquote).
Proof. done. Qed.

Lemma os_release_line_assign raw k v : os_key k -> os_release_line raw (os_release_assign (k, v)) = dset k v raw.
Proof.
  intros Hk. unfold os_release_line. rewrite strip_assign by done. destruct Hk as (Hne & Hs & He & Hh).
  assert (starts_with "#" (os_release_assign (k, v)) = false) as ->.
  { rewrite assign_shape. destruct k as [|c k]; [done|]. rewrite starts_with_char in Hh. exact (eq_trans (starts_with_char _ _ _) Hh). }
  rewrite assign_shape, cut_mid by done. rewrite (strip_id k) by done. f_equal.
  assert (strip (dquote +:+ v +:+ dquote) = dquote +:+ v +:+ dquote) as ->; [|apply unquote_quoted].
  rewrite <-(str_of_chars (dquote +:+ _)). apply strip_framed; unfold dquote; rewrite !chars_app; [done|].
  cbn [String.list_ascii_of_string app]. by rewrite reverse_cons, reverse_app.
Qed.

Lemma dset_fresh {A} k (v : A) (d : list (string * A)) : k ∉ d.*1 -> dset k v d = d ++ [(k, v)].
Proof.
  induction d as [|[k' v'] d IH]; intros Hk; [done|]. csimpl in Hk. apply not_elem_of_cons in Hk as [Hne Hk].
  cbn [dset app]. rewrite decide_False by done. by rewrite IH.
Qed.

Lemma os_release_fold fields raw :
  Forall (fun kv => os_key kv.1) fields -> NoDup (raw.*1 ++ fields.*1) ->
  foldl os_release_line raw (os_release_assign <$> fields) = raw ++ fields.
Proof.
  revert raw; induction fields as [|[k v] fields IH]; intros raw Hf Hnd; csimpl; [by rewrite app_nil_r|].
  inversion Hf as [|? ? Hk Hf']; subst. cbn [fst] in Hk. rewrite os_release_line_assign by done. csimpl in Hnd.
  assert (k ∉ raw.*1) as Hn.
  { apply NoDup_app in Hnd as (_ & Hd & _). intros Hin. apply (Hd k Hin). by left. }
  rewrite dset_fresh by done. rewrite IH; [by rewrite <-app_assoc|done|].
  rewrite fmap_app, <-app_assoc. exact Hnd.
Qed.

Lemma Forall_List_filter {A} (P : A -> Prop) f l : Forall P l -> Forall P (List.filter f l).
Proof. induction 1 as [|x l Hx Hl IH]; cbn; [constructor|]. destruct (f x); [by constructor | done]. Qed.
Lemma NoDup_filter_keys {A B} f (l : list (A * B)) : NoDup l.*1 -> NoDup (List.filter f l).*1.
Proof.
  induction l as [|x l IH]; csimpl; [done|]. intros [Hx Hl]%NoDup_cons. destruct (f x); [|by apply IH].
  csimpl. apply NoDup_cons. split; [|by apply IH]. intros (y & Hy & Hin)%list_elem_of_fmap. apply Hx.
  rewrite Hy. apply list_elem_of_fmap. exists y. split; [done|]. apply list_elem_of_In, filter_In in Hin as [Hin _].
  by apply list_elem_of_In.
Qed.

(** The reader gives the non-empty fields back. *)
Lemma os_release_text_fields fields :
  os_fields_ok fields ->
  os_release_fields (os_release_text fields) = List.filter (fun kv => nonempty kv.2) fields.
Proof.
  intros [Hwf Hf]. unfold os_release_fields, os_release_text.
  set (shown := List.filter (fun kv => nonempty kv.2) fields).
  assert (Forall (fun kv => os_key kv.1 /\ one_line kv.2) shown) as Hs by by apply Forall_List_filter.
  rewrite splitlines_join.
  - apply (os_release_fold shown []); [eapply Forall_impl; [exact Hs|]; by intros ? []|].
    by apply NoDup_filter_keys.
  - apply Forall_fmap. eapply Forall_impl; [exact Hs|]. intros [k v] [(Hne & Hsp & _) Hv]. cbn [compose fst snd] in *. split.
    + unfold no_chars. rewrite assign_chars. apply Forall_app. split.
      { apply (no_chars_weaken is_space is_line_end); [apply is_line_end_space | exact Hsp]. }
      constructor; [done|]. constructor; [done|]. apply Forall_app. split; [exact Hv|]. by constructor.
    + intros E. apply (f_equal String.list_ascii_of_string) in E. rewrite assign_chars in E. by apply app_eq_nil in E as [_ ?].
Qed.

(** ** Releases described by other files *)

Lemma lower_char_line_end c : is_line_end (lower_char c) = is_line_end c.
Proof. by destruct c as [[] [] [] [] [] [] [] []]. Qed.
Lemma one_line_lower s : one_line s -> one_line (lower s).
Proof.
  unfold one_line, no_chars, lower, str_map. rewrite chars_str_of, Forall_fmap. intros H.
  eapply Forall_impl; [exact H|]. intros c Hc. cbn. by rewrite lower_char_line_end.
Qed.
Lemma one_line_app s t : one_line s -> one_line t -> one_line (s +:+ t).
Proof. unfold one_line. intros. by apply no_chars_app. Qed.
Lemma one_line_strip_by p s : one_line s -> one_line (strip_by p s).
Proof. apply no_chars_within, within_strip_by. Qed.
Lemma one_line_cut sep line k v : cut sep line = Some (k, v) -> one_line line -> one_line v.
Proof. intros [_ Hv]%within_cut. by apply no_chars_within. Qed.
#[local] Hint Resolve one_line_lower one_line_app one_line_strip_by : pqc.

Definition values_one_line (d : list (string * string)) : Prop := Forall (fun kv => one_line kv.2) d.

Lemma dset_one_line k v d : one_line v -> values_one_line d -> values_one_line (dset k v d).
Proof.
  intros Hv. induction 1 as [|[k' v'] d Hx Hd IH]; cbn [dset]; [by repeat constructor|].
  case_decide; by constructor.
Qed.

Lemma foldl_one_line f s :
  (forall d line, one_line line -> values_one_line d -> values_one_line (f d line)) ->
  values_one_line (foldl f [] (splitlines s)).
Proof.
  intros Hf. assert (Forall one_line (splitlines s)) as Hl by (apply Forall_forall; intros l; apply splitlines_free).
  assert (values_one_line []) as Hd by constructor. revert Hd. generalize ([] : list (string * string)).
  induction Hl as [|l ls Hl Hls IH]; intros d Hd; cbn; [done|]. by apply IH, Hf.
Qed.

Lemma field_one_line k d : values_one_line d -> one_line (field k d).
Proof.
  unfold field. induction 1 as [|[k' v'] d Hx Hd IH]; cbn; [constructor|]. by case_decide.
Qed.

Lemma openwrt_keys_one_line text : values_one_line (foldl openwrt_line [] (splitlines text)).
Proof.
  apply foldl_one_line. intros d line Hl Hd. unfold openwrt_line. destruct (cut "=" line) as [[k v]|] eqn:E; [|done].
  apply dset_one_line; [|done]. apply one_line_strip_by, one_line_strip_by. by eapply one_line_cut.
Qed.

Lemma buildinfo_one_line h : values_one_line (read_buildinfo h).
Proof.
  apply foldl_one_line. intros d line Hl Hd. unfold buildinfo_line. destruct (cut "=" line) as [[k v]|] eqn:E; [|done].
  case_match; [|done]. apply dset_one_line; [|done]. apply one_line_strip_by. by eapply one_line_cut.
Qed.

(** The three fields a release is rebuilt from. *)
Definition three_fields (id version pretty : string) : list (string * string) :=
  [("ID", id); ("VERSION_ID", version); ("PRETTY_NAME", pretty)].
Definition rebuilt (id version pretty : string) : list (string * value) :=
  let id := strip (lower id) in
  os_dict (default "unknown" (dget id OS_FAMILY_BY_ID)) (or_unknown id) (or_none version) VNone (or_none pretty) VNone.

Lemma key_ok k : forallb (fun c => negb (is_space c) && negb (Ascii.eqb "=" c)) (chars k) = true ->
  starts_with "#" k = false -> k <> EmptyString -> os_key k.
Proof.
  intros Hk Hh Hne. rewrite forallb_forall in Hk. split_and!; try done.
  - apply Forall_forall. intros c Hc. apply list_elem_of_In, Hk in Hc. apply andb_true_iff in Hc as [Hc _]. by apply negb_true_iff.
  - intros Hc. apply list_elem_of_In, Hk in Hc. done.
Qed.

Lemma three_fields_ok id version pretty :
  one_line id -> one_line version -> one_line pretty -> os_fields_ok (three_fields id version pretty).
Proof.
  intros Hi Hv Hp. split; [by apply (bool_decide_unpack _); vm_compute|].
  repeat constructor; try done; cbn [fst]; by apply key_ok.
Qed.

Lemma field_filter k fields : dwf fields -> field k (List.filter (fun kv => nonempty kv.2) fields) = field k fields.
Proof.
  unfold field, dwf. induction fields as [|[k' v] d IH]; csimpl; [done|]. intros [Hk Hd]%NoDup_cons.
  destruct (nonempty v) eqn:E; cbn [dget]; case_decide as Hkk; [done|by apply IH| |by apply IH]. subst k'.
  assert (v = EmptyString) as -> by (destruct v; done). cbn.
  enough (dget k (List.filter (fun kv => nonempty kv.2) d) = None) as -> by done.
  apply dget_None. intros (y & Hy & Hin)%list_elem_of_fmap. apply Hk. rewrite Hy. apply list_elem_of_fmap. exists y.
  split; [done|]. apply list_elem_of_In, filter_In in Hin as [Hin _]. by apply list_elem_of_In.
Qed.

Lemma parse_rebuilt id version pretty :
  one_line id -> one_line version -> one_line pretty ->
  parse_os_release (os_release_text (three_fields id version pretty)) = rebuilt id version pretty.
Proof.
  intros Hi Hv Hp. unfold parse_os_release.
  rewrite os_release_text_fields by by apply three_fields_ok.
  destruct (three_fields_ok id version pretty Hi Hv Hp) as [Hwf _].
  rewrite !(field_filter _ _ Hwf). unfold rebuilt, family_of.
  change (field "ID" (three_fields id version pretty)) with id.
  change (field "ID_LIKE" (three_fields id version pretty)) with EmptyString.
  change (field "VERSION_ID" (three_fields id version pretty)) with version.
  change (field "VERSION_CODENAME" (three_fields id version pretty)) with EmptyString.
  change (field "PRETTY_NAME" (three_fields id version pretty)) with pretty.
  cbn [fmap list_fmap words words_chars String.list_ascii_of_string first_some].
  by destruct (dget _ OS_FAMILY_BY_ID).
Qed.

Lemma rebuilt_lower id version pretty : rebuilt (lower id) version pretty = rebuilt id version pretty.
Proof. unfold rebuilt. by rewrite lower_idem. Qed.

Lemma set_source id version pretty src :
  dset "source" (VStr src) (rebuilt id version pretty) = rebuilt id version pretty ++ [("source", VStr src)].
Proof. done. Qed.

Definition openwrt_answer (text : string) : list (string * value) :=
  let keys := foldl openwrt_line [] (splitlines text) in
  let id := field "DISTRIB_ID" keys in
  rebuilt (if nonempty id then id else "openwrt") (field "DISTRIB_RELEASE" keys) (field "DISTRIB_DESCRIPTION" keys)
  ++ [("source", VStr "/etc/openwrt_release")].

Lemma openwrt_rebuilt h :
  from_openwrt_release h = (text ← read_tree_text h "/etc/openwrt_release"; Some (openwrt_answer text)).
Proof.
  unfold from_openwrt_release, openwrt_answer. destruct (read_tree_text h _) as [text|]; [|done].
  cbn [mbind option_bind]. pose proof (openwrt_keys_one_line text) as Hk. unfold openwrt_fields.
  set (keys := foldl openwrt_line [] _) in *. cbv zeta. set (id := if nonempty _ then _ else _).
  assert (one_line id) as Hid by (subst id; case_match; [by apply field_one_line | by repeat constructor]).
  fold (three_fields (lower id) (field "DISTRIB_RELEASE" keys) (field "DISTRIB_DESCRIPTION" keys)).
  rewrite parse_rebuilt by auto using one_line_lower, field_one_line. by rewrite rebuilt_lower, set_source.
Qed.

Definition buildinfo_answer (info : list (string * string)) (distro : string) : option (list (string * value)) :=
  if nonempty distro then
    let version := field "DISTRO_VERSION" info in
    Some (rebuilt distro version (strip (distro +:+ " " +:+ version)) ++ [("source", VStr "/etc/buildinfo")])
  else None.

Lemma buildinfo_rebuilt h :
  from_buildinfo h = (distro ← dget "DISTRO" (read_buildinfo h); buildinfo_answer (read_buildinfo h) distro).
Proof.
  unfold from_buildinfo, buildinfo_answer. pose proof (buildinfo_one_line h) as Hk.
  set (info := read_buildinfo h) in *. destruct (dget "DISTRO" info) as [distro|] eqn:E; [|done].
  cbn [mbind option_bind]. destruct (nonempty distro); [|done]. cbv zeta. unfold buildinfo_fields.
  assert (distro = field "DISTRO" info) as Hd by (unfold field; by rewrite E).
  assert (one_line distro) as Hl by (rewrite Hd; by apply field_one_line).
  assert (one_line (field "DISTRO_VERSION" info)) as Hv by by apply field_one_line.
  fold (three_fields (lower distro) (field "DISTRO_VERSION" info) (strip (distro +:+ " " +:+ field "DISTRO_VERSION" info))).
  rewrite parse_rebuilt; [|by apply one_line_lower|done|].
  - by rewrite rebuilt_lower, set_source.
  - apply one_line_strip_by, one_line_app; [done|]. apply one_line_app; [by repeat constructor | done].
Qed.

(** The os-release text that the code writes for trees without an
    os-release file gives its fields back: the reader returns exactly the
    non-empty fields, whatever quotes or spaces the values hold.  Hence an
    OpenWrt or Yocto tree is described by exactly the name, version and
    description its own release file has. *)
Theorem os_release_roundtrip :
  (forall fields, os_fields_ok fields ->
     os_release_fields (os_release_text fields) = List.filter (fun kv => nonempty kv.2) fields) /\
  (forall h, from_openwrt_release h = (text ← read_tree_text h "/etc/openwrt_release"; Some (openwrt_answer text))) /\
  (forall h, from_buildinfo h = (distro ← dget "DISTRO" (read_buildinfo h); buildinfo_answer (read_buildinfo h) distro)).
Proof.
  split_and!; [apply os_release_text_fields | apply openwrt_rebuilt | apply buildinfo_rebuilt].
Qed.

(** ** The legacy release line *)

(** Captures are kept: matching only adds to them. *)
Definition grows_at (r : re) : Prop := forall X (p : pos) (k : pos -> option X) x,
  run r p k = Some x -> exists p', p_caps p `suffix_of` p_caps p' /\ k p' = Some x.

Lemma star_loop_grows (a : re) g X (k : pos -> option X) n p x :
  grows_at a -> star_loop (fun p k => run a p k) g k n p = Some x ->
  exists p', p_caps p `suffix_of` p_caps p' /\ k p' = Some x.
Proof.
  intros Ha. revert p; induction n as [|n IH]; intros p; cbn [star_loop]; [by exists p|].
  assert (run a p (fun p' => if Nat.ltb (length (p_right p')) (length (p_right p))
            then star_loop (fun p k => run a p k) g k n p' else None) = Some x ->
          exists p', p_caps p `suffix_of` p_caps p' /\ k p' = Some x) as Hmore.
  { intros (p1 & H1 & Hx)%Ha. destruct (Nat.ltb _ _); [|done]. apply IH in Hx as (p2 & H2 & Hk).
    exists p2. split; [by trans (p_caps p1) | done]. }
  destruct g; case_match eqn:E; intros; simplify_eq; eauto.
Qed.

Lemma run_grows r : grows_at r.
Proof.
  induction r as [|c|a IHa b IHb|a IHa b IHb|g a IHa|n a IHa|t|a IHa]; intros X p k x; cbn [run].
  - by exists p.
  - destruct (p_right p) as [|y r]; [done|]. destruct (c y); [|done]. intros Hk. eexists. split; [|exact Hk]. by destruct p.
  - intros (p1 & H1 & (p2 & H2 & Hk)%IHb)%IHa. exists p2. split; [by trans (p_caps p1) | done].
  - case_match eqn:E; intros; simplify_eq; [by eapply IHa | by eapply IHb].
  - by apply star_loop_grows.
  - intros (p1 & H1 & Hk)%IHa. eexists. split; [|exact Hk]. cbn [p_caps]. by apply suffix_cons_r.
  - destruct (t _ _); [|done]. by exists p.
  - case_match eqn:E; [|done]. apply IHa in E as (p1 & H1 & [= <-]). intros Hk. eexists. split; [|exact Hk]. done.
Qed.

Definition DISTRO_TAIL : re :=
  RSeqs [RPlus Space; RLit "release"; RPlus Space; RGrp 2 (RSeq (RPlus Digit) (ROpt (RSeqs [RLit "."; RPlus Digit])))].

Lemma bos_search r c l x :
  search_chars (RSeq Bos r) [] (c :: l) = Some x ->
  exists p', run r (Pos [] (c :: l) []) Some = Some p' /\ x = (Pos [] (c :: l) [], p').
Proof.
  assert (forall l left, left <> [] -> search_chars (RSeq Bos r) left l = None) as Hno.
  { clear. intros l. induction l as [|d l IH]; intros left Hne; (destruct left as [|e left]; [done|]); [done|]. idtac. by apply IH. }
  cbn [search_chars]. change (run (RSeq Bos r) (Pos [] (c :: l) []) Some) with (run r (Pos [] (c :: l) []) Some).
  destruct (run r _ Some) as [p'|]; [|by rewrite Hno]. intros [= <-]. by exists p'.
Qed.

(** The first group of a matching line starts with the first character of
    the line. *)
Lemma redhat_distro c l m :
  re_search REDHAT_RE (str_of (c :: l)) = Some m -> exists w, chars (group_or 1 m) = c :: w.
Proof.
  unfold re_search. rewrite chars_str_of. intros (x & Hs & ->)%fmap_Some. cbn [fst snd] in *.
  apply bos_search in Hs as (p' & Hrun & ->).
  change (run (RSeq (RGrp 1 (RSeq Dot (RStar false Dot))) DISTRO_TAIL) (Pos [] (c :: l) []) Some = Some p') in Hrun.
  cbn [run] in Hrun. unfold Dot at 1 in Hrun. cbn [run p_right] in Hrun.
  destruct (negb (Ascii.eqb c "010")); [|done].
  set (Q := fun (n : nat) (w : list ascii) => n = 1%nat -> head w = Some c).
  assert (good (fun _ => True) Q (advance [c] (Pos [] (c :: l) []))) as Hstart
    by (split; [by apply Forall_true | constructor]).
  destruct (run_good (fun _ => True) Q (RStar false Dot) I _ _ _ _ Hstart Hrun) as (p1 & [_ Hc1] & (w & [Hw _] & _) & Hrun').
  clear Hrun. rename Hrun' into Hrun.
  pose proof (run_grows _ _ _ _ _ Hrun) as (p2 & [caps Hcaps] & [= ->]).
  apply (run_good (fun _ => True) Q DISTRO_TAIL) in Hrun as (p3 & [_ Hc3] & _ & [= ->]).
  - rewrite Hcaps in Hc3. unfold group_or, group, mk_match. cbn [m_caps]. rewrite Hcaps.
    destruct (find (fun c0 => Nat.eqb c0.1 1) _) as [[n u]|] eqn:E.
    + apply find_some in E as [Hin Hn]. apply Nat.eqb_eq in Hn. cbn [fst] in Hn. subst n. apply list_elem_of_In in Hin.
      rewrite Forall_forall in Hc3. destruct (Hc3 _ Hin) as [Hq _]. specialize (Hq eq_refl). cbn [snd] in Hq. cbn.
      rewrite chars_str_of. destruct u as [|d u]; [done|]. injection Hq as ->. by exists u.
    + pose proof (find_none _ _ E (1%nat, consumed (Pos [] (c :: l) []) p1)) as Hn. cbn in Hn.
      discriminate Hn. apply list_elem_of_In, elem_of_app. right. by left.
  - by repeat split.
  - split; [apply Forall_true; done|]. cbn [p_caps]. constructor; [|done]. split; [|by apply Forall_true].
    intros _. cbn [snd]. unfold consumed. cbn [p_right]. change (l = w ++ p_right p1) in Hw. rewrite Hw.
    cbn [length]. rewrite length_app.
    replace (S (length w + length (p_right p1)) - length (p_right p1))%nat with (S (length w)) by lia. done.
Qed.

Lemma drop_while_last p l c : p c = false -> exists k, drop_while p (l ++ [c]) = k ++ [c].
Proof.
  intros Hc. induction l as [|d l [k IH]]; cbn; [rewrite Hc; by exists []|].
  destruct (p d); [by exists k | by exists (d :: l)].
Qed.
Lemma strip_keep_head s c w : chars s = c :: w -> is_space c = false -> exists w', chars (strip s) = c :: w'.
Proof.
  intros Hs Hc. unfold strip, strip_by, rstrip_by, lstrip_by. rewrite !chars_str_of, Hs. cbn [drop_while]. rewrite Hc.
  rewrite reverse_cons. destruct (drop_while_last is_space (reverse w) c Hc) as [k ->]. rewrite reverse_app. by eexists.
Qed.
Lemma words_chars_cons acc l : acc <> [] -> words_chars acc l <> [].
Proof.
  revert acc; induction l as [|c l IH]; intros acc Ha; cbn [words_chars]; [by destruct acc|].
  destruct (is_space c); [by destruct acc | by apply IH].
Qed.
Lemma words_chars_nonempty acc l : Forall (fun w => w <> []) (words_chars acc l).
Proof.
  assert (forall acc : list ascii, Forall (fun w => w <> []) (if acc is [] then [] else [reverse acc])) as Hacc.
  { intros [|d a]; repeat constructor. rewrite reverse_cons. by destruct (reverse a). }
  revert acc; induction l as [|c l IH]; intros acc; cbn [words_chars]; [apply Hacc|].
  destruct (is_space c); [|apply IH]. apply Forall_app. split; [apply Hacc | apply IH].
Qed.
Lemma words_nonempty s w : w ∈ words s -> w <> EmptyString.
Proof.
  unfold words. intros (l & -> & Hl)%list_elem_of_fmap E. pose proof (words_chars_nonempty [] (chars s)) as Hf.
  rewrite Forall_forall in Hf. apply (Hf l Hl). by apply str_of_inj.
Qed.
Lemma lower_head s c w : chars s = c :: w -> exists w', chars (lower s) = lower_char c :: w'.
Proof. unfold lower, str_map. intros ->. rewrite chars_str_of. by eexists. Qed.
Lemma lower_char_space c : is_space (lower_char c) = is_space c.
Proof. by destruct c as [[] [] [] [] [] [] [] []]. Qed.

Lemma redhat_words text m :
  re_search REDHAT_RE (strip text) = Some m -> words (lower (strip (group_or 1 m))) <> [].
Proof.
  intros Hm. pose proof (strip_head text) as Hh. rewrite <-(str_of_chars (strip text)) in Hm.
  destruct (chars (strip text)) as [|c l]; [by vm_compute in Hm|].
  apply redhat_distro in Hm as (w & Hw). destruct (strip_keep_head _ _ _ Hw Hh) as (w1 & Hw1).
  destruct (lower_head _ _ _ Hw1) as (w2 & Hw2). unfold words. rewrite Hw2. cbn [words_chars].
  rewrite lower_char_space, Hh. intros E%fmap_nil_inv. by apply words_chars_cons in E.
Qed.

(** A legacy release names the distribution by its first word; a file that
    does not read [<name> release <number>] raises. *)
Lemma redhat_id_spec text :
  redhat_id (parse_redhat_release text) =
  match re_search REDHAT_RE (strip text) with
  | None => Raise IndexError
  | Some m => Ok (default EmptyString (head (words (lower (strip (group_or 1 m))))))
  end.
Proof.
  unfold parse_redhat_release, redhat_id. destruct (re_search REDHAT_RE (strip text)) as [m|] eqn:E; [|done].
  change (dget "distro" _) with (Some (VStr (strip (group_or 1 m)))). cbv iota.
  pose proof (redhat_words _ _ E) as Hne. destruct (words _) as [|w l] eqn:Ew; [done|]. cbn.
  assert (nonempty w = true) as -> by (apply nonempty_iff, (words_nonempty (lower (strip (group_or 1 m)))); rewrite Ew; left).
  done.
Qed.

(** ** What [detect_os] returns *)

Definition OS_FAMILIES : list string := ["rhel"; "debian"; "suse"; "arch"; "alpine"; "openwrt"; "macos"; "unknown"].
Definition text_or_none (o : option value) : Prop := o = Some VNone \/ exists s, o = Some (VStr s).

Section Total.
Context (h : os_host).

(** The package manager is the first tool of the family the host has. *)
Definition manager_of (family : string) : value :=
  if String.eqb family "macos" then (if oh_which h "brew" then VStr "brew" else VNone) else manager_value h family.

Definition os_shape (d : list (string * value)) : Prop := exists family id,
  dget "family" d = Some (VStr family) /\ family ∈ OS_FAMILIES /\
  dget "id" d = Some (VStr id) /\ id <> EmptyString /\
  (forall k, k ∈ ["version_id"; "version_codename"; "pretty_name"] -> text_or_none (dget k d)) /\
  dget "package_manager" d = Some (manager_of family).

(** Why [detect_os] may raise: the legacy line of Red Hat has no release, or
    a file that is there does not decode. *)
Definition os_error (e : exn) : Prop :=
  (e = IndexError /\ exists text, oh_text h (host_path (oh_fs h) (oh_prefix h) "/etc/redhat-release") = Ok text /\
                      re_search REDHAT_RE (strip text) = None) \/
  (exists p, oh_text h p = Raise e /\ is_class "OSError" e = false).

Lemma os_dict_shape family id version codename pretty extra :
  family ∈ OS_FAMILIES -> id <> EmptyString ->
  text_or_none (Some version) -> text_or_none (Some codename) -> text_or_none (Some pretty) ->
  os_shape (os_dict family id version codename pretty (manager_of family) ++ extra).
Proof.
  intros Hf Hi Hv Hc Hp. exists family, id. split_and!; try done.
  intros k Hk. repeat (apply elem_of_cons in Hk as [->|Hk]); [exact Hv|exact Hc|exact Hp|]. by apply not_elem_of_nil in Hk.
Qed.

Lemma or_none_text s : text_or_none (Some (or_none s)).
Proof. unfold or_none, text_or_none. destruct (nonempty s); eauto. Qed.
Lemma of_ostr_text o : text_or_none (Some (of_ostr o)).
Proof. unfold text_or_none. destruct o; cbn; eauto. Qed.
Lemma none_text : text_or_none (Some VNone).
Proof. by left. Qed.
Lemma str_text s : text_or_none (Some (VStr s)).
Proof. right. by exists s. Qed.
#[local] Hint Resolve or_none_text of_ostr_text none_text str_text : pqc.

Lemma annotate_shape note d :
  match note with Some n => n.*1 = ["unavailable_in_container"; "reason"] | None => True end ->
  os_shape d -> os_shape (annotate note d).
Proof.
  intros Hn (family & id & H1 & H2 & H3 & H4 & H5 & H6). destruct note as [n|]; [|by exists family, id].
  cbn [annotate]. assert (forall k, k ∈ ["family"; "id"; "version_id"; "version_codename"; "pretty_name"; "package_manager"] ->
    dget k (dupdate d n) = dget k d) as Hk.
  { intros k Hk. apply dget_dupdate_other. rewrite Hn. intros Hin.
    repeat (apply elem_of_cons in Hk as [->|Hk]; [by apply bool_decide_unpack in Hin || (repeat (apply elem_of_cons in Hin as [?|Hin]; [done|]); by apply not_elem_of_nil in Hin)|]).
    by apply not_elem_of_nil in Hk. }
  exists family, id. rewrite !Hk by (repeat first [by left | right]). split_and!; try done.
  intros k Hin. rewrite Hk; [by apply H5|]. right; right. repeat (apply elem_of_cons in Hin as [->|Hin]; [repeat first [by left | right]|]).
  by apply not_elem_of_nil in Hin.
Qed.

Lemma families_known id like f : family_of id like = Some f -> f ∈ OS_FAMILIES /\ f <> "macos".
Proof.
  assert (forall k f, dget k OS_FAMILY_BY_ID = Some f -> f ∈ OS_FAMILIES /\ f <> "macos") as Ht.
  { intros k g Hg. apply dget_elem_of in Hg.
    assert (Forall (fun kv => kv.2 ∈ OS_FAMILIES /\ kv.2 <> "macos") OS_FAMILY_BY_ID) as Hall by (apply (bool_decide_unpack _); vm_compute; done).
    rewrite Forall_forall in Hall. apply (Hall _ Hg). }
  unfold family_of. destruct (dget id OS_FAMILY_BY_ID) eqn:E; [intros [= <-]; by eapply Ht|].
  induction like as [|t l IH]; cbn [first_some]; [done|]. destruct (dget t OS_FAMILY_BY_ID) eqn:Et; [intros [= <-]; by eapply Ht|done].
Qed.

Lemma manager_value_of f : f <> "macos" -> manager_of f = manager_value h f.
Proof. unfold manager_of. intros Hne. apply String.eqb_neq in Hne. by rewrite Hne. Qed.

Lemma parsed_dict text : exists f id v c p, parse_os_release text = os_dict f id v c p VNone /\
  f ∈ OS_FAMILIES /\ f <> "macos" /\ id <> EmptyString /\ text_or_none (Some v) /\ text_or_none (Some c) /\ text_or_none (Some p).
Proof.
  unfold parse_os_release. cbv zeta. do 5 eexists. split; [reflexivity|].
  assert (forall o, (forall f, o = Some f -> f ∈ OS_FAMILIES /\ f <> "macos") ->
    default "unknown" o ∈ OS_FAMILIES /\ default "unknown" o <> "macos") as Hd.
  { intros [f|] Hf; [by apply Hf|]. split; [by apply (bool_decide_unpack _)|done]. }
  destruct (Hd _ (families_known (strip (lower (field "ID" (os_release_fields text)))) (lower <$> words (field "ID_LIKE" (os_release_fields text)))))
    as [Hf Hm].
  split_and!; auto with pqc. unfold or_unknown. destruct (nonempty _) eqn:E; [by apply nonempty_iff | done].
Qed.

Lemma set_manager_shape text extra : (extra = [] \/ exists s, extra = [("source", s)]) ->
  os_shape (set_manager h (parse_os_release text ++ extra)).
Proof.
  intros Hx. destruct (parsed_dict text) as (f & id & v & c & p & -> & Hf & Hm & Hi & Hv & Hc & Hp).
  assert (set_manager h (os_dict f id v c p VNone ++ extra) = os_dict f id v c p (manager_of f) ++ extra) as ->.
  { rewrite manager_value_of by done. by destruct Hx as [->|[s ->]]. }
  by apply os_dict_shape.
Qed.

Lemma macos_shape : os_shape (macos_release h).
Proof.
  unfold macos_release. cbv zeta. rewrite <-(app_nil_r (os_dict _ _ _ _ _ _)).
  change (if oh_which h "brew" then _ else _) with (manager_of "macos").
  apply os_dict_shape; auto with pqc; by apply (bool_decide_unpack _).
Qed.

Lemma or_oserror_safe p : safe os_error (fun o => match o with Some t => oh_text h p = Ok t | None => True end) (or_oserror (oh_text h p)).
Proof.
  unfold or_oserror, catch. destruct (oh_text h p) as [t|e] eqn:E; [done|]. cbn.
  destruct (is_class "OSError" e) eqn:Ec; [done|]. right. by exists p.
Qed.

Lemma release_files_safe cs :
  safe os_error (fun o => match o with Some d => os_shape d | None => True end) (os_release_files h cs).
Proof.
  induction cs as [|c cs IH]; cbn [os_release_files]; [done|].
  eapply safe_bind; [apply or_oserror_safe|]. intros [t|] _; [|exact IH].
  change (os_shape (set_manager h (parse_os_release t))).
  rewrite <-(app_nil_r (parse_os_release t)). apply set_manager_shape. by left.
Qed.

Lemma legacy_dict_shape f id v c p : f ∈ OS_FAMILIES -> f <> "macos" -> id <> EmptyString ->
  text_or_none (Some v) -> text_or_none (Some c) -> text_or_none (Some p) -> os_shape (os_dict f id v c p (manager_value h f)).
Proof.
  intros. rewrite <-(app_nil_r (os_dict _ _ _ _ _ _)), <-manager_value_of by done. by apply os_dict_shape.
Qed.

Lemma unknown_shape : os_shape (unknown_release h).
Proof.
  assert (VNone = manager_of "unknown") as Hm by done. unfold unknown_release.
  destruct (nonempty _).
  - rewrite Hm at 4. apply os_dict_shape; auto with pqc; by apply (bool_decide_unpack _).
  - rewrite Hm at 3. rewrite <-(app_nil_r (os_dict _ _ _ _ _ _)). apply os_dict_shape; auto with pqc; by apply (bool_decide_unpack _).
Qed.

Lemma redhat_shape text : oh_text h (host_path (oh_fs h) (oh_prefix h) "/etc/redhat-release") = Ok text ->
  safe os_error os_shape (redhat_release h text).
Proof.
  intros Ht. unfold redhat_release. rewrite redhat_id_spec. destruct (re_search REDHAT_RE (strip text)) as [m|] eqn:E.
  2: { cbn. left. split; [done|]. by exists text. }
  pose proof (redhat_words _ _ E) as Hne. cbn [mbind res_bind safe]. apply legacy_dict_shape; auto with pqc.
  - by apply (bool_decide_unpack _).
  - destruct (words _) as [|w l] eqn:Ew; [done|]. cbn. apply (words_nonempty (lower (strip (group_or 1 m)))). rewrite Ew. left.
  - unfold parse_redhat_release. rewrite E. apply str_text.
  - unfold parse_redhat_release. apply str_text.
Qed.

Lemma legacy_safe : safe os_error os_shape (legacy_release h).
Proof.
  unfold legacy_release. set (rh := host_path _ _ "/etc/redhat-release").
  apply (safe_bind _ (fun o => match o with Some t => oh_text h rh = Ok t | None => True end)).
  { destruct (oh_exists h rh); [apply or_oserror_safe | done]. }
  intros [t|] Ht; [by apply redhat_shape|]. destruct (oh_exists h _).
  { eapply safe_bind; [apply or_oserror_safe|]. intros o _. cbn [safe]. unfold debian_release.
    apply legacy_dict_shape; auto with pqc; by apply (bool_decide_unpack _). }
  destruct (oh_exists h _); cbn [safe]; [|apply unknown_shape]. unfold suse_release.
  apply legacy_dict_shape; auto with pqc; by apply (bool_decide_unpack _).
Qed.

Lemma dset_source f id v c p x :
  dset "source" x (os_dict f id v c p VNone) = os_dict f id v c p VNone ++ [("source", x)].
Proof. done. Qed.

Lemma detect_os_impl_safe : safe os_error os_shape (detect_os_impl h).
Proof.
  unfold detect_os_impl. case_match; [apply macos_shape|].
  eapply safe_bind; [apply release_files_safe|]. intros [d|] Hd; [exact Hd|].
  destruct (from_openwrt_release h) as [d|] eqn:Eo.
  { unfold from_openwrt_release in Eo. destruct (read_tree_text h _); [|done]. apply (inj Some) in Eo as <-. cbn [safe].
    destruct (parsed_dict (os_release_text (openwrt_fields s))) as (f & id & v & c & p & E & _).
    rewrite E, dset_source, <-E.
    apply set_manager_shape. eauto. }
  destruct (from_buildinfo h) as [d|] eqn:Eb; [|apply legacy_safe].
  unfold from_buildinfo in Eb. cbv zeta in Eb. destruct (dget "DISTRO" _); [|done]. cbn [mbind option_bind] in Eb.
  destruct (nonempty s); [|done]. apply (inj Some) in Eb as <-. cbn [safe].
  match goal with |- context [parse_os_release ?t] => destruct (parsed_dict t) as (f & id & v & c & p & E & _) end.
  rewrite E, dset_source, <-E.
  apply set_manager_shape. eauto.
Qed.

Lemma note_safe label resources :
  safe os_error (fun note => match note with Some n => n.*1 = ["unavailable_in_container"; "reason"] | None => True end)
    (host_fs_unavailable_note h label resources).
Proof.
  unfold host_fs_unavailable_note. case_match; [done|].
  apply (safe_bind _ (fun _ => True)); [|intros env _; cbn [safe]; by destruct (py_eq _ _)].
  unfold detect_runtime_environment. do 2 (case_match; [done|]).
  eapply safe_bind; [apply or_oserror_safe|]. by intros.
Qed.
End Total.

(** C39: On every host and tree [detect_os] returns a record with one of the
    eight families, a non-empty ID, texts or nothing for the version, the
    code name and the description, and the first package manager of the
    family the host (under [--root]: the tree) has.  It raises only what a
    file that does not decode raises, and IndexError for a legacy
    [/etc/redhat-release] line that does not say [release <number>]; that
    line always makes it raise. *)
Theorem detect_os_total h :
  safe (os_error h) (os_shape h) (detect_os h) /\
  (forall text, redhat_release h text = Raise IndexError <-> re_search REDHAT_RE (strip text) = None) /\
  (forall tool family, resolve_package_manager h family = Some tool ->
     exists before after, default [] (dget family PKG_MANAGER_ORDER) = before ++ tool :: after /\
       has_tool h tool = true /\ Forall (fun t => has_tool h t = false) before).
Proof.
  split_and!.
  - unfold detect_os. eapply safe_bind; [apply detect_os_impl_safe|]. intros d Hd.
    eapply safe_bind; [apply note_safe|]. intros note Hn. cbn. by apply annotate_shape.
  - intros text. unfold redhat_release. rewrite redhat_id_spec. by destruct (re_search _ _).
  - intros tool family. unfold resolve_package_manager. induction (default [] _) as [|t l IH]; cbn; [done|].
    destruct (has_tool h t) eqn:E; [intros [= <-]; by exists [], l|].
    intros (b & a & -> & Ht & Hb)%IH. exists (t :: b), a. split_and!; [done..|by constructor].
Qed.

(** ** What a scan of a tree may consult *)

(** Two machines with the same tree at the same place: they agree on links
    and on the files that [host_path] leads to, and on nothing else. *)
Record same_tree (h1 h2 : os_host) : Prop := {
  st_fs : oh_fs h1 = oh_fs h2;
  st_prefix : oh_prefix h1 = oh_prefix h2;
  st_files : forall p, starts_with "/" p = true ->
    let q := host_path (oh_fs h1) (oh_prefix h1) p in
    oh_read h1 q = oh_read h2 q /\ oh_text h1 q = oh_text h2 q /\ oh_exists h1 q = oh_exists h2 q }.

Lemma same_manager h1 h2 family :
  same_tree h1 h2 -> nonempty (offline_root (oh_prefix h1)) = true ->
  resolve_package_manager h1 family = resolve_package_manager h2 family.
Proof.
  intros [Hfs Hp _] Ho. unfold resolve_package_manager. induction (default [] _) as [|t l IH]; cbn; [done|].
  assert (has_tool h1 t = has_tool h2 t) as -> by (unfold has_tool, tree_has_tool; by rewrite <-Hp, Ho, <-Hfs).
  by rewrite IH.
Qed.

Section SameTree.
Context (h1 h2 : os_host) (Hs : same_tree h1 h2) (Ho : nonempty (offline_root (oh_prefix h1)) = true).
Let Ho2 : nonempty (offline_root (oh_prefix h2)) = true.
Proof. by rewrite <-(st_prefix _ _ Hs). Qed.

Lemma same_path p : host_path (oh_fs h2) (oh_prefix h2) p = host_path (oh_fs h1) (oh_prefix h1) p.
Proof. by rewrite (st_fs _ _ Hs), (st_prefix _ _ Hs). Qed.
Lemma same_read p : starts_with "/" p = true -> read_tree_text h1 p = read_tree_text h2 p.
Proof. intros Hp. unfold read_tree_text. rewrite same_path. apply (st_files _ _ Hs _ Hp). Qed.
Lemma same_text p : starts_with "/" p = true ->
  oh_text h1 (host_path (oh_fs h1) (oh_prefix h1) p) = oh_text h2 (host_path (oh_fs h2) (oh_prefix h2) p).
Proof. intros Hp. rewrite same_path. apply (st_files _ _ Hs _ Hp). Qed.
Lemma same_exists p : starts_with "/" p = true ->
  oh_exists h1 (host_path (oh_fs h1) (oh_prefix h1) p) = oh_exists h2 (host_path (oh_fs h2) (oh_prefix h2) p).
Proof. intros Hp. rewrite same_path. apply (st_files _ _ Hs _ Hp). Qed.

Lemma same_manager_value f : manager_value h1 f = manager_value h2 f.
Proof. unfold manager_value. by rewrite (same_manager h1 h2). Qed.
Lemma same_set_manager d : set_manager h1 d = set_manager h2 d.
Proof. unfold set_manager. destruct (dget "family" d) as [[]|]; try done. by rewrite same_manager_value. Qed.

Lemma same_buildinfo : read_buildinfo h1 = read_buildinfo h2.
Proof. unfold read_buildinfo. by rewrite same_read. Qed.

Lemma same_release_files cs : Forall (fun c => starts_with "/" c = true) cs -> os_release_files h1 cs = os_release_files h2 cs.
Proof.
  induction 1 as [|c cs Hc Hcs IH]; cbn [os_release_files]; [done|]. rewrite same_text, IH by done.
  destruct (or_oserror _) as [[t|]|]; [|done..]. cbn [mbind res_bind]. by rewrite same_set_manager.
Qed.

Lemma same_legacy : legacy_release h1 = legacy_release h2.
Proof.
  unfold legacy_release. rewrite !same_exists, !same_text by done.
  unfold redhat_release, debian_release, suse_release, unknown_release. rewrite !same_manager_value. by rewrite Ho, Ho2.
Qed.

Lemma same_detect : nonempty (host_prefix (oh_prefix h1)) = true -> detect_os h1 = detect_os h2.
Proof.
  intros Hpre. unfold detect_os, detect_os_impl, host_fs_unavailable_note. rewrite <-(st_prefix _ _ Hs), Hpre, Ho, !andb_false_r.
  rewrite same_release_files by (repeat constructor).
  unfold from_openwrt_release, from_buildinfo. rewrite same_read, same_buildinfo by done.
  destruct (os_release_files h2 _) as [[d|]|]; [done| |done]. cbn [mbind res_bind].
  destruct (read_tree_text h2 _); cbn [mbind option_bind]; [by rewrite same_set_manager|].
  destruct (dget "DISTRO" _) as [distro|]; cbn [mbind option_bind]; [|by rewrite same_legacy].
  destruct (nonempty distro); [by rewrite same_set_manager | by rewrite same_legacy].
Qed.
End SameTree.


(** ** Witnesses *)

Definition tree_host (platform release : string) (files : list (string * string)) : os_host :=
  OsHost (HostFs (fun _ => None) (fun _ => None) (fun p => String.eqb p "/mnt/usr/bin/dnf") (fun _ => []))
    (set_offline_root "/mnt/" (Prefixes EmptyString EmptyString))
    (fun p => dget p files) (fun p => match dget p files with Some t => Ok t | None => Raise (OSError p) end)
    (fun p => dmem p files) (fun _ => String.eqb platform "linux") (fun _ => (0, release)) platform release "Kernel" release.
Definition fedora_files : list (string * string) :=
  [("/mnt/etc/os-release", str_join newline ["ID=fedora"; "VERSION_ID=44"; "PRETTY_NAME=" +:+ dquote +:+ "Fedora Linux 44" +:+ dquote])].

Example fedora_tree : detect_os (tree_host "linux" "6.1" fedora_files) =
  Ok (os_dict "rhel" "fedora" (VStr "44") VNone (VStr "Fedora Linux 44") (VStr "dnf")).
Proof. vm_compute. reflexivity. Qed.
Example rolling_raises : detect_os (tree_host "linux" "6.1" [("/mnt/etc/redhat-release", "Example Linux rolling")]) = Raise IndexError.
Proof. vm_compute. reflexivity. Qed.
(** The legacy ID of Red Hat Enterprise Linux is not [rhel]. *)
Example legacy_rhel_id : detect_os (tree_host "linux" "6.1" [("/mnt/etc/redhat-release", "Red Hat Enterprise Linux Server release 6.10 (Santiago)")]) =
  Ok (os_dict "rhel" "red" (VStr "6.10") VNone (VStr "Red Hat Enterprise Linux Server release 6.10 (Santiago)") (VStr "dnf")).
Proof. vm_compute. reflexivity. Qed.


Lemma os_release_roundtrip_witness :
  os_release_fields (os_release_text (three_fields "openwrt" "24.10" "it's OpenWrt")) = three_fields "openwrt" "24.10" "it's OpenWrt".
Proof.
  destruct os_release_roundtrip as [H _].
  refine (H (three_fields "openwrt" "24.10" "it's OpenWrt") (three_fields_ok _ _ _ _ _ _)); repeat constructor.
Defined.
