(* ===== verification/Sbom.v ===== *)
(** * The package SBOM ([render/sbom.py])

    Package URLs of installed packages, the inventory the document lists,
    the index other documents join through, and [build_sbom]. *)

From S2P Require Import Prelude PyStr PyDict PyVal PyRe HostPath Packages Osinfo.
Open Scope Z_scope.

Definition SBOM_SPEC_VERSION : string := "1.6".
Definition DB_BY_FAMILY : list (string * string) := [
  ("rhel", "rpm"); ("suse", "rpm"); ("debian", "debian"); ("alpine", "alpine"); ("arch", "arch")].
Definition PURL_TYPE_BY_DB : list (string * string) := [
  ("rpm", "rpm"); ("debian", "deb"); ("alpine", "apk"); ("arch", "alpm")].
Definition YOCTO_IDS : list string := ["poky"].

Definition not_dash : re := NotSet "-".
Definition SRPM_RE : re :=
  RSeqs [Bos; RGrp 1 (RPlus Dot); RLit "-"; RGrp 2 (RPlus not_dash); RLit "-"; RGrp 3 (RPlus not_dash); RLit ".src.rpm"; Eos].

(** ** Package URLs *)

(** [quote(value, safe=".-_~:")] over the UTF-8 bytes of the text. *)
Definition purl_safe (c : ascii) : bool := is_alnum c || char_in ".-_~:" c.
Definition hex_upper (n : N) : ascii := ascii_of_N (if (n <? 10)%N then n + 48 else n + 55).
Definition purl_char (c : ascii) : list ascii :=
  if purl_safe c then [c] else ["%"%char; hex_upper (code c / 16); hex_upper (code c mod 16)].
Definition purl_encode (s : string) : string := str_of (concat (purl_char <$> chars s)).

Definition value_at (k : string) (d : list (string * value)) : value := default VNone (dget k d).

(** The os-release ID, when the report has one. *)
Definition os_id (os_release : list (string * value)) : option string :=
  let v := value_at "id" os_release in
  if truthy v && negb (py_eq v (VStr "unknown")) then Some (py_str v) else None.
Definition is_some {A} (o : option A) : bool := if o is Some _ then true else false.

Definition is_yocto (os_release : list (string * value)) (buildinfo : list (string * string)) : bool :=
  nonempty (field "DISTRO" buildinfo) || match os_id os_release with Some i => bool_decide (i ∈ YOCTO_IDS) | None => false end.

Definition yocto_purl (pkg : package) : option string :=
  m ← re_match SRPM_RE (py_str (por (value_at "sourcerpm" pkg) (VStr EmptyString)));
  Some ("pkg:yocto/" +:+ purl_encode (group_or 1 m) +:+ "@" +:+ purl_encode (group_or 2 m)).

(** [version] with [-release] where there is one. *)
Definition full_version (pkg : package) : string :=
  py_str (value_at "version" pkg) +:+
  (if truthy (value_at "release" pkg) then "-" +:+ py_str (value_at "release" pkg) else EmptyString).

Definition pair_lt (a b : string * string) : bool :=
  str_lt a.1 b.1 || (String.eqb a.1 b.1 && str_lt a.2 b.2).
Definition no_epoch (v : value) : bool := existsb (py_eq v) [VNone; VStr EmptyString; VInt 0; VStr "0"].

(** [{distro_version or ''}]: the version of the release the vendor names. *)
Definition distro_version (os_release : list (string * value)) (buildinfo : list (string * string)) : value :=
  por (value_at "version_id" os_release)
      (if is_some (os_id os_release) then VNone else of_ostr (dget "DISTRO_VERSION" buildinfo)).
Definition purl_qualifiers (pkg : package) (distro : string) : list (string * string) :=
  (if truthy (value_at "arch" pkg) then [("arch", py_str (value_at "arch" pkg))] else []) ++
  (if no_epoch (value_at "epoch" pkg) then [] else [("epoch", py_str (value_at "epoch" pkg))]) ++
  [("distro", distro)].
Definition qualifier (kv : string * string) : string := kv.1 +:+ "=" +:+ purl_encode kv.2.

Definition vendor_of (os_release : list (string * value)) (buildinfo : list (string * string)) : option string :=
  match os_id os_release with
  | Some i => if nonempty i then Some i else dget "DISTRO" buildinfo
  | None => dget "DISTRO" buildinfo
  end.

Definition opkg_purl (pkg : package) (vendor : option string) : string :=
  let ns := match vendor with Some v => if nonempty v then purl_encode (lower v) +:+ "/" else EmptyString | None => EmptyString end in
  "pkg:generic/" +:+ ns +:+ purl_encode (py_str (value_at "name" pkg)) +:+ "@" +:+ purl_encode (py_str (value_at "version" pkg)).

Definition typed_purl (pkg : package) (ptype vendor distro : string) : string :=
  let name := py_str (value_at "name" pkg) in
  let name := if String.eqb ptype "apk" then lower name else name in
  "pkg:" +:+ ptype +:+ "/" +:+ purl_encode (lower vendor) +:+ "/" +:+ purl_encode name +:+ "@" +:+ purl_encode (full_version pkg) +:+ "?" +:+
  str_join "&" (qualifier <$> py_sorted pair_lt (purl_qualifiers pkg distro)).

Definition db_kind (pkg : package) (os_release : list (string * value)) : value :=
  por (value_at "db" pkg) (of_ostr (dget (py_str (value_at "family" os_release)) DB_BY_FAMILY)).

Definition package_purl (pkg : package) (os_release : list (string * value)) (buildinfo : list (string * string)) : option string :=
  let db := db_kind pkg os_release in
  if negb (truthy db) || negb (truthy (value_at "name" pkg)) || negb (truthy (value_at "version" pkg)) then None
  else
    match (if py_eq db (VStr "rpm") && is_yocto os_release buildinfo then yocto_purl pkg else None) with
    | Some purl => Some purl
    | None =>
        let vendor := vendor_of os_release buildinfo in
        if py_eq db (VStr "opkg") then Some (opkg_purl pkg vendor)
        else
          match dget (py_str db) PURL_TYPE_BY_DB, vendor with
          | Some ptype, Some v =>
              if nonempty v then
                let dv := distro_version os_release buildinfo in
                let distro := rstrip_by (Ascii.eqb "-") (v +:+ "-" +:+ (if truthy dv then py_str dv else EmptyString)) in
                Some (typed_purl pkg ptype v distro)
              else None
          | _, _ => None
          end
    end.

(** ** The inventory *)

Section Inventory.
Context (h : pkg_host).

Definition NO_DATABASE : string := "no package database found (looked for rpm, dpkg, apk, opkg and pacman databases)".

(** [{**p, "db": kind}]. *)
Definition tagged (kind : string) (p : package) : package := dset "db" (VStr kind) p.

(** The rows of the rpm inventory, which have more than name and version. *)
Definition full_rows (rows : list package) : res (list package) :=
  inv ← query_rpm_packages h;
  Ok (match inv with inr iv => iv_packages iv | inl _ => rows end).

Definition probed_packages : res (list package * option string) :=
  found ← probe_package_db h;
  match found with
  | None => Ok ([], Some NO_DATABASE)
  | Some p =>
      pkgs ← (if String.eqb (pb_kind p) "rpm" then full_rows (pb_packages p) else Ok (pb_packages p));
      Ok (List.map (tagged (pb_kind p)) pkgs, None)
  end.

Definition rpm_rows : res (list package * option string) :=
  inv ← query_rpm_packages h;
  Ok (match inv with inl reason => ([], Some reason) | inr iv => (iv_packages iv, None) end).

Definition installed_packages (os_release : list (string * value)) : res (list package * option string) :=
  let family := py_str (default (VStr "unknown") (dget "family" os_release)) in
  if bool_decide (family ∈ ["rhel"; "suse"]) then
    rpm_rows
  else if nonempty (host_prefix (ph_prefix h)) && dmem family PREFIXED_PACKAGE_DBS then
    catch (is_class "OSError") ('(pkgs, _) ← read_prefixed_package_db h family; Ok (pkgs, None))
      (fun e => Ok ([], Some ("package database unreadable under the prefix: " +:+ exn_text e)))
  else
    match dget family PACKAGE_QUERY_BY_FAMILY with
    | None => probed_packages
    | Some (argv, parser) =>
        let '(rc, out) := ph_run h argv in
        if negb (rc =? 0) then Ok ([], Some (default EmptyString (head argv) +:+ " failed (rc=" +:+ show_Z rc +:+ ")"))
        else Ok (parser out, None)
    end.

(** ** The index that other documents join through *)

Abbreviation pair_key := (string * string)%type.
Definition text_at (k : string) (p : package) : string := py_str (default (VStr EmptyString) (dget k p)).
Definition full_key (p : package) : pair_key :=
  (text_at "name" p, text_at "version" p +:+ (if truthy (value_at "release" p) then "-" +:+ py_str (value_at "release" p) else EmptyString)).
Definition upstream_key (p : package) : pair_key := (text_at "name" p, text_at "version" p).

Definition set_add (x : string) (l : list string) : list string := if bool_decide (x ∈ l) then l else l ++ [x].
Definition index_step (os_release : list (string * value)) (buildinfo : list (string * string))
    (st : list (pair_key * string) * list (pair_key * list string)) (pkg : package) :=
  match package_purl pkg os_release buildinfo with
  | None => st
  | Some purl =>
      (dsetdefault (full_key pkg) purl st.1,
       dset (upstream_key pkg) (set_add purl (default [] (dget (upstream_key pkg) st.2))) st.2)
  end.
(** An upstream version that names exactly one purl. *)
Definition upstream_step (index : list (pair_key * string)) (kv : pair_key * list string) : list (pair_key * string) :=
  match kv.2 with
  | [purl] => if dmem kv.1 index then index else index ++ [(kv.1, purl)]
  | _ => index
  end.
Definition index_of (pkgs : list package) (os_release : list (string * value)) (buildinfo : list (string * string)) : list (pair_key * string) :=
  let '(index, upstream) := foldl (index_step os_release buildinfo) ([], []) pkgs in
  foldl upstream_step index upstream.
Definition purl_index (os_release : list (string * value)) (buildinfo : list (string * string)) : res (list (pair_key * string)) :=
  '(pkgs, _) ← installed_packages os_release;
  Ok (index_of pkgs os_release buildinfo).

(** The package with the kind of the probed database, where it needs one. *)
Definition in_context (pkg : package) (os_release : list (string * value)) : res package :=
  if negb (truthy (value_at "db" pkg)) && negb (dmem (py_str (value_at "family" os_release)) DB_BY_FAMILY) then
    found ← probe_package_db h;
    Ok (match found with Some p => tagged (pb_kind p) pkg | None => pkg end)
  else Ok pkg.

Definition sbom_purl (pkg : package) (os_release : list (string * value)) (buildinfo : list (string * string)) : res (option string) :=
  if negb (truthy (value_at "name" pkg)) || negb (truthy (value_at "version" pkg)) then Ok None
  else
    index ← purl_index os_release buildinfo;
    match dget (py_str (value_at "name" pkg), full_version pkg) index with
    | Some purl => Ok (Some purl)
    | None =>
        ctx ← in_context pkg os_release;
        Ok (package_purl ctx os_release buildinfo)
    end.

(** ** The document *)

Record component := Component { c_ref : string; c_name : string; c_version : string; c_purl : string }.

(** A recipe purl is shared by the packages built from it. *)
Definition bom_ref (purl : string) (pkg : package) : string :=
  if starts_with "pkg:yocto/" purl then purl +:+ "#" +:+ py_str (value_at "name" pkg) else purl.

Record listing := Listing { l_components : list (string * component); l_no_purl : Z }.
Definition is_pubkey (pkg : package) : bool := py_eq (value_at "name" pkg) (VStr "gpg-pubkey").
Definition list_package (os_release : list (string * value)) (buildinfo : list (string * string)) (st : listing) (pkg : package) : listing :=
  if is_pubkey pkg then st
  else
    match package_purl pkg os_release buildinfo with
    | None => Listing (l_components st) (l_no_purl st + 1)
    | Some purl =>
        let ref := bom_ref purl pkg in
        if dmem ref (l_components st) then st
        else Listing (dset ref (Component ref (py_str (value_at "name" pkg)) (full_version pkg) purl) (l_components st)) (l_no_purl st)
    end.
Definition list_packages (os_release : list (string * value)) (buildinfo : list (string * string)) (pkgs : list package) : listing :=
  foldl (list_package os_release buildinfo) (Listing [] 0) pkgs.

(** [[components[k] for k in sorted(components)]]. *)
Definition ordered (components : list (string * component)) : list component :=
  omap (fun k => dget k components) (py_sorted str_lt components.*1).

Definition component_value (c : component) : value := VDict [
  ("type", VStr "library"); ("bom-ref", VStr (c_ref c)); ("name", VStr (c_name c)); ("version", VStr (c_version c)); ("purl", VStr (c_purl c))].

Record sbom_report := SbomReport {
  sr_os_release : list (string * value); sr_hostname : string; sr_os : string; sr_scan_mode : value; sr_generated_at : string }.

Definition or_text (a b : string) : string := if nonempty a then a else b.
Definition host_ref (r : sbom_report) : string := "host/" +:+ or_text (sr_hostname r) "unknown".

Definition os_ref (r : sbom_report) (buildinfo : list (string * string)) : string :=
  "os:" +:+ or_text (default EmptyString (vendor_of (sr_os_release r) buildinfo)) "unknown".
Definition os_component (r : sbom_report) (buildinfo : list (string * string)) : value :=
  let osr := sr_os_release r in
  let version := distro_version osr buildinfo in
  let pretty := value_at "pretty_name" osr in
  VDict ([("type", VStr "operating-system"); ("bom-ref", VStr (os_ref r buildinfo));
          ("name", VStr (or_text (default EmptyString (vendor_of osr buildinfo)) (or_text (sr_os r) "unknown")))] ++
         (if truthy version then [("version", VStr (py_str version))] else []) ++
         (if truthy pretty && is_some (os_id osr) then [("description", VStr (py_str pretty))] else [])).

Definition prop (name value : string) : PyVal.value := VDict [("name", VStr name); ("value", VStr value)].
Definition sbom_props (count no_purl : Z) (reason : option string) (mode : value) : list value :=
  [prop "pqc-readiness:sbom:package-count" (show_Z count)] ++
  (if negb (no_purl =? 0) then [prop "pqc-readiness:sbom:packages-without-purl" (show_Z no_purl)] else []) ++
  (match reason with Some m => if nonempty m then [prop "pqc-readiness:sbom:unavailable-reason" m] else [] | None => [] end) ++
  (if truthy mode then [prop "pqc-readiness:scan-mode" (py_str mode)] else []).

(** [uuid] and [now] stand for [uuid.uuid4()] and the current time. *)
Definition build_sbom (r : sbom_report) (buildinfo : list (string * string)) (script_version uuid now : string) : res value :=
  let osr := sr_os_release r in
  '(pkgs, reason) ← installed_packages osr;
  let st := list_packages osr buildinfo pkgs in
  mode ← (if truthy (sr_scan_mode r) then get "mode" (sr_scan_mode r) else Ok VNone);
  let comps := ordered (l_components st) in
  Ok (VDict [
    ("bomFormat", VStr "CycloneDX"); ("specVersion", VStr SBOM_SPEC_VERSION); ("serialNumber", VStr ("urn:uuid:" +:+ uuid)); ("version", VInt 1);
    ("metadata", VDict [
       ("timestamp", VStr (or_text (sr_generated_at r) now));
       ("tools", VDict [("components", VList [VDict [("type", VStr "application"); ("name", VStr "pqc-readiness"); ("version", VStr script_version)]])]);
       ("component", VDict [("type", VStr "device"); ("bom-ref", VStr (host_ref r)); ("name", VStr (or_text (sr_hostname r) "unknown"))]);
       ("properties", VList (sbom_props (Z.of_nat (length (l_components st))) (l_no_purl st) reason mode))]);
    ("components", VList (os_component r buildinfo :: (component_value <$> comps)));
    ("dependencies", VList [VDict [("ref", VStr (host_ref r));
       ("dependsOn", VStrs (os_ref r buildinfo :: (c_ref <$> comps)))]])]).
End Inventory.
