(* ===== verification/SbomTheory.v ===== *)
(** * The package SBOM: theorems

    Package URLs decode to the package they were made from and tell packages
    apart; the document lists every package once, with references that
    resolve; the index joins other documents with it. *)

From S2P Require Import Prelude PyStr PyDict PyVal PyRe HostPath Packages Osinfo OsinfoTheory Sbom.
Open Scope Z_scope.

(** ** Percent encoding *)

Definition hex_value (c : ascii) : N := if (code c <? 58)%N then code c - 48 else code c - 55.
Fixpoint percent_decode (l : list ascii) : list ascii :=
  match l with
  | [] => []
  | c :: l' =>
      match l' with
      | a :: b :: l'' => if Ascii.eqb c "%" then ascii_of_N (16 * hex_value a + hex_value b) :: percent_decode l'' else c :: percent_decode l'
      | _ => c :: percent_decode l'
      end
  end.

Lemma decode_char c l : percent_decode (purl_char c ++ l) = c :: percent_decode l.
Proof. destruct c as [[] [] [] [] [] [] [] []]; first [reflexivity | by destruct l as [|? [|? ?]]]. Qed.

Lemma decode_encode s : percent_decode (chars (purl_encode s)) = chars s.
Proof.
  unfold purl_encode. rewrite chars_str_of. induction (chars s) as [|c l IH]; [done|].
  csimpl. by rewrite decode_char, IH.
Qed.

Lemma purl_encode_inj s t : purl_encode s = purl_encode t -> s = t.
Proof. intros E. apply chars_inj. by rewrite <-(decode_encode s), E, decode_encode. Qed.

Definition purl_out (c : ascii) : bool := purl_safe c || Ascii.eqb c "%".
Lemma purl_char_out c : Forall (fun d => purl_out d = true) (purl_char c).
Proof. destruct c as [[] [] [] [] [] [] [] []]; repeat constructor. Qed.
Lemma purl_encode_out s : all_chars purl_out (purl_encode s).
Proof.
  unfold all_chars, purl_encode. rewrite chars_str_of. apply Forall_concat, Forall_fmap, Forall_true. apply purl_char_out.
Qed.
Lemma purl_encode_free c s : purl_out c = false -> c ∉ chars (purl_encode s).
Proof.
  intros Hc Hin. pose proof (purl_encode_out s) as H. unfold all_chars in H. rewrite Forall_forall in H.
  apply H in Hin. congruence.
Qed.

(** ** A package URL identifies its package *)

Lemma sep_inj c (a b x y : list ascii) : c ∉ a -> c ∉ b -> a ++ c :: x = b ++ c :: y -> a = b /\ x = y.
Proof.
  revert b; induction a as [|d a IH]; intros [|e b] Ha Hb H; cbn in H; simplify_eq; [done| | |].
  - destruct Hb. left.
  - destruct Ha. left.
  - apply not_elem_of_cons in Ha as [_ Ha], Hb as [_ Hb]. destruct (IH b Ha Hb) as [-> ->]; done.
Qed.
Lemma sep_str_inj c a b x y :
  c ∉ chars a -> c ∉ chars b -> a +:+ String c x = b +:+ String c y -> a = b /\ x = y.
Proof.
  intros Ha Hb H. apply (f_equal String.list_ascii_of_string) in H. rewrite !chars_app in H. cbn in H.
  apply sep_inj in H as [H1 H2]; [|done..]. split; by apply chars_inj.
Qed.

(** What a URL tells of a package: type, name, version and qualifiers. *)
Record pkg_id := PkgId { pi_type : string; pi_name : string; pi_version : string; pi_quals : list (string * string) }.
Definition quals_of (pkg : package) : list (string * string) :=
  (if truthy (value_at "arch" pkg) then [("arch", py_str (value_at "arch" pkg))] else []) ++
  (if no_epoch (value_at "epoch" pkg) then [] else [("epoch", py_str (value_at "epoch" pkg))]).
Definition identity (pkg : package) (os_release : list (string * value)) : pkg_id :=
  let db := db_kind pkg os_release in
  let name := py_str (value_at "name" pkg) in
  if py_eq db (VStr "opkg") then PkgId "generic" name (py_str (value_at "version" pkg)) []
  else
    let ptype := default EmptyString (dget (py_str db) PURL_TYPE_BY_DB) in
    PkgId ptype (if String.eqb ptype "apk" then lower name else name) (full_version pkg) (quals_of pkg).

(** The qualifiers in the order of their keys. *)
Lemma quals_sorted (a e : option string) distro :
  py_sorted pair_lt ((if a is Some v then [("arch", v)] else []) ++ (if e is Some v then [("epoch", v)] else []) ++ [("distro", distro)]) =
  (if a is Some v then [("arch", v)] else []) ++ [("distro", distro)] ++ (if e is Some v then [("epoch", v)] else []).
Proof. destruct a, e; vm_compute; reflexivity. Qed.

Lemma quals_sorted_inj p q distro :
  py_sorted pair_lt (purl_qualifiers p distro) = py_sorted pair_lt (purl_qualifiers q distro) -> quals_of p = quals_of q.
Proof.
  set (arch := fun r => if truthy (value_at "arch" r) then Some (py_str (value_at "arch" r)) else None).
  set (epoch := fun r => if no_epoch (value_at "epoch" r) then None else Some (py_str (value_at "epoch" r))).
  assert (forall r, purl_qualifiers r distro = (if arch r is Some v then [("arch", v)] else []) ++ (if epoch r is Some v then [("epoch", v)] else []) ++ [("distro", distro)]) as Hq.
  { intros r. unfold purl_qualifiers, arch, epoch. by destruct (truthy _), (no_epoch _). }
  assert (forall r, quals_of r = (if arch r is Some v then [("arch", v)] else []) ++ (if epoch r is Some v then [("epoch", v)] else [])) as Hi.
  { intros r. unfold quals_of, arch, epoch. by destruct (truthy _), (no_epoch _). }
  rewrite !Hq, !Hi, !quals_sorted. destruct (arch p), (epoch p), (arch q), (epoch q); cbn; intros; by simplify_eq.
Qed.

Lemma qual_keys p distro : Forall (fun kv => "="%char ∉ chars kv.1 /\ "&"%char ∉ chars kv.1) (py_sorted pair_lt (purl_qualifiers p distro)).
Proof.
  rewrite py_sorted_perm. unfold purl_qualifiers.
  destruct (truthy (value_at "arch" p)), (no_epoch (value_at "epoch" p));
    repeat constructor; cbn [fst]; by apply (bool_decide_unpack _).
Qed.

Lemma qualifier_inj l k :
  Forall (fun kv => "="%char ∉ chars kv.1 /\ "&"%char ∉ chars kv.1) l ->
  Forall (fun kv => "="%char ∉ chars kv.1 /\ "&"%char ∉ chars kv.1) k ->
  qualifier <$> l = qualifier <$> k -> l = k.
Proof.
  intros Hl. revert k; induction Hl as [|[a v] l [Ha _] Hl IH]; intros [|[b w] k] Hk E; csimpl in *; simplify_eq; [done|].
  inversion Hk as [|? ? [Hb _] Hk']; subst. f_equal; [|by apply IH].
  match goal with H : qualifier _ = qualifier _ |- _ => rename H into Hq end.
  unfold qualifier in Hq. cbn [fst snd] in *.
  apply (sep_str_inj "=" a b) in Hq as [-> Hv]; [|done..]. f_equal. by apply purl_encode_inj.
Qed.

Lemma quals_join_inj p q distro :
  str_join "&" (qualifier <$> py_sorted pair_lt (purl_qualifiers p distro)) =
  str_join "&" (qualifier <$> py_sorted pair_lt (purl_qualifiers q distro)) -> quals_of p = quals_of q.
Proof.
  intros E. apply (quals_sorted_inj p q distro). apply qualifier_inj; [apply qual_keys..|].
  assert (forall r, let l := qualifier <$> py_sorted pair_lt (purl_qualifiers r distro) in
    l <> [] /\ Forall (fun s => "&"%char ∉ chars s) l) as Hl.
  { intros r. split.
    - intros H%fmap_nil_inv. apply (f_equal length) in H. rewrite length_py_sorted in H.
      unfold purl_qualifiers in H. rewrite !length_app in H. cbn in H. lia.
    - apply Forall_fmap. eapply Forall_impl; [apply qual_keys|]. intros [k v] [_ Hk]. cbn in *.
      unfold qualifier. rewrite !chars_app. cbn [fst snd]. rewrite !not_elem_of_app. split_and!; [done| |by apply purl_encode_free].
      by apply (bool_decide_unpack _). }
  rewrite <-(join_split "&" (qualifier <$> py_sorted pair_lt (purl_qualifiers p distro))) by apply Hl.
  rewrite <-(join_split "&" (qualifier <$> py_sorted pair_lt (purl_qualifiers q distro))) by apply Hl.
  by rewrite E.
Qed.

Lemma str_app_inj a x y : a +:+ x = a +:+ y -> x = y.
Proof.
  intros H. apply (f_equal String.list_ascii_of_string) in H. rewrite !chars_app in H. apply app_inv_head in H. by apply chars_inj.
Qed.

(** The two shapes of a URL that is not a recipe's. *)
Definition name_version_part (name version rest : string) : string :=
  purl_encode name +:+ String "@" (purl_encode version +:+ rest).
Inductive purl_shape (pkg : package) (os_release : list (string * value)) (buildinfo : list (string * string)) : string -> Prop :=
| shape_generic ns :
    py_eq (db_kind pkg os_release) (VStr "opkg") = true ->
    ns = match vendor_of os_release buildinfo with Some v => if nonempty v then purl_encode (lower v) +:+ "/" else EmptyString | None => EmptyString end ->
    purl_shape pkg os_release buildinfo
      ("pkg:" +:+ "generic" +:+ String "/" (ns +:+ name_version_part (pi_name (identity pkg os_release)) (pi_version (identity pkg os_release)) EmptyString))
| shape_typed ptype v distro :
    py_eq (db_kind pkg os_release) (VStr "opkg") = false ->
    dget (py_str (db_kind pkg os_release)) PURL_TYPE_BY_DB = Some ptype -> vendor_of os_release buildinfo = Some v ->
    distro = rstrip_by (Ascii.eqb "-") (v +:+ "-" +:+
      (if truthy (distro_version os_release buildinfo) then py_str (distro_version os_release buildinfo) else EmptyString)) ->
    purl_shape pkg os_release buildinfo
      ("pkg:" +:+ ptype +:+ String "/" (purl_encode (lower v) +:+ String "/"
         (name_version_part (pi_name (identity pkg os_release)) (pi_version (identity pkg os_release))
            (String "?" (str_join "&" (qualifier <$> py_sorted pair_lt (purl_qualifiers pkg distro))))))).

Lemma str_app_nil s : s +:+ EmptyString = s.
Proof. apply chars_inj. rewrite chars_app. apply app_nil_r. Qed.

Lemma purl_shaped pkg osr bi u :
  is_yocto osr bi = false -> package_purl pkg osr bi = Some u -> purl_shape pkg osr bi u.
Proof.
  intros Hy. unfold package_purl. rewrite Hy, andb_false_r. cbv zeta. destruct (negb _ || _ || _); [done|].
  destruct (py_eq (db_kind pkg osr) (VStr "opkg")) eqn:Eo.
  { intros [= <-]. unfold opkg_purl.
    pose proof (shape_generic pkg osr bi _ Eo eq_refl) as H. unfold identity in H. rewrite Eo in H. cbn [pi_name pi_version] in H.
    unfold name_version_part in H. rewrite str_app_nil in H. exact H. }
  destruct (dget _ PURL_TYPE_BY_DB) as [ptype|] eqn:Ep; [|done].
  destruct (vendor_of osr bi) as [v|] eqn:Ev; [|done]. destruct (nonempty v); [|done]. intros [= <-].
  pose proof (shape_typed pkg osr bi _ _ _ Eo Ep Ev eq_refl) as H. unfold identity in H. rewrite Eo, Ep in H. exact H.
Qed.

Lemma purl_types_free k t : dget k PURL_TYPE_BY_DB = Some t -> "/"%char ∉ chars t /\ t <> "generic".
Proof.
  intros Ht%dget_elem_of.
  assert (Forall (fun kv => "/"%char ∉ chars kv.2 /\ kv.2 <> "generic") PURL_TYPE_BY_DB) as H by (apply (bool_decide_unpack _); vm_compute; done).
  rewrite Forall_forall in H. apply (H _ Ht).
Qed.

Lemma name_version_inj n v r n' v' r' :
  name_version_part n v r = name_version_part n' v' r' -> n = n' /\ purl_encode v +:+ r = purl_encode v' +:+ r'.
Proof.
  unfold name_version_part. intros H. apply sep_str_inj in H as [H1 H2]; [|by apply purl_encode_free..].
  split; [by apply purl_encode_inj | done].
Qed.


(** ** The document *)

Section Listing.
Context (os_release : list (string * value)) (buildinfo : list (string * string)).
Let purl (p : package) : option string := package_purl p os_release buildinfo.

(** Software without a URL. *)
Definition unlisted (p : package) : bool := negb (is_pubkey p) && negb (is_some (purl p)).
Definition component_from (p : package) (c : component) : Prop :=
  is_pubkey p = false /\ purl p = Some (c_purl c) /\ c_ref c = bom_ref (c_purl c) p /\
  c_name c = py_str (value_at "name" p) /\ c_version c = full_version p.

Record listed (pkgs : list package) (st : listing) : Prop := {
  ls_wf : dwf (l_components st);
  ls_ref : Forall (fun kc => c_ref kc.2 = kc.1) (l_components st);
  ls_from : Forall (fun kc => exists p, p ∈ pkgs /\ component_from p kc.2) (l_components st);
  ls_has : forall p u, p ∈ pkgs -> is_pubkey p = false -> purl p = Some u -> dmem (bom_ref u p) (l_components st) = true;
  ls_count : l_no_purl st = Z.of_nat (length (List.filter unlisted pkgs)) }.

Lemma listed_skip pkgs st p :
  listed pkgs st -> (is_pubkey p = true \/ exists u, purl p = Some u /\ dmem (bom_ref u p) (l_components st) = true) ->
  listed (pkgs ++ [p]) st.
Proof.
  intros [Hwf Hr Hf Hh Hc] Hp. constructor; [done|done| | |].
  - eapply Forall_impl; [exact Hf|]. intros kc (q & Hq & Hfrom). exists q. split; [|done]. apply elem_of_app. by left.
  - intros q u [Hq| ->%list_elem_of_singleton]%elem_of_app Hk Hu; [by eapply Hh|].
    destruct Hp as [?|(u' & Hu' & ?)]; [congruence|]. by rewrite Hu in Hu'; simplify_eq.
  - rewrite List.filter_app, length_app. cbn. unfold unlisted at 2.
    destruct Hp as [-> | (u & -> & _)]; [|rewrite andb_false_r]; cbn; lia.
Qed.

Lemma list_package_listed pkgs st p : listed pkgs st -> listed (pkgs ++ [p]) (list_package os_release buildinfo st p).
Proof.
  intros Hl. unfold list_package. destruct (is_pubkey p) eqn:Hk; [apply listed_skip; eauto|]. fold (purl p).
  destruct (purl p) as [u|] eqn:Hu.
  - cbv zeta. destruct (dmem (bom_ref u p) (l_components st)) eqn:Hm; [apply listed_skip; eauto|].
    destruct Hl as [Hwf Hr Hf Hh Hc]. unfold dmem in Hm. assert (bom_ref u p ∉ (l_components st).*1) as Hn.
    { apply dget_None. by destruct (dget _ _). }
    constructor; cbn [l_components l_no_purl].
    + by apply dset_wf.
    + rewrite dset_fresh by done. apply Forall_app. split; [done|]. by repeat constructor.
    + rewrite dset_fresh by done. apply Forall_app. split.
      * eapply Forall_impl; [exact Hf|]. intros kc (q & Hq & Hfrom). exists q. split; [|done]. apply elem_of_app. by left.
      * constructor; [|constructor]. exists p. split; [apply elem_of_app; right; left|]. by repeat split.
    + intros q u' [Hq| ->%list_elem_of_singleton]%elem_of_app Hkq Hu'; unfold dmem; rewrite dget_dset; case_decide; try done.
      * specialize (Hh q u' Hq Hkq Hu'). unfold dmem in Hh. done.
      * rewrite Hu in Hu'. by simplify_eq.
    + rewrite List.filter_app, length_app. cbn. unfold unlisted at 2. rewrite Hu, andb_false_r. cbn. lia.
  - destruct Hl as [Hwf Hr Hf Hh Hc]. constructor; cbn [l_components l_no_purl]; [done|done| | |].
    + eapply Forall_impl; [exact Hf|]. intros kc (q & Hq & Hfrom). exists q. split; [|done]. apply elem_of_app. by left.
    + intros q u' [Hq| ->%list_elem_of_singleton]%elem_of_app Hkq Hu'; [by eapply Hh | congruence].
    + rewrite List.filter_app, length_app. cbn. unfold unlisted at 2. rewrite Hk, Hu. cbn. lia.
Qed.

Lemma list_packages_listed pkgs : listed pkgs (list_packages os_release buildinfo pkgs).
Proof.
  unfold list_packages.
  assert (forall l seen st, listed seen st -> listed (seen ++ l) (foldl (list_package os_release buildinfo) st l)) as H.
  { intros l. induction l as [|p l IH]; intros seen st Hs; cbn [foldl]; [by rewrite app_nil_r|].
    change (p :: l) with ([p] ++ l). rewrite app_assoc. by apply IH, list_package_listed. }
  apply (H pkgs [] (Listing [] 0)). constructor; [constructor|constructor|constructor| |done].
  intros p u Hp. by apply not_elem_of_nil in Hp.
Qed.

Lemma ordered_spec (d : list (string * component)) :
  dwf d -> Forall (fun kc => c_ref kc.2 = kc.1) d ->
  c_ref <$> ordered d = py_sorted str_lt d.*1 /\ ordered d ≡ₚ d.*2.
Proof.
  intros Hwf Hr. unfold ordered. split.
  - assert (forall k, k ∈ py_sorted str_lt d.*1 -> exists c, dget k d = Some c /\ c_ref c = k) as Hk.
    { intros k Hin. apply elem_of_py_sorted, list_elem_of_fmap in Hin as ([k' c] & -> & Hin).
      exists c. split; [by apply dget_Some|]. rewrite Forall_forall in Hr. apply (Hr _ Hin). }
    induction (py_sorted str_lt d.*1) as [|k l IH]; [done|]. cbn.
    destruct (Hk k) as (c & -> & Hc); [left|]. csimpl. rewrite Hc, IH; [done|]. intros x Hx. apply Hk. by right.
  - rewrite py_sorted_perm. clear Hr. assert (forall e, dwf (e ++ d) -> omap (fun k => dget k (e ++ d)) d.*1 = d.*2) as H.
    { clear Hwf. induction d as [|[k c] d IH]; intros e Hwf; [done|]. csimpl.
      assert (dget k (e ++ (k, c) :: d) = Some c) as ->.
      { apply dget_Some; [done|]. apply elem_of_app. right. left. }
      f_equal. specialize (IH (e ++ [(k, c)])). rewrite <-app_assoc in IH. by apply IH. }
    apply Permutation_refl'. exact (H [] Hwf).
Qed.
End Listing.

Lemma purl_head pkg osr bi u : package_purl pkg osr bi = Some u -> exists rest, u = String "p" rest.
Proof.
  unfold package_purl. cbv zeta. destruct (negb _ || _ || _); [done|].
  assert (forall w, yocto_purl pkg = Some w -> exists rest, w = String "p" rest) as Hy.
  { intros w. unfold yocto_purl. destruct (re_match _ _); [|done]. intros [= <-]. by eexists. }
  destruct (if _ && _ then yocto_purl pkg else None) as [w|] eqn:E.
  { intros [= <-]. destruct (_ && _); [by apply Hy | done]. }
  destruct (py_eq (db_kind pkg osr) (VStr "opkg")); [intros [= <-]; by eexists|].
  destruct (dget _ _); [|done]. destruct (vendor_of _ _); [|done]. destruct (nonempty _); [|done].
  intros [= <-]. by eexists.
Qed.

Definition field_of (k : string) (v : value) : value := match v with VDict d => value_at k d | _ => VNone end.
Definition list_of (v : value) : list value := match v with VList l => l | _ => [] end.


(** ** The index *)

Section Index.
Context (os_release : list (string * value)) (buildinfo : list (string * string)).
Let purl (p : package) : option string := package_purl p os_release buildinfo.

Record indexed (pkgs : list package) (st : list (string * string * string) * list (string * string * list string)) : Prop := {
  ix_sound : forall k u, dget k st.1 = Some u -> exists p, p ∈ pkgs /\ purl p = Some u /\ full_key p = k;
  ix_full : forall p u, p ∈ pkgs -> purl p = Some u -> is_Some (dget (full_key p) st.1);
  ix_up : forall k u, (exists us, dget k st.2 = Some us /\ u ∈ us) <-> exists p, p ∈ pkgs /\ purl p = Some u /\ upstream_key p = k;
  ix_nodup : forall k us, dget k st.2 = Some us -> NoDup us;
  ix_wf : dwf st.2 }.

Lemma elem_of_set_add x y l : x ∈ set_add y l <-> x ∈ l \/ x = y.
Proof.
  unfold set_add. case_bool_decide; [|by rewrite elem_of_app, list_elem_of_singleton].
  split; [by left|]. by intros [?| ->].
Qed.

Lemma index_step_indexed pkgs st p : indexed pkgs st -> indexed (pkgs ++ [p]) (index_step os_release buildinfo st p).
Proof.
  assert (forall q, q ∈ pkgs ++ [p] <-> q ∈ pkgs \/ q = p) as Hin by (intros q; by rewrite elem_of_app, list_elem_of_singleton).
  intros [Hs Hf Hu Hn Hw]. unfold index_step. fold (purl p). destruct (purl p) as [u|] eqn:E.
  - constructor; cbn [fst snd].
    + intros k v. unfold dsetdefault. destruct (dmem (full_key p) st.1) eqn:Em.
      * intros (q & Hq & Hqv & Hk)%Hs. exists q. rewrite Hin. auto.
      * rewrite dget_app. destruct (dget k st.1) eqn:Ed; [intros [= <-]; apply Hs in Ed as (q & ? & ? & ?); exists q; rewrite Hin; auto|].
        cbn. case_decide; [|done]. intros [= <-]. exists p. rewrite Hin. auto.
    + intros q v Hq Hv. unfold dsetdefault. destruct (dmem (full_key p) st.1) eqn:Em.
      * apply Hin in Hq as [Hq| ->]; [by eapply Hf|]. unfold dmem in Em. by destruct (dget (full_key p) st.1).
      * rewrite dget_app. apply Hin in Hq as [Hq| ->].
        -- destruct (Hf q v Hq Hv) as [w ->]. by eexists.
        -- destruct (dget (full_key p) st.1); [by eexists|]. cbn. rewrite decide_True by done. by eexists.
    + intros k v. rewrite dget_dset. case_decide as Hk.
      * subst k. split.
        -- intros (us & [= <-] & Hv). apply elem_of_set_add in Hv as [Hv| ->]; [|exists p; rewrite Hin; auto].
           destruct (dget (upstream_key p) st.2) as [us|] eqn:Ed; [|by apply not_elem_of_nil in Hv].
           destruct (proj1 (Hu (upstream_key p) v)) as (q & ? & ? & ?); [by exists us|]. exists q. rewrite Hin. auto.
        -- intros (q & Hq & Hv & Hk). eexists. split; [reflexivity|]. rewrite elem_of_set_add. apply Hin in Hq as [Hq| ->].
           ++ left. destruct (proj2 (Hu (upstream_key p) v)) as (us & -> & ?); [by exists q|]. done.
           ++ right. congruence.
      * rewrite Hu. split; [intros (q & ? & ? & ?); exists q; rewrite Hin; auto|].
        intros (q & [Hq| ->]%Hin & ? & ?); [by exists q|done].
    + intros k us. rewrite dget_dset. case_decide; [intros [= <-]|by apply Hn]. unfold set_add. case_bool_decide as Hx.
      * destruct (dget (upstream_key p) st.2) eqn:Ed; [by eapply Hn | constructor].
      * apply NoDup_app. split_and!; [destruct (dget (upstream_key p) st.2) eqn:Ed; [by eapply Hn | constructor]| |apply NoDup_singleton].
        intros y Hy ->%list_elem_of_singleton. done.
    + by apply dset_wf.
  - constructor; [| | |done|done].
    + intros k v (q & ? & ? & ?)%Hs. exists q. rewrite Hin. auto.
    + intros q v [Hq| ->]%Hin Hv; [by eapply Hf|congruence].
    + intros k v. rewrite Hu. split; [intros (q & ? & ? & ?); exists q; rewrite Hin; auto|].
      intros (q & [Hq| ->]%Hin & Hv & ?); [by exists q|congruence].
Qed.

Lemma indexed_fold pkgs : indexed pkgs (foldl (index_step os_release buildinfo) ([], []) pkgs).
Proof.
  assert (forall l seen st, indexed seen st -> indexed (seen ++ l) (foldl (index_step os_release buildinfo) st l)) as H.
  { intros l. induction l as [|p l IH]; intros seen st Hs; cbn [foldl]; [by rewrite app_nil_r|].
    change (p :: l) with ([p] ++ l). rewrite app_assoc. by apply IH, index_step_indexed. }
  apply (H pkgs [] ([], [])). constructor; cbn [fst snd dget]; [done| | |done|constructor].
  - intros p u Hp. by apply not_elem_of_nil in Hp.
  - intros k u. split; [by intros (? & ? & _)|]. by intros (p & Hp%not_elem_of_nil & _).
Qed.

(** The upstream entries do not disturb the index, and add the singletons. *)
Lemma upstream_fold ups index k :
  dwf ups ->
  dget k (foldl upstream_step index ups) =
  match dget k index with
  | Some u => Some u
  | None => match dget k ups with Some [u] => Some u | _ => None end
  end.
Proof.
  revert index; induction ups as [|[k' us] ups IH]; intros index Hwf; cbn [foldl].
  { cbn. by destruct (dget k index). }
  unfold dwf in Hwf. csimpl in Hwf. apply NoDup_cons in Hwf as [Hk' Hwf]. rewrite IH by done.
  unfold upstream_step. cbn [fst snd dget].
  destruct us as [|u [|u' us]]; try (case_decide; [subst k'; apply dget_None in Hk'; rewrite Hk'|]; done).
  unfold dmem. destruct (dget k' index) as [w|] eqn:Ek.
  - case_decide; [|done]. subst k'. by rewrite Ek.
  - rewrite dget_app. destruct (dget k index) as [w|]; [done|]. cbn [dget]. case_decide; [|done]. subst k'. done.
Qed.
End Index.

Lemma purl_truthy pkg osr bi u :
  package_purl pkg osr bi = Some u -> truthy (value_at "name" pkg) = true /\ truthy (value_at "version" pkg) = true.
Proof.
  unfold package_purl. cbv zeta. destruct (truthy (value_at "name" pkg)), (truthy (value_at "version" pkg)); rewrite ?orb_true_r; done.
Qed.

Lemma text_at_truthy k p : truthy (value_at k p) = true -> text_at k p = py_str (value_at k p).
Proof. unfold text_at, value_at. by destruct (dget k p). Qed.

(** An installed package and its URL. *)
Definition has_url (pkgs : list package) (osr : list (string * value)) (bi : list (string * string)) (q : package) (v : string) : Prop :=
  q ∈ pkgs /\ package_purl q osr bi = Some v.

(** What other documents join on.  An installed package that has a URL
    is given the URL of an installed package with its name and full version
    — its own, unless several packages (one per architecture, say) share
    both — so the URL is in the SBOM; a record without a release is given
    the URL of the only installed package of that upstream version. *)
Theorem sbom_purl_joins h osr bi pkgs reason p u :
  installed_packages h osr = Ok (pkgs, reason) -> has_url pkgs osr bi p u ->
  (exists q v, has_url pkgs osr bi q v /\ full_key q = full_key p /\ sbom_purl h p osr bi = Ok (Some v)) /\
  (forall rec, truthy (value_at "release" rec) = false -> upstream_key rec = upstream_key p ->
     truthy (value_at "name" rec) = true -> truthy (value_at "version" rec) = true ->
     (forall q v, has_url pkgs osr bi q v -> full_key q <> upstream_key p) ->
     (forall q v, has_url pkgs osr bi q v -> upstream_key q = upstream_key p -> v = u) ->
     sbom_purl h rec osr bi = Ok (Some u)).
Proof.
  intros Hi [Hp Hu]. pose proof (indexed_fold osr bi pkgs) as [Hs Hf Hup Hnd Hw].
  assert (forall k, dget k (index_of pkgs osr bi) = match dget k (foldl (index_step osr bi) ([], []) pkgs).1 with
    | Some u => Some u
    | None => match dget k (foldl (index_step osr bi) ([], []) pkgs).2 with Some [u] => Some u | _ => None end end) as Hix.
  { intros k. unfold index_of. destruct (foldl _ _ pkgs) as [index ups]. by apply upstream_fold. }
  assert (forall rec, truthy (value_at "name" rec) = true -> truthy (value_at "version" rec) = true ->
    (py_str (value_at "name" rec), full_version rec) = full_key rec) as Hkey.
  { intros rec Hn Hv. unfold full_key, full_version. by rewrite !text_at_truthy. }
  split.
  - destruct (Hf p u Hp Hu) as [v Hv]. destruct (Hs _ _ Hv) as (q & Hq & Hqv & Hk). exists q, v. split_and!; try done.
    destruct (purl_truthy _ _ _ _ Hu) as [Hn Hver]. unfold sbom_purl. rewrite Hn, Hver. cbn [negb orb].
    unfold purl_index. rewrite Hi. cbn [mbind res_bind]. by rewrite Hkey, Hix, Hv by done.
  - intros rec Hr Hk Hn Hver Hno Hone.
    assert (dget (upstream_key p) (foldl (index_step osr bi) ([], []) pkgs).2 = Some [u]) as Hus.
    { destruct (proj2 (Hup (upstream_key p) u)) as (us & Hus & Hin); [by exists p|]. rewrite Hus. f_equal.
      specialize (Hnd _ _ Hus).
      assert (Forall (fun v => v = u) us) as Hall.
      { apply Forall_forall. intros v Hv. destruct (proj1 (Hup (upstream_key p) v)) as (q & Hq & Hqv & Hqk); [by exists us|]. by eapply Hone. }
      clear - Hnd Hin Hall. destruct us as [|a [|b us]]; [by apply not_elem_of_nil in Hin| |].
      - by inversion Hall; subst.
      - apply NoDup_cons in Hnd as [Ha _]. destruct Ha. inversion Hall as [|? ? -> Hr]; subst. inversion Hr; subst. left. }
    unfold sbom_purl. rewrite Hn, Hver. cbn [negb orb].
    unfold purl_index. rewrite Hi. cbn [mbind res_bind]. rewrite Hkey by done.
    assert (full_key rec = upstream_key p) as ->.
    { rewrite <-Hk. unfold full_key, upstream_key. rewrite Hr. by rewrite str_app_nil. }
    rewrite Hix, Hus. destruct (dget (upstream_key p) (fst _)) as [w|] eqn:E; [|done].
    destruct (Hs _ _ E) as (q & Hq & Hqv & Hqk). by destruct (Hno q w (conj Hq Hqv)).
Qed.

(** ** Witnesses *)

Definition debian_host : pkg_host :=
  PkgHost (HostFs (fun _ => None) (fun _ => None) (fun _ => false) (fun _ => [])) (Prefixes EmptyString EmptyString)
    (fun _ => false) (fun _ => false) (fun _ => false) (fun p => Raise (OSError p)) (fun p => Raise (OSError p)) (fun p => Raise (OSError p))
    (fun _ => []) None (fun _ _ _ => SqliteEmpty) false (fun _ => true)
    (fun _ => (0, str_join newline ["libc6 2.36-9+deb12u4"; "openssl 3.0.15-1~deb12u1"])) None.
Definition debian_release_sample : list (string * value) :=
  os_dict "debian" "debian" (VStr "12") (VStr "bookworm") (VStr "Debian GNU/Linux 12 (bookworm)") (VStr "apt-get").
Definition debian_report : sbom_report := SbomReport debian_release_sample "web1" "Linux" VNone "2026-01-01T00:00:00+00:00".
Definition libc6 : package := pkg_row "libc6" "2.36-9+deb12u4".
Definition libc6_purl : string := "pkg:deb/debian/libc6@2.36-9%2Bdeb12u4?distro=debian-12".

Example libc6_has_purl : package_purl libc6 debian_release_sample [] = Some libc6_purl.
Proof. vm_compute. reflexivity. Qed.
Example recipe_purl : package_purl (pkg_row "libssl3" "3.0.12" ++ [("sourcerpm", VStr "openssl-3.0.12-r0.src.rpm"); ("db", VStr "rpm")])
  [("id", VStr "poky")] [] = Some "pkg:yocto/openssl@3.0.12".
Proof. vm_compute. reflexivity. Qed.



Lemma sbom_purl_joins_witness : exists v, sbom_purl debian_host libc6 debian_release_sample [] = Ok (Some v).
Proof.
  destruct (sbom_purl_joins debian_host debian_release_sample [] [libc6; pkg_row "openssl" "3.0.15-1~deb12u1"] None libc6 libc6_purl)
    as [(q & v & _ & _ & H) _]; [vm_compute; reflexivity|split; [left|vm_compute; reflexivity]|].
  exists v. exact H.
Defined.
