(* ===== verification/CbomAssets.v ===== *)
(** * CBOM: tables ([render/cbom.py], [render/cbom_profiles.py])

    Platforms, parameter sets, algorithm families, protocol groups, the
    mirrored fields and the federal-draft profile. *)

From S2P Require Import Prelude PyStr PyDict PyVal HostPath ConfigRead Services SarifRules.
Open Scope Z_scope.
Definition CBOM_PLATFORM : list (string * string) := [
  ("x86_64", "x86_64"); ("amd64", "x86_64"); ("i386", "x86_32"); ("i686", "x86_32"); ("aarch64", "armv8-a"); ("arm64", "armv8-a");
  ("armv7l", "armv7-a"); ("s390x", "s390x"); ("ppc64", "ppc64"); ("ppc64le", "ppc64le")].
Definition cbom_platform (arch : string) : string := default "unknown" (dget (lower arch) CBOM_PLATFORM).

Definition PQC_NIST_CATEGORY : list (string * Z) := [
  ("ML-KEM-512", 1); ("ML-KEM-768", 3); ("ML-KEM-1024", 5); ("ML-DSA-44", 2); ("ML-DSA-65", 3); ("ML-DSA-87", 5);
  ("SLH-DSA-SHA2-128s", 1); ("SLH-DSA-SHA2-128f", 1); ("SLH-DSA-SHA2-192s", 3); ("SLH-DSA-SHA2-192f", 3);
  ("SLH-DSA-SHA2-256s", 5); ("SLH-DSA-SHA2-256f", 5); ("SLH-DSA-SHAKE-128s", 1); ("SLH-DSA-SHAKE-128f", 1);
  ("SLH-DSA-SHAKE-192s", 3); ("SLH-DSA-SHAKE-192f", 3); ("SLH-DSA-SHAKE-256s", 5); ("SLH-DSA-SHAKE-256f", 5)].

Definition pqc_parameter_set (name : string) : string :=
  match List.find (fun p => starts_with p name) ["ML-KEM-"; "ML-DSA-"; "SLH-DSA-"] with
  | Some p => str_of (drop (String.length p) (chars name))
  | None => name
  end.

Definition CBOM_VERSIONS : list string := ["1.7"; "1.6"].
Definition CDX17_FAMILY_PREFIXES : list (string * string) := [
  ("ML-KEM", "ML-KEM"); ("MLKEM", "ML-KEM"); ("ML-DSA", "ML-DSA"); ("MLDSA", "ML-DSA"); ("SLH-DSA", "SLH-DSA"); ("SLHDSA", "SLH-DSA");
  ("LMS", "LMS"); ("HSS", "LMS"); ("XMSS", "XMSS")].
Definition CDX17_UNREGISTERED_PREFIXES : list (string * string) := [
  ("HQC", "HQC"); ("FN-DSA", "FN-DSA"); ("FALCON", "FN-DSA"); ("FRODO", "FrodoKEM"); ("MCELIECE", "Classic-McEliece");
  ("CLASSIC-MCELIECE", "Classic-McEliece"); ("BIKE", "BIKE")].
Definition HYBRID_CURVE_MARKERS : list string := ["X25519"; "X448"; "SECP"; "NISTP"; "P256"; "P384"; "P521"; "BRAINPOOL"].

(** A name that has a classical curve anywhere is a hybrid. *)
Definition has_curve (name : string) : bool := existsb (fun c => contains c (upper name)) HYBRID_CURVE_MARKERS.
Definition prefixed_by (table : list (string * string)) (name : string) : option string :=
  snd <$> List.find (fun pf => starts_with pf.1 (upper name)) table.
(** The family and whether the CycloneDX registry has it. *)
Definition cdx17_algorithm_family (name : string) : option (string * bool) :=
  if has_curve name then None
  else
    match prefixed_by CDX17_FAMILY_PREFIXES name with
    | Some family => Some (family, true)
    | None => (fun family => (family, false)) <$> prefixed_by CDX17_UNREGISTERED_PREFIXES name
    end.

Definition CDX17_PROTOCOLS : list (string * string * string * list string) := [
  ("protocol/tls", "TLS 1.3 (OpenSSL key-exchange groups)", "tls", ["openssl_tls_hybrid"; "openssl_tls_pqc"; "openssl_tls_classical"]);
  ("protocol/ssh", "SSH (OpenSSH key exchange)", "ssh", ["ssh_kex_hybrid"; "ssh_kex_pqc"; "ssh_kex_classical"])].

Definition INTEROP_NONE : string := "none".
Definition INTEROP_DEPENDENCY_TRACK : string := "dependency-track".
Definition INTEROP_SBOM_ONLY : string := "sbom-only".
Definition INTEROP_MODES : list string := [INTEROP_NONE; INTEROP_DEPENDENCY_TRACK; INTEROP_SBOM_ONLY].
Definition MIRROR_PREFIX : string := "pqc-readiness:crypto:".
Definition MIRRORED_FIELDS : list (list string * string) := [
  (["assetType"], "assetType"); (["algorithmProperties"; "primitive"], "primitive");
  (["algorithmProperties"; "algorithmFamily"], "algorithmFamily");
  (["algorithmProperties"; "parameterSetIdentifier"], "parameterSetIdentifier");
  (["algorithmProperties"; "nistQuantumSecurityLevel"], "nistQuantumSecurityLevel");
  (["algorithmProperties"; "executionEnvironment"], "executionEnvironment");
  (["algorithmProperties"; "implementationPlatform"], "implementationPlatform");
  (["protocolProperties"; "type"], "protocolType"); (["relatedCryptoMaterialProperties"; "type"], "relatedCryptoMaterialType");
  (["certificateProperties"; "fingerprint"; "content"], "certificateSha256");
  (["certificateProperties"; "subjectName"], "subjectName"); (["certificateProperties"; "issuerName"], "issuerName");
  (["certificateProperties"; "notValidAfter"], "notValidAfter")].
Definition CERT_CLASSIFICATION : list (string * string) := [
  ("classical", "classical"); ("hybrid_composite", "hybrid"); ("pure_pqc", "pure-pqc")].
Definition LIBRARY_ALGORITHM_KINDS : list (string * (string * string * string)) := [
  ("kem", ("kem", "kem", "kem")); ("signatures", ("sig", "sig", "signature")); ("tls_hybrid_groups", ("tls-hybrid", "tls_hybrid", "combiner"))].
Definition PROPERTY_NAMESPACE : string := "pqc-readiness".
Definition NAMESPACED_PREFIXES : list string := [PROPERTY_NAMESPACE +:+ ":"; "cdx:"].

(** ** Profiles *)

Record profile := Profile {
  pf_id : string; pf_prefix : string; pf_status : string; pf_sources : list (string * string);
  pf_function_by_primitive : list (string * string);
  pf_deadlines : list (string * (string * string));
  pf_tls13_deadline : string * string;
  pf_vulnerable_by_category : list (string * bool);
  pf_vulnerable_by_cert_category : list (string * bool);
  pf_in_use : string * string;
  pf_items : list (Z * string * string) }.

Definition FEDERAL_DRAFT : profile := Profile "federal-draft" "federal:"
  "draft: pending the CISA/NIST minimum CBOM elements (EO 14412 §5(d), due ~2027-03); remapped in #150"
  [("eo_14412", "https://public-inspection.federalregister.gov/2026-12909.pdf");
   ("omb_m_26_15", "https://www.whitehouse.gov/wp-content/uploads/2026/06/M-26-15-Execution-of-the-Migration-to-Post-Quantum-Cryptography.pdf");
   ("omb_m_23_02", "https://bidenwhitehouse.archives.gov/wp-content/uploads/2022/11/M-23-02-M-Memo-on-Migrating-to-Post-Quantum-Cryptography.pdf")]
  [("kem", "key-establishment"); ("key-agree", "key-establishment"); ("combiner", "key-establishment"); ("signature", "digital-signature")]
  [("key-establishment", ("2030-12-31", "EO 14412 §4(b)(ii)")); ("digital-signature", ("2031-12-31", "EO 14412 §4(b)(iii)"))]
  ("2030-01-02", "OMB M-26-15 §4 (EO 14306)")
  [("openssl_kem", false); ("openssl_sig", false); ("openssl_tls_hybrid", false); ("openssl_tls_pqc", false); ("openssl_tls_classical", true);
   ("ssh_kex_hybrid", false); ("ssh_kex_pqc", false); ("ssh_kex_classical", true);
   ("library_kem", false); ("library_sig", false); ("library_tls_hybrid", false); ("library_ssh_kex_hybrid", false); ("library_ssh_kex_pqc", false)]
  [("classical", true); ("hybrid_composite", false); ("pure_pqc", false)]
  ("possible", "library-capability")
  [(1, "FISMA system identifier", "metadata:fisma_system_id"); (2, "FIPS 199 categorization", "metadata:fips199_categorization");
   (3, "HVA identifier", "metadata:hva_id"); (4, "CRQC-vulnerable cryptographic systems actively used", "scan:assets");
   (5, "Software package provenance (COTS/GOTS/other)", "scan:packages"); (6, "Operating system with major/minor version", "scan:os");
   (7, "Hosting model and provider", "metadata:hosting"); (8, "Data lifecycle and time to live", "metadata:data_lifecycle");
   (9, "Additional notes", "metadata:notes")].
Definition PROFILES : list (string * option profile) := [("none", None); ("federal-draft", Some FEDERAL_DRAFT)].

(** * CBOM: assets and their components ([render/cbom.py])

    The canonical cryptographic assets of a report, and the CycloneDX 1.6
    and 1.7 components they, the protocols and the certificates become.
    The report's sections are dynamic values, as the code reads them. *)
(** The fields of the report that the CBOM reads. *)
Record cbom_report := CbomReport {
  b_generated_at : string; b_hostname : string; b_os : string; b_arch : string; b_cpu_model : string; b_scan_mode : value;
  b_isa_features : value; b_accelerators : list value; b_tpm_pqc : value; b_pkcs11_modules : list string; b_openssl : value;
  b_ssh_pqc : value; b_ipsec_pqc : value; b_trust_store : value; b_crypto_material : value; b_packages : value;
  b_os_release : value; b_inventory_metadata : value; b_crypto_libraries : value; b_service_crypto_linkage : value }.

Abbreviation props := (list (string * value)).

Record asset := Asset {
  a_key : string; a_name : value; a_category : string; a_type : string; a_primitive : string; a_environment : string;
  a_platform : string; a_protocol : string; a_material : string; a_parameter_set : string; a_nist : option Z;
  a_source : string; a_props : props }.

(** [(x or {})] of a section. *)
Definition or_dict (v : value) : value := por v (VDict []).
Definition as_text (v : value) : res string := match v with VStr s => Ok s | _ => Raise AttributeError end.

Definition algorithm (key : string) (name : value) (category primitive environment platform source : string) (ps : props) : asset :=
  Asset key name category "algorithm" primitive environment platform EmptyString EmptyString EmptyString None source ps.
Definition software : string := "software-plain-ram".

Definition pqc_algorithm_asset (key : string) (name : value) (category primitive source : string) : res asset :=
  name ← as_text name;
  let pset := pqc_parameter_set name in
  Ok (Asset key (VStr name) category "algorithm" primitive software EmptyString EmptyString EmptyString
        (if String.eqb pset name then EmptyString else pset) (dget name PQC_NIST_CATEGORY) source []).

(** [sorted(v.items())] of a dictionary. *)
Definition sorted_items (v : value) : res (list (string * value)) :=
  d ← items v; Ok (py_sorted (fun a b => str_lt a.1 b.1) d).

Definition isa_asset (platform : string) (kv : string * value) : res asset :=
  let '(flag, info) := kv in
  name ← get_or "name" (VStr flag) info;
  purpose ← get_or "purpose" (VStr EmptyString) info;
  Ok (algorithm ("isa/" +:+ flag) name "isa" "other" "hardware" platform EmptyString
        [("isa:flag", VStr flag); ("isa:purpose", purpose)]).
Definition isa_assets (r : cbom_report) : res (list asset) :=
  fs ← sorted_items (b_isa_features r); mapM (isa_asset (cbom_platform (b_arch r))) fs.

Definition accelerator_asset (platform : string) (ia : nat * value) : res asset :=
  let '(idx, a) := ia in
  kind ← get_or "kind" (VStr "accelerator") a;
  name ← get_or "name" (VStr EmptyString) a;
  detail ← get "detail" a;
  capable ← truthy_at "pqc_capable" a;
  Ok (algorithm ("accel/" +:+ show_nat idx +:+ "/" +:+ py_str kind) (por name kind) "accelerator" "other" "hardware" platform EmptyString
        ([("accelerator:kind", VStr (py_str kind))] ++
         (if truthy detail then [("accelerator:detail", VStr (py_str detail))] else []) ++
         (if (capable : bool) then [("accelerator:pqc_capable", VStr "true")] else []))).
Definition accelerator_assets (r : cbom_report) : res (list asset) :=
  mapM (accelerator_asset (cbom_platform (b_arch r))) (imap pair (b_accelerators r)).

Definition bool_text (b : bool) : string := if b then "true" else "false".
Definition tpm_assets (r : cbom_report) : res (list asset) :=
  let tpm := or_dict (b_tpm_pqc r) in
  present ← truthy_at "present" tpm;
  if negb present then Ok []
  else
    advertised ← truthy_at "pqc_advertised" tpm;
    note ← get_or "note" (VStr EmptyString) tpm;
    Ok [algorithm "tpm/pqc" (VStr "TPM PQC capability") "tpm" "other" "hardware" (cbom_platform (b_arch r)) EmptyString
          [("tpm:pqc_advertised", VStr (bool_text advertised)); ("tpm:note", VStr (py_str note))]].

Definition protocol_asset (key name category protocol : string) (ps : props) : asset :=
  Asset key (VStr name) category "protocol" EmptyString EmptyString EmptyString protocol EmptyString EmptyString None EmptyString ps.

(** [Path(p).name]. *)
Definition path_name (p : string) : string :=
  List.last (List.filter (fun c => nonempty c && negb (String.eqb c ".")) (split "/" p)) EmptyString.
Definition pkcs11_asset (ip : nat * string) : asset :=
  let '(idx, path) := ip in
  let name := path_name path in
  protocol_asset ("pkcs11/" +:+ show_nat idx) (if nonempty name then name else "pkcs11-module-" +:+ show_nat idx) "pkcs11" "other"
    [("pkcs11:module_path", VStr path)].
Definition pkcs11_assets (r : cbom_report) : list asset := pkcs11_asset <$> imap pair (b_pkcs11_modules r).

(** [f"{library}@{version or 'unknown'}"]. *)
Definition source_of (library : string) (v : value) : res string :=
  version ← get "version" v; Ok (library +:+ "@" +:+ py_str (por version (VStr "unknown"))).
Definition named_assets (prefix category primitive source : string) (ps : props) (names : list value) : list asset :=
  (fun n => algorithm (prefix +:+ py_str n) n category primitive software EmptyString source ps) <$> names.

Definition openssl_assets (r : cbom_report) : res (list asset) :=
  let osinfo := or_dict (b_openssl r) in
  available ← truthy_at "available" osinfo;
  if negb available then Ok []
  else
    src ← source_of "openssl" osinfo;
    kems ← get_l "kem_algorithms" osinfo;
    ks ← mapM (fun n => pqc_algorithm_asset ("openssl/kem/" +:+ py_str n) n "openssl_kem" "kem" src) kems;
    sigs ← get_l "sig_algorithms" osinfo;
    ss ← mapM (fun n => pqc_algorithm_asset ("openssl/sig/" +:+ py_str n) n "openssl_sig" "signature" src) sigs;
    groups ← get_d "tls_groups" osinfo;
    hybrid ← get_l "hybrid" groups;
    pure ← get_l "pure_pqc" groups;
    Ok (ks ++ ss ++ named_assets "openssl/tls-hybrid/" "openssl_tls_hybrid" "combiner" src [("tls:role", VStr "hybrid-group")] hybrid ++
        named_assets "openssl/tls-pure-pqc/" "openssl_tls_pqc" "kem" src [("tls:role", VStr "pure-pqc-group")] pure).

Definition ssh_assets (r : cbom_report) : res (list asset) :=
  let ssh := or_dict (b_ssh_pqc r) in
  available ← truthy_at "available" ssh;
  if negb available then Ok []
  else
    src ← source_of "openssh" ssh;
    groups ← get_d "kex_groups" ssh;
    hybrid ← get_l "hybrid" groups;
    pure ← get_l "pure_pqc" groups;
    Ok (named_assets "ssh/kex/hybrid/" "ssh_kex_hybrid" "key-agree" src [("ssh:role", VStr "hybrid-kex")] hybrid ++
        named_assets "ssh/kex/pure-pqc/" "ssh_kex_pqc" "kem" src [("ssh:role", VStr "pure-pqc-kex")] pure).

Definition text_prop (name : string) (v : value) : props := if truthy v then [(name, VStr (py_str v))] else [].
Definition ipsec_assets (r : cbom_report) : res (list asset) :=
  let ipsec := or_dict (b_ipsec_pqc r) in
  available ← truthy_at "available" ipsec;
  if negb available then Ok []
  else
    i ← get "implementation" ipsec;
    let impl := py_str (por i (VStr "ipsec")) in
    evidence ← get "evidence" ipsec;
    version ← get "version" ipsec;
    pqc ← truthy_at "pqc" ipsec;
    Ok [protocol_asset ("ipsec/" +:+ impl) ("IPsec (" +:+ impl +:+ ")") "ipsec" "ipsec"
          ([("ipsec:implementation", VStr impl)] ++ text_prop "ipsec:evidence" evidence ++ text_prop "ipsec:version" version ++
           [("ipsec:pqc_advertised", VStr (bool_text pqc))])].

(** [(name, str(d.get(k, 0)))]. *)
Definition count_props (d : value) (fields : list (string * string)) : res props :=
  mapM (fun nk => v ← get_or nk.2 (VInt 0) d; Ok (nk.1, VStr (py_str v))) fields.
Definition CERT_CATEGORIES : list string := ["classical"; "hybrid_composite"; "pure_pqc"].
Definition truncated_props (ts : value) : res props :=
  match ts with
  | VDict d =>
      if dmem "truncated" d then
        counts ← count_props ts [("trust_store:total_found", "total_found"); ("trust_store:scanned_count", "scanned_count")];
        Ok (counts ++ [("trust_store:truncated", VStr (bool_text (truthy (default VNone (dget "truncated" d)))))])
      else Ok []
  | _ => Raise TypeError
  end.
Definition trust_store_assets (r : cbom_report) : res (list asset) :=
  let ts := or_dict (b_trust_store r) in
  available ← truthy_at "available" ts;
  if negb available then Ok []
  else
    totals ← count_props ts [("trust_store:total_certs", "total_certs"); ("trust_store:pqc_certs", "pqc_certs"); ("trust_store:hybrid_certs", "hybrid_certs")];
    cats ← get_d "cert_categories" ts;
    by_cat ← count_props cats ((fun c => ("trust_store:cert_categories:" +:+ c, c)) <$> CERT_CATEGORIES);
    truncated ← truncated_props ts;
    dirs ← get_l "scanned_dirs" ts;
    Ok [Asset "trust-store/summary" (VStr "Trust store certificate inventory") "trust_store" "related-crypto-material"
          EmptyString EmptyString EmptyString EmptyString "other" EmptyString None EmptyString
          (totals ++ by_cat ++ truncated ++ ((fun d => ("trust_store:scanned_dir", d)) <$> dirs))].

Definition canonical_assets (r : cbom_report) : res (list asset) :=
  isa ← isa_assets r;
  accel ← accelerator_assets r;
  tpm ← tpm_assets r;
  openssl ← openssl_assets r;
  ssh ← ssh_assets r;
  ipsec ← ipsec_assets r;
  trust ← trust_store_assets r;
  Ok (isa ++ accel ++ tpm ++ pkcs11_assets r ++ openssl ++ ssh ++ ipsec ++ trust).

(** The classical groups that a profile adds. *)
Definition classical_of (section : value) (library groups prefix category role : string) (role_value : string) : res (list asset) :=
  let v := or_dict section in
  available ← truthy_at "available" v;
  if negb available then Ok []
  else
    src ← source_of library v;
    g ← get_d groups v;
    names ← get_l "classical" g;
    Ok (named_assets prefix category "key-agree" src [(role, VStr role_value)] names).
Definition profile_classical_assets (r : cbom_report) : res (list asset) :=
  tls ← classical_of (b_openssl r) "openssl" "tls_groups" "openssl/tls-classical/" "openssl_tls_classical" "tls:role" "classical-group";
  ssh ← classical_of (b_ssh_pqc r) "openssh" "kex_groups" "ssh/kex/classical/" "ssh_kex_classical" "ssh:role" "classical-kex";
  Ok (tls ++ ssh).
