(* ===== verification/Cbom.v ===== *)
(** * CBOM: components ([render/cbom.py])

    Asset, protocol and certificate components, the profile annotations and
    the facts mirrored for consumers that drop [cryptoProperties]. *)

From S2P Require Import Prelude PyStr PyDict PyVal PyRe HostPath ConfigRead Services SarifRules Packages Sbom CbomAssets.
Open Scope Z_scope.
(** A component; [k_crypto] is absent for libraries and services. *)
Record comp := Comp {
  k_type : string; k_ref : string; k_name : value; k_version : option string; k_purl : option string;
  k_crypto : option (list (string * value)); k_props : props; k_group : option value }.
Definition add_props (ps : props) (c : comp) : comp :=
  Comp (k_type c) (k_ref c) (k_name c) (k_version c) (k_purl c) (k_crypto c) (k_props c ++ ps) (k_group c).

Definition prop_value (p : string * value) : value := VDict [("name", VStr p.1); ("value", p.2)].
Definition optional {A} (key : string) (f : A -> value) (o : option A) : list (string * value) :=
  match o with Some x => [(key, f x)] | None => [] end.
Definition comp_value (c : comp) : value :=
  VDict ([("type", VStr (k_type c)); ("bom-ref", VStr (k_ref c)); ("name", k_name c)] ++
         optional "version" VStr (k_version c) ++ optional "purl" VStr (k_purl c) ++ optional "cryptoProperties" VDict (k_crypto c) ++
         [("properties", VList (prop_value <$> k_props c))] ++ optional "group" id (k_group c)).

Section Render.
(** [_report.SCRIPT_VERSION], [datetime.fromisoformat] (microseconds and
    whether there is an offset) and the current time. *)
Context (script_version : string) (fromisoformat : string -> option (Z * bool)) (now : Z).

Definition provenance : props := [("detectedBy", VStr ("pqc-readiness@" +:+ script_version))].

Definition or_other (s : string) : string := if nonempty s then s else "other".
Definition if_text (key s : string) : list (string * value) := if nonempty s then [(key, VStr s)] else [].

Definition crypto_properties (a : asset) : res (list (string * value)) :=
  if String.eqb (a_type a) "algorithm" then
    Ok [("assetType", VStr "algorithm");
        ("algorithmProperties", VDict ([("primitive", VStr (or_other (a_primitive a)))] ++
           if_text "executionEnvironment" (a_environment a) ++ if_text "implementationPlatform" (a_platform a) ++
           if_text "parameterSetIdentifier" (a_parameter_set a) ++ optional "nistQuantumSecurityLevel" VInt (a_nist a)))]
  else if String.eqb (a_type a) "protocol" then
    Ok [("assetType", VStr "protocol"); ("protocolProperties", VDict [("type", VStr (or_other (a_protocol a)))])]
  else if String.eqb (a_type a) "related-crypto-material" then
    Ok [("assetType", VStr "related-crypto-material"); ("relatedCryptoMaterialProperties", VDict [("type", VStr (or_other (a_material a)))])]
  else Raise (ValueError ("unsupported CryptoAsset.asset_type: " +:+ str_repr (a_type a))).

Definition cbom_component (a : asset) : res comp :=
  crypto ← crypto_properties a;
  Ok (Comp "cryptographic-asset" (a_key a) (a_name a) None None (Some crypto)
        (provenance ++ if_text "source" (a_source a) ++ a_props a) None).

(** [comp["cryptoProperties"]["algorithmProperties"]["algorithmFamily"] = family]. *)
Definition set_family (family : string) (crypto : list (string * value)) : list (string * value) :=
  match dget "algorithmProperties" crypto with
  | Some (VDict d) => dset "algorithmProperties" (VDict (dset "algorithmFamily" (VStr family) d)) crypto
  | _ => crypto
  end.
Definition with_crypto (f : list (string * value) -> list (string * value)) (c : comp) : comp :=
  Comp (k_type c) (k_ref c) (k_name c) (k_version c) (k_purl c) (f <$> k_crypto c) (k_props c) (k_group c).
Definition cbom17_component (a : asset) : res comp :=
  c ← cbom_component a;
  if negb (String.eqb (a_type a) "algorithm") then Ok c
  else
    name ← as_text (a_name a);
    Ok (match cdx17_algorithm_family name with
        | None => c
        | Some (family, true) => with_crypto (set_family family) c
        | Some (family, false) =>
            add_props [("pqc-readiness:algorithmFamily", VStr family);
                       ("pqc-readiness:algorithmFamily:registry", VStr "not-in-cyclonedx-1.7-registry")] c
        end).

(** ** Protocols *)

Definition asset_ref (a : asset) : value := VDict [("type", VStr "algorithm"); ("ref", VStr (a_key a))].
Definition protocol_component (assets : list asset) (p : string * string * string * list string) : option comp :=
  let '(ref, name, ptype, categories) := p in
  match List.filter (fun a => bool_decide (a_category a ∈ categories)) assets with
  | [] => None
  | m :: ms =>
      let members := m :: ms in
      Some (Comp "cryptographic-asset" ref (VStr name) None None
        (Some [("assetType", VStr "protocol");
               ("protocolProperties", VDict ([("type", VStr ptype); ("relatedCryptographicAssets", VList (asset_ref <$> members))] ++
                  (if String.eqb ptype "tls" then [("version", VStr "1.3")] else [])))])
        (provenance ++ if_text "source" (a_source m)) None)
  end.
Definition protocol_components (assets : list asset) : list comp := omap (protocol_component assets) CDX17_PROTOCOLS.

(** ** Certificates *)

Definition parse_stamp (s : string) : option (Z * bool) := fromisoformat (str_replace "Z" "+00:00" s).
Definition certificate_state (not_before not_after : string) : option string :=
  match parse_stamp not_before, parse_stamp not_after with
  | Some (start, true), Some (stop, true) =>
      Some (if now <? start then "pre-activation" else if stop <? now then "deactivated" else "active")
  | _, _ => None
  end.

(** A certificate by fingerprint: its record, where it was found, its paths. *)
Record cert_entry := CertEntry { ce_record : value; ce_sources : list string; ce_paths : list string }.
Definition CERT_SOURCE_TRUST_STORE : string := "trust-store".
Definition CERT_SOURCE_HOST : string := "host-filesystem".

Definition add_path (paths : list string) (path : value) : list string :=
  if existsb (fun s => py_eq path (VStr s)) paths then paths else paths ++ [py_str path].
Definition merge_certificate (source : string) (merged : list (string * cert_entry)) (cert : value) : res (list (string * cert_entry)) :=
  sha ← get "sha256" cert;
  let sha := lower (py_str (por sha (VStr EmptyString))) in
  if negb (String.length sha =? 64)%nat then Ok merged
  else
    let e := default (CertEntry cert [] []) (dget sha merged) in
    paths ← get_l "paths" cert;
    Ok (dset sha (CertEntry (ce_record e) (set_add source (ce_sources e)) (foldl add_path (ce_paths e) paths)) merged).
Definition merge_section (merged : list (string * cert_entry)) (ss : string * value) : res (list (string * cert_entry)) :=
  certs ← get_l "certificates" (or_dict ss.2);
  foldM (merge_certificate ss.1) merged certs.
Definition certificate_entries (r : cbom_report) : res (list (string * cert_entry)) :=
  foldM merge_section [] [(CERT_SOURCE_TRUST_STORE, b_trust_store r); (CERT_SOURCE_HOST, b_crypto_material r)].

Definition CERT_FIELDS : list (string * string) := [
  ("serial", "serialNumber"); ("subject", "subjectName"); ("issuer", "issuerName"); ("not_before", "notValidBefore"); ("not_after", "notValidAfter")].
Definition cert_fields (cert : value) : res (list (string * value)) :=
  ls ← mapM (fun sd => v ← get sd.1 cert; Ok (text_prop sd.2 v)) CERT_FIELDS; Ok (concat ls).
Definition certificate_component (se : string * cert_entry) : res comp :=
  let '(sha, CertEntry cert sources paths) := se in
  fields ← cert_fields cert;
  not_before ← get_or "not_before" (VStr EmptyString) cert;
  not_after ← get_or "not_after" (VStr EmptyString) cert;
  let state := certificate_state (py_str not_before) (py_str not_after) in
  category ← get "category" cert;
  role ← get "role" cert;
  subject ← get "subject" cert;
  let prefix := if bool_decide (CERT_SOURCE_TRUST_STORE ∈ sources) then "trust_store" else "crypto_material" in
  Ok (Comp "cryptographic-asset" ("cert/sha256:" +:+ sha)
        (VStr (py_str (por subject (VStr ("certificate " +:+ str_take 16 sha))))) None None
        (Some [("assetType", VStr "certificate");
               ("certificateProperties", VDict ([("certificateFormat", VStr "X.509");
                  ("fingerprint", VDict [("alg", VStr "SHA-256"); ("content", VStr sha)])] ++ fields ++
                  optional "certificateState" (fun s => VList [VDict [("state", VStr s)]]) state))])
        (provenance ++ text_prop (prefix +:+ ":category") category ++ text_prop "certificate:role" role ++
         ((fun s => ("certificate:source", VStr s)) <$> sources) ++ ((fun p => ("crypto_material:path", VStr p)) <$> paths)) None).
Definition certificate_components (r : cbom_report) : res (list comp) :=
  es ← certificate_entries r; mapM certificate_component es.

(** ** Profile annotations *)

Section Profile.
Context (pf : profile).

Definition pprop (name value : string) : string * PyVal.value := (pf_prefix pf +:+ name, VStr value).
Definition vulnerability_props (function : string) (vulnerable : option bool) : res props :=
  let status := match vulnerable with None => "unknown" | Some b => bool_text b end in
  deadline ← (if bool_decide (vulnerable = Some true) then
                match dget function (pf_deadlines pf) with
                | Some (date, clause) => Ok [pprop "migration_deadline" date; pprop "migration_deadline:source" clause]
                | None => Raise (KeyError function)
                end
              else Ok []);
  Ok ([pprop "function" function; pprop "quantum_vulnerable" status] ++ deadline).

Definition asset_profile_props (a : asset) : res props :=
  if negb (String.eqb (a_type a) "algorithm") then Ok []
  else
    match dget (a_primitive a) (pf_function_by_primitive pf) with
    | None => Ok []
    | Some function =>
        ps ← vulnerability_props function (dget (a_category a) (pf_vulnerable_by_category pf));
        Ok (ps ++ [pprop "in_use_including_fallback" (pf_in_use pf).1; pprop "in_use_basis" (pf_in_use pf).2])
    end.

(** The last asset of a key, as in [{a.key: a for a in assets}]. *)
Definition by_ref (assets : list asset) (ref : string) : option asset :=
  List.find (fun a => String.eqb (a_key a) ref) (reverse assets).

Definition CATEGORY_PROPS : list string := ["trust_store:category"; "crypto_material:category"].
Definition category_prop (ps : props) : option value := snd <$> List.find (fun p => bool_decide (p.1 ∈ CATEGORY_PROPS)) ps.
Definition is_certificate (c : comp) : bool :=
  match k_crypto c with Some d => py_eq (default VNone (dget "assetType" d)) (VStr "certificate") | None => false end.
Definition apply_profile (assets : list asset) (c : comp) : res comp :=
  match by_ref assets (k_ref c) with
  | Some a => ps ← asset_profile_props a; Ok (add_props ps c)
  | None =>
      if is_certificate c then
        let cat := py_str (default VNone (category_prop (k_props c))) in
        ps ← vulnerability_props "digital-signature" (dget cat (pf_vulnerable_by_cert_category pf));
        Ok (add_props ps c)
      else Ok c
  end.

Definition as_int (v : value) : res Z := match v with VInt z => Ok z | VBool b => Ok (if b then 1 else 0) | _ => Raise TypeError end.
Definition tls13_status (r : cbom_report) : res (string * string) :=
  let osinfo := or_dict (b_openssl r) in
  available ← truthy_at "available" osinfo;
  if negb available then Ok ("unknown", "OpenSSL not detected")
  else
    vt ← get "version_tuple" osinfo;
    if negb (truthy vt) then Ok ("unknown", "OpenSSL version not parsed")
    else
      l ← py_iter vt;
      ints ← mapM as_int (take 3 l);
      Ok (if tuple_ge ints [1; 1; 1] then ("capable", "OpenSSL >= 1.1.1 implements TLS 1.3; configuration not verified")
          else ("not-capable", "OpenSSL < 1.1.1 has no TLS 1.3")).

Definition after_colon (s : string) : string := match cut ":" s with Some (_, what) => what | None => EmptyString end.
Definition m23_02_status (r : cbom_report) (source : string) : res string :=
  let kind := before ":" source in
  let what := after_colon source in
  if String.eqb kind "metadata" then
    given ← truthy_at what (or_dict (b_inventory_metadata r)); Ok (if (given : bool) then "provided" else "not-provided")
  else if String.eqb what "assets" then Ok "collected"
  else if String.eqb what "packages" then
    available ← truthy_at "available" (or_dict (b_packages r)); Ok (if (available : bool) then "partial" else "not-collected")
  else if String.eqb what "os" then Ok (if truthy (b_os_release r) || nonempty (b_os r) then "collected" else "not-collected")
  else Ok "unknown".

Definition vulnerable_count (status : string) (comps : list comp) : Z :=
  Z.of_nat (length (List.filter (fun p => String.eqb p.1 (pf_prefix pf +:+ "quantum_vulnerable") && py_eq p.2 (VStr status))
                      (concat (k_props <$> comps)))).
Definition item_props (r : cbom_report) (item : Z * string * string) : res props :=
  let '(number, label, source) := item in
  status ← m23_02_status r source;
  let key := "m23_02:item" +:+ show_Z number in
  Ok [pprop key status; pprop (key +:+ ":label") label].
Definition profile_metadata_props (r : cbom_report) (comps : list comp) : res props :=
  tls ← tls13_status r;
  its ← mapM (item_props r) (pf_items pf);
  Ok ([pprop "profile" (pf_id pf); pprop "profile:status" (pf_status pf)] ++
      ((fun ku => pprop ("source:" +:+ ku.1) ku.2) <$> pf_sources pf) ++
      [pprop "tls13_deadline" (pf_tls13_deadline pf).1; pprop "tls13_deadline:source" (pf_tls13_deadline pf).2;
       pprop "tls13_status" tls.1; pprop "tls13_basis" tls.2;
       pprop "quantum_vulnerable_assets" (show_Z (vulnerable_count "true" comps));
       pprop "quantum_resistant_assets" (show_Z (vulnerable_count "false" comps))] ++ concat its).
End Profile.

(** ** Mirrored facts *)

Definition asset_classification (a : asset) : option string :=
  if contains "hybrid" (a_category a) then Some "hybrid"
  else if contains "classical" (a_category a) then Some "classical"
  else if ends_with "_pqc" (a_category a) || (String.eqb (a_type a) "algorithm" && is_some (a_nist a)) then Some "pure-pqc"
  else None.

(** [value.get(part) if isinstance(value, dict) else None], along a path. *)
Definition walk_path (path : list string) (v : value) : value :=
  foldl (fun v part => match v with VDict d => default VNone (dget part d) | _ => VNone end) v path.
Definition mirrored (crypto : list (string * value)) : props :=
  concat ((fun pn => let v := walk_path pn.1 (VDict crypto) in
             if is_none v || py_eq v (VStr EmptyString) then [] else [(MIRROR_PREFIX +:+ pn.2, VStr (py_str v))]) <$> MIRRORED_FIELDS).
Definition mirrored_state (crypto : list (string * value)) : res props :=
  cp ← get "certificateProperties" (VDict crypto);
  states ← get "certificateState" (or_dict cp);
  if truthy states then
    l ← py_iter states;
    first ← (match l with x :: _ => Ok x | [] => Raise IndexError end);
    state ← getitem "state" first;
    Ok [(MIRROR_PREFIX +:+ "certificateState", VStr (py_str state))]
  else Ok [].
(** The first category property decides; [dict.get] of a text. *)
Definition classification (assets : list asset) (c : comp) (ps : props) : option string :=
  match by_ref assets (k_ref c) ≫= asset_classification with
  | Some s => Some s
  | None => match category_prop ps with Some (VStr cat) => dget cat CERT_CLASSIFICATION | _ => None end
  end.
Definition mirror_component (assets : list asset) (c : comp) : res comp :=
  match k_crypto c with
  | None => Ok c
  | Some crypto =>
      state ← mirrored_state crypto;
      let ps := k_props c ++ mirrored crypto ++ state in
      Ok (add_props (mirrored crypto ++ state ++
           match classification assets c ps with Some s => [(MIRROR_PREFIX +:+ "classification", VStr s)] | None => [] end) c)
  end.

(** The libraries that provide an asset, in the order of [provides]. *)
Definition providers (provides : list (string * list string)) (ref : string) : list string :=
  concat ((fun lr => (fun _ => lr.1) <$> List.filter (String.eqb ref) lr.2) <$> provides).
Definition mirror_provides (provides : list (string * list string)) (c : comp) : comp :=
  add_props ((fun lib => (MIRROR_PREFIX +:+ "providedBy", VStr lib)) <$> providers provides (k_ref c)) c.
End Render.

(** * CBOM: libraries, services and the document ([render/cbom.py])

    The library components and what they provide, the services and what they
    use, their union, [render_cbom] up to JSON printing, and the namespacing
    of property names. *)
(** The namespaced properties of this module. *)
Definition lib_prop (name : string) (v : string) : string * value := ("pqc-readiness:library:" +:+ name, VStr v).
Definition tri (v : value) : string := if is_none v then "unknown" else bool_text (truthy v).

(** ** Library sources *)

Definition OPENSSL_LIBRARY_VERSION : re := RSeqs [RLit "Library:"; RStar true Space; RLit "OpenSSL"; RPlus Space; RGrp 1 (RPlus NonSpace)].
Definition OPENSSL_CLI_VERSION : re := RSeqs [RLit "OpenSSL"; RPlus Space; RGrp 1 (RPlus NonSpace)].
Definition openssl_version_in (rest : string) : option string :=
  match re_search OPENSSL_LIBRARY_VERSION rest with
  | Some m => Some (group_or 1 m)
  | None =>
      match re_search OPENSSL_CLI_VERSION rest with
      | Some m => Some (group_or 1 m)
      | None => if isdigit (str_take 1 rest) then Some rest else None
      end
  end.
Definition library_from_source (source : string) : option (string * string) :=
  '(name, rest) ← cut "@" source;
  if negb (nonempty name) || negb (nonempty rest) || String.eqb rest "unknown" then None
  else if String.eqb name "openssl" then v ← openssl_version_in rest; Some (name, strip v)
  else Some (name, strip rest).

Definition generic_purl (name version : string) : string := "pkg:generic/" +:+ purl_encode name +:+ "@" +:+ purl_encode version.

Section Inventory.
(** The script version, and the index of the SBOM ([Sbom.sbom_purl]). *)
Context (script_version : string) (sbom_purl : list (string * value) -> res (option string)).
Let provenance := provenance script_version.

(** ** The interop libraries *)

Record libs := Libs { l_libs : list (string * comp); l_provides : list (string * list string) }.
Definition library (ref : string) (name : string) (version purl : option string) (ps : props) : comp :=
  Comp "library" ref (VStr name) version purl None (provenance ++ ps) None.

(** [d.setdefault(k, []).append(x)]. *)
Definition push {A} (k : string) (x : A) (d : list (string * list A)) : list (string * list A) :=
  dset k (default [] (dget k d) ++ [x]) d.
Definition probed_library (st : libs) (a : asset) : libs :=
  match (if nonempty (a_source a) then library_from_source (a_source a) else None) with
  | None => st
  | Some (name, version) =>
      let purl := generic_purl name version in
      Libs (dsetdefault purl (library purl name (Some version) (Some purl) [lib_prop "basis" "probed-stack"]) (l_libs st))
           (push purl (a_key a) (l_provides st))
  end.

(** A row of [bundled_crypto] in the shape of a package. *)
Definition package_fields (entry : value) : res (list (string * value)) :=
  name ← get "package" entry;
  version ← get "version" entry;
  more ← mapM (fun k => v ← get k entry; Ok (if is_none v || py_eq v (VStr EmptyString) then [] else [(k, v)])) ["release"; "epoch"; "arch"];
  Ok ([("name", name); ("version", version)] ++ concat more).

Definition bundled_library (st : list (string * comp)) (entry : value) : res (list (string * comp)) :=
  name ← get_or "package" (VStr EmptyString) entry;
  version ← get_or "version" (VStr EmptyString) entry;
  let name := py_str name in
  let version := py_str version in
  if negb (nonempty name) || negb (nonempty version) then Ok st
  else
    fields ← package_fields entry;
    purl ← sbom_purl fields;
    match purl with
    | None => Ok st
    | Some purl =>
        if dmem purl st then Ok st
        else
          note ← get "note" entry;
          release ← get "release" entry;
          Ok (dset purl (library purl name
                (Some (version +:+ (if truthy release then "-" +:+ py_str release else EmptyString))) (Some purl)
                ([lib_prop "basis" "bundled-crypto-package"] ++ text_prop "pqc-readiness:library:note" note)) st)
    end.
Definition library_components (r : cbom_report) (assets : list asset) : res libs :=
  let st := foldl probed_library (Libs [] []) assets in
  entries ← get_l "bundled_crypto" (or_dict (b_packages r));
  all ← foldM bundled_library (l_libs st) entries;
  Ok (Libs all (l_provides st)).

(** ** Assets of the crypto libraries *)

(** The bom-ref segment, category suffix and primitive of an algorithm. *)
Definition algorithm_kind (kind : string) (name : value) : res (string * string * string) :=
  if String.eqb kind "ssh_kex" then
    s ← as_text name;
    Ok (if has_curve s then ("ssh-kex/hybrid", "ssh_kex_hybrid", "key-agree") else ("ssh-kex/pure-pqc", "ssh_kex_pqc", "kem"))
  else Ok (default (kind, kind, "other") (dget kind LIBRARY_ALGORITHM_KINDS)).
Definition with_props (ps : props) (a : asset) : asset :=
  Asset (a_key a) (a_name a) (a_category a) (a_type a) (a_primitive a) (a_environment a) (a_platform a) (a_protocol a) (a_material a)
    (a_parameter_set a) (a_nist a) (a_source a) ps.
Definition library_asset (lib src kind : string) (name : value) : res asset :=
  '(seg, cat, prim) ← algorithm_kind kind name;
  let key := "library/" +:+ lib +:+ "/" +:+ seg +:+ "/" +:+ py_str name in
  let ps := [("library", VStr lib)] in
  if bool_decide (prim ∈ ["kem"; "signature"]) && negb (String.eqb kind "ssh_kex") then
    with_props ps <$> pqc_algorithm_asset key name ("library_" +:+ cat) prim src
  else Ok (algorithm key name ("library_" +:+ cat) prim software EmptyString src ps).
Definition library_kind_assets (lib src : string) (kn : string * value) : res (list asset) :=
  names ← py_iter kn.2; mapM (library_asset lib src kn.1) names.
Definition one_library_assets (li : string * value) : res (list asset) :=
  let '(lib, info) := li in
  installed ← truthy_at "installed" info;
  if negb installed then Ok []
  else
    src ← source_of lib info;
    algorithms ← get_d "algorithms" info;
    kinds ← sorted_items algorithms;
    ls ← mapM (library_kind_assets lib src) kinds;
    Ok (concat ls).
Definition library_crypto_assets (r : cbom_report) : res (list asset) :=
  let cl := or_dict (b_crypto_libraries r) in
  available ← truthy_at "available" cl;
  if negb available then Ok []
  else
    ls ← get_d "libraries" cl;
    sorted ← sorted_items ls;
    all ← mapM one_library_assets sorted;
    Ok (concat all).

(** ** The crypto-library probe *)

Definition version_of (v : value) : res (option string) :=
  x ← get "version" v; let s := py_str (por x (VStr EmptyString)) in Ok (if nonempty s then Some s else None).
(** Components, what they provide, and [(family, version)] to bom-ref. *)
Record probe := Probe { p_comps : list comp; p_provides : list (string * list string); p_index : list (string * string * string) }.

Definition library_base (info : value) : res props :=
  capable ← get "pqc_capable" info;
  evidence ← get "evidence" info;
  caveats ← get_l "caveats" info;
  reference ← get "reference" info;
  Ok ([lib_prop "basis" "crypto-library-probe"; lib_prop "pqc_capable" (tri capable); lib_prop "evidence" (py_str evidence)] ++
      ((fun c => lib_prop "caveat" (py_str c)) <$> caveats) ++ text_prop "pqc-readiness:library:reference" reference).

Definition is_flag (kv : string * value) : bool :=
  negb (bool_decide (kv.1 ∈ ["path"; "version"; "implementor"])) && match kv.2 with VNone | VBool _ => true | _ => false end.
Definition add_index (lib : string) (version : option string) (ref : string) (ix : list (string * string * string)) :=
  match version with Some v => dsetdefault (lib, v) ref ix | None => ix end.
Definition install_component (lib : string) (base : props) (st : probe) (inst : value) : res probe :=
  version ← version_of inst;
  path ← get "path" inst;
  let ref := match version with Some v => generic_purl lib v | None => "crypto-library/" +:+ lib +:+ "/" +:+ purl_encode (py_str path) end in
  flags ← sorted_items inst;
  let ps := base ++ [lib_prop "path" (py_str path)] ++ ((fun kv => lib_prop kv.1 (tri kv.2)) <$> List.filter is_flag flags) in
  Ok (Probe (p_comps st ++ [library ref lib version (match version with Some _ => Some ref | None => None end) ps])
            (p_provides st) (add_index lib version ref (p_index st))).
Definition first_package (info : value) : res value := ps ← get_l "packages" info; Ok (or_dict (default VNone (head ps))).
(** The SBOM's URL of the owning package, else the generic one. *)
Definition library_purl (lib : string) (version : option string) (pkg : value) : res (option string) :=
  purl ← (if truthy pkg then d ← items pkg; sbom_purl d else Ok None);
  Ok (match purl with Some p => Some p | None => generic_purl lib <$> version end).
Definition single_component (by_lib : list (string * list string)) (lib : string) (base : props) (info : value) (st : probe) : res probe :=
  version ← version_of info;
  pkg ← first_package info;
  purl ← library_purl lib version pkg;
  let ref := default ("crypto-library/" +:+ lib) purl in
  files ← get_l "files" info;
  let ps := base ++ ((fun f => lib_prop "file" (py_str f)) <$> files) in
  Ok (Probe (p_comps st ++ [library ref lib version purl ps])
            (match dget lib by_lib with Some ((_ :: _) as keys) => dset ref keys (p_provides st) | _ => p_provides st end)
            (add_index lib version ref (p_index st))).
Definition probe_library (by_lib : list (string * list string)) (st : probe) (li : string * value) : res probe :=
  let '(lib, info) := li in
  installed ← truthy_at "installed" info;
  if negb installed then Ok st
  else
    base ← library_base info;
    installs ← get "installs" info;
    if truthy installs then l ← py_iter installs; foldM (install_component lib base) st l
    else single_component by_lib lib base info st.

(** [dict(a.properties).get("library", "")]. *)
Definition library_name (a : asset) : string := match dget "library" (dupdate [] (a_props a)) with Some (VStr s) => s | _ => EmptyString end.
Definition keys_by_library (lib_assets : list asset) : list (string * list string) :=
  foldl (fun d a => push (library_name a) (a_key a) d) [] lib_assets.
Definition crypto_library_inventory (r : cbom_report) (lib_assets : list asset) : res probe :=
  let cl := or_dict (b_crypto_libraries r) in
  available ← truthy_at "available" cl;
  if negb available then Ok (Probe [] [] [])
  else
    ls ← get_d "libraries" cl;
    sorted ← sorted_items ls;
    foldM (probe_library (keys_by_library lib_assets)) (Probe [] [] []) sorted.

(** ** Services *)

Record served := Served { s_services : list (string * comp); s_extra : list (string * comp); s_uses : list (string * list string) }.

Definition service_name (unit exe process : value) : string :=
  let unit := py_str (por unit (VStr EmptyString)) in
  if ends_with ".service" unit then unit else py_str (por (por exe process) (VStr unit)).
Definition service_component (ref ident : string) (unit exe process static : value) : comp :=
  let unit_text := py_str (por unit (VStr EmptyString)) in
  Comp "application" ref (VStr (if ends_with ".service" unit_text then unit_text else py_str (por process (VStr ident)))) None None None
    (provenance ++ text_prop "service:exe" exe ++ text_prop "service:systemd_unit" unit ++ text_prop "service:process" process ++
     (if is_none static then [] else [("service:static_binary", VStr (tri static))])) None.

(** Family, version and facts of a library that a listener maps. *)
Abbreviation link := (string * option string * props)%type.
Definition some_text (s : string) : option string := if nonempty s then Some s else None.
Definition crypto_link (l : value) : res link :=
  family ← get "family" l;
  version ← get "version" l;
  capable ← get "library_pqc_capable" l;
  Ok (py_str family, some_text (py_str (por version (VStr EmptyString))), [lib_prop "pqc_capable" (tri capable)]).
Definition go_link (go : value) : res (list link) :=
  v ← get "go_version" go;
  if truthy v then
    kex ← get "default_hybrid_kex" go;
    Ok [("go", Some (remove_prefix "go" (py_str v)), [lib_prop "default_hybrid_kex" (py_str kex)])]
  else Ok [].
Definition links_of (lst : value) : res (list link) :=
  ls ← get_l "crypto_libraries" lst;
  known ← mapM crypto_link ls;
  go ← get_d "go" lst;
  g ← go_link go;
  Ok (known ++ g).

(** An empty version (a Go version of just "go") counts as none. *)
Definition link_version (v : option string) : option string := v ≫= some_text.
Definition use_link (index : list (string * string * string)) (ref : string) (st : served) (l : link) : served :=
  let '(family, version, facts) := l in
  let version := link_version version in
  let known := v ← version; dget (family, v) index in
  let lib_ref := default (match version with Some v => generic_purl family v | None => "crypto-library/" +:+ family end) known in
  let extra := match known with
    | Some _ => s_extra st
    | None => dsetdefault lib_ref (library lib_ref family version (match version with Some _ => Some lib_ref | None => None end)
                ([lib_prop "basis" "service-linkage"] ++ facts)) (s_extra st)
    end in
  Served (s_services st) extra (dset ref (set_add lib_ref (default [] (dget ref (s_uses st)))) (s_uses st)).

Definition endpoint_prop (lst : value) : res (string * value) :=
  address ← get "address" lst;
  family ← get "family" lst;
  protocol ← get "protocol" lst;
  port ← get "port" lst;
  let addr := if py_eq family (VStr "ipv6") then "[" +:+ py_str address +:+ "]" else py_str address in
  Ok ("service:endpoint", VStr (py_str protocol +:+ "/" +:+ addr +:+ ":" +:+ py_str port)).
Definition serve (index : list (string * string * string)) (st : served) (lst : value) : res served :=
  pid ← get "pid" lst;
  exe ← get "exe" lst;
  if is_none pid && negb (truthy exe) then Ok st
  else
    unit ← get "systemd_unit" lst;
    process ← get "process" lst;
    static ← get "static_binary" lst;
    let ident := service_name unit exe process in
    let ref := "service/" +:+ ident in
    endpoint ← endpoint_prop lst;
    links ← links_of lst;
    let seen := dget ref (s_services st) in
    let c := default (service_component ref ident unit exe process static) seen in
    let uses := match seen with Some _ => s_uses st | None => dset ref [] (s_uses st) end in
    Ok (foldl (use_link index ref) (Served (dset ref (add_props [endpoint] c) (s_services st)) (s_extra st) uses) links).
Definition service_inventory (r : cbom_report) (index : list (string * string * string)) : res served :=
  let sv := or_dict (b_service_crypto_linkage r) in
  available ← truthy_at "available" sv;
  if negb available then Ok (Served [] [] [])
  else
    ls ← get_l "listeners" sv;
    foldM (serve index) (Served [] [] []) ls.

(** ** Their union *)

Definition same_prop (p q : string * value) : bool := String.eqb p.1 q.1 && py_eq p.2 q.2.
Definition merge_component (st : list (string * comp)) (c : comp) : list (string * comp) :=
  match dget (k_ref c) st with
  | None => dset (k_ref c) c st
  | Some cur => dset (k_ref c) (add_props (List.filter (fun p => negb (existsb (same_prop p) (k_props cur))) (k_props c)) cur) st
  end.
Definition merge_provides (merged : list (string * list string)) (rk : string * list string) : list (string * list string) :=
  let bucket := default [] (dget rk.1 merged) in
  dset rk.1 (bucket ++ List.filter (fun k => negb (bool_decide (k ∈ bucket))) rk.2) merged.

Record merged := Merged {
  m_libraries : list comp; m_provides : list (string * list string); m_services : list comp; m_uses : list (string * list string) }.
Definition merge_inventory (r : cbom_report) (lib_assets : list asset) (libraries : list comp) (provides : list (string * list string)) : res merged :=
  p ← crypto_library_inventory r lib_assets;
  sv ← service_inventory r (p_index p);
  let start := dupdate [] ((fun c => (k_ref c, c)) <$> libraries) in
  let all := foldl merge_component (foldl merge_component start (p_comps p)) (snd <$> s_extra sv) in
  Ok (Merged (snd <$> all) (foldl merge_provides provides (p_provides p)) (snd <$> s_services sv) (s_uses sv)).
End Inventory.
