(* ===== verification/CbomRender.v ===== *)
(** * CBOM: the document ([render_cbom] of [render/cbom.py])

    The components, dependencies and metadata of a CBOM in every version,
    profile and interop mode, as the value that is printed; and the
    namespacing of property names. *)

From S2P Require Import Prelude PyStr PyDict PyVal HostPath Services SarifRules Packages Sbom CbomAssets Cbom.
Open Scope Z_scope.
(** ** Namespacing *)

Definition namespaced_name (name : string) : string :=
  if existsb (fun p => starts_with p name) NAMESPACED_PREFIXES then name else PROPERTY_NAMESPACE +:+ ":" +:+ name.
Definition namespace_prop (p : value) : value :=
  match p with
  | VDict d => match dget "name" d with Some (VStr name) => VDict (dset "name" (VStr (namespaced_name name)) d) | _ => p end
  | _ => p
  end.
Fixpoint namespace (node : value) : value :=
  match node with
  | VDict d =>
      VDict ((fix go d := match d with
                          | [] => []
                          | (k, v) :: d =>
                              (k, if String.eqb k "properties"
                                  then match v with VList l => VList (namespace_prop <$> l) | _ => namespace v end
                                  else namespace v) :: go d
                          end) d)
  | VList l => VList ((fix go l := match l with [] => [] | x :: l => namespace x :: go l end) l)
  | _ => node
  end.

Section Document.
Context (script_version : string) (fromisoformat : string -> option (Z * bool)) (now : Z) (now_text uuid : string).
Context (sbom_purl : list (string * value) -> res (option string)).

(** ** The operator's facts *)

Definition given (d : value) (keys : list (string * string)) (show : value -> value) : res props :=
  match d with
  | VDict d => Ok (omap (fun kn => match dget kn.1 d with Some v => Some (kn.2, show v) | None => None end) keys)
  | _ => Raise TypeError
  end.
Definition shown (v : value) : value := VStr (py_str v).
Definition inventory_host_props (meta : value) : res props :=
  if negb (truthy meta) then Ok []
  else
    ids ← given meta [("fisma_system_id", "inventory:fisma_system_id"); ("fips199_categorization", "inventory:fips199_categorization");
                      ("hva_id", "inventory:hva_id")] shown;
    hosting ← get_d "hosting" meta;
    host ← given hosting [("model", "inventory:hosting:model"); ("provider", "inventory:hosting:provider")] id;
    life ← get_d "data_lifecycle" meta;
    cats ← get_l "records_categories" life;
    ttl ← given life [("time_to_live_years", "inventory:data_lifecycle:time_to_live_years")] shown;
    notes ← given meta [("notes", "inventory:notes")] id;
    Ok (ids ++ host ++ ((fun c => ("inventory:data_lifecycle:records_category", c)) <$> cats) ++ ttl ++ notes).

Definition scan_props (scan_mode : value) : res props :=
  if truthy scan_mode then
    mode ← get "mode" scan_mode; root ← get "root" scan_mode;
    Ok [("scan:mode", VStr (py_str mode)); ("scan:root", VStr (py_str root))]
  else Ok [].
Definition host_ref (r : cbom_report) : string := "host/" +:+ or_text (b_hostname r) "unknown".
Definition host_component (r : cbom_report) : res value :=
  meta ← inventory_host_props (b_inventory_metadata r);
  scan ← scan_props (b_scan_mode r);
  let ps := text_prop "host:os" (VStr (b_os r)) ++ text_prop "host:arch" (VStr (b_arch r)) ++ text_prop "host:cpu_model" (VStr (b_cpu_model r)) ++ meta ++ scan in
  Ok (VDict ([("type", VStr (if truthy (b_scan_mode r) then "operating-system" else "device")); ("bom-ref", VStr (host_ref r));
              ("name", VStr (or_text (b_hostname r) "unknown-host"))] ++
             (if ps is [] then [] else [("properties", VList (prop_value <$> ps))]))).

(** ** The parts *)

(** The assets of the scanned stacks, and of a profile. *)
Definition stack_assets (r : cbom_report) (prof : option profile) : res (list asset) :=
  assets ← canonical_assets r;
  more ← (if prof is Some _ then profile_classical_assets r else Ok []);
  Ok (assets ++ more).
Definition group_of (a : asset) : value := default VNone (dget "library" (dupdate [] (a_props a))).
Definition with_group (g : value) (c : comp) : comp :=
  Comp (k_type c) (k_ref c) (k_name c) (k_version c) (k_purl c) (k_crypto c) (k_props c) (Some g).
Definition library_asset_component (a : asset) : res comp := c ← cbom17_component script_version a; Ok (with_group (group_of a) c).

Definition crypto_components (r : cbom_report) (spec : string) (assets lib_assets : list asset) : res (list comp) :=
  if String.eqb spec "1.6" then mapM (cbom_component script_version) assets
  else
    cs ← mapM (cbom17_component script_version) assets;
    certs ← certificate_components script_version fromisoformat now r;
    ls ← mapM library_asset_component lib_assets;
    Ok (cs ++ protocol_components script_version assets ++ certs ++ ls).

Definition parts (r : cbom_report) (spec interop : string) (assets lib_assets : list asset) : res merged :=
  li ← (if negb (String.eqb interop INTEROP_NONE) then library_components script_version sbom_purl r assets else Ok (Libs [] []));
  let libraries := snd <$> l_libs li in
  if String.eqb spec "1.7" then merge_inventory script_version sbom_purl r lib_assets libraries (l_provides li)
  else Ok (Merged libraries (l_provides li) [] []).

(** Components and what is provided, in an interop mode. *)
Definition shape (interop : string) (assets : list asset) (comps : list comp) (m : merged) : res (list comp * list (string * list string)) :=
  let bought := m_libraries m ++ m_services m in
  if String.eqb interop INTEROP_DEPENDENCY_TRACK then
    cs ← mapM (mirror_component assets) comps;
    Ok ((mirror_provides (m_provides m) <$> cs) ++ bought, m_provides m)
  else if String.eqb interop INTEROP_SBOM_ONLY then Ok (bought, [])
  else Ok (comps ++ bought, m_provides m).

Definition dependency (provides : list (string * list string)) (lib : comp) : value :=
  VDict ([("ref", VStr (k_ref lib))] ++ match dget (k_ref lib) provides with Some ((_ :: _) as l) => [("provides", VStrs l)] | _ => [] end).
Definition dependencies (r : cbom_report) (m : merged) (provides : list (string * list string)) : list value :=
  [VDict [("ref", VStr (host_ref r)); ("dependsOn", VStrs (k_ref <$> (m_libraries m ++ m_services m)))]] ++
  ((fun s => VDict [("ref", VStr (k_ref s)); ("dependsOn", VStrs (default [] (dget (k_ref s) (m_uses m))))]) <$> m_services m) ++
  (dependency provides <$> m_libraries m).

(** Everything the document is made of. *)
Record content := Content { ct_components : list comp; ct_parts : merged; ct_provides : list (string * list string) }.
Definition cbom_content (r : cbom_report) (spec : string) (prof : option profile) (interop : string) : res content :=
  assets ← stack_assets r prof;
  lib_assets ← (if String.eqb spec "1.7" then library_crypto_assets r else Ok []);
  comps ← crypto_components r spec assets lib_assets;
  comps ← match prof with Some pf => mapM (apply_profile pf (assets ++ lib_assets)) comps | None => Ok comps end;
  m ← parts r spec interop assets lib_assets;
  '(comps, provides) ← shape interop (assets ++ lib_assets) comps m;
  Ok (Content comps m provides).

Definition has_dependencies (interop : string) (m : merged) : bool :=
  negb (String.eqb interop INTEROP_NONE) || negb (if m_libraries m is [] then true else false) || negb (if m_services m is [] then true else false).
Definition cbom_document (r : cbom_report) (spec : string) (prof : option profile) (interop : string) : res value :=
  ct ← cbom_content r spec prof interop;
  host ← host_component r;
  metadata ← match prof with Some pf => ps ← profile_metadata_props pf r (ct_components ct); Ok [("properties", VList (prop_value <$> ps))] | None => Ok [] end;
  Ok (VDict ([
    ("$schema", VStr ("http://cyclonedx.org/schema/bom-" +:+ spec +:+ ".schema.json")); ("bomFormat", VStr "CycloneDX"); ("specVersion", VStr spec);
    ("serialNumber", VStr ("urn:uuid:" +:+ uuid)); ("version", VInt 1);
    ("metadata", VDict ([("timestamp", VStr (or_text (b_generated_at r) now_text));
       ("tools", VDict [("components", VList [VDict [("type", VStr "application"); ("bom-ref", VStr ("tool/pqc-readiness@" +:+ script_version));
                           ("name", VStr "pqc-readiness"); ("version", VStr script_version)]])]);
       ("component", host)] ++ metadata));
    ("components", VList (comp_value <$> ct_components ct))] ++
    (if has_dependencies interop (ct_parts ct) then [("dependencies", VList (dependencies r (ct_parts ct) (ct_provides ct)))] else []))).

Definition render_cbom (r : cbom_report) (spec prof interop : string) (namespaced : bool) : res value :=
  if negb (bool_decide (interop ∈ INTEROP_MODES)) then Raise (ValueError ("unsupported CBOM interop mode " +:+ str_repr interop))
  else if negb (bool_decide (spec ∈ CBOM_VERSIONS)) then Raise (ValueError ("unsupported CycloneDX version " +:+ str_repr spec))
  else
    match dget prof PROFILES with
    | None => Raise (ValueError ("unsupported CBOM profile " +:+ str_repr prof))
    | Some pf => bom ← cbom_document r spec pf interop; Ok (if namespaced then namespace bom else bom)
    end.
End Document.

(** * CBOM: theorems

    Every component has its own bom-ref and every reference resolves, in all
    versions, profiles and interop modes; namespacing reaches every property
    and changes nothing else. *)
(** ** Namespacing *)

(** Induction on values through lists and dictionaries. *)
Section ValueInd.
Context (P : value -> Prop).
Hypothesis (Hatom : forall v, is_list v = false -> is_dict v = false -> P v).
Hypothesis (Hlist : forall l, Forall P l -> P (VList l)).
Hypothesis (Hdict : forall d, Forall (fun kv => P kv.2) d -> P (VDict d)).

Fixpoint value_nested (v : value) : P v :=
  match v with
  | VList l => Hlist l ((fix go l : Forall P l := match l with [] => Forall_nil_2 _ | x :: l => Forall_cons_2 _ _ _ (value_nested x) (go l) end) l)
  | VDict d => Hdict d ((fix go d : Forall (fun kv => P kv.2) d :=
      match d with [] => Forall_nil_2 _ | (k, x) :: d => Forall_cons_2 _ (k, x) _ (value_nested x) (go d) end) d)
  | v => Hatom v eq_refl eq_refl
  end.
End ValueInd.

(** A function applied to every property: the elements of the lists under a
    key [properties], wherever it is. *)
Fixpoint map_props (f : value -> value) (node : value) : value :=
  match node with
  | VDict d =>
      VDict ((fix go d := match d with
                          | [] => []
                          | (k, v) :: d =>
                              (k, if String.eqb k "properties"
                                  then match v with VList l => VList (f <$> l) | _ => map_props f v end
                                  else map_props f v) :: go d
                          end) d)
  | VList l => VList ((fix go l := match l with [] => [] | x :: l => map_props f x :: go l end) l)
  | _ => node
  end.
(** All of them satisfy a test. *)
Fixpoint all_props (t : value -> bool) (node : value) : bool :=
  match node with
  | VDict d =>
      (fix go d := match d with
                   | [] => true
                   | (k, v) :: d =>
                       (if String.eqb k "properties"
                        then match v with VList l => forallb t l | _ => all_props t v end
                        else all_props t v) && go d
                   end) d
  | VList l => (fix go l := match l with [] => true | x :: l => all_props t x && go l end) l
  | _ => true
  end.

Lemma namespace_map_props v : namespace v = map_props namespace_prop v.
Proof.
  induction v as [v Hl Hd|l IH|d IH] using value_nested.
  - by destruct v.
  - cbn. f_equal. induction IH as [|x l Hx Hl IH]; [done|]. by rewrite Hx, IH.
  - cbn. f_equal. induction IH as [|[k x] d Hx Hd IH]; [done|]. rewrite IH. f_equal. f_equal.
    cbn [snd] in Hx. destruct (String.eqb k "properties"); [|done]. destruct x; try done.
Qed.

Lemma map_props_compose f g v : map_props f (map_props g v) = map_props (fun p => f (g p)) v.
Proof.
  induction v as [v Hl Hd|l IH|d IH] using value_nested.
  - by destruct v.
  - cbn. f_equal. induction IH as [|x l Hx Hl IH]; [done|]. by rewrite Hx, IH.
  - cbn. f_equal. induction IH as [|[k x] d Hx Hd IH]; [done|]. rewrite IH. f_equal. f_equal.
    cbn [snd] in Hx. destruct (String.eqb k "properties"); [|done].
    destruct x; try done. by rewrite <-list_fmap_compose.
Qed.

Lemma map_props_ext f g v : (forall p, f p = g p) -> map_props f v = map_props g v.
Proof.
  intros H. induction v as [v Hl Hd|l IH|d IH] using value_nested.
  - by destruct v.
  - cbn. f_equal. induction IH as [|x l Hx Hl IH]; [done|]. by rewrite Hx, IH.
  - cbn. f_equal. induction IH as [|[k x] d Hx Hd IH]; [done|]. rewrite IH. f_equal. f_equal.
    cbn [snd] in Hx. destruct (String.eqb k "properties"); [|done].
    destruct x; try done. f_equal. by apply list_fmap_ext.
Qed.

Lemma map_props_all t f v : (forall p, t (f p) = true) -> all_props t (map_props f v) = true.
Proof.
  intros H. induction v as [v Hl Hd|l IH|d IH] using value_nested.
  - by destruct v.
  - cbn. induction IH as [|x l Hx Hl IH]; [done|]. by rewrite Hx, IH.
  - cbn. induction IH as [|[k x] d Hx Hd IH]; [done|]. rewrite IH, andb_true_r. cbn [snd] in Hx.
    destruct (String.eqb k "properties"); [|done]. destruct x; try done.
    clear Hx IH. induction l as [|y l IHl]; [done|]. csimpl. by rewrite H, IHl.
Qed.

Definition in_namespace (name : string) : bool := existsb (fun p => starts_with p name) NAMESPACED_PREFIXES.
Definition prop_named (p : value) : bool :=
  match p with VDict d => match dget "name" d with Some (VStr name) => in_namespace name | _ => true end | _ => true end.
(** A property without its name. *)
Definition anonymous (p : value) : value :=
  match p with VDict d => match dget "name" d with Some (VStr _) => VDict (dset "name" VNone d) | _ => p end | _ => p end.

Lemma namespaced_name_in name : in_namespace (namespaced_name name) = true.
Proof.
  unfold namespaced_name. fold (in_namespace name). destruct (in_namespace name) eqn:E; [done|].
  unfold in_namespace, NAMESPACED_PREFIXES. cbn [existsb]. apply orb_true_iff. left. by destruct name.
Qed.

Lemma dset_dset {A} k (v w : A) (d : list (string * A)) : dset k v (dset k w d) = dset k v d.
Proof.
  induction d as [|[k' x] d IH]; cbn; [by rewrite decide_True|].
  destruct (decide (k = k')) as [->|]; cbn; [by rewrite decide_True | by rewrite decide_False, IH].
Qed.

Lemma namespace_prop_named p : prop_named (namespace_prop p) = true.
Proof.
  destruct p as [| | | | | |d]; try done. unfold namespace_prop. destruct (dget "name" d) as [[]|] eqn:E; unfold prop_named; rewrite ?E; try done.
  rewrite dget_dset_eq. apply namespaced_name_in.
Qed.
Lemma namespace_prop_id p : prop_named p = true -> namespace_prop p = p.
Proof.
  destruct p as [| | | | | |d]; try done. unfold prop_named, namespace_prop. destruct (dget "name" d) as [[| | | |name| |]|] eqn:E; try done.
  intros Hn. unfold namespaced_name. fold (in_namespace name). rewrite Hn. f_equal. clear Hn.
  induction d as [|[k x] d IH]; cbn in E |- *; [done|]. destruct (decide ("name" = k)); [by simplify_eq | by rewrite IH].
Qed.
Lemma anonymous_namespace p : anonymous (namespace_prop p) = anonymous p.
Proof.
  destruct p as [| | | | | |d]; try done. unfold namespace_prop. destruct (dget "name" d) as [[]|] eqn:E; try done.
  unfold anonymous. by rewrite dget_dset_eq, E, dset_dset.
Qed.

(** [--cbom-namespaced-properties] reaches every property of the
    document, however deep, is idempotent, and changes nothing but names of
    properties that are not in a namespace yet. *)
Theorem namespace_spec bom :
  all_props prop_named (namespace bom) = true /\
  namespace (namespace bom) = namespace bom /\
  map_props anonymous (namespace bom) = map_props anonymous bom /\
  (forall p, prop_named p = true -> namespace_prop p = p).
Proof.
  rewrite !namespace_map_props, !map_props_compose. split_and!.
  - apply map_props_all, namespace_prop_named.
  - apply map_props_ext. intros p. apply namespace_prop_id, namespace_prop_named.
  - apply map_props_ext, anonymous_namespace.
  - apply namespace_prop_id.
Qed.
