(* ===== verification/CbomRefs.v ===== *)
(** * CBOM: references

    The bom-refs of a document are distinct, and every reference names a
    component of the document. *)

From stdpp Require Import pretty sets.
From S2P Require Import Prelude PyStr PyDict PyVal PyRe HostPath Services SarifRules Packages OsinfoTheory Sbom SbomTheory CbomAssets Cbom CbomRender.
Open Scope Z_scope.

(** ** Lists in groups *)

Lemma mapM_ok {A B} (f : A -> res B) l k : mapM f l = Ok k -> Forall2 (fun x y => f x = Ok y) l k.
Proof.
  revert k; induction l as [|x l IH]; intros k; [intros [= <-]; constructor|].
  intros (y & ys & -> & Hy & Hl)%mapM_cons_ok. constructor; auto.
Qed.
Lemma mapM_key {A B C} (f : A -> res B) (g : B -> C) (h : A -> C) l k :
  mapM f l = Ok k -> (forall x y, f x = Ok y -> g y = h x) -> g <$> k = h <$> l.
Proof. intros Hm%mapM_ok Hf. induction Hm as [|x y l k Hx Hl IH]; csimpl; [done|]. by rewrite (Hf _ _ Hx), IH. Qed.

(** Elements of one group have its tag and are distinct. *)
Definition tagged_by {A B} (tag : A -> B) (c : B) (l : list A) : Prop := NoDup l /\ Forall (fun x => tag x = c) l.

Lemma tagged_nil {A B} (tag : A -> B) c : tagged_by tag c [].
Proof. split; constructor. Qed.

(** Groups with different tags together are distinct. *)
Lemma NoDup_groups {A B} (tag : A -> B) (gs : list (B * list A)) :
  NoDup gs.*1 -> Forall (fun g => tagged_by tag g.1 g.2) gs -> NoDup (concat gs.*2).
Proof.
  induction gs as [|[c l] gs IH]; csimpl; [constructor|]. intros [Hc Hn]%NoDup_cons Hg.
  inversion Hg as [|? ? [Hl Ht] Hgs]; subst. cbn [fst snd] in *. apply NoDup_app. split_and!; [done| |by apply IH].
  intros x Hx Hin.
  apply Hc. rewrite Forall_forall in Ht. specialize (Ht x Hx).
  apply list_elem_of_In, in_concat in Hin as (l' & Hl' & Hin'). apply list_elem_of_In in Hl', Hin'.
  apply list_elem_of_fmap in Hl' as ([c' l''] & -> & Hg'). rewrite Forall_forall in Hgs. destruct (Hgs _ Hg') as [_ Ht'].
  cbn [fst snd] in *. rewrite Forall_forall in Ht'. rewrite <-Ht, (Ht' x Hin'). apply list_elem_of_fmap. by exists (c', l'').
Qed.

(** ** Kinds of reference *)

Definition REF_CLASSES : list (string * string) := [
  ("isa/", "isa"); ("accel/", "accelerator"); ("tpm/pqc", "tpm"); ("pkcs11/", "pkcs11"); ("openssl/kem/", "kem"); ("openssl/sig/", "signature");
  ("openssl/tls-hybrid/", "tls hybrid"); ("openssl/tls-pure-pqc/", "tls pure"); ("ssh/kex/hybrid/", "ssh hybrid"); ("ssh/kex/pure-pqc/", "ssh pure");
  ("ipsec/", "ipsec"); ("trust-store/", "trust store"); ("openssl/tls-classical/", "tls classical"); ("ssh/kex/classical/", "ssh classical");
  ("protocol/", "protocol"); ("cert/sha256:", "certificate"); ("library/", "library asset"); ("pkg:", "library"); ("crypto-library/", "library");
  ("service/", "service"); ("host/", "host")].
Definition ref_class (s : string) : string :=
  match List.find (fun p => prefix_chars (chars p.1) (chars s)) REF_CLASSES with Some (_, c) => c | None => EmptyString end.

Lemma class_examples s :
  ref_class ("isa/" +:+ s) = "isa" /\ ref_class ("openssl/kem/" +:+ s) = "kem" /\ ref_class ("openssl/sig/" +:+ s) = "signature" /\
  ref_class ("ssh/kex/classical/" +:+ s) = "ssh classical" /\ ref_class ("pkg:generic/" +:+ s) = "library".
Proof. repeat split. Qed.

Lemma tagged_map p c (l : list string) :
  (forall s, ref_class (p +:+ s) = c) -> NoDup l -> tagged_by ref_class c ((fun s => p +:+ s) <$> l).
Proof.
  intros Hp Hl. split.
  - apply NoDup_fmap_2; [|done]. intros x y. apply str_app_inj.
  - apply Forall_fmap, Forall_true. intros s. apply Hp.
Qed.

Lemma pretty_N_digits x s c : c ∈ chars (pretty_N_go x s) -> c ∈ chars s \/ is_digit c = true.
Proof.
  revert s. induction (N.lt_wf_0 x) as [x _ IH]; intros s.
  assert (x = 0 \/ 0 < x)%N as [->|Hx] by lia; [by left|].
  rewrite pretty_N_go_step by done. intros [H|H]%IH; [|by right|by apply N.div_lt].
  apply elem_of_cons in H as [->|H]; [right|by left]. unfold pretty_N_char. by repeat case_match.
Qed.
Lemma show_nat_digits n c : c ∈ chars (show_nat n) -> is_digit c = true.
Proof.
  unfold show_nat, pretty, pretty_nat, pretty, pretty_N. case_decide; [by intros ->%list_elem_of_singleton|].
  intros [Hc|Hc]%pretty_N_digits; [by apply not_elem_of_nil in Hc | done].
Qed.
Lemma show_nat_no_slash n : "/"%char ∉ chars (show_nat n).
Proof. by intros H%show_nat_digits. Qed.

(** ** What a report names once *)

(** The texts of a list of names. *)
Definition once (l : list value) : Prop := NoDup (py_str <$> l).
Definition list_once (k : string) (v : value) : Prop := forall l, get_l k v = Ok l -> once l.
Definition groups_once (groups : string) (v : value) : Prop :=
  forall g, get_d groups v = Ok g -> Forall (fun k => list_once k g) ["hybrid"; "pure_pqc"; "classical"].

(** The kinds of algorithm that the library probe reports. *)
Definition LIBRARY_KINDS : list string := ["kem"; "signatures"; "tls_hybrid_groups"; "ssh_kex"].
Definition library_once (li : string * value) : Prop :=
  "/"%char ∉ chars li.1 /\
  forall kinds, (a ← get_d "algorithms" li.2; items a) = Ok kinds ->
    dwf kinds /\ Forall (fun kn => kn.1 ∈ LIBRARY_KINDS /\ forall l, py_iter kn.2 = Ok l -> once l) kinds.

Record named_once (r : cbom_report) : Prop := {
  no_isa : forall d, b_isa_features r = VDict d -> dwf d;
  no_kem : list_once "kem_algorithms" (or_dict (b_openssl r));
  no_sig : list_once "sig_algorithms" (or_dict (b_openssl r));
  no_tls : groups_once "tls_groups" (or_dict (b_openssl r));
  no_ssh : groups_once "kex_groups" (or_dict (b_ssh_pqc r));
  no_libs : forall libs, (a ← get_d "libraries" (or_dict (b_crypto_libraries r)); items a) = Ok libs ->
    dwf libs /\ Forall library_once libs }.

(** ** The stacks *)

Abbreviation keys l := (a_key <$> (l : list asset)).

Lemma named_keys prefix category primitive source ps names :
  keys (named_assets prefix category primitive source ps names) = (fun s => prefix +:+ s) <$> (py_str <$> names).
Proof. unfold named_assets. by rewrite <-!list_fmap_compose. Qed.

Lemma pqc_keys prefix category primitive source names l :
  mapM (fun n => pqc_algorithm_asset (prefix +:+ py_str n) n category primitive source) names = Ok l ->
  keys l = (fun s => prefix +:+ s) <$> (py_str <$> names).
Proof.
  intros H. rewrite <-list_fmap_compose. apply (mapM_key _ _ _ _ _ H). intros n a Ha. unfold pqc_algorithm_asset in Ha.
  bind Ha as t Ht. injection Ha as <-. done.
Qed.

Lemma sorted_items_ok v d : sorted_items v = Ok d -> exists e, v = VDict e /\ d ≡ₚ e.
Proof.
  unfold sorted_items. intros H. bind H as e He. injection H as <-. destruct v; try done. injection He as <-.
  exists d. split; [done | apply py_sorted_perm].
Qed.

Lemma isa_keys r l : named_once r -> isa_assets r = Ok l -> tagged_by ref_class "isa" (keys l).
Proof.
  intros Hr H. unfold isa_assets in H. bind H as fs Hfs. apply sorted_items_ok in Hfs as (d & Hd & Hp).
  rewrite (mapM_key _ a_key (fun kv => "isa/" +:+ kv.1) _ _ H).
  - assert ((fun kv : string * value => "isa/" +:+ kv.1) <$> fs = (fun s => "isa/" +:+ s) <$> fs.*1) as ->
      by by rewrite <-list_fmap_compose.
    apply tagged_map; [done|]. rewrite Hp. by apply (no_isa _ Hr).
  - intros [flag info] a Ha. unfold isa_asset in Ha. bind Ha as n Hn. bind Ha as p Hpp. injection Ha as <-. done.
Qed.

Lemma accelerator_keys r l : accelerator_assets r = Ok l -> tagged_by ref_class "accelerator" (keys l).
Proof.
  unfold accelerator_assets. intros H%mapM_ok. generalize dependent l.
  assert (forall acc n l, Forall2 (fun x y => accelerator_asset (cbom_platform (b_arch r)) x = Ok y) (imap (fun i => pair (n + i)%nat) acc) l ->
    Forall (fun s => exists m k, (n <= m)%nat /\ s = "accel/" +:+ show_nat m +:+ String "/" k) (keys l) /\ NoDup (keys l)) as Hgen.
  { intros acc. induction acc as [|a acc IH]; intros n l H; inversion H as [|? y ? l' Hy Hl]; subst; [by repeat constructor|].
    csimpl. assert (exists k, a_key y = "accel/" +:+ show_nat n +:+ String "/" k) as [k Hk].
    { unfold accelerator_asset in Hy. rewrite Nat.add_0_r in Hy. bind Hy as kind Hkind. bind Hy as nm Hnm. bind Hy as dt Hdt. bind Hy as cp Hcp.
      injection Hy as <-. by exists (py_str kind). }
    destruct (IH (S n) l') as [Hf Hn].
    { erewrite imap_ext; [exact Hl|]. intros i x _. cbn. f_equal. lia. }
    split.
    - constructor; [by exists n, k|]. eapply Forall_impl; [exact Hf|]. intros s (m & k' & Hm & ->). exists m, k'. split; [lia|done].
    - apply NoDup_cons. split; [|done]. intros Hin. rewrite Forall_forall in Hf. destruct (Hf _ Hin) as (m & k' & Hm & E).
      rewrite Hk in E. apply str_app_inj in E. apply sep_str_inj in E as [E _]; [|apply show_nat_no_slash..].
      apply (inj pretty) in E. lia. }
  intros l H. destruct (Hgen (b_accelerators r) 0%nat l) as [Hf Hn]; [exact H|]. split; [done|].
  eapply Forall_impl; [exact Hf|]. intros s (m & k & _ & ->). done.
Qed.

Lemma tagged_one {A B} (tag : A -> B) c x : tag x = c -> tagged_by tag c [x].
Proof. intros <-. split; [apply NoDup_singleton | by repeat constructor]. Qed.

Lemma tpm_keys r l : tpm_assets r = Ok l -> tagged_by ref_class "tpm" (keys l).
Proof.
  unfold tpm_assets. cbv zeta. intros H. bind H as p Hp. destruct (negb p); [injection H as <-; apply tagged_nil|].
  bind H as a Ha. bind H as n Hn. injection H as <-. by apply tagged_one.
Qed.

Lemma pkcs11_keys r : tagged_by ref_class "pkcs11" (keys (pkcs11_assets r)).
Proof.
  unfold pkcs11_assets. rewrite <-list_fmap_compose.
  assert (a_key ∘ pkcs11_asset <$> imap pair (b_pkcs11_modules r) = (fun s => "pkcs11/" +:+ s) <$> (show_nat <$> seq 0 (length (b_pkcs11_modules r)))) as ->.
  { rewrite <-list_fmap_compose, fmap_imap. unfold compose. cbn.
    generalize (b_pkcs11_modules r) as l. intros l.
    assert (forall n, imap (fun i (_ : string) => "pkcs11/" +:+ show_nat (n + i)) l = (fun x => "pkcs11/" +:+ show_nat x) <$> seq n (length l)) as Hl.
    { induction l as [|x l IH]; intros n; [done|]. csimpl. rewrite Nat.add_0_r. f_equal. rewrite <-IH. apply imap_ext. intros i y _. cbn. by replace (n + S i)%nat with (S (n + i)) by lia. }
    apply (Hl 0%nat). }
  apply tagged_map; [done|]. apply NoDup_fmap_2; [apply pretty_nat_inj|]. apply NoDup_seq.
Qed.

(** [keys l] splits into groups with these tags. *)
Definition grouped (cs : list string) (l : list asset) : Prop :=
  exists ls, keys l = concat ls /\ Forall2 (tagged_by ref_class) cs ls.
Lemma grouped_one c l : tagged_by ref_class c (keys l) -> grouped [c] l.
Proof. intros H. exists [keys l]. cbn. rewrite app_nil_r. split; [done|]. constructor; [exact H | constructor]. Qed.
Lemma grouped_app cs1 cs2 l1 l2 : grouped cs1 l1 -> grouped cs2 l2 -> grouped (cs1 ++ cs2) (l1 ++ l2).
Proof.
  intros (k1 & H1 & F1) (k2 & H2 & F2). exists (k1 ++ k2). rewrite fmap_app, H1, H2, concat_app. split; [done|]. by apply Forall2_app.
Qed.
Lemma grouped_nil cs : grouped cs [].
Proof. exists ((fun _ => []) <$> cs). split; [by induction cs|]. apply Forall2_fmap_r. induction cs; constructor; [apply tagged_nil | done]. Qed.
Lemma grouped_classes cs l : NoDup cs -> grouped cs l -> NoDup (keys l) /\ Forall (fun s => ref_class s ∈ cs) (keys l).
Proof.
  intros Hc (ls & -> & H). split.
  - assert (ls = (zip cs ls).*2) as -> by (symmetry; apply snd_zip; by rewrite (Forall2_length _ _ _ H)).
    apply (NoDup_groups ref_class); [rewrite fst_zip; [done|by rewrite (Forall2_length _ _ _ H)]|].
    clear Hc. induction H; cbn; by constructor.
  - clear Hc. induction H as [|c l' cs ls [_ Ht] _ IH]; cbn; [constructor|]. apply Forall_app. split.
    + eapply Forall_impl; [exact Ht|]. intros s <-. left.
    + eapply Forall_impl; [exact IH|]. intros s Hs. by right.
Qed.

Lemma once_named prefix c category primitive source ps names :
  (forall s, ref_class (prefix +:+ s) = c) -> once names ->
  grouped [c] (named_assets prefix category primitive source ps names).
Proof. intros Hp Hn. apply grouped_one. rewrite named_keys. by apply tagged_map. Qed.
Lemma once_pqc prefix c category primitive source names l :
  (forall s, ref_class (prefix +:+ s) = c) -> once names ->
  mapM (fun n => pqc_algorithm_asset (prefix +:+ py_str n) n category primitive source) names = Ok l -> grouped [c] l.
Proof. intros Hp Hn Hm. apply grouped_one. rewrite (pqc_keys _ _ _ _ _ _ Hm). by apply tagged_map. Qed.

Definition OPENSSL_CLASSES : list string := ["kem"; "signature"; "tls hybrid"; "tls pure"].
Lemma openssl_groups r l : named_once r -> openssl_assets r = Ok l -> grouped OPENSSL_CLASSES l.
Proof.
  intros Hr H. unfold openssl_assets in H. cbv zeta in H. bind H as av Hav. destruct (negb av); [injection H as <-; apply grouped_nil|].
  bind H as src Hsrc. bind H as kems Hk. bind H as ks Hks. bind H as sigs Hs. bind H as ss Hss. bind H as g Hg. bind H as hy Hh. bind H as pu Hp.
  injection H as <-. pose proof (no_tls _ Hr g Hg) as Hgr. inversion Hgr as [|? ? Hgh Hgr']; subst. inversion Hgr' as [|? ? Hgp _]; subst.
  apply (grouped_app ["kem"]); [|apply (grouped_app ["signature"]); [|apply (grouped_app ["tls hybrid"])]].
  - by apply (once_pqc "openssl/kem/" _ _ _ _ _ _ (fun s => eq_refl) (no_kem _ Hr _ Hk) Hks).
  - by apply (once_pqc "openssl/sig/" _ _ _ _ _ _ (fun s => eq_refl) (no_sig _ Hr _ Hs) Hss).
  - apply once_named; [done | by apply Hgh].
  - apply once_named; [done | by apply Hgp].
Qed.
Lemma ssh_groups r l : named_once r -> ssh_assets r = Ok l -> grouped ["ssh hybrid"; "ssh pure"] l.
Proof.
  intros Hr H. unfold ssh_assets in H. cbv zeta in H. bind H as av Hav. destruct (negb av); [injection H as <-; apply grouped_nil|].
  bind H as src Hsrc. bind H as g Hg. bind H as hy Hh. bind H as pu Hp.
  injection H as <-. pose proof (no_ssh _ Hr g Hg) as Hgr. inversion Hgr as [|? ? Hgh Hgr']; subst. inversion Hgr' as [|? ? Hgp _]; subst.
  apply (grouped_app ["ssh hybrid"]); apply once_named; try done; [by apply Hgh | by apply Hgp].
Qed.
Lemma ipsec_keys r l : ipsec_assets r = Ok l -> grouped ["ipsec"] l.
Proof.
  unfold ipsec_assets. cbv zeta. intros H. bind H as p Hp. destruct (negb p); [injection H as <-; apply grouped_nil|].
  bind H as i Hi. bind H as e He. bind H as v Hv. bind H as q Hq. injection H as <-. apply grouped_one. by apply tagged_one.
Qed.
Lemma trust_keys r l : trust_store_assets r = Ok l -> grouped ["trust store"] l.
Proof.
  unfold trust_store_assets. cbv zeta. intros H. bind H as p Hp. destruct (negb p); [injection H as <-; apply grouped_nil|].
  bind H as a Ha. bind H as b Hb. bind H as c Hc. bind H as d Hd. bind H as e He. injection H as <-. apply grouped_one. by apply tagged_one.
Qed.
Lemma classical_groups groups section library prefix category role rv c l :
  groups_once groups (or_dict section) -> (forall s, ref_class (prefix +:+ s) = c) ->
  classical_of section library groups prefix category role rv = Ok l -> grouped [c] l.
Proof.
  intros Ho Hp H. unfold classical_of in H. cbv zeta in H. bind H as av Hav. destruct (negb av); [injection H as <-; apply grouped_nil|].
  bind H as src Hsrc. bind H as g Hg. bind H as names Hn. injection H as <-. specialize (Ho g Hg).
  apply once_named; [done|]. rewrite Forall_forall in Ho. apply (Ho "classical"); [|done]. right; right; left.
Qed.

Definition STACK_CLASSES : list string :=
  ["isa"; "accelerator"; "tpm"; "pkcs11"] ++ OPENSSL_CLASSES ++ ["ssh hybrid"; "ssh pure"; "ipsec"; "trust store"; "tls classical"; "ssh classical"].
Lemma stack_groups r prof l : named_once r -> stack_assets r prof = Ok l -> grouped STACK_CLASSES l.
Proof.
  intros Hr H. unfold stack_assets in H. bind H as assets Ha. bind H as more Hm. injection H as <-.
  unfold canonical_assets in Ha. bind Ha as isa Hisa. bind Ha as accel Hacc. bind Ha as tpm Htpm. bind Ha as ossl Hossl.
  bind Ha as ssh Hssh. bind Ha as ips Hips. bind Ha as tr Htr. injection Ha as <-. rewrite <-!app_assoc. unfold STACK_CLASSES.
  apply (grouped_app ["isa"]); [by apply grouped_one, (isa_keys r)|].
  apply (grouped_app ["accelerator"]); [by apply grouped_one, (accelerator_keys r)|].
  apply (grouped_app ["tpm"]); [by apply grouped_one, (tpm_keys r)|].
  apply (grouped_app ["pkcs11"]); [apply grouped_one, pkcs11_keys|].
  apply (grouped_app OPENSSL_CLASSES); [by apply (openssl_groups r)|].
  apply (grouped_app ["ssh hybrid"; "ssh pure"]); [by apply (ssh_groups r)|].
  apply (grouped_app ["ipsec"]); [by apply (ipsec_keys r)|].
  apply (grouped_app ["trust store"]); [by apply (trust_keys r)|].
  destruct prof as [pf|]; [|injection Hm as <-; apply grouped_nil]. unfold profile_classical_assets in Hm. bind Hm as t Ht. bind Hm as s Hs.
  injection Hm as <-. apply (grouped_app ["tls classical"]).
  - apply (classical_groups "tls_groups" (b_openssl r) "openssl" "openssl/tls-classical/" "openssl_tls_classical" "tls:role" "classical-group");
      [apply (no_tls _ Hr)|done|exact Ht].
  - apply (classical_groups "kex_groups" (b_ssh_pqc r) "openssh" "ssh/kex/classical/" "ssh_kex_classical" "ssh:role" "classical-kex");
      [apply (no_ssh _ Hr)|done|exact Hs].
Qed.

(** ** The crypto libraries *)

Definition segment (kind s : string) : string :=
  if String.eqb kind "ssh_kex" then (if has_curve s then "ssh-kex/hybrid" else "ssh-kex/pure-pqc")
  else (default (kind, kind, "other") (dget kind LIBRARY_ALGORITHM_KINDS)).1.1.
(** The key of an algorithm: library, kind and name. *)
Definition library_key (t : string * (string * string)) : string :=
  "library/" +:+ t.1 +:+ String "/" (segment t.2.1 t.2.2 +:+ String "/" t.2.2).

Lemma segment_inj k s k' s' : k ∈ LIBRARY_KINDS -> k' ∈ LIBRARY_KINDS ->
  segment k s +:+ String "/" s = segment k' s' +:+ String "/" s' -> k = k' /\ s = s'.
Proof.
  intros Hk Hk' E. unfold LIBRARY_KINDS in *.
  repeat (apply elem_of_cons in Hk as [->|Hk]; [|]); try by apply not_elem_of_nil in Hk.
  all: repeat (apply elem_of_cons in Hk' as [->|Hk']; [|]); try by apply not_elem_of_nil in Hk'.
  all: unfold segment in E; cbn [String.eqb Ascii.eqb Bool.eqb] in E; cbn -[has_curve] in E.
  all: repeat match type of E with context [has_curve ?x] => destruct (has_curve x) end; cbn in E; simplify_eq; done.
Qed.

Lemma library_asset_key lib src kind name a :
  library_asset lib src kind name = Ok a -> a_key a = library_key (lib, (kind, py_str name)).
Proof.
  unfold library_asset. intros H. bind H as t Ht. destruct t as [[seg cat] prim]. cbv zeta in H.
  assert (seg = segment kind (py_str name)) as ->.
  { unfold algorithm_kind in Ht. unfold segment. destruct (String.eqb kind "ssh_kex").
    - bind Ht as s Hs. destruct name; try done. injection Hs as <-. cbn [py_str]. destruct (has_curve s0); by injection Ht as <- <- <-.
    - apply (f_equal (fun o => match o with Ok x => x.1.1 | Raise _ => EmptyString end)) in Ht. exact (eq_sym Ht). }
  destruct (_ && _).
  - destruct (pqc_algorithm_asset _ _ _ _ _) as [b|] eqn:Eb; [|done]. cbn in H. injection H as <-.
    unfold pqc_algorithm_asset in Eb. bind Eb as s Hs. injection Eb as <-. done.
  - by injection H as <-.
Qed.

Lemma library_kind_keys lib src kn l :
  library_kind_assets lib src kn = Ok l ->
  exists names, py_iter kn.2 = Ok names /\ keys l = (fun s => library_key (lib, (kn.1, s))) <$> (py_str <$> names).
Proof.
  unfold library_kind_assets. intros H. bind H as names Hn. exists names. split; [done|].
  rewrite <-list_fmap_compose. apply (mapM_key _ _ _ _ _ H). intros n a. apply library_asset_key.
Qed.

Lemma library_kinds_keys lib src kinds ls :
  dwf kinds -> Forall (fun kn => kn.1 ∈ LIBRARY_KINDS /\ forall l, py_iter kn.2 = Ok l -> once l) kinds ->
  Forall2 (fun kn l => library_kind_assets lib src kn = Ok l) kinds ls ->
  exists ps, keys (concat ls) = (fun p => library_key (lib, p)) <$> ps /\ NoDup ps /\ Forall (fun p => p.1 ∈ kinds.*1 /\ p.1 ∈ LIBRARY_KINDS) ps.
Proof.
  intros Hwf Hall Hls. induction Hls as [|kn l kinds ls Hl _ IH]; [exists []; by repeat constructor|].
  unfold dwf in Hwf. csimpl in Hwf. apply NoDup_cons in Hwf as [Hn Hwf]. inversion Hall as [|? ? [Hkind Hon] Hall']; subst.
  destruct (IH Hwf Hall') as (ps & Hps & Hnd & Hf). apply library_kind_keys in Hl as (names & Hnames & Hkeys).
  exists (((fun s => (kn.1, s)) <$> (py_str <$> names)) ++ ps). cbn [concat]. rewrite !fmap_app, Hkeys, Hps, <-!list_fmap_compose.
  split_and!; [done| |].
  - apply NoDup_app. split_and!; [|intros x|done].
    + rewrite list_fmap_compose. apply (NoDup_fmap_2 (fun s => (kn.1, s))). by apply Hon.
    + intros (s & -> & _)%list_elem_of_fmap Hin. apply Hn. rewrite Forall_forall in Hf. by destruct (Hf _ Hin).
  - apply Forall_app. split.
    + apply Forall_fmap, Forall_true. intros s. cbn. split; [left | done].
    + eapply Forall_impl; [exact Hf|]. intros p [Hp Hk]. split; [by right | done].
Qed.

Lemma one_library_keys li l :
  library_once li -> one_library_assets li = Ok l ->
  exists ps, keys l = (fun p => library_key (li.1, p)) <$> ps /\ NoDup ps /\ Forall (fun p => p.1 ∈ LIBRARY_KINDS) ps.
Proof.
  destruct li as [lib info]. intros [_ Hk] H. unfold one_library_assets in H. cbn [snd fst] in *.
  bind H as ins Hins. destruct (negb ins); [injection H as <-; exists []; by repeat constructor|].
  bind H as src Hsrc. bind H as algs Halgs. bind H as kinds Hkinds. bind H as ls Hls. injection H as <-.
  apply sorted_items_ok in Hkinds as (d & -> & Hp).
  destruct (Hk d) as [Hwf Hall]; [by rewrite Halgs|]. unfold dwf in Hwf. rewrite <-Hp in Hwf, Hall.
  apply mapM_ok in Hls. destruct (library_kinds_keys lib src kinds ls Hwf Hall Hls) as (ps & Hps & Hnd & Hf).
  exists ps. split_and!; [done|done|]. eapply Forall_impl; [exact Hf|]. by intros p [_ ?].
Qed.

(** Keys of all libraries. *)
Definition key_ok (t : string * (string * string)) : Prop := "/"%char ∉ chars t.1 /\ t.2.1 ∈ LIBRARY_KINDS.
Lemma library_key_inj t t' : key_ok t -> key_ok t' -> library_key t = library_key t' -> t = t'.
Proof.
  destruct t as [lib [k s]], t' as [lib' [k' s']]. intros [Hl Hk] [Hl' Hk'] E. unfold library_key in E. cbn [fst snd] in *.
  apply str_app_inj in E. apply sep_str_inj in E as [-> E]; [|done..]. apply segment_inj in E as [-> ->]; done.
Qed.

Lemma libraries_keys libs ls :
  dwf libs -> Forall library_once libs -> Forall2 (fun li l => one_library_assets li = Ok l) libs ls ->
  exists ts, keys (concat ls) = library_key <$> ts /\ NoDup ts /\ Forall (fun t => t.1 ∈ libs.*1 /\ key_ok t) ts.
Proof.
  intros Hwf Hall Hls. induction Hls as [|li l libs ls Hl _ IH]; [exists []; by repeat constructor|].
  unfold dwf in Hwf. csimpl in Hwf. apply NoDup_cons in Hwf as [Hn Hwf]. inversion Hall as [|? ? Hon Hall']; subst.
  destruct (IH Hwf Hall') as (ts & Hts & Hnd & Hf). pose proof Hon as [Hslash _].
  apply (one_library_keys _ _ Hon) in Hl as (ps & Hps & Hnp & Hkinds).
  exists (((fun p => (li.1, p)) <$> ps) ++ ts). cbn [concat]. rewrite !fmap_app, Hps, Hts, <-!list_fmap_compose. split_and!; [done| |].
  - apply NoDup_app. split_and!; [|intros x|done].
    + apply (NoDup_fmap_2 (fun p => (li.1, p))). done.
    + intros (p & -> & _)%list_elem_of_fmap Hin. apply Hn. rewrite Forall_forall in Hf. by destruct (Hf _ Hin).
  - apply Forall_app. split.
    + apply Forall_fmap. eapply Forall_impl; [exact Hkinds|]. intros p Hp. cbn. split; [left | by split].
    + eapply Forall_impl; [exact Hf|]. intros t [Ht Hk]. split; [by right | done].
Qed.

Lemma library_groups r l : named_once r -> library_crypto_assets r = Ok l -> grouped ["library asset"] l.
Proof.
  intros Hr H. unfold library_crypto_assets in H. cbv zeta in H. bind H as av Hav. destruct (negb av); [injection H as <-; apply grouped_nil|].
  bind H as ls Hls. bind H as sorted Hsorted. bind H as all Hall. injection H as <-.
  apply sorted_items_ok in Hsorted as (d & -> & Hp). destruct (no_libs _ Hr d) as [Hwf Hon]; [by rewrite Hls|].
  unfold dwf in Hwf. rewrite <-Hp in Hwf, Hon. apply mapM_ok in Hall.
  destruct (libraries_keys _ _ Hwf Hon Hall) as (ts & Hts & Hnd & Hf). apply grouped_one. rewrite Hts. split.
  - apply NoDup_fmap_2_strong; [|done]. intros x y Hx Hy. rewrite Forall_forall in Hf. apply library_key_inj; by apply Hf.
  - apply Forall_fmap, Forall_true. intros t. done.
Qed.

(** ** Components keep the references of their assets *)

Abbreviation refs l := (k_ref <$> (l : list comp)).
(** The assets a protocol component points at. *)
Definition ref_text (x : value) : option string := match walk_path ["ref"] x with VStr s => Some s | _ => None end.
Definition related (c : comp) : list string :=
  match k_crypto c with
  | Some d => match walk_path ["protocolProperties"; "relatedCryptographicAssets"] (VDict d) with
              | VList l => omap ref_text l
              | _ => []
              end
  | None => []
  end.

Section Components.
Context (sv : string) (fromisoformat : string -> option (Z * bool)) (now : Z).

Lemma component_ref a c : cbom_component sv a = Ok c -> k_ref c = a_key a /\ related c = [].
Proof.
  unfold cbom_component. intros H. bind H as d Hd. injection H as <-. split; [done|]. unfold crypto_properties in Hd.
  repeat (destruct (String.eqb (a_type a) _); [by injection Hd as <-|]). done.
Qed.
Lemma component17_ref a c : cbom17_component sv a = Ok c -> k_ref c = a_key a /\ related c = [].
Proof.
  unfold cbom17_component. intros H. bind H as b Hb. pose proof (component_ref _ _ Hb) as [Hr Hl].
  destruct (negb (String.eqb (a_type a) "algorithm")) eqn:Et; [by injection H as <-|].
  bind H as n Hn. injection H as <-. destruct (cdx17_algorithm_family n) as [[f []]|]; [|by split..].
  split; [done|]. unfold cbom_component in Hb. bind Hb as d Hd. injection Hb as <-. unfold crypto_properties in Hd.
  apply negb_false_iff in Et. rewrite Et in Hd. by injection Hd as <-.
Qed.
Lemma library_component_ref a c : library_asset_component sv a = Ok c -> k_ref c = a_key a /\ related c = [].
Proof. unfold library_asset_component. intros H. bind H as b Hb. injection H as <-. apply (component17_ref _ _ Hb). Qed.

Lemma mapM_refs (f : asset -> res comp) l cs :
  (forall a c, f a = Ok c -> k_ref c = a_key a /\ related c = []) -> mapM f l = Ok cs ->
  refs cs = keys l /\ Forall (fun c => related c = []) cs.
Proof.
  intros Hf Hm. split; [by apply (mapM_key _ _ _ _ _ Hm); intros a c Hc; apply Hf|].
  apply mapM_ok in Hm. induction Hm as [|a c l cs Hc _ IH]; constructor; [by apply (Hf a) | done].
Qed.

Lemma protocol_refs assets :
  tagged_by ref_class "protocol" (refs (protocol_components sv assets)) /\
  Forall (fun c => Forall (fun s => s ∈ keys assets) (related c)) (protocol_components sv assets).
Proof.
  assert (forall p c, protocol_component sv assets p = Some c -> k_ref c = p.1.1.1 /\ Forall (fun s => s ∈ keys assets) (related c)) as Hp.
  { intros [[[ref name] ptype] cats] c. unfold protocol_component. destruct (List.filter _ assets) as [|m ms] eqn:E; [done|].
    intros [= <-]. split; [done|]. apply Forall_forall. intros s Hs. 
    change (s ∈ omap ref_text (asset_ref <$> (m :: ms))) in Hs.
    assert (forall l, omap ref_text (asset_ref <$> l) = keys l) as Hrel.
    { intros l. induction l as [|a l IH]; [done|]. csimpl. rewrite <-IH. done. }
    rewrite Hrel in Hs. rename Hs into Hin.
    rewrite <-E in Hin. apply list_elem_of_fmap in Hin as (a & -> & Ha). apply list_elem_of_fmap. exists a. split; [done|].
    apply list_elem_of_In, filter_In in Ha as [Ha _]. by apply list_elem_of_In. }
  unfold protocol_components, CDX17_PROTOCOLS. cbn [omap list_omap].
  destruct (protocol_component sv assets (_, _, "tls", _)) as [c|] eqn:Ec; destruct (protocol_component sv assets (_, _, "ssh", _)) as [d|] eqn:Ed.
  - apply Hp in Ec as [Ec Rc], Ed as [Ed Rd]. cbn [fst] in *. split; [|by repeat constructor]. csimpl. rewrite Ec, Ed.
    split; [|by repeat constructor]. apply NoDup_cons. split; [by intros ?%list_elem_of_singleton | apply NoDup_singleton].
  - apply Hp in Ec as [Ec Rc]. split; [|by repeat constructor]. csimpl. apply tagged_one. by rewrite Ec.
  - apply Hp in Ed as [Ed Rd]. split; [|by repeat constructor]. csimpl. apply tagged_one. by rewrite Ed.
  - split; [apply tagged_nil | constructor].
Qed.

(** ** Certificates *)

Lemma foldM_keeps {A B} (P : B -> Prop) (f : B -> A -> res B) l acc out :
  P acc -> (forall b x c, P b -> f b x = Ok c -> P c) -> foldM f acc l = Ok out -> P out.
Proof. intros HP Hf H. eapply foldM_inv; [exact HP| |exact H]. intros b x c _. apply Hf. Qed.

Lemma certificate_refs r cs :
  certificate_components sv fromisoformat now r = Ok cs ->
  tagged_by ref_class "certificate" (refs cs) /\ Forall (fun c => related c = []) cs.
Proof.
  unfold certificate_components. intros H. bind H as es Hes.
  assert (dwf es) as Hwf.
  { unfold certificate_entries in Hes. eapply (foldM_keeps dwf _ _ _ _ (dwf_nil)); [|exact Hes].
    intros m [src sec] out Hm Hout. unfold merge_section in Hout. bind Hout as certs Hc.
    eapply (foldM_keeps dwf _ _ _ _ Hm); [|exact Hout]. intros b x c Hb Hx. unfold merge_certificate in Hx. bind Hx as sha Hsha.
    cbv zeta in Hx. destruct (negb _); [by injection Hx as <-|]. bind Hx as ps Hps. injection Hx as <-. by apply dset_wf. }
  assert (forall se c, certificate_component sv fromisoformat now se = Ok c -> k_ref c = "cert/sha256:" +:+ se.1 /\ related c = []) as Hc.
  { intros [sha [cert srcs paths]] c. unfold certificate_component. intros Hc. bind Hc as f Hf. bind Hc as nb Hnb. bind Hc as na Hna.
    bind Hc as cat Hcat. bind Hc as role Hrole. bind Hc as sub Hsub. injection Hc as <-. by split. }
  split.
  - rewrite (mapM_key _ k_ref (fun se => "cert/sha256:" +:+ se.1) _ _ H) by (intros se c Hse; by apply Hc).
    assert ((fun se : string * cert_entry => "cert/sha256:" +:+ se.1) <$> es = (fun s => "cert/sha256:" +:+ s) <$> es.*1) as ->
      by by rewrite <-list_fmap_compose.
    by apply tagged_map.
  - apply mapM_ok in H. clear Hes Hwf. induction H as [|se c es cs Hse _ IH]; constructor; [by destruct (Hc _ _ Hse) | done].
Qed.
End Components.

(** ** Libraries and services *)

Lemma dset_each {A} (P : string * A -> Prop) k v d : P (k, v) -> Forall P d -> Forall P (dset k v d).
Proof.
  intros Hv. induction 1 as [|[k' v'] d Hx Hd IH]; cbn [dset]; [by repeat constructor|].
  case_decide; [subst k'|]; by constructor.
Qed.
Lemma dget_Forall {A} (P : string * A -> Prop) k v d : Forall P d -> dget k d = Some v -> P (k, v).
Proof. intros Hf Hg%dget_elem_of. rewrite Forall_forall in Hf. by apply Hf. Qed.

(** Components by reference, of one class. *)
Definition comps_ok (class : string) (d : list (string * comp)) : Prop :=
  dwf d /\ Forall (fun kc => k_ref kc.2 = kc.1 /\ ref_class kc.1 = class /\ related kc.2 = []) d.
Definition refs_in (allowed : list string) (d : list (string * list string)) : Prop :=
  Forall (fun kl => Forall (fun s => s ∈ allowed) kl.2) d.

Lemma comps_ok_nil class : comps_ok class [].
Proof. split; constructor. Qed.
Lemma comps_ok_dset class c d : ref_class (k_ref c) = class -> related c = [] -> comps_ok class d -> comps_ok class (dset (k_ref c) c d).
Proof. intros Hc Hr [Hw Hf]. split; [by apply dset_wf | by apply dset_each]. Qed.
Lemma comps_ok_dsetdefault class c d : ref_class (k_ref c) = class -> related c = [] -> comps_ok class d -> comps_ok class (dsetdefault (k_ref c) c d).
Proof.
  intros Hc Hr Hd. unfold dsetdefault. destruct (dmem (k_ref c) d) eqn:E; [done|].
  rewrite <-dset_fresh; [by apply comps_ok_dset|]. intros Hin. apply dmem_iff in Hin. congruence.
Qed.
Lemma comps_ok_refs class d : comps_ok class d -> refs (snd <$> d) = d.*1 /\ tagged_by ref_class class (refs (snd <$> d)) /\ Forall (fun c => related c = []) (snd <$> d).
Proof.
  intros [Hw Hf].
  assert (refs (snd <$> d) = d.*1) as E.
  { clear Hw. induction Hf as [|kc d (Hr & _ & _) _ IH]; csimpl; [done|]. by rewrite Hr, IH. }
  rewrite E. split_and!; [done| |].
  - split; [exact Hw|]. apply Forall_fmap. eapply Forall_impl; [exact Hf|]. by intros kc (? & ? & ?).
  - apply Forall_fmap. eapply Forall_impl; [exact Hf|]. by intros kc (? & ? & ?).
Qed.
Lemma refs_in_push allowed k x d : x ∈ allowed -> refs_in allowed d -> refs_in allowed (push k x d).
Proof.
  intros Hx Hd. unfold push. apply dset_each; [|done]. cbn [snd]. apply Forall_app. split; [|by repeat constructor].
  destruct (dget k d) as [l|] eqn:E; [|constructor]. by apply (dget_Forall _ _ _ _ Hd) in E.
Qed.
Lemma refs_in_weaken l k d : l ⊆ k -> refs_in l d -> refs_in k d.
Proof. intros Hs Hd. eapply Forall_impl; [exact Hd|]. intros x Hx. eapply Forall_impl; [exact Hx|]. intros s. apply Hs. Qed.

Section Libraries.
Context (sv : string) (sbom_purl : list (string * value) -> res (option string)).
Hypothesis (Hpurl : forall fs u, sbom_purl fs = Ok (Some u) -> ref_class u = "library").

Lemma library_related ref name version purl ps : related (library sv ref name version purl ps) = [].
Proof. done. Qed.
Lemma generic_class name version : ref_class (generic_purl name version) = "library".
Proof. done. Qed.
Lemma named_class lib : ref_class ("crypto-library/" +:+ lib) = "library".
Proof. done. Qed.
#[local] Hint Resolve generic_class named_class library_related comps_ok_nil : pqc.

Lemma probed_libs_ok assets st l :
  comps_ok "library" (l_libs st) -> refs_in (keys assets) (l_provides st) -> keys l ⊆ keys assets ->
  let out := foldl (probed_library sv) st l in comps_ok "library" (l_libs out) /\ refs_in (keys assets) (l_provides out).
Proof.
  revert st; induction l as [|a l IH]; intros st Hl Hp Hs; [done|]. cbn [foldl]. csimpl in Hs.
  apply IH; [| |intros x Hx; apply Hs; by right]; unfold probed_library; destruct (if nonempty _ then _ else _) as [[name version]|]; try done; cbn.
  - by apply (comps_ok_dsetdefault "library" (library sv _ _ _ _ _)).
  - apply refs_in_push; [|done]. apply Hs. left.
Qed.

Lemma library_components_ok r assets li :
  library_components sv sbom_purl r assets = Ok li -> comps_ok "library" (l_libs li) /\ refs_in (keys assets) (l_provides li).
Proof.
  unfold library_components. cbv zeta. intros H. bind H as es Hes. bind H as all Hall. injection H as <-. cbn [l_libs l_provides].
  destruct (probed_libs_ok assets (Libs [] []) assets) as [Hl Hp]; [apply comps_ok_nil|constructor|done|].
  split; [|done]. eapply (foldM_keeps (comps_ok "library")); [exact Hl| |exact Hall].
  intros st e out Hst H. unfold bundled_library in H. bind H as n Hn. bind H as v Hv. cbv zeta in H.
  destruct (_ || _); [by injection H as <-|]. bind H as fs Hfs. bind H as u Hu. destruct u as [u|]; [|by injection H as <-].
  destruct (dmem u st); [by injection H as <-|]. bind H as no Hno. bind H as rel Hrel. injection H as <-.
  apply (comps_ok_dset "library" (library sv u _ _ _ _)); [by apply (Hpurl fs) | done | done].
Qed.

(** The probe of the crypto libraries. *)
Record probe_ok (allowed : list string) (p : probe) : Prop := {
  po_comps : Forall (fun c => ref_class (k_ref c) = "library" /\ related c = []) (p_comps p);
  po_provides : refs_in allowed (p_provides p);
  po_index : Forall (fun e => e.2 ∈ refs (p_comps p)) (p_index p) }.

Lemma add_index_in lib version ref ix comps c :
  k_ref c = ref -> Forall (fun e : string * string * string => e.2 ∈ refs comps) ix ->
  Forall (fun e => e.2 ∈ refs (comps ++ [c])) (add_index lib version ref ix).
Proof.
  intros Hc Hix. assert (Forall (fun e : string * string * string => e.2 ∈ refs (comps ++ [c])) ix) as Hix'.
  { eapply Forall_impl; [exact Hix|]. intros e He. rewrite fmap_app. apply elem_of_app. by left. }
  unfold add_index. destruct version as [v|]; [|done]. unfold dsetdefault. destruct (dmem _ ix); [done|].
  apply Forall_app. split; [done|]. repeat constructor. cbn. rewrite fmap_app. apply elem_of_app. right. csimpl. rewrite Hc. left.
Qed.
Lemma probe_add allowed p c lib version :
  probe_ok allowed p -> ref_class (k_ref c) = "library" -> related c = [] ->
  probe_ok allowed (Probe (p_comps p ++ [c]) (p_provides p) (add_index lib version (k_ref c) (p_index p))).
Proof.
  intros [Hc Hp Hi] Hcl Hr. constructor; cbn; [|done|by apply add_index_in]. apply Forall_app. split; [done|]. by repeat constructor.
Qed.

Lemma install_ok allowed lib base p inst out :
  probe_ok allowed p -> install_component sv lib base p inst = Ok out -> probe_ok allowed out.
Proof.
  intros Hp H. unfold install_component in H. bind H as v Hv. bind H as pa Hpa. cbv zeta in H. bind H as fl Hfl. injection H as <-.
  apply (probe_add allowed p (library sv _ _ _ _ _)); [done| |done]. cbn. by destruct v.
Qed.
Lemma single_ok allowed by_lib lib base info p out :
  probe_ok allowed p -> refs_in allowed by_lib -> single_component sv sbom_purl by_lib lib base info p = Ok out -> probe_ok allowed out.
Proof.
  intros Hp Hb H. unfold single_component in H. bind H as v Hv. bind H as pkg Hpkg. bind H as purl Hu. cbv zeta in H. bind H as fs Hfs.
  injection H as <-. set (c := library sv _ lib v purl _).
  assert (ref_class (k_ref c) = "library") as Hc.
  { cbn. unfold library_purl in Hu. bind Hu as q Hq. injection Hu as <-. destruct q as [u|]; [cbn|by destruct v].
    destruct (truthy pkg); [|done]. bind Hq as d Hd. by apply (Hpurl d). }
  destruct (probe_add allowed p c lib v Hp Hc (library_related _ _ _ _ _)) as [H1 H2 H3]. constructor; cbn [p_comps p_provides p_index] in *; [done| |done].
  destruct (dget lib by_lib) as [[|k ks]|] eqn:E; [done| |done]. apply dset_each; [|done]. cbn. by apply (dget_Forall _ _ _ _ Hb) in E.
Qed.
Lemma probe_library_ok allowed by_lib p li out :
  refs_in allowed by_lib -> probe_ok allowed p -> probe_library sv sbom_purl by_lib p li = Ok out -> probe_ok allowed out.
Proof.
  intros Hb Hp H. destruct li as [lib info]. unfold probe_library in H. bind H as i Hi. destruct (negb i); [by injection H as <-|].
  bind H as base Hbase. bind H as inst Hinst. destruct (truthy inst); [|by eapply single_ok].
  bind H as l Hl. eapply (foldM_keeps (probe_ok allowed)); [exact Hp| |exact H]. intros b x c Hb'. by apply install_ok.
Qed.

Lemma keys_by_library_in lib_assets : refs_in (keys lib_assets) (keys_by_library lib_assets).
Proof.
  unfold keys_by_library. assert (forall l d, keys l ⊆ keys lib_assets -> refs_in (keys lib_assets) d ->
    refs_in (keys lib_assets) (foldl (fun d a => push (library_name a) (a_key a) d) d l)) as H.
  { intros l. induction l as [|a l IH]; intros d Hl Hd; cbn [foldl]; [done|]. csimpl in Hl. apply IH; [intros x Hx; apply Hl; by right|].
    apply refs_in_push; [|done]. apply Hl. left. }
  apply H; [done | constructor].
Qed.
Lemma inventory_ok r lib_assets p : crypto_library_inventory sv sbom_purl r lib_assets = Ok p -> probe_ok (keys lib_assets) p.
Proof.
  unfold crypto_library_inventory. cbv zeta. intros H. bind H as av Hav. destruct (negb av); [injection H as <-; repeat constructor|].
  bind H as ls Hls. bind H as sorted Hs. eapply (foldM_keeps (probe_ok (keys lib_assets))); [| |exact H]; [repeat constructor|].
  intros b x c Hb. apply probe_library_ok; [apply keys_by_library_in | done].
Qed.

(** The services, and what they use: libraries of the index or their own. *)
Record served_ok (known : list string) (st : served) : Prop := {
  so_services : comps_ok "service" (s_services st);
  so_extra : comps_ok "library" (s_extra st);
  so_uses : Forall (fun kl => Forall (fun s => s ∈ known \/ s ∈ (s_extra st).*1) kl.2) (s_uses st) }.

Lemma dsetdefault_sub {A} k (v : A) (d : list (string * A)) s : s ∈ d.*1 \/ s = k -> s ∈ (dsetdefault k v d).*1.
Proof.
  unfold dsetdefault. destruct (dmem k d) eqn:E.
  - intros [?| ->]; [done | by apply dmem_iff].
  - rewrite fmap_app, elem_of_app. intros [?| ->]; [by left | right; left].
Qed.

Lemma use_link_ok known index ref st l :
  Forall (fun e : string * string * string => e.2 ∈ known) index -> served_ok known st -> served_ok known (use_link sv index ref st l).
Proof.
  intros Hix [Hs He Hu]. destruct l as [[family version] facts]. unfold use_link. cbv zeta.
  set (v := link_version version). set (found := v ≫= _).
  set (lib_ref := default _ found).
  assert (match found with Some u => u ∈ known | None => True end) as Hf.
  { subst found. destruct v as [v|]; [|done]. cbn [mbind option_bind]. destruct (dget (family, v) index) as [u|] eqn:E; [|done].
    apply dget_elem_of in E. rewrite Forall_forall in Hix. apply (Hix _ E). }
  set (extra := match found with Some _ => s_extra st | None => _ end).
  assert (forall s, s ∈ (s_extra st).*1 -> s ∈ extra.*1) as Hsub.
  { intros s Hin. subst extra. destruct found; [done|]. apply dsetdefault_sub. by left. }
  constructor; cbn [s_services s_extra s_uses]; [done| |].
  - subst extra lib_ref. destruct found as [u|]; [done|]. cbn [default from_option].
    apply (comps_ok_dsetdefault "library" (library sv _ family v _ _)); [cbn; by destruct v | done | done].
  - apply dset_each.
    + cbn [snd]. apply Forall_forall. intros s [Hin| ->]%elem_of_set_add.
      * destruct (dget ref (s_uses st)) as [us|] eqn:E; [|by apply not_elem_of_nil in Hin].
        apply (dget_Forall _ _ _ _ Hu) in E. cbn in E. rewrite Forall_forall in E. destruct (E _ Hin); [by left | right; by apply Hsub].
      * subst lib_ref extra. destruct found as [u|]; [by left|]. right. apply dsetdefault_sub. by right.
    + eapply Forall_impl; [exact Hu|]. intros kl Hkl. eapply Forall_impl; [exact Hkl|]. intros s [?|?]; [by left | right; by apply Hsub].
Qed.

Lemma serve_ok known index st lst out :
  Forall (fun e : string * string * string => e.2 ∈ known) index -> served_ok known st -> serve sv index st lst = Ok out -> served_ok known out.
Proof.
  intros Hix [Hs He Hu] H. unfold serve in H. bind H as pid Hpid. bind H as exe Hexe. destruct (_ && _); [by injection H as <-|].
  bind H as unit Hunit. bind H as process Hproc. bind H as static Hst. cbv zeta in H. bind H as ep Hep. bind H as links Hlinks. injection H as <-.
  set (ref := "service/" +:+ _).
  assert (forall l st, served_ok known st -> served_ok known (foldl (use_link sv index ref) st l)) as Hfold.
  { intros l. induction l as [|x l IH]; intros s Hok; [done|]. cbn [foldl]. by apply IH, use_link_ok. }
  apply Hfold. constructor; cbn [s_services s_extra s_uses]; [|done|].
  - destruct (dget ref (s_services st)) as [c|] eqn:E; cbn [default from_option].
    + destruct Hs as [Hw Hf]. pose proof (dget_Forall _ _ _ _ Hf E) as (Hr & Hc & Hrel). cbn [fst snd] in *.
      split; [by apply dset_wf|]. by apply dset_each.
    + by apply (comps_ok_dset "service" (add_props [ep] (service_component sv ref _ unit exe process static))).
  - destruct (dget ref (s_services st)); [done|]. apply dset_each; [constructor | done].
Qed.

Lemma service_inventory_ok known r index out :
  Forall (fun e : string * string * string => e.2 ∈ known) index -> service_inventory sv r index = Ok out -> served_ok known out.
Proof.
  intros Hix. unfold service_inventory. cbv zeta. intros H.
  assert (served_ok known (Served [] [] [])) as H0 by (constructor; [apply comps_ok_nil|apply comps_ok_nil|constructor]).
  bind H as av Hav. destruct (negb av); [by injection H as <-|]. bind H as ls Hls.
  eapply (foldM_keeps (served_ok known)); [exact H0| |exact H]. intros b x c Hb. by apply serve_ok.
Qed.

(** The union. *)
Lemma merge_component_ok st c :
  comps_ok "library" st -> ref_class (k_ref c) = "library" -> related c = [] ->
  comps_ok "library" (merge_component st c) /\ (forall s, s ∈ (merge_component st c).*1 <-> s ∈ st.*1 \/ s = k_ref c).
Proof.
  intros Hst Hc Hr. unfold merge_component. destruct (dget (k_ref c) st) as [cur|] eqn:E.
  - destruct Hst as [Hw Hf]. pose proof (dget_Forall _ _ _ _ Hf E) as (Hcr & Hcc & Hcrel). cbn [fst snd] in *. split.
    + split; [by apply dset_wf|]. by apply dset_each.
    + intros s. rewrite dset_keys. assert (dmem (k_ref c) st = true) as Hm by (unfold dmem; by rewrite E). rewrite Hm.
      split; [by left|]. intros [?| ->]; [done | by apply dmem_iff].
  - split; [by apply comps_ok_dset|]. intros s. rewrite dset_keys. unfold dmem. rewrite E, elem_of_app, list_elem_of_singleton. done.
Qed.
Lemma merge_components_ok st cs :
  comps_ok "library" st -> Forall (fun c => ref_class (k_ref c) = "library" /\ related c = []) cs ->
  comps_ok "library" (foldl merge_component st cs) /\ (forall s, s ∈ (foldl merge_component st cs).*1 <-> s ∈ st.*1 \/ s ∈ refs cs).
Proof.
  intros Hst Hcs. revert st Hst. induction Hcs as [|c cs [Hc Hr] _ IH]; intros st Hst; cbn [foldl].
  - split; [done|]. intros s. split; [by left|]. by intros [?|?%not_elem_of_nil].
  - destruct (merge_component_ok st c Hst Hc Hr) as [Hok Hk]. destruct (IH _ Hok) as [Hok' Hk']. split; [done|].
    intros s. rewrite Hk', Hk. csimpl. rewrite elem_of_cons. tauto.
Qed.
Lemma merge_provides_in allowed merged rk : refs_in allowed merged -> Forall (fun s => s ∈ allowed) rk.2 -> refs_in allowed (merge_provides merged rk).
Proof.
  intros Hm Hr. unfold merge_provides. apply dset_each; [|done]. cbn [snd]. apply Forall_app. split; [|by apply Forall_List_filter].
  destruct (dget rk.1 merged) as [l|] eqn:E; [|constructor]. by apply (dget_Forall _ _ _ _ Hm) in E.
Qed.

(** What the parts of a document promise. *)
Record merged_ok (allowed : list string) (m : merged) : Prop := {
  mo_libraries : tagged_by ref_class "library" (refs (m_libraries m));
  mo_services : tagged_by ref_class "service" (refs (m_services m));
  mo_related : Forall (fun c => related c = []) (m_libraries m ++ m_services m);
  mo_provides : refs_in allowed (m_provides m);
  mo_uses : refs_in (refs (m_libraries m)) (m_uses m) }.

Lemma merge_inventory_ok r assets lib_assets d provides m :
  comps_ok "library" d -> refs_in (keys assets) provides ->
  merge_inventory sv sbom_purl r lib_assets (snd <$> d) provides = Ok m -> merged_ok (keys (assets ++ lib_assets)) m.
Proof.
  intros Hd Hp H. unfold merge_inventory in H. bind H as p Hprobe. bind H as st Hst. injection H as <-.
  destruct (inventory_ok _ _ _ Hprobe) as [Pc Pp Pi]. destruct (service_inventory_ok _ _ _ _ Pi Hst) as [Ss Se Su].
  assert (forall s, comps_ok "library" s -> comps_ok "library" (dupdate s ((fun c => (k_ref c, c)) <$> (snd <$> d)))) as Hstart.
  { unfold dupdate. destruct Hd as [_ Hf]. intros s Hs. revert s Hs. induction Hf as [|[k c] d (Hr & Hc & Hrel) _ IH]; intros s Hs; [done|].
    csimpl. apply IH. cbn [fst snd] in *. apply comps_ok_dset; [by rewrite Hr|done|done]. }
  specialize (Hstart [] (comps_ok_nil _)). set (start := dupdate [] _) in *.
  destruct (merge_components_ok start (p_comps p) Hstart Pc) as [H1 K1].
  destruct (comps_ok_refs _ _ Se) as (Er & [_ Ec] & Erel). rewrite Er in Ec.
  destruct (merge_components_ok _ (snd <$> s_extra st) H1) as [H2 K2].
  { apply Forall_fmap. destruct Se as [_ Hf]. eapply Forall_impl; [exact Hf|]. intros kc (Hr & Hc & Hrel). cbn. by rewrite Hr. }
  set (all := foldl merge_component _ (snd <$> s_extra st)) in *.
  destruct (comps_ok_refs _ _ H2) as (Ar & At & Arel). destruct (comps_ok_refs _ _ Ss) as (Sr & St & Srel).
  constructor; cbn [m_libraries m_services m_provides m_uses]; [done|done| | |].
  - by apply Forall_app.
  - assert (forall ps merged, refs_in (keys (assets ++ lib_assets)) ps -> refs_in (keys (assets ++ lib_assets)) merged ->
      refs_in (keys (assets ++ lib_assets)) (foldl merge_provides merged ps)) as Hfold.
    { intros ps. induction ps as [|rk ps IH]; intros mg Hps Hmg; [done|]. inversion Hps; subst. cbn [foldl]. apply IH; [done|]. by apply merge_provides_in. }
    apply Hfold; (eapply refs_in_weaken; [|first [exact Pp | exact Hp]]); rewrite fmap_app; set_solver.
  - rewrite Ar. eapply Forall_impl; [exact Su|]. intros kl Hkl. eapply Forall_impl; [exact Hkl|]. cbn. intros s Hs.
    apply K2. rewrite Er. destruct Hs as [Hs|Hs]; [left; apply K1; by right | by right].
Qed.

Lemma parts_ok r spec interop assets lib_assets m :
  parts sv sbom_purl r spec interop assets lib_assets = Ok m -> merged_ok (keys (assets ++ lib_assets)) m.
Proof.
  unfold parts. intros H. bind H as li Hli.
  assert (comps_ok "library" (l_libs li) /\ refs_in (keys assets) (l_provides li)) as [Hl Hp].
  { destruct (negb (String.eqb interop INTEROP_NONE)); [by eapply library_components_ok|]. injection Hli as <-. split; [apply comps_ok_nil | constructor]. }
  cbv zeta in H. destruct (String.eqb spec "1.7"); [by eapply merge_inventory_ok|]. injection H as <-.
  destruct (comps_ok_refs _ _ Hl) as (_ & Ht & Hr).
  constructor; cbn [m_libraries m_services m_provides m_uses]; [done|apply tagged_nil|by rewrite app_nil_r| |constructor].
  eapply refs_in_weaken; [|exact Hp]. rewrite fmap_app. set_solver.
Qed.
End Libraries.

(** The index of the SBOM gives package URLs only. *)
Lemma package_purl_class pkg osr bi u : package_purl pkg osr bi = Some u -> ref_class u = "library".
Proof.
  unfold package_purl. cbv zeta. destruct (negb _ || _ || _); [done|].
  assert (forall w, yocto_purl pkg = Some w -> ref_class w = "library") as Hy.
  { intros w. unfold yocto_purl. destruct (re_match _ _); [|done]. by intros [= <-]. }
  destruct (if _ && _ then yocto_purl pkg else None) as [w|] eqn:E.
  { intros [= <-]. destruct (_ && _); [by apply Hy | done]. }
  destruct (py_eq (db_kind pkg osr) (VStr "opkg")); [by intros [= <-]|].
  destruct (dget _ _); [|done]. destruct (vendor_of _ _); [|done]. destruct (nonempty _); [|done]. by intros [= <-].
Qed.
Lemma sbom_purl_class h osr bi pkg u : Sbom.sbom_purl h pkg osr bi = Ok (Some u) -> ref_class u = "library".
Proof.
  unfold Sbom.sbom_purl. destruct (_ || _); [done|]. intros H. bind H as ix Hix. unfold purl_index in Hix. bind Hix as pr Hpr.
  destruct pr as [pkgs reason]. injection Hix as <-.
  destruct (dget _ (index_of _ _ _)) as [w|] eqn:E.
  - injection H as <-. unfold index_of in E. pose proof (indexed_fold osr bi pkgs) as [Hs _ Hup _ Hw].
    destruct (foldl _ _ pkgs) as [index ups]. cbn [fst snd] in *. rewrite upstream_fold in E by done.
    destruct (dget _ index) as [x|] eqn:Ei.
    + injection E as <-. destruct (Hs _ _ Ei) as (p & _ & Hp & _). by apply package_purl_class in Hp.
    + destruct (dget _ ups) as [[|x [|]]|] eqn:Eu; try done. injection E as <-.
      destruct (proj1 (Hup (py_str (value_at "name" pkg), full_version pkg) x)) as (p & _ & Hp & _); [exists [x]; split; [done|left]|].
      by apply package_purl_class in Hp.
  - bind H as ctx Hctx. injection H as H. by apply package_purl_class in H.
Qed.

(** ** The document *)

(** All texts of a value: the dependency graph consists of references. *)
Fixpoint texts (v : value) : list string :=
  match v with
  | VStr s => [s]
  | VList l => (fix go l := match l with [] => [] | x :: l => texts x ++ go l end) l
  | VDict d => (fix go d := match d with [] => [] | (_, x) :: d => texts x ++ go d end) d
  | _ => []
  end.
Lemma texts_strs l : texts (VStrs l) = l.
Proof. unfold VStrs. cbn. induction l as [|x l IH]; [done|]. csimpl. by rewrite IH. Qed.

Section Document.
Context (sv : string) (fromisoformat : string -> option (Z * bool)) (now : Z) (h : pkg_host) (osr : list (string * value)) (bi : list (string * string)).
Let sbom (pkg : list (string * value)) : res (option string) := Sbom.sbom_purl h pkg osr bi.

Definition CRYPTO_CLASSES : list string := STACK_CLASSES ++ ["protocol"; "certificate"; "library asset"].

Lemma tagged_classes (cs : list string) (gs : list (string * list string)) :
  NoDup gs.*1 -> Forall (fun g => tagged_by ref_class g.1 g.2) gs -> gs.*1 ⊆ cs ->
  NoDup (concat gs.*2) /\ Forall (fun s => ref_class s ∈ cs) (concat gs.*2).
Proof.
  intros Hn Hg Hs. split; [by apply (NoDup_groups ref_class)|]. clear Hn. induction Hg as [|[c l] gs [_ Ht] _ IH]; csimpl; [constructor|].
  csimpl in Hs. apply Forall_app. split; [|apply IH; set_solver]. eapply Forall_impl; [exact Ht|]. cbn. intros s <-. apply Hs. left.
Qed.

(** The cryptographic components: distinct references of their own kinds,
    and links to assets that are there. *)
Lemma crypto_refs r spec prof assets lib_assets comps :
  named_once r -> stack_assets r prof = Ok assets ->
  (if String.eqb spec "1.7" then library_crypto_assets r else Ok []) = Ok lib_assets ->
  spec ∈ CBOM_VERSIONS -> crypto_components sv fromisoformat now r spec assets lib_assets = Ok comps ->
  NoDup (refs comps) /\ Forall (fun s => ref_class s ∈ CRYPTO_CLASSES) (refs comps) /\
  keys (assets ++ lib_assets) ⊆ refs comps /\
  Forall (fun c => Forall (fun s => s ∈ refs comps) (related c)) comps.
Proof.
  intros Hr Ha Hl Hspec H. destruct (stack_groups r prof assets Hr Ha) as (ls & Hk & Hg).
  assert (grouped ["library asset"] lib_assets) as (ls' & Hk' & Hg').
  { destruct (String.eqb spec "1.7"); [by apply (library_groups r) | injection Hl as <-; apply grouped_nil]. }
  unfold crypto_components in H. destruct (String.eqb spec "1.6") eqn:E16.
  - apply String.eqb_eq in E16 as ->. injection Hl as <-. destruct (mapM_refs _ _ _ (component_ref sv) H) as [Hrefs Hrel].
    destruct (grouped_classes STACK_CLASSES assets) as [Hn Hc]; [by apply (bool_decide_unpack _); vm_compute | by exists ls|].
    rewrite Hrefs, app_nil_r. split_and!; [done| |done|].
    + eapply Forall_impl; [exact Hc|]. intros s Hs. apply elem_of_app. by left.
    + eapply Forall_impl; [exact Hrel|]. intros c ->. constructor.
  - bind H as cs Hcs. bind H as certs Hcerts. bind H as lcs Hlcs. injection H as <-.
    destruct (mapM_refs _ _ _ (component17_ref sv) Hcs) as [R1 L1]. destruct (mapM_refs _ _ _ (library_component_ref sv) Hlcs) as [R4 L4].
    destruct (protocol_refs sv assets) as [T2 L2]. destruct (certificate_refs sv fromisoformat now r certs Hcerts) as [T3 L3].
    assert (refs (cs ++ protocol_components sv assets ++ certs ++ lcs) =
            keys assets ++ refs (protocol_components sv assets) ++ refs certs ++ keys lib_assets) as Eq.
    { by rewrite !fmap_app, R1, R4. }
    assert (grouped STACK_CLASSES assets) as Hga by by exists ls.
    destruct (tagged_classes CRYPTO_CLASSES
      (zip STACK_CLASSES ls ++ [("protocol", refs (protocol_components sv assets)); ("certificate", refs certs); ("library asset", keys lib_assets)])) as [Hn Hc].
    + rewrite fmap_app, fst_zip by (by rewrite (Forall2_length _ _ _ Hg)). by apply (bool_decide_unpack _); vm_compute.
    + apply Forall_app. split.
      * clear -Hg. induction Hg; cbn; by constructor.
      * repeat constructor; cbn [fst snd]; try apply T2; try apply T3.
        all: rewrite Hk'; inversion Hg' as [|? l ? k Hl' Hnil]; subst; inversion Hnil; subst; cbn; rewrite app_nil_r; apply Hl'.
    + rewrite fmap_app, fst_zip by (by rewrite (Forall2_length _ _ _ Hg)). done.
    + rewrite fmap_app, concat_app, snd_zip in Hn, Hc by (by rewrite (Forall2_length _ _ _ Hg)).
      rewrite <-Hk in Hn, Hc. cbn [fmap list_fmap concat snd] in Hn, Hc. rewrite app_nil_r in Hn, Hc.
      rewrite Eq. split_and!; [done|done| |].
      * rewrite fmap_app. set_solver.
      * rewrite !Forall_app. split_and!.
        -- eapply Forall_impl; [exact L1|]. intros c ->. constructor.
        -- eapply Forall_impl; [exact L2|]. intros c Hx. eapply Forall_impl; [exact Hx|]. intros s Hs. apply elem_of_app. by left.
        -- eapply Forall_impl; [exact L3|]. intros c ->. constructor.
        -- eapply Forall_impl; [exact L4|]. intros c ->. constructor.
Qed.

(** Annotations leave references alone. *)
Definition same_refs (c c' : comp) : Prop := k_ref c' = k_ref c /\ related c' = related c.
Lemma add_props_same ps c : same_refs c (add_props ps c).
Proof. done. Qed.
Lemma apply_profile_same pf assets c c' : apply_profile pf assets c = Ok c' -> same_refs c c'.
Proof.
  unfold apply_profile. destruct (by_ref assets (k_ref c)).
  - intros H. bind H as ps Hps. injection H as <-. apply add_props_same.
  - destruct (is_certificate c); [|by intros [= <-]]. cbv zeta. intros H. bind H as ps Hps. injection H as <-. apply add_props_same.
Qed.
Lemma mirror_same assets c c' : mirror_component assets c = Ok c' -> same_refs c c'.
Proof.
  unfold mirror_component. destruct (k_crypto c); [|by intros [= <-]]. intros H. bind H as st Hst. cbv zeta in H. injection H as <-.
  apply add_props_same.
Qed.
Lemma mapM_same (f : comp -> res comp) cs cs' :
  (forall c c', f c = Ok c' -> same_refs c c') -> mapM f cs = Ok cs' -> refs cs' = refs cs /\ related <$> cs' = related <$> cs.
Proof. intros Hf Hm. split; apply (mapM_key _ _ _ _ _ Hm); intros c c' Hc; by apply Hf in Hc as [? ?]. Qed.
Lemma related_fmap (Q : list string -> Prop) cs : Forall (fun c => Q (related c)) cs <-> Forall Q (related <$> cs).
Proof. by rewrite Forall_fmap. Qed.

Lemma content_parts r spec prof interop ct :
  cbom_content sv fromisoformat now sbom r spec prof interop = Ok ct ->
  exists assets lib_assets comps comps',
    stack_assets r prof = Ok assets /\ (if String.eqb spec "1.7" then library_crypto_assets r else Ok []) = Ok lib_assets /\
    crypto_components sv fromisoformat now r spec assets lib_assets = Ok comps /\
    refs comps' = refs comps /\ related <$> comps' = related <$> comps /\
    parts sv sbom r spec interop assets lib_assets = Ok (ct_parts ct) /\
    shape interop (assets ++ lib_assets) comps' (ct_parts ct) = Ok (ct_components ct, ct_provides ct).
Proof.
  unfold cbom_content. intros H. bind H as assets Ha. bind H as libs Hl. bind H as comps Hc. bind H as comps' Hc'. bind H as m Hm.
  bind H as pr Hs. destruct pr as [final provides]. injection H as <-. exists assets, libs, comps, comps'.
  assert (refs comps' = refs comps /\ related <$> comps' = related <$> comps) as [? ?].
  { destruct prof as [pf|]; [|by injection Hc' as <-]. apply (mapM_same _ _ _ (apply_profile_same pf (assets ++ libs)) Hc'). }
  split_and!; done.
Qed.

(** In every interop mode the libraries and services are there, and with
    them either all cryptographic components or none. *)
Lemma shape_refs interop assets comps m final provides :
  interop ∈ INTEROP_MODES -> shape interop assets comps m = Ok (final, provides) ->
  (refs final = refs comps ++ refs (m_libraries m ++ m_services m) /\
   related <$> final = (related <$> comps) ++ (related <$> (m_libraries m ++ m_services m)) /\ provides = m_provides m) \/
  (interop = INTEROP_SBOM_ONLY /\ final = m_libraries m ++ m_services m /\ provides = []).
Proof.
  intros Hi. unfold shape. cbv zeta. destruct (String.eqb interop INTEROP_DEPENDENCY_TRACK).
  - intros H. bind H as cs Hcs. injection H as <- <-. left.
    destruct (mapM_same _ _ _ (mirror_same assets) Hcs) as [Hr Hl].
    rewrite !fmap_app, <-Hr, <-Hl, <-!list_fmap_compose. done.
  - destruct (String.eqb_spec interop INTEROP_SBOM_ONLY) as [->|_]; intros [= <- <-]; [by right | left].
    by rewrite !fmap_app.
Qed.

Lemma crypto_not_library s c : ref_class s ∈ CRYPTO_CLASSES -> ref_class s = c -> c ∈ ["library"; "service"; "host"] -> False.
Proof.
  intros Hs <- Hc. assert (forallb (fun c => negb (bool_decide (c ∈ ["library"; "service"; "host"]))) CRYPTO_CLASSES = true) as Hall by done.
  rewrite forallb_forall in Hall. apply list_elem_of_In, Hall, negb_true_iff, bool_decide_eq_false in Hs. done.
Qed.

Lemma bought_refs allowed m : merged_ok allowed m ->
  NoDup (refs (m_libraries m ++ m_services m)) /\ Forall (fun s => ref_class s ∈ ["library"; "service"]) (refs (m_libraries m ++ m_services m)).
Proof.
  intros [Hl Hs _ _ _]. rewrite fmap_app.
  destruct (tagged_classes ["library"; "service"] [("library", refs (m_libraries m)); ("service", refs (m_services m))]) as [Hn Hc].
  - by apply (bool_decide_unpack _); vm_compute.
  - by repeat constructor; try apply Hl; try apply Hs.
  - done.
  - cbn in Hn, Hc. rewrite app_nil_r in Hn, Hc. done.
Qed.

Lemma dependency_texts r m provides allowed :
  refs_in allowed provides -> host_ref r ∈ allowed -> refs (m_libraries m ++ m_services m) ⊆ allowed -> refs_in (refs (m_libraries m)) (m_uses m) ->
  Forall (fun d => Forall (fun s => s ∈ allowed) (texts d)) (dependencies r m provides).
Proof.
  intros Hp Hh Ha Hu.
  assert (forall a (l : list string), texts (VDict [("ref", VStr a); ("dependsOn", VStrs l)]) = a :: l ++ []) as Hdep.
  { intros a l. change (texts (VDict [("ref", VStr a); ("dependsOn", VStrs l)])) with ([a] ++ texts (VStrs l) ++ []). by rewrite texts_strs. }
  unfold dependencies. rewrite !Forall_app, !Forall_fmap. split_and!.
  - constructor; [|constructor]. rewrite Hdep, app_nil_r. constructor; [done|]. apply Forall_forall. intros s. apply Ha.
  - apply Forall_forall. intros c Hc. cbn [compose]. rewrite Hdep, app_nil_r. constructor.
    + apply Ha. rewrite fmap_app. apply elem_of_app. right. by apply list_elem_of_fmap_2.
    + destruct (dget (k_ref c) (m_uses m)) as [l|] eqn:E; [|constructor]. apply (dget_Forall _ _ _ _ Hu) in E.
      eapply Forall_impl; [exact E|]. intros s Hs. apply Ha. rewrite fmap_app. apply elem_of_app. by left.
  - apply Forall_forall. intros c Hc. cbn [compose]. unfold dependency.
    assert (k_ref c ∈ allowed) as Hin.
    { apply Ha. rewrite fmap_app. apply elem_of_app. left. by apply list_elem_of_fmap_2. }
    destruct (dget (k_ref c) provides) as [[|x l]|] eqn:E; [by repeat constructor| |by repeat constructor].
    apply (dget_Forall _ _ _ _ Hp) in E.
    change (texts (VDict ([("ref", VStr (k_ref c))] ++ [("provides", VStrs (x :: l))]))) with (k_ref c :: texts (VStrs (x :: l)) ++ []).
    rewrite texts_strs, app_nil_r. by constructor.
Qed.

(** C4: In every version, profile and interop mode the bom-refs of the host
    and of the components are distinct, whatever the scans found, as long as
    the report names no algorithm twice; and every reference resolves: the
    dependency graph names the host and components of the document only, and
    the assets a protocol relates to are in it. *)
Theorem cbom_references r spec prof interop ct :
  named_once r -> spec ∈ CBOM_VERSIONS -> interop ∈ INTEROP_MODES ->
  cbom_content sv fromisoformat now sbom r spec prof interop = Ok ct ->
  NoDup (host_ref r :: refs (ct_components ct)) /\
  Forall (fun d => Forall (fun s => s ∈ host_ref r :: refs (ct_components ct)) (texts d))
    (dependencies r (ct_parts ct) (ct_provides ct)) /\
  Forall (fun c => Forall (fun s => s ∈ refs (ct_components ct)) (related c)) (ct_components ct).
Proof.
  intros Hr Hspec Hi (assets & libs & comps & comps' & Ha & Hl & Hc & Hrefs & Hrel & Hm & Hs)%content_parts.
  destruct (crypto_refs _ _ _ _ _ _ Hr Ha Hl Hspec Hc) as (Hn & Hcl & Hkeys & Hlinks).
  pose proof (parts_ok sv sbom (fun fs u => sbom_purl_class h osr bi fs u) _ _ _ _ _ _ Hm) as Hok.
  destruct (bought_refs _ _ Hok) as [Hnb Hcb]. destruct Hok as [_ _ Hrelb Hprov Huses].
  assert (ref_class (host_ref r) = "host") as Hhost by done.
  assert (host_ref r ∉ refs (m_libraries (ct_parts ct) ++ m_services (ct_parts ct))) as Hhb.
  { intros Hin. rewrite Forall_forall in Hcb. specialize (Hcb _ Hin). rewrite Hhost in Hcb. clear -Hcb. set_solver. }
  destruct (shape_refs _ _ _ _ _ _ Hi Hs) as [(Hf & Hfr & ->)|(-> & -> & ->)].
  - rewrite Hf, Hrefs. split_and!.
    + apply NoDup_cons. split.
      * intros [Hin|Hin]%elem_of_app; [|done]. rewrite Forall_forall in Hcl. eapply (crypto_not_library _ "host"); [by apply Hcl|done|]. clear. set_solver.
      * apply NoDup_app. split_and!; [done| |done]. intros s Hin Hin'. rewrite Forall_forall in Hcl, Hcb.
        eapply (crypto_not_library s); [by apply Hcl|reflexivity|]. specialize (Hcb _ Hin'). clear -Hcb. set_solver.
    + apply dependency_texts; [|left| |exact Huses].
      * eapply refs_in_weaken; [|exact Hprov]. clear -Hkeys. set_solver.
      * clear. set_solver.
    + apply (related_fmap (fun l => Forall _ l)). rewrite Hfr, Hrel. apply Forall_app. split.
      * apply (related_fmap (fun l => Forall _ l)). eapply Forall_impl; [exact Hlinks|]. cbn. intros c Hx. eapply Forall_impl; [exact Hx|]. set_solver.
      * apply (related_fmap (fun l => Forall _ l)). eapply Forall_impl; [exact Hrelb|]. cbn. intros c ->. constructor.
  - split_and!.
    + by apply NoDup_cons.
    + apply dependency_texts; [constructor|left|clear; set_solver|exact Huses].
    + eapply Forall_impl; [exact Hrelb|]. cbn. intros c ->. constructor.
Qed.
End Document.

(** ** Witness *)

Definition sample_report : cbom_report := {|
  b_generated_at := "2026-01-01T00:00:00+00:00"; b_hostname := "web1"; b_os := "Linux"; b_arch := "x86_64"; b_cpu_model := "CPU";
  b_scan_mode := VNone; b_isa_features := VDict [("avx2", VDict [("name", VStr "AVX2")])]; b_accelerators := []; b_tpm_pqc := VNone;
  b_pkcs11_modules := ["/usr/lib64/pkcs11/opensc-pkcs11.so"];
  b_openssl := VDict [("available", VBool true); ("version", VStr "OpenSSL 3.5.1 1 Jul 2025"); ("kem_algorithms", VStrs ["ML-KEM-768"]);
    ("tls_groups", VDict [("hybrid", VStrs ["X25519MLKEM768"]); ("classical", VStrs ["x25519"; "secp256r1"])])];
  b_ssh_pqc := VNone; b_ipsec_pqc := VNone;
  b_trust_store := VDict [("certificates", VList [VDict [("sha256", VStr (str_of (replicate 64 "a"%char))); ("category", VStr "classical")]])];
  b_crypto_material := VNone;
  b_packages := VDict [("bundled_crypto", VList [VDict [("package", VStr "libc6"); ("version", VStr "2.36-9+deb12u4")]])];
  b_os_release := VDict debian_release_sample; b_inventory_metadata := VNone;
  b_crypto_libraries := VDict [("available", VBool true); ("libraries", VDict [("gnutls", VDict [("installed", VBool true); ("version", VStr "3.8.9");
     ("algorithms", VDict [("kem", VStrs ["ML-KEM-768"])])])])];
  b_service_crypto_linkage := VDict [("available", VBool true); ("listeners", VList [VDict [("pid", VInt 7); ("exe", VStr "/usr/sbin/nginx");
     ("protocol", VStr "tcp"); ("address", VStr "0.0.0.0"); ("port", VInt 443);
     ("crypto_libraries", VList [VDict [("family", VStr "gnutls"); ("version", VStr "3.8.9")]])]])] |}.

Ltac names_once := intros; simplify_eq/=; unfold once; apply (bool_decide_unpack _); vm_compute; done.
Lemma sample_named_once : named_once sample_report.
Proof.
  constructor.
  - intros d [= <-]. apply (bool_decide_unpack _); vm_compute; done.
  - intros l [= <-]. names_once.
  - intros l [= <-]. names_once.
  - intros g [= <-]. repeat constructor; intros l [= <-]; names_once.
  - intros g [= <-]. repeat constructor; intros l [= <-]; names_once.
  - intros libs [= <-]. split; [apply (bool_decide_unpack _); vm_compute; done|]. constructor; [|constructor]. split; [apply (bool_decide_unpack _); vm_compute; done|].
    intros kinds [= <-]. split; [apply (bool_decide_unpack _); vm_compute; done|]. constructor; [|constructor]. split; [left|]. intros l [= <-]. names_once.
Qed.

Lemma cbom_references_witness : exists ct,
  cbom_content "1" (fun _ => None) 0 (fun pkg => Sbom.sbom_purl debian_host pkg debian_release_sample []) sample_report "1.7" (Some FEDERAL_DRAFT) "none" = Ok ct /\
  NoDup (host_ref sample_report :: refs (ct_components ct)) /\ length (ct_components ct) = 11%nat.
Proof.
  destruct (cbom_content "1" (fun _ => None) 0 (fun pkg => Sbom.sbom_purl debian_host pkg debian_release_sample []) sample_report "1.7" (Some FEDERAL_DRAFT) "none")
    as [ct|e] eqn:E; [|exfalso; vm_compute in E; discriminate E].
  exists ct. split; [reflexivity|]. split.
  - apply (cbom_references "1" (fun _ => None) 0 debian_host debian_release_sample [] sample_report "1.7" (Some FEDERAL_DRAFT) "none" ct
      sample_named_once); [by left|by left|exact E].
  - vm_compute in E. injection E as <-. reflexivity.
Defined.
