(* ===== verification/InvMeta.v ===== *)
(** * Operator-supplied inventory metadata ([inventory_metadata.py])

    The validator of [--inventory-metadata] files and the loader in front of
    it.  [json.loads] and the two file queries are arguments; everything the
    module decides itself is a definition.  The theorem says which documents
    are accepted, that what is accepted is normal, and that the CBOM can
    render it. *)

From stdpp Require Import sets.
From S2P Require Import Prelude PyStr PyDict PyVal Services HostPath Packages CbomAssets CbomRender OsinfoTheory.
Open Scope Z_scope.
Definition MAX_BYTES : Z := 64 * 1024.
Definition FIPS199_LEVELS : list string := ["Low"; "Moderate"; "High"].
Definition HOSTING_MODELS : list string := ["on-premises"; "commercial-csp"; "government-csp"; "hybrid"].
Definition STRING_KEYS : list string := ["fisma_system_id"; "hva_id"; "notes"].
Definition ALLOWED_KEYS : list string := STRING_KEYS ++ ["fips199_categorization"; "hosting"; "data_lifecycle"].

Definition meta_error {A} (msg : string) : res A := Raise (Custom "InventoryMetadataError" msg).

Definition require_str (v : value) (where_ : string) : res string :=
  match v with
  | VStr s => if nonempty (strip s) then Ok (strip s) else meta_error (where_ +:+ " must be a non-empty string")
  | _ => meta_error (where_ +:+ " must be a non-empty string")
  end.

(** [sorted(set(value) - allowed)]. *)
Definition extra_keys (allowed : list string) (d : list (string * value)) : list string :=
  sorted_set (List.filter (fun k => negb (bool_decide (k ∈ allowed))) d.*1).
Definition listed (l : list string) : string := py_repr (VStrs l).
(** [v in ("a", "b", ...)]. *)
Definition one_of (l : list string) (v : value) : bool := existsb (fun s => py_eq v (VStr s)) l.

Definition provider (d : list (string * value)) (model : string) : res (list (string * value)) :=
  if String.eqb model "on-premises" then
    match dget "provider" d with
    | Some p => s ← require_str p "hosting.provider"; Ok [("provider", VStr s)]
    | None => Ok []
    end
  else
    s ← require_str (default VNone (dget "provider" d)) ("hosting.provider (required for " +:+ model +:+ ")");
    Ok [("provider", VStr s)].
Definition validate_hosting (v : value) : res value :=
  match v with
  | VDict d =>
      let extra := extra_keys ["model"; "provider"] d in
      let model := default VNone (dget "model" d) in
      if negb (bool_decide (extra = [])) then meta_error ("hosting: unknown key(s) " +:+ listed extra)
      else if negb (one_of HOSTING_MODELS model) then
        meta_error ("hosting.model must be one of " +:+ listed HOSTING_MODELS +:+ ", got " +:+ py_repr model)
      else
        p ← provider d (py_str model);
        Ok (VDict (("model", VStr (py_str model)) :: p))
  | _ => meta_error "hosting must be an object"
  end.

Definition categories (d : list (string * value)) : res (list (string * value)) :=
  match dget "records_categories" d with
  | None => Ok []
  | Some (VList (c :: cs)) =>
      ss ← mapM (fun c => require_str c "data_lifecycle.records_categories[]") (c :: cs);
      Ok [("records_categories", VStrs ss)]
  | Some _ => meta_error "data_lifecycle.records_categories must be a non-empty list"
  end.
(** A number that is not [< 0]; [bool] is refused. *)
Definition ttl_ok (v : value) : bool :=
  match v with
  | VInt z => 0 <=? z
  | VFloat f => negb (f_lt f f_zero)
  | _ => false
  end.
Definition time_to_live (d : list (string * value)) : res (list (string * value)) :=
  match dget "time_to_live_years" d with
  | None => Ok []
  | Some ttl => if ttl_ok ttl then Ok [("time_to_live_years", ttl)]
                else meta_error "data_lifecycle.time_to_live_years must be a number >= 0"
  end.
Definition validate_lifecycle (v : value) : res value :=
  match v with
  | VDict d =>
      let extra := extra_keys ["records_categories"; "time_to_live_years"] d in
      if negb (bool_decide (extra = [])) then meta_error ("data_lifecycle: unknown key(s) " +:+ listed extra)
      else
        cats ← categories d;
        ttl ← time_to_live d;
        Ok (VDict (cats ++ ttl))
  | _ => meta_error "data_lifecycle must be an object"
  end.

Definition capitalize (s : string) : string :=
  match chars s with [] => s | c :: l => str_of (upper_char c :: (lower_char <$> l)) end.
Definition level_of (raw : value) : value := if raw is VStr s then VStr (capitalize (strip s)) else raw.
Definition validate_level (raw : value) : res value :=
  if one_of FIPS199_LEVELS (level_of raw) then Ok (level_of raw)
  else meta_error ("fips199_categorization must be one of " +:+ listed FIPS199_LEVELS +:+ ", got " +:+ py_repr raw).

(** [if key in data: out[key] = check(data[key])]. *)
Definition entry (data : list (string * value)) (key : string) (check : value -> res value) (out : list (string * value)) :
    res (list (string * value)) :=
  match dget key data with
  | Some v => x ← check v; Ok (dset key x out)
  | None => Ok out
  end.
Definition text_entry (data : list (string * value)) (out : list (string * value)) (key : string) : res (list (string * value)) :=
  entry data key (fun v => s ← require_str v key; Ok (VStr s)) out.

Definition ORDER : list string := ["fisma_system_id"; "fips199_categorization"; "hva_id"; "hosting"; "data_lifecycle"; "notes"].
Definition in_order (out : list (string * value)) : list (string * value) :=
  omap (fun k => (fun v => (k, v)) <$> dget k out) ORDER.

Definition validate (data : value) : res (list (string * value)) :=
  match data with
  | VDict d =>
      let unknown := extra_keys ALLOWED_KEYS d in
      if negb (bool_decide (unknown = [])) then
        meta_error ("unknown key(s) " +:+ listed unknown +:+ "; allowed: " +:+ listed (sorted_set ALLOWED_KEYS))
      else
        out ← foldM (text_entry d) [] STRING_KEYS;
        out ← entry d "fips199_categorization" validate_level out;
        out ← entry d "hosting" validate_hosting out;
        out ← entry d "data_lifecycle" validate_lifecycle out;
        Ok (in_order out)
  | _ => meta_error "top level must be a JSON object"
  end.

(** ** Loading *)

Section Load.
Context (stat_size : string -> res Z) (read_text : string -> res string) (json_loads : string -> res value).

Definition not_json (e : exn) : bool := is_class "UnicodeDecodeError" e || is_class "JSONDecodeError" e.
Definition load (path : string) : res (list (string * value)) :=
  data ← catch not_json
    (catch (is_class "OSError")
       (size ← stat_size path;
        if MAX_BYTES <? size then
          meta_error (path +:+ ": " +:+ show_Z size +:+ " bytes exceeds the " +:+ show_Z MAX_BYTES +:+ "-byte limit")
        else text ← read_text path; json_loads text)
       (fun e => meta_error (path +:+ ": " +:+ exn_text e)))
    (fun e => meta_error (path +:+ ": not valid JSON (" +:+ exn_text e +:+ ")"));
  validate data.
End Load.

(** * Inventory metadata: theorems

    Which documents [validate] accepts, that its only exception is its own,
    that it returns a fixed point of itself, and that the CBOM renders every
    accepted document with text values only. *)
(** ** What is accepted *)

Definition text_ok (v : value) : Prop := exists s, v = VStr s /\ strip s <> EmptyString.
Definition at_key (P : value -> Prop) (k : string) (d : list (string * value)) : Prop := forall v, dget k d = Some v -> P v.
Definition level_ok (v : value) : Prop := exists s, v = VStr s /\ capitalize (strip s) ∈ FIPS199_LEVELS.
Definition hosting_ok (v : value) : Prop := exists d model,
  v = VDict d /\ d.*1 ⊆ ["model"; "provider"] /\ dget "model" d = Some (VStr model) /\ model ∈ HOSTING_MODELS /\
  at_key text_ok "provider" d /\ (model <> "on-premises" -> is_Some (dget "provider" d)).
Definition lifecycle_ok (v : value) : Prop := exists d,
  v = VDict d /\ d.*1 ⊆ ["records_categories"; "time_to_live_years"] /\
  at_key (fun v => exists l, v = VList l /\ l <> [] /\ Forall text_ok l) "records_categories" d /\
  at_key (fun v => ttl_ok v = true) "time_to_live_years" d.
Definition metadata_ok (v : value) : Prop := exists d,
  v = VDict d /\ d.*1 ⊆ ALLOWED_KEYS /\ Forall (fun k => at_key text_ok k d) STRING_KEYS /\
  at_key level_ok "fips199_categorization" d /\ at_key hosting_ok "hosting" d /\ at_key lifecycle_ok "data_lifecycle" d.

(** What the CBOM relies on. *)
Definition METADATA : jty := JOpt [
  ("fisma_system_id", JStr); ("hva_id", JStr); ("notes", JStr); ("fips199_categorization", JStr);
  ("hosting", JMaybe (JOpt [("model", JStr); ("provider", JStr)]));
  ("data_lifecycle", JMaybe (JOpt [("records_categories", JMaybe (JList JStr))]))].

Definition refused (e : exn) : Prop := is_class "InventoryMetadataError" e = true.

(** ** Texts *)

Lemma reverse_drop_head p (l : list ascii) :
  match l with [] => True | c :: _ => p c = false end ->
  match reverse (drop_while p (reverse l)) with [] => True | c :: _ => p c = false end.
Proof.
  intros Hl. destruct (drop_while_suffix p (reverse l)) as [k Hk]. apply (f_equal reverse) in Hk.
  rewrite reverse_involutive, reverse_app in Hk. destruct (reverse (drop_while p (reverse l))) as [|c r]; [done|].
  by rewrite Hk in Hl.
Qed.

Lemma strip_idem s : strip (strip s) = strip s.
Proof.
  transitivity (strip (str_of (chars (strip s)))); [by rewrite str_of_chars|].
  rewrite strip_framed; [by rewrite str_of_chars|apply strip_head|].
  unfold strip, strip_by, rstrip_by. rewrite chars_str_of, reverse_involutive. apply drop_while_head.
Qed.

Lemma require_str_safe v w : safe refused (fun s => text_ok (VStr s) /\ require_str (VStr s) w = Ok s) (require_str v w).
Proof.
  destruct v; try done. cbn. destruct (nonempty (strip s)) eqn:E; [|done]. cbn.
  rewrite strip_idem, E. split; [|done]. exists (strip s). rewrite strip_idem. split; [done|]. by apply nonempty_iff.
Qed.
Lemma require_str_ok v w : text_ok v <-> is_ok (require_str v w) = true.
Proof.
  split.
  - intros (s & -> & Hs). cbn. by apply nonempty_iff in Hs as ->.
  - destruct v; try done. cbn. destruct (nonempty (strip s)) eqn:E; [|done]. intros _. exists s. split; [done|]. by apply nonempty_iff.
Qed.

Lemma one_of_iff l v : one_of l v = true <-> exists s, v = VStr s /\ s ∈ l.
Proof.
  unfold one_of. rewrite existsb_exists. split.
  - intros (s & Hs & Hv). exists s. destruct v; try done. cbn in Hv. apply String.eqb_eq in Hv as ->. split; [done|]. by apply list_elem_of_In.
  - intros (s & -> & Hs). exists s. split; [by apply list_elem_of_In|]. cbn. apply String.eqb_refl.
Qed.

Lemma extra_nil allowed d : extra_keys allowed d = [] <-> d.*1 ⊆ allowed.
Proof.
  unfold extra_keys. rewrite sorted_set_nil. split.
  - intros H k Hk. destruct (decide (k ∈ allowed)) as [|Hn]; [done|].
    assert (k ∈ List.filter (fun k => negb (bool_decide (k ∈ allowed))) d.*1) as Hin.
    { apply list_elem_of_In, filter_In. split; [by apply list_elem_of_In|]. by rewrite bool_decide_eq_false_2. }
    rewrite H in Hin. by apply not_elem_of_nil in Hin.
  - intros H. destruct (List.filter _ _) as [|k l] eqn:E; [done|].
    assert (k ∈ k :: l) as Hk by left. rewrite <-E in Hk. apply list_elem_of_In, filter_In in Hk as [Hk Hn].
    apply list_elem_of_In, H in Hk. by rewrite bool_decide_eq_true_2 in Hn.
Qed.

(** ** The checks: errors, acceptance, fixed points *)

(** A check raises only its own error, accepts exactly [P], and what it
    returns passes it unchanged and has the shape [t]. *)
Record check_spec (t : jty) (P : value -> Prop) (check : value -> res value) : Prop := {
  cs_safe v : safe refused (fun x => check x = Ok x /\ has_type t x = true) (check v);
  cs_ok v : P v <-> is_ok (check v) = true }.

Definition text_check (key : string) (v : value) : res value := s ← require_str v key; Ok (VStr s).
Lemma text_check_spec key : check_spec JStr text_ok (text_check key).
Proof.
  split; intros v; unfold text_check.
  - pose proof (require_str_safe v key) as H. destruct (require_str v key) as [s|e]; [|done].
    destruct H as [_ H]. cbn [mbind res_bind safe]. by rewrite H.
  - rewrite (require_str_ok v key). by destruct (require_str v key).
Qed.

Lemma levels_fixed s : capitalize (strip s) ∈ FIPS199_LEVELS -> capitalize (strip (capitalize (strip s))) = capitalize (strip s).
Proof. generalize (capitalize (strip s)). intros l Hl. repeat (apply elem_of_cons in Hl as [->|Hl]; [reflexivity|]). by apply not_elem_of_nil in Hl. Qed.
Lemma level_spec : check_spec JStr level_ok validate_level.
Proof.
  split; intros v; unfold validate_level.
  - destruct (one_of FIPS199_LEVELS (level_of v)) eqn:E; [|done]. apply one_of_iff in E as (s & Hs & Hin). rewrite Hs. cbn [safe].
    destruct v; try done. injection Hs as <-. cbn [level_of]. rewrite levels_fixed by done.
    split; [|done]. by rewrite (proj2 (one_of_iff _ _)) by eauto.
  - destruct (one_of FIPS199_LEVELS (level_of v)) eqn:E.
    + split; [done|]. intros _. apply one_of_iff in E as (s & Hs & Hin). destruct v; try done. injection Hs as <-. by eexists.
    + split; [|done]. intros (s & -> & Hin). assert (one_of FIPS199_LEVELS (level_of (VStr s)) = true); [|congruence].
      apply one_of_iff. by eexists.
Qed.

Lemma provider_safe d model : model ∈ HOSTING_MODELS ->
  safe refused (fun p => exists o, p = match o with Some s => [("provider", VStr s)] | None => [] end /\
                     (forall m, provider (("model", m) :: p) model = Ok p)) (provider d model).
Proof.
  intros Hm. unfold provider. destruct (String.eqb model "on-premises").
  - destruct (dget "provider" d) as [p|]; [|by exists None].
    apply (safe_bind _ _ _ _ _ (require_str_safe p "hosting.provider")). intros s [_ Hs]. exists (Some s). split; [done|].
    intros m. change (dget "provider" (("model", m) :: [("provider", VStr s)])) with (Some (VStr s)). cbv iota beta. by rewrite Hs.
  - eapply safe_bind; [apply require_str_safe|]. intros s [_ Hs]. exists (Some s). split; [done|].
    intros m. change (dget "provider" (("model", m) :: [("provider", VStr s)])) with (Some (VStr s)). cbv [default from_option id]. by rewrite Hs.
Qed.
Lemma provider_ok d model :
  (at_key text_ok "provider" d /\ (model <> "on-premises" -> is_Some (dget "provider" d))) <-> is_ok (provider d model) = true.
Proof.
  unfold provider, at_key. destruct (String.eqb_spec model "on-premises") as [->|Hne].
  - destruct (dget "provider" d) as [p|]; [|naive_solver]. pose proof (require_str_ok p "hosting.provider").
    destruct (require_str p "hosting.provider"); naive_solver.
  - destruct (dget "provider" d) as [p|]; cbn [default].
    + pose proof (require_str_ok p ("hosting.provider (required for " +:+ model +:+ ")")).
      destruct (require_str _ _); naive_solver.
    + split; [|done]. intros [_ [x Hx]]; [done|]. discriminate Hx.
Qed.

Lemma hosting_spec : check_spec (JOpt [("model", JStr); ("provider", JStr)]) hosting_ok validate_hosting.
Proof.
  split; intros v.
  - destruct v as [| | | | | |d]; try done. unfold validate_hosting. cbv zeta. destruct (bool_decide _); [|done]. cbn [negb].
    destruct (one_of HOSTING_MODELS _) eqn:E; [|done]. cbn [negb]. apply one_of_iff in E as (m & Hm & Hin). rewrite Hm. cbn [py_str].
    eapply safe_bind; [by apply provider_safe|]. intros p (o & Hp & Hfix). split.
    + rewrite bool_decide_eq_true_2 by (apply extra_nil; subst p; destruct o; cbn; set_solver). cbn [negb].
      change (dget "model" (("model", VStr m) :: p)) with (Some (VStr m)). cbn [default].
      rewrite (proj2 (one_of_iff _ _)) by eauto. cbn [negb py_str]. by rewrite Hfix.
    + subst p. by destruct o.
  - split.
    + intros (d & m & -> & Hk & Hm & Hin & Hp). unfold validate_hosting. cbv zeta.
      rewrite (bool_decide_eq_true_2 _ (proj2 (extra_nil _ _) Hk)), Hm. cbn [negb default from_option id].
      rewrite (proj2 (one_of_iff _ _)) by eauto. cbn [negb py_str id]. apply provider_ok in Hp. revert Hp.
      by destruct (provider d m).
    + destruct v as [| | | | | |d]; try done. unfold validate_hosting. cbv zeta.
      destruct (bool_decide (extra_keys _ d = [])) eqn:Ek; [|done]. apply bool_decide_eq_true, extra_nil in Ek. cbn [negb].
      destruct (one_of HOSTING_MODELS _) eqn:E; [|done]. cbn [negb]. apply one_of_iff in E as (m & Hm & Hin). rewrite Hm. cbn [py_str].
      destruct (dget "model" d) as [x|] eqn:Ed; [|done]. cbn in Hm. subst x. intros Hok.
      assert (is_ok (provider d m) = true) as [? ?]%provider_ok by (revert Hok; by destruct (provider d m)).
      exists d, m. by split_and!.
Qed.

Lemma mapM_is_ok {A B} (f : A -> res B) l : is_ok (mapM f l) = true <-> Forall (fun x => is_ok (f x) = true) l.
Proof.
  induction l as [|x l IH]; [by split|]. rewrite Forall_cons, <-IH.
  change (mapM f (x :: l)) with (y ← f x; z ← mapM f l; mret (y :: z)).
  destruct (f x); [|by split; [|intros [? _]]]. by destruct (mapM f l); split; try done; intros [_ ?].
Qed.

Lemma categories_safe d : safe refused (fun c => exists o, c = match o with Some l => [("records_categories", VStrs l)] | None => [] end /\
  forall e, dget "records_categories" e = None -> categories (c ++ e) = Ok c) (categories d).
Proof.
  unfold categories. destruct (dget "records_categories" d) as [v|].
  - destruct v as [| | | | |l|]; try done. destruct l as [|c l]; [done|].
    assert (forall l, safe refused (fun ss => length ss = length l /\
      mapM (fun c => require_str c "data_lifecycle.records_categories[]") (VStr <$> ss) = Ok ss)
      (mapM (fun c => require_str c "data_lifecycle.records_categories[]") l)) as Hall.
    { clear. induction l as [|c l IH]; [done|].
      change (mapM ?f (c :: l)) with (y ← f c; z ← mapM f l; mret (y :: z)).
      eapply safe_bind; [apply require_str_safe|]. intros s [_ Hs]. eapply safe_bind; [exact IH|]. intros ss [Hl Hss]. split; [by cbn; rewrite Hl|].
      apply mapM_cons_ok. by exists s, ss. }
    eapply safe_bind; [apply Hall|]. intros ss [Hlen Hss]. destruct ss as [|s ss]; [done|]. exists (Some (s :: ss)). split; [done|].
    intros e _. change (dget "records_categories" ([("records_categories", VStrs (s :: ss))] ++ e)) with (Some (VList (VStr s :: (VStr <$> ss)))).
    cbv iota beta. change (VStr s :: (VStr <$> ss)) with (VStr <$> (s :: ss)). by rewrite Hss.
  - exists None. split; [done|]. intros e He. cbn [app]. by rewrite He.
Qed.
Lemma categories_ok d :
  at_key (fun v => exists l, v = VList l /\ l <> [] /\ Forall text_ok l) "records_categories" d <-> is_ok (categories d) = true.
Proof.
  unfold categories, at_key. destruct (dget "records_categories" d) as [v|]; [|naive_solver].
  assert (forall l, Forall text_ok l <-> is_ok (mapM (fun c => require_str c "data_lifecycle.records_categories[]") l) = true) as Hall.
  { intros l. rewrite mapM_is_ok. apply Forall_proper; [|done]. intros c. apply require_str_ok. }
  destruct v as [| | | | |l|]; try (split; [|done]; intros H; by destruct (H _ eq_refl) as (? & ? & _)).
  destruct l as [|c l]; [split; [|done]; intros H; by destruct (H _ eq_refl) as (? & [= <-] & ? & _)|].
  transitivity (Forall text_ok (c :: l)).
  - split; [intros H; by destruct (H _ eq_refl) as (? & [= <-] & _ & ?)|]. intros Hf v [= <-]. by eexists.
  - rewrite Hall. by destruct (mapM _ (c :: l)).
Qed.

Lemma lifecycle_spec : check_spec (JOpt [("records_categories", JMaybe (JList JStr))]) lifecycle_ok validate_lifecycle.
Proof.
  split; intros v.
  - destruct v as [| | | | | |d]; try done. unfold validate_lifecycle. cbv zeta. destruct (bool_decide _); [|done]. cbn [negb].
    eapply safe_bind; [apply categories_safe|]. intros c (o & Hc & Hfix).
    assert (safe refused (fun t => t = [] \/ exists v, t = [("time_to_live_years", v)] /\ ttl_ok v = true) (time_to_live d)) as Ht.
    { unfold time_to_live. destruct (dget _ d) as [v|]; [|by left]. destruct (ttl_ok v) eqn:E; [|done]. right. eauto. }
    eapply safe_bind; [exact Ht|]. intros t Htl. split.
    + rewrite bool_decide_eq_true_2; [|apply extra_nil; subst c; destruct o, Htl as [->|(? & -> & _)]; cbn; set_solver]. cbn [negb].
      rewrite Hfix by (destruct Htl as [->|(? & -> & _)]; done). cbn [mbind res_bind].
      assert (time_to_live (c ++ t) = Ok t) as ->; [|done].
      unfold time_to_live. assert (dget "time_to_live_years" c = None) as Hn by (subst c; by destruct o).
      rewrite dget_app, Hn. destruct Htl as [->|(x & -> & Hx)]; [done|].
      change (dget "time_to_live_years" [("time_to_live_years", x)]) with (Some x). cbv iota beta. by rewrite Hx.
    + subst c. destruct o as [l|]; [|by destruct Htl as [->|(? & -> & _)]].
      apply has_type_opt. constructor; [|constructor].
      intros x [= <-]. exact (has_type_strs l).
  - assert (forall d, at_key (fun v => ttl_ok v = true) "time_to_live_years" d <-> is_ok (time_to_live d) = true) as Ht.
    { intros d. unfold at_key, time_to_live. destruct (dget _ d) as [x|]; [|naive_solver]. destruct (ttl_ok x) eqn:E; naive_solver. }
    split.
    + intros (d & -> & Hk & Hc & Hl). unfold validate_lifecycle. cbv zeta.
      rewrite (bool_decide_eq_true_2 _ (proj2 (extra_nil _ _) Hk)). cbn [negb].
      apply categories_ok in Hc. apply Ht in Hl. revert Hc Hl. destruct (categories d); [|done]. by destruct (time_to_live d).
    + destruct v as [| | | | | |d]; try done. unfold validate_lifecycle. cbv zeta.
      destruct (bool_decide (extra_keys _ d = [])) eqn:Ek; [|done]. apply bool_decide_eq_true, extra_nil in Ek. cbn [negb].
      intros H. exists d. rewrite categories_ok, Ht. revert H. destruct (categories d); [|done]. by destruct (time_to_live d).
Qed.

(** ** The document *)

Definition check_of (key : string) : value -> res value :=
  if String.eqb key "fips199_categorization" then validate_level
  else if String.eqb key "hosting" then validate_hosting
  else if String.eqb key "data_lifecycle" then validate_lifecycle
  else text_check key.
Definition steps : list string := STRING_KEYS ++ ["fips199_categorization"; "hosting"; "data_lifecycle"].
Definition run (d out : list (string * value)) (keys : list string) : res (list (string * value)) :=
  foldM (fun out k => entry d k (check_of k) out) out keys.

Lemma validate_run d : validate (VDict d) =
  if negb (bool_decide (extra_keys ALLOWED_KEYS d = [])) then validate (VDict d) else out ← run d [] steps; Ok (in_order out).
Proof.
  unfold validate. cbv zeta. destruct (bool_decide _); [|done]. cbn [negb]. unfold run, steps. rewrite foldM_app.
  change (foldM (text_entry d) [] STRING_KEYS) with (foldM (fun out k => entry d k (check_of k) out) [] STRING_KEYS).
  destruct (foldM _ [] STRING_KEYS) as [out|]; [|done]. cbn [mbind res_bind foldM].
  change (check_of "fips199_categorization") with validate_level. destruct (entry d "fips199_categorization" _ out) as [out1|]; [|done].
  cbn [mbind res_bind]. change (check_of "hosting") with validate_hosting. destruct (entry d "hosting" _ out1) as [out2|]; [|done].
  cbn [mbind res_bind]. change (check_of "data_lifecycle") with validate_lifecycle. by destruct (entry d "data_lifecycle" _ out2).
Qed.

(** What a checked key holds after the run. *)
Definition checked (d : list (string * value)) (k : string) (x : option value) : Prop :=
  match dget k d with Some v => exists y, check_of k v = Ok y /\ x = Some y | None => x = None end.

Lemma run_safe d keys out : NoDup keys -> (forall k, k ∈ keys -> dget k out = None) ->
  safe refused (fun out' => (forall k, k ∈ keys -> checked d k (dget k out')) /\ (forall k, k ∉ keys -> dget k out' = dget k out))
    (run d out keys).
Proof.
  assert (forall k v, safe refused (fun _ => True) (check_of k v)) as Hsafe.
  { intros k v. unfold check_of. repeat case_match.
    - eapply safe_mono; [apply level_spec|done|done].
    - eapply safe_mono; [apply hosting_spec|done|done].
    - eapply safe_mono; [apply lifecycle_spec|done|done].
    - eapply safe_mono; [apply text_check_spec|done|done]. }
  revert out. induction keys as [|k keys IH]; intros out Hn Hout; [by split; [intros k ?%not_elem_of_nil|]|].
  apply NoDup_cons in Hn as [Hk Hn]. unfold run. cbn [foldM].
  apply (safe_bind _ (fun o => (forall k', k' <> k -> dget k' o = dget k' out) /\ checked d k (dget k o))).
  - unfold entry, checked. destruct (dget k d) as [v|]; [|split; [done|]; apply Hout; left].
    specialize (Hsafe k v). destruct (check_of k v) as [x|]; [|done]. cbn [mbind res_bind safe]. split.
    + intros k' Hne. by apply dget_dset_ne.
    + exists x. split; [done|]. apply dget_dset_eq.
  - intros o [Ho Hc]. eapply safe_mono; [apply (IH o Hn)| |done].
    + intros k' Hk'. rewrite Ho by (intros ->; done). apply Hout. by right.
    + intros o' [H1 H2]. split.
      * intros k' [->|Hk']%elem_of_cons; [by rewrite H2|by apply H1].
      * intros k' Hk'. apply not_elem_of_cons in Hk' as [Hne Hk']. by rewrite H2, Ho.
Qed.

Lemma dget_in_order k out : k ∈ ORDER -> dget k (in_order out) = dget k out.
Proof.
  intros Hk. unfold in_order. assert (NoDup ORDER) as Hn by (apply (bool_decide_unpack _); vm_compute; done).
  revert Hk Hn. generalize ORDER. intros l. induction l as [|k' l IH]; [by intros ?%not_elem_of_nil|].
  intros Hk [Hk' Hn]%NoDup_cons. cbn [omap list_omap].
  assert (forall l, k ∉ l -> dget k (omap (fun k => (fun v => (k, v)) <$> dget k out) l) = None) as Hnone.
  { clear. induction l as [|a l IH]; [done|]. intros [Hne Hl]%not_elem_of_cons. cbn [omap list_omap]. 
    destruct (dget a out); cbn [fmap option_fmap option_map dget]; [rewrite decide_False by congruence|]; by apply IH. }
  apply elem_of_cons in Hk as [->|Hk].
  - destruct (dget k' out) eqn:E; cbn [fmap option_fmap option_map dget]; [by rewrite decide_True|]. by apply Hnone.
  - destruct (dget k' out) eqn:E; cbn [fmap option_fmap option_map dget]; [rewrite decide_False by (intros ->; done)|]; by apply IH.
Qed.
Lemma in_order_keys out : (in_order out).*1 ⊆ ORDER.
Proof.
  unfold in_order. generalize ORDER. intros l k Hk. apply list_elem_of_fmap in Hk as ([k' v] & -> & Hv).
  apply list_elem_of_omap in Hv as (k2 & Hk2 & E). destruct (dget k2 out); [|done]. by injection E as -> ->.
Qed.
Lemma in_order_ext out out' : (forall k, k ∈ ORDER -> dget k out = dget k out') -> in_order out = in_order out'.
Proof.
  unfold in_order. generalize ORDER. intros l. induction l as [|k l IH]; [done|]. intros H. cbn [omap list_omap].
  rewrite (H k) by left. destruct (dget k out'); cbn [fmap option_fmap option_map]; rewrite (IH (fun k Hk => H k (list_elem_of_further _ _ _ Hk))); done.
Qed.

Definition accepts (k : string) (v : value) : Prop := is_ok (check_of k v) = true.
Lemma run_ok d out keys : is_ok (run d out keys) = true <-> Forall (fun k => at_key (accepts k) k d) keys.
Proof.
  revert out. induction keys as [|k keys IH]; intros out; [by split|]. rewrite Forall_cons. unfold run. cbn [foldM].
  assert (at_key (accepts k) k d <-> is_ok (entry d k (check_of k) out) = true) as ->.
  { unfold at_key, accepts, entry. destruct (dget k d) as [v|]; [|naive_solver]. destruct (check_of k v) eqn:E; split; try done; [intros _ w [= <-]; by rewrite E|].
    intros H. specialize (H _ eq_refl). by rewrite E in H. }
  destruct (entry d k (check_of k) out) as [o|]; [|by split; [|intros [? _]]]. rewrite <-(IH o). by split; [|intros [_ ?]].
Qed.

Definition type_of (k : string) : jty :=
  if String.eqb k "hosting" then JOpt [("model", JStr); ("provider", JStr)]
  else if String.eqb k "data_lifecycle" then JOpt [("records_categories", JMaybe (JList JStr))]
  else JStr.
Definition cond_of (k : string) : value -> Prop :=
  if String.eqb k "fips199_categorization" then level_ok
  else if String.eqb k "hosting" then hosting_ok
  else if String.eqb k "data_lifecycle" then lifecycle_ok
  else text_ok.
Lemma check_of_spec k : check_spec (type_of k) (cond_of k) (check_of k).
Proof.
  unfold type_of, cond_of, check_of. destruct (String.eqb_spec k "fips199_categorization") as [->|]; [apply level_spec|].
  destruct (String.eqb k "hosting"); [apply hosting_spec|]. destruct (String.eqb k "data_lifecycle"); [apply lifecycle_spec|]. apply text_check_spec.
Qed.

Lemma metadata_iff d : metadata_ok (VDict d) <-> d.*1 ⊆ ALLOWED_KEYS /\ Forall (fun k => at_key (accepts k) k d) steps.
Proof.
  assert (forall k, at_key (accepts k) k d <-> at_key (cond_of k) k d) as Hk.
  { intros k. unfold at_key, accepts. split; intros H v Hv; apply (cs_ok _ _ _ (check_of_spec k)); by apply H. }
  assert (Forall (fun k => at_key (accepts k) k d) steps <-> Forall (fun k => at_key (cond_of k) k d) steps) as -> by by apply Forall_proper.
  unfold metadata_ok, steps. rewrite Forall_app, !Forall_cons.
  change (cond_of "fips199_categorization") with level_ok. change (cond_of "hosting") with hosting_ok. change (cond_of "data_lifecycle") with lifecycle_ok.
  change (Forall (fun k => at_key (cond_of k) k d) STRING_KEYS) with (Forall (fun k => at_key (cond_of k) k d) ["fisma_system_id"; "hva_id"; "notes"]).
  rewrite !Forall_cons. change (cond_of "fisma_system_id") with text_ok. change (cond_of "hva_id") with text_ok. change (cond_of "notes") with text_ok.
  split.
  - intros (d' & [= <-] & Hk' & Hs & Hl & Hh & Hc). unfold STRING_KEYS in Hs. rewrite !Forall_cons in Hs. destruct Hs as (? & ? & ? & _). by split_and!.
  - intros (Hk' & (? & ? & ? & _) & Hl & Hh & Hc & _). exists d. split_and!; try done. by repeat constructor.
Qed.

Lemma order_steps k : k ∈ ORDER <-> k ∈ steps.
Proof.
  assert (forallb (fun k => bool_decide (k ∈ steps)) ORDER = true /\ forallb (fun k => bool_decide (k ∈ ORDER)) steps = true) as [H1 H2] by (by vm_compute).
  rewrite !forallb_forall in H1, H2. setoid_rewrite <-list_elem_of_In in H1. setoid_rewrite <-list_elem_of_In in H2.
  split; intros H; [eapply bool_decide_eq_true, H1 | eapply bool_decide_eq_true, H2]; done.
Qed.
Lemma order_allowed : ORDER ⊆ ALLOWED_KEYS.
Proof.
  assert (forallb (fun k => bool_decide (k ∈ ALLOWED_KEYS)) ORDER = true) as H by (by vm_compute).
  rewrite forallb_forall in H. setoid_rewrite <-list_elem_of_In in H. intros k Hk. by eapply bool_decide_eq_true, H.
Qed.

(** What [validate] returns, key by key. *)
Lemma validate_checked v : safe refused (fun m => exists d, v = VDict d /\ m.*1 ⊆ ORDER /\ forall k, k ∈ ORDER -> checked d k (dget k m)) (validate v).
Proof.
  destruct v as [| | | | | |d]; try done. rewrite validate_run. unfold validate. cbv zeta. destruct (bool_decide _); [|done]. cbn [negb].
  eapply safe_bind; [apply run_safe; [apply (bool_decide_unpack _); by vm_compute|done]|]. intros out [Hc _]. exists d. split_and!; [done|apply in_order_keys|].
  intros k Hk. rewrite dget_in_order by done. apply Hc. by apply order_steps.
Qed.

Lemma validate_fixed d m : m.*1 ⊆ ORDER -> (forall k, k ∈ ORDER -> checked d k (dget k m)) -> m = in_order m -> validate (VDict m) = Ok m.
Proof.
  intros Hm Hc Ho. rewrite validate_run. rewrite bool_decide_eq_true_2; [|apply extra_nil; intros k Hk; by apply order_allowed, Hm]. cbn [negb].
  assert (forall k, k ∈ steps -> checked m k (dget k m)) as Hcm.
  { intros k Hk%order_steps. specialize (Hc k Hk). unfold checked in *. destruct (dget k d) as [v|]; [|by rewrite Hc].
    destruct Hc as (x & Hx & ->). exists x. pose proof (cs_safe _ _ _ (check_of_spec k) v) as Hs. rewrite Hx in Hs. by destruct Hs. }
  pose proof (run_safe m steps [] ltac:(apply (bool_decide_unpack _); by vm_compute) (fun _ _ => eq_refl)) as Hr.
  assert (is_ok (run m [] steps) = true) as Hok.
  { apply run_ok, Forall_forall. intros k Hk x Hx. specialize (Hcm k Hk). unfold checked in Hcm. rewrite Hx in Hcm.
    destruct Hcm as (y & Hy & _). unfold accepts. by rewrite Hy. }
  destruct (run m [] steps) as [out|]; [|done]. destruct Hr as [Hr _]. cbn [mbind res_bind]. f_equal. rewrite Ho. apply in_order_ext.
  intros k Hk%order_steps. specialize (Hr k Hk). specialize (Hcm k Hk). unfold checked in Hr, Hcm. destruct (dget k m) as [v|]; [|done].
  destruct Hr as (x & Hx & ->). destruct Hcm as (y & Hy & [= ->]). congruence.
Qed.

Lemma typed_metadata d m : (forall k, k ∈ ORDER -> checked d k (dget k m)) -> has_type METADATA (VDict m) = true.
Proof.
  intros Hc. assert (forall k, k ∈ ORDER -> forall x, dget k m = Some x -> has_type (type_of k) x = true) as Ht.
  { intros k Hk x Hx. specialize (Hc k Hk). unfold checked in Hc. rewrite Hx in Hc. destruct (dget k d) as [v|]; [|done].
    destruct Hc as (y & Hy & [= <-]). pose proof (cs_safe _ _ _ (check_of_spec k) v) as Hs. rewrite Hy in Hs. by destruct Hs. }
  apply has_type_opt. repeat constructor; intros x Hx; cbn [fst snd] in *.
  - apply (Ht "fisma_system_id"); [set_solver|done].
  - apply (Ht "hva_id"); [set_solver|done].
  - apply (Ht "notes"); [set_solver|done].
  - apply (Ht "fips199_categorization"); [set_solver|done].
  - unfold JMaybe. cbn [has_type]. apply orb_true_iff. right. apply (Ht "hosting"); [set_solver|done].
  - unfold JMaybe. cbn [has_type]. apply orb_true_iff. right. apply (Ht "data_lifecycle"); [set_solver|done].
Qed.

(** ** The CBOM of accepted metadata *)

Definition texts_only (ps : props) : Prop := Forall (fun p => is_str p.2 = true) ps.
Lemma given_shown d keys : exists ps, given (VDict d) keys shown = Ok ps /\ texts_only ps.
Proof.
  eexists. split; [reflexivity|]. apply Forall_forall. intros p Hp. apply list_elem_of_omap in Hp as ([k n] & _ & E).
  cbn [fst snd] in E. destruct (dget k d) as [v|]; [|done]. by injection E as <-.
Qed.
Lemma given_texts fields d keys : has_type (JOpt fields) (VDict d) = true -> Forall (fun kn => (kn.1, JStr) ∈ fields) keys ->
  exists ps, given (VDict d) keys id = Ok ps /\ texts_only ps.
Proof.
  intros Ht Hk. eexists. split; [reflexivity|]. apply Forall_forall. intros p Hp. apply list_elem_of_omap in Hp as ([k n] & Hin & E).
  cbn [fst snd] in E. destruct (dget k d) as [v|] eqn:Ed; [|done]. injection E as <-. cbn [snd id].
  rewrite has_type_opt, Forall_forall in Ht. rewrite Forall_forall in Hk. by apply (Ht _ (Hk _ Hin) v).
Qed.

Ltac field_in := first [apply list_elem_of_here | apply list_elem_of_further; field_in].
Lemma renders m : has_type METADATA (VDict m) = true -> exists ps, inventory_host_props (VDict m) = Ok ps /\ texts_only ps.
Proof.
  unfold METADATA. intros Ht. unfold inventory_host_props. destruct (truthy (VDict m)); [|exists []; by split; [|apply Forall_nil_2]]. cbn [negb].
  destruct (given_shown m [("fisma_system_id", "inventory:fisma_system_id");
    ("fips199_categorization", "inventory:fips199_categorization"); ("hva_id", "inventory:hva_id")]) as (ids & -> & Hids). cbn [mbind res_bind].
  destruct (get_d_opt _ _ "hosting" [("model", JStr); ("provider", JStr)] Ht ltac:(field_in)) as (hosting & -> & Hh). cbn [mbind res_bind].
  destruct (has_type_dict _ _ Hh) as [hd ->].
  destruct (given_texts _ hd [("model", "inventory:hosting:model"); ("provider", "inventory:hosting:provider")] Hh) as (host & -> & Hhost); [repeat apply Forall_cons_2; [..|by apply Forall_nil_2]; cbn; field_in|]. cbn [mbind res_bind].
  destruct (get_d_opt _ _ "data_lifecycle" [("records_categories", JMaybe (JList JStr))] Ht ltac:(field_in)) as (life & -> & Hl). cbn [mbind res_bind].
  destruct (get_l_opt _ _ "records_categories" JStr Hl ltac:(field_in)) as (cats & -> & Hcats). cbn [mbind res_bind].
  destruct (has_type_dict _ _ Hl) as [ld ->]. destruct (given_shown ld [("time_to_live_years", "inventory:data_lifecycle:time_to_live_years")]) as (ttl & -> & Httl). cbn [mbind res_bind].
  destruct (given_texts _ m [("notes", "inventory:notes")] Ht) as (notes & -> & Hnotes); [repeat apply Forall_cons_2; [..|by apply Forall_nil_2]; cbn; field_in|]. cbn [mbind res_bind].
  eexists. split; [reflexivity|]. unfold texts_only. rewrite !Forall_app. split_and!; try done.
  apply Forall_fmap, Forall_forall. intros c Hc. apply typed_strs in Hcats as [ss ->]. by apply list_elem_of_fmap in Hc as (s & -> & _).
Qed.


(** A lifetime that is not a number passes the check for negative ones. *)
Example nan_lifetime : validate (VDict [("data_lifecycle", VDict [("time_to_live_years", VFloat SpecFloat.S754_nan)])]) =
  Ok [("data_lifecycle", VDict [("time_to_live_years", VFloat SpecFloat.S754_nan)])].
Proof. reflexivity. Qed.
Example sample_metadata : validate (VDict [("notes", VStr " free text "); ("fips199_categorization", VStr "MODERATE");
    ("hosting", VDict [("model", VStr "hybrid"); ("provider", VStr "Example Cloud")])]) =
  Ok [("fips199_categorization", VStr "Moderate"); ("hosting", VDict [("model", VStr "hybrid"); ("provider", VStr "Example Cloud")]); ("notes", VStr "free text")].
Proof. vm_compute. reflexivity. Qed.
