(* ===== verification/Libraries.v ===== *)
(** * Crypto libraries: the catalogue ([detect/protocols_libraries.py])

    What the probe looks for in each library: its files, packages, version
    strings, the names it embeds for the algorithms it implements, and the
    upstream versions that introduced them.  Library files are byte strings;
    a character of a [string] is one byte. *)

From S2P Require Import Prelude PyStr PyRe Classify PyDict PyVal PyPath HostPath Gap SarifRules Packages.
Open Scope Z_scope.
Record spec := Spec {
  s_files : list string; s_identify : option (re * list string);
  s_packages : list (string * list string); s_debian : re; s_probe : re;
  s_version : option re; s_filename : option re;
  s_markers : list (string * list (string * string));
  s_thresholds : list (string * (list Z * string));
  s_caveats : list (string * string); s_notes : list string;
  s_build_dependent : bool; s_reference : string }.

Definition MAX_LIBRARY_BYTES : Z := 64 * 1024 * 1024.
Definition LIB_DIRS : list string := [
  "/usr/lib64"; "/usr/lib"; "/lib64"; "/lib"; "/usr/lib/x86_64-linux-gnu"; "/usr/lib/aarch64-linux-gnu"; "/usr/lib/s390x-linux-gnu";
  "/usr/lib/powerpc64le-linux-gnu"; "/lib/x86_64-linux-gnu"; "/lib/aarch64-linux-gnu"].

(** [(\d+\.\d+\.\d+)]. *)
Definition V3 : re := RGrp 1 (RSeqs [Digits; RLit "."; Digits; RLit "."; Digits]).
(** [^name(t64)?$]. *)
Definition t64 (name : re) : re := RSeqs [Bos; name; ROpt (RLit "t64"); Eos].

Definition ML_DSA_NAMES : list (string * string) := [("ML-DSA-44", "ML-DSA-44"); ("ML-DSA-65", "ML-DSA-65"); ("ML-DSA-87", "ML-DSA-87")].
Definition TLS_HYBRID_NAMES : list (string * string) := [
  ("X25519MLKEM768", "X25519MLKEM768"); ("SecP256r1MLKEM768", "SecP256r1MLKEM768"); ("SecP384r1MLKEM1024", "SecP384r1MLKEM1024")].

Definition GNUTLS : spec := {|
  s_files := ["libgnutls.so.30*"]; s_identify := None;
  s_packages := [("rhel", ["gnutls"]); ("suse", ["libgnutls30"]); ("arch", ["gnutls"]); ("alpine", ["gnutls"])];
  s_debian := t64 (RLit "libgnutls30");
  s_probe := RSeqs [Bos; ROpt (RLit "lib"); RLit "gnutls"; ROpt (RLit "30"); Eos];
  s_version := Some (RSeqs [RLit "GnuTLS "; V3]); s_filename := None;
  s_markers := [
    ("tls_hybrid_groups", [("X25519MLKEM768", "X25519-MLKEM768"); ("SecP256r1MLKEM768", "SECP256R1-MLKEM768"); ("SecP384r1MLKEM1024", "SECP384R1-MLKEM1024")]);
    ("kem", [("ML-KEM-768", "ML-KEM-768"); ("ML-KEM-1024", "ML-KEM-1024")]);
    ("signatures", ML_DSA_NAMES)];
  s_thresholds := [
    ("tls_hybrid_mlkem768", ([3; 8; 8], "experimental; needs a PQC backend at build time"));
    ("tls_hybrid_mlkem1024", ([3; 8; 9], "needs a PQC backend at build time"));
    ("ml_dsa", ([3; 8; 9], "needs a PQC backend at build time"));
    ("ml_dsa_tls", ([3; 8; 10], "ML-DSA TLS signatures"))];
  s_caveats := []; s_notes := []; s_build_dependent := true;
  s_reference := "https://gitlab.com/gnutls/gnutls/-/blob/master/NEWS" |}.

Definition LIBGCRYPT : spec := {|
  s_files := ["libgcrypt.so.20*"]; s_identify := None;
  s_packages := [("rhel", ["libgcrypt"]); ("suse", ["libgcrypt20"]); ("arch", ["libgcrypt"]); ("alpine", ["libgcrypt"])];
  s_debian := RSeqs [Bos; RLit "libgcrypt20"; Eos];
  s_probe := RSeqs [Bos; RLit "libgcrypt"; ROpt (RLit "20"); Eos];
  s_version := Some (RSeqs [RLit "Libgcrypt "; V3]); s_filename := None;
  s_markers := [
    ("kem", [("ML-KEM-512", "kyber512"); ("ML-KEM-768", "kyber768"); ("ML-KEM-1024", "kyber1024"); ("sntrup761", "sntrup761")]);
    ("signatures", [("ML-DSA-44", "dilithium2"); ("ML-DSA-65", "dilithium3"); ("ML-DSA-87", "dilithium5")])];
  s_thresholds := [
    ("ml_kem_draft", ([1; 11; 0], "FIPS 203 initial public draft")); ("ml_kem", ([1; 11; 1], "final FIPS 203")); ("ml_dsa", ([1; 12; 0], "ML-DSA"))];
  s_caveats := [("ml_kem", "Upstream libgcrypt before 1.11.1 implements Kyber as in the FIPS 203 initial public draft, which does not interoperate with final ML-KEM; a distribution build may carry the final-standard patch.")];
  s_notes := []; s_build_dependent := false;
  s_reference := "https://github.com/gpg/libgcrypt/blob/master/NEWS" |}.

Definition LIBSSH : spec := {|
  s_files := ["libssh.so.4*"; "libssh-gcrypt.so.4*"]; s_identify := None;
  s_packages := [("rhel", ["libssh"]); ("suse", ["libssh4"]); ("arch", ["libssh"]); ("alpine", ["libssh"])];
  s_debian := t64 (RSeqs [RLit "libssh-"; ROpt (RLit "gcrypt-"); RLit "4"]);
  s_probe := RSeqs [Bos; RLit "libssh"; ROpt (RLit "4"); Eos];
  s_version := Some (RSeqs [RLit "SSH-2.0-libssh_"; V3]); s_filename := None;
  s_markers := [
    ("ssh_kex", [("mlkem768x25519-sha256", "mlkem768x25519-sha256"); ("mlkem768nistp256-sha256", "mlkem768nistp256-sha256");
                 ("mlkem1024nistp384-sha384", "mlkem1024nistp384-sha384"); ("sntrup761x25519-sha512", "sntrup761x25519-sha512")])];
  s_thresholds := [("ssh_pqc_kex", ([0; 12; 0], "hybrid ML-KEM / sntrup761 key exchange"))];
  s_caveats := []; s_notes := []; s_build_dependent := false;
  s_reference := "https://gitlab.com/libssh/libssh-mirror/-/blob/master/CHANGELOG" |}.

Definition WOLFSSL : spec := {|
  s_files := ["libwolfssl.so*"]; s_identify := None;
  s_packages := [("rhel", ["wolfssl"]); ("suse", ["wolfssl"]); ("arch", ["wolfssl"]); ("alpine", ["wolfssl"])];
  s_debian := t64 (RSeqs [RLit "libwolfssl"; Digits]);
  s_probe := RSeqs [Bos; ROpt (RLit "lib"); RLit "wolfssl"];
  s_version := None; s_filename := None;
  s_markers := [("tls_hybrid_groups", TLS_HYBRID_NAMES); ("kem", [("ML-KEM", "ML-KEM")]); ("signatures", [("ML-DSA", "ML-DSA")])];
  s_thresholds := [
    ("ml_kem_final", ([5; 7; 4], "final FIPS 203 / 204; build option before 5.9.1")); ("ml_kem_default", ([5; 9; 1], "ML-KEM on by default"))];
  s_caveats := [("ml_kem_final", "wolfSSL before 5.7.4 implements pre-final Kyber / Dilithium, which do not interoperate with final ML-KEM / ML-DSA.")];
  s_notes := []; s_build_dependent := true;
  s_reference := "https://github.com/wolfSSL/wolfssl/blob/master/ChangeLog.md" |}.

Definition AWS_LC : spec := {|
  s_files := []; s_identify := Some (RSeqs [RLit "AWS-LC "; V3], ["libcrypto.so*"; "libcrypto-awslc*.so*"]);
  s_packages := [("alpine", ["aws-lc"])];
  s_debian := RSeqs [Bos; RLit "libaws-lc"];
  s_probe := RSeqs [Bos; ROpt (RLit "lib"); RLit "aws-lc"];
  s_version := Some (RSeqs [RLit "AWS-LC "; V3]); s_filename := None;
  s_markers := [
    ("tls_hybrid_groups", TLS_HYBRID_NAMES);
    ("kem", [("ML-KEM-512", "ML-KEM-512"); ("ML-KEM-768", "ML-KEM-768"); ("ML-KEM-1024", "ML-KEM-1024")]);
    ("signatures", ML_DSA_NAMES)];
  s_thresholds := [
    ("ml_kem", ([1; 35; 0], "final FIPS 203")); ("tls_hybrid_mlkem768", ([1; 35; 1], "X25519MLKEM768 / SecP256r1MLKEM768"));
    ("ml_dsa", ([1; 41; 0], "ML-DSA-44/65/87")); ("tls_hybrid_mlkem1024", ([1; 50; 0], "SecP384r1MLKEM1024"))];
  s_caveats := []; s_notes := []; s_build_dependent := false;
  s_reference := "https://github.com/aws/aws-lc/releases" |}.

Definition MBEDTLS : spec := {|
  s_files := ["libmbedtls.so*"; "libmbedcrypto.so*"; "libtfpsacrypto.so*"]; s_identify := None;
  s_packages := [("rhel", ["mbedtls"]); ("arch", ["mbedtls"]); ("alpine", ["mbedtls"])];
  s_debian := t64 (RSeqs [RLit "libmbedtls"; Digits]);
  s_probe := RSeqs [Bos; RAlts [RSeqs [RLit "libmbedtls"; RStar true Digit]; RLit "mbedtls"]; Eos];
  s_version := Some (RSeqs [Set_ "Mm"; RLit "bed TLS "; V3]);
  s_filename := Some (RSeqs [Bos; RLit "libmbed"; RAlts [RLit "tls"; RLit "crypto"; RLit "x509"]; RLit ".so."; V3; Eos]);
  s_markers := [("tls_hybrid_groups", TLS_HYBRID_NAMES)];
  s_thresholds := []; s_caveats := [];
  s_notes := ["No released Mbed TLS (through 4.2.0) or TF-PSA-Crypto (through 1.2.0) offers ML-KEM or ML-DSA to applications or ML-KEM groups in TLS; only LMS signature verification. An experimental driver-level ML-DSA-87 in TF-PSA-Crypto development is not exposed to applications."];
  s_build_dependent := false;
  s_reference := "https://github.com/Mbed-TLS/mbedtls/releases https://github.com/Mbed-TLS/TF-PSA-Crypto/releases" |}.

Definition LIBRARY_SPECS : list (string * spec) := [
  ("gnutls", GNUTLS); ("libgcrypt", LIBGCRYPT); ("libssh", LIBSSH); ("wolfssl", WOLFSSL); ("aws-lc", AWS_LC); ("mbedtls", MBEDTLS)].

Definition JDK_REFERENCES : list string := ["https://openjdk.org/jeps/496"; "https://openjdk.org/jeps/497"; "https://openjdk.org/jeps/527"].
Definition GO_REFERENCE : string := "https://go.dev/doc/go1.24".
Definition JDK_TLS_HYBRID_MAJOR : Z := 27.
Definition JVM_DIRS : list string := ["/usr/lib/jvm"; "/usr/lib64/jvm"; "/usr/java"; "/opt/java"].
Definition GO_ROOTS : list string := [
  "/usr/lib/golang"; "/usr/lib/go"; "/usr/local/go"; "/usr/lib/go-*"; "/usr/lib64/go/*"; "/usr/share/go-*"].

(** * Crypto libraries: the probe ([detect/protocols_libraries.py])

    Finding the library files under a prefix, the versions of their packages
    on every family, the names the files embed, and the report per library,
    per JDK and per Go toolchain.  The file system, the package databases
    and the platform are queries on the host. *)
(** The queries: [Path(base).glob(pattern)], [glob.glob], [Path.resolve],
    size and content of a file, [read_text(errors="replace")] ([None] for an
    [OSError]), and the entries of a directory as paths. *)
Record lib_host := LibHost {
  lh_pkg : pkg_host; lh_platform : string;
  lh_glob : string -> string -> list string; lh_globs : string -> list string;
  lh_resolve : string -> res string; lh_size : string -> res Z; lh_bytes : string -> res string;
  lh_text : string -> option string; lh_iterdir : string -> list string;
  lh_note : option (list (string * value)) }.

Section Libraries.
Context (lh : lib_host) (cached : bool).
Let h := lh_pkg lh.
Let pre : string := host_prefix (ph_prefix h).

Definition lib_path (p : string) : string :=
  if negb (nonempty pre) then py_path p
  else py_path (pre +:+ default p (resolve_in_root (ph_fs h) pre p)).
Definition unhost (s : string) : string := if nonempty pre && starts_with pre s then remove_prefix pre s else s.

Definition add_hit (out : list string) (hit : string) : res (list string) :=
  real ← (if nonempty pre then Ok (Some (lib_path (unhost hit)))
          else catch (is_class "OSError") (r ← lh_resolve lh hit; Ok (Some r)) (fun _ => Ok None));
  match real with
  | None => Ok out
  | Some real => if negb (ph_is_file h real) || bool_decide (real ∈ out) then Ok out else Ok (out ++ [real])
  end.
Definition add_pattern (base : string) (out : list string) (pat : string) : res (list string) :=
  foldM add_hit out (py_sorted str_lt (lh_glob lh base pat)).
Definition add_dir (patterns : list string) (out : list string) (d : string) : res (list string) :=
  let base := lib_path d in
  if ph_is_dir h base then foldM (add_pattern base) out patterns else Ok out.
Definition find_files (patterns : list string) : res (list string) := foldM (add_dir patterns) [] LIB_DIRS.

Definition read_library (path : string) : res (option string) :=
  catch (is_class "OSError")
    (size ← lh_size lh path;
     if MAX_LIBRARY_BYTES <? size then Ok None else blob ← lh_bytes lh path; Ok (Some blob))
    (fun _ => Ok None).

(** ** Package versions *)

Definition paragraphs (text : string) : list string := split (newline +:+ newline) text.
Definition named (name version : string) : package := [("name", VStr name); ("version", VStr version)].

Definition status_line (fields : list (string * string)) (line : string) : list (string * string) :=
  match cut ":" line with
  | Some (k, v) => if starts_with " " line then fields else dset (strip k) (strip v) fields
  | None => fields
  end.
Definition dpkg_row (rx : re) (stanza : string) : option package :=
  let fields := foldl status_line [] (splitlines stanza) in
  let name := field "Package" fields in
  if test_search rx name && bool_decide ("installed" ∈ words (field "Status" fields))
  then Some (named name (field "Version" fields)) else None.
Definition dpkg_versions (rx : re) : list package :=
  match lh_text lh (lib_path "/var/lib/dpkg/status") with
  | None => []
  | Some text => omap (dpkg_row rx) (paragraphs text)
  end.

(** [dict((line[0], line[2:]) for line in ... if len(line) > 2 and line[1] == ":")]. *)
Definition apk_field (fields : list (ascii * string)) (line : string) : list (ascii * string) :=
  match chars line with
  | c :: d :: e :: l => if Ascii.eqb d ":" then dset c (str_of (e :: l)) fields else fields
  | _ => fields
  end.
Definition apk_row (names : list string) (stanza : string) : option package :=
  let fields := foldl apk_field [] (splitlines stanza) in
  p ← dget "P"%char fields;
  if bool_decide (p ∈ names) then Some (named p (default EmptyString (dget "V"%char fields))) else None.
Definition apk_versions (names : list string) : list package :=
  match lh_text lh (lib_path "/lib/apk/db/installed") with
  | None => []
  | Some text => omap (apk_row names) (paragraphs text)
  end.

(** [s.rpartition("-")]: what is before and after the last hyphen. *)
Definition rpartition_hyphen (s : string) : string * string :=
  let base := after_last "-" s in
  (str_of (take (String.length s - String.length base - 1) (chars s)), base).
Definition pacman_row (names : list string) (dir : string) : option package :=
  let '(nv, pkgrel) := rpartition_hyphen (after_last "/" dir) in
  let '(name, ver) := rpartition_hyphen nv in
  if bool_decide (name ∈ names) then Some (named name (ver +:+ "-" +:+ pkgrel)) else None.
Definition pacman_versions (names : list string) : list package :=
  let base := lib_path "/var/lib/pacman/local" in
  if ph_is_dir h base then omap (pacman_row names) (lh_iterdir lh base) else [].

(** [p.get(k) not in (None, "")]. *)
Definition kept (p : package) (k : string) : option (string * value) :=
  match dget k p with
  | None | Some VNone | Some (VStr EmptyString) => None
  | Some v => Some (k, VStr (py_str v))
  end.
Definition rpm_row (p : package) : res package :=
  n ← row_item "name" p;
  Ok ([("name", n); ("version", default (VStr EmptyString) (dget "version" p))] ++ omap (kept p) ["release"; "epoch"; "arch"]).
Definition rpm_versions (names : list string) : res (list package) :=
  if names is [] then Ok []
  else
    inv ← query_rpm_named h cached names;
    match inv with inl _ => Ok [] | inr iv => mapM rpm_row (iv_packages iv) end.

(** [rx.search(p["name"])]. *)
Definition name_matches (rx : re) (p : package) : res bool :=
  n ← row_item "name" p;
  match n with VStr s => Ok (test_search rx s) | _ => Raise TypeError end.
Definition probed_versions (rx : re) : res (list package) :=
  found ← probe_package_db h;
  match found with
  | None => Ok []
  | Some f => ls ← mapM (fun p => b ← name_matches rx p; Ok (if (b : bool) then [p] else [])) (pb_packages f); Ok (concat ls)
  end.

Definition names_for (sp : spec) (family : string) : list string := default [] (dget family (s_packages sp)).
Definition package_versions (sp : spec) (family : string) : res (list package) :=
  if bool_decide (family ∈ ["rhel"; "suse"]) then rpm_versions (names_for sp family)
  else if String.eqb family "debian" then Ok (dpkg_versions (s_debian sp))
  else if String.eqb family "alpine" then Ok (apk_versions (names_for sp "alpine"))
  else if String.eqb family "arch" then Ok (pacman_versions (names_for sp "arch"))
  else probed_versions (s_probe sp).

(** ** Evaluation *)

Definition markers_found (blobs : list string) (markers : list (string * list (string * string))) : list (string * list string) :=
  (fun kt : string * list (string * string) =>
     (kt.1, omap (fun nn : string * string => if existsb (contains nn.2) blobs then Some nn.1 else None) kt.2)) <$> markers.

(** [None if version is None else version >= minimum]. *)
Definition met (version : option (list Z)) (minimum : list Z) : option bool := (fun v => tuple_ge v minimum) <$> version.
Definition threshold_value (version : option (list Z)) (t : list Z * string) : value := VDict [
  ("minimum_version", VStr (str_join "." (show_Z <$> t.1))); ("met", of_obool (met version t.1)); ("note", VStr t.2)].
Definition thresholds_met (version : option (list Z)) (thresholds : list (string * (list Z * string))) : list (string * value) :=
  (fun ct => (ct.1, threshold_value version ct.2)) <$> thresholds.

(** [_version_tuple] of a package's version. *)
Definition value_tuple (v : value) : res (option (list Z)) :=
  if negb (truthy v) then Ok None
  else match v with VStr s => Ok (lib_version_tuple (Some s)) | _ => Raise AttributeError end.

(** The first match of a version string in the blobs, or the names. *)
Fixpoint first_group (find : string -> option mtch) (l : list string) : option string :=
  match l with
  | [] => None
  | x :: l => match find x with Some m => Some (group_or 1 m) | None => first_group find l end
  end.

(** A file that carries the library's own version string. *)
Definition identify (rx : re) (st : list string * option string) (f : string) : res (list string * option string) :=
  blob ← read_library f;
  Ok (match (b ← blob; if nonempty b then re_search rx b else None) with
      | Some m => (st.1 ++ [f], Some (group_or 1 m))
      | None => st
      end).
Definition replace_first (old new s : string) : string :=
  match cut old s with Some (a, b) => a +:+ new +:+ b | None => s end.
Definition add_sibling (files : list string) (f : string) : list string :=
  let sibling := path_join (dirname f) (replace_first "libcrypto" "libssl" (after_last "/" f)) in
  if negb (String.eqb sibling f) && ph_is_file h sibling && negb (bool_decide (sibling ∈ files)) then files ++ [sibling] else files.
(** The files of a library and the version it was identified by. *)
Definition library_files (sp : spec) : res (list string * option string) :=
  match s_identify sp with
  | Some (rx, patterns) =>
      candidates ← find_files patterns;
      '(files, embedded) ← foldM (identify rx) ([], None) candidates;
      Ok (foldl add_sibling files files, embedded)
  | None => files ← find_files (s_files sp); Ok (files, None)
  end.
Definition read_blobs (files : list string) : res (list string) :=
  bs ← mapM read_library files;
  Ok (omap (fun b => b ← b; if nonempty b then Some b else None) bs).

(** The version and where it comes from. *)
Definition choose_version (pkgs : list package) (embedded from_filename : option string) : res (value * option string) :=
  match pkgs with
  | p :: _ => v ← row_item "version" p; Ok (v, Some "package")
  | [] =>
      Ok (match embedded with
          | Some e => (VStr e, Some "library")
          | None => match from_filename with Some f => (VStr f, Some "library-filename") | None => (VNone, None) end
          end)
  end.

(** The evidence and what it says. *)
Definition capability (sp : spec) (blobs pqc_names : list string) (vt : option (list Z)) : string * option bool :=
  match blobs, vt with
  | _ :: _, _ => ("binary", Some (negb (bool_decide (pqc_names = []))))
  | [], Some v =>
      let any := existsb (fun ct => tuple_ge v ct.2.1) (s_thresholds sp) in
      ("version", if s_build_dependent sp && any then None else Some any)
  | [], None => ("none", None)
  end.
Definition caveats (sp : spec) (pqc_names : list string) (evidence : string) (vt : option (list Z)) : list string :=
  omap (fun kt => t ← dget kt.1 (s_thresholds sp);
          if bool_decide (met vt t.1 = Some false) && (negb (bool_decide (pqc_names = [])) || negb (String.eqb evidence "binary"))
          then Some kt.2 else None) (s_caveats sp) ++ s_notes sp.

Definition NOT_INSTALLED : list (string * value) := [("installed", VBool false)].
Definition library_report (sp : spec) (files blobs : list string) (pkgs : list package) (version : value) (source : option string)
    (vt : option (list Z)) : list (string * value) :=
  let found := if blobs is [] then [] else markers_found blobs (s_markers sp) in
  let pqc_names := sorted_set (concat found.*2) in
  let '(evidence, capable) := capability sp blobs pqc_names vt in
  [("installed", VBool true); ("version", version); ("version_source", of_ostr source); ("packages", VList (VDict <$> pkgs));
   ("files", VStrs (unhost <$> files)); ("evidence", VStr evidence); ("pqc_capable", of_obool capable);
   ("algorithms", VDict ((fun kn => (kn.1, VStrs kn.2)) <$> found)); ("version_thresholds", VDict (thresholds_met vt (s_thresholds sp)));
   ("build_dependent", VBool (s_build_dependent sp)); ("caveats", VStrs (caveats sp pqc_names evidence vt));
   ("reference", VStr (s_reference sp))].

Definition probe_library (sp : spec) (family : string) : res (list (string * value)) :=
  '(files, identified) ← library_files sp;
  blobs ← read_blobs files;
  let embedded := match identified, s_version sp with
    | Some e, _ => Some e
    | None, Some rx => first_group (re_search rx) blobs
    | None, None => None
    end in
  let from_filename := match embedded, s_filename sp with
    | None, Some rx => first_group (fun f => re_match rx (after_last "/" f)) files
    | _, _ => None
    end in
  pkgs ← package_versions sp family;
  '(version, source) ← choose_version pkgs embedded from_filename;
  if (if files is [] then true else false) && (if pkgs is [] then true else false) then Ok NOT_INSTALLED
  else
    vt ← value_tuple version;
    Ok (library_report sp files blobs pkgs version source vt).

(** ** JDKs and Go toolchains *)

(** [Path(entry)] resolved: inside the prefix, or by the system. *)
Definition real_entry (entry : string) : res string :=
  if nonempty pre then Ok (in_tree (ph_fs h) (ph_prefix h) entry) else lh_resolve lh entry.
(** The path that is read. *)
Definition entry_target (entry : string) : string :=
  if nonempty pre then in_tree (ph_fs h) (ph_prefix h) entry else entry.

Definition release_line (fields : list (string * string)) (line : string) : list (string * string) :=
  match cut "=" line with
  | Some (k, v) => if nonempty v then dset k (strip_by (fun c => Ascii.eqb c "034") (strip v)) fields else fields
  | None => fields
  end.
Definition at_least (n : Z) (major : option Z) : option bool := (fun m => n <=? m) <$> major.
Record install := Install { in_path : string; in_facts : list (string * value); in_capable : option bool }.
Definition jdk_install (real text : string) : install :=
  let fields := foldl release_line [] (splitlines text) in
  let ver := dget "JAVA_VERSION" fields in
  let major := vt ← lib_version_tuple ver; head vt in
  Install (unhost (py_path real))
    [("version", of_ostr ver); ("implementor", of_ostr (dget "IMPLEMENTOR" fields));
     ("jca_ml_kem_ml_dsa", of_obool (at_least JDK_JCA_PQC_MAJOR major)); ("tls_hybrid_default", of_obool (at_least JDK_TLS_HYBRID_MAJOR major))]
    (at_least JDK_JCA_PQC_MAJOR major).
Definition install_value (i : install) : value := VDict (("path", VStr (in_path i)) :: in_facts i).

(** Paths seen and installs found. *)
Abbreviation seen := (list string * list install)%type.
Definition jdk_entry (st : seen) (entry : string) : res seen :=
  catch (is_class "OSError")
    (real ← real_entry entry;
     match lh_text lh (path_join (entry_target entry) "release") with
     | None => Ok st
     | Some text => Ok (if bool_decide (real ∈ st.1) then st else (st.1 ++ [real], st.2 ++ [jdk_install real text]))
     end)
    (fun _ => Ok st).
Definition jdk_dir (st : seen) (d : string) : res seen :=
  let base := lib_path d in
  if ph_is_dir h base then foldM jdk_entry st (py_sorted str_lt (lh_iterdir lh base)) else Ok st.

(** [any(...)] over true, false and unknown. *)
Definition any_true (l : list (option bool)) : bool := existsb (fun o => bool_decide (o = Some true)) l.
Definition installs_report (installs : list install) (thresholds : list (string * value)) (reference : string) : list (string * value) :=
  if installs is [] then NOT_INSTALLED
  else [("installed", VBool true); ("installs", VList (install_value <$> installs)); ("evidence", VStr "version");
        ("pqc_capable", VBool (any_true (in_capable <$> installs))); ("version_thresholds", VDict thresholds); ("reference", VStr reference)].
Definition minimum (version note : string) : value := VDict [("minimum_version", VStr version); ("note", VStr note)].

Definition probe_jdks : res (list (string * value)) :=
  '(_, installs) ← foldM jdk_dir ([], []) JVM_DIRS;
  Ok (installs_report installs
        [("jca_ml_kem_ml_dsa", minimum (show_Z JDK_JCA_PQC_MAJOR) "JEP 496 / JEP 497");
         ("tls_hybrid_default", minimum (show_Z JDK_TLS_HYBRID_MAJOR) "JEP 527: X25519MLKEM768 on by default in TLS 1.3")]
        (str_join " " JDK_REFERENCES)).

Definition go_install (real first : string) : install :=
  let default := (fun v => tuple_ge (take 2 v) [GO_MLKEM_DEFAULT_VERSION.1; GO_MLKEM_DEFAULT_VERSION.2]) <$> lib_version_tuple (Some (str_drop 2 first)) in
  Install (unhost (py_path real)) [("version", VStr first); ("tls_mlkem_default", of_obool default)] default.
Definition go_entry (st : seen) (hit : string) : res seen :=
  catch (is_class "OSError")
    (real ← real_entry hit;
     match (text ← lh_text lh (path_join (entry_target hit) "VERSION"); head (splitlines text)) with
     | None => Ok st
     | Some line =>
         let first := strip line in
         Ok (if bool_decide (real ∈ st.1) || negb (starts_with "go" first) then st
             else (st.1 ++ [real], st.2 ++ [go_install real first]))
     end)
    (fun _ => Ok st).
Definition go_root (st : seen) (root : string) : res seen := foldM go_entry st (py_sorted str_lt (lh_globs lh (lib_path root))).
Definition probe_go : res (list (string * value)) :=
  '(_, installs) ← foldM go_root ([], []) GO_ROOTS;
  Ok (installs_report installs
        [("tls_mlkem_default", minimum go_version_text "X25519MLKEM768 on by default in crypto/tls (GODEBUG tlsmlkem=0 reverts)")]
        GO_REFERENCE).

(** ** The scan *)

Definition is_installed (e : list (string * value)) : bool := truthy (default VNone (dget "installed" e)).
Definition pqc_capable (e : list (string * value)) : value := default VNone (dget "pqc_capable" e).
Definition with_capable (test : value -> bool) (libraries : list (string * list (string * value))) (installed : list string) : list string :=
  py_sorted str_lt (List.filter (fun n => test (pqc_capable (default [] (dget n libraries)))) installed).
Definition summary (libraries : list (string * list (string * value))) : value :=
  let installed := py_sorted str_lt (List.filter (fun nl => is_installed nl.2) libraries).*1 in
  VDict [("installed", VStrs installed); ("pqc_capable", VStrs (with_capable truthy libraries installed));
         ("classical_only", VStrs (with_capable is_false libraries installed));
         ("unknown", VStrs (with_capable is_none libraries installed))].

Definition probe_named (family : string) (ns : string * spec) : res (string * list (string * value)) :=
  r ← probe_library ns.2 family; Ok (ns.1, r).
Definition probe_all (family : string) : res (list (string * list (string * value))) :=
  libs ← mapM (probe_named family) LIBRARY_SPECS;
  jdks ← probe_jdks;
  go ← probe_go;
  Ok (libs ++ [("java", jdks); ("go", go)]).
Definition scan_crypto_libraries (family : string) : res (list (string * value)) :=
  if negb (starts_with "linux" (lh_platform lh)) then
    Ok [("available", VBool false); ("reason", VStr "crypto library probes support Linux only")]
  else
    libraries ← probe_all family;
    Ok (dupdate [("available", VBool true); ("libraries", VDict ((fun nl => (nl.1, VDict nl.2)) <$> libraries)); ("summary", summary libraries)]
          (default [] (lh_note lh))).
End Libraries.
