(* ===== verification/LibrariesTheory.v ===== *)
(** * Crypto libraries: theorems

    A library is called PQC-capable exactly when a file of it that was read
    carries the name of a post-quantum algorithm or, where no file could be
    read, its version has reached a threshold; and the summary puts every
    installed library in exactly one of its three lists. *)

From stdpp Require Import sets.
From S2P Require Import Prelude PyStr PyDict PyVal PyRe PyPath HostPath Classify Gap SarifRules Packages Libraries.
Open Scope Z_scope.

(** ** The names a library embeds *)

(** A needle of [markers], listed under [kind], is in one of the files. *)
Definition carries (blobs : list string) (markers : list (string * list (string * string))) (name : string) : Prop :=
  exists kind table needle blob, (kind, table) ∈ markers /\ (name, needle) ∈ table /\ blob ∈ blobs /\ contains needle blob = true.

Lemma markers_found_carries blobs markers name : name ∈ concat (markers_found blobs markers).*2 <-> carries blobs markers name.
Proof.
  rewrite list_elem_of_In, in_concat. setoid_rewrite <-list_elem_of_In. unfold markers_found, carries. split.
  - intros (l & Hl & Hn). apply list_elem_of_fmap in Hl as ([k l'] & -> & Hk).
    apply list_elem_of_fmap in Hk as ([kind table] & [= -> ->] & Ht). cbn [fst snd] in Hn.
    apply list_elem_of_omap in Hn as ([n needle] & Hnn & E). cbn [fst snd] in E. destruct (existsb _ blobs) eqn:Eb; [|done]. injection E as ->.
    apply existsb_exists in Eb as (blob & Hb & Hc). apply list_elem_of_In in Hb. by exists kind, table, needle, blob.
  - intros (kind & table & needle & blob & Ht & Hn & Hb & Hc).
    exists (omap (fun nn : string * string => if existsb (contains nn.2) blobs then Some nn.1 else None) table). split.
    + apply list_elem_of_fmap. eexists (kind, _). split; [reflexivity|]. apply list_elem_of_fmap. by exists (kind, table).
    + apply list_elem_of_omap. exists (name, needle). split; [done|]. cbn [fst snd].
      assert (existsb (contains needle) blobs = true) as ->; [|done]. apply existsb_exists. exists blob. split; [by apply list_elem_of_In|done].
Qed.

(** ** One library *)

(** A threshold of [sp] that the version has reached. *)
Definition reaches (sp : spec) (v : list Z) : Prop := exists cap minimum note, (cap, (minimum, note)) ∈ s_thresholds sp /\ tuple_ge v minimum = true.
Lemma existsb_reaches sp v : existsb (fun ct : string * (list Z * string) => tuple_ge v ct.2.1) (s_thresholds sp) = true <-> reaches sp v.
Proof.
  rewrite existsb_exists. unfold reaches. split.
  - intros ([cap [m note]] & Hin & H). apply list_elem_of_In in Hin. by exists cap, m, note.
  - intros (cap & m & note & Hin & H). exists (cap, (m, note)). split; [by apply list_elem_of_In|done].
Qed.

(** What the evidence justifies. *)
Definition capable_yes (sp : spec) (blobs : list string) (vt : option (list Z)) : Prop :=
  (exists name, carries blobs (s_markers sp) name) \/
  (blobs = [] /\ s_build_dependent sp = false /\ exists v, vt = Some v /\ reaches sp v).
Definition capable_no (sp : spec) (blobs : list string) (vt : option (list Z)) : Prop :=
  (blobs <> [] /\ forall name, ~ carries blobs (s_markers sp) name) \/
  (blobs = [] /\ exists v, vt = Some v /\ ~ reaches sp v).
Definition capable_unknown (sp : spec) (blobs : list string) (vt : option (list Z)) : Prop :=
  blobs = [] /\ (vt = None \/ s_build_dependent sp = true /\ exists v, vt = Some v /\ reaches sp v).

Lemma capability_cases sp blobs vt :
  let names := sorted_set (concat (if blobs is [] then [] else markers_found blobs (s_markers sp)).*2) in
  match (capability sp blobs names vt).2 with
  | Some true => capable_yes sp blobs vt
  | Some false => capable_no sp blobs vt
  | None => capable_unknown sp blobs vt
  end.
Proof.
  cbv zeta. destruct blobs as [|b blobs].
  - unfold capability. destruct vt as [v|]; cbn [snd]; [|by split; [|left]].
    pose proof (existsb_reaches sp v) as Hr. destruct (existsb _ _).
    + assert (reaches sp v) as Hv by by apply Hr. destruct (s_build_dependent sp) eqn:Eb; cbn [andb].
      * split; [done|]. right. split; [done|]. by exists v.
      * right. split_and!; [done..|]. by exists v.
    + rewrite andb_false_r. right. split; [done|]. exists v. split; [done|]. intros Hv. apply Hr in Hv. done.
  - unfold capability. cbn [snd]. case_bool_decide as E; cbn [negb].
    + left. split; [done|]. intros name Hc%markers_found_carries. apply (proj1 (sorted_set_nil _)) in E. rewrite E in Hc. by apply not_elem_of_nil in Hc.
    + left. destruct (concat _) as [|n l] eqn:El; [by destruct E|]. exists n. apply markers_found_carries. rewrite El. left.
Qed.

Definition field_of (k : string) (e : list (string * value)) : value := default VNone (dget k e).

(** The report of one library. *)
Record explained (sp : spec) (files blobs : list string) (pkgs : list package) (e : list (string * value)) : Prop := {
  ex_installed : is_installed e = true <-> files <> [] \/ pkgs <> [];
  ex_absent : is_installed e = false -> e = NOT_INSTALLED;
  ex_capable : is_installed e = true -> exists version vt, field_of "version" e = version /\ value_tuple version = Ok vt /\
    ((pqc_capable e = VBool true /\ capable_yes sp blobs vt) \/ (pqc_capable e = VBool false /\ capable_no sp blobs vt) \/
     (pqc_capable e = VNone /\ capable_unknown sp blobs vt));
  ex_algorithms : is_installed e = true ->
    field_of "algorithms" e = VDict ((fun kn : string * list string => (kn.1, VStrs kn.2)) <$> if blobs is [] then [] else markers_found blobs (s_markers sp)) }.

Section Probe.
Context (lh : lib_host) (cached : bool).

Lemma library_report_explained sp files blobs pkgs version source vt :
  value_tuple version = Ok vt -> files <> [] \/ pkgs <> [] ->
  explained sp files blobs pkgs (library_report lh sp files blobs pkgs version source vt).
Proof.
  intros Hv Hi. pose proof (capability_cases sp blobs vt) as Hc. cbv zeta in Hc. unfold library_report.
  destruct (capability sp blobs _ vt) as [evidence capable]. cbn [snd] in Hc. split; try done.
  intros _. exists version, vt. split; [done|]. split; [done|]. unfold pqc_capable.
  change (dget "pqc_capable" _) with (Some (of_obool capable)). destruct capable as [[]|]; cbn; auto.
Qed.

Lemma probe_library_explained sp family e : probe_library lh cached sp family = Ok e ->
  exists files embedded blobs pkgs, library_files lh sp = Ok (files, embedded) /\ read_blobs lh files = Ok blobs /\
    package_versions lh cached sp family = Ok pkgs /\ explained sp files blobs pkgs e.
Proof.
  unfold probe_library. intros H. bind H as fe Hf. destruct fe as [files embedded]. bind H as blobs Hb. bind H as pkgs Hp.
  bind H as vs Hv. destruct vs as [version source]. exists files, embedded, blobs, pkgs. split_and!; try done.
  destruct (_ && _) eqn:E in H.
  - injection H as <-. apply andb_true_iff in E as [E1 E2]. destruct files; [|done]. destruct pkgs; [|done]. split; try done. naive_solver.
  - bind H as vt Hvt. injection H as <-. apply library_report_explained; [done|].
    apply andb_false_iff in E as [E|E]; [left; by destruct files|right; by destruct pkgs].
Qed.

(** ** The summary *)

(** Entries as the probes build them. *)
Definition entry_ok (e : list (string * value)) : Prop :=
  is_installed e = true -> exists o, pqc_capable e = of_obool o.

Lemma installs_entry_ok installs thresholds reference : entry_ok (installs_report installs thresholds reference).
Proof. destruct installs as [|i l]; [done|]. intros _. by exists (Some (any_true (in_capable <$> (i :: l)))). Qed.

Definition LIBRARY_NAMES : list string := ["gnutls"; "libgcrypt"; "libssh"; "wolfssl"; "aws-lc"; "mbedtls"; "java"; "go"].

Lemma probe_all_ok family libs : probe_all lh cached family = Ok libs ->
  libs.*1 = LIBRARY_NAMES /\ Forall (fun nl => entry_ok nl.2) libs /\
  (forall name sp, (name, sp) ∈ LIBRARY_SPECS -> exists e, (name, e) ∈ libs /\ probe_library lh cached sp family = Ok e).
Proof.
  unfold probe_all. intros H. bind H as specs Hs. bind H as jdks Hj. bind H as go Hg. injection H as <-.
  assert (Forall2 (fun ns (ne : string * list (string * value)) => ne.1 = ns.1 /\ probe_library lh cached ns.2 family = Ok ne.2) LIBRARY_SPECS specs) as Hall.
  { clear -Hs. revert specs Hs. induction LIBRARY_SPECS as [|ns l IH]; intros specs Hs; [by injection Hs as <-|].
    apply mapM_cons_ok in Hs as (y & ys & -> & Hy & Hys). constructor; [|by apply IH].
    unfold probe_named in Hy. bind Hy as e He. by injection Hy as <-. }
  assert (entry_ok jdks /\ entry_ok go) as [Hjo Hgo].
  { unfold probe_jdks in Hj. unfold probe_go in Hg. bind Hj as a Ha. destruct a. injection Hj as <-. bind Hg as b Hb. destruct b. injection Hg as <-.
    split; apply installs_entry_ok. }
  split_and!.
  - rewrite fmap_app. change LIBRARY_NAMES with (LIBRARY_SPECS.*1 ++ ["java"; "go"]). f_equal.
    clear -Hall. induction Hall as [|ns ne l k [H _] _ IH]; [done|]. csimpl. congruence.
  - apply Forall_app. split; [|by repeat constructor]. clear -Hall. induction Hall as [|ns ne l k [_ H] _ IH]; [done|]. constructor; [|done].
    intros Hi. apply probe_library_explained in H as (files & embedded & blobs & pkgs & _ & _ & _ & [_ _ Hc _]).
    destruct (Hc Hi) as (version & vt & _ & _ & [[-> _]|[[-> _]|[-> _]]]); [by exists (Some true)|by exists (Some false)|by exists None].
  - intros name sp Hin. apply list_elem_of_lookup in Hin as [i Hi]. destruct (Forall2_lookup_l _ _ _ _ _ Hall Hi) as ([n e] & He & Hn & Hp).
    cbn in Hn. subst n. exists e. split; [|done]. apply elem_of_app. left. by eapply list_elem_of_lookup_2.
Qed.
End Probe.

(** The libraries whose entry passes a test. *)
Definition those (libs : list (string * list (string * value))) (test : list (string * value) -> Prop) (n : string) : Prop :=
  exists e, (n, e) ∈ libs /\ is_installed e = true /\ test e.

Lemma with_capable_those libs test (P : list (string * value) -> Prop) :
  dwf libs -> (forall e, is_installed e = true -> test (pqc_capable e) = true <-> P e) ->
  let installed := py_sorted str_lt (List.filter (fun nl : string * list (string * value) => is_installed nl.2) libs).*1 in
  forall n, n ∈ with_capable test libs installed <-> those libs P n.
Proof.
  intros Hw HP installed n. unfold with_capable. rewrite elem_of_py_sorted, list_elem_of_In, filter_In, <-list_elem_of_In.
  unfold installed. rewrite elem_of_py_sorted, list_elem_of_fmap. unfold those. split.
  - intros [([n' e] & -> & Hin) Ht]. apply list_elem_of_In, filter_In in Hin as [Hin Hi]. cbn [fst snd] in *. apply list_elem_of_In in Hin.
    exists e. split_and!; [done..|]. apply HP; [done|]. by rewrite (proj2 (dget_Some _ _ _ Hw) Hin) in Ht.
  - intros (e & Hin & Hi & Ht). split.
    + exists (n, e). split; [done|]. apply list_elem_of_In, filter_In. split; [by apply list_elem_of_In|done].
    + rewrite (proj2 (dget_Some _ _ _ Hw) Hin). cbn. by apply HP.
Qed.

Lemma split_by_capable libs l : Forall (fun n => exists e, (n, e) ∈ libs /\ entry_ok e /\ is_installed e = true) l -> dwf libs ->
  l ≡ₚ with_capable truthy libs l ++ with_capable is_false libs l ++ with_capable is_none libs l.
Proof.
  intros Hl Hw. unfold with_capable. rewrite !py_sorted_perm. induction Hl as [|n l (e & Hin & He & Hi) Hl IH]; [done|].
  cbn [List.filter]. rewrite (proj2 (dget_Some _ _ _ Hw) Hin). cbn [default from_option id]. destruct (He Hi) as [o ->].
  destruct o as [[]|]; cbn [of_obool truthy is_false is_none].
  - by apply Permutation_cons.
  - etransitivity; [by apply Permutation_cons; [|exact IH]|]. apply Permutation_middle.
  - etransitivity; [by apply Permutation_cons; [|exact IH]|]. rewrite !app_assoc. apply Permutation_middle.
Qed.


(** ** Witness *)

(** A Debian host with a GnuTLS that embeds a hybrid group, and a JDK whose
    release file has no version. *)
Definition sample_files : list (string * string) := [
  ("/usr/lib/x86_64-linux-gnu/libgnutls.so.30", "GnuTLS 3.8.10 ... X25519-MLKEM768 ..."); ("/usr/lib/jvm/jdk/release", "IMPLEMENTOR=acme")].
Definition sample_pkg_host : pkg_host :=
  PkgHost no_links_fs (Prefixes EmptyString EmptyString) (fun _ => false) (fun p => dmem p sample_files)
    (fun p => bool_decide (p ∈ ["/usr/lib/x86_64-linux-gnu"; "/usr/lib/jvm"])) (fun _ => Raise (OSError "no file"))
    (fun _ => Raise (OSError "no file")) (fun _ => Raise (OSError "no file")) (fun _ => []) None
    (fun _ _ _ => SqliteFails "no database") false (fun _ => false) (fun _ => (127, EmptyString)) None.
Definition sample_lib_host : lib_host :=
  LibHost sample_pkg_host "linux"
    (fun base pat => if String.eqb (base +:+ "/" +:+ pat) "/usr/lib/x86_64-linux-gnu/libgnutls.so.30*" then ["/usr/lib/x86_64-linux-gnu/libgnutls.so.30"] else [])
    (fun _ => []) (fun p => Ok p) (fun _ => Ok 100)
    (fun p => match dget p sample_files with Some t => Ok t | None => Raise (OSError "no file") end)
    (fun p => dget p sample_files) (fun base => if String.eqb base "/usr/lib/jvm" then ["/usr/lib/jvm/jdk"] else []) None.

(** The JDK of unknown version is listed as classical-only. *)
Example sample_summary : summary <$> probe_all sample_lib_host false "debian" =
  Ok (VDict [("installed", VStrs ["gnutls"; "java"]); ("pqc_capable", VStrs ["gnutls"]); ("classical_only", VStrs ["java"]); ("unknown", VStrs [])]).
Proof. vm_compute. reflexivity. Qed.

