(* ===== verification/Openssl.v ===== *)
(** * FIPS mode ([detect/config.py], first half)

    The provider records of [openssl list -providers -verbose], FIPS mode,
    the algorithm fence, the certification context and the conflict with
    post-quantum algorithms.  Running [openssl] and reading the kernel's flag
    are queries on the host. *)

From S2P Require Import Prelude PyStr PyDict PyVal PyRe Classify OpensslConf Packages Osinfo HostPath Libraries.
Open Scope Z_scope.
(** The commands ([shutil.which], [_run]), [fips_enabled], and the note of a
    container scan. *)
Record fips_host := FipsHost {
  fh_which : string -> bool; fh_run : list string -> Z * string; fh_flag : res string;
  fh_note : option (list (string * value)) }.

(** ** Provider records *)

Definition PROVIDER_RE : re := RSeqs [Bos; RLit "  "; RGrp 1 (RPlus NonSpace); spaces; Eos].
Definition PROVIDER_FIELD_RE : re :=
  RSeqs [Bos; RLit "    "; RGrp 1 (RSeq NonSpace (RStar false (NotSet ":"))); RLit ":"; spaces; RGrp 2 (RStar true Dot); Eos].
Abbreviation records := (list (string * list (string * string))).
Definition record_line (st : records * option string) (line : string) : records * option string :=
  match re_match PROVIDER_RE line with
  | Some m => let name := strip (group_or 1 m) in (dsetdefault name [] st.1, Some name)
  | None =>
      match st.2, re_match PROVIDER_FIELD_RE line with
      | Some current, Some f =>
          (dset current (dset (strip (group_or 1 f)) (strip (group_or 2 f)) (default [] (dget current st.1))) st.1, Some current)
      | _, _ => st
      end
  end.
Definition parse_openssl_provider_records (text : string) : records := (foldl record_line ([], None) (splitlines text)).1.

Definition detect_fips_mode_from_providers_text (text : string) : bool :=
  let fips := default [] (dget "fips" (parse_openssl_provider_records text)) in
  String.eqb (lower (default EmptyString (dget "status" fips))) "active".

Definition FENCE_KEM_RE : re := RSeqs [RLit "ML-KEM-"; RPlus Digit].
Definition slh_char (c : ascii) : bool := is_alnum c || Ascii.eqb c "-".
Definition FENCE_SIG_RE : re := RAlt (RSeqs [RLit "ML-DSA-"; RPlus Digit]) (RSeqs [RLit "SLH-DSA-"; RPlus (RChr slh_char)]).
Definition fence_parse_algos (text : string) (pattern : re) : list string := sorted_set (m_text <$> re_finditer pattern text).

Section Host.
Context (h : fips_host).

Definition providers_verbose : Z * string := fh_run h ["openssl"; "list"; "-providers"; "-verbose"].

Definition detect_fips_mode : res (list (string * value)) :=
  flag ← or_oserror (fh_flag h);
  let kernel := match flag with Some text => String.eqb (strip text) "1" | None => false end in
  let provider :=
    if fh_which h "openssl" then
      let '(rc, out) := providers_verbose in (rc =? 0) && detect_fips_mode_from_providers_text out
    else false in
  Ok (annotate (fh_note h) [("kernel", VBool kernel); ("openssl_provider", VBool provider)]).

(** ** The algorithm fence *)

Definition fence_provider_algos (list_arg : string) (pattern : re) (provider : string) : option (list string) :=
  if negb (fh_which h "openssl") then None
  else
    let '(rc, out) := fh_run h ["openssl"; "list"; list_arg; "-provider"; provider] in
    if rc =? 0 then Some (fence_parse_algos out pattern) else None.

Record fence := Fence {
  fe_active : bool; fe_engaged : bool; fe_kems : list string; fe_signatures : list string; fe_groups : list string;
  fe_skip : option string }.
Definition FENCE_SKIP : string := "FIPS not active (kernel fips=1 and active OpenSSL FIPS provider both required for the fence check)".

(** [sorted(set(a) - set(b))]. *)
Definition set_minus (a b : list string) : list string := sorted_set (List.filter (fun x => negb (bool_decide (x ∈ b))) a).
Definition outside (list_arg : string) (pattern : re) : list string :=
  set_minus (default [] (fence_provider_algos list_arg pattern "default")) (default [] (fence_provider_algos list_arg pattern "fips")).
Definition tls_groups_of (provider : string) : Z * string := fh_run h ["openssl"; "list"; "-tls-groups"; "-provider"; provider].
(** [None] when one of the two listings fails. *)
Definition outside_groups : option (list string) :=
  let '(rc_fips, fips_text) := tls_groups_of "fips" in
  let '(rc_def, def_text) := tls_groups_of "default" in
  if (rc_fips =? 0) && (rc_def =? 0) then
    let b := classify_tls_groups (set_minus (parse_openssl_tls_groups def_text) (parse_openssl_tls_groups fips_text)) in
    Some (sorted_set (pure_pqc b ++ hybrid b))
  else None.

Definition is_nil {A} (l : list A) : bool := if l is [] then true else false.
Definition truthy_in (k : string) (d : list (string * value)) : bool := truthy (default VNone (dget k d)).
Definition fips_fence_check (fips : list (string * value)) : fence :=
  if negb (truthy_in "kernel" fips && truthy_in "openssl_provider" fips) then Fence false false [] [] [] (Some FENCE_SKIP)
  else
    let kems := outside "-kem-algorithms" FENCE_KEM_RE in
    let sigs := outside "-signature-algorithms" FENCE_SIG_RE in
    let groups := outside_groups in
    Fence true (is_nil kems && is_nil sigs && match groups with Some g => is_nil g | None => true end)
      kems sigs (default [] groups) None.

(** ** Certification context *)

Definition FIPS_NOTES_BY_FAMILY : list (string * string) := [
  ("rhel", "RHEL ships a Red Hat-validated FIPS provider.  ML-KEM/ML-DSA are not yet in the FIPS-validated set as of RHEL 10.0 — verify against the latest Red Hat FIPS bulletin before relying on PQC in FIPS-mandated workflows.");
  ("debian", "Debian main does not ship a FIPS-certified OpenSSL provider.  If fips_enabled=1 here, a third-party module is in use — verify its certification status independently.");
  ("suse", "SUSE ships a separately-validated FIPS module via SUSE Linux Enterprise.  ML-KEM/ML-DSA are not yet covered as of SLES 15 SP6; verify against the latest SUSE FIPS bulletin.");
  ("arch", "Arch does not provide a FIPS-validated OpenSSL build.");
  ("alpine", "Alpine does not provide a FIPS-validated OpenSSL build.");
  ("macos", "macOS does not expose Linux-style FIPS mode; this field reflects OpenSSL provider state only.");
  ("unknown", "Cannot determine distribution-specific FIPS posture.")].
Definition DISTRO_CERTIFIED_FIPS : list (string * option string * string) := [
  ("rhel", None, "Red Hat-validated FIPS provider");
  ("suse", None, "SUSE Linux Enterprise FIPS module");
  ("debian", Some "ubuntu", "Ubuntu Pro FIPS (Canonical) — assumed from active provider")].

(** [os_release.get(k, "unknown")] of what [detect_os] returns: a text. *)
Definition os_text (k : string) (os_release : list (string * value)) : string :=
  match dget k os_release with Some (VStr s) => s | Some _ => EmptyString | None => "unknown" end.
Definition certified (family id : string) (c : string * option string * string) : bool :=
  let '(fam, id_match, _) := c in
  String.eqb family fam && match id_match with None => true | Some i => String.eqb id i end.

Definition set_all (kvs : list (string * value)) (d : list (string * value)) : list (string * value) := dupdate d kvs.
Definition outside_value (f : fence) : value := VDict [("kems", VStrs (fe_kems f)); ("signatures", VStrs (fe_signatures f)); ("tls_groups", VStrs (fe_groups f))].
Definition interpret_fips (fips os_release : list (string * value)) : list (string * value) :=
  let family := os_text "family" os_release in
  let source :=
    if truthy_in "openssl_provider" fips && truthy_in "kernel" fips then
      snd <$> List.find (certified family (os_text "id" os_release)) DISTRO_CERTIFIED_FIPS
    else None in
  let note := match dget family FIPS_NOTES_BY_FAMILY with
              | Some n => n
              | None => default EmptyString (dget "unknown" FIPS_NOTES_BY_FAMILY)
              end in
  let out := set_all [("distribution_certified", VBool (match source with Some _ => true | None => false end));
                      ("distribution_certified_source", of_ostr source); ("notes", VStr note)] fips in
  let f := fips_fence_check out in
  set_all ([("algorithm_fence_engaged", VBool (fe_engaged f)); ("algorithms_reachable_outside_fence", outside_value f);
            ("fence_check_active", VBool (fe_active f))] ++
           match fe_skip f with Some s => [("fence_check_skip_reason", VStr s)] | None => [] end) out.
End Host.

(** ** Conflict with post-quantum algorithms *)

Definition conflict (b : bool) (explanation : string) : list (string * value) :=
  [("in_conflict", VBool b); ("explanation", VStr explanation)].
Definition exposes_pqc (openssl : list (string * value)) : bool :=
  let kems := default VNone (dget "kem_algorithms" openssl) in
  let sigs := default VNone (dget "sig_algorithms" openssl) in
  if negb (is_none kems) || negb (is_none sigs) then truthy kems || truthy sigs
  else is_true (default VNone (dget "pqc_native" openssl)).
Definition fips_pqc_conflict_check (fips openssl : list (string * value)) : list (string * value) :=
  if negb (truthy_in "kernel" fips) then conflict false "Kernel FIPS mode not enabled."
  else if negb (exposes_pqc openssl) then conflict false "FIPS mode active and no PQC algorithms exposed."
  else if truthy_in "openssl_provider" fips then
    conflict false "FIPS provider is active and PQC algorithms are exposed.  Verify they are coming from a FIPS-validated provider before relying on them in regulated workflows."
  else
    conflict true "Kernel FIPS mode is enabled but OpenSSL is exposing PQC algorithms via the default (non-FIPS) provider.  These algorithms are listed but would not be usable in a FIPS-validated workflow — RHEL 9/10 FIPS provider does not include ML-KEM/ML-DSA as of this writing.  Audit provider configuration before claiming PQC support in a FIPS-mandated environment.".

(** * The OpenSSL of the host ([detect/config.py], second half, and
    [detect/openssl_host.py])

    Where the facts come from (the CLI, the package database, the libcrypto
    file), the capability section, and the upgrade advice.  Commands, files
    and databases are queries on the host. *)
Record ossl_host := OsslHost { sh_lib : lib_host; sh_conf : conf_env }.

(** ** Upgrade advice *)

Definition EL_MINOR_WITH_35 : list (string * Z) := [("9", 7); ("10", 1)].
(** [major and int(major) < n]. *)
Definition int_before (major : option string) (n : Z) : res bool :=
  match major with
  | None => Ok false
  | Some m => match int_of_str m with Some z => Ok (z <? n) | None => Raise (ValueError ("invalid literal for int() with base 10: " +:+ str_repr m)) end
  end.
Definition is_major (major : option string) (m : string) : bool := bool_decide (major = Some m).
Definition digits_before (major : option string) (n : Z) : bool :=
  match major with Some m => isdigit m && (digits_val (chars m) <? n) | None => false end.

Definition rhel_advice (id : string) (major minor : option string) : res (option string) :=
  if String.eqb id "rhel" && is_major major "8" then
    Ok (Some "RHEL 8 base channel ships OpenSSL 1.1.1; PQC requires OpenSSL 3.5+, available in RHEL 10 or a Red Hat-supported channel with newer crypto.  The script itself requires Python 3.9+ — enable the `python39` (or higher) AppStream module: `dnf module install python39`.")
  else if bool_decide (id ∈ ["rocky"; "almalinux"; "centos"; "ol"]) && is_major major "8" then
    Ok (Some "EL8-class distributions ship OpenSSL 1.1.1; PQC requires OpenSSL 3.5+, available in the EL10 release of this distribution or a backport channel.  The script itself requires Python 3.9+ via the `python39` (or higher) AppStream module: `dnf module install python39`.")
  else
    match (if bool_decide (id ∈ ["rhel"; "rocky"; "almalinux"; "centos"; "ol"]) then (m ← major; n ← dget m EL_MINOR_WITH_35; Some (m, n)) else None) with
    | Some (m, need) =>
        let name := if String.eqb id "rhel" then "RHEL" else "This EL distribution" in
        let reached := match minor with Some x => isdigit x && (need <=? digits_val (chars x)) | None => false end in
        Ok (Some (if reached then
          name +:+ " " +:+ m +:+ "." +:+ default EmptyString minor +:+ " ships OpenSSL 3.5 in the base channel, but this host reports an older OpenSSL; check for excluded, version-locked or third-party OpenSSL packages (`dnf list --showduplicates openssl-libs`) and apply pending updates."
        else
          name +:+ " " +:+ m +:+ " ships OpenSSL 3.5 from " +:+ m +:+ "." +:+ show_Z need +:+ " onward (earlier minors carry 3.0/3.2); update to " +:+ m +:+ "." +:+ show_Z need +:+ " or later (`dnf update`) to get PQC."))
    | None =>
        old ← (if String.eqb id "fedora" then int_before major 41 else Ok false);
        let m := default EmptyString major in
        Ok (if (old : bool) then Some ("Fedora " +:+ m +:+ " predates OpenSSL 3.5; upgrade to Fedora 41 or newer.")
            else if bool_decide (id ∈ ["rhel"; "centos"; "ol"]) && digits_before major 8 then
              Some ("EL" +:+ m +:+ " ships OpenSSL 1.0.2, which has no PQC; PQC requires EL 9.7+ or EL 10.1+ (OpenSSL 3.5 in the base channel).")
            else None)
    end.

Definition debian_advice (major : option string) : res (option string) :=
  if is_major major "12" then Ok (Some "Debian 12 (bookworm) ships OpenSSL 3.0; OpenSSL 3.5 is available in trixie or bookworm-backports.")
  else
    old ← int_before major 12;
    Ok (if (old : bool) then Some "Pre-bookworm Debian ships OpenSSL 1.1.x; upgrade to Debian 12 + backports or newer." else None).
Definition ubuntu_advice (version_id major : string) : string :=
  if 26 <=? digits_val (chars major) then
    "Ubuntu 26.04 LTS and later ship OpenSSL 3.5 in main, but this host reports an older OpenSSL; check for held, pinned or third-party OpenSSL packages (`apt-cache policy openssl libssl3t64`) and apply pending updates."
  else if String.eqb major "24" then
    "Ubuntu 24.04 LTS ships OpenSSL 3.0 and its archive carries no OpenSSL 3.5 build; PQC requires Ubuntu 26.04 LTS or later, which ships OpenSSL 3.5 in main."
  else "Ubuntu " +:+ version_id +:+ " predates OpenSSL 3.5 in the Ubuntu archive; PQC requires Ubuntu 26.04 LTS or later, which ships OpenSSL 3.5 in main.".

(** [os_release.get("version_id") or ""]. *)
Definition version_id (os_release : list (string * value)) : res string :=
  match default VNone (dget "version_id" os_release) with
  | VStr s => Ok s
  | v => if truthy v then Raise AttributeError else Ok EmptyString
  end.
Definition non_blank (s : string) : option string := if nonempty s then Some s else None.
Definition recent (version_tuple : option (list Z)) : bool :=
  match version_tuple with Some (a :: v) => tuple_ge (take 2 (a :: v)) [3; 5] | _ => false end.
Definition openssl_upgrade_path (version_tuple : option (list Z)) (os_release : list (string * value)) : res (option string) :=
  if recent version_tuple then Ok None
  else if is_nil os_release then Ok None
  else
    let family := os_text "family" os_release in
    let id := os_text "id" os_release in
    v ← version_id os_release;
    let ver := split "." v in
    let major := m ← head ver; non_blank m in
    if String.eqb family "rhel" then rhel_advice id major (ver !! 1%nat)
    else if String.eqb family "debian" then
      if String.eqb id "debian" then debian_advice major
      else if String.eqb id "ubuntu" then
        Ok (m ← major; if isdigit m then Some (ubuntu_advice v m) else None)
      else Ok None
    else if String.eqb family "suse" then
      Ok (Some "SLES 15 SP6 ships OpenSSL 3.0; OpenSSL 3.5 is available via SUSE Package Hub.  Verify FIPS validation status before swapping.")
    else if String.eqb family "alpine" then
      Ok (Some "Alpine ships OpenSSL via the apk repository.  Edge channel carries 3.5+; verify against the host's apk repo configuration.")
    else if String.eqb family "arch" then Ok (Some "Arch rolls forward; `pacman -Syu` should bring OpenSSL 3.5+.")
    else Ok None.

(** ** From files ([openssl_host.py]) *)

Definition OPENSSL_PACKAGES : list (string * list string) := [
  ("rhel", ["openssl-libs"; "openssl"]); ("suse", ["libopenssl3"; "openssl-3"; "openssl"]); ("debian", ["libssl3t64"; "libssl3"; "openssl"]);
  ("alpine", ["libssl3"; "openssl"]); ("arch", ["openssl"])].
Definition OPENSSL_PROBED_PACKAGES : list string := ["libcrypto3"; "libopenssl3"; "libssl3"; "openssl-libs"; "libopenssl1.1"; "openssl"].
Definition LIBCRYPTO_FILES : list string := ["libcrypto.so.3*"; "libcrypto.so.1.1*"; "libcrypto.so"].
Definition OPENSSL_EMBEDDED_VERSION : re :=
  RSeqs [RLit "OpenSSL "; RGrp 1 (RSeqs [Digits; RLit "."; Digits; RLit "."; Digits; ROpt (RChr is_lower)]); RLit " "].
Definition NOT_OPENSSL : list string := ["AWS-LC"; "BoringSSL"; "LibreSSL"].

Definition VERSION_RE : re :=
  RSeqs [ROpt (RSeqs [Digits; RLit ":"]); RGrp 1 Digits; RLit "."; RGrp 2 Digits; ROpt (RSeqs [RLit "."; RGrp 3 Digits])].
Definition version_tuple (version : string) : option (list Z) :=
  m ← re_match VERSION_RE version;
  Some [group_int 1 m; group_int 2 m; group_int 3 m].
(** [version_tuple(version) if version else None] of a package's version. *)
Definition tuple_of (version : value) : res (option (list Z)) :=
  if negb (truthy version) then Ok None
  else match version with VStr s => Ok (version_tuple s) | _ => Raise TypeError end.

Section Host.
Context (sh : ossl_host).
Let lh := sh_lib sh.
Let h := lh_pkg lh.

(** The first row of each name in turn. *)
Definition first_named (rows : list package) (name : string) : res (option package) :=
  foldM (fun found p => match found with
                        | Some _ => Ok found
                        | None => n ← row_item "name" p; Ok (if py_eq n (VStr name) then Some p else None)
                        end) None rows.
Fixpoint by_preference (rows : list package) (names : list string) : res (option package) :=
  match names with
  | [] => Ok None
  | n :: names => p ← first_named rows n; match p with Some _ => Ok p | None => by_preference rows names end
  end.
(** [p["name"] in names]. *)
Definition in_names (names : list string) (p : package) : res (list package) :=
  n ← row_item "name" p; Ok (if existsb (fun s => py_eq n (VStr s)) names then [p] else []).
Definition rows_named (names : list string) (rows : list package) : res (list package) := ls ← mapM (in_names names) rows; Ok (concat ls).

(** [{p["name"]: p}]: the last row of a name. *)
Definition probed_openssl : res (option package) :=
  found ← probe_package_db h;
  match found with None => Ok None | Some f => by_preference (reverse (pb_packages f)) OPENSSL_PROBED_PACKAGES end.
Definition openssl_package (family : string) : res (option package) :=
  match dget family OPENSSL_PACKAGES with
  | None => probed_openssl
  | Some names =>
      if bool_decide (family ∈ ["rhel"; "suse"]) then
        inv ← query_rpm_packages h;
        match inv with
        | inl _ => Ok None
        | inr iv => rows ← rows_named names (iv_packages iv); rows ← mapM name_version rows; by_preference rows names
        end
      else
        catch (is_class "OSError")
          ('(all, _) ← read_prefixed_package_db h family; rows ← rows_named names all; by_preference rows names)
          (fun _ => Ok None)
  end.

(** The path of the libcrypto and the version it embeds. *)
Fixpoint first_library (files : list string) : res (option (string * option string)) :=
  match files with
  | [] => Ok None
  | f :: files =>
      blob ← read_library lh f;
      match blob with
      | Some b => if existsb (fun mark => contains mark b) NOT_OPENSSL then first_library files
                  else Ok (Some (unhost lh f, group_or 1 <$> re_search OPENSSL_EMBEDDED_VERSION b))
      | None => first_library files
      end
  end.
Definition openssl_library : res (option (string * option string)) := files ← find_files lh LIBCRYPTO_FILES; first_library files.

Record evidence := Evidence {
  ev_package : option package; ev_library : option (string * option string); ev_version : value; ev_source : option string;
  ev_tuple : option (list Z) }.
Definition installed (ev : evidence) : bool :=
  match ev_package ev, ev_library ev with None, None => false | _, _ => true end.
Definition openssl_evidence (family : string) : res evidence :=
  pkg ← openssl_package family;
  lib ← (match pkg with Some _ => Ok None | None => openssl_library end);
  '(version, source) ← (match pkg, lib with
    | Some p, _ => v ← row_item "version" p; Ok (v, Some "package")
    | None, Some (_, Some v) => Ok (VStr v, Some "library")
    | None, _ => Ok (VNone, None)
    end);
  vt ← tuple_of version;
  Ok (Evidence pkg lib version source vt).

(** ** The capability section *)

Definition CLI_ONLY_FIELDS : list string := [
  "kem_algorithms"; "sig_algorithms"; "tls_groups"; "tls_pqc_groups"; "providers"; "third_party_providers"; "third_party_algorithms"].
Definition SCANNER_CLI_REASON (version : string) : string :=
  "--host-mount: the openssl on PATH is the scanner image's (" +:+ version +:+ "), so algorithm lists, TLS groups and providers would describe the image, not the host".
Definition NO_CLI_REASON : string := "openssl CLI not on PATH; algorithm lists, TLS groups and providers need it".

Definition openssl_version_text : Z * string := ph_run h ["openssl"; "version"].
Definition cli_version : string := let '(rc, ver) := openssl_version_text in if rc =? 0 then strip ver else "unknown".
Definition tuple_value (vt : option (list Z)) : value := match vt with Some l => VList (VInt <$> l) | None => VNone end.
Definition library_value (l : string * option string) : value := VDict [("path", VStr l.1); ("version", of_ostr l.2)].
Definition opt_value {A} (f : A -> value) (o : option A) : value := match o with Some a => f a | None => VNone end.
Definition scanner_fields (scanner_cli : bool) : list (string * value) :=
  if scanner_cli then [("scanner_cli_version", VStr cli_version)] else [].

Definition openssl_from_files (os_release : list (string * value)) (scanner_cli : bool) : res (list (string * value)) :=
  ev ← openssl_evidence (os_text "family" os_release);
  let reason := if scanner_cli then SCANNER_CLI_REASON cli_version else NO_CLI_REASON in
  if negb (installed ev) then
    Ok ([("available", VBool false);
         ("reason", VStr (if scanner_cli then "no OpenSSL package or libcrypto found on the host" else "openssl not on PATH"))] ++
        scanner_fields scanner_cli)
  else
    upgrade ← openssl_upgrade_path (ev_tuple ev) os_release;
    Ok ([("available", VBool true);
         ("version", VStr (if truthy (ev_version ev) then "OpenSSL " +:+ py_str (ev_version ev) else "unknown"));
         ("version_tuple", tuple_value (ev_tuple ev));
         ("pqc_native", match ev_tuple ev with Some v => VBool (tuple_ge (take 2 v) [3; 5]) | None => VNone end);
         ("version_source", of_ostr (ev_source ev)); ("package", opt_value VDict (ev_package ev));
         ("library", opt_value library_value (ev_library ev));
         ("cli_probe", VDict [("available", VBool false); ("reason", VStr reason)])] ++
        ((fun f => (f, VNone)) <$> CLI_ONLY_FIELDS) ++ scanner_fields scanner_cli ++
        [("upgrade_path", of_ostr upgrade);
         ("config", VDict (detect_openssl_config (sh_conf sh) (os_text "family" os_release) (ev_tuple ev)))]).

Definition CLI_VERSION_RE : re := RSeqs [RLit "OpenSSL"; RPlus Space; RGrp 1 Digits; RLit "."; RGrp 2 Digits; RLit "."; RGrp 3 Digits].
Definition cli_tuple (version : string) : option (list Z) :=
  m ← re_search CLI_VERSION_RE version; Some [group_int 1 m; group_int 2 m; group_int 3 m].
(** [openssl list <arg>]. *)
Definition openssl_list (args : list string) : Z * string := ph_run h (["openssl"; "list"] ++ args).
Definition listed_algos (answer : Z * string) (pattern : re) : list string :=
  if answer.1 =? 0 then fence_parse_algos answer.2 pattern else [].
Definition cli_groups : list string :=
  let first := openssl_list ["-tls-groups"; "-tls1_3"] in
  let answer := if first.1 =? 0 then first else openssl_list ["-tls-groups"] in
  if answer.1 =? 0 then parse_openssl_tls_groups answer.2 else [].
Definition provider_row (nr : string * list (string * string)) : option value :=
  let '(name, rec) := nr in
  if bool_decide (name ∈ BUILTIN_PROVIDERS) then None
  else Some (VDict [("name", VStr name); ("display_name", of_ostr (dget "name" rec)); ("version", of_ostr (dget "version" rec));
                    ("build_info", of_ostr (dget "build info" rec)); ("status", of_ostr (dget "status" rec))]).
(** [sorted(records.items())]: the names are distinct. *)
Definition third_party_providers (rs : records) : list value :=
  omap (fun n => provider_row (n, default [] (dget n rs))) (py_sorted str_lt rs.*1).
Definition third_party_value (answer : Z * string) : value :=
  VList (if answer.1 =? 0 then (fun np : string * string => VDict [("name", VStr np.1); ("provider", VStr np.2)]) <$> third_party_algorithms answer.2 else []).

Definition openssl_cli_capability (os_release : list (string * value)) : res (list (string * value)) :=
  if negb (ph_which h "openssl") then Ok [("available", VBool false); ("reason", VStr "openssl not on PATH")]
  else
    let version := cli_version in
    let vt := cli_tuple version in
    let kems := openssl_list ["-kem-algorithms"] in
    let sigs := openssl_list ["-signature-algorithms"] in
    let classified := classify_tls_groups cli_groups in
    let '(rc, providers) := openssl_list ["-providers"; "-verbose"] in
    let rs := if rc =? 0 then parse_openssl_provider_records providers else [] in
    upgrade ← openssl_upgrade_path vt os_release;
    Ok [("available", VBool true); ("version", VStr version); ("version_tuple", tuple_value vt); ("pqc_native", VBool (recent vt));
        ("version_source", VStr "cli"); ("kem_algorithms", VStrs (listed_algos kems FENCE_KEM_RE));
        ("sig_algorithms", VStrs (listed_algos sigs FENCE_SIG_RE)); ("tls_groups", buckets_value classified);
        ("tls_pqc_groups", VStrs (sorted_set (pure_pqc classified ++ hybrid classified))); ("providers", VStrs (py_sorted str_lt rs.*1));
        ("third_party_providers", VList (third_party_providers rs));
        ("third_party_algorithms", VDict [("kem", third_party_value kems); ("signature", third_party_value sigs)]);
        ("upgrade_path", of_ostr upgrade);
        ("config", VDict (detect_openssl_config (sh_conf sh) (os_text "family" os_release) vt))].

Definition openssl_capability (os_release : list (string * value)) : res (list (string * value)) :=
  let has_cli := ph_which h "openssl" in
  let host_mount := nonempty (host_prefix (ph_prefix h)) && negb (nonempty (offline_root (ph_prefix h))) in
  if host_mount || negb has_cli then openssl_from_files os_release has_cli else openssl_cli_capability os_release.
End Host.
