(* ===== verification/OpensslTheory.v ===== *)
(** * FIPS mode and the OpenSSL of the host: theorems

    What the algorithm fence compares, that a [--host-mount] scan does not
    report the scanner image's OpenSSL, and which release texts the upgrade
    advice accepts. *)

From S2P Require Import Prelude PyBytes PyStr PyDict PyVal PyRe HostPath Packages PackagesTheory Osinfo OsinfoTheory OpensslConf Classify Openssl Libraries.
Open Scope Z_scope.

(** ** The algorithm fence *)

Section Fence.
Context (h : fips_host).

(** [openssl list <arg> -provider <provider>] succeeds and names the algorithm. *)
Definition lists (list_arg : string) (pattern : re) (provider a : string) : Prop :=
  exists text, fh_which h "openssl" = true /\ fh_run h ["openssl"; "list"; list_arg; "-provider"; provider] = (0, text) /\
    a ∈ m_text <$> re_finditer pattern text.
Definition escapes (list_arg : string) (pattern : re) (a : string) : Prop :=
  lists list_arg pattern "default" a /\ ~ lists list_arg pattern "fips" a.
(** A post-quantum group of the default provider only, both listings read. *)
Definition group_escapes (g : string) : Prop := exists fips_text def_text,
  tls_groups_of h "fips" = (0, fips_text) /\ tls_groups_of h "default" = (0, def_text) /\
  g ∈ parse_openssl_tls_groups def_text /\ g ∉ parse_openssl_tls_groups fips_text /\
  (tls_class g = Some KPure \/ tls_class g = Some KHybrid).

Lemma elem_of_listed list_arg pattern provider a :
  a ∈ default [] (fence_provider_algos h list_arg pattern provider) <-> lists list_arg pattern provider a.
Proof.
  unfold fence_provider_algos, lists. destruct (fh_which h "openssl"); cbn [negb].
  - destruct (fh_run h _) as [rc out]. destruct (Z.eqb_spec rc 0) as [->|Hrc]; cbn [default from_option id].
    + unfold fence_parse_algos. rewrite elem_of_sorted_set. split; [by exists out|]. intros (t & _ & [= ->] & Ha). done.
    + split; [by intros ?%not_elem_of_nil|]. intros (t & _ & [= -> _] & _). done.
  - split; [by intros ?%not_elem_of_nil|]. by intros (t & ? & _).
Qed.

Lemma elem_of_set_minus a b x : x ∈ set_minus a b <-> x ∈ a /\ x ∉ b.
Proof.
  unfold set_minus. rewrite elem_of_sorted_set, list_elem_of_In, filter_In, <-list_elem_of_In, negb_true_iff, bool_decide_eq_false. done.
Qed.

Lemma elem_of_outside list_arg pattern a : a ∈ outside h list_arg pattern <-> escapes list_arg pattern a.
Proof. unfold outside, escapes. by rewrite elem_of_set_minus, !elem_of_listed. Qed.

Lemma elem_of_outside_groups g : g ∈ default [] (outside_groups h) <-> group_escapes g.
Proof.
  unfold outside_groups, group_escapes. destruct (tls_groups_of h "fips") as [rf ft], (tls_groups_of h "default") as [rd dt].
  destruct (Z.eqb_spec rf 0) as [->|Hf]; cbn [andb default from_option id].
  2: { split; [by intros ?%not_elem_of_nil|]. by intros (? & ? & [= ? ?] & _). }
  destruct (Z.eqb_spec rd 0) as [->|Hd]; cbn [andb default from_option id].
  2: { split; [by intros ?%not_elem_of_nil|]. by intros (? & ? & _ & [= ? ?] & _). }
  pose proof (classify_tls_partition (set_minus (parse_openssl_tls_groups dt) (parse_openssl_tls_groups ft))) as P.
  rewrite elem_of_sorted_set, elem_of_app.
  pose proof (part_mem _ _ _ P KPure g) as Hp. pose proof (part_mem _ _ _ P KHybrid g) as Hh.
  cbn [bucket] in Hp, Hh. rewrite Hp, Hh, elem_of_set_minus. split.
  - intros [[[Hi Ho] Hc]|[[Hi Ho] Hc]]; exists ft, dt; split_and!; auto.
  - intros (? & ? & [= <-] & [= <-] & Hi & Ho & [Hc|Hc]); auto.
Qed.

Lemma is_nil_spec {A} (l : list A) : is_nil l = true <-> forall x, x ∉ l.
Proof.
  destruct l as [|a l]; cbn [is_nil]; split; try done.
  - intros _ x. apply not_elem_of_nil.
  - intros H. exfalso. apply (H a). by left.
Qed.

Lemma engaged_groups : match outside_groups h with Some g => is_nil g | None => true end = is_nil (default [] (outside_groups h)).
Proof. by destruct (outside_groups h). Qed.
End Fence.

(** The FIPS fence is checked exactly when the kernel flag and the active
    FIPS provider are both there.  A check lists, sorted and without repeats,
    exactly the algorithms and post-quantum groups that the default provider
    lists and the FIPS provider does not, and the fence is engaged exactly
    when there is none; without a check it is not engaged and nothing is
    listed. *)
Theorem fips_fence_exact h fips (f := fips_fence_check h fips) :
  fe_active f = truthy_in "kernel" fips && truthy_in "openssl_provider" fips /\
  (fe_active f = false -> f = Fence false false [] [] [] (Some FENCE_SKIP)) /\
  (fe_active f = true ->
    fe_skip f = None /\
    (forall a, a ∈ fe_kems f <-> escapes h "-kem-algorithms" FENCE_KEM_RE a) /\
    (forall a, a ∈ fe_signatures f <-> escapes h "-signature-algorithms" FENCE_SIG_RE a) /\
    (forall g, g ∈ fe_groups f <-> group_escapes h g) /\
    (fe_engaged f = true <->
      (forall a, ~ escapes h "-kem-algorithms" FENCE_KEM_RE a) /\ (forall a, ~ escapes h "-signature-algorithms" FENCE_SIG_RE a) /\
      (forall g, ~ group_escapes h g))) /\
  Forall (fun l => NoDup l /\ StronglySorted (not_gt str_lt) l) [fe_kems f; fe_signatures f; fe_groups f].
Proof.
  subst f. unfold fips_fence_check. destruct (truthy_in "kernel" fips && truthy_in "openssl_provider" fips); cbn [negb].
  2: { split_and!; try done. cbn. by repeat constructor. }
  cbv zeta. cbn [fe_active fe_skip fe_kems fe_signatures fe_groups fe_engaged]. split_and!; [done|done| |].
  - intros _. split_and!; [done | intros a; apply elem_of_outside | intros a; apply elem_of_outside | intros g; apply elem_of_outside_groups|].
    rewrite engaged_groups, !andb_true_iff, !is_nil_spec.
    setoid_rewrite elem_of_outside. setoid_rewrite elem_of_outside_groups. tauto.
  - repeat constructor; try apply NoDup_sorted_set; try apply sorted_set_sorted;
      unfold outside_groups; destruct (tls_groups_of h "fips"), (tls_groups_of h "default"), (_ && _); cbn;
      first [apply NoDup_sorted_set | apply sorted_set_sorted | constructor].
Qed.

(** A host on which FIPS is active and every [openssl list] fails: nothing was
    compared, and the fence is reported as engaged. *)
Theorem fence_unread_engaged h fips :
  truthy_in "kernel" fips && truthy_in "openssl_provider" fips = true -> (forall args, (fh_run h args).1 <> 0) ->
  fips_fence_check h fips = Fence true true [] [] [] None.
Proof.
  intros Hf Hr. unfold fips_fence_check. rewrite Hf. cbn [negb].
  assert (Ho : forall arg pattern, outside h arg pattern = []).
  { intros arg pattern. unfold outside. replace (fence_provider_algos h arg pattern "default") with (@None (list string)); [done|].
    unfold fence_provider_algos. destruct (fh_which h "openssl"); [|done]. cbn [negb].
    specialize (Hr ["openssl"; "list"; arg; "-provider"; "default"]). destruct (fh_run h _) as [rc out].
    by destruct (Z.eqb_spec rc 0). }
  rewrite !Ho. unfold outside_groups, tls_groups_of.
  pose proof (Hr ["openssl"; "list"; "-tls-groups"; "-provider"; "fips"]) as Hg. destruct (fh_run h _) as [rf ft].
  destruct (fh_run h _) as [rd dt]. apply Z.eqb_neq in Hg. cbn [fst] in Hg. by rewrite Hg.
Qed.

(** ** A [--host-mount] scan *)

(** The same host seen from another scanner image: its commands, its
    OPENSSL_CONF and the directory its openssl was built for. *)
Record scanner := Scanner { sc_run : list string -> Z * string; sc_conf_var : string; sc_openssldir : option string }.
Definition other_env (c : conf_env) (s : scanner) : conf_env :=
  ConfEnv (e_prefix c) (sc_conf_var s) (sc_openssldir s) (e_read c) (e_list c) (e_probe c) (e_fs_note c).
Definition on_scanner (sh : ossl_host) (s : scanner) : ossl_host :=
  OsslHost (LibHost (with_run (lh_pkg (sh_lib sh)) (sc_run s)) (lh_platform (sh_lib sh)) (lh_glob (sh_lib sh)) (lh_globs (sh_lib sh))
    (lh_resolve (sh_lib sh)) (lh_size (sh_lib sh)) (lh_bytes (sh_lib sh)) (lh_text (sh_lib sh)) (lh_iterdir (sh_lib sh)) (lh_note (sh_lib sh)))
    (other_env (sh_conf sh) s).

(** The fields that describe the scanner's own command line tool. *)
Definition about_scanner (k : string) : Prop := k ∈ ["scanner_cli_version"; "cli_probe"].
Definition same_host_facts (a b : res (list (string * value))) : Prop :=
  match a, b with
  | Ok d, Ok e => forall k, ~ about_scanner k -> dget k d = dget k e
  | Raise x, Raise y => x = y
  | _, _ => False
  end.
Definition no_cli_facts (a : res (list (string * value))) : Prop :=
  match a with Ok d => Forall (fun k => dget k d = None \/ dget k d = Some VNone) CLI_ONLY_FIELDS | Raise _ => True end.

Section Mount.
Context (sh : ossl_host) (s : scanner).
Let h := lh_pkg (sh_lib sh).
Let r := sc_run s.
Context (Hconf : e_prefix (sh_conf sh) = true).
Context (Hprefix : nonempty (host_prefix (ph_prefix h)) = true).
Context (Hr : forall args, r ("rpm" :: "--root" :: host_prefix (ph_prefix h) :: args) = ph_run h ("rpm" :: "--root" :: host_prefix (ph_prefix h) :: args)).

Lemma package_confined family : openssl_package (on_scanner sh s) family = openssl_package sh family.
Proof.
  unfold openssl_package, probed_openssl. change (lh_pkg (sh_lib (on_scanner sh s))) with (with_run h r).
  destruct (dget family OPENSSL_PACKAGES) as [names|]; [|by rewrite probe_confined].
  by rewrite query_confined, prefixed_same.
Qed.

Lemma library_confined : openssl_library (on_scanner sh s) = openssl_library sh.
Proof. reflexivity. Qed.

Lemma evidence_confined family : openssl_evidence (on_scanner sh s) family = openssl_evidence sh family.
Proof. unfold openssl_evidence. by rewrite package_confined, library_confined. Qed.

Lemma conf_confined family version :
  detect_openssl_config (sh_conf (on_scanner sh s)) family version = detect_openssl_config (sh_conf sh) family version.
Proof.
  assert (Hl : locate_openssl_config (other_env (sh_conf sh) s) family = locate_openssl_config (sh_conf sh) family).
  { unfold locate_openssl_config. change (e_prefix (other_env (sh_conf sh) s)) with (e_prefix (sh_conf sh)). by rewrite Hconf. }
  unfold detect_openssl_config. cbn [on_scanner sh_conf]. by rewrite Hl.
Qed.

Lemma files_confined os_release cli :
  same_host_facts (openssl_from_files (on_scanner sh s) os_release cli) (openssl_from_files sh os_release cli).
Proof.
  unfold openssl_from_files. rewrite evidence_confined. destruct (openssl_evidence sh _) as [ev|e]; [|done].
  cbn [mbind res_bind]. destruct (installed ev); cbn [negb].
  - destruct (openssl_upgrade_path _ _) as [up|e]; [|done]. cbn [mbind res_bind same_host_facts].
    intros k Hk. unfold about_scanner in Hk. unfold scanner_fields.
    apply not_elem_of_cons in Hk as [H1 Hk]. apply not_elem_of_cons in Hk as [H2 _].
    rewrite conf_confined. destruct cli; [|done].
    rewrite !dget_app. cbn [dget].
    by rewrite !(decide_False (P := k = "scanner_cli_version")), !(decide_False (P := k = "cli_probe")).
  - cbn [same_host_facts]. intros k Hk. unfold scanner_fields. destruct cli; [|done]. rewrite !dget_app. cbn [dget].
    apply not_elem_of_cons in Hk as [Hk _]. by rewrite !(decide_False (P := k = "scanner_cli_version")).
Qed.

Lemma files_no_cli os_release cli : no_cli_facts (openssl_from_files sh os_release cli).
Proof.
  unfold openssl_from_files. destruct (openssl_evidence sh _) as [ev|e]; [|done]. cbn [mbind res_bind].
  destruct (installed ev); cbn [negb].
  - destruct (openssl_upgrade_path _ _) as [up|e]; [|done]. cbn [mbind res_bind no_cli_facts]. unfold scanner_fields.
    destruct cli; repeat (apply Forall_cons; split; [by right|]); apply Forall_nil_2.
  - cbn [no_cli_facts]. unfold scanner_fields. destruct cli; repeat (apply Forall_cons; split; [by left|]); apply Forall_nil_2.
Qed.
End Mount.


(** ** The upgrade advice *)

(** The first dotted part of the release text. *)
Definition major_of (v : string) : option string := m ← head (split "." v); non_blank m.
(** Where the code compares the major number with a bound by [int(major)]. *)
Definition compares_major (family id m : string) : Prop :=
  family = "rhel" /\ id = "fedora" \/ family = "debian" /\ id = "debian" /\ m <> "12".
Definition not_an_int (m : string) : exn := ValueError ("invalid literal for int() with base 10: " +:+ str_repr m).

Lemma int_before_raise major n e :
  int_before major n = Raise e <-> exists m, major = Some m /\ int_of_str m = None /\ e = not_an_int m.
Proof.
  unfold int_before. destruct major as [m|]; [|split; [done | by intros (? & ? & _)]].
  destruct (int_of_str m) eqn:E.
  - split; [done|]. by intros (? & [= <-] & ? & _); simplify_eq.
  - split; [intros [= <-]; by exists m | by intros (? & [= <-] & _ & ->)].
Qed.

Lemma rhel_advice_raise id major minor e :
  rhel_advice id major minor = Raise e <-> id = "fedora" /\ int_before major 41 = Raise e.
Proof.
  unfold rhel_advice. destruct (String.eqb_spec id "fedora") as [->|Hne].
  - change (String.eqb "fedora" "rhel") with false. change (bool_decide ("fedora" ∈ ["rocky"; "almalinux"; "centos"; "ol"])) with false.
    change (bool_decide ("fedora" ∈ ["rhel"; "rocky"; "almalinux"; "centos"; "ol"])) with false. cbn [andb].
    destruct (int_before major 41); cbn [mbind res_bind]; [|naive_solver]. split; [by destruct (_ : bool) | by intros [_ ?]].
  - split; [|by intros [? _]]. repeat case_match; by intros [=].
Qed.

Lemma debian_advice_raise major e :
  debian_advice major = Raise e <-> major <> Some "12" /\ int_before major 12 = Raise e.
Proof.
  unfold debian_advice, is_major. case_bool_decide as H; [split; [done | by intros [? _]]|].
  destruct (int_before major 12); cbn [mbind res_bind]; naive_solver.
Qed.

Lemma version_id_raise osr e :
  version_id osr = Raise e <-> e = AttributeError /\ exists v, dget "version_id" osr = Some v /\ truthy v = true /\ forall s, v <> VStr s.
Proof.
  unfold version_id. destruct (dget "version_id" osr) as [v|]; cbn [default from_option id].
  - assert (Hv : (exists s, v = VStr s) \/ (forall s, v <> VStr s)) by (destruct v; eauto; by right).
    destruct Hv as [[s ->]|Hv]; [split; [done|]; intros (_ & v & [= <-] & _ & Hs); by destruct (Hs s)|].
    transitivity ((if truthy v then Raise AttributeError else Ok EmptyString) = Raise (A := string) e); [destruct v; try done; by destruct (Hv s)|].
    destruct (truthy v) eqn:Ht; [split; [intros [= <-]; eauto | by intros [-> _]] | split; [done|]]. intros (_ & w & [= <-] & Hw & _). congruence.
  - split; [done|]. by intros (_ & v & ? & _).
Qed.

Lemma advice_raise (family id v : string) (major : option string) e :
  (if String.eqb family "rhel" then rhel_advice id major (split "." v !! 1%nat)
   else if String.eqb family "debian" then
     if String.eqb id "debian" then debian_advice major
     else if String.eqb id "ubuntu" then Ok (m ← major; if isdigit m then Some (ubuntu_advice v m) else None) else Ok None
   else if String.eqb family "suse" then Ok (Some "SLES 15 SP6 ships OpenSSL 3.0; OpenSSL 3.5 is available via SUSE Package Hub.  Verify FIPS validation status before swapping.")
   else if String.eqb family "alpine" then Ok (Some "Alpine ships OpenSSL via the apk repository.  Edge channel carries 3.5+; verify against the host's apk repo configuration.")
   else if String.eqb family "arch" then Ok (Some "Arch rolls forward; `pacman -Syu` should bring OpenSSL 3.5+.")
   else Ok None) = Raise e <->
  exists m, major = Some m /\ int_of_str m = None /\ compares_major family id m /\ e = not_an_int m.
Proof.
  unfold compares_major. destruct (String.eqb_spec family "rhel") as [->|Hf].
  - rewrite rhel_advice_raise, int_before_raise. naive_solver.
  - destruct (String.eqb_spec family "debian") as [->|Hd]; [|repeat case_match; naive_solver].
    destruct (String.eqb_spec id "debian") as [->|Hi]; [|case_match; naive_solver].
    rewrite debian_advice_raise, int_before_raise. split.
    + intros (Hne & m & -> & Hm & ->). exists m. split_and!; try done. right. split_and!; try done. by intros ->.
    + intros (m & -> & Hm & [[? _]|(_ & _ & Hne)] & ->); [done|]. split; [by intros [= ->] | by exists m].
Qed.

(** There is no advice for an OpenSSL of 3.5 or later, nor without a known
    release.  Otherwise the advice fails exactly when the release text is not
    a text, or when the release is Fedora or Debian and the part of its
    version before the first dot is there and is no number (and not 12 for
    Debian): then [int] raises ValueError out of the whole OpenSSL section. *)
Theorem openssl_upgrade_path_errors vt osr :
  (recent vt = true \/ osr = [] -> openssl_upgrade_path vt osr = Ok None) /\
  (recent vt = false -> osr <> [] -> forall e, openssl_upgrade_path vt osr = Raise e <->
    (e = AttributeError /\ exists v, dget "version_id" osr = Some v /\ truthy v = true /\ forall s, v <> VStr s) \/
    (exists v m, version_id osr = Ok v /\ major_of v = Some m /\ int_of_str m = None /\
       compares_major (os_text "family" osr) (os_text "id" osr) m /\ e = not_an_int m)).
Proof.
  unfold openssl_upgrade_path. split; [intros [->| ->]; [done|]; by destruct (recent vt)|].
  intros -> Hne e. assert (is_nil osr = false) as -> by by destruct osr.
  rewrite <-version_id_raise. destruct (version_id osr) as [v|x]; cbn [mbind res_bind].
  - rewrite advice_raise. change (m ← head (split "." v); non_blank m) with (major_of v). naive_solver.
  - naive_solver.
Qed.

(** ** Witnesses *)

(** An openSUSE host mounted at [/host], read by its ndb database. *)
Definition sample_ossl (data : bytes) (prefix : bool) : ossl_host :=
  OsslHost (LibHost (sample_host data 0) "linux" (fun _ _ => []) (fun _ => []) (fun f => Ok f) (fun _ => Ok 0) (fun _ => Ok EmptyString)
    (fun _ => None) (fun _ => []) None) (sample_conf prefix).
Definition rhel_9_4 : list (string * value) := [("family", VStr "rhel"); ("id", VStr "rhel"); ("version_id", VStr "9.4")].
Definition image : scanner :=
  Scanner (fun args => if bool_decide (take 3 args = ["rpm"; "--root"; "/host"]) then (0, "bash 5.2 1 x86_64") else (0, "OpenSSL 3.0.13"))
    "/etc/image.cnf" (Some "/usr/lib/ssl").


Example sample_ossl_version :
  (dget "version" <$> (match openssl_capability (sample_ossl sample_ndb true) rhel_9_4 with Ok d => Some d | Raise _ => None end)) =
  Some (Some (VStr "OpenSSL 3.5.1")).
Proof. vm_compute. reflexivity. Qed.

Lemma openssl_upgrade_path_errors_witness :
  openssl_upgrade_path (Some [3; 5; 1]) rhel_9_4 = Ok None /\
  openssl_upgrade_path (Some [3; 0; 2]) [("family", VStr "debian"); ("id", VStr "debian"); ("version_id", VStr "bookworm/sid")] =
    Raise (not_an_int "bookworm/sid").
Proof.
  split; [apply (proj1 (openssl_upgrade_path_errors _ _)); left; reflexivity|].
  apply (proj2 (openssl_upgrade_path_errors _ _)); [reflexivity | discriminate|].
  right. exists "bookworm/sid", "bookworm/sid". split_and!; try reflexivity. right. split_and!; [reflexivity..|discriminate].
Defined.

(** A Debian testing tree with no os-release: the release text the scan itself
    makes of [/etc/debian_version] is one the advice fails on. *)
Example debian_testing_raises :
  (osr ← detect_os (tree_host "linux" "6.1" [("/mnt/etc/debian_version", "bookworm/sid" +:+ newline)]);
   openssl_upgrade_path (Some [3; 0; 2]) osr) = Raise (not_an_int "bookworm/sid").
Proof. vm_compute. reflexivity. Qed.
