(* ===== verification/ProcNet.v ===== *)
(** * The tables of /proc ([detect/runtime_services.py], parsing;
    [detect/runtime_processes.py], [parse_established_inodes])

    The socket tables of /proc/net, the scope of a bound address and the
    libraries of /proc/<pid>/maps. *)

From stdpp Require Import pretty.
From S2P Require Import Prelude PyStr PyDict PyRe PyPath PyIp PyBytes OsinfoTheory.
Open Scope Z_scope.
(** ** Numbers and addresses as Python's standard library reads and prints them *)

(** The digits of [int(s, 16)]: [us] says that an underscore may follow,
    [done] that the text may end here. *)
Fixpoint hex_digits (us done : bool) (acc : Z) (l : list ascii) : option Z :=
  match l with
  | [] => if done then Some acc else None
  | c :: l =>
      match hex_val c with
      | Some v => hex_digits true true (16 * acc + v) l
      | None => if Ascii.eqb c "_" && us then hex_digits false false acc l else None
      end
  end.
Definition unsigned_hex (l : list ascii) : option Z :=
  match l with
  | "0"%char :: "x"%char :: l | "0"%char :: "X"%char :: l => hex_digits true false 0 l
  | l => hex_digits false false 0 l
  end.
(** [int(s, 16)]: [None] where Python raises ValueError. *)
Definition int16 (s : string) : option Z :=
  match chars (strip s) with
  | "-"%char :: l => Z.opp <$> unsigned_hex l
  | "+"%char :: l => unsigned_hex l
  | l => unsigned_hex l
  end.

(** [socket.inet_ntop(AF_INET6, ...)]: the text of glibc, which ends an
    IPv4-mapped or IPv4-compatible address in dotted form. *)
Definition inet_ntop6 (n : Z) : string :=
  let hs := hextets n in
  let '(start, len) := best_run 0 (0, 0)%nat (0, 0)%nat hs in
  if Nat.eqb start 0 && Nat.eqb len 6 then "::" +:+ show_v4 (n mod 4294967296)
  else if Nat.eqb start 0 && Nat.eqb len 5 && bool_decide (hs !! 5%nat = Some 65535) then "::ffff:" +:+ show_v4 (n mod 4294967296)
  else str_join ":" (compress hs).

(** ** Socket tables *)

Definition TCP_LISTEN : string := "0A".
Definition UDP_UNCONNECTED : string := "07".
Definition TCP_ESTABLISHED : string := "01".

Definition int_error (base : string) (s : string) : exn := ValueError ("invalid literal for int() with base " +:+ base +:+ ": " +:+ s).
Definition as_int16 (s : string) : res Z := match int16 s with Some z => Ok z | None => Raise (int_error "16" s) end.
Definition as_int (s : string) : res Z := match int_of_str s with Some z => Ok z | None => Raise (int_error "10" s) end.

(** [addr_hex[i:i+8] for i in range(0, len(addr_hex), 8)]. *)
Fixpoint eights (fuel : nat) (l : list ascii) : list string :=
  match fuel, l with
  | S fuel, _ :: _ => str_of (take 8 l) :: eights fuel (drop 8 l)
  | _, _ => []
  end.
(** [struct.pack("=I", w)] in the byte order of the scanning machine. *)
Definition pack_native (big : bool) (w : Z) : res bytes :=
  if (0 <=? w) && (w <? 4294967296) then Ok (enc_word big 4 w) else Raise (Custom "struct.error" "argument out of range").

Record sock := Sock { sk_protocol : string; sk_family : string; sk_address : string; sk_port : Z; sk_inode : Z }.

Section Native.
Context (big : bool).

Definition decode_proc_net_address (hexaddr : string) : res (string * string * Z) :=
  match split ":" hexaddr with
  | [addr_hex; port_hex] =>
      ws ← mapM as_int16 (eights (String.length addr_hex) (chars addr_hex));
      raws ← mapM (pack_native big) ws;
      let raw := concat raws in
      port ← as_int16 port_hex;
      if blen raw =? 4 then Ok ("ipv4", show_v4 (from_bytes raw), port)
      else if blen raw =? 16 then Ok ("ipv6", inet_ntop6 (from_bytes raw), port)
      else Raise (ValueError ("unexpected address length in " +:+ hexaddr))
  | _ => Raise (ValueError "values to unpack")
  end.

(** A row that does not decode is [None]; [struct.error] is not caught. *)
Definition decode_row (parts : list string) : res (option (string * string * Z * Z * Z)) :=
  match ('(family, address, port) ← decode_proc_net_address (default EmptyString (parts !! 1%nat));
         '(_, _, rport) ← decode_proc_net_address (default EmptyString (parts !! 2%nat));
         inode ← as_int (default EmptyString (parts !! 9%nat));
         Ok (family, address, port, rport, inode)) with
  | Ok r => Ok (Some r)
  | Raise (ValueError _) => Ok None
  | Raise e => Raise e
  end.

Definition parse_proc_net_row (protocol : string) (line : string) : res (option sock) :=
  let want := if String.eqb protocol "tcp" then TCP_LISTEN else UDP_UNCONNECTED in
  let parts := words line in
  if Nat.ltb (length parts) 10 || negb (String.eqb (default EmptyString (parts !! 3%nat)) want) then Ok None
  else
    row ← decode_row parts;
    match row with
    | None => Ok None
    | Some (family, address, port, rport, inode) =>
        if (port =? 0) || (inode =? 0) || (String.eqb protocol "udp" && negb (rport =? 0)) then Ok None
        else Ok (Some (Sock protocol family address port inode))
    end.
Definition parse_proc_net (text protocol : string) : res (list sock) :=
  rows ← mapM (parse_proc_net_row protocol) (drop 1 (splitlines text)); Ok (omap id rows).
End Native.

(** The inodes as a set: sorted, without repeats. *)
Definition established_row (line : string) : option Z :=
  let parts := words line in
  if Nat.ltb (length parts) 10 || negb (String.eqb (default EmptyString (parts !! 3%nat)) TCP_ESTABLISHED) then None
  else inode ← int_of_str (default EmptyString (parts !! 9%nat)); if inode =? 0 then None else Some inode.
Definition parse_established_inodes (text : string) : list Z := omap established_row (drop 1 (splitlines text)).

(** ** The scope of a bound address *)

Definition v4_scope (n : Z) : string :=
  if n =? 0 then "any" else if n / 16777216 =? 127 then "loopback" else if n / 268435456 =? 14 then "multicast"
  else if n / 65536 =? 43518 then "link-local" else "specific".
Definition v6_scope (n : Z) : string :=
  if n =? 0 then "any" else if n =? 1 then "loopback" else if n / 2 ^ 120 =? 255 then "multicast"
  else if n / 2 ^ 118 =? 1018 then "link-local" else "specific".
Definition scope_of (a : ip_addr) : string :=
  match a with
  | V4 n => v4_scope n
  | V6 n _ => match ipv4_mapped n with Some m => v4_scope m | None => v6_scope n end
  end.
Definition bind_scope (address : string) : res string :=
  match ip_address address with
  | Some a => Ok (scope_of a)
  | None => Raise (ValueError (address +:+ " does not appear to be an IPv4 or IPv6 address"))
  end.

(** ** Mapped libraries *)

Definition LIBRARIES : list (string * re) :=
  let numbers := ROpt (RSeqs [RLit "."; RPlus (RChr (fun c => is_digit c || Ascii.eqb c "."))]) in [
  ("openssl", RSeqs [Bos; RLit "lib"; RAlts [RLit "ssl"; RLit "crypto"]; RLit ".so";
     ROpt (RSeqs [RLit "."; RPlus (RChr (fun c => is_word c || Ascii.eqb c "."))]); Eos]);
  ("gnutls", RSeqs [Bos; RLit "libgnutls.so"; numbers; Eos]);
  ("nss", RSeqs [Bos; RLit "libnss3.so"; numbers; Eos]);
  ("wolfssl", RSeqs [Bos; RLit "libwolfssl.so"; numbers; Eos])].
Definition SONAME_VERSION_RE : re :=
  RSeqs [RLit ".so."; RGrp 1 (RSeq (RPlus Digit) (RStar true (RSeq (RLit ".") (RPlus Digit)))); Eos].
Definition family_of_base (base : string) : option string := fst <$> List.find (fun fp : string * re => test_match fp.2 base) LIBRARIES.
Definition soname_version (base : string) : option string := group_or 1 <$> re_search SONAME_VERSION_RE base.

Record mapped := Mapped {
  mp_family : string; mp_path : string; mp_soname : option string; mp_deleted : bool; mp_range : string; mp_key : option (string * Z) }.

(** [line.split(None, 5)]: at most six parts, the last with its blanks. *)
Fixpoint split_max (n : nat) (l : list ascii) : list string :=
  match drop_while is_space l with
  | [] => []
  | l => match n with
         | O => [str_of l]
         | S n =>
             let w := str_of (take (length l - length (drop_while (fun c => negb (is_space c)) l)) l) in
             w :: split_max n (drop_while (fun c => negb (is_space c)) l)
         end
  end.
Definition DELETED : string := " (deleted)".
Definition maps_line (seen : list (string * mapped)) (line : string) : list (string * mapped) :=
  match split_max 5 (chars line) with
  | [range; _; _; dev; inode; rest] =>
      let path := strip rest in
      let deleted := ends_with DELETED path in
      let path := remove_suffix DELETED path in
      if negb (starts_with "/" path) || dmem path seen then seen
      else
        let base := basename path in
        match family_of_base base with
        | None => seen
        | Some family =>
            let inode := default 0 (int_of_str inode) in
            dset path (Mapped family path (soname_version base) deleted range (if inode =? 0 then None else Some (dev, inode))) seen
        end
  | _ => seen
  end.
Definition parse_maps_libraries (text : string) : list mapped := (foldl maps_line [] (splitlines text)).*2.

(** * The tables of /proc: theorems

    The socket tables a Linux kernel prints are read back, whatever the byte
    order of the machine. *)
(** ** Numbers *)

Definition all_digits (l : list ascii) : Prop := Forall (fun c => is_digit c = true) l.
Lemma digits_val_app l k : digits_val (l ++ k) = foldl (fun acc c => 10 * acc + digit_val c) (digits_val l) k.
Proof. unfold digits_val. by rewrite foldl_app. Qed.
Lemma digits_val_acc l acc : foldl (fun acc c => 10 * acc + digit_val c) acc l = acc * 10 ^ Z.of_nat (length l) + digits_val l.
Proof.
  unfold digits_val. revert acc. induction l as [|c l IH]; intros acc; [cbn; lia|]. cbn [foldl length].
  rewrite IH, (IH (10 * 0 + digit_val c)). rewrite Nat2Z.inj_succ, Z.pow_succ_r by lia. ring.
Qed.
Lemma pretty_char x : (x < 10)%N -> is_digit (pretty_N_char x) = true /\ digit_val (pretty_N_char x) = Z.of_N x.
Proof.
  intros Hx. assert (x = 0 \/ x = 1 \/ x = 2 \/ x = 3 \/ x = 4 \/ x = 5 \/ x = 6 \/ x = 7 \/ x = 8 \/ x = 9)%N as H by lia.
  repeat destruct H as [->|H]; [..|subst x]; split; reflexivity.
Qed.
Lemma pretty_go x : forall s, all_digits (chars s) -> all_digits (chars (pretty_N_go x s)) /\
  digits_val (chars (pretty_N_go x s)) = Z.of_N x * 10 ^ Z.of_nat (length (chars s)) + digits_val (chars s).
Proof.
  induction x as [x IH] using (well_founded_induction N.lt_wf_0). intros s Hs.
  destruct (decide (x = 0%N)) as [->|Hx]; [rewrite pretty_N_go_0; split; [done | lia]|].
  rewrite pretty_N_go_step by lia. pose proof (N.mod_lt x 10 ltac:(lia)) as Hm. destruct (pretty_char _ Hm) as [Hd Hv].
  destruct (IH (x / 10)%N ltac:(apply N.div_lt; lia) (String (pretty_N_char (x mod 10)) s)) as [H1 H2]; [by constructor|].
  split; [exact H1|]. rewrite H2. cbn [String.list_ascii_of_string length]. change (pretty_N_char (x mod 10) :: String.list_ascii_of_string s) with ([pretty_N_char (x mod 10)] ++ chars s).
  rewrite digits_val_app. change (digits_val [pretty_N_char (x mod 10)]) with (10 * 0 + digit_val (pretty_N_char (x mod 10))). rewrite digits_val_acc, Hv.
  rewrite Nat2Z.inj_succ, Z.pow_succ_r by lia. pose proof (N.div_mod x 10 ltac:(lia)) as Hdm.
  assert (Z.of_N x = 10 * Z.of_N (x / 10) + Z.of_N (x mod 10)) as -> by lia. ring.
Qed.
Lemma pretty_N_go_length x s : x <> 0%N -> chars (pretty_N_go x s) <> [].
Proof.
  revert s. induction x as [x IH] using (well_founded_induction N.lt_wf_0). intros s Hx. rewrite pretty_N_go_step by lia.
  destruct (decide ((x / 10)%N = 0%N)) as [->|Hd]; [rewrite pretty_N_go_0; done|]. apply IH; [apply N.div_lt; lia | done].
Qed.
Lemma show_Z_digits n : 0 <= n -> all_digits (chars (show_Z n)) /\ digits_val (chars (show_Z n)) = n /\ chars (show_Z n) <> [].
Proof.
  intros Hn. destruct n as [|p|p]; [split_and!; [by repeat constructor|done|done] | | lia].
  destruct (pretty_go (Npos p) EmptyString) as [H1 H2]; [constructor|]. cbn [String.list_ascii_of_string length] in H2.
  change (chars (show_Z (Z.pos p))) with (chars (pretty_N_go (Npos p) EmptyString)).
  split_and!; [done | rewrite H2; cbn; lia | by apply pretty_N_go_length].
Qed.
Lemma int_digits_all l : forall prev acc, all_digits l -> (l <> [] \/ prev = true) -> int_digits prev acc l = Some (digits_val (reverse acc ++ l)).
Proof.
  induction l as [|c l IH]; intros prev acc Hl Hp; cbn [int_digits]; [destruct Hp as [?| ->]; [done | by rewrite app_nil_r]|].
  apply Forall_cons in Hl as [Hc Hl]. rewrite Hc, IH by auto. by rewrite reverse_cons, <-app_assoc.
Qed.
Lemma digit_plain c : is_digit c = true -> is_space c = false /\ c <> "-"%char /\ c <> "+"%char.
Proof. destruct c as [[] [] [] [] [] [] [] []]; try discriminate; done. Qed.
Lemma digits_no_space l : all_digits l -> Forall (fun c => is_space c = false) l.
Proof. intros H. eapply Forall_impl; [exact H|]. intros c Hc. by apply digit_plain. Qed.
Lemma int_of_show n : 0 <= n -> int_of_str (show_Z n) = Some n.
Proof.
  intros Hn. destruct (show_Z_digits n Hn) as (Hd & Hv & Hne). unfold int_of_str.
  rewrite strip_id by (by apply digits_no_space). rewrite <-Hv at 2.
  transitivity (int_digits false [] (chars (show_Z n))); [|rewrite int_digits_all by (auto; by left); reflexivity].
  destruct (chars (show_Z n)) as [|c l]; [done|]. apply Forall_cons in Hd as [Hc _]. destruct (digit_plain c Hc) as (_ & H1 & H2).
  clear -H1 H2. destruct c as [[] [] [] [] [] [] [] []]; try reflexivity; congruence.
Qed.

(** *** Fixed-width hexadecimal, as the kernel's [%08X] prints it *)

Definition hex_up (v : Z) : ascii := ascii_of_N (Z.to_N (if v <? 10 then 48 + v else 55 + v)).
Fixpoint show_hex (n : nat) (v : Z) : list ascii :=
  match n with O => [] | S n => hex_up (v / 16 ^ Z.of_nat n mod 16) :: show_hex n v end.
Definition UP : list ascii := chars "0123456789ABCDEF".
Definition hex_up_ok (v : Z) : bool := bool_decide (hex_val (hex_up v) = Some v) && bool_decide (hex_up v ∈ UP).
Lemma hex_up_reads v : 0 <= v < 16 -> hex_val (hex_up v) = Some v /\ hex_up v ∈ UP.
Proof.
  intros Hv. assert (H : hex_up_ok v = true) by (revert v Hv; apply range_bool; vm_compute; reflexivity).
  apply andb_true_iff in H as [H1 H2]. by apply bool_decide_eq_true in H1, H2.
Qed.
Lemma show_hex_up n v : Forall (fun c => c ∈ UP) (show_hex n v).
Proof. induction n; constructor; [|done]. apply hex_up_reads, Z.mod_pos_bound. lia. Qed.
Lemma length_show_hex n v : length (show_hex n v) = n.
Proof. induction n; cbn; congruence. Qed.
Lemma hex_digits_show n : forall v us done acc, (n <> 0%nat \/ done = true) ->
  hex_digits us done acc (show_hex n v) = Some (acc * 16 ^ Z.of_nat n + v mod 16 ^ Z.of_nat n).
Proof.
  induction n as [|n IH]; intros v us done acc Hd; cbn [show_hex hex_digits].
  - destruct Hd as [?| ->]; [done|]. change (16 ^ Z.of_nat 0) with 1. rewrite Z.mod_1_r. f_equal. lia.
  - pose proof (Z.mod_pos_bound (v / 16 ^ Z.of_nat n) 16 ltac:(lia)) as Hm. rewrite (proj1 (hex_up_reads _ Hm)), IH by auto. f_equal.
    rewrite Nat2Z.inj_succ, Z.pow_succ_r by lia. rewrite (Z.mul_comm 16 (16 ^ Z.of_nat n)), Z.rem_mul_r by (try apply Z.pow_pos_nonneg; lia). ring.
Qed.
Lemma up_plain c : c ∈ UP -> is_space c = false /\ c <> ":"%char /\ is_line_end c = false.
Proof. intros H. repeat (apply elem_of_cons in H as [->|H]; [by split_and!|]). by apply not_elem_of_nil in H. Qed.
Lemma int16_up l : Forall (fun c => c ∈ UP) l -> int16 (str_of l) = hex_digits false false 0 l.
Proof.
  intros Hl. unfold int16. rewrite strip_id, chars_str_of.
  2: { unfold no_chars. rewrite chars_str_of. eapply Forall_impl; [exact Hl|]. intros c Hc. by apply up_plain. }
  destruct Hl as [|c l Hc Hl]; [reflexivity|]. destruct Hl as [|d l Hd _].
  - repeat (apply elem_of_cons in Hc as [->|Hc]; [reflexivity|]). by apply not_elem_of_nil in Hc.
  - repeat (apply elem_of_cons in Hc as [->|Hc]; [|]); [..|by apply not_elem_of_nil in Hc];
      (repeat (apply elem_of_cons in Hd as [->|Hd]; [reflexivity|])); by apply not_elem_of_nil in Hd.
Qed.
Lemma int16_show n v : 0 <= v < 16 ^ Z.of_nat n -> n <> 0%nat -> as_int16 (str_of (show_hex n v)) = Ok v.
Proof.
  intros Hv Hn. unfold as_int16. rewrite int16_up by apply show_hex_up. rewrite hex_digits_show by auto.
  by rewrite Z.mul_0_l, Z.add_0_l, Z.mod_small.
Qed.

(** ** The kernel's rows *)

(** A 32-bit word of an address, in network order, as the machine's
    processor sees it. *)
Definition native (big : bool) (g : bytes) : Z := from_bytes (if big then g else reverse g).
Definition addr_text (big : bool) (ws : list bytes) : list ascii := concat ((fun g => show_hex 8 (native big g)) <$> ws).
Definition endpoint_text (big : bool) (ws : list bytes) (port : Z) : string := str_of (addr_text big ws) +:+ ":" +:+ str_of (show_hex 4 port).
Definition words_ok (ws : list bytes) : Prop := (length ws = 1 \/ length ws = 4)%nat /\ Forall (fun g : bytes => length g = 4%nat) ws.
Definition ip_of (ws : list bytes) : ip_addr := if Nat.eqb (length ws) 1 then V4 (from_bytes (concat ws)) else V6 (from_bytes (concat ws)) None.
Definition family_name (a : ip_addr) : string := match a with V4 _ => "ipv4" | V6 _ _ => "ipv6" end.
Definition shown (a : ip_addr) : string := match a with V4 n => show_v4 n | V6 n _ => inet_ntop6 n end.

Lemma native_range big g : length g = 4%nat -> 0 <= native big g < 2 ^ 32.
Proof.
  intros Hg. unfold native. pose proof (from_bytes_range (if big then g else reverse g)) as H.
  replace (blen (if big then g else reverse g)) with 4 in H; [exact H|]. unfold blen. destruct big; rewrite ?length_reverse, Hg; done.
Qed.
Lemma pack_native_word big g : length g = 4%nat -> pack_native big (native big g) = Ok g.
Proof.
  intros Hg. pose proof (native_range big g Hg). unfold pack_native. change (2 ^ 32) with 4294967296 in *.
  replace ((0 <=? native big g) && (native big g <? 4294967296)) with true by lia. f_equal. unfold enc_word, native.
  change (Z.to_nat 4) with 4%nat. destruct big.
  - rewrite <-Hg. apply to_from_bytes.
  - replace 4%nat with (length (reverse g)) by (by rewrite length_reverse). by rewrite to_from_bytes, reverse_involutive.
Qed.

Lemma eights_concat ws big : forall fuel, (8 * length ws <= fuel)%nat ->
  eights fuel (addr_text big ws) = (fun g => str_of (show_hex 8 (native big g))) <$> ws.
Proof.
  unfold addr_text. induction ws as [|g ws IH]; intros fuel Hf; [by destruct fuel|].
  destruct fuel as [|fuel]; [simpl in Hf; lia|]. rewrite !fmap_cons. cbn [concat].
  transitivity (str_of (take 8 (show_hex 8 (native big g) ++ concat ((fun g => show_hex 8 (native big g)) <$> ws))) ::
    eights fuel (drop 8 (show_hex 8 (native big g) ++ concat ((fun g => show_hex 8 (native big g)) <$> ws)))); [reflexivity|].
  rewrite take_app_length', drop_app_length' by (by rewrite length_show_hex). f_equal. apply IH. simpl in Hf. lia.
Qed.

Lemma mapM_rows {A B} (f : A -> res B) (g : A -> B) l : (forall x, x ∈ l -> f x = Ok (g x)) -> mapM f l = Ok (g <$> l).
Proof.
  induction l as [|x l IH]; intros H; [done|]. rewrite fmap_cons. apply mapM_cons_ok. exists (g x), (g <$> l).
  split_and!; [done | apply H; by left | apply IH; intros; apply H; by right].
Qed.

Lemma addr_up big ws : Forall (fun c => c ∈ UP) (addr_text big ws).
Proof. unfold addr_text. apply Forall_concat, Forall_fmap, Forall_forall. intros g _. apply show_hex_up. Qed.
Lemma length_addr big ws : length (addr_text big ws) = (8 * length ws)%nat.
Proof. unfold addr_text. induction ws as [|g ws IH]; [done|]. rewrite fmap_cons. cbn [concat]. rewrite length_app, length_show_hex, IH. simpl. lia. Qed.
Lemma up_no_colon l : Forall (fun c => c ∈ UP) l -> ":"%char ∉ l.
Proof. rewrite Forall_forall. intros H Hc. by destruct (up_plain _ (H _ Hc)) as (_ & ? & _). Qed.

Lemma decode_endpoint big ws port : words_ok ws -> 0 <= port < 65536 ->
  decode_proc_net_address big (endpoint_text big ws port) = Ok (family_name (ip_of ws), shown (ip_of ws), port).
Proof.
  intros [Hlen Hws] Hp. unfold decode_proc_net_address, endpoint_text.
  change (str_of (addr_text big ws) +:+ ":" +:+ str_of (show_hex 4 port)) with (str_join ":" [str_of (addr_text big ws); str_of (show_hex 4 port)]).
  rewrite join_split; [|done|].
  2: { repeat constructor; rewrite chars_str_of; apply up_no_colon; [apply addr_up | apply show_hex_up]. }
  replace (String.length (str_of (addr_text big ws))) with (length (addr_text big ws)).
  2: { generalize (addr_text big ws). intros l. induction l as [|c l IH]; [done|]. cbn. by rewrite <-IH. }
  rewrite chars_str_of, eights_concat by (rewrite length_addr; lia).
  assert (Hws' : mapM as_int16 ((fun g => str_of (show_hex 8 (native big g))) <$> ws) = Ok (native big <$> ws)).
  { clear Hlen. induction Hws as [|g ws Hg Hws IH]; [done|]. rewrite !fmap_cons. apply mapM_cons_ok. eexists _, _. split_and!; [done| |done].
    apply int16_show; [change (16 ^ Z.of_nat 8) with (2 ^ 32); by apply native_range | done]. }
  rewrite Hws'. cbn [mbind res_bind].
  assert (Hraw : mapM (pack_native big) (native big <$> ws) = Ok ws).
  { clear Hlen Hws'. induction Hws as [|g ws Hg Hws IH]; [done|]. rewrite fmap_cons. apply mapM_cons_ok. eexists _, _. split_and!; [done| |done]. by apply pack_native_word. }
  rewrite Hraw. cbn [mbind res_bind]. cbv zeta. rewrite int16_show by (done || change (16 ^ Z.of_nat 4) with 65536; lia). cbn [mbind res_bind].
  assert (Hb : blen (concat ws) = 4 * Z.of_nat (length ws)).
  { clear Hlen Hws' Hraw. induction Hws as [|g ws Hg Hws IH]; [done|]. cbn [concat length]. rewrite blen_app, IH. unfold blen. rewrite Hg. lia. }
  rewrite Hb. unfold ip_of. destruct Hlen as [-> | ->]; reflexivity.
Qed.

Record krow := KRow {
  kr_slot : string; kr_local : list bytes; kr_port : Z; kr_remote : list bytes; kr_rport : Z; kr_state : Z; kr_mid : list string; kr_inode : Z; kr_rest : list string }.
Definition row_fields (big : bool) (r : krow) : list string :=
  [kr_slot r; endpoint_text big (kr_local r) (kr_port r); endpoint_text big (kr_remote r) (kr_rport r); str_of (show_hex 2 (kr_state r))] ++
  kr_mid r ++ [show_Z (kr_inode r)] ++ kr_rest r.
Definition row_text (big : bool) (r : krow) : string := str_join " " (row_fields big r).
Definition plain_field (s : string) : Prop := no_chars is_space s /\ s <> EmptyString.
Record row_ok (r : krow) : Prop := {
  ro_slot : plain_field (kr_slot r); ro_local : words_ok (kr_local r); ro_remote : words_ok (kr_remote r);
  ro_ports : 0 <= kr_port r < 65536 /\ 0 <= kr_rport r < 65536; ro_state : 0 <= kr_state r < 256; ro_inode : 0 <= kr_inode r;
  ro_mid : length (kr_mid r) = 5%nat /\ Forall plain_field (kr_mid r); ro_rest : Forall plain_field (kr_rest r) }.

(** The socket is a TCP listener or an unconnected UDP socket. *)
Definition listens (protocol : string) (r : krow) : bool :=
  (kr_state r =? if String.eqb protocol "tcp" then 10 else 7) && negb (kr_port r =? 0) && negb (kr_inode r =? 0) &&
  negb (String.eqb protocol "udp" && negb (kr_rport r =? 0)).
Definition sock_of (protocol : string) (r : krow) : sock :=
  let a := ip_of (kr_local r) in Sock protocol (family_name a) (shown a) (kr_port r) (kr_inode r).

Lemma words_join_fields ps : Forall plain_field ps -> words (str_join " " ps) = ps.
Proof.
  intros Hps. unfold words. rewrite chars_str_join. change (chars " ") with [" "%char].
  induction Hps as [|p ps [Hp Hne] Hps IH]; [done|].
  assert (Hc : chars p <> []) by (intros E; apply Hne, chars_inj; done).
  destruct ps as [|q ps].
  - cbn [fmap list_fmap join_chars]. rewrite words_chars_id by done. cbn. by rewrite str_of_chars.
  - rewrite fmap_cons, join_chars_cons by done. cbn [app]. rewrite words_chars_space by done.
    rewrite fmap_cons. cbn [reverse app]. rewrite reverse_nil. cbn [app]. by rewrite str_of_chars, IH.
Qed.

Lemma up_field l : Forall (fun c => c ∈ UP) l -> l <> [] -> plain_field (str_of l).
Proof.
  intros Hl Hne. split; [|intros E; apply Hne; rewrite <-(chars_str_of l), E; done].
  unfold no_chars. rewrite chars_str_of. eapply Forall_impl; [exact Hl|]. intros c Hc. by apply up_plain.
Qed.
Lemma endpoint_field big ws port : plain_field (endpoint_text big ws port).
Proof.
  split.
  - unfold endpoint_text, no_chars. rewrite !chars_app, !chars_str_of. rewrite !Forall_app. split_and!.
    + eapply Forall_impl; [apply addr_up|]. intros c Hc. by apply up_plain.
    + by repeat constructor.
    + eapply Forall_impl; [apply show_hex_up|]. intros c Hc. by apply up_plain.
  - unfold endpoint_text. intros E. apply (f_equal chars) in E. rewrite !chars_app in E. by destruct (chars (str_of _)).
Qed.
Lemma row_plain big r : row_ok r -> Forall plain_field (row_fields big r).
Proof.
  intros Hr. unfold row_fields. rewrite !Forall_app. split_and!; [repeat apply Forall_cons_2; try apply Forall_nil_2 | apply Hr | | apply Hr].
  - apply Hr.
  - apply endpoint_field.
  - apply endpoint_field.
  - apply up_field; [apply show_hex_up | done].
  - destruct (show_Z_digits (kr_inode r) (ro_inode r Hr)) as (Hd & _ & Hne). repeat constructor.
    + by apply digits_no_space.
    + intros E. by rewrite E in Hne.
Qed.

(** *** A row *)

Definition is_state (s : Z) (text : string) (v : Z) : bool := Bool.eqb (String.eqb (str_of (show_hex 2 v)) text) (v =? s).
Lemma state_text v : 0 <= v < 256 ->
  String.eqb (str_of (show_hex 2 v)) TCP_LISTEN = (v =? 10) /\ String.eqb (str_of (show_hex 2 v)) UDP_UNCONNECTED = (v =? 7) /\
  String.eqb (str_of (show_hex 2 v)) TCP_ESTABLISHED = (v =? 1).
Proof.
  intros Hv. assert (H : is_state 10 TCP_LISTEN v && is_state 7 UDP_UNCONNECTED v && is_state 1 TCP_ESTABLISHED v = true)
    by (revert v Hv; apply range_bool; vm_compute; reflexivity).
  rewrite !andb_true_iff in H. destruct H as [[H1 H2] H3]. by apply eqb_prop in H1, H2, H3.
Qed.

Lemma row_words big r : row_ok r -> words (row_text big r) = row_fields big r.
Proof. intros Hr. by apply words_join_fields, row_plain. Qed.
Lemma row_length big r : row_ok r -> Nat.ltb (length (row_fields big r)) 10 = false.
Proof. intros Hr. apply Nat.ltb_ge. unfold row_fields. rewrite !length_app. destruct (ro_mid r Hr) as [-> _]. simpl. lia. Qed.
Lemma row_inode big r : row_ok r -> row_fields big r !! 9%nat = Some (show_Z (kr_inode r)).
Proof.
  intros Hr. unfold row_fields. rewrite lookup_app_r by (simpl; lia). destruct (ro_mid r Hr) as [Hm _].
  rewrite lookup_app_r by (simpl; lia). rewrite Hm. reflexivity.
Qed.

Lemma parse_row big protocol r : row_ok r -> protocol = "tcp" \/ protocol = "udp" ->
  parse_proc_net_row big protocol (row_text big r) = Ok (if listens protocol r then Some (sock_of protocol r) else None).
Proof.
  intros Hr Hproto. unfold parse_proc_net_row. rewrite row_words, row_length by done. cbn [orb].
  change (row_fields big r !! 3%nat) with (Some (str_of (show_hex 2 (kr_state r)))). cbn [default from_option id].
  destruct (state_text (kr_state r) (ro_state r Hr)) as (H1 & H2 & _).
  assert (Hs : String.eqb (str_of (show_hex 2 (kr_state r))) (if String.eqb protocol "tcp" then TCP_LISTEN else UDP_UNCONNECTED) =
               (kr_state r =? (if String.eqb protocol "tcp" then 10 else 7))) by (destruct Hproto as [-> | ->]; done).
  rewrite Hs. unfold listens. match goal with |- context [kr_state r =? ?x] => destruct (kr_state r =? x) end; cbn [negb andb]; [|reflexivity].
  assert (Hd : decode_row big (row_fields big r) = Ok (Some (family_name (ip_of (kr_local r)), shown (ip_of (kr_local r)), kr_port r, kr_rport r, kr_inode r))).
  { unfold decode_row. rewrite row_inode by done.
    change (row_fields big r !! 1%nat) with (Some (endpoint_text big (kr_local r) (kr_port r))).
    change (row_fields big r !! 2%nat) with (Some (endpoint_text big (kr_remote r) (kr_rport r))). cbn [default from_option id].
    destruct (ro_ports r Hr) as [Hp1 Hp2]. rewrite !decode_endpoint by (done || apply Hr). cbn [mbind res_bind].
    unfold as_int. rewrite int_of_show by apply Hr. done. }
  rewrite Hd. cbn [mbind res_bind]. destruct (kr_port r =? 0), (kr_inode r =? 0), (String.eqb protocol "udp" && negb (kr_rport r =? 0)); done.
Qed.

(** *** Addresses read back *)

Lemma contains_dot s : "."%char ∈ chars s -> contains "." s = true.
Proof. apply contains_char. Qed.
Lemma show_v4_chars n c : 0 <= n < 2 ^ 32 -> c ∈ chars (show_v4 n) -> c = "."%char \/ is_digit c = true.
Proof.
  intros Hn Hc. unfold show_v4 in Hc. apply str_join_chars in Hc as [->|(p & Hp & Hc)]; [by left|]. right.
  apply list_elem_of_fmap in Hp as (v & -> & Hv).
  assert (Hv' : 0 <= v). { repeat (apply elem_of_cons in Hv as [->|Hv]; [Z.to_euclidean_division_equations; lia|]). by apply not_elem_of_nil in Hv. }
  destruct (show_Z_digits v Hv') as (Hd & _). unfold all_digits in Hd; rewrite Forall_forall in Hd. by apply Hd.
Qed.
Lemma of_hextets_zeros k l : of_hextets (replicate k 0 ++ l) = of_hextets l.
Proof. unfold of_hextets. rewrite foldl_app. f_equal. induction k as [|k IH]; [done | exact IH]. Qed.
(** Hextets [pre] and an address in dotted form after the double colon. *)
Lemma dotted_reads pre n : 0 <= n < 2 ^ 32 -> Forall hextet_ok pre -> (length pre <= 1)%nat ->
  ip_address (str_join ":" ([EmptyString; EmptyString] ++ (show_hextet <$> pre) ++ [show_v4 n])) = Some (V6 (of_hextets (pre ++ [n / 65536; n mod 65536])) None).
Proof.
  intros Hn Hpre Hlen. set (ps := [EmptyString; EmptyString] ++ (show_hextet <$> pre) ++ [show_v4 n]). set (t := str_join ":" ps).
  assert (Hparts : forall p, p ∈ ps -> ":"%char ∉ chars p /\ "%"%char ∉ chars p /\ "/"%char ∉ chars p).
  { intros p Hp. assert (H : forall c, sep_char c = true -> c <> "."%char -> c ∉ chars p).
    { intros c Hs Hd Hc. unfold ps in Hp. rewrite !elem_of_app in Hp. destruct Hp as [Hp|[Hp|Hp]].
      - repeat (apply elem_of_cons in Hp as [->|Hp]; [by apply not_elem_of_nil in Hc|]). by apply not_elem_of_nil in Hp.
      - apply list_elem_of_fmap in Hp as (v & -> & Hv). rewrite Forall_forall in Hpre. by rewrite (show_hextet_chars v c) in Hs by auto.
      - apply list_elem_of_singleton in Hp as ->. destruct (show_v4_chars n c Hn Hc) as [->|Hg]; [done|].
        destruct c as [[] [] [] [] [] [] [] []]; try discriminate; done. }
    split_and!; by apply H. }
  assert (Hsplit : split ":" t = ps) by (apply join_split; [done | apply Forall_forall; intros p Hp; by apply Hparts]).
  assert (Hc : ":"%char ∈ chars t) by (unfold t; rewrite chars_str_join; left).
  unfold ip_address. rewrite parse_v4_colon by done. unfold parse_v6.
  assert (Hno : forall c, c <> ":"%char -> (forall p, p ∈ ps -> c ∉ chars p) -> c ∉ chars t).
  { intros c Hne Hp Hin. apply str_join_chars in Hin as [?|(p & Hp' & Hin)]; [done | by apply (Hp p Hp')]. }
  rewrite contains_false_char by (apply Hno; [done | intros p Hp; by apply Hparts]).
  assert (Hpct : "%"%char ∉ chars t) by (apply Hno; [done | intros p Hp; by apply Hparts]).
  assert (Ht : split "%" t = [t]) by (apply (join_split "%" [t]); [done | by repeat constructor]). rewrite Ht.
  unfold parse_v6_int. rewrite Hsplit.
  assert (Hl : length ps = (3 + length pre)%nat) by (unfold ps; rewrite !length_app, length_fmap; simpl; lia).
  rewrite (proj2 (Nat.ltb_ge (length ps) 3)) by lia. unfold expand_v4.
  assert (Hlast : last ps = Some (show_v4 n)) by (unfold ps; by rewrite !last_app). rewrite Hlast. cbn [default from_option id].
  rewrite contains_dot. 2: { unfold show_v4. rewrite chars_str_join. change (chars ".") with ["."%char]. cbn [fmap list_fmap]. rewrite join_chars_cons by done. rewrite !elem_of_app. right. left. by left. }
  rewrite parse_show_v4 by done. cbn [mbind option_bind].
  assert (Hk : hextet_ok (n / 65536) /\ hextet_ok (n mod 65536)) by (unfold hextet_ok; change (2 ^ 32) with 4294967296 in Hn; Z.to_euclidean_division_equations; lia).
  assert (Hexp : take (length ps - 1) ps ++ [show_hextet (n / 65536); show_hextet (n mod 65536)] =
                 around (show_hextet <$> []) (show_hextet <$> (pre ++ [n / 65536; n mod 65536]))).
  { replace (length ps - 1)%nat with (length ([EmptyString; EmptyString] ++ (show_hextet <$> pre))) by (unfold ps; rewrite !length_app; simpl; lia).
    unfold ps. rewrite app_assoc, take_app_length. unfold around. rewrite fmap_app. destruct pre; reflexivity. }
  rewrite Hexp. rewrite (proj2 (Nat.ltb_ge 9 _)).
  2: { rewrite <-Hexp, length_app, length_take, Hl. cbn [length]. lia. }
  rewrite parts_around; [|apply Forall_nil_2 | apply Forall_app; split; [done | destruct Hk; by repeat apply Forall_cons_2] | rewrite length_app; cbn [length]; lia].
  cbn [fmap option_fmap option_map app]. do 2 f_equal.
  apply of_hextets_zeros.
Qed.

(** The two cases in dotted form. *)
Lemma low_hextets n a b : 0 <= n < 2 ^ 128 -> hextets n = replicate 6 0 ++ [a; b] ->
  0 <= n < 2 ^ 32 /\ n = of_hextets [n / 65536; n mod 65536].
Proof.
  intros Hn E. pose proof (hextets_ok n) as Hok. pose proof (of_hextets_hextets n Hn) as Hof. rewrite E in Hok, Hof.
  change (of_hextets (replicate 6 0 ++ [a; b])) with (65536 * (65536 * 0 + a) + b) in Hof.
  apply Forall_app in Hok as [_ Hok]. apply Forall_cons in Hok as [Ha Hok]. apply Forall_cons in Hok as [Hb _]. unfold hextet_ok in Ha, Hb.
  change (2 ^ 32) with 4294967296. unfold of_hextets. cbn [foldl]. pose proof (Z.div_mod n 65536). lia.
Qed.
Lemma mapped_hextets n a b : 0 <= n < 2 ^ 128 -> hextets n = replicate 5 0 ++ [65535; a; b] ->
  0 <= n mod 4294967296 < 2 ^ 32 /\ n = of_hextets [65535; n mod 4294967296 / 65536; n mod 4294967296 mod 65536].
Proof.
  intros Hn E. pose proof (hextets_ok n) as Hok. pose proof (of_hextets_hextets n Hn) as Hof. rewrite E in Hok, Hof.
  change (of_hextets (replicate 5 0 ++ [65535; a; b])) with (65536 * (65536 * 65535 + a) + b) in Hof.
  apply Forall_app in Hok as [_ Hok]. apply Forall_cons in Hok as [_ Hok]. apply Forall_cons in Hok as [Ha Hok]. apply Forall_cons in Hok as [Hb _].
  unfold hextet_ok in Ha, Hb. change (2 ^ 32) with 4294967296. pose proof (Z.mod_pos_bound n 4294967296 ltac:(lia)) as Hm. split; [lia|].
  assert (n mod 4294967296 = 65536 * a + b) as Hm'.
  { symmetry. apply (Z.mod_unique n 4294967296 65535); lia. }
  rewrite Hm'. unfold of_hextets. cbn [foldl]. pose proof (Z.div_mod (65536 * a + b) 65536). lia.
Qed.

(** What [socket.inet_ntop] prints reads back. *)
Lemma inet_ntop6_reads n : 0 <= n < 2 ^ 128 -> ip_address (inet_ntop6 n) = Some (V6 n None).
Proof.
  intros Hn. unfold inet_ntop6. destruct (best_run 0 (0, 0)%nat (0, 0)%nat (hextets n)) as [start len] eqn:Eb.
  apply best_run_split in Eb as [Hsplit _].
  assert (Hplain : ip_address (str_join ":" (compress (hextets n))) = Some (V6 n None)).
  { rewrite <-(ip_address_show (V6 n None) (conj Hn I)). f_equal. unfold show_ip, show_v6. apply chars_inj. by rewrite chars_app, app_nil_r. }
  destruct (Nat.eqb_spec start 0) as [->|_]; cbn [andb]; [|exact Hplain]. rewrite take_0 in Hsplit. cbn [app Nat.add] in Hsplit.
  destruct (Nat.eqb_spec len 6) as [->|_].
  - destruct (low_hextets n _ _ Hn Hsplit) as [Hlow He]. rewrite Z.mod_small by exact Hlow.
    rewrite He at 2. exact (dotted_reads [] n Hlow (Forall_nil_2 _) ltac:(simpl; lia)).
  - destruct (Nat.eqb_spec len 5) as [->|_]; cbn [andb]; [|exact Hplain]. case_bool_decide as H5; [|exact Hplain].
    assert (Hs : hextets n = replicate 5 0 ++ [65535; n / 65536 ^ 1 mod 65536; n / 65536 ^ 0 mod 65536]).
    { rewrite Hsplit at 1. f_equal. unfold hextets in H5 |- *. cbn [fmap list_fmap lookup list_lookup drop] in *. by injection H5 as ->. }
    destruct (mapped_hextets n _ _ Hn Hs) as [Hm He]. rewrite He at 2.
    refine (dotted_reads [65535] _ Hm _ ltac:(simpl; lia)). by repeat constructor.
Qed.

(** ** Tables *)

Definition table_text (big : bool) (header : string) (rows : list krow) : string := str_join newline (header :: (row_text big <$> rows)).
Definition line_text (s : string) : Prop := no_chars is_line_end s /\ s <> EmptyString.
(** Established TCP sockets. *)
Definition established (r : krow) : bool := (kr_state r =? 1) && negb (kr_inode r =? 0).

Lemma no_space_line s : no_chars is_space s -> no_chars is_line_end s.
Proof. intros H. eapply Forall_impl; [exact H|]. intros c Hc. apply not_true_iff_false. intros E. apply is_line_end_space in E. congruence. Qed.
Lemma row_line big r : row_ok r -> line_text (row_text big r).
Proof.
  intros Hr. pose proof (row_plain big r Hr) as Hp. split.
  - apply Forall_forall. intros c Hc. apply str_join_chars in Hc as [->|(p & Hp' & Hc)]; [done|].
    rewrite Forall_forall in Hp. destruct (Hp p Hp') as [Hs _]. apply no_space_line in Hs. unfold no_chars in Hs. rewrite Forall_forall in Hs. by apply Hs.
  - intros E. pose proof (row_words big r Hr) as Hw. rewrite E in Hw. discriminate Hw.
Qed.
Lemma table_lines big header rows : line_text header -> Forall row_ok rows ->
  drop 1 (splitlines (table_text big header rows)) = row_text big <$> rows.
Proof.
  intros Hh Hr. unfold table_text. rewrite splitlines_join; [done|]. constructor; [exact Hh|].
  apply Forall_fmap. eapply Forall_impl; [exact Hr|]. intros r. apply row_line.
Qed.
Lemma omap_if {A B} (p : A -> bool) (f : A -> B) l :
  omap id ((fun x => if p x then Some (f x) else None) <$> l) = f <$> List.filter p l.
Proof. induction l as [|x l IH]; [done|]. csimpl. destruct (p x); csimpl; by rewrite IH. Qed.
Lemma omap_omap_if {A B C} (g : A -> C) (p : A -> bool) (f : A -> B) (h : C -> option B) l :
  (forall x, x ∈ l -> h (g x) = if p x then Some (f x) else None) -> omap h (g <$> l) = f <$> List.filter p l.
Proof.
  induction l as [|x l IH]; intros H; [done|]. csimpl. rewrite (H x) by (by left). destruct (p x); csimpl; rewrite IH; try done; intros; apply H; by right.
Qed.
Lemma established_row_text big r : row_ok r -> established_row (row_text big r) = if established r then Some (kr_inode r) else None.
Proof.
  intros Hr. unfold established_row. rewrite row_words, row_length by done. cbn [orb].
  change (row_fields big r !! 3%nat) with (Some (str_of (show_hex 2 (kr_state r)))). rewrite row_inode by done. cbn [default from_option id].
  destruct (state_text (kr_state r) (ro_state r Hr)) as (_ & _ & ->). unfold established. destruct (kr_state r =? 1); cbn [negb andb]; [|done].
  rewrite int_of_show by apply Hr. cbn [mbind option_bind]. by destruct (kr_inode r =? 0).
Qed.

(** The scope the code documents for a bound address. *)
Lemma scope_shown ws : words_ok ws -> bind_scope (shown (ip_of ws)) = Ok (scope_of (ip_of ws)).
Proof.
  intros [Hlen Hws]. unfold bind_scope.
  assert (Hr : ip_address (shown (ip_of ws)) = Some (ip_of ws)); [|by rewrite Hr].
  assert (Hb : blen (concat ws) = 4 * Z.of_nat (length ws)).
  { clear Hlen. induction Hws as [|g ws Hg Hws IH]; [done|]. cbn [concat length]. rewrite blen_app, IH. unfold blen. rewrite Hg. lia. }
  pose proof (from_bytes_range (concat ws)) as Hf. rewrite Hb in Hf. unfold ip_of.
  destruct Hlen as [E|E]; rewrite E in Hf |- *; cbn [Nat.eqb shown].
  - apply (ip_address_show (V4 (from_bytes (concat ws)))). exact Hf.
  - apply inet_ntop6_reads. exact Hf.
Qed.


(** ** Witnesses *)

Definition g4 (a b c d : Z) : bytes := of_bval <$> [a; b; c; d].
Definition sample_row (ws : list bytes) (port state inode : Z) : krow :=
  KRow "0:" ws port (replicate (length ws) (g4 0 0 0 0)) 0 state ["00000000:00000000"; "00:00000000"; "00000000"; "0"; "0"] inode ["1"].
Definition sample_rows : list krow := [
  sample_row [g4 127 0 0 1] 8080 10 4242; sample_row [g4 0 0 0 0; g4 0 0 0 0; g4 0 0 255 255; g4 10 0 0 7] 443 10 4243; sample_row [g4 10 0 0 7] 50000 1 4244].

Lemma sample_row_ok ws port state inode : words_ok ws -> 0 <= port < 65536 -> 0 <= state < 256 -> 0 <= inode -> row_ok (sample_row ws port state inode).
Proof.
  intros Hw Hp Hs Hi. constructor; cbn [sample_row kr_slot kr_local kr_port kr_remote kr_rport kr_state kr_mid kr_inode kr_rest]; try done; try (split; lia).
  - split; [by repeat constructor | done].
  - destruct Hw as [Hl _]. split; [by rewrite length_replicate|]. by apply Forall_replicate.
  - split; [done|]. repeat (apply Forall_cons_2; [split; [by repeat constructor | done]|]). apply Forall_nil_2.
  - repeat (apply Forall_cons_2; [split; [by repeat constructor | done]|]). apply Forall_nil_2.
Qed.
Lemma g4_ok ws : (length ws = 1 \/ length ws = 4)%nat -> Forall (fun g => length g = 4%nat) ws -> words_ok ws.
Proof. done. Qed.

