(* ===== verification/Elf.v ===== *)
(** * ELF files and Go build information ([detect/runtime_services.py])

    Static or dynamic linkage, the [.go.buildinfo] section and its decoding,
    the dynamic section, and the analysis of an executable.  An open file is
    its bytes. *)

From S2P Require Import Prelude PyStr PyDict PyBytes RpmHeader Packages Der DerEncode OsinfoTheory.
From Stdlib.Strings Require Import Byte.
Open Scope Z_scope.
(** ** Reading *)

(** A file opened for reading, and the largest offset its file system
    accepts. *)
Record open_file := OpenFile { of_data : bytes; of_limit : Z }.
(** [fh.seek(at_); fh.read(n)]. *)
Definition seek_read (f : open_file) (at_ n : Z) : res bytes :=
  if 2 ^ 63 <=? at_ then Raise (ValueError "cannot fit 'int' into an offset-sized integer")
  else if of_limit f <? at_ then Raise (OSError "Invalid argument")
  else Ok (slice (of_data f) at_ (at_ + n)).

(** [hay.find(needle)]. *)
Fixpoint find_bytes (needle hay : bytes) : option Z :=
  if bool_decide (take (length needle) hay = needle) then Some 0
  else match hay with [] => None | _ :: hay => Z.succ <$> find_bytes needle hay end.
(** [buf.find(b"\0", at_)]. *)
Definition find_nul_from (buf : bytes) (at_ : Z) : option Z := (fun n => at_ + n) <$> find_nul (slice buf at_ (blen buf)).

(** ** Go build information *)

Definition text_of (s : string) : bytes := String.list_byte_of_string s.
Definition GO_MAGIC : bytes := xff :: text_of " Go buildinf:".
Definition EXE_SEARCH_CAP : Z := 64 * 1024 * 1024.

Definition BAD_UVARINT : exn := ValueError "bad uvarint".
Fixpoint uvarint (l : bytes) (pos shift result : Z) : res (Z * Z) :=
  match l with
  | [] => Raise BAD_UVARINT
  | b :: l =>
      let b := bval b in
      let result := Z.lor result (Z.shiftl (Z.land b 127) shift) in
      if Z.land b 128 =? 0 then Ok (result, pos + 1)
      else if 63 <? shift + 7 then Raise BAD_UVARINT else uvarint l (pos + 1) (shift + 7) result
  end.
Definition read_uvarint (data : bytes) (pos : Z) : res (Z * Z) := uvarint (slice data pos (blen data)) pos 0 0.

(** The characters of a decoded text. *)
Definition is_continuation (c : ascii) : bool := in_range 128 191 c.
Fixpoint characters (l : list ascii) : list (list ascii) :=
  match l with
  | [] => []
  | c :: l =>
      match characters l with
      | (d :: k) :: rest => if is_continuation d then (c :: d :: k) :: rest else [c] :: (d :: k) :: rest
      | rest => [c] :: rest
      end
  end.

Record go_info := GoInfo { gi_version : option string; gi_format : string; gi_module : option string; gi_settings : list (string * string) }.

Definition tab : string := String "009" EmptyString.
(** [mod[16 : len(mod) - 16]] between its sentinels. *)
Definition unwrap_mod (mod_ : string) : string :=
  let cs := characters (chars mod_) in
  let n := length cs in
  if Nat.leb 33 n && bool_decide (cs !! (n - 17)%nat = Some (chars newline)) then str_of (concat (take (n - 32) (drop 16 cs))) else mod_.
Definition mod_line (st : list (string * string) * option string) (line : string) : list (string * string) * option string :=
  let '(settings, main) := st in
  let rest := remove_prefix ("build" +:+ tab) line in
  if starts_with ("build" +:+ tab) line && contains "=" line then
    (let '(k, v) := default (rest, EmptyString) (cut "=" rest) in dset k v settings, main)
  else if starts_with ("path" +:+ tab) line then (settings, Some (remove_prefix ("path" +:+ tab) line))
  else st.
Definition parse_go_buildinfo (blob : bytes) : res (option go_info) :=
  if negb (bool_decide (take 14 blob = GO_MAGIC)) || (blen blob <? 32) then Ok None
  else
    flags ← byte_at blob 15;
    if Z.land flags 2 =? 0 then Ok (Some (GoInfo None "pointer" None []))
    else
      '(n, pos) ← read_uvarint blob 32;
      let version := decode Utf8 (slice blob pos (pos + n)) in
      let pos := pos + n in
      '(n, pos) ← read_uvarint blob pos;
      let mod_ := unwrap_mod (decode Utf8 (slice blob pos (pos + n))) in
      let '(settings, main) := foldl mod_line ([], None) (splitlines mod_) in
      Ok (Some (GoInfo (if String.eqb version EmptyString then None else Some version) "inline" main settings)).

(** ** ELF *)

Definition ELF_MAGIC : bytes := x7f :: text_of "ELF".
Record elf_ident := ElfIdent { ei_big : bool; ei_64 : bool; ei_header : bytes }.
(** The class and byte order, and the bytes of the file header; [None] when
    the file is not ELF. *)
Definition elf_ident_of (f : open_file) : res (option elf_ident) :=
  let ident := slice (of_data f) 0 16 in
  if negb (bool_decide (take 4 ident = ELF_MAGIC)) then Ok None
  else
    cls ← byte_at ident 4;
    order ← byte_at ident 5;
    let is64 := cls =? 2 in
    Ok (Some (ElfIdent (negb (order =? 1)) is64 (slice (of_data f) 0 (if is64 then 64 else 52)))).

(** A format's fields, all words of [big]: [need] once for the whole. *)
Definition fields (big : bool) (data : bytes) (at_ total : Z) (ws : list (Z * Z)) : res (list Z) :=
  _ ← need data at_ total; Ok ((fun ow => unpack big data ow.2 (at_ + ow.1)) <$> ws).
Definition HHHHH : list (Z * Z) := [(0, 2); (2, 2); (4, 2); (6, 2); (8, 2)].

(** Whether a program header is PT_INTERP. *)
Fixpoint has_interp (big : bool) (ph : bytes) (entsize : Z) (idx : list Z) : res bool :=
  match idx with
  | [] => Ok false
  | i :: idx => t ← unpack_from big 4 ph (i * entsize); if t =? 3 then Ok true else has_interp big ph entsize idx
  end.

(** A section's name offset, file offset and size. *)
Definition section (e : elf_ident) (sh : bytes) (entsize i : Z) : res (Z * Z * Z) :=
  fs ← (if ei_64 e then fields (ei_big e) sh (i * entsize) 40 [(0, 4); (24, 8); (32, 8)]
        else fields (ei_big e) sh (i * entsize) 24 [(0, 4); (16, 4); (20, 4)]);
  match fs with [name; off; size] => Ok (name, off, size) | _ => Raise StructError end.
(** [names[off:names.find(b"\0", off)]]. *)
Definition name_at (names : bytes) (off : Z) : bytes := slice names off (default (blen names - 1) (find_nul_from names off)).
Fixpoint find_buildinfo (f : open_file) (e : elf_ident) (sh names : bytes) (entsize : Z) (idx : list Z) : res (option bytes) :=
  match idx with
  | [] => Ok None
  | i :: idx =>
      '(name_off, off, size) ← section e sh entsize i;
      if bool_decide (name_at names name_off = text_of ".go.buildinfo") then
        b ← seek_read f off (Z.min size (2 ^ 20)); Ok (Some b)
      else find_buildinfo f e sh names entsize idx
  end.

Record elf_info_t := ElfInfo { el_static : bool; el_buildinfo : option bytes }.
Definition elf_info (f : open_file) : res (option elf_info_t) :=
  ident ← elf_ident_of f;
  match ident with
  | None => Ok None
  | Some e =>
      let big := ei_big e in
      offs ← (if ei_64 e then fields big (ei_header e) 32 16 [(0, 8); (8, 8)] else fields big (ei_header e) 28 8 [(0, 4); (4, 4)]);
      counts ← fields big (ei_header e) (if ei_64 e then 54 else 42) 10 HHHHH;
      match offs, counts with
      | [phoff; shoff], [phentsize; phnum; shentsize; shnum; shstrndx] =>
          if (4096 <? phnum) || (65535 <? shnum) then Raise (ValueError "implausible ELF header counts")
          else
            ph ← seek_read f phoff (phentsize * phnum);
            interp ← has_interp big ph phentsize (seqZ 0 phnum);
            buildinfo ← (if negb (shoff =? 0) && negb (shnum =? 0) && (shstrndx <? shnum) then
                           sh ← seek_read f shoff (shentsize * shnum);
                           '(_, str_off, str_size) ← section e sh shentsize shstrndx;
                           names ← seek_read f str_off (Z.min str_size (2 ^ 20));
                           find_buildinfo f e sh names shentsize (seqZ 0 shnum)
                         else Ok None);
            Ok (Some (ElfInfo (negb interp) buildinfo))
      | _, _ => Raise StructError
      end
  end.

(** *** The dynamic section *)

Record dynamic := Dynamic { dy_needed : list string; dy_runpath : list string }.
Record load := Load { ld_vaddr : Z; ld_offset : Z; ld_size : Z }.
(** PT_LOAD and PT_DYNAMIC. *)
Definition program_header (e : elf_ident) (ph : bytes) (entsize : Z) (st : list load * option (Z * Z)) (i : Z) : res (list load * option (Z * Z)) :=
  fs ← (if ei_64 e then fields (ei_big e) ph (i * entsize) 40 [(0, 4); (8, 8); (16, 8); (32, 8)]
        else fields (ei_big e) ph (i * entsize) 20 [(0, 4); (4, 4); (8, 4); (16, 4)]);
  match fs with
  | [p_type; p_offset; p_vaddr; p_filesz] =>
      Ok (if p_type =? 1 then (st.1 ++ [Load p_vaddr p_offset p_filesz], st.2)
          else if p_type =? 2 then (st.1, Some (p_offset, Z.min p_filesz (2 ^ 16))) else st)
  | _ => Raise StructError
  end.

Record dyn_tags := DynTags { dt_needed : list Z; dt_runpath : list Z; dt_strtab : option Z; dt_strsz : option Z }.
(** The entries up to DT_NULL; [n] is how many fit in the bytes read. *)
Fixpoint dyn_entries (big : bool) (word : Z) (raw : bytes) (n : nat) (off : Z) (t : dyn_tags) : dyn_tags :=
  match n with
  | O => t
  | S n =>
      let tag := signed word (unpack big raw word off) in
      let val := unpack big raw word (off + word) in
      let next := dyn_entries big word raw n (off + 2 * word) in
      if tag =? 0 then t
      else if tag =? 1 then next (DynTags (dt_needed t ++ [val]) (dt_runpath t) (dt_strtab t) (dt_strsz t))
      else if (tag =? 15) || (tag =? 29) then next (DynTags (dt_needed t) (dt_runpath t ++ [val]) (dt_strtab t) (dt_strsz t))
      else if tag =? 5 then next (DynTags (dt_needed t) (dt_runpath t) (Some val) (dt_strsz t))
      else if tag =? 10 then next (DynTags (dt_needed t) (dt_runpath t) (dt_strtab t) (Some val))
      else next t
  end.
Definition string_at (strings : bytes) (i : Z) : string := decode Utf8 (slice strings i (default (blen strings) (find_nul_from strings i))).
Definition strings_at (strings : bytes) (idx : list Z) : list string := string_at strings <$> List.filter (fun i => i <? blen strings) idx.
Definition file_offset (loads : list load) (strtab : Z) : option Z :=
  (fun l => ld_offset l + strtab - ld_vaddr l) <$> List.find (fun l => (ld_vaddr l <=? strtab) && (strtab <? ld_vaddr l + ld_size l)) loads.

Definition elf_dynamic (f : open_file) : res (option dynamic) :=
  ident ← elf_ident_of f;
  match ident with
  | None => Ok None
  | Some e =>
      let big := ei_big e in
      offs ← (if ei_64 e then fields big (ei_header e) 32 8 [(0, 8)] else fields big (ei_header e) 28 4 [(0, 4)]);
      counts ← fields big (ei_header e) (if ei_64 e then 54 else 42) 4 [(0, 2); (2, 2)];
      match offs, counts with
      | [phoff], [phentsize; phnum] =>
          if (4096 <? phnum) || negb (((if ei_64 e then 56 else 32) <=? phentsize) && (phentsize <=? 256))
          then Raise (ValueError "implausible ELF program header table")
          else
            ph ← seek_read f phoff (phentsize * phnum);
            '(loads, dyn) ← foldM (program_header e ph phentsize) ([], None) (seqZ 0 phnum);
            match dyn with
            | None => Ok (Some (Dynamic [] []))
            | Some (off, size) =>
                raw ← seek_read f off size;
                let word := if ei_64 e then 8 else 4 in
                let t := dyn_entries big word raw (Z.to_nat (blen raw / (2 * word))) 0 (DynTags [] [] None None) in
                match (a ← dt_strtab t; file_offset loads a) with
                | None => Ok (Some (Dynamic [] []))
                | Some str_off =>
                    let strsz := match dt_strsz t with Some z => if z =? 0 then 2 ^ 16 else z | None => 2 ^ 16 end in
                    strings ← seek_read f str_off (Z.min strsz (2 ^ 20));
                    Ok (Some (Dynamic (strings_at strings (dt_needed t))
                                (List.filter non_empty (concat (split ":" <$> strings_at strings (dt_runpath t))))))
                end
            end
      | _, _ => Raise StructError
      end
  end.

(** ** Executables *)

Record exe_info := ExeInfo { xi_static : option bool; xi_go : option go_info }.
Definition EXE_UNKNOWN : exe_info := ExeInfo None None.
Definition read_error (e : exn) : bool :=
  match e with ValueError _ => true | Custom cls _ => bool_decide (cls ∈ ["OSError"; "PermissionError"; "struct.error"]) | _ => false end.
Definition value_error (e : exn) : bool := match e with ValueError _ => true | _ => false end.
(** [out["static"]] and the bytes to decode. *)
Definition executable_blob (f : open_file) : res (option bool * option bytes) :=
  info ← elf_info f;
  match info with
  | None => Ok (None, None)
  | Some i =>
      Ok (Some (el_static i),
          match el_buildinfo i with
          | Some b => Some b
          | None => let data := slice (of_data f) 0 EXE_SEARCH_CAP in
                    (fun at_ => slice data at_ (at_ + 2 ^ 20)) <$> find_bytes GO_MAGIC data
          end)
  end.
Definition analyze_executable (open : res open_file) : res exe_info :=
  '(static, blob) ← catch read_error (f ← open; executable_blob f) (fun _ => Ok (None, None));
  match blob with
  | Some (b :: l) => go ← catch value_error (parse_go_buildinfo (b :: l)) (fun _ => Ok None); Ok (ExeInfo static go)
  | _ => Ok (ExeInfo static None)
  end.

(** * ELF files and Go build information: theorems

    Which files an executable's analysis fails on, and that the build
    information a Go linker writes is read back. *)
(** ** Errors *)

Definition tame (e : exn) : Prop := read_error e = true.
(** The ELF magic with fewer than two bytes after it. *)
Definition short_elf (f : open_file) : Prop := exists rest, of_data f = ELF_MAGIC ++ rest /\ (length rest < 2)%nat.

Lemma tame_struct : tame StructError.
Proof. reflexivity. Qed.
Lemma safe_value {A} (P : A -> Prop) msg : safe tame P (Raise (ValueError msg)).
Proof. reflexivity. Qed.
Lemma safe_struct {A} (P : A -> Prop) : safe tame P (Raise StructError).
Proof. reflexivity. Qed.
#[local] Hint Resolve safe_value safe_struct tame_struct : core.

Lemma safe_seek f a n : safe tame (fun _ => True) (seek_read f a n).
Proof. unfold seek_read. repeat case_match; done. Qed.
Lemma safe_need data a n : safe tame (fun _ => True) (need data a n).
Proof. unfold need. by case_match. Qed.
Lemma safe_fields big data a total ws : safe tame (fun _ => True) (fields big data a total ws).
Proof. eapply safe_bind; [apply safe_need | done]. Qed.
Lemma safe_unpack big n data a : safe tame (fun _ => True) (unpack_from big n data a).
Proof. eapply safe_bind; [apply safe_need | done]. Qed.
#[local] Hint Resolve safe_seek safe_fields safe_unpack : core.

(** One step of a computation whose parts are tame. *)
Ltac tame_step := first
  [ done | apply safe_value | apply safe_struct
  | eapply (safe_bind tame (fun _ => True)); [solve [eauto | repeat case_match; eauto]|]; intros ? _ ].

Lemma safe_section e sh entsize i : safe tame (fun _ => True) (section e sh entsize i).
Proof. unfold section. tame_step. repeat case_match; done. Qed.
#[local] Hint Resolve safe_section : core.

Lemma safe_interp big ph entsize idx : safe tame (fun _ => True) (has_interp big ph entsize idx).
Proof. induction idx as [|i idx IH]; [done|]. cbn [has_interp]. tame_step. by case_match. Qed.
Lemma safe_buildinfo f e sh names entsize idx : safe tame (fun _ => True) (find_buildinfo f e sh names entsize idx).
Proof.
  induction idx as [|i idx IH]; [done|]. cbn [find_buildinfo]. tame_step. destruct a as [[no off] size].
  case_match; [tame_step; done | done].
Qed.
Lemma safe_program_header e ph entsize st i : safe tame (fun _ => True) (program_header e ph entsize st i).
Proof. unfold program_header. tame_step. repeat case_match; done. Qed.
Lemma safe_program_headers e ph entsize idx : safe tame (fun _ => True) (foldM (program_header e ph entsize) ([], None) idx).
Proof. apply safe_foldM; [done|]. intros. apply safe_program_header. Qed.
#[local] Hint Resolve safe_interp safe_buildinfo safe_program_headers : core.

(** The two bytes after the magic are read without looking whether they are
    there. *)
Lemma elf_ident_cases f :
  (short_elf f /\ elf_ident_of f = Raise IndexError) \/ (~ short_elf f /\ exists r, elf_ident_of f = Ok r).
Proof.
  unfold elf_ident_of, slice. change (Z.to_nat (16 - 0)) with 16%nat. change (Z.to_nat 0) with 0%nat. rewrite drop_0.
  rewrite take_take. change (4 `min` 16)%nat with 4%nat. case_bool_decide as Hm; cbn [negb].
  2: { right. split; [|by eexists]. intros (rest & Hf & _). apply Hm. rewrite Hf. reflexivity. }
  assert (Hf : of_data f = ELF_MAGIC ++ drop 4 (of_data f)) by (rewrite <-Hm; symmetry; apply take_drop).
  set (rest := drop 4 (of_data f)) in *. rewrite Hf. destruct rest as [|a [|b rs]] eqn:E.
  - left. split; [exists []; split; [done | simpl; lia]|]. reflexivity.
  - left. split; [exists [a]; split; [done | simpl; lia]|]. reflexivity.
  - right. split.
    + intros (r & Hr & Hl). rewrite Hf in Hr. apply app_inv_head in Hr. subst r. simpl in Hl. lia.
    + assert (Hb : forall i, 0 <= i <= 5 -> exists z, byte_at (take 16 (ELF_MAGIC ++ a :: b :: rs)) i = Ok z).
      { intros i Hi. unfold byte_at. assert (Hn : (6 <= length (take 16 (ELF_MAGIC ++ a :: b :: rs)))%nat) by (rewrite length_take; simpl; lia).
        unfold blen. replace ((0 <=? i) && (i <? Z.of_nat (length (take 16 (ELF_MAGIC ++ a :: b :: rs))))) with true by lia.
        destruct (take 16 _ !! Z.to_nat i) eqn:El; [by eexists|]. apply lookup_ge_None in El. lia. }
      destruct (Hb 4 ltac:(lia)) as [z4 ->], (Hb 5 ltac:(lia)) as [z5 ->]. by eexists.
Qed.

Lemma elf_info_errors f : (short_elf f /\ elf_info f = Raise IndexError) \/ (~ short_elf f /\ safe tame (fun _ => True) (elf_info f)).
Proof.
  unfold elf_info. destruct (elf_ident_cases f) as [[Hs ->]|[Hs [r ->]]]; [by left|]. right. split; [done|]. clear Hs.
  cbn [mbind res_bind]. destruct r as [e|]; [|done]. cbv zeta. tame_step. rename a into offs. tame_step. rename a into counts.
  destruct offs as [|o [|o' [|]]]; try apply safe_struct. do 5 (destruct counts as [|? counts]; [apply safe_struct|]). destruct counts; [|apply safe_struct].
  case_match; [apply safe_value|]. tame_step. tame_step. eapply (safe_bind tame (fun _ => True)); [|intros ? _; done].
  case_match; [|done]. tame_step. tame_step. destruct a2 as [[? ?] ?]. tame_step. apply safe_buildinfo.
Qed.

Lemma elf_dynamic_errors f : (short_elf f /\ elf_dynamic f = Raise IndexError) \/ (~ short_elf f /\ safe tame (fun _ => True) (elf_dynamic f)).
Proof.
  unfold elf_dynamic. destruct (elf_ident_cases f) as [[Hs ->]|[Hs [r ->]]]; [by left|]. right. split; [done|]. clear Hs.
  cbn [mbind res_bind]. destruct r as [e|]; [|done]. cbv zeta. tame_step. rename a into offs. tame_step. rename a into counts.
  destruct offs as [|o [|]]; try apply safe_struct. destruct counts as [|? [|? [|]]]; try apply safe_struct.
  case_match; [apply safe_value|]. tame_step. tame_step. destruct a0 as [loads [[off size]|]]; [|done]. tame_step.
  cbv zeta. match goal with |- safe _ _ (match ?x with Some _ => _ | None => _ end) => destruct x; [|done] end. tame_step. done.
Qed.

(** Decoding the build information fails with ValueError only. *)
Lemma uvarint_errors l pos shift result : safe (fun e => value_error e = true) (fun _ => True) (uvarint l pos shift result).
Proof. revert pos shift result. induction l as [|b l IH]; intros; cbn [uvarint]; [done|]. cbv zeta. repeat case_match; done || apply IH. Qed.
Lemma buildinfo_errors blob : safe (fun e => value_error e = true) (fun _ => True) (parse_go_buildinfo blob).
Proof.
  unfold parse_go_buildinfo. destruct (negb _ || _) eqn:Hs; [done|]. apply orb_false_iff in Hs as [_ Hl]. apply Z.ltb_ge in Hl.
  unfold byte_at. replace ((0 <=? 15) && (15 <? blen blob)) with true by lia.
  destruct (blob !! Z.to_nat 15) eqn:E; [|apply lookup_ge_None in E; unfold blen in Hl; lia].
  cbn [mbind res_bind]. case_match; [done|]. unfold read_uvarint.
  eapply (safe_bind _ (fun _ => True)); [apply uvarint_errors|]. intros [n pos] _. cbv zeta.
  eapply (safe_bind _ (fun _ => True)); [apply uvarint_errors|]. intros [m pos'] _. cbv zeta. by destruct (foldl _ _ _).
Qed.

Lemma executable_blob_errors f :
  (short_elf f /\ executable_blob f = Raise IndexError) \/ (~ short_elf f /\ safe tame (fun _ => True) (executable_blob f)).
Proof.
  unfold executable_blob. destruct (elf_info_errors f) as [[Hs ->]|[Hs Hi]]; [by left|]. right. split; [done|].
  eapply safe_bind; [exact Hi|]. intros [i|] _; done.
Qed.

(** C36: whatever its bytes, the analysis of a file that can be opened gives a
    result, and the read of its dynamic section gives a result or one of the
    errors its callers take for an unreadable file, but for one case: a file
    that is the four bytes of the ELF magic, alone or with one byte more,
    raises IndexError from both, which no caller catches.  A file that cannot
    be opened is unknown. *)
Theorem analyze_executable_errors :
  (forall e, read_error e = true -> analyze_executable (Raise e) = Ok EXE_UNKNOWN) /\
  (forall f e, analyze_executable (Ok f) = Raise e <-> e = IndexError /\ short_elf f) /\
  (forall f e, elf_dynamic f = Raise e -> read_error e = true \/ (e = IndexError /\ short_elf f)) /\
  (forall f, short_elf f -> elf_dynamic f = Raise IndexError).
Proof.
  split_and!.
  - intros e He. unfold analyze_executable. cbn [mbind res_bind catch]. by rewrite He.
  - intros f e. unfold analyze_executable. cbn [mbind res_bind].
    destruct (executable_blob_errors f) as [[Hs ->]|[Hs Hb]]; [cbn; naive_solver|].
    split; [|by intros [_ ?]]. intros H. exfalso. unfold safe, tame in Hb.
    destruct (executable_blob f) as [[static blob]|x]; cbn [catch mbind res_bind] in H; [|rewrite Hb in H; discriminate H].
    destruct blob as [[|b l]|]; try discriminate H.
    pose proof (buildinfo_errors (b :: l)) as Hg. destruct (parse_go_buildinfo (b :: l)) as [go|x]; [discriminate H|].
    cbn [catch safe] in H, Hg. rewrite Hg in H. discriminate H.
  - intros f e H. destruct (elf_dynamic_errors f) as [[Hs He]|[_ Hd]]; [right; split; congruence|]. left. by rewrite H in Hd.
  - intros f Hs. destruct (elf_dynamic_errors f) as [[_ ?]|[? _]]; done.
Qed.

(** ** The build information a Go linker writes *)

Fixpoint enc_uvarint (fuel : nat) (n : Z) : bytes :=
  match fuel with
  | O => [of_bval n]
  | S fuel => if n <? 128 then [of_bval n] else of_bval (128 + n mod 128) :: enc_uvarint fuel (n / 128)
  end.

Lemma uvarint_one z pos shift result rest : 0 <= z < 128 ->
  uvarint (of_bval z :: rest) pos shift result = Ok (Z.lor result (Z.shiftl z shift), pos + 1).
Proof.
  intros Hz. cbn [uvarint]. rewrite of_bval_val, land_bit7, land_127, (Z.mod_small z) by lia. cbv zeta.
  by replace (z <? 128) with true by lia.
Qed.

Lemma uvarint_enc fuel : forall n pos shift result rest,
  0 <= n < 2 ^ (7 * (Z.of_nat fuel + 1)) -> 0 <= shift -> shift + 7 * Z.of_nat fuel <= 63 -> 0 <= result ->
  uvarint (enc_uvarint fuel n ++ rest) pos shift result =
    Ok (Z.lor result (Z.shiftl n shift), pos + blen (enc_uvarint fuel n)).
Proof.
  induction fuel as [|fuel IH]; intros n pos shift result rest Hn Hs Hf Hr; cbn [enc_uvarint].
  - cbn [app]. rewrite uvarint_one by (change (2 ^ (7 * (Z.of_nat 0 + 1))) with 128 in Hn; lia). done.
  - destruct (Z.ltb_spec n 128) as [Hlt|Hge]; [cbn [app]; by rewrite uvarint_one by lia|].
    cbn [app uvarint]. pose proof (Z.mod_pos_bound n 128 ltac:(lia)) as Hm.
    rewrite of_bval_val, land_bit7, land_low by lia. cbv zeta.
    replace (128 + n mod 128 <? 128) with false by lia. cbn [Z.eqb]. replace (63 <? shift + 7) with false by lia.
    pose proof (Z.div_mod n 128 ltac:(lia)) as Hd. rewrite IH.
    + f_equal. f_equal; [|rewrite blen_cons; lia]. rewrite <-Z.lor_assoc. f_equal.
      replace (shift + 7) with (7 + shift) by lia. rewrite <-Z.shiftl_shiftl, <-Z.shiftl_lor by lia. f_equal.
      rewrite Z.lor_comm, lor_shift7 by (try apply Z.div_pos; lia). lia.
    + replace (7 * (Z.of_nat (S fuel) + 1)) with (7 + 7 * (Z.of_nat fuel + 1)) in Hn by lia. rewrite Z.pow_add_r in Hn by lia.
      change (2 ^ 7) with 128 in Hn. split; [apply Z.div_pos; lia|]. apply Z.div_lt_upper_bound; lia.
    + lia.
    + lia.
    + apply Z.lor_nonneg. split; [lia|]. apply Z.shiftl_nonneg. lia.
Qed.

(** *** Characters of decoded text *)

Definition ascii_bytes (l : list Z) : Prop := Forall (fun a => 0 <= a < 128) l.
Lemma utf8_ascii l : forall m r, ascii_bytes l -> utf8_dec (length l + m) (l ++ r) = (chr <$> l) ++ utf8_dec m r.
Proof.
  induction l as [|a l IH]; intros m r Hl; [done|]. apply Forall_cons in Hl as [Ha Hl].
  cbn [length Nat.add app utf8_dec utf8_step fmap list_fmap]. replace (a <? 128) with true by lia. cbn [drop app]. f_equal. by apply IH.
Qed.

(** Does not start with a continuation byte. *)
Definition starts_char (l : list ascii) : bool := match l with [] => true | c :: _ => negb (is_continuation c) end.
Lemma characters_head c l : exists k rest, characters (c :: l) = (c :: k) :: rest.
Proof. cbn [characters]. destruct (characters l) as [|[|d k] rest]; [by eexists _, _..|]. destruct (is_continuation d); by eexists _, _. Qed.
Lemma characters_app a b : starts_char b = true -> characters (a ++ b) = characters a ++ characters b.
Proof.
  intros Hb. induction a as [|c a IH]; [done|]. cbn [app characters]. rewrite IH. destruct a as [|d a].
  - cbn [characters app]. destruct b as [|e b]; [done|]. destruct (characters_head e b) as (k & rest & ->).
    cbn [starts_char] in Hb. apply negb_true_iff in Hb. by rewrite Hb.
  - destruct (characters_head d a) as (k & rest & ->). cbn [app]. by destruct (is_continuation d).
Qed.
Lemma characters_single l : Forall (fun c => is_continuation c = false) l -> characters l = (fun c => [c]) <$> l.
Proof.
  induction 1 as [|c l Hc Hl IH]; [done|]. change (c :: l) with ([c] ++ l). rewrite characters_app, IH; [done|].
  destruct Hl as [|d l Hd _]; [done|]. cbn. by rewrite Hd.
Qed.
Lemma concat_single (l : list ascii) : concat ((fun c => [c]) <$> l) = l.
Proof. induction l as [|c l IH]; [done|]. csimpl. by rewrite IH. Qed.

(** *** Texts *)

Definition codes (s : string) : list Z := (fun c => Z.of_N (code c)) <$> chars s.
Definition ascii_text (s : string) : Prop := ascii_bytes (codes s).

Lemma bval_text s : bval <$> text_of s = codes s.
Proof.
  unfold text_of, codes. induction s as [|c s IH]; [done|]. cbn. f_equal; [|exact IH].
  unfold bval, code. f_equal. by destruct c as [[] [] [] [] [] [] [] []].
Qed.
Lemma chr_codes s : chr <$> codes s = chars s.
Proof.
  unfold codes. rewrite <-list_fmap_compose. rewrite <-(list_fmap_id (chars s)) at 2. apply list_fmap_ext. intros i c _.
  unfold chr, compose. rewrite N2Z.id. apply ascii_N_embedding.
Qed.
Lemma codes_app s t : codes (s +:+ t) = codes s ++ codes t.
Proof. unfold codes. by rewrite chars_app, fmap_app. Qed.
Lemma decode_ascii s : ascii_text s -> decode Utf8 (text_of s) = s.
Proof.
  intros Hs. unfold decode. rewrite bval_text. replace (length (codes s)) with (length (codes s) + 0)%nat by lia.
  rewrite <-(app_nil_r (codes s)) at 2. rewrite utf8_ascii by done. rewrite chr_codes. cbn [utf8_dec]. rewrite app_nil_r. apply str_of_chars.
Qed.
Lemma ascii_no_continuation s : ascii_text s -> Forall (fun c => is_continuation c = false) (chars s).
Proof.
  unfold ascii_text, ascii_bytes, codes. rewrite Forall_fmap. intros H. eapply Forall_impl; [exact H|]. intros c Hc. unfold compose in Hc. unfold is_continuation, in_range.
  apply andb_false_iff. left. apply N.leb_gt. lia.
Qed.

(** What the linker wraps the module text in. *)
Definition SENTINEL_START : list Z := [48; 119; 175; 12; 146; 116; 8; 2; 65; 225; 193; 7; 230; 214; 24; 230].
Definition SENTINEL_END : list Z := [249; 50; 67; 49; 134; 24; 32; 114; 0; 130; 66; 16; 65; 22; 216; 242].
Definition start_text : list ascii := utf8_dec 16 SENTINEL_START.
Definition end_text : list ascii := utf8_dec 16 SENTINEL_END.

Lemma sentinels_decoded l : ascii_bytes l -> l <> [] ->
  utf8_dec (length (SENTINEL_START ++ l ++ SENTINEL_END)) (SENTINEL_START ++ l ++ SENTINEL_END) = start_text ++ (chr <$> l) ++ end_text.
Proof.
  intros Hl Hne. rewrite !length_app.
  assert (Hs : forall m a r, 0 <= a < 128 -> utf8_dec (16 + m) (SENTINEL_START ++ a :: r) = start_text ++ utf8_dec m (a :: r)).
  { intros m a r Ha. transitivity (utf8_dec 15 (take 15 SENTINEL_START) ++ utf8_dec (S m) (230 :: a :: r)); [reflexivity|].
    transitivity ((utf8_dec 15 (take 15 SENTINEL_START) ++ replacement) ++ utf8_dec m (a :: r)); [|reflexivity].
    rewrite <-app_assoc. f_equal. cbn [utf8_dec utf8_step]. change (230 <? 128) with false. change (in_rng 194 223 230) with false.
    change (in_rng 224 239 230) with true. change (230 =? 224) with false. change (230 =? 237) with false. change (230 =? 240) with false. change (230 =? 244) with false.
    unfold in_rng. replace (128 <=? a) with false by lia. reflexivity. }
  destruct l as [|a l]; [destruct Hne; reflexivity|]. change (length SENTINEL_START) with 16%nat. cbn [app]. pose proof (Forall_cons_1 _ _ _ Hl) as [Ha _]. rewrite (Hs _ a (l ++ SENTINEL_END) Ha).
  f_equal. change (a :: l ++ SENTINEL_END) with ((a :: l) ++ SENTINEL_END). rewrite (utf8_ascii (a :: l) _ SENTINEL_END Hl). reflexivity.
Qed.

(** *** Module lines *)

Inductive mod_entry := ModPath (p : string) | ModBuild (k v : string) | ModOther (s : string).
Definition entry_text (e : mod_entry) : string :=
  match e with ModPath p => "path" +:+ tab +:+ p | ModBuild k v => "build" +:+ tab +:+ k +:+ "=" +:+ v | ModOther s => s end.
Record entry_ok (e : mod_entry) : Prop := {
  eo_ascii : ascii_text (entry_text e);
  eo_line : Forall (fun c => is_line_end c = false) (chars (entry_text e));
  eo_shape : match e with
             | ModPath _ => True
             | ModBuild k _ => "="%char ∉ chars k
             | ModOther s => starts_with ("path" +:+ tab) s = false /\ starts_with ("build" +:+ tab) s && contains "=" s = false
             end }.
Definition entry_path (e : mod_entry) : option string := match e with ModPath p => Some p | _ => None end.
Definition entry_build (e : mod_entry) : option (string * string) := match e with ModBuild k v => Some (k, v) | _ => None end.
Definition settings_of (es : list mod_entry) : list (string * string) := foldl (fun d kv => dset kv.1 kv.2 d) [] (omap entry_build es).
Definition mod_text (es : list mod_entry) : string := str_of (concat ((fun e => chars (entry_text e) ++ ["010"%char]) <$> es)).

Lemma prefix_app p s : String.prefix p (p +:+ s) = true.
Proof. induction p as [|c p IH]; [by destruct s|]. simpl. destruct (ascii_dec c c); [exact IH | done]. Qed.
Lemma starts_with_app p s : starts_with p (p +:+ s) = true.
Proof. apply prefix_app. Qed.
Lemma remove_prefix_app p s : remove_prefix p (p +:+ s) = s.
Proof.
  unfold remove_prefix. rewrite chars_app. rewrite (proj2 (prefix_chars_spec _ _)) by (by exists (chars s)).
  replace (String.length p) with (length (chars p)) by (induction p as [|c p IH]; [done|]; cbn; by rewrite IH). by rewrite drop_app_length, str_of_chars.
Qed.

Lemma mod_line_entry st e : entry_ok e ->
  mod_line st (entry_text e) =
    (match entry_build e with Some (k, v) => dset k v st.1 | None => st.1 end, match entry_path e with Some p => Some p | None => st.2 end).
Proof.
  intros [_ _ Hs]. destruct st as [d m]. unfold mod_line. destruct e as [p|k v|s]; cbn [entry_text entry_build entry_path fst snd].
  - change ("path" +:+ tab +:+ p) with (("path" +:+ tab) +:+ p). rewrite starts_with_app, remove_prefix_app. reflexivity.
  - change ("build" +:+ tab +:+ k +:+ "=" +:+ v) with (("build" +:+ tab) +:+ k +:+ String "=" v).
    rewrite starts_with_app, remove_prefix_app.
    assert (Hc : contains "=" (("build" +:+ tab) +:+ k +:+ String "=" v) = true).
    { unfold contains. apply contains_chars_spec. exists (chars (("build" +:+ tab) +:+ k)), (chars v). rewrite !chars_app. by rewrite <-app_assoc. }
    rewrite Hc, cut_mid by done. reflexivity.
  - destruct Hs as [Hp Hb]. by rewrite Hb, Hp.
Qed.

Lemma mod_lines es : forall st, Forall entry_ok es ->
  foldl mod_line st (entry_text <$> es) =
    (foldl (fun d kv => dset kv.1 kv.2 d) st.1 (omap entry_build es), match last (omap entry_path es) with Some p => Some p | None => st.2 end).
Proof.
  induction es as [|e es IH]; intros st Hes; [by destruct st|]. apply Forall_cons in Hes as [He Hes].
  rewrite fmap_cons. cbn [foldl]. rewrite mod_line_entry by done. rewrite IH by done. cbn [fst snd].
  destruct e as [p|k v|s]; cbn [entry_path entry_build omap list_omap]; [|done..].
  f_equal. rewrite last_cons. by destruct (last _).
Qed.

Lemma mod_text_lines es : Forall entry_ok es -> splitlines (mod_text es) = entry_text <$> es.
Proof.
  intros Hes. unfold splitlines, mod_text. rewrite chars_str_of. induction Hes as [|e es He Hes IH]; [done|].
  rewrite !fmap_cons. cbn [concat]. rewrite <-app_assoc. cbn [app]. rewrite lines_chars_newline by apply He.
  rewrite fmap_cons, IH, reverse_nil. cbn [app]. by rewrite str_of_chars.
Qed.

Lemma unwrap_sentinels l : Forall (fun c => is_continuation c = false) l ->
  unwrap_mod (str_of (start_text ++ (l ++ ["010"%char]) ++ end_text)) = str_of (l ++ ["010"%char]).
Proof.
  intros Hl. unfold unwrap_mod. rewrite chars_str_of. set (t := l ++ ["010"%char]).
  assert (Ht : Forall (fun c => is_continuation c = false) t) by (apply Forall_app; split; [done | by repeat constructor]).
  rewrite characters_app.
  2: { unfold t. destruct Hl as [|c l Hc Hl]; [reflexivity|]. cbn [app starts_char]. by rewrite Hc. }
  rewrite characters_app by reflexivity. rewrite (characters_single t) by done.
  change (chars newline) with ["010"%char].
  assert (Hs : length (characters start_text) = 16%nat) by (vm_compute; reflexivity).
  assert (He : length (characters end_text) = 16%nat) by (vm_compute; reflexivity).
  assert (Htl : length t = S (length l)) by (unfold t; rewrite length_app; simpl; lia).
  rewrite !length_app, length_fmap, Hs, He, Htl. replace (Nat.leb 33 (16 + (S (length l) + 16))) with true by (symmetry; apply Nat.leb_le; lia).
  rewrite bool_decide_true.
  - cbn [andb]. rewrite (drop_app_length' (characters start_text)) by (by rewrite Hs).
    rewrite take_app_le by (rewrite length_fmap; lia). rewrite take_ge by (rewrite length_fmap; lia). by rewrite concat_single.
  - rewrite lookup_app_r by lia. rewrite lookup_app_l by (rewrite length_fmap; lia). rewrite list_lookup_fmap.
    unfold t. rewrite lookup_app_r by lia. replace (16 + (S (length l) + 16) - 17 - length (characters start_text) - length l)%nat with 0%nat by lia. reflexivity.
Qed.

Definition mod_bytes (es : list mod_entry) : bytes :=
  (of_bval <$> SENTINEL_START) ++ text_of (mod_text es) ++ (of_bval <$> SENTINEL_END).

Lemma mod_text_snoc es : es <> [] -> exists l, chars (mod_text es) = l ++ ["010"%char].
Proof.
  intros Hne. unfold mod_text. rewrite chars_str_of. destruct es as [|e es _] using rev_ind; [done|].
  rewrite fmap_app, concat_app. csimpl. rewrite app_nil_r. eexists. by rewrite app_assoc.
Qed.
Lemma mod_text_ascii es : Forall entry_ok es -> ascii_text (mod_text es).
Proof.
  intros Hes. unfold ascii_text, ascii_bytes, codes, mod_text. rewrite chars_str_of, Forall_fmap. apply Forall_concat, Forall_fmap.
  eapply Forall_impl; [exact Hes|]. intros e He. unfold compose. apply Forall_app. split.
  - pose proof (eo_ascii e He) as H. unfold ascii_text, ascii_bytes, codes in H. by rewrite Forall_fmap in H.
  - repeat constructor; vm_compute; congruence.
Qed.

Lemma decode_mod es : Forall entry_ok es -> es <> [] -> unwrap_mod (decode Utf8 (mod_bytes es)) = mod_text es.
Proof.
  intros Hes Hne. pose proof (mod_text_ascii es Hes) as Ha. destruct (mod_text_snoc es Hne) as [l Hl].
  unfold decode, mod_bytes. rewrite !fmap_app, bval_text.
  replace (bval <$> (of_bval <$> SENTINEL_START)) with SENTINEL_START by (vm_compute; reflexivity).
  replace (bval <$> (of_bval <$> SENTINEL_END)) with SENTINEL_END by (vm_compute; reflexivity).
  rewrite sentinels_decoded; [|exact Ha|].
  - rewrite chr_codes, Hl. rewrite unwrap_sentinels.
    + rewrite <-Hl. apply str_of_chars.
    + pose proof (ascii_no_continuation _ Ha) as Hc. rewrite Hl in Hc. by apply Forall_app in Hc as [? _].
  - unfold codes. rewrite Hl. by destruct l.
Qed.

(** The section as the linker lays it out: the magic, the pointer size, the
    flag for inline strings, padding, and the two strings. *)
Definition go_header (ptr : Z) : bytes := GO_MAGIC ++ [of_bval ptr; of_bval 2] ++ replicate 16 x00.
Definition go_string (b : bytes) : bytes := enc_uvarint 9 (blen b) ++ b.
Definition go_blob (ptr : Z) (version : string) (es : list mod_entry) (rest : bytes) : bytes :=
  go_header ptr ++ go_string (text_of version) ++ go_string (mod_bytes es) ++ rest.

Lemma read_go_string p b rest : blen b < 2 ^ 63 ->
  exists pos, read_uvarint (p ++ go_string b ++ rest) (blen p) = Ok (blen b, pos) /\
    slice (p ++ go_string b ++ rest) pos (pos + blen b) = b /\ pos + blen b = blen (p ++ go_string b).
Proof.
  intros Hb. pose proof (blen_nonneg b) as H0. exists (blen p + blen (enc_uvarint 9 (blen b))). split_and!.
  - unfold read_uvarint, slice. unfold blen at 3. rewrite Nat2Z.id, drop_app_length, take_ge.
    + unfold go_string. rewrite <-app_assoc. rewrite uvarint_enc; [|change (7 * (Z.of_nat 9 + 1)) with 70; assert (2 ^ 63 < 2 ^ 70) by (vm_compute; reflexivity); lia|lia|simpl; lia|lia].
      by rewrite Z.shiftl_0_r, Z.lor_0_l.
    + unfold blen. rewrite !length_app. lia.
  - unfold go_string. rewrite <-!app_assoc, (app_assoc p), <-blen_app. apply slice_app.
  - unfold go_string. rewrite !blen_app. lia.
Qed.

(** C35: the build information of a Go 1.18 or later binary is read back: the
    toolchain version, the path of the main module (the last, were there
    several) and the build settings, whatever follows in the section. *)
Theorem go_buildinfo_roundtrip ptr version es rest
    (Hversion : ascii_text version /\ version <> EmptyString /\ blen (text_of version) < 2 ^ 63)
    (Hentries : Forall entry_ok es /\ es <> [] /\ blen (mod_bytes es) < 2 ^ 63) :
  parse_go_buildinfo (go_blob ptr version es rest) =
    Ok (Some (GoInfo (Some version) "inline" (last (omap entry_path es)) (settings_of es))).
Proof.
  destruct Hversion as (Hv & Hvne & Hvl), Hentries as (Hes & Hne & Hml). unfold parse_go_buildinfo.
  assert (Hh : blen (go_header ptr) = 32) by reflexivity.
  rewrite bool_decide_true by reflexivity. unfold go_blob at 1. rewrite blen_app, Hh.
  pose proof (blen_nonneg (go_string (text_of version) ++ go_string (mod_bytes es) ++ rest)) as Hn.
  match goal with |- context [32 + ?x <? 32] => replace (32 + x <? 32) with false by lia end. cbn [negb orb].
  assert (Hf : byte_at (go_blob ptr version es rest) 15 = Ok 2).
  { unfold byte_at, go_blob. rewrite blen_app, Hh.
    set (n := blen (go_string (text_of version) ++ go_string (mod_bytes es) ++ rest)) in *.
    replace (15 <? 32 + n) with true by lia. reflexivity. }
  rewrite Hf. cbn [mbind res_bind]. change (Z.land 2 2 =? 0) with false.
  destruct (read_go_string (go_header ptr) (text_of version) (go_string (mod_bytes es) ++ rest) Hvl) as (p1 & H1 & Hs1 & He1).
  rewrite Hh in H1. unfold go_blob. rewrite H1. cbn [mbind res_bind]. cbv zeta. rewrite Hs1, He1.
  destruct (read_go_string (go_header ptr ++ go_string (text_of version)) (mod_bytes es) rest Hml) as (p2 & H2 & Hs2 & _).
  rewrite <-app_assoc in H2, Hs2. rewrite H2. cbn [mbind res_bind]. rewrite Hs2, (decode_ascii version Hv), decode_mod by done.
  rewrite mod_text_lines, mod_lines by done. cbn [fst snd]. apply String.eqb_neq in Hvne. rewrite Hvne.
  unfold settings_of. by destruct (last _).
Qed.

Definition sample_entries : list mod_entry :=
  [ModPath "example.com/agent"; ModOther ("mod" +:+ tab +:+ "example.com/agent"); ModBuild "CGO_ENABLED" "0"; ModBuild "DefaultGODEBUG" "tlsmlkem=0"].
Lemma go_buildinfo_roundtrip_witness :
  parse_go_buildinfo (go_blob 8 "go1.24.1" sample_entries [x00; x00]) =
    Ok (Some (GoInfo (Some "go1.24.1"%string) "inline" (Some "example.com/agent"%string) [("CGO_ENABLED"%string, "0"%string); ("DefaultGODEBUG"%string, "tlsmlkem=0"%string)])).
Proof.
  apply (go_buildinfo_roundtrip 8 "go1.24.1" sample_entries [x00; x00]).
  - split_and!; [vm_compute; repeat constructor; congruence | discriminate | vm_compute; reflexivity].
  - split_and!; [|discriminate | vm_compute; reflexivity].
    repeat apply Forall_cons_2; [..|apply Forall_nil_2]; (constructor; [vm_compute; repeat constructor; congruence | vm_compute; repeat constructor|]);
      vm_compute; try done; intros H; repeat (apply elem_of_cons in H as [H|H]; [discriminate H|]); by apply not_elem_of_nil in H.
Defined.

Example short_elf_raises : analyze_executable (Ok (OpenFile ELF_MAGIC (2 ^ 62))) = Raise IndexError.
Proof. vm_compute. reflexivity. Qed.
