(* ===== verification/Linkage.v ===== *)
(** * What a process runs ([detect/runtime_services.py], per-process part)

    The crypto libraries a process maps, their versions, its Go runtime, its
    container and unit.  The files and links of /proc are queries on the
    host; the caches of the scan are a state that the operations thread. *)

From S2P Require Import Prelude PyStr PyDict PyVal PyRe PyPath PyBytes HostPath Classify Packages Libraries Gap ProcNet Elf.
Open Scope Z_scope.

(** ** The host and the caches *)

Record proc_host := ProcHost {
  pc_fs : host_fs; pc_prefix : prefixes;
  pc_listdir : string -> res (list string); pc_readlink : string -> res string;
  pc_text : string -> res string;                (* read_text *)
  pc_raw : string -> res string;                 (* the bytes of a file, up to the read cap *)
  pc_stat : string -> res (Z * Z); pc_open : string -> res open_file; pc_is_file : string -> bool;
  pc_big : bool;                                 (* the byte order of the machine *)
  pc_late : Z -> bool;                           (* the time budget is spent when this pid is next *)
  pc_linux : bool; pc_pid : Z; pc_note : option (list (string * value)) }.

(** [except OSError], [except PermissionError]; text that is not UTF-8 raises
    UnicodeDecodeError, a ValueError. *)
Definition os_error (e : exn) : bool := match e with Custom cls _ => bool_decide (cls ∈ ["OSError"; "PermissionError"]) | _ => false end.
Definition permission_error (e : exn) : bool := is_class "PermissionError" e.
Definition or_none {A} (m : res A) : res (option A) := catch os_error (a ← m; Ok (Some a)) (fun _ => Ok None).

Abbreviation lib_facts := (string * option string * option bool)%type.
Record cache := Cache {
  c_libs : list (Z * Z * lib_facts); c_by_maps : list (string * Z * lib_facts); c_exes : list (Z * Z * exe_info);
  c_ppids : option (list (Z * Z)); c_dynamic : list (string * option dynamic);
  c_names : option (list (string * (string * string * string))) }.
Definition new_cache : cache := Cache [] [] [] None [] None.
Definition set_libs c v := Cache v (c_by_maps c) (c_exes c) (c_ppids c) (c_dynamic c) (c_names c).
Definition set_by_maps c v := Cache (c_libs c) v (c_exes c) (c_ppids c) (c_dynamic c) (c_names c).
Definition set_exes c v := Cache (c_libs c) (c_by_maps c) v (c_ppids c) (c_dynamic c) (c_names c).
Definition set_ppids c v := Cache (c_libs c) (c_by_maps c) (c_exes c) v (c_dynamic c) (c_names c).
Definition set_dynamic c v := Cache (c_libs c) (c_by_maps c) (c_exes c) (c_ppids c) v (c_names c).
Definition set_names c v := Cache (c_libs c) (c_by_maps c) (c_exes c) (c_ppids c) (c_dynamic c) v.

(** A computation that threads the caches. *)
Definition scan (A : Type) : Type := cache -> res (A * cache).
#[export] Instance scan_ret : MRet scan := fun A a c => Ok (a, c).
#[export] Instance scan_bind : MBind scan := fun A B f m c => '(a, c) ← m c; f a c.
Definition lift {A} (m : res A) : scan A := fun c => a ← m; Ok (a, c).
Fixpoint scanM {A B} (f : A -> scan B) (l : list A) : scan (list B) :=
  match l with
  | [] => mret []
  | x :: l => y ← f x; ys ← scanM f l; mret (y :: ys)
  end.

(** ** Library versions *)

Definition OPENSSL_PQC_MIN_VERSION : Z * Z := (3, 5).
Definition GO_KYBER_DRAFT_DEFAULT_VERSION : Z * Z := (1, 23).
Definition OPENSSL_FORK_MARKERS : list (string * string) := [("aws-lc", "AWS-LC"); ("boringssl", "BoringSSL"); ("libressl", "LibreSSL ")].
Definition VERSION_RES : list (string * list re) := [
  ("openssl", [RSeqs [RLit "OpenSSL "; RGrp 1 (RSeqs [Digits; RLit "."; Digits; RLit "."; Digits; ROpt (RChr is_lower)]);
     ROpt (RSeqs [RLit "-"; RPlus (RChr is_word)]); RPlus (RLit " "); RRep 1 2 Digit; RLit " "; RRep 3 3 (RChr is_word); RLit " "; RRep 4 4 Digit]]);
  ("libressl", [RSeqs [RLit "LibreSSL "; V3]]); ("aws-lc", [RSeqs [RLit "AWS-LC "; V3]]); ("boringssl", []);
  ("gnutls", [RSeqs [RLit "GnuTLS "; V3]]);
  ("nss", [RSeqs [RLit "Version: NSS "; RGrp 1 (RSeqs [Digits; RLit "."; Digits; ROpt (RSeqs [RLit "."; Digits])])]]);
  ("wolfssl", [RSeqs [RLit "wolfSSL "; V3]])].

Definition library_version (family blob : string) : string * option string :=
  let family :=
    if String.eqb family "openssl"
    then default family (fst <$> List.find (fun fm : string * string => contains fm.2 blob) OPENSSL_FORK_MARKERS) else family in
  (family, group_or 1 <$> first_some (fun r => re_search r blob) (default [] (dget family VERSION_RES))).

Definition library_tls_pqc_markers (family blob : string) : option bool :=
  if negb (nonempty blob) then None
  else match (sp ← dget family LIBRARY_SPECS; dget "tls_hybrid_groups" (s_markers sp)) with
       | Some (m :: ms) => Some (existsb (fun nm : string * string => contains nm.2 blob) (m :: ms))
       | _ => None
       end.

Definition library_pqc_capable (family : string) (version : option string) (markers : option bool) : option bool :=
  match markers with
  | Some m => Some m
  | None =>
      match (v ← version; version_tuple v) with
      | None => None
      | Some vt =>
          if String.eqb family "openssl" then Some (negb (version_before vt OPENSSL_PQC_MIN_VERSION))
          else if String.eqb family "nss" then Some (negb (version_before vt NSS_PQC_MIN_VERSION))
          else None
      end
  end.

Record library := Library {
  lb_family : string; lb_path : string; lb_version : option string; lb_source : option string; lb_deleted : bool;
  lb_capable : option bool; lb_evidence : option string }.

(** ** Go *)

Definition nul : string := String "000" EmptyString.
Definition go_godebug_from_environ (raw : string) : option string :=
  (fun item => decode Utf8 (text_of (remove_prefix "GODEBUG=" item))) <$> List.find (starts_with "GODEBUG=") (split nul raw).

Record go_report := GoReport {
  gr_version : option string; gr_module : option string; gr_cgo : option string; gr_kex : option string; gr_reverts : list string }.
Definition GO_KEX_SETTINGS : list string := ["tlsmlkem"; "tlskyber"; "tlssecpmlkem"].
Definition reverted (godebug : string) : list string :=
  before "=" <$> List.filter (fun kv => ends_with "=0" (strip kv)) (split "," godebug).
Definition go_tls_kex_default (go : go_info) (runtime_godebug : option string) : option string * list string :=
  let vt := version_tuple (remove_prefix "go" (default EmptyString (gi_version go))) in
  let godebug := str_join "," (List.filter nonempty (omap id [dget "DefaultGODEBUG" (gi_settings go); runtime_godebug])) in
  let off := reverted godebug in
  (match vt with
   | None => None
   | Some vt =>
       if negb (version_before vt GO_MLKEM_DEFAULT_VERSION) then (if bool_decide ("tlsmlkem" ∈ off) then None else Some "X25519MLKEM768")
       else if negb (version_before vt GO_KYBER_DRAFT_DEFAULT_VERSION) then (if bool_decide ("tlskyber" ∈ off) then None else Some "X25519Kyber768Draft00")
       else None
   end, sorted_set (List.filter (fun k => bool_decide (k ∈ GO_KEX_SETTINGS)) off)).

(** ** Reading /proc *)

Section Host.
Context (h : proc_host).

Definition proc (pid : Z) (parts : list string) : string := host_path (pc_fs h) (pc_prefix h) ("/proc/" +:+ str_join "/" (show_Z pid :: parts)).
(** [root / rel.lstrip("/")]. *)
Definition below (root rel : string) : string := py_path (root +:+ "/" +:+ lstrip_by is_slash rel).

Definition pids_of : res (list Z) :=
  entries ← or_none (pc_listdir h (host_path (pc_fs h) (pc_prefix h) "/proc"));
  Ok (py_sorted Z.ltb ((fun e => digits_val (chars e)) <$> List.filter isdigit (default [] entries))).

Definition socket_of_fd (pid : Z) (fd : string) : res (list Z) :=
  target ← or_none (pc_readlink h (proc pid ["fd"; fd]));
  match target with
  | Some t => if starts_with "socket:[" t then i ← as_int (str_of (take (String.length t - 9) (drop 8 (chars t)))); Ok [i] else Ok []
  | None => Ok []
  end.
(** [None] when the table of descriptors may not be read. *)
Definition socket_inodes (pid : Z) : res (option (list Z)) :=
  fds ← catch os_error (l ← pc_listdir h (proc pid ["fd"]); Ok (Some l)) (fun e => Ok (if permission_error e then None else Some []));
  match fds with None => Ok None | Some fds => ls ← mapM (socket_of_fd pid) fds; Ok (Some (remove_dups (concat ls))) end.
Definition netns (pid : Z) : res (option string) := or_none (pc_readlink h (proc pid ["ns"; "net"])).
Definition socket_table (pid : Z) (np : string * string) : res (list sock) :=
  text ← or_none (pc_text h (proc pid ["net"; np.1]));
  match text with Some t => parse_proc_net (pc_big h) t np.2 | None => Ok [] end.
Definition listening_sockets (pid : Z) : res (list sock) :=
  ls ← mapM (socket_table pid) [("tcp", "tcp"); ("tcp6", "tcp"); ("udp", "udp"); ("udp6", "udp")]; Ok (concat ls).

(** [line.split(":", 2)], when it has three parts. *)
Definition cgroup_fields (line : string) : option (string * string * string) :=
  '(a, rest) ← cut ":" line; '(b, c) ← cut ":" rest; Some (a, b, c).
Fixpoint cgroup_lines (path : option string) (lines : list string) : option string :=
  match lines with
  | [] => path
  | l :: lines =>
      match cgroup_fields l with
      | Some (a, b, c) => if String.eqb a "0" then Some c else cgroup_lines (if contains "name=systemd" b then Some c else path) lines
      | None => cgroup_lines path lines
      end
  end.
Definition cgroup_path (pid : Z) : res (option string) :=
  text ← or_none (pc_text h (proc pid ["cgroup"])); Ok (t ← text; cgroup_lines None (splitlines t)).

Definition comm (pid : Z) : res (option string) :=
  text ← or_none (pc_text h (proc pid ["comm"])); Ok (t ← text; let s := strip t in if nonempty s then Some s else None).
Definition exe (pid : Z) : res (option string) := or_none (pc_readlink h (proc pid ["exe"])).

(** *** Containers *)

Definition UNIT_RE : re := RSeqs [RLit "/"; RGrp 1 (RSeqs [RPlus (NotSet "/"); RLit "."; RAlts [RLit "service"; RLit "scope"]]); Eos].
Definition is_hex_lower (c : ascii) : bool := is_digit c || in_range 97 102 c.
Definition HEX64 : re := RRep 64 64 (RChr is_hex_lower).
Definition CONTAINER_SCOPE_RE : re :=
  RSeqs [RLit "/"; RGrp 1 (RAlts [RLit "crio"; RLit "cri-containerd"; RLit "docker"; RLit "libpod"]); RLit "-"; RGrp 2 HEX64; RLit ".scope"; Eos].
Definition CONTAINER_CGROUPFS_RE : re :=
  RSeqs [RLit "/pod"; RRep 32 36 (RChr (fun c => is_hex_lower c || Ascii.eqb c "-")); RLit "/"; RGrp 1 HEX64; Eos].
Definition POD_UID_RE : re :=
  RSeqs [Set_ "-/"; RLit "pod"; RGrp 1 (RRep 32 36 (RChr (fun c => is_hex_lower c || char_in "_-" c))); RAlts [RLit ".slice"; RLit "/"]].
Definition RUNTIME_NAMES : list (string * string) := [("crio", "cri-o"); ("cri-containerd", "containerd"); ("docker", "docker"); ("libpod", "podman")].
Definition CONTAINER_LOG_RE : re :=
  RSeqs [Bos; RGrp 1 (RPlus (NotSet "_")); RLit "_"; RGrp 2 (RPlus (NotSet "_")); RLit "_"; RGrp 3 (RPlus Dot); RLit "-"; RGrp 4 HEX64; RLit ".log"; Eos].
Definition CONTAINER_LOG_MAX_ENTRIES : nat := 20000.

Definition log_entry (names : list (string * (string * string * string))) (name : string) : list (string * (string * string * string)) :=
  match re_match CONTAINER_LOG_RE name with
  | Some m => dset (group_or 4 m) (group_or 1 m, group_or 2 m, group_or 3 m) names
  | None => names
  end.
Definition container_names : scan (list (string * (string * string * string))) := fun c =>
  match c_names c with
  | Some names => Ok (names, c)
  | None =>
      entries ← or_none (pc_listdir h (host_path (pc_fs h) (pc_prefix h) "/var/log/containers"));
      let names := foldl log_entry [] (take CONTAINER_LOG_MAX_ENTRIES (default [] entries)) in
      Ok (names, set_names c (Some names))
  end.

Record container_id := ContainerId { ct_runtime : option string; ct_id : string; ct_pod_uid : option string; ct_names : option (string * string * string) }.
(** The runtime and the container in a cgroup path. *)
Definition cgroup_container (cgroup : string) : option (option string * string) :=
  match re_search CONTAINER_SCOPE_RE cgroup with
  | Some m => Some (dget (group_or 1 m) RUNTIME_NAMES, group_or 2 m)
  | None => (fun m => (None, group_or 1 m)) <$> re_search CONTAINER_CGROUPFS_RE cgroup
  end.
Definition replace_underscores (s : string) : string := str_map (fun c => if Ascii.eqb c "_" then "-"%char else c) s.
Definition container_identity (cgroup : option string) : scan (option container_id) :=
  match (g ← cgroup; if nonempty g then '(rt, cid) ← cgroup_container g; Some (g, rt, cid) else None) with
  | None => mret None
  | Some (g, rt, cid) =>
      names ← container_names;
      mret (Some (ContainerId rt cid ((fun m => replace_underscores (group_or 1 m)) <$> re_search POD_UID_RE g) (dget cid names)))
  end.

(** *** Libraries and executables through the caches *)

(** The file of the first candidate that can be read. *)
Fixpoint read_library_file (family : string) (key : option (string * Z)) (cands : list string) : scan (option lib_facts) := fun c =>
  match cands with
  | [] => Ok (None, c)
  | cand :: cands =>
      let known st := match dget st (c_libs c) with
                      | Some facts => Ok (facts, c)
                      | None => blob ← pc_raw h cand;
                                let '(fam, ver) := library_version family blob in
                                let facts := (fam, ver, library_tls_pqc_markers fam blob) in
                                Ok (facts, set_libs c (dset st facts (c_libs c)))
                      end in
      found ← or_none (st ← pc_stat h cand; known st);
      match found with
      | Some (facts, c) => Ok (Some facts, match key with Some k => set_by_maps c (dset k facts (c_by_maps c)) | None => c end)
      | None => read_library_file family key cands c
      end
  end.
Definition dots (s : string) : nat := length (split "." s) - 1.
Definition library_details (pid : Z) (m : mapped) : scan library := fun c =>
  let cands := (if mp_deleted m then [proc pid ["map_files"; mp_range m]] else []) ++ [proc pid ["root"; lstrip_by is_slash (mp_path m)]] in
  '(found, c) ← read_library_file (mp_family m) (mp_key m) cands c;
  let found := match found with Some f => Some f | None => k ← mp_key m; dget k (c_by_maps c) end in
  let '(family, version, markers) := default (mp_family m, None, None) found in
  let source := match version with Some _ => Some "embedded" | None => None end in
  let '(version, source) :=
    match version, mp_soname m with
    | None, Some s => if Nat.leb 2 (dots s) && String.eqb (mp_family m) "openssl" then (Some s, Some "filename") else (version, source)
    | _, _ => (version, source)
    end in
  Ok (Library family (mp_path m) version source (mp_deleted m) (library_pqc_capable family version markers)
        (match markers with
         | Some _ => Some "binary"
         | None => match library_pqc_capable family version None with Some _ => Some "version" | None => None end
         end), c).

Definition crypto_lib (l : library) : bool := starts_with "libcrypto." (basename (lb_path l)).
Definition inherit_one (by_dir : list (string * library)) (l : library) : library :=
  match dget (dirname (lb_path l)) by_dir, lb_version l with
  | Some s, None => if starts_with "libssl." (basename (lb_path l))
                    then Library (lb_family s) (lb_path l) (lb_version s) (Some "sibling-libcrypto") (lb_deleted l) (lb_capable s) (lb_evidence s)
                    else l
  | _, _ => l
  end.
Definition versioned (l : library) : bool := match lb_version l with Some v => nonempty v | None => false end.
Definition inherit_libssl_version (libs : list library) : list library :=
  let by_dir := foldl (fun d l => dset (dirname (lb_path l)) l d) [] (List.filter (fun l => crypto_lib l && versioned l) libs) in
  inherit_one by_dir <$> libs.

Record details := Details {
  dt_process : option string; dt_exe : option string; dt_unit : option string; dt_cgroup : option string; dt_container : option container_id;
  dt_libs : list library; dt_static : option bool; dt_go : option go_report }.

Definition exe_facts (pid : Z) : scan exe_info := fun c =>
  let path := proc pid ["exe"] in
  found ← or_none (st ← pc_stat h path;
    match dget st (c_exes c) with
    | Some x => Ok (x, c)
    | None => x ← analyze_executable (pc_open h path); Ok (x, set_exes c (dset st x (c_exes c)))
    end);
  Ok (default (EXE_UNKNOWN, c) found).
Definition go_of (pid : Z) (go : go_info) : res go_report :=
  environ ← or_none (pc_raw h (proc pid ["environ"]));
  let '(kex, reverts) := go_tls_kex_default go (go_godebug_from_environ (default EmptyString environ)) in
  Ok (GoReport (gi_version go) (gi_module go) (dget "CGO_ENABLED" (gi_settings go)) kex reverts).
(** [path[-200:]]. *)
Definition last_chars (n : nat) (s : string) : string := let cs := characters (chars s) in str_of (concat (drop (length cs - n) cs)).
Definition process_details (pid : Z) (maps : option string) : scan details :=
  path ← lift (cgroup_path pid);
  let path := p ← path; if nonempty p then Some p else None in
  process ← lift (comm pid);
  exe_path ← lift (exe pid);
  container ← container_identity path;
  text ← lift (match maps with Some m => Ok m | None => t ← or_none (pc_text h (proc pid ["maps"])); Ok (default EmptyString t) end);
  libs ← scanM (library_details pid) (parse_maps_libraries text);
  x ← exe_facts pid;
  go ← lift (match xi_go x with None => Ok None | Some g => r ← go_of pid g; Ok (Some r) end);
  mret (Details process exe_path (p ← path; m ← re_search UNIT_RE p; group 1 m) (last_chars 200 <$> path) container
          (inherit_libssl_version libs) (xi_static x) go).
End Host.
