(* ===== verification/Worker.v ===== *)
(** * Listening services ([detect/runtime_services.py], workers and the scan)

    Where the crypto library of a master daemon comes from, and the scan of
    every listening socket. *)

From stdpp Require Import sets relations.
From S2P Require Import Prelude OsinfoTheory PyStr PyDict PyVal PyRe PyPath PyBytes HostPath Packages ProcNet Elf Linkage PyIp.
Open Scope Z_scope.
Definition SHARED_BIN_DIRS : list string := ["/bin"; "/sbin"; "/usr/bin"; "/usr/sbin"; "/usr/local/bin"; "/usr/local/sbin"].
Definition dotted_word : re := RStar true (RChr (fun c => is_word c || char_in ".-" c)).
Definition NOT_FOLLOWED : re :=
  RSeqs [Bos; RAlts [RLit "libc"; RLit "libm"; RLit "libdl"; RLit "libpthread"; RLit "librt"; RLit "libresolv"; RLit "libutil"; RLit "libnsl"; RLit "libcrypt";
    RSeqs [RLit "ld-linux"; dotted_word]; RLit "libgcc_s"; RLit "libstdc++"; RLit "libz"; RLit "libzstd"; RLit "liblzma"; RLit "libbz2"; RLit "liblz4";
    RLit "libselinux"; RSeqs [RLit "libpcre"; ROpt (RLit "2"); ROpt (RLit "-"); RStar true Digit]; RLit "libcap"; RLit "libsystemd"; RLit "libudev";
    RSeqs [RLit "libdb-"; RPlus (RChr (fun c => is_digit c || Ascii.eqb c "."))];
    RSeqs [RLit "libicu"; RPlus (RChr is_word)]; RLit "libsasl2"; RSeqs [RLit "libldap"; dotted_word]; RSeqs [RLit "liblber"; dotted_word]; RLit "libgssapi_krb5"; RLit "libkrb5";
    RLit "libk5crypto"; RLit "libcom_err"; RLit "libkeyutils"; RLit "libtirpc"]; RLit ".so"].
Definition DEFAULT_LIB_DIRS : list string := [
  "/lib64"; "/usr/lib64"; "/lib/x86_64-linux-gnu"; "/usr/lib/x86_64-linux-gnu"; "/lib/aarch64-linux-gnu"; "/usr/lib/aarch64-linux-gnu";
  "/lib/s390x-linux-gnu"; "/usr/lib/s390x-linux-gnu"; "/lib"; "/usr/lib"].
Definition WORKER_MAX_DESCENDANTS : nat := 64.
Definition WORKER_MAX_BINARIES : nat := 96.
Definition WORKER_ELF_BUDGET : Z := 256.
Definition WORKER_NEEDED_DEPTH : nat := 2.

(** The process that serves a socket: the lowest owner but init. *)
Definition service_pid (pids : list Z) : option Z :=
  head (match List.filter (fun p => negb (p =? 1)) pids with [] => pids | served => served end).

Section Host.
Context (h : proc_host).

(** ** Descendants *)

(** [int(text[text.rindex(")") + 2:].split()[1])]. *)
Definition ppid_of_stat (text : string) : option Z :=
  if contains ")" text then w ← words (str_of (drop 1 (chars (after_last ")" text)))) !! 1%nat; int_of_str w else None.
Definition ppid (pid : Z) : res (option Z) :=
  catch (fun e => os_error e || value_error e) (t ← pc_text h (proc h pid ["stat"]); Ok (ppid_of_stat t)) (fun _ => Ok None).
Definition parents (pids : list Z) : scan (list (Z * Z)) := fun c =>
  match c_ppids c with
  | Some pp => Ok (pp, c)
  | None =>
      pp ← foldM (fun pp p => q ← ppid p; Ok (match q with Some q => dset p q pp | None => pp end)) [] pids;
      Ok (pp, set_ppids c (Some pp))
  end.
Definition children (pp : list (Z * Z)) (p : Z) : list Z := py_sorted Z.ltb (fst <$> List.filter (fun cp => cp.2 =? p) pp).
(** Every round but the last adds a process. *)
Fixpoint generations (fuel : nat) (pp : list (Z * Z)) (frontier out : list Z) : list Z :=
  match fuel, frontier with
  | S fuel, _ :: _ =>
      if Nat.ltb (length out) WORKER_MAX_DESCENDANTS then
        let nxt := frontier ≫= children pp in generations fuel pp nxt (out ++ nxt)
      else out
  | _, _ => out
  end.
Definition descendants (owner : Z) (pids : list Z) : scan (list Z) :=
  pp ← parents pids;
  mret (take WORKER_MAX_DESCENDANTS (generations (S WORKER_MAX_DESCENDANTS) pp [owner] [])).

(** ** Libraries linked by a worker's executable *)

Definition LIBC_RE : re := RSeqs [RLit "/libc.so."; RPlus Digit; Eos].
Fixpoint libc_dir (lines : list string) : res (option string) :=
  match lines with
  | [] => Ok None
  | l :: lines =>
      match last (split_max 5 (chars l)) with
      | None => Raise IndexError
      | Some p => let path := strip p in if test_search LIBC_RE path then Ok (Some (dirname path)) else libc_dir lines
      end
  end.
Definition lib_dirs (owner : Z) : res (list string) :=
  found ← catch os_error (t ← pc_text h (proc h owner ["maps"]); libc_dir (splitlines t)) (fun _ => Ok None);
  let dirs := match found with Some d => [d] | None => [] end in
  Ok (dirs ++ List.filter (fun d => negb (bool_decide (d ∈ dirs))) DEFAULT_LIB_DIRS).

Definition dynamic_key (root path : string) : string := root +:+ nul +:+ path.
Definition dynamic_through (root path : string) : scan (option dynamic) := fun c =>
  let key := dynamic_key root path in
  match dget key (c_dynamic c) with
  | Some d => Ok (d, c)
  | None =>
      d ← catch read_error (f ← pc_open h (below root path); elf_dynamic f) (fun _ => Ok None);
      Ok (d, set_dynamic c (dset key d (c_dynamic c)))
  end.

Definition str_replace (old new s : string) : string := str_join new (split old s).
Definition plain_name (name : string) : bool := negb (contains "/" name) && negb (bool_decide (name ∈ [EmptyString; "."; ".."])).
Definition run_dir (origin d : string) : string := normpath (str_replace "$ORIGIN" origin (str_replace "${ORIGIN}" origin d)).
(** [root / d.lstrip("/") / name]. *)
Definition lib_file (root d name : string) : string := below (below root d) name.
Definition resolve_needed (root : string) (dirs : list string) (name : string) : option string :=
  (fun d => path_join d name) <$> List.find (fun d => starts_with "/" d && pc_is_file h (lib_file root d name)) dirs.

(** The libraries found, the names seen, and the files that may still be
    opened. *)
Record walk_state := WalkState { ws_found : list string; ws_seen : list string; ws_budget : Z }.
Definition visit_needed (root : string) (dirs : list string) (deeper : bool) (st : walk_state * list string) (name : string) : walk_state * list string :=
  let '(w, queue) := st in
  if negb (plain_name name) || bool_decide (name ∈ ws_seen w) || test_match NOT_FOLLOWED name then st
  else
    let w := WalkState (ws_found w) (name :: ws_seen w) (ws_budget w) in
    match resolve_needed root dirs name with
    | None => (w, queue)
    | Some p =>
        (match family_of_base name with Some _ => WalkState (ws_found w ++ [p]) (ws_seen w) (ws_budget w) | None => w end,
         if deeper then queue ++ [p] else queue)
    end.
Definition visit_file (root : string) (sys_dirs : list string) (deeper : bool) (st : walk_state * list string) (path : string) : scan (walk_state * list string) := fun c =>
  let '(w, queue) := st in
  if ws_budget w <=? 0 then Ok (st, c)
  else
    let w := match dget (dynamic_key root path) (c_dynamic c) with Some _ => w | None => WalkState (ws_found w) (ws_seen w) (ws_budget w - 1) end in
    '(d, c) ← dynamic_through root path c;
    match d with
    | None => Ok ((w, queue), c)
    | Some d =>
        let dirs := (run_dir (dirname path) <$> dy_runpath d) ++ sys_dirs in
        Ok (foldl (visit_needed root dirs deeper) (w, queue) (dy_needed d), c)
    end.
Fixpoint foldS {A B} (f : B -> A -> scan B) (acc : B) (l : list A) : scan B :=
  match l with [] => mret acc | x :: l => acc ← f acc x; foldS f acc l end.
(** The queue is first in, first out, so its entries leave it depth by
    depth: [levels] is how many depths are left to follow. *)
Fixpoint walk_levels (root : string) (sys_dirs : list string) (levels : nat) (w : walk_state) (queue : list string) : scan walk_state :=
  '(w, next) ← foldS (visit_file root sys_dirs (match levels with O => false | S _ => true end)) (w, []) queue;
  match levels with O => mret w | S levels => walk_levels root sys_dirs levels w next end.
Definition linked_crypto_libraries (root binary : string) (sys_dirs : list string) (budget : Z) : scan (list string * Z) :=
  w ← walk_levels root sys_dirs WORKER_NEEDED_DEPTH (WalkState [] [] budget) [binary];
  mret (ws_found w, ws_budget w).

Definition has_tls_library (paths : list string) : bool := existsb (fun p => negb (starts_with "libcrypto." (basename p))) paths.

(** The executable chosen, the first that links libcrypto only, and the
    budget; a budget of 0 or a choice ends the search. *)
Record search := Search { se_chosen : option (list string * string); se_fallback : option (list string * string); se_budget : Z }.
Definition search_done (s : search) : bool := match se_chosen s with Some _ => true | None => se_budget s <=? 0 end.
(** The budget is looked at after an executable is searched, and after a
    directory. *)
Fixpoint search_binaries (root d : string) (sys_dirs : list string) (s : search) (names : list string) : scan search :=
  match names with
  | [] => mret s
  | name :: names =>
      let path := path_join d name in
      if negb (pc_is_file h (below root path)) then search_binaries root d sys_dirs s names
      else
        '(libs, budget) ← linked_crypto_libraries root path sys_dirs (se_budget s);
        let s := match libs with
                 | [] => Search None (se_fallback s) budget
                 | _ :: _ => if has_tls_library libs then Search (Some (libs, path)) (se_fallback s) budget
                             else Search None (match se_fallback s with None => Some (libs, path) | f => f end) budget
                 end in
        if search_done s then mret s else search_binaries root d sys_dirs s names
  end.
Fixpoint search_dirs (root : string) (sys_dirs : list string) (s : search) (dirs : list string) : scan search :=
  match dirs with
  | [] => mret s
  | d :: dirs =>
      names ← lift (or_none (pc_listdir h (below root d)));
      match names with
      | None => search_dirs root sys_dirs s dirs
      | Some names =>
          s ← search_binaries root d sys_dirs s (take WORKER_MAX_BINARIES (py_sorted str_lt names));
          if search_done s then mret s else search_dirs root sys_dirs s dirs
      end
  end.
Definition linked_library (owner : Z) (path : string) : scan library :=
  let base := basename path in
  library_details h owner (Mapped (default EmptyString (family_of_base base)) path (soname_version base) false EmptyString None).
Definition worker_binary_libraries (owner : Z) (worker_dirs : list string) : scan (option (list library * string)) :=
  sys_dirs ← lift (lib_dirs owner);
  s ← search_dirs (proc h owner ["root"]) sys_dirs (Search None None WORKER_ELF_BUDGET) worker_dirs;
  match (match se_chosen s with Some x => Some x | None => se_fallback s end) with
  | None => mret None
  | Some (libs, path) => entries ← scanM (linked_library owner) libs; mret (Some (inherit_libssl_version entries, path))
  end.
End Host.

(** * Master and worker daemons: theorems

    The walk over a worker's linked libraries reads files below the daemon's
    root only and opens a bounded number of them; the search for descendants
    is complete. *)
(** ** Paths *)

(** An absolute path that never goes up. *)
Definition inside (p : string) : Prop := starts_with "/" p = true /\ ".." ∉ components p.

Lemma components_slash a b : components (a +:+ "/" +:+ b) = components a ++ components b.
Proof.
  unfold components. assert (a +:+ "/" +:+ b = str_join "/" (split "/" a ++ split "/" b)) as ->.
  { apply chars_inj. rewrite !chars_app. rewrite chars_str_join. rewrite <-(split_join "/"%char a) at 1. rewrite <-(split_join "/"%char b) at 1.
    rewrite !chars_str_join. change (chars "/") with ["/"%char].
    assert (Hne : chars <$> split "/" b <> []) by (pose proof (split_ne "/"%char b); by destruct (split "/" b)).
    rewrite fmap_app. generalize (split_ne "/"%char a). change (String "/" EmptyString) with "/".
    generalize (split "/" a) as ps. intros ps. induction ps as [|p ps IH]; intros Hps; [done|]. destruct ps as [|q ps].
    - change ((chars <$> [p]) ++ (chars <$> split "/" b)) with (chars p :: (chars <$> split "/" b)). by rewrite (join_chars_cons _ (chars p) _ Hne).
    - set (X := chars <$> q :: ps) in *. set (Y := chars <$> split "/" b) in *.
      change (join_chars ["/"%char] (chars p :: X) ++ ["/"%char] ++ join_chars ["/"%char] Y = join_chars ["/"%char] (chars p :: (X ++ Y))).
      rewrite !join_chars_cons by done. rewrite <-!app_assoc. do 2 f_equal. apply IH. done. }
  rewrite join_split, List.filter_app; [done| |].
  - pose proof (split_ne "/"%char a). by destruct (split "/" a).
  - apply Forall_app. split; apply Forall_forall; intros p Hp; by eapply split_free.
Qed.

Lemma starts_slash s : starts_with "/" s = true <-> exists t, s = "/" +:+ t.
Proof.
  destruct s as [|c s]; [by split; [|intros (t & ?)]|]. rewrite starts_with_char. split.
  - intros E. apply Ascii.eqb_eq in E as <-. by exists s.
  - intros (t & [= -> _]). by apply Ascii.eqb_refl.
Qed.
Lemma ends_slash s : ends_with "/" s = true -> exists t, s = t +:+ "/".
Proof.
  unfold ends_with. intros H. destruct (reverse (chars s)) as [|c r] eqn:E; [done|].
  assert (c = "/"%char) as ->. { change (starts_with "/" (String c (str_of r)) = true) in H. rewrite starts_with_char in H. by apply Ascii.eqb_eq in H. }
  exists (str_of (reverse r)). apply chars_inj. rewrite chars_app, chars_str_of.
  apply (f_equal reverse) in E. rewrite reverse_involutive in E. by rewrite E, reverse_cons.
Qed.
Lemma components_name name : "/"%char ∉ chars name -> components name = if nonempty name then [name] else [].
Proof.
  intros H. unfold components. assert (split "/" name = [name]) as ->; [|by cbn; destruct (nonempty name)].
  apply (join_split "/"%char [name]); [done | by repeat constructor].
Qed.
Lemma plain_name_spec name : plain_name name = true -> "/"%char ∉ chars name /\ name <> EmptyString /\ name <> "." /\ name <> "..".
Proof.
  unfold plain_name. rewrite andb_true_iff, !negb_true_iff, bool_decide_eq_false. intros [Hc Hn]. split.
  - intros Hin. by rewrite (contains_char _ _ Hin) in Hc.
  - split_and!; intros ->; apply Hn; set_solver.
Qed.

Lemma inside_join d name : inside d -> plain_name name = true -> inside (path_join d name).
Proof.
  intros [Hs Hd] Hname. apply plain_name_spec in Hname as (Hsl & Hne & _ & Hdd).
  assert (Hrel : starts_with "/" name = false).
  { apply not_true_iff_false. intros (t & ->)%starts_slash. apply Hsl. rewrite chars_app. by left. }
  assert (Hc : components name = [name]).
  { rewrite components_name by done. unfold nonempty. apply String.eqb_neq in Hne. by rewrite Hne. }
  assert (Hjoin : forall a, ".." ∉ components a -> starts_with "/" (a +:+ "/" +:+ name) = true -> inside (a +:+ "/" +:+ name)).
  { intros a Ha Hst. split; [done|]. rewrite components_slash, Hc, not_elem_of_app. split; [done|]. intros H%list_elem_of_singleton. congruence. }
  apply starts_slash in Hs as [t ->]. unfold path_join. rewrite Hrel. change (String.eqb ("/" +:+ t) EmptyString) with false. cbn [orb].
  destruct (ends_with "/" ("/" +:+ t)) eqn:E; [|apply Hjoin; [done | by apply starts_slash; eexists]].
  apply ends_slash in E as [u E]. assert (("/" +:+ t) +:+ name = u +:+ "/" +:+ name) as Eu.
  { rewrite E. apply chars_inj. rewrite !chars_app. by rewrite <-app_assoc. }
  rewrite Eu. apply Hjoin; [|rewrite <-Eu; by apply starts_slash; eexists].
  rewrite E in Hd. change (u +:+ "/") with (u +:+ "/" +:+ EmptyString) in Hd. rewrite components_slash in Hd. by apply not_elem_of_app in Hd as [? _].
Qed.

(** *** [normpath] *)

Definition part_ok (absolute : bool) (c : string) : Prop := c <> EmptyString /\ "/"%char ∉ chars c /\ (absolute = true -> c <> "..").
Lemma norm_parts absolute l : forall acc, Forall (fun c => "/"%char ∉ chars c) l -> Forall (part_ok absolute) acc -> Forall (part_ok absolute) (foldl (norm_step absolute) acc l).
Proof.
  induction l as [|c l IH]; intros acc Hl Hacc; [done|]. apply Forall_cons in Hl as [Hc Hl]. cbn [foldl]. apply IH; [done|].
  unfold norm_step. destruct (String.eqb_spec c EmptyString) as [|Hne]; [done|]. destruct (String.eqb_spec c "."); [done|]. cbn [orb].
  destruct (String.eqb_spec c "..") as [->|Hup]; cbn [negb]; [|constructor; [by split_and!|done]].
  destruct acc as [|d acc]; [destruct absolute; [done|]; repeat constructor; done|].
  apply Forall_cons in Hacc as [Hd Hacc]. destruct (String.eqb_spec d "..") as [->|]; [|done].
  constructor; [exact Hd | by constructor].
Qed.
Lemma inside_normpath s : starts_with "/" (normpath s) = true -> inside (normpath s).
Proof.
  intros Hs. split; [done|]. unfold normpath in Hs |- *. destruct (String.eqb_spec s EmptyString) as [|Hne]; [discriminate Hs|].
  set (l := foldl (norm_step (starts_with "/" s)) [] (split "/" s)) in *.
  assert (Hl : Forall (part_ok (starts_with "/" s)) (reverse l)).
  { apply Forall_reverse, norm_parts; [|constructor]. apply Forall_forall. intros p Hp. by eapply split_free. }
  generalize dependent (reverse l). clear l. intros l Hs Hl.
  destruct (starts_with "/" s) eqn:Es.
  - assert (Hparts : ".." ∉ components (str_join "/" l)).
    { intros H. unfold components in H. destruct l as [|p l]; [vm_compute in H; by apply not_elem_of_nil in H|].
      rewrite join_split in H; [|done | eapply Forall_impl; [exact Hl|]; intros c Hc; apply Hc].
      apply list_elem_of_In, filter_In in H as [H _]. apply list_elem_of_In in H. rewrite Forall_forall in Hl. by destruct (Hl _ H) as (_ & _ & Hd); apply Hd. }
    assert (Hgoal : forall pre, pre = "/" \/ pre = "//" -> ".." ∉ components (pre +:+ str_join "/" l)).
    { intros pre [-> | ->].
      - change ("/" +:+ str_join "/" l) with (EmptyString +:+ "/" +:+ str_join "/" l). by rewrite components_slash.
      - change ("//" +:+ str_join "/" l) with ("/" +:+ "/" +:+ str_join "/" l). by rewrite components_slash. }
    destruct (starts_with "//" s && negb (starts_with "///" s)); cbn [andb] in *;
      (match goal with |- context [String.eqb ?x EmptyString] => change (String.eqb x EmptyString) with false end); apply Hgoal; auto.
  - exfalso. cbn in Hs. destruct l as [|p l]; [discriminate Hs|].
    apply Forall_cons in Hl as [(Hpne & Hsl & _) _]. destruct p as [|c p]; [done|].
    assert (Hc : c <> "/"%char) by (intros ->; apply Hsl; by left).
    assert (Hh : exists t, str_join "/" (String c p :: l) = String c t) by (destruct l; by eexists).
    destruct Hh as [t Hh]. change (str_join "/" (String c p :: l)) with (str_join "/" (String c p :: l)) in Hs. rewrite Hh in Hs.
    change (starts_with "/" (String c t) = true) in Hs. rewrite starts_with_char in Hs. apply Ascii.eqb_eq in Hs. congruence.
Qed.

(** ** The walk over linked libraries *)

Lemma foldS_cons {A B} (f : B -> A -> scan B) acc x l c :
  foldS f acc (x :: l) c = match f acc x c with Ok (b, c') => foldS f b l c' | Raise e => Raise e end.
Proof. cbn [foldS]. unfold mbind, scan_bind. by destruct (f acc x c) as [[b c']|e]. Qed.
Lemma walk_levels_eq h root sys_dirs levels w queue c :
  walk_levels h root sys_dirs levels w queue c =
  match foldS (visit_file h root sys_dirs (match levels with O => false | S _ => true end)) (w, []) queue c with
  | Ok (w, next, c') => match levels with O => Ok (w, c') | S levels => walk_levels h root sys_dirs levels w next c' end
  | Raise e => Raise e
  end.
Proof. destruct levels; cbn [walk_levels]; unfold mbind, scan_bind; by destruct (foldS _ _ _ c) as [[[w' next] c']|e]. Qed.

(** Two hosts with the same files below [root]. *)
Record same_below (h1 h2 : proc_host) (root : string) : Prop := {
  sb_open : forall p, inside p -> pc_open h1 (below root p) = pc_open h2 (below root p);
  sb_file : forall d name, inside d -> plain_name name = true -> pc_is_file h1 (lib_file root d name) = pc_is_file h2 (lib_file root d name) }.

Definition dirs_ok (dirs : list string) : Prop := Forall (fun d => starts_with "/" d = true -> inside d) dirs.
Definition st_ok (st : walk_state * list string) : Prop := Forall inside (ws_found st.1) /\ Forall inside st.2.
(** The files opened between two states of the caches: as many as the budget
    fell by. *)
Definition opened (root : string) (c c' : cache) (spent : Z) : Prop := exists ps,
  (c_dynamic c').*1 = (c_dynamic c).*1 ++ (dynamic_key root <$> ps) /\ Forall inside ps /\ Z.of_nat (length ps) = spent.

Lemma opened_refl root c : opened root c c 0.
Proof. exists []. by rewrite app_nil_r. Qed.
Lemma opened_trans root c1 c2 c3 a b : opened root c1 c2 a -> opened root c2 c3 b -> opened root c1 c3 (a + b).
Proof.
  intros (p & E1 & H1 & <-) (q & E2 & H2 & <-). exists (p ++ q). rewrite E2, E1, fmap_app, app_assoc, length_app.
  split_and!; [done | by apply Forall_app | lia].
Qed.

Section Walk.
Context (h1 h2 : proc_host) (root : string) (Hsame : same_below h1 h2 root).

Lemma resolve_needed_same dirs name : dirs_ok dirs -> plain_name name = true ->
  resolve_needed h1 root dirs name = resolve_needed h2 root dirs name /\
  forall p, resolve_needed h1 root dirs name = Some p -> inside p.
Proof.
  intros Hd Hn. unfold resolve_needed. induction Hd as [|d dirs Hd Hdirs IH]; [done|]. cbn [List.find].
  destruct (starts_with "/" d) eqn:Es; cbn [andb]; [|exact IH]. specialize (Hd eq_refl).
  rewrite (sb_file _ _ _ Hsame d name Hd Hn). destruct (pc_is_file h2 _); [|exact IH].
  split; [done|]. intros p [= <-]. by apply inside_join.
Qed.

Lemma visit_needed_same dirs deeper st name : dirs_ok dirs -> st_ok st ->
  visit_needed h1 root dirs deeper st name = visit_needed h2 root dirs deeper st name /\
  st_ok (visit_needed h1 root dirs deeper st name) /\ ws_budget (visit_needed h1 root dirs deeper st name).1 = ws_budget st.1.
Proof.
  intros Hd [Hf Hq]. destruct st as [w queue]. cbn [fst snd] in *. unfold visit_needed.
  destruct (plain_name name) eqn:Hn; cbn [negb orb]; [|done]. destruct (bool_decide _ || _); [done|].
  destruct (resolve_needed_same dirs name Hd Hn) as [E Hin]. rewrite E in Hin |- *.
  destruct (resolve_needed h2 root dirs name) as [p|]; [|done]. specialize (Hin p eq_refl).
  assert (Hsnoc : forall l, Forall inside l -> Forall inside (l ++ [p])) by (intros l Hl; apply Forall_app; split; [done | by apply Forall_singleton]).
  split; [done|]. split; [|by destruct (family_of_base name)]. split; cbn [fst snd].
  - destruct (family_of_base name); cbn [ws_found]; auto.
  - destruct deeper; auto.
Qed.
Lemma visit_all_same dirs deeper names : dirs_ok dirs -> forall st, st_ok st ->
  foldl (visit_needed h1 root dirs deeper) st names = foldl (visit_needed h2 root dirs deeper) st names /\
  st_ok (foldl (visit_needed h1 root dirs deeper) st names) /\ ws_budget (foldl (visit_needed h1 root dirs deeper) st names).1 = ws_budget st.1.
Proof.
  intros Hd. induction names as [|name names IH]; intros st Hst; [done|]. cbn [foldl].
  destruct (visit_needed_same dirs deeper st name Hd Hst) as (E & Hok & Hb). rewrite <-E.
  destruct (IH _ Hok) as (E' & Hok' & Hb'). split_and!; [done | done | congruence].
Qed.

(** What one part of the walk promises. *)
Definition walk_post (m1 m2 : scan (walk_state * list string)) (st : walk_state * list string) (c : cache) : Prop :=
  m1 c = m2 c /\ forall st' c', m1 c = Ok (st', c') ->
    st_ok st' /\ opened root c c' (ws_budget st.1 - ws_budget st'.1) /\ (0 <= ws_budget st.1 -> 0 <= ws_budget st'.1).

Lemma visit_file_same sys_dirs deeper st path c : dirs_ok sys_dirs -> inside path -> st_ok st ->
  walk_post (visit_file h1 root sys_dirs deeper st path) (visit_file h2 root sys_dirs deeper st path) st c.
Proof.
  intros Hsys Hpath Hst. destruct st as [w queue]. unfold walk_post, visit_file.
  destruct (Z.leb_spec (ws_budget w) 0) as [Hle|Hgt].
  { split; [done|]. intros st' c' [= <- <-]. split; [done|]. split; [|done]. rewrite Z.sub_diag. apply opened_refl. }
  cbv zeta. unfold dynamic_through. rewrite (sb_open _ _ _ Hsame path Hpath). cbv zeta.
  assert (Hdirs : forall d, dirs_ok ((run_dir (dirname path) <$> dy_runpath d) ++ sys_dirs)).
  { intros d. apply Forall_app. split; [|done]. apply Forall_fmap, Forall_forall. intros x _. unfold compose, run_dir. apply inside_normpath. }
  assert (Hgo : forall (d : option dynamic) w' c1, ws_found w' = ws_found w -> 0 <= ws_budget w' -> opened root c c1 (ws_budget w - ws_budget w') ->
    (match d with None => Ok ((w', queue), c1) | Some d => Ok (foldl (visit_needed h1 root ((run_dir (dirname path) <$> dy_runpath d) ++ sys_dirs) deeper) (w', queue) (dy_needed d), c1) end =
     match d with None => Ok ((w', queue), c1) | Some d => Ok (foldl (visit_needed h2 root ((run_dir (dirname path) <$> dy_runpath d) ++ sys_dirs) deeper) (w', queue) (dy_needed d), c1) end) /\
    forall st' c', match d with None => Ok ((w', queue), c1) | Some d => Ok (foldl (visit_needed h1 root ((run_dir (dirname path) <$> dy_runpath d) ++ sys_dirs) deeper) (w', queue) (dy_needed d), c1) end = Ok (st', c') ->
      st_ok st' /\ opened root c c' (ws_budget w - ws_budget st'.1) /\ 0 <= ws_budget st'.1).
  { intros d w' c1 Hf Hb Ho. assert (Hst' : st_ok (w', queue)) by (unfold st_ok in *; cbn [fst snd] in *; by rewrite Hf).
    destruct d as [d|]; [|by split; [|intros st' c' [= <- <-]]].
    destruct (visit_all_same _ deeper (dy_needed d) (Hdirs d) (w', queue) Hst') as (E & Hok & Hbud). rewrite <-E. split; [done|].
    intros st' c' [= <- <-]. cbn [fst] in Hbud. by rewrite Hbud. }
  destruct (dget (dynamic_key root path) (c_dynamic c)) as [d|] eqn:Ek; cbn [mbind res_bind].
  - destruct (Hgo d w c eq_refl ltac:(lia) ltac:(rewrite Z.sub_diag; apply opened_refl)) as [E H]. split; [exact E|].
    intros st' c' Hr. apply H in Hr as (? & ? & ?). done.
  - destruct (catch read_error _ _) as [d|e]; cbn [mbind res_bind]; [|done].
    assert (Ho : opened root c (set_dynamic c (dset (dynamic_key root path) d (c_dynamic c))) (ws_budget w - (ws_budget w - 1))).
    { exists [path]. split; [|split; [by apply Forall_singleton | simpl; lia]]. cbn [set_dynamic c_dynamic]. rewrite dset_keys.
      unfold dmem. by rewrite Ek. }
    destruct (Hgo d (WalkState (ws_found w) (ws_seen w) (ws_budget w - 1)) _ eq_refl ltac:(cbn; lia) Ho) as [E H]. split; [exact E|].
    intros st' c' Hr. apply H in Hr as (? & ? & ?). done.
Qed.

Lemma visit_files_same sys_dirs deeper paths : dirs_ok sys_dirs -> Forall inside paths -> forall st c, st_ok st ->
  walk_post (foldS (visit_file h1 root sys_dirs deeper) st paths) (foldS (visit_file h2 root sys_dirs deeper) st paths) st c.
Proof.
  intros Hsys. induction 1 as [|p paths Hp Hpaths IH]; intros st c Hst.
  - split; [done|]. intros st' c' [= <- <-]. split; [done|]. split; [|done]. rewrite Z.sub_diag. apply opened_refl.
  - unfold walk_post. rewrite !foldS_cons.
    destruct (visit_file_same sys_dirs deeper st p c Hsys Hp Hst) as [E H]. rewrite <-E.
    destruct (visit_file h1 root sys_dirs deeper st p c) as [[st1 c1]|e]; [|done].
    destruct (H st1 c1 eq_refl) as (Hst1 & Ho1 & Hb1). destruct (IH st1 c1 Hst1) as [E' H']. split; [exact E'|].
    intros st' c' Hr. destruct (H' st' c' Hr) as (Hst' & Ho' & Hb'). split; [done|]. split; [|auto].
    replace (ws_budget st.1 - ws_budget st'.1) with ((ws_budget st.1 - ws_budget st1.1) + (ws_budget st1.1 - ws_budget st'.1)) by lia.
    by eapply opened_trans.
Qed.

Lemma walk_levels_same sys_dirs levels : dirs_ok sys_dirs -> forall w queue c, st_ok (w, queue) ->
  walk_levels h1 root sys_dirs levels w queue c = walk_levels h2 root sys_dirs levels w queue c /\
  forall w' c', walk_levels h1 root sys_dirs levels w queue c = Ok (w', c') ->
    Forall inside (ws_found w') /\ opened root c c' (ws_budget w - ws_budget w') /\ (0 <= ws_budget w -> 0 <= ws_budget w').
Proof.
  intros Hsys. induction levels as [|levels IH]; intros w queue c [Hf Hq]; rewrite !walk_levels_eq.
  - destruct (visit_files_same sys_dirs false queue Hsys Hq (w, []) c (conj Hf (Forall_nil_2 _))) as [E H]. rewrite <-E.
    destruct (foldS _ _ _ c) as [[[w1 q1] c1]|e]; [|done]. split; [done|].
    intros w' c' [= <- <-]. destruct (H (w1, q1) c1 eq_refl) as ([? _] & ? & ?). done.
  - destruct (visit_files_same sys_dirs true queue Hsys Hq (w, []) c (conj Hf (Forall_nil_2 _))) as [E H]. rewrite <-E.
    destruct (foldS _ _ _ c) as [[[w1 q1] c1]|e]; [|done].
    destruct (H (w1, q1) c1 eq_refl) as (Hst1 & Ho1 & Hb1). destruct (IH w1 q1 c1 Hst1) as [E' H']. split; [exact E'|].
    intros w' c' Hr. destruct (H' w' c' Hr) as (Hw' & Ho' & Hb'). cbn [fst] in *. split; [done|]. split; [|auto].
    replace (ws_budget w - ws_budget w') with ((ws_budget w - ws_budget w1) + (ws_budget w1 - ws_budget w')) by lia. by eapply opened_trans.
Qed.
End Walk.

(** C20: the walk over the DT_NEEDED entries of a worker's executable stays
    below the daemon's root, whatever names and run paths the files hold: two
    hosts that have the same files below the root give the same libraries,
    errors included; every library found and every file opened is an absolute
    path of that root without [..]; and each file opened costs one of the
    budget, which never goes below zero. *)
Theorem worker_walk_confined h1 h2 root binary sys_dirs budget c
    (Hsame : same_below h1 h2 root) (Hbinary : inside binary) (Hdirs : Forall inside sys_dirs) (Hbudget : 0 <= budget) :
  linked_crypto_libraries h1 root binary sys_dirs budget c = linked_crypto_libraries h2 root binary sys_dirs budget c /\
  forall libs left c', linked_crypto_libraries h1 root binary sys_dirs budget c = Ok (libs, left, c') ->
    Forall inside libs /\ 0 <= left /\
    exists files, (c_dynamic c').*1 = (c_dynamic c).*1 ++ (dynamic_key root <$> files) /\ Forall inside files /\
      Z.of_nat (length files) = budget - left.
Proof.
  assert (Hd : dirs_ok sys_dirs) by (eapply Forall_impl; [exact Hdirs|]; auto).
  destruct (walk_levels_same h1 h2 root Hsame sys_dirs WORKER_NEEDED_DEPTH Hd (WalkState [] [] budget) [binary] c) as [E H].
  { split; [apply Forall_nil_2 | by apply Forall_singleton]. }
  unfold linked_crypto_libraries, mbind, scan_bind. rewrite <-E.
  destruct (walk_levels h1 root sys_dirs WORKER_NEEDED_DEPTH _ _ c) as [[w c1]|e]; cbn [mbind res_bind]; [|done]. split; [done|].
  intros libs left c' [= <- <- <-]. destruct (H w c1 eq_refl) as (Hf & (ps & Hk & Hin & Hl) & Hb). cbn [ws_budget] in *.
  split_and!; [done | auto | by exists ps].
Qed.

(** ** Descendants *)

Lemma generations_more fuel pp : forall frontier out, (WORKER_MAX_DESCENDANTS < fuel + length out)%nat ->
  generations (S fuel) pp frontier out = generations fuel pp frontier out.
Proof.
  induction fuel as [|fuel IH]; intros frontier out Hf.
  - cbn [generations]. destruct frontier as [|p frontier]; [done|]. by rewrite (proj2 (Nat.ltb_ge _ _)) by lia.
  - change (generations (S (S fuel)) pp frontier out) with
      (match frontier with [] => out | _ :: _ => if Nat.ltb (length out) WORKER_MAX_DESCENDANTS
         then generations (S fuel) pp (frontier ≫= children pp) (out ++ (frontier ≫= children pp)) else out end).
    change (generations (S fuel) pp frontier out) with
      (match frontier with [] => out | _ :: _ => if Nat.ltb (length out) WORKER_MAX_DESCENDANTS
         then generations fuel pp (frontier ≫= children pp) (out ++ (frontier ≫= children pp)) else out end).
    destruct frontier as [|p frontier]; [done|]. destruct (Nat.ltb _ _); [|done].
    destruct ((p :: frontier) ≫= children pp) as [|q nxt]; [by destruct fuel|]. apply IH. rewrite length_app. simpl. lia.
Qed.
(** The loop ends by itself: more rounds than the 65 allowed change nothing,
    even when the parents form a cycle. *)
Lemma generations_enough k pp owner :
  generations (k + S WORKER_MAX_DESCENDANTS) pp [owner] [] = generations (S WORKER_MAX_DESCENDANTS) pp [owner] [].
Proof. induction k as [|k IH]; [done|]. cbn [Nat.add]. rewrite generations_more; [exact IH | simpl; lia]. Qed.

(** [p] is a child of [q], as the parents were read. *)
Definition child_of (pp : list (Z * Z)) (p q : Z) : Prop := (p, q) ∈ pp.
Lemma elem_of_children pp p q : p ∈ children pp q <-> child_of pp p q.
Proof.
  unfold children, child_of. rewrite elem_of_py_sorted, list_elem_of_fmap. split.
  - intros ([a b] & -> & Hin). apply list_elem_of_In, filter_In in Hin as [Hin Hb]. apply Z.eqb_eq in Hb. cbn in *. subst. by apply list_elem_of_In.
  - intros Hin. exists (p, q). split; [done|]. apply list_elem_of_In, filter_In. split; [by apply list_elem_of_In | by apply Z.eqb_eq].
Qed.
Lemma generations_sound fuel pp owner : forall frontier out,
  Forall (fun p => p = owner \/ tc (child_of pp) p owner) frontier -> Forall (fun p => tc (child_of pp) p owner) out ->
  Forall (fun p => tc (child_of pp) p owner) (generations fuel pp frontier out).
Proof.
  induction fuel as [|fuel IH]; intros frontier out Hf Ho; [by destruct frontier|]. cbn [generations].
  destruct frontier as [|p0 frontier]; [done|]. destruct (Nat.ltb _ _); [|done].
  assert (Hn : Forall (fun p => tc (child_of pp) p owner) ((p0 :: frontier) ≫= children pp)).
  { apply Forall_forall. intros p Hp. apply list_elem_of_bind in Hp as (q & Hc%elem_of_children & Hq).
    rewrite Forall_forall in Hf. destruct (Hf q Hq) as [->|Ht]; [by apply tc_once | by eapply tc_l]. }
  apply IH; [|by apply Forall_app]. eapply Forall_impl; [exact Hn|]. by right.
Qed.

(** ** Witnesses *)

(** A 64-bit little-endian executable with one DT_NEEDED entry. *)
Definition w64 : Z -> bytes := enc_word false 8.
Definition w32 : Z -> bytes := enc_word false 4.
Definition zeros (n : nat) : bytes := replicate n Byte.x00.
Definition sample_elf : bytes :=
  ELF_MAGIC ++ [of_bval 2; of_bval 1] ++ zeros 26 ++ w64 64 ++ zeros 14 ++ enc_word false 2 56 ++ enc_word false 2 2 ++ zeros 6 ++
  w32 1 ++ zeros 4 ++ w64 0 ++ w64 0 ++ zeros 8 ++ w64 1000 ++ zeros 16 ++
  w32 2 ++ zeros 4 ++ w64 176 ++ w64 176 ++ zeros 8 ++ w64 64 ++ zeros 16 ++
  w64 1 ++ w64 1 ++ w64 5 ++ w64 240 ++ w64 10 ++ w64 20 ++ w64 0 ++ w64 0 ++
  [of_bval 0] ++ text_of "libssl.so.3" ++ [of_bval 0].
Example sample_elf_dynamic : elf_dynamic (OpenFile sample_elf (2 ^ 62)) = Ok (Some (Dynamic ["libssl.so.3"] [])).
Proof. vm_compute. reflexivity. Qed.

Definition postfix_root : string := "/proc/5/root".
Definition no_file {A} : res A := Raise (OSError "No such file or directory").
(** A host with an smtpd below the root of process 5, and [extra] outside. *)
Definition postfix_host (extra : string) : proc_host :=
  ProcHost (HostFs (fun _ => None) (fun _ => None) (fun _ => false) (fun _ => [])) (Prefixes EmptyString EmptyString)
    (fun _ => no_file) (fun _ => no_file) (fun _ => no_file) (fun _ => no_file) (fun _ => no_file)
    (fun p => if String.eqb p "/proc/5/root/usr/lib/postfix/smtpd" || String.eqb p extra then Ok (OpenFile sample_elf (2 ^ 62)) else no_file)
    (fun p => String.eqb p "/proc/5/root/usr/lib64/libssl.so.3" || String.eqb p extra) false (fun _ => false) true 99 None.

Lemma py_path_abs s : starts_with "/" s = true -> starts_with "/" (py_path s) = true.
Proof.
  intros Hs. unfold py_path. rewrite Hs. generalize (str_join "/" (List.filter (fun c => nonempty c && negb (String.eqb c ".")) (split "/" s))). intros t.
  apply starts_slash. destruct (starts_with "//" s && negb (starts_with "///" s)); by eexists.
Qed.
Lemma below_root_abs p : starts_with "/" (below postfix_root p) = true.
Proof. apply py_path_abs, starts_slash. by eexists. Qed.
Lemma relative_not_below p x : starts_with "/" x = false -> String.eqb (below postfix_root p) x = false.
Proof. intros Hx. apply String.eqb_neq. intros E. by rewrite <-E, below_root_abs in Hx. Qed.
Lemma lib_file_not_relative d name x : starts_with "/" x = false -> String.eqb (lib_file postfix_root d name) x = false.
Proof.
  intros Hx. apply String.eqb_neq. intros E. rewrite <-E in Hx. unfold lib_file, below at 1 in Hx. rewrite py_path_abs in Hx; [done|].
  pose proof (below_root_abs d) as H. apply starts_slash in H as [t ->]. by apply starts_slash; eexists.
Qed.
Definition inside_b (p : string) : bool := starts_with "/" p && negb (bool_decide (".." ∈ components p)).
Lemma inside_b_spec p : inside_b p = true -> inside p.
Proof. unfold inside_b, inside. rewrite andb_true_iff, negb_true_iff, bool_decide_eq_false. done. Qed.
Lemma default_dirs_inside : Forall inside DEFAULT_LIB_DIRS.
Proof.
  assert (H : forallb inside_b DEFAULT_LIB_DIRS = true) by (vm_compute; reflexivity).
  apply Forall_forall. intros d Hd. apply inside_b_spec. rewrite forallb_forall in H. by apply H, list_elem_of_In.
Qed.

(** Two hosts that differ outside the root: the first also has the executable
    and the library at another path. *)
Lemma worker_walk_confined_witness :
  linked_crypto_libraries (postfix_host "relative") postfix_root "/usr/lib/postfix/smtpd" DEFAULT_LIB_DIRS 256 new_cache =
    linked_crypto_libraries (postfix_host EmptyString) postfix_root "/usr/lib/postfix/smtpd" DEFAULT_LIB_DIRS 256 new_cache /\
  (r ← linked_crypto_libraries (postfix_host EmptyString) postfix_root "/usr/lib/postfix/smtpd" DEFAULT_LIB_DIRS 256 new_cache; Ok r.1)
    = Ok (["/usr/lib64/libssl.so.3"], 254).
Proof.
  split; [|vm_compute; reflexivity].
  apply (worker_walk_confined (postfix_host "relative") (postfix_host EmptyString)).
  - constructor.
    + intros p _. cbn [pc_open postfix_host]. by rewrite (relative_not_below p "relative"), (relative_not_below p EmptyString).
    + intros d name _ Hn. cbn [pc_is_file postfix_host]. by rewrite (lib_file_not_relative d name "relative"), (lib_file_not_relative d name EmptyString).
  - by apply inside_b_spec.
  - exact default_dirs_inside.
  - lia.
Defined.
