(* ===== verification/SvcLinkage.v ===== *)
(** * The scan of listening sockets ([scan_services]) *)

From stdpp Require Import sets.
From S2P Require Import Prelude PyStr PyDict PyVal PyPath HostPath Packages ProcNet Elf Linkage Worker.
Open Scope Z_scope.
Definition SERVICES_MAX_PIDS_DEFAULT : Z := 4096.

(** What a listener's libraries were taken from, when not from its owner. *)
Inductive origin :=
| FromProcess (source : string) (pid : Z) (process exe : option string)
| FromBinary (binary : string).

Section Host.
Context (h : proc_host).

(** ** Master and worker *)

Abbreviation known := (list (Z * details)).
(** [details[pid]], computed once. *)
Definition details_of (pid : Z) (ds : known) : scan (details * known) :=
  match dget pid ds with
  | Some d => mret (d, ds)
  | None => d ← process_details h pid None; mret (d, dset pid d ds)
  end.
Definition from_process (holders : list Z) (pid : Z) (d : details) : list library * origin :=
  (dt_libs d, FromProcess (if bool_decide (pid ∈ holders) then "socket-holder" else "descendant") pid (dt_process d) (dt_exe d)).
(** The first candidate with a TLS library, else the first with libcrypto
    only. *)
Fixpoint try_candidates (holders : list Z) (crypto_only : option (list library * origin)) (ds : known) (cands : list Z) :
    scan (option (list library * origin) * option (list library * origin) * known) :=
  match cands with
  | [] => mret (None, crypto_only, ds)
  | pid :: cands =>
      '(d, ds) ← details_of pid ds;
      let paths := lb_path <$> dt_libs d in
      match paths with
      | [] => try_candidates holders crypto_only ds cands
      | _ :: _ =>
          if has_tls_library paths then mret (Some (from_process holders pid d), crypto_only, ds)
          else try_candidates holders (match crypto_only with None => Some (from_process holders pid d) | c => c end) ds cands
      end
  end.
Definition add_worker_dir (dirs : list string) (pid : Z) : res (list string) :=
  e ← exe h pid;
  let d := match e with Some e => if nonempty e then dirname e else EmptyString | None => EmptyString end in
  Ok (if nonempty d && negb (bool_decide (d ∈ SHARED_BIN_DIRS)) && negb (bool_decide (d ∈ dirs)) then dirs ++ [d] else dirs).
Definition worker_candidates (owner : Z) (holders descendants : list Z) : list Z :=
  let first := List.filter (fun p => negb (bool_decide (p ∈ [owner; 1]))) holders in
  first ++ List.filter (fun p => negb (bool_decide (p ∈ first))) descendants.
Definition worker_crypto (owner : Z) (holders pids : list Z) (ds : known) : scan (option (list library * origin) * known) :=
  desc ← descendants h owner pids;
  '(chosen, crypto_only, ds) ← try_candidates holders None ds (worker_candidates owner holders desc);
  match chosen with
  | Some x => mret (Some x, ds)
  | None =>
      dirs ← lift (foldM add_worker_dir [] desc);
      found ← (match dirs with [] => mret None | _ => worker_binary_libraries h owner dirs end);
      mret (match found with
            | Some (l :: libs, binary) => Some (l :: libs, FromBinary binary)
            | _ => crypto_only
            end, ds)
  end.

(** ** Sockets and their owners *)

Record tables := Tables {
  tb_sockets : list (Z * (sock * string)); tb_owners : list (Z * list Z); tb_seen : list (option string);
  tb_unreadable : Z; tb_scanned : Z; tb_truncated : bool }.
Definition namespace_name (host_ns ns : option string) : string :=
  match ns with Some n => if bool_decide (host_ns = Some n) then "host" else "other" | None => "other" end.
Definition add_socket (name : string) (d : list (Z * (sock * string))) (s : sock) : list (Z * (sock * string)) :=
  dsetdefault (sk_inode s) (s, name) d.
Definition add_owner (pid : Z) (d : list (Z * list Z)) (inode : Z) : list (Z * list Z) :=
  dset inode (default [] (dget inode d) ++ [pid]) d.
Definition scan_pid (host_ns : option string) (t : tables) (pid : Z) : res tables :=
  ns ← netns h pid;
  '(sockets, seen) ← (if bool_decide (ns ∈ tb_seen t) then Ok (tb_sockets t, tb_seen t)
                      else ss ← listening_sockets h pid; Ok (foldl (add_socket (namespace_name host_ns ns)) (tb_sockets t) ss, ns :: tb_seen t));
  inodes ← socket_inodes h pid;
  Ok (match inodes with
      | None => Tables sockets (tb_owners t) seen (tb_unreadable t + 1) (tb_scanned t + 1) (tb_truncated t)
      | Some is_ => Tables sockets (foldl (add_owner pid) (tb_owners t) is_) seen (tb_unreadable t) (tb_scanned t + 1) (tb_truncated t)
      end).
Fixpoint scan_pids (host_ns : option string) (t : tables) (pids : list Z) : res tables :=
  match pids with
  | [] => Ok t
  | pid :: pids =>
      if pc_late h pid then Ok (Tables (tb_sockets t) (tb_owners t) (tb_seen t) (tb_unreadable t) (tb_scanned t) true)
      else t ← scan_pid host_ns t pid; scan_pids host_ns t pids
  end.

(** ** Listeners *)

Record listener := Listener {
  ln_sock : sock; ln_scope : string; ln_namespace : string; ln_pid : option Z; ln_pids : list Z;
  ln_details : details; ln_from : option origin }.
Definition NO_PROCESS : details := Details None None None None None [] None None.
Definition with_libs (d : details) (libs : list library) : details :=
  Details (dt_process d) (dt_exe d) (dt_unit d) (dt_cgroup d) (dt_container d) libs (dt_static d) (dt_go d).
(** The details of the owner, with the libraries of a worker when it has
    neither a crypto library nor a Go runtime itself. *)
Definition owner_details (owner : Z) (holders pids : list Z) (ds : known) : scan (details * option origin * known) :=
  '(d, ds) ← details_of owner ds;
  match dt_libs d, dt_go d with
  | [], None =>
      '(w, ds) ← worker_crypto owner holders pids ds;
      mret (match w with Some (libs, from) => (with_libs d libs, Some from) | None => (d, None) end, ds)
  | _, _ => mret (d, None, ds)
  end.
Definition listener_of (owners : list (Z * list Z)) (pids : list Z) (st : list listener * known) (s : Z * (sock * string)) : scan (list listener * known) :=
  let '(out, ds) := st in
  let '(inode, (sk, ns)) := s in
  let holders := py_sorted Z.ltb (remove_dups (default [] (dget inode owners))) in
  scope ← lift (bind_scope (sk_address sk));
  '(d, from, ds) ← (match service_pid holders with
                    | Some owner => owner_details owner holders pids ds
                    | None => mret (NO_PROCESS, None, ds)
                    end);
  mret (out ++ [Listener sk scope ns (service_pid holders) holders d from], ds).

(** The sort key: protocol, port, family, address. *)
Definition listener_lt (a b : listener) : bool :=
  let x := ln_sock a in let y := ln_sock b in
  str_lt (sk_protocol x) (sk_protocol y) || (String.eqb (sk_protocol x) (sk_protocol y) &&
    ((sk_port x <? sk_port y) || ((sk_port x =? sk_port y) &&
      (str_lt (sk_family x) (sk_family y) || (String.eqb (sk_family x) (sk_family y) && str_lt (sk_address x) (sk_address y)))))).

(** [{lib["family"] ...}], with "go" for a Go runtime. *)
Definition families (d : details) : list string :=
  remove_dups ((lb_family <$> dt_libs d) ++ match dt_go d with Some _ => ["go"] | None => [] end).
Definition count_family (n : Z) (d : list (string * Z)) (f : string) : list (string * Z) := dset f (default 0 (dget f d) + n) d.
Definition or_none_family (fams : list string) : list string := match fams with [] => ["none"] | _ => fams end.
Definition by_family (ls : list listener) : list (string * Z) :=
  foldl (fun d l => foldl (count_family 1) d (or_none_family (families (ln_details l)))) [] ls.
Definition sorted_items {A} (d : list (string * A)) : list (string * A) := omap (fun k => (fun v => (k, v)) <$> dget k d) (py_sorted str_lt d.*1).
Definition has_deleted (d : details) : bool := existsb lb_deleted (dt_libs d).
Definition count {A} (p : A -> bool) (l : list A) : Z := Z.of_nat (length (List.filter p l)).

Record summary := Summary { sm_listeners : Z; sm_unattributed : Z; sm_families : list (string * Z); sm_deleted : Z }.
Record services_report := ServicesReport {
  sr_listeners : list listener; sr_summary : summary; sr_scanned : Z; sr_unreadable : Z; sr_truncated : bool }.
Definition no_owner (l : listener) : bool := match ln_pid l with None => true | Some _ => false end.
Definition summary_of (ls : list listener) : summary :=
  Summary (Z.of_nat (length ls)) (count no_owner ls) (sorted_items (by_family ls)) (count (fun l => has_deleted (ln_details l)) ls).

(** [inl] is the reason why the scan is not available. *)
Definition scan_services (max_pids : Z) : res (string + services_report) :=
  if negb (pc_linux h) then Ok (inl "listening-service scan needs Linux /proc")
  else
    pids ← pids_of h;
    match pids with
    | [] => Ok (inl "cannot list /proc")
    | _ =>
        host_ns ← netns h 1;
        let kept := take (Z.to_nat max_pids) pids in
        t ← scan_pids host_ns (Tables [] [] [] 0 0 (max_pids <? Z.of_nat (length pids))) kept;
        '(ls, _, _) ← foldS (listener_of (tb_owners t) kept) ([], []) (tb_sockets t) new_cache;
        let ls := py_sorted listener_lt ls in
        Ok (inr (ServicesReport ls (summary_of ls) (tb_scanned t) (tb_unreadable t) (tb_truncated t)))
    end.

(** ** The report *)

Definition opt_val {A} (f : A -> value) (o : option A) : value := match o with Some a => f a | None => VNone end.
Definition library_entry (l : library) : value := VDict [
  ("family", VStr (lb_family l)); ("path", VStr (lb_path l)); ("version", of_ostr (lb_version l)); ("version_source", of_ostr (lb_source l));
  ("deleted", VBool (lb_deleted l)); ("library_pqc_capable", of_obool (lb_capable l)); ("pqc_evidence", of_ostr (lb_evidence l))].
Definition container_value (c : container_id) : value := VDict [
  ("runtime", of_ostr (ct_runtime c)); ("id", VStr (ct_id c)); ("pod_uid", of_ostr (ct_pod_uid c));
  ("pod_name", opt_val (fun n => VStr n.1.1) (ct_names c)); ("pod_namespace", opt_val (fun n => VStr n.1.2) (ct_names c));
  ("container_name", opt_val (fun n => VStr n.2) (ct_names c))].
Definition go_value (g : go_report) : value := VDict [
  ("go_version", of_ostr (gr_version g)); ("main_module", of_ostr (gr_module g)); ("cgo_enabled", of_ostr (gr_cgo g));
  ("default_hybrid_kex", of_ostr (gr_kex g)); ("godebug_reverts", VStrs (gr_reverts g))].
Definition details_fields (d : details) : list (string * value) := [
  ("process", of_ostr (dt_process d)); ("exe", of_ostr (dt_exe d)); ("systemd_unit", of_ostr (dt_unit d)); ("cgroup", of_ostr (dt_cgroup d));
  ("container", opt_val container_value (dt_container d)); ("crypto_libraries", VList (library_entry <$> dt_libs d));
  ("static_binary", of_obool (dt_static d)); ("go", opt_val go_value (dt_go d))].
Definition origin_value (o : origin) : value :=
  match o with
  | FromProcess source pid process exe =>
      VDict [("source", VStr source); ("pid", VInt pid); ("process", of_ostr process); ("exe", of_ostr exe)]
  | FromBinary binary => VDict [("source", VStr "worker-binary"); ("binary", VStr binary)]
  end.
Definition listener_value (l : listener) : value := VDict ([
  ("protocol", VStr (sk_protocol (ln_sock l))); ("family", VStr (sk_family (ln_sock l))); ("address", VStr (sk_address (ln_sock l)));
  ("port", VInt (sk_port (ln_sock l))); ("bind_scope", VStr (ln_scope l)); ("network_namespace", VStr (ln_namespace l));
  ("pid", opt_val VInt (ln_pid l)); ("pids", VList (VInt <$> ln_pids l))] ++ details_fields (ln_details l) ++
  match ln_from l with Some o => [("crypto_libraries_from", origin_value o)] | None => [] end).
Definition unreadable_note (n : Z) : list (string * value) :=
  if n =? 0 then [] else [("note", VStr (show_Z n +:+
    " process(es) could not be inspected; run as root (or with CAP_SYS_PTRACE and CAP_DAC_READ_SEARCH) for complete attribution"))].
Definition scan_unavailable (reason : string) : list (string * value) := [("available", VBool false); ("reason", VStr reason)].
Definition services_value (limits : list (string * value)) (r : string + services_report) : list (string * value) :=
  match r with
  | inl reason => scan_unavailable reason
  | inr r =>
      let s := sr_summary r in
      dupdate ([("available", VBool true); ("listeners", VList (listener_value <$> sr_listeners r));
        ("summary", VDict [("listeners", VInt (sm_listeners s)); ("unattributed_listeners", VInt (sm_unattributed s));
          ("listeners_by_crypto_family", VDict (prod_map id VInt <$> sm_families s)); ("listeners_with_deleted_crypto_library", VInt (sm_deleted s))]);
        ("scanned_pids", VInt (sr_scanned r)); ("unreadable_pids", VInt (sr_unreadable r)); ("truncated", VBool (sr_truncated r));
        ("limits", VDict limits)] ++ unreadable_note (sr_unreadable r)) (default [] (pc_note h))
  end.
End Host.

(** ** Labels *)

Definition container_label (c : container_id) (name : string) : string :=
  match ct_names c with
  | Some (pod, ns, _) => if nonempty pod then name +:+ " (pod " +:+ ns +:+ "/" +:+ pod +:+ ")"
                         else name +:+ " (container " +:+ str_of (take 12 (chars (ct_id c))) +:+ ")"
  | None => name +:+ " (container " +:+ str_of (take 12 (chars (ct_id c))) +:+ ")"
  end.
Definition containers_label (name : string) (containers : list container_id) (omitted : Z) : string :=
  let total := Z.of_nat (length containers) + omitted in
  match containers with
  | c :: _ =>
      if total =? 1 then container_label c (match ct_names c with Some (_, _, n) => if nonempty n then n else name | None => name end)
      else if 1 <? total then name +:+ " (" +:+ show_Z total +:+ " containers)" else name
  | [] => if 1 <? total then name +:+ " (" +:+ show_Z total +:+ " containers)" else name
  end.

(** * Listening sockets: theorems

    The attribution of sockets to processes: who owns a listener, what its
    identity was read from, and when its libraries are a worker's. *)
Lemma scan_bind_ok {A B} (f : A -> scan B) (m : scan A) c b c' :
  (m ≫= f) c = Ok (b, c') -> exists a c1, m c = Ok (a, c1) /\ f a c1 = Ok (b, c').
Proof. unfold mbind, scan_bind. destruct (m c) as [[a c1]|]; [|done]. cbn [mbind res_bind]. eauto. Qed.

Section Scan.
Context (h : proc_host).

(** ** The table of owners *)

(** [pid] has a descriptor of the socket [inode]. *)
Definition holds_inode (inode : Z) (pid : Z) : bool :=
  match socket_inodes h pid with Ok (Some l) => bool_decide (inode ∈ l) | _ => false end.

Definition fds_refused (pid : Z) : bool := match socket_inodes h pid with Ok None => true | _ => false end.

Lemma add_owners_get pid inode l : NoDup l -> forall d,
  default [] (dget inode (foldl (add_owner pid) d l)) = default [] (dget inode d) ++ (if bool_decide (inode ∈ l) then [pid] else []).
Proof.
  induction l as [|i l IH]; intros Hl d; [by rewrite app_nil_r|]. apply NoDup_cons in Hl as [Hi Hl]. cbn [foldl]. rewrite IH by done.
  unfold add_owner at 1. rewrite dget_dset. destruct (decide (inode = i)) as [->|Hne].
  - rewrite decide_True by done. cbn [default from_option].
    rewrite (bool_decide_false (i ∈ l)), (bool_decide_true (i ∈ i :: l)) by set_solver. by rewrite app_nil_r.
  - rewrite decide_False by congruence. f_equal. by destruct (decide (inode ∈ l)); [rewrite !bool_decide_true by set_solver | rewrite !bool_decide_false by set_solver].
Qed.

Lemma socket_inodes_nodup pid l : socket_inodes h pid = Ok (Some l) -> NoDup l.
Proof.
  unfold socket_inodes. destruct (catch _ _ _) as [[fds|]|]; cbn [mbind res_bind]; [|done|done].
  destruct (mapM _ fds) as [ls|]; cbn [mbind res_bind]; [|done]. intros [= <-]. apply NoDup_remove_dups.
Qed.

(** ** The table of sockets *)

(** A socket that the network table of a process of [visited] lists. *)
Definition listed (host_ns : option string) (visited : list Z) (e : Z * (sock * string)) : Prop :=
  sk_inode e.2.1 = e.1 /\ exists pid ns ss, pid ∈ visited /\ netns h pid = Ok ns /\ listening_sockets h pid = Ok ss /\
    e.2.1 ∈ ss /\ e.2.2 = namespace_name host_ns ns.
Lemma listed_mono host_ns v v' e : v ⊆ v' -> listed host_ns v e -> listed host_ns v' e.
Proof. intros Hv (He & pid & ns & ss & Hp & H). split; [done|]. exists pid, ns, ss. split; [set_solver | exact H]. Qed.

Lemma add_sockets_in name ss : forall d e, e ∈ foldl (add_socket name) d ss -> e ∈ d \/ (exists s, s ∈ ss /\ e = (sk_inode s, (s, name))).
Proof.
  induction ss as [|s ss IH]; intros d e He; [by left|]. cbn [foldl] in He. apply IH in He as [He|(s' & Hs' & ->)]; [|right; exists s'; split; [by right|done]].
  unfold add_socket, dsetdefault in He. destruct (dmem _ d); [by left|]. apply elem_of_app in He as [He|He%list_elem_of_singleton]; [by left|].
  right. exists s. split; [by left | done].
Qed.
Lemma add_socket_keys name s d i : i ∈ (add_socket name d s).*1 <-> i = sk_inode s \/ i ∈ d.*1.
Proof.
  unfold add_socket. rewrite dsetdefault_keys. destruct (dmem (sk_inode s) d) eqn:E; [|rewrite elem_of_app, list_elem_of_singleton; tauto].
  apply dmem_iff in E. split; [by right | by intros [->|?]].
Qed.
Lemma add_sockets_keys name ss : forall d i, i ∈ (foldl (add_socket name) d ss).*1 <-> i ∈ sk_inode <$> ss \/ i ∈ d.*1.
Proof. induction ss as [|s ss IH]; intros d i; cbn [foldl]; [set_solver|]. rewrite IH, add_socket_keys, fmap_cons, elem_of_cons. tauto. Qed.
Lemma add_sockets_wf name ss : forall d, dwf d -> dwf (foldl (add_socket name) d ss).
Proof. induction ss as [|s ss IH]; intros d Hd; [done|]. by apply IH, dsetdefault_wf. Qed.

(** After the pids [visited]: the owners of an inode are the processes that
    hold it; the sockets are those of the network tables, one for each inode,
    and no namespace is missed. *)
Record tables_ok (host_ns : option string) (visited : list Z) (t : tables) : Prop := {
  to_owners : forall i, default [] (dget i (tb_owners t)) = List.filter (holds_inode i) visited;
  to_sockets : Forall (listed host_ns visited) (tb_sockets t);
  to_keys : dwf (tb_sockets t);
  to_seen : forall ns, ns ∈ tb_seen t -> exists pid ss, pid ∈ visited /\ netns h pid = Ok ns /\ listening_sockets h pid = Ok ss /\
    (forall s, s ∈ ss -> sk_inode s ∈ (tb_sockets t).*1);
  to_visited : forall pid, pid ∈ visited -> exists ns, netns h pid = Ok ns /\ ns ∈ tb_seen t;
  to_scanned : tb_scanned t = Z.of_nat (length visited);
  to_unreadable : tb_unreadable t = count fds_refused visited }.

Lemma scan_pid_ok host_ns visited t pid t' : tables_ok host_ns visited t -> scan_pid h host_ns t pid = Ok t' ->
  tables_ok host_ns (visited ++ [pid]) t' /\ tb_truncated t' = tb_truncated t.
Proof.
  intros [Ho Hs Hk Hseen Hv Hn Hu]. unfold scan_pid. destruct (netns h pid) as [ns|] eqn:Ens; cbn [mbind res_bind]; [|done].
  intros Hr.
  assert (Hsock : exists sockets seen, (if bool_decide (ns ∈ tb_seen t) then Ok (tb_sockets t, tb_seen t) else ss ← listening_sockets h pid;
      Ok (foldl (add_socket (namespace_name host_ns ns)) (tb_sockets t) ss, ns :: tb_seen t)) = Ok (sockets, seen) /\
    Forall (listed host_ns (visited ++ [pid])) sockets /\ dwf sockets /\ ns ∈ seen /\ tb_seen t ⊆ seen /\
    (forall n, n ∈ seen -> exists q ss, q ∈ visited ++ [pid] /\ netns h q = Ok n /\ listening_sockets h q = Ok ss /\ (forall s, s ∈ ss -> sk_inode s ∈ sockets.*1))).
  { destruct (decide (ns ∈ tb_seen t)) as [Hin|Hin].
    - rewrite bool_decide_true by done. exists (tb_sockets t), (tb_seen t). split_and!; try done.
      + eapply Forall_impl; [exact Hs|]. intros e. apply listed_mono. set_solver.
      + intros n Hnn. destruct (Hseen n Hnn) as (q & ss & Hq & H). exists q, ss. split; [set_solver | exact H].
    - rewrite bool_decide_false in Hr |- * by done. destruct (listening_sockets h pid) as [ss|] eqn:Ess; cbn [mbind res_bind] in Hr |- *; [|done].
      eexists _, _. split; [reflexivity|]. split_and!.
      + apply Forall_forall. intros e [He|(s & Hss & ->)]%add_sockets_in.
        * rewrite Forall_forall in Hs. eapply listed_mono; [|by apply Hs]. set_solver.
        * split; [done|]. exists pid, ns, ss. split_and!; [set_solver|done..].
      + by apply add_sockets_wf.
      + by left.
      + set_solver.
      + intros n [->|Hnn]%elem_of_cons.
        * exists pid, ss. split_and!; [set_solver|done|done|]. intros s Hss. apply add_sockets_keys. left. by apply list_elem_of_fmap_2.
        * destruct (Hseen n Hnn) as (q & ss' & Hq & ? & ? & Hkeys). exists q, ss'. split_and!; [set_solver|done|done|].
          intros s Hss. apply add_sockets_keys. right. auto. }
  destruct Hsock as (sockets & seen & E & Hs' & Hk' & Hns & Hsub & Hseen'). rewrite E in Hr. cbn [mbind res_bind] in Hr.
  destruct (socket_inodes h pid) as [inodes|] eqn:Ei; cbn [mbind res_bind] in Hr; [|done].
  assert (Hv' : forall q, q ∈ visited ++ [pid] -> exists n, netns h q = Ok n /\ n ∈ seen).
  { intros q [Hq|Hq%list_elem_of_singleton]%elem_of_app; [destruct (Hv q Hq) as (n & ? & ?); exists n; split; [done | set_solver] | subst q; eauto]. }
  assert (Hfds : fds_refused pid = match inodes with None => true | Some _ => false end) by (unfold fds_refused; by rewrite Ei).
  assert (Hholds : forall i, holds_inode i pid = match inodes with None => false | Some l => bool_decide (i ∈ l) end) by (intros i; unfold holds_inode; by rewrite Ei).
  assert (Hlen : tb_scanned t + 1 = Z.of_nat (length (visited ++ [pid]))) by (rewrite length_app; cbn; lia).
  destruct inodes as [inodes|]; injection Hr as <-; (split; [|done]); constructor; try done.
  - intros i. cbn [tb_owners]. rewrite add_owners_get by (by eapply socket_inodes_nodup). rewrite Ho, List.filter_app. f_equal.
    cbn [List.filter]. by rewrite Hholds.
  - cbn [tb_unreadable]. unfold count in *. rewrite List.filter_app, length_app. cbn [List.filter]. rewrite Hfds. cbn. lia.
  - intros i. cbn [tb_owners]. rewrite Ho, List.filter_app. cbn [List.filter]. by rewrite Hholds, app_nil_r.
  - cbn [tb_unreadable]. unfold count in *. rewrite List.filter_app, length_app. cbn [List.filter]. rewrite Hfds. cbn. lia.
Qed.

Lemma tables_start host_ns trunc : tables_ok host_ns [] (Tables [] [] [] 0 0 trunc).
Proof. constructor; try done; [apply dwf_nil | intros ns H; by apply not_elem_of_nil in H | intros pid H; by apply not_elem_of_nil in H]. Qed.

Lemma scan_pids_ok host_ns pids : forall visited t t', tables_ok host_ns visited t -> scan_pids h host_ns t pids = Ok t' ->
  exists now later, pids = now ++ later /\ tables_ok host_ns (visited ++ now) t' /\ (tb_truncated t' = false -> later = [] /\ tb_truncated t = false).
Proof.
  induction pids as [|pid pids IH]; intros visited t t' Ht.
  - intros [= <-]. exists [], []. rewrite (app_nil_r visited). split; [done|]. split; [exact Ht|]. done.
  - cbn [scan_pids]. destruct (pc_late h pid).
    + intros [= <-]. exists [], (pid :: pids). rewrite app_nil_r. split_and!; [done| |done]. destruct Ht; by constructor.
    + destruct (scan_pid h host_ns t pid) as [t1|] eqn:E; cbn [mbind res_bind]; [|done]. intros Hr.
      destruct (scan_pid_ok _ _ _ _ _ Ht E) as [Ht1 Htr]. destruct (IH _ _ _ Ht1 Hr) as (now & later & -> & Hok & H).
      exists (pid :: now), later. rewrite <-app_assoc in Hok. split_and!; [done|done|]. intros Hf. rewrite <-Htr. auto.
Qed.

(** ** The details of owners *)

(** [d] is what a read of the process [pid] gave. *)
Definition read_as (pid : Z) (d : details) : Prop := exists c c', process_details h pid None c = Ok (d, c').
Definition known_ok (ds : list (Z * details)) : Prop := forall pid d, dget pid ds = Some d -> read_as pid d.

Lemma details_of_ok pid ds c d ds' c' : known_ok ds -> details_of h pid ds c = Ok (d, ds', c') -> read_as pid d /\ known_ok ds'.
Proof.
  intros Hds. unfold details_of. destruct (dget pid ds) as [d0|] eqn:E; [intros [= <- <- <-]; split; [by apply Hds | done]|].
  intros (d0 & c1 & Hd & [= <- <- <-])%scan_bind_ok. assert (Hr : read_as pid d0) by (by eexists _, _). split; [done|].
  intros q d1. rewrite dget_dset. destruct (decide (pid = q)) as [<-|]; [by intros [= <-] | apply Hds].
Qed.
Lemma try_candidates_known holders cands : forall crypto ds c x y ds' c', known_ok ds ->
  try_candidates h holders crypto ds cands c = Ok (x, y, ds', c') -> known_ok ds'.
Proof.
  induction cands as [|pid cands IH]; intros crypto ds c x y ds' c' Hds; [by intros [= _ _ <- _]|]. cbn [try_candidates].
  intros ([d ds1] & c1 & Hd & Hr)%scan_bind_ok. apply details_of_ok in Hd as [_ Hds1]; [|done].
  destruct (lb_path <$> dt_libs d); [by eapply IH|]. destruct (has_tls_library _); [by injection Hr as _ _ <- _ | by eapply IH].
Qed.
Lemma worker_crypto_known owner holders pids ds c w ds' c' : known_ok ds -> worker_crypto h owner holders pids ds c = Ok (w, ds', c') -> known_ok ds'.
Proof.
  intros Hds (desc & c1 & _ & ([[chosen crypto] ds1] & c2 & Hc & Hr)%scan_bind_ok)%scan_bind_ok.
  apply try_candidates_known in Hc; [|done]. destruct chosen; [by injection Hr as _ <- _|].
  apply scan_bind_ok in Hr as (dirs & c3 & _ & (found & c4 & _ & [= _ <- _])%scan_bind_ok). done.
Qed.

(** The identity of a listener with an owner is what was read of the owner;
    its libraries are a worker's only when the owner has neither a crypto
    library nor a Go runtime. *)
Definition identified (l : listener) (owner : Z) : Prop := exists d, read_as owner d /\
  match ln_from l with
  | None => ln_details l = d
  | Some _ => dt_libs d = [] /\ dt_go d = None /\ exists libs, ln_details l = with_libs d libs
  end.

Lemma owner_details_ok owner holders pids ds c d from ds' c' : known_ok ds -> owner_details h owner holders pids ds c = Ok (d, from, ds', c') ->
  known_ok ds' /\ exists d0, read_as owner d0 /\
    match from with None => d = d0 | Some _ => dt_libs d0 = [] /\ dt_go d0 = None /\ exists libs, d = with_libs d0 libs end.
Proof.
  intros Hds ([d0 ds1] & c1 & Hd & Hr)%scan_bind_ok. apply details_of_ok in Hd as [Hread Hds1]; [|done].
  destruct (dt_libs d0) eqn:El; [destruct (dt_go d0) eqn:Eg|].
  - injection Hr as <- <- <- <-. split; [done|]. by exists d0.
  - apply scan_bind_ok in Hr as ([w ds2] & c2 & Hw & Hr). apply worker_crypto_known in Hw; [|done].
    destruct w as [[libs from0]|]; injection Hr as <- <- <- <-; (split; [done|]); exists d0; split; [done| |done|done].
    split_and!; [done|done|by eexists].
  - injection Hr as <- <- <- <-. split; [done|]. by exists d0.
Qed.

(** ** The listeners *)

Definition attributed (owners : list (Z * list Z)) (s : Z * (sock * string)) (l : listener) : Prop :=
  ln_sock l = s.2.1 /\ ln_namespace l = s.2.2 /\ bind_scope (sk_address s.2.1) = Ok (ln_scope l) /\
  ln_pids l = py_sorted Z.ltb (remove_dups (default [] (dget s.1 owners))) /\ ln_pid l = service_pid (ln_pids l) /\
  match ln_pid l with None => ln_details l = NO_PROCESS /\ ln_from l = None | Some owner => identified l owner end.

Lemma listener_of_ok owners pids out ds s c out' ds' c' : known_ok ds -> listener_of h owners pids (out, ds) s c = Ok (out', ds', c') ->
  known_ok ds' /\ exists l, out' = out ++ [l] /\ attributed owners s l.
Proof.
  intros Hds. destruct s as [inode [sk ns]]. unfold listener_of.
  intros (scope & c1 & Hscope & ([[d from] ds1] & c2 & Hd & [= <- <- <-])%scan_bind_ok)%scan_bind_ok.
  assert (Hsc : bind_scope (sk_address sk) = Ok scope) by (unfold lift in Hscope; destruct (bind_scope _); cbn in Hscope; congruence).
  unfold attributed, identified. cbn [fst snd].
  destruct (service_pid _) as [owner|] eqn:Eo in Hd |- *.
  - apply owner_details_ok in Hd as (Hk & d0 & Hr & Hm); [|done]. split; [done|]. eexists. split; [reflexivity|]. cbn [ln_sock ln_namespace ln_scope ln_pids ln_pid ln_details ln_from].
    split_and!; try done. by exists d0.
  - injection Hd as <- <- <- <-. split; [done|]. eexists. split; [reflexivity|]. done.
Qed.
Lemma listeners_ok owners pids ss : forall out ds c out' ds' c', known_ok ds -> foldS (listener_of h owners pids) (out, ds) ss c = Ok (out', ds', c') ->
  exists ls, out' = out ++ ls /\ Forall2 (attributed owners) ss ls.
Proof.
  induction ss as [|s ss IH]; intros out ds c out' ds' c' Hds.
  - intros [= <- <- <-]. exists []. by rewrite app_nil_r.
  - intros ([out1 ds1] & c1 & Hl & Hr)%scan_bind_ok. apply listener_of_ok in Hl as (Hds1 & l & -> & Hat); [|done].
    apply IH in Hr as (ls & -> & Hall); [|done]. exists (l :: ls). rewrite <-app_assoc. split; [done | by constructor].
Qed.
End Scan.

(** The process that serves: the lowest owner but init, which serves only the
    sockets that no other process holds. *)
Definition serves (pids : list Z) (p : Z) : Prop := p ∈ pids /\ (forall q, q ∈ pids -> q <> 1 -> p <= q) /\ (p = 1 -> forall q, q ∈ pids -> q = 1).
Lemma sorted_Z l : StronglySorted Z.le (py_sorted Z.ltb l).
Proof.
  assert (H : StronglySorted (not_gt Z.ltb) (py_sorted Z.ltb l)).
  { apply py_sorted_sorted. constructor; [intros x y | intros x y z; unfold not_gt]; rewrite ?Z.ltb_lt, ?Z.ltb_ge; lia. }
  induction H as [|x k Hk IH Hx]; constructor; [done|]. eapply Forall_impl; [exact Hx|]. intros y Hy. by apply Z.ltb_ge in Hy.
Qed.
Lemma sorted_filter_Z p l : StronglySorted Z.le l -> StronglySorted Z.le (List.filter p l).
Proof.
  induction 1 as [|x k Hk IH Hx]; [constructor|]. cbn [List.filter]. destruct (p x); [|exact IH]. constructor; [exact IH|].
  apply Forall_forall. intros y Hy%list_elem_of_In%filter_In. rewrite Forall_forall in Hx. apply Hx, list_elem_of_In, Hy.
Qed.
Lemma service_pid_spec k : StronglySorted Z.le k -> match service_pid k with None => k = [] | Some p => serves k p end.
Proof.
  intros Hs. unfold service_pid, serves. pose proof (sorted_filter_Z (fun p => negb (p =? 1)) k Hs) as Hf.
  assert (Hin : forall q, q ∈ List.filter (fun p => negb (p =? 1)) k <-> q ∈ k /\ q <> 1).
  { intros q. rewrite list_elem_of_In, filter_In, <-list_elem_of_In, negb_true_iff, Z.eqb_neq. done. }
  destruct (List.filter _ k) as [|p served].
  - assert (Hone : forall q, q ∈ k -> q = 1).
    { intros q Hq. destruct (Z.eq_dec q 1) as [|Hne]; [done|]. exfalso. apply (not_elem_of_nil q). by apply Hin. }
    destruct k as [|p k]; cbn [head]; [done|]. split_and!; [by left| |done]. intros q Hq Hne. by specialize (Hone q Hq).
  - cbn [head]. apply StronglySorted_inv in Hf as [_ Hp]. rewrite Forall_forall in Hp.
    assert (Hpk : p ∈ k /\ p <> 1) by (apply Hin; by left). split_and!; [tauto | |tauto].
    intros q Hq Hne. assert (Hq' : q ∈ p :: served) by (apply Hin; done). apply elem_of_cons in Hq' as [->|Hq']; [done | by apply Hp].
Qed.

(** ** The report *)

(** What the report says of the socket [e] when the pids [now] were visited. *)
Definition owned (h : proc_host) (now : list Z) (e : Z * (sock * string)) (l : listener) : Prop :=
  ln_sock l = e.2.1 /\ ln_namespace l = e.2.2 /\ bind_scope (sk_address e.2.1) = Ok (ln_scope l) /\
  (forall pid, pid ∈ ln_pids l <-> pid ∈ now /\ holds_inode h e.1 pid = true) /\
  match ln_pid l with
  | None => ln_pids l = [] /\ ln_details l = NO_PROCESS /\ ln_from l = None
  | Some owner => serves (ln_pids l) owner /\ identified h l owner
  end.

Lemma attributed_owned h host_ns now t e l : tables_ok h host_ns now t -> attributed h (tb_owners t) e l -> owned h now e l.
Proof.
  intros Ht (Hs & Hn & Hsc & Hp & Hpid & Hd). unfold owned. split_and!; [done..| |].
  - intros pid. rewrite Hp, elem_of_py_sorted, elem_of_remove_dups, (to_owners _ _ _ _ Ht), list_elem_of_In, filter_In, <-list_elem_of_In. done.
  - rewrite Hp in Hpid. pose proof (service_pid_spec _ (sorted_Z (remove_dups (default [] (dget e.1 (tb_owners t)))))) as H. rewrite <-Hpid, <-Hp in H.
    by destruct (ln_pid l).
Qed.

(** C18: the service scan attributes every socket.  It visits the pids of
    /proc in order (all of them when the report is not truncated) and counts
    those whose descriptors may not be read.  There is one listener for each
    inode of the network tables, and no network namespace of a visited process
    is left out; a listener's pids are exactly the visited processes that hold
    its inode, the one that serves it is the lowest but init, and its identity
    is what was read of that process, with a worker's libraries only when that
    process has neither a crypto library nor a Go runtime. *)
Theorem scan_services_attribution h max_pids r : scan_services h max_pids = Ok (inr r) ->
  exists pids host_ns now later sockets listeners,
    pids_of h = Ok pids /\ netns h 1 = Ok host_ns /\ take (Z.to_nat max_pids) pids = now ++ later /\ (sr_truncated r = false -> now = pids) /\
    sr_scanned r = Z.of_nat (length now) /\ sr_unreadable r = count (fds_refused h) now /\
    NoDup sockets.*1 /\ Forall (listed h host_ns now) sockets /\
    (forall pid, pid ∈ now -> exists q ss, q ∈ now /\ netns h q = netns h pid /\ listening_sockets h q = Ok ss /\
       forall s, s ∈ ss -> sk_inode s ∈ sockets.*1) /\
    sr_listeners r ≡ₚ listeners /\ Forall2 (owned h now) sockets listeners.
Proof.
  unfold scan_services. destruct (pc_linux h); cbn [negb]; [|done].
  destruct (pids_of h) as [pids|]; cbn [mbind res_bind]; [|done]. destruct pids as [|q0 pids]; [done|]. set (all := q0 :: pids).
  destruct (netns h 1) as [host_ns|]; cbn [mbind res_bind]; [|done]. cbv zeta.
  destruct (scan_pids h host_ns _ _) as [t|] eqn:Et; cbn [mbind res_bind]; [|done].
  destruct (foldS _ _ _ new_cache) as [[[out ds] c]|] eqn:El; cbn [mbind res_bind]; [|done]. intros [= <-]. cbn [sr_listeners sr_scanned sr_unreadable sr_truncated].
  destruct (scan_pids_ok h host_ns _ [] (Tables [] [] [] 0 0 (max_pids <? Z.of_nat (length all))) _ (tables_start _ _ _) Et) as (now & later & Hsplit & Hok & Htr).
  apply listeners_ok in El as (ls & -> & Hls); [|done]. cbn [app] in *.
  exists all, host_ns, now, later, (tb_sockets t), ls. split_and!; try done.
  - intros Hf. destruct (Htr Hf) as [-> Hcap]. cbn [tb_truncated] in Hcap. apply Z.ltb_ge in Hcap. rewrite app_nil_r in Hsplit. rewrite <-Hsplit.
    apply take_ge. lia.
  - apply (to_scanned _ _ _ _ Hok).
  - apply (to_unreadable _ _ _ _ Hok).
  - apply (to_keys _ _ _ _ Hok).
  - apply (to_sockets _ _ _ _ Hok).
  - intros pid Hp. destruct (to_visited _ _ _ _ Hok pid Hp) as (ns & Hns & Hseen). destruct (to_seen _ _ _ _ Hok ns Hseen) as (q & ss & ? & Hq & ? & ?).
    exists q, ss. rewrite Hq, Hns. done.
  - apply py_sorted_perm.
  - eapply Forall2_impl; [exact Hls|]. intros e l. by apply (attributed_owned h host_ns now t).
Qed.

(** A host whose process 7 listens on port 8080 and 443, process 8 shares the
    second socket, and init holds the third. *)
Definition no_such {A} : res A := Raise (OSError "No such file or directory").
Definition first_lines : string := str_join (String "010" EmptyString) [
  "  sl  local_address rem_address   st tx_queue rx_queue tr tm->when retrnsmt   uid  timeout inode";
  "   0: 0100007F:1F90 00000000:0000 0A 00000000:00000000 00:00000000 00000000     0        0 4242 1";
  "   1: 00000000:01BB 00000000:0000 0A 00000000:00000000 00:00000000 00000000     0        0 4243 1";
  "   2: 00000000:006F 00000000:0000 0A 00000000:00000000 00:00000000 00000000     0        0 4244 1";
  "   3: 0100007F:0016 0100007F:C350 01 00000000:00000000 00:00000000 00000000     0        0 4245 1"].
Definition web_host : proc_host :=
  ProcHost (HostFs (fun _ => None) (fun _ => None) (fun _ => false) (fun _ => [])) (Prefixes EmptyString EmptyString)
    (fun p => if String.eqb p "/proc" then Ok ["1"; "self"; "8"; "7"] else if String.eqb p "/proc/1/fd" then Ok ["3"; "4"]
              else if String.eqb p "/proc/7/fd" then Ok ["0"; "5"; "6"] else if String.eqb p "/proc/8/fd" then Ok ["6"] else no_such)
    (fun p => if ends_with "/ns/net" p then Ok "net:[4026531840]"%string
              else if String.eqb p "/proc/1/fd/3" then Ok "socket:[4244]"%string else if String.eqb p "/proc/1/fd/4" then Ok "socket:[4243]"%string
              else if String.eqb p "/proc/7/fd/5" then Ok "socket:[4242]"%string else if String.eqb p "/proc/7/fd/6" then Ok "socket:[4243]"%string
              else if String.eqb p "/proc/8/fd/6" then Ok "socket:[4243]"%string else no_such)
    (fun p => if String.eqb p "/proc/1/net/tcp" then Ok first_lines else if String.eqb p "/proc/7/comm" then Ok "nginx"%string else no_such)
    (fun _ => no_such) (fun _ => no_such) (fun _ => no_such) (fun _ => false) false (fun _ => false) true 99 None.
Definition web_report : services_report :=
  match scan_services web_host 16 with Ok (inr r) => r | _ => ServicesReport [] (Summary 0 0 [] 0) 0 0 false end.
Lemma scan_services_attribution_witness :
  (exists sockets listeners, sr_listeners web_report ≡ₚ listeners /\ Forall2 (owned web_host [1; 7; 8]) sockets listeners) /\
  (fun l => (sk_port (ln_sock l), ln_pid l, ln_pids l)) <$> sr_listeners web_report = [(111, Some 1, [1]); (443, Some 7, [1; 7; 8]); (8080, Some 7, [7])].
Proof.
  split; [|vm_compute; reflexivity].
  assert (H : scan_services web_host 16 = Ok (inr web_report)) by (vm_compute; reflexivity).
  destruct (scan_services_attribution web_host 16 web_report H) as (pids & ns & now & later & sockets & ls & Hp & _ & _ & Hnow & _ & _ & _ & _ & _ & Hperm & Hall).
  assert (E : pids_of web_host = Ok [1; 7; 8]) by (vm_compute; reflexivity). rewrite E in Hp. injection Hp as <-.
  rewrite (Hnow ltac:(vm_compute; reflexivity)) in Hall. exists sockets, ls. split; [exact Hperm | exact Hall].
Defined.
