(* ===== verification/Processes.v ===== *)
(** * The scan of all processes ([detect/runtime_processes.py]) *)

From S2P Require Import Prelude PyStr PyDict PyVal HostPath Packages ProcNet Elf Linkage Worker SvcLinkage.
Open Scope Z_scope.
Definition PROCESSES_MAX_PIDS_DEFAULT : Z := 16384.
Definition PROCESSES_MAX_GROUPS_DEFAULT : Z := 500.
Definition SAMPLE_PIDS : nat := 5.
Definition MAX_UNITS : nat := 10.
Definition MAX_CONTAINERS : nat := 10.

(** ** Verdict, key and role *)

Definition verdicts (d : details) : list (option bool) :=
  (lb_capable <$> dt_libs d) ++ match dt_go d with Some g => [Some (match gr_kex g with Some _ => true | None => false end)] | None => [] end.
Definition group_pqc_capable (d : details) : option bool :=
  let vs := verdicts d in
  if existsb (fun v => bool_decide (v = Some false)) vs then Some false
  else if negb (bool_decide (vs = [])) && forallb (fun v => bool_decide (v = Some true)) vs then Some true
  else None.

Abbreviation lib_key := (string * string * string * bool)%type.
Abbreviation group_id := (string * list lib_key * option (option string * option string))%type.
Definition lib_key_lt (a b : lib_key) : bool :=
  let '(f, v, p, d) := a in let '(g, w, q, e) := b in
  str_lt f g || (String.eqb f g && (str_lt v w || (String.eqb v w && (str_lt p q || (String.eqb p q && negb d && e))))).
Definition lib_key_of (l : library) : lib_key := (lb_family l, default EmptyString (lb_version l), lb_path l, lb_deleted l).
Definition or_text (a : option string) (b : string) : string := match a with Some s => if nonempty s then s else b | None => b end.
Definition group_key (d : details) : group_id :=
  (or_text (dt_exe d) (or_text (dt_process d) "?"), py_sorted lib_key_lt (lib_key_of <$> dt_libs d),
   (fun g => (gr_version g, gr_kex g)) <$> dt_go d).

Inductive role := Server | Client | Idle.
#[export] Instance role_eq_dec : EqDecision role.
Proof. solve_decision. Defined.
Definition meets (a b : list Z) : bool := existsb (fun i => bool_decide (i ∈ b)) a.
Definition role_of (socket_inodes listening established : list Z) : role :=
  if meets socket_inodes listening then Server else if meets socket_inodes established then Client else Idle.

(** ** Groups *)

Record group := Group {
  g_details : details; g_capable : option bool; g_count : Z; g_samples : list Z; g_units : list string;
  g_containers : list (string * container_id); g_container_processes : Z; g_namespaces : list string;
  g_server : Z; g_client : Z; g_idle : Z; g_established : Z; g_fd_unreadable : Z }.
Definition new_group (d : details) : group := Group d (group_pqc_capable d) 0 [] [] [] 0 [] 0 0 0 0 0.
Definition set_add {A} `{EqDecision A} (x : A) (l : list A) : list A := if bool_decide (x ∈ l) then l else l ++ [x].
Definition one_if (b : bool) : Z := if b then 1 else 0.
Definition established_of (inodes established : list Z) : Z := count (fun i => bool_decide (i ∈ established)) inodes.
(** One more process of the group; [inodes] is [None] when its descriptors
    may not be read. *)
Definition add_process (pid : Z) (d : details) (ns : string) (r : role) (inodes : option (list Z)) (established : list Z) (g : group) : group :=
  Group (g_details g) (g_capable g) (g_count g + 1)
    (if Nat.ltb (length (g_samples g)) SAMPLE_PIDS then g_samples g ++ [pid] else g_samples g)
    (match dt_unit d with Some u => if nonempty u then set_add u (g_units g) else g_units g | None => g_units g end)
    (match dt_container d with Some c => dsetdefault (ct_id c) c (g_containers g) | None => g_containers g end)
    (g_container_processes g + one_if (match dt_container d with Some _ => true | None => false end))
    (set_add ns (g_namespaces g))
    (g_server g + one_if (bool_decide (r = Server))) (g_client g + one_if (bool_decide (r = Client))) (g_idle g + one_if (bool_decide (r = Idle)))
    (g_established g + match inodes with Some l => established_of l established | None => 0 end)
    (g_fd_unreadable g + one_if (match inodes with None => true | Some _ => false end)).

Record progress := Progress {
  pr_tables : list (option string * (list Z * list Z)); pr_groups : list (group_id * group);
  pr_scanned : Z; pr_unreadable : Z; pr_kernel : Z; pr_without : Z; pr_truncated : bool }.

Section Host.
Context (h : proc_host).

Definition established_table (pid : Z) (name : string) : res (list Z) :=
  text ← or_none (pc_text h (proc h pid ["net"; name])); Ok (match text with Some t => parse_established_inodes t | None => [] end).
Definition netns_tables (pid : Z) : res (list Z * list Z) :=
  ss ← listening_sockets h pid;
  es ← mapM (established_table pid) ["tcp"; "tcp6"];
  Ok (List.map sk_inode ss, concat es).
(** The memory map: its text, [None] for a process that has exited, or a
    refusal. *)
Inductive maps_read := MapsText (s : string) | MapsGone | MapsRefused.
Definition read_maps (pid : Z) : res maps_read :=
  catch os_error (t ← pc_text h (proc h pid ["maps"]); Ok (MapsText t)) (fun e => Ok (if permission_error e then MapsRefused else MapsGone)).
Definition tables_for (ns : option string) (pid : Z) (tables : list (option string * (list Z * list Z))) : res ((list Z * list Z) * list (option string * (list Z * list Z))) :=
  match dget ns tables with
  | Some t => Ok (t, tables)
  | None => t ← netns_tables pid; Ok (t, dset ns t tables)
  end.

(** A readable process: a kernel thread, without crypto, or in a group. *)
Definition classify (host_ns : option string) (pid : Z) (maps : string) (p : progress) : scan progress := fun c =>
  let scanned := pr_scanned p + 1 in
  ns ← netns h pid;
  '((listening, established), tables) ← tables_for ns pid (pr_tables p);
  no_exe ← (if nonempty maps then Ok false else e ← exe h pid; Ok (match e with None => true | Some _ => false end));
  if (no_exe : bool) then Ok (Progress tables (pr_groups p) scanned (pr_unreadable p) (pr_kernel p + 1) (pr_without p) (pr_truncated p), c)
  else
    '(d, c) ← process_details h pid (Some maps) c;
    if bool_decide (dt_libs d = []) && (match dt_go d with None => true | Some _ => false end)
    then Ok (Progress tables (pr_groups p) scanned (pr_unreadable p) (pr_kernel p) (pr_without p + 1) (pr_truncated p), c)
    else
      inodes ← socket_inodes h pid;
      let r := role_of (default [] inodes) listening established in
      let key := group_key d in
      let g := default (new_group d) (dget key (pr_groups p)) in
      Ok (Progress tables (dset key (add_process pid d (namespace_name host_ns ns) r inodes established g) (pr_groups p))
            scanned (pr_unreadable p) (pr_kernel p) (pr_without p) (pr_truncated p), c).
Definition scan_process (host_ns : option string) (p : progress) (pid : Z) : scan progress :=
  m ← lift (read_maps pid);
  match m with
  | MapsText t => classify host_ns pid t p
  | MapsGone => mret p
  | MapsRefused => mret (Progress (pr_tables p) (pr_groups p) (pr_scanned p) (pr_unreadable p + 1) (pr_kernel p) (pr_without p) (pr_truncated p))
  end.
Fixpoint scan_all (host_ns : option string) (p : progress) (pids : list Z) : scan progress :=
  match pids with
  | [] => mret p
  | pid :: pids =>
      if pc_late h pid then mret (Progress (pr_tables p) (pr_groups p) (pr_scanned p) (pr_unreadable p) (pr_kernel p) (pr_without p) true)
      else p ← scan_process host_ns p pid; scan_all host_ns p pids
  end.

(** The scanner's own pid in the /proc it reads. *)
Definition own_pid : res (option Z) :=
  catch (fun e => os_error e || value_error e)
    (t ← pc_readlink h (host_path (pc_fs h) (pc_prefix h) "/proc/self"); i ← as_int t; Ok (Some i))
    (fun _ => Ok (if nonempty (host_prefix (pc_prefix h)) then None else Some (pc_pid h))).

(** ** The report *)

Definition capable_rank (c : option bool) : Z := match c with Some false => 0 | None => 1 | Some true => 2 end.
Definition group_lt (a b : group) : bool :=
  let x := capable_rank (g_capable a) in let y := capable_rank (g_capable b) in
  (x <? y) || ((x =? y) && ((g_count b <? g_count a) || ((g_count a =? g_count b) &&
    str_lt (default EmptyString (dt_exe (g_details a))) (default EmptyString (dt_exe (g_details b)))))).
Definition sum_of (f : group -> Z) (gs : list group) : Z := foldl (fun n g => n + f g) 0 gs.
Definition families_of_groups (gs : list group) : list (string * Z) :=
  foldl (fun d g => foldl (count_family (g_count g)) d (families (g_details g))) [] gs.
Definition not_capable (g : group) : bool := bool_decide (g_capable g = Some false).

Record processes_report := ProcessesReport {
  pp_groups : list group; pp_kept : list group; pp_progress : progress }.
Definition scan_processes (max_pids max_groups : Z) : res (string + processes_report) :=
  if negb (pc_linux h) then Ok (inl "process scan needs Linux /proc")
  else
    pids ← pids_of h;
    match pids with
    | [] => Ok (inl "cannot list /proc")
    | _ =>
        host_ns ← netns h 1;
        own ← own_pid;
        let others := List.filter (fun p => negb (bool_decide (Some p = own))) pids in
        '(p, _) ← scan_all host_ns (Progress [] [] 0 0 0 0 (max_pids <? Z.of_nat (length others))) (take (Z.to_nat max_pids) others) new_cache;
        let ordered := py_sorted group_lt (pr_groups p).*2 in
        Ok (inr (ProcessesReport ordered (take (Z.to_nat max_groups) ordered) p))
    end.

Definition or_tilde (s : string) : string := if nonempty s then s else "~".
Definition container_sort_key (c : container_id) : string * string * string :=
  match ct_names c with Some (pod, ns, name) => (or_tilde ns, or_tilde pod, or_tilde name) | None => ("~", "~", "~") end.
Definition container_lt (a b : container_id) : bool :=
  let '(n, p, c) := container_sort_key a in let '(n', p', c') := container_sort_key b in
  str_lt n n' || (String.eqb n n' && (str_lt p p' || (String.eqb p p' && (str_lt c c' || (String.eqb c c' && str_lt (ct_id a) (ct_id b)))))).
Definition omitted (key : string) (total max : nat) : list (string * value) :=
  if Nat.ltb max total then [(key, VInt (Z.of_nat (total - max)))] else [].
Definition group_value (g : group) : value :=
  let units := py_sorted str_lt (g_units g) in
  let containers := py_sorted container_lt (g_containers g).*2 in
  let d := g_details g in
  VDict ([("exe", of_ostr (dt_exe d)); ("process", of_ostr (dt_process d)); ("crypto_libraries", VList (library_entry <$> dt_libs d));
    ("static_binary", of_obool (dt_static d)); ("go", opt_val go_value (dt_go d)); ("pqc_capable", of_obool (g_capable g));
    ("process_count", VInt (g_count g)); ("sample_pids", VList (VInt <$> g_samples g)); ("systemd_units", VStrs (take MAX_UNITS units));
    ("containers", VList (container_value <$> take MAX_CONTAINERS containers)); ("container_processes", VInt (g_container_processes g));
    ("network_namespaces", VStrs (py_sorted str_lt (g_namespaces g)));
    ("roles", VDict [("server", VInt (g_server g)); ("client", VInt (g_client g)); ("idle", VInt (g_idle g))]);
    ("established_tcp_connections", VInt (g_established g)); ("fd_unreadable_processes", VInt (g_fd_unreadable g))] ++
    omitted "systemd_units_omitted" (length units) MAX_UNITS ++ omitted "containers_omitted" (length containers) MAX_CONTAINERS).
Definition processes_summary (r : processes_report) : value :=
  let gs := pp_groups r in
  let bad := List.filter not_capable gs in
  VDict [("groups", VInt (Z.of_nat (length gs))); ("processes_with_crypto", VInt (sum_of g_count gs));
    ("processes_without_crypto", VInt (pr_without (pp_progress r)));
    ("processes_by_crypto_family", VDict (prod_map id VInt <$> sorted_items (families_of_groups gs)));
    ("processes_not_pqc_capable", VInt (sum_of g_count bad)); ("client_processes_not_pqc_capable", VInt (sum_of g_client bad));
    ("processes_with_deleted_crypto_library", VInt (sum_of g_count (List.filter (fun g => has_deleted (g_details g)) gs)))].
Definition processes_value (limits : list (string * value)) (r : string + processes_report) : list (string * value) :=
  match r with
  | inl reason => scan_unavailable reason
  | inr r =>
      let p := pp_progress r in
      dupdate ([("available", VBool true); ("groups", VList (group_value <$> pp_kept r)); ("summary", processes_summary r);
        ("scanned_pids", VInt (pr_scanned p)); ("unreadable_pids", VInt (pr_unreadable p)); ("kernel_threads", VInt (pr_kernel p));
        ("truncated", VBool (pr_truncated p)); ("omitted_groups", VInt (Z.of_nat (length (pp_groups r) - length (pp_kept r))));
        ("limits", VDict limits)] ++ unreadable_note (pr_unreadable p)) (default [] (pc_note h))
  end.
End Host.

(** * All processes: theorems

    The process scan loses no process: each pid it visits is counted once, as
    unreadable, a kernel thread, without crypto, or a member of the one group
    of its key; and each group is the fold of its members. *)
(** ** Members and groups *)

(** What the scan reads of one process with crypto. *)
Record member := Member {
  mb_pid : Z; mb_details : details; mb_namespace : string; mb_role : role; mb_inodes : option (list Z); mb_established : list Z }.
Definition mb_key (m : member) : group_id := group_key (mb_details m).
Definition add_member (g : group) (m : member) : group :=
  add_process (mb_pid m) (mb_details m) (mb_namespace m) (mb_role m) (mb_inodes m) (mb_established m) g.
Definition join (gs : list (group_id * group)) (m : member) : list (group_id * group) :=
  dset (mb_key m) (add_member (default (new_group (mb_details m)) (dget (mb_key m) gs)) m) gs.
Definition with_key (k : group_id) (ms : list member) : list member := filter (fun m => mb_key m = k) ms.
(** The specification: the group of some members with the same key. *)
Definition group_of (ms : list member) : option group :=
  match ms with [] => None | m :: _ => Some (foldl add_member (new_group (mb_details m)) ms) end.

Lemma group_of_snoc ms m : group_of (ms ++ [m]) = Some (add_member (default (new_group (mb_details m)) (group_of ms)) m).
Proof. destruct ms as [|m0 ms]; [done|]. cbn [app group_of]. by rewrite app_comm_cons, foldl_app. Qed.

Lemma join_all ms k : dget k (foldl join [] ms) = group_of (with_key k ms).
Proof.
  induction ms as [|m ms IH] using rev_ind; [done|]. rewrite foldl_app. cbn [foldl]. unfold join at 1.
  unfold with_key in *. rewrite filter_app, dget_dset.
  rewrite (filter_cons _ m []), filter_nil. destruct (decide (mb_key m = k)) as [<-|Hk].
  - by rewrite group_of_snoc, IH.
  - by rewrite app_nil_r.
Qed.
Lemma join_wf ms : dwf (foldl join [] ms).
Proof. induction ms as [|m ms IH] using rev_ind; [apply dwf_nil|]. rewrite foldl_app. by apply dset_wf. Qed.

(** Reading a group off its members. *)
Definition role_count (r : role) (ms : list member) : Z := count (fun m => bool_decide (mb_role m = r)) ms.
Lemma count_cons {A} (p : A -> bool) x l : count p (x :: l) = one_if (p x) + count p l.
Proof. unfold count. cbn [List.filter]. destruct (p x); cbn [one_if length]; lia. Qed.
Lemma count_nonneg {A} (p : A -> bool) l : 0 <= count p l.
Proof. unfold count. lia. Qed.
Lemma count_app {A} (p : A -> bool) l k : count p (l ++ k) = count p l + count p k.
Proof. unfold count. rewrite List.filter_app, length_app. lia. Qed.

Lemma gathered ms : forall g, (length (g_samples g) <= SAMPLE_PIDS)%nat ->
  let g' := foldl add_member g ms in
  g_details g' = g_details g /\ g_capable g' = g_capable g /\ g_count g' = g_count g + Z.of_nat (length ms) /\
  g_samples g' = take SAMPLE_PIDS (g_samples g ++ (mb_pid <$> ms)) /\
  g_server g' = g_server g + role_count Server ms /\ g_client g' = g_client g + role_count Client ms /\ g_idle g' = g_idle g + role_count Idle ms /\
  g_fd_unreadable g' = g_fd_unreadable g + count (fun m => bool_decide (mb_inodes m = None)) ms.
Proof.
  induction ms as [|m ms IH]; intros g Hg.
  - cbn. rewrite app_nil_r, take_ge by done. unfold role_count, count. cbn. split_and!; (reflexivity || lia).
  - cbn [foldl]. specialize (IH (add_member g m)). unfold role_count in *. rewrite !count_cons, fmap_cons.
    assert (Hs : g_samples (add_member g m) = take SAMPLE_PIDS (g_samples g ++ [mb_pid m])).
    { cbn [add_member add_process g_samples]. destruct (Nat.ltb_spec (length (g_samples g)) SAMPLE_PIDS).
      - rewrite take_ge; [done|]. rewrite length_app. cbn. lia.
      - rewrite take_app_le, take_ge by lia. done. }
    destruct IH as (-> & -> & -> & Hs' & -> & -> & -> & ->); [rewrite Hs, length_take; lia|]. rewrite Hs'.
    split_and!; try reflexivity; try (cbn; lia).
    + rewrite Hs. destruct (Nat.leb_spec SAMPLE_PIDS (length (g_samples g))).
      * rewrite (take_app_le (g_samples g) [mb_pid m]), (take_app_le (g_samples g)), take_app_le by (rewrite ?length_take; lia). by rewrite take_take.
      * rewrite (take_ge (g_samples g ++ [_])) by (rewrite length_app; cbn; lia). by rewrite <-app_assoc.
    + cbn [add_member add_process g_fd_unreadable]. destruct (mb_inodes m); cbn [one_if bool_decide]; [|rewrite bool_decide_true by done; cbn; lia].
      rewrite bool_decide_false by done. cbn. lia.
Qed.

(** What the report says of a group with the members [m :: ms]. *)
Lemma group_of_members m ms g : group_of (m :: ms) = Some g ->
  g_details g = mb_details m /\ g_capable g = group_pqc_capable (mb_details m) /\ g_count g = Z.of_nat (length (m :: ms)) /\
  g_samples g = take SAMPLE_PIDS (mb_pid <$> m :: ms) /\
  g_server g = role_count Server (m :: ms) /\ g_client g = role_count Client (m :: ms) /\ g_idle g = role_count Idle (m :: ms) /\
  g_fd_unreadable g = count (fun m => bool_decide (mb_inodes m = None)) (m :: ms).
Proof.
  intros [= <-]. change (foldl add_member (add_member (new_group (mb_details m)) m) ms) with (foldl add_member (new_group (mb_details m)) (m :: ms)).
  apply (gathered (m :: ms)). cbn. lia.
Qed.
Lemma role_counts ms : role_count Server ms + role_count Client ms + role_count Idle ms = Z.of_nat (length ms).
Proof. unfold role_count. induction ms as [|m ms IH]; [done|]. rewrite !count_cons. cbn [length].
  assert (one_if (bool_decide (mb_role m = Server)) + one_if (bool_decide (mb_role m = Client)) + one_if (bool_decide (mb_role m = Idle)) = 1)
    by (by destruct (mb_role m)). lia. Qed.

(** ** Sums over the groups *)

Lemma sum_of_acc f gs n : foldl (fun n g => n + f g) n gs = n + sum_of f gs.
Proof.
  unfold sum_of. revert n. induction gs as [|g gs IH]; intros n; cbn [foldl]; [lia|]. rewrite IH, (IH (0 + f g)). lia.
Qed.
Lemma sum_of_cons f g gs : sum_of f (g :: gs) = f g + sum_of f gs.
Proof. unfold sum_of at 1. cbn [foldl]. rewrite sum_of_acc. lia. Qed.
Lemma sum_of_perm f gs gs' : gs ≡ₚ gs' -> sum_of f gs = sum_of f gs'.
Proof. induction 1; rewrite ?sum_of_cons; lia. Qed.
Lemma sum_of_dset f k g (gs : list (group_id * group)) :
  sum_of f (dset k g gs).*2 = sum_of f gs.*2 + f g - from_option f 0 (dget k gs).
Proof.
  induction gs as [|[k' g'] gs IH]; [cbn; lia|]. cbn [dset dget].
  destruct (decide (k = k')) as [->|]; rewrite !fmap_cons, !sum_of_cons; cbn [from_option snd]; [lia|]. rewrite IH. lia.
Qed.
Lemma sum_of_joined ms : sum_of g_count (foldl join [] ms).*2 = Z.of_nat (length ms).
Proof.
  induction ms as [|m ms IH] using rev_ind; [done|]. rewrite foldl_app. cbn [foldl]. unfold join at 1. rewrite sum_of_dset, IH, length_app.
  destruct (dget (mb_key m) (foldl join [] ms)); cbn; lia.
Qed.

(** ** The scan *)

Section Scan.
Context (h : proc_host).

Definition maps_text (pid : Z) : bool := match read_maps h pid with Ok (MapsText _) => true | _ => false end.
Definition maps_refused (pid : Z) : bool := match read_maps h pid with Ok MapsRefused => true | _ => false end.
Definition has_crypto (d : details) : Prop := dt_libs d <> [] \/ dt_go d <> None.

(** After the pids [visited]: each is accounted for. *)
Record accounted (visited : list Z) (p : progress) (members : list member) : Prop := {
  ac_groups : pr_groups p = foldl join [] members;
  ac_order : (mb_pid <$> members) `sublist_of` List.filter maps_text visited;
  ac_crypto : Forall (fun m => has_crypto (mb_details m)) members;
  ac_scanned : pr_scanned p = count maps_text visited;
  ac_unreadable : pr_unreadable p = count maps_refused visited;
  ac_rest : pr_scanned p = pr_kernel p + pr_without p + Z.of_nat (length members);
  ac_kernel : 0 <= pr_kernel p; ac_without : 0 <= pr_without p }.

Lemma accounted_start trunc : accounted [] (Progress [] [] 0 0 0 0 trunc) [].
Proof. by constructor. Qed.

Lemma scan_process_accounted host_ns visited p members pid c p' c' :
  accounted visited p members -> scan_process h host_ns p pid c = Ok (p', c') ->
  (exists members', accounted (visited ++ [pid]) p' members') /\ pr_truncated p' = pr_truncated p.
Proof.
  intros [Hg Ho Hc Hs Hu Hr Hk Hw]. unfold scan_process, mbind, scan_bind, lift.
  destruct (read_maps h pid) as [m|] eqn:Em; cbn [mbind res_bind]; [|done].
  assert (Ht : forall v, (v ++ [pid] : list Z) = v ++ [pid]) by done. clear Ht.
  destruct m as [text| |].
  - unfold classify. destruct (netns h pid) as [ns|]; cbn [mbind res_bind]; [|done].
    destruct (tables_for h ns pid (pr_tables p)) as [[[listening established] tables]|]; cbn [mbind res_bind]; [|done].
    destruct (if nonempty text then _ else _) as [no_exe|]; cbn [mbind res_bind]; [|done].
    assert (Htext : maps_text pid = true) by (unfold maps_text; by rewrite Em).
    assert (Href : maps_refused pid = false) by (unfold maps_refused; by rewrite Em).
    assert (Hstep : forall p' members', pr_groups p' = foldl join [] members' -> (mb_pid <$> members') `sublist_of` List.filter maps_text visited ++ [pid] ->
      Forall (fun m => has_crypto (mb_details m)) members' -> pr_scanned p' = pr_scanned p + 1 -> pr_unreadable p' = pr_unreadable p ->
      pr_scanned p' = pr_kernel p' + pr_without p' + Z.of_nat (length members') -> 0 <= pr_kernel p' -> 0 <= pr_without p' ->
      accounted (visited ++ [pid]) p' members').
    { intros q ms ? ? ? E1 E2 ? ? ?. constructor; try done.
      - rewrite List.filter_app. cbn [List.filter]. by rewrite Htext.
      - rewrite count_app, count_cons, Htext. change (count maps_text []) with 0. cbn [one_if]. lia.
      - rewrite count_app, count_cons, Href. change (count maps_refused []) with 0. cbn [one_if]. lia. }
    destruct no_exe.
    { intros [= <- <-]. split; [|done]. exists members. apply Hstep; cbn; try done; try lia. by apply sublist_inserts_r. }
    destruct (process_details h pid (Some text) c) as [[d c1]|]; cbn [mbind res_bind]; [|done].
    destruct (bool_decide (dt_libs d = []) && _) eqn:Ecrypto.
    { intros [= <- <-]. split; [|done]. exists members. apply Hstep; cbn; try done; try lia. by apply sublist_inserts_r. }
    destruct (socket_inodes h pid) as [inodes|]; cbn [mbind res_bind]; [|done].
    intros [= <- <-]. split; [|done].
    exists (members ++ [Member pid d (namespace_name host_ns ns) (role_of (default [] inodes) listening established) inodes established]).
    apply Hstep; cbn; try done; try lia.
    + by rewrite foldl_app, <-Hg.
    + rewrite fmap_app. by apply sublist_app.
    + apply Forall_app. split; [done|]. apply Forall_singleton. apply andb_false_iff in Ecrypto as [E|E].
      * left. by apply bool_decide_eq_false in E.
      * right. cbn. by destruct (dt_go d).
    + rewrite length_app. cbn. lia.
  - intros [= <- <-]. split; [|done]. exists members. constructor; try done.
    + rewrite List.filter_app. by apply sublist_inserts_r.
    + rewrite count_app, count_cons. unfold maps_text at 2. rewrite Em. change (count maps_text []) with 0. cbn [one_if]. lia.
    + rewrite count_app, count_cons. unfold maps_refused at 2. rewrite Em. change (count maps_refused []) with 0. cbn [one_if]. lia.
  - intros [= <- <-]. split; [|done]. exists members. constructor; cbn; try done.
    + rewrite List.filter_app. by apply sublist_inserts_r.
    + rewrite count_app, count_cons. unfold maps_text at 2. rewrite Em. change (count maps_text []) with 0. cbn [one_if]. lia.
    + rewrite count_app, count_cons. unfold maps_refused at 2. rewrite Em. change (count maps_refused []) with 0. cbn [one_if]. lia.
Qed.

Lemma scan_all_accounted host_ns pids : forall visited p members c p' c',
  accounted visited p members -> scan_all h host_ns p pids c = Ok (p', c') ->
  exists now later members', pids = now ++ later /\ accounted (visited ++ now) p' members' /\
    (pr_truncated p' = false -> later = [] /\ pr_truncated p = false).
Proof.
  induction pids as [|pid pids IH]; intros visited p members c p' c' Ha.
  - intros [= <- <-]. exists [], [], members. rewrite (app_nil_r visited). split; [done|]. split; [exact Ha|]. intros H; done.
  - cbn [scan_all]. destruct (pc_late h pid).
    + intros [= <- <-]. exists [], (pid :: pids), members. rewrite app_nil_r. split_and!; [done| |done]. destruct Ha; by constructor.
    + unfold mbind, scan_bind. destruct (scan_process h host_ns p pid c) as [[p1 c1]|] eqn:E; cbn [mbind res_bind]; [|done].
      intros Hr. destruct (scan_process_accounted _ _ _ _ _ _ _ _ Ha E) as [[ms Ha'] Ht].
      destruct (IH _ _ _ _ _ _ Ha' Hr) as (now & later & ms' & -> & Hacc & Htr).
      exists (pid :: now), later, ms'. rewrite <-app_assoc in Hacc. split_and!; [done|done|]. intros H. rewrite <-Ht. auto.
Qed.
End Scan.

(** ** The report *)


(** Two details with one key and different verdicts: the report's group has
    the verdict of the process that was read first. *)
Definition build (capable : bool) : details :=
  Details (Some "nginx") (Some "/usr/sbin/nginx") None None None
    [Library "openssl" "/usr/lib64/libssl.so.3" (Some "3.0.7") (Some "embedded") false (Some capable) None] (Some false) None.
Lemma group_key_merges_builds :
  group_key (build true) = group_key (build false) /\ group_pqc_capable (build true) = Some true /\ group_pqc_capable (build false) = Some false /\
  g_capable <$> group_of [Member 10 (build true) "host" Idle (Some []) []; Member 11 (build false) "host" Idle (Some []) []] = Some (Some true).
Proof. vm_compute. done. Qed.

(** A host with init, a kernel thread, a web server and a refused process. *)
Definition refused {A} : res A := Raise (Custom "PermissionError" "Permission denied").
Definition gone {A} : res A := Raise (OSError "No such file or directory").
Definition small_host : proc_host :=
  ProcHost (HostFs (fun _ => None) (fun _ => None) (fun _ => false) (fun _ => [])) (Prefixes EmptyString EmptyString)
    (fun p => if String.eqb p "/proc" then Ok ["1"; "2"; "self"; "10"; "20"; "30"] else gone)
    (fun p => if String.eqb p "/proc/self" then Ok "30"%string else if String.eqb p "/proc/10/exe" then Ok "/usr/sbin/nginx"%string else gone)
    (fun p => if String.eqb p "/proc/1/maps" then Ok "7f00-7f01 r-xp 00000000 fd:00 11 /usr/lib64/libc.so.6"%string
              else if String.eqb p "/proc/2/maps" then Ok EmptyString
              else if String.eqb p "/proc/10/maps" then Ok "7f00-7f01 r-xp 00000000 fd:00 12 /usr/lib64/libssl.so.3"%string
              else if String.eqb p "/proc/20/maps" then refused else gone)
    (fun _ => gone) (fun _ => gone) (fun _ => gone) (fun _ => false) false (fun _ => false) true 99 None.
Definition small_report : processes_report :=
  match scan_processes small_host 16 4 with Ok (inr r) => r | _ => ProcessesReport [] [] (Progress [] [] 0 0 0 0 false) end.
