(* ===== verification/Pgp.v ===== *)
(** * Package-signing keys: OpenPGP and PEM ([detect/protocols_signing.py], first half)

    The packets of a keyring, the public keys in them, ASCII armor, and the
    PEM keys of apk.  The text of a [binascii.Error] is an argument. *)

From stdpp Require Import sets.
From S2P Require Import Prelude PyStr PyDict PyVal PyRe PyBytes HostPath Der RpmHeader Packages Elf.
From Stdlib.Strings Require Import Byte.
Open Scope Z_scope.

(** ** Tables *)

Definition OPENPGP_ALGORITHMS : list (Z * (string * string * string)) := [
  (1, ("RSA", "both", "classical")); (2, ("RSA (encrypt-only)", "encrypt", "classical")); (3, ("RSA (sign-only)", "sign", "classical"));
  (16, ("Elgamal", "encrypt", "classical")); (17, ("DSA", "sign", "classical")); (18, ("ECDH", "encrypt", "classical"));
  (19, ("ECDSA", "sign", "classical")); (22, ("EdDSALegacy", "sign", "classical")); (25, ("X25519", "encrypt", "classical"));
  (26, ("X448", "encrypt", "classical")); (27, ("Ed25519", "sign", "classical")); (28, ("Ed448", "sign", "classical"));
  (30, ("ML-DSA-65+Ed25519", "sign", "hybrid")); (31, ("ML-DSA-87+Ed448", "sign", "hybrid"));
  (32, ("SLH-DSA-SHAKE-128s", "sign", "pure_pqc")); (33, ("SLH-DSA-SHAKE-128f", "sign", "pure_pqc"));
  (34, ("SLH-DSA-SHAKE-256s", "sign", "pure_pqc")); (35, ("ML-KEM-768+X25519", "encrypt", "hybrid")); (36, ("ML-KEM-1024+X448", "encrypt", "hybrid"))].
Definition CURVE_OIDS : list (string * string) := [
  ("1.2.840.10045.3.1.7", "NIST P-256"); ("1.3.132.0.34", "NIST P-384"); ("1.3.132.0.35", "NIST P-521");
  ("1.3.36.3.3.2.8.1.1.7", "brainpoolP256r1"); ("1.3.36.3.3.2.8.1.1.11", "brainpoolP384r1"); ("1.3.36.3.3.2.8.1.1.13", "brainpoolP512r1");
  ("1.3.6.1.4.1.11591.15.1", "Ed25519"); ("1.3.6.1.4.1.3029.1.5.1", "Curve25519")].
Definition PQC_RANK : list (string * Z) := [("classical", 0); ("hybrid", 1); ("pure_pqc", 2)].
Definition PKT_PUBLIC_KEY : Z := 6.
Definition PKT_USER_ID : Z := 13.
Definition PKT_PUBLIC_SUBKEY : Z := 14.

(** [class KeyParseError(ValueError)]. *)
Definition KeyParseError (msg : string) : exn := Custom "KeyParseError" msg.
Definition is_key_error : exn -> bool := is_class "KeyParseError".

(** ** Packets *)

(** The length field of a packet at [pos], past the tag byte: the length of
    the body and where it starts. *)
Definition new_length (data : bytes) (pos : Z) : res (Z * Z) :=
  let n := blen data in
  if n <=? pos then Raise (KeyParseError "truncated packet length")
  else
    b0 ← byte_at data pos;
    if b0 <? 192 then Ok (b0, pos + 1)
    else if b0 <? 224 then
      if n <=? pos + 1 then Raise (KeyParseError "truncated packet length")
      else b1 ← byte_at data (pos + 1); Ok (Z.shiftl (b0 - 192) 8 + b1 + 192, pos + 2)
    else if b0 =? 255 then
      if n <? pos + 5 then Raise (KeyParseError "truncated packet length")
      else l ← unpack_from true 4 data (pos + 1); Ok (l, pos + 5)
    else Raise (KeyParseError "partial body length in key data").
Definition old_length (data : bytes) (hdr pos : Z) : res (Z * Z) :=
  let n := blen data in
  let ltype := Z.land hdr 3 in
  if ltype =? 3 then Ok (n - pos, pos)
  else
    let size := if ltype =? 0 then 1 else if ltype =? 1 then 2 else 4 in
    if n <? pos + size then Raise (KeyParseError "truncated packet length")
    else Ok (from_bytes (slice data pos (pos + size)), pos + size).
(** The packet at [pos]: its tag, its body and where the next one starts. *)
Definition packet_at (data : bytes) (pos : Z) : res (Z * bytes * Z) :=
  hdr ← byte_at data pos;
  if Z.land hdr 128 =? 0
  then Raise (KeyParseError ("invalid packet header 0x" +:+ str_of (hex_of_byte (of_bval hdr)) +:+ " at " +:+ show_Z pos))
  else
    let new := negb (Z.land hdr 64 =? 0) in
    let tag := if new then Z.land hdr 63 else Z.land (Z.shiftr hdr 2) 15 in
    '(length, pos) ← (if new then new_length data (pos + 1) else old_length data hdr (pos + 1));
    if blen data <? pos + length then Raise (KeyParseError ("packet (tag " +:+ show_Z tag +:+ ") overruns data"))
    else Ok (tag, slice data pos (pos + length), pos + length).
(** The packets that are yielded, and how the iteration ends.  Each packet
    takes a byte at least. *)
Fixpoint packets (fuel : nat) (data : bytes) (pos : Z) : list (Z * bytes) * res unit :=
  if blen data <=? pos then ([], Ok ())
  else
    match fuel with
    | O => ([], Raise out_of_fuel)
    | S fuel =>
        match packet_at data pos with
        | Ok (tag, body, pos) => let '(ps, r) := packets fuel data pos in ((tag, body) :: ps, r)
        | Raise e => ([], Raise e)
        end
    end.
Definition iter_packets (data : bytes) : list (Z * bytes) * res unit := packets (S (length data)) data 0.

(** ** SHA-1 ([hashlib.sha1]) *)

Module Sha1.
Import Sha256.
Definition rotl (n x : Z) : Z := Z.lor (w32 (Z.shiftl x n)) (Z.shiftr x (32 - n)).
(** The schedule, last word first. *)
Fixpoint sha1_schedule (n : nat) (rw : list Z) : list Z :=
  match n with
  | O => rw
  | S n =>
      let w i := nth i rw 0 in
      sha1_schedule n (rotl 1 (Z.lxor (Z.lxor (w 2%nat) (w 7%nat)) (Z.lxor (w 13%nat) (w 15%nat))) :: rw)
  end.
Definition sha1_round (st : list Z) (iw : nat * Z) : list Z :=
  match st with
  | [a; b; c; d; e] =>
      let '(i, w) := iw in
      let '(f, k) :=
        if Nat.ltb i 20 then (ch b c d, 1518500249)
        else if Nat.ltb i 40 then (Z.lxor b (Z.lxor c d), 1859775393)
        else if Nat.ltb i 60 then (maj b c d, 2400959708)
        else (Z.lxor b (Z.lxor c d), 3395469782) in
      [w32 (rotl 5 a + f + e + k + w); a; rotl 30 b; c; d]
  | _ => st
  end.
Definition sha1_block (st ws : list Z) : list Z :=
  let st' := foldl sha1_round st (zip (seq 0 80) (reverse (sha1_schedule 64 (reverse ws)))) in
  zip_with (fun x y => w32 (x + y)) st st'.
Fixpoint sha1_blocks (n : nat) (l : list Z) (st : list Z) : list Z :=
  match n with
  | O => st
  | S n => sha1_blocks n (drop 64 l) (sha1_block st (words_of 16 (take 64 l)))
  end.
Definition sha1_init : list Z := [1732584193; 4023233417; 2562383102; 271733878; 3285377520].
Definition sha1_digest (b : list Z) : list Z :=
  let p := pad b in sha1_blocks (length p / 64) p sha1_init ≫= be_bytes 4.
End Sha1.
Definition sha1_hex (b : bytes) : string := bytes_hex (of_bval <$> Sha1.sha1_digest (bval <$> b)).
Example sha1_abc : sha1_hex (text_of "abc") = "a9993e364706816aba3e25717850c26c9cd0d89d".
Proof. vm_compute. reflexivity. Qed.
Example sha1_empty : sha1_hex [] = "da39a3ee5e6b4b0d3255bfef95601890afd80709".
Proof. vm_compute. reflexivity. Qed.

(** ** Times *)

(** The date of day [z] of 1970, by eras of 400 years of 146097 days. *)
Definition civil_of_days (z : Z) : Z * Z * Z :=
  let z := z + 719468 in
  let era := z / 146097 in
  let doe := z mod 146097 in
  let yoe := (doe - doe / 1460 + doe / 36524 - doe / 146096) / 365 in
  let doy := doe - (365 * yoe + yoe / 4 - yoe / 100) in
  let mp := (5 * doy + 2) / 153 in
  let m := if mp <? 10 then mp + 3 else mp - 9 in
  (yoe + era * 400 + (if m <=? 2 then 1 else 0), m, doy - (153 * mp + 2) / 5 + 1).
(** [datetime.fromtimestamp(t, tz=timezone.utc).strftime("%Y-%m-%dT%H:%M:%SZ")]
    for 0 <= t < 2^32. *)
Definition utc_text (t : Z) : string :=
  let '(y, m, d) := civil_of_days (t / 86400) in
  zpad 4 y +:+ "-" +:+ zpad 2 m +:+ "-" +:+ zpad 2 d +:+ "T" +:+
  zpad 2 (t mod 86400 / 3600) +:+ ":" +:+ zpad 2 (t mod 3600 / 60) +:+ ":" +:+ zpad 2 (t mod 60) +:+ "Z".
Example utc_last : utc_text 4294967295 = "2106-02-07T06:28:15Z".
Proof. vm_compute. reflexivity. Qed.
Example utc_leap : utc_text 951782399 = "2000-02-28T23:59:59Z".
Proof. vm_compute. reflexivity. Qed.

(** ** Public keys *)

Definition oid_arc (st : list Z * Z) (b : byte) : list Z * Z :=
  let acc := Z.lor (Z.shiftl st.2 7) (Z.land (bval b) 127) in
  if Z.land (bval b) 128 =? 0 then (st.1 ++ [acc], 0) else (st.1, acc).
(** Bits after the last whole arc are left out. *)
Definition oid_str (value : bytes) : res string :=
  match value with
  | [] => Raise (KeyParseError "empty OID")
  | b :: rest =>
      let first := Z.min (bval b / 40) 2 in
      Ok (str_join "." (show_Z <$> first :: bval b - 40 * first :: (foldl oid_arc ([], 0) rest).1))
  end.
Definition mpi_bits (body : bytes) (pos : Z) : res Z :=
  if blen body <? pos + 2 then Raise (KeyParseError "truncated MPI") else unpack_from true 2 body pos.

Record pubkey := PubKey {
  pk_version : Z; pk_fingerprint : option string; pk_key_id : option string; pk_algorithm : string; pk_algorithm_id : Z;
  pk_capability : string; pk_category : string; pk_created : string; pk_bits : option Z; pk_curve : option string; pk_subkey : bool }.

(** The last, or first, 16 digits. *)
Definition last16 (s : string) : string := str_of (drop (String.length s - 16) (chars s)).
Definition first16 (s : string) : string := str_of (take 16 (chars s)).
(** [struct.pack(">H", n)] and [struct.pack(">I", n)]. *)
Definition pack_len (size n : Z) : res bytes :=
  if n <? 256 ^ size then Ok (enc_word true size n) else Raise (Custom "struct.error" "argument out of range").
(** The digest and the key id of a version 4, 5 or 6 key. *)
Definition fingerprint (version : Z) (body : bytes) : res (string * string) :=
  if version =? 4 then
    len ← pack_len 2 (blen body);
    let digest := sha1_hex ([x99] ++ len ++ body) in
    Ok (digest, last16 digest)
  else
    len ← pack_len 4 (blen body);
    let digest := sha256_hex ([if version =? 6 then x9b else x9a] ++ len ++ body) in
    Ok (digest, first16 digest).
(** The algorithm, where the key material starts, the fingerprint and the
    key id. *)
Definition key_header (version : Z) (body : bytes) : res (Z * Z * option string * option string) :=
  if version =? 3 then
    algo ← (if 7 <? blen body then byte_at body 7 else Ok (-1)); Ok (algo, 8, None, None)
  else if (version =? 4) || (version =? 5) || (version =? 6) then
    algo ← byte_at body 5;
    '(digest, key_id) ← fingerprint version body;
    Ok (algo, (if version =? 4 then 6 else 10), Some (upper digest), Some (upper key_id))
  else Raise (KeyParseError ("unsupported key packet version " +:+ show_Z version)).
Definition key_curve (body : bytes) (material : Z) : res string :=
  if blen body <=? material then Raise (KeyParseError "truncated curve OID")
  else
    olen ← byte_at body material;
    dotted ← oid_str (slice body (material + 1) (material + 1 + olen));
    Ok (default ("oid:" +:+ dotted) (dget dotted CURVE_OIDS)).
Definition parse_public_key_packet (tag : Z) (body : bytes) : res pubkey :=
  if blen body <? 6 then Raise (KeyParseError "public key packet too short")
  else
    version ← byte_at body 0;
    '(algo, material, fpr, key_id) ← key_header version body;
    created ← unpack_from true 4 body 1;
    let '(name, capability, category) :=
      default ("unknown (" +:+ show_Z algo +:+ ")", "unknown", "classical") (dget algo OPENPGP_ALGORITHMS) in
    bits ← (if bool_decide (algo ∈ [1; 2; 3; 16; 17]) then b ← mpi_bits body material; Ok (Some b) else Ok None);
    curve ← (if bool_decide (algo ∈ [18; 19; 22]) then c ← key_curve body material; Ok (Some c) else Ok None);
    Ok (PubKey version fpr key_id name algo capability category (utc_text created) bits curve (tag =? PKT_PUBLIC_SUBKEY)).

(** ** Transferable keys *)

(** A PEM key of apk has no version, no creation time and an OID. *)
Inductive key_kind := OpenPgp (k : pubkey) (uid : option string) | Spki (algorithm oid category : string) (bits : option Z) (curve : option string).
Record skey := SKey { sk_kind : key_kind; sk_fpr : option string; sk_subkeys : list pubkey; sk_signing : string }.

Definition drop_subkey (k : pubkey) : pubkey :=
  PubKey (pk_version k) (pk_fingerprint k) (pk_key_id k) (pk_algorithm k) (pk_algorithm_id k) (pk_capability k) (pk_category k) (pk_created k) (pk_bits k) (pk_curve k) false.
(** The keys read so far, newest first: the primary key, its user id and its
    subkeys in order. *)
Abbreviation open_key := (pubkey * option string * list pubkey)%type.
Definition key_packet (keys : list open_key) (p : Z * bytes) : res (list open_key) :=
  let '(tag, body) := p in
  if tag =? PKT_PUBLIC_KEY then k ← parse_public_key_packet tag body; Ok ((k, None, []) :: keys)
  else
    match keys with
    | [] => Ok []
    | (k, uid, subs) :: keys' =>
        if tag =? PKT_PUBLIC_SUBKEY then s ← parse_public_key_packet tag body; Ok ((k, uid, subs ++ [drop_subkey s]) :: keys')
        else if (tag =? PKT_USER_ID) && (match uid with None => true | Some _ => false end)
        then Ok ((k, Some (decode Utf8 body), subs) :: keys') else Ok keys
    end.
Definition can_sign (k : pubkey) : bool := bool_decide (pk_capability k ∈ ["sign"; "both"]).
Definition rank (category : string) : Z := default 0 (dget category PQC_RANK).
(** [max(..., key=rank)]: the first of the highest. *)
Definition higher (best : option string) (c : string) : option string :=
  match best with None => Some c | Some b => if rank b <? rank c then Some c else Some b end.
Definition signing_category (k : pubkey) (subs : list pubkey) : string :=
  default "classical" (foldl higher None (pk_category <$> List.filter can_sign (k :: subs))).
Definition close_key (o : open_key) : skey :=
  let '(k, uid, subs) := o in SKey (OpenPgp k uid) (pk_fingerprint k) subs (signing_category k subs).
Definition parse_openpgp_keys (data : bytes) : res (list skey) :=
  let '(ps, ended) := iter_packets data in
  keys ← foldM key_packet [] ps;
  _ ← ended;
  Ok (close_key <$> reverse keys).

(** ** ASCII armor *)

Definition ARMOR_BEGIN : string := "-----BEGIN PGP PUBLIC KEY BLOCK-----".
Definition AnyChar : re := RChr (fun _ => true).
Definition ARMOR_RE : re := RSeqs [RLit ARMOR_BEGIN; RGrp 1 (RStar false AnyChar); RLit "-----END PGP PUBLIC KEY BLOCK-----"].
(** The lines after the first blank one, when there is one. *)
Fixpoint after_blank (lines : list string) : option (list string) :=
  match lines with
  | [] => None
  | l :: lines => if nonempty l then after_blank lines else Some lines
  end.
Definition armor_body (block : string) : string :=
  let lines := strip <$> splitlines (strip_by (fun c => Ascii.eqb c "010" || Ascii.eqb c "013") block) in
  str_join EmptyString (List.filter (fun l => nonempty l && negb (starts_with "=" l)) (default lines (after_blank lines))).

Section Base64.
Context (binascii_error : string -> string).

Definition dearmor_block (m : mtch) : res bytes :=
  let body := armor_body (group_or 1 m) in
  match b64decode body with
  | Some b => Ok b
  | None => Raise (KeyParseError ("bad armor base64: " +:+ binascii_error body))
  end.
Definition dearmor (text : string) : res (list bytes) := mapM dearmor_block (re_finditer ARMOR_RE text).

Definition parse_key_blob (data : bytes) : res (list skey) :=
  match find_bytes (text_of ARMOR_BEGIN) data with
  | Some _ => blocks ← dearmor (decode AsciiC data); keys ← mapM parse_openpgp_keys blocks; Ok (concat keys)
  | None => parse_openpgp_keys data
  end.

(** ** PEM public keys *)

Definition SPKI_ALGORITHM_NAMES : list (string * (string * string)) := [
  ("1.2.840.113549.1.1.1", ("RSA", "classical")); ("1.2.840.10045.2.1", ("ECDSA", "classical")); ("1.3.101.112", ("Ed25519", "classical"));
  ("1.3.101.113", ("Ed448", "classical")); ("2.16.840.1.101.3.4.3.17", ("ML-DSA-44", "pure_pqc"));
  ("2.16.840.1.101.3.4.3.18", ("ML-DSA-65", "pure_pqc")); ("2.16.840.1.101.3.4.3.19", ("ML-DSA-87", "pure_pqc"))].
Definition SPKI_CURVES : list (string * string) :=
  [("1.2.840.10045.3.1.7", "NIST P-256"); ("1.3.132.0.34", "NIST P-384"); ("1.3.132.0.35", "NIST P-521")].
(** The tag, and where the value starts and ends. *)
Definition der_element (buf : bytes) (pos : Z) : res (Z * Z * Z) :=
  if blen buf <? pos + 2 then Raise (KeyParseError "truncated DER")
  else
    tag ← byte_at buf pos;
    ln ← byte_at buf (pos + 1);
    let pos := pos + 2 in
    '(ln, pos) ← (if Z.land ln 128 =? 0 then Ok (ln, pos)
                  else
                    let nb := Z.land ln 127 in
                    if (nb =? 0) || (4 <? nb) || (blen buf <? pos + nb) then Raise (KeyParseError "bad DER length")
                    else Ok (from_bytes (slice buf pos (pos + nb)), pos + nb));
    if blen buf <? pos + ln then Raise (KeyParseError "DER element overruns data") else Ok (tag, pos, pos + ln).
Definition PEM_RE : re := RSeqs [RLit "-----BEGIN "; ROpt (RLit "RSA "); RLit "PUBLIC KEY-----"; RGrp 1 (RStar false AnyChar); RLit "-----END"].
Definition is_zero (b : byte) : bool := Byte.eqb b x00.
Fixpoint lstrip_zeros (b : bytes) : bytes := match b with x :: t => if is_zero x then lstrip_zeros t else b | [] => [] end.
Definition modulus_bits (modulus : bytes) : Z :=
  let m := lstrip_zeros modulus in
  blen m * 8 - match m with b :: _ => 8 - bit_length (bval b) | [] => 0 end.
Definition spki_curve (der : bytes) (o_e a_e : Z) : res (option string) :=
  if o_e <? a_e then
    '(ptag, p_s, p_e) ← der_element der o_e;
    if ptag =? 6 then dotted ← oid_str (slice der p_s p_e); Ok (Some (default ("oid:" +:+ dotted) (dget dotted SPKI_CURVES))) else Ok None
  else Ok None.
Definition spki_bits (der : bytes) (a_e : Z) : res Z :=
  '(tag, b_s, _) ← der_element der a_e;
  if negb (tag =? 3) then Raise (KeyParseError "SPKI has no BIT STRING")
  else
    '(_, r_s, _) ← der_element der (b_s + 1);
    '(_, n_s, n_e) ← der_element der r_s;
    Ok (modulus_bits (slice der n_s n_e)).
Definition parse_spki (der : bytes) : res skey :=
  '(tag, s, spki_end) ← der_element der 0;
  if negb (tag =? 48) then Raise (KeyParseError "SPKI is not a SEQUENCE")
  else
    '(_, a_s, a_e) ← der_element der s;
    '(tag, o_s, o_e) ← der_element der a_s;
    if negb (tag =? 6) then Raise (KeyParseError "AlgorithmIdentifier has no OID")
    else
      oid ← oid_str (slice der o_s o_e);
      let '(name, category) := default ("oid:" +:+ oid, "classical") (dget oid SPKI_ALGORITHM_NAMES) in
      curve ← spki_curve der o_e a_e;
      bits ← (if String.eqb name "RSA" then b ← spki_bits der a_e; Ok (Some b) else Ok None);
      Ok (SKey (Spki name oid category bits curve) (Some (upper (sha256_hex (slice der 0 spki_end)))) [] category).
Definition parse_spki_pem (text : string) : res skey :=
  match re_search PEM_RE text with
  | None => Raise (KeyParseError "no PEM public key")
  | Some m =>
      let body := str_join EmptyString (words (group_or 1 m)) in
      match b64decode body with
      | Some der => parse_spki der
      | None => Raise (KeyParseError ("bad PEM base64: " +:+ binascii_error body))
      end
  end.
End Base64.

(** ** Packets read back *)

(** The ways to write the length of a packet: one, two or five octets of the
    new format; one, two or four of the old. *)
Inductive framing := New1 | New2 | New5 | Old1 | Old2 | Old4.
Definition old_size (f : framing) : Z := match f with Old1 => 1 | Old2 => 2 | _ => 4 end.
Definition is_new (f : framing) : bool := match f with New1 | New2 | New5 => true | _ => false end.
Definition header_byte (f : framing) (tag : Z) : Z :=
  if is_new f then 192 + tag else 128 + 4 * tag + match f with Old1 => 0 | Old2 => 1 | _ => 2 end.
Definition enc_length (f : framing) (len : Z) : bytes :=
  match f with
  | New1 => [of_bval len]
  | New2 => [of_bval (192 + (len - 192) / 256); of_bval ((len - 192) mod 256)]
  | New5 => xff :: enc_word true 4 len
  | _ => enc_word true (old_size f) len
  end.
Definition enc_packet (f : framing) (tag : Z) (body : bytes) : bytes := of_bval (header_byte f tag) :: enc_length f (blen body) ++ body.
(** The tags and lengths that a framing can carry. *)
Definition fits (f : framing) (tag len : Z) : Prop :=
  0 <= tag < (if is_new f then 64 else 16) /\
  match f with New1 => len < 192 | New2 => 192 <= len < 8384 | New5 => len < 256 ^ 4 | _ => len < 256 ^ old_size f end.
(** A last packet of the old format may leave its length out. *)
Definition enc_last (tag : Z) (body : bytes) : bytes := of_bval (128 + 4 * tag + 3) :: body.

Definition new_tag_b (tag : Z) : bool :=
  negb (Z.land (192 + tag) 128 =? 0) && negb (Z.land (192 + tag) 64 =? 0) && (Z.land (192 + tag) 63 =? tag).
Definition old_tag_b (tag lt : Z) : bool :=
  let h := 128 + 4 * tag + lt in
  negb (Z.land h 128 =? 0) && (Z.land h 64 =? 0) && (Z.land (Z.shiftr h 2) 15 =? tag) && (Z.land h 3 =? lt).
Lemma new_tag_ok tag : 0 <= tag < 64 -> new_tag_b tag = true.
Proof.
  intros H. assert (E : forallb new_tag_b (seqZ 0 64) = true) by (vm_compute; reflexivity).
  rewrite forallb_forall in E. apply E, list_elem_of_In, elem_of_seqZ. lia.
Qed.
Lemma old_tag_ok tag lt : 0 <= tag < 16 -> 0 <= lt < 4 -> old_tag_b tag lt = true.
Proof.
  intros H Hl. assert (E : forallb (fun t => forallb (old_tag_b t) (seqZ 0 4)) (seqZ 0 16) = true) by (vm_compute; reflexivity).
  rewrite forallb_forall in E. specialize (E tag). rewrite forallb_forall in E. apply E; apply list_elem_of_In, elem_of_seqZ; lia.
Qed.

Lemma new_length_enc data pos f len : is_new f = true -> fits f 0 len -> 0 <= len -> holds data pos (enc_length f len) ->
  new_length data pos = Ok (len, pos + blen (enc_length f len)).
Proof.
  intros Hf [_ Hfit] Hlen Hh. unfold new_length. pose proof (holds_nonneg _ _ _ Hh) as [Hp Hend].
  destruct f; try done; cbn [enc_length] in *.
  - change (blen [of_bval len]) with 1 in *. rewrite (proj2 (Z.leb_gt _ _)) by lia. rewrite (holds_byte _ _ _ _ Hh), of_bval_val by lia. cbn [mbind res_bind].
    by rewrite (proj2 (Z.ltb_lt _ _)).
  - set (a := 192 + (len - 192) / 256) in *. set (b := (len - 192) mod 256) in *. change (blen [of_bval a; of_bval b]) with 2 in *.
    assert (Ha : 192 <= a < 224) by (subst a; Z.div_mod_to_equations; lia). assert (Hb : 0 <= b < 256) by (apply Z.mod_pos_bound; lia).
    rewrite (proj2 (Z.leb_gt _ _)) by lia. rewrite (holds_byte _ _ _ _ Hh), of_bval_val by lia. cbn [mbind res_bind].
    rewrite (proj2 (Z.ltb_ge _ _)), (proj2 (Z.ltb_lt _ _)), (proj2 (Z.leb_gt _ _)) by lia.
    apply (holds_app _ _ [_]) in Hh as [_ Hh]. change (blen [of_bval a]) with 1 in Hh. rewrite (holds_byte _ _ _ _ Hh), of_bval_val by lia. cbn [mbind res_bind].
    do 2 f_equal. rewrite Z.shiftl_mul_pow2 by lia. subst a b. change (2 ^ 8) with 256. Z.div_mod_to_equations. lia.
  - rewrite blen_cons, blen_enc_word in * by lia. rewrite (proj2 (Z.leb_gt _ _)) by lia. rewrite (holds_byte _ _ _ _ Hh). cbn [mbind res_bind].
    change (bval xff) with 255. cbn [Z.ltb Z.compare Pos.compare Pos.compare_cont Z.eqb Pos.eqb]. rewrite (proj2 (Z.ltb_ge _ _)) by lia.
    apply (holds_app _ _ [_]) in Hh as [_ Hh]. change (blen [xff]) with 1 in Hh. by rewrite (unpack_from_word _ _ _ _ len).
Qed.
Lemma old_length_enc data pos f len tag lt : is_new f = false -> lt = match f with Old1 => 0 | Old2 => 1 | _ => 2 end -> 0 <= tag < 16 ->
  fits f tag len -> 0 <= len -> holds data pos (enc_length f len) ->
  old_length data (128 + 4 * tag + lt) pos = Ok (len, pos + blen (enc_length f len)).
Proof.
  intros Hf Hlt Htag [_ Hfit] Hlen Hh. unfold old_length. pose proof (holds_nonneg _ _ _ Hh) as [Hp Hend].
  pose proof (old_tag_ok tag lt Htag ltac:(destruct f; lia)) as Ht. unfold old_tag_b in Ht. repeat apply andb_true_iff in Ht as [Ht ?].
  match goal with H : (Z.land _ 3 =? _) = true |- _ => apply Z.eqb_eq in H; rewrite H end.
  assert (Hb : enc_length f len = enc_word true (old_size f) len) by by destruct f. rewrite Hb in *.
  assert (Hs : blen (enc_word true (old_size f) len) = old_size f) by (apply blen_enc_word; destruct f; done). rewrite Hs in *.
  assert (Hsz : (if lt =? 0 then 1 else if lt =? 1 then 2 else 4) = old_size f /\ (lt =? 3) = false) by (subst lt; destruct f; done). destruct Hsz as [-> ->].
  rewrite (proj2 (Z.ltb_ge _ _)) by lia. do 2 f_equal. rewrite <-Hs at 1. rewrite (holds_slice _ _ _ Hh). unfold enc_word. rewrite from_to_bytes, Z2Nat.id by (destruct f; done).
  apply Z.mod_small. destruct f; cbn [old_size] in *; lia.
Qed.

Lemma ok_third {A B} (a : A) (b : B) (x y : Z) : x = y -> Ok (a, b, x) = Ok (a, b, y).
Proof. by intros ->. Qed.
Lemma packet_at_enc data pos f tag body : fits f tag (blen body) -> holds data pos (enc_packet f tag body) ->
  packet_at data pos = Ok (tag, body, pos + blen (enc_packet f tag body)).
Proof.
  intros Hfit Hh. pose proof Hfit as [Htag _]. pose proof (blen_nonneg body) as Hlen. unfold packet_at, enc_packet in *.
  pose proof Hh as Hh'. apply (holds_app _ _ [_]) in Hh' as [_ Hh']. change (blen [of_bval (header_byte f tag)]) with 1 in Hh'.
  apply holds_app in Hh' as [Hl Hb]. pose proof (holds_nonneg _ _ _ Hb) as [_ Hend].
  assert (Hr : 0 <= header_byte f tag < 256) by (unfold header_byte; destruct f; cbn [is_new] in *; lia).
  rewrite (holds_byte _ _ _ _ Hh), of_bval_val by done. cbn [mbind res_bind]. rewrite blen_cons, blen_app.
  unfold header_byte in *. destruct (is_new f) eqn:Ef.
  - assert (Hfit0 : fits f 0 (blen body)) by (destruct Hfit; split; [rewrite Ef; lia | done]).
    pose proof (new_tag_ok tag Htag) as Ht. unfold new_tag_b in Ht. apply andb_true_iff in Ht as [[H1 H2]%andb_true_iff H3%Z.eqb_eq].
    apply negb_true_iff in H1 as ->. rewrite H2. cbv zeta iota. rewrite H3, (new_length_enc _ _ f (blen body)) by done.
    cbn [mbind res_bind]. rewrite (proj2 (Z.ltb_ge _ _)) by lia. rewrite (holds_slice _ _ _ Hb). apply ok_third. lia.
  - set (lt := match f with Old1 => 0 | Old2 => 1 | _ => 2 end) in *.
    pose proof (old_tag_ok tag lt Htag ltac:(subst lt; destruct f; lia)) as Ht. unfold old_tag_b in Ht.
    apply andb_true_iff in Ht as [[[H1 H2]%andb_true_iff H3%Z.eqb_eq]%andb_true_iff _].
    apply negb_true_iff in H1 as ->. rewrite H2. cbn [negb]. cbv zeta iota. rewrite H3, (old_length_enc _ _ f (blen body) tag lt) by done.
    cbn [mbind res_bind]. rewrite (proj2 (Z.ltb_ge _ _)) by lia. rewrite (holds_slice _ _ _ Hb). apply ok_third. lia.
Qed.
Lemma packet_at_last data pos tag body : 0 <= tag < 16 -> data = slice data 0 pos ++ enc_last tag body -> blen (slice data 0 pos) = pos ->
  packet_at data pos = Ok (tag, body, blen data).
Proof.
  intros Htag Hd Hp. assert (Hh : holds data pos (enc_last tag body)) by (exists (slice data 0 pos), []; by rewrite app_nil_r).
  assert (Hb : blen data = pos + 1 + blen body) by (rewrite Hd, blen_app, Hp; unfold enc_last; rewrite blen_cons; lia).
  pose proof (old_tag_ok tag 3 Htag ltac:(lia)) as Ht. unfold old_tag_b in Ht. apply andb_true_iff in Ht as [[[H1 H2]%andb_true_iff H3%Z.eqb_eq]%andb_true_iff H4%Z.eqb_eq].
  unfold packet_at, enc_last in *. rewrite (holds_byte _ _ _ _ Hh), of_bval_val by lia. cbn [mbind res_bind].
  apply negb_true_iff in H1 as ->. rewrite H2. cbn [negb]. cbv zeta iota. unfold old_length. rewrite H3, H4. cbn [Z.eqb Pos.eqb mbind res_bind].
  rewrite (proj2 (Z.ltb_ge _ _)) by lia. apply (holds_app _ _ [_]) in Hh as [_ Hh]. change (blen [of_bval (128 + 4 * tag + 3)]) with 1 in Hh.
  replace (pos + 1 + (blen data - (pos + 1))) with (pos + 1 + blen body) by lia. by rewrite (holds_slice _ _ _ Hh), Hb.
Qed.

Abbreviation packet_spec := (framing * Z * bytes)%type.
Definition enc_packets (ps : list packet_spec) : bytes := ps ≫= fun p => enc_packet p.1.1 p.1.2 p.2.
Definition enc_tail (tail : option (Z * bytes)) : bytes := match tail with Some (tag, body) => enc_last tag body | None => [] end.
Definition plain (ps : list packet_spec) (tail : option (Z * bytes)) : list (Z * bytes) := ((fun p => (p.1.2, p.2)) <$> ps) ++ match tail with Some t => [t] | None => [] end.

Lemma packets_done fuel data : packets fuel data (blen data) = ([], Ok ()).
Proof. destruct fuel; cbn [packets]; by rewrite Z.leb_refl. Qed.
Lemma packets_next fuel data pos : pos < blen data -> packets (S fuel) data pos =
  match packet_at data pos with
  | Ok (tag, body, pos) => let '(ps, r) := packets fuel data pos in ((tag, body) :: ps, r)
  | Raise e => ([], Raise e)
  end.
Proof. intros H. cbn [packets]. by rewrite (proj2 (Z.leb_gt _ _)). Qed.

Lemma packets_enc tail ps : Forall (fun p => fits p.1.1 p.1.2 (blen p.2)) ps -> match tail with Some (tag, _) => 0 <= tag < 16 | None => True end ->
  forall fuel data pre, data = pre ++ enc_packets ps ++ enc_tail tail -> (length ps + 1 < fuel)%nat ->
  packets fuel data (blen pre) = (plain ps tail, Ok ()).
Proof.
  intros Hps Htail. induction Hps as [|[[f tag] body] ps Hp Hps IH]; intros fuel data pre Hd Hf; (destruct fuel as [|fuel]; [lia|]).
  - cbn [enc_packets mbind list_bind app] in Hd. destruct tail as [[tag body]|]; cbn [enc_tail plain app fmap list_fmap] in *.
    + assert (Hs : slice data 0 (blen pre) = pre) by (rewrite Hd; apply (slice_app [] pre)).
      assert (Hl : blen pre < blen data) by (rewrite Hd, blen_app; unfold enc_last; rewrite blen_cons; pose proof (blen_nonneg body); lia).
      rewrite packets_next, (packet_at_last data (blen pre) tag body), packets_done by (done || by rewrite Hs). done.
    + rewrite app_nil_r in Hd. rewrite <-Hd. apply packets_done.
  - cbn [fst snd] in Hp. change (enc_packets ((f, tag, body) :: ps)) with (enc_packet f tag body ++ enc_packets ps) in Hd. rewrite <-!app_assoc in Hd.
    assert (Hh : holds data (blen pre) (enc_packet f tag body)) by (by exists pre, (enc_packets ps ++ enc_tail tail)).
    pose proof (holds_nonneg _ _ _ Hh) as [_ Hend]. unfold enc_packet at 1 in Hend. rewrite blen_cons in Hend. pose proof (blen_nonneg (enc_length f (blen body) ++ body)).
    rewrite packets_next, (packet_at_enc data _ f tag body Hp Hh), <-blen_app by lia.
    rewrite (IH fuel data (pre ++ enc_packet f tag body)); [done | by rewrite <-app_assoc | cbn [length] in Hf; lia].
Qed.
Lemma enc_length_pos f len : (0 < length (enc_length f len))%nat.
Proof. destruct f; try (cbn; lia); unfold enc_length, enc_word; rewrite length_to_bytes; cbn; lia. Qed.
Lemma enc_packets_length ps : (length ps <= length (enc_packets ps))%nat.
Proof.
  induction ps as [|p ps IH]; [done|]. change (enc_packets (p :: ps)) with (enc_packet p.1.1 p.1.2 p.2 ++ enc_packets ps).
  rewrite length_app. unfold enc_packet. cbn [length]. lia.
Qed.

(** C22: a keyring reads back to its packets.  Whatever framing each packet was
    written with (one, two or five length octets of the new format, one, two
    or four of the old), and with or without a last packet of undetermined
    length, the iteration yields the tags and bodies in order and ends without
    an error. *)
Theorem packets_roundtrip ps tail
    (Hps : Forall (fun p => fits p.1.1 p.1.2 (blen p.2)) ps) (Htail : match tail with Some (tag, _) => 0 <= tag < 16 | None => True end) :
  iter_packets (enc_packets ps ++ enc_tail tail) = (plain ps tail, Ok ()).
Proof.
  unfold iter_packets. pose proof (enc_packets_length ps) as Hl. destruct tail as [[tag body]|].
  - apply (packets_enc (Some (tag, body)) ps Hps Htail _ _ []); [done|]. rewrite length_app. unfold enc_tail, enc_last. cbn [length]. lia.
  - destruct ps as [|p ps]; [done|]. destruct (decide (length (enc_packets (p :: ps)) = length (p :: ps))) as [E|E].
    + exfalso. revert E. change (enc_packets (p :: ps)) with (enc_packet p.1.1 p.1.2 p.2 ++ enc_packets ps).
      pose proof (enc_packets_length ps). rewrite length_app. unfold enc_packet. cbn [length].
      pose proof (enc_length_pos p.1.1 (blen p.2)). rewrite length_app. lia.
    + apply (packets_enc None (p :: ps) Hps I _ _ []); [done|]. rewrite length_app. cbn [enc_tail length] in *. lia.
Qed.

(** ** Errors *)

Definition key_error (e : exn) : Prop := exn_class e = "KeyParseError".
Lemma key_byte_safe data pos : 0 <= pos < blen data -> safe key_error (fun b => 0 <= b < 256) (byte_at data pos).
Proof. intros H. destruct (byte_at_ok data pos H) as (z & -> & Hz). exact Hz. Qed.
Lemma unpack_from_ok big n data pos : 0 <= n -> 0 <= pos -> pos + n <= blen data -> exists z, unpack_from big n data pos = Ok z /\ 0 <= z < 256 ^ n.
Proof.
  intros Hn Hp He. unfold unpack_from, need. rewrite (proj2 (Z.ltb_ge _ _)) by lia. eexists. split; [reflexivity|]. unfold unpack.
  assert (Hl : blen (slice data pos (pos + n)) = n) by (rewrite slice_length; lia).
  destruct big.
  - pose proof (from_bytes_range (slice data pos (pos + n))) as H. by rewrite Hl in H.
  - pose proof (from_bytes_range (reverse (slice data pos (pos + n)))) as H.
    assert (Hr : blen (reverse (slice data pos (pos + n))) = n) by (rewrite <-Hl at 2; unfold blen; by rewrite length_reverse). by rewrite Hr in H.
Qed.

Definition body_after (data : bytes) (pos : Z) (lp : Z * Z) : Prop := 0 <= lp.1 /\ pos <= lp.2 <= blen data.
Lemma new_length_safe data pos : 0 <= pos -> safe key_error (body_after data pos) (new_length data pos).
Proof.
  intros Hp. unfold new_length. destruct (Z.leb_spec (blen data) pos); [done|].
  eapply safe_bind; [apply key_byte_safe; lia|]. intros b Hb. cbn beta in Hb.
  destruct (Z.ltb_spec b 192); [unfold body_after; cbn; lia|]. destruct (Z.ltb_spec b 224).
  - destruct (Z.leb_spec (blen data) (pos + 1)); [done|]. eapply safe_bind; [apply key_byte_safe; lia|]. intros b1 Hb1. cbn beta in Hb1.
    unfold body_after. cbn. rewrite Z.shiftl_mul_pow2 by lia. lia.
  - destruct (b =? 255); [|done]. destruct (Z.ltb_spec (blen data) (pos + 5)); [done|].
    destruct (unpack_from_ok true 4 data (pos + 1)) as (z & -> & Hz); [lia..|]. unfold body_after. cbn. lia.
Qed.
Lemma old_length_safe data hdr pos : 0 <= pos <= blen data -> safe key_error (body_after data pos) (old_length data hdr pos).
Proof.
  intros Hp. unfold old_length. destruct (_ =? 3); [unfold body_after; cbn; lia|].
  set (size := if _ =? 0 then 1 else _). assert (Hs : 1 <= size <= 4) by (subst size; destruct (_ =? 0); [lia|]; destruct (_ =? 1); lia).
  destruct (Z.ltb_spec (blen data) (pos + size)); [done|]. unfold body_after. cbn [safe fst snd].
  pose proof (from_bytes_range (slice data pos (pos + size))). lia.
Qed.
Lemma packet_at_safe data pos : 0 <= pos < blen data -> safe key_error (fun r => pos < r.2 <= blen data) (packet_at data pos).
Proof.
  intros Hp. unfold packet_at. eapply safe_bind; [apply key_byte_safe; lia|]. intros hdr _. destruct (_ =? 0); [done|].
  eapply (safe_bind _ (body_after data (pos + 1))).
  - destruct (negb _); [apply new_length_safe; lia | apply old_length_safe; lia].
  - intros [len p'] [Hl Hp']. cbn [fst snd] in *. destruct (Z.ltb_spec (blen data) (p' + len)); [done|]. cbn. lia.
Qed.
Lemma packets_safe data : forall fuel pos, 0 <= pos -> blen data - pos < Z.of_nat fuel -> safe key_error (fun _ => True) (packets fuel data pos).2.
Proof.
  induction fuel as [|fuel IH]; intros pos Hp Hf.
  - cbn [packets]. by rewrite (proj2 (Z.leb_le _ _)) by lia.
  - destruct (Z.ltb_spec pos (blen data)) as [Hlt|Hge]; [|cbn [packets]; by rewrite (proj2 (Z.leb_le _ _)) by lia].
    rewrite packets_next by done. pose proof (packet_at_safe data pos ltac:(lia)) as H.
    destruct (packet_at data pos) as [[[tag body] p']|e]; [|exact H]. cbn [safe snd] in H.
    specialize (IH p' ltac:(lia) ltac:(lia)). by destruct (packets fuel data p').
Qed.

(** What the parse of one key packet can raise: its own error, or the error
    of [struct.pack] for a body of more than 65535 bytes. *)
Definition key_packet_error (body : bytes) (e : exn) : Prop := key_error e \/ (exn_class e = "struct.error" /\ 65535 < blen body).

Lemma pack_len_safe size body : 2 <= size -> safe (key_packet_error body) (fun _ => True) (pack_len size (blen body)).
Proof.
  intros Hs. unfold pack_len. destruct (Z.ltb_spec (blen body) (256 ^ size)) as [|H]; [done|]. right. split; [done|].
  assert (256 ^ 2 <= 256 ^ size) by (apply Z.pow_le_mono_r; lia). lia.
Qed.
Lemma fingerprint_safe version body : safe (key_packet_error body) (fun _ => True) (fingerprint version body).
Proof. unfold fingerprint. destruct (version =? 4); (eapply safe_bind; [apply pack_len_safe; lia | done]). Qed.
Lemma oid_str_safe value : safe key_error (fun _ => True) (oid_str value).
Proof. by destruct value. Qed.
Lemma mpi_bits_safe body pos : 0 <= pos -> safe key_error (fun _ => True) (mpi_bits body pos).
Proof. intros Hp. unfold mpi_bits. destruct (Z.ltb_spec (blen body) (pos + 2)); [done|]. by destruct (unpack_from_ok true 2 body pos) as (z & -> & _); [lia..|]. Qed.
Lemma key_curve_safe body pos : 0 <= pos -> safe key_error (fun _ => True) (key_curve body pos).
Proof.
  intros Hp. unfold key_curve. destruct (Z.leb_spec (blen body) pos); [done|]. eapply safe_bind; [apply key_byte_safe; lia|]. intros olen _.
  eapply safe_bind; [apply oid_str_safe | done].
Qed.
Lemma key_header_safe version body : 6 <= blen body -> safe (key_packet_error body) (fun r => 0 <= r.1.1.2) (key_header version body).
Proof.
  intros Hb. unfold key_header. assert (Hw : forall pos, 0 <= pos < blen body -> safe (key_packet_error body) (fun _ => True) (byte_at body pos)).
  { intros pos Hp. eapply safe_mono; [by apply key_byte_safe | done | by left]. }
  destruct (version =? 3).
  - eapply (safe_bind _ (fun _ => True)); [destruct (Z.ltb_spec 7 (blen body)); [apply Hw; lia | done]|]. intros algo _. cbn. lia.
  - destruct (_ || _); [|by left]. eapply safe_bind; [apply Hw; lia|]. intros algo _. eapply safe_bind; [apply fingerprint_safe|].
    intros [digest key_id] _. cbn. destruct (version =? 4); lia.
Qed.
Lemma parse_key_safe tag body : safe (key_packet_error body) (fun _ => True) (parse_public_key_packet tag body).
Proof.
  unfold parse_public_key_packet. destruct (Z.ltb_spec (blen body) 6) as [|Hb]; [by left|].
  assert (Hk : forall A (P : A -> Prop) (m : res A), safe key_error P m -> safe (key_packet_error body) (fun _ => True) m).
  { intros A P m Hm. eapply safe_mono; [exact Hm | done | by left]. }
  eapply safe_bind; [eapply Hk, key_byte_safe; lia|]. intros version _. eapply safe_bind; [by apply key_header_safe|].
  intros [[[algo material] fpr] key_id] Hm. cbn [fst snd] in Hm.
  destruct (unpack_from_ok true 4 body 1) as (created & -> & _); [lia..|]. cbn [mbind res_bind].
  destruct (default _ _) as [[name capability] category].
  eapply (safe_bind _ (fun _ => True)); [destruct (bool_decide _); [eapply safe_bind; [by eapply Hk, mpi_bits_safe | done] | done]|]. intros bits _.
  eapply (safe_bind _ (fun _ => True)); [destruct (bool_decide _); [eapply safe_bind; [by eapply Hk, key_curve_safe | done] | done]|]. done.
Qed.
Definition key_tag (tag : Z) : bool := (tag =? PKT_PUBLIC_KEY) || (tag =? PKT_PUBLIC_SUBKEY).
Definition keyring_error (ps : list (Z * bytes)) (e : exn) : Prop :=
  key_error e \/ (exn_class e = "struct.error" /\ exists tag body, (tag, body) ∈ ps /\ key_tag tag = true /\ 65535 < blen body).
Lemma key_packet_safe ps keys p : p ∈ ps -> safe (keyring_error ps) (fun _ => True) (key_packet keys p).
Proof.
  destruct p as [tag body]. intros Hp. unfold key_packet.
  assert (Hk : key_tag tag = true -> safe (keyring_error ps) (fun _ => True) (parse_public_key_packet tag body)).
  { intros Ht. eapply safe_mono; [apply parse_key_safe | done|]. intros e [He|[He Hb]]; [by left|]. right. eauto 6. }
  destruct (tag =? PKT_PUBLIC_KEY) eqn:E6.
  - eapply safe_bind; [apply Hk; unfold key_tag; by rewrite E6 | done].
  - destruct keys as [|[[k uid] subs] keys]; [done|]. destruct (tag =? PKT_PUBLIC_SUBKEY) eqn:E14.
    + eapply safe_bind; [apply Hk; unfold key_tag; by rewrite E6, E14 | done].
    + by destruct (_ && _).
Qed.

(** ** Keys are grouped under their primary key *)

(** The packets up to the next primary key. *)
Fixpoint items (ps : list (Z * bytes)) : list (Z * bytes) :=
  match ps with
  | [] => []
  | p :: ps => if p.1 =? PKT_PUBLIC_KEY then [] else p :: items ps
  end.
(** The primary key packets, each with what follows it. *)
Fixpoint spans (ps : list (Z * bytes)) : list (bytes * list (Z * bytes)) :=
  match ps with
  | [] => []
  | p :: ps => if p.1 =? PKT_PUBLIC_KEY then (p.2, items ps) :: spans ps else spans ps
  end.
Definition subkey_of (p : Z * bytes) : res pubkey := s ← parse_public_key_packet PKT_PUBLIC_SUBKEY p.2; Ok (drop_subkey s).
Definition first_uid (its : list (Z * bytes)) : option string := (fun p : Z * bytes => decode Utf8 p.2) <$> List.find (fun p : Z * bytes => p.1 =? PKT_USER_ID) its.
Definition finish (o : open_key) (its : list (Z * bytes)) : res open_key :=
  let '(k, uid, subs) := o in
  more ← mapM subkey_of (List.filter (fun p => p.1 =? PKT_PUBLIC_SUBKEY) its);
  Ok (k, match uid with Some u => Some u | None => first_uid its end, subs ++ more).
(** The key of a primary packet: its first user id, and its subkeys in
    order. *)
Definition span_key (s : bytes * list (Z * bytes)) : res open_key := k ← parse_public_key_packet PKT_PUBLIC_KEY s.1; finish (k, None, []) s.2.

Lemma span_key_eq body its : span_key (body, its) = (k ← parse_public_key_packet PKT_PUBLIC_KEY body; finish (k, None, []) its).
Proof. done. Qed.
Lemma subkey_of_eq tag body : subkey_of (tag, body) = (s ← parse_public_key_packet PKT_PUBLIC_SUBKEY body; Ok (drop_subkey s)).
Proof. done. Qed.
Lemma first_uid_cons tag body its : first_uid ((tag, body) :: its) = if tag =? PKT_USER_ID then Some (decode Utf8 body) else first_uid its.
Proof. unfold first_uid. cbn [List.find fst]. by destruct (tag =? PKT_USER_ID). Qed.
Lemma keys_open ps : forall o keys,
  foldM key_packet (o :: keys) ps = (o ← finish o (items ps); rest ← mapM span_key (spans ps); Ok (reverse rest ++ o :: keys)).
Proof.
  induction ps as [|[tag body] ps IH]; intros [[k uid] subs] keys.
  - cbn. rewrite app_nil_r. by destruct uid.
  - cbn [foldM key_packet]. cbn [items spans fst snd]. destruct (Z.eqb_spec tag PKT_PUBLIC_KEY) as [->|H6].
    + unfold finish at 1. cbn [List.filter mapM mret res_ret mbind res_bind]. rewrite app_nil_r. cbn [mapM]. rewrite span_key_eq.
      destruct (parse_public_key_packet PKT_PUBLIC_KEY body) as [k'|e]; cbn [mbind res_bind]; [|done].
      rewrite IH. destruct (finish (k', None, []) (items ps)) as [o'|e]; cbn [mbind res_bind]; [|done].
      destruct (mapM span_key (spans ps)) as [rest|e]; cbn [mbind res_bind mret res_ret]; [|done]. rewrite reverse_cons, <-app_assoc. by destruct uid.
    + unfold finish. cbn [List.filter fst]. destruct (Z.eqb_spec tag PKT_PUBLIC_SUBKEY) as [->|H14].
      * cbn [mapM]. rewrite subkey_of_eq. destruct (parse_public_key_packet PKT_PUBLIC_SUBKEY body) as [s|e]; cbn [mbind res_bind]; [|done].
        rewrite IH. unfold finish. destruct (mapM subkey_of _) as [more|e]; cbn [mbind res_bind mret res_ret]; [|done]. by rewrite <-app_assoc.
      * destruct (tag =? PKT_USER_ID) eqn:E13; cbn [andb mbind res_bind].
        -- destruct uid as [u|]; cbn [mbind res_bind]; rewrite IH; unfold finish; [done|]. by rewrite first_uid_cons, E13.
        -- rewrite IH. unfold finish. destruct uid as [u|]; [done|]. by rewrite first_uid_cons, E13.
Qed.
Lemma keys_start ps : foldM key_packet [] ps = (rest ← mapM span_key (spans ps); Ok (reverse rest)).
Proof.
  induction ps as [|[tag body] ps IH]; [done|]. cbn [foldM key_packet]. cbn [spans fst snd]. destruct (Z.eqb_spec tag PKT_PUBLIC_KEY) as [->|H6]; [|exact IH].
  cbn [mapM]. rewrite span_key_eq. destruct (parse_public_key_packet PKT_PUBLIC_KEY body) as [k|e]; cbn [mbind res_bind]; [|done].
  rewrite keys_open. destruct (finish (k, None, []) (items ps)) as [o|e]; cbn [mbind res_bind]; [|done].
  destruct (mapM span_key (spans ps)) as [rest|e]; cbn [mbind res_bind mret res_ret]; [|done]. by rewrite reverse_cons.
Qed.

Lemma parse_openpgp_keys_eq data :
  parse_openpgp_keys data = (keys ← mapM span_key (spans (iter_packets data).1); _ ← (iter_packets data).2; Ok (close_key <$> keys)).
Proof.
  unfold parse_openpgp_keys. destruct (iter_packets data) as [ps ended]. cbn [fst snd]. rewrite keys_start.
  destruct (mapM span_key (spans ps)) as [rest|e]; cbn [mbind res_bind]; [|done]. by rewrite reverse_involutive.
Qed.
Lemma parse_openpgp_keys_safe data : safe (keyring_error (iter_packets data).1) (fun _ => True) (parse_openpgp_keys data).
Proof.
  assert (Hend : safe key_error (fun _ => True) (iter_packets data).2) by (apply packets_safe; unfold blen; lia).
  unfold parse_openpgp_keys. destruct (iter_packets data) as [ps ended]. cbn [fst snd] in *.
  eapply safe_bind; [apply (safe_foldM _ (fun _ => True)); [done|]; intros keys p Hp _; by apply key_packet_safe|]. intros keys _.
  eapply safe_bind; [eapply safe_mono; [exact Hend | done | by left] | done].
Qed.

(** C37: a keyring is read as its primary keys, each with the first user id
    and all the subkeys that follow it before the next primary key, in order;
    packets before the first primary key are passed over; the first packet
    that cannot be read ends the reading.  It ends on every byte string, and
    raises only the module's own error, apart from the [struct.error] of a key
    packet of more than 65535 bytes. *)
Theorem parse_openpgp_keys_spec data :
  parse_openpgp_keys data = (keys ← mapM span_key (spans (iter_packets data).1); _ ← (iter_packets data).2; Ok (close_key <$> keys)) /\
  safe (keyring_error (iter_packets data).1) (fun _ => True) (parse_openpgp_keys data).
Proof. split; [apply parse_openpgp_keys_eq | apply parse_openpgp_keys_safe]. Qed.

(** The error that is not the module's own. *)
Example large_key_raises : parse_public_key_packet PKT_PUBLIC_KEY ([x04; x00; x00; x00; x00; x01] ++ replicate (Z.to_nat 65536) x00) =
  Raise (Custom "struct.error" "argument out of range").
Proof. vm_compute. reflexivity. Qed.

(** ** Witnesses *)

(** An Ed25519 key with a user id and an ML-KEM subkey. *)
Definition sample_key_packets : list packet_spec := [
  (Old2, 6, [x04; x60; x00; x00; x00; x1b; x2a]); (New1, 13, text_of "build@example.org"); (New5, 14, [x04; x60; x00; x00; x00; x23; x2a])].
Lemma packets_roundtrip_witness :
  iter_packets (enc_packets sample_key_packets ++ enc_tail (Some (2, [x04; x13]))) = (plain sample_key_packets (Some (2, [x04; x13])), Ok ()).
Proof.
  apply (packets_roundtrip sample_key_packets (Some (2, [x04; x13]))); [|lia].
  repeat apply Forall_cons_2; [..|apply Forall_nil_2]; (split; [cbn; lia | vm_compute; split; congruence || reflexivity]).
Defined.
Example sample_key_read : (fun k => (sk_signing k, pk_algorithm <$> sk_subkeys k)) <$> match parse_openpgp_keys (enc_packets sample_key_packets) with Ok l => l | Raise _ => [] end =
  [("classical"%string, ["ML-KEM-768+X25519"%string])].
Proof. vm_compute. reflexivity. Qed.
