(* ===== verification/Signing.v ===== *)
(** * Package-signing keys: the trust stores ([detect/protocols_signing.py], second half)

    Where each package manager keeps the keys it trusts, and the inventory of
    those keys, one entry for each fingerprint. *)

From stdpp Require Import sets.
From S2P Require Import Prelude PyStr PyDict PyVal PyRe PyPath PyBytes HostPath Der RpmHeader RpmBlobs Packages Elf Pgp.
Open Scope Z_scope.

(** ** Regular expressions *)

(** [re.split(r, s)] and [re.sub(r, f, s)] for an expression that does not
    match the empty text: the pieces between the matches, and the matches. *)
Fixpoint cut_chars (r : re) (left acc : list ascii) (skip : nat) (l : list ascii) : list (list ascii) * list mtch :=
  match l with
  | [] => ([reverse acc], [])
  | c :: l' =>
      match skip with
      | S k => cut_chars r (c :: left) acc k l'
      | O =>
          let p0 := Pos left l [] in
          match run r p0 Some with
          | Some p => let '(ps, ms) := cut_chars r (c :: left) [] (length (consumed p0 p) - 1) l' in (reverse acc :: ps, mk_match p0 p :: ms)
          | None => cut_chars r (c :: left) (c :: acc) 0 l'
          end
      end
  end.
Definition re_split (r : re) (s : string) : list string := str_of <$> (cut_chars r [] [] 0 (chars s)).1.
Fixpoint weave (ps : list (list ascii)) (ms : list string) : string :=
  match ps, ms with
  | p :: ps, m :: ms => str_of p +:+ m +:+ weave ps ms
  | ps, _ => str_of (concat ps)
  end.
Definition re_sub (r : re) (f : mtch -> string) (s : string) : string :=
  let '(ps, ms) := cut_chars r [] [] 0 (chars s) in weave ps (f <$> ms).

(** ** The host *)

Record sign_host := SignHost {
  sg_pkg : pkg_host;
  sg_glob : string -> string -> list string;      (* Path(d).glob("*.repo") *)
  sg_iterdir : string -> list string;             (* safe_iterdir *)
  sg_size : string -> res Z; sg_bytes : string -> res bytes;
  sg_text : string -> res string;                 (* read_text(errors="replace") *)
  sg_machine : string; sg_tree_arch : string;
  sg_binascii : string -> string }.               (* the text of a binascii.Error *)

(** The keys of a source, or why there are none. *)
Record item := Item { it_origin : string; it_source : string; it_result : exn + list skey }.

Section Host.
Context (s : sign_host).
Definition ph : pkg_host := sg_pkg s.
Definition prefix : string := host_prefix (ph_prefix ph).

Definition host (p : string) : string := if nonempty prefix then in_tree (ph_fs ph) (ph_prefix ph) (prefix +:+ p) else py_path p.
Definition tree (p : string) : string := in_tree (ph_fs ph) (ph_prefix ph) p.
Definition READ_LIMIT : Z := 16 * 1024 * 1024.
Definition read (path : string) : res bytes :=
  let path := tree path in
  size ← sg_size s path;
  if READ_LIMIT <? size then Raise (KeyParseError (path +:+ " larger than " +:+ show_Z READ_LIMIT +:+ " bytes; skipped")) else sg_bytes s path.

Definition source_error (e : exn) : bool := is_key_error e || is_class "OSError" e.
Definition file_source (origin : string) (parse : bytes -> res (list skey)) (f : string) : res item :=
  catch source_error (data ← read f; keys ← parse data; Ok (Item origin f (inr keys))) (fun e => Ok (Item origin f (inl e))).
Definition file_sources (origin : string) (files : list string) : res (list item) := mapM (file_source origin (parse_key_blob (sg_binascii s))) files.
Definition sorted_glob (d pattern : string) : list string := py_sorted str_lt (sg_glob s d pattern).
(** A text that cannot be read is passed over. *)
Definition text_or_none (f : string) : res (option string) := catch (is_class "OSError") (t ← sg_text s (tree f); Ok (Some t)) (fun _ => Ok None).

(** *** rpm *)

Definition RPMTAG_NAME : Z := 1000.
Definition RPMTAG_DESCRIPTION : Z := 1005.
Definition header_string (blob : bytes) (base dl : Z) (tags : list Z) (out : list (Z * string)) (e : index_entry) : list (Z * string) :=
  if bool_decide (ie_tag e ∈ tags) && bool_decide (ie_type e ∈ [6; 8; 9]) && (ie_offset e <? dl) then
    let start := base + ie_offset e in
    match find_nul (slice blob start (base + dl)) with
    | Some n => dset (ie_tag e) (decode Utf8 (slice blob start (start + n))) out
    | None => out
    end
  else out.
Definition rpm_header_strings (blob : bytes) (tags : list Z) : res (list (Z * string)) :=
  if blen blob <? 8 then Raise (KeyParseError "rpm header blob too short")
  else
    let il := unpack true blob 4 0 in
    let dl := unpack true blob 4 4 in
    let base := 8 + 16 * il in
    if (il =? 0) || (blen blob <? base + dl) then Raise (KeyParseError "rpm header blob truncated")
    else Ok (foldl (header_string blob base dl tags) [] (index_entries (slice blob 8 base) il)).
Definition pubkey_text (blob : bytes) : res (option string) :=
  fields ← rpm_header_strings blob [RPMTAG_NAME; RPMTAG_DESCRIPTION];
  Ok (if bool_decide (dget RPMTAG_NAME fields = Some "gpg-pubkey") then dget RPMTAG_DESCRIPTION fields else None).
Definition collect (acc : list bytes) (blob : bytes) : res (list bytes) := Ok (acc ++ [blob]).
Definition pubkey_blobs (db : rpmdb) : res (list bytes) :=
  let db_file := path_join (db_local db) (RPMDB_FILE_BY_BACKEND (db_backend db)) in
  match db_backend db with
  | Sqlite => fetch_rpmdb_sqlite ph db_file (Some ["gpg-pubkey"])
  | b =>
      hd ← ph_open ph db_file;
      size ← h_size hd;
      match b with
      | Ndb => iter_ndb_blobs (h_pread hd) collect (ph_zlib ph) size []
      | _ => iter_bdb_hash_values (h_pread hd) collect size []
      end
  end.
Definition rpmdb_pubkey_texts (db : rpmdb) : res (list string) :=
  blobs ← pubkey_blobs db; texts ← mapM pubkey_text blobs; Ok (omap id texts).
Definition rpm_cli_pubkey_texts (db : option rpmdb) : res (list string) :=
  let '(rc, out) := ph_run ph (rpm_argv ph db ["-q"; "gpg-pubkey"; "--queryformat"; "%{DESCRIPTION}\n"]) in
  if negb (rc =? 0) && negb (contains "-----BEGIN PGP" out) then Raise (KeyParseError ("rpm -q gpg-pubkey failed (rc=" +:+ show_Z rc +:+ ")"))
  else Ok (m_text <$> re_finditer ARMOR_RE out).
Definition rpmdb_error (e : exn) : bool := is_class "RpmdbError" e || source_error e.
(** [t.encode("ascii", "replace")]: a question mark for each other
    character. *)
Definition ascii_bytes (t : string) : bytes :=
  omap (fun c : ascii => if (code c <? 128)%N then Some (of_bval (Z.of_N (code c))) else if is_continuation c then None else Some (of_bval 63)) (chars t).
(** The keys of the texts that can be read. *)
Definition text_keys (keys : list skey) (t : string) : res (list skey) :=
  catch is_key_error (ks ← parse_key_blob (sg_binascii s) (ascii_bytes t); Ok (keys ++ ks)) (fun _ => Ok keys).
(** The texts and how they were read, or the source that failed. *)
Definition rpm_texts (db : option rpmdb) : res (item + list string * string) :=
  let failed e := inl (Item "rpmdb" "rpm database" (inl e)) in
  catch rpmdb_error
    (match db with
     | None => Raise (RpmdbError "no rpm database found")
     | Some d => texts ← rpmdb_pubkey_texts d; Ok (inr (texts, "rpmdb-" +:+ backend_name (db_backend d)))
     end)
    (fun e =>
       if nonempty prefix && (match db with None => true | Some _ => false end) then Ok (failed e)
       else catch is_key_error (texts ← rpm_cli_pubkey_texts db; Ok (inr (texts, "rpm-cli"))) (fun e2 => Ok (failed e2))).
Definition rpm_sources : res (list item) :=
  let db := locate_rpmdb ph in
  found ← rpm_texts db;
  match found with
  | inl it => Ok [it]
  | inr (texts, method) =>
      keys ← foldM text_keys [] texts;
      Ok [Item "rpmdb" (match db with Some d => db_dir d | None => "rpm" end +:+ " (" +:+ method +:+ ")") (inr keys)]
  end.

(** *** Repositories *)

Definition REPO_DIRS : list string := ["/etc/yum.repos.d"; "/etc/zypp/repos.d"].
Definition SECTION_LINE : re := RSeqs [Bol; RStar true Space; RLit "["; RPlus (NotSet "]"); RLit "]"; RStar true Space; Eol].
Definition VARIABLE : re := RSeqs [RLit "$"; ROpt (RLit "{"); RGrp 1 (RPlus (RChr is_word)); ROpt (RLit "}")].
Definition scanned_arch : string :=
  if nonempty (offline_root (ph_prefix ph)) then (if String.eqb (sg_tree_arch s) "unknown" then EmptyString else sg_tree_arch s) else sg_machine s.
Definition repo_vars (version : string) : list (string * string) :=
  [("releasever", version); ("releasever_major", before "." version)] ++
  (if nonempty scanned_arch then [("basearch", scanned_arch); ("arch", scanned_arch)] else []).
Definition section_fields (section : string) : list (string * string) :=
  foldl (fun d line => match cut "=" line with Some (k, v) => dset (lower (strip k)) (strip v) d | None => d end) [] (splitlines section).
Definition set_last {A} `{EqDecision A} (l : list A) (x : A) : list A := if bool_decide (x ∈ l) then l else l ++ [x].
Definition section_keys (vars : list (string * string)) (found : list string) (section : string) : list string :=
  let kv := section_fields section in
  if negb (bool_decide (strip (default "1" (dget "enabled" kv)) ∈ ["1"; "true"; "yes"])) then found
  else
    let urls := List.filter (starts_with "file://") (re_split_class (fun c => is_space c || Ascii.eqb c ",") (default EmptyString (dget "gpgkey" kv))) in
    foldl set_last found ((fun u => re_sub VARIABLE (fun m => default "*" (dget (group_or 1 m) vars)) (remove_prefix "file://" u)) <$> urls).
Definition repo_file_keys (vars : list (string * string)) (found : list string) (repo : string) : res (list string) :=
  text ← text_or_none repo;
  Ok (match text with None => found | Some t => foldl (section_keys vars) found (drop 1 (re_split SECTION_LINE t)) end).
Definition repo_dir_keys (vars : list (string * string)) (found : list string) (d : string) : res (list string) :=
  let root := host d in
  if negb (ph_is_dir ph root) then Ok found else foldM (repo_file_keys vars) found (sorted_glob root "*.repo").
Definition repo_key_files (version : string) : res (list string) := foldM (repo_dir_keys (repo_vars version)) [] REPO_DIRS.
Definition MISSING : exn := KeyParseError "referenced by an enabled repo but missing".
(** The files of a pattern, or the item that says that there is none. *)
Definition expand_pattern (pattern : string) : item + list string :=
  let f := host pattern in
  if has_magic pattern then inr (host <$> host_glob (ph_fs ph) (ph_prefix ph) pattern)
  else if ph_is_file ph f then inr [f]
  else inl (Item "repo-gpgkey" f (inl MISSING)).
Definition rpm_family_sources (version : string) : res (list item) :=
  gen ← rpm_sources;
  patterns ← repo_key_files version;
  let found := expand_pattern <$> patterns in
  more ← file_sources "repo-gpgkey" (concat (omap (fun x => match x with inr fs => Some fs | inl _ => None end) found));
  Ok (gen ++ omap (fun x => match x with inl it => Some it | inr _ => None end) found ++ more).

(** *** apt *)

Definition APT_SOURCE_DIRS : list string := ["/etc/apt/sources.list"; "/etc/apt/sources.list.d"].
(** [Path.suffix]: from the last dot that is neither first nor last. *)
Definition suffix (p : string) : string :=
  let name := basename p in
  if contains "." name then
    let ext := after_last "." name in
    if nonempty ext && negb (String.eqb name ("." +:+ ext)) then "." +:+ ext else EmptyString
  else EmptyString.
Definition apt_files (d : string) : list string :=
  let p := host d in
  if ph_is_file ph p then [p] else if ph_is_dir ph p then sorted_glob p "*.list" ++ sorted_glob p "*.sources" else [].
Definition blank_start (c : ascii) : bool := char_in (" " +:+ tab) c.
Definition SIGNED_BY : re :=
  RSeqs [Bol; RLitI "Signed-By:"; RGrp 1 (RSeq (RStar true Dot) (RStar true (RSeqs [RLit newline; RChr blank_start; RStar true Dot])))].
Definition SIGNED_BY_OPTION : re := RSeqs [RLit "signed-by="; RGrp 1 (RPlus (RChr (fun c => negb (is_space c || Ascii.eqb c "]"))))].
(** A continuation line of an inline key: one blank less, and a lone dot is an
    empty line. *)
Definition inline_line (line : string) : string :=
  let l := match chars line with c :: t => if blank_start c then str_of t else line | [] => line end in
  if String.eqb (strip l) "." then EmptyString else l.
(** The paths, and the inline keys. *)
Definition stanza_keys (st : list string * list string) (stanza : string) : list string * list string :=
  match re_search SIGNED_BY stanza with
  | None => st
  | Some m =>
      let value := group_or 1 m in
      if contains "BEGIN PGP PUBLIC KEY BLOCK" value then (st.1, st.2 ++ [str_join newline (inline_line <$> splitlines value)])
      else (st.1 ++ List.filter (starts_with "/") (words value), st.2)
  end.
Definition apt_file_keys (st : list string * list string) (f : string) : res (list string * list string) :=
  text ← text_or_none f;
  Ok (match text with
      | None => st
      | Some t =>
          if String.eqb (suffix f) ".sources" then foldl stanza_keys st (split_blank t)
          else (st.1 ++ (re_finditer SIGNED_BY_OPTION t ≫= fun m => List.filter (starts_with "/") (split "," (group_or 1 m))), st.2)
      end).
Definition apt_signed_by : res (list string * list string) :=
  st ← foldM apt_file_keys ([], []) (APT_SOURCE_DIRS ≫= apt_files);
  Ok (foldl set_last [] st.1, st.2).
Definition inline_source (it : nat * string) : res item :=
  let src := "inline #" +:+ show_nat (S it.1) in
  catch is_key_error (keys ← parse_key_blob (sg_binascii s) (text_of it.2); Ok (Item "apt-signed-by" src (inr keys))) (fun e => Ok (Item "apt-signed-by" src (inl e))).
Definition apt_trusted : list string :=
  let main := host "/etc/apt/trusted.gpg" in
  let d := host "/etc/apt/trusted.gpg.d" in
  (if ph_is_file ph main then [main] else []) ++
  (if ph_is_dir ph d then py_sorted str_lt (List.filter (fun p => bool_decide (suffix p ∈ [".gpg"; ".asc"])) (sg_iterdir s d)) else []).
Definition apt_sources : res (list item) :=
  trusted ← file_sources "apt-trusted" apt_trusted;
  '(paths, inline) ← apt_signed_by;
  signed ← file_sources "apt-signed-by" (host <$> paths);
  inl_ ← mapM inline_source (imap (fun i t => (i, t)) inline);
  Ok (trusted ++ signed ++ inl_).

(** *** pacman and apk *)

Definition trusted_line (line : string) : option string :=
  if nonempty (strip line) && negb (starts_with "#" line) then Some (upper (strip (before ":" line))) else None.
Definition trusted_file (trusted : list string) (f : string) : res (list string) :=
  text ← text_or_none f; Ok (match text with None => trusted | Some t => trusted ++ omap trusted_line (splitlines t) end).
Definition only_trusted (trusted : list string) (it : item) : item :=
  match it_result it, trusted with
  | inr keys, _ :: _ => Item (it_origin it) (it_source it) (inr (List.filter (fun k => bool_decide (default EmptyString (sk_fpr k) ∈ trusted)) keys))
  | _, _ => it
  end.
Definition pacman_sources : res (list item) :=
  let root := host "/usr/share/pacman/keyrings" in
  if negb (ph_is_dir ph root) then Ok []
  else
    trusted ← foldM trusted_file [] (sg_glob s root "*-trusted");
    items ← file_sources "pacman-keyring" (sorted_glob root "*.gpg");
    Ok (List.map (only_trusted trusted) items).
Definition apk_key (data : bytes) : res (list skey) := k ← parse_spki_pem (sg_binascii s) (decode AsciiC data); Ok [k].
Definition apk_sources : res (list item) :=
  let root := host "/etc/apk/keys" in
  if negb (ph_is_dir ph root) then Ok [] else mapM (file_source "apk-keys" apk_key) (sorted_glob root "*.pub").

(** ** The inventory *)

Definition strip_prefix (p : string) : string := if nonempty prefix && starts_with prefix p then remove_prefix prefix p else p.
Definition shown_source (src : string) : string := if starts_with "/" src then strip_prefix (py_path src) else src.

Record entry := Entry { en_key : skey; en_origins : list (string * string) }.
Record source := Source { so_origin : string; so_source : string; so_keys : Z; so_error : option string }.
(** The text of an exception. *)
Definition exn_str (e : exn) : string := match e with Custom _ msg | ValueError msg => msg | _ => EmptyString end.
Record progress := Progress { pg_by_fp : list (string * entry); pg_unkeyed : list entry; pg_sources : list source }.
Definition add_key (origin src : string) (p : progress) (k : skey) : progress :=
  match sk_fpr k with
  | None => Progress (pg_by_fp p) (pg_unkeyed p ++ [Entry k [(origin, src)]]) (pg_sources p)
  | Some fp =>
      let e := default (Entry k []) (dget fp (pg_by_fp p)) in
      Progress (dset fp (Entry (en_key e) (en_origins e ++ [(origin, src)])) (pg_by_fp p)) (pg_unkeyed p) (pg_sources p)
  end.
Definition add_item (p : progress) (it : item) : progress :=
  let src := shown_source (it_source it) in
  match it_result it with
  | inl e => Progress (pg_by_fp p) (pg_unkeyed p) (pg_sources p ++ [Source (it_origin it) src 0 (Some (exn_str e))])
  | inr keys =>
      foldl (add_key (it_origin it) src)
        (Progress (pg_by_fp p) (pg_unkeyed p) (pg_sources p ++ [Source (it_origin it) src (Z.of_nat (length keys)) None])) keys
  end.
Definition fp_lt (a b : string * entry) : bool := str_lt a.1 b.1.
Definition entries (p : progress) : list entry := (py_sorted fp_lt (pg_by_fp p)).*2 ++ pg_unkeyed p.
Definition category_count (c : string) (es : list entry) : Z := Z.of_nat (length (List.filter (fun e => String.eqb (sk_signing (en_key e)) c) es)).
Record signing_report := SigningReport {
  sr_sources : list source; sr_keys : list entry; sr_classical : Z; sr_hybrid : Z; sr_pure : Z; sr_all_classical : bool }.
Definition report_of (p : progress) : signing_report :=
  let es := entries p in
  let h := category_count "hybrid" es in
  let q := category_count "pure_pqc" es in
  SigningReport (pg_sources p) es (category_count "classical" es) h q (negb (bool_decide (length es = 0%nat)) && (h + q =? 0)).

Definition family_sources (family version : string) : option (res (list item)) :=
  if bool_decide (family ∈ ["rhel"; "suse"]) then Some (rpm_family_sources version)
  else if String.eqb family "debian" then Some apt_sources
  else if String.eqb family "arch" then Some pacman_sources
  else if String.eqb family "alpine" then Some apk_sources else None.
(** [inl] is the reason why there is no inventory. *)
Definition scan_signing_keys (family version : string) : res (string + signing_report) :=
  match family_sources family version with
  | None => Ok (inl ("no package-signing key source known for family=" +:+ family))
  | Some gen =>
      items ← gen;
      let p := foldl add_item (Progress [] [] []) items in
      Ok (match pg_sources p with [] => inl "no package-signing trust store found" | _ => inr (report_of p) end)
  end.

(** ** The report *)

Definition opt_field {A} (key : string) (f : A -> value) (o : option A) : list (string * value) := match o with Some a => [(key, f a)] | None => [] end.
Definition pubkey_fields (k : pubkey) : list (string * value) :=
  [("version", VInt (pk_version k))] ++
  (if pk_version k =? 3 then [("fingerprint", of_ostr (pk_fingerprint k)); ("key_id", of_ostr (pk_key_id k))]
   else [("key_id", of_ostr (pk_key_id k)); ("fingerprint", of_ostr (pk_fingerprint k))]) ++
  [("algorithm", VStr (pk_algorithm k)); ("algorithm_id", VInt (pk_algorithm_id k)); ("capability", VStr (pk_capability k));
   ("pqc_category", VStr (pk_category k)); ("created", VStr (pk_created k))] ++
  opt_field "bits" VInt (pk_bits k) ++ opt_field "curve" VStr (pk_curve k).
Definition subkeys_field (k : skey) : string * value := ("subkeys", VList ((fun p => VDict (pubkey_fields p)) <$> sk_subkeys k)).
Definition key_fields (k : skey) : list (string * value) :=
  match sk_kind k with
  | OpenPgp p uid => pubkey_fields p ++ [subkeys_field k] ++ opt_field "uid" VStr uid ++ [("signing_pqc_category", VStr (sk_signing k))]
  | Spki algorithm oid category bits curve =>
      [("version", VNone); ("algorithm", VStr algorithm); ("algorithm_oid", VStr oid); ("capability", VStr "sign"); ("pqc_category", VStr category);
       ("signing_pqc_category", VStr (sk_signing k)); ("fingerprint", of_ostr (sk_fpr k)); ("key_id", VNone); subkeys_field k] ++
      opt_field "curve" VStr curve ++ opt_field "bits" VInt bits
  end.
Definition entry_value (e : entry) : value :=
  VDict (key_fields (en_key e) ++ [("origins", VList ((fun o => VDict [("origin", VStr o.1); ("source", VStr o.2)]) <$> en_origins e))]).
Definition source_value (x : source) : value :=
  VDict ([("origin", VStr (so_origin x)); ("source", VStr (so_source x)); ("keys", VInt (so_keys x))] ++ opt_field "error" VStr (so_error x)).
Definition signing_value (family : string) (r : string + signing_report) : list (string * value) :=
  match r with
  | inl reason => [("available", VBool false); ("family", VStr family); ("reason", VStr reason)]
  | inr r =>
      dupdate [("available", VBool true); ("family", VStr family); ("sources", VList (source_value <$> sr_sources r)); ("keys", VList (entry_value <$> sr_keys r));
        ("summary", VDict [("total", VInt (Z.of_nat (length (sr_keys r)))); ("classical", VInt (sr_classical r)); ("hybrid", VInt (sr_hybrid r));
           ("pure_pqc", VInt (sr_pure r)); ("all_classical", VBool (sr_all_classical r))])] (default [] (ph_note ph))
  end.
End Host.

(** ** One entry for each fingerprint *)

(** A key as it occurs in a source. *)
Abbreviation occurrence := ((string * string) * skey)%type.
Definition occurrences_of (s : sign_host) (it : item) : list occurrence :=
  match it_result it with inr keys => (fun k => ((it_origin it, shown_source s (it_source it)), k)) <$> keys | inl _ => [] end.
Definition all_occurrences (s : sign_host) (items : list item) : list occurrence := items ≫= occurrences_of s.
Definition with_fp (fp : string) (os : list occurrence) : list occurrence := filter (fun o => sk_fpr o.2 = Some fp) os.
Definition without_fp (os : list occurrence) : list occurrence := filter (fun o => sk_fpr o.2 = None) os.
(** The first key with the fingerprint, and every place it is in. *)
Definition entry_of (os : list occurrence) : option entry := match os with [] => None | o :: _ => Some (Entry o.2 os.*1) end.
Definition unkeyed_entry (o : occurrence) : entry := Entry o.2 [o.1].
Definition source_of (s : sign_host) (it : item) : source :=
  Source (it_origin it) (shown_source s (it_source it)) (Z.of_nat (length (occurrences_of s it))) (match it_result it with inl e => Some (exn_str e) | inr _ => None end).

Record gathered (s : sign_host) (p : progress) (os : list occurrence) : Prop := {
  ga_fp : forall fp, dget fp (pg_by_fp p) = entry_of (with_fp fp os); ga_wf : dwf (pg_by_fp p);
  ga_unkeyed : pg_unkeyed p = unkeyed_entry <$> without_fp os }.

Lemma entry_of_snoc os o : entry_of (os ++ [o]) = Some (Entry (en_key (default (Entry o.2 []) (entry_of os))) (en_origins (default (Entry o.2 []) (entry_of os)) ++ [o.1])).
Proof. destruct os as [|o0 os]; [done|]. cbn [app entry_of default from_option en_key en_origins]. by rewrite app_comm_cons, fmap_app. Qed.
Lemma add_key_gathered s p os origin src k : gathered s p os -> gathered s (add_key origin src p k) (os ++ [((origin, src), k)]).
Proof.
  intros [Hf Hw Hu]. unfold add_key. destruct (sk_fpr k) as [fp|] eqn:Ek; constructor; cbn [pg_by_fp pg_unkeyed].
  - intros fp'. unfold with_fp. rewrite filter_app, (filter_cons _ _ []), filter_nil, dget_dset. cbn [snd]. rewrite Ek.
    destruct (decide (fp = fp')) as [<-|Hne].
    + rewrite decide_True by done. rewrite entry_of_snoc, Hf. done.
    + rewrite decide_False by congruence. by rewrite app_nil_r.
  - by apply dset_wf.
  - unfold without_fp. rewrite filter_app, (filter_cons _ _ []), filter_nil. cbn [snd]. rewrite Ek. by rewrite decide_False, app_nil_r.
  - intros fp'. unfold with_fp. rewrite filter_app, (filter_cons _ _ []), filter_nil. cbn [snd]. rewrite Ek. by rewrite decide_False, app_nil_r.
  - done.
  - unfold without_fp. rewrite filter_app, (filter_cons _ _ []), filter_nil. cbn [snd]. rewrite Ek. rewrite decide_True by done. by rewrite fmap_app, Hu.
Qed.
Lemma add_keys_gathered s origin src keys : forall p os, gathered s p os ->
  gathered s (foldl (add_key origin src) p keys) (os ++ ((fun k => ((origin, src), k)) <$> keys)) /\ pg_sources (foldl (add_key origin src) p keys) = pg_sources p.
Proof.
  induction keys as [|k keys IH]; intros p os H; [by rewrite app_nil_r|]. cbn [foldl]. apply (add_key_gathered s p os origin src k) in H.
  destruct (IH _ _ H) as [H1 H2]. rewrite <-app_assoc in H1. split; [exact H1|]. rewrite H2. unfold add_key. by destruct (sk_fpr k).
Qed.
Lemma add_items_gathered s items : forall p os, gathered s p os ->
  gathered s (foldl (add_item s) p items) (os ++ all_occurrences s items) /\ pg_sources (foldl (add_item s) p items) = pg_sources p ++ (source_of s <$> items).
Proof.
  induction items as [|it items IH]; intros p os H; [by rewrite !app_nil_r|]. cbn [foldl].
  assert (Hone : gathered s (add_item s p it) (os ++ occurrences_of s it) /\ pg_sources (add_item s p it) = pg_sources p ++ [source_of s it]).
  { unfold add_item, occurrences_of, source_of, occurrences_of. destruct (it_result it) as [e|keys].
    - rewrite app_nil_r. split; [|done]. destruct H; by constructor.
    - rewrite length_fmap. destruct (add_keys_gathered s (it_origin it) (shown_source s (it_source it)) keys
        (Progress (pg_by_fp p) (pg_unkeyed p) (pg_sources p ++ [Source (it_origin it) (shown_source s (it_source it)) (Z.of_nat (length keys)) None])) os) as [H1 H2]; [destruct H; by constructor|].
      by split. }
  destruct Hone as [H1 H2]. destruct (IH _ _ H1) as [H3 H4]. rewrite H2, <-app_assoc in H4. rewrite <-app_assoc in H3. split; [exact H3 | exact H4].
Qed.

(** ** Categories *)

Definition CATEGORIES : list string := ["classical"; "hybrid"; "pure_pqc"].
Definition categorised (k : skey) : Prop := sk_signing k ∈ CATEGORIES.
(** What a computation returns, when it returns. *)
Abbreviation returns P := (safe (fun _ => True) P).

Lemma returns_mapM {A B} (P : B -> Prop) (f : A -> res B) l : (forall x, returns P (f x)) -> returns (Forall P) (mapM f l).
Proof.
  intros Hf. induction l as [|x l IH]; [constructor|]. cbn [mapM]. eapply safe_bind; [apply Hf|]. intros y Hy. eapply safe_bind; [exact IH|]. intros ys Hys. by constructor.
Qed.
Lemma returns_catch {A} (P : A -> Prop) cls m h : returns P m -> (forall e, returns P (h e)) -> returns P (catch cls m h).
Proof. intros Hm Hh. unfold catch. destruct m as [a|e]; [done|]. destruct (cls e); [apply Hh | done]. Qed.
Lemma returns_any {A} (m : res A) : returns (fun _ => True) m.
Proof. by destruct m. Qed.

Definition category_ok (c : string) : bool := bool_decide (c ∈ CATEGORIES).
Lemma packet_category tag body : returns (fun k => pk_category k ∈ CATEGORIES) (parse_public_key_packet tag body).
Proof.
  assert (Ht : forall algo, (default ("unknown (" +:+ show_Z algo +:+ ")", "unknown", "classical") (dget algo OPENPGP_ALGORITHMS)).2 ∈ CATEGORIES).
  { intros algo. destruct (dget algo OPENPGP_ALGORITHMS) as [[[n c] cat]|] eqn:E; [|apply list_elem_of_In; left; done].
    apply dget_elem_of in E. assert (H : forallb (fun x => category_ok x.2.2) OPENPGP_ALGORITHMS = true) by (vm_compute; reflexivity).
    rewrite forallb_forall in H. apply list_elem_of_In, H in E. by apply bool_decide_eq_true in E. }
  unfold parse_public_key_packet. destruct (blen body <? 6); [done|]. do 2 (eapply safe_bind; [apply returns_any|]; intros ? _).
  repeat match goal with x : (_ * _)%type |- _ => destruct x end. eapply safe_bind; [apply returns_any|]. intros created _.
  match goal with |- context [default ?d ?o] => pose proof (Ht z) as Hc; destruct (default d o) as [[name capability] category] end.
  do 2 (eapply safe_bind; [apply returns_any|]; intros ? _). exact Hc.
Qed.
Lemma highest_ok cs best : Forall (fun c => c ∈ CATEGORIES) cs -> (forall b, best = Some b -> b ∈ CATEGORIES) -> default "classical" (foldl higher best cs) ∈ CATEGORIES.
Proof.
  intros Hcs. revert best. induction Hcs as [|c cs Hc Hcs IH]; intros best Hb; cbn [foldl].
  - destruct best as [b|]; [by apply Hb | by apply list_elem_of_In; left].
  - apply IH. intros b. unfold higher. destruct best as [b'|]; [|by intros [= <-]]. destruct (_ <? _); intros [= <-]; auto.
Qed.
Definition open_ok (o : open_key) : Prop := Forall (fun k => pk_category k ∈ CATEGORIES) (o.1.1 :: o.2).
Lemma close_ok o : open_ok o -> categorised (close_key o).
Proof.
  destruct o as [[k uid] subs]. intros H. unfold categorised, close_key, signing_category. cbn [sk_signing]. apply highest_ok; [|done].
  apply Forall_fmap. apply Forall_forall. intros x Hx%list_elem_of_In%filter_In. unfold open_ok in H. rewrite Forall_forall in H. cbn in H. apply H, list_elem_of_In, Hx.
Qed.
Lemma keyring_categorised data : returns (Forall categorised) (parse_openpgp_keys data).
Proof.
  rewrite parse_openpgp_keys_eq. eapply (safe_bind _ (Forall open_ok)).
  - apply returns_mapM. intros [body its]. rewrite span_key_eq. eapply safe_bind; [apply packet_category|]. intros k Hk. cbn beta in Hk. unfold finish.
    eapply (safe_bind _ (Forall (fun k => pk_category k ∈ CATEGORIES))).
    + apply returns_mapM. intros [tag b]. rewrite subkey_of_eq. eapply safe_bind; [apply packet_category | done].
    + intros subs Hsubs. by constructor.
  - intros keys Hkeys. eapply safe_bind; [apply returns_any|]. intros _ _. apply Forall_fmap. eapply Forall_impl; [exact Hkeys|]. apply close_ok.
Qed.
Lemma Forall_concat_2 {A} (P : A -> Prop) (ls : list (list A)) : Forall (Forall P) ls -> Forall P (concat ls).
Proof. induction 1; [constructor|]. by apply Forall_app. Qed.
Lemma blob_categorised b data : returns (Forall categorised) (parse_key_blob b data).
Proof.
  unfold parse_key_blob. destruct (find_bytes _ data); [|apply keyring_categorised]. eapply safe_bind; [apply returns_any|]. intros blocks _.
  eapply safe_bind; [apply returns_mapM, keyring_categorised|]. intros keys. apply Forall_concat_2.
Qed.
Lemma pem_categorised b text : returns categorised (parse_spki_pem b text).
Proof.
  assert (Ht : forall oid, (default ("oid:" +:+ oid, "classical") (dget oid SPKI_ALGORITHM_NAMES)).2 ∈ CATEGORIES).
  { intros oid. destruct (dget oid SPKI_ALGORITHM_NAMES) as [[n cat]|] eqn:E; [|apply list_elem_of_In; left; done].
    apply dget_elem_of in E. assert (H : forallb (fun x => category_ok x.2.2) SPKI_ALGORITHM_NAMES = true) by (vm_compute; reflexivity).
    rewrite forallb_forall in H. apply list_elem_of_In, H in E. by apply bool_decide_eq_true in E. }
  unfold parse_spki_pem. destruct (re_search PEM_RE text); [|done]. destruct (b64decode _) as [der|]; [|done]. unfold parse_spki.
  eapply safe_bind; [apply returns_any|]. intros [[tag st] spki_end] _. destruct (negb _); [done|].
  do 2 (eapply safe_bind; [apply returns_any|]; intros [[? ?] ?] _). destruct (negb _); [done|].
  eapply safe_bind; [apply returns_any|]. intros oid _. specialize (Ht oid). destruct (default _ _) as [name category].
  do 2 (eapply safe_bind; [apply returns_any|]; intros ? _). exact Ht.
Qed.

Definition item_ok (it : item) : Prop := match it_result it with inr keys => Forall categorised keys | inl _ => True end.
Lemma file_source_ok s origin parse f : (forall data, returns (Forall categorised) (parse data)) -> returns item_ok (file_source s origin parse f).
Proof.
  intros Hp. apply returns_catch; [|done]. eapply safe_bind; [apply returns_any|]. intros data _. eapply safe_bind; [apply Hp|]. done.
Qed.
Lemma file_sources_ok s origin files : returns (Forall item_ok) (file_sources s origin files).
Proof. apply returns_mapM. intros f. apply file_source_ok. intros data. apply blob_categorised. Qed.
Lemma rpm_texts_ok s db : returns (fun r => match r with inl it => item_ok it | inr _ => True end) (rpm_texts s db).
Proof.
  apply returns_catch.
  - destruct db; [|done]. eapply safe_bind; [apply returns_any | done].
  - intros e. destruct (_ && _); [done|]. apply returns_catch; [|done]. eapply safe_bind; [apply returns_any | done].
Qed.
Lemma rpm_sources_ok s : returns (Forall item_ok) (rpm_sources s).
Proof.
  eapply safe_bind; [apply rpm_texts_ok|]. intros [it|[texts method]] Hit; [by apply Forall_singleton|].
  eapply (safe_bind _ (Forall categorised)).
  - apply safe_foldM; [constructor|]. intros keys t _ Hk. apply returns_catch; [|done]. eapply safe_bind; [apply blob_categorised|].
    intros ks Hks. by apply Forall_app.
  - intros keys Hk. by apply Forall_singleton.
Qed.
Lemma missing_ok s patterns : Forall item_ok (omap (fun x : item + list string => match x with inl it => Some it | inr _ => None end) (expand_pattern s <$> patterns)).
Proof.
  induction patterns as [|p patterns IH]; [constructor|]. rewrite fmap_cons. cbn [omap list_omap]. unfold expand_pattern at 1.
  destruct (has_magic p); [exact IH|]. destruct (ph_is_file _ _); [exact IH|]. by constructor.
Qed.
Lemma family_sources_ok s family version gen : family_sources s family version = Some gen -> returns (Forall item_ok) gen.
Proof.
  unfold family_sources. destruct (bool_decide _).
  { intros [= <-]. eapply safe_bind; [apply rpm_sources_ok|]. intros gen0 Hg. eapply safe_bind; [apply returns_any|]. intros patterns _.
    eapply safe_bind; [apply file_sources_ok|]. intros more Hm. apply Forall_app. split; [done|]. apply Forall_app. split; [apply missing_ok | done]. }
  destruct (String.eqb family "debian").
  { intros [= <-]. eapply safe_bind; [apply file_sources_ok|]. intros trusted Ht. eapply safe_bind; [apply returns_any|]. intros [paths inline] _.
    eapply safe_bind; [apply file_sources_ok|]. intros signed Hs. eapply (safe_bind _ (Forall item_ok)).
    - apply returns_mapM. intros [i t]. apply returns_catch; [|done]. eapply safe_bind; [apply blob_categorised | done].
    - intros inl_ Hi. by repeat (apply Forall_app; split). }
  destruct (String.eqb family "arch").
  { intros [= <-]. unfold pacman_sources. destruct (negb _); [by constructor|]. eapply safe_bind; [apply returns_any|]. intros trusted _.
    eapply safe_bind; [apply file_sources_ok|]. intros items Hi. cbn [safe]. apply Forall_fmap. eapply Forall_impl; [exact Hi|]. intros it Hit.
    unfold compose, only_trusted, item_ok in *. destruct (it_result it) as [e|keys] eqn:E; [by rewrite E|]. destruct trusted; [by rewrite E|]. cbn [it_result].
    apply Forall_forall. intros k Hk%list_elem_of_In%filter_In. rewrite Forall_forall in Hit. apply Hit, list_elem_of_In, Hk. }
  destruct (String.eqb family "alpine"); [|done]. intros [= <-]. unfold apk_sources. destruct (negb _); [by constructor|].
  apply returns_mapM. intros f. apply file_source_ok. intros data. eapply safe_bind; [apply pem_categorised|]. intros k Hk. by apply Forall_singleton.
Qed.
Lemma occurrences_ok s items : Forall item_ok items -> Forall (fun o => categorised o.2) (all_occurrences s items).
Proof.
  induction 1 as [|it items Hit Hitems IH]; [constructor|]. unfold all_occurrences. cbn [mbind list_bind]. apply Forall_app. split; [|exact IH].
  unfold occurrences_of, item_ok in *. destruct (it_result it); [constructor|]. by apply Forall_fmap.
Qed.

(** ** The counts *)

Lemma category_counts es : Forall (fun e => categorised (en_key e)) es ->
  category_count "classical" es + category_count "hybrid" es + category_count "pure_pqc" es = Z.of_nat (length es).
Proof.
  unfold category_count. induction 1 as [|e es He Hes IH]; [done|]. cbn [List.filter length]. unfold categorised, CATEGORIES in He.
  repeat (apply elem_of_cons in He as [He|He]; [rewrite He; cbn [String.eqb Ascii.eqb Bool.eqb]; simpl; lia|]). by apply not_elem_of_nil in He.
Qed.
Lemma all_classical_iff es : Forall (fun e => categorised (en_key e)) es ->
  category_count "hybrid" es + category_count "pure_pqc" es = 0 <-> Forall (fun e => sk_signing (en_key e) = "classical") es.
Proof.
  unfold category_count. induction 1 as [|e es He Hes IH]; [by split; [constructor|]|]. cbn [List.filter]. rewrite Forall_cons, <-IH. unfold categorised, CATEGORIES in He.
  repeat (apply elem_of_cons in He as [He|He]; [rewrite He; simpl; split; [intros; first [split; [done | lia] | lia] | intros [? ?]; first [done | lia]]|]). by apply not_elem_of_nil in He.
Qed.
Lemma fp_lt_weak : StrictWeak fp_lt.
Proof.
  constructor; unfold not_gt, fp_lt.
  - intros x y. apply str_lt_sw.
  - intros x y z. apply str_lt_sw.
Qed.

(** The fingerprints of a list of entries with one. *)
Definition fp_of (e : entry) : string := default EmptyString (sk_fpr (en_key e)).
Lemma keyed_entries s p os : gathered s p os ->
  let keyed := (py_sorted fp_lt (pg_by_fp p)).*2 in
  NoDup (fp_of <$> keyed) /\ StronglySorted (not_gt str_lt) (fp_of <$> keyed) /\
  forall e, e ∈ keyed <-> exists fp, entry_of (with_fp fp os) = Some e.
Proof.
  intros [Hf Hw Hu]. cbv zeta. pose proof (py_sorted_perm fp_lt (pg_by_fp p)) as Hp. pose proof fp_lt_weak.
  assert (Hfp : forall x, x ∈ py_sorted fp_lt (pg_by_fp p) -> fp_of x.2 = x.1).
  { intros [fp e] Hx. rewrite Hp in Hx. apply dget_Some in Hx; [|done]. rewrite Hf in Hx. unfold fp_of.
    destruct (with_fp fp os) as [|o l] eqn:E; [done|]. injection Hx as <-. cbn [en_key snd fst].
    assert (Ho : o ∈ with_fp fp os) by (rewrite E; by left). apply list_elem_of_filter in Ho as [-> _]. done. }
  assert (Hmap : fp_of <$> (py_sorted fp_lt (pg_by_fp p)).*2 = (py_sorted fp_lt (pg_by_fp p)).*1).
  { rewrite <-list_fmap_compose. apply list_fmap_ext. intros i x Hi. apply Hfp. by eapply list_elem_of_lookup_2. }
  rewrite Hmap. split_and!.
  - rewrite Hp. exact Hw.
  - pose proof (py_sorted_sorted fp_lt (pg_by_fp p)) as Hs. revert Hs. generalize (py_sorted fp_lt (pg_by_fp p)). clear.
    induction 1 as [|x l Hl IH Hx]; constructor; [done|]. apply Forall_fmap. exact Hx.
  - intros e. rewrite list_elem_of_fmap. split.
    + intros ([fp e'] & -> & Hx). rewrite Hp in Hx. exists fp. rewrite <-Hf. by apply dget_Some.
    + intros (fp & He). exists (fp, e). split; [done|]. rewrite Hp. apply dget_Some; [done|]. by rewrite Hf.
Qed.

(** C21: the key inventory is exact.  Each source is listed with the number of
    keys read from it, or its error.  Each fingerprint has one entry, in the
    order of the fingerprints, with the key as first met and every place it
    was met, in order; a key without a fingerprint has an entry of its own;
    nothing else is listed.  Every key is counted under one of the three
    categories, the counts add up to the number of entries, and the host is
    called all-classical exactly when there are keys and all are classical. *)
Theorem scan_signing_exact s family version r : scan_signing_keys s family version = Ok (inr r) ->
  exists items keyed, family_sources s family version = Some (Ok items) /\
    let os := all_occurrences s items in
    sr_sources r = (source_of s <$> items) /\ sr_keys r = keyed ++ (unkeyed_entry <$> without_fp os) /\
    NoDup (fp_of <$> keyed) /\ StronglySorted (not_gt str_lt) (fp_of <$> keyed) /\
    (forall e, e ∈ keyed <-> exists fp, entry_of (with_fp fp os) = Some e) /\
    sr_classical r + sr_hybrid r + sr_pure r = Z.of_nat (length (sr_keys r)) /\
    (sr_all_classical r = true <-> sr_keys r <> [] /\ Forall (fun e => sk_signing (en_key e) = "classical") (sr_keys r)).
Proof.
  unfold scan_signing_keys. destruct (family_sources s family version) as [gen|] eqn:Eg; [|done].
  pose proof (family_sources_ok s family version gen Eg) as Hok. destruct gen as [items|]; [|done]. cbn [mbind res_bind safe] in *.
  set (p := foldl (add_item s) _ items). destruct (add_items_gathered s items (Progress [] [] []) []) as [Hga Hso].
  { constructor; [done | apply dwf_nil | done]. }
  fold p in Hga, Hso. cbn [app pg_sources] in *. destruct (keyed_entries s p _ Hga) as (Hnd & Hsorted & Hin). cbv zeta in *.
  intros Hr. assert (r = report_of p) as -> by (destruct (pg_sources p); [done | by injection Hr as <-]).
  exists items, (py_sorted fp_lt (pg_by_fp p)).*2. split; [done|]. cbn [report_of sr_sources sr_keys sr_classical sr_hybrid sr_pure sr_all_classical].
  assert (Hes : entries p = (py_sorted fp_lt (pg_by_fp p)).*2 ++ (unkeyed_entry <$> without_fp (all_occurrences s items))).
  { unfold entries. by rewrite (ga_unkeyed _ _ _ Hga). }
  pose proof (occurrences_ok s items Hok) as Hocc. rewrite Forall_forall in Hocc.
  assert (Hcat : Forall (fun e => categorised (en_key e)) (entries p)).
  { rewrite Hes. apply Forall_app. split.
    - apply Forall_forall. intros e (fp & He)%Hin. destruct (with_fp fp _) as [|o l] eqn:E; [done|]. injection He as <-. cbn [en_key].
      apply Hocc. assert (Ho : o ∈ with_fp fp (all_occurrences s items)) by (rewrite E; by left). by apply list_elem_of_filter in Ho as [_ Ho].
    - apply Forall_fmap, Forall_forall. intros o Ho. apply list_elem_of_filter in Ho as [_ Ho]. by apply Hocc. }
  pose proof (category_counts _ Hcat) as Hsum. split_and!; try done.
  rewrite andb_true_iff, negb_true_iff, bool_decide_eq_false, Z.eqb_eq. rewrite length_zero_iff_nil. split; (intros [Hne Hz]; split; [exact Hne|]).
  - by apply all_classical_iff.
  - apply all_classical_iff in Hz; [|done]. exact Hz.
Qed.

(** ** Errors *)

Definition struct_error (e : exn) : Prop := exn_class e = "struct.error".
Definition source_or_struct (e : exn) : Prop := source_error e = true \/ struct_error e.
Lemma key_source e : key_error e -> source_or_struct e.
Proof. intros H. left. unfold source_error, is_key_error, is_class. by rewrite H. Qed.
(** The host's files raise nothing but OSError. *)
Record quiet (s : sign_host) : Prop := {
  qu_size : forall p, safe (fun e => exn_class e = "OSError") (fun _ => True) (sg_size s p);
  qu_bytes : forall p, safe (fun e => exn_class e = "OSError") (fun _ => True) (sg_bytes s p);
  qu_text : forall p, safe (fun e => exn_class e = "OSError") (fun _ => True) (sg_text s p) }.

Lemma os_source e : exn_class e = "OSError" -> source_or_struct e.
Proof. intros H. left. unfold source_error, is_key_error, is_class. by rewrite H. Qed.
Lemma safe_mapM_any {A B} E (f : A -> res B) l : (forall x, safe E (fun _ => True) (f x)) -> safe E (fun _ => True) (mapM f l).
Proof. intros Hf. induction l as [|x l IH]; [done|]. cbn [mapM]. eapply safe_bind; [apply Hf|]. intros y _. eapply safe_bind; [exact IH | done]. Qed.
Definition key_or_struct (e : exn) : Prop := key_error e \/ struct_error e.
Lemma keyring_key_raises data : safe key_or_struct (fun _ => True) (parse_openpgp_keys data).
Proof. eapply safe_mono; [apply parse_openpgp_keys_safe | done|]. intros e [He|[He _]]; [by left | by right]. Qed.
Lemma parse_key_blob_safe b data : safe key_or_struct (fun _ => True) (parse_key_blob b data).
Proof.
  unfold parse_key_blob. destruct (find_bytes _ data); [|apply keyring_key_raises].
  eapply (safe_bind _ (fun _ => True)).
  - apply safe_mapM_any. intros m. unfold dearmor_block. destruct (b64decode _); [done | by left].
  - intros blocks _. eapply safe_bind; [apply safe_mapM_any, keyring_key_raises | done].
Qed.
Lemma blob_raises b data : safe source_or_struct (fun _ => True) (parse_key_blob b data).
Proof. eapply safe_mono; [apply parse_key_blob_safe | done|]. intros e [He|He]; [by apply key_source | by right]. Qed.
Lemma der_element_safe buf pos : 0 <= pos -> safe key_error (fun r => 0 <= r.1.2 /\ 0 <= r.2) (der_element buf pos).
Proof.
  intros Hp. unfold der_element. destruct (Z.ltb_spec (blen buf) (pos + 2)); [done|].
  eapply safe_bind; [apply key_byte_safe; lia|]. intros tag _. eapply safe_bind; [apply key_byte_safe; lia|]. intros ln Hln. cbn beta in Hln. cbv zeta.
  eapply (safe_bind _ (fun r => 0 <= r.1 /\ 0 <= r.2)).
  - destruct (_ =? 0); [cbn; lia|]. destruct (_ || _); [done|]. cbn [safe fst snd]. split; [apply from_bytes_range|].
    pose proof (Z.land_nonneg ln 127). lia.
  - intros [l p'] [Hl Hp']. cbn [fst snd] in *. destruct (_ <? _); [done|]. cbn. lia.
Qed.
Lemma pem_raises b text : safe source_or_struct (fun _ => True) (parse_spki_pem b text).
Proof.
  apply (safe_mono key_error _ (fun _ => True)); [|done|apply key_source].
  unfold parse_spki_pem. destruct (re_search PEM_RE text); [|done]. destruct (b64decode _) as [der|]; [|done]. unfold parse_spki.
  eapply safe_bind; [apply der_element_safe; lia|]. intros [[tag st] spki_end] [Hst _]. cbn [fst snd] in Hst. destruct (negb _); [done|].
  eapply safe_bind; [by apply der_element_safe|]. intros [[t1 a_s] a_e] [Has Hae]. cbn [fst snd] in *.
  eapply safe_bind; [by apply der_element_safe|]. intros [[t2 o_s] o_e] [Hos Hoe]. cbn [fst snd] in *. destruct (negb _); [done|].
  eapply safe_bind; [apply oid_str_safe|]. intros oid _. destruct (default _ _) as [name category].
  eapply (safe_bind _ (fun _ => True)).
  { unfold spki_curve. destruct (_ <? _); [|done]. eapply safe_bind; [by apply der_element_safe|]. intros [[t3 p_s] p_e] _. destruct (_ =? _); [|done].
    eapply safe_bind; [apply oid_str_safe | done]. }
  intros curve _. eapply (safe_bind _ (fun _ => True)); [|done]. destruct (String.eqb name "RSA"); [|done]. eapply (safe_bind _ (fun _ => True)); [|done].
  unfold spki_bits. eapply safe_bind; [by apply der_element_safe|]. intros [[t3 b_s] b_e] [Hbs _]. cbn [fst snd] in *. destruct (negb _); [done|].
  eapply safe_bind; [apply der_element_safe; lia|]. intros [[t4 r_s] r_e] [Hrs _]. cbn [fst snd] in *. eapply safe_bind; [by apply der_element_safe|]. by intros [[t5 n_s] n_e] _.
Qed.
Lemma catch_source {A B} (m : res A) (f : A -> res B) h :
  safe source_or_struct (fun _ => True) m -> (forall a, is_ok (f a) = true) -> (forall e, is_ok (h e) = true) ->
  safe struct_error (fun _ => True) (catch source_error (a ← m; f a) h).
Proof.
  intros Hm Hf Hh. unfold catch. destruct m as [a|e]; cbn [mbind res_bind]; [specialize (Hf a); by destruct (f a)|].
  destruct (source_error e) eqn:E; [specialize (Hh e); by destruct (h e)|]. destruct Hm as [Hm|Hm]; [congruence | exact Hm].
Qed.
Lemma text_raises s f : quiet s -> safe struct_error (fun _ => True) (text_or_none s f).
Proof.
  intros Hq. unfold text_or_none, catch. pose proof (qu_text s Hq (tree s f)) as H. destruct (sg_text s (tree s f)) as [t|e]; [done|].
  cbn [mbind res_bind]. unfold is_class. cbn in H. by rewrite H.
Qed.
Lemma file_source_raises s origin parse f : quiet s -> (forall data, safe source_or_struct (fun _ => True) (parse data)) ->
  safe struct_error (fun _ => True) (file_source s origin parse f).
Proof.
  intros Hq Hp. unfold file_source.
  assert (E : (data ← read s f; keys ← parse data; Ok (Item origin f (inr keys))) = (keys ← (data ← read s f; parse data); Ok (Item origin f (inr keys)))) by by destruct (read s f).
  rewrite E. apply catch_source; [|done..]. eapply (safe_bind _ (fun _ => True)); [|intros data _; apply Hp].
  unfold read. eapply (safe_bind _ (fun _ => True)).
  - eapply safe_mono; [apply (qu_size s Hq) | done | apply os_source].
  - intros size _. destruct (_ <? _); [by apply key_source|]. eapply safe_mono; [apply (qu_bytes s Hq) | done | apply os_source].
Qed.
Lemma file_sources_raise s origin files : quiet s -> safe struct_error (fun _ => True) (file_sources s origin files).
Proof. intros Hq. apply safe_mapM_any. intros f. apply file_source_raises; [done | apply blob_raises]. Qed.
Lemma inline_raises s it : safe struct_error (fun _ => True) (inline_source s it).
Proof.
  unfold inline_source, catch. pose proof (parse_key_blob_safe (sg_binascii s) (text_of it.2)) as H.
  destruct (parse_key_blob _ _) as [keys|e]; cbn [mbind res_bind]; [done|]. cbn in H. destruct (is_key_error e) eqn:E; [done|].
  destruct H as [H|H]; [|exact H]. unfold is_key_error, is_class in E. by rewrite H in E.
Qed.


(** ** Witnesses *)

Definition absent {A} : res A := Raise (OSError "No such file or directory").
(** A Debian host with these files under /etc/apt/trusted.gpg.d. *)
Definition deb_host (files : list (string * bytes)) : sign_host :=
  let get p := match dget p files with Some b => Ok b | None => absent end in
  SignHost
    (PkgHost (HostFs (fun _ => None) (fun _ => None) (fun _ => false) (fun _ => [])) (Prefixes EmptyString EmptyString)
       (fun _ => false) (fun _ => false) (fun p => String.eqb p "/etc/apt/trusted.gpg.d") (fun _ => absent) (fun _ => absent) (fun _ => absent) (fun _ => [])
       None (fun _ _ _ => SqliteEmpty) true (fun _ => false) (fun _ => (127, EmptyString)) None)
    (fun _ _ => []) (fun d => if String.eqb d "/etc/apt/trusted.gpg.d" then files.*1 else [])
    (fun p => b ← get p; Ok (blen b)) get (fun _ => absent) "x86_64" "unknown" (fun _ => "Incorrect padding").
Lemma deb_host_quiet files : quiet (deb_host files).
Proof. constructor; intros p; [| |done]; cbn; by destruct (dget p files). Qed.

(** Two files with the same key, one that is no keyring, and a note. *)
Definition two_rings : sign_host := deb_host [
  ("/etc/apt/trusted.gpg.d/b.gpg", enc_packets sample_key_packets); ("/etc/apt/trusted.gpg.d/a.gpg", enc_packets sample_key_packets);
  ("/etc/apt/trusted.gpg.d/bad.asc", text_of "not a keyring"); ("/etc/apt/trusted.gpg.d/README", [])]%string.
Definition two_rings_report : signing_report :=
  match scan_signing_keys two_rings "debian" EmptyString with Ok (inr r) => r | _ => SigningReport [] [] 0 0 0 false end.
Lemma scan_signing_exact_witness :
  sr_classical two_rings_report + sr_hybrid two_rings_report + sr_pure two_rings_report = Z.of_nat (length (sr_keys two_rings_report)) /\
  (en_origins <$> sr_keys two_rings_report) = [[("apt-trusted", "/etc/apt/trusted.gpg.d/a.gpg"); ("apt-trusted", "/etc/apt/trusted.gpg.d/b.gpg")]]%string /\
  (so_keys <$> sr_sources two_rings_report) = [1; 1; 0].
Proof.
  split; [|split; vm_compute; reflexivity].
  assert (H : scan_signing_keys two_rings "debian" EmptyString = Ok (inr two_rings_report)) by (vm_compute; reflexivity).
  destruct (scan_signing_exact two_rings "debian" EmptyString two_rings_report H) as (items & keyed & _ & _ & _ & _ & _ & _ & E & _). exact E.
Defined.

(** A keyring with a key packet that is too long ends the whole scan. *)
Definition large_ring : sign_host := deb_host [
  ("/etc/apt/trusted.gpg.d/a.gpg"%string, enc_packet New5 6 ([Byte.x04; Byte.x00; Byte.x00; Byte.x00; Byte.x00; Byte.x01] ++ replicate (Z.to_nat 65536) Byte.x00))].
