(* ===== verification/Recommend.v ===== *)
(** * Recommendation tables ([recommendation.py])

    The policies, their sources and timelines, as the module declares them. *)

From S2P Require Import Prelude PyStr PyDict PyVal Algorithms Verdict Services Boot.
Open Scope Z_scope.
Record preference := Preference {
  p_name : string; p_authority : string; p_hybrid_policy : string; p_hybrid_allowed_for : list string;
  p_kem_primary : string; p_sig_primary : string; p_hash_primary : string; p_requires_fips : bool;
  p_citation : string; p_source : string }.

Definition POLICY_PREFERENCES : list (string * preference) := [
  ("cnsa-2.0", Preference "CNSA 2.0" "NSA / CNSA 2.0 (US National Security Systems)" "discouraged" ["ikev2"] "ML-KEM-1024" "ML-DSA-87" "SHA-384" true
    "CNSA 2.0 specifies ML-KEM-1024 and ML-DSA-87 for National Security Systems.  Pure PQC is preferred; hybrids are permitted but not required, and NSA anticipates one for IKEv2 (CNSA 2.0 FAQ ver. 2.1)."
    "NSA CSA Announcing CNSA 2.0 (Sept 2022) and CNSA 2.0 FAQ ver. 2.1 (Dec 2024)");
  ("nist-civilian", Preference "NIST civilian / FCEB" "NIST FIPS 203 / 204 / 205 (US federal civilian)" "permitted" ["tls-server"; "tls-client"; "ikev2"] "ML-KEM-768" "ML-DSA-65" "SHA-256" true
    "NIST FIPS 203 (ML-KEM), FIPS 204 (ML-DSA), and FIPS 205 (SLH-DSA) standardize the civilian PQC suite.  Hybrid is permitted under SP 800-56C Rev. 2; it is not required."
    "NIST FIPS 203 / 204 / 205, NIST IR 8547 (initial public draft), NIST SP 800-56C Rev. 2, NIST SP 800-227");
  ("eu-anssi-bsi", Preference "ANSSI / BSI hybrid" "ANSSI (FR) and BSI (DE) PQC migration guidance" "recommended" ["tls-server"; "tls-client"; "ikev2"; "signing-service"] "ML-KEM-768" "ML-DSA-65" "SHA-256" false
    "ANSSI and BSI both recommend deploying PQC alongside a classical primitive (hybrid) during the migration period.  Pure-PQC deployments are discouraged until confidence in the new primitives matures."
    "BSI TR-02102-1 version 2026-01; ANSSI views on the PQC transition (2023 follow up); EU Coordinated Implementation Roadmap for the Transition to PQC v1.1 (2025)");
  ("commercial", Preference "Commercial / no specific regime" "no specific compliance regime" "either" ["tls-server"; "tls-client"; "ikev2"; "signing-service"] "ML-KEM-768" "ML-DSA-65" "SHA-256" false
    "Outside a specific compliance regime, both pure-PQC and hybrid deployments are acceptable.  Hybrid is suggested for data with long-confidentiality requirements (HNDL)."
    "no single source — see policy guidance documentation")].

Definition POLICY_SOURCES : list (string * value) :=
  [
  ("us-nss-cnsa-2.0", VDict [
    ("authority", VStr "NSA (US National Security Systems)");
    ("documents", VList [VDict [
        ("title", VStr "Announcing the Commercial National Security Algorithm Suite 2.0");
        ("date", VStr "2022-09");
        ("status", VStr "final");
        ("url", VStr "https://media.defense.gov/2022/Sep/07/2003071834/-1/-1/0/CSA_CNSA_2.0_ALGORITHMS_.PDF")];
      VDict [
        ("title", VStr "The Commercial National Security Algorithm Suite 2.0 and Quantum Computing FAQ, ver. 2.1");
        ("date", VStr "2024-12");
        ("status", VStr "final");
        ("url", VStr "https://media.defense.gov/2022/Sep/07/2003071836/-1/-1/0/CSI_CNSA_2.0_FAQ_.PDF")]]);
    ("milestones", VList [VDict [
        ("by", VStr "2027-01-01");
        ("event", VStr "All new NSS acquisitions CNSA 2.0 compliant (CNSSP 15)")];
      VDict [
        ("by", VStr "2030-12-31");
        ("event", VStr "Equipment and services that cannot support CNSA 2.0 phased out")];
      VDict [
        ("by", VStr "2031-12-31");
        ("event", VStr "CNSA 2.0 algorithms mandated for use")];
      VDict [
        ("by", VStr "2035");
        ("event", VStr "All NSS quantum-resistant (NSM-10)")]]);
    ("categories", VDict [
      ("software-firmware-signing", VDict [
        ("support_and_prefer", VStr "2025");
        ("exclusive_use", VStr "2030")]);
      ("web-browsers-servers-cloud", VDict [
        ("support_and_prefer", VStr "2025");
        ("exclusive_use", VStr "2033")]);
      ("traditional-networking", VDict [
        ("support_and_prefer", VStr "2026");
        ("exclusive_use", VStr "2030")]);
      ("operating-systems", VDict [
        ("support_and_prefer", VStr "2027");
        ("exclusive_use", VStr "2033")]);
      ("niche-equipment", VDict [
        ("support_and_prefer", VStr "2030");
        ("exclusive_use", VStr "2033")]);
      ("custom-legacy", VDict [
        ("support_and_prefer", VNone);
        ("exclusive_use", VStr "2033")])]);
    ("notes", VList [VStr "Only ML-KEM-1024, ML-DSA-87 and single-tree LMS/XMSS are approved; SLH-DSA and HSS/XMSS^MT are not.";
      VStr "Hybrids are permitted but not required."]);
    ("verified", VStr "2026-10-13 (media.defense.gov blocks scripted fetches; read via web.archive.org)")]);
  ("us-nist", VDict [
    ("authority", VStr "NIST (US federal civilian)");
    ("documents", VList [VDict [
        ("title", VStr "NIST IR 8547, Transition to Post-Quantum Cryptography Standards");
        ("date", VStr "2024-11-12");
        ("status", VStr "draft");
        ("url", VStr "https://csrc.nist.gov/pubs/ir/8547/ipd")]]);
    ("milestones", VList [VDict [
        ("by", VStr "2030");
        ("event", VStr "Quantum-vulnerable algorithms at 112-bit strength deprecated after 2030 (draft)")];
      VDict [
        ("by", VStr "2035");
        ("event", VStr "All quantum-vulnerable public-key algorithms disallowed after 2035 (draft)")]]);
    ("verified", VStr "2026-10-13")]);
  ("eu", VDict [
    ("authority", VStr "EU NIS Cooperation Group (PQC work stream)");
    ("documents", VList [VDict [
        ("title", VStr "A Coordinated Implementation Roadmap for the Transition to Post-Quantum Cryptography, Part 1, v1.1");
        ("date", VStr "2025-06-11");
        ("status", VStr "final");
        ("url", VStr "https://digital-strategy.ec.europa.eu/en/library/coordinated-implementation-roadmap-transition-post-quantum-cryptography")]]);
    ("milestones", VList [VDict [
        ("by", VStr "2026-12-31");
        ("event", VStr "Member States complete First Steps, including national transition plans")];
      VDict [
        ("by", VStr "2030-12-31");
        ("event", VStr "High-risk use cases transitioned; no stand-alone quantum-vulnerable public-key mechanisms")];
      VDict [
        ("by", VStr "2035-12-31");
        ("event", VStr "Transition complete for as many systems as feasible; medium-risk use cases off stand-alone quantum-vulnerable mechanisms")]]);
    ("verified", VStr "2026-10-13")]);
  ("de-bsi", VDict [
    ("authority", VStr "BSI (Germany)");
    ("documents", VList [VDict [
        ("title", VStr "BSI TR-02102-1, Cryptographic Mechanisms: Recommendations and Key Lengths, version 2026-01");
        ("date", VStr "2026-01-23");
        ("status", VStr "final");
        ("url", VStr "https://www.bsi.bund.de/SharedDocs/Downloads/EN/BSI/Publications/TechGuidelines/TG02102/BSI-TR-02102-1.pdf")]]);
    ("milestones", VList []);
    ("notes", VList [VStr "Quantum-safe mechanisms should be used in hybrid form, combined with a classical method.";
      VStr "ML-KEM-768 and ML-KEM-1024 are recommended, alongside FrodoKEM and Classic McEliece."]);
    ("verified", VStr "2026-10-13")]);
  ("fr-anssi", VDict [
    ("authority", VStr "ANSSI (France)");
    ("documents", VList [VDict [
        ("title", VStr "ANSSI views on the Post-Quantum Cryptography transition (2023 follow up)");
        ("date", VStr "2023-12-21");
        ("status", VStr "final");
        ("url", VStr "https://cyber.gouv.fr/en/publications/follow-position-paper-post-quantum-cryptography")]]);
    ("milestones", VList []);
    ("notes", VList [VStr "Hybridation is required wherever post-quantum mitigation is needed in the short and medium term.";
      VStr "Hybrid PQC is recommended especially for products protecting information beyond 2030."]);
    ("verified", VStr "2026-10-13")]);
  ("uk-ncsc", VDict [
    ("authority", VStr "NCSC (United Kingdom)");
    ("documents", VList [VDict [
        ("title", VStr "Timelines for migration to post-quantum cryptography");
        ("date", VStr "2026-08");
        ("status", VStr "final");
        ("url", VStr "https://www.ncsc.gov.uk/guidance/pqc-migration-timelines")]]);
    ("milestones", VList [VDict [
        ("by", VStr "2028");
        ("event", VStr "Migration goals defined, full discovery done, initial plan built")];
      VDict [
        ("by", VStr "2031");
        ("event", VStr "Early, highest-priority migration activities done")];
      VDict [
        ("by", VStr "2035");
        ("event", VStr "Migration of all systems, services and products complete")]]);
    ("verified", VStr "2026-10-13")]);
  ("ca-cccs", VDict [
    ("authority", VStr "Canadian Centre for Cyber Security");
    ("documents", VList [VDict [
        ("title", VStr "Roadmap for the migration to post-quantum cryptography for the Government of Canada (ITSM.40.001)");
        ("date", VNone);
        ("status", VStr "final");
        ("url", VStr "https://www.cyber.gc.ca/en/guidance/roadmap-migration-post-quantum-cryptography-government-canada-itsm40001")]]);
    ("milestones", VList [VDict [
        ("by", VStr "2026-04");
        ("event", VStr "Initial departmental PQC migration plan; annual progress reports from then")];
      VDict [
        ("by", VStr "2031-12-31");
        ("event", VStr "High-priority systems migrated")];
      VDict [
        ("by", VStr "2035-12-31");
        ("event", VStr "Remaining systems migrated")]]);
    ("verified", VStr "2026-10-13")]);
  ("au-asd", VDict [
    ("authority", VStr "ASD (Australia)");
    ("documents", VList [VDict [
        ("title", VStr "Information Security Manual, Guidelines for Cryptography (ISM-0472/0474/0475, Dec 2024)");
        ("date", VStr "2024-12");
        ("status", VStr "final");
        ("url", VStr "https://www.cyber.gov.au/business-government/asds-cyber-security-frameworks/ism/cyber-security-guidelines/guidelines-for-cryptography")]]);
    ("milestones", VList [VDict [
        ("by", VStr "2030");
        ("event", VStr "DH, ECDH and ECDSA not approved beyond 2030")]]);
    ("verified", VStr "2026-10-13 (cyber.gov.au unreachable from the build host; read via web.archive.org)")])].

Definition POLICY_TIMELINE_SOURCES : list (string * list string) := [("cnsa-2.0", ["us-nss-cnsa-2.0"]); ("nist-civilian", ["us-nist"]); ("eu-anssi-bsi", ["eu"; "de-bsi"; "fr-anssi"]); ("commercial", [])].

Definition CNSA_2_0_ROLE_CATEGORY : list (string * string) := [("tls-server", "web-browsers-servers-cloud"); ("tls-client", "web-browsers-servers-cloud"); ("signing-service", "software-firmware-signing"); ("firmware-signing", "software-firmware-signing")].

Definition VALID_POLICIES : list string := ["cnsa-2.0"; "nist-civilian"; "eu-anssi-bsi"; "commercial"].

Definition VALID_ROLES : list string := ["tls-server"; "tls-client"; "signing-service"; "firmware-signing"; "generic"].

(** * Algorithm recommendations ([recommendation.py])

    [recommend] over the fields of the report it reads, its four role
    recommenders, and the text and markdown renderers.  The lists of caveats
    the code threads through its helpers are returned here, in order. *)
(** The fields of the [Report] the engine reads. *)
Record report := Report {
  r_hostname : string; r_generated_at : string; r_isa_tier : string; r_accelerators : list value;
  r_fips : value; r_openssl : value; r_kernel_info : value; r_boot_chain : value }.

(** [d[k]] of a table. *)
Definition lookup {A} (k : string) (d : list (string * A)) : res A :=
  match dget k d with Some x => Ok x | None => Raise (KeyError k) end.

Definition timeline (policy role : string) : res value :=
  sources ← lookup policy POLICY_TIMELINE_SOURCES;
  let out := [("sources", VStrs sources)] in
  match (if String.eqb policy "cnsa-2.0" then dget role CNSA_2_0_ROLE_CATEGORY else None) with
  | None => Ok (VDict out)
  | Some category =>
      nss ← lookup "us-nss-cnsa-2.0" POLICY_SOURCES;
      cats ← getitem "categories" nss;
      dates ← getitem category cats;
      kvs ← items dates;
      Ok (VDict (dset "cnsa_2_0_category" (VDict (dupdate [("category", VStr category)] kvs)) out))
  end.

Definition accel_pqc_capable (accelerators : list value) : res bool :=
  anyM (fun a => v ← get "pqc_capable" a; Ok (truthy v)) accelerators.

Definition isa_supports_large_params (isa : string) (has_pqc_accel : bool) : bool :=
  String.eqb isa "excellent" || has_pqc_accel.

(** [(r.isa_tier or "unknown").lower()]. *)
Definition isa_of (r : report) : string :=
  lower (if String.eqb (r_isa_tier r) EmptyString then "unknown" else r_isa_tier r).

Record kem_choice := KemChoice { k_alg : string; k_mode : string; k_reason : string; k_caveats : list string }.

Definition recommend_kem (policy isa : string) (accel_pqc : bool) : res kem_choice :=
  pref ← lookup policy POLICY_PREFERENCES;
  let mode := if String.eqb (p_hybrid_policy pref) "recommended" then "hybrid" else "pure" in
  Ok (
    if String.eqb policy "cnsa-2.0" then
      if isa_supports_large_params isa accel_pqc
      then KemChoice "ML-KEM-1024" mode "ML-KEM-1024 per CNSA 2.0; ISA tier and/or PQC accelerator supports the larger parameter set" []
      else KemChoice "ML-KEM-1024" mode "ML-KEM-1024 mandated by CNSA 2.0"
             ["Policy mandates ML-KEM-1024 but host ISA tier is '" +:+ isa +:+ "' and no PQC-capable accelerator is present; encapsulation throughput will be lower than ML-KEM-768.  Add a PQC accelerator or accept the slower path."]
    else if String.eqb policy "eu-anssi-bsi" then
      KemChoice "ML-KEM-768" mode "ML-KEM-768 deployed in hybrid; ANSSI and BSI both recommend hybrid during the migration period" []
    else if String.eqb policy "nist-civilian" then
      KemChoice "ML-KEM-768" mode
        (if isa_supports_large_params isa accel_pqc
         then "ML-KEM-768 per FIPS 203; ISA tier could support ML-KEM-1024 if compliance scope demands it"
         else "ML-KEM-768 per FIPS 203; balanced for civilian deployments") []
    else
      KemChoice "ML-KEM-768" mode "ML-KEM-768 — broadly interoperable default for commercial deployments; consider hybrid for long-confidentiality data" []).

(** Whether a group of the registry carries the KEM. *)
Definition carries (kem : string) (n : value) : res (option string) :=
  g ← table_get TLS_PQC_GROUPS n;
  Ok (match g with Some (s, g) => if String.eqb (g_kem g) kem then Some s else None | None => None end).

Definition tls_groups_for (openssl : value) (kem_chosen kem_mode : string) : res (list string) :=
  groups ← get_d "tls_groups" openssl;
  bucket ← get_l (if String.eqb kem_mode "hybrid" then "hybrid" else "pure_pqc") groups;
  hits ← mapM (carries kem_chosen) bucket;
  Ok (py_sorted str_lt (omap id hits)).

(** [", ".join(sorted(l))] of a list that must hold strings. *)
Definition sorted_names (l : list value) : res string :=
  ss ← strs_of l; Ok (str_join ", " (py_sorted str_lt ss)).

(** The usable groups and the caveats about them. *)
Definition tls_group_caveats (openssl : value) (kem_chosen kem_mode endpoint : string) : res (list string * list string) :=
  tls_groups ← get_d "tls_groups" openssl;
  hybrid_groups ← get_l "hybrid" tls_groups;
  pure_groups ← get_l "pure_pqc" tls_groups;
  usable ← tls_groups_for openssl kem_chosen kem_mode;
  available ← get "available" openssl;
  caveats ←
    (if truthy available then
       probed ← openssl_cli_probed openssl;
       if negb probed then
         probe ← get_d "cli_probe" openssl;
         reason ← get_or "reason" (VStr "no CLI") probe;
         Ok ["The TLS groups this host's OpenSSL advertises were not probed (" +:+ py_str reason +:+ "); confirm the TLS " +:+ endpoint +:+ " offers a group carrying " +:+ kem_chosen +:+ "."]
       else if String.eqb kem_mode "hybrid" && (match hybrid_groups with [] => true | _ => false end) then
         Ok ["No TLS 1.3 hybrid groups are advertised by this OpenSSL build.  Upgrade OpenSSL or load the relevant provider before deploying a hybrid TLS " +:+ endpoint +:+ "."]
       else if String.eqb kem_mode "pure" && (match pure_groups with [] => true | _ => false end) then
         Ok ["No TLS 1.3 pure-PQC groups are advertised by this OpenSSL build.  Upgrade OpenSSL or load the relevant provider before deploying pure-PQC TLS."]
       else if (match usable with [] => true | _ => false end) then
         offered ← sorted_names (if String.eqb kem_mode "hybrid" then hybrid_groups else pure_groups);
         Ok ["The advertised " +:+ kem_mode +:+ " TLS groups (" +:+ offered +:+ ") do not carry " +:+ kem_chosen +:+ ".  Enable a group that does before deploying this TLS " +:+ endpoint +:+ "."]
       else Ok []
     else Ok ["OpenSSL was not detected on this host; the recommended algorithms cannot be served via TLS until an OpenSSL build with TLS 1.3 PQC group support is installed."]);
  Ok (usable, caveats).

Definition fips_caveat (policy : string) (fips_kernel : bool) : res (list string) :=
  pref ← lookup policy POLICY_PREFERENCES;
  Ok (if p_requires_fips pref && negb fips_kernel
      then ["Kernel FIPS mode is not enabled.  " +:+ p_name pref +:+ " requires use of FIPS-validated cryptographic modules; enable kernel FIPS mode and load a FIPS-validated provider before going to production."]
      else []).

(** [bool((r.fips or {}).get("kernel"))]. *)
Definition fips_kernel (r : report) : res bool :=
  v ← get "kernel" (por (r_fips r) (VDict [])); Ok (truthy v).

(** [(d or {}).get(k) or ""]. *)
Definition text_or_empty (k : string) (d : value) : res value :=
  v ← get k (por d (VDict [])); Ok (por v (VStr EmptyString)).

Definition recommendation_record (r : report) (policy role : string) (kem signature : value) (caveats : list string) : res value :=
  pref ← lookup policy POLICY_PREFERENCES;
  accel ← accel_pqc_capable (r_accelerators r);
  fips ← fips_kernel r;
  version ← text_or_empty "version" (r_openssl r);
  release ← text_or_empty "release" (r_kernel_info r);
  tl ← timeline policy role;
  Ok (VDict [
    ("role", VStr role); ("policy", VStr policy); ("policy_authority", VStr (p_authority pref));
    ("policy_basis", VStr (p_citation pref)); ("policy_source", VStr (p_source pref));
    ("implemented", VBool true); ("kem", kem); ("signature", signature);
    ("hash", VDict [("algorithm", VStr (p_hash_primary pref));
                    ("reason", VStr (p_hash_primary pref +:+ " aligned with " +:+ p_name pref +:+ " guidance"))]);
    ("host_capability_inputs", VDict [
       ("isa_tier", VStr (isa_of r)); ("pqc_accelerator_present", VBool accel); ("fips_kernel", VBool fips);
       ("openssl_version", version); ("kernel_release", release)]);
    ("timeline", tl); ("caveats", VStrs caveats)]).

(** An algorithm with the reason for it, and the caveats it adds. *)
Record sig_choice := SigChoice { s_alg : string; s_reason : string; s_caveats : list string }.
Definition sig_value (s : sig_choice) : value :=
  VDict [("algorithm", VStr (s_alg s)); ("reason", VStr (s_reason s))].
Definition kem_value (k : kem_choice) (tls_groups : list string) : value :=
  VDict [("algorithm", VStr (k_alg k)); ("mode", VStr (k_mode k)); ("reason", VStr (k_reason k)); ("tls_groups", VStrs tls_groups)].

Definition slow_isa (isa : string) : bool := String.eqb isa "poor" || String.eqb isa "marginal".

Definition server_signature (policy isa : string) (accel_pqc : bool) : sig_choice :=
  if String.eqb policy "cnsa-2.0" then
    if isa_supports_large_params isa accel_pqc
    then SigChoice "ML-DSA-87" "ML-DSA-87 per CNSA 2.0; ISA tier supports the signing latency at typical service SLOs" []
    else SigChoice "ML-DSA-87" "ML-DSA-87 mandated by CNSA 2.0"
           ["Policy mandates ML-DSA-87 but host ISA tier is '" +:+ isa +:+ "' without a PQC accelerator; ML-DSA-87 sign p99 latency may exceed typical service SLOs.  Consider a hardware accelerator or accept the slower path."]
  else SigChoice "ML-DSA-65"
    (if String.eqb isa "good" then "ML-DSA-65 over ML-DSA-87 because ISA tier is 'good' not 'excellent'; ML-DSA-87 sign p99 latency will likely exceed typical service SLOs"
     else if slow_isa isa then "ML-DSA-65 because ISA tier is '" +:+ isa +:+ "' without a PQC accelerator; ML-DSA-87 sign p99 latency would likely exceed typical SLOs"
     else if String.eqb isa "excellent" then "ML-DSA-65 — balanced default for civilian/commercial deployments; ISA tier could support ML-DSA-87 if compliance scope demands it"
     else "ML-DSA-65 — balanced default for civilian/commercial deployments") [].

Definition recommend_tls_server (r : report) (policy : string) : res value :=
  let isa := isa_of r in
  accel_pqc ← accel_pqc_capable (r_accelerators r);
  kem ← recommend_kem policy isa accel_pqc;
  '(tls_groups, group_caveats) ← tls_group_caveats (por (r_openssl r) (VDict [])) (k_alg kem) (k_mode kem) "server";
  let sg := server_signature policy isa accel_pqc in
  fk ← fips_kernel r;
  fips ← fips_caveat policy fk;
  recommendation_record r policy "tls-server" (kem_value kem tls_groups) (sig_value sg)
    (k_caveats kem ++ group_caveats ++ s_caveats sg ++ fips).

Definition ML_KEM_ENCAPS_KEY_BYTES : list (string * Z) := [("ML-KEM-768", 384 * 3 + 32); ("ML-KEM-1024", 384 * 4 + 32)].
Definition X25519_SHARE_BYTES : Z := 32.
Definition CLIENT_HELLO_MIDDLEBOX_BYTES : Z := 1200.

(** The size of the key share, and the caveat about it. *)
Definition share_bytes (kem : kem_choice) : res Z :=
  n ← lookup (k_alg kem) ML_KEM_ENCAPS_KEY_BYTES;
  Ok (if String.eqb (k_mode kem) "hybrid" then n + X25519_SHARE_BYTES else n).
Definition share_caveat (kem : kem_choice) : res (list string) :=
  n ← share_bytes kem;
  Ok (if CLIENT_HELLO_MIDDLEBOX_BYTES <? n
      then ["The " +:+ k_alg kem +:+ " (" +:+ k_mode kem +:+ ") key share adds " +:+ show_Z n +:+ " bytes to the ClientHello.  Some middleboxes on legacy networks mishandle ClientHellos with key shares over " +:+ show_Z CLIENT_HELLO_MIDDLEBOX_BYTES +:+ " bytes; test the network path before enforcing PQC-only negotiation."]
      else []).

Definition client_signature (policy isa : string) (accel_pqc : bool) : sig_choice :=
  let slow := slow_isa isa && negb accel_pqc in
  if String.eqb policy "cnsa-2.0" then
    if slow
    then SigChoice "ML-DSA-87" "ML-DSA-87 mandated by CNSA 2.0; client cost is certificate-chain verify, not sign"
           ["Policy mandates ML-DSA-87 and host ISA tier is '" +:+ isa +:+ "' without a PQC accelerator; ML-DSA-87 verify p99 latency per certificate chain will be higher than on modern hardware.  Verify is cheap relative to sign, so this is rarely limiting for a client."]
    else SigChoice "ML-DSA-87" "ML-DSA-87 per CNSA 2.0; ISA tier comfortably supports ML-DSA-87 verify throughput for server certificate chains" []
  else SigChoice "ML-DSA-65"
    (if slow then "ML-DSA-65 because ISA tier is '" +:+ isa +:+ "'; ML-DSA-65 verify keeps certificate-chain validation latency low on this host"
     else "ML-DSA-65 — matches the server certificates civilian/commercial deployments issue; ISA tier comfortably supports ML-DSA verify throughput") [].

Definition recommend_tls_client (r : report) (policy : string) : res value :=
  let isa := isa_of r in
  accel_pqc ← accel_pqc_capable (r_accelerators r);
  kem ← recommend_kem policy isa accel_pqc;
  '(tls_groups, group_caveats) ← tls_group_caveats (por (r_openssl r) (VDict [])) (k_alg kem) (k_mode kem) "client";
  share ← share_caveat kem;
  let sg := client_signature policy isa accel_pqc in
  fk ← fips_kernel r;
  fips ← fips_caveat policy fk;
  recommendation_record r policy "tls-client" (kem_value kem tls_groups) (sig_value sg)
    (k_caveats kem ++ group_caveats ++ share ++ s_caveats sg ++ fips).

Definition no_kem (why : string) : value :=
  VDict [("algorithm", VNone); ("mode", VStr "n/a"); ("reason", VStr why)].

(** [f"{x:g}"]: six significant digits, no trailing zeros. *)
Definition format_g (f : float) : string :=
  match f_frac f with
  | Some (n, d) =>
      if n =? 0 then "0"
      else
        let a := Z.abs n in
        let x := dec_exp a d - 1 in
        let c := if 5 - x <? 0 then round_half_even a (d * 10 ^ (x - 5)) else round_half_even (a * 10 ^ (5 - x)) d in
        let '(c, x) := if c =? 1000000 then (100000, x + 1) else (c, x) in
        let ds := show_Z c in
        let trim s := let t := rstrip_by (Ascii.eqb "0") s in rstrip_by (Ascii.eqb ".") t in
        let body :=
          if (-4 <=? x) && (x <? 6) then
            if x <? 0 then trim ("0." +:+ repeat_char "0" (- x - 1) +:+ ds)
            else if x =? 5 then ds else trim (str_take (x + 1) ds +:+ "." +:+ str_drop (x + 1) ds)
          else trim (str_take 1 ds +:+ "." +:+ str_drop 1 ds) +:+ "e" +:+ (if x <? 0 then "-" else "+") +:+
               (if Z.abs x <? 10 then "0" else EmptyString) +:+ show_Z (Z.abs x) in
        if n <? 0 then "-" +:+ body else body
  | None => "nan"
  end.

Definition sign_rate_floor (algo tier : string) : res string :=
  th ← lookup algo ALGO_THRESHOLDS;
  v ← lookup tier (at_floors th);
  Ok (format_g (float_of v)).

Definition hsm_offload_caveat (sig_chosen : string) : string :=
  "A PQC-capable accelerator is present; route " +:+ sig_chosen +:+ " signing through it (e.g. via PKCS#11) so sign throughput is bounded by the accelerator rather than host ISA tier.".

Definition slh_dsa_bytes : res string :=
  entry ← lookup "SLH-DSA-SHA2-128s" PQC_SIZES;
  v ← getitem "sig" entry; Ok (py_str v).

Definition signing_signature (policy isa : string) (accel_pqc : bool) : res sig_choice :=
  if String.eqb policy "cnsa-2.0" then
    if accel_pqc
    then Ok (SigChoice "ML-DSA-87" "ML-DSA-87 per CNSA 2.0; signing offloads to the PQC-capable accelerator, so host sign throughput is not the limit" [])
    else
      floor ← sign_rate_floor "ML-DSA-87" "excellent";
      Ok (if String.eqb isa "excellent"
          then SigChoice "ML-DSA-87" ("ML-DSA-87 per CNSA 2.0; ISA tier 'excellent' sustains ≥" +:+ floor +:+ " sign/s per core at typical request rates") []
          else SigChoice "ML-DSA-87" "ML-DSA-87 mandated by CNSA 2.0"
                 ["Policy mandates ML-DSA-87 but host ISA tier is '" +:+ isa +:+ "' without a PQC accelerator; expect ML-DSA-87 sign throughput below " +:+ floor +:+ " sign/s per core.  Size the signing fleet for it or add a PQC-capable HSM."])
  else
    '(reason, slow) ←
      (if (accel_pqc : bool) then Ok ("ML-DSA-65 — balanced default; signing offloads to the PQC-capable accelerator, so host sign throughput is not the limit", [])
       else if String.eqb isa "excellent" then
         floor ← sign_rate_floor "ML-DSA-65" "excellent";
         Ok ("ML-DSA-65 — sustains ≥" +:+ floor +:+ " sign/s per core on ISA tier 'excellent'; ML-DSA-87 is viable if compliance scope demands it", [])
       else if String.eqb isa "good" then
         Ok ("ML-DSA-65 over ML-DSA-87 because ISA tier is 'good' not 'excellent'; ML-DSA-87 sign throughput would cap the service's request rate", [])
       else if slow_isa isa then
         floor ← sign_rate_floor "ML-DSA-65" "good";
         Ok ("ML-DSA-65 because ISA tier is '" +:+ isa +:+ "' without a PQC accelerator; it is the cheaper-to-sign ML-DSA parameter set",
             ["Host ISA tier is '" +:+ isa +:+ "' without a PQC accelerator; expect ML-DSA-65 sign throughput below " +:+ floor +:+ " sign/s per core.  Size the signing fleet for it or add a PQC-capable HSM."])
       else Ok ("ML-DSA-65 — balanced default for request-rate signing", []));
    slh ← slh_dsa_bytes;
    Ok (SigChoice "ML-DSA-65" reason (slow ++
      ["For low-volume signing (releases, documents), SLH-DSA-SHA2-128s is a conservative hash-based alternative with no lattice assumptions.  Its sign rate (single-digit sign/s) and " +:+ slh +:+ "-byte signatures rule it out for request-rate signing."])).

Definition recommend_signing_service (r : report) (policy : string) : res value :=
  accel_pqc ← accel_pqc_capable (r_accelerators r);
  sg ← signing_signature policy (isa_of r) accel_pqc;
  fk ← fips_kernel r;
  fips ← fips_caveat policy fk;
  recommendation_record r policy "signing-service" (no_kem "Key exchange is not applicable for signing services") (sig_value sg)
    (s_caveats sg ++ (if (accel_pqc : bool) then [hsm_offload_caveat (s_alg sg)] else []) ++ fips).

Definition firmware_signature (policy : string) : res sig_choice :=
  if String.eqb policy "cnsa-2.0" then
    Ok (SigChoice "ML-DSA-87" "ML-DSA-87 mandated by CNSA 2.0; firmware is signed at build time, so sign cost is irrelevant to the choice"
      ["CNSA 2.0 also specifies stateful hash-based signatures (LMS / XMSS, NIST SP 800-208) for software and firmware signing.  They suit long-lived firmware but require strict key-state management, typically inside an HSM.  SLH-DSA is not a CNSA 2.0 algorithm."])
  else
    slh ← slh_dsa_bytes;
    Ok (SigChoice "SLH-DSA-SHA2-128s"
      ("SLH-DSA-SHA2-128s — hash-based, relying only on hash-function security with no lattice assumptions: the most conservative choice for long-lived firmware that must verify for its whole field life.  Build-time signing makes its slow sign rate irrelevant, and " +:+ slh +:+ "-byte signatures are negligible next to firmware images.  ML-DSA-65 is an alternative for performance-sensitive build pipelines.") []).

Definition recommend_firmware_signing (r : report) (policy : string) : res value :=
  accel_pqc ← accel_pqc_capable (r_accelerators r);
  sg ← firmware_signature policy;
  boot_layers ← describe_classical_layers (r_boot_chain r);
  fk ← fips_kernel r;
  fips ← fips_caveat policy fk;
  recommendation_record r policy "firmware-signing" (no_kem "Key exchange is not applicable for firmware signing") (sig_value sg)
    (s_caveats sg ++
     (if (accel_pqc : bool) then ["A PQC-capable accelerator is present; keep the firmware signing key in it and sign " +:+ s_alg sg +:+ " there so the key never leaves the HSM."] else []) ++
     (match boot_layers with
      | [] => []
      | _ => ["This host's own boot chain is classical (" +:+ str_join "; " boot_layers +:+ "): moving firmware signing to " +:+ s_alg sg +:+ " also means enrolling a post-quantum key at each of those layers."]
      end) ++ fips).

Definition ROLE_RECOMMENDERS : list (string * (report -> string -> res value)) := [
  ("tls-server", recommend_tls_server); ("tls-client", recommend_tls_client);
  ("signing-service", recommend_signing_service); ("firmware-signing", recommend_firmware_signing)].

Definition recommend_stub (r : report) (policy role : string) : res value :=
  pref ← lookup policy POLICY_PREFERENCES;
  accel ← accel_pqc_capable (r_accelerators r);
  tl ← timeline policy role;
  Ok (VDict [
    ("role", VStr role); ("policy", VStr policy); ("policy_authority", VStr (p_authority pref));
    ("policy_basis", VStr (p_citation pref)); ("policy_source", VStr (p_source pref));
    ("implemented", VBool false);
    ("note", VStr ("Recommendations for role=" +:+ str_repr role +:+ " are not yet implemented.  Implemented roles: " +:+ str_join ", " (py_sorted str_lt ROLE_RECOMMENDERS.*1) +:+ "."));
    ("host_capability_inputs", VDict [("isa_tier", VStr (isa_of r)); ("pqc_accelerator_present", VBool accel)]);
    ("timeline", tl); ("caveats", VList [])]).

Definition recommend_one (r : report) (policy role : string) : res value :=
  match dget role ROLE_RECOMMENDERS with
  | Some impl => impl r policy
  | None => recommend_stub r policy role
  end.

Definition recommend (r : report) (policy role : string) : res value :=
  if negb (bool_decide (role ∈ VALID_ROLES)) then
    Raise (ValueError ("unknown role " +:+ str_repr role +:+ "; valid roles: " +:+ str_join ", " VALID_ROLES))
  else if String.eqb policy "auto" then
    recs ← mapM (fun p => x ← recommend_one r p role; Ok (p, x)) VALID_POLICIES;
    Ok (VDict [
      ("role", VStr role); ("mode", VStr "auto"); ("hostname", VStr (r_hostname r));
      ("generated_at", VStr (r_generated_at r)); ("recommendations", VDict recs); ("policy_sources", VDict POLICY_SOURCES)])
  else if negb (dmem policy POLICY_PREFERENCES) then
    Raise (ValueError ("unknown policy " +:+ str_repr policy +:+ "; valid policies: " +:+ str_join ", " VALID_POLICIES +:+ " (or 'auto')"))
  else
    x ← recommend_one r policy role;
    Ok (VDict [
      ("role", VStr role); ("mode", VStr "single"); ("policy", VStr policy); ("hostname", VStr (r_hostname r));
      ("generated_at", VStr (r_generated_at r)); ("recommendations", VDict [(policy, x)]); ("policy_sources", VDict POLICY_SOURCES)]).

(** ** Renderers *)

(** [rec[k]] in an f-string. *)
Definition item_text (k : string) (v : value) : res string := x ← getitem k v; Ok (py_str x).

Definition note_of (rec : value) : res string :=
  n ← get_or "note" (VStr "not implemented") rec; Ok (py_str n).

Definition is_implemented (rec : value) : res bool :=
  v ← get_or "implemented" (VBool false) rec; Ok (truthy v).

Definition caveat_list (rec : value) : res (list string) :=
  c ← getitem "caveats" rec;
  if truthy c then l ← py_iter c; Ok (map py_str l) else Ok [].

Definition kem_line (kem : value) : res string :=
  alg ← getitem "algorithm" kem;
  if is_none alg then Ok "  KEM:        n/a"
  else mode ← item_text "mode" kem; Ok ("  KEM:        " +:+ py_str alg +:+ " (" +:+ mode +:+ ")").

Definition render_recommendation_block (rec : value) : res (list string) :=
  policy ← item_text "policy" rec;
  authority ← item_text "policy_authority" rec;
  let head := "Policy: " +:+ policy +:+ " (" +:+ authority +:+ ")" in
  implemented ← is_implemented rec;
  if negb implemented then note ← note_of rec; Ok [head; "  " +:+ note]
  else
    kem ← getitem "kem" rec;
    sg ← getitem "signature" rec;
    h ← getitem "hash" rec;
    line ← kem_line kem;
    kem_reason ← item_text "reason" kem;
    sig_alg ← item_text "algorithm" sg;
    sig_reason ← item_text "reason" sg;
    hash_alg ← item_text "algorithm" h;
    hash_reason ← item_text "reason" h;
    basis ← item_text "policy_basis" rec;
    source ← item_text "policy_source" rec;
    caveats ← caveat_list rec;
    Ok ([head; line; "              Reason: " +:+ kem_reason; "  Signature:  " +:+ sig_alg;
         "              Reason: " +:+ sig_reason; "  Hash:       " +:+ hash_alg; "              Reason: " +:+ hash_reason;
         "  Policy basis: " +:+ basis; "  Source:       " +:+ source] ++
        match caveats with [] => [] | _ => "  Caveats:" :: ((fun c => "    - " +:+ c) <$> caveats) end).

Definition hostname_or_unknown (r : report) : string :=
  if String.eqb (r_hostname r) EmptyString then "unknown" else r_hostname r.

(** [rec["recommendations"].items()]. *)
Definition sub_records (rec : value) : res (list value) :=
  recs ← getitem "recommendations" rec; kvs ← items recs; Ok (kvs.*2).

(** ["\n".join(L).rstrip() + "\n"]. *)
Definition page (lines : list string) : string := rstrip (str_join newline lines) +:+ newline.

Definition render_recommendation_text (r : report) (rec : value) : res string :=
  role ← item_text "role" rec;
  mode ← item_text "mode" rec;
  subs ← sub_records rec;
  blocks ← mapM render_recommendation_block subs;
  Ok (page (["PQC algorithm recommendation — " +:+ hostname_or_unknown r; "Role: " +:+ role; "Mode: " +:+ mode; EmptyString] ++
            concat ((fun b => b ++ [EmptyString]) <$> blocks))).

Definition markdown_block (sub : value) : res (list string) :=
  policy ← item_text "policy" sub;
  authority ← item_text "policy_authority" sub;
  let head := ["## Policy: `" +:+ policy +:+ "` — " +:+ authority; EmptyString] in
  implemented ← is_implemented sub;
  if negb implemented then note ← note_of sub; Ok (head ++ ["> " +:+ note; EmptyString])
  else
    kem ← getitem "kem" sub;
    sg ← getitem "signature" sub;
    h ← getitem "hash" sub;
    alg ← getitem "algorithm" kem;
    let kem_algo := if is_none alg then "n/a" else "`" +:+ py_str alg +:+ "`" in
    kem_mode ← item_text "mode" kem;
    kem_reason ← item_text "reason" kem;
    sig_alg ← item_text "algorithm" sg;
    sig_reason ← item_text "reason" sg;
    hash_alg ← item_text "algorithm" h;
    hash_reason ← item_text "reason" h;
    basis ← item_text "policy_basis" sub;
    source ← item_text "policy_source" sub;
    caveats ← caveat_list sub;
    Ok (head ++
        ["| Primitive | Algorithm | Reason |"; "|-----------|-----------|--------|";
         "| KEM (" +:+ kem_mode +:+ ") | " +:+ kem_algo +:+ " | " +:+ kem_reason +:+ " |";
         "| Signature | `" +:+ sig_alg +:+ "` | " +:+ sig_reason +:+ " |";
         "| Hash | `" +:+ hash_alg +:+ "` | " +:+ hash_reason +:+ " |"; EmptyString;
         "**Policy basis:** " +:+ basis; EmptyString; "**Source:** " +:+ source; EmptyString] ++
        match caveats with
        | [] => []
        | _ => ["**Caveats:**"; EmptyString] ++ ((fun c => "- " +:+ c) <$> caveats) ++ [EmptyString]
        end).

Definition render_recommendation_markdown (r : report) (rec : value) : res string :=
  role ← item_text "role" rec;
  mode ← item_text "mode" rec;
  subs ← sub_records rec;
  blocks ← mapM markdown_block subs;
  Ok (page (["# PQC algorithm recommendation — " +:+ hostname_or_unknown r; EmptyString; "_Generated " +:+ r_generated_at r +:+ "_"; EmptyString;
             "**Role:** `" +:+ role +:+ "` &nbsp;·&nbsp; **Mode:** `" +:+ mode +:+ "`"; EmptyString] ++ concat blocks)).
