(* ===== verification/RecommendTheory.v ===== *)
(** * What [recommend] promises

    For a report of the shape the scanner writes, every role and policy gives
    a record of one shape that the renderers can print; the record follows
    the policy table; the TLS groups it names are exactly the advertised
    groups that carry the recommended KEM. *)

From S2P Require Import Prelude PyStr PyDict PyVal Algorithms Verdict Services Boot Recommend.
Open Scope Z_scope.

(** ** Shapes *)

Definition GROUPS_T : jty := JOpt [("hybrid", JMaybe (JList JStr)); ("pure_pqc", JMaybe (JList JStr))].
Definition OPENSSL_T : jty :=
  JOpt [("available", JAny); ("version", JMaybe JStr); ("tls_groups", JMaybe GROUPS_T); ("cli_probe", JMaybe (JOpt []))].
Definition SUMMARY_T : jty :=
  JOpt [("classical_layers", JMaybe (JList JStr)); ("secure_boot_certificates", JAny); ("secure_boot_algorithms", JMaybe (JList JStr))].
Definition BOOT_T : jty := JOpt [
  ("available", JAny); ("summary", JMaybe SUMMARY_T);
  ("module_signing", JMaybe (JOpt [("sample_module", JMaybe (JOpt [])); ("key_types_configured", JMaybe (JList JStr))]));
  ("ima_evm", JMaybe (JOpt [("certificates", JMaybe (JList (JOpt [])))])); ("tpm", JMaybe (JOpt []))].
Definition KERNEL_T : jty := JOpt [("release", JMaybe JStr)].

(** The sections of a report that [recommend] reads. *)
Definition report_ok (r : report) : bool :=
  forallb (has_type (JOpt [])) (r_accelerators r) && has_type (JOpt [("kernel", JAny)]) (r_fips r) &&
  has_type OPENSSL_T (r_openssl r) && has_type KERNEL_T (r_kernel_info r) && has_type BOOT_T (r_boot_chain r).

Definition KEM_T : jty := JRec [("algorithm", JStr); ("mode", JStr); ("reason", JStr); ("tls_groups", JList JStr)].
Definition NO_KEM_T : jty := JRec [("algorithm", JNone); ("mode", JStr); ("reason", JStr)].
Definition SIG_T : jty := JRec [("algorithm", JStr); ("reason", JStr)].
Definition INPUTS_T : jty :=
  JRec [("isa_tier", JStr); ("pqc_accelerator_present", JBool); ("fips_kernel", JBool); ("openssl_version", JStr); ("kernel_release", JStr)].
Definition TIMELINE_T : jty := JOpt [("sources", JList JStr)].
Definition RECORD_T (kem : jty) : jty := JRec [
  ("role", JStr); ("policy", JStr); ("policy_authority", JStr); ("policy_basis", JStr); ("policy_source", JStr);
  ("implemented", JBool); ("kem", kem); ("signature", SIG_T); ("hash", SIG_T); ("host_capability_inputs", INPUTS_T);
  ("timeline", TIMELINE_T); ("caveats", JList JStr)].
Definition STUB_T : jty := JRec [
  ("role", JStr); ("policy", JStr); ("policy_authority", JStr); ("policy_basis", JStr); ("policy_source", JStr);
  ("implemented", JBool); ("note", JStr);
  ("host_capability_inputs", JRec [("isa_tier", JStr); ("pqc_accelerator_present", JBool)]);
  ("timeline", TIMELINE_T); ("caveats", JList JStr)].

(** The record of a role. *)
Definition role_type (role : string) : jty :=
  if String.eqb role "tls-server" || String.eqb role "tls-client" then RECORD_T KEM_T
  else if String.eqb role "generic" then STUB_T else RECORD_T NO_KEM_T.

(** The answer of [recommend]. *)
Definition answer_type (policy role : string) : jty :=
  if String.eqb policy "auto" then
    JRec [("role", JStr); ("mode", JStr); ("hostname", JStr); ("generated_at", JStr);
          ("recommendations", JRec ((fun p => (p, role_type role)) <$> VALID_POLICIES)); ("policy_sources", JAny)]
  else
    JRec [("role", JStr); ("mode", JStr); ("policy", JStr); ("hostname", JStr); ("generated_at", JStr);
          ("recommendations", JRec [(policy, role_type role)]); ("policy_sources", JAny)].

(** ** The helpers succeed on these shapes *)

Ltac mem := apply (bool_decide_unpack _); vm_compute; exact I.
(** Membership in a short literal list. *)
Ltac here := repeat (first [left | right]; try reflexivity); fail.

Lemma por_empty t fields v : t = JOpt fields -> has_type t v = true -> has_type t (por v (VDict [])) = true.
Proof.
  intros -> Hv. unfold por. destruct (truthy v); [done|]. by apply has_type_opt, Forall_forall.
Qed.

(** A loop over a list whose body never raises. *)
Lemma mapM_total {A B} (f : A -> res B) (P : A -> bool) l :
  (forall x, P x = true -> exists y, f x = Ok y) -> forallb P l = true -> exists k, mapM f l = Ok k.
Proof.
  intros Hf. induction l as [|x l IH]; [by exists []|]. cbn [forallb]. rewrite andb_true_iff. intros [Hx Hl].
  destruct (Hf x Hx) as [y Hy]. destruct (IH Hl) as [k Hk]. exists (y :: k).
  change (mapM f (x :: l)) with (y ← f x; z ← mapM f l; mret (y :: z)). rewrite Hy. cbn [mbind res_bind]. by rewrite Hk.
Qed.

Lemma accel_ok l : forallb (has_type (JOpt [])) l = true -> exists b, accel_pqc_capable l = Ok b.
Proof.
  unfold accel_pqc_capable. induction l as [|a l IH]; [by exists false|]. cbn [forallb anyM]. rewrite andb_true_iff.
  intros [Ha Hl]. destruct (get_opt_any _ _ "pqc_capable" Ha) as [x ->]. cbn [mbind res_bind].
  destruct (truthy x); [by exists true|by apply IH].
Qed.

Lemma text_of_opt fields v k : has_type (JOpt fields) v = true -> exists s, text_of k v = Ok s.
Proof. intros Hv. unfold text_of. destruct (get_opt_any _ _ k Hv) as [x ->]. cbn. eauto. Qed.

Lemma layer_line_ok name l line out :
  (exists s, line = Ok s) -> exists out', layer_line name (VList l) line out = Ok out'.
Proof. intros [s ->]. unfold layer_line. cbn. destruct (existsb _ _); cbn; eauto. Qed.

Lemma joined_opt fields v k sep dflt :
  has_type (JOpt fields) v = true -> (k, JMaybe (JList JStr)) ∈ fields -> forallb (has_type JStr) dflt = true ->
  exists x s, get k v = Ok x /\ joined sep dflt x = Ok s.
Proof.
  intros Hv Hk Hd. destruct (get_opt _ _ _ _ Hv Hk) as (x & Hx & Hor). exists x. unfold joined, por.
  destruct (truthy x) eqn:Et.
  - destruct Hor as [->|Ht]; [done|]. unfold JMaybe in Ht. cbn [has_type] in Ht. rewrite orb_true_iff in Ht.
    destruct Ht as [Hn|Ht]; [by destruct x|]. destruct x; try done. destruct (typed_strs _ Ht) as [ss ->].
    eexists. split; [done|]. cbn [py_iter mbind res_bind]. by rewrite strs_of_VStr.
  - destruct (typed_strs _ Hd) as [ss ->]. eexists. split; [done|]. cbn [py_iter mbind res_bind]. by rewrite strs_of_VStr.
Qed.

Lemma boot_layers_ok bc : has_type BOOT_T bc = true -> exists l, describe_classical_layers bc = Ok l.
Proof.
  intros Hb. unfold describe_classical_layers. destruct (get_opt_any _ _ "available" Hb) as [a ->]. cbn [mbind res_bind].
  destruct (truthy a); cbn [negb]; [|by eexists].
  destruct (get_d_opt _ _ "summary" _ Hb ltac:(here)) as (sm & -> & Hsm). cbn [mbind res_bind].
  destruct (get_opt _ _ "classical_layers" _ Hsm ltac:(here)) as (cl & -> & Hcl). cbn [mbind res_bind].
  assert (exists l, por cl (VList []) = VList l) as [l ->].
  { unfold por. destruct (truthy cl) eqn:Et; [|by exists []]. destruct Hcl as [->|Ht]; [done|].
    unfold JMaybe in Ht. cbn [has_type] in Ht. rewrite orb_true_iff in Ht. destruct Ht as [Hn|Ht]; [by destruct cl|].
    destruct cl; try done. by exists l. }
  destruct (layer_line_ok "secure_boot" l (describe_secure_boot sm) []) as [o1 ->].
  { unfold describe_secure_boot. destruct (text_of_opt _ _ "secure_boot_certificates" Hsm) as [n ->]. cbn [mbind res_bind].
    destruct (joined_opt _ _ "secure_boot_algorithms" ", " [] Hsm ltac:(here) eq_refl) as (x & s & -> & Hs). cbn [mbind res_bind].
    rewrite Hs. cbn. eauto. }
  cbn [mbind res_bind]. destruct (layer_line_ok "module_signing" l (describe_module_signing bc) o1) as [o2 ->].
  { unfold describe_module_signing. destruct (get_d_opt _ _ "module_signing" _ Hb ltac:(here)) as (md & -> & Hmd). cbn [mbind res_bind].
    destruct (get_d_opt _ _ "sample_module" _ Hmd ltac:(here)) as (sa & -> & Hsa). cbn [mbind res_bind].
    destruct (get_opt_any _ _ "parsed" Hsa) as [p ->]. cbn [mbind res_bind]. destruct (truthy p).
    - destruct (get_opt_any _ _ "key_size" Hsa) as [ks ->]. cbn [mbind res_bind].
      destruct (text_of_opt _ _ "signature_algorithm" Hsa) as [s1 ->]. cbn [mbind res_bind].
      destruct (text_of_opt _ _ "digest_algorithm" Hsa) as [s2 ->]. cbn. eauto.
    - destruct (joined_opt _ _ "key_types_configured" "/" [VStr "?"] Hmd ltac:(here) eq_refl) as (x & s & -> & Hs).
      cbn [mbind res_bind]. rewrite Hs. cbn. eauto. }
  cbn [mbind res_bind]. destruct (layer_line_ok "ima" l (describe_ima bc) o2) as [o3 ->].
  { unfold describe_ima. destruct (get_d_opt _ _ "ima_evm" _ Hb ltac:(here)) as (im & -> & Him). cbn [mbind res_bind].
    destruct (get_l_opt _ _ "certificates" _ Him ltac:(here)) as (cs & -> & Hcs). cbn [mbind res_bind].
    destruct (mapM_total (text_of "key_algorithm") (has_type (JOpt [])) cs) as [ks ->]; [|done|cbn; eauto].
    intros x Hx. by eapply text_of_opt. }
  cbn [mbind res_bind]. apply layer_line_ok. unfold describe_tpm.
  destruct (get_d_opt _ _ "tpm" _ Hb ltac:(here)) as (tp & -> & Htp). cbn [mbind res_bind].
  destruct (text_of_opt _ _ "spec_revision" Htp) as [s ->]. cbn. eauto.
Qed.

(** ** TLS groups *)

(** The advertised names of a bucket. *)
Definition bucket_key (mode : string) : string := if String.eqb mode "hybrid" then "hybrid" else "pure_pqc".
Definition registered_kem (kem n : string) : bool :=
  match dget n TLS_PQC_GROUPS with Some g => String.eqb (g_kem g) kem | None => false end.

Lemma carries_name kem n : carries kem (VStr n) = Ok (if registered_kem kem n then Some n else None).
Proof. unfold carries, table_get, registered_kem. by destruct (dget n TLS_PQC_GROUPS) as [g|]. Qed.

Lemma carries_names kem ss :
  mapM (carries kem) (VStr <$> ss) = Ok ((fun n => if registered_kem kem n then Some n else None) <$> ss).
Proof.
  induction ss as [|n ss IH]; [done|].
  change (mapM (carries kem) (VStr <$> n :: ss)) with
    (y ← carries kem (VStr n); z ← mapM (carries kem) (VStr <$> ss); mret (y :: z)).
  by rewrite IH, carries_name.
Qed.

Lemma omap_filter (p : string -> bool) ss :
  omap id ((fun n => if p n then Some n else None) <$> ss) = List.filter p ss.
Proof. induction ss as [|n ss IH]; [done|]. csimpl. destruct (p n); cbn; by rewrite IH. Qed.

Lemma bucket_names openssl mode :
  has_type OPENSSL_T openssl = true ->
  exists groups ss, get_d "tls_groups" openssl = Ok groups /\ has_type GROUPS_T groups = true /\
    get_l (bucket_key mode) groups = Ok (VStr <$> ss).
Proof.
  intros Ho. destruct (get_d_opt _ _ "tls_groups" _ Ho ltac:(here)) as (g & -> & Hg). exists g.
  assert ((bucket_key mode, JMaybe (JList JStr)) ∈ [("hybrid", JMaybe (JList JStr)); ("pure_pqc", JMaybe (JList JStr))]) as Hk
    by (unfold bucket_key; destruct (String.eqb mode "hybrid"); here).
  destruct (get_l_opt _ _ _ _ Hg Hk) as (l & Hl & Hty). destruct (typed_strs _ Hty) as [ss ->]. eauto.
Qed.

Lemma tls_groups_for_ok openssl kem mode groups ss :
  get_d "tls_groups" openssl = Ok groups -> get_l (bucket_key mode) groups = Ok (VStr <$> ss) ->
  tls_groups_for openssl kem mode = Ok (py_sorted str_lt (List.filter (registered_kem kem) ss)).
Proof.
  intros Hg Hl. unfold tls_groups_for. rewrite Hg. cbn [mbind res_bind]. unfold bucket_key in Hl. rewrite Hl. cbn [mbind res_bind].
  rewrite carries_names. cbn [mbind res_bind]. by rewrite omap_filter.
Qed.

Lemma sorted_names_ok ss : sorted_names (VStr <$> ss) = Ok (str_join ", " (py_sorted str_lt ss)).
Proof. unfold sorted_names. by rewrite strs_of_VStr. Qed.

Lemma probed_ok openssl : has_type OPENSSL_T openssl = true -> exists b, openssl_cli_probed openssl = Ok b.
Proof.
  intros Ho. unfold openssl_cli_probed. destruct (get_opt_any _ _ "available" Ho) as [a ->]. cbn [mbind res_bind].
  destruct (truthy a); cbn [negb]; [|by eexists].
  destruct (get_d_opt _ _ "cli_probe" _ Ho ltac:(here)) as (p & Hp & Hty). unfold get_d in Hp. bind Hp as x Hx.
  injection Hp as <-. rewrite Hx. cbn [mbind res_bind]. destruct (has_type_dict _ _ Hty) as [d ->]. cbn. eauto.
Qed.

Lemma group_caveats_ok openssl kem mode endpoint :
  has_type OPENSSL_T openssl = true ->
  exists groups ss cs, get_d "tls_groups" openssl = Ok groups /\ get_l (bucket_key mode) groups = Ok (VStr <$> ss) /\
    tls_group_caveats openssl kem mode endpoint = Ok (py_sorted str_lt (List.filter (registered_kem kem) ss), cs).
Proof.
  intros Ho. destruct (bucket_names openssl mode Ho) as (g & ss & Hg & Hty & Hss). exists g, ss.
  unfold tls_group_caveats. rewrite (tls_groups_for_ok _ _ _ _ _ Hg Hss), Hg. cbn [mbind res_bind].
  destruct (get_l_opt _ _ "hybrid" _ Hty ltac:(here)) as (hy & Hhy & Hyt). destruct (typed_strs _ Hyt) as [hs ->].
  destruct (get_l_opt _ _ "pure_pqc" _ Hty ltac:(here)) as (pu & Hpu & Hpt). destruct (typed_strs _ Hpt) as [ps ->].
  rewrite Hhy, Hpu. cbn [mbind res_bind]. destruct (get_opt_any _ _ "available" Ho) as [a ->]. cbn [mbind res_bind].
  destruct (truthy a); [|by eexists]. destruct (probed_ok _ Ho) as [b ->]. cbn [mbind res_bind].
  destruct b; cbn [negb].
  - repeat (match goal with |- context [if ?c then _ else _] => destruct c end; try (by eexists));
      rewrite sorted_names_ok; by eexists.
  - destruct (get_d_opt _ _ "cli_probe" _ Ho ltac:(here)) as (p & -> & Hp). cbn [mbind res_bind].
    destruct (has_type_dict _ _ Hp) as [d ->]. by eexists.
Qed.

(** ** Records *)

(** What a record says, read field by field. *)
Record says (pref : preference) (role policy : string) (kem sg : value) (cs : list string) (v : value) : Prop := {
  sy_role : getitem "role" v = Ok (VStr role);
  sy_policy : getitem "policy" v = Ok (VStr policy);
  sy_implemented : getitem "implemented" v = Ok (VBool true);
  sy_kem : getitem "kem" v = Ok kem;
  sy_signature : getitem "signature" v = Ok sg;
  sy_hash : (h ← getitem "hash" v; getitem "algorithm" h) = Ok (VStr (p_hash_primary pref));
  sy_caveats : getitem "caveats" v = Ok (VStrs cs) }.

Lemma pref_ok policy : policy ∈ VALID_POLICIES -> exists pref, lookup policy POLICY_PREFERENCES = Ok pref /\ dget policy POLICY_PREFERENCES = Some pref.
Proof. intros H. repeat (apply elem_of_cons in H as [->|H]; [by eexists|]). by apply not_elem_of_nil in H. Qed.

Lemma timeline_ok policy role : policy ∈ VALID_POLICIES -> role ∈ VALID_ROLES -> exists tl, timeline policy role = Ok tl /\ has_type TIMELINE_T tl = true.
Proof.
  intros Hp Hr. repeat (apply elem_of_cons in Hp as [->|Hp];
    [repeat (apply elem_of_cons in Hr as [->|Hr]; [eexists; split; vm_compute; reflexivity|]); by apply not_elem_of_nil in Hr|]).
  by apply not_elem_of_nil in Hp.
Qed.

Lemma text_or_empty_ok fields v k :
  has_type (JOpt fields) v = true -> (k, JMaybe JStr) ∈ fields -> exists s, text_or_empty k v = Ok (VStr s).
Proof.
  intros Hv Hk. unfold text_or_empty. pose proof (por_empty _ fields v eq_refl Hv) as Hv'.
  destruct (get_opt _ _ _ _ Hv' Hk) as (x & -> & Hor). cbn [mbind res_bind].
  destruct Hor as [->|Ht]; [by eexists|]. unfold JMaybe in Ht. cbn [has_type] in Ht. rewrite orb_true_iff in Ht.
  destruct Ht as [Hn|Ht]; destruct x; try done; [by eexists|]. unfold por. destruct (truthy (VStr s)); by eexists.
Qed.

Section Record.
Context (r : report).
Hypothesis Hr : report_ok r = true.

Lemma report_parts :
  forallb (has_type (JOpt [])) (r_accelerators r) = true /\ has_type (JOpt [("kernel", JAny)]) (r_fips r) = true /\
  has_type OPENSSL_T (r_openssl r) = true /\ has_type KERNEL_T (r_kernel_info r) = true /\ has_type BOOT_T (r_boot_chain r) = true.
Proof. unfold report_ok in Hr. rewrite !andb_true_iff in Hr. tauto. Qed.

Lemma fips_kernel_ok : exists b, fips_kernel r = Ok b.
Proof.
  destruct report_parts as (_ & Hf & _). unfold fips_kernel.
  destruct (get_opt_any _ _ "kernel" (por_empty _ _ _ eq_refl Hf)) as [x ->]. cbn. eauto.
Qed.

Lemma fips_caveat_ok policy b : policy ∈ VALID_POLICIES -> exists cs, fips_caveat policy b = Ok cs.
Proof. intros Hp. unfold fips_caveat. destruct (pref_ok _ Hp) as (p & -> & _). cbn. eauto. Qed.

Lemma record_ok policy role kem sg cs kt :
  policy ∈ VALID_POLICIES -> role ∈ VALID_ROLES -> has_type kt kem = true -> has_type SIG_T sg = true ->
  exists v pref, recommendation_record r policy role kem sg cs = Ok v /\ dget policy POLICY_PREFERENCES = Some pref /\
    has_type (RECORD_T kt) v = true /\ says pref role policy kem sg cs v.
Proof.
  intros Hp Hrole Hk Hs. destruct report_parts as (Ha & _ & Ho & Hki & _). unfold recommendation_record.
  destruct (pref_ok _ Hp) as (pref & -> & Hd). cbn [mbind res_bind].
  destruct (accel_ok _ Ha) as [b ->]. cbn [mbind res_bind]. destruct fips_kernel_ok as [f ->]. cbn [mbind res_bind].
  destruct (text_or_empty_ok _ _ "version" Ho ltac:(here)) as [ver ->]. cbn [mbind res_bind].
  destruct (text_or_empty_ok _ _ "release" Hki ltac:(here)) as [rel ->]. cbn [mbind res_bind].
  destruct (timeline_ok _ role Hp Hrole) as (tl & -> & Htl). cbn [mbind res_bind].
  eexists _, pref. split; [reflexivity|]. split; [done|]. split; [|by split].
  unfold RECORD_T. apply has_type_rec. unfold has_fields. pose proof (has_type_strs cs).
  repeat (apply Forall2_cons; split; [split; [reflexivity|cbn [fst snd]; first [done | assumption]]|]). apply Forall2_nil. exact I.
Qed.
End Record.

(** ** Roles *)

(** The KEM part of a TLS role: the policy's KEM and mode, with the
    advertised groups that carry it. *)
Definition tls_kem_says (openssl : value) (pref : preference) (kem : value) : Prop :=
  let mode := if String.eqb (p_hybrid_policy pref) "recommended" then "hybrid" else "pure" in
  exists reason groups ss,
    get_d "tls_groups" openssl = Ok groups /\ get_l (bucket_key mode) groups = Ok (VStr <$> ss) /\
    kem = VDict [("algorithm", VStr (p_kem_primary pref)); ("mode", VStr mode); ("reason", VStr reason);
                 ("tls_groups", VStrs (py_sorted str_lt (List.filter (registered_kem (p_kem_primary pref)) ss)))].

Definition kem_says (role : string) (openssl : value) (pref : preference) (kem : value) : Prop :=
  if String.eqb role "tls-server" || String.eqb role "tls-client" then tls_kem_says openssl pref kem
  else exists reason, kem = VDict [("algorithm", VNone); ("mode", VStr "n/a"); ("reason", VStr reason)].

(** The signature a policy prescribes for a role: firmware gets the
    hash-based one outside CNSA 2.0. *)
Definition role_signature (policy role : string) (pref : preference) : string :=
  if String.eqb role "firmware-signing" && negb (String.eqb policy "cnsa-2.0") then "SLH-DSA-SHA2-128s" else p_sig_primary pref.

Definition IMPLEMENTED : list string := ["tls-server"; "tls-client"; "signing-service"; "firmware-signing"].

(** The record of an implemented role. *)
Definition role_record (r : report) (policy role : string) (v : value) : Prop :=
  exists pref kem sg cs, dget policy POLICY_PREFERENCES = Some pref /\ has_type (role_type role) v = true /\
    says pref role policy kem sg cs v /\ getitem "algorithm" sg = Ok (VStr (role_signature policy role pref)) /\
    kem_says role (por (r_openssl r) (VDict [])) pref kem.

Ltac policies H := repeat (apply elem_of_cons in H as [->|H]; [|]); [..|by apply not_elem_of_nil in H].

Lemma kem_ok policy isa a :
  policy ∈ VALID_POLICIES ->
  exists k pref, recommend_kem policy isa a = Ok k /\ dget policy POLICY_PREFERENCES = Some pref /\
    k_alg k = p_kem_primary pref /\
    k_mode k = (if String.eqb (p_hybrid_policy pref) "recommended" then "hybrid" else "pure").
Proof.
  intros H. unfold recommend_kem. policies H; do 2 eexists; split_and!; try reflexivity;
    cbn -[String.append]; by destruct (isa_supports_large_params isa a).
Qed.

Lemma server_signature_alg policy isa a pref :
  policy ∈ VALID_POLICIES -> dget policy POLICY_PREFERENCES = Some pref -> s_alg (server_signature policy isa a) = p_sig_primary pref.
Proof.
  intros H. unfold server_signature. policies H; intros [= <-]; try done. cbn. by destruct (isa_supports_large_params isa a).
Qed.

Lemma client_signature_alg policy isa a pref :
  policy ∈ VALID_POLICIES -> dget policy POLICY_PREFERENCES = Some pref -> s_alg (client_signature policy isa a) = p_sig_primary pref.
Proof. intros H. unfold client_signature. policies H; intros [= <-]; try done. cbn. by destruct (_ && _). Qed.

Lemma signing_signature_ok policy isa a pref :
  policy ∈ VALID_POLICIES -> dget policy POLICY_PREFERENCES = Some pref ->
  exists s, signing_signature policy isa a = Ok s /\ s_alg s = p_sig_primary pref.
Proof.
  intros H. unfold signing_signature.
  assert (exists f1, sign_rate_floor "ML-DSA-87" "excellent" = Ok f1) as [f1 H1] by by eexists.
  assert (exists f2, sign_rate_floor "ML-DSA-65" "excellent" = Ok f2) as [f2 H2] by by eexists.
  assert (exists f3, sign_rate_floor "ML-DSA-65" "good" = Ok f3) as [f3 H3] by by eexists.
  assert (exists sl, slh_dsa_bytes = Ok sl) as [sl H4] by by eexists.
  rewrite H1, H2, H3, H4.
  generalize (String.eqb isa "excellent") (String.eqb isa "good") (slow_isa isa). intros top good slow.
  policies H; intros [= <-]; destruct a, top, good, slow; eexists; split; reflexivity.
Qed.

Lemma firmware_signature_ok policy pref :
  policy ∈ VALID_POLICIES -> dget policy POLICY_PREFERENCES = Some pref ->
  exists s, firmware_signature policy = Ok s /\ s_alg s = role_signature policy "firmware-signing" pref.
Proof. intros H. policies H; intros [= <-]; by eexists. Qed.

Lemma share_caveat_ok k pref :
  k_alg k = p_kem_primary pref -> (exists policy, dget policy POLICY_PREFERENCES = Some pref) -> exists cs, share_caveat k = Ok cs.
Proof.
  intros Hk [policy Hp]. unfold share_caveat, share_bytes. rewrite Hk.
  apply dget_elem_of in Hp. repeat (apply elem_of_cons in Hp as [[= -> ->]|Hp]; [by eexists|]). by apply not_elem_of_nil in Hp.
Qed.

Lemma has_type_kem_value k gs : has_type KEM_T (kem_value k gs) = true.
Proof.
  apply has_type_rec. unfold has_fields. pose proof (has_type_strs gs).
  repeat (apply Forall2_cons; split; [split; [reflexivity|cbn [fst snd]; first [done | assumption]]|]). by apply Forall2_nil.
Qed.

Section Roles.
Context (r : report).
Hypothesis Hr : report_ok r = true.

Lemma openssl_or_empty : has_type OPENSSL_T (por (r_openssl r) (VDict [])) = true.
Proof. destruct (report_parts r Hr) as (_ & _ & Ho & _). by eapply por_empty. Qed.

(** The last steps every role shares. *)
Lemma role_tail policy role kem sg cs pref kt :
  policy ∈ VALID_POLICIES -> role ∈ VALID_ROLES -> dget policy POLICY_PREFERENCES = Some pref ->
  role_type role = RECORD_T kt -> has_type kt kem = true -> has_type SIG_T sg = true ->
  getitem "algorithm" sg = Ok (VStr (role_signature policy role pref)) ->
  kem_says role (por (r_openssl r) (VDict [])) pref kem ->
  exists v, (fk ← fips_kernel r; fips ← fips_caveat policy fk; recommendation_record r policy role kem sg (cs fips)) = Ok v /\
    role_record r policy role v.
Proof.
  intros Hp Hrole Hpref Ht Hk Hs Hsig Hkem. destruct (fips_kernel_ok r Hr) as [fk ->]. cbn [mbind res_bind].
  destruct (fips_caveat_ok policy fk Hp) as [fips ->]. cbn [mbind res_bind].
  destruct (record_ok r Hr policy role kem sg (cs fips) kt Hp Hrole Hk Hs) as (v & pref' & -> & Hpref' & Hty & Hsay).
  assert (pref' = pref) as -> by congruence. exists v. split; [done|]. exists pref, kem, sg, (cs fips). by rewrite Ht.
Qed.

Lemma tls_server_ok policy : policy ∈ VALID_POLICIES -> exists v, recommend_tls_server r policy = Ok v /\ role_record r policy "tls-server" v.
Proof.
  intros Hp. destruct (report_parts r Hr) as (Ha & _). unfold recommend_tls_server.
  destruct (accel_ok _ Ha) as [a ->]. cbn [mbind res_bind].
  destruct (kem_ok policy (isa_of r) a Hp) as (k & pref & -> & Hpref & Hk & Hm). cbn [mbind res_bind].
  destruct (group_caveats_ok _ (k_alg k) (k_mode k) "server" openssl_or_empty) as (g & ss & gc & Hg & Hss & ->). cbn [mbind res_bind].
  apply (role_tail policy "tls-server" _ _ (fun fips => _ ++ _ ++ _ ++ fips) pref KEM_T); try done; [here|apply has_type_kem_value| |].
  - cbn [sig_value getitem dget]. cbn. by rewrite (server_signature_alg _ _ _ _ Hp Hpref).
  - exists (k_reason k), g, ss. rewrite <-Hm, <-Hk. done.
Qed.

Lemma tls_client_ok policy : policy ∈ VALID_POLICIES -> exists v, recommend_tls_client r policy = Ok v /\ role_record r policy "tls-client" v.
Proof.
  intros Hp. destruct (report_parts r Hr) as (Ha & _). unfold recommend_tls_client.
  destruct (accel_ok _ Ha) as [a ->]. cbn [mbind res_bind].
  destruct (kem_ok policy (isa_of r) a Hp) as (k & pref & -> & Hpref & Hk & Hm). cbn [mbind res_bind].
  destruct (group_caveats_ok _ (k_alg k) (k_mode k) "client" openssl_or_empty) as (g & ss & gc & Hg & Hss & ->). cbn [mbind res_bind].
  destruct (share_caveat_ok k pref Hk ltac:(eauto)) as [sc ->]. cbn [mbind res_bind].
  apply (role_tail policy "tls-client" _ _ (fun fips => _ ++ _ ++ _ ++ _ ++ fips) pref KEM_T); try done; [here|apply has_type_kem_value| |].
  - cbn. by rewrite (client_signature_alg _ _ _ _ Hp Hpref).
  - exists (k_reason k), g, ss. rewrite <-Hm, <-Hk. done.
Qed.

Lemma signing_service_ok policy : policy ∈ VALID_POLICIES -> exists v, recommend_signing_service r policy = Ok v /\ role_record r policy "signing-service" v.
Proof.
  intros Hp. destruct (report_parts r Hr) as (Ha & _). unfold recommend_signing_service.
  destruct (accel_ok _ Ha) as [a ->]. cbn [mbind res_bind]. destruct (pref_ok policy Hp) as (pref & _ & Hpref).
  destruct (signing_signature_ok policy (isa_of r) a pref Hp Hpref) as (s & -> & Hs). cbn [mbind res_bind].
  apply (role_tail policy "signing-service" _ _ (fun fips => _ ++ _ ++ fips) pref NO_KEM_T); try done; [here| |by eexists].
  cbn. by rewrite Hs.
Qed.

Lemma firmware_signing_ok policy : policy ∈ VALID_POLICIES -> exists v, recommend_firmware_signing r policy = Ok v /\ role_record r policy "firmware-signing" v.
Proof.
  intros Hp. destruct (report_parts r Hr) as (Ha & _ & _ & _ & Hb). unfold recommend_firmware_signing.
  destruct (accel_ok _ Ha) as [a ->]. cbn [mbind res_bind]. destruct (pref_ok policy Hp) as (pref & _ & Hpref).
  destruct (firmware_signature_ok policy pref Hp Hpref) as (s & -> & Hs). cbn [mbind res_bind].
  destruct (boot_layers_ok _ Hb) as [l ->]. cbn [mbind res_bind].
  apply (role_tail policy "firmware-signing" _ _ (fun fips => _ ++ _ ++ _ ++ fips) pref NO_KEM_T); try done; [here| |by eexists].
  cbn. by rewrite Hs.
Qed.

Lemma recommend_one_ok policy role :
  policy ∈ VALID_POLICIES -> role ∈ IMPLEMENTED -> exists v, recommend_one r policy role = Ok v /\ role_record r policy role v.
Proof.
  intros Hp H. policies H; unfold recommend_one; cbn [ROLE_RECOMMENDERS dget].
  - by apply tls_server_ok.
  - by apply tls_client_ok.
  - by apply signing_service_ok.
  - by apply firmware_signing_ok.
Qed.
End Roles.

(** ** The renderers *)

(** Reads a required field of a value of record type [H]. *)
Ltac field H k := let x := fresh "x" in let Hx := fresh "Hx" in let Hxt := fresh "Hxt" in
  destruct (getitem_rec _ _ k _ H ltac:(mem) ltac:(here)) as (x & Hx & Hxt).
Ltac text H k := unfold item_text at 1; field H k;
  match goal with Hx : getitem k _ = Ok _ |- _ => rewrite Hx; clear Hx end; cbn [mbind res_bind].

Lemma caveat_list_ok v : (exists l, getitem "caveats" v = Ok l /\ has_type (JList JStr) l = true) -> exists cs, caveat_list v = Ok cs.
Proof.
  intros (l & Hl & Ht). unfold caveat_list. rewrite Hl. cbn [mbind res_bind]. destruct l; try done.
  destruct (truthy _); [|by eexists]. by eexists.
Qed.

Lemma implemented_ok v b : getitem "implemented" v = Ok (VBool b) -> is_implemented v = Ok b.
Proof.
  unfold is_implemented, getitem, get_or. destruct v; try done. destruct (dget "implemented" d); [|done]. by intros [= ->].
Qed.

(** The fields the renderers read of an implemented record. *)
Lemma kem_fields kt v :
  kt = KEM_T \/ kt = NO_KEM_T -> has_type kt v = true ->
  exists alg mode reason, getitem "algorithm" v = Ok alg /\ getitem "mode" v = Ok (VStr mode) /\ getitem "reason" v = Ok (VStr reason).
Proof.
  intros [-> | ->] H; field H "algorithm"; field H "mode"; field H "reason";
    destruct x0, x1; try done; eauto 10.
Qed.

Section Render.
Context (kt : jty) (v : value).
Hypothesis Hkt : kt = KEM_T \/ kt = NO_KEM_T.
Hypothesis Hv : has_type (RECORD_T kt) v = true.
Hypothesis Himpl : getitem "implemented" v = Ok (VBool true).

Ltac steps :=
  rewrite (implemented_ok _ _ Himpl); cbn [mbind res_bind negb].

Lemma record_renders : (exists l, render_recommendation_block v = Ok l) /\ (exists l, markdown_block v = Ok l).
Proof.
  destruct (getitem_rec _ _ "policy" _ Hv ltac:(mem) ltac:(here)) as (po & Hpo & _).
  destruct (getitem_rec _ _ "policy_authority" _ Hv ltac:(mem) ltac:(here)) as (pa & Hpa & _).
  destruct (getitem_rec _ _ "policy_basis" _ Hv ltac:(mem) ltac:(here)) as (pb & Hpb & _).
  destruct (getitem_rec _ _ "policy_source" _ Hv ltac:(mem) ltac:(here)) as (ps & Hps & _).
  destruct (getitem_rec _ _ "kem" _ Hv ltac:(mem) ltac:(here)) as (k & Hk & Hkty).
  destruct (getitem_rec _ _ "signature" _ Hv ltac:(mem) ltac:(here)) as (s & Hs & Hsty).
  destruct (getitem_rec _ _ "hash" _ Hv ltac:(mem) ltac:(here)) as (h & Hh & Hhty).
  destruct (caveat_list_ok v) as [cs Hcs]; [eapply getitem_rec; [exact Hv|mem|here]|].
  destruct (kem_fields kt k Hkt Hkty) as (alg & mode & reason & Ha & Hm & Hre).
  destruct (getitem_rec _ _ "algorithm" _ Hsty ltac:(mem) ltac:(here)) as (sa & Hsa & _).
  destruct (getitem_rec _ _ "reason" _ Hsty ltac:(mem) ltac:(here)) as (sr & Hsr & _).
  destruct (getitem_rec _ _ "algorithm" _ Hhty ltac:(mem) ltac:(here)) as (ha & Hha & _).
  destruct (getitem_rec _ _ "reason" _ Hhty ltac:(mem) ltac:(here)) as (hr & Hhr & _).
  split; unfold render_recommendation_block, markdown_block, kem_line, item_text;
    rewrite Hpo, Hpa; cbn [mbind res_bind]; rewrite (implemented_ok _ _ Himpl); cbn [mbind res_bind negb];
    rewrite Hk, Hs, Hh; cbn [mbind res_bind]; rewrite Ha; cbn [mbind res_bind];
    rewrite ?Hm, Hre, Hsa, Hsr, Hha, Hhr, Hpb, Hps, Hcs; cbn [mbind res_bind].
  - destruct (is_none alg); cbn [mbind res_bind]; by eexists.
  - by eexists.
Qed.
End Render.

Lemma stub_renders v :
  has_type STUB_T v = true -> getitem "implemented" v = Ok (VBool false) ->
  (exists l, render_recommendation_block v = Ok l) /\ (exists l, markdown_block v = Ok l).
Proof.
  intros Hv Hi.
  destruct (getitem_rec _ _ "policy" _ Hv ltac:(mem) ltac:(here)) as (po & Hpo & _).
  destruct (getitem_rec _ _ "policy_authority" _ Hv ltac:(mem) ltac:(here)) as (pa & Hpa & _).
  assert (exists n, note_of v = Ok n) as [n Hn].
  { destruct v as [| | | | | |d]; try done. unfold note_of, get_or. cbn. eauto. }
  split; unfold render_recommendation_block, markdown_block, item_text;
    rewrite Hpo, Hpa; cbn [mbind res_bind]; rewrite (implemented_ok _ _ Hi); cbn [mbind res_bind negb]; rewrite Hn; by eexists.
Qed.

(** ** Every role *)

Lemma role_cases role : role ∈ VALID_ROLES -> role ∈ IMPLEMENTED \/ role = "generic".
Proof. intros H. policies H; ((left; here) || by right). Qed.

Lemma role_type_implemented role : role ∈ IMPLEMENTED -> exists kt, role_type role = RECORD_T kt /\ (kt = KEM_T \/ kt = NO_KEM_T).
Proof. intros H. policies H; eexists; (split; [reflexivity|]); auto. Qed.

Lemma recommend_one_typed r policy role :
  report_ok r = true -> policy ∈ VALID_POLICIES -> role ∈ VALID_ROLES ->
  exists v, recommend_one r policy role = Ok v /\ has_type (role_type role) v = true /\
    (exists l, render_recommendation_block v = Ok l) /\ (exists l, markdown_block v = Ok l).
Proof.
  intros Hr Hp [Hi| ->]%role_cases.
  - destruct (recommend_one_ok r Hr policy role Hp Hi) as (v & Hv & pref & kem & sg & cs & _ & Hty & Hsay & _).
    exists v. split; [done|]. split; [done|]. destruct (role_type_implemented _ Hi) as (kt & Ht & Hk).
    rewrite Ht in Hty. apply (record_renders kt); [done|done|apply Hsay].
  - unfold recommend_one. cbn [ROLE_RECOMMENDERS dget]. change (dget "generic" ROLE_RECOMMENDERS) with (@None (report -> string -> res value)).
    cbn match. unfold recommend_stub. destruct (pref_ok _ Hp) as (pref & -> & _). cbn [mbind res_bind].
    destruct (report_parts r Hr) as (Ha & _). destruct (accel_ok _ Ha) as [a ->]. cbn [mbind res_bind].
    destruct (timeline_ok policy "generic" Hp ltac:(here)) as (tl & -> & Htl). cbn [mbind res_bind].
    eexists. split; [reflexivity|].
    match goal with |- has_type _ ?v = true /\ _ => assert (has_type STUB_T v = true) as Hty end.
    { apply has_type_rec. unfold has_fields.
      repeat (apply Forall2_cons; split; [split; [reflexivity|cbn [fst snd]; first [done | assumption]]|]). by apply Forall2_nil. }
    split; [exact Hty|]. by apply stub_renders.
Qed.

(** ** Properties *)

Lemma recs_typed r role ps :
  report_ok r = true -> role ∈ VALID_ROLES -> Forall (fun p => p ∈ VALID_POLICIES) ps ->
  exists recs, mapM (fun p => x ← recommend_one r p role; Ok (p, x)) ps = Ok recs /\
    has_fields ((fun p => (p, role_type role)) <$> ps) recs /\
    (exists l, mapM render_recommendation_block recs.*2 = Ok l) /\ (exists l, mapM markdown_block recs.*2 = Ok l) /\
    Forall (fun px => recommend_one r px.1 role = Ok px.2) recs /\ recs.*1 = ps.
Proof.
  intros Hr Hrole. induction 1 as [|p ps Hp _ IH]; [eexists; split_and!; [done|by apply Forall2_nil|by eexists..|done|done]|].
  destruct IH as (recs & Hm & Hf & (l1 & H1) & (l2 & H2) & Ha & Hk).
  destruct (recommend_one_typed r p role Hr Hp Hrole) as (v & Hv & Hty & (b1 & Hb1) & (b2 & Hb2)).
  exists ((p, v) :: recs).
  split; [|csimpl; split_and!].
  - apply mapM_cons_ok. exists (p, v), recs. by rewrite Hv.
  - constructor; [by split|exact Hf].
  - exists (b1 :: l1). apply mapM_cons_ok. eauto.
  - exists (b2 :: l2). apply mapM_cons_ok. eauto.
  - by constructor.
  - by rewrite Hk.
Qed.

Lemma prefs_dom policy : dmem policy POLICY_PREFERENCES = true <-> policy ∈ VALID_POLICIES.
Proof. by rewrite dmem_iff. Qed.

(** The renderers print an answer whose recommendations they can print. *)
Lemma answer_renders r v recs role mode :
  getitem "role" v = Ok (VStr role) -> getitem "mode" v = Ok (VStr mode) -> getitem "recommendations" v = Ok (VDict recs) ->
  (exists l, mapM render_recommendation_block recs.*2 = Ok l) -> (exists l, mapM markdown_block recs.*2 = Ok l) ->
  is_ok (render_recommendation_text r v) = true /\ is_ok (render_recommendation_markdown r v) = true.
Proof.
  intros Hr Hm Hrec (l1 & H1) (l2 & H2).
  unfold render_recommendation_text, render_recommendation_markdown, item_text, sub_records.
  rewrite Hr, Hm, Hrec. cbn [mbind res_bind items]. by rewrite H1, H2.
Qed.

(** Over a well-shaped report, [recommend] is total on the documented
    roles and policies and every answer has the declared shape: the same
    keys in the same order for every implemented role, one record per policy
    in auto mode, strings where strings are promised, so both renderers can
    print it.  An unknown role or policy, and nothing else, is a
    [ValueError]. *)
Theorem recommend_typed r policy role :
  report_ok r = true ->
  match recommend r policy role with
  | Ok v =>
      role ∈ VALID_ROLES /\ policy ∈ "auto" :: VALID_POLICIES /\ has_type (answer_type policy role) v = true /\
      is_ok (render_recommendation_text r v) = true /\ is_ok (render_recommendation_markdown r v) = true
  | Raise e => (exists m, e = ValueError m) /\ (role ∉ VALID_ROLES \/ policy ∉ "auto" :: VALID_POLICIES)
  end.
Proof.
  intros Hr. unfold recommend. generalize POLICY_SOURCES. intros sources. destruct (bool_decide_reflect (role ∈ VALID_ROLES)) as [Hrole|Hrole]; cbn [negb]; [|by eauto].
  unfold answer_type. destruct (String.eqb_spec policy "auto") as [->|Hne].
  - destruct (recs_typed r role VALID_POLICIES Hr Hrole) as (recs & -> & Hf & Hb & Hmd & _); [by repeat constructor; here|].
    cbn [mbind res_bind]. split; [done|]. split; [here|].
    split; [|eapply answer_renders; [reflexivity|reflexivity|reflexivity|exact Hb|exact Hmd]].
    apply has_type_rec. unfold has_fields. apply has_type_rec in Hf.
    repeat (apply Forall2_cons; split; [split; [reflexivity|cbn [fst snd]; first [reflexivity|exact Hf]]|]). by apply Forall2_nil.
  - destruct (dmem policy POLICY_PREFERENCES) eqn:Hp; cbn [negb].
    + apply prefs_dom in Hp. destruct (recommend_one_typed r policy role Hr Hp Hrole) as (v & -> & Hty & (b1 & Hb1) & (b2 & Hb2)).
      cbn [mbind res_bind]. split; [done|]. split; [by right|]. split.
      * apply has_type_rec. unfold has_fields.
        repeat (apply Forall2_cons; split; [split; [reflexivity|cbn [fst snd]; first [reflexivity|apply has_type_rec; apply Forall2_cons; split; [split; [reflexivity|exact Hty]|by apply Forall2_nil]]]|]).
        by apply Forall2_nil.
      * eapply answer_renders; [reflexivity|reflexivity|reflexivity|exists [b1]|exists [b2]];
          apply mapM_cons_ok; do 2 eexists; (split; [reflexivity|split; [eassumption|reflexivity]]).
    + split; [by eexists|]. right. rewrite not_elem_of_cons. split; [done|]. rewrite <-prefs_dom. congruence.
Qed.

(** C11: A recommendation follows the policy table: for every implemented
    role the signature and hash are the policy's (SLH-DSA for firmware
    outside CNSA 2.0), TLS roles get the policy's KEM, hybrid exactly when
    the policy recommends hybrids, together with precisely those advertised
    groups of that mode whose registered KEM is the recommended one, sorted;
    the signing roles get no KEM. *)
Theorem recommend_follows_policy r policy role v :
  report_ok r = true -> policy ∈ VALID_POLICIES -> role ∈ IMPLEMENTED -> recommend_one r policy role = Ok v ->
  role_record r policy role v.
Proof.
  intros Hr Hp Hi Hv. destruct (recommend_one_ok r Hr policy role Hp Hi) as (v' & H & ?).
  rewrite Hv in H. by injection H as <-.
Qed.

(** Auto mode is the four policies side by side: its recommendations are
    the single-policy recommendations, in the declared order. *)
Theorem recommend_auto r role :
  report_ok r = true -> role ∈ VALID_ROLES ->
  exists v recs, recommend r "auto" role = Ok v /\ getitem "recommendations" v = Ok (VDict recs) /\ recs.*1 = VALID_POLICIES /\
    forall p x, (p, x) ∈ recs ->
      exists w, recommend r p role = Ok w /\ getitem "recommendations" w = Ok (VDict [(p, x)]).
Proof.
  intros Hr Hrole. destruct (recs_typed r role VALID_POLICIES Hr Hrole) as (recs & Hm & _ & _ & _ & Ha & Hk); [by repeat constructor; here|].
  unfold recommend. generalize POLICY_SOURCES. intros sources. rewrite bool_decide_true by done. cbn [negb].
  change (String.eqb "auto" "auto") with true. cbn match. rewrite Hm. cbn [mbind res_bind].
  eexists _, recs. split_and!; [done|done|done|]. intros p x Hin.
  rewrite Forall_forall in Ha. pose proof (Ha _ Hin) as Hone. cbn [fst snd] in Hone.
  assert (p ∈ VALID_POLICIES) as Hp by (rewrite <-Hk; apply list_elem_of_fmap; by exists (p, x)).
  assert (String.eqb p "auto" = false) as -> by (policies Hp; done).
  rewrite (proj2 (prefs_dom p) Hp). cbn [negb]. rewrite Hone. by eexists.
Qed.

(** The TLS server recommender states a false reason: on a host with a
    PQC-capable accelerator and a slow instruction set it reports both that
    an accelerator is present and that the parameter set was chosen "without
    a PQC accelerator". *)
Theorem server_reason_ignores_accelerator policy isa :
  policy <> "cnsa-2.0" -> slow_isa isa = true ->
  s_reason (server_signature policy isa true) =
    "ML-DSA-65 because ISA tier is '" +:+ isa +:+ "' without a PQC accelerator; ML-DSA-87 sign p99 latency would likely exceed typical SLOs".
Proof.
  intros Hp Hs. unfold server_signature. apply String.eqb_neq in Hp. rewrite Hp, Hs. cbn [s_reason].
  unfold slow_isa in Hs. apply orb_true_iff in Hs as [Hs%String.eqb_eq|Hs%String.eqb_eq]; by subst.
Qed.

Definition sample_report : report := Report "host" "2026-10-13" "Poor" [VDict [("pqc_capable", VBool true)]]
  (VDict [("kernel", VBool true)])
  (VDict [("available", VBool true); ("version", VStr "3.5.0");
          ("tls_groups", VDict [("hybrid", VStrs ["X25519MLKEM768"; "SecP384r1MLKEM1024"]); ("pure_pqc", VStrs ["MLKEM1024"; "MLKEM768"])])])
  (VDict [("release", VStr "6.12")])
  (VDict [("available", VBool true); ("summary", VDict [("classical_layers", VStrs ["tpm"])]); ("tpm", VDict [("spec_revision", VStr "1.38")])]).

Lemma recommend_typed_witness :
  report_ok sample_report = true /\
  exists v, recommend sample_report "auto" "firmware-signing" = Ok v /\ has_type (answer_type "auto" "firmware-signing") v = true.
Proof.
  assert (report_ok sample_report = true) as Hr by (vm_compute; reflexivity). split; [exact Hr|].
  pose proof (recommend_typed sample_report "auto" "firmware-signing" Hr) as H.
  destruct (recommend sample_report "auto" "firmware-signing") as [v|e] eqn:E; [|vm_compute in E; discriminate].
  exists v. split; [reflexivity|]. apply H.
Defined.

Lemma recommend_follows_policy_witness :
  exists v k, recommend_one sample_report "cnsa-2.0" "tls-server" = Ok v /\ role_record sample_report "cnsa-2.0" "tls-server" v /\
    getitem "kem" v = Ok k /\ getitem "algorithm" k = Ok (VStr "ML-KEM-1024") /\ getitem "tls_groups" k = Ok (VStrs ["MLKEM1024"]).
Proof.
  destruct (recommend_one sample_report "cnsa-2.0" "tls-server") as [v|e] eqn:E; [|vm_compute in E; discriminate].
  assert (report_ok sample_report = true) as Hr by (vm_compute; reflexivity).
  pose proof (recommend_follows_policy sample_report "cnsa-2.0" "tls-server" v Hr ltac:(here) ltac:(here) E) as H.
  eexists v, _. split; [done|]. split; [exact H|]. vm_compute in E. injection E as <-. split_and!; reflexivity.
Defined.

Lemma recommend_auto_witness :
  exists v, recommend sample_report "auto" "tls-client" = Ok v.
Proof.
  destruct (recommend_auto sample_report "tls-client" ltac:(vm_compute; reflexivity) ltac:(here)) as (v & recs & Hv & _).
  exists v. exact Hv.
Defined.

Lemma server_reason_ignores_accelerator_witness :
  s_reason (server_signature "nist-civilian" "poor" true) =
    "ML-DSA-65 because ISA tier is 'poor' without a PQC accelerator; ML-DSA-87 sign p99 latency would likely exceed typical SLOs".
Proof. apply (server_reason_ignores_accelerator "nist-civilian" "poor"); [discriminate|reflexivity]. Defined.
