(* ===== verification/Observation.v ===== *)
(** * Endpoint-observation records ([observations.py], loading)

    Validation of one record, and the reading of an observations file.
    [datetime.fromisoformat] and [json.loads] are parameters: the first gives
    the instant in microseconds and whether the text carries an offset, the
    second a value or the error message. *)

From S2P Require Import Prelude PyStr PyDict PyVal PyRe PyIp Services.
Open Scope Z_scope.

Definition OBSERVATION_SCHEMA_VERSION : string := "1.0".
Definition SUPPORTED_MAJOR : Z := 1.
Definition SUPPORTED_MINOR : Z := 0.

Definition PROTOCOL_TRANSPORT : list (string * string) :=
  [("tls", "tcp"); ("ssh", "tcp"); ("quic", "udp"); ("dtls", "udp"); ("ikev2", "udp")].

Definition SOURCE_CATEGORIES : list string :=
  ["active-endpoint-scan"; "passive-network-sensor"; "edge-or-proxy-log"; "client-telemetry"; "manual"].

Definition RECORD_KEYS : list string :=
  ["observation_schema_version"; "id"; "observed_at"; "protocol"; "transport"; "fqdn"; "ip"; "port"; "sni";
   "negotiated_group"; "additional_key_exchanges"; "offered_groups"; "tls_version"; "certificate_sha256"; "source"].
Definition SOURCE_KEYS : list string := ["category"; "name"; "version"].

Definition is_hex (c : ascii) : bool := is_digit c || in_range 97 102 c || in_range 65 70 c.
Definition HEX64 : re := RSeqs [Bos; RRep 64 64 (RChr is_hex); Eos].
Definition LABEL : re := RSeq (RChr is_word) (RRep 0 62 (RChr (fun c => is_word c || Ascii.eqb c "-"))).
Definition HOSTNAME : re :=
  RSeqs [Bos; RLook (RSeqs [RRep 1 253 Dot; ROpt (RLit "."); Eos]);
         LABEL; RStar true (RSeq (RLit ".") LABEL); ROpt (RLit "."); Eos].

Definition normalise_ip (value : string) : option string :=
  match ip_address (strip value) with
  | Some (V4 n) => Some (show_ip (V4 n))
  | Some (V6 n scope) =>
      match ipv4_mapped n with
      | Some m => Some (show_ip (V4 m))
      | None => Some (show_ip (V6 n scope))
      end
  | None => None
  end.

(** [MAJOR.MINOR]. *)
Definition obs_version (value : value) : option (Z * Z) :=
  match value with
  | VStr s =>
      m ← re_fullmatch (RSeqs [RGrp 1 (RPlus Digit); RLit "."; RGrp 2 (RPlus Digit)]) (strip s);
      a ← int_of_str (group_or 1 m);
      b ← int_of_str (group_or 2 m);
      Some (a, b)
  | _ => None
  end.

Section Parse.
Context (fromisoformat : string -> option (Z * bool)).

(** The instant of an RFC 3339 date-time with an explicit offset. *)
Definition parse_time (value : value) : option Z :=
  match value with
  | VStr s =>
      let text := strip s in
      let text := if ends_with "Z" text || ends_with "z" text
                  then str_take (Z.of_nat (String.length text) - 1) text +:+ "+00:00" else text in
      match fromisoformat text with
      | Some (t, true) => Some t
      | _ => None
      end
  | _ => None
  end.

(** ** Validation *)

Definition when (b : bool) (msg : string) : list string := if b then [msg] else [].

(** [value in PROTOCOL_TRANSPORT]: an unhashable value raises. *)
Definition protocol_transport (protocol : value) : res (option string) :=
  match protocol with
  | VStr s => Ok (dget s PROTOCOL_TRANSPORT)
  | VList _ | VDict _ => Raise TypeError
  | _ => Ok None
  end.

(** Keys that are neither known nor producer extensions, sorted. *)
Definition unknown_keys (known : list string) (d : list (string * value)) : list string :=
  py_sorted str_lt (List.filter (fun k => negb (bool_decide (k ∈ known)) && negb (starts_with "x-" k)) d.*1).

Definition field_of (k : string) (d : list (string * value)) : value := default VNone (dget k d).

Definition version_errors (version : value) : list string :=
  match obs_version version with
  | None => ["observation_schema_version missing or not MAJOR.MINOR"]
  | Some (major, _) =>
      when (negb (major =? SUPPORTED_MAJOR))
        ("observation_schema_version " +:+ py_str version +:+ " unsupported (this scanner reads " +:+
         show_Z SUPPORTED_MAJOR +:+ ".x)")
  end.

Definition newer_minor (version : value) : bool :=
  match obs_version version with
  | Some (major, minor) => (major =? SUPPORTED_MAJOR) && (SUPPORTED_MINOR <? minor)
  | None => false
  end.

Definition transport_errors (transport : value) (protocol : value) (carrier : option string) : list string :=
  if is_none transport then []
  else if negb (existsb (py_eq transport) [VStr "tcp"; VStr "udp"]) then ["transport must be tcp or udp"]
  else match carrier with
       | Some t => when (negb (py_eq transport (VStr t)))
                     ("transport " +:+ py_str transport +:+ " does not carry " +:+ py_str protocol)
       | None => []
       end.

Definition port_ok (port : value) : bool :=
  match port with VInt p => (1 <=? p) && (p <=? 65535) | _ => false end.

(** [value is not None and not (isinstance(value, str) and test(value))]. *)
Definition bad_text (test : string -> bool) (v : value) : bool :=
  match v with VNone => false | VStr s => negb (test s) | _ => true end.

Definition bad_list (v : value) : bool :=
  match v with
  | VNone => false
  | VList l => negb (forallb (fun x => match x with VStr s => negb (String.eqb s EmptyString) | _ => false end) l)
  | _ => true
  end.

Definition source_errors (newer : bool) (source : value) : list string :=
  match source with
  | VDict s =>
      when (negb (existsb (fun c => py_eq (field_of "category" s) (VStr c)) SOURCE_CATEGORIES))
        ("source.category must be one of " +:+ str_join ", " SOURCE_CATEGORIES) ++
      concat ((fun k => when (bad_text (fun _ => true) (field_of k s)) ("source." +:+ k +:+ " must be a string"))
                <$> ["name"; "version"]) ++
      (let extra := unknown_keys SOURCE_KEYS s in
       when (negb (bool_decide (extra = [])) && negb newer) ("unknown source keys: " +:+ str_join ", " extra))
  | _ => ["source object is required"]
  end.

Definition validate_record (rec : value) (inherited_version : value) : res (list string) :=
  match rec with
  | VDict d =>
      let version := default inherited_version (dget "observation_schema_version" d) in
      let newer := newer_minor version in
      let unknown := unknown_keys RECORD_KEYS d in
      let f k := field_of k d in
      carrier ← protocol_transport (f "protocol");
      Ok (version_errors version ++
          when (negb (bool_decide (unknown = [])) && negb newer) ("unknown keys: " +:+ str_join ", " unknown) ++
          when (bool_decide (parse_time (f "observed_at") = None))
            "observed_at missing or not an RFC 3339 date-time with offset" ++
          when (bool_decide (carrier = None)) ("protocol must be one of " +:+ str_join ", " PROTOCOL_TRANSPORT.*1) ++
          transport_errors (f "transport") (f "protocol") carrier ++
          when (negb (port_ok (f "port"))) "port must be an integer 1-65535" ++
          when (is_none (f "fqdn") && is_none (f "ip")) "at least one of fqdn or ip is required" ++
          concat ((fun k => when (bad_text (test_match HOSTNAME) (f k)) (k +:+ " is not a DNS name")) <$> ["fqdn"; "sni"]) ++
          when (bad_text (fun s => bool_decide (is_Some (normalise_ip s))) (f "ip")) "ip is not an IPv4 or IPv6 address" ++
          concat ((fun k => when (bad_text (fun s => negb (String.eqb (strip s) EmptyString)) (f k))
                     (k +:+ " must be a non-empty string")) <$> ["negotiated_group"; "tls_version"; "id"]) ++
          concat ((fun k => when (bad_list (f k)) (k +:+ " must be a list of non-empty strings"))
                    <$> ["additional_key_exchanges"; "offered_groups"]) ++
          when (bad_text (test_match HEX64) (f "certificate_sha256")) "certificate_sha256 must be 64 hex characters" ++
          source_errors newer (f "source"))
  | _ => Ok ["record is not a JSON object"]
  end.

(** ** Loading *)

Context (json_loads : string -> value + string).

Record loaded := Loaded {
  lo_records : list (list (string * value)); lo_invalid : list (Z * string); lo_format : string }.

Definition unsupported (version : value) : string :=
  "envelope observation_schema_version " +:+ py_repr version +:+ " unsupported (this scanner reads " +:+
  show_Z SUPPORTED_MAJOR +:+ ".x)".

Definition unusable (msg : string) : exn := Custom "ObservationFileError" msg.

Abbreviation raw := (Z * value * value)%type.

(** [enumerate(l, 1)]. *)
Definition enumerate1 {A} (l : list A) : list (Z * A) := zip (seqZ 1 (Z.of_nat (length l))) l.

(** The records of a JSON Lines file and the lines that are not JSON. *)
Definition jsonl_line (acc : list raw * list (Z * string)) (nl : Z * string) : list raw * list (Z * string) :=
  let '(n, line) := nl in
  let line := remove_suffix (String "013" EmptyString) line in
  if String.eqb (strip line) EmptyString then acc
  else match json_loads line with
       | inl v => (acc.1 ++ [(n, v, VNone)], acc.2)
       | inr msg => (acc.1, acc.2 ++ [(n, "line is not JSON: " +:+ msg)])
       end.

Definition read_jsonl (text : string) : list raw * list (Z * string) :=
  foldl jsonl_line ([], []) (enumerate1 (split newline text)).

(** What the file holds before validation. *)
Definition read_raw (text : string) : res (list raw * list (Z * string) * string) :=
  match json_loads text with
  | inl (VDict doc) =>
      match dget "observations" doc with
      | Some records =>
          let version := field_of "observation_schema_version" doc in
          match obs_version version with
          | Some (major, _) =>
              if negb (major =? SUPPORTED_MAJOR)
              then Raise (unusable (unsupported version))
              else match records with
                   | VList l => Ok ((fun nr => (nr.1, nr.2, VStr (py_str version))) <$> enumerate1 l, [], "envelope")
                   | _ => Raise (unusable "envelope `observations` must be a list")
                   end
          | None => Raise (unusable (unsupported version))
          end
      | None => let '(raw, bad) := read_jsonl text in Ok (raw, bad, "jsonl")
      end
  | _ => let '(raw, bad) := read_jsonl text in Ok (raw, bad, "jsonl")
  end.

Definition accept (acc : loaded) (r : raw) : res loaded :=
  let '(position, rec, version) := r in
  problems ← validate_record rec version;
  match problems, rec with
  | [], VDict d =>
      Ok (Loaded (lo_records acc ++ [dupdate [("_position", VInt position)] d]) (lo_invalid acc) (lo_format acc))
  | _, _ => Ok (Loaded (lo_records acc) (lo_invalid acc ++ [(position, str_join "; " problems)]) (lo_format acc))
  end.

(** The text of the file, or the path and why it cannot be read. *)
Definition load_observations (file : string + string) : res loaded :=
  match file with
  | inr e => Raise (unusable ("cannot read " +:+ e))
  | inl text =>
      r ← read_raw text;
      let '(raw, bad, fmt) := r in
      out ← foldM accept (Loaded [] bad fmt) raw;
      Ok (Loaded (lo_records out) (py_sorted (fun a b => a.1 <? b.1) (lo_invalid out)) (lo_format out))
  end.

(** ** What a loaded record promises *)

(** The record is usable by the join. *)
Record valid_record (d : list (string * value)) : Prop := {
  vr_protocol : exists p t, field_of "protocol" d = VStr p /\ dget p PROTOCOL_TRANSPORT = Some t /\
      (field_of "transport" d = VNone \/ field_of "transport" d = VStr t);
  vr_port : exists n, field_of "port" d = VInt n /\ 1 <= n <= 65535;
  vr_time : is_Some (parse_time (field_of "observed_at" d));
  vr_target : field_of "fqdn" d <> VNone \/ field_of "ip" d <> VNone;
  vr_names : forall k, k ∈ ["fqdn"; "sni"] ->
      field_of k d = VNone \/ exists s, field_of k d = VStr s /\ test_match HOSTNAME s = true;
  vr_ip : field_of "ip" d = VNone \/ exists s, field_of "ip" d = VStr s /\ is_Some (normalise_ip s);
  vr_group : field_of "negotiated_group" d = VNone \/ exists s, field_of "negotiated_group" d = VStr s;
  vr_cert : field_of "certificate_sha256" d = VNone \/
      exists s, field_of "certificate_sha256" d = VStr s /\ test_match HEX64 s = true;
  vr_extra : field_of "additional_key_exchanges" d = VNone \/
      exists l, field_of "additional_key_exchanges" d = VStrs l;
  vr_source : exists s c, field_of "source" d = VDict s /\ field_of "category" s = VStr c /\ c ∈ SOURCE_CATEGORIES }.

Lemma when_nil b msg : when b msg = [] -> b = false.
Proof. by destruct b. Qed.

Lemma bad_text_false test v : bad_text test v = false -> v = VNone \/ exists s, v = VStr s /\ test s = true.
Proof. destruct v; simpl; try done; [by left|]. intros H%negb_false_iff. right. eauto. Qed.

Lemma bad_list_false v : bad_list v = false -> v = VNone \/ exists l, v = VStrs l.
Proof.
  destruct v as [| | | | |l|]; simpl; try done; [by left|]. intros H%negb_false_iff. right.
  rewrite forallb_forall in H. induction l as [|x l IH]; [by exists []|].
  destruct IH as (k & Hk); [intros y Hy; apply H; by right|].
  specialize (H x (or_introl eq_refl)). destruct x as [| | | |s| |]; try done. exists (s :: k).
  injection Hk as ->. done.
Qed.

Lemma py_eq_str v s : py_eq v (VStr s) = true -> v = VStr s.
Proof. destruct v; simpl; try done. by intros ->%String.eqb_eq. Qed.

Lemma protocol_transport_some v t :
  protocol_transport v = Ok (Some t) -> exists p, v = VStr p /\ dget p PROTOCOL_TRANSPORT = Some t.
Proof. destruct v; try done. simpl. intros [= H]. eauto. Qed.

Lemma transport_errors_nil v p t : transport_errors v p (Some t) = [] -> v = VNone \/ v = VStr t.
Proof.
  unfold transport_errors. destruct (is_none v) eqn:En; [destruct v; try done; by left|].
  destruct (negb _); [done|]. intros H%when_nil%negb_false_iff%py_eq_str. by right.
Qed.

Lemma source_errors_nil newer v :
  source_errors newer v = [] ->
  exists s c, v = VDict s /\ field_of "category" s = VStr c /\ c ∈ SOURCE_CATEGORIES.
Proof.
  destruct v as [| | | | | |s]; try done. unfold source_errors. intros [H _]%app_eq_nil.
  apply when_nil, negb_false_iff, existsb_exists in H as (c & Hc & He). apply py_eq_str in He.
  exists s, c. split_and!; [done|done|by apply list_elem_of_In].
Qed.

Lemma validate_record_valid rec v :
  validate_record rec v = Ok [] -> exists d, rec = VDict d /\ valid_record d.
Proof.
  destruct rec as [| | | | | |d]; try done. intros H. exists d. split; [done|].
  unfold validate_record in H. bind H as carrier Hc. injection H as H. cbn [fmap list_fmap concat] in H.
  repeat match goal with H : _ ++ _ = [] |- _ => apply app_eq_nil in H as [? ?] end.
  repeat match goal with H : when _ _ = [] |- _ => apply when_nil in H end.
  repeat match goal with H : bad_text _ _ = false |- _ => apply bad_text_false in H end.
  repeat match goal with H : bad_list _ = false |- _ => apply bad_list_false in H end.
  repeat match goal with H : bool_decide _ = false |- _ => apply bool_decide_eq_false in H end.
  repeat match goal with H : source_errors _ _ = [] |- _ => apply source_errors_nil in H
    | H : negb _ = false |- _ => apply negb_false_iff in H end.
  split; try done.
  - destruct carrier as [t|]; [|done]. apply protocol_transport_some in Hc as (p & Hp & Ht).
    exists p, t. split_and!; [done|done|]. by eapply transport_errors_nil.
  - destruct (field_of "port" d) as [| |n| | | |]; try done. exists n. split; [done|].
    match goal with H : port_ok _ = true |- _ => simpl in H; lia end.
  - destruct (parse_time (field_of "observed_at" d)); [by eexists|done].
  - match goal with H : _ && _ = false |- _ => apply andb_false_iff in H as [H|H] end;
      [left|right]; intros E; by rewrite E in *.
  - intros k Hk. rewrite !elem_of_cons, elem_of_nil in Hk. by destruct Hk as [->|[->|[]]].
  - match goal with H : field_of "ip" d = _ \/ _ |- _ => destruct H as [H|(s & Hs & Hb)] end; [by left|].
    right. exists s. split; [done|]. by apply bool_decide_eq_true in Hb.
  - match goal with H : field_of "negotiated_group" d = _ \/ _ |- _ => destruct H as [H|(s & Hs & Hb)] end; [by left|].
    right. by exists s.
Qed.

(** One raw entry becomes a record or a rejection. *)
Lemma accept_spec acc position rec version acc' :
  accept acc (position, rec, version) = Ok acc' ->
  (exists d, rec = VDict d /\ valid_record d /\
     acc' = Loaded (lo_records acc ++ [dupdate [("_position", VInt position)] d]) (lo_invalid acc) (lo_format acc)) \/
  (exists p ps, validate_record rec version = Ok (p :: ps) /\
     acc' = Loaded (lo_records acc) (lo_invalid acc ++ [(position, str_join "; " (p :: ps))]) (lo_format acc)).
Proof.
  unfold accept. intros H. bind H as problems Hp. destruct problems as [|p ps].
  - apply validate_record_valid in Hp as (d & -> & Hd). injection H as <-. left. eauto.
  - injection H as <-. right. eauto.
Qed.

Definition loaded_from (d : list (string * value)) : Prop :=
  exists d0 position, valid_record d0 /\ d = dupdate [("_position", VInt position)] d0.

Lemma accept_all raw acc acc' :
  Forall loaded_from (lo_records acc) -> foldM accept acc raw = Ok acc' ->
  Forall loaded_from (lo_records acc') /\ lo_format acc' = lo_format acc /\
  (length (lo_records acc') + length (lo_invalid acc') =
   length (lo_records acc) + length (lo_invalid acc) + length raw)%nat.
Proof.
  revert acc; induction raw as [|[[position rec] version] raw IH]; intros acc Hacc H.
  - injection H as <-. split_and!; [done|done|simpl; lia].
  - cbn [foldM] in H. bind H as acc1 H1.
    apply accept_spec in H1 as [(d & -> & Hd & ->)|(p & ps & _ & ->)];
      apply IH in H as (H1 & H2 & H3); simpl in *;
      (split_and!; [done|done|rewrite ?length_app in H3; simpl in H3; lia]) || idtac.
    + apply Forall_app. split; [done|]. constructor; [|done]. by exists d, position.
    + done.
Qed.

(** *** Failures *)

Lemma validate_record_raise rec v e :
  validate_record rec v = Raise e <->
  e = TypeError /\ exists d, rec = VDict d /\ hashable (field_of "protocol" d) = false.
Proof.
  split.
  - destruct rec as [| | | | | |d]; try done. unfold validate_record.
    destruct (field_of "protocol" d) eqn:Ep; simpl; try done; intros [= <-]; (split; [done|]; exists d; by rewrite Ep).
  - intros (-> & d & -> & Hh). unfold validate_record.
    by destruct (field_of "protocol" d).
Qed.

Lemma accept_raise acc position rec version e :
  accept acc (position, rec, version) = Raise e <-> validate_record rec version = Raise e.
Proof.
  unfold accept. destruct (validate_record rec version) as [ps|e']; cbn [mbind res_bind].
  - split; [|done]. destruct ps, rec; done.
  - split; by intros [= ->].
Qed.

Lemma foldM_accept_raise raw acc e : foldM accept acc raw = Raise e -> e = TypeError.
Proof.
  revert acc; induction raw as [|[[position rec] version] raw IH]; intros acc; [done|].
  cbn [foldM]. destruct (accept acc (position, rec, version)) as [acc'|e'] eqn:E; cbn [mbind res_bind].
  - apply IH.
  - intros [= <-]. by apply accept_raise, validate_record_raise in E as [-> _].
Qed.

Lemma foldM_accept_escapes raw acc position rec version :
  (position, rec, version) ∈ raw -> validate_record rec version = Raise TypeError ->
  foldM accept acc raw = Raise TypeError.
Proof.
  intros (l1 & l2 & ->)%list_elem_of_split Hv. rewrite foldM_app.
  destruct (foldM accept acc l1) as [acc'|e] eqn:E; cbn [mbind res_bind].
  - cbn [foldM]. by rewrite (proj2 (accept_raise _ _ _ _ _) Hv).
  - by apply foldM_accept_raise in E as ->.
Qed.

(** *** Lines of a JSON Lines file *)

Lemma jsonl_count l acc :
  let out := foldl jsonl_line acc l in
  (length out.1 + length out.2 = length acc.1 + length acc.2 +
   length (List.filter (fun nl => negb (String.eqb (strip (remove_suffix (String "013" EmptyString) nl.2)) EmptyString)) l))%nat.
Proof.
  revert acc; induction l as [|[n line] l IH]; intros acc; [simpl; lia|].
  cbn [foldl List.filter snd]. specialize (IH (jsonl_line acc (n, line))). cbv zeta in *. rewrite IH. clear IH.
  unfold jsonl_line. destruct (String.eqb _ EmptyString); simpl; [lia|].
  destruct (json_loads _); simpl; rewrite !length_app; simpl; lia.
Qed.

Definition not_gt_position (a b : Z * string) : Prop := a.1 <= b.1.

#[export] Instance position_sw : StrictWeak (fun a b : Z * string => a.1 <? b.1).
Proof. split; unfold not_gt; intros; lia. Qed.

Lemma position_sorted l : StronglySorted not_gt_position (py_sorted (fun a b : Z * string => a.1 <? b.1) l).
Proof.
  pose proof (py_sorted_sorted (fun a b : Z * string => a.1 <? b.1) l) as H.
  induction H as [|x l' _ IH Hall]; constructor; [done|].
  eapply Forall_impl; [exact Hall|]. intros y. unfold not_gt, not_gt_position. lia.
Qed.

(** Loading an observations file accounts for every entry.  When it
    returns, each entry of the file (an envelope element, or a non-blank line)
    is either a loaded record or listed as invalid, never both or neither;
    every loaded record satisfies all the requirements of the format (known
    protocol with its transport, port in range, an aware time, a target, DNS
    names, a readable address, a known source category); invalid entries are
    in position order.  It fails only with ObservationFileError or with the
    TypeError of a protocol that is a list or an object. *)
Theorem load_observations_spec text :
  match load_observations (inl text) with
  | Ok out => exists raw bad fmt,
      read_raw text = Ok (raw, bad, fmt) /\ lo_format out = fmt /\
      Forall loaded_from (lo_records out) /\
      (length (lo_records out) + length (lo_invalid out) = length raw + length bad)%nat /\
      StronglySorted not_gt_position (lo_invalid out) /\
      (fmt = "jsonl" -> (length raw + length bad)%nat =
         length (List.filter (fun line => negb (String.eqb (strip (remove_suffix (String "013" EmptyString) line)) EmptyString))
           (split newline text)))
  | Raise e => e = TypeError \/ exists msg, e = unusable msg
  end.
Proof.
  unfold load_observations. destruct (read_raw text) as [[[raw bad] fmt]|e] eqn:Er; cbn [mbind res_bind].
  2:{ right. unfold read_raw in Er. repeat case_match; simplify_eq; eauto. }
  destruct (foldM accept (Loaded [] bad fmt) raw) as [out|e] eqn:Ef; cbn [mbind res_bind].
  2:{ left. by eapply foldM_accept_raise. }
  apply accept_all in Ef as (H1 & H2 & H3); [|constructor]. simpl in *.
  exists raw, bad, fmt. split_and!; [done|done|done| rewrite length_py_sorted; lia | |].
  - apply position_sorted.
  - intros ->. assert ((raw, bad) = read_jsonl text) as Hj.
    { unfold read_raw in Er. repeat case_match; simplify_eq; done. }
    unfold read_jsonl in Hj. pose proof (jsonl_count (enumerate1 (split newline text)) ([], [])) as Hc.
    rewrite <-Hj in Hc. simpl in Hc. rewrite Hc. clear. unfold enumerate1.
    generalize 1. induction (split newline text) as [|line ls IH]; intros k; [done|].
    cbn [length]. rewrite Nat2Z.inj_succ, seqZ_cons by lia. cbn [zip zip_with List.filter snd].
    rewrite Z.pred_succ. specialize (IH (Z.succ k)). destruct (negb _); simpl; [by f_equal|done].
Qed.

(** Validation itself fails on a protocol that is a JSON list or object:
    such a record is not reported as invalid, the membership test on the
    protocol table raises TypeError, and one such record anywhere in an
    envelope makes the whole load fail. *)
Theorem unhashable_protocol_escapes text doc records version d :
  json_loads text = inl (VDict doc) -> dget "observations" doc = Some (VList records) ->
  obs_version (field_of "observation_schema_version" doc) = Some (SUPPORTED_MAJOR, version) ->
  VDict d ∈ records -> hashable (field_of "protocol" d) = false ->
  load_observations (inl text) = Raise TypeError.
Proof.
  intros Hj Ho Hv Hd Hh. unfold load_observations, read_raw. rewrite Hj, Ho, Hv. cbn [negb].
  rewrite Z.eqb_refl. cbn [negb mbind res_bind].
  apply list_elem_of_lookup in Hd as [i Hi].
  erewrite (foldM_accept_escapes _ _ (Z.of_nat (S i)) (VDict d)); [done| |].
  - apply list_elem_of_fmap. exists (Z.of_nat (S i), VDict d). split; [done|]. unfold enumerate1.
    apply list_elem_of_lookup. exists i. apply lookup_zip_with_Some. exists (Z.of_nat (S i)), (VDict d).
    split_and!; [done| |done]. apply lookup_seqZ. split; [lia|]. apply lookup_lt_Some in Hi. lia.
  - apply validate_record_raise. split; [done|]. by exists d.
Qed.
End Parse.

(** Concrete readers for the examples: a clock that knows one time and a JSON
    reader that knows one file. *)
Definition one_time (s : string) : option (Z * bool) :=
  if String.eqb s "2026-01-01T00:00:00+00:00" then Some (0, true) else None.
Definition sample_record (protocol : value) : value :=
  VDict [("observed_at", VStr "2026-01-01T00:00:00Z"); ("protocol", protocol); ("port", VInt 443);
         ("fqdn", VStr "www.example.com"); ("negotiated_group", VStr "X25519MLKEM768");
         ("source", VDict [("category", VStr "manual")])].
Definition envelope (records : list value) : list (string * value) :=
  [("observation_schema_version", VStr "1.0"); ("observations", VList records)].
Definition reads (doc : list (string * value)) (s : string) : value + string := inl (VDict doc).

Example load_sample :
  (fun l => (length (lo_records l), lo_invalid l)) <$>
    load_observations one_time (reads (envelope [sample_record (VStr "tls"); sample_record (VStr "smtp")])) (inl "{}") =
  Ok (1%nat, [(2, "protocol must be one of tls, ssh, quic, dtls, ikev2")]).
Proof. vm_compute. reflexivity. Qed.

Lemma unhashable_protocol_escapes_witness :
  load_observations one_time (reads (envelope [sample_record (VStr "tls"); sample_record (VList [])])) (inl "{}") =
    Raise TypeError.
Proof.
  apply (unhashable_protocol_escapes one_time (reads (envelope [sample_record (VStr "tls"); sample_record (VList [])]))
    "{}" (envelope [sample_record (VStr "tls"); sample_record (VList [])])
    [sample_record (VStr "tls"); sample_record (VList [])] 0
    [("observed_at", VStr "2026-01-01T00:00:00Z"); ("protocol", VList []); ("port", VInt 443);
     ("fqdn", VStr "www.example.com"); ("negotiated_group", VStr "X25519MLKEM768");
     ("source", VDict [("category", VStr "manual")])]);
    [reflexivity | reflexivity | vm_compute; reflexivity | right; left | reflexivity].
Defined.

(** ** Addresses *)

Definition is_mapped (a : ip_addr) : option Z :=
  match a with V6 n _ => ipv4_mapped n | V4 _ => None end.

(** The address a text stands for, IPv4-mapped IPv6 addresses taken as IPv4. *)
Definition address_of (s : string) : option ip_addr :=
  a ← ip_address (strip s);
  Some (match is_mapped a with Some m => V4 m | None => a end).

Lemma ipv4_mapped_range n m : ipv4_mapped n = Some m -> 0 <= m < 2 ^ 32.
Proof. unfold ipv4_mapped. destruct (_ =? _); [|done]. intros [= <-]. apply Z.mod_pos_bound. lia. Qed.

Lemma normalise_ip_address s : normalise_ip s = show_ip <$> address_of s.
Proof.
  unfold normalise_ip, address_of. destruct (ip_address (strip s)) as [[n|n scope]|]; [done| |done].
  simpl. by destruct (ipv4_mapped n).
Qed.

Lemma address_of_ok s a : address_of s = Some a -> ip_ok a /\ is_mapped a = None.
Proof.
  unfold address_of. destruct (ip_address (strip s)) as [b|] eqn:E; [|done]. cbn [mbind option_bind].
  intros [= <-]. apply ip_address_ok in E. destruct (is_mapped b) as [m|] eqn:Em; [|done].
  split; [|done]. destruct b as [|n scope]; [done|]. by apply ipv4_mapped_range in Em.
Qed.

(** [_normalise_ip] is canonical: two texts normalise to the same string
    exactly when they denote the same address (IPv4-mapped IPv6 addresses
    being the IPv4 address they embed), whatever their spelling, and the
    normalised text denotes that address itself. *)
Theorem normalise_ip_canonical s1 s2 a1 a2 :
  address_of s1 = Some a1 -> address_of s2 = Some a2 ->
  (normalise_ip s1 = normalise_ip s2 <-> a1 = a2) /\
  (exists t, normalise_ip s1 = Some t /\ ip_address t = Some a1).
Proof.
  intros H1 H2. rewrite !normalise_ip_address, H1, H2. cbn [fmap option_fmap option_map].
  apply address_of_ok in H1 as [Ok1 M1], H2 as [Ok2 M2].
  split; [|exists (show_ip a1); split; [done|by apply ip_address_show]]. split; [|by intros ->].
  intros [= Heq]. apply (f_equal ip_address) in Heq. rewrite !ip_address_show in Heq by done. congruence.
Qed.

Lemma normalise_ip_canonical_witness :
  normalise_ip " ::ffff:10.0.0.1" = normalise_ip "10.0.0.1" /\
  normalise_ip "2001:db8::1" = normalise_ip "2001:0DB8:0:0:0:0:0:1" /\
  normalise_ip "10.0.0.1" <> normalise_ip "10.0.0.2".
Proof.
  split; [|split].
  - apply (normalise_ip_canonical " ::ffff:10.0.0.1" "10.0.0.1" (V4 167772161) (V4 167772161)); reflexivity.
  - apply (normalise_ip_canonical "2001:db8::1" "2001:0DB8:0:0:0:0:0:1"
      (V6 42540766411282592856903984951653826561 None) (V6 42540766411282592856903984951653826561 None)); reflexivity.
  - intros H. apply (normalise_ip_canonical "10.0.0.1" "10.0.0.2" (V4 167772161) (V4 167772162)) in H;
      [discriminate|reflexivity|reflexivity].
Defined.
