(* ===== verification/Join.v ===== *)
(** * Joining observations to hosts and listeners ([observations.py])

    The host index built while the reports stream by, the classification of
    what an endpoint negotiated, and the join with its counters. *)

From S2P Require Import Prelude PyStr PyDict PyVal PyRe PyIp Algorithms Classify Services Gap Observation.
Open Scope Z_scope.

Definition DEFAULT_MAX_AGE_DAYS : float := f_of_Z 7.

Definition CLASSICAL_TLS_CODEPOINTS : list (Z * string) := [
  (0x17, "secp256r1"); (0x18, "secp384r1"); (0x19, "secp521r1"); (0x1d, "x25519"); (0x1e, "x448");
  (0x100, "ffdhe2048"); (0x101, "ffdhe3072"); (0x102, "ffdhe4096"); (0x103, "ffdhe6144"); (0x104, "ffdhe8192")].
Definition CLASSICAL_TLS_ALIASES : list (string * string) :=
  [("p256", "secp256r1"); ("p384", "secp384r1"); ("p521", "secp521r1"); ("prime256v1", "secp256r1")].
Definition IKE_PQC_RE : re := RSeqs [RLitI "ml"; ROpt (RLit "-"); RLitI "kem"].
Definition IKE_CLASSICAL_RE : re :=
  RSeqs [Bos;
    RAlts [RSeq (RLitI "modp") (RPlus Digit); RSeq (RLitI "ecp") (RPlus Digit);
           RSeq (RLitI "curve") (RAlt (RLit "25519") (RLit "448"));
           RSeq (RLitI "x") (RAlt (RLit "25519") (RLit "448"));
           RSeq (RAlt (RLitI "dh") (RLitI "group")) (RPlus Digit);
           RSeqs [RLitI "brainpool"; RPlus Digit; ROpt (RLitI "r"); RStar true Digit]];
    Eos].

(** ** What was negotiated *)

Inductive oclass := PurePqc | Hybrid | Classical | UnknownClass.
#[export] Instance oclass_eq_dec : EqDecision oclass.
Proof. solve_decision. Defined.
Definition class_name (c : oclass) : string :=
  match c with PurePqc => "pure_pqc" | Hybrid => "hybrid" | Classical => "classical" | UnknownClass => "unknown" end.

Definition CODEPOINT_RE : re :=
  RAlt (RSeqs [RLit "0"; Set_ "xX"; RRep 1 4 (RChr is_hex)]) (RRep 1 5 Digit).

(** The number written in the text: hexadecimal with 0x, else decimal. *)
Definition codepoint_of (text : string) : option Z :=
  if starts_with "0x" (lower text) then hex_num (drop 2 (chars text)) else int_of_str text.

Definition tls_canonical (name : string) : option string :=
  let text := strip name in
  if test_fullmatch CODEPOINT_RE text then
    cp ← codepoint_of text;
    match find (fun ng => g_codepoint ng.2 =? cp) TLS_PQC_GROUPS with
    | Some (pqc_name, _) => Some pqc_name
    | None => Some (default text (dget cp CLASSICAL_TLS_CODEPOINTS))
    end
  else
    let squashed := lower (str_of (List.filter (fun c => negb (char_in "-_ " c)) (chars text))) in
    match find (fun ng => String.eqb (lower ng.1) squashed) TLS_PQC_GROUPS with
    | Some (pqc_name, _) => Some pqc_name
    | None => Some (default text (dget squashed CLASSICAL_TLS_ALIASES))
    end.

Definition bucket_class (b : buckets) : oclass :=
  if bool_decide (pure_pqc b <> []) then PurePqc
  else if bool_decide (hybrid b <> []) then Hybrid
  else if bool_decide (classical b <> []) then Classical
  else UnknownClass.

(** The truthy strings of a list of names. *)
Definition group_names (vs : list value) : res (list string) := strs_of (List.filter truthy vs).

Definition ike_class (names : list string) : oclass :=
  let pqc := existsb (test_search IKE_PQC_RE) names in
  let classical := existsb (test_match IKE_CLASSICAL_RE) names in
  if pqc && classical then Hybrid
  else if pqc then PurePqc
  else if classical then Classical
  else UnknownClass.

Definition classify_observed (rec : value) : res (option string * oclass) :=
  raw ← get "negotiated_group" rec;
  protocol ← get "protocol" rec;
  if py_eq protocol (VStr "ikev2") then
    extra ← get_l "additional_key_exchanges" rec;
    names ← group_names (raw :: extra);
    Ok (if names is [] then None else Some (str_join "+" names), ike_class names)
  else if negb (truthy raw) then Ok (None, UnknownClass)
  else
    match raw with
    | VStr raw =>
        if py_eq protocol (VStr "ssh") then Ok (Some raw, bucket_class (classify_ssh_kex [raw]))
        else match tls_canonical raw with
             | Some canonical => Ok (Some canonical, bucket_class (classify_tls_groups [canonical]))
             | None => Raise (ValueError "int() with base 16")
             end
    | _ => Raise AttributeError
    end.

(** ** The host index *)

Record clistener := CListener {
  cl_protocol : value; cl_address : option string; cl_port : value; cl_scope : value;
  cl_namespace : value; cl_process : value; cl_unit : value; cl_families : list string;
  cl_capable : option bool; cl_go_hybrid : bool }.

Definition compact_listener (ln : value) : res clistener :=
  cap ← listener_capability ln;
  address ← get "address" ln;
  protocol ← get "protocol" ln;
  port ← get "port" ln;
  scope ← get "bind_scope" ln;
  namespace ← get "network_namespace" ln;
  process ← get "process" ln;
  unit ← get "systemd_unit" ln;
  Ok (CListener protocol (match address with VStr s => normalise_ip s | _ => None end) port scope namespace
        process unit (lc_families cap) (lc_capable cap) (lc_go_hybrid cap)).

Record host := Host {
  h_name : string; h_generated : option Z; h_service_scan : bool; h_listeners : list clistener;
  h_certs : list string; h_tls_configured : option bool; h_ssh_configured : option bool;
  h_ike_configured : option bool; h_ssh_capable : option bool; h_ike_capable : option bool }.

Section Clock.
Context (fromisoformat : string -> option (Z * bool)).

(** The fingerprints of one certificate list, lower case, each once. *)
Definition add_certs (acc : list string) (src : value) : res (list string) :=
  cs ← get_l "certificates" src;
  foldM (fun acc c =>
    fp ← get "sha256" c;
    Ok (match fp with
        | VStr s => if test_match HEX64 s && negb (bool_decide (lower s ∈ acc)) then acc ++ [lower s] else acc
        | _ => acc
        end)) acc cs.

Definition host_entry (report : value) : res host :=
  scl ← get_d "service_crypto_linkage" report;
  available ← get "available" scl;
  listeners ← (if truthy available then lns ← get_l "listeners" scl; mapM compact_listener lns else Ok []);
  material ← get_d "crypto_material" report;
  store ← get_d "trust_store" report;
  certs ← foldM add_certs [] [material; store];
  tls ← tls_configured report;
  ssh ← ssh_configured report;
  ike ← ike_configured report;
  ssh_cap ← ssh_capable report;
  ike_cap ← ike_capable report;
  hostname ← get "hostname" report;
  generated ← get "generated_at" report;
  Ok (Host (py_str (por hostname (VStr EmptyString))) (parse_time fromisoformat generated) (truthy available)
        listeners certs tls.1 ssh.1 ike.1 ssh_cap.1 ike_cap.1).

Record index := Index {
  ix_hosts : list host; ix_name : list (string * list nat); ix_short : list (string * list nat);
  ix_ip : list (string * list nat); ix_cert : list (string * list nat) }.

(** [d.setdefault(k, []).append(i)]. *)
Definition push (k : string) (i : nat) (d : list (string * list nat)) : list (string * list nat) :=
  dset k (default [] (dget k d) ++ [i]) d.

Definition dns_key (name : string) : string := rstrip_by (Ascii.eqb ".") (lower name).

Definition host_ips (h : host) : list string :=
  remove_dups (omap (fun ln => if py_eq (cl_scope ln) (VStr "specific") then cl_address ln else None) (h_listeners h)).

Definition index_add (ix : index) (report : value) : res index :=
  h ← host_entry report;
  let i := length (ix_hosts ix) in
  let name := dns_key (h_name h) in
  let named := negb (is_empty name) in
  Ok (Index (ix_hosts ix ++ [h])
        (if named then push name i (ix_name ix) else ix_name ix)
        (if named then push (before "." name) i (ix_short ix) else ix_short ix)
        (foldl (fun d ip => push ip i d) (ix_ip ix) (host_ips h))
        (foldl (fun d fp => push fp i d) (ix_cert ix) (h_certs h))).

Definition index_reports (reports : list value) : res index := foldM index_add (Index [] [] [] [] []) reports.

(** ** Matching *)

Definition hits_of (d : list (string * list nat)) (k : string) : list nat := default [] (dget k d).

(** [sorted(set(l))] on indexes. *)
Definition sort_nats (l : list nat) : list nat := py_sorted Nat.ltb (remove_dups l).

(** [(rec.get(k) or "")] as text. *)
Definition rec_text (k : string) (rec : value) : res string :=
  v ← get k rec;
  match por v (VStr EmptyString) with VStr s => Ok s | _ => Raise AttributeError end.

Definition rec_ip (rec : value) : res (option string) :=
  v ← get "ip" rec;
  if negb (truthy v) then Ok None
  else match v with VStr s => Ok (normalise_ip s) | _ => Raise AttributeError end.

(** The tiers, strongest first. *)
Definition tiers (ix : index) (fqdn sni : string) (ip : option string) (cert_hosts : list nat) :
    list (string * list nat) :=
  let shorts := remove_dups (before "." <$> List.filter (fun n => negb (is_empty n)) [fqdn; sni]) in
  [("fqdn", if is_empty fqdn then [] else hits_of (ix_name ix) fqdn);
   ("sni", if is_empty sni then [] else hits_of (ix_name ix) sni);
   ("ip", match ip with Some ip => hits_of (ix_ip ix) ip | None => [] end);
   ("short-name", concat (hits_of (ix_short ix) <$> shorts));
   ("certificate", cert_hosts)].

Inductive candidate := NoHost | OneHost (i : nat) (basis : string) | Ambiguous (l : list nat).

Fixpoint choose (cert_hosts : list nat) (ts : list (string * list nat)) : candidate :=
  match ts with
  | [] => NoHost
  | (basis, hits) :: ts =>
      match sort_nats hits with
      | [] => choose cert_hosts ts
      | [i] => OneHost i basis
      | hits =>
          match List.filter (fun h => bool_decide (h ∈ cert_hosts)) hits with
          | [i] => if String.eqb basis "certificate" then Ambiguous hits
                   else OneHost i (basis +:+ "+certificate")
          | _ => Ambiguous hits
          end
      end
  end.

Definition candidates (ix : index) (rec : value) : res candidate :=
  fqdn ← rec_text "fqdn" rec;
  sni ← rec_text "sni" rec;
  ip ← rec_ip rec;
  cert ← rec_text "certificate_sha256" rec;
  let cert := lower cert in
  let cert_hosts := if is_empty cert then [] else remove_dups (hits_of (ix_cert ix) cert) in
  Ok (choose cert_hosts (tiers ix (dns_key fqdn) (dns_key sni) ip cert_hosts)).

Definition reachable (transport port : value) (ip : option string) (ln : clistener) : bool :=
  py_eq (cl_protocol ln) transport && py_eq (cl_port ln) port &&
  (py_eq (cl_scope ln) (VStr "any") || py_eq (cl_scope ln) (VStr "specific")) &&
  negb (py_eq (cl_scope ln) (VStr "specific") &&
        match ip with Some ip => negb (bool_decide (cl_address ln = Some ip)) | None => false end).

Definition NAMESPACE_NOTE : string :=
  "listener is in another network namespace: reachable only through port mapping".

Definition rec_transport (rec : value) : res value :=
  transport ← get "transport" rec;
  if truthy transport then Ok transport
  else
    protocol ← getitem "protocol" rec;
    t ← protocol_transport protocol;
    match t with Some t => Ok (VStr t) | None => Raise (KeyError (py_str protocol)) end.

(** (listener, matching listener count, note). *)
Definition pick_listener (h : host) (rec : value) : res (option (clistener * nat * option string)) :=
  transport ← rec_transport rec;
  ip ← rec_ip rec;
  port ← getitem "port" rec;
  let hits := List.filter (reachable transport port ip) (h_listeners h) in
  Ok (match hits with
      | [] => None
      | first :: _ =>
          match List.filter (fun ln => py_eq (cl_namespace ln) (VStr "host")) hits with
          | ln :: _ => Some (ln, length hits, None)
          | [] => Some (first, length hits, Some NAMESPACE_NOTE)
          end
      end).

Definition ssh_or_ike (protocol : value) : bool :=
  py_eq protocol (VStr "ssh") || py_eq protocol (VStr "ikev2").

Definition capable_of (h : host) (ln : option clistener) (protocol : value) : option bool :=
  if py_eq protocol (VStr "ssh") then h_ssh_capable h
  else if py_eq protocol (VStr "ikev2") then h_ike_capable h
  else match ln with Some ln => cl_capable ln | None => None end.

Definition configured_of (h : host) (ln : option clistener) (protocol : value) : option bool :=
  if py_eq protocol (VStr "ssh") then h_ssh_configured h
  else if py_eq protocol (VStr "ikev2") then h_ike_configured h
  else if match ln with Some ln => cl_go_hybrid ln | None => false end then Some true
  else h_tls_configured h.

(** ** The join *)

Inductive status := UnmatchedHost | AmbiguousHost | Matched | UnmatchedListener | NoServiceScan.
#[export] Instance status_eq_dec : EqDecision status.
Proof. solve_decision. Defined.
Definition status_name (s : status) : string :=
  match s with
  | UnmatchedHost => "unmatched_host" | AmbiguousHost => "ambiguous" | Matched => "matched"
  | UnmatchedListener => "unmatched_listener" | NoServiceScan => "no_service_scan"
  end.

Record omatch := OMatch {
  m_rec : value; m_protocol : value; m_observed : option string; m_class : oclass; m_status : status;
  m_basis : option string; m_host : option string; m_candidates : list string;
  m_listener : option (clistener * nat); m_capable : option bool; m_configured : option bool;
  m_state : option state; m_cert_on_host : option bool; m_stale : option bool; m_note : option string }.

(** [total_seconds() / 86400] of a difference in microseconds. *)
Definition age_days (us : Z) : float := f_div (f_dec false (Z.abs us) (-6)) (f_of_Z 86400).

(** What the join says of an observation matched to a host. *)
Definition match_host (max_age : float) (h : host) (basis : string) (rec : value) (canonical : option string)
    (cls : oclass) : res omatch :=
  protocol ← getitem "protocol" rec;
  cert ← rec_text "certificate_sha256" rec;
  let cert := lower cert in
  let on_host := if is_empty cert then None else Some (bool_decide (cert ∈ h_certs h)) in
  observed_at ← getitem "observed_at" rec;
  let stale := match h_generated h, parse_time fromisoformat observed_at with
               | Some g, Some o => Some (f_lt max_age (age_days (g - o)))
               | _, _ => None
               end in
  picked ← (if ssh_or_ike protocol || h_service_scan h then pick_listener h rec else Ok None);
  let ln := fst ∘ fst <$> picked in
  let st := match picked with
            | Some _ => Matched
            | None => if h_service_scan h then UnmatchedListener else NoServiceScan
            end in
  let judged := match st with UnmatchedListener => false | _ => true end in
  let cap := if judged then capable_of h ln protocol else None in
  let conf := if judged then configured_of h ln protocol else None in
  Ok (OMatch rec protocol canonical cls st (Some basis) (Some (h_name h)) [] (fst <$> picked) cap conf
        (if judged then Some (classify cap conf) else None) on_host stale (picked ≫= snd)).

Definition match_record (max_age : float) (ix : index) (rec : value) : res omatch :=
  oc ← classify_observed rec;
  let '(canonical, cls) := oc in
  c ← candidates ix rec;
  protocol ← getitem "protocol" rec;
  let none st names := OMatch rec protocol canonical cls st None None names None None None None None None None in
  match c with
  | NoHost => Ok (none UnmatchedHost [])
  | Ambiguous l =>
      Ok (none AmbiguousHost (py_sorted str_lt (omap (fun i => h_name <$> ix_hosts ix !! i) l)))
  | OneHost i basis =>
      match ix_hosts ix !! i with
      | Some h => match_host max_age h basis rec canonical cls
      | None => Raise IndexError
      end
  end.

(** The per-host counters. *)
Record per_host := PerHost {
  ph_endpoints : Z; ph_by_class : list (string * Z); ph_capable_classical : Z;
  ph_configured_classical : Z; ph_stale : Z }.

Definition is_Some_true (o : option bool) : bool := bool_decide (o = Some true).

Definition count_host (m : omatch) (h : per_host) : per_host :=
  let classical := bool_decide (m_class m = Classical) in
  PerHost (ph_endpoints h + 1) (cincr (class_name (m_class m)) (ph_by_class h))
    (if classical && is_Some_true (m_capable m) then ph_capable_classical h + 1 else ph_capable_classical h)
    (if classical && is_Some_true (m_configured m) then ph_configured_classical h + 1 else ph_configured_classical h)
    (if is_Some_true (m_stale m) then ph_stale h + 1 else ph_stale h).

Definition tri (v : option bool) : string :=
  match v with None => "unknown" | Some true => "yes" | Some false => "no" end.

Abbreviation triple := (string * string * string)%type.

Record joined := Joined {
  j_by_status : list (string * Z); j_by_class : list (string * Z); j_states : list (triple * Z);
  j_gap_states : list (triple * Z); j_per_host : list (string * per_host); j_stale : Z;
  j_matches : list omatch }.

(** The counters after one observation. *)
Definition tally_match (j : joined) (m : omatch) : joined :=
  let cls := class_name (m_class m) in
  let judged st :=
    Joined (j_by_status j) (j_by_class j)
      (cincr (tri (m_capable m), tri (m_configured m), cls) (j_states j))
      (cincr (py_str (m_protocol m), state_name st, cls) (j_gap_states j))
      (match m_host m with
       | Some name => dset name (count_host m (default (PerHost 0 [] 0 0 0) (dget name (j_per_host j)))) (j_per_host j)
       | None => j_per_host j
       end)
      (j_stale j) (j_matches j) in
  let j' := match m_state m with Some st => judged st | None => j end in
  Joined (cincr (status_name (m_status m)) (j_by_status j')) (cincr cls (j_by_class j')) (j_states j')
    (j_gap_states j') (j_per_host j') (if is_Some_true (m_stale m) then j_stale j' + 1 else j_stale j')
    (j_matches j' ++ [m]).

Definition join_step (max_age : float) (ix : index) (j : joined) (rec : value) : res joined :=
  m ← match_record max_age ix rec; Ok (tally_match j m).

Definition join_records (max_age : float) (ix : index) (records : list value) : res joined :=
  foldM (join_step max_age ix) (Joined [] [] [] [] [] 0 []) records.

(** The rollup object. *)
Definition triple_lt (a b : triple) : bool :=
  str_lt a.1.1 b.1.1 || (String.eqb a.1.1 b.1.1 &&
    (str_lt a.1.2 b.1.2 || (String.eqb a.1.2 b.1.2 && str_lt a.2 b.2))).

Record observations := Observations {
  o_format : string; o_total : Z; o_valid : Z; o_invalid : list (Z * string); o_max_age : float; o_stale : Z;
  o_by_status : list (string * Z); o_by_class : list (string * Z); o_states : list (triple * Z);
  o_gap_states : list (triple * Z); o_per_host : list (string * per_host); o_matches : list omatch }.

Definition join_observations (lo : loaded) (ix : index) (max_age : float) : res observations :=
  j ← join_records max_age ix (VDict <$> lo_records lo);
  Ok (Observations (lo_format lo)
        (Z.of_nat (length (lo_records lo)) + Z.of_nat (length (lo_invalid lo)))
        (Z.of_nat (length (lo_records lo))) (lo_invalid lo) max_age (j_stale j)
        (sorted_counter (j_by_status j)) (sorted_counter (j_by_class j))
        (py_sorted (fun a b => triple_lt a.1 b.1) (j_states j))
        (py_sorted (fun a b => triple_lt a.1 b.1) (j_gap_states j))
        (py_sorted (fun a b => str_lt a.1 b.1) (j_per_host j)) (j_matches j)).

(** ** Conservation of the counters *)

(** An observation is judged exactly when its listener, or a host that was not
    scanned for listeners, decides it. *)
Definition judged_status (s : status) : bool :=
  match s with Matched | NoServiceScan => true | _ => false end.

Definition match_ok (m : omatch) : Prop :=
  (m_state m = if judged_status (m_status m) then Some (classify (m_capable m) (m_configured m)) else None) /\
  (is_Some (m_host m) <-> m_status m <> UnmatchedHost /\ m_status m <> AmbiguousHost).

Lemma match_host_ok max_age h basis rec canonical cls m :
  match_host max_age h basis rec canonical cls = Ok m -> match_ok m /\ m_host m = Some (h_name h) /\ m_rec m = rec.
Proof.
  unfold match_host. intros H. do 3 bind_inv H. bind H as picked Hp. injection H as <-.
  unfold match_ok. simpl. destruct picked as [[[ln n] note]|]; [|destruct (h_service_scan h)]; simpl;
    split_and!; (done || (split; [done|by eexists]) || idtac).
Qed.

Lemma match_record_ok max_age ix rec m : match_record max_age ix rec = Ok m -> match_ok m /\ m_rec m = rec.
Proof.
  unfold match_record. intros H. bind H as oc Ho. destruct oc as [canonical cls]. bind H as c Hc. bind_inv H.
  destruct c as [|i basis|l].
  - injection H as <-. unfold match_ok; simpl. split_and!; [done| |done]. split; [by intros [? ?]|intros [? ?]; congruence].
  - destruct (ix_hosts ix !! i); [|done]. by apply match_host_ok in H as (? & ? & ?).
  - injection H as <-. unfold match_ok; simpl. split_and!; [done| |done]. split; [by intros [? ?]|intros [? ?]; congruence].
Qed.

Definition endpoints (l : list (string * per_host)) : Z := foldr (fun kv acc => ph_endpoints kv.2 + acc) 0 l.

Lemma endpoints_dset name h l :
  endpoints (dset name h l) =
  endpoints l + ph_endpoints h - ph_endpoints (default (PerHost 0 [] 0 0 0) (dget name l)).
Proof.
  induction l as [|[k x] l IH]; simpl; [lia|]. case_decide; simpl; [lia|]. rewrite IH. lia.
Qed.

(** What the counters say of the matches so far. *)
Record counted (j : joined) : Prop := {
  ct_status : forall s, cget (status_name s) (j_by_status j) = occurrences s (m_status <$> j_matches j);
  ct_status_total : ctotal (j_by_status j) = Z.of_nat (length (j_matches j));
  ct_class : forall c, cget (class_name c) (j_by_class j) = occurrences c (m_class <$> j_matches j);
  ct_class_total : ctotal (j_by_class j) = Z.of_nat (length (j_matches j));
  ct_states : ctotal (j_states j) = count_where (judged_status ∘ m_status) (j_matches j);
  ct_gap_states : ctotal (j_gap_states j) = count_where (judged_status ∘ m_status) (j_matches j);
  ct_hosts : endpoints (j_per_host j) = count_where (judged_status ∘ m_status) (j_matches j);
  ct_stale : j_stale j = count_where (is_Some_true ∘ m_stale) (j_matches j);
  ct_ok : Forall match_ok (j_matches j);
  ct_wf : dwf (j_by_status j) /\ dwf (j_by_class j) }.

Lemma count_where_snoc {A} (p : A -> bool) l x : count_where p (l ++ [x]) = count_where p l + (if p x then 1 else 0).
Proof.
  unfold count_where. rewrite List.filter_app, length_app. simpl. destruct (p x); simpl; lia.
Qed.

Lemma occurrences_snoc {K} `{EqDecision K} (k : K) l x :
  occurrences k (l ++ [x]) = occurrences k l + (if decide (x = k) then 1 else 0).
Proof.
  induction l as [|y l IH]; simpl; rewrite !occurrences_cons; [unfold occurrences; simpl; lia|]. rewrite IH. lia.
Qed.

#[local] Instance status_name_inj : Inj (=) (=) status_name.
Proof. by intros [] []. Qed.
#[local] Instance class_name_inj : Inj (=) (=) class_name.
Proof. by intros [] []. Qed.

Lemma cget_cincr_inj {K} `{EqDecision K} (f : K -> string) `{!Inj (=) (=) f} (x k : K) c :
  cget (f k) (cincr (f x) c) = cget (f k) c + (if decide (x = k) then 1 else 0).
Proof. unfold cincr. rewrite cget_cadd. do 2 case_decide; subst; try done. by apply (inj f) in H. Qed.

Lemma tally_match_counted j m : counted j -> match_ok m -> counted (tally_match j m).
Proof.
  intros [S1 S2 C1 C2 T1 T2 E1 A1 M1 [W1 W2]] Hm. pose proof Hm as [Hst Hh].
  assert (match m_state m with Some _ => judged_status (m_status m) = true /\ is_Some (m_host m)
          | None => judged_status (m_status m) = false end) as Hj.
  { rewrite Hst. destruct (judged_status (m_status m)) eqn:E; [|done]. split; [done|]. apply Hh.
    by destruct (m_status m). }
  split.
  1-4: intros; unfold tally_match; destruct (m_state m); simpl;
    rewrite ?fmap_app, ?length_app; simpl; rewrite ?cget_cincr_inj, ?occurrences_snoc, ?ctotal_cincr, ?S1, ?C1;
    try lia; apply _.
  1-2: unfold tally_match; destruct (m_state m); simpl; rewrite count_where_snoc; simpl;
    rewrite ?ctotal_cincr; [destruct Hj as [-> _]|rewrite Hj]; lia.
  - unfold tally_match. destruct (m_state m); simpl; rewrite count_where_snoc; simpl.
    + destruct Hj as [-> [name ->]]. rewrite endpoints_dset. simpl. lia.
    + rewrite Hj. lia.
  - unfold tally_match. destruct (m_state m); simpl; rewrite count_where_snoc; simpl; rewrite <-A1;
      destruct (is_Some_true (m_stale m)); lia.
  - unfold tally_match. destruct (m_state m); simpl; (apply Forall_app; split; [done|]; constructor; [exact Hm|done]).
  - unfold tally_match. destruct (m_state m); simpl; split; by apply cincr_wf.
Qed.

Lemma join_records_counted max_age ix records j :
  join_records max_age ix records = Ok j ->
  counted j /\ m_rec <$> j_matches j = records.
Proof.
  unfold join_records. intros H.
  assert (forall records j0 j, counted j0 -> foldM (join_step max_age ix) j0 records = Ok j ->
    counted j /\ m_rec <$> j_matches j = (m_rec <$> j_matches j0) ++ records) as Hgen.
  { clear. induction records as [|rec records IH]; intros j0 j Hj0 H; cbn [foldM] in H.
    - injection H as <-. by rewrite app_nil_r.
    - bind H as j1 H1. unfold join_step in H1. bind H1 as m Hm. injection H1 as <-.
      apply match_record_ok in Hm as [Hm Hrec]. apply IH in H as [H1 H2]; [|by apply tally_match_counted].
      split; [done|]. rewrite H2. assert (j_matches (tally_match j0 m) = j_matches j0 ++ [m]) as ->
        by (unfold tally_match; by destruct (m_state m)).
      rewrite fmap_app, <-app_assoc. csimpl. by rewrite Hrec. }
  apply Hgen in H; [done|]. split; try done; try (split; constructor).
Qed.

Lemma ctotal_sorted (c : list (string * Z)) : ctotal (sorted_counter c) = ctotal c.
Proof. unfold sorted_counter. by rewrite (ctotal_perm _ _ (py_sorted_perm _ _)). Qed.

Lemma endpoints_perm l l' : l ≡ₚ l' -> endpoints l = endpoints l'.
Proof. induction 1; simpl; lia. Qed.

End Clock.

(** ** The index is exact *)

(** What each table is keyed by. *)
Definition name_keys (h : host) : list string :=
  let name := dns_key (h_name h) in if is_empty name then [] else [name].
Definition short_keys (h : host) : list string := before "." <$> name_keys h.

Definition keyed (hosts : list host) (keys : host -> list string) (d : list (string * list nat)) : Prop :=
  forall k i, i ∈ hits_of d k <-> exists h, hosts !! i = Some h /\ k ∈ keys h.

Record index_ok (ix : index) : Prop := {
  io_name : keyed (ix_hosts ix) name_keys (ix_name ix);
  io_short : keyed (ix_hosts ix) short_keys (ix_short ix);
  io_ip : keyed (ix_hosts ix) host_ips (ix_ip ix);
  io_cert : keyed (ix_hosts ix) h_certs (ix_cert ix) }.

Lemma elem_of_push k i d k' j : j ∈ hits_of (push k i d) k' <-> j ∈ hits_of d k' \/ (k' = k /\ j = i).
Proof.
  unfold hits_of, push. rewrite dget_dset. case_decide as E; [subst|].
  - simpl. rewrite elem_of_app, list_elem_of_singleton. naive_solver.
  - naive_solver.
Qed.

Lemma elem_of_pushes ks i d k' j :
  j ∈ hits_of (foldl (fun d k => push k i d) d ks) k' <-> j ∈ hits_of d k' \/ (k' ∈ ks /\ j = i).
Proof.
  revert d; induction ks as [|k ks IH]; intros d; simpl.
  - rewrite elem_of_nil. naive_solver.
  - rewrite IH, elem_of_push, elem_of_cons. naive_solver.
Qed.

Lemma keyed_add hosts keys d h :
  keyed hosts keys d -> keyed (hosts ++ [h]) keys (foldl (fun d k => push k (length hosts) d) d (keys h)).
Proof.
  intros Hk k i. rewrite elem_of_pushes, (Hk k i). split.
  - intros [(h' & Hi & Hin)|[Hin ->]].
    + exists h'. split; [|done]. rewrite lookup_app_l; [done|]. by eapply lookup_lt_Some.
    + exists h. split; [|done]. by rewrite lookup_app_r, Nat.sub_diag by lia.
  - intros (h' & Hi & Hin). apply lookup_snoc_Some in Hi as [[_ Hi]|[-> <-]]; [left; eauto|by right].
Qed.

Lemma index_add_ok clock ix report ix' : index_ok ix -> index_add clock ix report = Ok ix' -> index_ok ix'.
Proof.
  intros [N S I C] H. unfold index_add in H. bind H as h Hh. injection H as <-.
  apply (keyed_add _ _ _ h) in N, S, I, C. unfold name_keys, short_keys in *.
  split; cbn [ix_hosts ix_name ix_short ix_ip ix_cert].
  - revert N. unfold name_keys. by destruct (is_empty (dns_key (h_name h))).
  - revert S. unfold short_keys, name_keys. by destruct (is_empty (dns_key (h_name h))).
  - done.
  - done.
Qed.

Lemma index_reports_ok clock reports ix : index_reports clock reports = Ok ix -> index_ok ix.
Proof.
  apply (foldM_inv index_ok).
  - split; intros k i; (split; [by intros ?%not_elem_of_nil | by intros (? & ? & _)]).
  - intros. by eapply index_add_ok.
Qed.

(** ** A match rests on a name, address or certificate of the host *)

(** The tests of the tiers, on the host itself. *)
Definition tier_tests (fqdn sni : string) (ip : option string) (cert : string) : list (string * (host -> Prop)) :=
  [("fqdn", fun h => fqdn <> EmptyString /\ dns_key (h_name h) = fqdn);
   ("sni", fun h => sni <> EmptyString /\ dns_key (h_name h) = sni);
   ("ip", fun h => exists a, ip = Some a /\ a ∈ host_ips h);
   ("short-name", fun h => exists n, n ∈ [fqdn; sni] /\ n <> EmptyString /\
      dns_key (h_name h) <> EmptyString /\ before "." (dns_key (h_name h)) = before "." n);
   ("certificate", fun h => cert <> EmptyString /\ cert ∈ h_certs h)].

Definition holds_of (hosts : list host) (t : string * list nat) (p : string * (host -> Prop)) : Prop :=
  t.1 = p.1 /\ forall i, i ∈ t.2 <-> exists h, hosts !! i = Some h /\ p.2 h.

Lemma is_empty_false s : is_empty s = false <-> s <> EmptyString.
Proof. unfold is_empty. by destruct (String.eqb_spec s EmptyString). Qed.

Lemma elem_of_name_keys k h : k ∈ name_keys h <-> dns_key (h_name h) = k /\ k <> EmptyString.
Proof.
  unfold name_keys. destruct (is_empty (dns_key (h_name h))) eqn:E.
  - rewrite elem_of_nil. split; [done|]. intros [<- H]. by apply is_empty_false in H; rewrite E in H.
  - rewrite list_elem_of_singleton. apply is_empty_false in E. naive_solver.
Qed.

Lemma tiers_hold ix fqdn sni ip cert :
  index_ok ix ->
  Forall2 (holds_of (ix_hosts ix))
    (tiers ix fqdn sni ip (if is_empty cert then [] else remove_dups (hits_of (ix_cert ix) cert)))
    (tier_tests fqdn sni ip cert).
Proof.
  intros [N S I C]. unfold tiers, tier_tests. cbv zeta.
  repeat match goal with |- Forall2 _ _ _ => constructor end; (split; [reflexivity|cbn [fst snd]]).
  1-2: intros i; destruct (is_empty _) eqn:E;
    [rewrite elem_of_nil; split; [done|]; intros (h & _ & H & _); apply is_empty_false in H; congruence|];
    apply is_empty_false in E; rewrite (N _ i); setoid_rewrite elem_of_name_keys; naive_solver.
  - intros i. destruct ip as [a|]; [rewrite (I a i); naive_solver|]. rewrite elem_of_nil. naive_solver.
  - intros i. rewrite list_elem_of_In, in_concat. setoid_rewrite <-list_elem_of_In.
    split.
    + intros (l & Hl & Hi). apply list_elem_of_fmap in Hl as (s & -> & Hs).
      apply S in Hi as (h & Hh & Hk). exists h. split; [done|].
      apply elem_of_remove_dups, list_elem_of_fmap in Hs as (n & -> & Hn).
      apply list_elem_of_In, filter_In in Hn as [Hn He]. apply list_elem_of_In in Hn.
      apply negb_true_iff, is_empty_false in He.
      unfold short_keys in Hk. apply list_elem_of_fmap in Hk as (k & Heq & Hk).
      apply elem_of_name_keys in Hk as [<- Hk]. exists n. done.
    + intros (h & Hh & n & Hn & Hne & Hk & Heq). exists (hits_of (ix_short ix) (before "." n)). split.
      * apply list_elem_of_fmap. exists (before "." n). split; [done|].
        apply elem_of_remove_dups, list_elem_of_fmap. exists n. split; [done|].
        apply list_elem_of_In, filter_In. split; [by apply list_elem_of_In|]. by apply negb_true_iff, is_empty_false.
      * apply S. exists h. split; [done|]. unfold short_keys. rewrite <-Heq.
        apply list_elem_of_fmap. exists (dns_key (h_name h)). split; [done|]. by apply elem_of_name_keys.
  - intros i. destruct (is_empty cert) eqn:E.
    + rewrite elem_of_nil. split; [done|]. intros (h & _ & H & _). apply is_empty_false in H. congruence.
    + apply is_empty_false in E. rewrite elem_of_remove_dups, (C cert i). naive_solver.
Qed.

Lemma elem_of_sort_nats i l : i ∈ sort_nats l <-> i ∈ l.
Proof. unfold sort_nats. by rewrite elem_of_py_sorted, elem_of_remove_dups. Qed.

Lemma sort_nats_nodup l : NoDup (sort_nats l).
Proof. unfold sort_nats. apply NoDup_py_sorted, NoDup_remove_dups. Qed.

(** What [choose] decides, on any tiers. *)
Definition choice (cert_hosts : list nat) (ts : list (string * list nat)) (c : candidate) : Prop :=
  match c with
  | NoHost => Forall (fun t => forall i, i ∉ t.2) ts
  | OneHost i basis => exists pre b hits post,
      ts = pre ++ (b, hits) :: post /\ Forall (fun t => forall i, i ∉ t.2) pre /\ i ∈ hits /\
      ((basis = b /\ forall j, j ∈ hits -> j = i) \/
       (basis = b +:+ "+certificate" /\ i ∈ cert_hosts /\ forall j, j ∈ hits -> j ∈ cert_hosts -> j = i))
  | Ambiguous l => exists pre b hits post,
      ts = pre ++ (b, hits) :: post /\ Forall (fun t => forall i, i ∉ t.2) pre /\
      NoDup l /\ (2 <= length l)%nat /\ forall i, i ∈ l <-> i ∈ hits
  end.

Lemma choice_cons cert_hosts b hits ts c :
  (forall i, i ∉ hits) -> choice cert_hosts ts c -> choice cert_hosts ((b, hits) :: ts) c.
Proof.
  intros Hn. destruct c as [|i basis|l]; simpl.
  - intros H. by constructor.
  - intros (pre & b' & hits' & post & -> & Hpre & H). exists ((b, hits) :: pre), b', hits', post.
    split_and!; [done|by constructor|apply H|apply H].
  - intros (pre & b' & hits' & post & -> & Hpre & H). exists ((b, hits) :: pre), b', hits', post.
    split; [done|]. split; [by constructor|done].
Qed.

Lemma choose_choice cert_hosts ts : choice cert_hosts ts (choose cert_hosts ts).
Proof.
  induction ts as [|[b hits] ts IH]; [by constructor|]. cbn [choose].
  pose proof (sort_nats_nodup hits) as Hnd.
  assert (forall i, i ∈ hits <-> i ∈ sort_nats hits) as Hel by (intros; by rewrite elem_of_sort_nats).
  destruct (sort_nats hits) as [|i [|j rest]] eqn:E.
  - apply choice_cons; [|done]. intros i. rewrite Hel. apply not_elem_of_nil.
  - exists [], b, hits, ts. split_and!; [done|constructor|apply Hel; by left|].
    left. split; [done|]. intros j Hj%Hel. by apply list_elem_of_singleton in Hj.
  - assert (choice cert_hosts ((b, hits) :: ts) (Ambiguous (i :: j :: rest))) as Hamb.
    { exists [], b, hits, ts. split_and!; [done|constructor|done|simpl; lia|]. intros k. by rewrite Hel. }
    destruct (List.filter (fun h => bool_decide (h ∈ cert_hosts)) (i :: j :: rest)) as [|k [|]] eqn:Ef; [exact Hamb| |exact Hamb].
    assert (forall x, x ∈ List.filter (fun h => bool_decide (h ∈ cert_hosts)) (i :: j :: rest) <->
      x ∈ hits /\ x ∈ cert_hosts) as Hf.
    { intros x. rewrite list_elem_of_In, filter_In, <-list_elem_of_In, Hel, bool_decide_eq_true. done. }
    rewrite Ef in Hf. destruct (String.eqb b "certificate"); [done|].
    exists [], b, hits, ts. destruct (proj1 (Hf k)) as [H1 H2]; [by left|].
    split_and!; [done|constructor|done|]. right. split_and!; [done|done|].
    intros x Hx Hc. by apply list_elem_of_singleton, Hf.
Qed.

(** The observed target of a record. *)
Record target := Target { tg_fqdn : string; tg_sni : string; tg_ip : option string; tg_cert : string }.

Definition target_of (rec : value) (t : target) : Prop :=
  (exists f, rec_text "fqdn" rec = Ok f /\ tg_fqdn t = dns_key f) /\
  (exists s, rec_text "sni" rec = Ok s /\ tg_sni t = dns_key s) /\
  rec_ip rec = Ok (tg_ip t) /\
  (exists c, rec_text "certificate_sha256" rec = Ok c /\ tg_cert t = lower c).

Definition tests (t : target) : list (string * (host -> Prop)) :=
  tier_tests (tg_fqdn t) (tg_sni t) (tg_ip t) (tg_cert t).

(** The strongest tier that any host of the fleet satisfies, with the hosts
    that satisfy it. *)
Definition strongest (hosts : list host) (t : target) (b : string) (test : host -> Prop) : Prop :=
  exists pre post, tests t = pre ++ (b, test) :: post /\
    Forall (fun p => forall i h, hosts !! i = Some h -> ~ p.2 h) pre.

(** What a candidate means for the fleet. *)
Definition candidate_ok (hosts : list host) (t : target) (c : candidate) : Prop :=
  match c with
  | NoHost => forall b test i h, (b, test) ∈ tests t -> hosts !! i = Some h -> ~ test h
  | OneHost i basis => exists b test h,
      strongest hosts t b test /\ hosts !! i = Some h /\ test h /\
      ((basis = b /\ forall j h', hosts !! j = Some h' -> test h' -> j = i) \/
       (basis = b +:+ "+certificate" /\ tg_cert t ∈ h_certs h /\
        forall j h', hosts !! j = Some h' -> test h' -> tg_cert t ∈ h_certs h' -> j = i))
  | Ambiguous l => exists b test,
      strongest hosts t b test /\ NoDup l /\ (2 <= length l)%nat /\
      forall i, i ∈ l <-> exists h, hosts !! i = Some h /\ test h
  end.

Lemma holds_of_empty hosts ts ps :
  Forall2 (holds_of hosts) ts ps -> Forall (fun t => forall i, i ∉ t.2) ts ->
  Forall (fun p : string * (host -> Prop) => forall i h, hosts !! i = Some h -> ~ p.2 h) ps.
Proof.
  induction 1 as [|t p ts ps [_ H] _ IH]; intros Hn; [constructor|]. inversion Hn as [|? ? Hn1 Hn2]; subst.
  constructor; [|by apply IH]. intros i h Hi Hp. apply (Hn1 i), H. eauto.
Qed.

Lemma choice_candidate_ok ix t c :
  index_ok ix ->
  let certs := if is_empty (tg_cert t) then [] else remove_dups (hits_of (ix_cert ix) (tg_cert t)) in
  choice certs (tiers ix (tg_fqdn t) (tg_sni t) (tg_ip t) certs) c -> candidate_ok (ix_hosts ix) t c.
Proof.
  intros Hok certs Hc. pose proof (tiers_hold ix (tg_fqdn t) (tg_sni t) (tg_ip t) (tg_cert t) Hok) as H2.
  fold certs in H2.
  assert (forall j, j ∈ certs <-> exists h, ix_hosts ix !! j = Some h /\ tg_cert t ∈ h_certs h /\ tg_cert t <> EmptyString) as Hcert.
  { intros j. unfold certs. destruct (is_empty (tg_cert t)) eqn:E.
    - rewrite elem_of_nil. split; [done|]. intros (h & _ & _ & H). apply is_empty_false in H. congruence.
    - apply is_empty_false in E. rewrite elem_of_remove_dups, (io_cert _ Hok (tg_cert t) j). naive_solver. }
  destruct c as [|i basis|l]; simpl in Hc.
  - apply holds_of_empty in H2; [|done]. intros b test i h Hin Hi. rewrite Forall_forall in H2.
    by apply (H2 (b, test) Hin i).
  - destruct Hc as (pre & b & hits & post & Hts & Hpre & Hin & Hbasis). rewrite Hts in H2.
    apply Forall2_app_inv_l in H2 as (ps1 & ps2 & H1 & H2 & Hps).
    apply Forall2_cons_inv_l in H2 as ([b' test] & ps3 & [Hb Hh] & H3 & ->). cbn [fst snd] in Hb, Hh. subst b'.
    apply Hh in Hin as (h & Hi & Ht). exists b, test, h. split_and!; [|done|done|].
    + exists ps1, ps3. split; [done|]. by eapply holds_of_empty.
    + destruct Hbasis as [[-> Hu]|(-> & Hic & Hu)]; [left|right].
      * split; [done|]. intros j h' Hj Ht'. apply Hu, Hh. eauto.
      * split; [done|]. apply Hcert in Hic as (h0 & Hi0 & Hc0 & Hne). assert (h0 = h) as -> by congruence.
        split; [done|]. intros j h' Hj Ht' Hc'. apply Hu; [apply Hh; eauto|]. apply Hcert. exists h'.
        done.
  - destruct Hc as (pre & b & hits & post & Hts & Hpre & Hnd & Hlen & Hl). rewrite Hts in H2.
    apply Forall2_app_inv_l in H2 as (ps1 & ps2 & H1 & H2 & Hps).
    apply Forall2_cons_inv_l in H2 as ([b' test] & ps3 & [Hb Hh] & H3 & ->). cbn [fst snd] in Hb, Hh. subst b'.
    exists b, test. split_and!; [|done|done|intros i; by rewrite Hl].
    exists ps1, ps3. split; [done|]. by eapply holds_of_empty.
Qed.

(** C24: Matching an observation to a host is sound and complete.  On the
    index of a fleet, a host is named only when it satisfies a test of the
    strongest tier that any host satisfies (its own name equals the observed
    name, it listens on the observed address, ...) and is the only one of
    that tier, or the only one that also holds the observed certificate; an
    ambiguous result lists exactly the hosts (two or more) of that tier; and
    no host is reported only when no host satisfies any test. *)
Theorem candidates_sound clock reports ix rec c :
  index_reports clock reports = Ok ix -> candidates ix rec = Ok c ->
  exists t, target_of rec t /\ candidate_ok (ix_hosts ix) t c.
Proof.
  intros Hix H. apply index_reports_ok in Hix. unfold candidates in H.
  bind H as f Hf. bind H as s Hs. bind H as ip Hip. bind H as cert Hcert. injection H as <-.
  exists (Target (dns_key f) (dns_key s) ip (lower cert)). split.
  - split_and!; eauto.
  - apply choice_candidate_ok; [done|]. apply choose_choice.
Qed.

Definition sample_host (name : string) (port : Z) : value := VDict [
  ("hostname", VStr name); ("generated_at", VStr "2026-01-01T00:00:00Z");
  ("crypto_policy", VDict [("pqc_enabled", VDict [("tls_key_exchange", VBool true)])]);
  ("service_crypto_linkage", VDict [("available", VBool true); ("listeners", VList [
     VDict [("process", VStr "nginx"); ("protocol", VStr "tcp"); ("port", VInt port); ("bind_scope", VStr "any");
            ("network_namespace", VStr "host");
            ("crypto_libraries", VList [VDict [("family", VStr "openssl"); ("library_pqc_capable", VBool true)]])]])])].
Definition sample_fleet : list value := [sample_host "www.example.com." 443; sample_host "db.example.com" 5432].
Definition observed (fqdn group : string) : list (string * value) :=
  [("_position", VInt 1); ("observed_at", VStr "2026-01-01T00:00:00Z"); ("protocol", VStr "tls"); ("port", VInt 443);
   ("fqdn", VStr fqdn); ("negotiated_group", VStr group); ("source", VDict [("category", VStr "manual")])].

Lemma candidates_sound_witness :
  exists ix t, index_reports one_time sample_fleet = Ok ix /\
    candidates ix (VDict (observed "WWW.example.com" "x25519")) = Ok (OneHost 0 "fqdn") /\
    candidate_ok (ix_hosts ix) t (OneHost 0 "fqdn").
Proof.
  destruct (index_reports one_time sample_fleet) as [ix|] eqn:E; [|vm_compute in E; discriminate].
  assert (candidates ix (VDict (observed "WWW.example.com" "x25519")) = Ok (OneHost 0 "fqdn")) as Hc
    by (vm_compute in E; injection E as <-; vm_compute; reflexivity).
  destruct (candidates_sound one_time sample_fleet ix _ _ E Hc) as (t & _ & Ht).
  by exists ix, t.
Defined.

Definition sample_loaded : loaded :=
  Loaded [observed "www.example.com" "x25519"; observed "db.example.com" "X25519MLKEM768";
          observed "nowhere.example.org" "0x11ec"] [(2, "line is not JSON")] "jsonl".


(** ** Names and codepoints *)

(** The class of a negotiated TLS group given by name. *)
Definition tls_class (name : string) : option (string * oclass) :=
  canonical ← tls_canonical name; Some (canonical, bucket_class (classify_tls_groups [canonical])).

(** A TLS group is recognised however the producer writes it: for every
    group of the registry the codepoint in hexadecimal or decimal, the name
    in any case and the name with separators are all read as the registry's
    name and get its class (pure for the ML-KEM groups, hybrid for the
    others), except that the obsolete Kyber drafts, though named, get class
    "unknown"; and a classical codepoint is classical under its own name. *)
Theorem observed_group_spellings :
  Forall (fun ng =>
    let cls := if g_obsolete ng.2 then UnknownClass else if bool_decide (g_classical ng.2 = None) then PurePqc else Hybrid in
    forall spelling, spelling ∈ [ng.1; lower ng.1; upper ng.1; hex04 (g_codepoint ng.2); lower (hex04 (g_codepoint ng.2));
                                 show_Z (g_codepoint ng.2); "-" +:+ ng.1 +:+ " "] ->
      tls_class spelling = Some (ng.1, cls)) TLS_PQC_GROUPS /\
  Forall (fun cn => forall spelling, spelling ∈ [cn.2; hex04 cn.1; show_Z cn.1] ->
      tls_class spelling = Some (cn.2, Classical)) CLASSICAL_TLS_CODEPOINTS.
Proof.
  split; apply Forall_forall; intros x Hx.
  - assert (forall s, s ∈ [x.1; lower x.1; upper x.1; hex04 (g_codepoint x.2); lower (hex04 (g_codepoint x.2));
      show_Z (g_codepoint x.2); "-" +:+ x.1 +:+ " "] -> tls_class s = Some (x.1,
        if g_obsolete x.2 then UnknownClass else if bool_decide (g_classical x.2 = None) then PurePqc else Hybrid)) as H; [|exact H].
    apply Forall_forall. revert x Hx. apply Forall_forall.
    apply (bool_decide_unpack _). vm_compute. exact I.
  - apply Forall_forall. revert x Hx. apply Forall_forall. apply (bool_decide_unpack _). vm_compute. exact I.
Qed.
