(* ===== verification/PyCsv.v ===== *)
(** * CSV text

    Python's [csv.writer] with its default dialect (minimal quoting, CRLF
    line ends), and a reader of that dialect as a state machine, used to state
    that what is written reads back. *)

From S2P Require Import Prelude PyStr.
Open Scope Z_scope.

Definition quote : ascii := "034".
Definition cr : ascii := "013".
Definition lf : ascii := "010".
Definition comma : ascii := ",".

Definition special (c : ascii) : bool :=
  Ascii.eqb c comma || Ascii.eqb c quote || Ascii.eqb c cr || Ascii.eqb c lf.

Definition escape (l : list ascii) : list ascii :=
  concat ((fun c => if Ascii.eqb c quote then [quote; quote] else [c]) <$> l).

(** One field of a row of several fields. *)
Definition csv_field (s : string) : list ascii :=
  let l := chars s in
  if existsb special l then quote :: escape l ++ [quote] else l.

Fixpoint csv_fields (fields : list string) : list ascii :=
  match fields with
  | [] => []
  | [f] => csv_field f
  | f :: fs => csv_field f ++ comma :: csv_fields fs
  end.

(** [w.writerow(fields)] for at least two fields. *)
Definition csv_row (fields : list string) : list ascii := csv_fields fields ++ [cr; lf].

Definition csv_text (rows : list (list string)) : string := str_of (concat (csv_row <$> rows)).

(** ** Reading *)

Inductive mode :=
| FieldStart   (** before the first character of a field *)
| Plain        (** inside an unquoted field *)
| Quoted       (** inside quotes *)
| QuoteSeen    (** after a quote inside quotes *)
| LineEnd.     (** after the carriage return *)

Record reader := Reader {
  r_mode : mode; r_field : list ascii; r_row : list string; r_rows : list (list string) }.

Definition end_field (r : reader) (m : mode) : reader :=
  Reader m [] (r_row r ++ [str_of (r_field r)]) (r_rows r).
Definition end_row (r : reader) : reader :=
  Reader FieldStart [] [] (r_rows r ++ [r_row r ++ [str_of (r_field r)]]).
Definition add_char (c : ascii) (m : mode) (r : reader) : reader :=
  Reader m (r_field r ++ [c]) (r_row r) (r_rows r).

(** One character; [None] is a malformed text. *)
Definition read_char (r : reader) (c : ascii) : option reader :=
  match r_mode r with
  | FieldStart | Plain =>
      if Ascii.eqb c comma then Some (end_field r FieldStart)
      else if Ascii.eqb c cr then Some (Reader LineEnd (r_field r) (r_row r) (r_rows r))
      else if Ascii.eqb c lf then None
      else if Ascii.eqb c quote then
        (if r_mode r is FieldStart then Some (Reader Quoted (r_field r) (r_row r) (r_rows r)) else None)
      else Some (add_char c Plain r)
  | Quoted =>
      if Ascii.eqb c quote then Some (Reader QuoteSeen (r_field r) (r_row r) (r_rows r))
      else Some (add_char c Quoted r)
  | QuoteSeen =>
      if Ascii.eqb c quote then Some (add_char quote Quoted r)
      else if Ascii.eqb c comma then Some (end_field r FieldStart)
      else if Ascii.eqb c cr then Some (Reader LineEnd (r_field r) (r_row r) (r_rows r))
      else None
  | LineEnd => if Ascii.eqb c lf then Some (end_row r) else None
  end.

Fixpoint read_chars (r : reader) (l : list ascii) : option reader :=
  match l with
  | [] => Some r
  | c :: l => r' ← read_char r c; read_chars r' l
  end.

Definition csv_read (text : string) : option (list (list string)) :=
  r ← read_chars (Reader FieldStart [] [] []) (chars text);
  match r_mode r, r_field r, r_row r with
  | FieldStart, [], [] => Some (r_rows r)
  | _, _, _ => None
  end.

(** ** The round trip *)

Lemma read_chars_app r l1 l2 : read_chars r (l1 ++ l2) = r' ← read_chars r l1; read_chars r' l2.
Proof.
  revert r; induction l1 as [|c l1 IH]; intros r; [done|]. simpl.
  destruct (read_char r c); [apply IH | done].
Qed.

Lemma special_false c : special c = false ->
  Ascii.eqb c comma = false /\ Ascii.eqb c quote = false /\ Ascii.eqb c cr = false /\ Ascii.eqb c lf = false.
Proof. unfold special. rewrite !orb_false_iff. tauto. Qed.

Lemma read_plain m f row rows l :
  m = FieldStart \/ m = Plain -> existsb special l = false ->
  read_chars (Reader m f row rows) l = Some (Reader (if l is [] then m else Plain) (f ++ l) row rows).
Proof.
  revert m f; induction l as [|c l IH]; intros m f Hm Hl; [by rewrite app_nil_r|].
  simpl in Hl. apply orb_false_iff in Hl as [Hc Hl]. apply special_false in Hc as (H1 & H2 & H3 & H4).
  assert (read_char (Reader m f row rows) c = Some (Reader Plain (f ++ [c]) row rows)) as Hstep
    by (destruct Hm as [-> | ->]; unfold read_char; cbn [r_mode]; by rewrite H1, H2, H3, H4).
  cbn [read_chars]. rewrite Hstep. cbn [mbind option_bind].
  rewrite IH; [|by right|done]. rewrite <-app_assoc. by destruct l.
Qed.

Lemma read_quoted f row rows l :
  read_chars (Reader Quoted f row rows) (escape l) = Some (Reader Quoted (f ++ l) row rows).
Proof.
  revert f; induction l as [|c l IH]; intros f; [by rewrite app_nil_r|].
  unfold escape. csimpl. destruct (Ascii.eqb c quote) eqn:E; simpl; unfold read_char; simpl.
  - apply Ascii.eqb_eq in E as ->. cbn. fold (escape l). unfold add_char; simpl. rewrite IH, <-app_assoc. done.
  - rewrite E. cbn. fold (escape l). unfold add_char; simpl. rewrite IH, <-app_assoc. done.
Qed.

(** A field followed by a comma or a carriage return. *)
Lemma read_field s row rows c k :
  c = comma \/ c = cr ->
  read_chars (Reader FieldStart [] row rows) (csv_field s ++ c :: k) =
  read_chars (if Ascii.eqb c comma then Reader FieldStart [] (row ++ [s]) rows
              else Reader LineEnd (chars s) row rows) k.
Proof.
  intros Hc. unfold csv_field. destruct (existsb special (chars s)) eqn:E.
  - cbn [app]. rewrite <-app_assoc. cbn [read_chars]. unfold read_char at 1. cbn.
    rewrite read_chars_app, read_quoted. cbn.
    destruct Hc as [-> | ->]; cbn; [|done]. unfold end_field. cbn. by rewrite str_of_chars.
  - rewrite read_chars_app, read_plain by (done || by left). cbn [mbind option_bind].
    pose proof (str_of_chars s) as Hs.
    destruct (chars s) as [|x l] eqn:El; destruct Hc as [-> | ->]; cbn; try done;
      unfold end_field; cbn; rewrite <-Hs; done.
Qed.

Lemma read_fields fields row rows k :
  fields <> [] ->
  read_chars (Reader FieldStart [] row rows) (csv_fields fields ++ cr :: lf :: k) =
  read_chars (Reader FieldStart [] [] (rows ++ [row ++ fields])) k.
Proof.
  intros Hne. revert row; induction fields as [|f fs IH]; intros row; [done|].
  destruct fs as [|g fs].
  - cbn [csv_fields]. rewrite read_field by (by right). cbn. unfold end_row. cbn. by rewrite str_of_chars.
  - change (csv_fields (f :: g :: fs)) with (csv_field f ++ comma :: csv_fields (g :: fs)).
    rewrite <-app_assoc. cbn [app]. rewrite read_field by (by left).
    change (Ascii.eqb comma comma) with true. cbv iota. rewrite IH by done. by rewrite <-app_assoc.
Qed.

(** What the writer writes reads back as the same rows. *)
Lemma csv_read_text rows : Forall (fun r => r <> []) rows -> csv_read (csv_text rows) = Some rows.
Proof.
  intros Hne. unfold csv_read, csv_text. rewrite chars_str_of.
  assert (forall done, read_chars (Reader FieldStart [] [] done) (concat (csv_row <$> rows)) =
    Some (Reader FieldStart [] [] (done ++ rows))) as ->; [|done].
  induction Hne as [|row rows Hrow _ IH]; intros acc; csimpl; [by rewrite app_nil_r|].
  unfold csv_row at 1. rewrite <-app_assoc. cbn [app]. rewrite read_fields by done. rewrite IH.
  by rewrite <-app_assoc.
Qed.
