(* ===== verification/Aggregate.v ===== *)
(** * Fleet aggregation ([aggregate.py])

    The rollup of a stream of reports: counters keyed by whatever the reports
    hold (a key must be hashable), the fleet view of the deployment gap, the
    CSV rendering, and the filter of the report files. *)

From S2P Require Import Prelude PyStr PyDict PyVal PyCsv Services Gap Observation Join.
Open Scope Z_scope.

(** [SCHEMA_VERSION] of [report.py]. *)
Definition SCHEMA_VERSION : string := "1.8".

(** ** Counters keyed by values *)

Abbreviation vcounter := (list (value * Z)).

(** The count of a key, with Python's equality. *)
Definition vget (k : value) (c : vcounter) : Z :=
  foldr (fun kn acc => (if py_eq kn.1 k then kn.2 else 0) + acc) 0 c.

Fixpoint vput (k : value) (d : Z) (c : vcounter) : vcounter :=
  match c with
  | [] => [(k, d)]
  | (k', n) :: c => if py_eq k' k then (k', n + d) :: c else (k', n) :: vput k d c
  end.

(** [c[k] += d]: an unhashable key raises. *)
Definition vadd (k : value) (d : Z) (c : vcounter) : res vcounter :=
  if hashable k then Ok (vput k d c) else Raise TypeError.

Definition vtotal (c : vcounter) : Z := foldr (fun kv acc => kv.2 + acc) 0 c.

(** [set.add] and [in set]. *)
Definition vmem (k : value) (l : list value) : bool := existsb (py_eq k) l.
Definition vset_add (k : value) (l : list value) : res (list value) :=
  if hashable k then Ok (if vmem k l then l else l ++ [k]) else Raise TypeError.

(** [a < b]: strings with strings, numbers with numbers. *)
Definition num_lt (a b : Z + float) : bool :=
  match a, b with
  | inl x, inl y => x <? y
  | inr f, inr g => f_lt f g
  | inl x, inr f => match f_frac f with Some (n, d) => x * d <? n | None => f_lt f_zero f end
  | inr f, inl x => match f_frac f with Some (n, d) => n <? x * d | None => f_lt f f_zero end
  end.
Definition value_lt (a b : value) : bool :=
  match a, b with
  | VStr s, VStr t => str_lt s t
  | _, _ => match num_of a, num_of b with Some x, Some y => num_lt x y | _, _ => false end
  end.

(** [sorted(l)] of hashable values: two values that cannot be compared raise. *)
Definition sort_values {A} (key : A -> value) (l : list A) : res (list A) :=
  if Nat.leb (length l) 1 || forallb (fun x => is_str (key x)) l ||
     forallb (fun x => bool_decide (is_Some (num_of (key x)))) l
  then Ok (py_sorted (fun x y => value_lt (key x) (key y)) l)
  else Raise TypeError.

(** ** One report *)

Record rollup_state := RollupState {
  rs_total : Z; rs_arch : vcounter; rs_os : vcounter; rs_isa : vcounter; rs_verdict : vcounter; rs_env : vcounter;
  rs_cpus : list value; rs_accel : vcounter; rs_unavailable : list (string * Z); rs_replace : Z;
  rs_gap : list (string * vcounter); rs_services : vcounter; rs_clients : vcounter; rs_processes : vcounter;
  rs_gap_hosts : list (string * Z) }.

Definition rollup_init : rollup_state :=
  RollupState 0 [] [] [] [] [] [] [] [] 0 ((fun p => (p, [])) <$> PROTOCOLS) [] [] [] [].

(** The accelerator kinds of one host, each once. *)
Definition host_kinds (r : value) : res (list value) :=
  accs ← get_l "accelerators" r;
  foldM (fun seen a => k ← get_or "kind" (VStr "?") a; vset_add k seen) [] accs.

(** The probes one host flags unavailable. *)
Definition unavailable_probes (r : value) : res (list string) :=
  d ← get_d "host_fs_detections_unavailable" r;
  kvs ← items d;
  Ok (fst <$> List.filter (fun kv => match kv.2 with
                                     | VDict info => truthy (default VNone (dget "unavailable_in_container" info))
                                     | _ => false
                                     end) kvs).

(** [x.get("state", "unknown")]. *)
Definition state_of (x : value) : res value := get_or "state" (VStr "unknown") x.

(** [(r.get("verdict") or "?").split(" - ", 1)[0].strip()]. *)
Definition verdict_key (r : value) : res value :=
  v ← get "verdict" r;
  match por v (VStr "?") with
  | VStr s => Ok (VStr (strip (before " - " s)))
  | _ => Raise AttributeError
  end.

(** What one report contributes. *)
Record contribution := Contribution {
  k_arch : value; k_os : value; k_isa : value; k_verdict : value; k_env : value; k_cpu : value;
  k_kinds : list value; k_unavailable : list string; k_replace : bool;
  k_protocols : list (string * value); k_services : list value; k_clients : list (value * Z) }.

Definition get_items (key : string) (g : value) : res (list value) := d ← get_d key g; get_l "items" d.

Definition contribute (r : value) : res contribution :=
  arch ← get_or "arch" (VStr "?") r;
  kinfo ← get_d "kernel_info" r;
  os ← get "os_release_id" kinfo;
  isa ← get_or "isa_tier" (VStr "?") r;
  verdict ← verdict_key r;
  renv ← get_d "runtime_environment" r;
  runtime ← get_or "environment" (VStr "?") renv;
  cpu ← get "cpu_model" r;
  kinds ← host_kinds r;
  unavailable ← unavailable_probes r;
  replace ← get "replace_required" r;
  g ← gap_for r;
  protos ← get_d "protocols" g;
  states ← mapM (fun p => d ← get_d p protos; st ← state_of d; Ok (p, st)) PROTOCOLS;
  svcs ← get_items "services" g;
  svc_states ← mapM state_of svcs;
  cls ← get_items "clients" g;
  cl_states ← mapM (fun cl => st ← state_of cl; n ← get_int "client_processes" cl; Ok (st, n)) cls;
  Ok (Contribution arch (por os (VStr "?")) isa verdict runtime (por cpu (VStr "?")) kinds unavailable
        (truthy replace) states svc_states cl_states).

Definition GAP_STATES : list string := ["capable_not_configured"; "configured_not_capable"].

(** The gap states one host shows anywhere. *)
Definition host_states (k : contribution) : list value := (k_protocols k).*2 ++ k_services k ++ (k_clients k).*1.

(** [gap_by_protocol[proto][st] += 1]. *)
Definition add_protocol (gap : list (string * vcounter)) (ps : string * value) : res (list (string * vcounter)) :=
  match dget ps.1 gap with
  | Some c => c' ← vadd ps.2 1 c; Ok (dset ps.1 c' gap)
  | None => Raise (KeyError ps.1)
  end.

Definition add_contribution (s : rollup_state) (k : contribution) : res rollup_state :=
  arch ← vadd (k_arch k) 1 (rs_arch s);
  os ← vadd (k_os k) 1 (rs_os s);
  isa ← vadd (k_isa k) 1 (rs_isa s);
  verdict ← vadd (k_verdict k) 1 (rs_verdict s);
  renv ← vadd (k_env k) 1 (rs_env s);
  cpus ← vset_add (k_cpu k) (rs_cpus s);
  accel ← foldM (fun c kd => vadd kd 1 c) (rs_accel s) (k_kinds k);
  gap ← foldM add_protocol (rs_gap s) (k_protocols k);
  services ← foldM (fun c st => vadd st 1 c) (rs_services s) (k_services k);
  clients ← foldM (fun c sn => vadd sn.1 1 c) (rs_clients s) (k_clients k);
  processes ← foldM (fun c sn => vadd sn.1 sn.2 c) (rs_processes s) (k_clients k);
  Ok (RollupState (rs_total s + 1) arch os isa verdict renv cpus accel
        (foldl (fun c p => cincr p c) (rs_unavailable s) (k_unavailable k))
        (if k_replace k then rs_replace s + 1 else rs_replace s) gap services clients processes
        (foldl (fun c st => if vmem (VStr st) (host_states k) then cincr st c else c) (rs_gap_hosts s) GAP_STATES)).

Definition rollup_step (s : rollup_state) (r : value) : res rollup_state :=
  k ← contribute r; add_contribution s k.

(** ** The rollup *)

Record rollup := Rollup {
  u_total : Z; u_arch : vcounter; u_os : vcounter; u_isa : vcounter; u_verdict : vcounter; u_env : vcounter;
  u_accel : vcounter; u_unavailable : list (string * Z); u_cpus : list value; u_replace : Z;
  u_gap : list (string * vcounter); u_services : vcounter; u_clients : vcounter; u_processes : vcounter;
  u_gap_hosts : list (string * Z); u_observations : option observations }.

Definition sort_counter (c : vcounter) : res vcounter := sort_values fst c.

Definition finish (s : rollup_state) : res rollup :=
  cpus ← sort_values id (rs_cpus s);
  gap ← mapM (fun pc => c ← sort_counter pc.2; Ok (pc.1, c)) (rs_gap s);
  services ← sort_counter (rs_services s);
  clients ← sort_counter (rs_clients s);
  processes ← sort_counter (rs_processes s);
  Ok (Rollup (rs_total s) (rs_arch s) (rs_os s) (rs_isa s) (rs_verdict s) (rs_env s) (rs_accel s)
        (rs_unavailable s) cpus (rs_replace s) gap services clients processes
        ((fun st => (st, cget st (rs_gap_hosts s))) <$> GAP_STATES) None).

Definition aggregate_iter (reports : list value) : res rollup :=
  s ← foldM rollup_step rollup_init reports; finish s.

Definition aggregate_reports : list value -> res rollup := aggregate_iter.

(** ** CSV *)

(** What [csv.writer] writes for a value: nothing for [None]. *)
Definition cell (v : value) : string := if v is VNone then EmptyString else py_str v.

Definition counter_rows (group : string) (c : vcounter) : list (list string) :=
  (fun kv => [group; cell kv.1; show_Z kv.2]) <$> c.
Definition str_rows (group : string) (c : list (string * Z)) : list (list string) :=
  (fun kv => [group; kv.1; show_Z kv.2]) <$> c.

Definition observation_rows (o : observations) : list (list string) :=
  [["observations_valid"; EmptyString; show_Z (o_valid o)];
   ["observations_invalid"; EmptyString; show_Z (Z.of_nat (length (o_invalid o)))];
   ["observations_stale"; EmptyString; show_Z (o_stale o)]] ++
  str_rows "observations_by_status" (o_by_status o) ++
  str_rows "observations_by_observed_class" (o_by_class o) ++
  ((fun tn => let '(c, g, ob) := tn.1 in
     ["observations_states"; "capable=" +:+ c +:+ ";configured=" +:+ g +:+ ";observed=" +:+ ob; show_Z tn.2]) <$> o_states o) ++
  ((fun tn => let '(p, st, ob) := tn.1 in
     ["observations_by_gap_state"; "protocol=" +:+ p +:+ ";state=" +:+ st +:+ ";observed=" +:+ ob; show_Z tn.2]) <$> o_gap_states o).

Definition csv_rows (u : rollup) : list (list string) :=
  [["group"; "key"; "count"]; ["total_hosts"; EmptyString; show_Z (u_total u)];
   ["replace_required_count"; EmptyString; show_Z (u_replace u)]] ++
  counter_rows "by_arch" (u_arch u) ++ counter_rows "by_os_release_id" (u_os u) ++
  counter_rows "by_isa_tier" (u_isa u) ++ counter_rows "by_verdict" (u_verdict u) ++
  counter_rows "by_runtime_environment" (u_env u) ++
  counter_rows "accelerator_kinds_host_count" (u_accel u) ++
  str_rows "host_fs_detections_unavailable_host_count" (u_unavailable u) ++
  ((fun cpu => ["unique_cpu_models"; cell cpu; "1"]) <$> u_cpus u) ++
  concat ((fun pc => counter_rows ("pqc_deployment_gap_" +:+ pc.1) pc.2) <$> u_gap u) ++
  counter_rows "pqc_deployment_gap_services" (u_services u) ++
  counter_rows "pqc_deployment_gap_client_groups" (u_clients u) ++
  counter_rows "pqc_deployment_gap_client_processes" (u_processes u) ++
  str_rows "pqc_deployment_gap_hosts_with" (u_gap_hosts u) ++
  match u_observations u with Some o => observation_rows o | None => [] end.

Definition aggregate_to_csv (u : rollup) : string := csv_text (csv_rows u).

(** ** The report files *)

Section Files.
(** What reading and parsing a file gives: a value, or why it cannot be
    read; [type_name] is [type(v).__name__]. *)
Context (parse : string -> value + string).

Definition type_name (v : value) : string :=
  match v with
  | VNone => "NoneType" | VBool _ => "bool" | VInt _ => "int" | VFloat _ => "float" | VStr _ => "str"
  | VList _ => "list" | VDict _ => "dict"
  end.

Definition admit_file (acc : list value * list (string * string)) (fp : string) :
    list value * list (string * string) :=
  let skip reason := (acc.1, acc.2 ++ [(fp, reason)]) in
  match parse fp with
  | inr e => skip ("unreadable: " +:+ e)
  | inl (VDict d) =>
      let sv := default VNone (dget "schema_version" d) in
      if negb (py_eq sv (VStr SCHEMA_VERSION))
      then skip ("schema mismatch: file=" +:+ py_repr sv +:+ " expected=" +:+ py_repr (VStr SCHEMA_VERSION))
      else (acc.1 ++ [VDict d], acc.2)
  | inl v => skip ("unreadable: expected a JSON object, got " +:+ type_name v)
  end.

(** [Path] objects compare by their parts. *)
Fixpoint parts_lt (a b : list string) : bool :=
  match a, b with
  | [], _ :: _ => true
  | _, [] => false
  | x :: a, y :: b => str_lt x y || (String.eqb x y && parts_lt a b)
  end.
Definition path_lt (a b : string) : bool := parts_lt (split "/" a) (split "/" b).

(** The admitted reports and the skipped files, in path order. *)
Definition iter_aggregator_reports (paths : list string) : list value * list (string * string) :=
  foldl admit_file ([], []) (py_sorted path_lt paths).

(** The rollup of a directory with the join of an observations file. *)
Definition run_aggregator (clock : string -> option (Z * bool)) (paths : list string) (lo : option loaded)
    (max_age : float) : res (rollup * list (string * string)) :=
  let '(reports, skipped) := iter_aggregator_reports paths in
  u ← aggregate_iter reports;
  match lo with
  | None => Ok (u, skipped)
  | Some lo =>
      ix ← index_reports clock reports;
      o ← join_observations clock lo ix max_age;
      Ok (Rollup (u_total u) (u_arch u) (u_os u) (u_isa u) (u_verdict u) (u_env u) (u_accel u) (u_unavailable u)
            (u_cpus u) (u_replace u) (u_gap u) (u_services u) (u_clients u) (u_processes u) (u_gap_hosts u)
            (Some o), skipped)
  end.
End Files.

(** ** Counting strings exactly *)

Lemma py_eq_str_iff v s : py_eq v (VStr s) = true <-> v = VStr s.
Proof. split; [apply py_eq_str|]. intros ->. simpl. apply String.eqb_refl. Qed.

Lemma py_eq_str_l v s : py_eq (VStr s) v = true <-> v = VStr s.
Proof.
  destruct v; simpl; try (split; done). rewrite String.eqb_eq. split; [by intros -> | by intros [= ->]].
Qed.

(** 1 when the value is the string. *)
Definition is_key (s : string) (v : value) : Z := if py_eq v (VStr s) then 1 else 0.

Lemma vget_vput s x d c : vget (VStr s) (vput x d c) = vget (VStr s) c + (if py_eq x (VStr s) then d else 0).
Proof.
  induction c as [|[k n] c IH]; simpl; [by destruct (py_eq x (VStr s)); lia|].
  destruct (py_eq k x) eqn:E; simpl; [|rewrite IH; lia].
  destruct (py_eq k (VStr s)) eqn:Ek.
  - apply py_eq_str_iff in Ek as ->. apply py_eq_str_l in E as ->. simpl. rewrite String.eqb_refl. lia.
  - destruct (py_eq x (VStr s)) eqn:Ex; [|lia]. apply py_eq_str_iff in Ex as ->. congruence.
Qed.

Lemma vget_perm k c c' : c ≡ₚ c' -> vget k c = vget k c'.
Proof. induction 1; simpl; lia. Qed.
Lemma vtotal_perm c c' : c ≡ₚ c' -> vtotal c = vtotal c'.
Proof. induction 1; simpl; lia. Qed.

Lemma vtotal_vput x d c : vtotal (vput x d c) = vtotal c + d.
Proof. induction c as [|[k n] c IH]; simpl; [lia|]. destruct (py_eq k x); simpl; lia. Qed.

(** What a counter says: its total and its count of every string. *)
Definition counter_sums {A} (key : A -> value) (weight : A -> Z) (l : list A) (c : vcounter) : Prop :=
  vtotal c = foldr (fun x acc => weight x + acc) 0 l /\
  forall s, vget (VStr s) c = foldr (fun x acc => is_key s (key x) * weight x + acc) 0 l.

Lemma foldr_add_app {A} (f : A -> Z) l1 l2 :
  foldr (fun x acc => f x + acc) 0 (l1 ++ l2) = foldr (fun x acc => f x + acc) 0 l1 + foldr (fun x acc => f x + acc) 0 l2.
Proof. induction l1 as [|x l1 IH]; simpl; lia. Qed.

Lemma counter_sums_add {A} (key : A -> value) weight l c x c' :
  counter_sums key weight l c -> vadd (key x) (weight x) c = Ok c' -> counter_sums key weight (l ++ [x]) c'.
Proof.
  intros [Ht Hg] H. unfold vadd in H. destruct (hashable (key x)); [|done]. injection H as <-. split.
  - rewrite vtotal_vput, foldr_add_app, Ht. simpl. lia.
  - intros s. rewrite vget_vput, foldr_add_app, Hg. unfold is_key at 2. simpl. unfold is_key.
    destruct (py_eq (key x) (VStr s)); lia.
Qed.

Lemma counter_sums_fold {A} (key : A -> value) weight l new c c' :
  counter_sums key weight l c -> foldM (fun c x => vadd (key x) (weight x) c) c new = Ok c' ->
  counter_sums key weight (l ++ new) c'.
Proof.
  revert l c; induction new as [|x new IH]; intros l c Hc H; cbn [foldM] in H.
  - injection H as <-. by rewrite app_nil_r.
  - bind H as c1 H1. apply (IH (l ++ [x])) in H; [by rewrite <-app_assoc in H|]. by eapply counter_sums_add.
Qed.

Lemma counter_sums_nil {A} (key : A -> value) weight : counter_sums key weight [] [].
Proof. done. Qed.

Lemma counter_sums_perm {A} (key : A -> value) weight l c c' :
  c ≡ₚ c' -> counter_sums key weight l c -> counter_sums key weight l c'.
Proof.
  intros Hp [H1 H2]. split; [by rewrite <-(vtotal_perm _ _ Hp)|].
  intros s. by rewrite <-(vget_perm _ _ _ Hp).
Qed.

(** ** The rollup is the sum of the contributions *)

Abbreviation ones := (fun _ => 1) (only parsing).

Definition protocol_states (p : string) (ks : list contribution) : list value :=
  omap (fun k => dget p (k_protocols k)) ks.

Record summed (s : rollup_state) (ks : list contribution) : Prop := {
  sm_total : rs_total s = Z.of_nat (length ks);
  sm_arch : counter_sums k_arch ones ks (rs_arch s);
  sm_os : counter_sums k_os ones ks (rs_os s);
  sm_isa : counter_sums k_isa ones ks (rs_isa s);
  sm_verdict : counter_sums k_verdict ones ks (rs_verdict s);
  sm_env : counter_sums k_env ones ks (rs_env s);
  sm_accel : counter_sums id ones (concat (k_kinds <$> ks)) (rs_accel s);
  sm_services : counter_sums id ones (concat (k_services <$> ks)) (rs_services s);
  sm_clients : counter_sums fst ones (concat (k_clients <$> ks)) (rs_clients s);
  sm_processes : counter_sums fst snd (concat (k_clients <$> ks)) (rs_processes s);
  sm_unavailable : forall p, cget p (rs_unavailable s) = occurrences p (concat (k_unavailable <$> ks));
  sm_replace : rs_replace s = count_where k_replace ks;
  sm_gap : (rs_gap s).*1 = PROTOCOLS /\
    forall p c, dget p (rs_gap s) = Some c -> counter_sums id ones (protocol_states p ks) c;
  sm_gap_hosts : forall st, st ∈ GAP_STATES ->
    cget st (rs_gap_hosts s) = count_where (fun k => vmem (VStr st) (host_states k)) ks }.

Lemma add_protocols ps gap gap' :
  NoDup ps.*1 -> foldM add_protocol gap ps = Ok gap' ->
  gap'.*1 = gap.*1 /\
  forall p c', dget p gap' = Some c' -> exists c, dget p gap = Some c /\
    match dget p ps with Some v => vadd v 1 c = Ok c' | None => c' = c end.
Proof.
  revert gap; induction ps as [|[q v] ps IH]; intros gap Hnd H; cbn [foldM] in H.
  - injection H as <-. split; [done|]. intros p c' Hp. by exists c'.
  - bind H as gap1 H1. unfold add_protocol in H1. cbn [fst snd] in H1.
    destruct (dget q gap) as [c|] eqn:Eq; [|done]. bind H1 as c1 Hc1. injection H1 as <-.
    inversion Hnd as [|? ? Hq Hnd']; subst. apply IH in H as [Hk H]; [|done].
    rewrite dset_keys in Hk. unfold dmem in Hk. rewrite Eq in Hk. split; [done|].
    intros p c' Hp. apply H in Hp as (c0 & Hc0 & Hm). rewrite dget_dset in Hc0. cbn [dget].
    destruct (decide (q = p)) as [<-|Hne].
    + injection Hc0 as <-. exists c. split; [done|].
      assert (dget q ps = None) as Hn by (by apply dget_None). rewrite Hn in Hm.
      rewrite decide_True by done. by subst.
    + exists c0. by rewrite decide_False by done.
Qed.

Lemma mapM_keyed {A B C} (f : A -> res B) (g : B -> res C) l out :
  mapM (fun p => d ← f p; st ← g d; Ok (p, st)) l = Ok out -> out.*1 = l.
Proof.
  revert out; induction l as [|x l IH]; intros out H; [by injection H as <-|].
  cbn in H. bind H as y Hy. bind H as ys Hys. injection H as <-.
  bind Hy as d Hd. bind Hy as st Hst. injection Hy as <-. csimpl. f_equal. by apply IH.
Qed.

Lemma contribute_protocols r k : contribute r = Ok k -> (k_protocols k).*1 = PROTOCOLS.
Proof.
  unfold contribute. intros H. do 12 bind_inv H. bind H as protos Hpr. bind H as states Hst. do 4 bind_inv H. injection H as <-.
  exact (mapM_keyed (fun p => get_d p protos) state_of _ _ Hst).
Qed.

Lemma counter_sums_snoc {A} (key : A -> value) ks k c c' :
  counter_sums key ones ks c -> vadd (key k) 1 c = Ok c' -> counter_sums key ones (ks ++ [k]) c'.
Proof. intros H1 H2. by eapply (counter_sums_add key ones). Qed.

Lemma counter_sums_concat {A B} (f : A -> list B) (key : B -> value) weight ks k c c' :
  counter_sums key weight (concat (f <$> ks)) c ->
  foldM (fun c x => vadd (key x) (weight x) c) c (f k) = Ok c' ->
  counter_sums key weight (concat (f <$> (ks ++ [k]))) c'.
Proof.
  intros H1 H2. rewrite fmap_app, concat_app. simpl. rewrite app_nil_r.
  by eapply (counter_sums_fold key weight).
Qed.

Lemma occurrences_app {K} `{EqDecision K} (k : K) l1 l2 :
  occurrences k (l1 ++ l2) = occurrences k l1 + occurrences k l2.
Proof. induction l1 as [|x l1 IH]; simpl; rewrite ?occurrences_cons; [done|]. rewrite IH. lia. Qed.

Lemma gap_hosts_step k st l c :
  NoDup l -> cget st (foldl (fun c st => if vmem (VStr st) (host_states k) then cincr st c else c) c l) =
  cget st c + (if bool_decide (st ∈ l) && vmem (VStr st) (host_states k) then 1 else 0).
Proof.
  revert c; induction l as [|x l IH]; intros c Hnd; [simpl; lia|].
  inversion Hnd as [|? ? Hx Hnd']; subst. cbn [foldl]. rewrite IH by done.
  destruct (decide (x = st)) as [->|Hne].
  - rewrite (bool_decide_eq_true_2 (st ∈ st :: l)) by (by left).
    rewrite (bool_decide_eq_false_2 (st ∈ l)) by done. cbn [andb].
    destruct (vmem (VStr st) (host_states k)); [|lia]. unfold cincr. rewrite cget_cadd, decide_True by done. lia.
  - assert (bool_decide (st ∈ x :: l) = bool_decide (st ∈ l)) as ->.
    { apply bool_decide_ext. rewrite elem_of_cons. naive_solver. }
    destruct (vmem (VStr x) (host_states k)); [|done]. unfold cincr. rewrite cget_cadd, decide_False by done. lia.
Qed.

Lemma protocol_states_snoc p ks k :
  protocol_states p (ks ++ [k]) = protocol_states p ks ++ match dget p (k_protocols k) with Some v => [v] | None => [] end.
Proof. unfold protocol_states. rewrite omap_app. simpl. by destruct (dget p (k_protocols k)). Qed.

Lemma add_contribution_summed s ks k s' :
  (k_protocols k).*1 = PROTOCOLS -> summed s ks -> add_contribution s k = Ok s' -> summed s' (ks ++ [k]).
Proof.
  intros Hpk [] H. unfold add_contribution in H.
  bind H as arch Ha. bind H as os Ho. bind H as isa Hi. bind H as verdict Hv. bind H as renv He.
  bind H as cpus Hc. bind H as accel Hac. bind H as gap Hg. bind H as services Hs. bind H as clients Hcl.
  bind H as processes Hp. injection H as <-.
  apply add_protocols in Hg as [Hk Hg]; [|rewrite Hpk; apply (bool_decide_unpack _); vm_compute; exact I].
  destruct sm_gap0 as [Hkeys Hgap].
  split; cbn [rs_total rs_arch rs_os rs_isa rs_verdict rs_env rs_accel rs_services rs_clients rs_processes
    rs_unavailable rs_replace rs_gap rs_gap_hosts].
  - rewrite length_app. simpl. lia.
  - by eapply counter_sums_snoc.
  - by eapply counter_sums_snoc.
  - by eapply counter_sums_snoc.
  - by eapply counter_sums_snoc.
  - by eapply counter_sums_snoc.
  - by eapply (counter_sums_concat k_kinds id ones).
  - by eapply (counter_sums_concat k_services id ones).
  - by eapply (counter_sums_concat k_clients fst ones).
  - by eapply (counter_sums_concat k_clients fst snd).
  - intros p. rewrite fmap_app, concat_app, occurrences_app. simpl. rewrite app_nil_r.
    change (foldl _ (rs_unavailable s) _) with (count_keys (k_unavailable k) (rs_unavailable s)).
    rewrite cget_count_keys. by rewrite sm_unavailable0.
  - rewrite count_where_snoc, <-sm_replace0. by destruct (k_replace k); [|lia].
  - split; [by rewrite Hk|]. intros p c' Hp'. apply Hg in Hp' as (c & Hc0 & Hm).
    apply Hgap in Hc0. rewrite protocol_states_snoc. destruct (dget p (k_protocols k)) as [v|].
    + by eapply (counter_sums_add id ones).
    + subst. by rewrite app_nil_r.
  - intros st Hst.
    assert (NoDup GAP_STATES) as Hnd by (apply (bool_decide_unpack _); vm_compute; exact I).
    etrans; [exact (gap_hosts_step k st GAP_STATES (rs_gap_hosts s) Hnd)|].
    rewrite count_where_snoc, sm_gap_hosts0 by done. by rewrite bool_decide_eq_true_2.
Qed.

Lemma rollup_summed reports s :
  foldM rollup_step rollup_init reports = Ok s ->
  exists ks, mapM contribute reports = Ok ks /\ summed s ks.
Proof.
  assert (forall reports s0 ks0 s, summed s0 ks0 -> foldM rollup_step s0 reports = Ok s ->
    exists ks, mapM contribute reports = Ok ks /\ summed s (ks0 ++ ks)) as Hgen.
  { clear. induction reports as [|r reports IH]; intros s0 ks0 s Hs H; cbn [foldM] in H.
    - injection H as <-. exists []. by rewrite app_nil_r.
    - bind H as s1 H1. unfold rollup_step in H1. bind H1 as k Hk.
      apply (IH s1 (ks0 ++ [k])) in H as (ks & Hks & H).
      + exists (k :: ks). split; [|by rewrite <-app_assoc in H].
        change (mapM contribute (r :: reports)) with (y ← contribute r; z ← mapM contribute reports; mret (y :: z)).
        rewrite Hk. cbn [mbind res_bind]. by rewrite Hks.
      + eapply add_contribution_summed; [by eapply contribute_protocols|done|done]. }
  intros H. apply (Hgen _ _ []) in H; [done|]. split; try done.
  split; [done|]. intros p c Hp. apply dget_elem_of in Hp.
  assert (c = []) as ->; [|done]. simpl in Hp. rewrite !elem_of_cons, elem_of_nil in Hp. naive_solver.
Qed.

Lemma sort_values_perm {A} (key : A -> value) l l' : sort_values key l = Ok l' -> l' ≡ₚ l.
Proof. unfold sort_values. destruct (_ || _); [|done]. intros [= <-]. apply py_sorted_perm. Qed.

Lemma sort_counter_sums {A} (key : A -> value) weight l c c' :
  sort_counter c = Ok c' -> counter_sums key weight l c -> counter_sums key weight l c'.
Proof. intros H. by apply counter_sums_perm; symmetry; eapply sort_values_perm. Qed.

(** What a rollup says of the contributions it was made from. *)
(** No element occurs twice, up to Python equality. *)
Definition distinct (l : list value) : Prop := ForallOrdPairs (fun a b => py_eq b a = false) l.

Lemma distinct_snoc l v : distinct l -> vmem v l = false -> distinct (l ++ [v]).
Proof.
  unfold distinct, vmem. induction 1 as [|x l Hx Hl IH]; simpl.
  - intros _. repeat constructor.
  - intros [H1 H2]%orb_false_iff. constructor; [|auto]. apply Forall_app. split; [done|by constructor].
Qed.

Lemma host_kinds_distinct r l : host_kinds r = Ok l -> distinct l.
Proof.
  unfold host_kinds. intros H. bind H as accs Ha. revert H. apply foldM_inv; [constructor|].
  intros seen a seen' _ Hs H. bind H as k Hk. unfold vset_add in H. destruct (hashable k); [|done].
  injection H as <-. destruct (vmem k seen) eqn:E; [done|by apply distinct_snoc].
Qed.

Lemma contribute_kinds_distinct reports ks :
  mapM contribute reports = Ok ks -> Forall (fun k => distinct (k_kinds k)) ks.
Proof.
  revert ks; induction reports as [|r reports IH]; intros ks H; [by injection H as <-|].
  change (mapM contribute (r :: reports)) with (y ← contribute r; z ← mapM contribute reports; mret (y :: z)) in H.
  bind H as k Hk. bind H as ks' Hks. injection H as <-. constructor; [|by apply IH].
  unfold contribute in Hk. repeat (bind_inv Hk). injection Hk as <-. simpl. by eapply host_kinds_distinct.
Qed.

Record rollup_of (u : rollup) (ks : list contribution) : Prop := {
  ro_total : u_total u = Z.of_nat (length ks);
  ro_arch : counter_sums k_arch ones ks (u_arch u);
  ro_os : counter_sums k_os ones ks (u_os u);
  ro_isa : counter_sums k_isa ones ks (u_isa u);
  ro_verdict : counter_sums k_verdict ones ks (u_verdict u);
  ro_env : counter_sums k_env ones ks (u_env u);
  ro_accel : counter_sums id ones (concat (k_kinds <$> ks)) (u_accel u);
  ro_kinds : Forall (fun k => distinct (k_kinds k)) ks;
  ro_unavailable : forall p, cget p (u_unavailable u) = occurrences p (concat (k_unavailable <$> ks));
  ro_replace : u_replace u = count_where k_replace ks;
  ro_gap : (u_gap u).*1 = PROTOCOLS /\
    forall p c, (p, c) ∈ u_gap u -> counter_sums id ones (protocol_states p ks) c;
  ro_services : counter_sums id ones (concat (k_services <$> ks)) (u_services u);
  ro_clients : counter_sums fst ones (concat (k_clients <$> ks)) (u_clients u);
  ro_processes : counter_sums fst snd (concat (k_clients <$> ks)) (u_processes u);
  ro_gap_hosts : u_gap_hosts u =
    (fun st => (st, count_where (fun k => vmem (VStr st) (host_states k)) ks)) <$> GAP_STATES }.

Lemma finish_gap gap gap' :
  mapM (fun pc : string * vcounter => c ← sort_counter pc.2; Ok (pc.1, c)) gap = Ok gap' ->
  gap'.*1 = gap.*1 /\ forall p c', (p, c') ∈ gap' -> exists c, (p, c) ∈ gap /\ sort_counter c = Ok c'.
Proof.
  revert gap'; induction gap as [|[q c] gap IH]; intros gap' H.
  - injection H as <-. split; [done|]. by intros p c' ?%not_elem_of_nil.
  - change (mapM _ ((q, c) :: gap)) with
      (y ← (c' ← sort_counter c; Ok (q, c')); z ← mapM (fun pc : string * vcounter => c ← sort_counter pc.2; Ok (pc.1, c)) gap; mret (y :: z)) in H.
    bind H as y Hy. bind Hy as c0 Hc0. injection Hy as <-. bind H as ys Hys. injection H as <-.
    apply IH in Hys as [Hk Hm]. split; [csimpl; by rewrite Hk|].
    intros p c' [[= -> ->]|Hin]%elem_of_cons.
    + exists c. split; [by left|done].
    + apply Hm in Hin as (c1 & H1 & H2). exists c1. split; [by right|done].
Qed.

Lemma aggregate_rollup reports u :
  aggregate_iter reports = Ok u -> exists ks, mapM contribute reports = Ok ks /\ rollup_of u ks.
Proof.
  unfold aggregate_iter. intros H. bind H as s Hs. apply rollup_summed in Hs as (ks & Hks & []).
  exists ks. split; [done|]. unfold finish in H.
  bind H as cpus Hc. bind H as gap Hg. bind H as services Hsv. bind H as clients Hcl. bind H as processes Hp.
  injection H as <-. apply finish_gap in Hg as [Hgk Hg]. destruct sm_gap0 as [Hk Hgap].
  split; cbn [u_total u_arch u_os u_isa u_verdict u_env u_accel u_unavailable u_replace u_gap u_services u_clients
    u_processes u_gap_hosts]; try done.
  - by eapply contribute_kinds_distinct.
  - split; [by rewrite Hgk|]. intros p c' Hin. apply Hg in Hin as (c & Hin & Hsc).
    eapply sort_counter_sums; [done|]. apply Hgap. apply dget_Some; [|done].
    unfold dwf. rewrite Hk. apply (bool_decide_unpack _). vm_compute. exact I.
  - by eapply sort_counter_sums.
  - by eapply sort_counter_sums.
  - by eapply sort_counter_sums.
  - change ((fun st => (st, cget st (rs_gap_hosts s))) <$> GAP_STATES =
      ((fun st => (st, count_where (fun k => vmem (VStr st) (host_states k)) ks)) <$> GAP_STATES)).
    apply list_fmap_ext. intros i st Hst. f_equal. apply sm_gap_hosts0. by eapply list_elem_of_lookup_2.
Qed.

Lemma counter_sums_total {A} (key : A -> value) l c :
  counter_sums key ones l c -> vtotal c = Z.of_nat (length l).
Proof. intros [-> _]. induction l as [|x l IH]; simpl; lia. Qed.

Lemma counter_sums_count {A} (key : A -> value) l c s :
  counter_sums key ones l c -> vget (VStr s) c = count_where (fun x => py_eq (key x) (VStr s)) l.
Proof.
  intros [_ ->]. unfold count_where. induction l as [|x l IH]; [done|]. simpl. rewrite IH. unfold is_key.
  destruct (py_eq (key x) (VStr s)); simpl; lia.
Qed.

Lemma contribute_states r k p : contribute r = Ok k -> p ∈ PROTOCOLS -> is_Some (dget p (k_protocols k)).
Proof.
  intros Hk%contribute_protocols Hp. destruct (dget p (k_protocols k)) eqn:E; [by eexists|].
  apply dget_None in E. by rewrite Hk in E.
Qed.

Lemma protocol_states_length reports ks p :
  mapM contribute reports = Ok ks -> p ∈ PROTOCOLS -> length (protocol_states p ks) = length ks.
Proof.
  intros H Hp. revert ks H; induction reports as [|r reports IH]; intros ks H; [by injection H as <-|].
  change (mapM contribute (r :: reports)) with (y ← contribute r; z ← mapM contribute reports; mret (y :: z)) in H.
  bind H as k Hk. bind H as ks' Hks. injection H as <-. unfold protocol_states in *. csimpl.
  destruct (contribute_states _ _ p Hk Hp) as [v ->]. simpl. f_equal. by apply IH.
Qed.

Lemma mapM_length {A B} (f : A -> res B) l k : mapM f l = Ok k -> length k = length l.
Proof.
  revert k; induction l as [|x l IH]; intros k H; [by injection H as <-|].
  change (mapM f (x :: l)) with (y ← f x; z ← mapM f l; mret (y :: z)) in H.
  bind H as y Hy. bind H as z Hz. injection H as <-. simpl. f_equal. by apply IH.
Qed.

(** C29: The fleet rollup is exact: it is a function of what each report
    contributes.  Every per-host counter (architecture, OS, instruction-set
    tier, verdict, environment, and the state of each protocol) adds up to
    the number of reports, and counts each name in exactly the reports that
    have it; accelerator kinds and unavailable probes are counted once per
    host that has them; services, client groups and client processes are
    summed; and the hosts with a gap are the hosts showing that state for
    any protocol, service or client. *)
Theorem aggregate_exact reports u :
  aggregate_iter reports = Ok u ->
  exists ks, mapM contribute reports = Ok ks /\ rollup_of u ks /\
    u_total u = Z.of_nat (length reports) /\
    Forall (fun c => vtotal c = u_total u) ([u_arch u; u_os u; u_isa u; u_verdict u; u_env u] ++ (u_gap u).*2) /\
    (forall s, vget (VStr s) (u_arch u) = count_where (fun k => py_eq (k_arch k) (VStr s)) ks) /\
    (forall s, vget (VStr s) (u_verdict u) = count_where (fun k => py_eq (k_verdict k) (VStr s)) ks).
Proof.
  intros H. apply aggregate_rollup in H as (ks & Hks & Hu). exists ks.
  pose proof (mapM_length _ _ _ Hks) as Hlen. destruct Hu as [].
  split_and!; [done|by split|by rewrite ro_total0, Hlen| | |].
  - rewrite ro_total0. apply Forall_app. split.
    + repeat constructor; by eapply counter_sums_total.
    + apply Forall_fmap, Forall_forall. intros [p c] Hin. simpl.
      assert (p ∈ PROTOCOLS) as Hp by (rewrite <-(proj1 ro_gap0); by apply (list_elem_of_fmap_2 fst) in Hin).
      apply ro_gap0, counter_sums_total in Hin. by rewrite Hin, (protocol_states_length _ _ _ Hks).
  - intros s. by apply counter_sums_count.
  - intros s. by apply counter_sums_count.
Qed.

(** Two counters that agree on every string and in total. *)
Definition same_counts (c c' : vcounter) : Prop :=
  vtotal c = vtotal c' /\ forall s, vget (VStr s) c = vget (VStr s) c'.

Lemma foldr_sum_perm {A} (f : A -> Z) l l' :
  l ≡ₚ l' -> foldr (fun x acc => f x + acc) 0 l = foldr (fun x acc => f x + acc) 0 l'.
Proof. induction 1; simpl; lia. Qed.

Lemma counter_sums_same {A} (key : A -> value) weight l l' c c' :
  l ≡ₚ l' -> counter_sums key weight l c -> counter_sums key weight l' c' -> same_counts c c'.
Proof.
  intros Hp [H1 H2] [H3 H4]. split; [by rewrite H1, H3, (foldr_sum_perm _ _ _ Hp)|].
  intros s. rewrite H2, H4. apply (foldr_sum_perm _ _ _ Hp).
Qed.

Lemma mapM_perm {A B} (f : A -> res B) l l' k k' :
  l ≡ₚ l' -> mapM f l = Ok k -> mapM f l' = Ok k' -> k ≡ₚ k'.
Proof.
  intros Hp Hk Hk'. assert (exists k2, mapM f l' = Ok k2 /\ k ≡ₚ k2) as (k2 & H2 & Hperm);
    [|assert (k2 = k') as -> by congruence; done].
  clear Hk' k'. revert k Hk. induction Hp as [|x l l' _ IH|x y l|l1 l2 l3 _ IH1 _ IH2]; intros k Hk.
  - by exists k.
  - apply mapM_cons_ok in Hk as (y & ys & -> & Hx & Hl). apply IH in Hl as (k2 & H2 & Hp).
    exists (y :: k2). split; [|by constructor]. apply mapM_cons_ok. by exists y, k2.
  - apply mapM_cons_ok in Hk as (a & ys & -> & Ha & Hk). apply mapM_cons_ok in Hk as (b & zs & -> & Hb & Hz).
    exists (b :: a :: zs). split; [|constructor].
    apply mapM_cons_ok. exists b, (a :: zs). split_and!; [done|done|]. apply mapM_cons_ok. by exists a, zs.
  - apply IH1 in Hk as (k2 & H2 & Hp2). apply IH2 in H2 as (k3 & H3 & Hp3).
    exists k3. split; [done|]. by rewrite Hp2.
Qed.

Lemma count_where_perm {A} (p : A -> bool) l l' : l ≡ₚ l' -> count_where p l = count_where p l'.
Proof.
  unfold count_where. induction 1 as [|x l l' _ IH|x y l|l1 l2 l3 _ IH1 _ IH2]; simpl.
  - done.
  - destruct (p x); simpl; lia.
  - destruct (p x), (p y); simpl; lia.
  - lia.
Qed.

Lemma occurrences_perm {K} `{EqDecision K} (k : K) l l' : l ≡ₚ l' -> occurrences k l = occurrences k l'.
Proof. unfold occurrences. by intros ->. Qed.

Lemma concat_perm {A B} (f : A -> list B) l l' : l ≡ₚ l' -> concat (f <$> l) ≡ₚ concat (f <$> l').
Proof.
  induction 1 as [|x l l' _ IH|x y l|l1 l2 l3 _ IH1 _ IH2]; csimpl; [done|by rewrite IH| |by rewrite IH1].
  rewrite !app_assoc. apply Permutation_app_tail, Permutation_app_comm.
Qed.

(** The rollup does not depend on the order in which the report files are
    read: two runs over the same reports in different orders that both
    succeed have the same totals and the same count for every name in every
    counter, the same numbers of hosts to replace and of hosts with a gap. *)
Theorem aggregate_order_independent reports reports' u u' :
  reports ≡ₚ reports' -> aggregate_iter reports = Ok u -> aggregate_iter reports' = Ok u' ->
  u_total u = u_total u' /\ u_replace u = u_replace u' /\ u_gap_hosts u = u_gap_hosts u' /\
  same_counts (u_arch u) (u_arch u') /\ same_counts (u_os u) (u_os u') /\ same_counts (u_isa u) (u_isa u') /\
  same_counts (u_verdict u) (u_verdict u') /\ same_counts (u_env u) (u_env u') /\
  same_counts (u_accel u) (u_accel u') /\ same_counts (u_services u) (u_services u') /\
  same_counts (u_clients u) (u_clients u') /\ same_counts (u_processes u) (u_processes u') /\
  (forall p, cget p (u_unavailable u) = cget p (u_unavailable u')) /\
  (forall p c c', (p, c) ∈ u_gap u -> (p, c') ∈ u_gap u' -> same_counts c c').
Proof.
  intros Hp (ks & Hks & [])%aggregate_rollup (ks' & Hks' & [])%aggregate_rollup.
  pose proof (mapM_perm _ _ _ _ _ Hp Hks Hks') as Hk.
  split_and!; try (eapply counter_sums_same; [|eassumption|eassumption]; (done || by apply concat_perm)).
  - rewrite ro_total0, ro_total1. by rewrite Hk.
  - rewrite ro_replace0, ro_replace1. by apply count_where_perm.
  - rewrite ro_gap_hosts0, ro_gap_hosts1. apply list_fmap_ext. intros. f_equal. by apply count_where_perm.
  - intros p. rewrite ro_unavailable0, ro_unavailable1. by apply occurrences_perm, concat_perm.
  - intros p c c' Hc Hc'. apply ro_gap0 in Hc. apply ro_gap1 in Hc'.
    eapply counter_sums_same; [|exact Hc|exact Hc']. unfold protocol_states. by rewrite Hk.
Qed.

Definition report (arch verdict : string) (enabled : bool) : value := VDict [
  ("schema_version", VStr "1.8"); ("arch", VStr arch); ("verdict", VStr verdict);
  ("kernel_info", VDict [("os_release_id", VStr "rhel")]); ("isa_tier", VStr "good"); ("cpu_model", VStr "x");
  ("openssl", VDict [("available", VBool true); ("pqc_native", VBool true)]);
  ("crypto_policy", VDict [("pqc_enabled", VDict [("tls_key_exchange", VBool enabled)])]);
  ("accelerators", VList [VDict [("kind", VStr "qat")]; VDict [("kind", VStr "qat")]])].
Definition sample_reports : list value :=
  [report "x86_64" "GOOD - production" true; report "s390x" "POOR - no" false; report "x86_64" "GOOD - other" false].

Lemma aggregate_exact_witness :
  exists u, aggregate_iter sample_reports = Ok u /\ u_total u = 3 /\
    vget (VStr "x86_64") (u_arch u) = 2 /\ u_verdict u = [(VStr "GOOD", 2); (VStr "POOR", 1)] /\
    u_accel u = [(VStr "qat", 3)] /\ u_gap_hosts u = [("capable_not_configured", 2); ("configured_not_capable", 0)].
Proof.
  destruct (aggregate_iter sample_reports) as [u|] eqn:E; [|vm_compute in E; discriminate].
  exists u. destruct (aggregate_exact _ _ E) as (ks & _ & _ & Ht & _).
  split; [reflexivity|]. split; [exact Ht|]. vm_compute in E. injection E as <-. split_and!; reflexivity.
Defined.

Lemma aggregate_order_independent_witness :
  exists u u', aggregate_iter sample_reports = Ok u /\ aggregate_iter (rev sample_reports) = Ok u' /\
    u_total u = u_total u' /\ same_counts (u_arch u) (u_arch u').
Proof.
  destruct (aggregate_iter sample_reports) as [u|] eqn:E; [|vm_compute in E; discriminate].
  destruct (aggregate_iter (rev sample_reports)) as [u'|] eqn:E'; [|vm_compute in E'; discriminate].
  exists u, u'. destruct (aggregate_order_independent _ _ _ _ (Permutation_rev sample_reports) E E')
    as (Ht & _ & _ & Ha & _).
  split_and!; [done|done|exact Ht|exact Ha].
Defined.

(** ** CSV and files *)

Lemma csv_rows_nonempty u : Forall (fun r : list string => r <> []) (csv_rows u).
Proof.
  assert (forall g c, Forall (fun r : list string => r <> []) (counter_rows g c)) as Hc
    by (intros; unfold counter_rows; by apply Forall_fmap, Forall_forall).
  assert (forall g c, Forall (fun r : list string => r <> []) (str_rows g c)) as Hs
    by (intros; unfold str_rows; by apply Forall_fmap, Forall_forall).
  unfold csv_rows. repeat (apply Forall_app; split); auto.
  - by apply Forall_fmap, Forall_forall.
  - apply Forall_concat, Forall_fmap, Forall_forall. intros pc _. apply Hc.
  - destruct (u_observations u) as [o|]; [|done]. unfold observation_rows.
    repeat (apply Forall_app; split); auto;
      apply Forall_fmap, Forall_forall; intros [[[a b] c] n] _; done.
Qed.

(** The CSV view loses nothing: whatever characters the keys contain
    (commas, quotes, line breaks), reading the rendered text back gives
    exactly the header and the rows of the rollup, one per counter entry, in
    order. *)
Theorem aggregate_to_csv_roundtrip u : csv_read (aggregate_to_csv u) = Some (csv_rows u).
Proof. apply csv_read_text, csv_rows_nonempty. Qed.

Definition admissible (parse : string -> value + string) (fp : string) : option value :=
  match parse fp with
  | inl (VDict d) => if py_eq (default VNone (dget "schema_version" d)) (VStr SCHEMA_VERSION) then Some (VDict d) else None
  | _ => None
  end.

Lemma admit_files parse fps acc :
  let out := foldl (admit_file parse) acc fps in
  out.1 = acc.1 ++ omap (admissible parse) fps /\
  out.2.*1 = acc.2.*1 ++ List.filter (fun fp => bool_decide (admissible parse fp = None)) fps.
Proof.
  revert acc; induction fps as [|fp fps IH]; intros acc; [simpl; by rewrite !app_nil_r|].
  destruct (IH (admit_file parse acc fp)) as [H1 H2]. cbv zeta in *. cbn [foldl]. rewrite H1, H2. clear.
  cbn [omap list_omap List.filter]. unfold admit_file, admissible.
  destruct (parse fp) as [[| | | | | |d]|e]; simpl; rewrite ?fmap_app, <-?app_assoc; try done.
  destruct (py_eq _ _) eqn:E; simpl; rewrite ?fmap_app, <-?app_assoc; done.
Qed.

(** Every file of the directory is used or listed: the reports rolled up
    are exactly the JSON objects of the current schema version, in path
    order; the skipped list names exactly the other files, in path order;
    and nothing a file contains stops the scan. *)
Theorem iter_aggregator_reports_spec parse paths :
  let out := iter_aggregator_reports parse paths in
  let sorted := py_sorted path_lt paths in
  sorted ≡ₚ paths /\ out.1 = omap (admissible parse) sorted /\
  out.2.*1 = List.filter (fun fp => bool_decide (admissible parse fp = None)) sorted /\
  (length out.1 + length out.2)%nat = length paths.
Proof.
  cbv zeta. unfold iter_aggregator_reports.
  destruct (admit_files parse (py_sorted path_lt paths) ([], [])) as [H1 H2]. cbv zeta in *. rewrite H1.
  split_and!; [apply py_sorted_perm|done|done|].
  apply (f_equal length) in H2. rewrite length_fmap in H2. rewrite H2. simpl.
  rewrite <-(length_py_sorted path_lt paths). generalize (py_sorted path_lt paths) as l. clear.
  induction l as [|fp l IH]; [done|]. cbn [omap list_omap List.filter length].
  destruct (admissible parse fp); simpl; lia.
Qed.
